(* ===== verification/_CoqProject ===== *)
-Q . S2P
Prelude.v
Bits.v
RangeList.v
VolumeBitmap.v
VolumeAllocation.v
AllocationTheorems.v
AllocationSteps.v
ExtentMapping.v
ExtentTheorems.v
ExtentTruncate.v
ExtentGrowth.v
ExtentTable.v
UnicodeTables.v
UnicodeCompare.v
UtfTables.v
UtfConv.v
NameMangling.v
Bytes.v
BTreeNode.v
BTreeKeys.v
BTreeNodeTheorems.v
BTreeBlocks.v
BTreeMap.v
BTreeMapTheorems.v
BTreeMisc.v
BTreeTree.v
BTreeSearch.v
BTreeRotate.v
BTreeInsert.v
BTreeFile.v
BTreeFileTheorems.v
BTreeIterate.v
BTreeScanner.v
BTreeScannerTheorems.v
ExtentRecords.v
ExtentTree.v
ExtentVolume.v
NodeSwap.v
NodeSwapTheorems.v
Encodings.v
MacTime.v
Catalog.v
CatalogKeys.v
CatalogTheorems.v
CatalogLookup.v
CatalogTable.v
CatalogIterators.v
CatalogIteratorLists.v
CatalogIteratorTheorems.v
CatalogIteratorThreads.v
CatalogDirectory.v
CatalogDirectoryTheorems.v
