(* ===== verification/Prelude.v ===== *)
(** * HFS and HFS Plus for FreeBSD: a verification development

    The program is the FreeBSD kernel module of src/hfsplus (with the name conversion of
    src/vfs), which mounts HFS and HFS Plus volumes.  Its own logic is a stack of
    components; from the bottom up:

    - the _volume bitmap_ and the _allocator_ of allocation blocks
      (hfscommon/Misc/VolumeAllocation.c);
    - the _B-tree manager_ (hfscommon/BTree), which keeps sorted records with keys in the
      nodes of a file: node operations, node map, tree operations, header and hints, and
      the interface BTSearchRecord, BTIterateRecord, BTInsertRecord, ...  The nodes come
      from the buffer cache (hfs_btreeio.c), which turns their fields from the big-endian
      order of the disk into that of the host (hfs_endian.c);
    - the _extent layer_ (hfscommon/Misc/FileExtentMapping.c): it maps positions of a fork to
      blocks, and extends and truncates forks with the allocator; the extents that do not
      fit into the catalog record are records of the extents B-tree;
    - _names_: the comparison of names, which orders the catalog
      (hfscommon/Unicode/UnicodeWrappers.c), the conversion of UTF-8 and UTF-16
      (vfs/vfs_utfconv.c), and the mangling of names that are too long;
    - _text encodings_ of HFS volumes (hfs_encodings.c) and _dates_ (hfs_macos_stubs.c);
    - the _catalog_ (hfs_catalog.c): files and folders as records of the catalog B-tree,
      under their parent and name, each with a thread record under its own number;
    - the _lists of invalid ranges_ of a file (rangelist.c).

    ** Conventions of the model

    A C function is a function of the same name.  Memory that it changes is an argument
    and a result.  Integers are in [Z], and the model wraps ([u16], [s16], [u32], ... below)
    where the types of the code do.  Code that can fail in the kernel returns an [outcome]: [Panic] for a call of
    panic(), [Fault] for an access outside the object that a pointer points into,
    [Diverge] for a loop that does not end.  Error codes are values.  Buffers and nodes are
    the lists of their bytes (Bytes.v), on a little-endian host; a position in one stands
    for a pointer.  DEBUG_BUILD is 1 and DIAGNOSTIC code that panics is part of the model,
    as in the sources (hfs_macos_defs.h).

    Loops whose end depends on data run with fuel, an upper bound that the loop cannot
    reach or that is at least the number of its rounds: the number of records of a node,
    of nodes of a file, of extents, of bits in the map, the depth of a tree (at most 16),
    the length of a string.  [Diverge] is the result without fuel; the theorems say
    that the result is [Ok], so that the fuel is shown to be enough.

    Code outside the sources is an interface: [bread] for the blocks of the
    bitmap, [FSAgent] and [ForkAgent] for the block and fork procedures of a B-tree
    ([GetBlockProc], [ReleaseBlockProc], [SetEndOfForkProc]: hfs_btreeio.c and the buffer
    cache), with the laws [FSAgentLaws]: a block that is released dirty is read back as it
    was written, and other blocks stay.  The catalog is on an interface too, [CatalogTree]
    with the laws [CatalogTreeLaws], whose operations are those of the B-tree manager.  The
    witnesses instantiate them with a file of
    blocks in memory.

    ** Files, sources and theorems

    - Prelude.v, Bits.v, Bytes.v: machine integers, outcomes, lists, bits of words,
      buffers.
    - RangeList.v (rangelist.c): [rl_add], [rl_remove], [rl_scan] and their helpers on the
      tail queue.  The set of bytes the list stands for is changed as it should be, on the
      lists the callers build; two theorems show where [rl_add] goes wrong.
    - VolumeBitmap.v, VolumeAllocation.v (VolumeAllocation.c): [BlockMarkAllocated],
      [BlockMarkFree], [BlockFindContiguous], [BlockAllocateAny], [BlockAllocateKnown],
      [BlockAllocateContig], [BlockAllocate], [BlockDeallocate] on the words of the bitmap.
      AllocationTheorems.v: each against the set of used blocks.  AllocationSteps.v: a step
      relation of allocations, deallocations and resets of the cache of free extents, with
      blocks of the bitmap that cannot be read; in every run of it, in which a contiguous
      allocation finds the cache empty as with its only caller, the extents given out are
      disjoint and marked, and no call panics.
    - ExtentMapping.v (FileExtentMapping.c): [MapFileBlockC], [ExtendFileC],
      [TruncateFileC], [DeallocateFork] and their helpers on an interface [ExtentsFile] to
      the records of the extents file.  ExtentTheorems.v, ExtentGrowth.v and
      ExtentTruncate.v state the laws of the interface ([ExtentsFileReads],
      [ExtentsFileWrites]) and prove the routines against the list of extents of a fork.
      ExtentTable.v is an instance that keeps the records in a table.
    - ExtentRecords.v (FileExtentMapping.c): [FindExtentRecord], [CreateExtentRecord],
      [DeleteExtentRecord] and the replacement of a record, on the B-tree manager: an
      instance of [ExtentsFile].  ExtentTree.v shows that the B-tree satisfies
      [ExtentsFileReads], so that the mapping of positions is verified down to the nodes of
      the B-tree; ExtentVolume.v applies it to a volume.
    - UnicodeTables.v, UnicodeCompare.v, NameMangling.v (UnicodeWrappers.c,
      UCStringCompareData.h): comparison of names is the lexicographic comparison of what
      the tables make of them; a mangled name gives the file ID back.
    - UtfTables.v, UtfConv.v (vfs_utfconv.c, vfs_utfconvdata.h): encoding and decoding with
      decomposition; round trips, and the length that is computed beforehand.
    - BTreeNode.v, BTreeKeys.v, BTreeNodeTheorems.v (BTreeNodeOps.c, the key comparisons of
      FileExtentMapping.c and Catalog.c): a node as the list of its records
      ([node_holds]); insertion, deletion and search of a record in it.
    - BTreeBlocks.v, BTreeMap.v, BTreeMapTheorems.v (BTreeNodeOps.c, BTreeAllocate.c): nodes
      of a file, and the map of the used ones.
    - BTreeMisc.v (BTreeMiscOps.c): the header, hints, and replacement in place.
    - BTreeTree.v, BTreeSearch.v, BTreeRotate.v, BTreeInsert.v (BTreeTreeOps.c): trees as an
      inductive predicate [tree_at] over the blocks of the file; search, rotation and split,
      insertion into and deletion from a leaf that keeps its place in the tree.
    - BTreeFile.v (BTree.c, and [ExtendBTree] and [FindIteratorPosition]): the interface of
      the manager.  BTreeFileTheorems.v and BTreeIterate.v: search, insertion, deletion and
      iteration against the sorted list of the records of the file ([tree_file]).
    - BTreeScanner.v, BTreeScannerTheorems.v (BTreeScanner.c): the scan of a B-tree file in the
      order of its nodes on disk, with the mapping and the reading of blocks as parameters
      (class [ScanDevice], with an image in memory as an instance): every record of every
      leaf once, also when the scan is interrupted and resumed.  Each round of
      [FindNextLeafNode] reads a buffer or goes on by a node, so twice the number of nodes
      is fuel enough ([find_fuel]).
    - NodeSwap.v, NodeSwapTheorems.v (hfs_endian.c): the fields of a node between the byte
      order of the disk and that of the host; there and back is the same node.
    - Encodings.v (hfs_encodings.c): the MacRoman converters with their tables, and the list
      of converters; a MacRoman name is the same after a round trip.
    - MacTime.v (hfs_macos_stubs.c): dates.
    - Catalog.v (hfs_catalog.c): [cat_lookup], [cat_idlookup], [cat_create], [cat_rename],
      [cat_delete], [cat_update] and all they call, on the bytes of keys and records, with
      the B-tree manager as an interface [CatalogTree].  CatalogKeys.v: the bytes that are
      written.  CatalogTheorems.v states the laws of the interface ([CatalogTreeLaws]) and
      the invariant [catalog_inv], that records and threads belong together;
      CatalogLookup.v has the look-ups.  CatalogTable.v has an instance in memory and the
      theorems: creating, renaming and deleting keep the invariant, change what they should
      and nothing else, or nothing at all; what was created is found.  The laws let an
      insertion or a deletion fail; the theorems say what is left behind then, and a second
      instance, which refuses changes, shows it on examples.
    - CatalogIterators.v (CatalogIterators.c, BuildCatalogKey of CatalogUtilities.c): the
      cache of directory positions, sixteen iterators in one array, linked in both directions
      in the order of use, with their locks and the one buffer for long names.  The routines
      are split where they release the lock of the list and may sleep; put together again
      they are the routines as one thread runs them alone.  CatalogIteratorLists.v: the links
      stand for one list, which the two insertions and [trash_loop] rearrange.
      CatalogIteratorTheorems.v: which iterator is found, recycled or discarded; a position
      survives the way to the cache and back.  CatalogIteratorThreads.v: several threads, as
      a labelled transition system whose steps are the parts under one lock: in every
      reachable state the list has each iterator once, a lock has one owner, every step that
      is enabled is made, and the threads cannot block each other for ever.
    - CatalogDirectory.v (hfs_catalog.c, PositionIterator of Catalog.c): [cat_getdirentries]
      and [cat_getentriesattr] with their callbacks, on the interface [DirectoryTree] of
      [BTIterateRecord] and [BTIterateRecords].  CatalogDirectoryTheorems.v, with its laws
      and the instance in memory: a folder that fits into the buffer and has no entries to
      hide is read completely,
      each entry once and in order; a later call finds nothing (a bug of the code); the list
      of attributes has the first entries of the folder.

    ** What the theorems leave open

    The theorems on insertion into a tree of several levels cover a record that has room in
    its leaf and does not become the first of it; splits are proved for the two nodes
    involved ([SplitLeft], [RotateLeft]), and all routines above are modelled and run on
    examples.  A search or iteration with a hint trusts the records of a leaf that the hint
    names, so the theorems ask that it is not one outside the tree.  The catalog is proved
    against the laws of its interface; that the B-tree manager satisfies them is shown for
    searches and for the insertions and deletions that the theorems on it cover, not for
    splits.  Most theorems on the catalog are about HFS Plus volumes and leave hard links out.
    Growing a B-tree file and replacing a record by a longer one are modelled
    without a theorem of their own.  The extents B-tree is shown to satisfy the reading half
    of [ExtentsFile].  Assignments to an iterator by its owner are one step each in
    CatalogIteratorThreads.v.

    ** Not modelled

    - hfs_vnops.c, hfs_vfsops.c, hfs_readwrite.c, hfs_lookup.c, hfs_cnode.c, hfs_chash.c,
      hfs_quota.c: glue between the kernel's vnode, mount, buffer-cache and
      locking interfaces and the components above; what they do is those interfaces.
    - hfscommon/Catalog: the searches of CatalogUtilities.c and FileIDsServices.c, which rest
      on BTreeWrapper.c.
    - hfs_btreeio.c: disk reads through the buffer cache.
    - BTreeWrapper.c: SearchBTreeRecord starts with a panic, the rest is unused.
    - hfs_encodinghint.c: a generated table of encodings; [hfs_pickencoding] is a parameter of
      the catalog.
    - newfs_hfs and mount_hfs: user programs, mostly disk access and option parsing.
    - src/xnu: the sources of Apple that the module is derived from, which it is not built
      from. *)
From stdpp Require Export base numbers list sorting gmap strings.
From Stdlib Require Export ZArith Lia Sorted.
Global Open Scope Z_scope.

(** ** Machine integers *)

Definition wrap (w z : Z) : Z := z mod 2 ^ w.
Definition u8 (z : Z) : Z := wrap 8 z.
Definition u16 (z : Z) : Z := wrap 16 z.
Definition u32 (z : Z) : Z := wrap 32 z.
Definition u64 (z : Z) : Z := wrap 64 z.

(** Two's-complement reading of the low [w] bits. *)
Definition swrap (w z : Z) : Z := (z + 2 ^ (w - 1)) mod 2 ^ w - 2 ^ (w - 1).
Definition s16 (z : Z) : Z := swrap 16 z.
Definition s32 (z : Z) : Z := swrap 32 z.
Definition s64 (z : Z) : Z := swrap 64 z.

Lemma wrap_small w z : 0 <= z < 2 ^ w -> wrap w z = z.
Proof. apply Z.mod_small. Qed.

Lemma swrap_small w z :
  0 < w -> - 2 ^ (w - 1) <= z < 2 ^ (w - 1) -> swrap w z = z.
Proof.
  intros Hw Hz. unfold swrap.
  assert (2 ^ w = 2 * 2 ^ (w - 1)) as Hp
    by (rewrite <- Z.pow_succ_r by lia; f_equal; lia).
  rewrite Z.mod_small; lia.
Qed.

Lemma u8_small z : 0 <= z < 256 -> u8 z = z.
Proof. apply Z.mod_small. Qed.
Lemma u16_small z : 0 <= z < 65536 -> u16 z = z.
Proof. apply Z.mod_small. Qed.
Lemma u32_small z : 0 <= z < 4294967296 -> u32 z = z.
Proof. apply Z.mod_small. Qed.
Lemma s16_small z : - 32768 <= z < 32768 -> s16 z = z.
Proof. intros. apply (swrap_small 16); lia. Qed.
Lemma s64_small z : - 9223372036854775808 <= z < 9223372036854775808 -> s64 z = z.
Proof. intros. apply (swrap_small 64); lia. Qed.

(** ** Outcomes of kernel code

    [Panic] is a call of [panic], [Fault] an access outside the object a
    pointer points into, [Diverge] a loop that cannot leave. *)
Inductive outcome (A : Type) : Type :=
| Ok (a : A)
| Panic (msg : string)
| Fault
| Diverge.
Arguments Ok {A} _.
Arguments Panic {A} _.
Arguments Fault {A}.
Arguments Diverge {A}.

#[export] Instance outcome_ret : MRet outcome := @Ok.
#[export] Instance outcome_bind : MBind outcome := fun A B f m =>
  match m with
  | Ok a => f a
  | Panic msg => Panic msg
  | Fault => Fault
  | Diverge => Diverge
  end.

Definition is_Ok {A} (o : outcome A) : Prop := exists a, o = Ok a.

Lemma bind_Ok {A B} (m : outcome A) (f : A -> outcome B) b :
  (m ≫= f) = Ok b <-> exists a, m = Ok a /\ f a = Ok b.
Proof. destruct m; naive_solver. Qed.

(** [assert_fault c k] continues when the access is within bounds. *)
Definition of_option {A} (o : option A) : outcome A :=
  match o with Some a => Ok a | None => Fault end.

(** ** Case analysis on the code's integer tests *)
Ltac case_ztest :=
  match goal with
  | |- context [Z.eqb ?a ?b] => destruct (Z.eqb_spec a b)
  | |- context [Z.ltb ?a ?b] => destruct (Z.ltb_spec a b)
  | |- context [Z.leb ?a ?b] => destruct (Z.leb_spec a b)
  end.
Ltac case_ztests := repeat (case_ztest; simpl; try lia).
Ltac ztests_in H :=
  repeat match type of H with
  | context [Z.eqb ?a ?b] => destruct (Z.eqb_spec a b)
  | context [Z.ltb ?a ?b] => destruct (Z.ltb_spec a b)
  | context [Z.leb ?a ?b] => destruct (Z.leb_spec a b)
  end; simpl in H.

(** ** Lists *)
Section filters.
Context {A : Type} (P : A -> Prop) `{!forall x, Decision (P x)}.

Lemma filter_same (Q : A -> Prop) `{!forall x, Decision (Q x)} (l : list A) :
  (forall x, x ∈ l -> P x <-> Q x) -> filter P l = filter Q l.
Proof.
  induction l as [|x l IH]; intros Hext; [done|]. rewrite !filter_cons.
  rewrite IH by (intros y Hy; apply Hext; set_solver).
  destruct (Hext x ltac:(set_solver)). repeat case_decide; tauto || done.
Qed.

Lemma filter_all (l : list A) : Forall P l -> filter P l = l.
Proof. induction 1 as [|x l Hx Hl IH]; [done|]. by rewrite filter_cons, decide_True, IH. Qed.

Lemma filter_none (l : list A) : Forall (fun x => ~ P x) l -> filter P l = [].
Proof. induction 1 as [|x l Hx Hl IH]; [done|]. by rewrite filter_cons, decide_False, IH. Qed.
End filters.

(** A list split at an element. *)
Lemma list_lookup_split {A} (pre : list A) e post : (pre ++ e :: post) !! length pre = Some e.
Proof. by rewrite list_lookup_middle. Qed.
Lemma list_insert_split {A} (pre : list A) e e' post :
  <[length pre := e']> (pre ++ e :: post) = pre ++ e' :: post.
Proof. rewrite insert_app_r_alt, Nat.sub_diag by lia. done. Qed.
Lemma list_delete_split {A} (pre : list A) e post :
  delete (length pre) (pre ++ e :: post) = pre ++ post.
Proof. by rewrite delete_middle. Qed.
Lemma list_take_split {A} (pre : list A) e post :
  take (length pre) (pre ++ e :: post) = pre.
Proof. apply take_app_length. Qed.
Lemma list_drop_split {A} (pre : list A) e post :
  drop (S (length pre)) (pre ++ e :: post) = post.
Proof.
  replace (S (length pre)) with (length (pre ++ [e])) by (rewrite length_app; simpl; lia).
  replace (pre ++ e :: post) with ((pre ++ [e]) ++ post) by by rewrite <- app_assoc.
  apply drop_app_length.
Qed.

(** ** Arrays

    [t\[i\]] of a C array; an index outside is a fault. *)
Definition array_at {A} (t : list A) (i : Z) : outcome A :=
  of_option (if 0 <=? i then t !! Z.to_nat i else None).

Lemma array_at_ok {A} (t : list A) i :
  0 <= i < Z.of_nat (length t) -> exists x, array_at t i = Ok x /\ x ∈ t.
Proof.
  intros Hi. unfold array_at. rewrite (proj2 (Z.leb_le _ _)) by lia.
  destruct (lookup_lt_is_Some_2 t (Z.to_nat i)) as [x Hx]; [lia|].
  exists x. rewrite Hx. split; [done|]. by apply list_elem_of_lookup_2 in Hx.
Qed.

(** A 16-bit Unicode character. *)
Definition unichar (c : Z) : Prop := 0 <= c < 2 ^ 16.
#[export] Instance unichar_dec c : Decision (unichar c).
Proof. unfold unichar. apply _. Defined.
