(* ===== verification/Bits.v ===== *)
(** * Bit operations on machine words

    Byte swapping ([bswap16]/[bswap32] of <sys/endian.h>, which the
    [SWAP_BE16]/[SWAP_BE32] macros of hfsplus/hfs_endian.h expand to on a
    little-endian host) and the masks the allocation code builds, all described
    by their bits. *)
From S2P Require Import Prelude.

(** Byte number [a/8] of [w], moved to bit [b]. *)
Definition byte_move (w a b : Z) : Z := Z.shiftl (Z.land (Z.shiftr w a) 255) b.

Definition bswap16 (w : Z) : Z := Z.lor (byte_move w 0 8) (byte_move w 8 0).
Definition bswap32 (w : Z) : Z :=
  Z.lor (Z.lor (byte_move w 0 24) (byte_move w 8 16))
        (Z.lor (byte_move w 16 8) (byte_move w 24 0)).

Definition SWAP_BE16 (a : Z) : Z := bswap16 a.
Definition SWAP_BE32 (a : Z) : Z := bswap32 a.

(** ** Bits *)

Lemma testbit_high w z i : 0 <= z < 2 ^ w -> w <= i -> Z.testbit z i = false.
Proof.
  intros Hz Hi. destruct (decide (z = 0)) as [->|]; [apply Z.bits_0|].
  apply Z.bits_above_log2; [lia|]. apply Z.log2_lt_pow2; [lia|].
  pose proof (Z.pow_le_mono_r 2 w i). destruct (decide (0 <= w)); [lia|].
  rewrite (Z.pow_neg_r 2 w) in Hz; lia.
Qed.

Lemma bits_range w z :
  0 <= w -> 0 <= z -> (forall i, w <= i -> Z.testbit z i = false) -> 0 <= z < 2 ^ w.
Proof.
  intros Hw Hz Hb. split; [done|]. destruct (decide (z = 0)) as [->|Hn].
  { apply Z.pow_pos_nonneg; lia. }
  apply Z.log2_lt_pow2; [lia|]. destruct (decide (w <= Z.log2 z)) as [H|]; [|lia].
  specialize (Hb _ H). rewrite Z.bit_log2 in Hb by lia. done.
Qed.

(** Two words of width [w] are equal when their bits are. *)
Lemma bits_eq w a b :
  0 <= a < 2 ^ w -> 0 <= b < 2 ^ w ->
  (forall i, 0 <= i < w -> Z.testbit a i = Z.testbit b i) -> a = b.
Proof.
  intros Ha Hb Hi. apply Z.bits_inj'. intros i Hi0.
  destruct (decide (i < w)); [apply Hi; lia|]. rewrite !(testbit_high w) by lia. done.
Qed.

Lemma testbit_byte_move w a b i :
  0 <= a -> 0 <= b -> 0 <= i ->
  Z.testbit (byte_move w a b) i = (b <=? i) && (i <? b + 8) && Z.testbit w (i - b + a).
Proof.
  intros Ha Hb Hi. unfold byte_move. rewrite Z.shiftl_spec by done.
  destruct (Z.leb_spec b i); simpl; [|by rewrite Z.testbit_neg_r by lia].
  rewrite Z.land_spec, Z.shiftr_spec by lia. change 255 with (Z.ones 8).
  destruct (Z.ltb_spec i (b + 8)).
  - rewrite Z.ones_spec_low by lia. by rewrite andb_true_r.
  - rewrite Z.ones_spec_high by lia. by rewrite andb_false_r.
Qed.

Lemma byte_move_nonneg w a b : 0 <= byte_move w a b.
Proof. unfold byte_move. rewrite Z.shiftl_nonneg, Z.land_nonneg. lia. Qed.

(** Where bit [i] of a swapped word comes from. *)
Definition swap32_pos (i : Z) : Z := i mod 8 + 8 * (3 - i / 8).
Definition swap16_pos (i : Z) : Z := i mod 8 + 8 * (1 - i / 8).

Lemma bswap32_spec w i :
  0 <= i < 32 -> Z.testbit (bswap32 w) i = Z.testbit w (swap32_pos i).
Proof.
  intros Hi. unfold bswap32, swap32_pos. rewrite !Z.lor_spec, !testbit_byte_move by lia.
  pose proof (Z.div_mod i 8 ltac:(lia)). pose proof (Z.mod_pos_bound i 8 ltac:(lia)).
  assert (i / 8 = 0 \/ i / 8 = 1 \/ i / 8 = 2 \/ i / 8 = 3) as [E|[E|[E|E]]] by lia;
    rewrite E in *; case_ztests; rewrite ?orb_false_r; f_equal; lia.
Qed.

Lemma bswap16_spec w i :
  0 <= i < 16 -> Z.testbit (bswap16 w) i = Z.testbit w (swap16_pos i).
Proof.
  intros Hi. unfold bswap16, swap16_pos. rewrite !Z.lor_spec, !testbit_byte_move by lia.
  pose proof (Z.div_mod i 8 ltac:(lia)). pose proof (Z.mod_pos_bound i 8 ltac:(lia)).
  assert (i / 8 = 0 \/ i / 8 = 1) as [E|E] by lia;
    rewrite E in *; case_ztests; rewrite ?orb_false_r; f_equal; lia.
Qed.

Lemma bswap32_range w : 0 <= bswap32 w < 2 ^ 32.
Proof.
  apply bits_range; [lia|unfold bswap32; rewrite !Z.lor_nonneg; auto using byte_move_nonneg|].
  intros i Hi. unfold bswap32. rewrite !Z.lor_spec, !testbit_byte_move by lia. case_ztests; done.
Qed.
Lemma bswap16_range w : 0 <= bswap16 w < 2 ^ 16.
Proof.
  apply bits_range; [lia|unfold bswap16; rewrite !Z.lor_nonneg; auto using byte_move_nonneg|].
  intros i Hi. unfold bswap16. rewrite !Z.lor_spec, !testbit_byte_move by lia. case_ztests; done.
Qed.

Lemma swap32_pos_range i : 0 <= i < 32 -> 0 <= swap32_pos i < 32.
Proof. unfold swap32_pos. Z.to_euclidean_division_equations. lia. Qed.
Lemma swap32_pos_invol i : 0 <= i < 32 -> swap32_pos (swap32_pos i) = i.
Proof. unfold swap32_pos. Z.to_euclidean_division_equations. lia. Qed.
Lemma swap16_pos_range i : 0 <= i < 16 -> 0 <= swap16_pos i < 16.
Proof. unfold swap16_pos. Z.to_euclidean_division_equations. lia. Qed.
Lemma swap16_pos_invol i : 0 <= i < 16 -> swap16_pos (swap16_pos i) = i.
Proof. unfold swap16_pos. Z.to_euclidean_division_equations. lia. Qed.

(** Swapping twice gives the word back. *)
Lemma bswap32_invol w : 0 <= w < 2 ^ 32 -> bswap32 (bswap32 w) = w.
Proof.
  intros Hw. apply (bits_eq 32); [apply bswap32_range|done|]. intros i Hi.
  rewrite bswap32_spec, bswap32_spec, swap32_pos_invol by auto using swap32_pos_range. done.
Qed.
Lemma bswap16_invol w : 0 <= w < 2 ^ 16 -> bswap16 (bswap16 w) = w.
Proof.
  intros Hw. apply (bits_eq 16); [apply bswap16_range|done|]. intros i Hi.
  rewrite bswap16_spec, bswap16_spec, swap16_pos_invol by auto using swap16_pos_range. done.
Qed.

(** ** Masks and updates seen through the byte swap *)

Lemma ones32 i : 0 <= i < 32 -> Z.testbit 0xFFFFFFFF i = true.
Proof. intros. change 0xFFFFFFFF with (Z.ones 32). apply Z.ones_spec_low; lia. Qed.

Lemma testbit_u32 z i : 0 <= i < 32 -> Z.testbit (u32 z) i = Z.testbit z i.
Proof. intros. apply Z.mod_pow2_bits_low. lia. Qed.
Lemma testbit_u32_lnot z i : 0 <= i < 32 -> Z.testbit (u32 (Z.lnot z)) i = negb (Z.testbit z i).
Proof. intros. rewrite testbit_u32 by done. apply Z.lnot_spec. lia. Qed.
Lemma u32_range z : 0 <= u32 z < 2 ^ 32.
Proof. apply Z.mod_pos_bound. lia. Qed.

(** [kAllBitsSetInWord >> n] has the bits below [32 - n]. *)
Lemma testbit_ones_shiftr n i :
  0 <= n -> 0 <= i < 32 -> Z.testbit (Z.shiftr 0xFFFFFFFF n) i = (i <? 32 - n).
Proof.
  intros Hn Hi. rewrite Z.shiftr_spec by lia. change 0xFFFFFFFF with (Z.ones 32).
  destruct (Z.ltb_spec i (32 - n)); [apply Z.ones_spec_low|apply Z.ones_spec_high]; lia.
Qed.
Lemma ones_shiftr_range n : 0 <= n -> 0 <= Z.shiftr 0xFFFFFFFF n < 2 ^ 32.
Proof.
  intros. rewrite Z.shiftr_div_pow2 by done. assert (0 < 2 ^ n) by (apply Z.pow_pos_nonneg; lia).
  split; [apply Z.div_pos; lia|]. apply Z.div_lt_upper_bound; [done|]. nia.
Qed.

Lemma lor_range w a b : 0 <= a < 2 ^ w -> 0 <= b < 2 ^ w -> 0 <= Z.lor a b < 2 ^ w.
Proof.
  intros Ha Hb. destruct (decide (0 <= w)) as [Hw|]; [|rewrite Z.pow_neg_r in Ha; lia].
  apply bits_range; [done|apply Z.lor_nonneg; lia|].
  intros i Hi. rewrite Z.lor_spec, !(testbit_high w) by done. done.
Qed.
Lemma land_range w a b : 0 <= a < 2 ^ w -> 0 <= b -> 0 <= Z.land a b < 2 ^ w.
Proof.
  intros Ha Hb. destruct (decide (0 <= w)) as [Hw|]; [|rewrite Z.pow_neg_r in Ha; lia].
  apply bits_range; [done|apply Z.land_nonneg; lia|].
  intros i Hi. rewrite Z.land_spec, (testbit_high w a) by done. done.
Qed.

Lemma bswap32_lor a b i :
  0 <= i < 32 ->
  Z.testbit (bswap32 (Z.lor a (bswap32 b))) i = Z.testbit (bswap32 a) i || Z.testbit b i.
Proof.
  intros Hi. rewrite !bswap32_spec, Z.lor_spec, bswap32_spec, swap32_pos_invol
    by auto using swap32_pos_range. done.
Qed.
Lemma bswap32_land a b i :
  0 <= i < 32 ->
  Z.testbit (bswap32 (Z.land a (bswap32 b))) i = Z.testbit (bswap32 a) i && Z.testbit b i.
Proof.
  intros Hi. rewrite !bswap32_spec, Z.land_spec, bswap32_spec, swap32_pos_invol
    by auto using swap32_pos_range. done.
Qed.

(** A word is determined by the bits of its swap. *)
Lemma bswap32_eq a b :
  0 <= a < 2 ^ 32 -> 0 <= b < 2 ^ 32 ->
  a = b <-> forall i, 0 <= i < 32 -> Z.testbit (bswap32 a) i = Z.testbit (bswap32 b) i.
Proof.
  intros Ha Hb. split; [by intros ->|]. intros H. apply (bits_eq 32); [done..|]. intros i Hi.
  specialize (H (swap32_pos i) (swap32_pos_range i Hi)).
  rewrite !bswap32_spec, !swap32_pos_invol in H by auto using swap32_pos_range. done.
Qed.
Lemma bswap32_neq a b :
  0 <= a < 2 ^ 32 -> 0 <= b < 2 ^ 32 -> a <> b ->
  exists i, 0 <= i < 32 /\ Z.testbit (bswap32 a) i <> Z.testbit (bswap32 b) i.
Proof.
  intros Ha Hb Hn.
  destruct (decide (Forall (fun i => Z.testbit (bswap32 a) i = Z.testbit (bswap32 b) i) (seqZ 0 32)))
    as [H|H].
  - destruct Hn. apply bswap32_eq; [done..|]. intros i Hi. rewrite Forall_forall in H.
    apply H, elem_of_seqZ. lia.
  - apply not_Forall_Exists in H; [|apply _]. apply Exists_exists in H as (i & Hi & Hd).
    apply elem_of_seqZ in Hi. exists i. split; [lia|done].
Qed.
