(* ===== verification/RangeList.v ===== *)
(** * Range lists (hfsplus/rangelist.c, hfsplus/rangelist.h)

    A cnode keeps the byte ranges of its file that were allocated but never
    written in a tail queue of [rl_entry]; reads of them are zero-filled.  The
    queue is a [list]; an entry's address is its index in the queue.  [off_t]
    arithmetic is at 64 bits, signed, and [RL_INFINITY] (-1) as an end marks a
    range without end. *)
From S2P Require Import Prelude.

Record rl_entry := Rl { rl_start : Z; rl_end : Z }.
Abbreviation rl_head := (list rl_entry).

Inductive rl_overlaptype :=
| RL_NOOVERLAP
| RL_MATCHINGOVERLAP
| RL_OVERLAPCONTAINSRANGE
| RL_OVERLAPISCONTAINED
| RL_OVERLAPSTARTSBEFORE
| RL_OVERLAPENDSAFTER.

#[export] Instance rl_entry_eq_dec : EqDecision rl_entry.
Proof. solve_decision. Defined.
#[export] Instance rl_overlaptype_eq_dec : EqDecision rl_overlaptype.
Proof. solve_decision. Defined.

Definition RL_INFINITY : Z := -1.
Definition is_inf (z : Z) : bool := z =? RL_INFINITY.

Definition rl_init : rl_head := [].

(** ** Scanning *)

(** The test of case 0: the entry lies before or after the range. *)
Definition rl_misses (range : rl_entry) (start end_ : Z) : bool :=
  (negb (is_inf (rl_end range)) && (rl_end range <? start))
  || (negb (is_inf end_) && (end_ <? rl_start range)).

(** Cases 1 to 5 of one turn of the loop; [None] is control reaching the end of
    the loop body. *)
Definition rl_classify (range : rl_entry) (start end_ : Z) : option rl_overlaptype :=
  if (rl_start range =? start) && (rl_end range =? end_) then
    Some RL_MATCHINGOVERLAP
  else if (rl_start range <=? start) && negb (is_inf end_)
          && ((end_ <=? rl_end range) || is_inf (rl_end range)) then
    Some RL_OVERLAPCONTAINSRANGE
  else if (start <=? rl_start range)
          && (is_inf end_ || (negb (is_inf (rl_end range)) && (rl_end range <=? end_))) then
    Some RL_OVERLAPISCONTAINED
  else if (rl_start range <? start)
          && ((start <=? rl_end range) || is_inf (rl_end range)) then
    Some RL_OVERLAPSTARTSBEFORE
  else if (start <? rl_start range) && negb (is_inf end_)
          && ((end_ <? rl_end range) || is_inf (rl_end range)) then
    Some RL_OVERLAPENDSAFTER
  else None.

(** The loop of [rl_scan_from], at the entry with index [i] whose queue from
    there on is [rest].  A turn that reaches the end of the body is repeated
    unchanged. *)
Fixpoint rl_scan_loop (rest : rl_head) (start end_ : Z) (i : nat)
  : outcome (rl_overlaptype * option nat) :=
  match rest with
  | [] => Fault
  | range :: rest' =>
      if rl_misses range start end_ then
        if negb (is_inf end_) && (end_ <? rl_start range) then
          Ok (RL_NOOVERLAP, Some i)
        else
          match rest' with
          | [] => Ok (RL_NOOVERLAP, Some i)
          | _ => rl_scan_loop rest' start end_ (S i)
          end
      else
        match rl_classify range start end_ with
        | Some c => Ok (c, Some i)
        | None => Diverge
        end
  end.

Definition rl_scan_from (rangelist : rl_head) (start end_ : Z) (range : nat)
  : outcome (rl_overlaptype * option nat) :=
  match rangelist with
  | [] => Ok (RL_NOOVERLAP, None)
  | _ => rl_scan_loop (drop range rangelist) start end_ range
  end.

Definition rl_scan (rangelist : rl_head) (start end_ : Z)
  : outcome (rl_overlaptype * option nat) :=
  match rangelist with
  | [] => Ok (RL_NOOVERLAP, None)
  | _ => rl_scan_from rangelist start end_ 0
  end.

(** ** Collapsing *)

(** The loop of [rl_collapse_forwards]: [range] and the queue after it. *)
Fixpoint rl_collapse_forwards_loop (range : rl_entry) (after : rl_head) : rl_head :=
  match after with
  | [] => [range]
  | next_range :: after' =>
      if negb (is_inf (rl_end range)) && (rl_end range <? s64 (rl_start next_range - 1)) then
        range :: after
      else
        rl_collapse_forwards_loop (Rl (rl_start range) (rl_end next_range)) after'
  end.

Definition rl_collapse_forwards (rangelist : rl_head) (range : nat) : outcome rl_head :=
  r ← of_option (rangelist !! range);
  Ok (take range rangelist ++ rl_collapse_forwards_loop r (drop (S range) rangelist)).

(** The loop of [rl_collapse_backwards]: the queue before [range], nearest
    entry first, and [range]. *)
Fixpoint rl_collapse_backwards_loop (before : rl_head) (range : rl_entry)
  : rl_head * rl_entry :=
  match before with
  | [] => ([], range)
  | prev_range :: before' =>
      if rl_end prev_range <? s64 (rl_start range - 1) then (before, range)
      else rl_collapse_backwards_loop before' (Rl (rl_start prev_range) (rl_end range))
  end.

Definition rl_collapse_backwards (rangelist : rl_head) (range : nat) : outcome rl_head :=
  r ← of_option (rangelist !! range);
  let '(before, r') := rl_collapse_backwards_loop (reverse (take range rangelist)) r in
  Ok (reverse before ++ r' :: drop (S range) rangelist).

Definition rl_collapse_neighbors (rangelist : rl_head) (range : nat) : outcome rl_head :=
  l ← rl_collapse_forwards rangelist range;
  rl_collapse_backwards l range.

(** ** Adding and removing *)

Definition rl_add (start end_ : Z) (rangelist : rl_head) : outcome rl_head :=
  '(ovcase, overlap) ← rl_scan rangelist start end_;
  match ovcase with
  | RL_NOOVERLAP =>
      match overlap with
      | Some i =>
          (* TAILQ_INSERT_AFTER(rangelist, overlap, range, rl_link) *)
          rl_collapse_neighbors
            (take (S i) rangelist ++ Rl start end_ :: drop (S i) rangelist) (S i)
      | None =>
          (* TAILQ_INSERT_HEAD(rangelist, range, rl_link) *)
          rl_collapse_neighbors (Rl start end_ :: rangelist) 0
      end
  | RL_MATCHINGOVERLAP | RL_OVERLAPCONTAINSRANGE => Ok rangelist
  | RL_OVERLAPISCONTAINED =>
      i ← of_option overlap;
      rl_collapse_neighbors (<[i := Rl start end_]> rangelist) i
  | RL_OVERLAPSTARTSBEFORE =>
      i ← of_option overlap;
      o ← of_option (rangelist !! i);
      rl_collapse_forwards (<[i := Rl (rl_start o) end_]> rangelist) i
  | RL_OVERLAPENDSAFTER =>
      i ← of_option overlap;
      o ← of_option (rangelist !! i);
      rl_collapse_backwards (<[i := Rl start (rl_end o)]> rangelist) i
  end.

(** The loop of [rl_remove], scanning from the entry with index [range]. *)
Fixpoint rl_remove_loop (fuel : nat) (start end_ : Z) (rangelist : rl_head) (range : nat)
  : outcome rl_head :=
  match fuel with
  | O => Diverge
  | S fuel' =>
      '(ovcase, overlap) ← rl_scan_from rangelist start end_ range;
      match ovcase with
      | RL_NOOVERLAP => Ok rangelist
      | _ =>
          i ← of_option overlap;
          o ← of_option (rangelist !! i);
          let moretotest := negb (S i =? length rangelist)%nat in
          match ovcase with
          | RL_NOOVERLAP => Ok rangelist
          | RL_MATCHINGOVERLAP => Ok (delete i rangelist)
          | RL_OVERLAPCONTAINSRANGE =>
              if rl_start o =? start then
                Ok (<[i := Rl (s64 (end_ + 1)) (rl_end o)]> rangelist)
              else if rl_end o =? end_ then
                Ok (<[i := Rl (rl_start o) (s64 (start - 1))]> rangelist)
              else
                Ok (take i rangelist ++ Rl (rl_start o) (s64 (start - 1))
                      :: Rl (s64 (end_ + 1)) (rl_end o) :: drop (S i) rangelist)
          | RL_OVERLAPISCONTAINED =>
              if moretotest then
                rl_remove_loop fuel' start end_ (delete i rangelist) i
              else Ok (delete i rangelist)
          | RL_OVERLAPSTARTSBEFORE =>
              let l := <[i := Rl (rl_start o) (s64 (start - 1))]> rangelist in
              if moretotest then rl_remove_loop fuel' start end_ l (S i) else Ok l
          | RL_OVERLAPENDSAFTER =>
              Ok (<[i := Rl (if end_ =? RL_INFINITY then RL_INFINITY else s64 (end_ + 1))
                            (rl_end o)]> rangelist)
          end
      end
  end.

Definition rl_remove (start end_ : Z) (rangelist : rl_head) : outcome rl_head :=
  match rangelist with
  | [] => Ok []
  | _ => rl_remove_loop (S (length rangelist)) start end_ rangelist 0
  end.

(** ** Specification

    The bytes an entry and a queue stand for, and the shape of a queue: entries
    that are not empty, in order, with at least one byte between two of them,
    only the last one without end. *)
Definition rl_covers (e : rl_entry) (x : Z) : Prop :=
  rl_start e <= x /\ (rl_end e = RL_INFINITY \/ x <= rl_end e).
Definition rl_mem (x : Z) (l : rl_head) : Prop := Exists (fun e => rl_covers e x) l.

Definition off_ok (z : Z) : Prop := 0 <= z <= 9223372036854775807.
Definition range_ok (start end_ : Z) : Prop :=
  off_ok start /\ (end_ = RL_INFINITY \/ start <= end_ /\ off_ok end_).
Definition entry_ok (e : rl_entry) : Prop := range_ok (rl_start e) (rl_end e).

Definition rl_before (e f : rl_entry) : Prop :=
  rl_end e <> RL_INFINITY /\ rl_end e + 1 < rl_start f.
Definition rl_wf (l : rl_head) : Prop := Forall entry_ok l /\ StronglySorted rl_before l.

Definition in_range (start end_ x : Z) : Prop := rl_covers (Rl start end_) x.

(** What each answer of a scan says of the entry it names. *)
Definition rl_case_spec (c : rl_overlaptype) (e : rl_entry) (start end_ : Z) : Prop :=
  match c with
  | RL_NOOVERLAP => forall x, rl_covers e x -> ~ in_range start end_ x
  | RL_MATCHINGOVERLAP => forall x, rl_covers e x <-> in_range start end_ x
  | RL_OVERLAPCONTAINSRANGE => forall x, in_range start end_ x -> rl_covers e x
  | RL_OVERLAPISCONTAINED => forall x, rl_covers e x -> in_range start end_ x
  | RL_OVERLAPSTARTSBEFORE => rl_start e < start /\ rl_covers e start
  | RL_OVERLAPENDSAFTER =>
      start < rl_start e /\ end_ <> RL_INFINITY /\ rl_covers e end_ /\ rl_covers e (end_ + 1)
  end.

(** Ranges [rl_add] handles: they meet an entry or lie after all of them, and
    every entry behind the first one met that they reach ends at or after
    their end. *)
Definition rl_touches (e : rl_entry) (start end_ : Z) : Prop :=
  (rl_end e = RL_INFINITY \/ start <= rl_end e) /\ (end_ = RL_INFINITY \/ rl_start e <= end_).
Definition rl_add_safe (start end_ : Z) (l : rl_head) : Prop :=
  (Exists (fun e => rl_touches e start end_) l
   \/ Forall (fun e => rl_end e <> RL_INFINITY /\ rl_end e < start) l)
  /\ forall e f, e ∈ l -> f ∈ l -> rl_before e f -> rl_touches e start end_ ->
       end_ <> RL_INFINITY /\
       (rl_start f <= end_ + 1 -> rl_end f = RL_INFINITY \/ end_ <= rl_end f).

(** ** Lemmas *)

Ltac rl_unfold :=
  unfold in_range, rl_covers, rl_before, entry_ok, range_ok, off_ok, rl_touches,
    rl_misses, is_inf, RL_INFINITY in *; simpl in *.
Ltac rl_solve := rl_unfold; intuition lia.

Lemma rl_wf_app l1 l2 :
  rl_wf (l1 ++ l2) <->
  rl_wf l1 /\ rl_wf l2 /\ forall e f, e ∈ l1 -> f ∈ l2 -> rl_before e f.
Proof. unfold rl_wf. rewrite Forall_app, StronglySorted_app. naive_solver. Qed.

Lemma rl_wf_cons e l :
  rl_wf (e :: l) <-> entry_ok e /\ rl_wf l /\ forall f, f ∈ l -> rl_before e f.
Proof.
  unfold rl_wf. rewrite Forall_cons, StronglySorted_cons, !Forall_forall. naive_solver.
Qed.

Lemma rl_wf_nil : rl_wf [].
Proof. split; constructor. Qed.

Lemma rl_wf_entry l e : rl_wf l -> e ∈ l -> entry_ok e.
Proof. intros [H _]. rewrite Forall_forall in H. auto. Qed.

Lemma rl_mem_app x l1 l2 : rl_mem x (l1 ++ l2) <-> rl_mem x l1 \/ rl_mem x l2.
Proof. apply Exists_app. Qed.
Lemma rl_mem_cons x e l : rl_mem x (e :: l) <-> rl_covers e x \/ rl_mem x l.
Proof. apply Exists_cons. Qed.
Lemma rl_mem_nil x : rl_mem x [] <-> False.
Proof. apply Exists_nil. Qed.
Lemma rl_mem_In x l : rl_mem x l <-> exists e, e ∈ l /\ rl_covers e x.
Proof. apply Exists_exists. Qed.

Create Rewrite HintDb rl.
#[export] Hint Rewrite rl_mem_app rl_mem_cons rl_mem_nil : rl.

Lemma rl_misses_true e s t :
  rl_misses e s t = true <-> ~ rl_touches e s t.
Proof. rl_unfold. case_ztests; intuition lia. Qed.
Lemma rl_misses_false e s t :
  rl_misses e s t = false <-> rl_touches e s t.
Proof. rl_unfold. case_ztests; intuition lia. Qed.

(** The comparisons behind each answer. *)
Definition rl_case_num (c : rl_overlaptype) (e : rl_entry) (s t : Z) : Prop :=
  match c with
  | RL_NOOVERLAP => False
  | RL_MATCHINGOVERLAP => rl_start e = s /\ rl_end e = t
  | RL_OVERLAPCONTAINSRANGE =>
      rl_start e <= s /\ t <> RL_INFINITY /\ (t <= rl_end e \/ rl_end e = RL_INFINITY)
      /\ (rl_start e <> s \/ rl_end e <> t)
  | RL_OVERLAPISCONTAINED =>
      s <= rl_start e /\ (t = RL_INFINITY \/ rl_end e <> RL_INFINITY /\ rl_end e <= t)
  | RL_OVERLAPSTARTSBEFORE =>
      rl_start e < s /\ (s <= rl_end e \/ rl_end e = RL_INFINITY)
      /\ (t = RL_INFINITY \/ rl_end e <> RL_INFINITY /\ rl_end e < t)
  | RL_OVERLAPENDSAFTER =>
      s < rl_start e /\ t <> RL_INFINITY /\ (t < rl_end e \/ rl_end e = RL_INFINITY)
  end.

Lemma rl_case_num_spec c e s t :
  rl_touches e s t -> rl_case_num c e s t -> rl_case_spec c e s t.
Proof. intros Ht. destruct c; cbn [rl_case_num rl_case_spec]; intros; rl_solve. Qed.

(** The five cases are exhaustive: control never reaches the end of the loop
    body. *)
Lemma rl_classify_spec e s t :
  rl_touches e s t ->
  exists c, rl_classify e s t = Some c /\ rl_case_num c e s t.
Proof.
  intros Ht. unfold rl_classify. rl_unfold.
  case_ztests; eexists; (split; [reflexivity|]); cbn [rl_case_num]; rl_solve.
Qed.

(** The entry a scan stops at splits the queue; everything before it ends
    before the range, and when nothing overlaps, everything after it lies
    behind the range. *)
Lemma rl_scan_loop_spec rest s t i :
  rest <> [] -> rl_wf rest ->
  exists c pre e post, rest = pre ++ e :: post /\
    rl_scan_loop rest s t i = Ok (c, Some (i + length pre)%nat) /\
    Forall (fun f => rl_end f <> RL_INFINITY /\ rl_end f < s) pre /\
    ((c = RL_NOOVERLAP /\ ~ rl_touches e s t /\
        (post = [] \/ (t <> RL_INFINITY /\ t < rl_start e))) \/
     (rl_touches e s t /\ rl_case_num c e s t)).
Proof.
  revert i. induction rest as [|e rest IH]; intros i Hne Hwf; [done|]. clear Hne.
  apply rl_wf_cons in Hwf as (He & Hwf & Hb). cbn [rl_scan_loop].
  destruct (rl_misses e s t) eqn:Hm.
  - apply rl_misses_true in Hm.
    destruct (negb (is_inf t) && (t <? rl_start e)) eqn:Hafter.
    { exists RL_NOOVERLAP, [], e, rest. rewrite Nat.add_0_r. simpl.
      split; [done|]. split; [done|]. split; [constructor|]. left.
      split; [done|]. split; [done|]. right. rl_unfold.
      destruct (Z.eqb_spec t (-1)), (Z.ltb_spec t (rl_start e)); simpl in *; lia || done. }
    destruct rest as [|e' rest].
    { exists RL_NOOVERLAP, [], e, []. rewrite Nat.add_0_r. repeat split; eauto. }
    destruct (IH (S i)) as (c & pre & d & post & Hl & Hs & Hpre & Hc); [done..|].
    exists c, (e :: pre), d, post. split; [by rewrite Hl|].
    split; [cbn match; rewrite Hs; do 3 f_equal; simpl; lia|]. split; [|done].
    constructor; [|done]. rl_unfold.
    destruct (Z.eqb_spec t (-1)), (Z.ltb_spec t (rl_start e)); simpl in *; lia || done.
  - apply rl_misses_false in Hm.
    destruct (rl_classify_spec e s t Hm) as (c & -> & Hc).
    exists c, [], e, rest. rewrite Nat.add_0_r. repeat split; auto.
Qed.

(** Replacing an entry by entries inside it keeps the queue well formed. *)
Lemma rl_wf_replace l1 e m l2 :
  rl_wf (l1 ++ e :: l2) -> rl_wf m ->
  (forall f, f ∈ m -> rl_start e <= rl_start f /\
     (rl_end e = RL_INFINITY \/ rl_end f <> RL_INFINITY /\ rl_end f <= rl_end e)) ->
  rl_wf (l1 ++ m ++ l2).
Proof.
  rewrite rl_wf_app, rl_wf_cons. intros (H1 & (He & H2 & Hb) & Hx) Hm Hin.
  rewrite !rl_wf_app. split; [done|]. split.
  - split; [done|]. split; [done|]. intros d f Hd Hf.
    specialize (Hb _ Hf). specialize (Hin _ Hd). rl_solve.
  - intros d f Hd Hf. apply elem_of_app in Hf as [Hf|Hf]; [|apply Hx; [done|by right]].
    specialize (Hx d e Hd (list_elem_of_here _ _)). specialize (Hin _ Hf). rl_solve.
Qed.

(** One removal that ends the loop: the entry [e] met is replaced by [m], what
    is left of it. *)
Lemma rl_mem_replace s t pre e m post x :
  rl_wf (pre ++ e :: post) ->
  Forall (fun f => rl_end f <> RL_INFINITY /\ rl_end f < s) pre ->
  (rl_end e = RL_INFINITY \/ t <> RL_INFINITY /\ t <= rl_end e) ->
  (rl_mem x m <-> rl_covers e x /\ ~ in_range s t x) ->
  rl_mem x (pre ++ m ++ post) <-> rl_mem x (pre ++ e :: post) /\ ~ in_range s t x.
Proof.
  rewrite rl_wf_app, rl_wf_cons, Forall_forall.
  intros (H1 & (He & H2 & Hb) & Hx) Hpre Ht Hm. autorewrite with rl. rewrite Hm.
  assert (rl_mem x pre -> ~ in_range s t x) as Hp.
  { rewrite rl_mem_In. intros (f & Hf & Hc). specialize (Hpre _ Hf). rl_solve. }
  assert (rl_mem x post -> ~ in_range s t x) as Hq.
  { rewrite rl_mem_In. intros (f & Hf & Hc). specialize (Hb _ Hf). rl_solve. }
  tauto.
Qed.

Lemma rl_scan_from_suffix done rest s t :
  rest <> [] ->
  rl_scan_from (done ++ rest) s t (length done) = rl_scan_loop rest s t (length done).
Proof.
  intros Hne. unfold rl_scan_from. rewrite drop_app_length.
  destruct (done ++ rest) eqn:E; [|done]. apply app_eq_nil in E as [_ ->]. done.
Qed.

(** An entry that does not touch a range has no byte in it. *)
Lemma rl_touches_mem e s t x : rl_covers e x -> in_range s t x -> rl_touches e s t.
Proof. rl_solve. Qed.

Lemma rl_before_mem s t pre x :
  Forall (fun f => rl_end f <> RL_INFINITY /\ rl_end f < s) pre ->
  rl_mem x pre -> ~ in_range s t x.
Proof.
  rewrite Forall_forall, rl_mem_In. intros Hp (f & Hf & Hc). specialize (Hp _ Hf). rl_solve.
Qed.

(** A scan that answers [RL_NOOVERLAP] has no byte of the range in the queue. *)
Lemma rl_nooverlap_mem pre e post s t x :
  rl_wf (pre ++ e :: post) ->
  Forall (fun f => rl_end f <> RL_INFINITY /\ rl_end f < s) pre ->
  ~ rl_touches e s t -> post = [] \/ (t <> RL_INFINITY /\ t < rl_start e) ->
  rl_mem x (pre ++ e :: post) -> ~ in_range s t x.
Proof.
  intros Hwf Hpre He Hpost Hm Hr. autorewrite with rl in Hm. destruct Hm as [Hm|[Hm|Hm]].
  - by apply (rl_before_mem s t) in Hm.
  - apply He. by apply rl_touches_mem with x.
  - destruct Hpost as [->|Hpost]; [by apply rl_mem_nil in Hm|].
    apply rl_wf_app in Hwf as (_ & Hwf & _). apply rl_wf_cons in Hwf as (Hok & _ & Hb).
    apply rl_mem_In in Hm as (f & Hf & Hc). specialize (Hb _ Hf). rl_solve.
Qed.

Section remove_step.
Context (s t : Z).
Context (done pre : rl_head) (e : rl_entry) (post : rl_head).
Context (Hwf : rl_wf (done ++ pre ++ e :: post)).
Context (Hpre : Forall (fun f => rl_end f <> RL_INFINITY /\ rl_end f < s) pre).

Lemma remove_entry_ok : entry_ok e.
Proof. apply (rl_wf_entry _ _ Hwf). rewrite !elem_of_app. right; right; left. Qed.

(** The loop ends with [e] replaced by [m]. *)
Lemma remove_final m :
  rl_wf m ->
  (forall f, f ∈ m -> rl_start e <= rl_start f /\
     (rl_end e = RL_INFINITY \/ rl_end f <> RL_INFINITY /\ rl_end f <= rl_end e)) ->
  (rl_end e = RL_INFINITY \/ t <> RL_INFINITY /\ t <= rl_end e) \/ post = [] ->
  (forall x, rl_mem x m <-> rl_covers e x /\ ~ in_range s t x) ->
  rl_wf (done ++ pre ++ m ++ post) /\
  forall x, rl_mem x (pre ++ m ++ post) <-> rl_mem x (pre ++ e :: post) /\ ~ in_range s t x.
Proof.
  intros Hm Hin Ht Hx. split.
  - rewrite app_assoc. rewrite app_assoc in Hwf. by eapply rl_wf_replace.
  - intros x. destruct Ht as [Ht| ->].
    + apply rl_mem_replace; [by apply rl_wf_app in Hwf as (_ & ? & _)|done|done|apply Hx].
    + autorewrite with rl. rewrite Hx. pose proof (rl_before_mem s t pre x Hpre). tauto.
Qed.

(** The loop goes on behind [e], of which [m] is left. *)
Lemma remove_continue m l :
  (forall x, rl_mem x m <-> rl_covers e x /\ ~ in_range s t x) ->
  (forall x, rl_mem x l <-> rl_mem x post /\ ~ in_range s t x) ->
  forall x, rl_mem x (pre ++ m ++ l) <-> rl_mem x (pre ++ e :: post) /\ ~ in_range s t x.
Proof.
  intros Hm Hl x. autorewrite with rl. rewrite Hm, Hl.
  pose proof (rl_before_mem s t pre x Hpre). tauto.
Qed.

Lemma remove_wf m :
  rl_wf m ->
  (forall f, f ∈ m -> rl_start e <= rl_start f /\
     (rl_end e = RL_INFINITY \/ rl_end f <> RL_INFINITY /\ rl_end f <= rl_end e)) ->
  rl_wf ((done ++ pre ++ m) ++ post).
Proof.
  intros Hm Hin. rewrite <- !app_assoc, app_assoc. rewrite app_assoc in Hwf.
  by eapply rl_wf_replace.
Qed.
End remove_step.

(** Reduce list operations at the entry that splits the queue. *)
Ltac rl_split_rw :=
  cbn [mbind outcome_bind of_option]; rewrite ?list_lookup_split;
  cbn [mbind outcome_bind of_option];
  rewrite ?list_insert_split, ?list_delete_split, ?list_take_split, ?list_drop_split.

Lemma moretotest_split (pre : rl_head) e post :
  negb (S (length pre) =? length (pre ++ e :: post))%nat = bool_decide (post <> []).
Proof.
  destruct (Nat.eqb_spec (S (length pre)) (length (pre ++ e :: post))) as [H|H];
    rewrite length_app in H; destruct post; simpl in *; lia || done.
Qed.

Lemma rl_wf_1 e : entry_ok e -> rl_wf [e].
Proof. intros. rewrite rl_wf_cons. split; [done|]. split; [apply rl_wf_nil|]. set_solver. Qed.

(** Case 2 of a removal: the entry is trimmed at one end or split. *)
Lemma remove_contains s t done pre e post :
  range_ok s t -> t < 9223372036854775807 -> rl_wf (done ++ pre ++ e :: post) ->
  Forall (fun f => rl_end f <> RL_INFINITY /\ rl_end f < s) pre ->
  rl_touches e s t -> entry_ok e -> rl_case_num RL_OVERLAPCONTAINSRANGE e s t ->
  exists l',
    (if rl_start e =? s then Ok ((done ++ pre) ++ Rl (s64 (t + 1)) (rl_end e) :: post)
     else if rl_end e =? t then Ok ((done ++ pre) ++ Rl (rl_start e) (s64 (s - 1)) :: post)
     else Ok ((done ++ pre) ++ Rl (rl_start e) (s64 (s - 1))
                :: Rl (s64 (t + 1)) (rl_end e) :: post)) = Ok (done ++ l') /\
    rl_wf (done ++ l') /\
    forall x, rl_mem x l' <-> rl_mem x (pre ++ e :: post) /\ ~ in_range s t x.
Proof.
  intros Hst Ht Hwf Hpre Hm He Hcs. cbn [rl_case_num] in Hcs.
  assert (s64 (t + 1) = t + 1) as -> by (apply s64_small; rl_solve).
  assert (s64 (s - 1) = s - 1) as -> by (apply s64_small; rl_solve).
  set (m := if rl_start e =? s then [Rl (t + 1) (rl_end e)]
            else if rl_end e =? t then [Rl (rl_start e) (s - 1)]
            else [Rl (rl_start e) (s - 1); Rl (t + 1) (rl_end e)]).
  exists (pre ++ m ++ post). split; [unfold m; repeat case_match; by rewrite <- app_assoc|].
  apply remove_final with (e := e); try done.
  - unfold m. case_ztests; [apply rl_wf_1; rl_solve..|].
    apply rl_wf_cons. split; [rl_solve|]. split; [apply rl_wf_1; rl_solve|].
    intros f ->%list_elem_of_singleton. rl_solve.
  - intros f. unfold m. case_ztests; rewrite ?elem_of_cons, ?elem_of_nil; rl_unfold;
      naive_solver lia.
  - rl_solve.
  - intros x. unfold m. case_ztests; autorewrite with rl; rl_solve.
Qed.

Lemma rl_remove_loop_spec fuel s t done rest :
  range_ok s t -> t < 9223372036854775807 ->
  (length rest < fuel)%nat -> rest <> [] -> rl_wf (done ++ rest) ->
  exists l', rl_remove_loop fuel s t (done ++ rest) (length done) = Ok (done ++ l') /\
    rl_wf (done ++ l') /\
    forall x, rl_mem x l' <-> rl_mem x rest /\ ~ in_range s t x.
Proof.
  intros Hst Ht. revert done rest. induction fuel as [|fuel IH]; intros done rest Hf Hne Hwf; [lia|].
  cbn [rl_remove_loop]. rewrite rl_scan_from_suffix by done.
  assert (rl_wf rest) as Hwr by (by apply rl_wf_app in Hwf as (_ & ? & _)).
  destruct (rl_scan_loop_spec rest s t (length done) Hne Hwr)
    as (c & pre & e & post & -> & -> & Hpre & Hc).
  pose proof (remove_entry_ok _ _ _ _ Hwf) as He.
  cbn [mbind outcome_bind]. rewrite <- length_app, (app_assoc done pre (e :: post)).
  destruct Hc as [(-> & Hm & Hpost)|(Hm & Hcs)].
  { exists (pre ++ e :: post). rewrite <- app_assoc. split; [done|]. split; [done|]. intros x.
    pose proof (rl_nooverlap_mem pre e post s t x Hwr Hpre Hm Hpost). tauto. }
  rewrite length_app in Hf. simpl in Hf.
  destruct c; [done|..]; rl_split_rw; rewrite ?moretotest_split; cbn [rl_case_num] in Hcs.
  - exists (pre ++ [] ++ post). rewrite <- app_assoc. split; [done|].
    apply remove_final with (e := e); [done..|apply rl_wf_nil|set_solver|rl_solve|].
    intros x. rewrite rl_mem_nil. rl_solve.
  - apply remove_contains; done.
  - case_bool_decide as Hp.
    + destruct (IH (done ++ pre) post) as (l & Hl & Hlw & Hlm); [lia|done|..].
      { pose proof (remove_wf done pre e post Hwf []) as Hw. rewrite app_nil_r in Hw.
        apply Hw; [apply rl_wf_nil|set_solver]. }
      exists (pre ++ [] ++ l). rewrite Hl, <- app_assoc. split; [done|]. split; [by rewrite app_assoc|].
      apply (remove_continue s t pre e post Hpre []); [|done].
      intros x. rewrite rl_mem_nil. rl_solve.
    + subst post. exists (pre ++ [] ++ []). rewrite <- app_assoc. split; [done|].
      apply remove_final with (e := e); [done..|apply rl_wf_nil|set_solver|by right|].
      intros x. rewrite rl_mem_nil. rl_solve.
  - set (e' := Rl (rl_start e) (s64 (s - 1))).
    assert (rl_wf [e']) as He' by (apply rl_wf_1; unfold e'; rl_unfold; rewrite s64_small; lia).
    assert (forall f, f ∈ [e'] -> rl_start e <= rl_start f /\
      (rl_end e = RL_INFINITY \/ rl_end f <> RL_INFINITY /\ rl_end f <= rl_end e)) as Hin.
    { intros f ->%list_elem_of_singleton. unfold e'. rl_unfold. rewrite s64_small; lia. }
    assert (forall x, rl_mem x [e'] <-> rl_covers e x /\ ~ in_range s t x) as Hmem.
    { intros x. autorewrite with rl. unfold e'. rl_unfold. rewrite s64_small; lia. }
    case_bool_decide as Hp.
    + destruct (IH (done ++ pre ++ [e']) post) as (l & Hl & Hlw & Hlm); [lia|done|..].
      { by apply remove_wf with (e := e). }
      exists (pre ++ [e'] ++ l).
      rewrite !length_app, <- !app_assoc in Hl. rewrite <- !app_assoc in Hlw.
      rewrite !length_app, <- !app_assoc.
      replace (S (length done + length pre)) with (length done + (length pre + length [e']))%nat
        by (simpl; lia).
      split; [done|]. split; [done|]. by apply remove_continue.
    + subst post. exists (pre ++ [e'] ++ []). rewrite <- app_assoc. split; [done|].
      apply remove_final with (e := e); [done..|by right|done].
  - rewrite (proj2 (Z.eqb_neq _ _)) by rl_solve.
    exists (pre ++ [Rl (s64 (t + 1)) (rl_end e)] ++ post). rewrite <- app_assoc. split; [done|].
    apply remove_final with (e := e); [done..| | |rl_solve|].
    + apply rl_wf_1. rl_unfold. rewrite s64_small; lia.
    + intros f ->%list_elem_of_singleton. rl_unfold. rewrite s64_small; lia.
    + intros x. autorewrite with rl. rl_unfold. rewrite s64_small; lia.
Qed.


(** Collapsing forwards from [r] absorbs at most the entries it reaches. *)
Lemma rl_collapse_forwards_loop_spec r post :
  entry_ok r -> rl_wf post ->
  (forall f, f ∈ post -> rl_start r < rl_start f /\ rl_end r <> RL_INFINITY /\
     (rl_start f <= rl_end r + 1 -> rl_end f = RL_INFINITY \/ rl_end r <= rl_end f)) ->
  exists r' post', rl_collapse_forwards_loop r post = r' :: post' /\
    rl_start r' = rl_start r /\ rl_wf (r' :: post') /\
    forall x, rl_mem x (r' :: post') <-> rl_mem x (r :: post).
Proof.
  revert r. induction post as [|f post IH]; intros r Hr Hwf Hf; cbn [rl_collapse_forwards_loop].
  { exists r, []. split; [done|]. split; [done|]. split; [by apply rl_wf_1|done]. }
  assert (rl_wf post /\ entry_ok f /\ forall g, g ∈ post -> rl_before f g) as (Hp & Hfo & Hb).
  { by apply rl_wf_cons in Hwf as (? & ? & ?). }
  destruct (Hf f) as (Hs & Hi & He); [left|].
  assert (s64 (rl_start f - 1) = rl_start f - 1) as -> by (apply s64_small; rl_solve).
  destruct (_ && _) eqn:E.
  - exists r, (f :: post). split; [done|]. split; [done|]. split; [|done].
    apply rl_wf_cons. split; [done|]. split; [done|]. intros g Hg.
    apply elem_of_cons in Hg as [->|Hg].
    + rl_unfold. ztests_in E; lia.
    + specialize (Hb _ Hg). rl_unfold. ztests_in E; lia.
  - assert (rl_start f <= rl_end r + 1) as Hle by (rl_unfold; ztests_in E; lia).
    destruct (IH (Rl (rl_start r) (rl_end f))) as (r' & post' & Hl & Hs' & Hw' & Hm'); [..|].
    + rl_solve.
    + done.
    + intros g Hg. specialize (Hb _ Hg). rl_solve.
    + exists r', post'. rewrite Hl. split; [done|]. split; [done|]. split; [done|].
      intros x. rewrite Hm'. autorewrite with rl. rl_solve.
Qed.

(** Collapsing backwards into [r] absorbs at most an entry that ends just
    before it. *)
Lemma rl_collapse_backwards_loop_spec pre r :
  entry_ok r -> rl_wf pre ->
  (forall f, f ∈ pre -> rl_end f <> RL_INFINITY /\ rl_end f < rl_start r) ->
  exists before r', rl_collapse_backwards_loop (reverse pre) r = (before, r') /\
    rl_end r' = rl_end r /\ rl_wf (reverse before ++ [r']) /\
    (forall f, f ∈ before -> f ∈ pre) /\ rl_start r' <= rl_start r /\
    forall x, rl_mem x (reverse before ++ [r']) <-> rl_mem x (pre ++ [r]).
Proof.
  revert r. induction pre as [|p pre IH] using rev_ind; intros r Hr Hwf Hf.
  { exists [], r. simpl. split; [done|]. split; [done|]. split; [by apply rl_wf_1|].
    split; [done|]. split; [lia|done]. }
  apply rl_wf_app in Hwf as (Hpre & Hp & Hb).
  assert (entry_ok p) as Hpo by (apply (rl_wf_entry [p]); [done|left]).
  destruct (Hf p) as (Hi & He); [apply elem_of_app; right; left|].
  rewrite reverse_snoc. cbn [rl_collapse_backwards_loop].
  assert (s64 (rl_start r - 1) = rl_start r - 1) as -> by (apply s64_small; rl_solve).
  destruct (Z.ltb_spec (rl_end p) (rl_start r - 1)) as [Hlt|Hge].
  - exists (p :: reverse pre), r. rewrite reverse_cons, reverse_involutive.
    split; [done|]. split; [done|]. split; [|split; [|split; [lia|done]]].
    + apply rl_wf_app. split; [by apply rl_wf_app|]. split; [by apply rl_wf_1|].
      intros f g Hfi ->%list_elem_of_singleton. apply elem_of_app in Hfi as [Hfi|Hfi].
      * specialize (Hb f p Hfi (list_elem_of_here _ _)). rl_solve.
      * apply list_elem_of_singleton in Hfi as ->. rl_solve.
    + intros f. rewrite elem_of_cons, elem_of_reverse, elem_of_app, elem_of_cons. tauto.
  - destruct (IH (Rl (rl_start p) (rl_end r))) as (before & r' & Hl & He' & Hw & Hin & Hle & Hm).
    + rl_solve.
    + done.
    + intros f Hfi. specialize (Hb f p Hfi (list_elem_of_here _ _)). rl_solve.
    + exists before, r'. rewrite Hl. split; [done|]. split; [done|]. split; [done|].
      split; [intros f Hfi; apply elem_of_app; left; auto|]. split; [simpl in Hle; rl_solve|].
      intros x. rewrite Hm. autorewrite with rl. rl_solve.
Qed.

Lemma rl_collapse_forwards_spec pre r post :
  entry_ok r -> rl_wf pre -> rl_wf post ->
  (forall f, f ∈ pre -> rl_end f <> RL_INFINITY /\ rl_end f < rl_start r) ->
  (forall f, f ∈ post -> rl_start r < rl_start f /\ rl_end r <> RL_INFINITY /\
     (rl_start f <= rl_end r + 1 -> rl_end f = RL_INFINITY \/ rl_end r <= rl_end f)) ->
  exists r' post', rl_collapse_forwards (pre ++ r :: post) (length pre) = Ok (pre ++ r' :: post') /\
    rl_start r' = rl_start r /\ rl_wf (r' :: post') /\
    forall x, rl_mem x (r' :: post') <-> rl_mem x (r :: post).
Proof.
  intros Hr Hpre Hpost Hp Hf. unfold rl_collapse_forwards. rl_split_rw.
  destruct (rl_collapse_forwards_loop_spec r post Hr Hpost Hf) as (r' & post' & -> & H).
  by exists r', post'.
Qed.

Lemma rl_collapse_backwards_spec pre r post :
  entry_ok r -> rl_wf pre -> rl_wf (r :: post) ->
  (forall f, f ∈ pre -> rl_end f <> RL_INFINITY /\ rl_end f < rl_start r) ->
  exists l', rl_collapse_backwards (pre ++ r :: post) (length pre) = Ok l' /\ rl_wf l' /\
    forall x, rl_mem x l' <-> rl_mem x (pre ++ r :: post).
Proof.
  intros Hr Hpre Hpost Hp. unfold rl_collapse_backwards. rl_split_rw.
  destruct (rl_collapse_backwards_loop_spec pre r Hr Hpre Hp)
    as (before & r' & -> & He & Hw & Hin & Hle & Hm).
  exists (reverse before ++ [r'] ++ post). split; [done|]. rewrite app_assoc. split.
  - apply rl_wf_cons in Hpost as (_ & Hpost & Hb). apply rl_wf_app. split; [done|]. split; [done|].
    intros f g Hfi Hg. specialize (Hb _ Hg). apply elem_of_app in Hfi as [Hfi|Hfi].
    + rewrite elem_of_reverse in Hfi. specialize (Hp f (Hin _ Hfi)). rl_solve.
    + apply list_elem_of_singleton in Hfi as ->. rl_solve.
  - intros x. specialize (Hm x). autorewrite with rl in *. tauto.
Qed.

Lemma rl_collapse_neighbors_spec pre r post :
  entry_ok r -> rl_wf pre -> rl_wf post ->
  (forall f, f ∈ pre -> rl_end f <> RL_INFINITY /\ rl_end f < rl_start r) ->
  (forall f, f ∈ post -> rl_start r < rl_start f /\ rl_end r <> RL_INFINITY /\
     (rl_start f <= rl_end r + 1 -> rl_end f = RL_INFINITY \/ rl_end r <= rl_end f)) ->
  exists l', rl_collapse_neighbors (pre ++ r :: post) (length pre) = Ok l' /\ rl_wf l' /\
    forall x, rl_mem x l' <-> rl_mem x (pre ++ r :: post).
Proof.
  intros Hr Hpre Hpost Hp Hf. unfold rl_collapse_neighbors.
  destruct (rl_collapse_forwards_spec pre r post) as (r' & post' & -> & Hs & Hw & Hm); [done..|].
  cbn [mbind outcome_bind].
  destruct (rl_collapse_backwards_spec pre r' post') as (l' & Hl & Hwl & Hml).
  - by apply rl_wf_cons in Hw as (? & _).
  - done.
  - done.
  - by rewrite Hs.
  - exists l'. split; [done|]. split; [done|]. intros x. rewrite Hml.
    specialize (Hm x). autorewrite with rl in *. tauto.
Qed.

Section add_step.
Context (s t : Z) (Hst : range_ok s t).
Context (pre : rl_head) (e : rl_entry) (post : rl_head).
Context (Hwf : rl_wf (pre ++ e :: post)).
Context (Hpre : Forall (fun f => rl_end f <> RL_INFINITY /\ rl_end f < s) pre).
Context (Hsafe : rl_add_safe s t (pre ++ e :: post)).

Lemma add_parts :
  rl_wf pre /\ rl_wf post /\ entry_ok e /\ (forall g, g ∈ post -> rl_before e g) /\
  (forall f, f ∈ pre -> rl_before f e).
Proof.
  apply rl_wf_app in Hwf as (? & Hw & Hx). apply rl_wf_cons in Hw as (? & ? & ?).
  do 4 (split; [assumption|]). intros f Hf. apply Hx; [done|left].
Qed.

(** No entry is met: by [rl_add_safe] the range lies behind all of them. *)
Lemma add_nooverlap :
  ~ rl_touches e s t -> post = [] \/ (t <> RL_INFINITY /\ t < rl_start e) ->
  post = [] /\ rl_end e <> RL_INFINITY /\ rl_end e < s.
Proof.
  intros Hm Hq. destruct add_parts as (_ & _ & Heo & Hbq & _). destruct Hsafe as [[Hex|Hall] _].
  - exfalso. apply Exists_exists in Hex as (f & Hf & Ht). rewrite Forall_forall in Hpre.
    apply elem_of_app in Hf as [Hf|Hf]; [specialize (Hpre _ Hf); rl_solve|].
    apply elem_of_cons in Hf as [->|Hf]; [done|].
    destruct Hq as [->|Hq]; [by apply elem_of_nil in Hf|]. specialize (Hbq _ Hf). rl_solve.
  - rewrite Forall_app, Forall_cons in Hall. destruct Hall as (_ & He & _).
    split; [|done]. destruct Hq as [->|Hq]; [done|]. rl_solve.
Qed.

(** The range replaces the entry [e] it meets, or extends it. *)
Lemma add_reach r :
  rl_touches e s t -> rl_start r <= rl_start e -> rl_end r = t -> entry_ok r ->
  forall f, f ∈ post -> rl_start r < rl_start f /\ rl_end r <> RL_INFINITY /\
   (rl_start f <= rl_end r + 1 -> rl_end f = RL_INFINITY \/ rl_end r <= rl_end f).
Proof.
  intros Ht Hr1 Hr2 Hr f Hf. destruct add_parts as (_ & _ & He & Hbq & _).
  destruct Hsafe as [_ Hre].
  destruct (Hre e f) as [Hn Hfe]; [..|by apply Hbq|done|].
  { apply elem_of_app. right; left. } { apply elem_of_app. by right; right. }
  specialize (Hbq _ Hf). rl_solve.
Qed.

Lemma add_overlap c :
  rl_touches e s t -> rl_case_num c e s t ->
  exists l',
    match c with
    | RL_NOOVERLAP => False
    | RL_MATCHINGOVERLAP | RL_OVERLAPCONTAINSRANGE => l' = pre ++ e :: post
    | RL_OVERLAPISCONTAINED =>
        rl_collapse_neighbors (pre ++ Rl s t :: post) (length pre) = Ok l'
    | RL_OVERLAPSTARTSBEFORE =>
        rl_collapse_forwards (pre ++ Rl (rl_start e) t :: post) (length pre) = Ok l'
    | RL_OVERLAPENDSAFTER =>
        rl_collapse_backwards (pre ++ Rl s (rl_end e) :: post) (length pre) = Ok l'
    end /\ rl_wf l' /\
    forall x, rl_mem x l' <-> rl_mem x (pre ++ e :: post) \/ in_range s t x.
Proof.
  intros Ht Hcs. destruct add_parts as (Hwp & Hwq & Heo & Hbq & Hbp).
  rewrite Forall_forall in Hpre.
  destruct c; cbn [rl_case_num] in Hcs; [done|..].
  - exists (pre ++ e :: post). split; [done|]. split; [done|]. intros x.
    autorewrite with rl. rl_solve.
  - exists (pre ++ e :: post). split; [done|]. split; [done|]. intros x.
    autorewrite with rl. rl_solve.
  - destruct (rl_collapse_neighbors_spec pre (Rl s t) post) as (l' & Hl & Hw & Hm);
      [done..|apply add_reach; rl_solve|].
    exists l'. split; [done|]. split; [done|]. intros x. rewrite Hm.
    autorewrite with rl. rl_solve.
  - destruct (rl_collapse_forwards_spec pre (Rl (rl_start e) t) post)
      as (r' & post' & Hl & Hs & Hw & Hm); [rl_solve|done|done| |apply add_reach; rl_solve|].
    { intros f Hf. specialize (Hbp _ Hf). rl_solve. }
    exists (pre ++ r' :: post'). split; [done|]. split.
    + apply rl_wf_app. split; [done|]. split; [done|]. intros f g Hf Hg.
      specialize (Hbp _ Hf). apply rl_wf_cons in Hw as (Hr' & _ & Hb).
      apply elem_of_cons in Hg as [->|Hg]; [|specialize (Hb _ Hg)]; rl_solve.
    + intros x. specialize (Hm x). autorewrite with rl in *.
      assert (rl_covers (Rl (rl_start e) t) x <-> rl_covers e x \/ in_range s t x)
        by (clear - Hst Heo Ht Hcs; rl_solve). tauto.
  - destruct (rl_collapse_backwards_spec pre (Rl s (rl_end e)) post) as (l' & Hl & Hw & Hm);
      [rl_solve|done| |done|].
    { apply rl_wf_cons. split; [rl_solve|]. split; [done|]. intros g Hg.
      specialize (Hbq _ Hg). rl_solve. }
    exists l'. split; [done|]. split; [done|]. intros x. rewrite Hm.
    autorewrite with rl. rl_solve.
Qed.
End add_step.

(** ** Properties *)

(** On a well-formed queue [rl_scan] always answers.  The answer 'no overlap' means
    that no byte of the range is in the queue; any other answer names the first entry
    that meets the range and says how the two lie. *)
Theorem rl_scan_correct start end_ l :
  rl_wf l ->
  exists c o, rl_scan l start end_ = Ok (c, o) /\
    if decide (c = RL_NOOVERLAP) then forall x, rl_mem x l -> ~ in_range start end_ x
    else exists i e, o = Some i /\ l !! i = Some e /\
      rl_touches e start end_ /\ rl_case_spec c e start end_ /\
      forall j f, (j < i)%nat -> l !! j = Some f -> ~ rl_touches f start end_.
Proof.
  intros Hwf. destruct (decide (l = [])) as [->|Hne].
  { exists RL_NOOVERLAP, None. split; [done|]. simpl. intros x H. by apply rl_mem_nil in H. }
  replace (rl_scan l start end_) with (rl_scan_loop l start end_ 0) by (by destruct l).
  destruct (rl_scan_loop_spec l start end_ 0 Hne Hwf)
    as (c & pre & e & post & -> & -> & Hpre & [(-> & Hm & Hq)|(Hm & Hcs)]).
  - exists RL_NOOVERLAP, (Some (0 + length pre)%nat). split; [done|]. simpl.
    intros x. by eapply rl_nooverlap_mem.
  - exists c, (Some (length pre)). split; [done|]. rewrite decide_False by by intros ->.
    exists (length pre), e. split; [done|]. split; [apply list_lookup_split|]. split; [done|].
    split; [by apply rl_case_num_spec|]. intros j f Hj Hf.
    rewrite lookup_app_l in Hf by done. rewrite Forall_forall in Hpre.
    apply list_elem_of_lookup_2, Hpre in Hf. rl_solve.
Qed.

(** On the ranges it handles ([rl_add_safe]), [rl_add] leaves a well-formed queue
    whose bytes are the old ones and those of the range. *)
Theorem rl_add_correct start end_ l :
  range_ok start end_ -> rl_wf l -> rl_add_safe start end_ l ->
  exists l', rl_add start end_ l = Ok l' /\ rl_wf l' /\
    forall x, rl_mem x l' <-> rl_mem x l \/ in_range start end_ x.
Proof.
  intros Hst Hwf Hsafe. unfold rl_add. destruct (decide (l = [])) as [->|Hne].
  { cbn. destruct (rl_collapse_neighbors_spec [] (Rl start end_) []) as (l' & Hl & Hw & Hm);
      [done|apply rl_wf_nil|apply rl_wf_nil|set_solver|set_solver|].
    exists l'. split; [done|]. split; [done|]. intros x. rewrite Hm. simpl.
    autorewrite with rl. unfold in_range. tauto. }
  replace (rl_scan l start end_) with (rl_scan_loop l start end_ 0) by (by destruct l).
  destruct (rl_scan_loop_spec l start end_ 0 Hne Hwf)
    as (c & pre & e & post & -> & -> & Hpre & [(-> & Hm & Hq)|(Hm & Hcs)]);
    cbn [mbind outcome_bind Nat.add].
  - destruct (add_nooverlap start end_ Hst pre e post Hwf Hpre Hsafe Hm Hq) as (-> & He1 & He2).
    replace (S (length pre)) with (length (pre ++ [e])) by (rewrite length_app; simpl; lia).
    rewrite take_ge, drop_ge by done.
    destruct (rl_collapse_neighbors_spec (pre ++ [e]) (Rl start end_) []) as (l' & Hl & Hw & Hml);
      [done|done|apply rl_wf_nil| |set_solver|].
    { rewrite Forall_forall in Hpre. intros f Hf. apply elem_of_app in Hf as [Hf|Hf]; [by apply Hpre|].
      by apply list_elem_of_singleton in Hf as ->. }
    exists l'. split; [done|]. split; [done|]. intros x. rewrite Hml. autorewrite with rl.
    unfold in_range. tauto.
  - destruct (add_overlap start end_ Hst pre e post Hwf Hpre Hsafe c Hm Hcs) as (l' & Hl & Hw & Hml).
    exists l'. split; [|done]. destruct c; try done; rl_split_rw; by subst || done.
Qed.

(** C33: [rl_remove] of a range of a queue that is sorted and has no overlaps (as [rl_add]
    does not always leave it) returns a queue of that kind whose bytes are the old ones less
    those of the range, for every range that does not end before its start and ends before the
    last offset. *)
Theorem rl_remove_correct start end_ l :
  range_ok start end_ -> end_ < 9223372036854775807 -> rl_wf l ->
  exists l', rl_remove start end_ l = Ok l' /\ rl_wf l' /\
    forall x, rl_mem x l' <-> rl_mem x l /\ ~ in_range start end_ x.
Proof.
  intros Hst Ht Hwf. destruct (decide (l = [])) as [->|Hne].
  { exists []. split; [done|]. split; [done|]. intros x. rewrite rl_mem_nil. tauto. }
  replace (rl_remove start end_ l) with (rl_remove_loop (S (length l)) start end_ ([] ++ l) (length (@nil rl_entry)))
    by (by destruct l).
  apply rl_remove_loop_spec; [done|done|lia|done|done].
Qed.

(** Appending behind every entry, as the write path does, is safe. *)
Lemma rl_append_safe start end_ l :
  Forall (fun e => rl_end e <> RL_INFINITY /\ rl_end e < start) l -> rl_add_safe start end_ l.
Proof.
  intros H. split; [by right|]. rewrite Forall_forall in H.
  intros e f He _ _ Ht. specialize (H _ He). rl_solve.
Qed.

(** ** Evaluations *)

Definition ex_list : rl_head := [Rl 0 9; Rl 20 29; Rl 40 RL_INFINITY].

Lemma ex_list_wf : rl_wf ex_list.
Proof.
  split; [repeat (constructor; [rl_solve|]); constructor|].
  repeat constructor; rl_unfold; lia.
Qed.

Lemma rl_scan_witness :
  rl_scan ex_list 5 24 = Ok (RL_OVERLAPSTARTSBEFORE, Some 0%nat) /\ rl_touches (Rl 0 9) 5 24.
Proof.
  destruct (rl_scan_correct 5 24 ex_list ex_list_wf) as (c & o & E & H).
  injection E as <- <-. destruct H as (i & e & [= <-] & [= <-] & H & _). split; [reflexivity|exact H].
Defined.

Lemma rl_add_witness :
  exists l', rl_add 25 35 ex_list = Ok l' /\ rl_wf l' /\ rl_mem 33 l'.
Proof.
  destruct (rl_add_correct 25 35 ex_list) as (l' & E & Hw & Hm).
  - rl_solve.
  - apply ex_list_wf.
  - split; [left; apply Exists_cons_tl, Exists_cons_hd; rl_solve|].
    intros e f He Hf. unfold ex_list in *. rewrite !elem_of_cons, elem_of_nil in He, Hf.
    destruct He as [->|[->|[->|[]]]]; destruct Hf as [->|[->|[->|[]]]]; rl_unfold; lia.
  - exists l'. split; [exact E|]. split; [exact Hw|]. apply Hm. right. rl_solve.
Defined.

Lemma rl_remove_witness :
  exists l', rl_remove 5 24 ex_list = Ok l' /\ rl_wf l' /\ l' = [Rl 0 4; Rl 25 29; Rl 40 RL_INFINITY].
Proof.
  destruct (rl_remove_correct 5 24 ex_list) as (l' & E & Hw & _); [rl_solve|lia|apply ex_list_wf|].
  exists l'. split; [exact E|]. split; [exact Hw|]. by injection E as <-.
Defined.

(** ** Where [rl_add] fails *)

(** A range added in front of the only entry of a queue is lost together with the
    entry: it is linked in behind the entry it precedes, and the collapse that follows
    leaves a single entry whose end lies before its start. *)
Theorem rl_add_in_front start end_ s e :
  0 <= start <= end_ -> end_ < s -> s <= e <= 9223372036854775807 ->
  rl_add start end_ [Rl s e] = Ok [Rl s end_] /\ forall x, ~ rl_mem x [Rl s end_].
Proof.
  intros H1 H2 H3. split.
  - unfold rl_add. cbn [rl_scan rl_scan_from drop rl_scan_loop]. unfold rl_misses, is_inf, RL_INFINITY.
    cbn [rl_end rl_start]. rewrite (proj2 (Z.eqb_neq e (-1))), (proj2 (Z.eqb_neq end_ (-1))) by lia.
    rewrite (proj2 (Z.ltb_ge e start)), (proj2 (Z.ltb_lt end_ s)) by lia. cbn.
    rewrite s64_small, (proj2 (Z.ltb_ge e (start - 1))) by lia. done.
  - intros x. autorewrite with rl. rl_unfold. lia.
Qed.

Lemma rl_add_in_front_witness : rl_add 0 5 [Rl 10 20] = Ok [Rl 10 5].
Proof. exact (proj1 (rl_add_in_front 0 5 10 20 ltac:(lia) ltac:(lia) ltac:(lia))). Defined.

(** A range that swallows two entries is cut off at the end of the second one: the
    collapse takes over the end of the next entry also when it is the smaller one, and
    the bytes behind it are lost. *)
Theorem rl_add_swallow start end_ e1 e2 :
  entry_ok e1 -> entry_ok e2 -> rl_before e1 e2 -> rl_end e2 <> RL_INFINITY ->
  0 <= start <= rl_start e1 -> rl_end e2 < end_ <= 9223372036854775807 ->
  rl_add start end_ [e1; e2] = Ok [Rl start (rl_end e2)] /\ ~ rl_mem end_ [Rl start (rl_end e2)].
Proof.
  intros H1 H2 H3 H4 H5 H6. destruct e1 as [s1 t1], e2 as [s2 t2]. rl_unfold. split.
  - unfold rl_add. cbn [rl_scan rl_scan_from drop rl_scan_loop]. unfold rl_misses, is_inf, RL_INFINITY.
    cbn [rl_end rl_start]. rewrite (proj2 (Z.ltb_ge t1 start)), (proj2 (Z.ltb_ge end_ s1)) by lia.
    rewrite !andb_false_r. cbn [orb]. unfold rl_classify, is_inf, RL_INFINITY. cbn [rl_start rl_end].
    rewrite (proj2 (Z.eqb_neq t1 end_)), andb_false_r by lia.
    rewrite (proj2 (Z.leb_gt end_ t1)), (proj2 (Z.eqb_neq t1 (-1))), andb_false_r by lia.
    rewrite (proj2 (Z.leb_le start s1)), (proj2 (Z.leb_le t1 end_)), orb_true_r by lia.
    cbn. unfold is_inf, RL_INFINITY. rewrite s64_small, (proj2 (Z.ltb_ge end_ (s2 - 1))), andb_false_r by lia.
    done.
  - autorewrite with rl. rl_unfold. lia.
Qed.

Lemma rl_add_swallow_witness : rl_add 0 100 [Rl 10 20; Rl 30 40] = Ok [Rl 0 40].
Proof.
  apply (rl_add_swallow 0 100 (Rl 10 20) (Rl 30 40)); rl_unfold; lia.
Defined.
