(* ===== verification/VolumeBitmap.v ===== *)
(** * The volume bitmap (hfsplus/hfscommon/Misc/VolumeAllocation.c)

    The model keeps the bitmap as the blocks of the allocation file (or of the
    device, on a plain HFS volume), each a list of 32-bit words as the host reads
    them; [SWAP_BE32] turns such a word into the big-endian one whose highest bit
    stands for the first allocation block.  [ReadBitmapBlock] copies a block out,
    [ReleaseBitmapBlock] with [dirty] set writes it back.  DEBUG_BUILD is 1
    (hfsplus/hfs_macos_defs.h defines HFS_DIAGNOSTIC as 1), so the [panic] calls
    on blocks that are already in the wanted state are part of the code. *)
From S2P Require Import Prelude Bits.

(** ** Constants *)
Definition noErr : Z := 0.
Definition dskFulErr : Z := -34.
Definition kHFSPlusSigWord : Z := 0x482B.
Definition kBytesPerWord : Z := 4.
Definition kBitsPerByte : Z := 8.
Definition kBitsPerWord : Z := 32.
Definition kBitsWithinWordMask : Z := kBitsPerWord - 1.
Definition kHighBitInWordMask : Z := 0x80000000.
Definition kAllBitsSetInWord : Z := 0xFFFFFFFF.
Definition kMaxFreeExtents : Z := 10.

Record HFSPlusExtentDescriptor := Ext { startBlock : Z; blockCount : Z }.

(** The fields of [ExtendedVCB] (hfsplus/hfs.h) the allocator uses, with the
    bitmap blocks on the volume. *)
Record ExtendedVCB := VCB {
  vcbSigWord : Z;
  vcbFlags : Z;
  blockSize : Z;
  totalBlocks : Z;
  freeBlocks : Z;
  nextAllocation : Z;
  vcbVBMSt : Z;
  vcbVBMIOSize : Z;
  vcbFreeExtCnt : Z;
  vcbFreeExt : list HFSPlusExtentDescriptor;
  reserveBlocks : Z;
  loanedBlocks : Z;
  bitmap : gmap Z (list Z)
}.

Definition set_bitmap (f : gmap Z (list Z) -> gmap Z (list Z)) (v : ExtendedVCB) : ExtendedVCB :=
  VCB (vcbSigWord v) (vcbFlags v) (blockSize v) (totalBlocks v) (freeBlocks v)
      (nextAllocation v) (vcbVBMSt v) (vcbVBMIOSize v) (vcbFreeExtCnt v) (vcbFreeExt v)
      (reserveBlocks v) (loanedBlocks v) (f (bitmap v)).
Definition set_flags (x : Z) (v : ExtendedVCB) : ExtendedVCB :=
  VCB (vcbSigWord v) x (blockSize v) (totalBlocks v) (freeBlocks v)
      (nextAllocation v) (vcbVBMSt v) (vcbVBMIOSize v) (vcbFreeExtCnt v) (vcbFreeExt v)
      (reserveBlocks v) (loanedBlocks v) (bitmap v).
Definition set_freeBlocks (x : Z) (v : ExtendedVCB) : ExtendedVCB :=
  VCB (vcbSigWord v) (vcbFlags v) (blockSize v) (totalBlocks v) x
      (nextAllocation v) (vcbVBMSt v) (vcbVBMIOSize v) (vcbFreeExtCnt v) (vcbFreeExt v)
      (reserveBlocks v) (loanedBlocks v) (bitmap v).
Definition set_nextAllocation (x : Z) (v : ExtendedVCB) : ExtendedVCB :=
  VCB (vcbSigWord v) (vcbFlags v) (blockSize v) (totalBlocks v) (freeBlocks v)
      x (vcbVBMSt v) (vcbVBMIOSize v) (vcbFreeExtCnt v) (vcbFreeExt v)
      (reserveBlocks v) (loanedBlocks v) (bitmap v).
Definition set_freeExts (cnt : Z) (l : list HFSPlusExtentDescriptor) (v : ExtendedVCB)
  : ExtendedVCB :=
  VCB (vcbSigWord v) (vcbFlags v) (blockSize v) (totalBlocks v) (freeBlocks v)
      (nextAllocation v) (vcbVBMSt v) (vcbVBMIOSize v) cnt l
      (reserveBlocks v) (loanedBlocks v) (bitmap v).

Definition MarkVCBDirty (v : ExtendedVCB) : ExtendedVCB :=
  set_flags (s16 (Z.lor (vcbFlags v) 0xFF00)) v.

(** [hfs_freeblks] (hfsplus/hfs_vfsutils.c). *)
Definition hfs_freeblks (v : ExtendedVCB) (wantreserve : bool) : Z :=
  let freeblks := freeBlocks v in
  let freeblks :=
    if wantreserve then
      if reserveBlocks v <? freeblks then u32 (freeblks - reserveBlocks v) else 0
    else freeblks in
  u32 (freeblks - loanedBlocks v).

(** [numerator / denominator] in C truncates towards zero. *)
Definition FileBytesToBlocks (numerator denominator : Z) : Z :=
  let quotient := u32 (Z.quot numerator denominator) in
  if u32 (quotient * denominator) =? numerator then quotient else u32 (quotient + 1).

Section Volume.
(** [bread] is the buffer cache of the kernel: its result for a block number of
    the bitmap's vnode. *)
Context (bread : Z -> Z).

(** ** Bitmap blocks *)

Record bitmap_buf := Buf { blockRef : Z; buffer : list Z }.

(** The block number [ReadBitmapBlock] reads for an allocation block. *)
Definition bitmap_block (v : ExtendedVCB) (bit : Z) : Z :=
  let block := bit / u32 (vcbVBMIOSize v * kBitsPerByte) in
  if vcbSigWord v =? kHFSPlusSigWord then block else u32 (block + vcbVBMSt v).

Definition ReadBitmapBlock (v : ExtendedVCB) (bit : Z) : Z * option bitmap_buf :=
  let block := bitmap_block v bit in
  let err := s16 (bread block) in
  if err =? 0 then (err, Some (Buf block (default [] (bitmap v !! block)))) else (err, None).

Definition ReleaseBitmapBlock (v : ExtendedVCB) (b : bitmap_buf) (dirty : bool) : ExtendedVCB :=
  if dirty then set_bitmap <[blockRef b := buffer b]> v else v.

(** ** Marking a run of blocks

[BlockMarkAllocated] and [BlockMarkFree] differ in what they do to a word:
[wo_partial] is given the word and the mask of the blocks in it, [wo_whole] a
word all of whose blocks are concerned; [None] is the [panic]. *)
Record word_op := WordOp {
  wo_partial : Z -> Z -> option Z;
  wo_whole : Z -> option Z;
  wo_panic : string
}.

Definition op_allocate : word_op := WordOp
  (fun w mask => if Z.land w (SWAP_BE32 mask) =? 0 then Some (Z.lor w (SWAP_BE32 mask)) else None)
  (fun w => if w =? 0 then Some (SWAP_BE32 kAllBitsSetInWord) else None)
  "BlockMarkAllocated: blocks already allocated!".

Definition op_free : word_op := WordOp
  (fun w mask =>
     if Z.land w (SWAP_BE32 mask) =? SWAP_BE32 mask
     then Some (Z.land w (SWAP_BE32 (u32 (Z.lnot mask)))) else None)
  (fun w => if w =? SWAP_BE32 kAllBitsSetInWord then Some 0 else None)
  "BlockMarkFree: blocks not allocated!".

(** [currentWord] points [cw_index] words into the buffer. *)
Record word_cursor := Cur { cw_buf : bitmap_buf; cw_index : Z; wordsLeft : Z }.

(** [*currentWord = f( *currentWord)]. *)
Definition update_word (op : word_op) (f : Z -> option Z) (c : word_cursor) : outcome word_cursor :=
  w ← of_option (if 0 <=? cw_index c then buffer (cw_buf c) !! Z.to_nat (cw_index c) else None);
  match f w with
  | None => Panic (wo_panic op)
  | Some w' =>
      Ok (Cur (Buf (blockRef (cw_buf c)) (<[Z.to_nat (cw_index c) := w']> (buffer (cw_buf c))))
              (cw_index c) (wordsLeft c))
  end.

(** [++currentWord; --wordsLeft] *)
Definition next_word (c : word_cursor) : word_cursor :=
  Cur (cw_buf c) (cw_index c + 1) (u32 (wordsLeft c - 1)).

(** The part under [if (wordsLeft == 0)]: the bitmap block of [startingBlock],
    moved on by [bitsPerBlock], replaces the one at hand. *)
Definition next_bitmap_block (v : ExtendedVCB) (startingBlock : Z) (c : word_cursor)
  : Z * Z * ExtendedVCB * option word_cursor :=
  if wordsLeft c =? 0 then
    let startingBlock := u32 (startingBlock + u32 (vcbVBMIOSize v * kBitsPerByte)) in
    let v := ReleaseBitmapBlock v (cw_buf c) true in
    let '(err, b) := ReadBitmapBlock v startingBlock in
    (err, startingBlock, v,
     match b with
     | Some b => Some (Cur b 0 (vcbVBMIOSize v / kBytesPerWord))
     | None => None
     end)
  else (noErr, startingBlock, v, Some c).

(** The loop over whole words.  Fuel: [numBlocks / 32]. *)
Fixpoint mark_whole_words (fuel : nat) (op : word_op) (v : ExtendedVCB)
    (startingBlock numBlocks : Z) (c : word_cursor)
  : outcome (Z * ExtendedVCB * option (Z * Z * word_cursor)) :=
  if kBitsPerWord <=? numBlocks then
    match fuel with
    | O => Diverge
    | S fuel' =>
        let '(err, startingBlock, v, oc) := next_bitmap_block v startingBlock c in
        match oc with
        | None => Ok (err, v, None)
        | Some c =>
            c ← update_word op (wo_whole op) c;
            mark_whole_words fuel' op v startingBlock (u32 (numBlocks - kBitsPerWord)) (next_word c)
        end
    end
  else Ok (noErr, v, Some (startingBlock, numBlocks, c)).

(** The blocks after the last whole word, and the exit. *)
Definition mark_tail (op : word_op) (r : Z * ExtendedVCB * option (Z * Z * word_cursor))
  : outcome (Z * ExtendedVCB) :=
  let '(err, v, rest) := r in
  match rest with
  | None => Ok (err, v)
  | Some (startingBlock, numBlocks, c) =>
      if numBlocks =? 0 then Ok (noErr, ReleaseBitmapBlock v (cw_buf c) true)
      else
        let bitMask := u32 (Z.lnot (Z.shiftr kAllBitsSetInWord numBlocks)) in
        let '(err, startingBlock, v, oc) := next_bitmap_block v startingBlock c in
        match oc with
        | None => Ok (err, v)
        | Some c =>
            c ← update_word op (fun w => wo_partial op w bitMask) c;
            Ok (noErr, ReleaseBitmapBlock v (cw_buf c) true)
        end
  end.

Definition BlockMark (op : word_op) (v : ExtendedVCB) (startingBlock numBlocks : Z)
  : outcome (Z * ExtendedVCB) :=
  let '(err, ob) := ReadBitmapBlock v startingBlock in
  match ob with
  | None => Ok (err, v)
  | Some b =>
      let bitsPerBlock := u32 (vcbVBMIOSize v * kBitsPerByte) in
      let wordsPerBlock := vcbVBMIOSize v / kBytesPerWord in
      let wordIndexInBlock := Z.land startingBlock (u32 (bitsPerBlock - 1)) / kBitsPerWord in
      let c := Cur b wordIndexInBlock (u32 (wordsPerBlock - wordIndexInBlock)) in
      let firstBit := startingBlock mod kBitsPerWord in
      '(numBlocks, c) ←
        (if firstBit =? 0 then Ok (numBlocks, c)
         else
           let bitMask := Z.shiftr kAllBitsSetInWord firstBit in
           let numBits := kBitsPerWord - firstBit in
           let '(numBits, bitMask) :=
             if numBlocks <? numBits then
               (numBlocks,
                Z.land bitMask (u32 (Z.lnot (Z.shiftr kAllBitsSetInWord (firstBit + numBlocks)))))
             else (numBits, bitMask) in
           c ← update_word op (fun w => wo_partial op w bitMask) c;
           Ok (u32 (numBlocks - numBits), next_word c));
      r ← mark_whole_words (Z.to_nat (numBlocks / kBitsPerWord)) op v startingBlock numBlocks c;
      mark_tail op r
  end.

Definition BlockMarkAllocated := BlockMark op_allocate.
Definition BlockMarkFree := BlockMark op_free.
End Volume.

(** ** What a word operation does to the blocks of a word

    Both operations set the masked blocks to [val] and panic when one of them
    has that value already. *)
Definition word_marked (val : bool) (mask w w' : Z) : Prop :=
  0 <= w' < 2 ^ 32 /\
  (forall i, 0 <= i < 32 -> Z.testbit mask i = true -> Z.testbit (bswap32 w) i = negb val) /\
  (forall i, 0 <= i < 32 ->
     Z.testbit (bswap32 w') i = if Z.testbit mask i then val else Z.testbit (bswap32 w) i).
Definition word_clash (val : bool) (mask w : Z) : Prop :=
  exists i, 0 <= i < 32 /\ Z.testbit mask i = true /\ Z.testbit (bswap32 w) i = val.

Definition marks (val : bool) (mask w : Z) (r : option Z) : Prop :=
  match r with
  | Some w' => word_marked val mask w w'
  | None => word_clash val mask w
  end.

Class MarkOp (op : word_op) (val : bool) : Prop := {
  mark_partial w mask :
    0 <= w < 2 ^ 32 -> 0 <= mask < 2 ^ 32 -> marks val mask w (wo_partial op w mask);
  mark_whole w :
    0 <= w < 2 ^ 32 -> marks val kAllBitsSetInWord w (wo_whole op w)
}.

Lemma bswap32_0 i : 0 <= i < 32 -> Z.testbit (bswap32 0) i = false.
Proof. intros. rewrite bswap32_spec by done. apply Z.bits_0. Qed.

#[export] Instance allocate_MarkOp : MarkOp op_allocate true.
Proof.
  split; intros w.
  - intros mask Hw Hm. simpl. unfold SWAP_BE32.
    pose proof (bswap32_range mask) as Hs. destruct (Z.eqb_spec (Z.land w (bswap32 mask)) 0) as [E|E].
    + split; [by apply lor_range|]. rewrite bswap32_eq in E by (try apply land_range; lia).
      split; intros i Hi.
      * intros Hb. specialize (E i Hi). rewrite bswap32_land, bswap32_0, Hb, andb_true_r in E by done.
        done.
      * rewrite bswap32_lor by done. destruct (Z.testbit mask i); [apply orb_true_r|apply orb_false_r].
    + apply bswap32_neq in E as (i & Hi & E); [|apply land_range; lia|lia].
      rewrite bswap32_land, bswap32_0 in E by done. exists i. split; [done|].
      destruct (Z.testbit mask i), (Z.testbit (bswap32 w) i); done.
  - intros Hw. simpl. unfold SWAP_BE32. destruct (Z.eqb_spec w 0) as [->|E].
    + split; [apply bswap32_range|]. split; intros i Hi.
      * intros _. by apply bswap32_0.
      * rewrite bswap32_invol by (unfold kAllBitsSetInWord; lia).
        unfold kAllBitsSetInWord. by rewrite ones32.
    + apply bswap32_neq in E as (i & Hi & E); [|lia|lia]. rewrite bswap32_0 in E by done.
      exists i. split; [done|]. split; [by apply ones32|]. by destruct (Z.testbit (bswap32 w) i).
Qed.

#[export] Instance free_MarkOp : MarkOp op_free false.
Proof.
  split; intros w.
  - intros mask Hw Hm. simpl. unfold SWAP_BE32.
    pose proof (bswap32_range mask) as Hs.
    destruct (Z.eqb_spec (Z.land w (bswap32 mask)) (bswap32 mask)) as [E|E].
    + split; [apply land_range; [done|apply bswap32_range]|].
      rewrite bswap32_eq in E by (try apply land_range; lia). split; intros i Hi.
      * intros Hb. specialize (E i Hi). rewrite bswap32_land, bswap32_invol, Hb, andb_true_r in E by done.
        done.
      * rewrite bswap32_land, testbit_u32_lnot by done.
        destruct (Z.testbit mask i); [apply andb_false_r|apply andb_true_r].
    + apply bswap32_neq in E as (i & Hi & E); [|apply land_range; lia|lia].
      rewrite bswap32_land, bswap32_invol in E by done. exists i. split; [done|].
      destruct (Z.testbit mask i), (Z.testbit (bswap32 w) i); done.
  - intros Hw. simpl. unfold SWAP_BE32.
    destruct (Z.eqb_spec w (bswap32 kAllBitsSetInWord)) as [->|E].
    + split; [lia|]. split; intros i Hi.
      * intros Hb. by rewrite bswap32_invol by (unfold kAllBitsSetInWord; lia).
      * rewrite bswap32_0 by done. unfold kAllBitsSetInWord. by rewrite ones32.
    + apply bswap32_neq in E as (i & Hi & E); [|lia|apply bswap32_range].
      rewrite bswap32_invol in E by (unfold kAllBitsSetInWord; lia).
      unfold kAllBitsSetInWord in E. rewrite ones32 in E by done.
      exists i. split; [done|]. split; [by apply ones32|]. by destruct (Z.testbit (bswap32 w) i).
Qed.

(** ** The bitmap as a set of allocation blocks *)

Definition bits_per_block (v : ExtendedVCB) : Z := vcbVBMIOSize v * kBitsPerByte.
Definition words_per_block (v : ExtendedVCB) : Z := vcbVBMIOSize v / kBytesPerWord.

(** The word of block [k] within its bitmap block, and its bit. *)
Definition word_index (v : ExtendedVCB) (k : Z) : Z := (k mod bits_per_block v) / 32.
Definition mem_bit (v : ExtendedVCB) (m : gmap Z (list Z)) (k : Z) : bool :=
  match m !! bitmap_block v k with
  | Some ws =>
      match ws !! Z.to_nat (word_index v k) with
      | Some w => Z.testbit (bswap32 w) (31 - k mod 32)
      | None => false
      end
  | None => false
  end.
(** Block [k] is in use. *)
Definition vol_bit (v : ExtendedVCB) (k : Z) : bool := mem_bit v (bitmap v) k.

(** The I/O size is a power of two that holds a word, the volume fits 32-bit
    block numbers, and the bitmap has every block of the volume. *)
Record geom_ok (v : ExtendedVCB) : Prop := {
  geom_pow : exists j, 2 <= j <= 28 /\ vcbVBMIOSize v = 2 ^ j;
  geom_total : 0 <= totalBlocks v <= 2 ^ 32 - 32;
  geom_start : 0 <= vcbVBMSt v < 2 ^ 15
}.
Definition mem_ok (v : ExtendedVCB) (m : gmap Z (list Z)) : Prop :=
  (forall b ws, m !! b = Some ws ->
     Z.of_nat (length ws) = words_per_block v /\ Forall (fun w => 0 <= w < 2 ^ 32) ws) /\
  (forall k, 0 <= k < totalBlocks v -> is_Some (m !! bitmap_block v k)).
Definition vol_ok (v : ExtendedVCB) : Prop := geom_ok v /\ mem_ok v (bitmap v).

(** What the buffer cache promises: an [errno] value, and a block it can read is
    there. *)
Definition bread_ok (bread : Z -> Z) (v : ExtendedVCB) : Prop :=
  forall b, 0 <= bread b < 2 ^ 15 /\ (bread b = 0 -> is_Some (bitmap v !! b)).

Section geometry.
Context (v : ExtendedVCB) (Hg : geom_ok v).

Lemma geom_div :
  bits_per_block v = 32 * words_per_block v /\ 1 <= words_per_block v < 2 ^ 27 /\
  u32 (vcbVBMIOSize v * kBitsPerByte) = bits_per_block v.
Proof.
  destruct (geom_pow v Hg) as (j & Hj & E).
  unfold bits_per_block, words_per_block, kBitsPerByte, kBytesPerWord. rewrite E.
  assert (2 ^ j = 2 ^ (j - 2) * 4) as Hp.
  { change 4 with (2 ^ 2). rewrite <- Z.pow_add_r by lia. f_equal. lia. }
  rewrite Hp at 1 2 3 4. rewrite !Z.div_mul by lia.
  assert (1 <= 2 ^ (j - 2) <= 2 ^ 26) as Hb.
  { split; [change 1 with (2 ^ 0)|]; apply Z.pow_le_mono_r; lia. }
  change (2 ^ 26) with 67108864 in Hb. change (2 ^ 27) with 134217728.
  split; [lia|]. split; [lia|]. rewrite Hp. apply u32_small. lia.
Qed.

Lemma geom_land k :
  0 <= k -> Z.land k (u32 (u32 (vcbVBMIOSize v * kBitsPerByte) - 1)) = k mod bits_per_block v.
Proof.
  intros Hk. destruct (geom_div) as (Hd & Hw & ->).
  rewrite u32_small by lia. destruct (geom_pow v Hg) as (j & Hj & E).
  assert (bits_per_block v = 2 ^ (j + 3)) as ->.
  { unfold bits_per_block, kBitsPerByte. rewrite E, Z.pow_add_r by lia. done. }
  rewrite <- Z.land_ones by lia. rewrite Z.ones_equiv. f_equal.
Qed.

Lemma bitmap_block_eq k :
  0 <= k < 2 ^ 32 ->
  bitmap_block v k =
  k / bits_per_block v + (if vcbSigWord v =? kHFSPlusSigWord then 0 else vcbVBMSt v).
Proof.
  intros Hk. unfold bitmap_block. destruct geom_div as (Hd & Hw & ->).
  case_match; [lia|]. apply u32_small. pose proof (geom_start v Hg) as Hs.
  assert (0 <= k / bits_per_block v) by (apply Z.div_pos; lia).
  assert (k / bits_per_block v < 2 ^ 27) by (apply Z.div_lt_upper_bound; lia). lia.
Qed.

Lemma word_index_range k : 0 <= k -> 0 <= word_index v k < words_per_block v.
Proof.
  intros Hk. unfold word_index. destruct geom_div as (Hd & Hw & _).
  pose proof (Z.mod_pos_bound k (bits_per_block v) ltac:(lia)).
  split; [apply Z.div_pos; lia|]. apply Z.div_lt_upper_bound; lia.
Qed.

(** The word of a block, counted over the whole bitmap. *)
Lemma word_number k :
  k / 32 = (k / bits_per_block v) * words_per_block v + word_index v k.
Proof.
  unfold word_index. destruct geom_div as (Hd & Hw & _).
  rewrite (Z.div_mod k (bits_per_block v)) at 1 by lia. rewrite Hd at 1.
  replace (32 * words_per_block v * (k / bits_per_block v) + k mod bits_per_block v)
    with (k mod bits_per_block v + (k / bits_per_block v * words_per_block v) * 32) by lia.
  rewrite Z.div_add by lia. lia.
Qed.

Lemma same_word k p :
  0 <= k < 2 ^ 32 -> 0 <= p < 2 ^ 32 ->
  k / 32 = p / 32 <-> bitmap_block v k = bitmap_block v p /\ word_index v k = word_index v p.
Proof.
  intros Hk Hp. rewrite !bitmap_block_eq by done. rewrite !word_number.
  pose proof (word_index_range k ltac:(lia)). pose proof (word_index_range p ltac:(lia)).
  destruct geom_div as (_ & Hw & _). split; [|intros [H1 H2]; f_equal; [f_equal; lia|done]].
  intros E.
  assert (k / bits_per_block v = p / bits_per_block v) by nia. split; [lia|nia].
Qed.
End geometry.

(** ** Cursors

    [view v c] is the bitmap with the buffer at hand in place.  A cursor stands at
    the word of block [p] when it points to it, or when it has just left the bitmap
    block before it. *)
Definition view (v : ExtendedVCB) (c : word_cursor) : gmap Z (list Z) :=
  <[blockRef (cw_buf c) := buffer (cw_buf c)]> (bitmap v).

Definition cur_on (v : ExtendedVCB) (c : word_cursor) (p : Z) : Prop :=
  blockRef (cw_buf c) = bitmap_block v p /\ cw_index c = word_index v p /\
  wordsLeft c = words_per_block v - word_index v p.
Definition cur_past (v : ExtendedVCB) (c : word_cursor) (p : Z) : Prop :=
  0 < p /\ p mod bits_per_block v = 0 /\ wordsLeft c = 0 /\
  blockRef (cw_buf c) = bitmap_block v (p - 1).
Definition cur_at (v : ExtendedVCB) (c : word_cursor) (p : Z) : Prop :=
  cur_on v c p \/ cur_past v c p.

Definition marked (v : ExtendedVCB) (val : bool) (m m' : gmap Z (list Z)) (s n : Z) : Prop :=
  forall k, 0 <= k < 2 ^ 32 ->
    mem_bit v m' k = if (s <=? k) && (k <? s + n) then val else mem_bit v m k.
(** Blocks [s] to [s + n - 1] have the value [val]. *)
Definition run_is (v : ExtendedVCB) (m : gmap Z (list Z)) (val : bool) (s n : Z) : Prop :=
  forall k, s <= k < s + n -> mem_bit v m k = val.

Lemma marked_refl v val m s : marked v val m m s 0.
Proof. intros k Hk. case_ztests; done. Qed.

Lemma marked_trans v val m1 m2 m3 s n1 n2 :
  0 <= n1 -> 0 <= n2 ->
  marked v val m1 m2 s n1 -> marked v val m2 m3 (s + n1) n2 -> marked v val m1 m3 s (n1 + n2).
Proof. intros Hn1 Hn2 H1 H2 k Hk. rewrite H2, H1 by done. case_ztests; done. Qed.

Section cursor.
Context (v : ExtendedVCB) (Hg : geom_ok v).

Lemma mem_ok_lookup m p :
  mem_ok v m -> 0 <= p -> is_Some (m !! bitmap_block v p) ->
  exists ws w, m !! bitmap_block v p = Some ws /\ ws !! Z.to_nat (word_index v p) = Some w /\
    0 <= w < 2 ^ 32.
Proof.
  intros [Hm _] Hp [ws Hws]. destruct (Hm _ _ Hws) as [Hl Hf].
  pose proof (word_index_range v Hg p Hp) as Hi.
  destruct (lookup_lt_is_Some_2 ws (Z.to_nat (word_index v p))) as [w Hw]; [lia|].
  exists ws, w. split; [done|]. split; [done|]. by eapply Forall_lookup_1 in Hf.
Qed.

(** Writing the word of block [p]. *)
Lemma mem_bit_set m p ws w' k :
  0 <= p < 2 ^ 32 -> 0 <= k < 2 ^ 32 ->
  m !! bitmap_block v p = Some ws -> (Z.to_nat (word_index v p) < length ws)%nat ->
  mem_bit v (<[bitmap_block v p := <[Z.to_nat (word_index v p) := w']> ws]> m) k =
  if k / 32 =? p / 32 then Z.testbit (bswap32 w') (31 - k mod 32) else mem_bit v m k.
Proof.
  intros Hp Hk Hws Hl. unfold mem_bit.
  pose proof (word_index_range v Hg k ltac:(lia)). pose proof (word_index_range v Hg p ltac:(lia)).
  destruct (Z.eqb_spec (k / 32) (p / 32)) as [E|E].
  - destruct (proj1 (same_word v Hg k p Hk Hp) E) as [-> ->].
    rewrite lookup_insert_eq, list_lookup_insert_eq by done. done.
  - destruct (decide (bitmap_block v k = bitmap_block v p)) as [Eb|Eb].
    + rewrite Eb, lookup_insert_eq, Hws, list_lookup_insert_ne; [done|].
      intros Ei. apply E. apply (same_word v Hg k p Hk Hp). split; [done|lia].
    + by rewrite lookup_insert_ne by done.
Qed.

Lemma mem_ok_set m p ws w' :
  mem_ok v m -> m !! bitmap_block v p = Some ws -> 0 <= w' < 2 ^ 32 ->
  mem_ok v (<[bitmap_block v p := <[Z.to_nat (word_index v p) := w']> ws]> m).
Proof.
  intros [Hm Hc] Hws Hw. split.
  - intros b ws'. rewrite lookup_insert. case_decide; [|apply Hm].
    intros [= <-]. rewrite length_insert. destruct (Hm _ _ Hws). split; [done|].
    by apply Forall_insert.
  - intros k Hk. rewrite lookup_insert. case_decide; [by eexists|auto].
Qed.

(** One word of the run: [mask] has the blocks [p] to [p + n - 1] of the word. *)
Lemma update_word_spec op val f mask c p n :
  (forall w, 0 <= w < 2 ^ 32 -> marks val mask w (f w)) ->
  (forall i, 0 <= i < 32 ->
     Z.testbit mask i = (p mod 32 <=? 31 - i) && (31 - i <? p mod 32 + n)) ->
  0 <= p < totalBlocks v -> 0 <= n -> p mod 32 + n <= 32 ->
  mem_ok v (view v c) -> cur_on v c p ->
  match update_word op f c with
  | Ok c' => cur_on v c' p /\ mem_ok v (view v c') /\
      run_is v (view v c) (negb val) p n /\ marked v val (view v c) (view v c') p n /\
      blockRef (cw_buf c') = blockRef (cw_buf c) /\
      (forall b, is_Some (view v c' !! b) <-> is_Some (view v c !! b))
  | Panic _ => exists k, p <= k < p + n /\ mem_bit v (view v c) k = val
  | _ => False
  end.
Proof.
  intros Hf Hmask Hp Hn Hpn Hok (Hb & Hi & Hl). pose proof (geom_total v Hg) as Ht.
  destruct (mem_ok_lookup (view v c) p) as (ws & w & Hws & Hw & Hr); [done|lia|apply Hok, Hp|].
  assert (ws = buffer (cw_buf c)) as ->.
  { unfold view in Hws. rewrite <- Hb, lookup_insert_eq in Hws. congruence. }
  unfold update_word. pose proof (word_index_range v Hg p ltac:(lia)) as Hir.
  rewrite Hi, (proj2 (Z.leb_le _ _)), Hw by lia. cbn [of_option mbind outcome_bind].
  assert (forall k, k / 32 = p / 32 -> mem_bit v (view v c) k = Z.testbit (bswap32 w) (31 - k mod 32))
    as Hbit.
  { intros k Hk. assert (0 <= k < 2 ^ 32).
    { pose proof (Z.div_mod k 32). pose proof (Z.mod_pos_bound k 32).
      pose proof (Z.div_mod p 32). pose proof (Z.mod_pos_bound p 32). lia. }
    destruct (proj1 (same_word v Hg k p ltac:(lia) ltac:(lia)) Hk) as [Hk1 Hk2]. unfold mem_bit.
    by rewrite Hk1, Hws, Hk2, Hw. }
  specialize (Hf w Hr). destruct (f w) as [w'|]; simpl in Hf.
  - destruct Hf as (Hr' & Hfree & Hset).
    set (c' := Cur _ _ _).
    assert (view v c' = <[bitmap_block v p := <[Z.to_nat (word_index v p) := w']> (buffer (cw_buf c))]>
                          (view v c)) as Hview.
    { unfold view, c'. simpl. rewrite Hb, insert_insert_eq. done. }
    split; [by split|]. split; [rewrite Hview; by apply mem_ok_set|].
    split; [|split; [|split; [done|]]].
    + intros k Hk. rewrite Hbit by (Z.to_euclidean_division_equations; lia).
      apply Hfree; [Z.to_euclidean_division_equations; lia|].
      rewrite Hmask by (Z.to_euclidean_division_equations; lia).
      apply andb_true_iff. rewrite Z.leb_le, Z.ltb_lt. Z.to_euclidean_division_equations; lia.
    + intros k Hk. rewrite Hview, mem_bit_set by (done || lia || (apply lookup_lt_Some in Hw; lia)).
      destruct (Z.eqb_spec (k / 32) (p / 32)) as [E|E].
      * rewrite Hset, Hmask, (Hbit k E) by (Z.to_euclidean_division_equations; lia).
        replace (31 - (31 - k mod 32)) with (k mod 32) by lia.
        assert (k mod 32 - p mod 32 = k - p) by (Z.to_euclidean_division_equations; lia).
        case_ztests; done.
      * case_ztests; try done. exfalso. apply E. Z.to_euclidean_division_equations; lia.
    + intros b. rewrite Hview, lookup_insert. case_decide as Eb; [|done]. subst b.
      rewrite Hws. done.
  - destruct Hf as (i & Hi' & Hmi & Hv). rewrite Hmask in Hmi by done.
    apply andb_true_iff in Hmi. rewrite Z.leb_le, Z.ltb_lt in Hmi.
    exists (p + (31 - i - p mod 32)). split; [lia|].
    rewrite Hbit by (Z.to_euclidean_division_equations; lia). rewrite <- Hv. f_equal.
    Z.to_euclidean_division_equations; lia.
Qed.
End cursor.

(** ** The loops of [BlockMark] *)

(** The volume with another bitmap. *)
Definition vcb_with (v : ExtendedVCB) (m : gmap Z (list Z)) : ExtendedVCB :=
  set_bitmap (fun _ => m) v.

Lemma vcb_with_id v : vcb_with v (bitmap v) = v.
Proof. by destruct v. Qed.

Section marking.
Context (bread : Z -> Z) (v : ExtendedVCB) (Hg : geom_ok v).
Context (op : word_op) (val : bool) `{!MarkOp op val}.

Lemma next_word_at c p q :
  0 <= p < 2 ^ 32 -> q = 32 * (p / 32 + 1) -> q < 2 ^ 32 -> cur_on v c p -> cur_at v (next_word c) q.
Proof.
  intros Hp -> Hq (Hb & Hi & Hl). destruct (geom_div v Hg) as (Hd & Hw & _).
  pose proof (word_index_range v Hg p ltac:(lia)) as Hr.
  pose proof (word_number v Hg p) as Hn.
  set (q := 32 * (p / 32 + 1)) in *.
  assert (u32 (wordsLeft c - 1) = wordsLeft c - 1) as Hu by (apply u32_small; lia).
  assert (0 <= p / bits_per_block v) by (apply Z.div_pos; lia).
  assert (q = bits_per_block v * (p / bits_per_block v) + 32 * (word_index v p + 1)) as Hqe.
  { unfold q. rewrite Hn. set (x := p / bits_per_block v). rewrite Hd. ring. }
  destruct (decide (word_index v p + 1 < words_per_block v)) as [Hlt|Hge].
  - left.
    assert (q / bits_per_block v = p / bits_per_block v) as Hqd.
    { symmetry. apply (Z.div_unique _ _ _ (32 * (word_index v p + 1))); lia. }
    assert (word_index v q = word_index v p + 1) as Hqi.
    { unfold word_index at 1.
      rewrite <- (Z.mod_unique q (bits_per_block v) (p / bits_per_block v)
                   (32 * (word_index v p + 1))) by lia.
      rewrite Z.mul_comm, Z.div_mul by lia. done. }
    unfold cur_on, next_word. simpl. rewrite Hqi, Hu, !(bitmap_block_eq v Hg), Hqd by lia.
    rewrite <- (bitmap_block_eq v Hg) by done. split; [done|]. lia.
  - right.
    assert (q = bits_per_block v * (p / bits_per_block v + 1)) as Hqe'.
    { rewrite Hqe. replace (word_index v p + 1) with (words_per_block v) by lia.
      rewrite <- Hd. ring. }
    unfold cur_past, next_word. simpl. rewrite Hu. split; [lia|]. split.
    { rewrite Hqe', Z.mul_comm. apply Z.mod_mul. lia. }
    split; [lia|]. rewrite Hb. rewrite !(bitmap_block_eq v Hg) by lia. f_equal.
    apply (Z.div_unique _ _ _ (q - 1 - bits_per_block v * (p / bits_per_block v))); lia.
Qed.

(** What stays true while a run is marked: the cursor stands at block [p], the
    block number used for reading lies in the bitmap block at hand. *)
Record mark_inv (m : gmap Z (list Z)) (sB p : Z) (c : word_cursor) : Prop := {
  mi_at : cur_at v c p;
  mi_sB : 0 <= sB < 2 ^ 32 /\ bitmap_block v sB = blockRef (cw_buf c);
  mi_ok : mem_ok v (view (vcb_with v m) c)
}.

Lemma next_bitmap_block_spec m sB p c :
  0 <= p < totalBlocks v -> mark_inv m sB p c ->
  match next_bitmap_block bread (vcb_with v m) sB c with
  | (err, sB', v', Some c') => exists m', err = 0 /\ v' = vcb_with v m' /\
      mark_inv m' sB' p c' /\ cur_on v c' p /\
      view (vcb_with v m') c' = view (vcb_with v m) c
  | (err, _, v', None) =>
      err <> 0 /\ v' = vcb_with v (view (vcb_with v m) c) /\ err = s16 (bread (bitmap_block v p))
  end.
Proof.
  intros Hp [[Hon|Hpast] [HsB Hsb] Hok]; pose proof (geom_total v Hg) as Ht;
    destruct (geom_div v Hg) as (Hd & Hw & Hu); unfold next_bitmap_block.
  - pose proof (word_index_range v Hg p ltac:(lia)). destruct Hon as (Hb & Hi & Hl).
    rewrite (proj2 (Z.eqb_neq _ _)) by lia. exists m. split; [done|]. split; [done|].
    split; [|done]. split; [by left|done..].
  - destruct Hpast as (Hp0 & Hpm & Hl & Hb). rewrite Hl, Z.eqb_refl.
    change (vcbVBMIOSize (vcb_with v m)) with (vcbVBMIOSize v). rewrite Hu.
    assert (p = bits_per_block v * (p / bits_per_block v)) as Hpd by (rewrite Z.div_exact; lia).
    assert (sB / bits_per_block v = p / bits_per_block v - 1) as HsBd.
    { rewrite Hb, !(bitmap_block_eq v Hg) in Hsb by lia.
      assert ((p - 1) / bits_per_block v = p / bits_per_block v - 1); [|lia].
      symmetry. apply (Z.div_unique _ _ _ (bits_per_block v - 1)); lia. }
    pose proof (Z.div_mod sB (bits_per_block v) ltac:(lia)) as HsBe.
    pose proof (Z.mod_pos_bound sB (bits_per_block v) ltac:(lia)) as HsBm.
    assert (p + bits_per_block v <= 2 ^ 32) as Hpb.
    { destruct (geom_pow v Hg) as (j & Hj & E).
      assert (2 ^ 32 = 2 ^ (j + 3) * 2 ^ (29 - j)) as H32
        by (rewrite <- Z.pow_add_r by lia; f_equal; lia).
      assert (bits_per_block v = 2 ^ (j + 3)) as E'
        by (unfold bits_per_block, kBitsPerByte; rewrite E, Z.pow_add_r by lia; done).
      assert (0 < 2 ^ (j + 3)) by (apply Z.pow_pos_nonneg; lia).
      rewrite <- E' in *. clear - Hpd Hp Ht H32 H Hd Hw.
      assert (p / bits_per_block v < 2 ^ (29 - j)) by nia. nia. }
    rewrite u32_small by lia. set (sB' := sB + bits_per_block v).
    assert (bitmap_block v sB' = bitmap_block v p) as HsB'.
    { rewrite !(bitmap_block_eq v Hg) by lia. f_equal. unfold sB'.
      symmetry. apply (Z.div_unique _ _ _ (sB mod bits_per_block v)); lia. }
    set (m' := view (vcb_with v m) c) in *.
    change (ReleaseBitmapBlock (vcb_with v m) (cw_buf c) true) with (vcb_with v m').
    unfold ReadBitmapBlock. change (bitmap_block (vcb_with v m') sB') with (bitmap_block v sB').
    rewrite HsB'. destruct (Z.eqb_spec (s16 (bread (bitmap_block v p))) 0) as [E|E].
    + rewrite E. destruct (proj2 Hok p Hp) as [ws Hws].
      change (bitmap (vcb_with v m')) with m'. rewrite Hws. simpl.
      assert (view (vcb_with v m') (Cur (Buf (bitmap_block v p) ws) 0 (words_per_block v)) = m') as Hv.
      { unfold view. simpl. by apply insert_id. }
      assert (cur_on v (Cur (Buf (bitmap_block v p) ws) 0 (words_per_block v)) p) as Hon.
      { unfold cur_on, word_index. simpl. rewrite Hpm, Z.div_0_l by lia. split; [done|]. lia. }
      exists m'. split; [done|]. split; [done|]. split; [|done].
      split; [by left|split; [unfold sB'; lia|done]|unfold view; simpl; by rewrite insert_id].
    + done.
Qed.

(** How far a run was marked. *)
Definition progress (m m' : gmap Z (list Z)) (p n n' : Z) : Prop :=
  0 <= n' <= n /\ run_is v m (negb val) p n' /\ marked v val m m' p n' /\ mem_ok v m' /\
  (forall b, is_Some (m' !! b) <-> is_Some (m !! b)).

Lemma progress_refl m p n : 0 <= n -> mem_ok v m -> progress m m p n 0.
Proof.
  intros Hn Hm. split; [lia|]. split; [intros k; lia|]. split; [apply marked_refl|done].
Qed.

Lemma progress_trans m1 m2 m3 p n1 n n' :
  0 <= n1 -> 0 <= p -> p + n1 + n <= 2 ^ 32 -> progress m1 m2 p n1 n1 ->
  progress m2 m3 (p + n1) n n' -> progress m1 m3 p (n1 + n) (n1 + n').
Proof.
  intros Hn1 Hp0 Hb (_ & Hr1 & Hm1 & _ & Hk1) (Hn & Hr2 & Hm2 & Hok & Hk2).
  split; [lia|]. split; [|split; [by apply marked_trans with m2; [lia|lia|..]|]].
  2: { split; [done|]. intros b. by rewrite Hk2, Hk1. }
  intros k Hk. destruct (decide (k < p + n1)); [apply Hr1; lia|].
  rewrite <- (Hr2 k) by lia. rewrite Hm1 by lia. case_ztests; done.
Qed.

(** A clash found after the first [n1] blocks is one of the run. *)
Lemma clash_trans m1 m2 p n1 n :
  0 <= p -> 0 <= n1 -> p + n1 + n <= 2 ^ 32 -> marked v val m1 m2 p n1 ->
  (exists k, p + n1 <= k < p + n1 + n /\ mem_bit v m2 k = val) ->
  exists k, p <= k < p + (n1 + n) /\ mem_bit v m1 k = val.
Proof.
  intros Hp Hn1 Hb Hm (k & Hk & Hv). exists k. split; [lia|].
  rewrite Hm in Hv by lia. revert Hv. case_ztests; done.
Qed.

Lemma geom_ok_with m : geom_ok (vcb_with v m).
Proof. split; apply Hg. Qed.

(** One word: the blocks [p] to [p + n - 1], then on to the next word. *)
Lemma mark_step f mask m sB p n c :
  (forall w, 0 <= w < 2 ^ 32 -> marks val mask w (f w)) ->
  (forall i, 0 <= i < 32 ->
     Z.testbit mask i = (p mod 32 <=? 31 - i) && (31 - i <? p mod 32 + n)) ->
  0 <= p < totalBlocks v -> 0 <= n -> p mod 32 + n <= 32 ->
  mark_inv m sB p c -> cur_on v c p ->
  match update_word op f c with
  | Ok c' =>
      mark_inv m sB (32 * (p / 32 + 1)) (next_word c') /\
      progress (view (vcb_with v m) c) (view (vcb_with v m) c') p n n
  | Panic _ => exists k, p <= k < p + n /\ mem_bit v (view (vcb_with v m) c) k = val
  | _ => False
  end.
Proof.
  intros Hf Hmask Hp Hn Hpn [Hat HsB Hok] Hon.
  pose proof (update_word_spec (vcb_with v m) (geom_ok_with m) op val f mask c p n
                Hf Hmask Hp Hn Hpn Hok Hon) as H.
  pose proof (geom_total v Hg) as Ht.
  destruct (update_word op f c) as [c'| | |]; [|done..].
  destruct H as (Hon' & Hok' & Hrun & Hmk & Href & Hkeys). split.
  - split; [|by simpl; rewrite Href|done]. apply (next_word_at c' p); [lia|done| |done].
    pose proof (Z.div_mod p 32). pose proof (Z.mod_pos_bound p 32). lia.
  - split; [lia|]. done.
Qed.

(** The result of marking the whole words of [p] to [p + n - 1] in [m]. *)
Definition whole_words_post (m : gmap Z (list Z)) (p n : Z)
    (r : outcome (Z * ExtendedVCB * option (Z * Z * word_cursor))) : Prop :=
  match r with
  | Ok (err, v', None) => exists m' n' k,
      err <> 0 /\ v' = vcb_with v m' /\ progress m m' p n n' /\
      p <= k < p + n /\ err = s16 (bread (bitmap_block v k))
  | Ok (err, v', Some (sB', n', c')) => exists m',
      err = 0 /\ v' = vcb_with v m' /\ n' = n mod 32 /\
      mark_inv m' sB' (p + 32 * (n / 32)) c' /\
      progress m (view (vcb_with v m') c') p (32 * (n / 32)) (32 * (n / 32))
  | Panic _ => exists k, p <= k < p + n /\ mem_bit v m k = val
  | _ => False
  end.

Lemma whole_words_glue m1 m2 p n r :
  0 <= p -> 32 <= n -> p + n <= 2 ^ 32 -> progress m1 m2 p 32 32 ->
  whole_words_post m2 (p + 32) (n - 32) r -> whole_words_post m1 p n r.
Proof.
  intros Hp Hn Hpn Hprog. pose proof Hprog as (_ & _ & Hm & _).
  assert (n / 32 = 1 + (n - 32) / 32) as Hdiv.
  { replace n with (1 * 32 + (n - 32)) at 1 by lia. apply Z.div_add_l. lia. }
  destruct r as [[[err v'] [[[sB' n'] c']|]]|msg| |]; simpl; try done.
  - intros (m' & -> & -> & -> & Hinv & Hpr). exists m'. split; [done|]. split; [done|].
    split; [replace n with (n - 32 + 1 * 32) at 2 by lia; by rewrite Z.mod_add by lia|].
    replace (32 * (n / 32)) with (32 + 32 * ((n - 32) / 32)) by lia.
    split; [by rewrite Z.add_assoc|].
    apply progress_trans with m2; try lia; [|done..].
    pose proof (Z.mul_div_le (n - 32) 32). lia.
  - intros (m' & n' & k & He & -> & Hpr & Hk & Hbr). exists m', (32 + n'), k.
    do 2 (split; [done|]). split; [|split; [lia|done]].
    replace n with (32 + (n - 32)) by lia. apply progress_trans with m2; try lia; done.
  - intros Hc. replace n with (32 + (n - 32)) by lia.
    apply clash_trans with m2; try lia; [done|].
    destruct Hc as (k & Hk & Hv). exists k. split; [lia|done].
Qed.

Lemma mark_whole_words_spec fuel m sB p n c :
  (Z.to_nat (n / 32) <= fuel)%nat -> 0 <= n < 2 ^ 32 -> 0 <= p -> p + n <= totalBlocks v ->
  (32 <= n -> p mod 32 = 0) -> mark_inv m sB p c ->
  whole_words_post (view (vcb_with v m) c) p n
    (mark_whole_words bread fuel op (vcb_with v m) sB n c).
Proof.
  revert m sB p n c. induction fuel as [|fuel IH]; intros m sB p n c Hf Hn Hp Hpn Hal Hinv;
    pose proof (geom_total v Hg) as Ht; cbn [mark_whole_words]; unfold kBitsPerWord, whole_words_post;
    destruct (Z.leb_spec 32 n) as [H32|H32].
  1: { assert (1 <= n / 32) by (apply Z.div_le_lower_bound; lia). lia. }
  1, 3: rewrite Z.div_small, Z.mod_small, Z.mul_0_r, Z.add_0_r by lia; exists m;
    do 4 (split; [done|]); apply progress_refl; [lia|apply Hinv].
  specialize (Hal H32).
  pose proof (next_bitmap_block_spec m sB p c ltac:(lia) Hinv) as Hnb.
  destruct (next_bitmap_block bread (vcb_with v m) sB c) as [[[err sB'] v'] [c'|]].
  2: { destruct Hnb as (He & -> & Hbr). exists (view (vcb_with v m) c), 0, p.
       do 2 (split; [done|]). split; [|split; [lia|done]]. apply progress_refl; [lia|apply Hinv]. }
  destruct Hnb as (m' & -> & -> & Hinv' & Hon & Hview). rewrite <- Hview.
  assert (n / 32 = 1 + (n - 32) / 32) as Hdiv.
  { replace n with (1 * 32 + (n - 32)) at 1 by lia. apply Z.div_add_l. lia. }
  assert (forall i, 0 <= i < 32 -> Z.testbit kAllBitsSetInWord i
            = (p mod 32 <=? 31 - i) && (31 - i <? p mod 32 + 32)) as Hmask.
  { intros i Hi. rewrite Hal. unfold kAllBitsSetInWord. rewrite ones32 by done. case_ztests; done. }
  pose proof (mark_step (wo_whole op) kAllBitsSetInWord m' sB' p 32 c' mark_whole Hmask
                ltac:(lia) ltac:(lia) ltac:(lia) Hinv' Hon) as Hst.
  destruct (update_word op (wo_whole op) c') as [c2|msg| |]; [|simpl|done..].
  2: { destruct Hst as (k & Hk & Hv). exists k. split; [lia|done]. }
  destruct Hst as (Hinv2 & Hprog). cbn [mbind outcome_bind].
  assert (32 * (p / 32 + 1) = p + 32) as Hq by (pose proof (Z.div_mod p 32); lia).
  rewrite Hq in Hinv2. rewrite u32_small by lia.
  apply whole_words_glue with (view (vcb_with v m') c2); [lia..|done|].
  apply (IH m' sB' (p + 32) (n - 32) (next_word c2)); [rewrite Hdiv in Hf; lia|lia|lia|lia| |done].
  intros _. rewrite <- (Z.mod_add p 1 32) in Hal by lia. done.
Qed.

(** The contract of [BlockMark]: blocks [s] to [s + n - 1] get the value [val]. It
    panics only when one of them has it already; when a bitmap block cannot be
    read, a prefix of the run is marked and the error returned. *)
Definition mark_post (m : gmap Z (list Z)) (s n : Z) (r : outcome (Z * ExtendedVCB)) : Prop :=
  match r with
  | Ok (err, v') => exists m' n',
      v' = vcb_with v m' /\ progress m m' s n n' /\
      (err = 0 /\ n' = n \/
       err <> 0 /\ exists k, s <= k < s + n /\ err = s16 (bread (bitmap_block v k)))
  | Panic _ => exists k, s <= k < s + n /\ mem_bit v m k = val
  | _ => False
  end.

Lemma mark_post_glue m1 m2 s n1 n r :
  0 <= s -> 0 <= n1 -> 0 <= n -> s + n1 + n <= 2 ^ 32 -> progress m1 m2 s n1 n1 ->
  mark_post m2 (s + n1) n r -> mark_post m1 s (n1 + n) r.
Proof.
  intros Hs Hn1 Hn Hb Hprog. pose proof Hprog as (_ & _ & Hm & _).
  destruct r as [[err v']|msg| |]; simpl; try done.
  - intros (m' & n' & -> & Hpr & Hc). exists m', (n1 + n'). split; [done|].
    split; [by apply progress_trans with m2|].
    destruct Hc as [[-> ->]|(He & k & Hk & Hbr)]; [by left|right].
    split; [done|]. exists k. split; [lia|done].
  - intros Hc. by apply clash_trans with m2.
Qed.

Lemma mark_tail_spec m p n r :
  0 <= n -> 0 <= p -> p + n <= totalBlocks v -> (32 <= n -> p mod 32 = 0) ->
  (n mod 32 <> 0 -> p mod 32 = 0) ->
  whole_words_post m p n r -> mark_post m p n (r ≫= mark_tail bread op).
Proof.
  intros Hn Hp Hpn Hal Hal' Hpost. pose proof (geom_total v Hg) as Ht.
  pose proof (Z.div_mod n 32 ltac:(lia)) as Hdm. pose proof (Z.mod_pos_bound n 32 ltac:(lia)) as Hmb.
  destruct r as [[[err v'] [[[sB' n'] c']|]]|msg| |]; unfold mark_tail; cbn [mbind outcome_bind];
    simpl in Hpost; try done.
  2: { destruct Hpost as (m' & n' & k & He & -> & Hpr & Hk & Hbr). exists m', n'.
       split; [done|]. split; [done|]. right. eauto. }
  destruct Hpost as (m' & -> & -> & -> & Hinv & Hpr).
  destruct (Z.eqb_spec (n mod 32) 0) as [E|E].
  { exists (view (vcb_with v m') c'), n. split; [done|].
    replace (32 * (n / 32)) with n in Hpr by lia. split; [done|by left]. }
  set (p' := p + 32 * (n / 32)) in *. set (n' := n mod 32) in *.
  replace n with (32 * (n / 32) + n') by lia.
  apply mark_post_glue with (view (vcb_with v m') c'); [lia..|done|].
  assert (p' mod 32 = 0) as Hal2.
  { unfold p'. rewrite Z.mul_comm, Z.mod_add by lia. auto. }
  pose proof (next_bitmap_block_spec m' sB' p' c' ltac:(lia) Hinv) as Hnb.
  destruct (next_bitmap_block bread (vcb_with v m') sB' c') as [[[err sB2] v2] [c2|]].
  2: { destruct Hnb as (He & -> & Hbr). exists (view (vcb_with v m') c'), 0. split; [done|].
       split; [|right; split; [done|]; exists p'; split; [lia|done]].
       apply progress_refl; [lia|apply Hinv]. }
  destruct Hnb as (m2 & -> & -> & Hinv2 & Hon & Hview). fold p' n'. rewrite <- Hview.
  set (mask := u32 (Z.lnot (Z.shiftr kAllBitsSetInWord n'))).
  pose proof (mark_step (fun w => wo_partial op w mask) mask m2 sB2 p' n' c2) as Hst.
  assert (0 <= mask < 2 ^ 32) as Hmr by apply u32_range.
  destruct (update_word op (fun w => wo_partial op w mask) c2) as [c3|msg| |];
    [|simpl; apply Hst..]; try lia; try done; auto using mark_partial.
  all: try (intros i Hi; unfold mask, kAllBitsSetInWord; rewrite testbit_u32_lnot,
    testbit_ones_shiftr, Hal2 by lia; case_ztests; done).
  destruct Hst as (Hinv3 & Hprog); try lia; try done; auto using mark_partial.
  { intros i Hi; unfold mask, kAllBitsSetInWord; rewrite testbit_u32_lnot,
    testbit_ones_shiftr, Hal2 by lia; case_ztests; done. }
  exists (view (vcb_with v m2) c3), n'. split; [done|]. split; [done|by left].
Qed.

(** The first word, when the run starts inside it. *)
Lemma first_mask_bits fb n i :
  0 < fb < 32 -> 0 < n -> 0 <= i < 32 ->
  Z.testbit
    (if n <? 32 - fb
     then Z.land (Z.shiftr kAllBitsSetInWord fb)
            (u32 (Z.lnot (Z.shiftr kAllBitsSetInWord (fb + n))))
     else Z.shiftr kAllBitsSetInWord fb) i
  = (fb <=? 31 - i) && (31 - i <? fb + Z.min n (32 - fb)).
Proof.
  intros Hfb Hn Hi. unfold kAllBitsSetInWord. destruct (Z.ltb_spec n (32 - fb)).
  - rewrite Z.land_spec, testbit_u32_lnot, !testbit_ones_shiftr by lia. case_ztests; done.
  - rewrite testbit_ones_shiftr by lia. case_ztests; done.
Qed.

Lemma BlockMark_spec s n :
  mem_ok v (bitmap v) -> 0 <= s -> 1 <= n -> s + n <= totalBlocks v ->
  mark_post (bitmap v) s n (BlockMark bread op v s n).
Proof.
  intros Hok Hs Hn Hsn. pose proof (geom_total v Hg) as Ht.
  unfold BlockMark, ReadBitmapBlock.
  destruct (Z.eqb_spec (s16 (bread (bitmap_block v s))) 0) as [E|E].
  2: { exists (bitmap v), 0. split; [by rewrite vcb_with_id|].
       split; [|right; split; [done|]; exists s; split; [lia|done]].
       by apply progress_refl; [lia|]. }
  destruct (proj2 Hok s ltac:(lia)) as [ws Hws]. rewrite Hws, (geom_land v Hg) by lia.
  cbn [default]. fold (word_index v s). unfold kBitsPerWord.
  pose proof (word_index_range v Hg s Hs) as Hwi. destruct (geom_div v Hg) as (Hd & Hw & _).
  fold (words_per_block v). change (s mod bits_per_block v / 32) with (word_index v s).
  rewrite (u32_small (words_per_block v - word_index v s)) by lia.
  set (c := Cur (Buf (bitmap_block v s) ws) (word_index v s) (words_per_block v - word_index v s)).
  assert (view (vcb_with v (bitmap v)) c = bitmap v) as Hview by (by apply insert_id).
  assert (cur_on v c s) as Hon by done.
  assert (mark_inv (bitmap v) s s c) as Hinv.
  { split; [by left|split; [lia|done]|by rewrite Hview]. }
  pose proof (Z.mod_pos_bound s 32 ltac:(lia)) as Hsm. pose proof (Z.div_mod s 32 ltac:(lia)) as Hsd.
  destruct (Z.eqb_spec (s mod 32) 0) as [Es|Es].
  - pose proof (mark_whole_words_spec (Z.to_nat (n / 32)) (bitmap v) s s n c ltac:(lia) ltac:(lia)
      Hs Hsn ltac:(done) Hinv) as Hpost.
    rewrite vcb_with_id in Hview, Hpost. rewrite Hview in Hpost.
    exact (mark_tail_spec (bitmap v) s n _ ltac:(lia) Hs Hsn ltac:(done) ltac:(done) Hpost).
  - set (n1 := Z.min n (32 - s mod 32)).
    pose proof (first_mask_bits (s mod 32) n) as Hmask.
    set (mask := if n <? 32 - s mod 32 then _ else _) in Hmask.
    replace (if n <? 32 - s mod 32 then _ else _) with (n1, mask)
      by (unfold n1, mask; case_ztests; f_equal; lia).
    assert (0 <= mask < 2 ^ 32) as Hmr.
    { unfold mask, kAllBitsSetInWord. case_match; [apply land_range; [|apply u32_range]|];
        apply ones_shiftr_range; lia. }
    pose proof (mark_step (fun w => wo_partial op w mask) mask (bitmap v) s s n1 c
      (fun w Hw => mark_partial w mask Hw Hmr) (fun i Hi => Hmask i ltac:(lia) ltac:(lia) Hi)
      ltac:(lia) ltac:(lia) ltac:(lia) Hinv Hon) as Hst. rewrite Hview in Hst.
    change (id ws) with ws. fold c.
    destruct (update_word op (fun w => wo_partial op w mask) c) as [c'|msg| |]; [|simpl|done..].
    2: { destruct Hst as (k & Hk & Hv). exists k. split; [lia|done]. }
    destruct Hst as (Hinv' & Hprog). cbn [mbind outcome_bind]. rewrite u32_small by lia.
    replace n with (n1 + (n - n1)) at 1 by lia.
    apply mark_post_glue with (view (vcb_with v (bitmap v)) c'); [lia..|done|].
    destruct (decide (n1 = n)) as [En|En].
    + (* the run ends in its first word *)
      replace (n - n1) with 0 by lia. exists (view v c'), 0.
      split; [done|]. split; [|by left]. rewrite vcb_with_id in *.
      apply progress_refl; [lia|apply Hprog].
    + replace (32 * (s / 32 + 1)) with (s + n1) in Hinv' by lia.
      assert ((s + n1) mod 32 = 0) as Hal
        by (replace (s + n1) with ((s / 32 + 1) * 32) by lia; by apply Z.mod_mul).
      pose proof (mark_whole_words_spec (Z.to_nat ((n - n1) / 32)) (bitmap v) s (s + n1) (n - n1)
        (next_word c') ltac:(lia) ltac:(lia) ltac:(lia) ltac:(lia) ltac:(done) Hinv') as Hpost.
      rewrite vcb_with_id in Hpost. rewrite vcb_with_id.
      exact (mark_tail_spec (view v c') (s + n1) (n - n1) _ ltac:(lia) ltac:(lia) ltac:(lia)
               ltac:(done) ltac:(done) Hpost).
Qed.
End marking.
