(* ===== verification/VolumeAllocation.v ===== *)
(** * Allocation of blocks (hfsplus/hfscommon/Misc/VolumeAllocation.c)

    The searches of the volume bitmap ([BlockFindContiguous], [BlockAllocateAny]),
    the cache of large free extents ([BlockAllocateKnown] and the insertion in
    [BlockFindContiguous]) and the entry points [BlockAllocate] and
    [BlockDeallocate], over the bitmap of VolumeBitmap.v. *)
From S2P Require Import Prelude Bits VolumeBitmap.

(** ** The free extent cache *)

Definition ext0 : HFSPlusExtentDescriptor := Ext 0 0.
Definition ext_at (l : list HFSPlusExtentDescriptor) (i : Z) : HFSPlusExtentDescriptor :=
  nth (Z.to_nat i) l ext0.

(** [while (tempWord && vcbFreeExt\[tempWord-1\].blockCount < foundBlocks)] *)
Fixpoint bubble_down (tempWord : nat) (foundBlocks : Z) (l : list HFSPlusExtentDescriptor)
  : nat * list HFSPlusExtentDescriptor :=
  match tempWord with
  | O => (O, l)
  | S j =>
      let e := ext_at l (Z.of_nat j) in
      if blockCount e <? foundBlocks then bubble_down j foundBlocks (<[S j := e]> l)
      else (S j, l)
  end.

Definition cache_free_extent (v : ExtendedVCB) (firstBlock foundBlocks : Z) : ExtendedVCB :=
  let tempWord := vcbFreeExtCnt v in
  let l := vcbFreeExt v in
  let tempWord :=
    if (tempWord =? kMaxFreeExtents)
       && (blockCount (ext_at l (kMaxFreeExtents - 1)) <? foundBlocks)
    then tempWord - 1 else tempWord in
  if tempWord <? kMaxFreeExtents then
    let '(i, l) := bubble_down (Z.to_nat tempWord) foundBlocks l in
    let l := <[i := Ext firstBlock foundBlocks]> l in
    set_freeExts (if vcbFreeExtCnt v <? kMaxFreeExtents then vcbFreeExtCnt v + 1
                  else vcbFreeExtCnt v) l v
  else v.

(** [for (i=1; i<vcbFreeExtCnt; ++i)]: larger extents move up.  [n] is the number
    of entries left to look at. *)
Fixpoint bubble_up (n : nat) (i : nat) (newBlockCount : Z) (l : list HFSPlusExtentDescriptor)
  : nat * list HFSPlusExtentDescriptor :=
  match n with
  | O => (i, l)
  | S n' =>
      let e := ext_at l (Z.of_nat i) in
      if newBlockCount <? blockCount e
      then bubble_up n' (S i) newBlockCount (<[(i - 1)%nat := e]> l)
      else (i, l)
  end.

(** The result of the allocation routines: the error, the volume,
    [*actualStartBlock] and [*actualNumBlocks]. *)
Abbreviation alloc_result := (Z * ExtendedVCB * Z * Z)%type.

Section Allocation.
Context (bread : Z -> Z).

(** ** Scanning the bitmap *)

(** A loop [while (on bitMask) { bitMask >>= 1; ++currentBlock; }].  The mask is a
    32-bit word, so that 33 rounds are enough when the loop ends at a zero mask. *)
Fixpoint while_mask (fuel : nat) (on : Z -> bool) (bitMask currentBlock : Z) : outcome (Z * Z) :=
  if on bitMask then
    match fuel with
    | O => Diverge
    | S fuel' => while_mask fuel' on (Z.shiftr bitMask 1) (u32 (currentBlock + 1))
    end
  else Ok (bitMask, currentBlock).

(** [SWAP_BE32( *currentWord)] *)
Definition fetch (c : word_cursor) : outcome Z :=
  w ← of_option (if 0 <=? cw_index c then buffer (cw_buf c) !! Z.to_nat (cw_index c) else None);
  Ok (SWAP_BE32 w).

(** "See if it's time to read another block." *)
Definition refill (v : ExtendedVCB) (currentBlock : Z) (c : word_cursor)
  : Z * option word_cursor :=
  if wordsLeft c =? 0 then
    let '(err, b) := ReadBitmapBlock bread v currentBlock in
    (err, match b with
          | Some b => Some (Cur b 0 (vcbVBMIOSize v / kBytesPerWord))
          | None => None
          end)
  else (noErr, Some c).

(** The two searches of [BlockFindContiguous] differ in their tests: [so_partial]
    and [so_bits] are the conditions of the bit loops of a first partial word and
    of a whole word, [so_hit] is true of a word with a bit to stop at. *)
Record scan_op := ScanOp {
  so_partial : Z -> Z -> bool;
  so_hit : Z -> bool;
  so_bits : Z -> Z -> bool
}.
Definition skip_used : scan_op := ScanOp
  (fun tempWord bitMask => negb (Z.land tempWord bitMask =? 0))
  (fun tempWord => negb (u32 (tempWord + 1) =? 0))
  (fun tempWord bitMask => negb (Z.land tempWord bitMask =? 0)).
Definition count_free : scan_op := ScanOp
  (fun tempWord bitMask => negb (bitMask =? 0) && (Z.land tempWord bitMask =? 0))
  (fun tempWord => negb (tempWord =? 0))
  (fun tempWord bitMask => Z.land tempWord bitMask =? 0).

(** The loop over whole words up to block [limit]; [quit] is the early exit.
    Fuel: one round per word. *)
Fixpoint scan_words (fuel : nat) (op : scan_op) (v : ExtendedVCB) (limit : Z) (quit : Z -> bool)
    (currentBlock : Z) (c : word_cursor) : outcome (Z * Z * option word_cursor) :=
  if currentBlock <? limit then
    match fuel with
    | O => Diverge
    | S fuel' =>
        match refill v currentBlock c with
        | (err, None) => Ok (err, currentBlock, None)
        | (_, Some c) =>
            tempWord ← fetch c;
            if so_hit op tempWord then
              '(_, currentBlock) ← while_mask 33 (so_bits op tempWord) kHighBitInWordMask currentBlock;
              Ok (noErr, currentBlock, Some c)
            else
              let currentBlock := u32 (currentBlock + kBitsPerWord) in
              if quit currentBlock then Ok (noErr, currentBlock, Some (next_word c))
              else scan_words fuel' op v limit quit currentBlock (next_word c)
        end
    end
  else Ok (noErr, currentBlock, Some c).

(** One search: a first partial word, then whole words. *)
Definition scan_blocks (op : scan_op) (v : ExtendedVCB) (limit : Z) (quit : Z -> bool)
    (currentBlock : Z) (c : word_cursor) : outcome (Z * Z * option word_cursor) :=
  let words currentBlock c :=
    scan_words (Z.to_nat ((limit - currentBlock) / kBitsPerWord + 1)) op v limit quit currentBlock c in
  let bitMask := Z.land currentBlock kBitsWithinWordMask in
  if bitMask =? 0 then words currentBlock c
  else
    tempWord ← fetch c;
    '(bitMask, currentBlock) ←
      while_mask 33 (so_partial op tempWord) (Z.shiftr kHighBitInWordMask bitMask) currentBlock;
    if bitMask =? 0 then words currentBlock (next_word c) else Ok (noErr, currentBlock, Some c).

(** The [do ... while (currentBlock < stopBlock)] of [BlockFindContiguous]; the
    result has [firstBlock] and [foundBlocks].  Every round passes at least one
    block, so that [endingBlock - startingBlock] rounds are enough. *)
Fixpoint find_loop (fuel : nat) (v : ExtendedVCB)
    (stopBlock endingBlock minBlocks maxBlocks firstBlock currentBlock : Z) (c : word_cursor)
  : outcome (Z * ExtendedVCB * Z * Z) :=
  match fuel with
  | O => Diverge
  | S fuel' =>
      '(err, currentBlock, oc) ← scan_blocks skip_used v stopBlock (fun _ => false) currentBlock c;
      match oc with
      | None => Ok (err, v, 0, 0)
      | Some c =>
          if stopBlock <=? currentBlock then Ok (noErr, v, firstBlock, 0)
          else
            let firstBlock := currentBlock in
            '(err, currentBlock, oc) ←
              scan_blocks count_free v endingBlock
                (fun b => maxBlocks <=? u32 (b - firstBlock)) currentBlock c;
            match oc with
            | None => Ok (err, v, 0, 0)
            | Some c =>
                let currentBlock := if endingBlock <? currentBlock then endingBlock else currentBlock in
                let foundBlocks := u32 (currentBlock - firstBlock) in
                let foundBlocks := if maxBlocks <? foundBlocks then maxBlocks else foundBlocks in
                if minBlocks <=? foundBlocks then Ok (noErr, v, firstBlock, foundBlocks)
                else
                  let v := cache_free_extent v firstBlock foundBlocks in
                  if currentBlock <? stopBlock
                  then find_loop fuel' v stopBlock endingBlock minBlocks maxBlocks
                         firstBlock currentBlock c
                  else Ok (noErr, v, firstBlock, foundBlocks)
            end
      end
  end.

Definition BlockFindContiguous (v : ExtendedVCB)
    (startingBlock endingBlock minBlocks maxBlocks : Z) : outcome alloc_result :=
  if u32 (endingBlock - startingBlock) <? minBlocks then Ok (dskFulErr, v, 0, 0)
  else
    let stopBlock := u32 (endingBlock - minBlocks + 1) in
    match ReadBitmapBlock bread v startingBlock with
    | (err, None) => Ok (err, v, 0, 0)
    | (_, Some b) =>
        let wordsPerBlock := vcbVBMIOSize v / kBytesPerWord in
        let i := Z.land (startingBlock / kBitsPerWord) (u32 (wordsPerBlock - 1)) in
        let c := Cur b i (u32 (wordsPerBlock - i)) in
        '(err, v, firstBlock, foundBlocks) ←
          find_loop (Z.to_nat (endingBlock - startingBlock)) v stopBlock endingBlock
            minBlocks maxBlocks 0 startingBlock c;
        if negb (err =? noErr) then Ok (err, v, 0, 0)
        else if foundBlocks <? minBlocks then Ok (dskFulErr, v, 0, 0)
        else Ok (noErr, v, firstBlock, foundBlocks)
    end.

Definition BlockAllocateContig (v : ExtendedVCB) (startingBlock minBlocks maxBlocks : Z)
  : outcome alloc_result :=
  '(err, v, actualStartBlock, actualNumBlocks) ←
    BlockFindContiguous v startingBlock (totalBlocks v) minBlocks maxBlocks;
  '(err, v, actualStartBlock, actualNumBlocks) ←
    (if (err =? dskFulErr) && negb (startingBlock =? 0)
     then BlockFindContiguous v 0 startingBlock minBlocks maxBlocks
     else Ok (err, v, actualStartBlock, actualNumBlocks));
  if negb (err =? noErr) then Ok (err, v, 0, 0)
  else
    '(err, v) ← BlockMarkAllocated bread v actualStartBlock actualNumBlocks;
    if negb (err =? noErr) then Ok (err, v, 0, 0)
    else Ok (err, v, actualStartBlock, actualNumBlocks).

(** ** Allocating any free blocks *)

(** "Next word": on to the next word, and to the next bitmap block when this one is
    used up. *)
Definition any_next_word (v : ExtendedVCB) (block : Z) (dirty : bool) (c : word_cursor)
  : outcome (Z * ExtendedVCB * option (Z * word_cursor)) :=
  let c := next_word c in
  let '(err, v, oc) :=
    if wordsLeft c =? 0 then
      let v := ReleaseBitmapBlock v (cw_buf c) dirty in
      let '(err, b) := ReadBitmapBlock bread v block in
      (err, v, match b with
               | Some b => Some (Cur b 0 (vcbVBMIOSize v / kBytesPerWord))
               | None => None
               end)
    else (noErr, v, Some c) in
  match oc with
  | None => Ok (err, v, None)
  | Some c => w ← fetch c; Ok (noErr, v, Some (w, c))
  end.

(** "Find the first unallocated block". *)
Fixpoint any_find (fuel : nat) (v : ExtendedVCB) (endingBlock block currentWord bitMask : Z)
    (c : word_cursor) : outcome (Z * Z * option (Z * Z * word_cursor)) :=
  if block <? endingBlock then
    if Z.land currentWord bitMask =? 0 then Ok (noErr, block, Some (currentWord, bitMask, c))
    else
      match fuel with
      | O => Diverge
      | S fuel' =>
          let block := u32 (block + 1) in
          let bitMask := Z.shiftr bitMask 1 in
          if bitMask =? 0 then
            '(err, _, o) ← any_next_word v block false c;
            match o with
            | None => Ok (err, block, None)
            | Some (currentWord, c) =>
                any_find fuel' v endingBlock block currentWord kHighBitInWordMask c
            end
          else any_find fuel' v endingBlock block currentWord bitMask c
      end
  else Ok (noErr, block, Some (currentWord, bitMask, c)).

(** [*buffer = SWAP_BE32(currentWord)] *)
Definition store (c : word_cursor) (w : Z) : word_cursor :=
  Cur (Buf (blockRef (cw_buf c)) (<[Z.to_nat (cw_index c) := SWAP_BE32 w]> (buffer (cw_buf c))))
      (cw_index c) (wordsLeft c).

(** "Allocate all of the consecutive blocks", and the store that follows. *)
Fixpoint any_take (fuel : nat) (v : ExtendedVCB) (endingBlock block currentWord bitMask : Z)
    (c : word_cursor) : outcome (Z * ExtendedVCB * Z) :=
  if Z.land currentWord bitMask =? 0 then
    let currentWord := Z.lor currentWord bitMask in
    let block := u32 (block + 1) in
    if block =? endingBlock
    then Ok (noErr, ReleaseBitmapBlock v (cw_buf (store c currentWord)) true, block)
    else
      match fuel with
      | O => Diverge
      | S fuel' =>
          let bitMask := Z.shiftr bitMask 1 in
          if bitMask =? 0 then
            '(err, v, o) ← any_next_word v block true (store c currentWord);
            match o with
            | None => Ok (err, v, block)
            | Some (currentWord, c) =>
                any_take fuel' v endingBlock block currentWord kHighBitInWordMask c
            end
          else any_take fuel' v endingBlock block currentWord bitMask c
      end
  else Ok (noErr, ReleaseBitmapBlock v (cw_buf (store c currentWord)) true, block).

Definition BlockAllocateAny (v : ExtendedVCB) (startingBlock endingBlock maxBlocks : Z)
  : outcome alloc_result :=
  let maxBlocks :=
    if u32 (endingBlock - startingBlock) <? maxBlocks then u32 (endingBlock - startingBlock)
    else maxBlocks in
  match ReadBitmapBlock bread v startingBlock with
  | (err, None) => Ok (err, v, 0, 0)
  | (_, Some b) =>
      let bitsPerBlock := u32 (vcbVBMIOSize v * kBitsPerByte) in
      let wordsPerBlock := vcbVBMIOSize v / kBytesPerWord in
      let wordIndexInBlock := Z.land startingBlock (u32 (bitsPerBlock - 1)) / kBitsPerWord in
      let c := Cur b wordIndexInBlock (u32 (wordsPerBlock - wordIndexInBlock)) in
      currentWord ← fetch c;
      let bitMask := Z.shiftr kHighBitInWordMask (Z.land startingBlock kBitsWithinWordMask) in
      '(err, block, o) ←
        any_find (Z.to_nat (endingBlock - startingBlock)) v endingBlock startingBlock
          currentWord bitMask c;
      match o with
      | None => Ok (err, v, 0, 0)
      | Some (currentWord, bitMask, c) =>
          if block =? endingBlock then Ok (dskFulErr, v, 0, 0)
          else
            let actualStartBlock := block in
            let endingBlock :=
              if block <? u32 (endingBlock - maxBlocks) then u32 (block + maxBlocks)
              else endingBlock in
            '(err, v, block) ←
              any_take (Z.to_nat (endingBlock - block)) v endingBlock block currentWord bitMask c;
            if err =? noErr then Ok (noErr, v, actualStartBlock, u32 (block - actualStartBlock))
            else Ok (err, v, 0, 0)
      end
  end.

(** ** Allocating from the cache *)

Definition BlockAllocateKnown (v : ExtendedVCB) (maxBlocks : Z) : outcome alloc_result :=
  if vcbFreeExtCnt v =? 0 then Ok (dskFulErr, v, 0, 0)
  else
    let e := ext_at (vcbFreeExt v) 0 in
    let actualStartBlock := startBlock e in
    let foundBlocks := if maxBlocks <? blockCount e then maxBlocks else blockCount e in
    let newStartBlock := u32 (startBlock e + foundBlocks) in
    let newBlockCount := u32 (blockCount e - foundBlocks) in
    let '(i, l) := bubble_up (Z.to_nat (vcbFreeExtCnt v - 1)) 1 newBlockCount (vcbFreeExt v) in
    let v :=
      if Z.of_nat i =? vcbFreeExtCnt v then set_freeExts (vcbFreeExtCnt v - 1) l v
      else set_freeExts (vcbFreeExtCnt v) (<[(i - 1)%nat := Ext newStartBlock newBlockCount]> l) v in
    '(err, v) ← BlockMarkAllocated bread v actualStartBlock foundBlocks;
    Ok (err, v, actualStartBlock, foundBlocks).

(** ** The entry points *)

(** The choice of [BlockAllocate] between the three routines; on failure of the
    first search, [*actualStartBlock] and [*actualNumBlocks] are 0. *)
Definition allocate_noncontig (v : ExtendedVCB) (startingBlock maxBlocks : Z)
  : outcome alloc_result :=
  '(err, v, s, n) ← BlockAllocateKnown v maxBlocks;
  '(err, v, s, n) ←
    (if err =? dskFulErr then BlockAllocateAny v startingBlock (totalBlocks v) maxBlocks
     else Ok (err, v, s, n));
  if err =? dskFulErr then BlockAllocateAny v 0 startingBlock maxBlocks
  else Ok (err, v, s, n).

Definition BlockAllocate (v : ExtendedVCB) (startingBlock bytesRequested bytesMaximum : Z)
    (forceContiguous : bool) : outcome alloc_result :=
  let minBlocks := FileBytesToBlocks bytesRequested (blockSize v) in
  let maxBlocks := FileBytesToBlocks bytesMaximum (blockSize v) in
  if hfs_freeblks v false =? 0 then Ok (dskFulErr, v, 0, 0)
  else if forceContiguous && (hfs_freeblks v false <? minBlocks) then Ok (dskFulErr, v, 0, 0)
  else
    let '(startingBlock, updateAllocPtr) :=
      if startingBlock =? 0 then (nextAllocation v, true) else (startingBlock, false) in
    '(err, v, actualStartBlock, actualNumBlocks) ←
      (if forceContiguous then
         '(err, v, s, n) ← BlockAllocateContig v startingBlock minBlocks maxBlocks;
         Ok (err, if (err =? noErr) && (startingBlock <? s) then set_nextAllocation s v else v, s, n)
       else allocate_noncontig v startingBlock maxBlocks);
    if err =? noErr then
      let v := if updateAllocPtr then set_nextAllocation actualStartBlock v else v in
      let v := set_freeBlocks (u32 (freeBlocks v - actualNumBlocks)) v in
      Ok (err, MarkVCBDirty v, actualStartBlock, actualNumBlocks)
    else Ok (err, v, actualStartBlock, actualNumBlocks).

Definition BlockDeallocate (v : ExtendedVCB) (firstBlock numBlocks : Z)
  : outcome (Z * ExtendedVCB) :=
  if numBlocks =? 0 then Ok (noErr, v)
  else
    '(err, v) ← BlockMarkFree bread v firstBlock numBlocks;
    if negb (err =? noErr) then Ok (err, v)
    else
      let v := set_freeBlocks (u32 (freeBlocks v + numBlocks)) v in
      let v := if nextAllocation v =? u32 (firstBlock + numBlocks)
               then set_nextAllocation (u32 (nextAllocation v - numBlocks)) v else v in
      Ok (noErr, MarkVCBDirty v).
End Allocation.

(** ** Bit loops *)

Lemma high_shiftr j : 0 <= j < 32 -> Z.shiftr kHighBitInWordMask j = 2 ^ (31 - j).
Proof.
  intros Hj. unfold kHighBitInWordMask. change 0x80000000 with (2 ^ 31).
  rewrite Z.shiftr_div_pow2, <- Z.pow_sub_r by lia. done.
Qed.
Lemma high_shiftr_32 : Z.shiftr kHighBitInWordMask 32 = 0.
Proof. reflexivity. Qed.
Lemma high_shiftr_succ j : 0 <= j -> Z.shiftr (Z.shiftr kHighBitInWordMask j) 1 = Z.shiftr kHighBitInWordMask (j + 1).
Proof. intros. apply Z.shiftr_shiftr. lia. Qed.

Lemma land_pow2 w i : 0 <= i -> (Z.land w (2 ^ i) =? 0) = negb (Z.testbit w i).
Proof.
  intros Hi. destruct (Z.testbit w i) eqn:E; simpl.
  - apply Z.eqb_neq. intros H. assert (Z.testbit (Z.land w (2 ^ i)) i = false) as H'
      by (rewrite H; apply Z.bits_0).
    rewrite Z.land_spec, E, Z.pow2_bits_true in H' by done. done.
  - apply Z.eqb_eq, Z.bits_inj'. intros k Hk. rewrite Z.land_spec, Z.bits_0.
    destruct (decide (k = i)) as [->|]; [by rewrite E|].
    rewrite Z.pow2_bits_false by lia. apply andb_false_r.
Qed.

(** What the tests of a search are for: it passes the blocks of value [val]. *)
Class Scans (op : scan_op) (val : bool) : Prop := {
  scan_partial w i : 0 <= i < 32 -> so_partial op w (2 ^ i) = eqb (Z.testbit w i) val;
  scan_partial_0 w : so_partial op w 0 = false;
  scan_bits w i : 0 <= i < 32 -> so_bits op w (2 ^ i) = eqb (Z.testbit w i) val;
  scan_hit w : 0 <= w < 2 ^ 32 -> so_hit op w = true ->
    exists i, 0 <= i < 32 /\ Z.testbit w i = negb val;
  scan_miss w i : 0 <= w < 2 ^ 32 -> so_hit op w = false -> 0 <= i < 32 -> Z.testbit w i = val
}.

Lemma bits_neq a b :
  0 <= a < 2 ^ 32 -> 0 <= b < 2 ^ 32 -> a <> b ->
  exists i, 0 <= i < 32 /\ Z.testbit a i <> Z.testbit b i.
Proof.
  intros Ha Hb Hn.
  destruct (bswap32_neq (bswap32 a) (bswap32 b)) as (i & Hi & E); try apply bswap32_range.
  - intros E. apply Hn. by rewrite <- (bswap32_invol a), <- (bswap32_invol b), E.
  - rewrite !bswap32_invol in E by done. eauto.
Qed.

#[export] Instance skip_used_Scans : Scans skip_used true.
Proof.
  split; simpl; intros w.
  - intros i Hi. rewrite land_pow2 by lia. by destruct (Z.testbit w i).
  - by rewrite Z.land_0_r.
  - intros i Hi. rewrite land_pow2 by lia. by destruct (Z.testbit w i).
  - intros Hw Hh. destruct (bits_neq w 0xFFFFFFFF) as (i & Hi & E); [lia|lia| |].
    + intros ->. done.
    + rewrite ones32 in E by done. exists i. by destruct (Z.testbit w i).
  - intros i Hw Hh Hi. apply negb_false_iff, Z.eqb_eq in Hh.
    assert (w = 0xFFFFFFFF) as ->; [|by apply ones32].
    destruct (decide (w + 1 = 2 ^ 32)); [lia|]. rewrite u32_small in Hh; lia.
Qed.
#[export] Instance count_free_Scans : Scans count_free false.
Proof.
  split; simpl; intros w.
  - intros i Hi. rewrite (proj2 (Z.eqb_neq _ _)) by (apply Z.pow_nonzero; lia).
    rewrite land_pow2 by lia. by destruct (Z.testbit w i).
  - done.
  - intros i Hi. rewrite land_pow2 by lia. by destruct (Z.testbit w i).
  - intros Hw Hh. apply negb_true_iff, Z.eqb_neq in Hh.
    destruct (bits_neq w 0) as (i & Hi & E); [lia|lia|done|].
    rewrite Z.bits_0 in E. exists i. by destruct (Z.testbit w i).
  - intros i Hw Hh Hi. apply negb_false_iff, Z.eqb_eq in Hh as ->. apply Z.bits_0.
Qed.

(** A bit loop that starts at bit [j] of a word, counted from the high end, stops
    at the first bit of the other value, or after the last bit. *)
Lemma while_mask_spec fuel on w val j b :
  (forall i, 0 <= i < 32 -> on (2 ^ i) = eqb (Z.testbit w i) val) ->
  on 0 = false \/ (exists i, j <= i < 32 /\ Z.testbit w (31 - i) = negb val) ->
  0 <= j <= 32 -> 32 - j < Z.of_nat fuel -> 0 <= b -> b + 32 - j < 2 ^ 32 ->
  exists j', j <= j' <= 32 /\
    while_mask fuel on (Z.shiftr kHighBitInWordMask j) b
      = Ok (Z.shiftr kHighBitInWordMask j', b + (j' - j)) /\
    (forall i, j <= i < j' -> Z.testbit w (31 - i) = val) /\
    (j' < 32 -> Z.testbit w (31 - j') = negb val).
Proof.
  intros Hon. revert j b. induction fuel as [|fuel IH]; intros j b Hst Hj Hf Hb Hb2; [lia|].
  cbn [while_mask]. destruct (decide (j = 32)) as [->|Hj32].
  { rewrite high_shiftr_32. destruct Hst as [->|(i & Hi & _)]; [|lia].
    exists 32. rewrite Z.add_0_r. split; [lia|]. split; [done|]. split; intros; lia. }
  rewrite high_shiftr, Hon by lia. destruct (eqb (Z.testbit w (31 - j)) val) eqn:E.
  - apply eqb_prop in E. rewrite <- high_shiftr, high_shiftr_succ, u32_small by lia.
    destruct (IH (j + 1) (b + 1)) as (j' & Hj' & Heq & Hall & Hstop); try lia.
    { destruct Hst as [|(i & Hi & Hw)]; [by left|]. right. exists i. split; [|done].
      destruct (decide (i = j)) as [->|]; [|lia]. rewrite E in Hw. by destruct val. }
    exists j'. split; [lia|]. rewrite Heq. split; [do 2 f_equal; lia|]. split; [|done].
    intros i Hi. destruct (decide (i = j)) as [->|]; [done|]. apply Hall. lia.
  - apply eqb_false_iff in E. exists j. rewrite high_shiftr by lia. split; [lia|].
    split; [do 2 f_equal; lia|]. split; [intros; lia|]. intros _.
    destruct (Z.testbit w (31 - j)), val; done.
Qed.

(** ** Scanning *)

(** Block [p + i] is in the word of block [p]. *)
Lemma word_blocks p i :
  0 <= p -> 0 <= p mod 32 + i < 32 -> (p + i) / 32 = p / 32 /\ (p + i) mod 32 = p mod 32 + i.
Proof. intros. Z.to_euclidean_division_equations. lia. Qed.

Section scanning.
Context (bread : Z -> Z) (v : ExtendedVCB) (Hg : geom_ok v).
Context (Hok : mem_ok v (bitmap v)) (Hbr : bread_ok bread v).

Lemma bread_s16 b : s16 (bread b) = bread b.
Proof. destruct (Hbr b) as [H _]. apply (swrap_small 16); lia. Qed.

(** The word under a cursor, as the blocks it stands for. *)
Lemma fetch_spec m c p :
  mem_ok v m -> m !! blockRef (cw_buf c) = Some (buffer (cw_buf c)) -> cur_on v c p ->
  0 <= p < 2 ^ 32 ->
  exists w, fetch c = Ok w /\ 0 <= w < 2 ^ 32 /\
    forall k, 0 <= k < 2 ^ 32 -> k / 32 = p / 32 -> mem_bit v m k = Z.testbit w (31 - k mod 32).
Proof.
  intros Hm Hv (Hb & Hi & _) Hp. rewrite Hb in Hv.
  destruct (mem_ok_lookup v Hg m p) as (ws & w & Hws & Hw & Hr); [done|lia|by eexists|].
  rewrite Hv in Hws. injection Hws as <-. pose proof (word_index_range v Hg p ltac:(lia)).
  exists (bswap32 w). unfold fetch. rewrite Hi, (proj2 (Z.leb_le _ _)), Hw by lia.
  split; [done|]. split; [apply bswap32_range|]. intros k Hk E.
  destruct (proj1 (same_word v Hg k p Hk Hp) E) as [E1 E2].
  unfold mem_bit. by rewrite E1, Hv, E2, Hw.
Qed.

(** A cursor for reading: the buffer is the bitmap block it was read from. *)
Definition reads (c : word_cursor) (p : Z) : Prop :=
  bitmap v !! blockRef (cw_buf c) = Some (buffer (cw_buf c)) /\ cur_at v c p.

Lemma refill_spec c p :
  0 <= p < 2 ^ 32 -> reads c p ->
  match refill bread v p c with
  | (err, Some c') => err = 0 /\ reads c' p /\ cur_on v c' p
  | (err, None) => err = bread (bitmap_block v p) /\ err <> 0
  end.
Proof.
  intros Hp [Hb [Hon|Hpast]]; unfold refill.
  - pose proof (word_index_range v Hg p ltac:(lia)).
    rewrite (proj2 (Z.eqb_neq _ _)) by (destruct Hon as (_ & _ & ->); lia).
    split; [done|]. split; [split; [done|by left]|done].
  - destruct Hpast as (Hp0 & Hpm & Hl & _). rewrite Hl. simpl. unfold ReadBitmapBlock.
    rewrite bread_s16. destruct (Z.eqb_spec (bread (bitmap_block v p)) 0) as [E|E]; [|done].
    destruct (proj2 (Hbr _) E) as [ws Hws]. rewrite Hws. simpl.
    assert (cur_on v (Cur (Buf (bitmap_block v p) ws) 0 (words_per_block v)) p) as Hon.
    { destruct (geom_div v Hg). unfold cur_on, word_index. simpl.
      rewrite Hpm, Z.div_0_l by lia. split; [done|]. lia. }
    split; [done|]. split; [split; [done|by left]|done].
Qed.

(** The outcome of a search for a block that does not have the value [val],
    started at block [p]. *)
Definition scan_post (val : bool) (limit : Z) (quit : Z -> bool) (p : Z)
    (r : outcome (Z * Z * option word_cursor)) : Prop :=
  match r with
  | Ok (err, p', Some c') =>
      err = 0 /\ p <= p' < limit + 32 /\ (forall k, p <= k < p' -> vol_bit v k = val) /\
      reads c' p' /\
      (vol_bit v p' = negb val /\ cur_on v c' p' \/ limit <= p' \/ quit p' = true)
  | Ok (err, _, None) => exists k, p <= k < limit /\ err = bread (bitmap_block v k) /\ err <> 0
  | _ => False
  end.

Lemma scan_post_glue val limit quit p q r :
  p <= q -> (forall k, p <= k < q -> vol_bit v k = val) ->
  scan_post val limit quit q r -> scan_post val limit quit p r.
Proof.
  intros Hpq Hval. destruct r as [[[err p'] [c'|]]| | |]; simpl; try done.
  - intros (-> & Hp' & Hall & Hr). split; [done|]. split; [lia|]. split; [|done].
    intros k Hk. destruct (decide (k < q)); [apply Hval|apply Hall]; lia.
  - intros (k & Hk & H). exists k. split; [lia|done].
Qed.

Context (op : scan_op) (val : bool) `{!Scans op val} (limit : Z) (quit : Z -> bool).
Context (Hlimit : limit <= totalBlocks v).

(** The bit loop in the word of block [p]. *)
Lemma scan_bits_spec c p on w :
  (forall i, 0 <= i < 32 -> on (2 ^ i) = eqb (Z.testbit w i) val) ->
  on 0 = false \/ (exists i, 0 <= i < 32 /\ Z.testbit w i = negb val) /\ p mod 32 = 0 ->
  0 <= p < totalBlocks v -> reads c p -> cur_on v c p ->
  (forall k, 0 <= k < 2 ^ 32 -> k / 32 = p / 32 -> vol_bit v k = Z.testbit w (31 - k mod 32)) ->
  exists p' mask, while_mask 33 on (Z.shiftr kHighBitInWordMask (p mod 32)) p = Ok (mask, p') /\
    p <= p' /\ (forall k, p <= k < p' -> vol_bit v k = val) /\
    (if mask =? 0 then p' = 32 * (p / 32 + 1) /\ on 0 = false
     else vol_bit v p' = negb val /\ cur_on v c p' /\ p' / 32 = p / 32).
Proof.
  intros Hon Hst Hp Hr Hc Hw. pose proof (geom_total v Hg) as Ht.
  pose proof (Z.mod_pos_bound p 32 ltac:(lia)) as Hm. pose proof (Z.div_mod p 32 ltac:(lia)) as Hd.
  destruct (while_mask_spec 33 on w val (p mod 32) p) as (j' & Hj' & Heq & Hall & Hstop);
    [done| |lia..|].
  { destruct Hst as [?|[(i & Hi & E) Hz]]; [by left|right]. exists (31 - i).
    replace (31 - (31 - i)) with i by lia. split; [lia|done]. }
  exists (p + (j' - p mod 32)), (Z.shiftr kHighBitInWordMask j'). split; [done|]. split; [lia|].
  split.
  { intros k Hk. destruct (word_blocks p (k - p)) as [E1 E2]; [lia|lia|].
    replace (p + (k - p)) with k in * by lia. rewrite Hw, E2, <- (Hall (p mod 32 + (k - p))) by lia.
    done. }
  destruct (decide (j' = 32)) as [->|Hne].
  - rewrite high_shiftr_32. simpl. split; [lia|].
    destruct Hst as [?|[(i & Hi & E) Hz]]; [done|exfalso].
    specialize (Hall (31 - i) ltac:(lia)). replace (31 - (31 - i)) with i in Hall by lia.
    rewrite E in Hall. by destruct val.
  - rewrite high_shiftr, (proj2 (Z.eqb_neq _ _)) by (try apply Z.pow_nonzero; lia).
    destruct (word_blocks p (j' - p mod 32)) as [E1 E2]; [lia|lia|].
    rewrite Hw, E2 by lia. replace (p mod 32 + (j' - p mod 32)) with j' by lia.
    split; [apply Hstop; lia|]. split; [|done].
    destruct (proj1 (same_word v Hg (p + (j' - p mod 32)) p ltac:(lia) ltac:(lia)) E1) as [E3 E4].
    unfold cur_on. rewrite E3, E4. done.
Qed.

Lemma scan_words_spec fuel p c :
  0 <= p < limit + 32 -> p mod 32 = 0 -> (limit - p) / 32 < Z.of_nat fuel -> reads c p ->
  scan_post val limit quit p (scan_words bread fuel op v limit quit p c).
Proof.
  revert p c. induction fuel as [|fuel IH]; intros p c Hp Hal Hf Hr;
    pose proof (geom_total v Hg) as Ht; cbn [scan_words];
    destruct (Z.ltb_spec p limit) as [Hlt|Hge].
  1: { exfalso. assert (0 <= (limit - p) / 32) by (apply Z.div_pos; lia). lia. }
  1, 3: split; [done|]; split; [lia|]; split; [intros; lia|]; split; [done|]; right; left; lia.
  pose proof (refill_spec c p ltac:(lia) Hr) as Hre.
  destruct (refill bread v p c) as [err [c'|]].
  2: { exists p. split; [lia|done]. }
  destruct Hre as (-> & Hr' & Hon).
  destruct (fetch_spec (bitmap v) c' p) as (w & Hw & Hwr & Hbits); [done|apply Hr'|done|lia|].
  rewrite Hw. cbn [mbind outcome_bind]. destruct (so_hit op w) eqn:Hh.
  - destruct (scan_bits_spec c' p (so_bits op w) w) as (p' & mask & Heq & Hp' & Hall & Hres);
      try done; try lia.
    { intros; by apply scan_bits. }
    { right. split; [|done]. by apply scan_hit. }
    rewrite Hal in Heq. change (Z.shiftr kHighBitInWordMask 0) with kHighBitInWordMask in Heq.
    rewrite Heq. cbn [mbind outcome_bind]. destruct (Z.eqb_spec mask 0) as [->|Hm].
    + exfalso. destruct Hres as [-> Hz].
      destruct (scan_hit w Hwr Hh) as (i & Hi & E).
      pose proof (Z.div_mod p 32 ltac:(lia)) as Hd.
      assert ((p + (31 - i)) / 32 = p / 32 /\ (p + (31 - i)) mod 32 = p mod 32 + (31 - i)) as [E1 E2]
        by (apply word_blocks; lia).
      specialize (Hall (p + (31 - i)) ltac:(lia)). unfold vol_bit in Hall.
      rewrite Hbits, E2, Hal in Hall by lia.
      replace (31 - (0 + (31 - i))) with i in Hall by lia. rewrite E in Hall. by destruct val.
    + destruct Hres as (Hstop & Hon' & Hsame). split; [done|]. split; [split; [lia|]|].
      { Z.to_euclidean_division_equations. lia. }
      split; [done|]. split; [split; [apply Hr'|by left]|]. left. done.
  - unfold kBitsPerWord. rewrite u32_small by lia.
    assert (forall k, p <= k < p + 32 -> vol_bit v k = val) as Hall.
    { intros k Hk. destruct (word_blocks p (k - p)) as [E1 E2]; [lia|lia|].
      replace (p + (k - p)) with k in * by lia. unfold vol_bit. rewrite Hbits by lia.
      apply scan_miss; [done..|]. lia. }
    assert (reads (next_word c') (p + 32)) as Hr2.
    { split; [apply Hr'|]. apply (next_word_at v Hg c' p); [lia| |lia|done].
      pose proof (Z.div_mod p 32 ltac:(lia)). lia. }
    destruct (quit (p + 32)) eqn:Hq.
    + split; [done|]. split; [lia|]. split; [done|]. split; [done|]. by right; right.
    + apply scan_post_glue with (p + 32); [lia|done|].
      apply IH; [lia| | |done].
      * rewrite <- (Z.mod_add p 1 32) in Hal by lia. done.
      * replace (limit - (p + 32)) with (limit - p + (-1) * 32) by lia.
        rewrite Z.div_add by lia. lia.
Qed.

Lemma scan_blocks_spec p c :
  0 <= p < limit -> reads c p -> (p mod 32 <> 0 -> cur_on v c p) ->
  scan_post val limit quit p (scan_blocks bread op v limit quit p c).
Proof.
  intros Hp Hr Hon. pose proof (geom_total v Hg) as Ht. unfold scan_blocks.
  change kBitsWithinWordMask with (Z.ones 5). rewrite Z.land_ones by lia.
  change (2 ^ 5) with 32. destruct (Z.eqb_spec (p mod 32) 0) as [E|E].
  - apply scan_words_spec; [lia|done| |done]. unfold kBitsPerWord.
    assert (0 <= (limit - p) / 32) by (apply Z.div_pos; lia). lia.
  - specialize (Hon E).
    destruct (fetch_spec (bitmap v) c p) as (w & Hw & Hwr & Hbits); [done|apply Hr|done|lia|].
    rewrite Hw. cbn [mbind outcome_bind].
    destruct (scan_bits_spec c p (so_partial op w) w) as (p' & mask & Heq & Hp' & Hall & Hres);
      try done; try lia.
    { intros; by apply scan_partial. }
    { left. apply scan_partial_0. }
    rewrite Heq. cbn [mbind outcome_bind].
    pose proof (Z.div_mod p 32 ltac:(lia)). pose proof (Z.mod_pos_bound p 32 ltac:(lia)).
    destruct (mask =? 0).
    + destruct Hres as [Hpe _]. apply scan_post_glue with p'; [lia|done|].
      apply scan_words_spec; [lia| | |].
      * rewrite Hpe, Z.mul_comm. by apply Z.mod_mul.
      * unfold kBitsPerWord. destruct (decide (p' <= limit)).
        -- assert (0 <= (limit - p') / 32) by (apply Z.div_pos; lia). lia.
        -- assert ((limit - p') / 32 < 0) by (apply Z.div_lt_upper_bound; lia). lia.
      * split; [apply Hr|]. apply (next_word_at v Hg c p); [lia|done|lia|done].
    + destruct Hres as (Hstop & Hon' & Hsame). split; [done|].
      split; [split; [lia|]|].
      { Z.to_euclidean_division_equations. lia. }
      split; [done|]. split; [split; [apply Hr|by left]|]. by left.
Qed.
End scanning.

(** ** The free extent cache *)

(** The extent [e] is a run of free blocks. *)
Definition ext_free (v : ExtendedVCB) (e : HFSPlusExtentDescriptor) : Prop :=
  0 <= startBlock e /\ 1 <= blockCount e /\ startBlock e + blockCount e <= totalBlocks v /\
  run_is v (bitmap v) false (startBlock e) (blockCount e).
Definition ext_disjoint (e e' : HFSPlusExtentDescriptor) : Prop :=
  startBlock e + blockCount e <= startBlock e' \/ startBlock e' + blockCount e' <= startBlock e.
(** [e] is not smaller than [e'], and they share no block. *)
Definition ext_order (e e' : HFSPlusExtentDescriptor) : Prop :=
  blockCount e' <= blockCount e /\ ext_disjoint e e'.

(** The extents in use of the cache. *)
Definition cached (v : ExtendedVCB) : list HFSPlusExtentDescriptor :=
  take (Z.to_nat (vcbFreeExtCnt v)) (vcbFreeExt v).

(** The cached extents are free, disjoint and sorted, the largest first. *)
Record cache_ok (v : ExtendedVCB) : Prop := {
  cache_len : length (vcbFreeExt v) = 10%nat;
  cache_cnt : 0 <= vcbFreeExtCnt v <= 10;
  cache_free : Forall (ext_free v) (cached v);
  cache_sorted : StronglySorted ext_order (cached v)
}.

(** Insertion into a list sorted by size. *)
Fixpoint insert_ext (e : HFSPlusExtentDescriptor) (l : list HFSPlusExtentDescriptor)
  : list HFSPlusExtentDescriptor :=
  match l with
  | [] => [e]
  | x :: l' => if blockCount x <? blockCount e then e :: x :: l' else x :: insert_ext e l'
  end.

Lemma insert_ext_app e A B :
  Forall (fun x => blockCount e <= blockCount x) A -> Forall (fun x => blockCount x < blockCount e) B ->
  insert_ext e (A ++ B) = A ++ e :: B.
Proof.
  intros HA HB. induction HA as [|x A Hx HA IH]; simpl.
  - destruct HB as [|y B Hy]; simpl; [done|]. by rewrite (proj2 (Z.ltb_lt _ _)).
  - rewrite (proj2 (Z.ltb_ge _ _)) by done. by rewrite IH.
Qed.

(** A sorted list splits at a size [n]. *)
Lemma split_by_size n l :
  StronglySorted ext_order l -> exists A B, l = A ++ B /\
    Forall (fun x => n <= blockCount x) A /\ Forall (fun x => blockCount x < n) B.
Proof.
  induction 1 as [|x l Hs (A & B & -> & HA & HB) Hx].
  { by exists [], []. }
  destruct (decide (n <= blockCount x)).
  - exists (x :: A), B. by repeat constructor.
  - exists [], (x :: A ++ B). split; [done|]. split; [done|]. constructor; [lia|].
    eapply Forall_impl; [exact Hx|]. intros y [Hy _]. lia.
Qed.

Lemma ext_at_app A x B : ext_at (A ++ x :: B) (Z.of_nat (length A)) = x.
Proof. unfold ext_at. rewrite Nat2Z.id, app_nth2, Nat.sub_diag by lia. done. Qed.

Lemma ext_at_succ A x y B : ext_at (A ++ x :: y :: B) (Z.of_nat (length A + 1)) = y.
Proof.
  replace (A ++ x :: y :: B) with ((A ++ [x]) ++ y :: B) by (by rewrite <- app_assoc).
  replace (length A + 1)%nat with (length (A ++ [x])) by (rewrite length_app; simpl; lia).
  apply ext_at_app.
Qed.

(** The loop that moves smaller extents down makes room behind [A]. *)
Lemma bubble_down_spec A B x C n e :
  Forall (fun y => n <= blockCount y) A -> Forall (fun y => blockCount y < n) B ->
  let '(i, l) := bubble_down (length (A ++ B)) n (A ++ B ++ x :: C) in
  <[i := e]> l = A ++ e :: B ++ C.
Proof.
  intros HA. revert x C. induction B as [|b B IH] using rev_ind; intros x C HB.
  - rewrite app_nil_r. simpl. destruct A as [|a A] using rev_ind; [done|].
    apply Forall_app in HA as [_ Ha]. rewrite Forall_singleton in Ha.
    rewrite length_app, Nat.add_1_r. cbn [bubble_down].
    rewrite <- app_assoc. simpl. rewrite ext_at_app, (proj2 (Z.ltb_ge _ _)) by done.
    replace (A ++ a :: x :: C) with ((A ++ [a]) ++ x :: C) by (by rewrite <- app_assoc).
    replace (S (length A)) with (length (A ++ [a])) by (rewrite length_app; simpl; lia).
    by rewrite list_insert_split, <- app_assoc.
  - apply Forall_app in HB as [HB Hb]. rewrite Forall_singleton in Hb.
    rewrite app_assoc, length_app, Nat.add_1_r. cbn [bubble_down].
    rewrite <- !app_assoc. simpl. rewrite (app_assoc A B (b :: x :: C)), ext_at_app.
    rewrite (proj2 (Z.ltb_lt _ _)) by done.
    replace (<[S (length (A ++ B)) := b]> ((A ++ B) ++ b :: x :: C))
      with (A ++ B ++ b :: b :: C).
    2: { replace ((A ++ B) ++ b :: x :: C) with (((A ++ B) ++ [b]) ++ x :: C)
           by (by rewrite <- app_assoc).
         replace (S (length (A ++ B))) with (length ((A ++ B) ++ [b]))
           by (rewrite !length_app; simpl; lia).
         rewrite list_insert_split. by rewrite <- !app_assoc. }
    apply IH. done.
Qed.

Lemma bubble_up_spec P x A B C n :
  Forall (fun y => n < blockCount y) A -> Forall (fun y => blockCount y <= n) B ->
  exists y, bubble_up (length (A ++ B)) (length P + 1) n (P ++ x :: A ++ B ++ C)
    = ((length P + 1 + length A)%nat, P ++ A ++ y :: B ++ C).
Proof.
  intros HA HB. revert P x. induction HA as [|a A Ha HA IH]; intros P x; simpl.
  - exists x. rewrite Nat.add_0_r. destruct B as [|b B]; [done|]. simpl.
    apply Forall_cons in HB as [Hb HB].
    rewrite ext_at_succ, (proj2 (Z.ltb_ge _ _)) by done. done.
  - rewrite ext_at_succ, (proj2 (Z.ltb_lt _ _)) by done.
    replace (length P + 1 - 1)%nat with (length P) by lia. rewrite list_insert_split.
    destruct (IH (P ++ [a]) a) as (y & Hy). exists y.
    replace (length (P ++ [a])) with (length P + 1)%nat in Hy by (rewrite length_app; simpl; lia).
    rewrite <- !(app_assoc P [a]) in Hy. simpl in Hy.
    replace (S (length P + 1)) with (length P + 1 + 1)%nat by lia. rewrite Hy. f_equal. lia.
Qed.

Lemma cache_split v : cache_ok v -> vcbFreeExt v = cached v ++ drop (Z.to_nat (vcbFreeExtCnt v)) (vcbFreeExt v)
  /\ length (cached v) = Z.to_nat (vcbFreeExtCnt v).
Proof.
  intros [Hl Hc _ _]. split; [symmetry; apply take_drop|]. unfold cached.
  rewrite length_take. lia.
Qed.

(** The insertion into the array is the insertion into a sorted list of at most
    ten extents. *)
Lemma cache_free_extent_refines v s n :
  cache_ok v ->
  exists cnt l, cache_free_extent v s n = set_freeExts cnt l v /\ length l = 10%nat /\ 0 <= cnt <= 10 /\
    take (Z.to_nat cnt) l = take 10 (insert_ext (Ext s n) (cached v)).
Proof.
  intros Hok. destruct (cache_split v Hok) as [Hsp Hlen]. destruct Hok as [Hl Hc Hfr Hso].
  destruct (split_by_size n (cached v) Hso) as (A & B & HL & HA & HB).
  rewrite HL in *. rewrite insert_ext_app by done. set (e := Ext s n).
  unfold cache_free_extent, kMaxFreeExtents. destruct (decide (vcbFreeExtCnt v = 10)) as [E|E].
  - rewrite drop_ge, app_nil_r in Hsp by lia. rewrite E.
    change (10 =? 10) with true. rewrite andb_true_l.
    destruct B as [|z B _] using rev_ind.
    + rewrite !app_nil_r in *. assert (10 <= length A)%nat by lia.
      assert (n <= blockCount (ext_at (vcbFreeExt v) 9)) as Hlast.
      { rewrite Hsp. apply (proj1 (Forall_nth _ ext0 A) HA). simpl. lia. }
      change (10 - 1) with 9. rewrite (proj2 (Z.ltb_ge (blockCount _) n)) by done.
      exists 10, (vcbFreeExt v). split; [by destruct v; simpl in *; subst|].
      split; [done|]. split; [lia|]. rewrite Hsp, (take_app_le A) by (simpl; lia). done.
    + apply Forall_app in HB as [HB Hz]. rewrite Forall_singleton in Hz.
      rewrite !length_app in Hlen. simpl in Hlen.
      assert (ext_at (vcbFreeExt v) 9 = z) as Hlast.
      { rewrite Hsp, app_assoc. replace 9 with (Z.of_nat (length (A ++ B))) by (rewrite length_app; lia).
        apply ext_at_app. }
      change (10 - 1) with 9. rewrite Hlast, (proj2 (Z.ltb_lt (blockCount z) n)) by done.
      change (9 <? 10) with true. change (10 <? 10) with false. cbv beta iota.
      replace (Z.to_nat 9) with (length (A ++ B)) by (rewrite length_app; lia). rewrite Hsp.
      pose proof (bubble_down_spec A B z [] n e HA HB) as Hb. rewrite app_nil_r in Hb.
      destruct (bubble_down (length (A ++ B)) n (A ++ B ++ [z])) as [i l]. fold e. rewrite Hb.
      exists 10, (A ++ e :: B). split; [done|]. split; [rewrite length_app; simpl; lia|].
      split; [lia|]. change (e :: B ++ [z]) with ((e :: B) ++ [z]).
      rewrite (app_assoc A), (take_app_le _ [z]); [done|]. rewrite length_app. simpl. lia.
  - rewrite (proj2 (Z.eqb_neq _ _)), andb_false_l by done.
    rewrite (proj2 (Z.ltb_lt _ _)) by lia.
    destruct (drop (Z.to_nat (vcbFreeExtCnt v)) (vcbFreeExt v)) as [|x C] eqn:Hd.
    { apply (f_equal length) in Hd. rewrite length_drop in Hd. simpl in Hd. lia. }
    rewrite <- Hlen, Hsp. rewrite <- app_assoc.
    pose proof (bubble_down_spec A B x C n e HA HB) as Hb.
    destruct (bubble_down (length (A ++ B)) n (A ++ B ++ x :: C)) as [i l]. fold e. rewrite Hb.
    exists (vcbFreeExtCnt v + 1), (A ++ e :: B ++ C). split; [done|].
    apply (f_equal length) in Hsp. rewrite !length_app in *. simpl in *. rewrite length_app.
    split; [lia|]. split; [lia|].
    change (e :: B ++ C) with ((e :: B) ++ C). rewrite app_assoc.
    rewrite take_app_length' by (rewrite length_app; simpl; lia).
    rewrite take_ge; [done|]. rewrite length_app. simpl. lia.
Qed.

Lemma insert_ext_elem e l x : x ∈ insert_ext e l -> x = e \/ x ∈ l.
Proof.
  induction l as [|y l IH]; simpl; [set_solver|].
  case_match; [set_solver|]. rewrite !elem_of_cons. naive_solver.
Qed.

Lemma ext_disjoint_sym e e' : ext_disjoint e e' -> ext_disjoint e' e.
Proof. intros [?|?]; [by right|by left]. Qed.

Lemma insert_ext_sorted e l :
  StronglySorted ext_order l -> Forall (ext_disjoint e) l -> StronglySorted ext_order (insert_ext e l).
Proof.
  induction 1 as [|x l Hs IH Hx]; intros Hd; simpl; [by repeat constructor|].
  apply Forall_cons in Hd as [Hdx Hd]. destruct (Z.ltb_spec (blockCount x) (blockCount e)).
  - constructor; [by constructor|]. constructor; [split; [lia|done]|].
    rewrite Forall_forall in *. intros y Hy. split; [|by apply Hd]. destruct (Hx y Hy). lia.
  - constructor; [by apply IH|]. rewrite Forall_forall in *. intros y Hy.
    apply insert_ext_elem in Hy as [->|Hy]; [|by apply Hx]. split; [lia|]. by apply ext_disjoint_sym.
Qed.

Lemma StronglySorted_take {A} (R : relation A) n l :
  StronglySorted R l -> StronglySorted R (take n l).
Proof. intros H. rewrite <- (take_drop n l) in H. by apply StronglySorted_app_1_l in H. Qed.

Lemma cache_free_extent_ok v s n :
  cache_ok v -> ext_free v (Ext s n) -> Forall (ext_disjoint (Ext s n)) (cached v) ->
  exists cnt l, cache_free_extent v s n = set_freeExts cnt l v /\
    cache_ok (set_freeExts cnt l v) /\
    (forall e, e ∈ cached (set_freeExts cnt l v) -> e = Ext s n \/ e ∈ cached v).
Proof.
  intros Hok Hfr Hd. destruct (cache_free_extent_refines v s n Hok) as (cnt & l & Heq & Hl & Hc & Ht).
  exists cnt, l. split; [done|].
  assert (forall e, e ∈ cached (set_freeExts cnt l v) -> e = Ext s n \/ e ∈ cached v) as Hin.
  { unfold cached at 1. simpl. rewrite Ht. intros e He. apply insert_ext_elem.
    rewrite <- (take_drop 10 (insert_ext _ _)). apply elem_of_app. by left. }
  split; [|done]. split; [done|done| |].
  - apply Forall_forall. intros e He. destruct (Hin e He) as [->|He']; [done|].
    destruct Hok as [_ _ Hf _]. rewrite Forall_forall in Hf. by apply Hf.
  - unfold cached. simpl. rewrite Ht. apply StronglySorted_take, insert_ext_sorted; [apply Hok|done].
Qed.

(** ** The contiguous search *)

(** [n] blocks at [s] are free and lie in [lo] to [hi - 1]. *)
Definition fits (v : ExtendedVCB) (lo hi n s : Z) : Prop :=
  lo <= s /\ s + n <= hi /\ run_is v (bitmap v) false s n.

(** The first place with [mn] free blocks, extended to at most [mx] blocks. *)
Definition first_fit (v : ExtendedVCB) (lo hi mn mx s n : Z) : Prop :=
  fits v lo hi n s /\ mn <= n <= mx /\ (forall s', fits v lo hi mn s' -> s <= s') /\
  (n = mx \/ s + n = hi \/ vol_bit v (s + n) = true).

(** All cached extents lie outside the blocks [lo] to [hi - 1]. *)
Definition cache_outside (v : ExtendedVCB) (lo hi : Z) : Prop :=
  Forall (fun e => startBlock e + blockCount e <= lo \/ hi <= startBlock e) (cached v).

(** What a search of [lo] to [hi - 1] leaves in the cache: extents that were there,
    or free extents found in the part it has passed. *)
Definition cache_grown (v v' : ExtendedVCB) (lo hi : Z) : Prop :=
  exists cnt l, v' = set_freeExts cnt l v /\ cache_ok v' /\
    Forall (fun e => e ∈ cached v \/ lo <= startBlock e /\ startBlock e + blockCount e <= hi)
      (cached v').

Definition read_fails (bread : Z -> Z) (v : ExtendedVCB) (lo hi err : Z) : Prop :=
  exists k, lo <= k < hi /\ err = bread (bitmap_block v k) /\ err <> 0.

Definition find_post (bread : Z -> Z) (v : ExtendedVCB) (lo hi mn mx : Z)
    (r : outcome (Z * ExtendedVCB * Z * Z)) : Prop :=
  match r with
  | Ok (err, v', s, n) =>
      err = 0 /\ n < mn /\ (forall s', ~ fits v lo hi mn s') /\ cache_grown v v' lo hi \/
      err = 0 /\ first_fit v lo hi mn mx s n /\ cache_grown v v' lo s \/
      read_fails bread v lo hi err /\ cache_grown v v' lo hi
  | _ => False
  end.

Lemma cache_grown_refl v lo hi : cache_ok v -> cache_grown v v lo hi.
Proof.
  intros Hok. exists (vcbFreeExtCnt v), (vcbFreeExt v). split; [by destruct v|]. split; [done|].
  apply Forall_forall. by left.
Qed.

Lemma cache_grown_trans v v1 v2 lo mid hi :
  lo <= mid <= hi -> cache_grown v v1 lo mid -> cache_grown v1 v2 mid hi -> cache_grown v v2 lo hi.
Proof.
  intros Hm (c1 & l1 & -> & Hok1 & Hf1) (c2 & l2 & -> & Hok2 & Hf2). exists c2, l2.
  split; [done|]. split; [done|]. rewrite Forall_forall in *. intros e He.
  destruct (Hf2 e He) as [He1|He1]; [|right; lia]. destruct (Hf1 e He1) as [|]; [by left|right; lia].
Qed.

(** A search that passed [lo] to [mid - 1] without a fit goes on at [mid]. *)
Lemma find_post_glue bread v v1 lo mid hi mn mx r :
  lo <= mid <= hi -> (forall s, lo <= s < mid -> ~ fits v lo hi mn s) -> cache_grown v v1 lo mid ->
  find_post bread v1 mid hi mn mx r -> find_post bread v lo hi mn mx r.
Proof.
  intros Hm Hno Hg1. assert (exists c l, v1 = set_freeExts c l v) as (c1 & l1 & E)
    by (destruct Hg1 as (c & l & E & _); eauto).
  assert (forall s, fits v lo hi mn s -> fits v1 mid hi mn s) as Hfit.
  { intros s Hs. destruct (decide (s < mid)); [destruct (Hno s); [destruct Hs; lia|done]|].
    subst v1. split; [lia|apply Hs]. }
  destruct r as [[[[err v'] s] n]| | |]; simpl; try done.
  intros [(-> & Hn & Hs & Hc)|[(-> & Hff & Hc)|(Hrf & Hc)]].
  - left. split; [done|]. split; [done|]. split; [|by apply cache_grown_trans with v1 mid].
    intros s' Hs'. by apply (Hs s'), Hfit.
  - right; left. split; [done|]. destruct Hff as ((H1 & H2 & H3) & H4 & H5 & H6).
    split; [|apply cache_grown_trans with v1 mid; [lia|done..]]. subst v1.
    split; [split; [lia|done]|]. split; [done|]. split; [|done]. intros s' Hs'. by apply H5, Hfit.
  - right; right. split; [|by apply cache_grown_trans with v1 mid]. destruct Hrf as (k & Hk & He).
    exists k. subst v1. split; [lia|done].
Qed.

Section contiguous.
Context (bread : Z -> Z) (minBlocks maxBlocks endingBlock : Z).
Context (Hmin : 1 <= minBlocks <= maxBlocks).

Lemma find_loop_spec fuel v f0 p c :
  geom_ok v -> mem_ok v (bitmap v) -> bread_ok bread v -> cache_ok v ->
  endingBlock <= totalBlocks v -> cache_outside v p endingBlock ->
  0 <= p < endingBlock - minBlocks + 1 -> endingBlock - minBlocks + 1 - p <= Z.of_nat fuel ->
  reads v c p -> (p mod 32 <> 0 -> cur_on v c p) ->
  find_post bread v p endingBlock minBlocks maxBlocks
    (find_loop bread fuel v (endingBlock - minBlocks + 1) endingBlock minBlocks maxBlocks f0 p c).
Proof.
  revert v f0 p c. induction fuel as [|fuel IH]; intros v f0 p c Hg Hok Hbr Hca Hend Hout Hp Hf Hr Hon;
    [lia|]. pose proof (geom_total v Hg) as Ht. cbn [find_loop].
  set (stop := endingBlock - minBlocks + 1) in *.
  pose proof (scan_blocks_spec bread v Hg Hok Hbr skip_used true stop (fun _ => false)
                ltac:(lia) p c Hp Hr Hon) as H1.
  destruct (scan_blocks bread skip_used v stop (fun _ => false) p c) as [[[err p1] [c1|]]| | |];
    simpl in H1; try done; cbn [mbind outcome_bind].
  2: { right; right. split; [|by apply cache_grown_refl]. destruct H1 as (k & Hk & He).
       exists k. split; [lia|done]. }
  destruct H1 as (-> & Hp1 & Hused & Hr1 & Hstop1).
  assert (forall s, p <= s < p1 -> ~ fits v p endingBlock minBlocks s) as Hno1.
  { intros s Hs (_ & _ & Hrun). specialize (Hrun s ltac:(lia)). fold (vol_bit v s) in Hrun.
    rewrite Hused in Hrun by lia. done. }
  destruct (Z.leb_spec stop p1) as [Hge|Hlt].
  { left. split; [done|]. split; [lia|]. split; [|by apply cache_grown_refl].
    intros s Hs. apply (Hno1 s); [|done]. destruct Hs as (? & ? & _). lia. }
  destruct Hstop1 as [[Hfree1 Hon1]|[?|?]]; [|lia|done].
  apply find_post_glue with v p1; [lia|done|by apply cache_grown_refl|].
  set (quit := fun b => maxBlocks <=? u32 (b - p1)).
  pose proof (scan_blocks_spec bread v Hg Hok Hbr count_free false endingBlock quit
                Hend p1 c1 ltac:(lia) Hr1 ltac:(done)) as H2.
  destruct (scan_blocks bread count_free v endingBlock quit p1 c1) as [[[err p2] [c2|]]| | |];
    simpl in H2; try done; cbn [mbind outcome_bind].
  2: { right; right. split; [|by apply cache_grown_refl]. destruct H2 as (k & Hk & He).
       exists k. split; [lia|done]. }
  destruct H2 as (-> & Hp2 & Hfree & Hr2 & Hstop2).
  assert (p1 < p2) as Hadv.
  { destruct (decide (p2 = p1)) as [->|]; [|lia]. exfalso.
    destruct Hstop2 as [[Hb _]|[?|Hq]]; [by rewrite Hfree1 in Hb|lia|].
    unfold quit in Hq. apply Z.leb_le in Hq. rewrite Z.sub_diag in Hq. change (u32 0) with 0 in Hq. lia. }
  replace (if endingBlock <? p2 then endingBlock else p2) with (Z.min p2 endingBlock)
    by (case_ztests).
  set (p3 := Z.min p2 endingBlock). rewrite (u32_small (p3 - p1)) by lia.
  replace (if maxBlocks <? p3 - p1 then maxBlocks else p3 - p1) with (Z.min maxBlocks (p3 - p1))
    by (case_ztests).
  set (found := Z.min maxBlocks (p3 - p1)).
  assert (run_is v (bitmap v) false p1 found) as Hrun by (intros k Hk; apply Hfree; lia).
  destruct (Z.leb_spec minBlocks found) as [Hbig|Hsmall].
  - (* found *)
    right; left. split; [done|]. split; [|by apply cache_grown_refl].
    split; [split; [lia|split; [lia|done]]|]. split; [lia|]. split; [intros s (? & _); lia|].
    destruct (decide (found = maxBlocks)); [by left|right].
    destruct (decide (p2 < endingBlock)); [right|left; lia].
    destruct Hstop2 as [[Hb _]|[?|Hq]]; [|lia|].
    + replace (p1 + found) with p2 by lia. done.
    + unfold quit in Hq. apply Z.leb_le in Hq. rewrite u32_small in Hq; lia.
  - (* too small *)
    assert (found = p3 - p1) as Hfe by lia.
    assert (p3 < endingBlock -> vol_bit v p3 = true /\ cur_on v c2 p3) as Hb3.
    { intros H3. assert (p3 = p2) as -> by lia. destruct Hstop2 as [?|[?|Hq]]; [done|lia|].
      unfold quit in Hq. apply Z.leb_le in Hq. rewrite u32_small in Hq; lia. }
    assert (forall s, p1 <= s < p3 -> ~ fits v p1 endingBlock minBlocks s) as Hno2.
    { intros s Hs Hfit. destruct Hfit as (_ & Hse & Hrs).
      destruct (decide (p3 < endingBlock)) as [H3|]; [|lia].
      specialize (Hrs p3 ltac:(lia)). fold (vol_bit v p3) in Hrs.
      destruct (Hb3 H3) as [Hb _]. congruence. }
    destruct (cache_free_extent_ok v p1 found) as (cnt & l & -> & Hca' & Hin); [done| | |].
    { split; simpl; [lia|]. split; [lia|]. split; [lia|done]. }
    { unfold cache_outside in Hout. rewrite Forall_forall in *. intros e He.
      destruct (Hout e He); [right|left]; simpl; lia. }
    assert (Forall (fun e => e ∈ cached v \/ p1 <= startBlock e /\ startBlock e + blockCount e <= p3)
             (cached (set_freeExts cnt l v))) as Hgr.
    { apply Forall_forall. intros e He. destruct (Hin e He) as [->|]; [right; simpl; lia|by left]. }
    destruct (Z.ltb_spec p3 stop) as [Hgo|Hend3].
    + apply find_post_glue with (set_freeExts cnt l v) p3; [lia|done|by exists cnt, l|].
      apply IH; [by split; apply Hg|done..|done| |lia|lia| |].
      * unfold cache_outside in *. rewrite Forall_forall in *. intros e He.
        destruct (Hgr e He) as [He'|]; [destruct (Hout e He')|]; lia.
      * replace p3 with p2 by lia. done.
      * intros _. apply Hb3. lia.
    + left. split; [done|]. split; [lia|]. split.
      * intros s Hs. apply (Hno2 s); [|done]. destruct Hs as (? & ? & _). lia.
      * exists cnt, l. split; [done|]. split; [done|]. eapply Forall_impl; [exact Hgr|].
        intros e [?|?]; [by left|right; lia].
Qed.
End contiguous.

(** The contract of [BlockFindContiguous]. *)
Definition contig_post (bread : Z -> Z) (v : ExtendedVCB) (lo hi mn mx : Z)
    (r : outcome alloc_result) : Prop :=
  match r with
  | Ok (err, v', s, n) =>
      err = noErr /\ first_fit v lo hi mn mx s n /\ cache_grown v v' lo s \/
      (err = dskFulErr /\ (forall s', ~ fits v lo hi mn s') \/ read_fails bread v lo hi err) /\
      s = 0 /\ n = 0 /\ cache_grown v v' lo hi
  | _ => False
  end.

Section find.
Context (bread : Z -> Z) (v : ExtendedVCB).
Context (Hg : geom_ok v) (Hok : mem_ok v (bitmap v)) (Hbr : bread_ok bread v).

Lemma word_index_land k :
  0 <= k -> Z.land (k / kBitsPerWord) (u32 (vcbVBMIOSize v / kBytesPerWord - 1)) = word_index v k.
Proof.
  intros Hk. destruct (geom_div v Hg) as (Hd & Hw & _). fold (words_per_block v).
  rewrite u32_small by lia. destruct (geom_pow v Hg) as (j & Hj & E).
  assert (words_per_block v = 2 ^ (j - 2)) as Hwe.
  { unfold words_per_block, kBytesPerWord. rewrite E. change 4 with (2 ^ 2).
    rewrite <- Z.pow_sub_r by lia. done. }
  unfold word_index, kBitsPerWord. rewrite Hd, Z.rem_mul_r, Hwe by lia.
  replace (2 ^ (j - 2) - 1) with (Z.ones (j - 2)) by (rewrite Z.ones_equiv; lia).
  rewrite Z.land_ones by lia.
  replace (k mod 32 + 32 * ((k / 32) mod 2 ^ (j - 2)))
    with (k mod 32 + ((k / 32) mod 2 ^ (j - 2)) * 32) by lia.
  rewrite Z.div_add, (Z.div_small (k mod 32)) by (try apply Z.mod_pos_bound; lia). lia.
Qed.

(** Reading the bitmap block of [k] and setting up the word pointer. *)
Lemma first_read k :
  0 <= k < 2 ^ 32 ->
  match ReadBitmapBlock bread v k with
  | (err, Some b) => err = 0 /\
      let c := Cur b (word_index v k) (u32 (words_per_block v - word_index v k)) in
      reads v c k /\ cur_on v c k
  | (err, None) => err = bread (bitmap_block v k) /\ err <> 0
  end.
Proof.
  intros Hk. unfold ReadBitmapBlock. rewrite (bread_s16 bread v Hbr).
  destruct (Z.eqb_spec (bread (bitmap_block v k)) 0) as [E|E]; [|done].
  destruct (proj2 (Hbr _) E) as [ws Hws]. rewrite Hws. split; [done|].
  pose proof (word_index_range v Hg k ltac:(lia)). destruct (geom_div v Hg) as (_ & Hw & _).
  rewrite u32_small by lia. simpl. set (c := Cur _ _ _).
  assert (cur_on v c k) by done. split; [split; [done|by left]|done].
Qed.

Lemma BlockFindContiguous_spec lo hi mn mx :
  cache_ok v -> cache_outside v lo hi -> 0 <= lo <= hi -> hi <= totalBlocks v -> 1 <= mn <= mx ->
  contig_post bread v lo hi mn mx (BlockFindContiguous bread v lo hi mn mx).
Proof.
  intros Hca Hout Hlo Hhi Hmn. pose proof (geom_total v Hg) as Ht. unfold BlockFindContiguous.
  rewrite (u32_small (hi - lo)) by lia. destruct (Z.ltb_spec (hi - lo) mn) as [Hsm|Hbig].
  { right. split; [left; split; [done|]|]; [|split; [done|split; [done|by apply cache_grown_refl]]].
    intros s (? & ? & _). lia. }
  rewrite u32_small by lia. pose proof (first_read lo ltac:(lia)) as Hrd.
  destruct (ReadBitmapBlock bread v lo) as [err [b|]].
  2: { right. split; [right|split; [done|split; [done|by apply cache_grown_refl]]].
       exists lo. split; [lia|done]. }
  destruct Hrd as (-> & Hr & Hon). rewrite word_index_land by lia. fold (words_per_block v).
  set (c := Cur b _ _) in *.
  pose proof (find_loop_spec bread mn mx hi Hmn (Z.to_nat (hi - lo)) v 0 lo c) as H.
  specialize (H Hg Hok Hbr Hca Hhi Hout ltac:(lia) ltac:(lia) Hr ltac:(done)).
  destruct (find_loop bread (Z.to_nat (hi - lo)) v (hi - mn + 1) hi mn mx 0 lo c)
    as [[[[err v'] s] n]| | |]; simpl in H; try done.
  cbn [mbind outcome_bind]. destruct H as [(-> & Hn & Hno & Hc)|[(-> & Hff & Hc)|(Hrf & Hc)]].
  - simpl. rewrite (proj2 (Z.ltb_lt _ _)) by done. right. split; [by left|done].
  - simpl. rewrite (proj2 (Z.ltb_ge _ _)) by (destruct Hff as (_ & ? & _); lia). left. done.
  - assert (err <> 0) by (destruct Hrf as (k & _ & _ & ?); done).
    rewrite (proj2 (Z.eqb_neq err noErr)) by done. right. split; [by right|done].
Qed.
End find.

(** ** Counting free blocks *)

Definition free_in (v : ExtendedVCB) (m : gmap Z (list Z)) (lo n : Z) : Z :=
  Z.of_nat (length (filter (fun k => mem_bit v m k = false) (seqZ lo n))).
(** The number of free blocks of the volume. *)
Definition free_count (v : ExtendedVCB) : Z := free_in v (bitmap v) 0 (totalBlocks v).

Lemma free_in_app v m lo n1 n2 :
  0 <= n1 -> 0 <= n2 -> free_in v m lo (n1 + n2) = free_in v m lo n1 + free_in v m (lo + n1) n2.
Proof.
  intros H1 H2. unfold free_in. rewrite seqZ_app, filter_app, length_app by done. lia.
Qed.

Lemma free_in_ext v m m' lo n :
  (forall k, lo <= k < lo + n -> mem_bit v m' k = mem_bit v m k) -> free_in v m' lo n = free_in v m lo n.
Proof.
  intros H. unfold free_in. do 2 f_equal. apply filter_same.
  intros k Hk%elem_of_seqZ. by rewrite H.
Qed.

Lemma free_in_all v m lo n : 0 <= n -> run_is v m false lo n -> free_in v m lo n = n.
Proof.
  intros Hn H. unfold free_in. rewrite filter_all.
  - rewrite length_seqZ. lia.
  - apply Forall_forall. intros k Hk%elem_of_seqZ. by apply H.
Qed.

Lemma free_in_none v m lo n : run_is v m true lo n -> free_in v m lo n = 0.
Proof.
  intros H. unfold free_in. rewrite filter_none; [done|].
  apply Forall_forall. intros k Hk%elem_of_seqZ. by rewrite H.
Qed.

Lemma free_in_pos v m lo n : 0 <= free_in v m lo n.
Proof. unfold free_in. lia. Qed.

Lemma free_in_0 v m lo n :
  free_in v m lo n = 0 <-> run_is v m true lo n.
Proof.
  split; [|apply free_in_none]. intros H k Hk. unfold free_in in H.
  destruct (mem_bit v m k) eqn:E; [done|]. exfalso.
  assert (k ∈ filter (fun k => mem_bit v m k = false) (seqZ lo n)) as Hin.
  { apply list_elem_of_filter. rewrite elem_of_seqZ. done. }
  destruct (filter _ _); [by apply elem_of_nil in Hin|done].
Qed.

(** Marking [n] free blocks as used takes [n] from the count. *)
Lemma free_in_marked v m m' s n val :
  0 <= s -> 0 <= n -> s + n <= totalBlocks v -> totalBlocks v <= 2 ^ 32 ->
  run_is v m (negb val) s n -> marked v val m m' s n ->
  free_in v m' 0 (totalBlocks v)
    = free_in v m 0 (totalBlocks v) + (if val then - n else n).
Proof.
  intros Hs Hn Hb Ht Hrun Hm.
  replace (totalBlocks v) with (s + (n + (totalBlocks v - s - n))) by lia.
  rewrite !free_in_app by lia. rewrite !Z.add_0_l.
  rewrite (free_in_ext v m m' 0 s), (free_in_ext v m m' (s + n)).
  2, 3: intros k Hk; rewrite Hm by lia; case_ztests; done.
  assert (run_is v m' val s n) as Hrun' by (intros k Hk; rewrite Hm by lia; case_ztests; done).
  destruct val.
  - rewrite (free_in_none v m' s n), (free_in_all v m s n) by done. lia.
  - rewrite (free_in_all v m' s n), (free_in_none v m s n) by done. lia.
Qed.

(** ** The allocation routines *)

(** The bitmap [m] is that of [v] with [n] free blocks at [s] taken. *)
Definition taken (v : ExtendedVCB) (m : gmap Z (list Z)) (s n : Z) : Prop :=
  0 <= s /\ 0 <= n /\ s + n <= totalBlocks v /\
  run_is v (bitmap v) false s n /\ marked v true (bitmap v) m s n.

(** The contract of the allocation routines: between [mn] and [mx] free blocks are
    taken, or the disk is full ([full]) and the bitmap is left alone, or a bitmap block
    could not be read, when a part of the run is lost. *)
Definition alloc_post (bread : Z -> Z) (v : ExtendedVCB) (mn mx : Z) (full : ExtendedVCB -> Prop)
    (r : outcome alloc_result) : Prop :=
  match r with
  | Ok (err, v', s, n) => exists cnt l m,
      v' = set_freeExts cnt l (vcb_with v m) /\ cache_ok v' /\ mem_ok v m /\
      (forall b, is_Some (m !! b) <-> is_Some (bitmap v !! b)) /\
      (err = noErr /\ mn <= n <= mx /\ taken v m s n \/
       err = dskFulErr /\ s = 0 /\ n = 0 /\ m = bitmap v /\ full v' \/
       err <> noErr /\ (exists b, err = bread b) /\ exists s' n', taken v m s' n')
  | _ => False
  end.

Lemma taken_0 v : geom_ok v -> taken v (bitmap v) 0 0.
Proof.
  intros Hg. pose proof (geom_total v Hg). split; [lia|]. split; [lia|]. split; [lia|].
  split; [intros k; lia|apply marked_refl].
Qed.

(** Cached extents outside a run stay free when it is taken. *)
Lemma cache_ok_taken v m s n :
  geom_ok v -> cache_ok v -> taken v m s n ->
  Forall (ext_disjoint (Ext s n)) (cached v) -> cache_ok (vcb_with v m).
Proof.
  intros Hg [Hl Hc Hf Hs] (H1 & H2 & H3 & _ & Hm) Hd. pose proof (geom_total v Hg).
  split; [done|done| |done]. change (cached (vcb_with v m)) with (cached v).
  rewrite Forall_forall in *. intros e He.
  destruct (Hf e He) as (F1 & F2 & F3 & F4). split; [done|]. split; [done|]. split; [done|].
  intros k Hk. change (mem_bit v m k = false). rewrite Hm by lia.
  destruct (Hd e He) as [D|D]; simpl in D; case_ztests; by apply F4.
Qed.

Section alloc.
Context (bread : Z -> Z) (v : ExtendedVCB).
Context (Hg : geom_ok v) (Hok : mem_ok v (bitmap v)) (Hbr : bread_ok bread v).

Lemma bread_errno b : bread b <> dskFulErr.
Proof. destruct (Hbr b) as [? _]. unfold dskFulErr. lia. Qed.

(** Taking a free run that no cached extent overlaps. *)
Lemma take_run cnt l s n mn mx full :
  cache_ok (set_freeExts cnt l v) -> ext_free v (Ext s n) -> mn <= n <= mx ->
  Forall (ext_disjoint (Ext s n)) (cached (set_freeExts cnt l v)) ->
  exists err v', BlockMarkAllocated bread (set_freeExts cnt l v) s n = Ok (err, v') /\
    (err = noErr -> alloc_post bread v mn mx full (Ok (err, v', s, n))) /\
    (err <> noErr -> forall s0 n0, alloc_post bread v mn mx full (Ok (err, v', s0, n0))).
Proof.
  intros Hca (F1 & F2 & F3 & F4) Hn Hd. simpl in *. set (v1 := set_freeExts cnt l v) in *.
  assert (geom_ok v1) as Hg1 by (by split; apply Hg).
  pose proof (BlockMark_spec bread v1 Hg1 op_allocate true s n Hok F1 F2 F3) as H.
  unfold BlockMarkAllocated. destruct (BlockMark bread op_allocate v1 s n) as [[err v']| | |];
    simpl in H; try done.
  2: { destruct H as (k & Hk & Hb). exfalso. specialize (F4 k Hk).
       change (mem_bit v (bitmap v) k = true) in Hb. congruence. }
  destruct H as (m & n' & -> & (Hn' & Hrun & Hmk & Hmok & Hkeys) & Hcase).
  assert (taken v m s n') as Htk by (split; [lia|]; split; [lia|]; split; [lia|done]).
  assert (cache_ok (vcb_with v1 m)) as Hca'.
  { apply cache_ok_taken with s n'; [done|done|done|]. eapply Forall_impl; [exact Hd|].
    unfold ext_disjoint. simpl. intros e ?. lia. }
  exists err, (vcb_with v1 m). split; [done|].
  split; [intros ->|intros He s0 n0]; exists cnt, l, m; do 4 (split; [done|]).
  - left. split; [done|]. split; [done|]. destruct Hcase as [[_ ->]|[? _]]; done.
  - right; right. split; [done|]. split; [|by exists s, n'].
    destruct Hcase as [[-> _]|(_ & k & _ & He')]; [done|].
    rewrite (bread_s16 bread v Hbr) in He'. by eexists.
Qed.

Definition no_contig (start mn : Z) (_ : ExtendedVCB) : Prop :=
  (forall s, ~ fits v start (totalBlocks v) mn s) /\ (forall s, ~ fits v 0 start mn s).

Lemma grown_alloc_post v1 lo hi err mn mx (full : ExtendedVCB -> Prop) :
  cache_grown v v1 lo hi ->
  (err = dskFulErr /\ full v1 \/ err <> noErr /\ exists b, err = bread b) ->
  alloc_post bread v mn mx full (Ok (err, v1, 0, 0)).
Proof.
  intros (cnt & l & -> & Hca & _) H. exists cnt, l, (bitmap v). rewrite vcb_with_id.
  split; [done|]. split; [done|]. split; [done|]. split; [done|].
  destruct H as [[-> Hf]|[H Hb]]; right; [left; done|right].
  split; [done|]. split; [done|]. exists 0, 0. by apply taken_0.
Qed.

(** The end of [BlockAllocateContig], once a run is found. *)
Lemma contig_take v2 s n mn mx full :
  (exists cnt l, v2 = set_freeExts cnt l v) -> cache_ok v2 -> ext_free v (Ext s n) -> mn <= n <= mx ->
  Forall (ext_disjoint (Ext s n)) (cached v2) ->
  alloc_post bread v mn mx full
    ('(err, v) ← BlockMarkAllocated bread v2 s n;
     if negb (err =? noErr) then Ok (err, v, 0, 0) else Ok (err, v, s, n)).
Proof.
  intros (cnt & l & ->) Hca Hfr Hn Hdis.
  destruct (take_run cnt l s n mn mx full Hca Hfr Hn Hdis) as (err2 & v' & -> & Hs & Hf).
  cbn [mbind outcome_bind]. destruct (Z.eqb_spec err2 noErr) as [->|He]; [by apply Hs|by apply Hf].
Qed.

Lemma first_fit_free lo hi mn mx s n :
  0 <= lo -> hi <= totalBlocks v -> 1 <= mn -> first_fit v lo hi mn mx s n ->
  ext_free v (Ext s n) /\ mn <= n <= mx /\ lo <= s /\ s + n <= hi.
Proof.
  intros Hlo Hhi Hmn ((F1 & F2 & F3) & F4 & _). split; [|lia].
  split; simpl; [lia|]. split; [lia|]. split; [lia|done].
Qed.

Lemma BlockAllocateContig_spec start mn mx :
  vcbFreeExtCnt v = 0 -> cache_ok v -> 0 <= start <= totalBlocks v -> 1 <= mn <= mx ->
  alloc_post bread v mn mx (no_contig start mn) (BlockAllocateContig bread v start mn mx).
Proof.
  intros Hc0 Hca Hst Hmn. unfold BlockAllocateContig.
  assert (forall P, Forall P (cached v)) as Hnil by (unfold cached; by rewrite Hc0).
  pose proof (BlockFindContiguous_spec bread v Hg Hok Hbr start (totalBlocks v) mn mx Hca
                (Hnil _) Hst ltac:(lia) Hmn) as H1.
  destruct (BlockFindContiguous bread v start (totalBlocks v) mn mx) as [[[[err v1] s] n]| | |];
    simpl in H1; try done; cbn [mbind outcome_bind].
  assert (forall v1 lo hi, cache_grown v v1 lo hi ->
    Forall (fun e => lo <= startBlock e /\ startBlock e + blockCount e <= hi) (cached v1)) as Hnew.
  { intros v0 lo hi (cnt & l & -> & _ & Hf). eapply Forall_impl; [exact Hf|].
    intros e [He|He]; [|done]. pose proof (Hnil (fun _ => False)) as Hn.
    rewrite Forall_forall in Hn. by destruct (Hn e). }
  destruct H1 as [(-> & Hff & Hgr)|(Herr & -> & -> & Hgr)].
  { simpl. apply first_fit_free in Hff as (Hfr & Hn & Hs & Hsn); [|lia..].
    apply contig_take; [by destruct Hgr as (c & l & -> & _); eauto|by destruct Hgr as (c & l & -> & ? & _)
      |done|done|].
    eapply Forall_impl; [exact (Hnew _ _ _ Hgr)|]. intros e [? ?]. right. simpl in *. lia. }
  destruct Herr as [[-> Hno]|(k & Hk & -> & He)].
  2: { rewrite (proj2 (Z.eqb_neq (bread _) dskFulErr)), andb_false_l by apply bread_errno.
       cbn [mbind outcome_bind]. rewrite (proj2 (Z.eqb_neq (bread _) noErr)) by done. simpl.
       eapply grown_alloc_post; [exact Hgr|]. right. split; [done|]. by eexists. }
  rewrite Z.eqb_refl, andb_true_l. destruct (Z.eqb_spec start 0) as [->|Hs0]; cbn [negb mbind outcome_bind].
  { eapply (grown_alloc_post v1); [exact Hgr|]. left. split; [done|]. split; [done|].
    intros s' (? & ? & _). lia. }
  pose proof (Hnew _ _ _ Hgr) as Hnew1. pose proof Hgr as (cnt & l & -> & Hca1 & Hf1).
  pose proof (BlockFindContiguous_spec bread (set_freeExts cnt l v) ltac:(by split; apply Hg) Hok Hbr
                0 start mn mx Hca1) as H2.
  specialize (H2 ltac:(eapply Forall_impl; [exact Hnew1|]; simpl; intros; lia) ltac:(lia) (proj2 Hst) Hmn).
  destruct (BlockFindContiguous bread (set_freeExts cnt l v) 0 start mn mx) as [[[[err v2] s] n]| | |];
    simpl in H2; try done; cbn [mbind outcome_bind].
  destruct H2 as [(-> & Hff & Hgr2)|(Herr & -> & -> & Hgr2)]; pose proof Hgr2 as (c2 & l2 & -> & Hca2 & Hf2).
  { simpl. change (first_fit v 0 start mn mx s n) in Hff.
    apply first_fit_free in Hff as (Hfr & Hn & Hs & Hsn); [|lia..].
    apply contig_take; [by exists c2, l2|done|done|done|].
    rewrite Forall_forall in *. intros e He. destruct (Hf2 e He) as [He1|He1].
    - specialize (Hnew1 e He1). simpl in Hnew1. left. simpl. lia.
    - right. simpl. lia. }
  rewrite (proj2 (Z.eqb_neq err noErr)) by (destruct Herr as [[-> _]|(k & _ & _ & He)]; done).
  apply (grown_alloc_post _ 0 (totalBlocks v)).
  - exists c2, l2. split; [done|]. split; [done|]. rewrite Forall_forall in *.
    intros e He. right. destruct (Hf2 e He) as [He1|He1]; [specialize (Hnew1 e He1)|]; lia.
  - destruct Herr as [[-> Hno2]|(k & _ & -> & He)]; [by left|right]. split; [done|by eexists].
Qed.

(** What is left of the first cached extent, when [found] blocks are taken. *)
Definition rest_ext (e : HFSPlusExtentDescriptor) (found : Z) : HFSPlusExtentDescriptor :=
  Ext (startBlock e + found) (blockCount e - found).

Lemma rest_disjoint e found e' :
  0 <= found <= blockCount e -> ext_disjoint e e' ->
  ext_disjoint (rest_ext e found) e' /\ ext_disjoint (Ext (startBlock e) found) e'.
Proof. intros Hf [?|?]; split; [left|left|right|right]; simpl in *; lia. Qed.

Lemma rest_free e found :
  0 <= found < blockCount e -> ext_free v e -> ext_free v (rest_ext e found).
Proof.
  intros Hf (F1 & F2 & F3 & F4). split; simpl; [lia|]. split; [lia|]. split; [lia|].
  intros k Hk. apply F4. lia.
Qed.

(** The cache without the [found] blocks of its first extent. *)
Lemma sorted_rest e A B found :
  1 <= found <= blockCount e -> StronglySorted ext_order (e :: A ++ B) ->
  Forall (fun x => blockCount e - found < blockCount x) A ->
  Forall (fun x => blockCount x <= blockCount e - found) B ->
  StronglySorted ext_order (A ++ rest_ext e found :: B).
Proof.
  intros Hf Hs HA HB. apply StronglySorted_cons in Hs as [He Hs].
  apply StronglySorted_app in Hs as (Hab & Hsa & Hsb). apply StronglySorted_app.
  rewrite Forall_forall in *. split; [|split; [done|]].
  - intros x y Hx [->|Hy]%elem_of_cons; [|by apply Hab]. split; [simpl; specialize (HA x Hx); lia|].
    apply ext_disjoint_sym, (rest_disjoint e found x); [lia|]. apply He. set_solver.
  - apply StronglySorted_cons. split; [|done]. apply Forall_forall. intros y Hy.
    split; [by apply HB|]. apply (rest_disjoint e found y); [lia|]. apply He. set_solver.
Qed.

(** Taking [found] blocks of the first extent [e], for a cache with the rest. *)
Lemma known_take cnt l e A B found mx :
  ext_free v e -> Forall (ext_free v) (A ++ B) -> StronglySorted ext_order (e :: A ++ B) ->
  1 <= found <= blockCount e /\ found <= mx ->
  Forall (fun x => blockCount e - found < blockCount x) A ->
  Forall (fun x => blockCount x <= blockCount e - found) B ->
  length l = 10%nat -> 0 <= cnt <= 10 ->
  (exists B', take (Z.to_nat cnt) l = A ++ B' /\ (B' = [] \/ B' = rest_ext e found :: B /\ B <> [])) ->
  exists err v', BlockMarkAllocated bread (set_freeExts cnt l v) (startBlock e) found = Ok (err, v') /\
    alloc_post bread v 1 mx (fun _ => vcbFreeExtCnt v = 0) (Ok (err, v', startBlock e, found)).
Proof.
  intros He HfL Hso Hfd HA HB Hlen Hcnt (B' & Htk & HB2). pose proof He as (E1 & E2 & E3 & E4).
  pose proof Hso as [HeL _]%StronglySorted_cons.
  pose proof (sorted_rest e A B found ltac:(lia) Hso HA HB) as Hsr.
  assert (Forall (ext_free v) (rest_ext e found :: B) \/ B = []) as Hfb.
  { destruct B as [|b B]; [by right|left]. apply Forall_app in HfL as [_ HfB]. constructor; [|done].
    apply rest_free; [|done]. apply Forall_cons in HfB as [(_ & ? & _) _].
    apply Forall_cons in HB as [? _]. lia. }
  assert (Forall (ext_disjoint (Ext (startBlock e) found)) (A ++ rest_ext e found :: B)) as Hdj.
  { rewrite Forall_forall in *. intros x Hx.
    assert (x = rest_ext e found \/ x ∈ A ++ B) as [->|Hx'] by set_solver; [left; simpl; lia|].
    apply (rest_disjoint e found x); [lia|]. by apply HeL. }
  destruct (take_run cnt l (startBlock e) found 1 mx (fun _ => vcbFreeExtCnt v = 0))
    as (err & v' & Heq & Hs & Hf); [| |lia| |].
  - split; [done|done| |]; unfold cached; cbn [vcbFreeExtCnt vcbFreeExt set_freeExts]; rewrite Htk.
    + apply Forall_app in HfL as [HfA _]. apply Forall_app. split; [done|].
      destruct HB2 as [->|[-> HBne]]; [done|]. by destruct Hfb.
    + destruct HB2 as [->|[-> _]]; [rewrite app_nil_r; by apply StronglySorted_app_1_l in Hsr|done].
  - split; simpl; [lia|]. split; [lia|]. split; [lia|]. intros k Hk. apply E4. lia.
  - unfold cached; cbn [vcbFreeExtCnt vcbFreeExt set_freeExts]; rewrite Htk.
    destruct HB2 as [->|[-> _]]; [|done]. rewrite app_nil_r. by apply Forall_app in Hdj as [? _].
  - exists err, v'. split; [done|]. destruct (decide (err = noErr)); [by apply Hs|by apply Hf].
Qed.

Lemma BlockAllocateKnown_spec mx :
  cache_ok v -> 1 <= mx ->
  alloc_post bread v 1 mx (fun _ => vcbFreeExtCnt v = 0) (BlockAllocateKnown bread v mx).
Proof.
  intros Hca Hmx. unfold BlockAllocateKnown. destruct (Z.eqb_spec (vcbFreeExtCnt v) 0) as [E|E].
  { apply (grown_alloc_post v 0 0); [by apply cache_grown_refl|by left]. }
  destruct (cache_split v Hca) as [Hl Hlen]. pose proof Hca as [Hl10 Hcnt Hfr Hso].
  set (C := drop _ _) in Hl. destruct (cached v) as [|e L] eqn:HL; [simpl in Hlen; lia|].
  apply Forall_cons in Hfr as [He HfL]. pose proof Hso as [HeL HsL]%StronglySorted_cons.
  rewrite Hl. change (ext_at ((e :: L) ++ C) 0) with e.
  replace (if mx <? blockCount e then mx else blockCount e) with (Z.min mx (blockCount e))
    by (case_ztests). set (found := Z.min mx (blockCount e)).
  pose proof He as (E1 & E2 & E3 & E4). pose proof (geom_total v Hg).
  rewrite !u32_small by lia.
  destruct (split_by_size (blockCount e - found + 1) L HsL) as (A & B & -> & HA & HB).
  assert (Forall (fun x => blockCount e - found < blockCount x) A) as HA'
    by (eapply Forall_impl; [exact HA|]; simpl; intros; lia).
  assert (Forall (fun x => blockCount x <= blockCount e - found) B) as HB'
    by (eapply Forall_impl; [exact HB|]; simpl; intros; lia).
  destruct (bubble_up_spec [] e A B C (blockCount e - found)) as (y & Hy); [done..|].
  simpl in Hlen. rewrite length_app in Hlen.
  replace (Z.to_nat (vcbFreeExtCnt v - 1)) with (length (A ++ B)) by (rewrite length_app; lia).
  change ([] ++ e :: A ++ B ++ C) with (e :: A ++ B ++ C) in Hy.
  replace ((e :: A ++ B) ++ C) with (e :: A ++ B ++ C) by (simpl; by rewrite app_assoc).
  simpl in Hy. rewrite Hy. clear Hy.
  pose proof (fun cnt l => known_take cnt l e A B found mx He HfL Hso ltac:(lia) HA' HB') as Hgo.
  apply (f_equal length) in Hl. simpl in Hl. rewrite !length_app in Hl.
  destruct (Z.eqb_spec (Z.of_nat (S (length A))) (vcbFreeExtCnt v)) as [Ei|Ei].
  - assert (length B = 0%nat) by lia. destruct B; [|done].
    destruct (Hgo (vcbFreeExtCnt v - 1) (A ++ y :: C)) as (err & v' & Heq & Hp).
    + rewrite length_app. simpl in *. lia.
    + lia.
    + exists []. split; [|by left]. rewrite app_nil_r. apply take_app_length'. lia.
    + simpl. rewrite Heq. exact Hp.
  - replace (S (length A) - 1)%nat with (length A) by lia. rewrite list_insert_split.
    destruct (Hgo (vcbFreeExtCnt v) (A ++ rest_ext e found :: B ++ C)) as (err & v' & Heq & Hp).
    + rewrite length_app. simpl. rewrite length_app. lia.
    + lia.
    + exists (rest_ext e found :: B). split; [|right; split; [done|by intros ->; simpl in *; lia]].
      change (rest_ext e found :: B ++ C) with ((rest_ext e found :: B) ++ C). rewrite app_assoc.
      apply take_app_length'. rewrite length_app. simpl. lia.
    + unfold rest_ext in Heq. rewrite Heq. exact Hp.
Qed.
End alloc.

(** ** Allocating any free blocks *)
Section any.
Context (bread : Z -> Z) (v : ExtendedVCB).
Context (Hg : geom_ok v) (Hok : mem_ok v (bitmap v)) (Hbr : bread_ok bread v).

(** The bitmap with the word at hand in place. *)
Definition any_mem (m : gmap Z (list Z)) (c : word_cursor) (w : Z) : gmap Z (list Z) :=
  view (vcb_with v m) (store c w).
Definition same_keys (m : gmap Z (list Z)) : Prop :=
  forall b, is_Some (m !! b) <-> is_Some (bitmap v !! b).

(** The cursor is at the word of block [p], of which [w] is a copy. *)
Record any_inv (m : gmap Z (list Z)) (p : Z) (c : word_cursor) (w : Z) : Prop := {
  any_on : cur_on v c p;
  any_word : 0 <= w < 2 ^ 32;
  any_ok : mem_ok v (any_mem m c w);
  any_keys : same_keys (any_mem m c w)
}.

Lemma store_store c w w' : store (store c w) w' = store c w'.
Proof. unfold store. simpl. by rewrite list_insert_insert_eq. Qed.

Lemma any_index m p c w :
  0 <= p -> any_inv m p c w ->
  0 <= cw_index c /\ (Z.to_nat (cw_index c) < length (buffer (cw_buf c)))%nat.
Proof.
  intros Hp [(_ & Hi & _) _ [Hm _] _]. pose proof (word_index_range v Hg p Hp) as Hr.
  rewrite Hi. split; [lia|].
  destruct (Hm (blockRef (cw_buf c)) (buffer (cw_buf (store c w)))) as [Hl _].
  { unfold any_mem, view. simpl. apply lookup_insert_eq. }
  simpl in Hl. rewrite length_insert in Hl. lia.
Qed.

Lemma any_bits m p c w k :
  0 <= p < 2 ^ 32 -> 0 <= k < 2 ^ 32 -> any_inv m p c w -> k / 32 = p / 32 ->
  mem_bit v (any_mem m c w) k = Z.testbit w (31 - k mod 32).
Proof.
  intros Hp Hk Hinv Hs. destruct (any_index m p c w ltac:(lia) Hinv) as [Hi1 Hi2].
  destruct Hinv as [Hon Hw Hm _].
  destruct (fetch_spec v Hg (any_mem m c w) (store c w) p) as (w' & Hf & _ & Hb); [done| |done|done|].
  { unfold any_mem, view. apply lookup_insert_eq. }
  unfold fetch, store in Hf. simpl in Hf. rewrite (proj2 (Z.leb_le _ _)) in Hf by done.
  rewrite list_lookup_insert_eq in Hf by done. simpl in Hf. unfold SWAP_BE32 in Hf.
  rewrite bswap32_invol in Hf by done. injection Hf as <-. by apply Hb.
Qed.

(** Setting the bit of block [p] in the copy. *)
Lemma any_set m p c w :
  0 <= p < totalBlocks v -> any_inv m p c w -> mem_bit v (any_mem m c w) p = false ->
  let w' := Z.lor w (2 ^ (31 - p mod 32)) in
  any_inv m p c w' /\ progress v true (any_mem m c w) (any_mem m c w') p 1 1.
Proof.
  intros Hp Hinv Hfree w'. pose proof (geom_total v Hg) as Ht.
  pose proof (Z.mod_pos_bound p 32 ltac:(lia)) as Hpm.
  destruct (any_index m p c w ltac:(lia) Hinv) as [Hi1 Hi2].
  pose proof (fun k Hk => any_bits m p c w k ltac:(lia) Hk Hinv) as Hbits.
  destruct Hinv as [Hon Hw Hm Hkeys]. pose proof Hon as (Hb & Hi & Hl).
  assert (0 <= w' < 2 ^ 32) as Hw'.
  { apply lor_range; [done|]. split; [apply Z.pow_nonneg; lia|]. apply Z.pow_lt_mono_r; lia. }
  assert (any_mem m c w' = <[bitmap_block v p := <[Z.to_nat (word_index v p) := bswap32 w']>
            (buffer (cw_buf (store c w)))]> (any_mem m c w)) as Hmem.
  { unfold any_mem, view. simpl. rewrite Hb, insert_insert_eq, Hi, list_insert_insert_eq. done. }
  assert (any_mem m c w !! bitmap_block v p = Some (buffer (cw_buf (store c w)))) as Hlk.
  { unfold any_mem, view. simpl. rewrite Hb. apply lookup_insert_eq. }
  assert (mem_ok v (any_mem m c w')) as Hm'
    by (rewrite Hmem; apply mem_ok_set; [done|done|apply bswap32_range]).
  assert (forall b, is_Some (any_mem m c w' !! b) <-> is_Some (any_mem m c w !! b)) as Hkeys'.
  { intros b. rewrite Hmem, lookup_insert. case_decide; [|done]. subst b. by rewrite Hlk. }
  split; [split; [done|done|done|]|].
  { intros b. rewrite Hkeys'. apply Hkeys. }
  split; [lia|]. split; [intros k Hk; replace k with p by lia; done|]. split; [|done].
  intros k Hk. rewrite Hmem, mem_bit_set; [|done|lia|done|done|simpl; rewrite length_insert, <- Hi; lia].
  rewrite bswap32_invol by done. destruct (Z.eqb_spec (k / 32) (p / 32)) as [E|E].
  - unfold w'. rewrite Z.lor_spec, <- Hbits by done.
    pose proof (Z.div_mod p 32 ltac:(lia)). pose proof (Z.div_mod k 32 ltac:(lia)).
    destruct (decide (k = p)) as [->|Hne].
    + rewrite Z.pow2_bits_true by lia. rewrite orb_true_r. case_ztests; done.
    + rewrite Z.pow2_bits_false by lia. rewrite orb_false_r. case_ztests; done.
  - destruct (decide (k = p)) as [->|Hne]; [done|]. case_ztests; done.
Qed.

(** Storing what was fetched changes nothing. *)
Lemma fetch_store m c p w :
  mem_ok v m -> m !! blockRef (cw_buf c) = Some (buffer (cw_buf c)) -> cur_on v c p -> 0 <= p ->
  fetch c = Ok w -> store c w = c.
Proof.
  intros Hm Hv (Hb & Hi & _) Hp Hf. rewrite Hb in Hv.
  destruct (mem_ok_lookup v Hg m p) as (ws & x & Hws & Hx & Hr); [done|lia|by eexists|].
  rewrite Hv in Hws. injection Hws as <-. pose proof (word_index_range v Hg p ltac:(lia)).
  unfold fetch in Hf. rewrite Hi, (proj2 (Z.leb_le _ _)), Hx in Hf by lia. injection Hf as <-.
  unfold store, SWAP_BE32. rewrite bswap32_invol, list_insert_id by (done || by rewrite Hi).
  by destruct c as [[] ]. 
Qed.

(** A cursor that has just been read or moved. *)
Definition any_fresh (m : gmap Z (list Z)) (p : Z) (c : word_cursor) (w : Z) : Prop :=
  any_inv m p c w /\ store c w = c.

Lemma any_fetch m c p :
  mem_ok v (view (vcb_with v m) c) -> same_keys (view (vcb_with v m) c) -> cur_on v c p ->
  0 <= p < 2 ^ 32 ->
  exists w, fetch c = Ok w /\ any_fresh m p c w /\ any_mem m c w = view (vcb_with v m) c.
Proof.
  intros Hm Hk Hon Hp. set (mv := view (vcb_with v m) c) in *.
  assert (mv !! blockRef (cw_buf c) = Some (buffer (cw_buf c))) as Hlk by apply lookup_insert_eq.
  destruct (fetch_spec v Hg mv c p Hm Hlk Hon Hp) as (w & Hf & Hw & _).
  assert (store c w = c) as Hst by (apply (fetch_store mv c p w); done || lia).
  exists w. split; [done|]. unfold any_fresh, any_mem. rewrite Hst.
  split; [|done]. split; [|done]. by split; unfold any_mem; rewrite ?Hst.
Qed.

Lemma any_next_word_spec m p c w dirty q :
  any_fresh m p c w -> dirty = true \/ any_mem m c w = m ->
  0 <= p < 2 ^ 32 -> q = 32 * (p / 32 + 1) -> q < 2 ^ 32 ->
  match any_next_word bread (vcb_with v m) q dirty c with
  | Ok (err, v', Some (w', c')) => err = 0 /\ exists m',
      v' = vcb_with v m' /\ any_fresh m' q c' w' /\ any_mem m' c' w' = any_mem m c w /\
      (m' = m \/ m' = any_mem m c w)
  | Ok (err, v', None) =>
      v' = vcb_with v (any_mem m c w) /\ err = bread (bitmap_block v q) /\ err <> 0
  | _ => False
  end.
Proof.
  intros [[Hon Hw Hm Hk] Hst] Hd Hp Hq Hq2. unfold any_next_word.
  pose proof (next_word_at v Hg c p q Hp Hq Hq2 Hon) as Hat. unfold any_mem in *. rewrite Hst in *.
  destruct (geom_div v Hg) as (Hdv & Hwv & _).
  assert (0 <= q) by (pose proof (Z.div_pos p 32); lia).
  destruct Hat as [Hon'|(_ & Hqm & Hl & _)].
  - pose proof (word_index_range v Hg q ltac:(lia)).
    rewrite (proj2 (Z.eqb_neq _ _)) by (destruct Hon' as (_ & _ & ->); lia).
    destruct (any_fetch m (next_word c) q) as (w' & -> & Hfr & Hmem); [done..|lia|].
    split; [done|]. exists m. split; [done|]. split; [done|]. split; [done|by left].
  - rewrite Hl. change (0 =? 0) with true. cbv beta iota zeta.
    set (mv := view (vcb_with v m) c) in *.
    assert (ReleaseBitmapBlock (vcb_with v m) (cw_buf (next_word c)) dirty = vcb_with v mv) as ->.
    { destruct Hd as [->|E]; [done|]. destruct dirty; [done|]. simpl. by rewrite E. }
    unfold ReadBitmapBlock. change (bitmap_block (vcb_with v mv) q) with (bitmap_block v q).
    rewrite (bread_s16 bread v Hbr). destruct (Z.eqb_spec (bread (bitmap_block v q)) 0) as [E|E].
    2: done.
    destruct (proj2 (Hk (bitmap_block v q)) (proj2 (Hbr _) E)) as [ws Hws].
    change (bitmap (vcb_with v mv)) with mv. rewrite Hws. simpl.
    set (c' := Cur _ _ _).
    assert (view (vcb_with v mv) c' = mv) as Hv by (by apply insert_id).
    destruct (any_fetch mv c' q) as (w' & -> & Hfr & Hmem); [by rewrite Hv..| |lia|].
    { unfold cur_on, word_index. simpl. rewrite Hqm, Z.div_0_l by lia. split; [done|].
      split; [done|]. unfold words_per_block. lia. }
    split; [done|]. exists mv. split; [done|]. split; [done|]. split; [|by right].
    by rewrite <- Hv at 2.
Qed.

(** The mask of block [p], and of the block after it. *)
Lemma mask_next p :
  0 <= p ->
  Z.shiftr (2 ^ (31 - p mod 32)) 1
    = (if (p + 1) mod 32 =? 0 then 0 else 2 ^ (31 - (p + 1) mod 32)) /\
  (if (p + 1) mod 32 =? 0 then p + 1 = 32 * (p / 32 + 1) else (p + 1) / 32 = p / 32).
Proof.
  intros Hp. pose proof (Z.mod_pos_bound p 32 ltac:(lia)) as Hm.
  pose proof (Z.div_mod p 32 ltac:(lia)) as Hd.
  rewrite <- high_shiftr, high_shiftr_succ by lia. destruct (decide (p mod 32 = 31)) as [E|E].
  - assert ((p + 1) mod 32 = 0) as Hz.
    { replace (p + 1) with ((p / 32 + 1) * 32) by lia. by apply Z.mod_mul. }
    rewrite Hz, E. split; [done|]. simpl. lia.
  - destruct (word_blocks p 1) as [E1 E2]; [done|lia|]. rewrite E2.
    rewrite (proj2 (Z.eqb_neq _ _)) by lia. rewrite high_shiftr by lia. split; [f_equal; lia|done].
Qed.

Lemma cur_on_same c p q : 0 <= p < 2 ^ 32 -> 0 <= q < 2 ^ 32 -> q / 32 = p / 32 -> cur_on v c p -> cur_on v c q.
Proof.
  intros Hp Hq E. destruct (proj1 (same_word v Hg q p Hq Hp) E) as [E1 E2].
  unfold cur_on. by rewrite E1, E2.
Qed.

Lemma any_test m p c w :
  0 <= p < 2 ^ 32 -> any_inv m p c w ->
  (Z.land w (2 ^ (31 - p mod 32)) =? 0) = negb (mem_bit v (any_mem m c w) p).
Proof.
  intros Hp Hinv. pose proof (Z.mod_pos_bound p 32 ltac:(lia)).
  rewrite land_pow2, (any_bits m p c w p) by (done || lia). done.
Qed.

Definition any_find_post (hi p : Z) (r : outcome (Z * Z * option (Z * Z * word_cursor))) : Prop :=
  match r with
  | Ok (err, q, Some (w, mask, c)) =>
      err = 0 /\ p <= q <= hi /\ (forall k, p <= k < q -> vol_bit v k = true) /\
      (q < hi -> vol_bit v q = false /\ mask = 2 ^ (31 - q mod 32) /\
         any_fresh (bitmap v) q c w /\ any_mem (bitmap v) c w = bitmap v)
  | Ok (err, _, None) => err <> 0 /\ exists b, err = bread b
  | _ => False
  end.

Lemma any_find_spec fuel hi p w c :
  0 <= p <= hi -> hi <= totalBlocks v -> hi - p <= Z.of_nat fuel ->
  any_fresh (bitmap v) p c w -> any_mem (bitmap v) c w = bitmap v ->
  any_find_post hi p (any_find bread fuel v hi p w (2 ^ (31 - p mod 32)) c).
Proof.
  revert p w c. induction fuel as [|fuel IH]; intros p w c Hp Hhi Hf [Hinv Hst] Hmem;
    pose proof (geom_total v Hg) as Ht; cbn [any_find]; destruct (Z.ltb_spec p hi) as [Hlt|Hge]; try lia.
  1, 3: split; [done|]; split; [lia|]; split; intros; lia.
  rewrite (any_test (bitmap v) p c w), Hmem by (done || lia). fold (vol_bit v p).
  destruct (vol_bit v p) eqn:Hb; simpl.
  2: { split; [done|]. split; [lia|]. split; [intros; lia|]. intros _. split; [done|].
       split; [done|]. split; [by split|done]. }
  rewrite u32_small by lia. destruct (mask_next p ltac:(lia)) as [-> Hnx].
  assert (forall r, any_find_post hi (p + 1) r -> any_find_post hi p r) as Hglue.
  { intros [[[err q] [[[w' mask'] c']|]]| | |]; simpl; try done.
    intros (-> & Hq & Hall & Hrest). split; [done|]. split; [lia|]. split; [|done].
    intros k Hk. destruct (decide (k = p)) as [->|]; [done|]. apply Hall. lia. }
  apply Hglue. destruct (Z.eqb_spec ((p + 1) mod 32) 0) as [E|E].
  - pose proof (any_next_word_spec (bitmap v) p c w false (p + 1) ltac:(by split) ltac:(by right)
                  ltac:(lia) Hnx ltac:(lia)) as Hn. rewrite vcb_with_id in Hn.
    change (0 =? 0) with true. cbv iota.
    destruct (any_next_word bread v (p + 1) false c) as [[[err v'] [[w' c']|]]| | |];
      try done; cbn [mbind outcome_bind].
    + destruct Hn as (_ & m' & _ & Hfr & Hmem' & Hm'). rewrite Hmem in Hm', Hmem'.
      assert (m' = bitmap v) as -> by (by destruct Hm').
      replace kHighBitInWordMask with (2 ^ (31 - (p + 1) mod 32)) by (by rewrite E).
      apply IH; [lia|lia|lia|done|done].
    + destruct Hn as (_ & He & Hne). split; [done|]. eauto.
  - rewrite (proj2 (Z.eqb_neq (2 ^ _) 0)).
    2: { pose proof (Z.mod_pos_bound (p + 1) 32). apply Z.pow_nonzero; lia. }
    apply IH; [lia|lia|lia| |done]. split; [|done]. destruct Hinv as [Hon ? ? ?].
    split; [|done..]. apply (cur_on_same c p); done || lia.
Qed.

Definition any_take_post (mw : gmap Z (list Z)) (hi p : Z) (r : outcome (Z * ExtendedVCB * Z)) : Prop :=
  match r with
  | Ok (err, v', q) => exists m' n', v' = vcb_with v m' /\ progress v true mw m' p (hi - p) n' /\
      (err = 0 /\ n' = q - p /\ (q = hi \/ mem_bit v mw q = true) \/
       err <> 0 /\ exists b, err = bread b)
  | _ => False
  end.

Lemma any_take_glue m1 m2 hi p r :
  0 <= p < hi -> hi <= 2 ^ 32 - 1 -> progress v true m1 m2 p 1 1 ->
  any_take_post m2 hi (p + 1) r -> any_take_post m1 hi p r.
Proof.
  intros Hp Hhi Hpr. destruct r as [[[err v'] q]| | |]; simpl; try done.
  intros (m' & n' & -> & Hpr' & Hc). exists m', (1 + n'). split; [done|]. split.
  - replace (hi - p) with (1 + (hi - (p + 1))) by lia. apply progress_trans with m2; try lia; done.
  - destruct Hc as [(-> & Hn & Hstop)|Hc]; [left|by right]. split; [done|]. split; [lia|].
    destruct Hstop as [|Hb]; [by left|]. destruct (decide (q = hi)); [by left|right].
    destruct Hpr as (_ & _ & Hmk & _). destruct Hpr' as (? & _).
    rewrite Hmk in Hb by lia. revert Hb. case_ztests; done.
Qed.

Lemma any_take_spec fuel m hi p w c :
  0 <= p < hi -> hi <= totalBlocks v -> hi - p <= Z.of_nat fuel + 1 -> any_inv m p c w ->
  any_take_post (any_mem m c w) hi p (any_take bread fuel (vcb_with v m) hi p w (2 ^ (31 - p mod 32)) c).
Proof.
  revert m p w c. induction fuel as [|fuel IH]; intros m p w c Hp Hhi Hf Hinv;
    pose proof (geom_total v Hg) as Ht; cbn [any_take];
    rewrite (any_test m p c w) by (done || lia);
    destruct (mem_bit v (any_mem m c w) p) eqn:Hb; simpl.
  1, 3: exists (any_mem m c w), 0; split; [done|]; split;
    [apply progress_refl; [lia|apply Hinv]|left; split; [done|]; split; [lia|by right]].
  all: destruct (any_set m p c w ltac:(lia) Hinv Hb) as [Hinv' Hpr];
    set (w' := Z.lor w _) in *; rewrite u32_small by lia;
    apply any_take_glue with (any_mem m c w'); [lia|lia|done|];
    destruct (Z.eqb_spec (p + 1) hi) as [E|E]; try lia.
  1, 2: exists (any_mem m c w'), 0; split; [done|]; split;
    [apply progress_refl; [lia|apply Hinv']|left; split; [done|]; split; [lia|by left]].
  destruct (mask_next p ltac:(lia)) as [-> Hnx].
  destruct (Z.eqb_spec ((p + 1) mod 32) 0) as [E0|E0].
  - assert (any_fresh m p (store c w') w') as Hfr.
    { split; [|apply store_store]. destruct Hinv' as [? ? Hm' Hk']. unfold any_mem in Hm', Hk'.
      split; [done|done|unfold any_mem..]; by rewrite store_store. }
    pose proof (any_next_word_spec m p (store c w') w' true (p + 1) Hfr ltac:(by left)
                  ltac:(lia) Hnx ltac:(lia)) as Hn.
    assert (any_mem m (store c w') w' = any_mem m c w') as Hme
      by (unfold any_mem; by rewrite store_store). rewrite Hme in Hn.
    change (0 =? 0) with true. cbv iota.
    destruct (any_next_word bread (vcb_with v m) (p + 1) true (store c w'))
      as [[[err v'] [[w2 c2]|]]| | |]; try done; cbn [mbind outcome_bind].
    + destruct Hn as (-> & m2 & -> & [Hinv2 _] & Hmem & _). rewrite <- Hmem.
      replace kHighBitInWordMask with (2 ^ (31 - (p + 1) mod 32)) by (by rewrite E0).
      apply IH; [lia..|done].
    + destruct Hn as (-> & He & Hne). exists (any_mem m c w'), 0. split; [done|].
      split; [apply progress_refl; [lia|apply Hinv']|right; eauto].
  - rewrite (proj2 (Z.eqb_neq (2 ^ _) 0)).
    2: { pose proof (Z.mod_pos_bound (p + 1) 32). apply Z.pow_nonzero; lia. }
    apply IH; [lia..|]. destruct Hinv' as [Hon ? ? ?].
    split; [|done..]. apply (cur_on_same c p); done || lia.
Qed.

Lemma BlockAllocateAny_spec lo hi mx :
  vcbFreeExtCnt v = 0 -> cache_ok v -> 0 <= lo <= hi -> hi <= totalBlocks v -> 1 <= mx ->
  alloc_post bread v 1 mx (fun v' => v' = v /\ run_is v (bitmap v) true lo (hi - lo))
    (BlockAllocateAny bread v lo hi mx).
Proof.
  intros Hc0 Hca Hlo Hhi Hmx. pose proof (geom_total v Hg) as Ht. unfold BlockAllocateAny.
  rewrite (u32_small (hi - lo)) by lia.
  replace (if hi - lo <? mx then hi - lo else mx) with (Z.min mx (hi - lo)) by (case_ztests).
  set (mx' := Z.min mx (hi - lo)).
  assert (forall err (full : ExtendedVCB -> Prop), err = dskFulErr /\ full v \/ err <> noErr /\ (exists b, err = bread b) ->
            alloc_post bread v 1 mx full (Ok (err, v, 0, 0))) as Hfail.
  { intros err full. apply grown_alloc_post with 0 0; [done..|by apply cache_grown_refl]. }
  pose proof (first_read bread v Hg Hbr lo ltac:(lia)) as Hrd.
  destruct (ReadBitmapBlock bread v lo) as [err [b|]].
  2: { apply Hfail. right. destruct Hrd. eauto. }
  destruct Hrd as (-> & [Hlk _] & Hon). rewrite (geom_land v Hg) by lia. unfold kBitsPerWord.
  change (lo mod bits_per_block v / 32) with (word_index v lo). fold (words_per_block v).
  set (c := Cur b _ _) in *.
  assert (view (vcb_with v (bitmap v)) c = bitmap v) as Hview by (by apply insert_id).
  destruct (any_fetch (bitmap v) c lo) as (w & -> & Hfr & Hmem); [by rewrite Hview..|done|lia|].
  rewrite Hview in Hmem. cbn [mbind outcome_bind].
  change kBitsWithinWordMask with (Z.ones 5). rewrite Z.land_ones, high_shiftr
    by (try apply Z.mod_pos_bound; lia). change (2 ^ 5) with 32.
  pose proof (any_find_spec (Z.to_nat (hi - lo)) hi lo w c Hlo Hhi ltac:(lia) Hfr Hmem) as H1.
  destruct (any_find bread (Z.to_nat (hi - lo)) v hi lo w (2 ^ (31 - lo mod 32)) c)
    as [[[err q] [[[w1 mask] c1]|]]| | |]; simpl in H1; try done; cbn [mbind outcome_bind].
  2: { apply Hfail. by right. }
  destruct H1 as (-> & Hq & Hused & H1). destruct (Z.eqb_spec q hi) as [->|Hne].
  { apply Hfail. left. split; [done|]. split; [done|]. intros k Hk. apply Hused. lia. }
  destruct (H1 ltac:(lia)) as (Hfree & -> & [Hinv1 _] & Hmem1). rewrite (u32_small (hi - mx')) by lia.
  replace (if q <? hi - mx' then u32 (q + mx') else hi) with (Z.min (q + mx') hi)
    by (destruct (Z.ltb_spec q (hi - mx')); rewrite ?u32_small; lia).
  set (hi' := Z.min (q + mx') hi).
  pose proof (any_take_spec (Z.to_nat (hi' - q)) (bitmap v) hi' q w1 c1
                ltac:(lia) ltac:(lia) ltac:(lia) Hinv1) as H2. rewrite Hmem1, vcb_with_id in H2.
  destruct (any_take bread (Z.to_nat (hi' - q)) v hi' q w1 (2 ^ (31 - q mod 32)) c1)
    as [[[err v'] q2]| | |]; simpl in H2; try done; cbn [mbind outcome_bind].
  destruct H2 as (m & n & -> & (Hn & Hrun & Hmk & Hmok & Hkeys) & Hcase).
  assert (taken v m q n) as Htk by (split; [lia|]; split; [lia|]; split; [lia|done]).
  assert (cache_ok (vcb_with v m)) as Hca'.
  { apply cache_ok_taken with q n; [done..|]. unfold cached. by rewrite Hc0. }
  assert (vcb_with v m = set_freeExts (vcbFreeExtCnt v) (vcbFreeExt v) (vcb_with v m)) as Hset by done.
  destruct Hcase as [(-> & -> & Hstop)|[Hne' Hb]].
  - change (0 =? noErr) with true. cbv iota. rewrite u32_small by lia.
    exists (vcbFreeExtCnt v), (vcbFreeExt v), m. do 4 (split; [done|]). left. split; [done|].
    split; [|done]. split; [|lia]. destruct (decide (q2 = q)) as [->|]; [|lia]. exfalso.
    destruct Hstop as [?|Hb]; [lia|]. unfold vol_bit in Hfree. congruence.
  - rewrite (proj2 (Z.eqb_neq err noErr)) by done.
    exists (vcbFreeExtCnt v), (vcbFreeExt v), m. do 4 (split; [done|]). right; right.
    split; [done|]. split; [done|]. by exists q, n.
Qed.
End any.

(** ** The entry points *)

(** The invariant of a volume. *)
Record vol_inv (v : ExtendedVCB) : Prop := {
  inv_geom : geom_ok v;
  inv_mem : mem_ok v (bitmap v);
  inv_cache : cache_ok v;
  inv_next : 0 <= nextAllocation v <= totalBlocks v;
  inv_count : freeBlocks v = free_count v
}.

Lemma run_is_app v m val s n1 n2 :
  run_is v m val s n1 -> run_is v m val (s + n1) n2 -> run_is v m val s (n1 + n2).
Proof. intros H1 H2 k Hk. destruct (decide (k < s + n1)); [apply H1|apply H2]; lia. Qed.

Section noncontig.
Context (bread : Z -> Z) (v : ExtendedVCB).

Lemma alloc_post_impl mn mn' mx (P Q : ExtendedVCB -> Prop) r :
  mn' <= mn -> (forall v', P v' -> Q v') -> alloc_post bread v mn mx P r -> alloc_post bread v mn' mx Q r.
Proof.
  intros Hmn HPQ. destruct r as [[[[err v'] s] n]| | |]; simpl; try done.
  intros (cnt & l & m & -> & H1 & H2 & H3 & H). exists cnt, l, m. do 4 (split; [done|]).
  destruct H as [(-> & Hn & Ht)|[(-> & -> & -> & -> & Hp)|H]];
    [left; split; [done|]; split; [lia|done]|right; left|right; right; done].
  repeat (split; [done|]). by apply HPQ.
Qed.

Context (Hg : geom_ok v) (Hok : mem_ok v (bitmap v)) (Hca : cache_ok v) (Hbr : bread_ok bread v).

(** When the cache is empty, [BlockAllocateKnown] leaves everything to the search. *)
Lemma allocate_noncontig_spec start mx :
  0 <= start <= totalBlocks v -> 1 <= mx ->
  alloc_post bread v 1 mx (fun _ => free_count v = 0) (allocate_noncontig bread v start mx).
Proof.
  intros Hst Hmx. unfold allocate_noncontig.
  assert (0 <> dskFulErr) as Hne by done.
  pose proof (BlockAllocateKnown_spec bread v Hg Hok Hbr mx Hca Hmx) as H1.
  destruct (decide (vcbFreeExtCnt v = 0)) as [Hc0|Hc0].
  2: { destruct (BlockAllocateKnown bread v mx) as [[[[err v1] s] n]| | |]; try done.
       cbn [mbind outcome_bind].
       assert (err <> dskFulErr) as He.
       { destruct H1 as (cnt & l & m & _ & _ & _ & _ & [(-> & _)|[(_ & _ & _ & _ & ?)|(_ & (b & ->) & _)]]);
           [done|done|by apply bread_errno with v]. }
       rewrite (proj2 (Z.eqb_neq _ _) He). cbn [mbind outcome_bind]. rewrite (proj2 (Z.eqb_neq _ _) He).
       by apply (alloc_post_impl 1 1 mx (fun _ => vcbFreeExtCnt v = 0)). }
  unfold BlockAllocateKnown. rewrite Hc0. change (0 =? 0) with true. cbv iota.
  cbn [mbind outcome_bind]. rewrite Z.eqb_refl.
  pose proof (BlockAllocateAny_spec bread v Hg Hok Hbr start (totalBlocks v) mx Hc0 Hca Hst
                ltac:(lia) Hmx) as H2.
  destruct (BlockAllocateAny bread v start (totalBlocks v) mx) as [[[[err v1] s] n]| | |]; try done.
  cbn [mbind outcome_bind]. destruct (Z.eqb_spec err dskFulErr) as [->|He].
  2: { destruct H2 as (cnt & l & m & H2). exists cnt, l, m. destruct H2 as (? & ? & ? & ? & H2).
       do 4 (split; [done|]). destruct H2 as [?|[(? & _)|?]]; [by left|done|by right; right]. }
  assert (v1 = v /\ run_is v (bitmap v) true start (totalBlocks v - start)) as [-> Hfull].
  { destruct H2 as (cnt & l & m & _ & _ & _ & _ & [(? & _)|[(_ & _ & _ & _ & ?)|(_ & (b & Hb) & _)]]);
      [done|done|]. by destruct (bread_errno bread v Hbr b). }
  eapply alloc_post_impl; [reflexivity| |apply BlockAllocateAny_spec; try done; lia].
  intros v' [_ Hf0]. unfold free_count. apply free_in_0.
  replace (totalBlocks v) with (start + (totalBlocks v - start)) by lia.
  apply run_is_app; [by rewrite Z.sub_0_r in Hf0|done].
Qed.

End noncontig.

Section entry.
Context (bread : Z -> Z) (v : ExtendedVCB) (Hinv : vol_inv v) (Hbr : bread_ok bread v).

(** The volume's count of free blocks after the bitmap has changed. *)
Lemma free_count_taken m s n :
  taken v m s n -> free_in v m 0 (totalBlocks v) = free_count v - n.
Proof.
  intros (H1 & H2 & H3 & H4 & H5). pose proof (geom_total v (inv_geom v Hinv)).
  rewrite (free_in_marked v (bitmap v) m s n true) by (done || lia). unfold free_count. lia.
Qed.

Lemma free_in_range m : 0 <= free_in v m 0 (totalBlocks v) <= totalBlocks v.
Proof.
  split; [apply free_in_pos|]. unfold free_in.
  pose proof (length_filter (fun k => mem_bit v m k = false) (seqZ 0 (totalBlocks v))) as Hl.
  rewrite length_seqZ in Hl. pose proof (geom_total v (inv_geom v Hinv)). lia.
Qed.

(** A run of [n] free blocks is part of the count. *)
Lemma fits_count n s : 0 <= n -> fits v 0 (totalBlocks v) n s -> n <= free_count v.
Proof.
  intros Hn (H1 & H2 & H3). unfold free_count.
  replace (totalBlocks v) with (s + (n + (totalBlocks v - s - n))) by lia.
  rewrite !free_in_app by lia. rewrite (free_in_all v (bitmap v) (0 + s) n) by (done || by rewrite Z.add_0_l).
  pose proof (free_in_pos v (bitmap v) 0 s).
  pose proof (free_in_pos v (bitmap v) (0 + s + n) (totalBlocks v - s - n)). lia.
Qed.

(** The volume after a successful allocation, with the allocation pointer [na]. *)
Lemma alloc_success cnt l m s n na :
  cache_ok (set_freeExts cnt l (vcb_with v m)) -> mem_ok v m ->
  (forall b, is_Some (m !! b) <-> is_Some (bitmap v !! b)) -> taken v m s n ->
  0 <= na <= totalBlocks v ->
  let v1 := set_nextAllocation na (set_freeExts cnt l (vcb_with v m)) in
  let v' := MarkVCBDirty (set_freeBlocks (u32 (freeBlocks v1 - n)) v1) in
  vol_inv v' /\ bread_ok bread v' /\ freeBlocks v' = freeBlocks v - n.
Proof.
  intros Hca Hm Hkeys Htk Hna v1 v'. pose proof (geom_total v (inv_geom v Hinv)) as Ht.
  pose proof (free_count_taken m s n Htk) as Hfc. pose proof (free_in_range m) as Hr.
  rewrite <- (inv_count v Hinv) in Hfc.
  assert (freeBlocks v' = freeBlocks v - n) as Hfb by (apply u32_small; simpl; lia).
  split; [|split; [|done]].
  - split; [|done| |done|].
    + destruct (inv_geom v Hinv) as [? ? ?]. by split.
    + destruct Hca as [? ? ? ?]. by split.
    + rewrite Hfb. by rewrite <- Hfc.
  - intros b. destruct (Hbr b) as [? Hb]. split; [done|]. intros E. by apply Hkeys, Hb.
Qed.

(** The volume when nothing was allocated. *)
Lemma alloc_full_inv cnt l :
  cache_ok (set_freeExts cnt l (vcb_with v (bitmap v))) ->
  vol_inv (set_freeExts cnt l (vcb_with v (bitmap v))).
Proof.
  intros Hca. destruct Hinv as [[? ? ?] ? _ ? ?]. by split.
Qed.
End entry.

(** Two states of the same volume. *)
Record same_layout (v v' : ExtendedVCB) : Prop := {
  layout_sig : vcbSigWord v' = vcbSigWord v;
  layout_size : blockSize v' = blockSize v;
  layout_total : totalBlocks v' = totalBlocks v;
  layout_start : vcbVBMSt v' = vcbVBMSt v;
  layout_io : vcbVBMIOSize v' = vcbVBMIOSize v
}.

Lemma mem_bit_layout v v' m k : same_layout v v' -> mem_bit v' m k = mem_bit v m k.
Proof.
  intros [H1 _ _ H2 H3]. unfold mem_bit, word_index, bits_per_block, bitmap_block.
  by rewrite H1, H2, H3.
Qed.

(** The contract of [BlockAllocate] on a volume [v], for a search that starts at
    [start]. *)
Definition BlockAllocate_post (bread : Z -> Z) (v : ExtendedVCB) (start mn mx : Z) (contig : bool)
    (r : outcome alloc_result) : Prop :=
  match r with
  | Ok (err, v', s, n) => same_layout v v' /\ (
      (* success: free blocks were taken, and the count follows *)
      err = noErr /\ vol_inv v' /\ bread_ok bread v' /\ freeBlocks v' = freeBlocks v - n /\
        (if contig then mn else 1) <= n <= mx /\ taken v (bitmap v') s n \/
      (* no space: nothing changed but the cache *)
      err = dskFulErr /\ s = 0 /\ n = 0 /\ vol_inv v' /\ bitmap v' = bitmap v /\
        (loanedBlocks v = 0 -> if contig then no_contig v start mn v' else free_count v = 0) \/
      (* a bitmap block could not be read: a run is lost *)
      err <> noErr /\ (exists b, err = bread b) /\ freeBlocks v' = freeBlocks v /\
        exists s' n', taken v (bitmap v') s' n')
  | _ => False
  end.

Section BlockAllocate.
Context (bread : Z -> Z) (v : ExtendedVCB) (Hinv : vol_inv v) (Hbr : bread_ok bread v).

(** From the contract of the routine used to that of [BlockAllocate]. *)
Lemma allocate_finish start mn mx (contig : bool) na err v1 s n (upd : bool) :
  1 <= mn ->
  alloc_post bread v (if contig then mn else 1) mx
    (fun v' => if contig then no_contig v start mn v' else free_count v = 0) (Ok (err, v1, s, n)) ->
  na = nextAllocation v1 \/ na = s /\ err = noErr ->
  BlockAllocate_post bread v start mn mx contig
    (let v := set_nextAllocation na v1 in
     if err =? noErr then
       let v := if upd then set_nextAllocation s v else v in
       Ok (err, MarkVCBDirty (set_freeBlocks (u32 (freeBlocks v - n)) v), s, n)
     else Ok (err, v, s, n)).
Proof.
  intros Hmn (cnt & l & m & -> & Hca & Hm & Hkeys & Hcase) Hna. cbv zeta.
  destruct Hcase as [(-> & Hn & Htk)|Hcase].
  - rewrite Z.eqb_refl. split; [by destruct upd|]. left. pose proof Htk as (? & ? & ? & _). pose proof (inv_next v Hinv).
    destruct (alloc_success bread v Hinv Hbr cnt l m s n (if upd then s else na)) as (R1 & R2 & R3);
      try done.
    { destruct upd; [lia|]. destruct Hna as [->|[-> _]]; simpl; lia. }
    destruct upd; split; done.
  - assert (err <> noErr) as He by (destruct Hcase as [(-> & _)|(? & _)]; done).
    rewrite (proj2 (Z.eqb_neq _ _) He). split; [done|]. right.
    destruct Hna as [->|[_ ?]]; [|done].
    change (set_nextAllocation (nextAllocation _) ?x) with x.
    destruct Hcase as [(-> & -> & -> & -> & Hf)|(_ & Hb & Hl)]; [left|by right].
    do 3 (split; [done|]). split; [by apply alloc_full_inv|]. done.
Qed.

Lemma no_contig_count start mn v' :
  0 <= start <= totalBlocks v -> 1 <= mn -> free_count v < mn -> no_contig v start mn v'.
Proof.
  intros Hst Hmn Hc. split; intros s (F1 & F2 & F3);
    pose proof (fits_count v mn s ltac:(lia) ltac:(split; [lia|]; split; [lia|done])); lia.
Qed.

Lemma BlockAllocate_spec start br bm contig :
  let mn := FileBytesToBlocks br (blockSize v) in
  let mx := FileBytesToBlocks bm (blockSize v) in
  let start' := if start =? 0 then nextAllocation v else start in
  0 <= start <= totalBlocks v -> 1 <= mn <= mx -> (contig = true -> vcbFreeExtCnt v = 0) ->
  BlockAllocate_post bread v start' mn mx contig (BlockAllocate bread v start br bm contig).
Proof.
  intros mn mx start' Hst Hmn Hcc. pose proof (geom_total v (inv_geom v Hinv)) as Ht.
  pose proof (free_in_range v Hinv (bitmap v)) as Hr. fold (free_count v) in Hr.
  assert (0 <= start' <= totalBlocks v) as Hst'.
  { unfold start'. pose proof (inv_next v Hinv). case_match; lia. }
  assert (loanedBlocks v = 0 -> hfs_freeblks v false = free_count v) as Hfree.
  { intros E. unfold hfs_freeblks. rewrite E, Z.sub_0_r, (inv_count v Hinv). apply u32_small. lia. }
  assert (forall full : Prop, (loanedBlocks v = 0 -> full) -> vol_inv v /\ bitmap v = bitmap v /\
            (loanedBlocks v = 0 -> full)) as Hsame by done.
  unfold BlockAllocate. fold mn mx. destruct (Z.eqb_spec (hfs_freeblks v false) 0) as [E0|E0].
  { split; [done|]. right; left. do 3 (split; [done|]). apply Hsame. intros Hl. rewrite (Hfree Hl) in E0.
    destruct contig; [|done]. apply no_contig_count; lia. }
  destruct (contig && (hfs_freeblks v false <? mn)) eqn:Ec.
  { apply andb_true_iff in Ec as [-> Ec]. apply Z.ltb_lt in Ec. split; [done|]. right; left.
    do 3 (split; [done|]). apply Hsame. intros Hl. rewrite (Hfree Hl) in Ec. apply no_contig_count; lia. }
  replace (if start =? 0 then (nextAllocation v, true) else (start, false))
    with (start', start =? 0) by (unfold start'; by destruct (start =? 0)).
  destruct contig.
  - pose proof (BlockAllocateContig_spec bread v (inv_geom v Hinv) (inv_mem v Hinv) Hbr start' mn mx
                  (Hcc eq_refl) (inv_cache v Hinv) Hst' Hmn) as H.
    destruct (BlockAllocateContig bread v start' mn mx) as [[[[err v1] s] n]| | |]; try done.
    cbn [mbind outcome_bind].
    pose proof (allocate_finish start' mn mx true
      (if (err =? noErr) && (start' <? s) then s else nextAllocation v1) err v1 s n (start =? 0)
      ltac:(lia) H) as Hfin.
    destruct ((err =? noErr) && (start' <? s)) eqn:Eu.
    + apply andb_true_iff in Eu as [Eu _]. apply Hfin. right. split; [done|]. by apply Z.eqb_eq.
    + assert (set_nextAllocation (nextAllocation v1) v1 = v1) as Hid by (by destruct v1).
      specialize (Hfin ltac:(by left)). cbv zeta in Hfin. rewrite Hid in Hfin. exact Hfin.
  - pose proof (allocate_noncontig_spec bread v (inv_geom v Hinv) (inv_mem v Hinv) (inv_cache v Hinv) Hbr start' mx Hst' ltac:(lia)) as H.
    destruct (allocate_noncontig bread v start' mx) as [[[[err v1] s] n]| | |]; try done.
    cbn [mbind outcome_bind].
    pose proof (allocate_finish start' mn mx false (nextAllocation v1) err v1 s n (start =? 0)
      ltac:(lia) H ltac:(by left)) as Hfin.
    assert (set_nextAllocation (nextAllocation v1) v1 = v1) as Hid by (by destruct v1).
    cbv zeta in Hfin. rewrite Hid in Hfin. exact Hfin.
Qed.
End BlockAllocate.

Section BlockDeallocate.
Context (bread : Z -> Z) (v : ExtendedVCB) (Hinv : vol_inv v) (Hbr : bread_ok bread v).

(** The contract of [BlockDeallocate]: the blocks are freed and counted; it panics
    when one of them is free already. *)
Definition BlockDeallocate_post (s n : Z) (r : outcome (Z * ExtendedVCB)) : Prop :=
  match r with
  | Ok (err, v') => same_layout v v' /\ (
      err = noErr /\ vol_inv v' /\ bread_ok bread v' /\ freeBlocks v' = freeBlocks v + n /\
        run_is v (bitmap v) true s n /\ marked v false (bitmap v) (bitmap v') s n \/
      err <> noErr /\ (exists b, err = bread b) /\ freeBlocks v' = freeBlocks v /\
        exists n', 0 <= n' <= n /\ marked v false (bitmap v) (bitmap v') s n')
  | Panic _ => exists k, s <= k < s + n /\ vol_bit v k = false
  | _ => False
  end.

Lemma cache_ok_freed m s n : marked v false (bitmap v) m s n -> cache_ok (vcb_with v m).
Proof.
  intros Hm. destruct Hinv as [Hg _ [Hl Hc Hf Hs] _ _]. pose proof (geom_total v Hg).
  split; [done|done| |done]. change (cached (vcb_with v m)) with (cached v).
  eapply Forall_impl; [exact Hf|]. intros e (F1 & F2 & F3 & F4).
  split; [done|]. split; [done|]. split; [done|].
  intros k Hk. change (mem_bit v m k = false). rewrite Hm by lia.
  case_match; [done|]. by apply F4.
Qed.

Lemma BlockDeallocate_spec s n :
  0 <= s -> 0 <= n -> s + n <= totalBlocks v ->
  BlockDeallocate_post s n (BlockDeallocate bread v s n).
Proof.
  intros Hs Hn Hsn. pose proof Hinv as [Hg Hm Hca Hnx Hcnt]. pose proof (geom_total v Hg) as Ht.
  unfold BlockDeallocate. destruct (Z.eqb_spec n 0) as [->|Hn0].
  { split; [done|]. left. split; [done|]. split; [done|]. split; [done|]. split; [lia|].
    split; [intros k; lia|apply marked_refl]. }
  pose proof (BlockMark_spec bread v Hg op_free false s n Hm Hs ltac:(lia) Hsn) as H.
  unfold BlockMarkFree. destruct (BlockMark bread op_free v s n) as [[err v1]|msg| |];
    simpl in H; try done; cbn [mbind outcome_bind].
  destruct H as (m & n' & -> & (Hn' & Hrun & Hmk & Hmok & Hkeys) & Hcase).
  destruct Hcase as [[-> ->]|(He & k & _ & Hb)].
  2: { rewrite (proj2 (Z.eqb_neq err noErr)) by done. split; [done|]. right. split; [done|].
       rewrite (bread_s16 bread v Hbr) in Hb. split; [eauto|]. split; [done|]. by exists n'. }
  change (negb (0 =? noErr)) with false. cbv beta iota zeta.
  pose proof (free_in_marked v (bitmap v) m s n false Hs Hn Hsn ltac:(lia) Hrun Hmk) as Hfc.
  pose proof (free_in_range v Hinv m) as Hr. fold (free_count v) in Hfc. rewrite <- Hcnt in Hfc.
  pose proof (cache_ok_freed m s n Hmk) as [? ? ? ?].
  assert (u32 (freeBlocks v + n) = free_in v m 0 (totalBlocks v)) as Hfb
    by (rewrite Hfc; apply u32_small; lia).
  cbn [freeBlocks nextAllocation set_freeBlocks set_nextAllocation vcb_with set_bitmap].
  rewrite (u32_small (s + n)), Hfb by lia.
  split; [by case_match|]. left. split; [done|].
  destruct (Z.eqb_spec (nextAllocation v) (s + n)) as [En|En].
  all: split; [split; [by destruct Hg as [? ? ?]; split|done|by split| |done]|].
  all: try (cbn; lia).
  { cbn. rewrite u32_small; lia. }
  all: split; [|split; [cbn; lia|done]]; intros b; destruct (Hbr b) as [? Hb];
    (split; [done|]); intros E; by apply Hkeys, Hb.
Qed.
End BlockDeallocate.

(** ** Sequences of operations

    Clients own the extents they were given: an allocation adds its extent, a
    deallocation gives an owned one back.  These are the steps in which no read fails,
    with the cache emptied before a contiguous search as [ExtendFileC] does; those of
    AllocationSteps.v are more general. *)
Record alloc_state := AS { as_vol : ExtendedVCB; as_owned : list HFSPlusExtentDescriptor }.

Definition forget_cache (contig : bool) (v : ExtendedVCB) : ExtendedVCB :=
  if contig then set_freeExts 0 (vcbFreeExt v) v else v.

Inductive alloc_step (bread : Z -> Z) : alloc_state -> alloc_state -> Prop :=
| step_allocate v owned start br bm contig v' s n :
    0 <= start <= totalBlocks v ->
    1 <= FileBytesToBlocks br (blockSize v) <= FileBytesToBlocks bm (blockSize v) ->
    BlockAllocate bread (forget_cache contig v) start br bm contig = Ok (noErr, v', s, n) ->
    alloc_step bread (AS v owned) (AS v' (Ext s n :: owned))
| step_no_space v owned start br bm contig v' s n :
    0 <= start <= totalBlocks v ->
    1 <= FileBytesToBlocks br (blockSize v) <= FileBytesToBlocks bm (blockSize v) ->
    BlockAllocate bread (forget_cache contig v) start br bm contig = Ok (dskFulErr, v', s, n) ->
    alloc_step bread (AS v owned) (AS v' owned)
| step_deallocate v l1 e l2 v' :
    BlockDeallocate bread v (startBlock e) (blockCount e) = Ok (noErr, v') ->
    alloc_step bread (AS v (l1 ++ e :: l2)) (AS v' (l1 ++ l2)).

(** Owned extents are in use, and no two of them share a block. *)
Definition ext_used (v : ExtendedVCB) (e : HFSPlusExtentDescriptor) : Prop :=
  0 <= startBlock e /\ 1 <= blockCount e /\ startBlock e + blockCount e <= totalBlocks v /\
  run_is v (bitmap v) true (startBlock e) (blockCount e).
Record alloc_ok (bread : Z -> Z) (a : alloc_state) : Prop := {
  ao_inv : vol_inv (as_vol a);
  ao_bread : bread_ok bread (as_vol a);
  ao_used : Forall (ext_used (as_vol a)) (as_owned a);
  ao_disj : StronglySorted ext_disjoint (as_owned a)
}.

Lemma forget_cache_inv contig v : vol_inv v -> vol_inv (forget_cache contig v).
Proof.
  intros Hinv. destruct contig; [|done]. destruct Hinv as [[? ? ?] ? [? ? ? ?] ? ?].
  split; [by split|done| |done|done]. split; [done|simpl; lia|unfold cached; simpl..]; constructor.
Qed.

Lemma forget_cache_layout contig v v' : same_layout (forget_cache contig v) v' -> same_layout v v'.
Proof. destruct contig; [|done]. intros []. by split. Qed.

(** Marking blocks leaves the extents outside alone. *)
Lemma ext_used_frame v v' val s n e :
  geom_ok v -> same_layout v v' -> marked v val (bitmap v) (bitmap v') s n ->
  val = true \/ ext_disjoint (Ext s n) e -> ext_used v e -> ext_used v' e.
Proof.
  intros Hg Hl Hm Hd (H1 & H2 & H3 & H4). pose proof (geom_total v Hg).
  split; [done|]. split; [done|]. split; [by rewrite (layout_total v v' Hl)|]. intros k Hk.
  rewrite (mem_bit_layout v v') by done. rewrite Hm by lia.
  destruct Hd as [->|Hd]; [case_match; [done|by apply H4]|].
  destruct Hd as [Hd|Hd]; simpl in Hd; case_ztests; by apply H4.
Qed.

Lemma used_disjoint v m s n e : taken v m s n -> 1 <= n -> ext_used v e -> ext_disjoint (Ext s n) e.
Proof.
  intros (T1 & T2 & T3 & T4 & _) Hn (H1 & H2 & H3 & H4). unfold ext_disjoint. simpl.
  destruct (decide (s + n <= startBlock e)); [by left|].
  destruct (decide (startBlock e + blockCount e <= s)); [by right|]. exfalso.
  specialize (T4 (Z.max s (startBlock e)) ltac:(lia)).
  specialize (H4 (Z.max s (startBlock e)) ltac:(lia)). congruence.
Qed.

Lemma alloc_step_ok bread a a' : alloc_step bread a a' -> alloc_ok bread a -> alloc_ok bread a'.
Proof.
  intros Hstep [Hinv Hbr Hu Hd]. destruct Hstep as
    [v owned start br bm contig v' s n Hs Hn Heq|v owned start br bm contig v' s n Hs Hn Heq|v l1 e l2 v' Heq];
    simpl in *.
  3: { apply StronglySorted_app in Hd as (Hd12 & Hd1 & [Hde Hd2]%StronglySorted_cons).
       apply Forall_app in Hu as (Hu1 & [Hue Hu2]%Forall_cons). pose proof Hue as (U1 & U2 & U3 & _).
       pose proof (BlockDeallocate_spec bread v Hinv Hbr (startBlock e) (blockCount e) U1 ltac:(lia) U3) as H. rewrite Heq in H.
       destruct H as [Hl [(_ & Hinv' & Hbr' & _ & _ & Hm)|(? & _)]]; [|done]. split; simpl; [done|done| |].
       - rewrite Forall_forall in *. intros x Hx.
         apply ext_used_frame with v false (startBlock e) (blockCount e); [apply Hinv|done|done| |set_solver].
         right. apply elem_of_app in Hx as [Hx|Hx]; [|by apply Hde].
         apply ext_disjoint_sym, (Hd12 x e); [done|set_solver].
       - apply StronglySorted_app. split; [|done]. intros x y Hx Hy. apply Hd12; set_solver. }
  all: pose proof (BlockAllocate_spec bread (forget_cache contig v) (forget_cache_inv contig v Hinv)) as H;
    specialize (H ltac:(by destruct contig) start br bm contig).
  all: replace (blockSize (forget_cache contig v)) with (blockSize v) in H by (by destruct contig).
  all: replace (totalBlocks (forget_cache contig v)) with (totalBlocks v) in H by (by destruct contig).
  all: specialize (H Hs Hn ltac:(by intros ->)); rewrite Heq in H;
    destruct H as [Hl H]; apply forget_cache_layout in Hl.
  - destruct H as [(_ & Hinv' & Hbr' & _ & Hn' & Htk)|[(? & _)|(? & _)]]; [|done..].
    assert (1 <= n) by (destruct contig; lia).
    assert (taken v (bitmap v') s n) as Htk' by (by destruct contig). pose proof Htk' as (T1 & T2 & T3 & _ & T5).
    split; simpl; [done|done| |].
    + constructor.
      * split; [done|]. split; [done|]. split; [by rewrite (layout_total v v' Hl)|]. intros k Hk. simpl in Hk.
        rewrite (mem_bit_layout v v'), T5 by (done || (pose proof (geom_total v (inv_geom v Hinv)); lia)).
        case_ztests; done.
      * eapply Forall_impl; [exact Hu|]. intros e He.
        apply ext_used_frame with v true s n; [apply Hinv|done|done|by left|done].
    + apply StronglySorted_cons. split; [|done]. eapply Forall_impl; [exact Hu|]. intros e He.
      by apply used_disjoint with v (bitmap v').
  - destruct H as [(? & _)|[(_ & _ & _ & Hinv' & Hbm & _)|(_ & (b & Hb) & _)]]; [done| |].
    2: { exfalso. destruct (Hbr b). unfold dskFulErr in Hb. lia. }
    assert (bitmap v' = bitmap v) as Hbm' by (by destruct contig).
    split; simpl; [done| | |done].
    + intros b. rewrite Hbm'. apply Hbr.
    + eapply Forall_impl; [exact Hu|]. intros e He.
      apply ext_used_frame with v true 0 0; [apply Hinv|done|rewrite Hbm'; apply marked_refl|by left|done].
Qed.
