(* ===== verification/AllocationTheorems.v ===== *)
(** * What the block allocator guarantees

    The theorems on VolumeAllocation.v, each with an evaluation on a small volume:
    100 allocation blocks, a bitmap read in blocks of two words, the first three
    blocks in use. *)
From S2P Require Import Prelude Bits VolumeBitmap VolumeAllocation.

(** ** An example volume *)

Definition ex_bitmap : gmap Z (list Z) :=
  <[0 := [SWAP_BE32 0xE0000000; 0]]> (<[1 := [0; 0]]> ∅).
Definition ex_vol : ExtendedVCB :=
  VCB kHFSPlusSigWord 0 4096 100 97 3 0 8 0 (replicate 10 ext0) 0 0 ex_bitmap.
Definition ex_bread (b : Z) : Z := if (b =? 0) || (b =? 1) then 0 else 5.

Lemma ex_bread_ok : bread_ok ex_bread ex_vol.
Proof.
  intros b. unfold ex_bread. destruct (Z.eqb_spec b 0) as [->|]; [simpl; by split; [lia|eexists]|].
  destruct (Z.eqb_spec b 1) as [->|]; simpl; [by split; [lia|eexists]|]. by split; [lia|].
Qed.

Lemma ex_geom : geom_ok ex_vol.
Proof. split; simpl; [exists 3; simpl; lia|lia|lia]. Qed.

Lemma ex_mem : mem_ok ex_vol (bitmap ex_vol).
Proof.
  split.
  - assert (map_Forall (fun _ ws => Z.of_nat (length ws) = words_per_block ex_vol /\
              Forall (fun w => 0 <= w < 2 ^ 32) ws) (bitmap ex_vol)) as H
      by (apply (bool_decide_unpack _); vm_compute; done).
    exact H.
  - simpl. intros k Hk. rewrite (bitmap_block_eq ex_vol ex_geom) by lia. simpl.
    change (bits_per_block ex_vol) with 64. rewrite Z.add_0_r.
    assert (k / 64 = 0 \/ k / 64 = 1) as [->| ->] by (Z.to_euclidean_division_equations; lia);
      by eexists.
Qed.

Lemma ex_inv : vol_inv ex_vol.
Proof.
  split; [apply ex_geom|apply ex_mem| |simpl; lia|vm_compute; done].
  split; [done|simpl; lia|unfold cached; simpl; constructor..].
Qed.

(** ** Marking runs *)

Lemma BlockMark_decide op val `{!MarkOp op val} bread v s n :
  geom_ok v -> mem_ok v (bitmap v) -> 0 <= s -> 1 <= n -> s + n <= totalBlocks v ->
  (forall k, s <= k < s + n -> bread (bitmap_block v k) = 0) ->
  if bool_decide (Exists (fun k => vol_bit v k = val) (seqZ s n))
  then exists msg, BlockMark bread op v s n = Panic msg
  else exists m, BlockMark bread op v s n = Ok (noErr, vcb_with v m) /\ mem_ok v m /\
    forall k, 0 <= k < 2 ^ 32 ->
      mem_bit v m k = if (s <=? k) && (k <? s + n) then val else vol_bit v k.
Proof.
  intros Hg Hm Hs Hn Hsn Hio. pose proof (BlockMark_spec bread v Hg op val s n Hm Hs Hn Hsn) as H.
  destruct (BlockMark bread op v s n) as [[err v']|msg| |]; try done.
  - destruct H as (m & n' & -> & (Hn' & Hrun & Hmk & Hmok & _) & [[-> ->]|(He & k & Hk & ->)]).
    2: { by rewrite (Hio k Hk) in He. }
    rewrite bool_decide_eq_false_2.
    + exists m. split; [done|]. split; [done|]. exact Hmk.
    + intros (k & Hk%elem_of_seqZ & Hb)%Exists_exists. unfold vol_bit in Hb. rewrite Hrun in Hb by done. by destruct val.
  - destruct H as (k & Hk & Hb). rewrite bool_decide_eq_true_2; [eauto|].
    apply Exists_exists. exists k. split; [by apply elem_of_seqZ|done].
Qed.

(** [BlockMarkAllocated] on a run of the volume always returns or panics.  When
    every bitmap block of the run can be read, it panics exactly when one of the
    blocks is in use already; otherwise it sets the blocks of the run and no other,
    and keeps the bitmap well formed. *)
Theorem BlockMarkAllocated_correct bread v s n :
  geom_ok v -> mem_ok v (bitmap v) -> 0 <= s -> 1 <= n -> s + n <= totalBlocks v ->
  (forall k, s <= k < s + n -> bread (bitmap_block v k) = 0) ->
  if bool_decide (Exists (fun k => vol_bit v k = true) (seqZ s n))
  then exists msg, BlockMarkAllocated bread v s n = Panic msg
  else exists m, BlockMarkAllocated bread v s n = Ok (noErr, vcb_with v m) /\ mem_ok v m /\
    forall k, 0 <= k < 2 ^ 32 ->
      mem_bit v m k = if (s <=? k) && (k <? s + n) then true else vol_bit v k.
Proof. apply (BlockMark_decide op_allocate true). Qed.

Lemma BlockMarkAllocated_witness :
  exists m, BlockMarkAllocated ex_bread ex_vol 60 10 = Ok (noErr, vcb_with ex_vol m) /\
    mem_bit ex_vol m 59 = false /\ mem_bit ex_vol m 64 = true /\ mem_bit ex_vol m 70 = false.
Proof.
  pose proof (BlockMarkAllocated_correct ex_bread ex_vol 60 10 ex_geom ex_mem) as H.
  specialize (H ltac:(lia) ltac:(lia) ltac:(simpl; lia)).
  assert (forall k, 60 <= k < 60 + 10 -> ex_bread (bitmap_block ex_vol k) = 0) as Hio.
  { intros k Hk. rewrite (bitmap_block_eq ex_vol ex_geom) by lia. simpl. rewrite Z.add_0_r.
    change (bits_per_block ex_vol) with 64. unfold ex_bread.
    assert (k / 64 = 0 \/ k / 64 = 1) as [->| ->] by (Z.to_euclidean_division_equations; lia); done. }
  specialize (H Hio). destruct H as (m & Heq & _ & Hb). exists m. split; [exact Heq|].
  rewrite !Hb by lia. done.
Defined.

(** [BlockMarkFree] likewise panics exactly when a block of the run is free
    already, and otherwise clears the blocks of the run and no other. *)
Theorem BlockMarkFree_correct bread v s n :
  geom_ok v -> mem_ok v (bitmap v) -> 0 <= s -> 1 <= n -> s + n <= totalBlocks v ->
  (forall k, s <= k < s + n -> bread (bitmap_block v k) = 0) ->
  if bool_decide (Exists (fun k => vol_bit v k = false) (seqZ s n))
  then exists msg, BlockMarkFree bread v s n = Panic msg
  else exists m, BlockMarkFree bread v s n = Ok (noErr, vcb_with v m) /\ mem_ok v m /\
    forall k, 0 <= k < 2 ^ 32 ->
      mem_bit v m k = if (s <=? k) && (k <? s + n) then false else vol_bit v k.
Proof. apply (BlockMark_decide op_free false). Qed.

Lemma BlockMarkFree_witness :
  exists m, BlockMarkFree ex_bread ex_vol 1 2 = Ok (noErr, vcb_with ex_vol m) /\
    mem_bit ex_vol m 0 = true /\ mem_bit ex_vol m 1 = false.
Proof.
  pose proof (BlockMarkFree_correct ex_bread ex_vol 1 2 ex_geom ex_mem) as H.
  specialize (H ltac:(lia) ltac:(lia) ltac:(simpl; lia)).
  assert (forall k, 1 <= k < 1 + 2 -> ex_bread (bitmap_block ex_vol k) = 0) as Hio.
  { intros k Hk. assert (k = 1 \/ k = 2) as [->| ->] by lia; done. }
  specialize (H Hio). destruct H as (m & Heq & _ & Hb). exists m. split; [exact Heq|].
  rewrite !Hb by lia. done.
Defined.

(** ** Searching *)

(** [BlockFindContiguous] finds the first run of [mn] free blocks in the range
    and as many blocks of it as there are up to [mx]; it reports a full disk only
    when there is no such run, and otherwise the error of a read that failed.  It
    changes nothing but the free extent cache, which stays sorted, disjoint and
    made of free extents. *)
Theorem BlockFindContiguous_correct bread v lo hi mn mx :
  geom_ok v -> mem_ok v (bitmap v) -> bread_ok bread v -> cache_ok v -> cache_outside v lo hi ->
  0 <= lo <= hi -> hi <= totalBlocks v -> 1 <= mn <= mx ->
  contig_post bread v lo hi mn mx (BlockFindContiguous bread v lo hi mn mx).
Proof. intros. by apply BlockFindContiguous_spec. Qed.

Lemma BlockFindContiguous_witness :
  exists v' s n, BlockFindContiguous ex_bread ex_vol 0 100 5 20 = Ok (noErr, v', s, n) /\
    first_fit ex_vol 0 100 5 20 s n /\ s = 3 /\ n = 20.
Proof.
  pose proof (BlockFindContiguous_correct ex_bread ex_vol 0 100 5 20 ex_geom ex_mem ex_bread_ok
                (inv_cache _ ex_inv)) as H.
  specialize (H ltac:(constructor) ltac:(lia) ltac:(simpl; lia) ltac:(lia)).
  assert (BlockFindContiguous ex_bread ex_vol 0 100 5 20 = Ok (noErr, ex_vol, 3, 20)) as E
    by (vm_compute; reflexivity).
  rewrite E in *. exists ex_vol, 3, 20. split; [done|]. split; [|done].
  destruct H as [(_ & H & _)|([[H _]|(k & _ & _ & H)] & _)]; [exact H|discriminate H|by destruct H].
Defined.

(** The insertion of a free extent into the cache array, done in place by moving
    smaller extents down, is the insertion into a list of at most ten extents sorted
    by size. *)
Theorem cache_insertion_correct v s n :
  cache_ok v ->
  cached (cache_free_extent v s n) = take 10 (insert_ext (Ext s n) (cached v)) /\
  length (vcbFreeExt (cache_free_extent v s n)) = 10%nat /\
  bitmap (cache_free_extent v s n) = bitmap v.
Proof.
  intros Hok. destruct (cache_free_extent_refines v s n Hok) as (cnt & l & -> & Hl & _ & Ht).
  split; [exact Ht|]. split; [exact Hl|done].
Qed.

Lemma cache_insertion_witness :
  cached (cache_free_extent ex_vol 50 4) = [Ext 50 4].
Proof.
  destruct (cache_insertion_correct ex_vol 50 4 (inv_cache _ ex_inv)) as [H _]. rewrite H. reflexivity.
Defined.

(** ** The entry points *)

(** C1: [BlockAllocate] on a volume in good order (bitmap, cache of free extents, allocation
    pointer, count of free blocks), for at least one block; for a contiguous run only while
    the cache is empty, as its one caller ExtendFileC leaves it: on success it has taken a
    run of free blocks that lies in the volume, at least [mn] of them when a contiguous run
    was asked for and never more than [mx], the count of free blocks goes down by their
    number, and the volume is in good order again.  It says that the disk is full without
    changing the bitmap, and then (with no blocks on loan) no block is free, or no run of
    [mn] blocks in the parts before and after the starting block.  Otherwise the error is
    that of a read. *)
Theorem BlockAllocate_correct bread v start br bm contig :
  let mn := FileBytesToBlocks br (blockSize v) in
  let mx := FileBytesToBlocks bm (blockSize v) in
  vol_inv v -> bread_ok bread v -> 0 <= start <= totalBlocks v -> 1 <= mn <= mx ->
  (contig = true -> vcbFreeExtCnt v = 0) ->
  BlockAllocate_post bread v (if start =? 0 then nextAllocation v else start) mn mx contig
    (BlockAllocate bread v start br bm contig).
Proof. intros mn mx Hinv Hbr. by apply BlockAllocate_spec. Qed.

Lemma BlockAllocate_witness :
  exists v', BlockAllocate ex_bread ex_vol 0 40000 80000 true = Ok (noErr, v', 3, 20) /\
    vol_inv v' /\ taken ex_vol (bitmap v') 3 20 /\ freeBlocks v' = 77.
Proof.
  pose proof (BlockAllocate_correct ex_bread ex_vol 0 40000 80000 true ex_inv ex_bread_ok
                ltac:(simpl; lia) ltac:(vm_compute; split; discriminate) ltac:(done)) as H.
  destruct (BlockAllocate ex_bread ex_vol 0 40000 80000 true) as [[[[err v'] s] n]| | |] eqn:E;
    [|discriminate E..].
  assert (err = 0 /\ s = 3 /\ n = 20) as (-> & -> & ->)
    by (vm_compute in E; injection E as <- _ <- <-; done).
  destruct H as [_ [(_ & Hi & _ & Hf & _ & Ht)|[(H & _)|(H & _)]]];
    [|discriminate H|by destruct H].
  exists v'. split; [done|]. split; [exact Hi|]. split; [exact Ht|exact Hf].
Defined.

(** C16: [BlockDeallocate] of a run of the volume frees exactly its blocks, counts
    them and keeps the volume in good order; it panics only when one of them is free
    already, and returns the error of a read that failed. *)
Theorem BlockDeallocate_correct bread v s n :
  vol_inv v -> bread_ok bread v -> 0 <= s -> 0 <= n -> s + n <= totalBlocks v ->
  BlockDeallocate_post bread v s n (BlockDeallocate bread v s n).
Proof. intros. by apply BlockDeallocate_spec. Qed.

Lemma BlockDeallocate_witness :
  exists v', BlockDeallocate ex_bread ex_vol 0 3 = Ok (noErr, v') /\ vol_inv v' /\
    freeBlocks v' = 100 /\ nextAllocation v' = 0.
Proof.
  pose proof (BlockDeallocate_correct ex_bread ex_vol 0 3 ex_inv ex_bread_ok
                ltac:(lia) ltac:(lia) ltac:(simpl; lia)) as H.
  destruct (BlockDeallocate ex_bread ex_vol 0 3) as [[err v']| | |] eqn:E; [|discriminate E..].
  assert (err = 0 /\ nextAllocation v' = 0) as (-> & Hn)
    by (vm_compute in E; injection E as <- <-; done).
  destruct H as [_ [(_ & Hi & _ & Hf & _)|(H & _)]]; [|by destruct H].
  exists v'. split; [done|]. split; [exact Hi|]. split; [exact Hf|exact Hn].
Defined.

(** Giving an allocation back restores the volume: the same blocks are free as
    before, and the count of free blocks is the same. *)
Theorem allocate_deallocate bread v start br bm contig v' s n v'' :
  vol_inv v -> bread_ok bread v -> 0 <= start <= totalBlocks v ->
  1 <= FileBytesToBlocks br (blockSize v) <= FileBytesToBlocks bm (blockSize v) ->
  (contig = true -> vcbFreeExtCnt v = 0) ->
  BlockAllocate bread v start br bm contig = Ok (noErr, v', s, n) ->
  BlockDeallocate bread v' s n = Ok (noErr, v'') ->
  freeBlocks v'' = freeBlocks v /\ forall k, 0 <= k < 2 ^ 32 -> vol_bit v'' k = vol_bit v k.
Proof.
  intros Hinv Hbr Hst Hmn Hc E1 E2.
  pose proof (BlockAllocate_spec bread v Hinv Hbr start br bm contig Hst Hmn Hc) as H1. rewrite E1 in H1.
  destruct H1 as [Hl [(_ & Hinv' & Hbr' & Hf & _ & (T1 & T2 & T3 & T4 & T5))|[(? & _)|(? & _)]]]; [|done..].
  pose proof (BlockDeallocate_spec bread v' Hinv' Hbr' s n T1 T2) as H2. rewrite E2 in H2.
  destruct H2 as [Hl2 [(_ & _ & _ & Hf2 & _ & Hm)|(? & _)]]; [by rewrite (layout_total v v' Hl)| |done].
  split; [lia|]. intros k Hk. unfold vol_bit.
  rewrite (mem_bit_layout v' v''), Hm, !(mem_bit_layout v v'), T5 by done.
  case_ztests; try done. symmetry. apply T4. lia.
Qed.

Lemma allocate_deallocate_witness :
  exists v' v'', BlockAllocate ex_bread ex_vol 60 40000 40000 false = Ok (noErr, v', 60, 10) /\
    BlockDeallocate ex_bread v' 60 10 = Ok (noErr, v'') /\ freeBlocks v'' = 97.
Proof.
  destruct (BlockAllocate ex_bread ex_vol 60 40000 40000 false) as [[[[err v'] s] n]| | |] eqn:E1;
    [|discriminate E1..].
  assert (err = 0 /\ s = 60 /\ n = 10) as (-> & -> & ->)
    by (vm_compute in E1; injection E1 as <- _ <- <-; done).
  destruct (BlockDeallocate ex_bread v' 60 10) as [[err v'']| | |] eqn:E2.
  2-4: vm_compute in E1; injection E1 as <-; discriminate E2.
  assert (err = 0) as -> by (vm_compute in E1; injection E1 as <-; vm_compute in E2; by injection E2 as <-).
  exists v', v''. split; [done|]. split; [done|].
  exact (proj1 (allocate_deallocate ex_bread ex_vol 60 40000 40000 false v' 60 10 v'' ex_inv ex_bread_ok
    ltac:(simpl; lia) ltac:(vm_compute; split; discriminate) ltac:(done) E1 E2)).
Defined.

(** ** Bytes and blocks *)

(** Below 4 GB [FileBytesToBlocks] is the number of blocks that hold the bytes:
    the quotient rounded up. *)
Theorem FileBytesToBlocks_correct numerator denominator :
  0 <= numerator < 2 ^ 32 -> 1 <= denominator < 2 ^ 32 ->
  FileBytesToBlocks numerator denominator = (numerator + denominator - 1) / denominator.
Proof.
  intros Hn Hd. unfold FileBytesToBlocks. rewrite Z.quot_div_nonneg by lia.
  pose proof (Z.div_mod numerator denominator ltac:(lia)) as E.
  pose proof (Z.mod_pos_bound numerator denominator ltac:(lia)) as Hm.
  set (q := numerator / denominator) in *. set (r := numerator mod denominator) in *.
  assert (0 <= q <= numerator) by nia. rewrite !(u32_small q), u32_small by nia.
  destruct (Z.eqb_spec (q * denominator) numerator) as [Ez|Ez].
  - apply (Z.div_unique _ _ _ (denominator - 1)); lia.
  - rewrite u32_small by nia. apply (Z.div_unique _ _ _ (r - 1)); nia.
Qed.

Lemma FileBytesToBlocks_witness : FileBytesToBlocks 4097 4096 = 2 /\ FileBytesToBlocks 8192 4096 = 2.
Proof.
  split; (rewrite FileBytesToBlocks_correct by lia); reflexivity.
Defined.

(** From 4 GB on, the 32-bit product in [FileBytesToBlocks] is never equal to the
    64-bit byte count, so that an exact multiple of the block size is rounded up by
    one block too many. *)
Theorem FileBytesToBlocks_overflow blocks denominator :
  1 <= denominator < 2 ^ 32 -> 0 <= blocks < 2 ^ 32 - 1 -> 2 ^ 32 <= blocks * denominator ->
  FileBytesToBlocks (blocks * denominator) denominator = blocks + 1.
Proof.
  intros Hd Hb Hp. unfold FileBytesToBlocks. rewrite Z.quot_mul by lia.
  rewrite (u32_small blocks) by lia. rewrite (proj2 (Z.eqb_neq _ _)).
  - apply u32_small. lia.
  - pose proof (u32_range (blocks * denominator)). lia.
Qed.

Lemma FileBytesToBlocks_overflow_witness : FileBytesToBlocks (2 ^ 32) 4096 = 2 ^ 20 + 1.
Proof.
  exact (FileBytesToBlocks_overflow (2 ^ 20) 4096 ltac:(lia) ltac:(lia) ltac:(lia)).
Defined.

(** A contiguous allocation does not look at the cache: an entry that it allocates from stays
    there, and the next allocation takes the same blocks, which is a panic. *)
Lemma contig_stale_cache :
  exists v', BlockAllocate ex_bread (set_freeExts 1 (Ext 3 97 :: replicate 9 ext0) ex_vol) 0 40000 80000 true = Ok (noErr, v', 3, 20) /\
    exists msg, BlockAllocate ex_bread v' 0 8000 8000 false = Panic msg.
Proof. eexists. split; [vm_compute; reflexivity|]. eexists. vm_compute. reflexivity. Qed.
