(* ===== verification/AllocationSteps.v ===== *)
(** * Sequences of allocations and deallocations

    The volume and the extents its clients own, under every sequence of the operations of
    VolumeAllocation.c: they may fail, also because a block of the bitmap cannot be read,
    and which reads fail may differ from one call to the next. *)
From S2P Require Import Prelude Bits VolumeBitmap VolumeAllocation AllocationTheorems.

(** A volume in good order but for the count of free blocks, which is wrong once a read
    has failed in the middle of an operation. *)
Record vol_order (v : ExtendedVCB) : Prop := {
  ord_geom : geom_ok v;
  ord_mem : mem_ok v (bitmap v);
  ord_cache : cache_ok v;
  ord_next : 0 <= nextAllocation v <= totalBlocks v
}.

Lemma vol_inv_order v : vol_inv v <-> vol_order v /\ freeBlocks v = free_count v.
Proof. split; [intros []; split; [by split|done]|intros [[] ?]; by split]. Qed.

(** The volume after an allocation, whatever its pointer, its count and its dirty flag. *)
Lemma vol_order_after v cnt l m na fb dirty :
  vol_order v -> cache_ok (set_freeExts cnt l (vcb_with v m)) -> mem_ok v m -> 0 <= na <= totalBlocks v ->
  let v1 := set_nextAllocation na (set_freeExts cnt l (vcb_with v m)) in
  let v2 := set_freeBlocks fb v1 in
  vol_order (if dirty : bool then MarkVCBDirty v2 else v2).
Proof. intros [[? ? ?] ? ? ?] [? ? ? ?] ? ?. destruct dirty; (split; [by split|done|by split|done]). Qed.

Definition allocated (v : ExtendedVCB) (r : outcome alloc_result) : Prop :=
  match r with
  | Ok (err, v', s, n) => same_layout v v' /\ vol_order v' /\
      (err = noErr /\ 1 <= n /\ taken v (bitmap v') s n \/
       err = dskFulErr /\ bitmap v' = bitmap v \/
       err <> noErr /\ err <> dskFulErr /\ exists s' n', taken v (bitmap v') s' n')
  | _ => False
  end.

Section calls.
Context (bread : Z -> Z) (v : ExtendedVCB) (Hord : vol_order v) (Hbr : bread_ok bread v).

Lemma allocated_finish mn mx P na err v1 s n (upd : bool) : 1 <= mn ->
  alloc_post bread v mn mx P (Ok (err, v1, s, n)) ->
  na = nextAllocation v1 \/ na = s /\ err = noErr ->
  allocated v
    (let v := set_nextAllocation na v1 in
     if err =? noErr then
       let v := if upd then set_nextAllocation s v else v in
       Ok (err, MarkVCBDirty (set_freeBlocks (u32 (freeBlocks v - n)) v), s, n)
     else Ok (err, v, s, n)).
Proof.
  intros Hmn (cnt & l & m & -> & Hca & Hm & _ & Hcase) Hna. cbv zeta. pose proof (ord_next v Hord) as Hnx.
  assert (err = noErr -> 0 <= s <= totalBlocks v) as Hs.
  { intros ->. destruct Hcase as [(_ & _ & ? & ? & ? & _)|[(? & _)|(? & _)]]; [lia|done..]. }
  assert (0 <= na <= totalBlocks v) as Hna' by (destruct Hna as [->|[-> He]]; [done|by apply Hs]).
  destruct (Z.eqb_spec err noErr) as [->|He].
  - destruct Hcase as [(_ & Hn & Htk)|[(? & _)|(? & _)]]; [|done..]. split; [by destruct upd|].
    split; [|left; split_and!; [done|lia|by destruct upd]].
    destruct upd; [apply (vol_order_after v cnt l m s _ true)|apply (vol_order_after v cnt l m na _ true)]; auto.
  - split; [done|]. split; [exact (vol_order_after v cnt l m na (freeBlocks v) false Hord Hca Hm Hna')|]. right.
    destruct Hcase as [(? & _)|[(-> & _ & _ & -> & _)|(_ & (b & ->) & Ht)]]; [done|by left|right].
    split_and!; [done|by apply (bread_errno bread v Hbr)|done].
Qed.

(** [BlockAllocate] needs no count that is right. *)
Lemma BlockAllocate_ordered start br bm contig :
  0 <= start <= totalBlocks v ->
  1 <= FileBytesToBlocks br (blockSize v) <= FileBytesToBlocks bm (blockSize v) -> (contig = true -> vcbFreeExtCnt v = 0) ->
  allocated v (BlockAllocate bread v start br bm contig).
Proof.
  intros Hst Hmn Hcc. unfold BlockAllocate. cbv zeta. set (mn := FileBytesToBlocks br _) in *. set (mx := FileBytesToBlocks bm _) in *.
  pose proof Hord as [Hg Hok Hca Hnx].
  assert (allocated v (Ok (dskFulErr, v, 0, 0))) as Hfull by (split; [done|]; split; [done|right; by left]).
  destruct (hfs_freeblks v false =? 0); [done|]. destruct (contig && _); [done|].
  set (start' := if start =? 0 then nextAllocation v else start).
  replace (if start =? 0 then (nextAllocation v, true) else (start, false))
    with (start', start =? 0) by (unfold start'; by destruct (start =? 0)).
  assert (0 <= start' <= totalBlocks v) as Hst' by (unfold start'; case_match; lia).
  destruct contig.
  - pose proof (BlockAllocateContig_spec bread v Hg Hok Hbr start' mn mx (Hcc eq_refl) Hca Hst' Hmn) as H.
    destruct (BlockAllocateContig bread v start' mn mx) as [[[[err v1] s] n]| | |]; try done.
    cbn [mbind outcome_bind].
    pose proof (allocated_finish mn mx _ (if (err =? noErr) && (start' <? s) then s else nextAllocation v1) err v1 s n (start =? 0)
      ltac:(lia) H) as Hfin.
    destruct ((err =? noErr) && (start' <? s)) eqn:Eu.
    + apply andb_true_iff in Eu as [Eu _]. apply Hfin. right. split; [done|]. by apply Z.eqb_eq.
    + specialize (Hfin ltac:(by left)). cbv zeta in Hfin. by replace (set_nextAllocation (nextAllocation v1) v1) with v1 in Hfin by (by destruct v1).
  - pose proof (allocate_noncontig_spec bread v Hg Hok Hca Hbr start' mx Hst' ltac:(lia)) as H.
    destruct (allocate_noncontig bread v start' mx) as [[[[err v1] s] n]| | |]; try done. cbn [mbind outcome_bind].
    pose proof (allocated_finish 1 mx _ (nextAllocation v1) err v1 s n (start =? 0) ltac:(lia) H ltac:(by left)) as Hfin.
    cbv zeta in Hfin. by replace (set_nextAllocation (nextAllocation v1) v1) with v1 in Hfin by (by destruct v1).
Qed.

Definition deallocated (s n : Z) (r : outcome (Z * ExtendedVCB)) : Prop :=
  match r with
  | Ok (err, v') => same_layout v v' /\ vol_order v' /\
      exists n', 0 <= n' <= n /\ (err = noErr -> n' = n) /\ marked v false (bitmap v) (bitmap v') s n'
  | _ => False
  end.

Lemma cache_ok_unmarked m s n : marked v false (bitmap v) m s n -> cache_ok (vcb_with v m).
Proof.
  intros Hm. destruct Hord as [Hg _ [Hl Hc Hf Hs] _]. pose proof (geom_total v Hg).
  split; [done|done| |done]. change (cached (vcb_with v m)) with (cached v).
  eapply Forall_impl; [exact Hf|]. intros e (F1 & F2 & F3 & F4). split_and!; [done..|].
  intros k Hk. change (mem_bit v m k = false). rewrite Hm by lia. case_match; [done|]. by apply F4.
Qed.

Lemma BlockDeallocate_ordered s n : 0 <= s -> 0 <= n -> s + n <= totalBlocks v -> run_is v (bitmap v) true s n ->
  deallocated s n (BlockDeallocate bread v s n).
Proof.
  intros Hs Hn Hsn Hrun. pose proof Hord as [Hg Hm Hca Hnx]. pose proof (geom_total v Hg) as Ht.
  unfold BlockDeallocate. destruct (Z.eqb_spec n 0) as [->|Hn0].
  { split; [done|]. split; [done|]. exists 0. split_and!; [lia..|]. apply marked_refl. }
  pose proof (BlockMark_spec bread v Hg op_free false s n Hm Hs ltac:(lia) Hsn) as H.
  unfold BlockMarkFree. destruct (BlockMark bread op_free v s n) as [[err v1]|msg| |]; simpl in H; try done.
  2: { destruct H as (k & Hk & Hb). specialize (Hrun k Hk). unfold vol_bit in Hb. congruence. }
  cbn [mbind outcome_bind]. destruct H as (m & n' & -> & (Hn' & _ & Hmk & Hmok & _) & Hcase).
  pose proof (cache_ok_unmarked m s n' Hmk) as [? ? ? ?].
  destruct Hcase as [[-> ->]|(He & _)].
  - change (negb (0 =? noErr)) with false. cbv beta iota zeta.
    split; [by case_match|]. split; [|exists n; split_and!; [lia..|by case_match]].
    destruct Hg as [? ? ?]. cbn [nextAllocation set_freeBlocks vcb_with set_bitmap]. rewrite (u32_small (s + n)) by lia.
    destruct (Z.eqb_spec (nextAllocation v) (s + n)); (split; [by split|done|by split|]); [cbn; rewrite u32_small; lia|done].
  - rewrite (proj2 (Z.eqb_neq err noErr)) by done. split; [done|]. destruct Hg as [? ? ?].
    split; [split; [by split|done|by split|done]|]. exists n'. split_and!; [lia|lia|intros ->; by destruct He|exact Hmk].
Qed.
End calls.

(** ** The steps *)

(** [run_exact]: no read has failed so far. *)
Record run_state := RS { run_vol : ExtendedVCB; run_owned : list HFSPlusExtentDescriptor; run_exact : bool }.

(** A client adds the extent it got, and gives up one that it returns, also if that fails.
    [step_reset] is what [ExtendFileC] does before it allocates; it has a contiguous
    allocation only with an empty cache. *)
Inductive run_step : run_state -> run_state -> Prop :=
| step_reset v owned exact : run_step (RS v owned exact) (RS (set_freeExts 0 (vcbFreeExt v) v) owned exact)
| step_alloc bread v owned exact start br bm contig err v' s n :
    bread_ok bread v -> 0 <= start <= totalBlocks v ->
    1 <= FileBytesToBlocks br (blockSize v) <= FileBytesToBlocks bm (blockSize v) -> (contig = true -> vcbFreeExtCnt v = 0) ->
    BlockAllocate bread v start br bm contig = Ok (err, v', s, n) ->
    run_step (RS v owned exact)
      (RS v' (if err =? noErr then Ext s n :: owned else owned) (exact && ((err =? noErr) || (err =? dskFulErr))))
| step_dealloc bread v l1 e l2 exact err v' :
    bread_ok bread v -> BlockDeallocate bread v (startBlock e) (blockCount e) = Ok (err, v') ->
    run_step (RS v (l1 ++ e :: l2) exact) (RS v' (l1 ++ l2) (exact && (err =? noErr))).

Record run_ok (a : run_state) : Prop := {
  ro_order : vol_order (run_vol a);
  ro_count : run_exact a = true -> freeBlocks (run_vol a) = free_count (run_vol a);
  ro_used : Forall (ext_used (run_vol a)) (run_owned a);
  ro_disj : StronglySorted ext_disjoint (run_owned a)
}.

(** The operations return: no panic, and no access outside the bitmap. *)
Definition calls_return (a : run_state) : Prop :=
  forall bread, bread_ok bread (run_vol a) ->
  (forall start br bm contig, 0 <= start <= totalBlocks (run_vol a) ->
     1 <= FileBytesToBlocks br (blockSize (run_vol a)) <= FileBytesToBlocks bm (blockSize (run_vol a)) ->
     (contig = true -> vcbFreeExtCnt (run_vol a) = 0) ->
     exists r, BlockAllocate bread (run_vol a) start br bm contig = Ok r) /\
  (forall e, e ∈ run_owned a -> exists r, BlockDeallocate bread (run_vol a) (startBlock e) (blockCount e) = Ok r).

Lemma run_ok_returns a : run_ok a -> calls_return a.
Proof.
  intros [Ho _ Hu _] bread Hbr. split.
  - intros start br bm contig Hs Hmn Hc. pose proof (BlockAllocate_ordered bread _ Ho Hbr start br bm contig Hs Hmn Hc) as H.
    destruct (BlockAllocate _ _ _ _ _ _); [by eexists|done..].
  - intros e He. rewrite Forall_forall in Hu. destruct (Hu e He) as (? & ? & ? & ?).
    pose proof (BlockDeallocate_ordered bread _ Ho (startBlock e) (blockCount e) ltac:(lia) ltac:(lia) ltac:(lia) ltac:(done)). destruct (BlockDeallocate _ _ _ _); [by eexists|done..].
Qed.

(** A run that was taken is new to all owners. *)
Lemma take_owned v v' owned s n : geom_ok v -> same_layout v v' -> taken v (bitmap v') s n -> 1 <= n ->
  Forall (ext_used v) owned -> StronglySorted ext_disjoint owned ->
  Forall (ext_used v') (Ext s n :: owned) /\ StronglySorted ext_disjoint (Ext s n :: owned).
Proof.
  intros Hg Hl Htk Hn Hu Hd. pose proof Htk as (T1 & T2 & T3 & _ & T5). pose proof (geom_total v Hg). split; [constructor|].
  - split_and!; [done..|by rewrite (layout_total v v' Hl)|]. intros k Hk. simpl in Hk.
    rewrite (mem_bit_layout v v'), T5 by (done || lia). case_ztests; done.
  - eapply Forall_impl; [exact Hu|]. intros e He. by apply ext_used_frame with v true s n; [..|left|].
  - apply StronglySorted_cons. split; [|done]. eapply Forall_impl; [exact Hu|]. intros e He. by apply used_disjoint with v (bitmap v').
Qed.

Lemma give_owned v v' l1 e l2 n' : geom_ok v -> same_layout v v' ->
  0 <= n' <= blockCount e -> marked v false (bitmap v) (bitmap v') (startBlock e) n' ->
  Forall (ext_used v) (l1 ++ e :: l2) -> StronglySorted ext_disjoint (l1 ++ e :: l2) ->
  Forall (ext_used v') (l1 ++ l2) /\ StronglySorted ext_disjoint (l1 ++ l2).
Proof.
  intros Hg Hl Hn' Hm Hu Hd. apply StronglySorted_app in Hd as (Hd12 & Hd1 & [Hde Hd2]%StronglySorted_cons).
  apply Forall_app in Hu as (Hu1 & [Hue Hu2]%Forall_cons). split.
  - rewrite Forall_forall in *. intros x Hx. apply ext_used_frame with v false (startBlock e) n'; [done..| |set_solver]. right.
    assert (ext_disjoint e x) as Hx'.
    { apply elem_of_app in Hx as [Hx|Hx]; [|by apply Hde]. apply ext_disjoint_sym, (Hd12 x e); [done|set_solver]. }
    unfold ext_disjoint in *. simpl. lia.
  - apply StronglySorted_app. split; [|done]. intros x y Hx Hy. apply Hd12; set_solver.
Qed.

Lemma run_step_ok a a' : run_step a a' -> run_ok a -> run_ok a'.
Proof.
  intros Hstep [Ho Hc Hu Hd]. destruct Hstep as
    [v owned exact|bread v owned exact start br bm contig err v' s n Hbr Hs Hmn Hcc Heq|bread v l1 e l2 exact err v' Hbr Heq]; simpl in *.
  - split; simpl; [|done|done|done]. destruct Ho as [[? ? ?] ? [? ? ? ?] ?].
    split; [by split|done| |done]. split; [done|simpl; lia|unfold cached; simpl..]; constructor.
  - pose proof (BlockAllocate_ordered bread v Ho Hbr start br bm contig Hs Hmn Hcc) as H. rewrite Heq in H.
    destruct H as (Hl & Ho' & H). split; simpl; [done| |..].
    + intros [He Hb]%andb_true_iff. pose proof (proj2 (vol_inv_order v) (conj Ho (Hc He))) as Hinv.
      pose proof (BlockAllocate_spec bread v Hinv Hbr start br bm contig Hs Hmn Hcc) as H2. rewrite Heq in H2.
      destruct H2 as [_ [(_ & Hi & _)|[(_ & _ & _ & Hi & _)|(He' & (b & ->) & _)]]]; [by apply vol_inv_order in Hi as []..|].
      apply orb_true_iff in Hb as [Hb|Hb]; apply Z.eqb_eq in Hb; [done|]. by destruct (bread_errno bread v Hbr b).
    + destruct H as [(-> & Hn & Ht)|[(-> & Hb)|(He & _ & s' & n' & Ht)]].
      * by apply (take_owned v v' owned s n (ord_geom v Ho)).
      * simpl. eapply Forall_impl; [exact Hu|]. intros e He.
        apply ext_used_frame with v true 0 0; [apply Ho|done|rewrite Hb; apply marked_refl|by left|done].
      * rewrite (proj2 (Z.eqb_neq _ _) He). eapply Forall_impl; [exact Hu|]. intros e Hu'.
        apply ext_used_frame with v true s' n'; [apply Ho|done|apply Ht|by left|done].
    + destruct H as [(-> & Hn & Ht)|[(-> & Hb)|(He & _)]]; [by apply (take_owned v v' owned s n (ord_geom v Ho))|done|].
      by rewrite (proj2 (Z.eqb_neq _ _) He).
  - assert (ext_used v e) as (U1 & U2 & U3 & U4) by (rewrite Forall_forall in Hu; apply Hu; set_solver).
    pose proof (BlockDeallocate_ordered bread v Ho (startBlock e) (blockCount e) U1 ltac:(lia) U3 U4) as H. rewrite Heq in H.
    destruct H as (Hl & Ho' & n' & Hn' & _ & Hm).
    destruct (give_owned v v' l1 e l2 n' (ord_geom v Ho) Hl Hn' Hm Hu Hd) as [??]. split; simpl; [done| |done|done].
    intros [He ->%Z.eqb_eq]%andb_true_iff. pose proof (proj2 (vol_inv_order v) (conj Ho (Hc He))) as Hinv.
    pose proof (BlockDeallocate_spec bread v Hinv Hbr (startBlock e) (blockCount e) U1 ltac:(lia) U3) as H2. rewrite Heq in H2.
    destruct H2 as [_ [(_ & Hi & _)|(? & _)]]; [by apply vol_inv_order in Hi as []|done].
Qed.

Lemma run_steps_ok a a' : rtc run_step a a' -> run_ok a -> run_ok a'.
Proof. induction 1 as [|a a1 a2 Hs _ IH]; [done|]. intros Ha. by apply IH, run_step_ok with a. Qed.

(** C2: over every sequence of allocations and of deallocations of owned extents, with any
    reads of the bitmap failing in any of them, no block is handed out twice: every owned
    extent is in use and no two of them share a block.  The bitmap, the cache of free extents
    and the allocation pointer stay in good order, the count of free blocks is right as long
    as no read has failed, and no call panics or reaches outside the bitmap.  A contiguous
    allocation is a step only when the cache is empty, and emptying it is a step of its own,
    as in the one caller, ExtendFileC. *)
Theorem alloc_steps_safe a a' : rtc run_step a a' -> run_ok a -> run_ok a' /\ calls_return a'.
Proof. intros Hs Ha. pose proof (run_steps_ok a a' Hs Ha) as H. by split; [|apply run_ok_returns]. Qed.

(** An allocation of twenty blocks in one run, one of two, and a deallocation that fails
    because the bitmap cannot be read. *)
Lemma alloc_steps_witness :
  exists v', run_ok (RS v' [Ext 23 2] false) /\ calls_return (RS v' [Ext 23 2] false).
Proof.
  assert (run_ok (RS ex_vol [] true)) as H0.
  { pose proof (proj1 (vol_inv_order ex_vol) ex_inv) as [? ?]. by split; [..|constructor|constructor]. }
  eexists. eapply alloc_steps_safe; [|exact H0].
  eapply rtc_l; [apply step_reset|].
  eapply rtc_l; [eapply (step_alloc ex_bread _ [] true 0 40000 80000 true 0 _ 3 20);
    [exact ex_bread_ok|simpl; lia|vm_compute; split; discriminate|done|vm_compute; reflexivity]|].
  eapply rtc_l; [eapply (step_alloc ex_bread _ [Ext 3 20] _ 0 8000 8000 false 0 _ 23 2);
    [|simpl; lia|vm_compute; split; discriminate|done|vm_compute; reflexivity]|].
  - intros b. unfold ex_bread. destruct (Z.eqb_spec b 0) as [->|]; [simpl; by split; [lia|eexists]|].
    destruct (Z.eqb_spec b 1) as [->|]; simpl; [by split; [lia|eexists]|]. by split; [lia|].
  - eapply rtc_l; [eapply (step_dealloc (fun _ => 5) _ [Ext 23 2] (Ext 3 20) [] _ 5);
      [intros b; by split; [lia|]|vm_compute; reflexivity]|].
    apply rtc_refl.
Defined.
