(* ===== verification/ExtentMapping.v ===== *)
(** * Extent mapping and file growth

    hfsplus/hfscommon/Misc/FileExtentMapping.c: the blocks of a fork are listed as extents,
    the first of them in the record of the fork itself ([fcbExtents]), the others in records
    of the extents file.  Here are the routines that map, extend and truncate forks, on top
    of the allocator (VolumeAllocation.v) and of an interface [ExtentsFile] to the records
    of the extents file, which ExtentRecords.v implements with the B-tree.  *)
From S2P Require Import Prelude Bits VolumeBitmap VolumeAllocation.

Definition kHFSSigWord : Z := 0x4244.
Definition fxRangeErr : Z := -32767 + 16.
Definition fxOvFlErr : Z := -32767 + 17.
Definition btNotFound : Z := -32767 + 32.
Definition fileBoundsErr : Z := -1309.
Definition fsDSIntErr : Z := -127.
Definition kHFSExtentDensity : Z := 3.
Definition kHFSPlusExtentDensity : Z := 8.
Definition kHFSPlusExtentKeyMaximumLength : Z := 10.
Definition kHFSExtentKeyMaximumLength : Z := 7.
Definition kDataForkType : Z := 0.
Definition kResourceForkType : Z := 0xFF.
Definition kHFSExtentsFileID : Z := 3.
Definition kNoHint : Z := 0.
Definition kTwoGigabytes : Z := 0x80000000.
Definition HFS_MAX_DEFERED_ALLOC : Z := 1024 * 1024.
Definition kEFAllMask : Z := 0x01.
Definition kEFContigMask : Z := 0x02.
Definition kEFReserveMask : Z := 0x04.
Definition kEFDeferMask : Z := 0x08.
Definition kEFNoClumpMask : Z := 0x10.

(** ** Data *)

Abbreviation extents := (list HFSPlusExtentDescriptor).

Record HFSPlusExtentKey := mkExtentKey {
  xk_keyLength : Z;
  xk_forkType : Z;
  xk_pad : Z;
  xk_fileID : Z;
  xk_startBlock : Z
}.

(** A fork ([struct filefork], hfsplus/hfs_cnode.h) with the fields of its cnode that are
    used: [c_fileid], [c_blocks], whether it is the resource fork, and the flag
    [C_MODIFIED]. *)
Record filefork := mkFork {
  fcbExtents : extents;
  ff_size : Z;
  ff_blocks : Z;
  ff_unallocblocks : Z;
  fcbClmpSize : Z;
  c_fileid : Z;
  c_blocks : Z;
  is_rsrc : bool;
  c_modified : bool
}.

Definition forkType (fcb : filefork) : Z := if is_rsrc fcb then kResourceForkType else kDataForkType.
Definition set_extents (fcb : filefork) (e : extents) (modified : bool) : filefork :=
  mkFork e (ff_size fcb) (ff_blocks fcb) (ff_unallocblocks fcb) (fcbClmpSize fcb) (c_fileid fcb) (c_blocks fcb)
    (is_rsrc fcb) modified.
Definition set_blocks (fcb : filefork) (blocks unalloc cblocks : Z) (modified : bool) : filefork :=
  mkFork (fcbExtents fcb) (ff_size fcb) (u32 blocks) (u32 unalloc) (fcbClmpSize fcb) (c_fileid fcb) (u32 cblocks)
    (is_rsrc fcb) modified.
(** [ff_blocks += n], [c_blocks += n] and [c_flag |= C_MODIFIED] *)
Definition add_blocks (fcb : filefork) (n : Z) : filefork :=
  set_blocks fcb (ff_blocks fcb + n) (ff_unallocblocks fcb) (c_blocks fcb + n) true.

(** [foundData\[i\] = e] *)
Definition set_ext (d : extents) (i : Z) (e : HFSPlusExtentDescriptor) : extents := <[Z.to_nat i := e]> d.
Definition no_extents : extents := replicate 8 ext0.

Definition numberOfExtents (vcb : ExtendedVCB) : Z :=
  if vcbSigWord vcb =? kHFSPlusSigWord then kHFSPlusExtentDensity else kHFSExtentDensity.

Definition set_loaned (x : Z) (v : ExtendedVCB) : ExtendedVCB :=
  VCB (vcbSigWord v) (vcbFlags v) (blockSize v) (totalBlocks v) (freeBlocks v)
      (nextAllocation v) (vcbVBMSt v) (vcbVBMIOSize v) (vcbFreeExtCnt v) (vcbFreeExt v)
      (reserveBlocks v) (u32 x) (bitmap v).

(** ** The extents file

    The volume with its extents file, and the routines that read and change the records:
    [FindExtentRecord], [CreateExtentRecord], [DeleteExtentRecord], the part of
    [UpdateExtentRecord] for a record of the file, and [BTFlushPath] with the test of the
    cnode of the extents file in [FlushExtentFile]. *)
Class ExtentsFile (X : Type) := {
  xf_vcb : X -> ExtendedVCB;
  xf_set : X -> ExtendedVCB -> X;
  xf_find : X -> Z -> Z -> Z -> bool -> outcome (Z * option (HFSPlusExtentKey * extents) * Z * X);
  xf_create : X -> HFSPlusExtentKey -> extents -> outcome (Z * Z * X);
  xf_delete : X -> Z -> Z -> Z -> outcome (Z * X);
  xf_update : X -> HFSPlusExtentKey -> extents -> Z -> outcome (Z * X);
  xf_flush : X -> outcome (Z * X);
  xf_modified : X -> bool
}.

(** ** Searching *)

(** The loop of [SearchExtentRecord]: found, index, end of the extent. *)
Fixpoint search_extents (n : nat) (i searchFABN endingFABNPlusOne : Z) (extentData : extents) : bool * Z * Z :=
  match n with
  | O => (false, i, endingFABNPlusOne)
  | S n =>
      let numAllocationBlocks := blockCount (ext_at extentData i) in
      if numAllocationBlocks =? 0 then (false, i, endingFABNPlusOne)
      else
        let endingFABNPlusOne := u32 (endingFABNPlusOne + numAllocationBlocks) in
        if searchFABN <? endingFABNPlusOne then (true, i, endingFABNPlusOne)
        else search_extents n (i + 1) searchFABN endingFABNPlusOne extentData
  end.

(** The error, the index, the end and [noMoreExtents]. *)
Definition SearchExtentRecord (vcb : ExtendedVCB) (searchFABN : Z) (extentData : extents) (extentDataStartFABN : Z)
    : Z * Z * Z * bool :=
  let n := numberOfExtents vcb in
  let '(foundExtent, extentIndex, endingFABNPlusOne) :=
    search_extents (Z.to_nat n) 0 searchFABN extentDataStartFABN extentData in
  if (foundExtent : bool) then (noErr, extentIndex, endingFABNPlusOne, false)
  else (fxRangeErr, if 0 <? extentIndex then extentIndex - 1 else 0, endingFABNPlusOne, extentIndex <? n).

(** What a search returns: [foundExtentKey] (with length 0 for the record of the fork),
    [foundExtentData], the index, the hint and [endingFABNPlusOne]. *)
Record Location := mkLocation {
  loc_key : HFSPlusExtentKey;
  loc_data : extents;
  loc_index : Z;
  loc_hint : Z;
  loc_ending : Z
}.

Definition resident_key : HFSPlusExtentKey := mkExtentKey 0 0 0 0 0.

Section mapping.
Context {X : Type} `{!ExtentsFile X}.

Definition SearchExtentFile (x : X) (fcb : filefork) (filePosition : Z) : outcome (Z * Location * X) :=
  let vcb := xf_vcb x in
  let filePositionBlock := u32 (Z.quot filePosition (blockSize vcb)) in
  let foundExtentData := fcbExtents fcb in
  let '(err, index, ending, noMoreExtents) := SearchExtentRecord vcb filePositionBlock foundExtentData 0 in
  let resident := mkLocation resident_key foundExtentData index kNoHint ending in
  if err =? noErr then Ok (noErr, resident, x)
  else if (noMoreExtents : bool) then Ok (fxRangeErr, resident, x)
  else
    '(err, found, hint, x) ← xf_find x (forkType fcb) (c_fileid fcb) filePositionBlock true;
    if err =? btNotFound then Ok (fxRangeErr, resident, x)
    else if negb (err =? noErr) then Ok (err, mkLocation resident_key foundExtentData index hint ending, x)
    else
      '(key, data) ← of_option found;
      let '(err, index, ending, _) := SearchExtentRecord vcb filePositionBlock data (xk_startBlock key) in
      Ok (err, mkLocation key data index hint ending, x).

(** Where the volume starts, and its sectors: [hfs_phys_block_size], [hfsPlusIOPosOffset]
    and [vcbAlBlSt]. *)
Record device := mkDevice { sectorSize : Z; hfsPlusIOPosOffset : Z; vcbAlBlSt : Z }.

(** The error, [*startSector] and [*availableBytes]. *)
Definition MapFileBlockC (dev : device) (x : X) (fcb : filefork) (numberOfBytes offset : Z)
    : outcome (Z * option (Z * Z) * X) :=
  let vcb := xf_vcb x in
  let allocBlockSize := blockSize vcb in
  '(err, loc, x) ← SearchExtentFile x fcb offset;
  if negb (err =? noErr) then Ok (err, None, x)
  else
    let e := ext_at (loc_data loc) (loc_index loc) in
    let nextFABN := loc_ending loc in
    let firstFABN := u32 (nextFABN - blockCount e) in
    let dataEnd := nextFABN * allocBlockSize in
    let dataEnd := if ff_blocks fcb * allocBlockSize <? dataEnd then ff_blocks fcb * allocBlockSize else dataEnd in
    let sectorsPerBlock := allocBlockSize / sectorSize dev in
    let temp := Z.quot (offset - firstFABN * allocBlockSize) (sectorSize dev) in
    let temp := temp + u32 (startBlock e * sectorsPerBlock) in
    let temp := temp + (if vcbSigWord vcb =? kHFSPlusSigWord then hfsPlusIOPosOffset dev / sectorSize dev
                        else vcbAlBlSt dev) in
    let tmpOff := dataEnd - offset in
    Ok (noErr, Some (temp, if s64 numberOfBytes <? tmpOff then numberOfBytes else u64 tmpOff), x).

Definition UpdateExtentRecord (x : X) (fcb : filefork) (extentFileKey : HFSPlusExtentKey) (extentData : extents)
    (extentBTreeHint : Z) : outcome (Z * filefork * X) :=
  if xk_keyLength extentFileKey =? 0 then Ok (noErr, set_extents fcb extentData true, x)
  else '(err, x) ← xf_update x extentFileKey extentData extentBTreeHint; Ok (err, fcb, x).

Definition FlushExtentFile (x : X) : outcome (Z * X) :=
  '(err, x) ← xf_flush x;
  Ok (err, if (err =? noErr) && xf_modified x then xf_set x (MarkVCBDirty (xf_vcb x)) else x).

(** ** Releasing *)

Section allocating.
(** The error of reading a block of the bitmap. *)
Context (bread : Z -> Z).

(** The loop of [ReleaseExtents]: the error, the number of blocks and [releasedLastExtent]. *)
Fixpoint release_extents (n : nat) (i numReleased : Z) (x : X) (extentRecord : extents)
    : outcome (Z * Z * bool * X) :=
  match n with
  | O => Ok (noErr, numReleased, false, x)
  | S n =>
      let numAllocationBlocks := blockCount (ext_at extentRecord i) in
      if numAllocationBlocks =? 0 then Ok (noErr, numReleased, true, x)
      else
        '(err, vcb) ← BlockDeallocate bread (xf_vcb x) (startBlock (ext_at extentRecord i)) numAllocationBlocks;
        let x := xf_set x vcb in
        if negb (err =? noErr) then Ok (err, numReleased, false, x)
        else release_extents n (i + 1) (u32 (numReleased + numAllocationBlocks)) x extentRecord
  end.
Definition ReleaseExtents (x : X) (extentRecord : extents) : outcome (Z * Z * bool * X) :=
  release_extents (Z.to_nat (numberOfExtents (xf_vcb x))) 0 0 x extentRecord.

(** One turn of the loop for each record deleted. *)
Fixpoint TruncateExtents (fuel : nat) (x : X) (forkType fileID startBlock : Z) (recordDeleted : bool)
    : outcome (Z * bool * X) :=
  match fuel with
  | O => Diverge
  | S fuel =>
      '(err, found, _, x) ← xf_find x forkType fileID startBlock false;
      if negb (err =? noErr) then Ok (if err =? btNotFound then noErr else err, recordDeleted, x)
      else
        '(_, extents) ← of_option found;
        '(err, numberExtentsReleased, _, x) ← ReleaseExtents x extents;
        if negb (err =? noErr) then Ok (err, recordDeleted, x)
        else
          '(err, x) ← xf_delete x forkType fileID startBlock;
          if negb (err =? noErr) then Ok (err, recordDeleted, x)
          else TruncateExtents fuel x forkType fileID (u32 (startBlock + numberExtentsReleased)) true
  end.

Definition DeallocateFork (fuel : nat) (x : X) (fileID forkType : Z) (catalogExtents : extents) (recordDeleted : bool)
    : outcome (Z * bool * X) :=
  '(err, numReleasedAllocationBlocks, releasedLastExtent, x) ← ReleaseExtents x catalogExtents;
  if (err =? noErr) && negb releasedLastExtent
  then TruncateExtents fuel x forkType fileID numReleasedAllocationBlocks recordDeleted
  else Ok (err, recordDeleted, x).

(** ** Extending *)

(** The blocks of a fork that are promised only are given back to the volume. *)
Definition return_unallocated (x : X) (fcb : filefork) : filefork * X :=
  let n := ff_unallocblocks fcb in
  (set_blocks fcb (ff_blocks fcb - n) 0 (c_blocks fcb - n) (c_modified fcb),
   xf_set x (set_loaned (loanedBlocks (xf_vcb x) - n) (xf_vcb x))).

(** [BlockAllocate], within the reserve of the volume if that is to be kept. *)
Definition allocate_extent (x : X) (flags startBlock bytesToAdd maximumBytes : Z) (wantContig : bool)
    : outcome (Z * Z * Z * X) :=
  let vcb := xf_vcb x in
  if negb (Z.land flags kEFReserveMask =? 0) then
    let availbytes := hfs_freeblks vcb true * blockSize vcb in
    if (availbytes <=? 0) || (wantContig && (availbytes <? bytesToAdd)) then Ok (dskFulErr, 0, 0, x)
    else
      '(err, vcb, actualStartBlock, actualNumBlocks) ←
        BlockAllocate bread vcb startBlock (Z.min bytesToAdd availbytes) (Z.min maximumBytes availbytes) wantContig;
      Ok (err, actualStartBlock, actualNumBlocks, xf_set x vcb)
  else
    '(err, vcb, actualStartBlock, actualNumBlocks) ← BlockAllocate bread vcb startBlock bytesToAdd maximumBytes wantContig;
    Ok (err, actualStartBlock, actualNumBlocks, xf_set x vcb).

(** A record of its own for an extent that does not fit into the last one. *)
Definition new_record (x : X) (fcb : filefork) (nextBlock : Z) (e : HFSPlusExtentDescriptor)
    : outcome (Z * HFSPlusExtentKey * extents * Z * X) :=
  let foundKey := mkExtentKey kHFSPlusExtentKeyMaximumLength (forkType fcb) 0 (c_fileid fcb) nextBlock in
  let foundData := e :: replicate 7 ext0 in
  '(err, hint, x) ← xf_create x foundKey foundData;
  if err =? fxOvFlErr then
    '(_, vcb) ← BlockDeallocate bread (xf_vcb x) (startBlock e) (blockCount e);
    Ok (dskFulErr, foundKey, foundData, hint, xf_set x vcb)
  else Ok (err, foundKey, foundData, hint, x).

(** The new extent added to the list: it continues the last one, or gets an entry of the
    last record or of a new one.  [needsFlush] is set for a new record. *)
Definition add_extent (x : X) (fcb : filefork) (loc : Location) (blockHint startBlock : Z) (e : HFSPlusExtentDescriptor)
    (nextBlock : Z) (needsFlush : bool) : outcome (Z * filefork * Location * bool * X) :=
  let d := loc_data loc in
  let last := ext_at d (loc_index loc) in
  if (VolumeBitmap.startBlock e =? startBlock) && (blockHint =? 0) then
    let d := set_ext d (loc_index loc) (Ext (VolumeBitmap.startBlock last) (u32 (blockCount last + blockCount e))) in
    '(err, fcb, x) ← UpdateExtentRecord x fcb (loc_key loc) d (loc_hint loc);
    Ok (err, fcb, mkLocation (loc_key loc) d (loc_index loc) (loc_hint loc) (loc_ending loc), needsFlush, x)
  else
    let foundIndex := if negb (blockCount last =? 0) then loc_index loc + 1 else loc_index loc in
    if foundIndex =? numberOfExtents (xf_vcb x) then
      if c_fileid fcb =? kHFSExtentsFileID then
        '(_, vcb) ← BlockDeallocate bread (xf_vcb x) (VolumeBitmap.startBlock e) (blockCount e);
        Ok (dskFulErr, fcb, mkLocation (loc_key loc) d foundIndex (loc_hint loc) (loc_ending loc), needsFlush, xf_set x vcb)
      else
        '(err, key, d, hint, x) ← new_record x fcb nextBlock e;
        Ok (err, fcb, mkLocation key d 0 hint (loc_ending loc), if err =? noErr then true else needsFlush, x)
    else
      let d := set_ext d foundIndex e in
      '(err, fcb, x) ← UpdateExtentRecord x fcb (loc_key loc) d (loc_hint loc);
      Ok (err, fcb, mkLocation (loc_key loc) d foundIndex (loc_hint loc) (loc_ending loc), needsFlush, x).

(** The loop that allocates.  A turn tries for one extent that is large enough, and is
    then repeated for what can be had, or it adds an extent. *)
Fixpoint extend_loop (fuel : nat) (x : X) (fcb : filefork) (loc : Location)
    (flags blockHint nextBlock bytesToAdd maximumBytes : Z) (wantContig needsFlush : bool)
    : outcome (Z * filefork * bool * X) :=
  match fuel with
  | O => Diverge
  | S fuel =>
      let last := ext_at (loc_data loc) (loc_index loc) in
      let startBlock := if negb (blockHint =? 0) then blockHint else u32 (VolumeBitmap.startBlock last + blockCount last) in
      let forceContig := negb (Z.land flags kEFContigMask =? 0) in
      '(err, actualStartBlock, actualNumBlocks, x) ← allocate_extent x flags startBlock bytesToAdd maximumBytes wantContig;
      if (err =? dskFulErr) && forceContig then Ok (err, fcb, needsFlush, x)
      else if (err =? dskFulErr) && wantContig then
        if bytesToAdd =? 0 then Ok (noErr, fcb, needsFlush, x)
        else extend_loop fuel x fcb loc flags blockHint nextBlock bytesToAdd maximumBytes false needsFlush
      else
        let err := if (err =? dskFulErr) && negb (actualNumBlocks =? 0) then noErr else err in
        if negb (err =? noErr) then Ok (err, fcb, needsFlush, x)
        else
          '(err, fcb, loc, needsFlush, x) ←
            add_extent x fcb loc blockHint startBlock (Ext actualStartBlock actualNumBlocks) nextBlock needsFlush;
          if negb (err =? noErr) then Ok (err, fcb, needsFlush, x)
          else
            let volumeBlockSize := blockSize (xf_vcb x) in
            let nextBlock := u32 (nextBlock + actualNumBlocks) in
            let bytesThisExtent := actualNumBlocks * volumeBlockSize in
            let '(bytesToAdd, maximumBytes) :=
              if bytesToAdd <? bytesThisExtent then (0, maximumBytes)
              else (bytesToAdd - bytesThisExtent, maximumBytes - bytesThisExtent) in
            let fcb := add_blocks fcb (Z.quot bytesThisExtent volumeBlockSize) in
            if forceContig then Ok (if bytesToAdd =? 0 then noErr else dskFulErr, fcb, needsFlush, x)
            else if bytesToAdd =? 0 then Ok (noErr, fcb, needsFlush, x)
            else extend_loop fuel x fcb loc flags blockHint nextBlock bytesToAdd maximumBytes wantContig needsFlush
  end.

(** [Exit]: the error, [*actualBytesAdded], the fork and the volume. *)
Definition extend_exit (x : X) (fcb : filefork) (prevblocks : Z) (needsFlush : bool) (err : Z)
    : outcome (Z * Z * filefork * X) :=
  let actualBytesAdded := u32 (ff_blocks fcb - prevblocks) * blockSize (xf_vcb x) in
  '(_, x) ← (if needsFlush then FlushExtentFile x else Ok (noErr, x));
  Ok (err, actualBytesAdded, fcb, x).

(** From the search for the blocks the fork has already. *)
Definition extend_search (x : X) (fcb : filefork) (prevblocks bytesToAdd maximumBytes blockHint flags : Z)
    : outcome (Z * Z * filefork * X) :=
  let volumeBlockSize := blockSize (xf_vcb x) in
  let peof := ff_blocks fcb * volumeBlockSize + bytesToAdd in
  '(err, loc, x) ← SearchExtentFile x fcb (peof - 1);
  if err =? noErr then
    let fcb := set_blocks fcb (Z.quot peof volumeBlockSize) (ff_unallocblocks fcb)
                 (c_blocks fcb + Z.quot bytesToAdd volumeBlockSize) true in
    extend_exit x fcb prevblocks false noErr
  else if negb (err =? fxRangeErr) then extend_exit x fcb prevblocks false err
  else
    let nextBlock := loc_ending loc in
    let bytesThisExtent := u32 (nextBlock - ff_blocks fcb) * volumeBlockSize in
    let '(fcb, bytesToAdd) :=
      if negb (bytesThisExtent =? 0) then
        (set_blocks fcb nextBlock (ff_unallocblocks fcb) (c_blocks fcb + Z.quot bytesThisExtent volumeBlockSize) true,
         bytesToAdd - bytesThisExtent)
      else (fcb, bytesToAdd) in
    let x := xf_set x (set_freeExts 0 (vcbFreeExt (xf_vcb x)) (xf_vcb x)) in
    '(err, fcb, needsFlush, x) ←
      extend_loop (S (S (Z.to_nat (bytesToAdd / volumeBlockSize)))) x fcb loc flags blockHint nextBlock bytesToAdd maximumBytes
        true false;
    extend_exit x fcb prevblocks needsFlush err.

Definition ExtendFileC (x : X) (fcb : filefork) (bytesToAdd blockHint flags : Z) : outcome (Z * Z * filefork * X) :=
  let vcb := xf_vcb x in
  let volumeBlockSize := blockSize vcb in
  let allOrNothing := negb (Z.land flags kEFAllMask =? 0) in
  let prevblocks := ff_blocks fcb in
  let hfs := vcbSigWord vcb =? kHFSSigWord in
  if hfs && ((kTwoGigabytes <=? bytesToAdd) || (kTwoGigabytes <=? ff_blocks fcb * volumeBlockSize + bytesToAdd)) then
    extend_exit x fcb prevblocks false fileBoundsErr
  else
    let blocksToAdd := FileBytesToBlocks bytesToAdd volumeBlockSize in
    let bytesToAdd := blocksToAdd * volumeBlockSize in
    if negb (Z.land flags kEFDeferMask =? 0) && (vcbSigWord vcb =? kHFSPlusSigWord) &&
       (bytesToAdd <? HFS_MAX_DEFERED_ALLOC) && (blocksToAdd <? hfs_freeblks vcb true) then
      Ok (noErr, bytesToAdd,
          set_blocks fcb (ff_blocks fcb + blocksToAdd) (ff_unallocblocks fcb + blocksToAdd) (c_blocks fcb + blocksToAdd) true,
          xf_set x (set_loaned (loanedBlocks vcb + blocksToAdd) vcb))
    else
      let blocksToAdd := blocksToAdd + ff_unallocblocks fcb in
      let bytesToAdd := blocksToAdd * volumeBlockSize in
      let '(fcb, x) := if 0 <? ff_unallocblocks fcb then return_unallocated x fcb else (fcb, x) in
      let maximumBytes :=
        if (volumeBlockSize <? fcbClmpSize fcb) && (bytesToAdd <? HFS_MAX_DEFERED_ALLOC) &&
           (Z.land flags kEFNoClumpMask =? 0)
        then FileBytesToBlocks bytesToAdd (fcbClmpSize fcb) * fcbClmpSize fcb else bytesToAdd in
      let tooBig := hfs && (kTwoGigabytes <=? ff_blocks fcb * volumeBlockSize + bytesToAdd) in
      if tooBig && allOrNothing then extend_exit x fcb prevblocks false fileBoundsErr
      else
        let '(blocksToAdd, bytesToAdd) :=
          if tooBig then (blocksToAdd - 1, bytesToAdd - volumeBlockSize) else (blocksToAdd, bytesToAdd) in
        if allOrNothing && (hfs_freeblks (xf_vcb x) (negb (Z.land flags kEFReserveMask =? 0)) <? blocksToAdd) then
          extend_exit x fcb prevblocks false dskFulErr
        else extend_search x fcb prevblocks bytesToAdd maximumBytes blockHint flags.

(** ** Truncating *)

(** The extents behind the last that is kept, in its record. *)
Fixpoint truncate_record (n : nat) (x : X) (d : extents) (i nextBlock : Z) (changed : bool)
    : outcome (Z * extents * Z * bool * X) :=
  match n with
  | O => Ok (noErr, d, nextBlock, changed, x)
  | S n =>
      let e := ext_at d i in
      if blockCount e =? 0 then Ok (noErr, d, nextBlock, changed, x)
      else
        '(err, vcb) ← BlockDeallocate bread (xf_vcb x) (startBlock e) (blockCount e);
        let x := xf_set x vcb in
        if negb (err =? noErr) then Ok (err, d, nextBlock, changed, x)
        else truncate_record n x (set_ext d i ext0) (i + 1) (u32 (nextBlock + blockCount e)) true
  end.

(** The last extent that is kept, cut where the fork is to end. *)
Definition shorten_extent (x : X) (loc : Location) (nextBlock : Z) : outcome (Z * extents * bool * X) :=
  let d := loc_data loc in
  let e := ext_at d (loc_index loc) in
  let numBlocks := u32 (loc_ending loc - nextBlock) in
  if numBlocks =? 0 then Ok (noErr, d, false, x)
  else
    '(err, vcb) ← BlockDeallocate bread (xf_vcb x) (u32 (startBlock e + blockCount e - numBlocks)) numBlocks;
    let x := xf_set x vcb in
    if negb (err =? noErr) then Ok (err, d, false, x)
    else
      let count := u32 (blockCount e - numBlocks) in
      Ok (noErr, set_ext d (loc_index loc) (Ext (if count =? 0 then 0 else startBlock e) count), true, x).

Definition truncate_exit (x : X) (fcb : filefork) (recordDeleted : bool) (err : Z) : outcome (Z * filefork * X) :=
  '(_, x) ← (if recordDeleted then FlushExtentFile x else Ok (noErr, x)); Ok (err, fcb, x).

(** The records behind the one that was changed. *)
Definition truncate_rest (fuel : nat) (x : X) (fcb : filefork) (nextBlock physNumBlocks err : Z)
    : outcome (Z * filefork * X) :=
  '(err, recordDeleted, x) ←
    (if nextBlock <? physNumBlocks then TruncateExtents fuel x (forkType fcb) (c_fileid fcb) nextBlock false
     else Ok (err, false, x));
  truncate_exit x fcb recordDeleted err.

(** A fork that keeps blocks: from the search for the last of them. *)
Definition truncate_to (fuel : nat) (x : X) (fcb : filefork) (nextBlock physNumBlocks : Z) (truncateToExtent : bool)
    : outcome (Z * filefork * X) :=
  '(err, loc, x) ← SearchExtentFile x fcb (nextBlock * blockSize (xf_vcb x) - 1);
  if negb (err =? noErr) then truncate_exit x fcb false err
  else
    '(err, d, changed, x) ← (if truncateToExtent then Ok (noErr, loc_data loc, false, x) else shorten_extent x loc nextBlock);
    if negb (err =? noErr) then truncate_exit x fcb false err
    else
      let i := loc_index loc + 1 in
      '(err, d, nextBlock, changed, x) ←
        truncate_record (Z.to_nat (numberOfExtents (xf_vcb x) - i)) x d i (loc_ending loc) changed;
      if negb (err =? noErr) then truncate_exit x fcb false err
      else
        '(err, fcb, x) ← (if (changed : bool) then UpdateExtentRecord x fcb (loc_key loc) d (loc_hint loc) else Ok (noErr, fcb, x));
        if negb (err =? noErr) then truncate_exit x fcb false err
        else
          truncate_rest fuel x fcb nextBlock physNumBlocks err.

Definition TruncateFileC (fuel : nat) (x : X) (fcb : filefork) (peof : Z) (truncateToExtent : bool)
    : outcome (Z * filefork * X) :=
  let vcb := xf_vcb x in
  let physNumBlocks := ff_blocks fcb in
  let nextBlock := FileBytesToBlocks peof (blockSize vcb) in
  let peof := nextBlock * blockSize vcb in
  if (vcbSigWord vcb =? kHFSSigWord) && (kTwoGigabytes <=? peof) then truncate_exit x fcb false fileBoundsErr
  else
    let numBlocks := u32 (Z.quot peof (blockSize vcb)) in
    let fcb := set_blocks fcb numBlocks (ff_unallocblocks fcb) (c_blocks fcb - u32 (ff_blocks fcb - numBlocks)) true in
    if peof =? 0 then
      '(err, recordDeleted, x) ← DeallocateFork fuel x (c_fileid fcb) (forkType fcb) (fcbExtents fcb) false;
      truncate_exit x (if err =? noErr then set_extents fcb no_extents (c_modified fcb) else fcb) recordDeleted err
    else truncate_to fuel x fcb nextBlock physNumBlocks truncateToExtent.

End allocating.

(** ** Nodes of a B-tree file *)

(** The result, [*blocksChecked] and [*checkedLastExtent]. *)
Fixpoint integral_extents (n : nat) (i mask blocksChecked : Z) (extentRecord : extents) : bool * Z * bool :=
  match n with
  | O => (true, blocksChecked, false)
  | S n =>
      let blocks := blockCount (ext_at extentRecord i) in
      if blocks =? 0 then (true, blocksChecked, true)
      else
        let blocksChecked := u32 (blocksChecked + blocks) in
        if negb (Z.land blocks mask =? 0) then (false, blocksChecked, false)
        else integral_extents n (i + 1) mask blocksChecked extentRecord
  end.
Definition ExtentsAreIntegral (extentRecord : extents) (mask : Z) : bool * Z * bool :=
  integral_extents 8 0 mask 0 extentRecord.

(** The loop over the records of the extents file. *)
Fixpoint contiguous_loop (fuel : nat) (x : X) (fcb : filefork) (mask startBlock : Z) : outcome (bool * X) :=
  match fuel with
  | O => Diverge
  | S fuel =>
      '(result, found, _, x) ← xf_find x kDataForkType (c_fileid fcb) startBlock false;
      if negb (result =? noErr) then Ok (true, x)
      else
        '(_, extents) ← of_option found;
        let '(integral, blocksChecked, lastExtentReached) := ExtentsAreIntegral extents mask in
        if negb integral then Ok (false, x)
        else if (lastExtentReached : bool) then Ok (true, x)
        else contiguous_loop fuel x fcb mask (u32 (startBlock + blocksChecked))
  end.

Definition NodesAreContiguous (fuel : nat) (x : X) (fcb : filefork) (nodeSize : Z) : outcome (bool * X) :=
  let vcb := xf_vcb x in
  if nodeSize <=? blockSize vcb then Ok (true, x)
  else
    let mask := u32 (nodeSize / blockSize vcb - 1) in
    let '(integral, blocksChecked, lastExtentReached) := ExtentsAreIntegral (fcbExtents fcb) mask in
    if negb integral then Ok (false, x)
    else if (lastExtentReached : bool) || (ff_size fcb <=? blocksChecked * blockSize vcb) then Ok (true, x)
    else contiguous_loop fuel x fcb mask blocksChecked.

End mapping.
