(* ===== verification/ExtentTheorems.v ===== *)
(** * Forks as lists of extents

    The list of all extents of a fork is the abstraction of its records: the one of the
    fork and those of the extents file.  The theorems say what the routines of
    ExtentMapping.v do to that list, for every implementation of the extents file that
    keeps the laws of its interface. *)
From S2P Require Import Prelude Bits VolumeBitmap VolumeAllocation AllocationTheorems ExtentMapping.

(** ** Lists of extents *)

Definition total (l : extents) : Z := foldr (fun e n => blockCount e + n) 0 l.

(** The block of the volume that is block [b] of the fork. *)
Fixpoint map_block (l : extents) (b : Z) : option Z :=
  match l with
  | [] => None
  | e :: l => if b <? blockCount e then Some (startBlock e + b) else map_block l (b - blockCount e)
  end.

Definition nonempty (e : HFSPlusExtentDescriptor) : Prop := 1 <= blockCount e.
Definition ext_range (e : HFSPlusExtentDescriptor) : Prop := 0 <= startBlock e < 2 ^ 32 /\ 1 <= blockCount e < 2 ^ 32.

Lemma ext_total_app l1 l2 : total (l1 ++ l2) = total l1 + total l2.
Proof. induction l1 as [|e l1 IH]; simpl; [done|]. rewrite IH. lia. Qed.

Lemma ext_total_nonneg l : Forall nonempty l -> 0 <= total l.
Proof. unfold nonempty. induction 1; simpl; lia. Qed.

Lemma map_block_app l1 l2 b : Forall nonempty l1 -> total l1 <= b -> map_block (l1 ++ l2) b = map_block l2 (b - total l1).
Proof.
  intros Hl. revert b. induction Hl as [|e l1 He Hl IH]; simpl; intros b Hb; [f_equal; lia|].
  pose proof (ext_total_nonneg l1 Hl). case_ztest; [lia|]. rewrite IH by lia. f_equal. lia.
Qed.

Lemma map_block_app_l l1 l2 b : Forall nonempty l1 -> 0 <= b < total l1 -> map_block (l1 ++ l2) b = map_block l1 b.
Proof.
  intros Hl. revert b. induction Hl as [|e l1 He Hl IH]; simpl; intros b Hb; [lia|].
  case_ztest; [done|]. apply IH. lia.
Qed.

Lemma map_block_beyond l b : Forall nonempty l -> total l <= b -> map_block l b = None.
Proof. intros. rewrite <- (app_nil_r l). by rewrite map_block_app. Qed.

(** Block [b] lies in extent [e], which [l1] precedes. *)
Lemma map_block_in l1 e l2 b : Forall nonempty l1 -> total l1 <= b < total l1 + blockCount e ->
  map_block (l1 ++ e :: l2) b = Some (startBlock e + (b - total l1)).
Proof. intros. rewrite map_block_app by (done || lia). simpl. by rewrite (proj2 (Z.ltb_lt _ _)) by lia. Qed.

(** The extent of a block. *)
Lemma find_block l b : Forall nonempty l -> 0 <= b < total l ->
  exists l1 e l2, l = l1 ++ e :: l2 /\ total l1 <= b < total l1 + blockCount e.
Proof.
  induction l as [|x l IH] using rev_ind; simpl; [lia|]. intros [Hl _]%Forall_app Hb.
  rewrite ext_total_app in Hb. simpl in Hb. destruct (decide (b < total l)).
  - destruct (IH Hl ltac:(lia)) as (l1 & e & l2 & -> & ?). exists l1, e, (l2 ++ [x]). by rewrite <- app_assoc.
  - exists l, x, []. split; [done|lia].
Qed.

Lemma numberOfExtents_range v : 3 <= numberOfExtents v <= 8.
Proof. unfold numberOfExtents, kHFSPlusExtentDensity, kHFSExtentDensity. case_match; lia. Qed.

(** ** Records

    A record has room for [n] extents; those that are not used have no blocks. *)
Record record_holds (n : Z) (d l : extents) : Prop := {
  rh_pad : d = l ++ replicate (8 - length l) ext0;
  rh_fits : Z.of_nat (length l) <= n;
  rh_max : n <= 8;
  rh_used : Forall nonempty l
}.

Lemma record_at n d l (i : nat) e : record_holds n d l -> l !! i = Some e -> ext_at d (Z.of_nat i) = e.
Proof.
  intros [-> _ _ _] Hi. unfold ext_at. rewrite Nat2Z.id, nth_lookup, lookup_app_l by by apply lookup_lt_Some in Hi.
  by rewrite Hi.
Qed.

Lemma record_end n d l : record_holds n d l -> Z.of_nat (length l) < n -> ext_at d (Z.of_nat (length l)) = ext0.
Proof.
  intros [-> _ ? _] Hl. unfold ext_at. rewrite Nat2Z.id, nth_lookup, lookup_app_r, Nat.sub_diag by done.
  by rewrite lookup_replicate_2 by lia.
Qed.

(** The loop of the search, in a record whose first [done] extents are before the block. *)
Lemma search_extents_spec n d l b start todo : forall pre, record_holds n d l -> l = pre ++ todo ->
  0 <= start -> start + total l < 2 ^ 32 -> start + total pre <= b ->
  let r := search_extents (Z.to_nat n - length pre) (Z.of_nat (length pre)) b (start + total pre) d in
  if b <? start + total l then
    exists l1 e l2, l = l1 ++ e :: l2 /\ start + total l1 <= b < start + total l1 + blockCount e /\
      r = (true, Z.of_nat (length l1), start + total l1 + blockCount e)
  else r = (false, Z.of_nat (length l), start + total l).
Proof.
  induction todo as [|e todo IH]; intros pre Hd El Hs Ht Hb.
  - rewrite app_nil_r in El. subst pre. rewrite (proj2 (Z.ltb_ge _ _)) by lia. pose proof (rh_fits _ _ _ Hd).
    destruct (decide (Z.of_nat (length l) = n)) as [E|E].
    + by replace (Z.to_nat n - length l)%nat with O by lia.
    + replace (Z.to_nat n - length l)%nat with (S (Z.to_nat n - length l - 1)) by lia. simpl.
      by rewrite (record_end n d l) by (done || lia).
  - assert (ext_at d (Z.of_nat (length pre)) = e) as He.
    { apply (record_at n d l); [done|]. rewrite El. apply list_lookup_split. }
    pose proof (rh_fits _ _ _ Hd). pose proof (rh_used _ _ _ Hd) as Hu. rewrite El in Hu.
    apply Forall_app in Hu as (Hpre & [He1 Htodo]%Forall_cons). unfold nonempty in He1.
    assert (length l = length pre + S (length todo))%nat as Hlen by (rewrite El, length_app; done).
    assert (total l = total pre + (blockCount e + total todo)) as Htot by (rewrite El, ext_total_app; done).
    pose proof (ext_total_nonneg _ Htodo). pose proof (ext_total_nonneg _ Hpre). cbv zeta.
    replace (Z.to_nat n - length pre)%nat with (S (Z.to_nat n - length (pre ++ [e]))) by (rewrite length_app; simpl; lia).
    cbn [search_extents]. rewrite He. rewrite (proj2 (Z.eqb_neq (blockCount e) 0)) by lia.
    rewrite u32_small by lia. destruct (Z.ltb_spec b (start + total pre + blockCount e)).
    + rewrite (proj2 (Z.ltb_lt _ _)) by lia. exists pre, e, todo. split_and!; try done; lia.
    + specialize (IH (pre ++ [e]) Hd ltac:(by rewrite El, <- app_assoc) Hs Ht). rewrite ext_total_app in IH. simpl in IH.
      replace (Z.of_nat (length pre) + 1) with (Z.of_nat (length (pre ++ [e]))) by (rewrite length_app; simpl; lia).
      replace (start + total pre + blockCount e) with (start + (total pre + (blockCount e + 0))) by lia. apply IH. lia.
Qed.

(** What [SearchExtentRecord] finds in the record that starts with block [start]. *)
Lemma SearchExtentRecord_spec vcb d l b start : record_holds (numberOfExtents vcb) d l ->
  0 <= start <= b -> start + total l < 2 ^ 32 ->
  if b <? start + total l then
    exists l1 e l2, l = l1 ++ e :: l2 /\ start + total l1 <= b < start + total l1 + blockCount e /\
      SearchExtentRecord vcb b d start = (noErr, Z.of_nat (length l1), start + total l1 + blockCount e, false)
  else SearchExtentRecord vcb b d start =
    (fxRangeErr, Z.max 0 (Z.of_nat (length l) - 1), start + total l, Z.of_nat (length l) <? numberOfExtents vcb).
Proof.
  intros Hd Hs Ht. pose proof (search_extents_spec _ d l b start l [] Hd eq_refl ltac:(lia) Ht ltac:(simpl; lia)) as H.
  cbn [length total foldr] in H. change (Z.of_nat 0) with 0 in H. rewrite Z.add_0_r, Nat.sub_0_r in H. unfold SearchExtentRecord. destruct (b <? start + total l).
  - destruct H as (l1 & e & l2 & El & Hb & ->). by exists l1, e, l2.
  - rewrite H. do 3 f_equal. case_ztest; lia.
Qed.

(** ** The interface of the extents file *)

(** A key of the extents file, in the order of comparison. *)
Abbreviation extent_key := (Z * Z * Z)%type.

(** What [FindExtentRecord] is to find in the file [m]: the record with the key, or else,
    if that is asked for, the last record of the fork before it. *)
Definition find_result (m : gmap extent_key extents) (fork id b : Z) (allowPrevious : bool) (err : Z)
    (found : option (HFSPlusExtentKey * extents)) : Prop :=
  err = noErr /\ (exists s d, found = Some (mkExtentKey kHFSPlusExtentKeyMaximumLength fork 0 id s, d) /\
     m !! (id, fork, s) = Some d /\ s <= b /\ (allowPrevious = false -> s = b) /\
     forall s' d', m !! (id, fork, s') = Some d' -> s' <= b -> s' <= s) \/
  err = btNotFound /\ m !! (id, fork, b) = None /\
     (allowPrevious = true -> forall s' d', m !! (id, fork, s') = Some d' -> ~ s' <= b).

(** Reading: [rep x m] says that the file of [x] has the records [m], [hint_ok x h] that
    [h] is a hint for its B-tree. *)
Class ExtentsFileReads (X : Type) `{!ExtentsFile X} (rep : X -> gmap extent_key extents -> Prop)
    (hint_ok : X -> Z -> Prop) : Prop := {
  xf_vcb_set x v : xf_vcb (xf_set x v) = v;
  xf_rep_set x v m : rep x m -> vcbSigWord v = vcbSigWord (xf_vcb x) -> rep (xf_set x v) m;
  xf_hint_set x v h : hint_ok x h -> hint_ok (xf_set x v) h;
  xf_find_ok x m fork id b prev : rep x m ->
    (fork = kDataForkType \/ fork = kResourceForkType) -> 0 <= id < 2 ^ 32 -> 0 <= b < 2 ^ 32 ->
    exists err found hint x', xf_find x fork id b prev = Ok (err, found, hint, x') /\ find_result m fork id b prev err found /\
      rep x' m /\ xf_vcb x' = xf_vcb x /\ (err = noErr -> hint_ok x' hint)
}.

(** What an operation on something else leaves as it is. *)
Definition keeps {X : Type} (hint_ok : X -> Z -> Prop) (room : X -> nat -> Prop) (removable : X -> Z -> Z -> Z -> Prop)
    (x x' : X) : Prop :=
  (forall h, hint_ok x h -> hint_ok x' h) /\ (forall n, room x n -> room x' n) /\
  (forall fork id b, removable x fork id b -> removable x' fork id b).

(** The descriptors of a record are 32-bit values. *)
Definition record_ok (d : extents) : Prop :=
  length d = 8%nat /\ Forall (fun e => 0 <= startBlock e < 2 ^ 32 /\ 0 <= blockCount e < 2 ^ 32) d.

(** Writing: [room x n] says that [n] records can be added, [removable x fork id b] that
    those of a fork from block [b] on can be deleted. *)
Class ExtentsFileWrites (X : Type) `{!ExtentsFile X} (rep : X -> gmap extent_key extents -> Prop)
    (hint_ok : X -> Z -> Prop) (room : X -> nat -> Prop) (removable : X -> Z -> Z -> Z -> Prop) : Prop := {
  xf_room_mono x n n' : room x n -> (n' <= n)%nat -> room x n';
  xf_set_keeps x v : keeps hint_ok room removable x (xf_set x v);
  xf_find_keeps x m fork id b prev err found hint x' : rep x m -> xf_find x fork id b prev = Ok (err, found, hint, x') ->
    keeps hint_ok room removable x x';
  xf_update_ok x m fork id s d d' h : rep x m -> m !! (id, fork, s) = Some d -> hint_ok x h -> record_ok d' ->
    exists x', xf_update x (mkExtentKey kHFSPlusExtentKeyMaximumLength fork 0 id s) d' h = Ok (noErr, x') /\
      rep x' (<[(id, fork, s) := d']> m) /\ xf_vcb x' = xf_vcb x /\ keeps hint_ok room removable x x';
  xf_create_ok x m fork id s d n : rep x m -> m !! (id, fork, s) = None -> room x (S n) -> record_ok d ->
    (fork = kDataForkType \/ fork = kResourceForkType) -> 0 <= id < 2 ^ 32 -> 0 <= s < 2 ^ 32 ->
    exists h x', xf_create x (mkExtentKey kHFSPlusExtentKeyMaximumLength fork 0 id s) d = Ok (noErr, h, x') /\
      rep x' (<[(id, fork, s) := d]> m) /\ xf_vcb x' = xf_vcb x /\ room x' n /\ hint_ok x' h;
  xf_delete_ok x m fork id s b d : rep x m -> m !! (id, fork, s) = Some d -> removable x fork id b -> b <= s ->
    exists x', xf_delete x fork id s = Ok (noErr, x') /\ rep x' (delete (id, fork, s) m) /\ xf_vcb x' = xf_vcb x /\
      removable x' fork id b;
  xf_flush_ok x m : rep x m -> exists err x', xf_flush x = Ok (err, x') /\ rep x' m /\ xf_vcb x' = xf_vcb x
}.

(** ** Forks *)

(** Record [j] of a fork starts with this block. *)
Definition record_start (RS : list extents) (j : nat) : Z := total (concat (take j RS)).

(** A fork with the records [RS]: its own one, and those that the extents file [m] has. *)
Record fork_ok (vcb : ExtendedVCB) (m : gmap extent_key extents) (fcb : filefork) (RS : list extents) : Prop := {
  fo_resident : exists l0, RS !! 0%nat = Some l0 /\ record_holds (numberOfExtents vcb) (fcbExtents fcb) l0 /\
    ((1 < length RS)%nat -> Z.of_nat (length l0) = numberOfExtents vcb);
  fo_record j l : RS !! S j = Some l -> l <> [] /\ exists d,
    m !! (c_fileid fcb, forkType fcb, record_start RS (S j)) = Some d /\ record_holds (numberOfExtents vcb) d l;
  fo_only s d : m !! (c_fileid fcb, forkType fcb, s) = Some d ->
    exists j l, RS !! S j = Some l /\ s = record_start RS (S j);
  fo_id : 0 <= c_fileid fcb < 2 ^ 32;
  fo_total : total (concat RS) < 2 ^ 32
}.

Lemma fork_type fcb : forkType fcb = kDataForkType \/ forkType fcb = kResourceForkType.
Proof. unfold forkType. destruct (is_rsrc fcb); auto. Qed.

Lemma record_start_S (RS : list extents) j l : RS !! j = Some l -> record_start RS (S j) = record_start RS j + total l.
Proof.
  intros Hj. unfold record_start. rewrite (take_S_r _ _ _ Hj), concat_app, ext_total_app. simpl. by rewrite app_nil_r.
Qed.

Lemma concat_split (RS : list extents) j l : RS !! j = Some l ->
  concat RS = concat (take j RS) ++ l ++ concat (drop (S j) RS).
Proof. intros Hj. rewrite <- (take_drop_middle RS j l Hj) at 1. by rewrite concat_app. Qed.

Section fork.
Context (vcb : ExtendedVCB) (m : gmap extent_key extents) (fcb : filefork) (RS : list extents).
Context (HF : fork_ok vcb m fcb RS).

Lemma fork_used : Forall nonempty (concat RS).
Proof.
  apply Forall_forall. intros e He%list_elem_of_In. apply in_concat in He as (l & Hl%list_elem_of_In & He%list_elem_of_In).
  apply list_elem_of_lookup in Hl as [[|j] Hj].
  - destruct (fo_resident _ _ _ _ HF) as (l0 & H0 & Hd & _). simplify_eq.
    by apply (proj1 (Forall_forall _ _) (rh_used _ _ _ Hd)).
  - destruct (fo_record _ _ _ _ HF j l Hj) as (_ & d & _ & Hd). by apply (proj1 (Forall_forall _ _) (rh_used _ _ _ Hd)).
Qed.

Lemma record_total j l : RS !! j = Some l -> 0 <= record_start RS j /\ 0 <= total l /\
  record_start RS j + total l <= total (concat RS).
Proof.
  intros Hj. pose proof fork_used as Hu. rewrite (concat_split RS j l Hj) in *. rewrite !ext_total_app.
  apply Forall_app in Hu as (H1 & [H2 H3]%Forall_app).
  pose proof (ext_total_nonneg _ H1). pose proof (ext_total_nonneg _ H2). pose proof (ext_total_nonneg _ H3).
  unfold record_start. lia.
Qed.

(** The records are in the order of their blocks. *)
Lemma record_start_mono i j : (i <= j <= length RS)%nat -> record_start RS i <= record_start RS j.
Proof.
  intros Hij. pose proof fork_used as Hu. unfold record_start.
  rewrite <- (take_drop j RS), concat_app in Hu. apply Forall_app in Hu as [Hu _].
  replace (take i RS) with (take i (take j RS)) by (rewrite take_take; f_equal; lia).
  rewrite <- (take_drop i (take j RS)) at 2. rewrite concat_app, ext_total_app.
  rewrite <- (take_drop i (take j RS)), concat_app in Hu. apply Forall_app in Hu as [_ Hu].
  pose proof (ext_total_nonneg _ Hu). lia.
Qed.

Lemma record_start_inj i j : RS !! S i <> None -> (i < j)%nat -> (j < length RS)%nat -> record_start RS (S i) < record_start RS (S j).
Proof.
  intros Hi Hij Hj. destruct (RS !! S i) as [l|] eqn:E; [|done].
  destruct (fo_record _ _ _ _ HF i l E) as (Hl & d & _ & Hd).
  pose proof (record_start_mono (S (S i)) (S j) ltac:(lia)). rewrite (record_start_S RS (S i) l E) in H.
  pose proof (rh_used _ _ _ Hd) as Hu. destruct l as [|e l]; [done|]. apply Forall_cons in Hu as [He Hu].
  pose proof (ext_total_nonneg _ Hu). unfold nonempty in He. simpl in H. lia.
Qed.
End fork.

Section search.
Context {X : Type} `{!ExtentsFile X} (rep : X -> gmap extent_key extents -> Prop) (hint_ok : X -> Z -> Prop)
  `{!ExtentsFileReads X rep hint_ok}.

(** A location in record [j] of the fork. *)
Record at_record (x : X) (m : gmap extent_key extents) (fcb : filefork) (RS : list extents) (loc : Location) (j : nat)
    (l : extents) : Prop := {
  ar_record : RS !! j = Some l;
  ar_data : record_holds (numberOfExtents (xf_vcb x)) (loc_data loc) l;
  ar_key : match j with
           | O => xk_keyLength (loc_key loc) = 0 /\ loc_data loc = fcbExtents fcb
           | S _ => loc_key loc = mkExtentKey kHFSPlusExtentKeyMaximumLength (forkType fcb) 0 (c_fileid fcb) (record_start RS j) /\
               m !! (c_fileid fcb, forkType fcb, record_start RS j) = Some (loc_data loc) /\ hint_ok x (loc_hint loc)
           end
}.

(** What a search for block [b] returns: the extent that has it, or that there is none and
    the last extent. *)
Definition search_post (x : X) (m : gmap extent_key extents) (fcb : filefork) (RS : list extents) (b err : Z)
    (loc : Location) : Prop :=
  (err = noErr /\ b < total (concat RS) /\ exists j l l1 e l2, at_record x m fcb RS loc j l /\ l = l1 ++ e :: l2 /\
     loc_index loc = Z.of_nat (length l1) /\ loc_ending loc = record_start RS j + total l1 + blockCount e /\
     record_start RS j + total l1 <= b < loc_ending loc) \/
  (err = fxRangeErr /\ total (concat RS) <= b /\ exists l, at_record x m fcb RS loc (length RS - 1) l /\
     loc_index loc = Z.max 0 (Z.of_nat (length l) - 1) /\ loc_ending loc = total (concat RS)).

(** A search in the last record, for a block that no record has. *)
Lemma record_last x m fcb RS j l : fork_ok (xf_vcb x) m fcb RS -> RS !! j = Some l -> (length RS = S j)%nat ->
  record_start RS j + total l = total (concat RS).
Proof using Type.
  intros _ Hj Hlen. rewrite <- (record_start_S RS j l Hj). unfold record_start. by rewrite take_ge by lia.
Qed.

(** The search in record [j], once it is known that no later record has the block. *)
Lemma search_in_record x m fcb RS loc j l b : fork_ok (xf_vcb x) m fcb RS -> at_record x m fcb RS loc j l ->
  record_start RS j <= b ->
  (record_start RS j + total l <= b -> (length RS = S j)%nat) ->
  let '(err, index, ending, _) := SearchExtentRecord (xf_vcb x) b (loc_data loc) (record_start RS j) in
  search_post x m fcb RS b err (mkLocation (loc_key loc) (loc_data loc) index (loc_hint loc) ending).
Proof using Type.
  intros HF Hat Hb Hlast. pose proof (ar_record _ _ _ _ _ _ _ Hat) as Hj. pose proof (record_total _ _ _ _ HF j l Hj) as (? & ? & ?).
  pose proof (SearchExtentRecord_spec (xf_vcb x) (loc_data loc) l b (record_start RS j) (ar_data _ _ _ _ _ _ _ Hat)) as Hs.
  specialize (Hs ltac:(lia)). pose proof (fo_total _ _ _ _ HF). specialize (Hs ltac:(lia)).
  destruct (Z.ltb_spec b (record_start RS j + total l)).
  - destruct Hs as (l1 & e & l2 & El & Hb' & ->). left. split; [done|]. split; [lia|]. exists j, l, l1, e, l2.
    split; [by destruct Hat; split|]. done.
  - rewrite Hs. right. specialize (Hlast ltac:(lia)). pose proof (record_last x m fcb RS j l HF Hj Hlast).
    split; [done|]. split; [lia|]. exists l. replace (length RS - 1)%nat with j by lia.
    split; [by destruct Hat; split|]. split; [done|]. cbn [loc_ending]. lia.
Qed.

Lemma at_record_same x x' m fcb RS loc j l : xf_vcb x' = xf_vcb x -> (hint_ok x (loc_hint loc) -> hint_ok x' (loc_hint loc)) ->
  at_record x m fcb RS loc j l -> at_record x' m fcb RS loc j l.
Proof using Type. intros E Hh [? ? Hk]. split; [done|by rewrite E|]. destruct j; [done|]. naive_solver. Qed.

(** The search in the records of the extents file. *)
Lemma search_overflow x m fcb RS b : rep x m -> fork_ok (xf_vcb x) m fcb RS -> 0 <= b < 2 ^ 32 ->
  record_start RS 1 <= b ->
  exists err found hint x', xf_find x (forkType fcb) (c_fileid fcb) b true = Ok (err, found, hint, x') /\
    rep x' m /\ xf_vcb x' = xf_vcb x /\
    (err = btNotFound /\ (length RS <= 1)%nat \/
     err = noErr /\ exists key d, found = Some (key, d) /\
       let '(err, index, ending, _) := SearchExtentRecord (xf_vcb x) b d (xk_startBlock key) in
       search_post x' m fcb RS b err (mkLocation key d index hint ending)).
Proof using ExtentsFileReads0.
  intros Hx HF Hb H1. destruct (xf_find_ok x m (forkType fcb) (c_fileid fcb) b true Hx (fork_type fcb) (fo_id _ _ _ _ HF) Hb)
    as (err & found & hint & x' & -> & Hf & Hx' & E & Hh).
  exists err, found, hint, x'. split_and!; try done.
  destruct Hf as [(-> & s & d & -> & Hs & Hsb & _ & Hmax)|(-> & _ & Hno)].
  - right. split; [done|]. eexists _, d. split; [done|]. cbn [xk_startBlock].
    destruct (fo_only _ _ _ _ HF s d Hs) as (j & l & Hj & ->).
    destruct (fo_record _ _ _ _ HF j l Hj) as (Hl & d' & Hd' & Hrec). simplify_eq.
    rewrite <- E. apply (search_in_record x' m fcb RS
      (mkLocation (mkExtentKey kHFSPlusExtentKeyMaximumLength (forkType fcb) 0 (c_fileid fcb) (record_start RS (S j))) d 0 hint 0) (S j) l);
      cbn [loc_data loc_key loc_hint].
    + by rewrite E.
    + split; [done|by rewrite E|]. cbn [loc_key loc_data loc_hint]. split_and!; try done. by apply Hh.
    + done.
    + intros Hend. destruct (RS !! S (S j)) as [l2|] eqn:E2; [|apply lookup_ge_None in E2; apply lookup_lt_Some in Hj; lia].
      exfalso. destruct (fo_record _ _ _ _ HF (S j) l2 E2) as (_ & d2 & Hd2 & _).
      specialize (Hmax _ _ Hd2). rewrite (record_start_S RS (S j) l Hj) in Hmax.
      pose proof (rh_used _ _ _ Hrec) as Hu. destruct l as [|e l]; [done|]. apply Forall_cons in Hu as [He Hu].
      pose proof (ext_total_nonneg _ Hu). unfold nonempty in He. simpl in Hmax, Hend. lia.
  - left. split; [done|]. destruct (RS !! 1%nat) as [l|] eqn:E1; [|by apply lookup_ge_None in E1].
    destruct (fo_record _ _ _ _ HF 0 l E1) as (_ & d & Hd & _). by destruct (Hno eq_refl _ _ Hd).
Qed.

Lemma SearchExtentFile_spec x m fcb RS pos : rep x m -> fork_ok (xf_vcb x) m fcb RS ->
  exists err loc x', SearchExtentFile x fcb pos = Ok (err, loc, x') /\ rep x' m /\ xf_vcb x' = xf_vcb x /\
    search_post x' m fcb RS (u32 (Z.quot pos (blockSize (xf_vcb x)))) err loc.
Proof using ExtentsFileReads0.
  intros Hx HF. unfold SearchExtentFile. cbv zeta. set (b := u32 (Z.quot pos (blockSize (xf_vcb x)))).
  assert (0 <= b < 2 ^ 32) as Hb by (apply Z.mod_pos_bound; lia).
  destruct (fo_resident _ _ _ _ HF) as (l0 & H0 & Hd0 & Hfull).
  pose proof (record_start_S RS 0 l0 H0) as Hst. change (record_start RS 0) with 0 in Hst.
  pose proof (record_total _ _ _ _ HF 0 l0 H0) as (_ & _ & Htot). change (record_start RS 0) with 0 in Htot.
  pose proof (fo_total _ _ _ _ HF). pose proof (lookup_lt_Some _ _ _ H0) as Hlen.
  pose proof (SearchExtentRecord_spec (xf_vcb x) (fcbExtents fcb) l0 b 0 Hd0 ltac:(lia) ltac:(lia)) as Hs.
  assert (forall index ending, at_record x m fcb RS (mkLocation resident_key (fcbExtents fcb) index kNoHint ending) 0 l0) as Hat
    by (intros; by split).
  assert ((length RS <= 1)%nat -> total l0 <= b -> search_post x m fcb RS b fxRangeErr
    (mkLocation resident_key (fcbExtents fcb) (Z.max 0 (Z.of_nat (length l0) - 1)) kNoHint (0 + total l0))) as Hend.
  { intros Hone Hge. assert (total l0 = total (concat RS)) as Et.
    { rewrite <- (record_last x m fcb RS 0 l0 HF H0) by lia. done. }
    right. split; [done|]. split; [lia|]. exists l0. replace (length RS - 1)%nat with 0%nat by lia.
    split; [apply Hat|]. split; [done|]. cbn [loc_ending]. lia. }
  destruct (Z.ltb_spec b (0 + total l0)) as [Hin|Hout].
  - destruct Hs as (l1 & e & l2 & El & Hb' & ->). cbn [noErr Z.eqb]. eexists _, _, x. split_and!; try done.
    left. split; [done|]. split; [lia|]. exists 0%nat, l0, l1, e, l2. split; [apply Hat|done].
  - rewrite Hs. change (fxRangeErr =? noErr) with false. cbv iota.
    destruct (Z.ltb_spec (Z.of_nat (length l0)) (numberOfExtents (xf_vcb x))) as [Hl|Hl].
    + eexists _, _, x. split_and!; try done. apply Hend; [|lia]. destruct (decide (1 < length RS)%nat) as [H1|]; [|lia].
      specialize (Hfull H1). lia.
    + destruct (search_overflow x m fcb RS b Hx HF Hb ltac:(lia)) as (err & found & hint & x' & -> & Hx' & E & Hcase).
      cbn [mbind outcome_bind]. destruct Hcase as [(-> & Hone)|(-> & key & d & -> & Hpost)].
      * change (btNotFound =? btNotFound) with true. cbv iota. eexists _, _, x'. split_and!; try done.
        specialize (Hend Hone ltac:(lia)). destruct Hend as [(? & _)|(? & ? & l & Hl' & ?)]; [done|].
        right. split_and!; try done. exists l. split; [|done].
        replace (length RS - 1)%nat with 0%nat in * by lia. destruct Hl' as [? ? ?]. split; [done|by rewrite E|done].
      * change (noErr =? btNotFound) with false. change (noErr =? noErr) with true.
        cbn [negb of_option mbind outcome_bind].
        revert Hpost. destruct (SearchExtentRecord _ b d _) as [[[err index] ending] more]. intros Hpost.
        eexists _, _, x'. split; [done|]. done.
Qed.

(** The extent that was found, in the list of all. *)
Lemma located x m fcb RS loc j l l1 e l2 : fork_ok (xf_vcb x) m fcb RS -> at_record x m fcb RS loc j l -> l = l1 ++ e :: l2 ->
  exists pre post, concat RS = pre ++ e :: post /\ total pre = record_start RS j + total l1 /\ Forall nonempty pre /\
    ext_at (loc_data loc) (Z.of_nat (length l1)) = e.
Proof using Type.
  intros HF Hat ->. pose proof (ar_record _ _ _ _ _ _ _ Hat) as Hj. pose proof (fork_used _ _ _ _ HF) as Hu.
  exists (concat (take j RS) ++ l1), (l2 ++ concat (drop (S j) RS)).
  assert (concat RS = (concat (take j RS) ++ l1) ++ e :: (l2 ++ concat (drop (S j) RS))) as E.
  { rewrite (concat_split RS j _ Hj), <- !app_assoc. done. }
  split; [done|]. split; [apply ext_total_app|]. rewrite E in Hu. apply Forall_app in Hu as [Hu _]. split; [done|].
  apply (record_at (numberOfExtents (xf_vcb x)) _ (l1 ++ e :: l2)); [apply Hat|apply list_lookup_split].
Qed.

(** The first sector of the blocks of the volume. *)
Definition volume_start (dev : device) (vcb : ExtendedVCB) : Z :=
  if vcbSigWord vcb =? kHFSPlusSigWord then hfsPlusIOPosOffset dev / sectorSize dev else vcbAlBlSt dev.

(** [avail] bytes from [offset] on are contiguous, and no more than asked for; fewer only at
    the end of the fork or of an extent. *)
Definition contiguous_bytes (fcb : filefork) (l : extents) (bs offset numberOfBytes p avail : Z) : Prop :=
  0 < avail <= numberOfBytes /\ offset + avail <= ff_blocks fcb * bs /\
  (forall b, offset / bs <= b -> b * bs < offset + avail -> map_block l b = Some (p + (b - offset / bs))) /\
  (avail < numberOfBytes -> offset + avail = ff_blocks fcb * bs \/
     exists pre post, l = pre ++ post /\ offset + avail = total pre * bs).

(** The arithmetic of [MapFileBlockC] within an extent. *)
Lemma sector_of bs sector spb offset first start : 0 < sector -> bs = spb * sector -> 0 < spb -> first * bs <= offset ->
  Z.quot (offset - first * bs) sector + start * spb = (start + (offset / bs - first)) * spb + (offset mod bs) / sector.
Proof using Type.
  intros Hs -> Hp Ho. rewrite Z.quot_div_nonneg by lia.
  pose proof (Z.div_mod offset (spb * sector) ltac:(nia)) as Hdm. set (q := offset / (spb * sector)) in *.
  set (r := offset mod (spb * sector)) in *.
  replace (offset - first * (spb * sector)) with (r + (q - first) * spb * sector) by lia.
  rewrite Z.div_add by lia. lia.
Qed.

(** The bytes up to the end of the extent. *)
Lemma available_spec fcb l pre e post bs offset n avail : l = pre ++ e :: post -> Forall nonempty pre -> 0 < bs ->
  0 < n < 2 ^ 63 -> ff_blocks fcb * bs < 2 ^ 63 -> 0 <= offset < ff_blocks fcb * bs ->
  total pre <= offset / bs < total pre + blockCount e ->
  avail = (let dataEnd := (total pre + blockCount e) * bs in
           let dataEnd := if ff_blocks fcb * bs <? dataEnd then ff_blocks fcb * bs else dataEnd in
           if s64 n <? dataEnd - offset then n else u64 (dataEnd - offset)) ->
  contiguous_bytes fcb l bs offset n (startBlock e + (offset / bs - total pre)) avail.
Proof using Type.
  intros El Hpre Hbs Hn Hff Ho Hb ->. cbv zeta. rewrite s64_small by lia.
  pose proof (Z.div_mod offset bs ltac:(lia)) as Hdm. pose proof (Z.mod_pos_bound offset bs Hbs).
  pose proof (ext_total_nonneg _ Hpre) as Hp.
  assert (offset < (total pre + blockCount e) * bs) as Hend by nia.
  set (dataEnd := if ff_blocks fcb * bs <? (total pre + blockCount e) * bs then ff_blocks fcb * bs
                  else (total pre + blockCount e) * bs).
  assert (dataEnd <= ff_blocks fcb * bs /\ dataEnd <= (total pre + blockCount e) * bs /\ offset < dataEnd) as (D1 & D2 & D3)
    by (unfold dataEnd; case_ztest; lia).
  change (u64 (dataEnd - offset)) with (wrap 64 (dataEnd - offset)). rewrite wrap_small by lia.
  set (avail := if n <? dataEnd - offset then n else dataEnd - offset).
  assert (0 < avail <= n /\ avail <= dataEnd - offset) as (A1 & A2) by (unfold avail; case_ztest; lia).
  split; [done|]. split; [lia|]. split.
  - intros b Hlo Hhi. rewrite El, map_block_in; [f_equal; lia|done|]. split; [lia|]. nia.
  - intros Hlt. assert (avail = dataEnd - offset) as -> by (unfold avail in *; case_ztest; lia). unfold dataEnd. case_ztest.
    + left. lia.
    + right. exists (pre ++ [e]), post. rewrite <- app_assoc, ext_total_app. split; [done|]. simpl. lia.
Qed.

(** C10: [MapFileBlockC] maps a position of a fork through the list of all its extents, those
    of its own record and those of the extents file: the sector is that of the block of the
    volume that the list gives for it, with the offset in the block and that of the volume,
    and the number of bytes returned is contiguous on the disk, within the fork, and as large
    as the extent allows.  A position behind the last extent is a range error.  The block size
    is a multiple of the sector size, the position is within the blocks of the fork, and the
    first sector of every extent fits into 32 bits: beyond that the code computes another
    sector ([MapFileBlockC_wraps]). *)
Theorem MapFileBlockC_correct dev x m fcb RS numberOfBytes offset : rep x m -> fork_ok (xf_vcb x) m fcb RS ->
  let bs := blockSize (xf_vcb x) in
  let spb := bs / sectorSize dev in
  0 < sectorSize dev -> (sectorSize dev | bs) -> 0 < bs ->
  Forall (fun e => 0 <= startBlock e /\ startBlock e * spb < 2 ^ 32) (concat RS) ->
  0 < numberOfBytes < 2 ^ 63 -> ff_blocks fcb * bs < 2 ^ 63 -> ff_blocks fcb < 2 ^ 32 -> 0 <= offset < ff_blocks fcb * bs ->
  exists x', rep x' m /\ xf_vcb x' = xf_vcb x /\
    match map_block (concat RS) (offset / bs) with
    | None => MapFileBlockC dev x fcb numberOfBytes offset = Ok (fxRangeErr, None, x')
    | Some p => exists avail,
        MapFileBlockC dev x fcb numberOfBytes offset =
          Ok (noErr, Some (p * spb + (offset mod bs) / sectorSize dev + volume_start dev (xf_vcb x), avail), x') /\
        contiguous_bytes fcb (concat RS) bs offset numberOfBytes p avail
    end.
Proof using ExtentsFileReads0.
  intros Hx HF bs spb Hsec Hdvd Hbs Hstart Hn Hff Hff32 Ho.
  destruct (SearchExtentFile_spec x m fcb RS offset Hx HF) as (err & loc & x' & Hrun & Hx' & E & Hpost).
  fold bs in Hpost. exists x'. split; [done|]. split; [done|]. unfold MapFileBlockC. cbv zeta. rewrite Hrun.
  cbn [mbind outcome_bind]. fold bs. fold spb. rewrite Z.quot_div_nonneg in Hpost by lia.
  assert (0 <= offset / bs < ff_blocks fcb) as Hq by (split; [apply Z.div_pos; lia|apply Z.div_lt_upper_bound; lia]).
  rewrite u32_small in Hpost by lia. rewrite <- E in HF. pose proof (fo_total _ _ _ _ HF) as Htot.
  destruct Hpost as [(-> & Hb & j & l & l1 & e & l2 & Hat & El & Hi & Hend & Hin)|(-> & Hb & _)].
  2: { rewrite (map_block_beyond (concat RS)); [done|by apply (fork_used (xf_vcb x') m fcb)|done]. }
  destruct (located x' m fcb RS loc j l l1 e l2 HF Hat El) as (pre & post & Eall & Et & Hpre & Hext).
  rewrite <- Et in *. rewrite Eall, map_block_in by (done || lia). rewrite <- Eall.
  change (noErr =? noErr) with true. cbn [negb]. rewrite Hi, Hext, Hend.
  rewrite Eall, ext_total_app in Htot. simpl in Htot. pose proof (ext_total_nonneg _ Hpre).
  rewrite Eall in Hstart. pose proof (fork_used _ _ _ _ HF) as Hu. rewrite Eall in Hu.
  apply Forall_app in Hstart as (_ & [He _]%Forall_cons). apply Forall_app in Hu as (_ & [He1 Hu]%Forall_cons).
  pose proof (ext_total_nonneg _ Hu). unfold nonempty in He1.
  replace (total pre + blockCount e - blockCount e) with (total pre) by lia. rewrite !(u32_small (total pre)) by lia.
  destruct Hdvd as [k Hk]. assert (spb = k) as Espb by (unfold spb; rewrite Hk; apply Z.div_mul; lia).
  rewrite (u32_small (startBlock e * spb)) by nia.
  eexists. split.
  - rewrite (sector_of bs (sectorSize dev) spb); [reflexivity|done|by rewrite Espb|nia|].
    pose proof (Z.mul_div_le offset bs Hbs). nia.
  - apply (available_spec fcb (concat RS) pre e post); try done; lia.
Qed.
End search.
