(* ===== verification/ExtentTruncate.v ===== *)
(** * Truncating forks

    The blocks that [TruncateFileC] gives back are exactly those behind the new end: the
    list of extents is cut there, the bitmap has the rest of them free, and the records of
    the extents file that are no longer needed are deleted. *)
From S2P Require Import Prelude Bits VolumeBitmap VolumeAllocation AllocationTheorems ExtentMapping ExtentTheorems.

(** ** Freeing extents *)

Definition in_extents (k : Z) (l : extents) : bool :=
  existsb (fun e => (startBlock e <=? k) && (k <? startBlock e + blockCount e)) l.

(** The extents [l] are free in [v'], and nothing else differs. *)
Record freed (v v' : ExtendedVCB) (l : extents) : Prop := {
  fr_layout : same_layout v v';
  fr_bits k : 0 <= k < 2 ^ 32 -> vol_bit v' k = vol_bit v k && negb (in_extents k l);
  fr_count : freeBlocks v' = freeBlocks v + total l
}.

Lemma same_layout_trans v1 v2 v3 : same_layout v1 v2 -> same_layout v2 v3 -> same_layout v1 v3.
Proof. intros [] []. split; congruence. Qed.

Lemma freed_nil v : freed v v [].
Proof. split; [done|intros; by rewrite andb_true_r|simpl; lia]. Qed.

Lemma freed_app v1 v2 v3 l1 l2 : freed v1 v2 l1 -> freed v2 v3 l2 -> freed v1 v3 (l1 ++ l2).
Proof.
  intros [L1 B1 C1] [L2 B2 C2]. split; [by apply (same_layout_trans v1 v2)| |rewrite ext_total_app; lia].
  intros k Hk. rewrite B2, B1 by done. unfold in_extents. by rewrite existsb_app, negb_orb, andb_assoc.
Qed.

(** The blocks of the bitmap can be read. *)
Definition reads_ok (bread : Z -> Z) (v : ExtendedVCB) : Prop :=
  forall k, 0 <= k < totalBlocks v -> bread (bitmap_block v k) = 0.

(** A volume whose extents [owned] belong to forks. *)
Record vol_state (bread : Z -> Z) (v : ExtendedVCB) (owned : extents) : Prop := {
  vs_alloc : alloc_ok bread (AS v owned);
  vs_reads : reads_ok bread v
}.

Lemma reads_ok_layout bread v v' : same_layout v v' -> reads_ok bread v -> reads_ok bread v'.
Proof. intros [Hs _ Ht Hst Hio] H k Hk. rewrite Ht in Hk. unfold bitmap_block. rewrite Hs, Hst, Hio. by apply H. Qed.

Lemma in_extents_one k e : in_extents k [e] = (startBlock e <=? k) && (k <? startBlock e + blockCount e).
Proof. unfold in_extents. simpl. apply orb_false_r. Qed.

(** When the bitmap can be read, [BlockDeallocate] returns no error. *)
Lemma dealloc_reads bread v s n err v' : vol_inv v -> reads_ok bread v -> 0 <= s -> 1 <= n -> s + n <= totalBlocks v ->
  BlockDeallocate bread v s n = Ok (err, v') -> err = noErr.
Proof.
  intros Hinv Hr Hs Hn Hsn. unfold BlockDeallocate. rewrite (proj2 (Z.eqb_neq n 0)) by lia.
  pose proof (BlockMark_decide op_free false bread v s n (inv_geom v Hinv) (inv_mem v Hinv) Hs Hn Hsn
    ltac:(intros k Hk; apply Hr; lia)) as H. unfold BlockMarkFree.
  destruct (bool_decide _); [destruct H as [msg ->]; done|]. destruct H as (m & -> & _). cbn [mbind outcome_bind].
  change (negb (noErr =? noErr)) with false. cbv iota zeta. by intros [= <- _].
Qed.

(** [BlockDeallocate] of an extent that a fork has. *)
Lemma dealloc_step bread v A e B : vol_state bread v (A ++ e :: B) ->
  exists v', BlockDeallocate bread v (startBlock e) (blockCount e) = Ok (noErr, v') /\ vol_state bread v' (A ++ B) /\ freed v v' [e].
Proof.
  intros [Hok Hr]. pose proof Hok as [Hinv Hbr Hu _]. cbn [as_vol as_owned] in *.
  apply Forall_app in Hu as (_ & [(U1 & U2 & U3 & U4) _]%Forall_cons).
  pose proof (BlockDeallocate_spec bread v Hinv Hbr (startBlock e) (blockCount e) U1 ltac:(lia) U3) as H.
  destruct (BlockDeallocate bread v (startBlock e) (blockCount e)) as [[err v']|msg| |] eqn:E; try done.
  2: { destruct H as (k & Hk & Hb). unfold vol_bit in Hb. rewrite U4 in Hb by lia. done. }
  assert (err = noErr) as -> by (by apply (dealloc_reads bread v (startBlock e) (blockCount e) err v')).
  destruct H as [Hl [(_ & Hinv' & Hbr' & Hc & _ & Hm)|(He & _)]]; [|done].
  exists v'. split; [done|]. split; [split|split; [done| |simpl; lia]].
  - apply (alloc_step_ok bread (AS v (A ++ e :: B))); [by apply step_deallocate|done].
  - by apply (reads_ok_layout bread v).
  - intros k Hk. unfold vol_bit. rewrite (mem_bit_layout v v') by done. rewrite Hm by done. rewrite in_extents_one.
    unfold vol_bit. destruct ((startBlock e <=? k) && (k <? startBlock e + blockCount e)); by rewrite ?andb_false_r, ?andb_true_r.
Qed.

(** An extent can be seen as two. *)
Lemma ext_split_used v s n1 n2 : 1 <= n1 -> 1 <= n2 -> ext_used v (Ext s (n1 + n2)) ->
  ext_used v (Ext s n1) /\ ext_used v (Ext (s + n1) n2).
Proof.
  intros ? ? (U1 & U2 & U3 & U4). unfold ext_used. cbn in *. split_and!; try lia; intros k Hk; apply U4; lia.
Qed.

Lemma ext_split_disjoint s n1 n2 e : 1 <= n1 -> 1 <= n2 -> ext_disjoint e (Ext s (n1 + n2)) ->
  ext_disjoint e (Ext s n1) /\ ext_disjoint e (Ext (s + n1) n2).
Proof. unfold ext_disjoint. simpl. lia. Qed.

Lemma vol_state_split bread v A s n1 n2 B : 1 <= n1 -> 1 <= n2 ->
  vol_state bread v (A ++ Ext s (n1 + n2) :: B) -> vol_state bread v (A ++ Ext s n1 :: Ext (s + n1) n2 :: B).
Proof.
  intros H1 H2 [[Hinv Hbr Hu Hd] Hr]. split; [|done]. cbn [as_vol as_owned] in *. split; [done|done|..]; cbn [as_vol as_owned].
  - apply Forall_app in Hu as (? & [He ?]%Forall_cons). destruct (ext_split_used v s n1 n2 H1 H2 He).
    apply Forall_app. split; [done|]. by do 2 (apply Forall_cons; split; [done|]).
  - apply StronglySorted_app in Hd as (Hx & HA & [He HB]%StronglySorted_cons). apply StronglySorted_app. split_and!; [|done|].
    + intros x y Hxin Hy. pose proof (Hx x (Ext s (n1 + n2)) Hxin ltac:(apply list_elem_of_here)) as Hxe.
      destruct (ext_split_disjoint s n1 n2 x H1 H2 Hxe).
      apply elem_of_cons in Hy as [->|[->|Hy]%elem_of_cons]; [done..|]. apply Hx; [done|by apply list_elem_of_further].
    + assert (forall y, y ∈ B -> ext_disjoint (Ext s n1) y /\ ext_disjoint (Ext (s + n1) n2) y) as HBy.
      { intros y Hy. pose proof (proj1 (Forall_forall _ _) He y Hy) as Hy'. unfold ext_disjoint in *. simpl in *. lia. }
      constructor; [constructor; [done|]|constructor].
      * apply Forall_forall. intros y Hy. by apply HBy.
      * unfold ext_disjoint. simpl. lia.
      * apply Forall_forall. intros y Hy. by apply HBy.
Qed.

(** [BlockDeallocate] of the end of an extent. *)
Lemma dealloc_tail bread v A e B n : 1 <= n < blockCount e -> vol_state bread v (A ++ e :: B) ->
  exists v', BlockDeallocate bread v (startBlock e + blockCount e - n) n = Ok (noErr, v') /\
    vol_state bread v' (A ++ Ext (startBlock e) (blockCount e - n) :: B) /\
    freed v v' [Ext (startBlock e + blockCount e - n) n].
Proof.
  intros Hn Hv. destruct e as [s c]. cbn [startBlock blockCount] in *.
  replace c with ((c - n) + n) in Hv by lia. apply vol_state_split in Hv; [|lia..].
  replace (s + c - n) with (s + (c - n)) by lia.
  rewrite (app_assoc A [Ext s (c - n)] (Ext (s + (c - n)) n :: B) : A ++ Ext s (c - n) :: _ = _) in Hv.
  destruct (dealloc_step bread v (A ++ [Ext s (c - n)]) (Ext (s + (c - n)) n) B Hv) as (v' & ? & Hv' & ?).
  exists v'. rewrite <- app_assoc in Hv'. by split_and!.
Qed.

(** The flags of the volume do not matter. *)
Lemma vol_state_flags bread v owned f : vol_state bread v owned -> vol_state bread (set_flags f v) owned.
Proof.
  intros [[[[? ? ?] ? [? ? ? ?] ? ?] Hbr Hu Hd] Hr]. split; [|done]. split; [|done|done|done].
  split; [by split|done|by split|done|done].
Qed.
Lemma freed_flags v v' l f : freed v v' l -> freed v (set_flags f v') l.
Proof. intros [[] Hb Hc]. split; [by split|done|done]. Qed.

(** ** The list cut after [n] blocks *)

Fixpoint take_blocks (n : Z) (l : extents) : extents :=
  match l with
  | [] => []
  | e :: l => if n <=? 0 then []
              else if n <? blockCount e then [Ext (startBlock e) n] else e :: take_blocks (n - blockCount e) l
  end.

Lemma take_blocks_split pre e post n : Forall nonempty pre -> total pre < n <= total pre + blockCount e ->
  take_blocks n (pre ++ e :: post) = pre ++ [Ext (startBlock e) (n - total pre)].
Proof.
  intros Hp. revert n. induction Hp as [|x pre Hx Hp IH]; simpl; intros n Hn.
  - rewrite (proj2 (Z.leb_gt n 0)) by lia. case_ztest; [by rewrite Z.sub_0_r|].
    replace n with (blockCount e) by lia. rewrite Z.sub_diag, Z.sub_0_r. destruct e. by destruct post.
  - unfold nonempty in Hx. pose proof (ext_total_nonneg _ Hp).
    rewrite (proj2 (Z.leb_gt n 0)), (proj2 (Z.ltb_ge n (blockCount x))), IH by lia.
    by replace (n - (blockCount x + total pre)) with (n - blockCount x - total pre) by lia.
Qed.

Lemma take_blocks_zero l : take_blocks 0 l = [].
Proof. by destruct l. Qed.

(** ** Writing records of a fork *)

(** A record with the extents [l]. *)
Definition padded (l : extents) : extents := l ++ replicate (8 - length l) ext0.

(** The fork after record [j] was written with [l]. *)
Record written (fcb : filefork) (m : gmap extent_key extents) (RS : list extents) (j : nat) (l : extents)
    (fcb' : filefork) (m' : gmap extent_key extents) : Prop := {
  wr_id : c_fileid fcb' = c_fileid fcb;
  wr_fork : forkType fcb' = forkType fcb;
  wr_blocks : ff_blocks fcb' = ff_blocks fcb;
  wr_record : match j with
              | O => fcbExtents fcb' = padded l /\ m' = m
              | S _ => fcbExtents fcb' = fcbExtents fcb /\
                  m' = <[(c_fileid fcb, forkType fcb, record_start RS j) := padded l]> m
              end
}.

Lemma padded_ok l : (length l <= 8)%nat -> Forall (fun e => 0 <= startBlock e < 2 ^ 32 /\ 0 <= blockCount e < 2 ^ 32) l ->
  record_ok (padded l).
Proof.
  intros Hl Hr. unfold padded. split; [rewrite length_app, length_replicate; lia|]. apply Forall_app. split; [done|].
  apply Forall_replicate. cbn. lia.
Qed.

Lemma record_start_cut (RS : list extents) j l i : (i <= j <= length RS)%nat ->
  record_start (take j RS ++ [l]) i = record_start RS i.
Proof.
  intros Hi. unfold record_start. rewrite take_app_le by (rewrite length_take; lia). rewrite take_take.
  do 3 f_equal. lia.
Qed.

(** A record with extents has blocks. *)
Lemma record_positive n d (l : extents) : record_holds n d l -> l <> [] -> 1 <= total l.
Proof.
  intros [_ _ _ Hu] Hl. destruct l as [|e l]; [done|]. apply Forall_cons in Hu as [He Hu].
  pose proof (ext_total_nonneg _ Hu). unfold nonempty in He. simpl. lia.
Qed.

(** The fork with record [j] replaced, and none behind it. *)
Lemma fork_replace vcb m fcb RS j l0 l fcb1 m1 m' : fork_ok vcb m fcb RS -> RS !! j = Some l0 ->
  record_holds (numberOfExtents vcb) (padded l) l -> (j <> 0%nat -> l <> []) -> total (concat (take j RS) ++ l) < 2 ^ 32 ->
  written fcb m RS j l fcb1 m1 ->
  (forall k, m' !! k = if bool_decide (k.1 = (c_fileid fcb, forkType fcb) /\ record_start RS (S j) <= k.2) then None else m1 !! k) ->
  fork_ok vcb m' fcb1 (take j RS ++ [l]).
Proof.
  intros HF Hj Hrec Hne Htot [Hid Hfk _ Hw] Hm'. pose proof (lookup_lt_Some _ _ _ Hj) as Hlen.
  assert (forall i li, (i < j)%nat -> RS !! S i = Some li -> m1 !! (c_fileid fcb, forkType fcb, record_start RS (S i)) =
    m !! (c_fileid fcb, forkType fcb, record_start RS (S i)) \/ S i = j) as Hsame.
  { intros i li Hi Hli. destruct j as [|j]; [lia|]. destruct Hw as [_ ->]. destruct (decide (S i = S j)); [by right|left].
    rewrite lookup_insert_ne; [done|]. pose proof (record_start_inj vcb m fcb RS HF i j ltac:(by rewrite Hli) ltac:(lia) ltac:(lia)).
    intros [=]. lia. }
  assert (forall i, (S i <= j)%nat -> record_start RS (S i) < record_start RS (S j)) as Hlt.
  { intros i Hi. pose proof (record_start_mono vcb m fcb RS HF (S i) j ltac:(lia)). destruct j as [|j]; [lia|].
    destruct (fo_record _ _ _ _ HF j l0 Hj) as (Hl0 & d & _ & Hd). rewrite (record_start_S RS (S j) _ Hj).
    pose proof (record_positive _ _ _ Hd Hl0). lia. }
  assert (forall i li, (take j RS ++ [l]) !! i = Some li ->
    (i < j)%nat /\ RS !! i = Some li \/ i = j /\ li = l) as Hlook.
  { intros i li Hi. destruct (decide (i < j)%nat).
    - rewrite lookup_app_l in Hi by (rewrite length_take; lia). apply lookup_take_Some in Hi as [? _]. by left.
    - right. rewrite lookup_app_r in Hi by (rewrite length_take; lia). apply list_lookup_singleton_Some in Hi as [? ->].
      rewrite length_take in *. split; [lia|done]. }
  split.
  - destruct (fo_resident _ _ _ _ HF) as (lr & H0 & Hd0 & Hfull). destruct j as [|j].
    + destruct Hw as [-> _]. exists l. split; [done|]. split; [done|]. simpl. lia.
    + destruct Hw as [-> _]. exists lr. split; [|split; [done|intros _; apply Hfull; lia]].
      rewrite lookup_app_l by (rewrite length_take; lia). by rewrite lookup_take_lt by lia.
  - intros i li Hi. rewrite Hid, Hfk. destruct (Hlook _ _ Hi) as [[Hij Hli]|[Hij ->]].
    + destruct (fo_record _ _ _ _ HF i li Hli) as (? & d & Hd & ?). split; [done|]. exists d. split; [|done].
      rewrite record_start_cut by lia. rewrite Hm', bool_decide_eq_false_2 by (cbn; specialize (Hlt i); lia).
      destruct (Hsame i li ltac:(lia) Hli) as [->|]; [done|lia].
    + split; [apply Hne; lia|]. exists (padded l). rewrite record_start_cut by lia.
      rewrite Hm', bool_decide_eq_false_2 by (cbn; specialize (Hlt i); lia). subst j. destruct Hw as [_ ->].
      rewrite lookup_insert_eq. done.
  - intros s d Hs. rewrite Hid, Hfk, Hm' in Hs. case_bool_decide as Hb; [done|]. cbn [fst snd] in Hb.
    assert (s < record_start RS (S j)) as Hsj by (destruct (decide (record_start RS (S j) <= s)); [tauto|lia]).
    assert (forall i li, RS !! S i = Some li -> s = record_start RS (S i) -> (S i <= j)%nat) as Hle.
    { intros i li Hi ->. destruct (decide (S i <= j)%nat); [done|]. apply lookup_lt_Some in Hi.
      pose proof (record_start_mono vcb m fcb RS HF (S j) (S i) ltac:(lia)). lia. }
    destruct j as [|j].
    + destruct Hw as [_ ->]. destruct (fo_only _ _ _ _ HF s d Hs) as (i & li & Hi & E). specialize (Hle i li Hi E). lia.
    + destruct Hw as [_ ->]. destruct (decide (s = record_start RS (S j))) as [->|Hsj'].
      * exists j, l. rewrite record_start_cut by lia. split; [|done].
        rewrite lookup_app_r by (rewrite length_take; lia). rewrite length_take. by replace (S j - S j `min` length RS)%nat with O by lia.
      * rewrite lookup_insert_ne in Hs by congruence. destruct (fo_only _ _ _ _ HF s d Hs) as (i & li & Hi & E).
        specialize (Hle i li Hi E). assert (i <> j) by congruence. exists i, li. rewrite record_start_cut by lia.
        split; [|done]. rewrite lookup_app_l by (rewrite length_take; lia). by rewrite lookup_take_lt by lia.
  - rewrite Hid. apply HF.
  - rewrite concat_app. cbn [concat]. by rewrite app_nil_r.
Qed.

(** The fork cut after a part of record [j]. *)
Lemma fork_cut vcb m fcb RS j l1 e l2 n fcb1 m1 m' : fork_ok vcb m fcb RS -> RS !! j = Some (l1 ++ e :: l2) ->
  1 <= n <= blockCount e -> written fcb m RS j (l1 ++ [Ext (startBlock e) n]) fcb1 m1 ->
  (forall k, m' !! k = if bool_decide (k.1 = (c_fileid fcb, forkType fcb) /\ record_start RS (S j) <= k.2) then None else m1 !! k) ->
  fork_ok vcb m' fcb1 (take j RS ++ [l1 ++ [Ext (startBlock e) n]]).
Proof.
  intros HF Hj Hn Hw Hm'. apply (fork_replace vcb m fcb RS j (l1 ++ e :: l2) _ fcb1 m1); try done.
  - assert (exists d, record_holds (numberOfExtents vcb) d (l1 ++ e :: l2)) as [d [_ Hf H8 Hu]].
    { destruct j as [|j]; [destruct (fo_resident _ _ _ _ HF) as (l0 & H0 & Hd0 & _); simplify_eq; by eexists|].
      destruct (fo_record _ _ _ _ HF j _ Hj) as (_ & d & _ & Hd). by eexists. }
    split; [done| |done|].
    + rewrite length_app in *. simpl in *. lia.
    + apply Forall_app in Hu as (? & [? _]%Forall_cons). apply Forall_app. split; [done|].
      apply Forall_singleton. unfold nonempty. cbn. lia.
  - intros _. by destruct l1.
  - pose proof (fo_total _ _ _ _ HF) as Ht. pose proof (fork_used _ _ _ _ HF) as Hu. rewrite (concat_split RS j _ Hj) in Ht, Hu.
    apply Forall_app in Hu as (_ & [(_ & [_ Hu2]%Forall_cons)%Forall_app Hu]%Forall_app).
    pose proof (ext_total_nonneg _ Hu). pose proof (ext_total_nonneg _ Hu2). rewrite !ext_total_app in *. simpl in *. lia.
Qed.

(** ** Truncation *)

Section truncate.
Context {X : Type} `{!ExtentsFile X} (rep : X -> gmap extent_key extents -> Prop) (hint_ok : X -> Z -> Prop)
  (room : X -> nat -> Prop) (removable : X -> Z -> Z -> Z -> Prop)
  `{!ExtentsFileReads X rep hint_ok, !ExtentsFileWrites X rep hint_ok room removable}.
Context (bread : Z -> Z).

(** The volume of [x] with its extents file. *)
Definition holds_volume (x : X) (m : gmap extent_key extents) (owned : extents) : Prop :=
  rep x m /\ vol_state bread (xf_vcb x) owned.

Lemma numberOfExtents_layout v v' : same_layout v v' -> numberOfExtents v' = numberOfExtents v.
Proof using Type. intros [E _ _ _ _]. unfold numberOfExtents. by rewrite E. Qed.

(** The end of a record given back. *)
Lemma dealloc_in x m A e B : holds_volume x m (A ++ e :: B) ->
  exists v', BlockDeallocate bread (xf_vcb x) (startBlock e) (blockCount e) = Ok (noErr, v') /\
    holds_volume (xf_set x v') m (A ++ B) /\ freed (xf_vcb x) v' [e].
Proof using ExtentsFileReads0.
  intros [Hx Hv]. destruct (dealloc_step bread (xf_vcb x) A e B Hv) as (v' & ? & ? & Hf). exists v'. split_and!; [done| |done].
  split; [|by rewrite xf_vcb_set]. apply xf_rep_set; [done|]. apply Hf.
Qed.

(** The loop of [ReleaseExtents]: [todo] is still to be released. *)
Lemma release_extents_spec n d l A m todo : forall pre x k, record_holds n d l -> l = pre ++ todo ->
  0 <= k -> k + total todo < 2 ^ 32 -> holds_volume x m (A ++ todo) ->
  exists x' last, release_extents bread (Z.to_nat n - length pre) (Z.of_nat (length pre)) k x d = Ok (noErr, k + total todo, last, x') /\
    holds_volume x' m A /\ freed (xf_vcb x) (xf_vcb x') todo /\ last = (Z.of_nat (length l) <? n) /\
    keeps hint_ok room removable x x'.
Proof using ExtentsFileReads0 ExtentsFileWrites0.
  induction todo as [|e todo IH]; intros pre x k Hd El Hk Ht Hx; pose proof (rh_fits _ _ _ Hd).
  - rewrite app_nil_r in El, Hx. subst pre. simpl. rewrite Z.add_0_r. exists x.
    destruct (decide (Z.of_nat (length l) = n)) as [E|E].
    + replace (Z.to_nat n - length l)%nat with O by lia. exists false. split; [done|]. split; [done|].
      split; [apply freed_nil|]. split; [|done]. symmetry. apply Z.ltb_ge. lia.
    + replace (Z.to_nat n - length l)%nat with (S (Z.to_nat n - length l - 1)) by lia. simpl.
      rewrite (record_end n d l) by (done || lia). exists true. split; [done|]. split; [done|].
      split; [apply freed_nil|]. split; [|done]. symmetry. apply Z.ltb_lt. lia.
  - assert (ext_at d (Z.of_nat (length pre)) = e) as He.
    { apply (record_at n d l); [done|]. rewrite El. apply list_lookup_split. }
    pose proof (rh_used _ _ _ Hd) as Hu. rewrite El in Hu. apply Forall_app in Hu as (_ & [He1 Htodo]%Forall_cons).
    unfold nonempty in He1. pose proof (ext_total_nonneg _ Htodo). simpl in Ht.
    assert (length l = length pre + S (length todo))%nat as Hlen by (rewrite El, length_app; done).
    replace (Z.to_nat n - length pre)%nat with (S (Z.to_nat n - length (pre ++ [e]))) by (rewrite length_app; simpl; lia).
    cbn [release_extents]. rewrite He. rewrite (proj2 (Z.eqb_neq (blockCount e) 0)) by lia.
    destruct (dealloc_in x m A e todo Hx) as (v' & -> & Hx' & Hf). cbn [mbind outcome_bind].
    change (negb (noErr =? noErr)) with false. cbv iota zeta. rewrite u32_small by lia.
    replace (Z.of_nat (length pre) + 1) with (Z.of_nat (length (pre ++ [e]))) by (rewrite length_app; simpl; lia).
    destruct (IH (pre ++ [e]) (xf_set x v') (k + blockCount e)) as (x' & last & -> & ? & Hf' & ? & Hk');
      [done|by rewrite El, <- app_assoc|lia|lia|done|].
    exists x', last. simpl. rewrite Z.add_assoc. split; [done|]. split; [done|]. split.
    { rewrite xf_vcb_set in Hf'. by apply (freed_app _ v' _ [e]). }
    split; [done|]. pose proof (xf_set_keeps (ExtentsFileWrites := ExtentsFileWrites0) x v') as Hk0. unfold keeps in *. naive_solver.
Qed.

Lemma ReleaseExtents_spec x m d l A : record_holds (numberOfExtents (xf_vcb x)) d l -> total l < 2 ^ 32 ->
  holds_volume x m (A ++ l) ->
  exists x' last, ReleaseExtents bread x d = Ok (noErr, total l, last, x') /\
    holds_volume x' m A /\ freed (xf_vcb x) (xf_vcb x') l /\ last = (Z.of_nat (length l) <? numberOfExtents (xf_vcb x)) /\
    keeps hint_ok room removable x x'.
Proof using ExtentsFileReads0 ExtentsFileWrites0.
  intros Hd Ht Hx. pose proof (release_extents_spec _ d l A m l [] x 0 Hd eq_refl ltac:(lia) ltac:(lia) Hx) as H.
  cbn [length] in H. by rewrite Nat.sub_0_r, Z.add_0_l in H.
Qed.

Lemma StronglySorted_perm {T} (R : T -> T -> Prop) `{!Symmetric R} l l' : l ≡ₚ l' -> StronglySorted R l -> StronglySorted R l'.
Proof using Type.
  induction 1 as [|x l l' HP IH|x y l|l1 l2 l3 H1 IH1 H2 IH2]; intros Hs; [done|..].
  - apply StronglySorted_cons in Hs as [Hx Hs]. apply StronglySorted_cons. split; [by rewrite <- HP|by apply IH].
  - apply StronglySorted_cons in Hs as [Hy [Hx Hs]%StronglySorted_cons]. apply Forall_cons in Hy as [Hyx Hy].
    apply StronglySorted_cons. split; [by constructor|]. by apply StronglySorted_cons.
  - auto.
Qed.

Lemma vol_state_perm v owned owned' : owned ≡ₚ owned' -> vol_state bread v owned -> vol_state bread v owned'.
Proof using Type.
  intros HP [[Hinv Hbr Hu Hd] Hr]. split; [|done]. split; [done|done|..]; cbn [as_owned as_vol] in *.
  - by rewrite <- HP.
  - assert (Symmetric ext_disjoint) by (intros e1 e2; apply ext_disjoint_sym). by apply (StronglySorted_perm _ owned).
Qed.

Lemma keeps_trans x1 x2 x3 : keeps hint_ok room removable x1 x2 -> keeps hint_ok room removable x2 x3 ->
  keeps hint_ok room removable x1 x3.
Proof using Type. intros (A1 & A2 & A3) (B1 & B2 & B3). split_and!; eauto. Qed.

(** The records of a fork that begin with block [b], as they are in the extents file. *)
Record tail_records (vcb : ExtendedVCB) (m : gmap extent_key extents) (fork id b : Z) (rest : list extents) : Prop := {
  tr_record i l : rest !! i = Some l -> l <> [] /\ exists d,
    m !! (id, fork, b + record_start rest i) = Some d /\ record_holds (numberOfExtents vcb) d l;
  tr_only s d : m !! (id, fork, s) = Some d -> b <= s -> exists i l, rest !! i = Some l /\ s = b + record_start rest i
}.

Lemma record_start_cons (l : extents) rest i : record_start (l :: rest) (S i) = total l + record_start rest i.
Proof using Type. unfold record_start. simpl. apply ext_total_app. Qed.

Lemma record_start_0 (rest : list extents) : record_start rest 0 = 0.
Proof using Type. done. Qed.

Lemma record_start_nonneg (rest : list extents) i :
  (forall j l, rest !! j = Some l -> exists n d, record_holds n d l) -> 0 <= record_start rest i.
Proof using Type.
  intros Hr. apply ext_total_nonneg, Forall_forall. intros e He%list_elem_of_In.
  apply in_concat in He as (l & Hl%list_elem_of_In & He%list_elem_of_In).
  apply list_elem_of_lookup in Hl as [j Hj]. apply lookup_take_Some in Hj as [Hj _].
  destruct (Hr j l Hj) as (n & d & Hd). by apply (proj1 (Forall_forall _ _) (rh_used _ _ _ Hd)).
Qed.

(** Without its first record. *)
Lemma tail_records_next vcb m fork id b l rest : tail_records vcb m fork id b (l :: rest) ->
  tail_records vcb (delete (id, fork, b) m) fork id (b + total l) rest.
Proof using Type.
  intros HT. pose proof HT as [Hr Ho]. destruct (Hr 0%nat l eq_refl) as (Hl & d0 & _ & Hd0).
  pose proof (record_positive _ _ _ Hd0 Hl). split.
  - intros i l' Hi. destruct (Hr (S i) l' Hi) as (? & d & Hd & ?). rewrite record_start_cons in Hd. split; [done|].
    exists d. split; [|done]. rewrite lookup_delete_ne; [by rewrite <- Z.add_assoc|].
    assert (0 <= record_start rest i); [|intros [=]; lia]. apply record_start_nonneg.
    intros j l2 Hj. destruct (Hr (S j) l2 Hj) as (_ & d2 & _ & ?). by eauto.
  - intros s d Hs Hb. apply lookup_delete_Some in Hs as [Hne Hs].
    destruct (Ho s d Hs ltac:(lia)) as ([|i] & l' & Hi & ->).
    + rewrite record_start_0 in Hb. lia.
    + exists i, l'. rewrite record_start_cons. split; [done|lia].
Qed.

(** [TruncateExtents] releases the records from block [b] on, one turn for each. *)
Lemma TruncateExtents_spec fork id b0 A rest : forall fuel x m b del, (length rest < fuel)%nat ->
  tail_records (xf_vcb x) m fork id b rest -> holds_volume x m (A ++ concat rest) -> removable x fork id b0 -> b0 <= b ->
  (fork = kDataForkType \/ fork = kResourceForkType) -> 0 <= id < 2 ^ 32 -> 0 <= b -> b + total (concat rest) < 2 ^ 32 ->
  exists del' x' m', TruncateExtents bread fuel x fork id b del = Ok (noErr, del', x') /\
    holds_volume x' m' A /\ freed (xf_vcb x) (xf_vcb x') (concat rest) /\
    (forall k, m' !! k = if bool_decide (k.1 = (id, fork) /\ b <= k.2) then None else m !! k).
Proof using ExtentsFileReads0 ExtentsFileWrites0.
  induction rest as [|l rest IH]; intros fuel x m b del Hfuel HT Hx Hrm Hb0 Hfork Hid Hb Ht;
    (destruct fuel as [|fuel]; [simpl in Hfuel; lia|]); cbn [TruncateExtents]; pose proof Hx as [Hrep _].
  - destruct (xf_find_ok x m fork id b false Hrep Hfork Hid ltac:(simpl in Ht; lia)) as (err & found & hint & x' & -> & Hf & Hx' & E & _).
    cbn [mbind outcome_bind]. destruct Hf as [(_ & s & d & _ & Hs & Hsb & Hbs & _)|(-> & _ & _)].
    { exfalso. rewrite (Hbs eq_refl) in Hs. by destruct (tr_only _ _ _ _ _ _ HT b d Hs ltac:(lia)) as (i & l & ? & _). }
    change (btNotFound =? noErr) with false. change (btNotFound =? btNotFound) with true. cbn [negb].
    exists del, x', m. split; [done|]. split; [|split].
    + split; [done|]. rewrite E. simpl in Hx. rewrite app_nil_r in Hx. apply Hx.
    + rewrite E. apply freed_nil.
    + intros [k s]. cbn [fst snd]. case_bool_decide as Hk; [|done]. destruct Hk as [-> Hk].
      destruct (m !! (id, fork, s)) as [d|] eqn:Es; [|done]. by destruct (tr_only _ _ _ _ _ _ HT s d Es Hk) as (i & l & ? & _).
  - destruct (tr_record _ _ _ _ _ _ HT 0 l eq_refl) as (Hl & d & Hd & Hrec). rewrite record_start_0, Z.add_0_r in Hd.
    pose proof (record_positive _ _ _ Hrec Hl) as Hpos. simpl in Ht. rewrite ext_total_app in Ht.
    assert (0 <= total (concat rest)) as Hrest.
    { pose proof (record_start_nonneg rest (length rest)) as H. unfold record_start in H. rewrite take_ge in H by done.
      apply H. intros j l2 Hj. destruct (tr_record _ _ _ _ _ _ HT (S j) l2 Hj) as (_ & d2 & _ & ?). by eauto. }
    destruct (xf_find_ok x m fork id b false Hrep Hfork Hid ltac:(lia)) as (err & found & hint & x1 & Hfind & Hf & Hx1 & E1 & _).
    rewrite Hfind. pose proof (xf_find_keeps (ExtentsFileWrites := ExtentsFileWrites0) _ _ _ _ _ _ _ _ _ _ Hrep Hfind) as Hk1.
    cbn [mbind outcome_bind]. destruct Hf as [(-> & s & d' & -> & Hs & Hsb & Hbs & _)|(_ & Hno & _)]; [|congruence].
    rewrite (Hbs eq_refl) in Hs. rewrite Hd in Hs. injection Hs as <-. change (noErr =? noErr) with true. cbn [negb of_option mbind outcome_bind].
    assert (holds_volume x1 m ((A ++ concat rest) ++ l)) as Hx1'.
    { split; [done|]. rewrite E1. destruct Hx as [_ Hv]. eapply vol_state_perm; [|exact Hv].
      simpl. rewrite <- app_assoc. by rewrite (Permutation_app_comm l). }
    rewrite <- E1 in Hrec. destruct (ReleaseExtents_spec x1 m d l (A ++ concat rest) Hrec ltac:(lia) Hx1')
      as (x2 & last & -> & Hx2 & Hf2 & _ & Hk2).
    cbn [mbind outcome_bind]. change (negb (noErr =? noErr)) with false. cbv iota. pose proof Hx2 as [Hrep2 Hv2].
    destruct (xf_delete_ok (ExtentsFileWrites := ExtentsFileWrites0) x2 m fork id b b0 d Hrep2 Hd)
      as (x3 & -> & Hrep3 & E3 & Hrm3); [by apply Hk2, Hk1|done|].
    cbn [mbind outcome_bind]. change (negb (noErr =? noErr)) with false. cbv iota. rewrite u32_small by lia.
    destruct (IH fuel x3 (delete (id, fork, b) m) (b + total l) true) as (del' & x' & m' & -> & Hx' & Hf' & Hm');
      [simpl in Hfuel; lia| |by split; [|rewrite E3]|done|lia|done|done|lia|lia|].
    { pose proof (tail_records_next _ _ _ _ _ _ _ HT) as [Hr Ho]. split; [|done]. intros i l' Hi. rewrite E3.
      rewrite (numberOfExtents_layout (xf_vcb x)); [by apply Hr|]. rewrite <- E1. apply Hf2. }
    exists del', x', m'. split; [done|]. split; [done|]. split.
    + rewrite <- E1. rewrite E3 in Hf'. by apply (freed_app _ (xf_vcb x2)).
    + intros [k s']. rewrite Hm'. cbn [fst snd]. destruct (decide (k = (id, fork))) as [->|Hne].
      2: { rewrite !bool_decide_eq_false_2 by naive_solver. rewrite lookup_delete_ne; [done|congruence]. }
      destruct (decide (s' = b)) as [->|Hne].
      { rewrite lookup_delete_eq. rewrite (bool_decide_eq_true_2 (_ /\ b <= b)) by (split; [done|lia]). by case_bool_decide. }
      rewrite lookup_delete_ne by congruence. destruct (decide (b <= s')) as [Hle|Hle].
      * rewrite (bool_decide_eq_true_2 (_ /\ b <= s')) by done. case_bool_decide as Hk; [done|].
        destruct (m !! (id, fork, s')) as [d'|] eqn:Es; [|done].
        destruct (tr_only _ _ _ _ _ _ HT s' d' Es Hle) as ([|i] & l' & Hi & ->); [rewrite record_start_0 in Hne; lia|].
        exfalso. apply Hk. split; [done|]. rewrite record_start_cons. assert (0 <= record_start rest i); [|lia].
        apply record_start_nonneg. intros j l2 Hj. destruct (tr_record _ _ _ _ _ _ HT (S j) l2 Hj) as (_ & d2 & _ & ?). by eauto.
      * rewrite !bool_decide_eq_false_2; [done|lia..].
Qed.

(** The loop that empties a record behind the extents [pre]; [c] are empty already. *)
Lemma truncate_record_spec n (pre : extents) A m todo : forall c x k ch,
  Z.of_nat (length pre + c + length todo) <= n -> n <= 8 -> Forall nonempty todo -> 0 <= k -> k + total todo < 2 ^ 32 ->
  holds_volume x m (A ++ todo) ->
  exists x', truncate_record bread (Z.to_nat n - (length pre + c)) x
      (pre ++ replicate c ext0 ++ todo ++ replicate (8 - (length pre + c + length todo)) ext0)
      (Z.of_nat (length pre + c)) k ch =
    Ok (noErr, pre ++ replicate (8 - length pre) ext0, k + total todo, ch || negb (bool_decide (todo = [])), x') /\
    holds_volume x' m A /\ freed (xf_vcb x) (xf_vcb x') todo /\ keeps hint_ok room removable x x'.
Proof using ExtentsFileReads0 ExtentsFileWrites0.
  induction todo as [|e todo IH]; intros c x k ch Hn H8 Hu Hk Ht Hx; cbn [length] in Hn.
  - rewrite app_nil_r in Hx. exists x. cbn [app length]. rewrite Nat.add_0_r in *.
    assert (pre ++ replicate c ext0 ++ replicate (8 - (length pre + c)) ext0 = pre ++ replicate (8 - length pre) ext0) as Ed.
    { rewrite <- replicate_add. do 2 f_equal. lia. }
    rewrite Ed. rewrite orb_false_r. simpl. rewrite Z.add_0_r. split_and!; [|done|apply freed_nil|done].
    destruct (Z.to_nat n - (length pre + c))%nat as [|n'] eqn:En; [done|]. cbn [truncate_record].
    assert (ext_at (pre ++ replicate (8 - length pre) ext0) (Z.of_nat (length pre + c)) = ext0) as ->.
    { unfold ext_at. rewrite Nat2Z.id, nth_lookup, lookup_app_r, lookup_replicate_2 by lia. done. }
    done.
  - apply Forall_cons in Hu as [He Hu]. unfold nonempty in He. pose proof (ext_total_nonneg _ Hu). simpl in Ht.
    replace (Z.to_nat n - (length pre + c))%nat with (S (Z.to_nat n - (length pre + S c))) by lia. cbn [truncate_record].
    set (pad := replicate (8 - (length pre + c + length (e :: todo))) ext0).
    assert (pre ++ replicate c ext0 ++ (e :: todo) ++ pad = (pre ++ replicate c ext0) ++ e :: todo ++ pad) as ->
      by (by rewrite <- app_assoc).
    assert (length (pre ++ replicate c ext0) = length pre + c)%nat as Hlen by (by rewrite length_app, length_replicate).
    rewrite <- Hlen.
    assert (ext_at ((pre ++ replicate c ext0) ++ e :: todo ++ pad) (Z.of_nat (length (pre ++ replicate c ext0))) = e) as ->.
    { unfold ext_at. by rewrite Nat2Z.id, nth_lookup, list_lookup_split. }
    rewrite (proj2 (Z.eqb_neq (blockCount e) 0)) by lia.
    destruct (dealloc_in x m A e todo Hx) as (v' & -> & Hx' & Hf). cbn [mbind outcome_bind].
    change (negb (noErr =? noErr)) with false. cbv iota zeta. rewrite u32_small by lia.
    unfold set_ext. rewrite Nat2Z.id, list_insert_split, Hlen.
    destruct (IH (S c) (xf_set x v') (k + blockCount e) true) as (x' & Hrun & ? & Hf' & Hk');
      [lia|done|done|lia|lia|done|].
    exists x'. split.
    + assert ((pre ++ replicate c ext0) ++ ext0 :: todo ++ pad =
        pre ++ replicate (S c) ext0 ++ todo ++ replicate (8 - (length pre + S c + length todo)) ext0) as ->.
      { rewrite <- app_assoc. f_equal. rewrite replicate_S_end, <- app_assoc. simpl. do 4 f_equal.
        unfold pad. f_equal. simpl. lia. }
      replace (Z.of_nat (length pre + c) + 1) with (Z.of_nat (length pre + S c)) by lia. rewrite Hrun.
      simpl. rewrite orb_true_r, Z.add_assoc. done.
    + split; [done|]. rewrite xf_vcb_set in Hf'. split; [by apply (freed_app _ v' _ [e])|].
      eapply keeps_trans; [apply (xf_set_keeps (ExtentsFileWrites := ExtentsFileWrites0) x v')|done].
Qed.

(** ** What is cut off *)

Fixpoint drop_blocks (n : Z) (l : extents) : extents :=
  match l with
  | [] => []
  | e :: l' => if n <=? 0 then l
               else if n <? blockCount e then Ext (startBlock e + n) (blockCount e - n) :: l'
               else drop_blocks (n - blockCount e) l'
  end.

Lemma drop_blocks_split pre e post n : Forall nonempty pre -> total pre < n <= total pre + blockCount e ->
  drop_blocks n (pre ++ e :: post) =
    (if n =? total pre + blockCount e then []
     else [Ext (startBlock e + blockCount e - (total pre + blockCount e - n)) (total pre + blockCount e - n)]) ++ post.
Proof using Type.
  intros Hp. revert n. induction Hp as [|x pre Hx Hp IH]; simpl; intros n Hn.
  - rewrite (proj2 (Z.leb_gt n 0)) by lia. rewrite !Z.add_0_l. destruct (Z.eqb_spec n (blockCount e)) as [->|].
    + rewrite Z.ltb_irrefl, Z.sub_diag. by destruct post.
    + rewrite (proj2 (Z.ltb_lt n (blockCount e))) by lia. simpl. do 2 f_equal; lia.
  - unfold nonempty in Hx. pose proof (ext_total_nonneg _ Hp).
    rewrite (proj2 (Z.leb_gt n 0)), (proj2 (Z.ltb_ge n (blockCount x))), IH by lia.
    destruct (Z.eqb_spec (n - blockCount x) (total pre + blockCount e)), (Z.eqb_spec n (blockCount x + total pre + blockCount e));
      try lia; [done|]. do 2 f_equal; f_equal; lia.
Qed.

(** The last extent that is kept, shortened to end with block [n]. *)
Lemma shorten_extent_spec x m loc l1 e l2 start n A B :
  record_holds (numberOfExtents (xf_vcb x)) (loc_data loc) (l1 ++ e :: l2) -> loc_index loc = Z.of_nat (length l1) ->
  loc_ending loc = start + blockCount e -> 0 <= start < n -> n <= start + blockCount e -> start + blockCount e < 2 ^ 32 ->
  0 <= startBlock e -> startBlock e + blockCount e < 2 ^ 32 ->
  holds_volume x m (A ++ e :: B) ->
  exists x' ch, shorten_extent bread x loc n =
      Ok (noErr, set_ext (loc_data loc) (loc_index loc) (Ext (startBlock e) (n - start)), ch, x') /\
    holds_volume x' m (A ++ Ext (startBlock e) (n - start) :: B) /\
    freed (xf_vcb x) (xf_vcb x') (if n =? start + blockCount e then []
      else [Ext (startBlock e + blockCount e - (start + blockCount e - n)) (start + blockCount e - n)]) /\
    (ch = false -> n = start + blockCount e) /\ keeps hint_ok room removable x x'.
Proof using ExtentsFileReads0 ExtentsFileWrites0.
  intros Hd Hi Hend Hs Hn Ht He0 He Hx. unfold shorten_extent. rewrite Hi, Hend.
  rewrite (record_at _ _ _ (length l1) e Hd) by apply list_lookup_split. cbv zeta. rewrite (u32_small (_ - n)) by lia.
  destruct (Z.eqb_spec n (start + blockCount e)) as [->|Hne].
  - rewrite Z.sub_diag. cbn [Z.eqb]. exists x, false. replace (start + blockCount e - start) with (blockCount e) by lia.
    destruct e as [es ec]. cbn [startBlock blockCount] in *. split_and!; [|done|apply freed_nil|done|done].
    unfold set_ext. rewrite Nat2Z.id, list_insert_id; [done|]. rewrite (rh_pad _ _ _ Hd).
    rewrite lookup_app_l by (rewrite length_app; simpl; lia). apply list_lookup_split.
  - rewrite (proj2 (Z.eqb_neq (start + blockCount e - n) 0)) by lia. rewrite (u32_small (startBlock e + _ - _)) by lia.
    destruct Hx as [Hrep Hv]. destruct (dealloc_tail bread (xf_vcb x) A e B (start + blockCount e - n) ltac:(lia) Hv) as (v' & -> & Hv' & Hf).
    cbn [mbind outcome_bind]. change (negb (noErr =? noErr)) with false. cbv iota zeta.
    replace (blockCount e - (start + blockCount e - n)) with (n - start) in * by lia. rewrite (u32_small (n - start)) by lia.
    rewrite (proj2 (Z.eqb_neq (n - start) 0)) by lia. exists (xf_set x v'), true. rewrite !xf_vcb_set.
    split_and!; [done| |done|done|apply (xf_set_keeps (ExtentsFileWrites := ExtentsFileWrites0) x v')].
    split; [|by rewrite xf_vcb_set]. apply xf_rep_set; [done|apply Hf].
Qed.

(** [UpdateExtentRecord] on the record of a location. *)
Lemma update_record_spec x m fcb RS loc j l0 l : rep x m -> at_record hint_ok x m fcb RS loc j l0 -> record_ok (padded l) ->
  exists fcb' x' m', UpdateExtentRecord x fcb (loc_key loc) (padded l) (loc_hint loc) = Ok (noErr, fcb', x') /\
    rep x' m' /\ xf_vcb x' = xf_vcb x /\ keeps hint_ok room removable x x' /\ written fcb m RS j l fcb' m'.
Proof using ExtentsFileReads0 ExtentsFileWrites0.
  intros Hx [Hj _ Hkey] Hok. unfold UpdateExtentRecord. destruct j as [|j].
  - destruct Hkey as [-> Hd]. cbn [Z.eqb]. eexists _, x, m. split; [reflexivity|]. split_and!; done.
  - destruct Hkey as (-> & Hm & Hh). cbn [xk_keyLength Z.eqb kHFSPlusExtentKeyMaximumLength].
    destruct (xf_update_ok (ExtentsFileWrites := ExtentsFileWrites0) x m _ _ _ _ (padded l) _ Hx Hm Hh Hok) as (x' & Hrun & ? & ? & ?).
    rewrite Hrun. cbn [mbind outcome_bind]. eexists fcb, x', _. split; [done|]. split; [done|]. split; [done|]. split; [done|].
    by split.
Qed.

(** A record that is not changed need not be written. *)
Lemma written_same x m fcb RS loc j l : at_record hint_ok x m fcb RS loc j l -> written fcb m RS j l fcb m.
Proof using Type.
  intros [Hj Hd Hkey]. pose proof (rh_pad _ _ _ Hd) as Ep. fold (padded l) in Ep. split; try done. destruct j as [|j].
  - destruct Hkey as [_ E]. by rewrite <- E.
  - destruct Hkey as (_ & Hm & _). split; [done|]. rewrite <- Ep. by rewrite insert_id.
Qed.


Lemma search_keeps x m fcb pos err loc x' : rep x m -> SearchExtentFile x fcb pos = Ok (err, loc, x') ->
  keeps hint_ok room removable x x'.
Proof using ExtentsFileWrites0.
  intros Hx. unfold SearchExtentFile. cbv zeta. set (b := u32 _).
  destruct (SearchExtentRecord _ _ _ _) as [[[err1 index] ending] more].
  destruct (err1 =? noErr); [by intros [= _ _ <-]|]. destruct more; [by intros [= _ _ <-]|].
  destruct (xf_find x (forkType fcb) (c_fileid fcb) b true) as [[[[err2 found] hint] x2]|?| |] eqn:Hf; try done.
  cbn [mbind outcome_bind]. pose proof (xf_find_keeps (ExtentsFileWrites := ExtentsFileWrites0) _ _ _ _ _ _ _ _ _ _ Hx Hf) as Hk.
  destruct (err2 =? btNotFound); [by intros [= _ _ <-]|]. destruct (negb _); [by intros [= _ _ <-]|].
  destruct found as [[key d]|]; [|done]. cbn [of_option mbind outcome_bind].
  destruct (SearchExtentRecord _ b d _) as [[[err3 index3] ending3] more3]. by intros [= _ _ <-].
Qed.

(** [FlushExtentFile] changes nothing but the flags of the volume. *)
Lemma flush_rep x m : rep x m -> exists err x' f, FlushExtentFile x = Ok (err, x') /\ rep x' m /\ xf_vcb x' = set_flags f (xf_vcb x).
Proof using ExtentsFileReads0 ExtentsFileWrites0.
  intros Hx. unfold FlushExtentFile.
  destruct (xf_flush_ok (ExtentsFileWrites := ExtentsFileWrites0) x m Hx) as (err & x' & -> & Hx' & E). cbn [mbind outcome_bind].
  destruct ((err =? noErr) && xf_modified x').
  - eexists err, _, _. split; [done|]. rewrite xf_vcb_set, E. split; [by apply xf_rep_set; [|rewrite E]|done].
  - exists err, x', (vcbFlags (xf_vcb x)). split; [done|]. split; [done|]. rewrite E. by destruct (xf_vcb x).
Qed.

Lemma flush_spec x m owned : holds_volume x m owned -> exists err x', FlushExtentFile x = Ok (err, x') /\
  holds_volume x' m owned /\ (forall v l, freed v (xf_vcb x) l -> freed v (xf_vcb x') l).
Proof using ExtentsFileReads0 ExtentsFileWrites0.
  intros [Hx Hv]. destruct (flush_rep x m Hx) as (err & x' & f & -> & Hx' & E). exists err, x'. split; [done|].
  unfold holds_volume. rewrite E. split; [split; [done|by apply vol_state_flags]|]. intros v l. apply freed_flags.
Qed.

Lemma truncate_exit_spec x m fcb owned del err : holds_volume x m owned -> exists x', truncate_exit x fcb del err = Ok (err, fcb, x') /\
  holds_volume x' m owned /\ (forall v l, freed v (xf_vcb x) l -> freed v (xf_vcb x') l).
Proof using ExtentsFileReads0 ExtentsFileWrites0.
  intros Hx. unfold truncate_exit. destruct del.
  - destruct (flush_spec x m owned Hx) as (e & x' & -> & ? & ?). cbn [mbind outcome_bind]. by exists x'.
  - cbn [mbind outcome_bind]. by exists x.
Qed.

Lemma record_start_drop (RS : list extents) j i : record_start RS j + record_start (drop j RS) i = record_start RS (j + i).
Proof using Type. unfold record_start. by rewrite <- ext_total_app, <- concat_app, take_take_drop. Qed.

(** The records behind record [j], which was written. *)
Lemma tail_of_fork vcb m fcb RS j l fcb1 m1 : fork_ok vcb m fcb RS -> (j < length RS)%nat -> written fcb m RS j l fcb1 m1 ->
  record_start RS j < record_start RS (S j) ->
  tail_records vcb m1 (forkType fcb) (c_fileid fcb) (record_start RS (S j)) (drop (S j) RS).
Proof using Type.
  intros HF Hj [_ _ _ Hw] Hlt.
  assert (forall s, record_start RS (S j) <= s -> m1 !! (c_fileid fcb, forkType fcb, s) = m !! (c_fileid fcb, forkType fcb, s)) as Hm1.
  { intros s Hs. destruct j as [|j]; destruct Hw as [_ ->]; [done|]. rewrite lookup_insert_ne; [done|]. intros [=]. lia. }
  split.
  - intros i li Hi. rewrite lookup_drop in Hi. destruct (fo_record _ _ _ _ HF (j + i) li Hi) as (? & d & Hd & ?).
    split; [done|]. exists d. rewrite record_start_drop. split; [|done]. rewrite Hm1; [done|].
    apply (record_start_mono vcb m fcb RS HF). apply lookup_lt_Some in Hi. lia.
  - intros s d Hs Hle. rewrite Hm1 in Hs by done. destruct (fo_only _ _ _ _ HF s d Hs) as (i & li & Hi & ->).
    destruct (decide (i < j)%nat) as [Hij|Hij].
    { pose proof (record_start_mono vcb m fcb RS HF (S i) j ltac:(lia)). lia. }
    exists (i - j)%nat, li. rewrite lookup_drop, record_start_drop. replace (S j + (i - j))%nat with (S i) by lia. done.
Qed.

(** The last part of a truncation: the records behind record [j] are given back. *)
Lemma truncate_tail fuel x m fcb RS j l fcb1 m1 A phys : fork_ok (xf_vcb x) m fcb RS -> (length RS <= fuel)%nat ->
  (j < length RS)%nat -> written fcb m RS j l fcb1 m1 -> record_start RS j < record_start RS (S j) ->
  holds_volume x m1 (A ++ concat (drop (S j) RS)) -> removable x (forkType fcb) (c_fileid fcb) (record_start RS 1) ->
  (forall i l, RS !! S i = Some l -> record_start RS (S i) < phys) ->
  exists x' m', truncate_rest bread fuel x fcb1 (record_start RS (S j)) phys noErr = Ok (noErr, fcb1, x') /\
    holds_volume x' m' A /\ (forall v l, freed v (xf_vcb x) l -> freed v (xf_vcb x') (l ++ concat (drop (S j) RS))) /\
    (forall k, m' !! k = if bool_decide (k.1 = (c_fileid fcb, forkType fcb) /\ record_start RS (S j) <= k.2) then None else m1 !! k).
Proof using ExtentsFileReads0 ExtentsFileWrites0.
  intros HF Hfuel Hj Hw Hlt Hx Hrm Hphys. pose proof (tail_of_fork _ _ _ _ _ _ _ _ HF Hj Hw Hlt) as HT.
  unfold truncate_rest. rewrite (wr_id _ _ _ _ _ _ _ Hw), (wr_fork _ _ _ _ _ _ _ Hw).
  pose proof (record_start_mono _ _ _ _ HF 0 (S j) ltac:(lia)) as H0. rewrite record_start_0 in H0.
  destruct (Z.ltb_spec (record_start RS (S j)) phys) as [Hp|Hp].
  - destruct (TruncateExtents_spec (forkType fcb) (c_fileid fcb) (record_start RS 1) A (drop (S j) RS) fuel x m1
      (record_start RS (S j)) false) as (del & x1 & m' & -> & Hx1 & Hf1 & Hm');
      [rewrite length_drop; lia|done|done|done|apply (record_start_mono _ _ _ _ HF); lia|apply fork_type|apply HF|lia| |].
    { pose proof (fo_total _ _ _ _ HF) as Ht. rewrite <- (take_drop (S j) RS), concat_app, ext_total_app in Ht. unfold record_start. lia. }
    cbn [mbind outcome_bind]. destruct (truncate_exit_spec x1 m' fcb1 A del noErr Hx1) as (x' & -> & Hx' & Hf').
    exists x', m'. split; [done|]. split; [done|]. split; [|done]. intros v l' Hf. apply Hf'. by apply (freed_app _ (xf_vcb x)).
  - assert (drop (S j) RS = []) as E.
    { destruct (drop (S j) RS) as [|l' rest] eqn:E; [done|]. exfalso.
      assert (RS !! S j = Some l') as Hl by (rewrite <- (Nat.add_0_r (S j)), <- lookup_drop, E; done).
      specialize (Hphys j l' Hl). lia. }
    rewrite E in *. cbn [concat] in *. rewrite app_nil_r in Hx. cbn [mbind outcome_bind].
    destruct (truncate_exit_spec x m1 fcb1 A false noErr Hx) as (x' & -> & Hx' & Hf').
    exists x', m1. split; [done|]. split; [done|]. split; [intros v l' Hf; rewrite app_nil_r; by apply Hf'|].
    intros [k s]. cbn [fst snd]. case_bool_decide as Hk; [|done]. destruct Hk as [-> Hk].
    destruct (m1 !! (c_fileid fcb, forkType fcb, s)) as [d|] eqn:Es; [|done].
    by destruct (tr_only _ _ _ _ _ _ HT s d Es Hk) as (i & l' & ? & _).
Qed.

(** Where a truncation to [n] blocks ends: with whole extents, where the extent of the last
    block ends. *)
Definition cut_point (l : extents) (n : Z) (toExtent : bool) (n' : Z) : Prop :=
  if toExtent then exists pre e post, l = pre ++ e :: post /\ total pre < n <= n' /\ n' = total pre + blockCount e
  else n' = n.

(** The record of the last extent that is kept, without the extents behind it. *)
Lemma truncate_in_record x m loc l1 e l2 start n (toExtent : bool) A rest :
  record_holds (numberOfExtents (xf_vcb x)) (loc_data loc) (l1 ++ e :: l2) -> loc_index loc = Z.of_nat (length l1) ->
  loc_ending loc = start + blockCount e -> 0 <= start < n -> n <= start + blockCount e -> start + blockCount e + total l2 < 2 ^ 32 ->
  holds_volume x m (A ++ e :: l2 ++ rest) ->
  let n' := if toExtent then start + blockCount e else n in
  let e' := Ext (startBlock e) (n' - start) in
  exists x1 x2 d1 ch1 ch, (if (toExtent : bool) then Ok (noErr, loc_data loc, false, x) else shorten_extent bread x loc n) = Ok (noErr, d1, ch1, x1) /\
    numberOfExtents (xf_vcb x1) = numberOfExtents (xf_vcb x) /\
    truncate_record bread (Z.to_nat (numberOfExtents (xf_vcb x) - (loc_index loc + 1))) x1 d1 (loc_index loc + 1) (loc_ending loc) ch1 =
      Ok (noErr, padded (l1 ++ [e']), start + blockCount e + total l2, ch, x2) /\
    holds_volume x2 m (A ++ e' :: rest) /\ (ch = false -> l1 ++ [e'] = l1 ++ e :: l2) /\ keeps hint_ok room removable x x2 /\
    freed (xf_vcb x) (xf_vcb x2) ((if n' =? start + blockCount e then []
      else [Ext (startBlock e + blockCount e - (start + blockCount e - n')) (start + blockCount e - n')]) ++ l2).
Proof using ExtentsFileReads0 ExtentsFileWrites0.
  intros Hd Hi Hend Hs Hn Ht Hx n' e'.
  assert (0 <= startBlock e /\ startBlock e + blockCount e < 2 ^ 32) as [He0 He].
  { destruct Hx as [_ [[Hinv _ Hu _] _]]. cbn [as_owned as_vol] in *. apply Forall_app in Hu as (_ & [(? & ? & ? & _) _]%Forall_cons).
    pose proof (geom_total _ (inv_geom _ Hinv)). lia. }
  pose proof (rh_used _ _ _ Hd) as Hu. apply Forall_app in Hu as (Hu1 & [Hue Hu2]%Forall_cons). pose proof (ext_total_nonneg _ Hu2).
  assert (exists x1 ch1, (if toExtent then Ok (noErr, loc_data loc, false, x) else shorten_extent bread x loc n) =
      Ok (noErr, set_ext (loc_data loc) (loc_index loc) e', ch1, x1) /\
    holds_volume x1 m (A ++ e' :: l2 ++ rest) /\
    freed (xf_vcb x) (xf_vcb x1) (if n' =? start + blockCount e then []
      else [Ext (startBlock e + blockCount e - (start + blockCount e - n')) (start + blockCount e - n')]) /\
    (ch1 = false -> n' = start + blockCount e) /\ keeps hint_ok room removable x x1) as (x1 & ch1 & -> & Hx1 & Hf1 & Hch1 & Hk1).
  { destruct toExtent; unfold n' in *.
    - assert (e' = e) as Ee by (unfold e'; destruct e; cbn; f_equal; lia). rewrite Ee, Z.eqb_refl. exists x, false.
      split_and!; [|done|apply freed_nil|done|done]. unfold set_ext. rewrite Hi, Nat2Z.id, list_insert_id; [done|].
      rewrite (rh_pad _ _ _ Hd), lookup_app_l by (rewrite length_app; simpl; lia). apply list_lookup_split.
    - apply (shorten_extent_spec x m loc l1 e l2 start n A (l2 ++ rest)); try done; lia. }
  pose proof (numberOfExtents_layout _ _ (fr_layout _ _ _ Hf1)) as Enum.
  assert (set_ext (loc_data loc) (loc_index loc) e' =
    (l1 ++ [e']) ++ replicate 0 ext0 ++ l2 ++ replicate (8 - (length (l1 ++ [e']) + 0 + length l2)) ext0) as ->.
  { unfold set_ext. rewrite Hi, Nat2Z.id, (rh_pad _ _ _ Hd), <- !app_assoc. cbn [app]. rewrite list_insert_split. simpl.
    do 4 f_equal. rewrite !length_app. simpl. lia. }
  destruct (truncate_record_spec (numberOfExtents (xf_vcb x)) (l1 ++ [e']) (A ++ e' :: rest) m l2 0 x1 (loc_ending loc) ch1)
    as (x2 & Hrun & Hx2 & Hf2 & Hk2).
  - pose proof (rh_fits _ _ _ Hd) as Hf. rewrite !length_app in *. simpl in *. lia.
  - apply Hd.
  - done.
  - unfold nonempty in Hue. lia.
  - lia.
  - destruct Hx1 as [? Hv1]. split; [done|]. eapply vol_state_perm; [|exact Hv1].
    rewrite <- app_assoc. apply Permutation_app_head. cbn [app]. apply perm_skip. apply Permutation_app_comm.
  - exists x1, x2, ((l1 ++ [e']) ++ replicate 0 ext0 ++ l2 ++ replicate (8 - (length (l1 ++ [e']) + 0 + length l2)) ext0),
      ch1, (ch1 || negb (bool_decide (l2 = []))). split; [done|]. split; [done|]. split.
    { assert (length (l1 ++ [e']) + 0 = S (length l1))%nat as El by (rewrite length_app; simpl; lia).
      replace (loc_index loc + 1) with (Z.of_nat (length (l1 ++ [e']) + 0)) by (rewrite El; lia).
      replace (Z.to_nat (numberOfExtents (xf_vcb x) - Z.of_nat (length (l1 ++ [e']) + 0)))
        with (Z.to_nat (numberOfExtents (xf_vcb x)) - (length (l1 ++ [e']) + 0))%nat by lia.
      rewrite Hrun, Hend. done. }
    split; [done|]. split; [|split; [by eapply keeps_trans|by apply (freed_app _ (xf_vcb x1))]].
    intros [-> Hl2]%orb_false_iff. apply negb_false_iff, bool_decide_eq_true in Hl2. subst l2. specialize (Hch1 eq_refl).
    do 2 f_equal. unfold e'. rewrite Hch1. destruct e. cbn. f_equal. lia.
Qed.

Lemma vol_state_range v owned : vol_state bread v owned ->
  Forall (fun e => 0 <= startBlock e < 2 ^ 32 /\ 0 <= blockCount e < 2 ^ 32) owned.
Proof using Type.
  intros [[Hinv _ Hu _] _]. cbn [as_owned as_vol] in *. pose proof (geom_total _ (inv_geom _ Hinv)).
  eapply Forall_impl; [exact Hu|]. intros y (? & ? & ? & _). lia.
Qed.

(** What a truncation of a fork with the records [RS] to [n] blocks leaves. *)
Definition truncated (x : X) (m : gmap extent_key extents) (fcb : filefork) (RS : list extents) (O : extents) (n : Z)
    (fcb' : filefork) (x' : X) : Prop :=
  exists m' RS', holds_volume x' m' (O ++ concat RS') /\ fork_ok (xf_vcb x') m' fcb' RS' /\
    concat RS' = take_blocks n (concat RS) /\ freed (xf_vcb x) (xf_vcb x') (drop_blocks n (concat RS)) /\
    (forall k, k.1 <> (c_fileid fcb, forkType fcb) -> m' !! k = m !! k).

(** The records of the extents file reach into the blocks that the fork counts. *)
Definition counted (fcb : filefork) (RS : list extents) (phys : Z) : Prop :=
  forall j l, RS !! S j = Some l -> record_start RS (S j) < phys.

Lemma fork_ok_layout v v' m fcb RS : fork_ok v m fcb RS -> same_layout v v' -> fork_ok v' m fcb RS.
Proof using Type. intros [] Hl. split; rewrite ?(numberOfExtents_layout v v' Hl); done. Qed.

Lemma written_other fcb m RS j l fcb1 m1 k : written fcb m RS j l fcb1 m1 -> k.1 <> (c_fileid fcb, forkType fcb) -> m1 !! k = m !! k.
Proof using Type.
  intros [_ _ _ Hw] Hk. destruct j as [|j]; destruct Hw as [_ ->]; [done|]. rewrite lookup_insert_ne; [done|]. by intros <-.
Qed.

Lemma truncate_to_spec fuel x m fcb RS O n phys toExtent :
  holds_volume x m (O ++ concat RS) -> fork_ok (xf_vcb x) m fcb RS -> (length RS <= fuel)%nat ->
  removable x (forkType fcb) (c_fileid fcb) (record_start RS 1) -> counted fcb RS phys ->
  1 <= n <= total (concat RS) -> 0 < blockSize (xf_vcb x) ->
  exists n' fcb' x', truncate_to bread fuel x fcb n phys toExtent = Ok (noErr, fcb', x') /\
    cut_point (concat RS) n toExtent n' /\ truncated x m fcb RS O n' fcb' x' /\ ff_blocks fcb' = ff_blocks fcb.
Proof using ExtentsFileReads0 ExtentsFileWrites0.
  intros Hx HF Hfuel Hrm Hphys Hn Hbs. pose proof (fo_total _ _ _ _ HF) as Htot. unfold truncate_to.
  destruct (SearchExtentFile_spec rep hint_ok x m fcb RS (n * blockSize (xf_vcb x) - 1) (proj1 Hx) HF)
    as (err & loc & x0 & Hrun & Hx0 & E0 & Hpost).
  pose proof (search_keeps _ _ _ _ _ _ _ (proj1 Hx) Hrun) as Hk0. rewrite Hrun. cbn [mbind outcome_bind].
  assert (u32 (Z.quot (n * blockSize (xf_vcb x) - 1) (blockSize (xf_vcb x))) = n - 1) as Eb.
  { rewrite Z.quot_div_nonneg by nia. rewrite u32_small; [|split; [apply Z.div_pos; nia|apply Z.div_lt_upper_bound; nia]].
    symmetry. apply (Z.div_unique_pos _ _ _ (blockSize (xf_vcb x) - 1)); lia. }
  rewrite Eb in Hpost. destruct Hpost as [(-> & _ & j & l & l1 & e & l2 & Hat & El & Hi & Hend & Hin)|(_ & Hb & _)]; [|lia].
  change (negb (noErr =? noErr)) with false. cbv iota. pose proof (ar_record _ _ _ _ _ _ _ _ Hat) as Hj. subst l.
  rewrite <- E0 in HF. destruct (record_total _ _ _ _ HF j _ Hj) as (H0 & _ & Hjt).
  assert (record_start RS (S j) = record_start RS j + total l1 + blockCount e + total l2) as ES
    by (rewrite (record_start_S RS j _ Hj), ext_total_app; simpl; lia).
  rewrite ext_total_app in Hjt. simpl in Hjt.
  pose proof (concat_split RS j _ Hj) as Ec. rewrite <- app_assoc in Ec. cbn [app] in Ec.
  assert (Forall nonempty (concat (take j RS) ++ l1) /\ 0 <= total l1 /\ 0 <= total l2) as (Hpre & Hl1 & Hl2).
  { pose proof (fork_used _ _ _ _ HF) as Hu. rewrite Ec in Hu.
    apply Forall_app in Hu as [Hu0 [Hu [_ [Hu2 _]%Forall_app]%Forall_cons]%Forall_app].
    split; [by apply Forall_app|]. split; by apply ext_total_nonneg. }
  set (first := record_start RS j + total l1) in *.
  destruct (truncate_in_record x0 m loc l1 e l2 first n toExtent (O ++ concat (take j RS) ++ l1) (concat (drop (S j) RS)))
    as (x1 & x2 & d1 & ch1 & ch & -> & En1 & Hrec & Hx2 & Hch & Hk2 & Hf2); [apply Hat|done|lia|lia|lia|lia| |].
  { split; [done|]. rewrite E0. destruct Hx as [_ Hv]. rewrite Ec in Hv. by rewrite <- !app_assoc. }
  cbn [mbind outcome_bind]. change (negb (noErr =? noErr)) with false. cbv iota zeta. rewrite En1, Hrec. cbn [mbind outcome_bind].
  change (negb (noErr =? noErr)) with false. cbv iota.
  set (n' := if toExtent then first + blockCount e else n) in *. set (e' := Ext (startBlock e) (n' - first)) in *.
  assert (first < n' <= first + blockCount e) as Hn' by (unfold n'; destruct toExtent; lia).
  pose proof (numberOfExtents_layout _ _ (fr_layout _ _ _ Hf2)) as En2.
  assert (exists fcb1 x3 m1, (if ch then UpdateExtentRecord x2 fcb (loc_key loc) (padded (l1 ++ [e'])) (loc_hint loc) else Ok (noErr, fcb, x2)) =
      Ok (noErr, fcb1, x3) /\ rep x3 m1 /\ xf_vcb x3 = xf_vcb x2 /\ keeps hint_ok room removable x2 x3 /\
      written fcb m RS j (l1 ++ [e']) fcb1 m1) as (fcb1 & x3 & m1 & -> & Hx3 & E3 & Hk3 & Hw).
  { assert (at_record hint_ok x2 m fcb RS loc j (l1 ++ e :: l2)) as Hat2.
    { destruct Hat as [? ? Hkey]. split; [done|by rewrite En2|]. destruct j; [done|]. destruct Hkey as (? & ? & ?).
      split_and!; [done..|by apply Hk2]. }
    destruct ch.
    - apply (update_record_spec x2 m fcb RS loc j (l1 ++ e :: l2)); [apply Hx2|done|].
      pose proof (ar_data _ _ _ _ _ _ _ _ Hat) as Hd. apply padded_ok.
      + pose proof (rh_fits _ _ _ Hd). pose proof (rh_max _ _ _ Hd). rewrite !length_app in *. simpl in *. lia.
      + pose proof (vol_state_range _ _ (proj2 Hx)) as Hr. rewrite Ec in Hr.
        apply Forall_app in Hr as [_ [_ [Hr1 [Hre _]%Forall_cons]%Forall_app]%Forall_app].
        apply Forall_app. split; [done|]. apply Forall_singleton. unfold e'. cbn. lia.
    - exists fcb, x2, m. split; [done|]. split; [apply Hx2|]. split; [done|]. split; [done|].
      rewrite (Hch eq_refl). by apply (written_same x2 m fcb RS loc). }
  cbn [mbind outcome_bind]. change (negb (noErr =? noErr)) with false. cbv iota. rewrite <- ES.
  destruct (truncate_tail fuel x3 m fcb RS j (l1 ++ [e']) fcb1 m1 (O ++ concat (take j RS) ++ l1 ++ [e']) phys)
    as (x' & m' & -> & Hx' & Hf' & Hm'); try done.
  - rewrite E3. by apply (fork_ok_layout (xf_vcb x0)), Hf2.
  - by apply lookup_lt_Some in Hj.
  - lia.
  - split; [done|]. rewrite E3. destruct Hx2 as [_ Hv2]. by rewrite <- !app_assoc in *.
  - by apply Hk3, Hk2, Hk0.
  - set (pre := concat (take j RS) ++ l1). set (post := l2 ++ concat (drop (S j) RS)).
    assert (total pre = first) as Et by (unfold pre; rewrite ext_total_app; done).
    assert (concat RS = pre ++ e :: post) as Eall by (unfold pre, post; by rewrite <- app_assoc).
    assert (concat (take j RS ++ [l1 ++ [e']]) = pre ++ [e']) as Econ
      by (unfold pre; rewrite concat_app; cbn [concat]; by rewrite app_nil_r, <- app_assoc).
    specialize (Hf' _ _ ltac:(rewrite E3; exact Hf2)). rewrite <- app_assoc in Hf'. fold post in Hf'. rewrite <- Et in Hf'.
    rewrite <- (drop_blocks_split pre e post n' Hpre) in Hf' by lia. rewrite <- Eall, E0 in Hf'.
    exists n', fcb1, x'. split; [done|]. split; [|split; [|apply Hw]].
    + unfold cut_point, n'. destruct toExtent; [|done]. exists pre, e, post. split; [done|]. lia.
    + exists m', (take j RS ++ [l1 ++ [e']]). rewrite Econ. split_and!; [| | |done|].
      * unfold pre. by rewrite <- app_assoc.
      * apply (fork_ok_layout (xf_vcb x)); [|apply Hf']. rewrite <- E0.
        by apply (fork_cut (xf_vcb x0) m fcb RS j l1 e l2 (n' - first) fcb1 m1 m'); [..|lia| |].
      * rewrite Eall, (take_blocks_split pre e post n' Hpre) by lia. by rewrite Et.
      * intros k Hk. rewrite Hm', bool_decide_eq_false_2 by (intros [? _]; done). by apply (written_other fcb m RS j (l1 ++ [e']) fcb1).
Qed.

Lemma drop_blocks_zero l : drop_blocks 0 l = l.
Proof using Type. by destruct l. Qed.

(** All records of the fork are given back. *)
Lemma DeallocateFork_spec fuel x m fcb RS O : holds_volume x m (O ++ concat RS) -> fork_ok (xf_vcb x) m fcb RS ->
  (length RS <= fuel)%nat -> removable x (forkType fcb) (c_fileid fcb) (record_start RS 1) ->
  exists del x' m', DeallocateFork bread fuel x (c_fileid fcb) (forkType fcb) (fcbExtents fcb) false = Ok (noErr, del, x') /\
    holds_volume x' m' O /\ freed (xf_vcb x) (xf_vcb x') (concat RS) /\
    (forall k, m' !! k = if bool_decide (k.1 = (c_fileid fcb, forkType fcb)) then None else m !! k).
Proof using ExtentsFileReads0 ExtentsFileWrites0.
  intros Hx HF Hfuel Hrm. destruct (fo_resident _ _ _ _ HF) as (l0 & H0 & Hd & Hfull). pose proof (fo_total _ _ _ _ HF) as Htot.
  destruct (record_total _ _ _ _ HF 0 l0 H0) as (_ & Hl0 & Hle). rewrite record_start_0 in Hle.
  destruct RS as [|l rest]; [done|]. injection H0 as ->. pose proof (record_start_S (l0 :: rest) 0 l0 eq_refl) as E1.
  rewrite record_start_0 in E1. unfold DeallocateFork. cbn [concat] in *.
  destruct (ReleaseExtents_spec x m (fcbExtents fcb) l0 (O ++ concat rest) Hd ltac:(lia)) as (x1 & last & -> & Hx1 & Hf1 & Hlast & Hk1).
  { destruct Hx as [? Hv]. split; [done|]. eapply vol_state_perm; [|exact Hv].
    rewrite <- app_assoc. apply Permutation_app_head, Permutation_app_comm. }
  cbn [mbind outcome_bind]. change (noErr =? noErr) with true. cbn [andb].
  assert (tail_records (xf_vcb x1) m (forkType fcb) (c_fileid fcb) (total l0) rest) as HT.
  { pose proof (numberOfExtents_layout _ _ (fr_layout _ _ _ Hf1)) as En. split.
    - intros i l Hi. rewrite En. destruct (fo_record _ _ _ _ HF i l Hi) as (? & d & Hm & ?). rewrite record_start_cons in Hm. eauto.
    - intros s d Hs _. destruct (fo_only _ _ _ _ HF s d Hs) as (i & l & Hi & ->). exists i, l. by rewrite record_start_cons. }
  assert (forall s d, m !! (c_fileid fcb, forkType fcb, s) = Some d -> total l0 <= s) as Hge.
  { intros s d Hs. destruct (fo_only _ _ _ _ HF s d Hs) as (i & l & Hi & ->). rewrite record_start_cons.
    assert (0 <= record_start rest i); [|lia]. apply record_start_nonneg. intros j l' Hj.
    destruct (fo_record _ _ _ _ HF j l' Hj) as (_ & d' & _ & ?). by eauto. }
  destruct last; cbn [negb].
  - assert (rest = []) as ->.
    { destruct rest as [|l rest]; [done|]. symmetry in Hlast. apply Z.ltb_lt in Hlast. rewrite Hfull in Hlast by (simpl; lia). lia. }
    cbn [concat] in *. rewrite app_nil_r in *. exists false, x1, m. split_and!; try done.
    intros [k s]. cbn [fst]. case_bool_decide as Hk; [|done]. subst k.
    destruct (m !! (c_fileid fcb, forkType fcb, s)) as [d|] eqn:Es; [|done].
    by destruct (tr_only _ _ _ _ _ _ HT s d Es (Hge s d Es)) as (i & l & ? & _).
  - destruct (TruncateExtents_spec (forkType fcb) (c_fileid fcb) (total l0) O rest fuel x1 m (total l0) false)
      as (del & x' & m' & -> & Hx' & Hf' & Hm'); try done;
      [|apply fork_type|apply HF|by rewrite <- ext_total_app|].
    { apply Hk1. by rewrite E1 in Hrm. }
    exists del, x', m'. split_and!; [done|done|by apply (freed_app _ (xf_vcb x1))|].
    intros [k s]. rewrite Hm'. cbn [fst snd]. case_bool_decide as Hk; case_bool_decide as Hk'; try tauto. subst k.
    destruct (m !! (c_fileid fcb, forkType fcb, s)) as [d|] eqn:Es; [|done]. specialize (Hge s d Es). tauto.
Qed.

(** C12: [TruncateFileC] on an HFS Plus volume, to a size within the blocks of the fork,
    cuts the list of extents of the fork after the blocks of the new size: the fork keeps
    those before, in its own record and in the extents file, every block behind them is free
    on the volume and counted, nothing else on the volume and no record of another fork
    changes.  It always returns: one turn for each record that is deleted.  With
    [truncateToExtent] the last extent is kept whole.  Every block of the bitmap can be read,
    and the records of the fork behind the first one can be deleted from the extents file,
    whose changes are as the laws of its interface say. *)
Theorem TruncateFileC_correct fuel x m fcb RS O peof toExtent :
  holds_volume x m (O ++ concat RS) -> fork_ok (xf_vcb x) m fcb RS -> (length RS <= fuel)%nat ->
  removable x (forkType fcb) (c_fileid fcb) (record_start RS 1) -> counted fcb RS (ff_blocks fcb) ->
  vcbSigWord (xf_vcb x) = kHFSPlusSigWord -> 0 < blockSize (xf_vcb x) ->
  let n := FileBytesToBlocks peof (blockSize (xf_vcb x)) in
  n <= total (concat RS) ->
  exists n' fcb' x', TruncateFileC bread fuel x fcb peof toExtent = Ok (noErr, fcb', x') /\
    (if decide (n = 0) then n' = 0 else cut_point (concat RS) n toExtent n') /\
    truncated x m fcb RS O n' fcb' x' /\ ff_blocks fcb' = n.
Proof using ExtentsFileReads0 ExtentsFileWrites0.
  intros Hx HF Hfuel Hrm Hc Hsig Hbs n Hn. assert (0 <= n < 2 ^ 32) as Hn0.
  { unfold n, FileBytesToBlocks. case_match; apply Z.mod_pos_bound; lia. }
  unfold TruncateFileC. cbv zeta. fold n. rewrite Hsig. change (kHFSPlusSigWord =? kHFSSigWord) with false. cbn [andb].
  rewrite Z.quot_mul by lia. rewrite (u32_small n) by lia.
  set (fcb0 := set_blocks fcb n (ff_unallocblocks fcb) (c_blocks fcb - u32 (ff_blocks fcb - n)) true).
  assert (ff_blocks fcb0 = n) as Eff by (unfold fcb0, set_blocks; cbn; by rewrite u32_small by lia).
  assert (fork_ok (xf_vcb x) m fcb0 RS) as HF0 by (destruct HF as [? ? ? ? ?]; by split).
  destruct (Z.eqb_spec (n * blockSize (xf_vcb x)) 0) as [Hz|Hz].
  - assert (n = 0) as En by nia.
    destruct (DeallocateFork_spec fuel x m fcb0 RS O) as (del & x1 & m' & -> & Hx1 & Hf1 & Hm'); try done.
    cbn [mbind outcome_bind]. change (noErr =? noErr) with true. cbv iota.
    destruct (truncate_exit_spec x1 m' (set_extents fcb0 no_extents (c_modified fcb0)) O del noErr Hx1) as (x' & -> & Hx' & Hf').
    exists 0. eexists _, x'. split; [done|]. split; [by rewrite decide_True|]. split; [|done].
    exists m', [[]]. rewrite take_blocks_zero, drop_blocks_zero. cbn [concat app]. rewrite app_nil_r.
    assert (forall s, m' !! (c_fileid fcb, forkType fcb, s) = None) as Hnone by (intros s; rewrite Hm'; by rewrite bool_decide_eq_true_2).
    split_and!; [done| |done|by apply Hf'|intros k Hk; by rewrite Hm', bool_decide_eq_false_2].
    split; [|by intros j l [=]| |apply HF|by cbn].
    + exists []. split; [done|]. split; [|cbn; lia]. pose proof (numberOfExtents_range (xf_vcb x')). by split; cbn; [|lia|lia|].
    + intros s d Hs. by rewrite Hnone in Hs.
  - destruct (truncate_to_spec fuel x m fcb0 RS O n (ff_blocks fcb) toExtent) as (n' & fcb' & x' & Hrun & ? & ? & E); try done; [nia|].
    exists n', fcb', x'. rewrite E. split; [done|]. split; [rewrite decide_False by nia; done|]. split; done.
Qed.
End truncate.
