(* ===== verification/ExtentGrowth.v ===== *)
(** * Extending forks

    [ExtendFileC] appends blocks to a fork that were free on the volume.  The extents of a
    fork stand for the list of its blocks, [blocks_of]; an extension is an append to that
    list, in whichever way the new extents are recorded. *)
From S2P Require Import Prelude Bits VolumeBitmap VolumeAllocation AllocationTheorems ExtentMapping ExtentTheorems ExtentTruncate.

(** ** The blocks of a list of extents *)

Definition blocks_of (l : extents) : list Z := concat (map (fun e => seqZ (startBlock e) (blockCount e)) l).

Lemma blocks_of_app l1 l2 : blocks_of (l1 ++ l2) = blocks_of l1 ++ blocks_of l2.
Proof. unfold blocks_of. by rewrite map_app, concat_app. Qed.

Lemma blocks_of_cons e l : blocks_of (e :: l) = seqZ (startBlock e) (blockCount e) ++ blocks_of l.
Proof. done. Qed.

Lemma blocks_of_one e : blocks_of [e] = seqZ (startBlock e) (blockCount e).
Proof. unfold blocks_of. simpl. apply app_nil_r. Qed.

Lemma blocks_of_length l : Forall nonempty l -> Z.of_nat (length (blocks_of l)) = total l.
Proof.
  induction 1 as [|e l He Hl IH]; [done|]. unfold nonempty in He. rewrite blocks_of_cons, length_app, length_seqZ.
  simpl. lia.
Qed.

(** The list is what positions are mapped through. *)
Lemma map_block_blocks l b : Forall nonempty l -> 0 <= b -> map_block l b = blocks_of l !! Z.to_nat b.
Proof.
  intros Hl. revert b. induction Hl as [|e l He Hl IH]; intros b Hb; [done|]. unfold nonempty in He.
  rewrite blocks_of_cons. simpl. destruct (Z.ltb_spec b (blockCount e)).
  - rewrite lookup_app_l by (rewrite length_seqZ; lia). rewrite lookup_seqZ_lt by lia. f_equal. lia.
  - rewrite IH by lia. rewrite lookup_app_r by (rewrite length_seqZ; lia). rewrite length_seqZ. f_equal. lia.
Qed.

(** An extent that continues the last one. *)
Lemma blocks_of_merge l e n : 0 <= blockCount e -> 0 <= n ->
  blocks_of (l ++ [Ext (startBlock e) (blockCount e + n)]) = blocks_of (l ++ [e]) ++ seqZ (startBlock e + blockCount e) n.
Proof. intros. rewrite !blocks_of_app, !blocks_of_one. cbn [startBlock blockCount]. by rewrite seqZ_app, app_assoc by lia. Qed.

Lemma elem_of_blocks l k : k ∈ blocks_of l <-> exists e, e ∈ l /\ startBlock e <= k < startBlock e + blockCount e.
Proof.
  induction l as [|e l IH]; [split; [by intros ?%elem_of_nil|by intros (e & ?%elem_of_nil & _)]|].
  rewrite blocks_of_cons, elem_of_app, IH, elem_of_seqZ. split.
  - intros [?|(e' & ? & ?)]; [exists e; split; [apply list_elem_of_here|done]|exists e'; split; [by apply list_elem_of_further|done]].
  - intros (e' & [->|?]%elem_of_cons & ?); [by left|right; by exists e'].
Qed.

(** Disjoint extents have no block twice. *)
Lemma blocks_of_nodup l : StronglySorted ext_disjoint l -> NoDup (blocks_of l).
Proof.
  induction l as [|e l IH]; intros Hd; [constructor|]. apply StronglySorted_cons in Hd as [He Hd].
  rewrite blocks_of_cons. apply NoDup_app. split_and!; [apply NoDup_seqZ| |by apply IH].
  intros k Hk%elem_of_seqZ (e' & He' & Hk')%elem_of_blocks. pose proof (proj1 (Forall_forall _ _) He e' He') as [?|?]; lia.
Qed.

(** So a fork has no more blocks than the volume. *)
Lemma owned_total bread v owned : vol_state bread v owned -> total owned <= totalBlocks v.
Proof.
  intros [[Hinv _ Hu Hd] _]. cbn [as_vol as_owned] in *. pose proof (geom_total _ (inv_geom _ Hinv)).
  rewrite <- blocks_of_length. 2: { eapply Forall_impl; [exact Hu|]. intros e (_ & ? & _). done. }
  assert (length (blocks_of owned) <= length (seqZ 0 (totalBlocks v)))%nat as Hle; [|rewrite length_seqZ in Hle; lia].
  apply submseteq_length, NoDup_submseteq; [by apply blocks_of_nodup|].
  intros k (e & He & Hk)%elem_of_blocks. pose proof (proj1 (Forall_forall _ _) Hu e He) as (? & ? & ? & _). apply elem_of_seqZ. lia.
Qed.

(** ** Taking blocks *)

(** The blocks [ks] were free in [v] and are used in [v']; nothing else differs. *)
Record allocated (v v' : ExtendedVCB) (ks : list Z) : Prop := {
  al_layout : same_layout v v';
  al_free : Forall (fun k => 0 <= k < totalBlocks v /\ vol_bit v k = false) ks;
  al_nodup : NoDup ks;
  al_bits k : 0 <= k < 2 ^ 32 -> vol_bit v' k = vol_bit v k || bool_decide (k ∈ ks);
  al_count : freeBlocks v' = freeBlocks v - Z.of_nat (length ks)
}.

Lemma allocated_same v v' : same_layout v v' -> bitmap v' = bitmap v -> freeBlocks v' = freeBlocks v -> allocated v v' [].
Proof.
  intros Hl Eb Ef. split; [done|constructor|constructor| |simpl; lia]. intros k _. unfold vol_bit.
  rewrite (mem_bit_layout v v'), Eb by done. by rewrite orb_false_r.
Qed.

Lemma allocated_app v1 v2 v3 k1 k2 : totalBlocks v1 < 2 ^ 32 -> allocated v1 v2 k1 -> allocated v2 v3 k2 -> allocated v1 v3 (k1 ++ k2).
Proof.
  intros Ht [L1 F1 N1 B1 C1] [L2 F2 N2 B2 C2]. rewrite (layout_total _ _ L1) in F2. split.
  - by apply (same_layout_trans v1 v2).
  - apply Forall_app. split; [done|]. eapply Forall_impl; [exact F2|]. intros k [Hk Hb]. split; [done|].
    rewrite B1 in Hb by lia. by apply orb_false_iff in Hb as [? _].
  - apply NoDup_app. split_and!; [done| |done]. intros k Hk1 Hk2.
    pose proof (proj1 (Forall_forall _ _) F2 k Hk2) as [Hk Hb]. rewrite B1 in Hb by lia.
    apply orb_false_iff in Hb as [_ Hb]. by apply bool_decide_eq_false in Hb.
  - intros k Hk. rewrite B2, B1 by done. rewrite <- orb_assoc. f_equal. rewrite <- bool_decide_or. apply bool_decide_ext.
    by rewrite elem_of_app.
  - rewrite length_app. lia.
Qed.

(** The result of one call of [BlockAllocate]. *)
Definition allocation (bread : Z -> Z) (v : ExtendedVCB) (owned : extents) (lo err : Z) (v' : ExtendedVCB) (s n : Z) : Prop :=
  err = noErr /\ vol_state bread v' (Ext s n :: owned) /\ allocated v v' (seqZ s n) /\ lo <= n \/
  err = dskFulErr /\ n = 0 /\ vol_state bread v' owned /\ allocated v v' [] \/
  err <> noErr /\ err <> dskFulErr /\ (exists b, err = bread b) /\ same_layout v v'.

Lemma allocate_turn bread v owned start br bm (contig : bool) : vol_state bread v owned -> 0 <= start <= totalBlocks v ->
  1 <= FileBytesToBlocks br (blockSize v) <= FileBytesToBlocks bm (blockSize v) -> (contig = true -> vcbFreeExtCnt v = 0) ->
  exists err v' s n, BlockAllocate bread v start br bm contig = Ok (err, v', s, n) /\
    allocation bread v owned (if contig then FileBytesToBlocks br (blockSize v) else 1) err v' s n.
Proof.
  intros [Hok Hr] Hs Hmn Hc. pose proof Hok as [Hinv Hbr _ _]. cbn [as_vol as_owned] in *.
  pose proof (BlockAllocate_spec bread v Hinv Hbr start br bm contig Hs Hmn Hc) as H. cbv zeta in H.
  destruct (BlockAllocate bread v start br bm contig) as [[[[err v'] s] n]|?| |] eqn:E; try done. exists err, v', s, n. split; [done|].
  assert (forget_cache contig v = v) as Ec.
  { destruct contig; [|done]. specialize (Hc eq_refl). destruct v. unfold forget_cache, set_freeExts. cbn in *. by rewrite Hc. }
  destruct H as [Hl [(-> & Hinv' & _ & Hf & Hn & Htk)|[(-> & _ & -> & Hinv' & Eb & _)|(He & (b & Hb) & _)]]].
  - left. split; [done|]. pose proof Htk as (T1 & T2 & T3 & T4 & T5). split_and!; [|split; try done|by destruct contig; lia].
    + split; [|by apply (reads_ok_layout bread v)]. apply (alloc_step_ok bread (AS v owned)); [|done].
      apply (step_allocate bread v owned start br bm contig); [done|done|by rewrite Ec].
    + apply Forall_forall. intros k Hk%elem_of_seqZ. split; [lia|]. by apply T4.
    + apply NoDup_seqZ.
    + intros k Hk. unfold vol_bit. rewrite (mem_bit_layout v v') by done. rewrite T5 by done. unfold vol_bit.
      destruct ((s <=? k) && (k <? s + n)) eqn:Ek.
      * rewrite bool_decide_eq_true_2, orb_true_r; [done|]. apply elem_of_seqZ. lia.
      * rewrite bool_decide_eq_false_2, orb_false_r; [done|]. rewrite elem_of_seqZ. lia.
    + rewrite length_seqZ. lia.
  - right. left. split; [done|]. split; [done|]. split.
    + split; [|by apply (reads_ok_layout bread v)]. apply (alloc_step_ok bread (AS v owned)); [|done].
      apply (step_no_space bread v owned start br bm contig v' s 0); [done|done|by rewrite Ec].
    + apply allocated_same; [done|done|]. rewrite (inv_count v Hinv), (inv_count v' Hinv'). unfold free_count, free_in.
      rewrite (layout_total v v' Hl), Eb. f_equal. apply (f_equal length). apply filter_same. intros k _. by rewrite (mem_bit_layout v v').
  - right. right. split; [done|]. split; [|split; [by exists b|done]]. destruct (Hbr b) as [? _]. unfold dskFulErr. lia.
Qed.

(** Two extents that follow each other can be seen as one. *)
Lemma vol_state_merge bread v A s n1 n2 : vol_state bread v (Ext (s + n1) n2 :: A ++ [Ext s n1]) ->
  vol_state bread v (A ++ [Ext s (n1 + n2)]).
Proof.
  intros [[Hinv Hbr Hu Hd] Hr]. split; [|done]. cbn [as_vol as_owned] in *. split; [done|done|..]; cbn [as_vol as_owned].
  - apply Forall_cons in Hu as [(A1 & A2 & A3 & A4) [? (B1 & B2 & B3 & B4)%Forall_singleton]%Forall_app]. cbn in *.
    apply Forall_app. split; [done|]. apply Forall_singleton. split_and!; cbn; [lia..|].
    intros k Hk. destruct (decide (k < s + n1)); [apply B4|apply A4]; lia.
  - apply StronglySorted_cons in Hd as [Hb (Hx & HA & _)%StronglySorted_app]. apply Forall_app in Hb as [HbA Hb1].
    apply StronglySorted_app. split_and!; [|done|apply StronglySorted_cons; split; constructor].
    intros x y Hxin ->%list_elem_of_singleton. pose proof (Hx x (Ext s n1) Hxin ltac:(by apply list_elem_of_singleton)) as H1.
    pose proof (proj1 (Forall_forall _ _) HbA x Hxin) as H2. apply Forall_cons in Hu as [(_ & A2 & _) [HuA (_ & B2 & _)%Forall_singleton]%Forall_app].
    pose proof (proj1 (Forall_forall _ _) HuA x Hxin) as (_ & X2 & _). unfold ext_disjoint in *. cbn in *. lia.
Qed.

Section growth.
Context {X : Type} `{!ExtentsFile X} (rep : X -> gmap extent_key extents -> Prop) (hint_ok : X -> Z -> Prop)
  (room : X -> nat -> Prop) (removable : X -> Z -> Z -> Z -> Prop)
  `{!ExtentsFileReads X rep hint_ok, !ExtentsFileWrites X rep hint_ok room removable}.
Context (bread : Z -> Z).

(** The location of the last extent. *)
Record at_last (x : X) (m : gmap extent_key extents) (fcb : filefork) (RS : list extents) (loc : Location) (l : extents) : Prop := {
  la_at : at_record hint_ok x m fcb RS loc (length RS - 1) l;
  la_index : loc_index loc = Z.max 0 (Z.of_nat (length l) - 1)
}.

(** A fork with its volume and the location of its last extent. *)
Record growing (x : X) (m : gmap extent_key extents) (fcb : filefork) (RS : list extents) (O : extents) (loc : Location)
    (l : extents) (r : nat) : Prop := {
  gr_volume : holds_volume rep bread x m (O ++ concat RS);
  gr_fork : fork_ok (xf_vcb x) m fcb RS;
  gr_last : at_last x m fcb RS loc l;
  gr_room : room x r;
  gr_file : c_fileid fcb <> kHFSExtentsFileID
}.

(** [RS'] has the blocks of [RS] and then [new]; other forks keep their records. *)
Record appended (m : gmap extent_key extents) (fcb : filefork) (RS : list extents) (new : list Z)
    (m' : gmap extent_key extents) (fcb' : filefork) (RS' : list extents) : Prop := {
  ap_blocks : blocks_of (concat RS') = blocks_of (concat RS) ++ new;
  ap_id : c_fileid fcb' = c_fileid fcb;
  ap_fork : forkType fcb' = forkType fcb;
  ap_others k : k.1 <> (c_fileid fcb, forkType fcb) -> m' !! k = m !! k
}.

Lemma concat_last (RS : list extents) l : RS !! (length RS - 1)%nat = Some l -> concat RS = concat (take (length RS - 1) RS) ++ l.
Proof using Type.
  intros Hl. rewrite (concat_split RS _ l Hl). pose proof (lookup_lt_Some _ _ _ Hl). rewrite drop_ge by lia. simpl. by rewrite app_nil_r.
Qed.

(** The last record written with [l']. *)
Lemma write_last x m fcb RS loc l l' : rep x m -> fork_ok (xf_vcb x) m fcb RS -> at_last x m fcb RS loc l ->
  record_holds (numberOfExtents (xf_vcb x)) (padded l') l' -> l' <> [] -> record_ok (padded l') ->
  total (concat (take (length RS - 1) RS) ++ l') < 2 ^ 32 ->
  exists fcb' x' m', UpdateExtentRecord x fcb (loc_key loc) (padded l') (loc_hint loc) = Ok (noErr, fcb', x') /\
    rep x' m' /\ xf_vcb x' = xf_vcb x /\ keeps hint_ok room removable x x' /\
    let RS' := take (length RS - 1) RS ++ [l'] in
    fork_ok (xf_vcb x') m' fcb' RS' /\ ff_blocks fcb' = ff_blocks fcb /\
    (forall k, k.1 <> (c_fileid fcb, forkType fcb) -> m' !! k = m !! k) /\
    c_fileid fcb' = c_fileid fcb /\ forkType fcb' = forkType fcb /\
    at_last x' m' fcb' RS' (mkLocation (loc_key loc) (padded l') (Z.max 0 (Z.of_nat (length l') - 1)) (loc_hint loc) (loc_ending loc)) l'.
Proof using ExtentsFileReads0 ExtentsFileWrites0.
  intros Hx HF [Hat Hi] Hrec Hne Hok Ht. pose proof (ar_record _ _ _ _ _ _ _ _ Hat) as Hj. pose proof (lookup_lt_Some _ _ _ Hj) as Hlen.
  destruct (update_record_spec rep hint_ok room removable x m fcb RS loc _ l l' Hx Hat Hok) as (fcb' & x' & m' & -> & Hx' & E & Hk & Hw).
  exists fcb', x', m'. split_and!; try done; cbv zeta.
  assert (fork_ok (xf_vcb x') m' fcb' (take (length RS - 1) RS ++ [l'])) as HF'.
  { rewrite E. apply (fork_replace (xf_vcb x) m fcb RS (length RS - 1) l l' fcb' m'); try done.
    intros [k s]. cbn [fst snd]. case_bool_decide as Hks; [|done]. destruct Hks as [-> Hs].
    destruct (m' !! (c_fileid fcb, forkType fcb, s)) as [d|] eqn:Es; [|done]. exfalso.
    destruct (length RS - 1)%nat as [|j] eqn:Ej.
    - destruct Hw as [_ _ _ [_ ->]]. destruct (fo_only _ _ _ _ HF s d Es) as (i & li & Hi' & _). apply lookup_lt_Some in Hi'. lia.
    - assert (record_start RS (S j) < record_start RS (S (S j))) as Hlt.
      { rewrite (record_start_S RS (S j) l Hj). destruct (fo_record _ _ _ _ HF j l Hj) as (Hl & d0 & _ & Hd0).
        pose proof (record_positive _ _ _ Hd0 Hl). lia. }
      destruct (tr_only _ _ _ _ _ _ (tail_of_fork _ _ _ _ _ _ _ _ HF Hlen Hw Hlt) s d Es Hs) as (i & li & Hi' & _).
      apply lookup_lt_Some in Hi'. rewrite length_drop in Hi'. lia. }
  split; [done|]. split; [apply Hw|]. split; [intros k Hks; by apply (written_other fcb m RS (length RS - 1) l' fcb')|].
  split; [apply Hw|]. split; [apply Hw|]. split; [|done].
  assert (length (take (length RS - 1) RS ++ [l']) - 1 = length RS - 1)%nat as -> by (rewrite length_app, length_take; simpl; lia).
  split.
  - rewrite lookup_app_r by (rewrite length_take; lia). rewrite length_take.
    by replace (length RS - 1 - (length RS - 1) `min` length RS)%nat with 0%nat by lia.
  - by rewrite E.
  - destruct Hat as [_ _ Hkey], Hw as [Eid Efk _ Hw]. cbn [loc_key loc_data loc_hint] in *.
    destruct (length RS - 1)%nat as [|j] eqn:Ej; [destruct Hw as [-> _], Hkey as [? _]; done|].
    destruct Hkey as (-> & _ & Hh), Hw as [_ ->]. rewrite Eid, Efk, record_start_cut by lia.
    rewrite lookup_insert_eq. split_and!; [done|done|by apply Hk].
Qed.

(** A new record behind the last one. *)
Lemma fork_append vcb m fcb RS l e : fork_ok vcb m fcb RS -> RS !! (length RS - 1)%nat = Some l ->
  Z.of_nat (length l) = numberOfExtents vcb -> nonempty e -> total (concat RS) + blockCount e < 2 ^ 32 ->
  m !! (c_fileid fcb, forkType fcb, total (concat RS)) = None /\
  fork_ok vcb (<[(c_fileid fcb, forkType fcb, total (concat RS)) := padded [e]]> m) fcb (RS ++ [[e]]).
Proof using Type.
  intros HF Hl Hfull He Ht. pose proof (lookup_lt_Some _ _ _ Hl) as Hlen.
  assert (record_start RS (length RS) = total (concat RS)) as Et by (unfold record_start; by rewrite take_ge).
  assert (forall i li, RS !! S i = Some li -> record_start RS (S i) < total (concat RS)) as Hlt.
  { intros i li Hi. destruct (fo_record _ _ _ _ HF i li Hi) as (Hne & d & _ & Hd). pose proof (record_positive _ _ _ Hd Hne).
    pose proof (record_start_mono _ _ _ _ HF (S (S i)) (length RS) ltac:(apply lookup_lt_Some in Hi; lia)).
    rewrite (record_start_S RS (S i) li Hi) in *. lia. }
  split.
  { destruct (m !! _) as [d|] eqn:Es; [|done]. destruct (fo_only _ _ _ _ HF _ d Es) as (i & li & Hi & E). specialize (Hlt i li Hi). lia. }
  destruct (numberOfExtents_range vcb) as [H3 H8].
  split.
  - destruct (fo_resident _ _ _ _ HF) as (l0 & H0 & Hd0 & Hf0). exists l0. split; [by apply lookup_app_l_Some|]. split; [done|].
    intros _. destruct (decide (1 < length RS)%nat) as [H1|H1]; [by apply Hf0|].
    replace (length RS - 1)%nat with 0%nat in Hl by lia. by simplify_eq.
  - intros j lj Hj. destruct (decide (S j < length RS)%nat) as [Hjl|Hjl].
    + rewrite lookup_app_l in Hj by done. destruct (fo_record _ _ _ _ HF j lj Hj) as (? & d & Hd & ?). split; [done|]. exists d.
      assert (record_start (RS ++ [[e]]) (S j) = record_start RS (S j)) as -> by (unfold record_start; by rewrite take_app_le by lia).
      split; [|done]. rewrite lookup_insert_ne; [done|]. specialize (Hlt j lj Hj). intros [=]. lia.
    + rewrite lookup_app_r in Hj by lia. apply list_lookup_singleton_Some in Hj as [Ej <-]. split; [done|]. exists (padded [e]).
      assert (record_start (RS ++ [[e]]) (S j) = total (concat RS)) as ->
        by (unfold record_start; rewrite take_app_le by lia; by rewrite take_ge by lia).
      rewrite lookup_insert_eq. split; [done|]. split; [done|simpl; lia|done|by apply Forall_singleton].
  - intros s d Hs. apply lookup_insert_Some in Hs as [[[= <-] _]|[_ Hs]].
    + exists (length RS - 1)%nat, [e]. replace (S (length RS - 1)) with (length RS) by lia.
      rewrite lookup_app_r, Nat.sub_diag by lia. split; [done|]. unfold record_start. by rewrite take_app_length.
    + destruct (fo_only _ _ _ _ HF s d Hs) as (i & li & Hi & ->). exists i, li. split; [by apply lookup_app_l_Some|].
      unfold record_start. apply lookup_lt_Some in Hi. by rewrite take_app_le by lia.
  - apply HF.
  - rewrite concat_app, ext_total_app. simpl. lia.
Qed.

(** What [add_extent] leaves. *)
Definition extent_added (x : X) (m : gmap extent_key extents) (fcb : filefork) (RS : list extents) (O : extents)
    (e : HFSPlusExtentDescriptor) (r : nat) (res : outcome (Z * filefork * Location * bool * X)) : Prop :=
  exists fcb' loc' nf' x' m' RS' l', res = Ok (noErr, fcb', loc', nf', x') /\ growing x' m' fcb' RS' O loc' l' r /\
    xf_vcb x' = xf_vcb x /\ appended m fcb RS (seqZ (startBlock e) (blockCount e)) m' fcb' RS' /\ ff_blocks fcb' = ff_blocks fcb.

(** The last record written with one extent more. *)
Lemma add_by_update x m fcb RS O loc l e l' r nf : holds_volume rep bread x m (e :: O ++ concat RS) ->
  fork_ok (xf_vcb x) m fcb RS -> at_last x m fcb RS loc l -> room x (S r) -> c_fileid fcb <> kHFSExtentsFileID ->
  (length l' <= Z.to_nat (numberOfExtents (xf_vcb x)))%nat -> l' <> [] -> Forall nonempty l' ->
  vol_state bread (xf_vcb x) (O ++ concat (take (length RS - 1) RS) ++ l') ->
  blocks_of l' = blocks_of l ++ seqZ (startBlock e) (blockCount e) ->
  extent_added x m fcb RS O e r
    ('(err, fcb', x') ← UpdateExtentRecord x fcb (loc_key loc) (padded l') (loc_hint loc);
     Ok (err, fcb', mkLocation (loc_key loc) (padded l') (Z.max 0 (Z.of_nat (length l') - 1)) (loc_hint loc) (loc_ending loc), nf, x')).
Proof using ExtentsFileReads0 ExtentsFileWrites0.
  intros [Hx _] HF Hla Hroom Hid Hlen Hne Hu Hv Hb.
  pose proof (numberOfExtents_range (xf_vcb x)) as H8.
  pose proof (owned_total _ _ _ Hv) as Htot. rewrite ext_total_app in Htot.
  assert (0 <= total O) as HO.
  { apply ext_total_nonneg. destruct Hv as [[_ _ HuO _] _]. cbn [as_owned as_vol] in HuO. apply Forall_app in HuO as [HuO _].
    eapply Forall_impl; [exact HuO|]. intros y (_ & ? & _). done. }
  pose proof (geom_total _ (inv_geom _ (ao_inv _ _ (vs_alloc _ _ _ Hv)))) as Hg. cbn [as_vol] in Hg.
  pose proof (vol_state_range bread _ _ Hv) as Hr. apply Forall_app in Hr as [_ [_ Hr]%Forall_app].
  destruct (write_last x m fcb RS loc l l' Hx HF Hla) as (fcb' & x' & m' & -> & Hx' & E & Hk & HF' & Hff & Hoth & Ei & Ef & Hla');
    [split; [done|lia|lia|done]|done|apply padded_ok; [lia|done]|lia|].
  cbn [mbind outcome_bind]. eexists fcb', _, nf, x', m', _, l'. split; [done|].
  assert (concat (take (length RS - 1) RS ++ [l']) = concat (take (length RS - 1) RS) ++ l') as Ec
    by (rewrite concat_app; cbn [concat]; by rewrite app_nil_r).
  split; [|split; [done|split; [|done]]].
  - split; [|done|exact Hla'| |by rewrite Ei].
    + split; [done|]. by rewrite E, Ec.
    + apply Hk. apply (xf_room_mono (ExtentsFileWrites := ExtentsFileWrites0) x (S r)); [done|lia].
  - split; [|done|done|done]. rewrite Ec, blocks_of_app, Hb, app_assoc, <- blocks_of_app.
    f_equal. f_equal. symmetry. apply concat_last. apply Hla.
Qed.

Lemma padded_insert l1 a b : <[length l1 := b]> (padded (l1 ++ [a])) = padded (l1 ++ [b]).
Proof using Type. unfold padded. rewrite <- !app_assoc, !length_app. cbn [app]. by rewrite list_insert_split. Qed.

Lemma padded_extend l e : (length l < 8)%nat -> <[length l := e]> (padded l) = padded (l ++ [e]).
Proof using Type.
  intros Hl. unfold padded. rewrite length_app. replace (8 - length l)%nat with (S (8 - (length l + length [e]))) by (simpl; lia).
  cbn [replicate]. rewrite list_insert_split. by rewrite <- app_assoc.
Qed.

(** The last extent of a record. *)
Lemma ext_at_last l1 a : ext_at (padded (l1 ++ [a])) (Z.max 0 (Z.of_nat (length (l1 ++ [a])) - 1)) = a /\
  Z.max 0 (Z.of_nat (length (l1 ++ [a])) - 1) = Z.of_nat (length l1).
Proof using Type.
  assert (Z.max 0 (Z.of_nat (length (l1 ++ [a])) - 1) = Z.of_nat (length l1)) as E by (rewrite length_app; simpl; lia).
  rewrite E. split; [|done]. unfold padded, ext_at. rewrite Nat2Z.id, <- app_assoc, nth_lookup. cbn [app].
  by rewrite list_lookup_split.
Qed.

(** A new record for the extent. *)
Lemma add_by_create x m fcb RS O loc l e r nf : holds_volume rep bread x m (e :: O ++ concat RS) ->
  fork_ok (xf_vcb x) m fcb RS -> at_last x m fcb RS loc l -> room x (S r) -> c_fileid fcb <> kHFSExtentsFileID ->
  Z.of_nat (length l) = numberOfExtents (xf_vcb x) -> nonempty e ->
  extent_added x m fcb RS O e r
    ('(err, key, d, hint, x') ← new_record bread x fcb (total (concat RS)) e;
     Ok (err, fcb, mkLocation key d 0 hint (loc_ending loc), if err =? noErr then true else nf, x')).
Proof using ExtentsFileReads0 ExtentsFileWrites0.
  intros [Hx Hv] HF [Hat Hi] Hroom Hid Hfull He.
  pose proof (owned_total _ _ _ Hv) as Htot. simpl in Htot. rewrite ext_total_app in Htot.
  assert (0 <= total O) as HO.
  { apply ext_total_nonneg. destruct Hv as [[_ _ Hu _] _]. cbn [as_owned as_vol] in Hu. apply Forall_cons in Hu as [_ [Hu _]%Forall_app].
    eapply Forall_impl; [exact Hu|]. intros y (_ & ? & _). done. }
  pose proof (geom_total _ (inv_geom _ (ao_inv _ _ (vs_alloc _ _ _ Hv)))) as Hg. cbn [as_vol] in Hg.
  pose proof (fork_used _ _ _ _ HF) as Hused. pose proof (ext_total_nonneg _ Hused) as Ht0.
  destruct (fork_append (xf_vcb x) m fcb RS l e HF (ar_record _ _ _ _ _ _ _ _ Hat) Hfull He ltac:(lia)) as [Hnone HF'].
  pose proof (vol_state_range bread _ _ Hv) as Hr. apply Forall_cons in Hr as [Hre _].
  unfold new_record. unfold nonempty in He. change (e :: replicate 7 ext0) with (padded [e]).
  destruct (xf_create_ok (ExtentsFileWrites := ExtentsFileWrites0) x m (forkType fcb) (c_fileid fcb) (total (concat RS)) (padded [e]) r Hx Hnone Hroom)
    as (h & x' & -> & Hx' & E & Hroom' & Hh);
    [apply padded_ok; [simpl; lia|by apply Forall_singleton]|apply fork_type|apply HF|lia|].
  cbn [mbind outcome_bind]. change (noErr =? fxOvFlErr) with false. change (noErr =? noErr) with true. cbn [mbind outcome_bind].
  eexists fcb, _, true, x', _, (RS ++ [[e]]), [e]. split; [done|].
  assert (concat (RS ++ [[e]]) = concat RS ++ [e]) as Ec by (by rewrite concat_app).
  split; [|split; [done|split; [|done]]].
  - split; [|by rewrite E| |done|done].
    + split; [exact Hx'|]. rewrite E, Ec. eapply vol_state_perm; [|exact Hv]. rewrite app_assoc. apply Permutation_cons_append.
    + split; [|done]. rewrite length_app. replace (length RS + length [[e]] - 1)%nat with (length RS) by (simpl; lia). split.
      * by rewrite lookup_app_r, Nat.sub_diag.
      * rewrite E. cbn [loc_data]. pose proof (numberOfExtents_range (xf_vcb x)).
        split; [done|simpl; lia|lia|by apply Forall_singleton].
      * pose proof (lookup_lt_Some _ _ _ (ar_record _ _ _ _ _ _ _ _ Hat)). destruct (length RS) as [|j] eqn:Ej; [lia|].
        cbn [loc_key loc_data loc_hint].
        assert (record_start (RS ++ [[e]]) (S j) = total (concat RS)) as ->
          by (unfold record_start; rewrite <- Ej; by rewrite take_app_length).
        rewrite lookup_insert_eq. done.
  - split; [by rewrite Ec, blocks_of_app, blocks_of_one|done|done|].
    intros k Hk. rewrite lookup_insert_ne; [done|]. by intros <-.
Qed.

Lemma add_extent_spec x m fcb RS O loc l e r blockHint start nf : holds_volume rep bread x m (e :: O ++ concat RS) ->
  fork_ok (xf_vcb x) m fcb RS -> at_last x m fcb RS loc l -> room x (S r) -> c_fileid fcb <> kHFSExtentsFileID -> nonempty e ->
  (blockHint = 0 -> let last := ext_at (loc_data loc) (loc_index loc) in start = u32 (startBlock last + blockCount last)) ->
  extent_added x m fcb RS O e r (add_extent bread x fcb loc blockHint start e (total (concat RS)) nf).
Proof using ExtentsFileReads0 ExtentsFileWrites0.
  intros Hx HF Hla Hroom Hid He Hstart. pose proof Hla as [Hat Hi]. pose proof (ar_data _ _ _ _ _ _ _ _ Hat) as Hd.
  pose proof (rh_pad _ _ _ Hd) as Ed. fold (padded l) in Ed. pose proof (rh_fits _ _ _ Hd) as Hfits. pose proof (rh_max _ _ _ Hd) as Hmax.
  pose proof (rh_used _ _ _ Hd) as Hu. unfold nonempty in He. pose proof (proj2 Hx) as Hv.
  pose proof (concat_last RS l (ar_record _ _ _ _ _ _ _ _ Hat)) as Ec.
  pose proof (numberOfExtents_range (xf_vcb x)) as H3.
  unfold add_extent. cbv zeta. destruct ((startBlock e =? start) && (blockHint =? 0)) eqn:Econd.
  - apply andb_prop in Econd as [<-%Z.eqb_eq ->%Z.eqb_eq]. specialize (Hstart eq_refl). cbv zeta in Hstart. rewrite Ed, Hi in *.
    destruct l as [|a l1 _] using rev_ind.
    + change (startBlock e = 0) in Hstart. change (ext_at (padded []) _) with ext0. cbn [startBlock blockCount ext0].
      pose proof (vol_state_range bread _ _ Hv) as Hr. apply Forall_cons in Hr as [Hre _]. rewrite Z.add_0_l, u32_small by lia.
      replace (Ext 0 (blockCount e)) with e by (destruct e; cbn in *; by rewrite Hstart).
      apply (add_by_update x m fcb RS O loc [] e [e]); try done; [simpl; lia|by apply Forall_singleton| |by rewrite blocks_of_one].
      rewrite app_nil_r in Ec. rewrite <- Ec. eapply vol_state_perm; [|exact Hv]. rewrite app_assoc. apply Permutation_cons_append.
    + destruct (ext_at_last l1 a) as [Ea Ei]. rewrite Ea in *. apply Forall_app in Hu as [Hu1 Hua]. rewrite Forall_singleton in Hua. unfold nonempty in Hua.
      assert (vol_state bread (xf_vcb x) (Ext (startBlock a + blockCount a) (blockCount e) :: (O ++ concat (take (length RS - 1) RS) ++ l1) ++ [a]))
        as Hv1.
      { pose proof Hv as [[Hinv _ Huv _] _].
        cbn [as_vol as_owned] in *. pose proof (geom_total _ (inv_geom _ Hinv)).
        apply Forall_cons in Huv as [_ Huv]. rewrite Ec in Huv. apply Forall_app in Huv as [_ [_ [_ (?&?&?&_)%Forall_singleton]%Forall_app]%Forall_app].
        rewrite u32_small in Hstart by lia. rewrite <- Hstart. replace (Ext (startBlock e) (blockCount e)) with e by (by destruct e).
        rewrite <- !app_assoc. rewrite <- Ec. exact (proj2 Hx). }
      pose proof (geom_total _ (inv_geom _ (ao_inv _ _ (vs_alloc _ _ _ Hv1)))) as Hg1. cbn [as_vol] in Hg1.
      pose proof (vol_state_merge bread (xf_vcb x) (O ++ concat (take (length RS - 1) RS) ++ l1) (startBlock a) (blockCount a) (blockCount e)) as Hm.
      replace (Ext (startBlock a) (blockCount a)) with a in Hm by (by destruct a). specialize (Hm Hv1).
      pose proof (vol_state_range bread _ _ Hm) as Hr. apply Forall_app in Hr as [_ Hr]. rewrite Forall_singleton in Hr. cbn [startBlock blockCount] in Hr.
      rewrite u32_small by lia. unfold set_ext. rewrite Ei, Nat2Z.id, padded_insert.
      set (b := Ext (startBlock a) (blockCount a + blockCount e)).
      replace (Z.of_nat (length l1)) with (Z.max 0 (Z.of_nat (length (l1 ++ [b])) - 1)) by (rewrite length_app; cbn [length]; lia).
      apply (add_by_update x m fcb RS O loc (l1 ++ [a]) e (l1 ++ [b])); try done.
      * rewrite length_app in *. cbn [length] in *. lia.
      * by destruct l1.
      * apply Forall_app. split; [done|]. apply Forall_singleton. unfold nonempty. cbn. lia.
      * by rewrite <- !app_assoc in Hm.
      * unfold b. rewrite blocks_of_merge by lia. do 2 f_equal. pose proof Hv1 as [[_ _ Huv _] _]. cbn [as_owned as_vol] in Huv.
        apply Forall_cons in Huv as [(? & ? & ? & _) _]. cbn [startBlock blockCount] in *. rewrite Hstart, u32_small by lia. done.
  - set (last := ext_at (loc_data loc) (loc_index loc)) in *.
    assert ((if negb (blockCount last =? 0) then loc_index loc + 1 else loc_index loc) = Z.of_nat (length l)) as ->.
    { unfold last. rewrite Ed, Hi. destruct l as [|a l1 _] using rev_ind; [done|]. destruct (ext_at_last l1 a) as [-> ->].
      apply Forall_app in Hu as [_ Hua]. rewrite Forall_singleton in Hua. unfold nonempty in Hua.
      rewrite (proj2 (Z.eqb_neq (blockCount a) 0)) by lia. cbn [negb]. rewrite length_app. cbn [length]. lia. }
    destruct (Z.eqb_spec (Z.of_nat (length l)) (numberOfExtents (xf_vcb x))) as [Hfull|Hfull].
    + rewrite (proj2 (Z.eqb_neq _ _) Hid). by apply (add_by_create x m fcb RS O loc l e r nf).
    + unfold set_ext. rewrite Nat2Z.id, Ed, padded_extend by lia.
      replace (Z.of_nat (length l)) with (Z.max 0 (Z.of_nat (length (l ++ [e])) - 1)) by (rewrite length_app; simpl; lia).
      apply (add_by_update x m fcb RS O loc l e (l ++ [e])); try done.
      * rewrite length_app. simpl. lia.
      * by destruct l.
      * apply Forall_app. split; [done|by apply Forall_singleton].
      * eapply vol_state_perm; [|exact Hv]. rewrite Ec, !app_assoc. apply Permutation_cons_append.
      * by rewrite blocks_of_app, blocks_of_one.
Qed.

(** [FileBytesToBlocks] rounds up, and never down for more bytes. *)
Lemma bytes_blocks_mono bs a b : 0 < bs -> 0 <= a <= b -> b / bs + 1 < 2 ^ 32 -> FileBytesToBlocks a bs <= FileBytesToBlocks b bs.
Proof using Type.
  intros Hbs Hab Hb. unfold FileBytesToBlocks. rewrite !Z.quot_div_nonneg by lia. cbv zeta.
  pose proof (Z.div_pos a bs ltac:(lia) Hbs). pose proof (Z.div_le_mono a b bs Hbs ltac:(lia)). rewrite !(u32_small (_ / bs)) by lia.
  rewrite !(u32_small (_ / bs + 1)) by lia.
  destruct (Z.eqb_spec (u32 (a / bs * bs)) a) as [Ea|Ea], (Z.eqb_spec (u32 (b / bs * bs)) b) as [Eb|Eb]; try lia.
  destruct (decide (a / bs = b / bs)) as [E|E]; [|lia]. exfalso. apply Ea. rewrite E in *.
  pose proof (Z.mul_div_le a bs Hbs). pose proof (Z.mod_le (b / bs * bs) (2 ^ 32) ltac:(nia) ltac:(lia)).
  unfold u32, wrap in *. nia.
Qed.

Lemma bytes_blocks_mult bs k : 0 < bs -> 0 <= k -> k + 1 < 2 ^ 32 -> k <= FileBytesToBlocks (k * bs) bs.
Proof using Type.
  intros Hbs Hk Hk1. unfold FileBytesToBlocks. rewrite Z.quot_mul by lia. cbv zeta. rewrite !(u32_small k) by lia.
  case_ztest; [lia|]. rewrite u32_small; lia.
Qed.

Lemma allocation_weaken v owned lo lo' err v' s n : lo' <= lo -> allocation bread v owned lo err v' s n ->
  allocation bread v owned lo' err v' s n.
Proof using Type. intros Hlo [(? & ? & ? & ?)|H]; [left; split_and!; try done; lia|by right]. Qed.

(** One allocation, with the reserve of the volume kept or not. *)
Lemma allocate_extent_spec x m owned flags start k mx (contig : bool) : holds_volume rep bread x m owned ->
  0 <= start <= totalBlocks (xf_vcb x) -> 1 <= k -> 0 < blockSize (xf_vcb x) ->
  k * blockSize (xf_vcb x) <= mx -> mx / blockSize (xf_vcb x) + 1 < 2 ^ 32 -> (contig = true -> vcbFreeExtCnt (xf_vcb x) = 0) ->
  exists err s n x', allocate_extent bread x flags start (k * blockSize (xf_vcb x)) mx contig = Ok (err, s, n, x') /\ rep x' m /\
    keeps hint_ok room removable x x' /\ allocation bread (xf_vcb x) owned (if contig then k else 1) err (xf_vcb x') s n.
Proof using ExtentsFileReads0 ExtentsFileWrites0.
  intros [Hx Hv] Hs Hk Hbs Hmx Hbig Hc. set (bs := blockSize (xf_vcb x)) in *. unfold allocate_extent. cbv zeta. fold bs.
  assert (k + 1 < 2 ^ 32) as Hk1 by (pose proof (Z.div_le_lower_bound mx bs k Hbs ltac:(lia)); lia).
  assert (forall br bm, bs <= br <= bm -> bm <= mx -> (contig = true -> br = k * bs) ->
    exists err s n x', ('(err, vcb, s, n) ← BlockAllocate bread (xf_vcb x) start br bm contig; Ok (err, s, n, xf_set x vcb)) = Ok (err, s, n, x') /\
      rep x' m /\ keeps hint_ok room removable x x' /\ allocation bread (xf_vcb x) owned (if contig then k else 1) err (xf_vcb x') s n) as Halloc.
  { intros br bm Hbr Hbm Hbc. pose proof (Z.div_le_mono bm mx bs Hbs Hbm).
    destruct (allocate_turn bread (xf_vcb x) owned start br bm contig Hv Hs) as (err & v' & s & n & -> & Ha); [|done|].
    { pose proof (bytes_blocks_mono bs bs br Hbs ltac:(lia)) as H1. pose proof (Z.div_le_mono br bm bs Hbs ltac:(lia)).
      specialize (H1 ltac:(lia)). pose proof (bytes_blocks_mult bs 1 Hbs ltac:(lia) ltac:(lia)) as H2. rewrite Z.mul_1_l in H2.
      fold bs. split; [lia|]. apply bytes_blocks_mono; lia. }
    cbn [mbind outcome_bind]. exists err, s, n, (xf_set x v'). rewrite xf_vcb_set. split; [done|]. split; [|split].
    - apply xf_rep_set; [done|]. by destruct Ha as [(_ & _ & [] & _)|[(_ & _ & _ & [])|(_ & _ & _ & ?)]]; apply layout_sig.
    - apply (xf_set_keeps (ExtentsFileWrites := ExtentsFileWrites0)).
    - destruct contig; [|done]. rewrite (Hbc eq_refl) in Ha. eapply allocation_weaken; [|exact Ha]. apply bytes_blocks_mult; lia. }
  assert (bs <= k * bs) by nia.
  destruct (negb (Z.land flags kEFReserveMask =? 0)); [|apply Halloc; [lia|lia|done]].
  set (avail := hfs_freeblks (xf_vcb x) true * bs).
  destruct ((avail <=? 0) || (contig && (avail <? k * bs))) eqn:Ea.
  - exists dskFulErr, 0, 0, x. split; [done|]. split; [done|]. split; [by split_and!|]. right. left. split_and!; try done.
    by apply allocated_same.
  - apply orb_false_iff in Ea as [Ea1%Z.leb_gt Ea2]. 
    assert (0 < hfs_freeblks (xf_vcb x) true) as Hfree by (apply (Z.mul_pos_cancel_r _ bs); done).
    assert (bs <= avail) by (unfold avail; clearbody avail; nia).
    apply Halloc; [lia|lia|]. intros ->. cbn [andb] in Ea2. apply Z.ltb_ge in Ea2. lia.
Qed.

(** Counters of the fork do not matter for its records. *)
Lemma growing_counters x m fcb RS O loc l r a b c d : growing x m fcb RS O loc l r -> growing x m (set_blocks fcb a b c d) RS O loc l r.
Proof using Type.
  intros [? [? ? ? ? ?] [[? ? ?] ?] ? ?]. split; [done|by split| |done|done]. split; [by split|done].
Qed.

(** With the volume changed by an allocation that is not yet recorded. *)
Lemma growing_volume x x' m fcb RS O loc l r v : growing x m fcb RS O loc l r -> xf_vcb x' = v -> rep x' m -> keeps hint_ok room removable x x' ->
  same_layout (xf_vcb x) v ->
  fork_ok (xf_vcb x') m fcb RS /\ at_last x' m fcb RS loc l /\ room x' r.
Proof using Type.
  intros [Hv HF [[Hr Hd Hkey] Hi] Hroom Hid] <- Hx' Hk Hl. pose proof (numberOfExtents_layout _ _ Hl) as En. split_and!.
  - by apply (fork_ok_layout (xf_vcb x)).
  - split; [|done]. split; [done|by rewrite En|]. destruct (length RS - 1)%nat; [done|]. destruct Hkey as (? & ? & ?).
    split_and!; [done..|by apply Hk].
  - by apply Hk.
Qed.

(** What an extension by [k] blocks leaves: all of them, or fewer with a full disk, or an
    error of reading the bitmap. *)
Definition extension (x : X) (m : gmap extent_key extents) (fcb : filefork) (RS : list extents) (O : extents) (k err : Z)
    (fcb' : filefork) (x' : X) : Prop :=
  exists m' RS' new, rep x' m' /\ fork_ok (xf_vcb x') m' fcb' RS' /\ appended m fcb RS new m' fcb' RS' /\
    ff_blocks fcb' = total (concat RS') /\
    ((err = noErr /\ k <= Z.of_nat (length new) \/ err = dskFulErr) /\ vol_state bread (xf_vcb x') (O ++ concat RS') /\
       allocated (xf_vcb x) (xf_vcb x') new \/
     err <> noErr /\ (exists b, err = bread b) /\ same_layout (xf_vcb x) (xf_vcb x')).

Lemma appended_nil m fcb RS : appended m fcb RS [] m fcb RS.
Proof using Type. split; [by rewrite app_nil_r|done|done|done]. Qed.

Lemma appended_trans m1 f1 R1 n1 m2 f2 R2 n2 m3 f3 R3 : appended m1 f1 R1 n1 m2 f2 R2 -> appended m2 f2 R2 n2 m3 f3 R3 ->
  appended m1 f1 R1 (n1 ++ n2) m3 f3 R3.
Proof using Type.
  intros [B1 I1 F1 O1] [B2 I2 F2 O2]. split; [by rewrite B2, B1, app_assoc|congruence|congruence|].
  intros k Hk. rewrite O2 by (by rewrite I1, F1). by apply O1.
Qed.

Lemma extension_after x1 m1 f1 R1 O k1 x2 m2 f2 R2 new k err f3 x3 : totalBlocks (xf_vcb x1) < 2 ^ 32 ->
  appended m1 f1 R1 new m2 f2 R2 -> allocated (xf_vcb x1) (xf_vcb x2) new -> extension x2 m2 f2 R2 O k err f3 x3 ->
  k1 <= Z.of_nat (length new) + k -> extension x1 m1 f1 R1 O k1 err f3 x3.
Proof using Type.
  intros Ht Hap Hal (m' & RS' & new' & Hx & HF & Hap' & Hff & Hcase) Hk. exists m', RS', (new ++ new').
  split_and!; [done|done|by apply (appended_trans _ _ _ _ m2 f2 R2)|done|].
  destruct Hcase as [(Herr & Hv & Hal')|(He & Hb & Hl)].
  - left. split; [|split; [done|by apply (allocated_app _ (xf_vcb x2))]]. destruct Herr as [[-> Hn]| ->]; [|by right].
    left. split; [done|]. rewrite length_app. lia.
  - right. split_and!; [done|done|]. apply (same_layout_trans _ (xf_vcb x2)); [apply Hal|done].
Qed.

(** The total of a fork follows its blocks. *)
Lemma appended_total v m fcb RS new v' m' fcb' RS' : fork_ok v m fcb RS -> fork_ok v' m' fcb' RS' ->
  appended m fcb RS new m' fcb' RS' -> total (concat RS') = total (concat RS) + Z.of_nat (length new).
Proof using Type.
  intros HF HF' [B _ _ _]. rewrite <- (blocks_of_length (concat RS')), <- (blocks_of_length (concat RS)), B, length_app;
    [lia|by apply (fork_used v m fcb)|by apply (fork_used v' m' fcb')].
Qed.

Lemma extend_loop_spec flags blockHint O : forall fuel x m fcb RS loc l k mx contig nf,
  (Z.to_nat k + (if contig : bool then 1 else 0) < fuel)%nat -> growing x m fcb RS O loc l (Z.to_nat k) -> 1 <= k ->
  0 < blockSize (xf_vcb x) -> k * blockSize (xf_vcb x) <= mx -> mx / blockSize (xf_vcb x) + 1 < 2 ^ 32 ->
  ff_blocks fcb = total (concat RS) -> (contig = true -> vcbFreeExtCnt (xf_vcb x) = 0) -> 0 <= blockHint <= totalBlocks (xf_vcb x) ->
  exists err fcb' nf' x',
    extend_loop bread fuel x fcb loc flags blockHint (total (concat RS)) (k * blockSize (xf_vcb x)) mx contig nf = Ok (err, fcb', nf', x') /\
    extension x m fcb RS O k err fcb' x'.
Proof using ExtentsFileReads0 ExtentsFileWrites0.
  induction fuel as [|fuel IH]; intros x m fcb RS loc l k mx contig nf Hfuel HG Hk Hbs Hmx Hbig Hff Hcnt Hhint; [lia|].
  pose proof HG as [Hxv HF Hla Hroom Hid]. pose proof Hla as [Hat Hi]. pose proof (proj2 Hxv) as Hv.
  pose proof (geom_total _ (inv_geom _ (ao_inv _ _ (vs_alloc _ _ _ Hv)))) as Hg. cbn [as_vol] in Hg.
  cbn [extend_loop]. cbv zeta. set (last := ext_at (loc_data loc) (loc_index loc)).
  set (start := if negb (blockHint =? 0) then blockHint else u32 (startBlock last + blockCount last)).
  assert (0 <= start <= totalBlocks (xf_vcb x)) as Hstart.
  { unfold start. destruct (blockHint =? 0); cbn [negb]; [|done]. unfold last. rewrite Hi.
    pose proof (rh_pad _ _ _ (ar_data _ _ _ _ _ _ _ _ Hat)) as Ed. fold (padded l) in Ed. rewrite Ed.
    destruct l as [|a l1 _] using rev_ind; [change (0 <= 0 <= totalBlocks (xf_vcb x)); lia|].
    destruct (ext_at_last l1 a) as [-> _]. destruct Hv as [[_ _ Hu _] _]. cbn [as_owned as_vol] in Hu.
    rewrite (concat_last RS _ (ar_record _ _ _ _ _ _ _ _ Hat)) in Hu.
    apply Forall_app in Hu as [_ [_ [_ Hu]%Forall_app]%Forall_app]. rewrite Forall_singleton in Hu. destruct Hu as (? & ? & ? & _).
    rewrite u32_small; lia. }
  destruct (allocate_extent_spec x m (O ++ concat RS) flags start k mx contig Hxv Hstart Hk Hbs Hmx Hbig Hcnt)
    as (err & s & n & x1 & -> & Hx1 & Hk1 & Ha).
  cbn [mbind outcome_bind].
  destruct Ha as [(-> & Hv1 & Hal & Hlo)|[(-> & -> & Hv1 & Hal)|(He & Hd & Hb & Hl1)]].
  - destruct (growing_volume x x1 m fcb RS O loc l _ _ HG eq_refl Hx1 Hk1 (al_layout _ _ _ Hal)) as (HF1 & Hla1 & Hroom1).
    change (noErr =? dskFulErr) with false. change (noErr =? noErr) with true. cbn [andb negb].
    assert (1 <= n) as Hn by (destruct contig; lia). pose proof (layout_size _ _ (al_layout _ _ _ Hal)) as Ebs.
    destruct (add_extent_spec x1 m fcb RS O loc l (Ext s n) (Z.to_nat k - 1) blockHint start nf)
      as (fcb2 & loc2 & nf2 & x2 & m2 & RS2 & l2 & -> & HG2 & E2 & Hap & Hff2); try done.
    { by replace (S (Z.to_nat k - 1)) with (Z.to_nat k) by lia. }
    { intros ->. done. }
    cbn [mbind outcome_bind]. change (negb (noErr =? noErr)) with false. cbv iota. rewrite E2, Ebs.
    set (bs := blockSize (xf_vcb x)) in *. rewrite Z.quot_mul by lia. cbn [startBlock blockCount] in Hap.
    pose proof (appended_total _ _ _ _ _ _ _ _ _ HF (gr_fork _ _ _ _ _ _ _ _ HG2) Hap) as Ht2. rewrite length_seqZ in Ht2.
    pose proof (fo_total _ _ _ _ (gr_fork _ _ _ _ _ _ _ _ HG2)) as Htot2. pose proof (ext_total_nonneg _ (fork_used _ _ _ _ HF)) as Ht0.
    set (fcb3 := add_blocks fcb2 n).
    assert (ff_blocks fcb3 = total (concat RS2)) as Hff3.
    { unfold fcb3, add_blocks, set_blocks. cbn [ff_blocks]. rewrite Hff2, Hff, u32_small; lia. }
    assert (growing x2 m2 fcb3 RS2 O loc2 l2 (Z.to_nat k - 1)) as HG3 by (by apply growing_counters).
    assert (appended m fcb RS (seqZ s n) m2 fcb3 RS2) as Hap3 by (destruct Hap as [? ? ? ?]; by split).
    assert (allocated (xf_vcb x) (xf_vcb x2) (seqZ s n)) as Hal2 by (by rewrite E2).
    assert (forall err, err = noErr /\ k <= n \/ err = dskFulErr -> extension x m fcb RS O k err fcb3 x2) as Hdone.
    { intros err Herr. exists m2, RS2, (seqZ s n). split_and!; [apply HG3|apply HG3|done|done|]. left. rewrite length_seqZ.
      split; [destruct Herr as [[? ?]|?]; [left; split; [done|lia]|by right]|split; [apply HG3|done]]. }
    assert (0 <= n) as Hn0 by lia. rewrite (u32_small (total (concat RS) + n)) by lia.
    destruct (Z.ltb_spec (k * bs) (n * bs)) as [Hkn|Hkn].
    { assert (k <= n) by nia. cbn [Z.eqb]. destruct (negb (Z.land flags kEFContigMask =? 0)); eexists _, _, _, _; (split; [done|]); apply Hdone; auto. }
    assert (n <= k) as Hnk by nia. replace (k * bs - n * bs) with ((k - n) * bs) by lia.
    destruct (Z.eqb_spec ((k - n) * bs) 0) as [Hz|Hz].
    { assert (k <= n) by nia. destruct (negb (Z.land flags kEFContigMask =? 0)); eexists _, _, _, _; (split; [done|]); apply Hdone; auto. }
    destruct (negb (Z.land flags kEFContigMask =? 0)); [eexists _, _, _, _; (split; [done|]); apply Hdone; auto|].
    assert (1 <= k - n) as Hkn1 by nia. destruct contig; [lia|]. replace (total (concat RS) + n) with (total (concat RS2)) by lia.
    destruct (IH x2 m2 fcb3 RS2 loc2 l2 (k - n) (mx - n * bs) false nf2) as (err & fcb' & nf' & x' & Hrun & Hext); rewrite ?E2, ?Ebs; try done.
    + lia.
    + destruct HG3 as [? ? ? HR ?]. split; try done. apply (xf_room_mono (ExtentsFileWrites := ExtentsFileWrites0) x2 (Z.to_nat k - 1)); [done|lia].
    + fold bs. lia.
    + fold bs. pose proof (Z.div_le_mono (mx - n * bs) mx bs Hbs ltac:(nia)). lia.
    + by rewrite (layout_total _ _ (al_layout _ _ _ Hal)).
    + rewrite E2, Ebs in Hrun. fold bs in Hrun. rewrite Hrun. exists err, fcb', nf', x'. split; [done|].
      apply (extension_after x m fcb RS O k x2 m2 fcb3 RS2 (seqZ s n) (k - n)); try done; [lia|]. rewrite length_seqZ. lia.
  - destruct (growing_volume x x1 m fcb RS O loc l _ _ HG eq_refl Hx1 Hk1 (al_layout _ _ _ Hal)) as (HF1 & Hla1 & Hroom1).
    change (dskFulErr =? dskFulErr) with true. cbn [andb]. change (negb (0 =? 0)) with false. cbn [andb].
    assert (extension x m fcb RS O k dskFulErr fcb x1) as Hext.
    { exists m, RS, []. split_and!; [done|done|apply appended_nil|done|]. left. split; [by right|done]. }
    destruct (negb (Z.land flags kEFContigMask =? 0)); [by eexists _, _, _, _|].
    destruct contig; [|by eexists _, _, _, _]. rewrite (proj2 (Z.eqb_neq _ 0)) by nia.
    pose proof (layout_size _ _ (al_layout _ _ _ Hal)) as Ebs. rewrite <- Ebs in *.
    destruct (IH x1 m fcb RS loc l k mx false nf) as (err & fcb' & nf' & x' & -> & Hext'); try done;
      [lia|by rewrite (layout_total _ _ (al_layout _ _ _ Hal))|].
    exists err, fcb', nf', x'. split; [done|]. by apply (extension_after x m fcb RS O k x1 m fcb RS [] k); [lia|apply appended_nil|..|].
  - rewrite (proj2 (Z.eqb_neq _ _) Hd). cbn [andb]. rewrite (proj2 (Z.eqb_neq _ _) He). cbn [negb].
    eexists _, _, _, _. split; [done|]. destruct (growing_volume x x1 m fcb RS O loc l _ _ HG eq_refl Hx1 Hk1 Hl1) as (HF1 & _ & _).
    exists m, RS, []. split_and!; [done|done|apply appended_nil|done|]. by right.
Qed.

Lemma allocated_flags v v' ks f : allocated v v' ks -> allocated v (set_flags f v') ks.
Proof using Type. intros [[] ? ? Hb ?]. split; [by split|done|done|done|done]. Qed.

(** The state after an extension: the fork has its blocks and then [new], and counts at
    least [n] unless the disk is full or the bitmap could not be read. *)
Definition extended (x : X) (m : gmap extent_key extents) (fcb : filefork) (RS : list extents) (O : extents) (n err : Z)
    (fcb' : filefork) (x' : X) : Prop :=
  exists m' RS' new, rep x' m' /\ fork_ok (xf_vcb x') m' fcb' RS' /\ appended m fcb RS new m' fcb' RS' /\
    ff_blocks fcb' <= total (concat RS') /\
    ((err = noErr /\ n <= ff_blocks fcb' \/ err = dskFulErr) /\ vol_state bread (xf_vcb x') (O ++ concat RS') /\
       allocated (xf_vcb x) (xf_vcb x') new \/
     err <> noErr /\ (exists b, err = bread b) /\ same_layout (xf_vcb x) (xf_vcb x')).

Lemma extend_exit_spec x x1 m fcb fcb' RS O n err prev nf : extended x m fcb RS O n err fcb' x1 ->
  blockSize (xf_vcb x1) = blockSize (xf_vcb x) ->
  exists x', extend_exit x1 fcb' prev nf err = Ok (err, u32 (ff_blocks fcb' - prev) * blockSize (xf_vcb x), fcb', x') /\
    extended x m fcb RS O n err fcb' x'.
Proof using ExtentsFileReads0 ExtentsFileWrites0.
  intros Hext Ebs. unfold extend_exit. rewrite Ebs. destruct nf; [|by exists x1].
  destruct Hext as (m' & RS' & new & Hx & HF & Hap & Hff & Hcase).
  destruct (flush_rep rep hint_ok room removable x1 m' Hx) as (e & x' & f & -> & Hx' & E). cbn [mbind outcome_bind].
  exists x'. split; [done|]. exists m', RS', new. split_and!; [done| |done|done|]; rewrite E.
  - by apply (fork_ok_layout (xf_vcb x1)).
  - destruct Hcase as [(? & ? & ?)|(? & ? & [])]; [left|right; by split_and!].
    split_and!; [done|by apply vol_state_flags|by apply allocated_flags].
Qed.

(** The cache of free extents and the promised blocks do not matter for the forks. *)
Lemma vol_state_cache v owned : vol_state bread v owned -> vol_state bread (set_freeExts 0 (vcbFreeExt v) v) owned.
Proof using Type. intros [[Hinv ? ? ?] ?]. split; [|done]. split; [by apply (forget_cache_inv true)|done..]. Qed.

Lemma vol_state_loaned v owned n : vol_state bread v owned -> vol_state bread (set_loaned n v) owned.
Proof using Type.
  intros [[[[? ? ?] ? [? ? ? ?] ? ?] Hbr Hu Hd] Hr]. split; [|done]. split; [|done|done|done].
  split; [by split|done|by split|done|done].
Qed.

Lemma extend_search_spec x m fcb RS O prev need mx blockHint flags :
  holds_volume rep bread x m (O ++ concat RS) -> fork_ok (xf_vcb x) m fcb RS -> room x (Z.to_nat need) ->
  c_fileid fcb <> kHFSExtentsFileID -> 0 < blockSize (xf_vcb x) -> 0 <= ff_blocks fcb <= total (concat RS) -> 1 <= need ->
  ff_blocks fcb + need < 2 ^ 32 -> need * blockSize (xf_vcb x) <= mx -> mx / blockSize (xf_vcb x) + 1 < 2 ^ 32 ->
  0 <= blockHint <= totalBlocks (xf_vcb x) ->
  exists err added fcb' x', extend_search bread x fcb prev (need * blockSize (xf_vcb x)) mx blockHint flags = Ok (err, added, fcb', x') /\
    added = u32 (ff_blocks fcb' - prev) * blockSize (xf_vcb x) /\ extended x m fcb RS O (ff_blocks fcb + need) err fcb' x'.
Proof using ExtentsFileReads0 ExtentsFileWrites0.
  intros Hxv HF Hroom Hid Hbs Hff Hneed Hmax Hmx Hbig Hhint. set (bs := blockSize (xf_vcb x)) in *.
  unfold extend_search. cbv zeta. fold bs. replace (ff_blocks fcb * bs + need * bs) with ((ff_blocks fcb + need) * bs) by lia.
  destruct (SearchExtentFile_spec rep hint_ok x m fcb RS ((ff_blocks fcb + need) * bs - 1) (proj1 Hxv) HF)
    as (err & loc & x1 & Hrun & Hx1 & E1 & Hpost).
  pose proof (search_keeps rep hint_ok room removable _ _ _ _ _ _ _ (proj1 Hxv) Hrun) as Hk1. rewrite Hrun. cbn [mbind outcome_bind].
  assert (u32 (Z.quot ((ff_blocks fcb + need) * bs - 1) bs) = ff_blocks fcb + need - 1) as Eb.
  { rewrite Z.quot_div_nonneg by nia. rewrite u32_small; [|split; [apply Z.div_pos; nia|apply Z.div_lt_upper_bound; nia]].
    symmetry. apply (Z.div_unique_pos _ _ _ (bs - 1)); lia. }
  fold bs in Hpost. rewrite Eb in Hpost. pose proof (fo_total _ _ _ _ HF) as Htot.
  destruct Hpost as [(-> & Hb & _)|(-> & Hb & l & Hat & Hi & Hend)].
  - change (noErr =? noErr) with true. cbv iota. rewrite !Z.quot_mul by lia.
    set (fcb1 := set_blocks fcb (ff_blocks fcb + need) (ff_unallocblocks fcb) (c_blocks fcb + need) true).
    destruct (extend_exit_spec x x1 m fcb fcb1 RS O (ff_blocks fcb + need) noErr prev false) as (x' & -> & Hext).
    + assert (ff_blocks fcb1 = ff_blocks fcb + need) as Eff by (unfold fcb1, set_blocks; cbn; rewrite u32_small; lia).
      exists m, RS, []. rewrite Eff, E1. split_and!; [done|by destruct HF; split|by split; rewrite ?app_nil_r|lia|].
      left. split; [left; split; [done|lia]|]. split; [apply Hxv|by apply allocated_same].
    + by rewrite E1.
    + by eexists _, _, _, _.
  - change (fxRangeErr =? noErr) with false. change (fxRangeErr =? fxRangeErr) with true. cbn [negb]. cbv iota. rewrite Hend.
    set (T := total (concat RS)) in *. rewrite (u32_small (T - ff_blocks fcb)) by lia.
    set (k := need - (T - ff_blocks fcb)).
    assert (exists fcb1, (if negb ((T - ff_blocks fcb) * bs =? 0) then
        (set_blocks fcb T (ff_unallocblocks fcb) (c_blocks fcb + Z.quot ((T - ff_blocks fcb) * bs) bs) true, need * bs - (T - ff_blocks fcb) * bs)
      else (fcb, need * bs)) = (fcb1, k * bs) /\ ff_blocks fcb1 = T /\ (forall y r, growing y m fcb RS O loc l r -> growing y m fcb1 RS O loc l r) /\
      c_fileid fcb1 = c_fileid fcb /\ forkType fcb1 = forkType fcb) as (fcb1 & -> & Eff & HG1 & Eid & Efk).
    { destruct (Z.eqb_spec ((T - ff_blocks fcb) * bs) 0) as [Hz|Hz]; cbn [negb].
      - assert (T = ff_blocks fcb) by nia. exists fcb. split_and!; try done. unfold k. do 2 f_equal. lia.
      - eexists. split; [unfold k; f_equal; lia|]. cbn. split; [apply u32_small; lia|]. split; [intros; by apply growing_counters|done]. }
    set (x2 := xf_set x1 (set_freeExts 0 (vcbFreeExt (xf_vcb x1)) (xf_vcb x1))).
    assert (xf_vcb x2 = set_freeExts 0 (vcbFreeExt (xf_vcb x)) (xf_vcb x)) as E2 by (unfold x2; by rewrite xf_vcb_set, E1).
    assert (blockSize (xf_vcb x2) = bs) as Ebs2 by (by rewrite E2).
    assert (same_layout (xf_vcb x) (xf_vcb x2)) as Hl2 by (by rewrite E2).
    assert (growing x2 m fcb1 RS O loc l (Z.to_nat k)) as HG.
    { apply HG1. pose proof (xf_set_keeps (ExtentsFileWrites := ExtentsFileWrites0) x1 (set_freeExts 0 (vcbFreeExt (xf_vcb x1)) (xf_vcb x1))) as Hk2.
      fold x2 in Hk2. split; [|by apply (fork_ok_layout (xf_vcb x))| | |done].
      - split; [by apply xf_rep_set|]. rewrite E2. apply vol_state_cache, Hxv.
      - split; [|done]. destruct Hat as [? Hd Hkey]. split; [done|by rewrite E2; rewrite E1 in Hd|].
        destruct (length RS - 1)%nat; [done|]. destruct Hkey as (? & ? & ?). split_and!; [done..|by apply Hk2].
      - apply Hk2, Hk1. apply (xf_room_mono (ExtentsFileWrites := ExtentsFileWrites0) x (Z.to_nat need)); [done|lia]. }
    rewrite Z.div_mul by lia.
    destruct (extend_loop_spec flags blockHint O (S (S (Z.to_nat k))) x2 m fcb1 RS loc l k mx true false)
      as (err & fcb' & nf & x3 & Hloop & m' & RS' & new & Hx3 & HF3 & Hap & Hff3 & Hcase); rewrite ?Ebs2;
      [simpl; lia|done|lia|done|nia|done|done|by rewrite E2|by rewrite E2|].
    rewrite Ebs2 in Hloop. fold T in Hloop. rewrite Hloop. cbn [mbind outcome_bind]. pose proof (appended_total _ _ _ _ _ _ _ _ _ (gr_fork _ _ _ _ _ _ _ _ HG) HF3 Hap) as Ht.
    destruct (extend_exit_spec x x3 m fcb fcb' RS O (ff_blocks fcb + need) err prev nf) as (x' & -> & Hext).
    + exists m', RS', new. split_and!; [done|done| |lia|].
      * destruct Hap as [? Hi' Hf' Ho]. split; [done|by rewrite Hi'|by rewrite Hf'|]. intros key Hkey. apply Ho. by rewrite Eid, Efk.
      * assert (allocated (xf_vcb x) (xf_vcb x2) []) as Hal2 by (apply allocated_same; by rewrite ?E2).
        destruct Hcase as [(Herr & Hv & Hal)|(He & Hb' & Hl)]; [left|right].
        -- split; [|split; [done|]].
           ++ destruct Herr as [[-> Hn]| ->]; [left; split; [done|]|by right]. rewrite Hff3. lia.
           ++ apply (allocated_app _ (xf_vcb x2) _ [] new); [|done|done].
              pose proof (geom_total _ (inv_geom _ (ao_inv _ _ (vs_alloc _ _ _ (proj2 Hxv))))) as Hg. cbn [as_vol] in Hg. lia.
        -- split_and!; [done|done|]. by apply (same_layout_trans _ (xf_vcb x2)).
    + destruct Hcase as [(_ & _ & Hal)|(_ & _ & Hl)]; [rewrite (layout_size _ _ (al_layout _ _ _ Hal))|rewrite (layout_size _ _ Hl)]; by rewrite E2.
    + by eexists _, _, _, _.
Qed.

(** The clump size rounds up. *)
Lemma clump_bytes bytes clump bs : 512 <= bs -> 0 <= bytes < HFS_MAX_DEFERED_ALLOC -> bs < clump < 2 ^ 32 ->
  bytes <= FileBytesToBlocks bytes clump * clump /\ FileBytesToBlocks bytes clump * clump / bs + 1 < 2 ^ 32.
Proof using Type.
  unfold HFS_MAX_DEFERED_ALLOC. intros Hbs Hb Hc. unfold FileBytesToBlocks. cbv zeta. rewrite Z.quot_div_nonneg by lia.
  pose proof (Z.mul_div_le bytes clump ltac:(lia)). pose proof (Z.mul_succ_div_gt bytes clump ltac:(lia)).
  pose proof (Z.div_pos bytes clump ltac:(lia) ltac:(lia)). assert (bytes / clump < 2 ^ 31) by (apply Z.div_lt_upper_bound; lia).
  rewrite !(u32_small (bytes / clump)) by lia. rewrite (u32_small (bytes / clump * clump)) by nia. rewrite (u32_small (bytes / clump + 1)) by lia.
  assert (forall v, 0 <= v <= bytes + clump -> v / bs + 1 < 2 ^ 32) as Hdiv.
  { intros v Hv. pose proof (Z.div_le_upper_bound v bs (2 ^ 24) ltac:(lia) ltac:(nia)). lia. }
  case_ztest; (split; [lia|apply Hdiv; nia]).
Qed.

End growth.
