(* ===== verification/ExtentTable.v ===== *)
(** * Forks on an example volume

    The extents file as a table of records: the smallest implementation of the interface
    of ExtentMapping.v, which keeps all of its laws, and with it an evaluation of the
    routines on a fork with an overflow record. *)
From S2P Require Import Prelude Bits VolumeBitmap VolumeAllocation AllocationTheorems ExtentMapping ExtentTheorems ExtentTruncate ExtentGrowth.

(** ** The table *)

Abbreviation table := (ExtendedVCB * gmap extent_key extents)%type.

(** The last record of a fork that starts at block [b] or before. *)
Definition last_before (fork id b : Z) (l : list (extent_key * extents)) : option (Z * extents) :=
  foldr (fun '((id', fork', s), d) acc =>
           if (id' =? id) && (fork' =? fork) && (s <=? b) then
             match acc with Some (s', _) => if s' <? s then Some (s, d) else acc | None => Some (s, d) end
           else acc) None l.

#[export] Instance table_file : ExtentsFile table := {
  xf_vcb x := x.1;
  xf_set x v := (v, x.2);
  xf_find x fork id b prev :=
    Ok (match x.2 !! (id, fork, b) with
        | Some d => (noErr, Some (mkExtentKey kHFSPlusExtentKeyMaximumLength fork 0 id b, d), 0, x)
        | None => if (prev : bool) then
                    match last_before fork id b (map_to_list x.2) with
                    | Some (s, d) => (noErr, Some (mkExtentKey kHFSPlusExtentKeyMaximumLength fork 0 id s, d), 0, x)
                    | None => (btNotFound, None, 0, x)
                    end
                  else (btNotFound, None, 0, x)
        end);
  xf_create x key d := Ok (noErr, 0, (x.1, <[(xk_fileID key, xk_forkType key, xk_startBlock key) := d]> x.2));
  xf_delete x fork id s := Ok (noErr, (x.1, delete (id, fork, s) x.2));
  xf_update x key d _ := Ok (noErr, (x.1, <[(xk_fileID key, xk_forkType key, xk_startBlock key) := d]> x.2));
  xf_flush x := Ok (noErr, x);
  xf_modified x := true
}.

Lemma last_before_spec fork id b l :
  match last_before fork id b l with
  | Some (s, d) => ((id, fork, s), d) ∈ l /\ s <= b /\ forall s' d', ((id, fork, s'), d') ∈ l -> s' <= b -> s' <= s
  | None => forall s' d', ((id, fork, s'), d') ∈ l -> ~ s' <= b
  end.
Proof.
  induction l as [|[[[id' fork'] s] d] l IH]; cbn [last_before foldr].
  - intros s' d' H. by apply not_elem_of_nil in H.
  - change (foldr _ None l) with (last_before fork id b l).
    destruct ((id' =? id) && (fork' =? fork) && (s <=? b)) eqn:E.
    + apply andb_true_iff in E as [[->%Z.eqb_eq ->%Z.eqb_eq]%andb_true_iff Hs%Z.leb_le].
      destruct (last_before fork id b l) as [[s0 d0]|].
      * destruct IH as (Hin & Hs0 & Hmax). destruct (Z.ltb_spec s0 s).
        -- split_and!; [by left|done|]. intros s' d' [[= -> ->]|H']%elem_of_cons Hb; [lia|]. specialize (Hmax s' d' H' Hb). lia.
        -- split_and!; [by right|done|]. intros s' d' [[= -> ->]|H']%elem_of_cons Hb; [lia|]. by apply (Hmax s' d').
      * split_and!; [by left|done|]. intros s' d' [[= -> ->]|H']%elem_of_cons Hb; [lia|]. by destruct (IH s' d' H').
    + assert (forall s' d', ((id, fork, s'), d') = ((id', fork', s), d) -> ~ s' <= b) as Hno.
      { intros s' d' [= <- <- <- <-] Hb. rewrite !Z.eqb_refl in E. by apply Z.leb_gt in E; lia. }
      destruct (last_before fork id b l) as [[s0 d0]|].
      * destruct IH as (Hin & Hs0 & Hmax). split_and!; [by right|done|].
        intros s' d' [H'|H']%elem_of_cons Hb; [by destruct (Hno _ _ H')|by apply (Hmax s' d')].
      * intros s' d' [H'|H']%elem_of_cons; [by apply (Hno s' d')|by apply (IH s' d')].
Qed.

Definition table_rep (x : table) (m : gmap extent_key extents) : Prop := x.2 = m.
Definition table_hint (_ : table) (_ : Z) : Prop := True.
Definition table_room (_ : table) (_ : nat) : Prop := True.
Definition table_removable (_ : table) (_ _ _ : Z) : Prop := True.

#[export] Instance table_reads : ExtentsFileReads table table_rep table_hint.
Proof.
  split; [done|done|done|]. intros [v m'] m fork id b prev <- Hf Hid Hb. cbn [xf_find table_file fst snd].
  destruct (m' !! (id, fork, b)) as [d|] eqn:E.
  - eexists _, _, _, _. split; [done|]. split; [|done]. left. split; [done|]. exists b, d. split_and!; (done || lia).
  - pose proof (last_before_spec fork id b (map_to_list m')) as H.
    destruct prev; [destruct (last_before _ _ _ _) as [[s d]|]|]; (eexists _, _, _, _; split; [done|]; split; [|done]).
    + destruct H as (?%elem_of_map_to_list & ? & Hmax). left. split; [done|]. exists s, d. split_and!; try done.
      intros s' d' H'%elem_of_map_to_list. by apply (Hmax s' d').
    + right. split_and!; try done. intros _ s' d' H'%elem_of_map_to_list. by apply (H s' d').
    + right. by split_and!.
Qed.

#[export] Instance table_writes : ExtentsFileWrites table table_rep table_hint table_room table_removable.
Proof.
  split; try done; intros [v m']; unfold table_rep; cbn; intros; subst;
    repeat match goal with |- exists _, _ => eexists | |- _ /\ _ => split end; done.
Qed.

(** ** A fragmented fork

    Blocks 4, 6, ..., 18 and the blocks 20 and 21: eight extents in the record of the fork
    and one in an overflow record that starts with block 8 of the fork. *)

Definition frag_vol : ExtendedVCB :=
  VCB kHFSPlusSigWord 0 4096 100 87 3 0 8 0 (replicate 10 ext0) 0 0
    (<[0 := [SWAP_BE32 0xEAAAAC00; 0]]> (<[1 := [0; 0]]> ∅)).
Definition frag_resident : extents := map (fun i => Ext (4 + 2 * i) 1) (seqZ 0 8).
Definition frag_overflow : extents := [Ext 20 2].
Definition frag_fork : filefork := mkFork frag_resident 40960 10 0 4096 16 10 false false.
Definition frag_file : gmap extent_key extents := {[ (16, 0, 8) := frag_overflow ++ replicate 7 ext0 ]}.
Definition frag_table : table := (frag_vol, frag_file).
Definition frag_records : list extents := [frag_resident; frag_overflow].

Lemma frag_geom : geom_ok frag_vol.
Proof. split; simpl; [exists 3; simpl; lia|lia|lia]. Qed.

Lemma frag_inv : vol_inv frag_vol.
Proof.
  split; [apply frag_geom| | |simpl; lia|vm_compute; done].
  - split.
    + assert (map_Forall (fun _ ws => Z.of_nat (length ws) = words_per_block frag_vol /\
              Forall (fun w => 0 <= w < 2 ^ 32) ws) (bitmap frag_vol)) as H
        by (apply (bool_decide_unpack _); vm_compute; done).
      exact H.
    + simpl. intros k Hk. rewrite (bitmap_block_eq frag_vol frag_geom) by lia. simpl.
      change (bits_per_block frag_vol) with 64. rewrite Z.add_0_r.
      assert (k / 64 = 0 \/ k / 64 = 1) as [->| ->] by (Z.to_euclidean_division_equations; lia); by eexists.
  - split; [done|simpl; lia|unfold cached; simpl; constructor..].
Qed.

Lemma frag_state : vol_state ex_bread frag_vol ([Ext 0 3] ++ concat frag_records).
Proof.
  split.
  - split; cbn [as_vol as_owned]; [apply frag_inv| | |].
    + intros b. unfold ex_bread. destruct (Z.eqb_spec b 0) as [->|]; [simpl; by split; [lia|eexists]|].
      destruct (Z.eqb_spec b 1) as [->|]; simpl; [by split; [lia|eexists]|]. by split; [lia|].
    + apply (Forall_impl (fun e => (0 <= startBlock e /\ 1 <= blockCount e /\ startBlock e + blockCount e <= 100) /\
        Forall (fun k => mem_bit frag_vol (bitmap frag_vol) k = true) (seqZ (startBlock e) (blockCount e)))).
      * apply (bool_decide_unpack _). vm_compute. done.
      * intros e [(? & ? & ?) Hf]. split_and!; try done. intros k Hk. rewrite Forall_forall in Hf. apply Hf, elem_of_seqZ. lia.
    + repeat (constructor; [|repeat (constructor; [unfold ext_disjoint; cbn; lia|]); constructor]). constructor.
  - intros k Hk. rewrite (bitmap_block_eq frag_vol frag_geom) by (simpl in *; lia). simpl in *.
    change (bits_per_block frag_vol) with 64. rewrite Z.add_0_r.
    assert (k / 64 = 0 \/ k / 64 = 1) as [->| ->] by (Z.to_euclidean_division_equations; lia); done.
Qed.

Lemma frag_ok : fork_ok frag_vol frag_file frag_fork frag_records.
Proof.
  split.
  - exists frag_resident. split_and!; [done| |done]. split; [done|done|done|].
    apply (bool_decide_unpack _). vm_compute. done.
  - intros [|[|j]] l Hl; simplify_eq/=. split; [done|]. eexists. split; [done|]. split; [done|done|done|].
    by repeat constructor.
  - intros s d Hs. unfold frag_file in Hs. apply lookup_singleton_Some in Hs as [[= <-] _]. exists 0%nat, frag_overflow. done.
  - cbn. lia.
  - vm_compute. done.
Qed.

(** ** The theorems on the fork *)

(** Five blocks are kept. *)
Lemma TruncateFileC_witness :
  exists fcb' x', TruncateFileC ex_bread 2 frag_table frag_fork 20000 false = Ok (noErr, fcb', x') /\
    truncated table_rep ex_bread frag_table frag_file frag_fork frag_records [Ext 0 3] 5 fcb' x' /\ ff_blocks fcb' = 5.
Proof.
  destruct (TruncateFileC_correct table_rep table_hint table_room table_removable ex_bread 2 frag_table frag_file frag_fork
    frag_records [Ext 0 3] 20000 false) as (n' & fcb' & x' & Hrun & Hn & Ht & Hff).
  - split; [reflexivity|apply frag_state].
  - apply frag_ok.
  - cbn. lia.
  - exact I.
  - intros [|[|j]] l Hl; simplify_eq/=. vm_compute. done.
  - reflexivity.
  - cbn. lia.
  - vm_compute. done.
  - exists fcb', x'. split; [exact Hrun|]. cbn in Hn. rewrite decide_False in Hn by done. unfold cut_point in Hn.
    rewrite Hn in Ht. split; [exact Ht|exact Hff].
Defined.


(** The sector of a block is computed in 32 bits: the first block behind 2 TiB is mapped to
    the start of the volume. *)
Lemma MapFileBlockC_wraps :
  MapFileBlockC (mkDevice 512 0 0) frag_table
    (mkFork (Ext (2 ^ 29) 1 :: replicate 7 ext0) 4096 1 0 4096 17 1 false false) 4096 0 = Ok (noErr, Some (0, 4096), frag_table).
Proof. vm_compute. reflexivity. Qed.

(** On a full disk the promised blocks are given back before the count is compared: a fork
    that counts fewer blocks than before reports about 16 TB as added. *)
Lemma ExtendFileC_promised :
  exists fcb' x', ExtendFileC ex_bread (set_loaned 2 frag_vol, frag_file)
      (mkFork frag_resident 40960 12 2 4096 16 12 false false) (200 * 4096) 0 kEFAllMask =
    Ok (dskFulErr, (2 ^ 32 - 2) * 4096, fcb', x') /\ ff_blocks fcb' = 10.
Proof. eexists _, _. split; [vm_compute; reflexivity|reflexivity]. Qed.
