(* ===== verification/UnicodeTables.v ===== *)
(** * Case folding tables (hfsplus/hfscommon/Unicode/UCStringCompareData.h)

    The three tables of the string comparisons, as the header has them. *)
From S2P Require Import Prelude.

(** Case folding of the characters below 0x100. *)
Definition gLatinCaseFold : list Z := [
  65535; 1; 2; 3; 4; 5; 6; 7; 8; 9; 10; 11;
  12; 13; 14; 15; 16; 17; 18; 19; 20; 21; 22; 23;
  24; 25; 26; 27; 28; 29; 30; 31; 32; 33; 34; 35;
  36; 37; 38; 39; 40; 41; 42; 43; 44; 45; 46; 47;
  48; 49; 50; 51; 52; 53; 54; 55; 56; 57; 58; 59;
  60; 61; 62; 63; 64; 97; 98; 99; 100; 101; 102; 103;
  104; 105; 106; 107; 108; 109; 110; 111; 112; 113; 114; 115;
  116; 117; 118; 119; 120; 121; 122; 91; 92; 93; 94; 95;
  96; 97; 98; 99; 100; 101; 102; 103; 104; 105; 106; 107;
  108; 109; 110; 111; 112; 113; 114; 115; 116; 117; 118; 119;
  120; 121; 122; 123; 124; 125; 126; 127; 128; 129; 130; 131;
  132; 133; 134; 135; 136; 137; 138; 139; 140; 141; 142; 143;
  144; 145; 146; 147; 148; 149; 150; 151; 152; 153; 154; 155;
  156; 157; 158; 159; 160; 161; 162; 163; 164; 165; 166; 167;
  168; 169; 170; 171; 172; 173; 174; 175; 176; 177; 178; 179;
  180; 181; 182; 183; 184; 185; 186; 187; 188; 189; 190; 191;
  192; 193; 194; 195; 196; 197; 230; 199; 200; 201; 202; 203;
  204; 205; 206; 207; 240; 209; 210; 211; 212; 213; 214; 215;
  248; 217; 218; 219; 220; 221; 254; 223; 224; 225; 226; 227;
  228; 229; 230; 231; 232; 233; 234; 235; 236; 237; 238; 239;
  240; 241; 242; 243; 244; 245; 246; 247; 248; 249; 250; 251;
  252; 253; 254; 255].

(** The high-byte table, followed by nine sub-tables. *)
Definition gLowerCaseTable : list Z := [
  0; 256; 0; 512; 768; 1024; 0; 0; 0; 0; 0; 0;
  0; 0; 0; 0; 1280; 0; 0; 0; 0; 0; 0; 0;
  0; 0; 0; 0; 0; 0; 0; 0; 1536; 1792; 0; 0;
  0; 0; 0; 0; 0; 0; 0; 0; 0; 0; 0; 0;
  0; 0; 0; 0; 0; 0; 0; 0; 0; 0; 0; 0;
  0; 0; 0; 0; 0; 0; 0; 0; 0; 0; 0; 0;
  0; 0; 0; 0; 0; 0; 0; 0; 0; 0; 0; 0;
  0; 0; 0; 0; 0; 0; 0; 0; 0; 0; 0; 0;
  0; 0; 0; 0; 0; 0; 0; 0; 0; 0; 0; 0;
  0; 0; 0; 0; 0; 0; 0; 0; 0; 0; 0; 0;
  0; 0; 0; 0; 0; 0; 0; 0; 0; 0; 0; 0;
  0; 0; 0; 0; 0; 0; 0; 0; 0; 0; 0; 0;
  0; 0; 0; 0; 0; 0; 0; 0; 0; 0; 0; 0;
  0; 0; 0; 0; 0; 0; 0; 0; 0; 0; 0; 0;
  0; 0; 0; 0; 0; 0; 0; 0; 0; 0; 0; 0;
  0; 0; 0; 0; 0; 0; 0; 0; 0; 0; 0; 0;
  0; 0; 0; 0; 0; 0; 0; 0; 0; 0; 0; 0;
  0; 0; 0; 0; 0; 0; 0; 0; 0; 0; 0; 0;
  0; 0; 0; 0; 0; 0; 0; 0; 0; 0; 0; 0;
  0; 0; 0; 0; 0; 0; 0; 0; 0; 0; 0; 0;
  0; 0; 0; 0; 0; 0; 0; 0; 0; 0; 0; 0;
  0; 0; 2048; 2304; 256; 257; 258; 259; 260; 261; 262; 263;
  264; 265; 266; 267; 268; 269; 270; 271; 273; 273; 274; 275;
  276; 277; 278; 279; 280; 281; 282; 283; 284; 285; 286; 287;
  288; 289; 290; 291; 292; 293; 295; 295; 296; 297; 298; 299;
  300; 301; 302; 303; 304; 305; 307; 307; 308; 309; 310; 311;
  312; 313; 314; 315; 316; 317; 318; 320; 320; 322; 322; 323;
  324; 325; 326; 327; 328; 329; 331; 331; 332; 333; 334; 335;
  336; 337; 339; 339; 340; 341; 342; 343; 344; 345; 346; 347;
  348; 349; 350; 351; 352; 353; 354; 355; 356; 357; 359; 359;
  360; 361; 362; 363; 364; 365; 366; 367; 368; 369; 370; 371;
  372; 373; 374; 375; 376; 377; 378; 379; 380; 381; 382; 383;
  384; 595; 387; 387; 389; 389; 596; 392; 392; 598; 599; 396;
  396; 397; 477; 601; 603; 402; 402; 608; 611; 405; 617; 616;
  409; 409; 410; 411; 623; 626; 414; 629; 416; 417; 419; 419;
  421; 421; 422; 424; 424; 643; 426; 427; 429; 429; 648; 431;
  432; 650; 651; 436; 436; 438; 438; 658; 441; 441; 442; 443;
  445; 445; 446; 447; 448; 449; 450; 451; 454; 454; 454; 457;
  457; 457; 460; 460; 460; 461; 462; 463; 464; 465; 466; 467;
  468; 469; 470; 471; 472; 473; 474; 475; 476; 477; 478; 479;
  480; 481; 482; 483; 485; 485; 486; 487; 488; 489; 490; 491;
  492; 493; 494; 495; 496; 499; 499; 499; 500; 501; 502; 503;
  504; 505; 506; 507; 508; 509; 510; 511; 768; 769; 770; 771;
  772; 773; 774; 775; 776; 777; 778; 779; 780; 781; 782; 783;
  784; 785; 786; 787; 788; 789; 790; 791; 792; 793; 794; 795;
  796; 797; 798; 799; 800; 801; 802; 803; 804; 805; 806; 807;
  808; 809; 810; 811; 812; 813; 814; 815; 816; 817; 818; 819;
  820; 821; 822; 823; 824; 825; 826; 827; 828; 829; 830; 831;
  832; 833; 834; 835; 836; 837; 838; 839; 840; 841; 842; 843;
  844; 845; 846; 847; 848; 849; 850; 851; 852; 853; 854; 855;
  856; 857; 858; 859; 860; 861; 862; 863; 864; 865; 866; 867;
  868; 869; 870; 871; 872; 873; 874; 875; 876; 877; 878; 879;
  880; 881; 882; 883; 884; 885; 886; 887; 888; 889; 890; 891;
  892; 893; 894; 895; 896; 897; 898; 899; 900; 901; 902; 903;
  904; 905; 906; 907; 908; 909; 910; 911; 912; 945; 946; 947;
  948; 949; 950; 951; 952; 953; 954; 955; 956; 957; 958; 959;
  960; 961; 930; 963; 964; 965; 966; 967; 968; 969; 938; 939;
  940; 941; 942; 943; 944; 945; 946; 947; 948; 949; 950; 951;
  952; 953; 954; 955; 956; 957; 958; 959; 960; 961; 962; 963;
  964; 965; 966; 967; 968; 969; 970; 971; 972; 973; 974; 975;
  976; 977; 978; 979; 980; 981; 982; 983; 984; 985; 986; 987;
  988; 989; 990; 991; 992; 993; 995; 995; 997; 997; 999; 999;
  1001; 1001; 1003; 1003; 1005; 1005; 1007; 1007; 1008; 1009; 1010; 1011;
  1012; 1013; 1014; 1015; 1016; 1017; 1018; 1019; 1020; 1021; 1022; 1023;
  1024; 1025; 1106; 1027; 1108; 1109; 1110; 1031; 1112; 1113; 1114; 1115;
  1036; 1037; 1038; 1119; 1072; 1073; 1074; 1075; 1076; 1077; 1078; 1079;
  1080; 1049; 1082; 1083; 1084; 1085; 1086; 1087; 1088; 1089; 1090; 1091;
  1092; 1093; 1094; 1095; 1096; 1097; 1098; 1099; 1100; 1101; 1102; 1103;
  1072; 1073; 1074; 1075; 1076; 1077; 1078; 1079; 1080; 1081; 1082; 1083;
  1084; 1085; 1086; 1087; 1088; 1089; 1090; 1091; 1092; 1093; 1094; 1095;
  1096; 1097; 1098; 1099; 1100; 1101; 1102; 1103; 1104; 1105; 1106; 1107;
  1108; 1109; 1110; 1111; 1112; 1113; 1114; 1115; 1116; 1117; 1118; 1119;
  1121; 1121; 1123; 1123; 1125; 1125; 1127; 1127; 1129; 1129; 1131; 1131;
  1133; 1133; 1135; 1135; 1137; 1137; 1139; 1139; 1141; 1141; 1142; 1143;
  1145; 1145; 1147; 1147; 1149; 1149; 1151; 1151; 1153; 1153; 1154; 1155;
  1156; 1157; 1158; 1159; 1160; 1161; 1162; 1163; 1164; 1165; 1166; 1167;
  1169; 1169; 1171; 1171; 1173; 1173; 1175; 1175; 1177; 1177; 1179; 1179;
  1181; 1181; 1183; 1183; 1185; 1185; 1187; 1187; 1189; 1189; 1191; 1191;
  1193; 1193; 1195; 1195; 1197; 1197; 1199; 1199; 1201; 1201; 1203; 1203;
  1205; 1205; 1207; 1207; 1209; 1209; 1211; 1211; 1213; 1213; 1215; 1215;
  1216; 1217; 1218; 1220; 1220; 1221; 1222; 1224; 1224; 1225; 1226; 1228;
  1228; 1229; 1230; 1231; 1232; 1233; 1234; 1235; 1236; 1237; 1238; 1239;
  1240; 1241; 1242; 1243; 1244; 1245; 1246; 1247; 1248; 1249; 1250; 1251;
  1252; 1253; 1254; 1255; 1256; 1257; 1258; 1259; 1260; 1261; 1262; 1263;
  1264; 1265; 1266; 1267; 1268; 1269; 1270; 1271; 1272; 1273; 1274; 1275;
  1276; 1277; 1278; 1279; 1280; 1281; 1282; 1283; 1284; 1285; 1286; 1287;
  1288; 1289; 1290; 1291; 1292; 1293; 1294; 1295; 1296; 1297; 1298; 1299;
  1300; 1301; 1302; 1303; 1304; 1305; 1306; 1307; 1308; 1309; 1310; 1311;
  1312; 1313; 1314; 1315; 1316; 1317; 1318; 1319; 1320; 1321; 1322; 1323;
  1324; 1325; 1326; 1327; 1328; 1377; 1378; 1379; 1380; 1381; 1382; 1383;
  1384; 1385; 1386; 1387; 1388; 1389; 1390; 1391; 1392; 1393; 1394; 1395;
  1396; 1397; 1398; 1399; 1400; 1401; 1402; 1403; 1404; 1405; 1406; 1407;
  1408; 1409; 1410; 1411; 1412; 1413; 1414; 1367; 1368; 1369; 1370; 1371;
  1372; 1373; 1374; 1375; 1376; 1377; 1378; 1379; 1380; 1381; 1382; 1383;
  1384; 1385; 1386; 1387; 1388; 1389; 1390; 1391; 1392; 1393; 1394; 1395;
  1396; 1397; 1398; 1399; 1400; 1401; 1402; 1403; 1404; 1405; 1406; 1407;
  1408; 1409; 1410; 1411; 1412; 1413; 1414; 1415; 1416; 1417; 1418; 1419;
  1420; 1421; 1422; 1423; 1424; 1425; 1426; 1427; 1428; 1429; 1430; 1431;
  1432; 1433; 1434; 1435; 1436; 1437; 1438; 1439; 1440; 1441; 1442; 1443;
  1444; 1445; 1446; 1447; 1448; 1449; 1450; 1451; 1452; 1453; 1454; 1455;
  1456; 1457; 1458; 1459; 1460; 1461; 1462; 1463; 1464; 1465; 1466; 1467;
  1468; 1469; 1470; 1471; 1472; 1473; 1474; 1475; 1476; 1477; 1478; 1479;
  1480; 1481; 1482; 1483; 1484; 1485; 1486; 1487; 1488; 1489; 1490; 1491;
  1492; 1493; 1494; 1495; 1496; 1497; 1498; 1499; 1500; 1501; 1502; 1503;
  1504; 1505; 1506; 1507; 1508; 1509; 1510; 1511; 1512; 1513; 1514; 1515;
  1516; 1517; 1518; 1519; 1520; 1521; 1522; 1523; 1524; 1525; 1526; 1527;
  1528; 1529; 1530; 1531; 1532; 1533; 1534; 1535; 4096; 4097; 4098; 4099;
  4100; 4101; 4102; 4103; 4104; 4105; 4106; 4107; 4108; 4109; 4110; 4111;
  4112; 4113; 4114; 4115; 4116; 4117; 4118; 4119; 4120; 4121; 4122; 4123;
  4124; 4125; 4126; 4127; 4128; 4129; 4130; 4131; 4132; 4133; 4134; 4135;
  4136; 4137; 4138; 4139; 4140; 4141; 4142; 4143; 4144; 4145; 4146; 4147;
  4148; 4149; 4150; 4151; 4152; 4153; 4154; 4155; 4156; 4157; 4158; 4159;
  4160; 4161; 4162; 4163; 4164; 4165; 4166; 4167; 4168; 4169; 4170; 4171;
  4172; 4173; 4174; 4175; 4176; 4177; 4178; 4179; 4180; 4181; 4182; 4183;
  4184; 4185; 4186; 4187; 4188; 4189; 4190; 4191; 4192; 4193; 4194; 4195;
  4196; 4197; 4198; 4199; 4200; 4201; 4202; 4203; 4204; 4205; 4206; 4207;
  4208; 4209; 4210; 4211; 4212; 4213; 4214; 4215; 4216; 4217; 4218; 4219;
  4220; 4221; 4222; 4223; 4224; 4225; 4226; 4227; 4228; 4229; 4230; 4231;
  4232; 4233; 4234; 4235; 4236; 4237; 4238; 4239; 4240; 4241; 4242; 4243;
  4244; 4245; 4246; 4247; 4248; 4249; 4250; 4251; 4252; 4253; 4254; 4255;
  4304; 4305; 4306; 4307; 4308; 4309; 4310; 4311; 4312; 4313; 4314; 4315;
  4316; 4317; 4318; 4319; 4320; 4321; 4322; 4323; 4324; 4325; 4326; 4327;
  4328; 4329; 4330; 4331; 4332; 4333; 4334; 4335; 4336; 4337; 4338; 4339;
  4340; 4341; 4294; 4295; 4296; 4297; 4298; 4299; 4300; 4301; 4302; 4303;
  4304; 4305; 4306; 4307; 4308; 4309; 4310; 4311; 4312; 4313; 4314; 4315;
  4316; 4317; 4318; 4319; 4320; 4321; 4322; 4323; 4324; 4325; 4326; 4327;
  4328; 4329; 4330; 4331; 4332; 4333; 4334; 4335; 4336; 4337; 4338; 4339;
  4340; 4341; 4342; 4343; 4344; 4345; 4346; 4347; 4348; 4349; 4350; 4351;
  8192; 8193; 8194; 8195; 8196; 8197; 8198; 8199; 8200; 8201; 8202; 8203;
  0; 0; 0; 0; 8208; 8209; 8210; 8211; 8212; 8213; 8214; 8215;
  8216; 8217; 8218; 8219; 8220; 8221; 8222; 8223; 8224; 8225; 8226; 8227;
  8228; 8229; 8230; 8231; 8232; 8233; 0; 0; 0; 0; 0; 8239;
  8240; 8241; 8242; 8243; 8244; 8245; 8246; 8247; 8248; 8249; 8250; 8251;
  8252; 8253; 8254; 8255; 8256; 8257; 8258; 8259; 8260; 8261; 8262; 8263;
  8264; 8265; 8266; 8267; 8268; 8269; 8270; 8271; 8272; 8273; 8274; 8275;
  8276; 8277; 8278; 8279; 8280; 8281; 8282; 8283; 8284; 8285; 8286; 8287;
  8288; 8289; 8290; 8291; 8292; 8293; 8294; 8295; 8296; 8297; 0; 0;
  0; 0; 0; 0; 8304; 8305; 8306; 8307; 8308; 8309; 8310; 8311;
  8312; 8313; 8314; 8315; 8316; 8317; 8318; 8319; 8320; 8321; 8322; 8323;
  8324; 8325; 8326; 8327; 8328; 8329; 8330; 8331; 8332; 8333; 8334; 8335;
  8336; 8337; 8338; 8339; 8340; 8341; 8342; 8343; 8344; 8345; 8346; 8347;
  8348; 8349; 8350; 8351; 8352; 8353; 8354; 8355; 8356; 8357; 8358; 8359;
  8360; 8361; 8362; 8363; 8364; 8365; 8366; 8367; 8368; 8369; 8370; 8371;
  8372; 8373; 8374; 8375; 8376; 8377; 8378; 8379; 8380; 8381; 8382; 8383;
  8384; 8385; 8386; 8387; 8388; 8389; 8390; 8391; 8392; 8393; 8394; 8395;
  8396; 8397; 8398; 8399; 8400; 8401; 8402; 8403; 8404; 8405; 8406; 8407;
  8408; 8409; 8410; 8411; 8412; 8413; 8414; 8415; 8416; 8417; 8418; 8419;
  8420; 8421; 8422; 8423; 8424; 8425; 8426; 8427; 8428; 8429; 8430; 8431;
  8432; 8433; 8434; 8435; 8436; 8437; 8438; 8439; 8440; 8441; 8442; 8443;
  8444; 8445; 8446; 8447; 8448; 8449; 8450; 8451; 8452; 8453; 8454; 8455;
  8456; 8457; 8458; 8459; 8460; 8461; 8462; 8463; 8464; 8465; 8466; 8467;
  8468; 8469; 8470; 8471; 8472; 8473; 8474; 8475; 8476; 8477; 8478; 8479;
  8480; 8481; 8482; 8483; 8484; 8485; 8486; 8487; 8488; 8489; 8490; 8491;
  8492; 8493; 8494; 8495; 8496; 8497; 8498; 8499; 8500; 8501; 8502; 8503;
  8504; 8505; 8506; 8507; 8508; 8509; 8510; 8511; 8512; 8513; 8514; 8515;
  8516; 8517; 8518; 8519; 8520; 8521; 8522; 8523; 8524; 8525; 8526; 8527;
  8528; 8529; 8530; 8531; 8532; 8533; 8534; 8535; 8536; 8537; 8538; 8539;
  8540; 8541; 8542; 8543; 8560; 8561; 8562; 8563; 8564; 8565; 8566; 8567;
  8568; 8569; 8570; 8571; 8572; 8573; 8574; 8575; 8560; 8561; 8562; 8563;
  8564; 8565; 8566; 8567; 8568; 8569; 8570; 8571; 8572; 8573; 8574; 8575;
  8576; 8577; 8578; 8579; 8580; 8581; 8582; 8583; 8584; 8585; 8586; 8587;
  8588; 8589; 8590; 8591; 8592; 8593; 8594; 8595; 8596; 8597; 8598; 8599;
  8600; 8601; 8602; 8603; 8604; 8605; 8606; 8607; 8608; 8609; 8610; 8611;
  8612; 8613; 8614; 8615; 8616; 8617; 8618; 8619; 8620; 8621; 8622; 8623;
  8624; 8625; 8626; 8627; 8628; 8629; 8630; 8631; 8632; 8633; 8634; 8635;
  8636; 8637; 8638; 8639; 8640; 8641; 8642; 8643; 8644; 8645; 8646; 8647;
  8648; 8649; 8650; 8651; 8652; 8653; 8654; 8655; 8656; 8657; 8658; 8659;
  8660; 8661; 8662; 8663; 8664; 8665; 8666; 8667; 8668; 8669; 8670; 8671;
  8672; 8673; 8674; 8675; 8676; 8677; 8678; 8679; 8680; 8681; 8682; 8683;
  8684; 8685; 8686; 8687; 8688; 8689; 8690; 8691; 8692; 8693; 8694; 8695;
  8696; 8697; 8698; 8699; 8700; 8701; 8702; 8703; 65024; 65025; 65026; 65027;
  65028; 65029; 65030; 65031; 65032; 65033; 65034; 65035; 65036; 65037; 65038; 65039;
  65040; 65041; 65042; 65043; 65044; 65045; 65046; 65047; 65048; 65049; 65050; 65051;
  65052; 65053; 65054; 65055; 65056; 65057; 65058; 65059; 65060; 65061; 65062; 65063;
  65064; 65065; 65066; 65067; 65068; 65069; 65070; 65071; 65072; 65073; 65074; 65075;
  65076; 65077; 65078; 65079; 65080; 65081; 65082; 65083; 65084; 65085; 65086; 65087;
  65088; 65089; 65090; 65091; 65092; 65093; 65094; 65095; 65096; 65097; 65098; 65099;
  65100; 65101; 65102; 65103; 65104; 65105; 65106; 65107; 65108; 65109; 65110; 65111;
  65112; 65113; 65114; 65115; 65116; 65117; 65118; 65119; 65120; 65121; 65122; 65123;
  65124; 65125; 65126; 65127; 65128; 65129; 65130; 65131; 65132; 65133; 65134; 65135;
  65136; 65137; 65138; 65139; 65140; 65141; 65142; 65143; 65144; 65145; 65146; 65147;
  65148; 65149; 65150; 65151; 65152; 65153; 65154; 65155; 65156; 65157; 65158; 65159;
  65160; 65161; 65162; 65163; 65164; 65165; 65166; 65167; 65168; 65169; 65170; 65171;
  65172; 65173; 65174; 65175; 65176; 65177; 65178; 65179; 65180; 65181; 65182; 65183;
  65184; 65185; 65186; 65187; 65188; 65189; 65190; 65191; 65192; 65193; 65194; 65195;
  65196; 65197; 65198; 65199; 65200; 65201; 65202; 65203; 65204; 65205; 65206; 65207;
  65208; 65209; 65210; 65211; 65212; 65213; 65214; 65215; 65216; 65217; 65218; 65219;
  65220; 65221; 65222; 65223; 65224; 65225; 65226; 65227; 65228; 65229; 65230; 65231;
  65232; 65233; 65234; 65235; 65236; 65237; 65238; 65239; 65240; 65241; 65242; 65243;
  65244; 65245; 65246; 65247; 65248; 65249; 65250; 65251; 65252; 65253; 65254; 65255;
  65256; 65257; 65258; 65259; 65260; 65261; 65262; 65263; 65264; 65265; 65266; 65267;
  65268; 65269; 65270; 65271; 65272; 65273; 65274; 65275; 65276; 65277; 65278; 0;
  65280; 65281; 65282; 65283; 65284; 65285; 65286; 65287; 65288; 65289; 65290; 65291;
  65292; 65293; 65294; 65295; 65296; 65297; 65298; 65299; 65300; 65301; 65302; 65303;
  65304; 65305; 65306; 65307; 65308; 65309; 65310; 65311; 65312; 65345; 65346; 65347;
  65348; 65349; 65350; 65351; 65352; 65353; 65354; 65355; 65356; 65357; 65358; 65359;
  65360; 65361; 65362; 65363; 65364; 65365; 65366; 65367; 65368; 65369; 65370; 65339;
  65340; 65341; 65342; 65343; 65344; 65345; 65346; 65347; 65348; 65349; 65350; 65351;
  65352; 65353; 65354; 65355; 65356; 65357; 65358; 65359; 65360; 65361; 65362; 65363;
  65364; 65365; 65366; 65367; 65368; 65369; 65370; 65371; 65372; 65373; 65374; 65375;
  65376; 65377; 65378; 65379; 65380; 65381; 65382; 65383; 65384; 65385; 65386; 65387;
  65388; 65389; 65390; 65391; 65392; 65393; 65394; 65395; 65396; 65397; 65398; 65399;
  65400; 65401; 65402; 65403; 65404; 65405; 65406; 65407; 65408; 65409; 65410; 65411;
  65412; 65413; 65414; 65415; 65416; 65417; 65418; 65419; 65420; 65421; 65422; 65423;
  65424; 65425; 65426; 65427; 65428; 65429; 65430; 65431; 65432; 65433; 65434; 65435;
  65436; 65437; 65438; 65439; 65440; 65441; 65442; 65443; 65444; 65445; 65446; 65447;
  65448; 65449; 65450; 65451; 65452; 65453; 65454; 65455; 65456; 65457; 65458; 65459;
  65460; 65461; 65462; 65463; 65464; 65465; 65466; 65467; 65468; 65469; 65470; 65471;
  65472; 65473; 65474; 65475; 65476; 65477; 65478; 65479; 65480; 65481; 65482; 65483;
  65484; 65485; 65486; 65487; 65488; 65489; 65490; 65491; 65492; 65493; 65494; 65495;
  65496; 65497; 65498; 65499; 65500; 65501; 65502; 65503; 65504; 65505; 65506; 65507;
  65508; 65509; 65510; 65511; 65512; 65513; 65514; 65515; 65516; 65517; 65518; 65519;
  65520; 65521; 65522; 65523; 65524; 65525; 65526; 65527; 65528; 65529; 65530; 65531;
  65532; 65533; 65534; 65535].

(** The sort words of the HFS (MacRoman) comparison. *)
Definition gCompareTable : list Z := [
  0; 256; 512; 768; 1024; 1280; 1536; 1792; 2048; 2304; 2560; 2816;
  3072; 3328; 3584; 3840; 4096; 4352; 4608; 4864; 5120; 5376; 5632; 5888;
  6144; 6400; 6656; 6912; 7168; 7424; 7680; 7936; 8192; 8448; 8704; 8960;
  9216; 9472; 9728; 9984; 10240; 10496; 10752; 11008; 11264; 11520; 11776; 12032;
  12288; 12544; 12800; 13056; 13312; 13568; 13824; 14080; 14336; 14592; 14848; 15104;
  15360; 15616; 15872; 16128; 16384; 16640; 16896; 17152; 17408; 17664; 17920; 18176;
  18432; 18688; 18944; 19200; 19456; 19712; 19968; 20224; 20480; 20736; 20992; 21248;
  21504; 21760; 22016; 22272; 22528; 22784; 23040; 23296; 23552; 23808; 24064; 24320;
  16768; 16640; 16896; 17152; 17408; 17664; 17920; 18176; 18432; 18688; 18944; 19200;
  19456; 19712; 19968; 20224; 20480; 20736; 20992; 21248; 21504; 21760; 22016; 22272;
  22528; 22784; 23040; 31488; 31744; 32000; 32256; 32512; 16648; 16652; 17168; 17666;
  19978; 20232; 21768; 16770; 16644; 16774; 16648; 16650; 16652; 17168; 17666; 17796;
  17798; 17800; 18818; 18820; 18822; 18824; 19978; 20354; 20356; 20358; 20232; 20234;
  21890; 21892; 21894; 21768; 40960; 41216; 41472; 41728; 41984; 42240; 42496; 21378;
  43008; 43264; 43520; 43776; 44032; 44288; 16660; 20238; 45056; 45312; 45568; 45824;
  46080; 46336; 46592; 46848; 47104; 47360; 47616; 16786; 20370; 48384; 16660; 20238;
  49152; 49408; 49664; 49920; 50176; 50432; 50688; 8710; 8712; 51456; 8192; 16644;
  16650; 20234; 20244; 20244; 53248; 53504; 8706; 8708; 9986; 9988; 54784; 55040;
  22920; 55552; 55808; 56064; 56320; 56576; 56832; 57088; 57344; 57600; 57856; 58112;
  58368; 58624; 58880; 59136; 59392; 59648; 59904; 60160; 60416; 60672; 60928; 61184;
  61440; 61696; 61952; 62208; 62464; 62720; 62976; 63232; 63488; 63744; 64000; 64256;
  64512; 64768; 65024; 65280].

