(* ===== verification/UnicodeCompare.v ===== *)
(** * Comparing names (hfsplus/hfscommon/Unicode/UnicodeWrappers.c)

    [FastUnicodeCompare] orders the UTF-16 names of HFS Plus catalogs,
    [FastRelString] the MacRoman names of plain HFS ones; both are key comparison
    functions of B-trees.  A [ConstUniCharArrayPtr] with its length is the list of its
    characters, a Pascal string the list of its bytes, the length first. *)
From S2P Require Import Prelude Bits UnicodeTables.

(** One character of the inner loops: the folded value, 0 for one to be ignored. *)
Definition fold_char (c : Z) : outcome Z :=
  if c <? 0x100 then array_at gLatinCaseFold c
  else
    temp ← array_at gLowerCaseTable (Z.shiftr c 8);
    if temp =? 0 then Ok c else array_at gLowerCaseTable (temp + Z.land c 0xFF).

(** "Find next non-ignorable char, or zero if no more".  A basic latin character
    leaves the loop whatever it folds to. *)
Fixpoint next_char (str : list Z) : outcome (Z * list Z) :=
  match str with
  | [] => Ok (0, [])
  | c :: rest =>
      f ← fold_char c;
      if c <? 0x100 then Ok (f, rest)
      else if f =? 0 then next_char rest else Ok (f, rest)
  end.

(** The outer loop; every round but the last takes a character of both strings. *)
Fixpoint compare_loop (fuel : nat) (str1 str2 : list Z) : outcome Z :=
  match fuel with
  | O => Diverge
  | S fuel' =>
      '(c1, str1) ← next_char str1;
      '(c2, str2) ← next_char str2;
      if negb (c1 =? c2) then Ok (if c1 <? c2 then -1 else 1)
      else if c1 =? 0 then Ok 0
      else compare_loop fuel' str1 str2
  end.

Definition FastUnicodeCompare (str1 str2 : list Z) : outcome Z :=
  compare_loop (S (length str1)) str1 str2.

(** The loop of [FastRelString] over [length] characters. *)
Fixpoint rel_loop (len : nat) (str1 str2 : list Z) (bestGuess : Z) : outcome Z :=
  match len with
  | O => Ok bestGuess
  | S len' =>
      match str1, str2 with
      | aChar :: str1, bChar :: str2 =>
          if aChar =? bChar then rel_loop len' str1 str2 bestGuess
          else
            aSortWord ← array_at gCompareTable aChar;
            bSortWord ← array_at gCompareTable bChar;
            if bSortWord <? aSortWord then Ok 1
            else if aSortWord <? bSortWord then Ok (-1)
            else rel_loop len' str1 str2 bestGuess
      | _, _ => Fault
      end
  end.

Definition FastRelString (str1 str2 : list Z) : outcome Z :=
  match str1, str2 with
  | length1 :: str1, length2 :: str2 =>
      let '(bestGuess, len) :=
        if length1 =? length2 then (0, length1)
        else if length1 <? length2 then (-1, length1) else (1, length2) in
      rel_loop (Z.to_nat len) str1 str2 bestGuess
  | _, _ => Fault
  end.

(** ** Specification: lexicographic order of the folded strings *)

Fixpoint lex_cmp (l1 l2 : list Z) : Z :=
  match l1, l2 with
  | [], [] => 0
  | [], _ :: _ => -1
  | _ :: _, [] => 1
  | x :: l1, y :: l2 => if x =? y then lex_cmp l1 l2 else if x <? y then -1 else 1
  end.

Definition fold (c : Z) : Z := match fold_char c with Ok f => f | _ => 0 end.
(** The folded name, without the characters to be ignored. *)
Definition folded (str : list Z) : list Z := filter (fun f => f <> 0) (map fold str).

(** What a B-tree needs of a comparison on the keys [P]. *)
Class KeyOrder {A} (P : A -> Prop) (cmp : A -> A -> outcome Z) : Prop := {
  cmp_total a b : P a -> P b -> exists r, cmp a b = Ok r /\ (r = -1 \/ r = 0 \/ r = 1);
  cmp_refl a : P a -> cmp a a = Ok 0;
  cmp_sym a b r : P a -> P b -> cmp a b = Ok r -> cmp b a = Ok (- r);
  cmp_trans a b c r1 r2 r3 : P a -> P b -> P c ->
    cmp a b = Ok r1 -> cmp b c = Ok r2 -> cmp a c = Ok r3 -> r1 <= 0 -> r2 <= 0 -> r3 <= 0
}.

Lemma lex_cmp_range l1 l2 : lex_cmp l1 l2 = -1 \/ lex_cmp l1 l2 = 0 \/ lex_cmp l1 l2 = 1.
Proof. revert l2. induction l1 as [|x l1 IH]; intros [|y l2]; simpl; auto. case_ztests; auto. Qed.

Lemma lex_cmp_refl l : lex_cmp l l = 0.
Proof. induction l as [|x l IH]; simpl; [done|]. by rewrite Z.eqb_refl. Qed.

Lemma lex_cmp_sym l1 l2 : lex_cmp l2 l1 = - lex_cmp l1 l2.
Proof.
  revert l2. induction l1 as [|x l1 IH]; intros [|y l2]; simpl; try done.
  rewrite (Z.eqb_sym y x). destruct (Z.eqb_spec x y); [apply IH|]. case_ztests; done.
Qed.

Lemma lex_cmp_eq l1 l2 : lex_cmp l1 l2 = 0 <-> l1 = l2.
Proof.
  revert l2. induction l1 as [|x l1 IH]; intros [|y l2]; simpl; try done.
  destruct (Z.eqb_spec x y) as [->|Hne]; [rewrite IH; split; congruence|].
  split; [case_ztests|congruence].
Qed.

Lemma lex_cmp_trans l1 l2 l3 : lex_cmp l1 l2 <= 0 -> lex_cmp l2 l3 <= 0 -> lex_cmp l1 l3 <= 0.
Proof.
  revert l2 l3. induction l1 as [|x l1 IH]; intros [|y l2] [|z l3]; simpl; try lia.
  case_ztests. apply IH.
Qed.

(** A comparison that is the lexicographic order of a view of the keys orders them. *)
Lemma KeyOrder_lex {A} (P : A -> Prop) cmp (f : A -> list Z) :
  (forall a b, P a -> P b -> cmp a b = Ok (lex_cmp (f a) (f b))) -> KeyOrder P cmp.
Proof.
  intros H. split.
  - intros a b Ha Hb. rewrite H by done. eauto using lex_cmp_range.
  - intros a Ha. by rewrite H, lex_cmp_refl.
  - intros a b r Ha Hb. rewrite !H by done. intros [= <-]. by rewrite lex_cmp_sym.
  - intros a b c r1 r2 r3 Ha Hb Hc. rewrite !H by done. intros [= <-] [= <-] [= <-]. apply lex_cmp_trans.
Qed.

(** ** Lemmas *)

Lemma gLatinCaseFold_ok : length gLatinCaseFold = 256%nat /\ Forall (fun f => 0 < f < 2 ^ 16) gLatinCaseFold.
Proof. split; [done|]. apply (bool_decide_unpack _). vm_compute. done. Qed.

Lemma gLowerCaseTable_ok :
  length gLowerCaseTable = 2560%nat /\ Forall unichar gLowerCaseTable /\
  Forall (fun temp => temp + 255 < 2560) (take 256 gLowerCaseTable).
Proof.
  split; [by vm_compute|]. split; apply (bool_decide_unpack _); vm_compute; done.
Qed.

Lemma gCompareTable_ok : length gCompareTable = 256%nat.
Proof. done. Qed.

Lemma fold_char_ok c :
  unichar c -> fold_char c = Ok (fold c) /\ unichar (fold c) /\ (c < 0x100 -> fold c <> 0).
Proof.
  intros Hc. unfold unichar in Hc. unfold fold, fold_char. destruct (Z.ltb_spec c 0x100).
  - destruct gLatinCaseFold_ok as [Hl Hf]. destruct (array_at_ok gLatinCaseFold c) as (x & -> & Hx); [lia|].
    rewrite Forall_forall in Hf. specialize (Hf x Hx). split; [done|]. unfold unichar. lia.
  - destruct gLowerCaseTable_ok as (Hl & Hf & Ht). rewrite Z.shiftr_div_pow2 by lia. change (2 ^ 8) with 256.
    assert (1 <= c / 256 < 256) as Hd by (Z.to_euclidean_division_equations; lia).
    destruct (lookup_lt_is_Some_2 (take 256 gLowerCaseTable) (Z.to_nat (c / 256))) as [temp Hx].
    { rewrite length_take. lia. }
    rewrite Forall_forall in Ht. specialize (Ht temp (list_elem_of_lookup_2 _ _ _ Hx)).
    rewrite lookup_take_lt in Hx by lia.
    assert (array_at gLowerCaseTable (c / 256) = Ok temp) as ->.
    { unfold array_at. rewrite (proj2 (Z.leb_le _ _)), Hx by lia. done. }
    cbn [mbind outcome_bind].
    rewrite Forall_forall in Hf. pose proof (Hf temp (list_elem_of_lookup_2 _ _ _ Hx)) as Htr.
    unfold unichar in Htr.
    destruct (Z.eqb_spec temp 0); [split; [done|split; [done|lia]]|].
    change 0xFF with (Z.ones 8). rewrite Z.land_ones by lia. change (2 ^ 8) with 256.
    pose proof (Z.mod_pos_bound c 256).
    destruct (array_at_ok gLowerCaseTable (temp + c mod 256)) as (y & -> & Hy); [lia|].
    split; [done|]. split; [by apply Hf|lia].
Qed.

Lemma folded_cons c str :
  folded (c :: str) = if fold c =? 0 then folded str else fold c :: folded str.
Proof.
  unfold folded. simpl. rewrite filter_cons. destruct (Z.eqb_spec (fold c) 0) as [E|E].
  - by rewrite decide_False by (intros H; by apply H).
  - by rewrite decide_True.
Qed.

(** The first character of the folded name, 0 at its end. *)
Lemma next_char_spec str :
  Forall unichar str -> exists rest, Forall unichar rest /\
    (length rest <= length str)%nat /\
    match folded str with
    | [] => next_char str = Ok (0, rest) /\ rest = []
    | f :: fs => next_char str = Ok (f, rest) /\ folded rest = fs /\ f <> 0 /\ (length rest < length str)%nat
    end.
Proof.
  induction 1 as [|c str Hc Hs IH]; [by exists []|].
  destruct (fold_char_ok c Hc) as (Ef & Hu & Hl). rewrite folded_cons. cbn [next_char].
  rewrite Ef. cbn [mbind outcome_bind].
  destruct (Z.eqb_spec (fold c) 0) as [E|E].
  - destruct (Z.ltb_spec c 0x100); [by destruct Hl|].
    destruct IH as (rest & Hr & Hlen & Hm). exists rest. split; [done|]. split; [simpl; lia|].
    destruct (folded str); [done|]. destruct Hm as (? & ? & ? & ?). repeat (split; [done|]). simpl. lia.
  - exists str. split; [done|]. split; [simpl; lia|].
    split; [by destruct (c <? 0x100)|]. split; [done|]. split; [done|]. simpl. lia.
Qed.

Lemma compare_loop_spec fuel str1 str2 :
  (length str1 < fuel)%nat -> Forall unichar str1 -> Forall unichar str2 ->
  compare_loop fuel str1 str2 = Ok (lex_cmp (folded str1) (folded str2)).
Proof.
  revert str1 str2. induction fuel as [|fuel IH]; intros str1 str2 Hf H1 H2; [lia|]. cbn [compare_loop].
  destruct (next_char_spec str1 H1) as (r1 & Hr1 & Hl1 & Hm1).
  destruct (next_char_spec str2 H2) as (r2 & Hr2 & Hl2 & Hm2).
  assert (forall f fs str, Forall unichar str -> folded str = f :: fs -> 0 <= f) as Hpos.
  { intros f fs str Hs E. assert (f ∈ folded str) as Hin by (rewrite E; set_solver).
    unfold folded in Hin. apply list_elem_of_filter in Hin as [_ Hin].
    apply list_elem_of_fmap in Hin as (c & -> & Hc). rewrite Forall_forall in Hs.
    destruct (fold_char_ok c (Hs c Hc)) as (_ & [? _] & _). done. }
  destruct (folded str1) as [|f1 fs1] eqn:E1, (folded str2) as [|f2 fs2] eqn:E2.
  - destruct Hm1 as [-> _], Hm2 as [-> _]. done.
  - destruct Hm1 as [-> _], Hm2 as (-> & _ & Hz & _). cbn [mbind outcome_bind].
    specialize (Hpos f2 fs2 str2 H2 E2).
    rewrite (proj2 (Z.eqb_neq 0 f2)), (proj2 (Z.ltb_lt 0 f2)) by lia. done.
  - destruct Hm1 as (-> & _ & Hz & _), Hm2 as [-> _]. cbn [mbind outcome_bind].
    specialize (Hpos f1 fs1 str1 H1 E1).
    rewrite (proj2 (Z.eqb_neq f1 0)), (proj2 (Z.ltb_ge f1 0)) by lia. done.
  - destruct Hm1 as (-> & <- & Hz1 & Hlt), Hm2 as (-> & <- & Hz2 & _). cbn [mbind outcome_bind]. simpl.
    destruct (Z.eqb_spec f1 f2) as [->|Hne]; simpl; [|done].
    rewrite (proj2 (Z.eqb_neq f2 0)) by done. apply IH; [lia|done|done].
Qed.

Lemma FastUnicodeCompare_lex str1 str2 :
  Forall unichar str1 -> Forall unichar str2 ->
  FastUnicodeCompare str1 str2 = Ok (lex_cmp (folded str1) (folded str2)).
Proof. intros. apply compare_loop_spec; [lia|done..]. Qed.

#[export] Instance FastUnicodeCompare_order : KeyOrder (Forall unichar) FastUnicodeCompare.
Proof. apply (KeyOrder_lex _ _ folded). apply FastUnicodeCompare_lex. Qed.

(** ** Pascal strings *)

Definition sort_word (c : Z) : Z := match array_at gCompareTable c with Ok w => w | _ => 0 end.
(** A Pascal string: its length, and as many bytes. *)
Definition str255 (s : list Z) : Prop :=
  exists cs, s = Z.of_nat (length cs) :: cs /\ Forall (fun c => 0 <= c < 256) cs /\
    (length cs < 256)%nat.
Definition sort_words (s : list Z) : list Z := map sort_word (tail s).

Lemma sort_word_ok c : 0 <= c < 256 -> array_at gCompareTable c = Ok (sort_word c).
Proof.
  intros Hc. destruct (array_at_ok gCompareTable c) as (x & E & _); [by rewrite gCompareTable_ok|].
  unfold sort_word. by rewrite E.
Qed.

(** The first [length] characters decide, then the guess made from the lengths. *)
Lemma rel_loop_spec cs1 cs2 len guess :
  Forall (fun c => 0 <= c < 256) cs1 -> Forall (fun c => 0 <= c < 256) cs2 ->
  len = Nat.min (length cs1) (length cs2) ->
  guess = (if (length cs1 =? length cs2)%nat then 0 else if (length cs1 <? length cs2)%nat then -1 else 1) ->
  rel_loop len cs1 cs2 guess = Ok (lex_cmp (map sort_word cs1) (map sort_word cs2)).
Proof.
  intros H1. revert cs2 len. induction H1 as [|a cs1 Ha H1 IH]; intros cs2 len H2 -> ->;
    destruct H2 as [|b cs2 Hb H2]; try done.
  cbn [length Nat.min rel_loop map lex_cmp]. specialize (IH cs2 _ H2 eq_refl eq_refl).
  change (S (length cs1) =? S (length cs2))%nat with (length cs1 =? length cs2)%nat.
  change (S (length cs1) <? S (length cs2))%nat with (length cs1 <? length cs2)%nat.
  destruct (Z.eqb_spec a b) as [->|Hne]; [by rewrite Z.eqb_refl|].
  rewrite !sort_word_ok by done. cbn [mbind outcome_bind].
  destruct (Z.eqb_spec (sort_word a) (sort_word b)) as [E|E].
  - rewrite E, Z.ltb_irrefl. done.
  - case_ztests; done.
Qed.

Lemma FastRelString_lex s1 s2 :
  str255 s1 -> str255 s2 -> FastRelString s1 s2 = Ok (lex_cmp (sort_words s1) (sort_words s2)).
Proof.
  intros (cs1 & -> & H1 & _) (cs2 & -> & H2 & _). unfold FastRelString, sort_words. cbn [tail].
  destruct (Z.eqb_spec (Z.of_nat (length cs1)) (Z.of_nat (length cs2)));
    [|destruct (Z.ltb_spec (Z.of_nat (length cs1)) (Z.of_nat (length cs2)))];
    rewrite Nat2Z.id; apply rel_loop_spec; try done; try lia;
    destruct (Nat.eqb_spec (length cs1) (length cs2)), (Nat.ltb_spec (length cs1) (length cs2)); done || lia.
Qed.

#[export] Instance FastRelString_order : KeyOrder str255 FastRelString.
Proof. apply (KeyOrder_lex _ _ sort_words). apply FastRelString_lex. Qed.

(** ** Properties *)

(** C37: [FastUnicodeCompare] always returns, without reading outside its tables, and
    its result is the lexicographic order of the two names with case folded and
    ignorable characters left out; in particular it finds names equal exactly when
    they differ only in those. *)
Theorem FastUnicodeCompare_correct str1 str2 :
  Forall unichar str1 -> Forall unichar str2 ->
  FastUnicodeCompare str1 str2 = Ok (lex_cmp (folded str1) (folded str2)) /\
  (FastUnicodeCompare str1 str2 = Ok 0 <-> folded str1 = folded str2).
Proof.
  intros H1 H2. rewrite FastUnicodeCompare_lex by done. split; [done|].
  rewrite <- lex_cmp_eq. split; [congruence|by intros ->].
Qed.

(** "Ab" and "aB", with a zero width joiner (U+200D), which is ignored. *)
Lemma FastUnicodeCompare_witness : FastUnicodeCompare [0x41; 0x200D; 0x62] [0x61; 0x42] = Ok 0.
Proof.
  apply FastUnicodeCompare_correct;
    [repeat (constructor; [vm_compute; split; [discriminate|done]|]); constructor..|vm_compute; reflexivity].
Defined.

(** [FastUnicodeCompare] is a total preorder on names: it is reflexive, exchanging
    the names turns the sign round, and it is transitive. *)
Theorem FastUnicodeCompare_preorder a b c r1 r2 :
  Forall unichar a -> Forall unichar b -> Forall unichar c ->
  FastUnicodeCompare a b = Ok r1 -> FastUnicodeCompare b c = Ok r2 ->
  FastUnicodeCompare a a = Ok 0 /\ FastUnicodeCompare b a = Ok (- r1) /\
  (r1 <= 0 -> r2 <= 0 -> exists r3, FastUnicodeCompare a c = Ok r3 /\ r3 <= 0).
Proof.
  intros Ha Hb Hc H1 H2. split; [by apply (cmp_refl (P := Forall unichar))|].
  split; [by apply (cmp_sym (P := Forall unichar))|]. intros Hr1 Hr2.
  destruct (cmp_total (P := Forall unichar) a c Ha Hc) as (r3 & H3 & _). exists r3. split; [done|].
  by apply (cmp_trans (P := Forall unichar) (cmp := FastUnicodeCompare) a b c r1 r2 r3).
Qed.

Lemma FastUnicodeCompare_preorder_witness :
  exists r, FastUnicodeCompare [0x41] [0x63; 0x64] = Ok r /\ r <= 0.
Proof.
  apply (FastUnicodeCompare_preorder [0x41] [0x62] [0x63; 0x64] (-1) (-1));
    [repeat (constructor; [vm_compute; split; [discriminate|done]|]); constructor..
    |vm_compute; reflexivity|vm_compute; reflexivity|lia|lia].
Defined.

(** [FastRelString] compares two Pascal strings by the sort words of their
    characters, a proper prefix being the smaller, and so is a total preorder too. *)
Theorem FastRelString_correct s1 s2 :
  str255 s1 -> str255 s2 ->
  FastRelString s1 s2 = Ok (lex_cmp (sort_words s1) (sort_words s2)) /\
  FastRelString s2 s1 = Ok (- lex_cmp (sort_words s1) (sort_words s2)).
Proof. intros H1 H2. rewrite !FastRelString_lex by done. by rewrite (lex_cmp_sym (sort_words s1)). Qed.

(** "ab" and "AC". *)
Lemma FastRelString_witness : FastRelString [2; 0x61; 0x62] [2; 0x41; 0x43] = Ok (-1).
Proof.
  destruct (FastRelString_correct [2; 0x61; 0x62] [2; 0x41; 0x43]) as [H _].
  - exists [0x61; 0x62]. split; [reflexivity|]. split; [repeat constructor; lia|simpl; lia].
  - exists [0x41; 0x43]. split; [reflexivity|]. split; [repeat constructor; lia|simpl; lia].
  - rewrite H. vm_compute. reflexivity.
Defined.
