(* ===== verification/UtfTables.v ===== *)
(** * Unicode tables (vfs/vfs_utfconvdata.h)

    The tables of the conversions, as the header has them. *)
From S2P Require Import Prelude.

(** Keys and values of the decompositions. *)
Definition __CFUniCharDecompositionTable : list Z := [
  192; 8192; 193; 8194; 194; 8196; 195; 8198; 196; 8200; 197; 8202;
  199; 8204; 200; 8206; 201; 8208; 202; 8210; 203; 8212; 204; 8214;
  205; 8216; 206; 8218; 207; 8220; 209; 8222; 210; 8224; 211; 8226;
  212; 8228; 213; 8230; 214; 8232; 217; 8234; 218; 8236; 219; 8238;
  220; 8240; 221; 8242; 224; 8244; 225; 8246; 226; 8248; 227; 8250;
  228; 8252; 229; 8254; 231; 8256; 232; 8258; 233; 8260; 234; 8262;
  235; 8264; 236; 8266; 237; 8268; 238; 8270; 239; 8272; 241; 8274;
  242; 8276; 243; 8278; 244; 8280; 245; 8282; 246; 8284; 249; 8286;
  250; 8288; 251; 8290; 252; 8292; 253; 8294; 255; 8296; 256; 8298;
  257; 8300; 258; 8302; 259; 8304; 260; 8306; 261; 8308; 262; 8310;
  263; 8312; 264; 8314; 265; 8316; 266; 8318; 267; 8320; 268; 8322;
  269; 8324; 270; 8326; 271; 8328; 274; 8330; 275; 8332; 276; 8334;
  277; 8336; 278; 8338; 279; 8340; 280; 8342; 281; 8344; 282; 8346;
  283; 8348; 284; 8350; 285; 8352; 286; 8354; 287; 8356; 288; 8358;
  289; 8360; 290; 8362; 291; 8364; 292; 8366; 293; 8368; 296; 8370;
  297; 8372; 298; 8374; 299; 8376; 300; 8378; 301; 8380; 302; 8382;
  303; 8384; 304; 8386; 308; 8388; 309; 8390; 310; 8392; 311; 8394;
  313; 8396; 314; 8398; 315; 8400; 316; 8402; 317; 8404; 318; 8406;
  323; 8408; 324; 8410; 325; 8412; 326; 8414; 327; 8416; 328; 8418;
  332; 8420; 333; 8422; 334; 8424; 335; 8426; 336; 8428; 337; 8430;
  340; 8432; 341; 8434; 342; 8436; 343; 8438; 344; 8440; 345; 8442;
  346; 8444; 347; 8446; 348; 8448; 349; 8450; 350; 8452; 351; 8454;
  352; 8456; 353; 8458; 354; 8460; 355; 8462; 356; 8464; 357; 8466;
  360; 8468; 361; 8470; 362; 8472; 363; 8474; 364; 8476; 365; 8478;
  366; 8480; 367; 8482; 368; 8484; 369; 8486; 370; 8488; 371; 8490;
  372; 8492; 373; 8494; 374; 8496; 375; 8498; 376; 8500; 377; 8502;
  378; 8504; 379; 8506; 380; 8508; 381; 8510; 382; 8512; 416; 8514;
  417; 8516; 431; 8518; 432; 8520; 461; 8522; 462; 8524; 463; 8526;
  464; 8528; 465; 8530; 466; 8532; 467; 8534; 468; 8536; 469; 41306;
  470; 41308; 471; 41310; 472; 41312; 473; 41314; 474; 41316; 475; 41318;
  476; 41320; 478; 41322; 479; 41324; 480; 41326; 481; 41328; 482; 8562;
  483; 8564; 486; 8566; 487; 8568; 488; 8570; 489; 8572; 490; 8574;
  491; 8576; 492; 41346; 493; 41348; 494; 8582; 495; 8584; 496; 8586;
  500; 8588; 501; 8590; 504; 8592; 505; 8594; 506; 41364; 507; 41366;
  508; 8600; 509; 8602; 510; 8604; 511; 8606; 512; 8608; 513; 8610;
  514; 8612; 515; 8614; 516; 8616; 517; 8618; 518; 8620; 519; 8622;
  520; 8624; 521; 8626; 522; 8628; 523; 8630; 524; 8632; 525; 8634;
  526; 8636; 527; 8638; 528; 8640; 529; 8642; 530; 8644; 531; 8646;
  532; 8648; 533; 8650; 534; 8652; 535; 8654; 536; 8656; 537; 8658;
  538; 8660; 539; 8662; 542; 8664; 543; 8666; 550; 8668; 551; 8670;
  552; 8672; 553; 8674; 554; 41444; 555; 41446; 556; 41448; 557; 41450;
  558; 8684; 559; 8686; 560; 41456; 561; 41458; 562; 8692; 563; 8694;
  832; 4864; 833; 4865; 835; 4883; 836; 8696; 884; 4793; 894; 4155;
  901; 8698; 902; 8700; 903; 4279; 904; 8702; 905; 8704; 906; 8706;
  908; 8708; 910; 8710; 911; 8712; 912; 41482; 938; 8716; 939; 8718;
  940; 8720; 941; 8722; 942; 8724; 943; 8726; 944; 41496; 970; 8730;
  971; 8732; 972; 8734; 973; 8736; 974; 8738; 979; 8740; 980; 8742;
  1024; 8744; 1025; 8746; 1027; 8748; 1031; 8750; 1036; 8752; 1037; 8754;
  1038; 8756; 1049; 8758; 1081; 8760; 1104; 8762; 1105; 8764; 1107; 8766;
  1111; 8768; 1116; 8770; 1117; 8772; 1118; 8774; 1142; 8776; 1143; 8778;
  1217; 8780; 1218; 8782; 1232; 8784; 1233; 8786; 1234; 8788; 1235; 8790;
  1238; 8792; 1239; 8794; 1242; 8796; 1243; 8798; 1244; 8800; 1245; 8802;
  1246; 8804; 1247; 8806; 1250; 8808; 1251; 8810; 1252; 8812; 1253; 8814;
  1254; 8816; 1255; 8818; 1258; 8820; 1259; 8822; 1260; 8824; 1261; 8826;
  1262; 8828; 1263; 8830; 1264; 8832; 1265; 8834; 1266; 8836; 1267; 8838;
  1268; 8840; 1269; 8842; 1272; 8844; 1273; 8846; 1570; 8848; 1571; 8850;
  1572; 8852; 1573; 8854; 1574; 8856; 1728; 8858; 1730; 8860; 1747; 8862;
  2345; 8864; 2353; 8866; 2356; 8868; 2392; 8870; 2393; 8872; 2394; 8874;
  2395; 8876; 2396; 8878; 2397; 8880; 2398; 8882; 2399; 8884; 2507; 8886;
  2508; 8888; 2524; 8890; 2525; 8892; 2527; 8894; 2611; 8896; 2614; 8898;
  2649; 8900; 2650; 8902; 2651; 8904; 2654; 8906; 2888; 8908; 2891; 8910;
  2892; 8912; 2908; 8914; 2909; 8916; 2964; 8918; 3018; 8920; 3019; 8922;
  3020; 8924; 3144; 8926; 3264; 8928; 3271; 8930; 3272; 8932; 3274; 8934;
  3275; 41704; 3402; 8938; 3403; 8940; 3404; 8942; 3546; 8944; 3548; 8946;
  3549; 41716; 3550; 8950; 3907; 8952; 3917; 8954; 3922; 8956; 3927; 8958;
  3932; 8960; 3945; 8962; 3955; 8964; 3957; 8966; 3958; 8968; 3960; 8970;
  3969; 8972; 3987; 8974; 3997; 8976; 4002; 8978; 4007; 8980; 4012; 8982;
  4025; 8984; 4134; 8986; 7680; 8988; 7681; 8990; 7682; 8992; 7683; 8994;
  7684; 8996; 7685; 8998; 7686; 9000; 7687; 9002; 7688; 41772; 7689; 41774;
  7690; 9008; 7691; 9010; 7692; 9012; 7693; 9014; 7694; 9016; 7695; 9018;
  7696; 9020; 7697; 9022; 7698; 9024; 7699; 9026; 7700; 41796; 7701; 41798;
  7702; 41800; 7703; 41802; 7704; 9036; 7705; 9038; 7706; 9040; 7707; 9042;
  7708; 41812; 7709; 41814; 7710; 9048; 7711; 9050; 7712; 9052; 7713; 9054;
  7714; 9056; 7715; 9058; 7716; 9060; 7717; 9062; 7718; 9064; 7719; 9066;
  7720; 9068; 7721; 9070; 7722; 9072; 7723; 9074; 7724; 9076; 7725; 9078;
  7726; 41848; 7727; 41850; 7728; 9084; 7729; 9086; 7730; 9088; 7731; 9090;
  7732; 9092; 7733; 9094; 7734; 9096; 7735; 9098; 7736; 41868; 7737; 41870;
  7738; 9104; 7739; 9106; 7740; 9108; 7741; 9110; 7742; 9112; 7743; 9114;
  7744; 9116; 7745; 9118; 7746; 9120; 7747; 9122; 7748; 9124; 7749; 9126;
  7750; 9128; 7751; 9130; 7752; 9132; 7753; 9134; 7754; 9136; 7755; 9138;
  7756; 41908; 7757; 41910; 7758; 41912; 7759; 41914; 7760; 41916; 7761; 41918;
  7762; 41920; 7763; 41922; 7764; 9156; 7765; 9158; 7766; 9160; 7767; 9162;
  7768; 9164; 7769; 9166; 7770; 9168; 7771; 9170; 7772; 41940; 7773; 41942;
  7774; 9176; 7775; 9178; 7776; 9180; 7777; 9182; 7778; 9184; 7779; 9186;
  7780; 41956; 7781; 41958; 7782; 41960; 7783; 41962; 7784; 41964; 7785; 41966;
  7786; 9200; 7787; 9202; 7788; 9204; 7789; 9206; 7790; 9208; 7791; 9210;
  7792; 9212; 7793; 9214; 7794; 9216; 7795; 9218; 7796; 9220; 7797; 9222;
  7798; 9224; 7799; 9226; 7800; 41996; 7801; 41998; 7802; 42000; 7803; 42002;
  7804; 9236; 7805; 9238; 7806; 9240; 7807; 9242; 7808; 9244; 7809; 9246;
  7810; 9248; 7811; 9250; 7812; 9252; 7813; 9254; 7814; 9256; 7815; 9258;
  7816; 9260; 7817; 9262; 7818; 9264; 7819; 9266; 7820; 9268; 7821; 9270;
  7822; 9272; 7823; 9274; 7824; 9276; 7825; 9278; 7826; 9280; 7827; 9282;
  7828; 9284; 7829; 9286; 7830; 9288; 7831; 9290; 7832; 9292; 7833; 9294;
  7835; 9296; 7840; 9298; 7841; 9300; 7842; 9302; 7843; 9304; 7844; 42074;
  7845; 42076; 7846; 42078; 7847; 42080; 7848; 42082; 7849; 42084; 7850; 42086;
  7851; 42088; 7852; 42090; 7853; 42092; 7854; 42094; 7855; 42096; 7856; 42098;
  7857; 42100; 7858; 42102; 7859; 42104; 7860; 42106; 7861; 42108; 7862; 42110;
  7863; 42112; 7864; 9346; 7865; 9348; 7866; 9350; 7867; 9352; 7868; 9354;
  7869; 9356; 7870; 42126; 7871; 42128; 7872; 42130; 7873; 42132; 7874; 42134;
  7875; 42136; 7876; 42138; 7877; 42140; 7878; 42142; 7879; 42144; 7880; 9378;
  7881; 9380; 7882; 9382; 7883; 9384; 7884; 9386; 7885; 9388; 7886; 9390;
  7887; 9392; 7888; 42162; 7889; 42164; 7890; 42166; 7891; 42168; 7892; 42170;
  7893; 42172; 7894; 42174; 7895; 42176; 7896; 42178; 7897; 42180; 7898; 42182;
  7899; 42184; 7900; 42186; 7901; 42188; 7902; 42190; 7903; 42192; 7904; 42194;
  7905; 42196; 7906; 42198; 7907; 42200; 7908; 9434; 7909; 9436; 7910; 9438;
  7911; 9440; 7912; 42210; 7913; 42212; 7914; 42214; 7915; 42216; 7916; 42218;
  7917; 42220; 7918; 42222; 7919; 42224; 7920; 42226; 7921; 42228; 7922; 9462;
  7923; 9464; 7924; 9466; 7925; 9468; 7926; 9470; 7927; 9472; 7928; 9474;
  7929; 9476; 7936; 9478; 7937; 9480; 7938; 42250; 7939; 42252; 7940; 42254;
  7941; 42256; 7942; 42258; 7943; 42260; 7944; 9494; 7945; 9496; 7946; 42266;
  7947; 42268; 7948; 42270; 7949; 42272; 7950; 42274; 7951; 42276; 7952; 9510;
  7953; 9512; 7954; 42282; 7955; 42284; 7956; 42286; 7957; 42288; 7960; 9522;
  7961; 9524; 7962; 42294; 7963; 42296; 7964; 42298; 7965; 42300; 7968; 9534;
  7969; 9536; 7970; 42306; 7971; 42308; 7972; 42310; 7973; 42312; 7974; 42314;
  7975; 42316; 7976; 9550; 7977; 9552; 7978; 42322; 7979; 42324; 7980; 42326;
  7981; 42328; 7982; 42330; 7983; 42332; 7984; 9566; 7985; 9568; 7986; 42338;
  7987; 42340; 7988; 42342; 7989; 42344; 7990; 42346; 7991; 42348; 7992; 9582;
  7993; 9584; 7994; 42354; 7995; 42356; 7996; 42358; 7997; 42360; 7998; 42362;
  7999; 42364; 8000; 9598; 8001; 9600; 8002; 42370; 8003; 42372; 8004; 42374;
  8005; 42376; 8008; 9610; 8009; 9612; 8010; 42382; 8011; 42384; 8012; 42386;
  8013; 42388; 8016; 9622; 8017; 9624; 8018; 42394; 8019; 42396; 8020; 42398;
  8021; 42400; 8022; 42402; 8023; 42404; 8025; 9638; 8027; 42408; 8029; 42410;
  8031; 42412; 8032; 9646; 8033; 9648; 8034; 42418; 8035; 42420; 8036; 42422;
  8037; 42424; 8038; 42426; 8039; 42428; 8040; 9662; 8041; 9664; 8042; 42434;
  8043; 42436; 8044; 42438; 8045; 42440; 8046; 42442; 8047; 42444; 8048; 9678;
  8049; 37804; 8050; 9680; 8051; 37805; 8052; 9682; 8053; 37806; 8054; 9684;
  8055; 37807; 8056; 9686; 8057; 37836; 8058; 9688; 8059; 37837; 8060; 9690;
  8061; 37838; 8064; 42460; 8065; 42462; 8066; 42464; 8067; 42466; 8068; 42468;
  8069; 42470; 8070; 42472; 8071; 42474; 8072; 42476; 8073; 42478; 8074; 42480;
  8075; 42482; 8076; 42484; 8077; 42486; 8078; 42488; 8079; 42490; 8080; 42492;
  8081; 42494; 8082; 42496; 8083; 42498; 8084; 42500; 8085; 42502; 8086; 42504;
  8087; 42506; 8088; 42508; 8089; 42510; 8090; 42512; 8091; 42514; 8092; 42516;
  8093; 42518; 8094; 42520; 8095; 42522; 8096; 42524; 8097; 42526; 8098; 42528;
  8099; 42530; 8100; 42532; 8101; 42534; 8102; 42536; 8103; 42538; 8104; 42540;
  8105; 42542; 8106; 42544; 8107; 42546; 8108; 42548; 8109; 42550; 8110; 42552;
  8111; 42554; 8112; 9788; 8113; 9790; 8114; 42560; 8115; 9794; 8116; 42564;
  8118; 9798; 8119; 42568; 8120; 9802; 8121; 9804; 8122; 9806; 8123; 37766;
  8124; 9808; 8126; 5049; 8129; 9810; 8130; 42580; 8131; 9814; 8132; 42584;
  8134; 9818; 8135; 42588; 8136; 9822; 8137; 37768; 8138; 9824; 8139; 37769;
  8140; 9826; 8141; 9828; 8142; 9830; 8143; 9832; 8144; 9834; 8145; 9836;
  8146; 42606; 8147; 37776; 8150; 9840; 8151; 42610; 8152; 9844; 8153; 9846;
  8154; 9848; 8155; 37770; 8157; 9850; 8158; 9852; 8159; 9854; 8160; 9856;
  8161; 9858; 8162; 42628; 8163; 37808; 8164; 9862; 8165; 9864; 8166; 9866;
  8167; 42636; 8168; 9870; 8169; 9872; 8170; 9874; 8171; 37774; 8172; 9876;
  8173; 9878; 8174; 37765; 8175; 4192; 8178; 42648; 8179; 9882; 8180; 42652;
  8182; 9886; 8183; 42656; 8184; 9890; 8185; 37772; 8186; 9892; 8187; 37775;
  8188; 9894; 8189; 4276; 12364; 9896; 12366; 9898; 12368; 9900; 12370; 9902;
  12372; 9904; 12374; 9906; 12376; 9908; 12378; 9910; 12380; 9912; 12382; 9914;
  12384; 9916; 12386; 9918; 12389; 9920; 12391; 9922; 12393; 9924; 12400; 9926;
  12401; 9928; 12403; 9930; 12404; 9932; 12406; 9934; 12407; 9936; 12409; 9938;
  12410; 9940; 12412; 9942; 12413; 9944; 12436; 9946; 12446; 9948; 12460; 9950;
  12462; 9952; 12464; 9954; 12466; 9956; 12468; 9958; 12470; 9960; 12472; 9962;
  12474; 9964; 12476; 9966; 12478; 9968; 12480; 9970; 12482; 9972; 12485; 9974;
  12487; 9976; 12489; 9978; 12496; 9980; 12497; 9982; 12499; 9984; 12500; 9986;
  12502; 9988; 12503; 9990; 12505; 9992; 12506; 9994; 12508; 9996; 12509; 9998;
  12532; 10000; 12535; 10002; 12536; 10004; 12537; 10006; 12538; 10008; 12542; 10010;
  64285; 10012; 64287; 10014; 64298; 10016; 64299; 10018; 64300; 42788; 64301; 42790;
  64302; 10024; 64303; 10026; 64304; 10028; 64305; 10030; 64306; 10032; 64307; 10034;
  64308; 10036; 64309; 10038; 64310; 10040; 64312; 10042; 64313; 10044; 64314; 10046;
  64315; 10048; 64316; 10050; 64318; 10052; 64320; 10054; 64321; 10056; 64323; 10058;
  64324; 10060; 64326; 10062; 64327; 10064; 64328; 10066; 64329; 10068; 64330; 10070;
  64331; 10072; 64332; 10074; 64333; 10076; 64334; 10078].

(** Decompositions of several characters. *)
Definition __CFUniCharMultipleDecompositionTable : list Z := [
  65; 768; 65; 769; 65; 770; 65; 771; 65; 776; 65; 778;
  67; 807; 69; 768; 69; 769; 69; 770; 69; 776; 73; 768;
  73; 769; 73; 770; 73; 776; 78; 771; 79; 768; 79; 769;
  79; 770; 79; 771; 79; 776; 85; 768; 85; 769; 85; 770;
  85; 776; 89; 769; 97; 768; 97; 769; 97; 770; 97; 771;
  97; 776; 97; 778; 99; 807; 101; 768; 101; 769; 101; 770;
  101; 776; 105; 768; 105; 769; 105; 770; 105; 776; 110; 771;
  111; 768; 111; 769; 111; 770; 111; 771; 111; 776; 117; 768;
  117; 769; 117; 770; 117; 776; 121; 769; 121; 776; 65; 772;
  97; 772; 65; 774; 97; 774; 65; 808; 97; 808; 67; 769;
  99; 769; 67; 770; 99; 770; 67; 775; 99; 775; 67; 780;
  99; 780; 68; 780; 100; 780; 69; 772; 101; 772; 69; 774;
  101; 774; 69; 775; 101; 775; 69; 808; 101; 808; 69; 780;
  101; 780; 71; 770; 103; 770; 71; 774; 103; 774; 71; 775;
  103; 775; 71; 807; 103; 807; 72; 770; 104; 770; 73; 771;
  105; 771; 73; 772; 105; 772; 73; 774; 105; 774; 73; 808;
  105; 808; 73; 775; 74; 770; 106; 770; 75; 807; 107; 807;
  76; 769; 108; 769; 76; 807; 108; 807; 76; 780; 108; 780;
  78; 769; 110; 769; 78; 807; 110; 807; 78; 780; 110; 780;
  79; 772; 111; 772; 79; 774; 111; 774; 79; 779; 111; 779;
  82; 769; 114; 769; 82; 807; 114; 807; 82; 780; 114; 780;
  83; 769; 115; 769; 83; 770; 115; 770; 83; 807; 115; 807;
  83; 780; 115; 780; 84; 807; 116; 807; 84; 780; 116; 780;
  85; 771; 117; 771; 85; 772; 117; 772; 85; 774; 117; 774;
  85; 778; 117; 778; 85; 779; 117; 779; 85; 808; 117; 808;
  87; 770; 119; 770; 89; 770; 121; 770; 89; 776; 90; 769;
  122; 769; 90; 775; 122; 775; 90; 780; 122; 780; 79; 795;
  111; 795; 85; 795; 117; 795; 65; 780; 97; 780; 73; 780;
  105; 780; 79; 780; 111; 780; 85; 780; 117; 780; 220; 772;
  252; 772; 220; 769; 252; 769; 220; 780; 252; 780; 220; 768;
  252; 768; 196; 772; 228; 772; 550; 772; 551; 772; 198; 772;
  230; 772; 71; 780; 103; 780; 75; 780; 107; 780; 79; 808;
  111; 808; 490; 772; 491; 772; 439; 780; 658; 780; 106; 780;
  71; 769; 103; 769; 78; 768; 110; 768; 197; 769; 229; 769;
  198; 769; 230; 769; 216; 769; 248; 769; 65; 783; 97; 783;
  65; 785; 97; 785; 69; 783; 101; 783; 69; 785; 101; 785;
  73; 783; 105; 783; 73; 785; 105; 785; 79; 783; 111; 783;
  79; 785; 111; 785; 82; 783; 114; 783; 82; 785; 114; 785;
  85; 783; 117; 783; 85; 785; 117; 785; 83; 806; 115; 806;
  84; 806; 116; 806; 72; 780; 104; 780; 65; 775; 97; 775;
  69; 807; 101; 807; 214; 772; 246; 772; 213; 772; 245; 772;
  79; 775; 111; 775; 558; 772; 559; 772; 89; 772; 121; 772;
  776; 769; 168; 769; 913; 769; 917; 769; 919; 769; 921; 769;
  927; 769; 933; 769; 937; 769; 970; 769; 921; 776; 933; 776;
  945; 769; 949; 769; 951; 769; 953; 769; 971; 769; 953; 776;
  965; 776; 959; 769; 965; 769; 969; 769; 978; 769; 978; 776;
  1045; 768; 1045; 776; 1043; 769; 1030; 776; 1050; 769; 1048; 768;
  1059; 774; 1048; 774; 1080; 774; 1077; 768; 1077; 776; 1075; 769;
  1110; 776; 1082; 769; 1080; 768; 1091; 774; 1140; 783; 1141; 783;
  1046; 774; 1078; 774; 1040; 774; 1072; 774; 1040; 776; 1072; 776;
  1045; 774; 1077; 774; 1240; 776; 1241; 776; 1046; 776; 1078; 776;
  1047; 776; 1079; 776; 1048; 772; 1080; 772; 1048; 776; 1080; 776;
  1054; 776; 1086; 776; 1256; 776; 1257; 776; 1069; 776; 1101; 776;
  1059; 772; 1091; 772; 1059; 776; 1091; 776; 1059; 779; 1091; 779;
  1063; 776; 1095; 776; 1067; 776; 1099; 776; 1575; 1619; 1575; 1620;
  1608; 1620; 1575; 1621; 1610; 1620; 1749; 1620; 1729; 1620; 1746; 1620;
  2344; 2364; 2352; 2364; 2355; 2364; 2325; 2364; 2326; 2364; 2327; 2364;
  2332; 2364; 2337; 2364; 2338; 2364; 2347; 2364; 2351; 2364; 2503; 2494;
  2503; 2519; 2465; 2492; 2466; 2492; 2479; 2492; 2610; 2620; 2616; 2620;
  2582; 2620; 2583; 2620; 2588; 2620; 2603; 2620; 2887; 2902; 2887; 2878;
  2887; 2903; 2849; 2876; 2850; 2876; 2962; 3031; 3014; 3006; 3015; 3006;
  3014; 3031; 3142; 3158; 3263; 3285; 3270; 3285; 3270; 3286; 3270; 3266;
  3274; 3285; 3398; 3390; 3399; 3390; 3398; 3415; 3545; 3530; 3545; 3535;
  3548; 3530; 3545; 3551; 3906; 4023; 3916; 4023; 3921; 4023; 3926; 4023;
  3931; 4023; 3904; 4021; 3953; 3954; 3953; 3956; 4018; 3968; 4019; 3968;
  3953; 3968; 3986; 4023; 3996; 4023; 4001; 4023; 4006; 4023; 4011; 4023;
  3984; 4021; 4133; 4142; 65; 805; 97; 805; 66; 775; 98; 775;
  66; 803; 98; 803; 66; 817; 98; 817; 199; 769; 231; 769;
  68; 775; 100; 775; 68; 803; 100; 803; 68; 817; 100; 817;
  68; 807; 100; 807; 68; 813; 100; 813; 274; 768; 275; 768;
  274; 769; 275; 769; 69; 813; 101; 813; 69; 816; 101; 816;
  552; 774; 553; 774; 70; 775; 102; 775; 71; 772; 103; 772;
  72; 775; 104; 775; 72; 803; 104; 803; 72; 776; 104; 776;
  72; 807; 104; 807; 72; 814; 104; 814; 73; 816; 105; 816;
  207; 769; 239; 769; 75; 769; 107; 769; 75; 803; 107; 803;
  75; 817; 107; 817; 76; 803; 108; 803; 7734; 772; 7735; 772;
  76; 817; 108; 817; 76; 813; 108; 813; 77; 769; 109; 769;
  77; 775; 109; 775; 77; 803; 109; 803; 78; 775; 110; 775;
  78; 803; 110; 803; 78; 817; 110; 817; 78; 813; 110; 813;
  213; 769; 245; 769; 213; 776; 245; 776; 332; 768; 333; 768;
  332; 769; 333; 769; 80; 769; 112; 769; 80; 775; 112; 775;
  82; 775; 114; 775; 82; 803; 114; 803; 7770; 772; 7771; 772;
  82; 817; 114; 817; 83; 775; 115; 775; 83; 803; 115; 803;
  346; 775; 347; 775; 352; 775; 353; 775; 7778; 775; 7779; 775;
  84; 775; 116; 775; 84; 803; 116; 803; 84; 817; 116; 817;
  84; 813; 116; 813; 85; 804; 117; 804; 85; 816; 117; 816;
  85; 813; 117; 813; 360; 769; 361; 769; 362; 776; 363; 776;
  86; 771; 118; 771; 86; 803; 118; 803; 87; 768; 119; 768;
  87; 769; 119; 769; 87; 776; 119; 776; 87; 775; 119; 775;
  87; 803; 119; 803; 88; 775; 120; 775; 88; 776; 120; 776;
  89; 775; 121; 775; 90; 770; 122; 770; 90; 803; 122; 803;
  90; 817; 122; 817; 104; 817; 116; 776; 119; 778; 121; 778;
  383; 775; 65; 803; 97; 803; 65; 777; 97; 777; 194; 769;
  226; 769; 194; 768; 226; 768; 194; 777; 226; 777; 194; 771;
  226; 771; 7840; 770; 7841; 770; 258; 769; 259; 769; 258; 768;
  259; 768; 258; 777; 259; 777; 258; 771; 259; 771; 7840; 774;
  7841; 774; 69; 803; 101; 803; 69; 777; 101; 777; 69; 771;
  101; 771; 202; 769; 234; 769; 202; 768; 234; 768; 202; 777;
  234; 777; 202; 771; 234; 771; 7864; 770; 7865; 770; 73; 777;
  105; 777; 73; 803; 105; 803; 79; 803; 111; 803; 79; 777;
  111; 777; 212; 769; 244; 769; 212; 768; 244; 768; 212; 777;
  244; 777; 212; 771; 244; 771; 7884; 770; 7885; 770; 416; 769;
  417; 769; 416; 768; 417; 768; 416; 777; 417; 777; 416; 771;
  417; 771; 416; 803; 417; 803; 85; 803; 117; 803; 85; 777;
  117; 777; 431; 769; 432; 769; 431; 768; 432; 768; 431; 777;
  432; 777; 431; 771; 432; 771; 431; 803; 432; 803; 89; 768;
  121; 768; 89; 803; 121; 803; 89; 777; 121; 777; 89; 771;
  121; 771; 945; 787; 945; 788; 7936; 768; 7937; 768; 7936; 769;
  7937; 769; 7936; 834; 7937; 834; 913; 787; 913; 788; 7944; 768;
  7945; 768; 7944; 769; 7945; 769; 7944; 834; 7945; 834; 949; 787;
  949; 788; 7952; 768; 7953; 768; 7952; 769; 7953; 769; 917; 787;
  917; 788; 7960; 768; 7961; 768; 7960; 769; 7961; 769; 951; 787;
  951; 788; 7968; 768; 7969; 768; 7968; 769; 7969; 769; 7968; 834;
  7969; 834; 919; 787; 919; 788; 7976; 768; 7977; 768; 7976; 769;
  7977; 769; 7976; 834; 7977; 834; 953; 787; 953; 788; 7984; 768;
  7985; 768; 7984; 769; 7985; 769; 7984; 834; 7985; 834; 921; 787;
  921; 788; 7992; 768; 7993; 768; 7992; 769; 7993; 769; 7992; 834;
  7993; 834; 959; 787; 959; 788; 8000; 768; 8001; 768; 8000; 769;
  8001; 769; 927; 787; 927; 788; 8008; 768; 8009; 768; 8008; 769;
  8009; 769; 965; 787; 965; 788; 8016; 768; 8017; 768; 8016; 769;
  8017; 769; 8016; 834; 8017; 834; 933; 788; 8025; 768; 8025; 769;
  8025; 834; 969; 787; 969; 788; 8032; 768; 8033; 768; 8032; 769;
  8033; 769; 8032; 834; 8033; 834; 937; 787; 937; 788; 8040; 768;
  8041; 768; 8040; 769; 8041; 769; 8040; 834; 8041; 834; 945; 768;
  949; 768; 951; 768; 953; 768; 959; 768; 965; 768; 969; 768;
  7936; 837; 7937; 837; 7938; 837; 7939; 837; 7940; 837; 7941; 837;
  7942; 837; 7943; 837; 7944; 837; 7945; 837; 7946; 837; 7947; 837;
  7948; 837; 7949; 837; 7950; 837; 7951; 837; 7968; 837; 7969; 837;
  7970; 837; 7971; 837; 7972; 837; 7973; 837; 7974; 837; 7975; 837;
  7976; 837; 7977; 837; 7978; 837; 7979; 837; 7980; 837; 7981; 837;
  7982; 837; 7983; 837; 8032; 837; 8033; 837; 8034; 837; 8035; 837;
  8036; 837; 8037; 837; 8038; 837; 8039; 837; 8040; 837; 8041; 837;
  8042; 837; 8043; 837; 8044; 837; 8045; 837; 8046; 837; 8047; 837;
  945; 774; 945; 772; 8048; 837; 945; 837; 940; 837; 945; 834;
  8118; 837; 913; 774; 913; 772; 913; 768; 913; 837; 168; 834;
  8052; 837; 951; 837; 942; 837; 951; 834; 8134; 837; 917; 768;
  919; 768; 919; 837; 8127; 768; 8127; 769; 8127; 834; 953; 774;
  953; 772; 970; 768; 953; 834; 970; 834; 921; 774; 921; 772;
  921; 768; 8190; 768; 8190; 769; 8190; 834; 965; 774; 965; 772;
  971; 768; 961; 787; 961; 788; 965; 834; 971; 834; 933; 774;
  933; 772; 933; 768; 929; 788; 168; 768; 8060; 837; 969; 837;
  974; 837; 969; 834; 8182; 837; 927; 768; 937; 768; 937; 837;
  12363; 12441; 12365; 12441; 12367; 12441; 12369; 12441; 12371; 12441; 12373; 12441;
  12375; 12441; 12377; 12441; 12379; 12441; 12381; 12441; 12383; 12441; 12385; 12441;
  12388; 12441; 12390; 12441; 12392; 12441; 12399; 12441; 12399; 12442; 12402; 12441;
  12402; 12442; 12405; 12441; 12405; 12442; 12408; 12441; 12408; 12442; 12411; 12441;
  12411; 12442; 12358; 12441; 12445; 12441; 12459; 12441; 12461; 12441; 12463; 12441;
  12465; 12441; 12467; 12441; 12469; 12441; 12471; 12441; 12473; 12441; 12475; 12441;
  12477; 12441; 12479; 12441; 12481; 12441; 12484; 12441; 12486; 12441; 12488; 12441;
  12495; 12441; 12495; 12442; 12498; 12441; 12498; 12442; 12501; 12441; 12501; 12442;
  12504; 12441; 12504; 12442; 12507; 12441; 12507; 12442; 12454; 12441; 12527; 12441;
  12528; 12441; 12529; 12441; 12530; 12441; 12541; 12441; 1497; 1460; 1522; 1463;
  1513; 1473; 1513; 1474; 64329; 1473; 64329; 1474; 1488; 1463; 1488; 1464;
  1488; 1468; 1489; 1468; 1490; 1468; 1491; 1468; 1492; 1468; 1493; 1468;
  1494; 1468; 1496; 1468; 1497; 1468; 1498; 1468; 1499; 1468; 1500; 1468;
  1502; 1468; 1504; 1468; 1505; 1468; 1507; 1468; 1508; 1468; 1510; 1468;
  1511; 1468; 1512; 1468; 1513; 1468; 1514; 1468; 1493; 1465; 1489; 1471;
  1499; 1471; 1508; 1471].

(** Which characters have a decomposition. *)
Definition __CFUniCharDecomposableBitmap : list Z := [
  1; 2; 3; 4; 5; 0; 6; 0; 0; 7; 8; 9;
  10; 11; 0; 12; 13; 0; 0; 0; 0; 0; 0; 0;
  0; 0; 0; 0; 0; 0; 14; 15; 0; 0; 0; 0;
  0; 0; 0; 0; 0; 0; 0; 0; 0; 0; 0; 0;
  16; 0; 0; 0; 0; 0; 0; 0; 0; 0; 0; 0;
  0; 0; 0; 0; 0; 0; 0; 0; 0; 0; 0; 0;
  0; 0; 0; 0; 0; 0; 0; 0; 0; 0; 0; 0;
  0; 0; 0; 0; 0; 0; 0; 0; 0; 0; 0; 0;
  0; 0; 0; 0; 0; 0; 0; 0; 0; 0; 0; 0;
  0; 0; 0; 0; 0; 0; 0; 0; 0; 0; 0; 0;
  0; 0; 0; 0; 0; 0; 0; 0; 0; 0; 0; 0;
  0; 0; 0; 0; 0; 0; 0; 0; 0; 0; 0; 0;
  0; 0; 0; 0; 0; 0; 0; 0; 0; 0; 0; 0;
  0; 0; 0; 0; 0; 0; 0; 0; 0; 0; 0; 0;
  0; 0; 0; 0; 255; 255; 255; 255; 255; 255; 255; 255;
  255; 255; 255; 255; 255; 255; 255; 255; 255; 255; 255; 255;
  255; 255; 255; 255; 255; 255; 255; 255; 255; 255; 255; 255;
  255; 255; 255; 255; 255; 255; 255; 255; 255; 255; 255; 17;
  0; 0; 0; 0; 0; 0; 0; 0; 0; 0; 0; 0;
  0; 0; 0; 0; 0; 0; 0; 0; 0; 0; 0; 0;
  0; 0; 0; 0; 0; 0; 0; 0; 0; 0; 0; 18;
  0; 0; 0; 0; 0; 0; 0; 0; 0; 0; 0; 0;
  0; 0; 0; 0; 0; 0; 0; 0; 0; 0; 0; 0;
  0; 0; 0; 0; 191; 255; 126; 62; 191; 255; 126; 190;
  255; 255; 252; 255; 63; 255; 241; 126; 248; 241; 243; 255;
  63; 255; 255; 127; 0; 0; 0; 0; 3; 128; 1; 0;
  0; 224; 255; 223; 207; 255; 49; 255; 255; 255; 255; 207;
  192; 255; 15; 0; 0; 0; 0; 0; 0; 0; 0; 0;
  0; 0; 0; 0; 0; 0; 0; 0; 0; 0; 0; 0;
  0; 0; 0; 0; 0; 0; 0; 0; 0; 0; 0; 0;
  27; 0; 0; 0; 0; 0; 16; 64; 224; 215; 1; 0;
  0; 252; 1; 0; 0; 124; 24; 0; 0; 0; 0; 0;
  139; 112; 0; 2; 0; 0; 0; 2; 0; 0; 139; 112;
  0; 0; 192; 0; 0; 0; 0; 0; 0; 0; 0; 0;
  6; 0; 207; 252; 252; 252; 63; 3; 0; 0; 0; 0;
  124; 0; 0; 0; 0; 0; 0; 0; 0; 0; 0; 0;
  0; 0; 0; 0; 0; 0; 0; 0; 5; 0; 8; 0;
  0; 0; 0; 0; 0; 0; 0; 0; 0; 2; 18; 0;
  0; 0; 0; 255; 0; 0; 0; 0; 0; 0; 0; 0;
  0; 0; 0; 0; 0; 24; 0; 176; 0; 0; 0; 0;
  0; 0; 0; 0; 0; 0; 72; 0; 0; 0; 0; 78;
  0; 0; 0; 0; 0; 0; 0; 0; 0; 0; 0; 0;
  0; 0; 0; 0; 0; 0; 0; 0; 0; 0; 0; 0;
  0; 0; 0; 0; 0; 25; 0; 48; 0; 0; 0; 0;
  0; 0; 16; 0; 0; 0; 0; 0; 0; 28; 0; 0;
  0; 0; 0; 0; 0; 0; 0; 0; 0; 0; 0; 0;
  0; 1; 0; 0; 0; 0; 0; 0; 0; 0; 0; 0;
  0; 0; 0; 0; 129; 13; 0; 0; 0; 0; 0; 0;
  0; 0; 0; 0; 0; 0; 0; 0; 0; 28; 0; 0;
  0; 0; 0; 0; 0; 0; 0; 0; 0; 0; 0; 0;
  0; 0; 0; 116; 0; 0; 0; 0; 0; 0; 0; 0;
  0; 0; 0; 0; 8; 32; 132; 16; 0; 2; 104; 1;
  2; 0; 8; 32; 132; 16; 0; 2; 0; 0; 0; 0;
  0; 0; 0; 0; 0; 0; 0; 0; 64; 0; 0; 0;
  0; 0; 0; 0; 0; 0; 0; 0; 0; 0; 0; 0;
  0; 0; 0; 0; 0; 0; 0; 0; 0; 0; 0; 0;
  255; 255; 255; 255; 255; 255; 255; 255; 255; 255; 255; 255;
  255; 255; 255; 255; 255; 255; 255; 11; 255; 255; 255; 255;
  255; 255; 255; 255; 255; 255; 255; 3; 255; 255; 63; 63;
  255; 255; 255; 255; 63; 63; 255; 170; 255; 255; 255; 63;
  255; 255; 255; 255; 255; 255; 223; 95; 222; 255; 207; 239;
  255; 255; 220; 63; 0; 0; 0; 0; 0; 0; 0; 0;
  0; 80; 85; 85; 165; 2; 219; 54; 0; 0; 16; 64;
  0; 80; 85; 85; 165; 2; 219; 54; 0; 0; 144; 71;
  255; 255; 255; 255; 255; 255; 255; 255; 255; 255; 255; 255;
  255; 255; 255; 255; 255; 255; 255; 255; 15; 0; 0; 0;
  0; 0; 0; 0; 0; 0; 0; 0; 0; 0; 0; 160;
  0; 252; 127; 95; 219; 127; 0; 0; 0; 0; 0; 0;
  0; 0; 0; 0; 0; 0; 0; 0; 0; 0; 0; 0;
  0; 0; 0; 0].

(** Combining characters: the part of the next table for each. *)
Definition __CFUniCharPrecompSourceTable : list Z := [
  768; 5505024; 769; 7667796; 770; 2097353; 771; 1835241; 772; 2883845; 774; 2097457;
  775; 3014993; 776; 3539327; 777; 1573301; 778; 393677; 779; 393683; 780; 2425305;
  783; 918014; 785; 786956; 787; 918040; 788; 1049126; 795; 262710; 803; 2753082;
  804; 131684; 805; 131686; 806; 262760; 807; 1442412; 808; 656002; 813; 787084;
  814; 131736; 816; 393882; 817; 1114784; 824; 2884273; 834; 1901277; 837; 4129530;
  1619; 66361; 1620; 394042; 1621; 66368; 2364; 197441; 2494; 66372; 2519; 66373;
  2878; 66374; 2902; 66375; 2903; 66376; 3006; 131913; 3031; 131915; 3158; 66381;
  3266; 66382; 3285; 197455; 3286; 66386; 3390; 131923; 3415; 66389; 3530; 131926;
  3535; 66392; 3551; 66393; 4142; 66394; 12441; 3146587; 12442; 656267].

(** Base characters and composites. *)
Definition __CFUniCharBMPPrecompDestinationTable : list Z := [
  65; 192; 69; 200; 73; 204; 78; 504; 79; 210; 85; 217;
  87; 7808; 89; 7922; 97; 224; 101; 232; 105; 236; 110; 505;
  111; 242; 117; 249; 119; 7809; 121; 7923; 168; 8173; 194; 7846;
  202; 7872; 212; 7890; 220; 475; 226; 7847; 234; 7873; 244; 7891;
  252; 476; 258; 7856; 259; 7857; 274; 7700; 275; 7701; 332; 7760;
  333; 7761; 416; 7900; 417; 7901; 431; 7914; 432; 7915; 913; 8122;
  917; 8136; 919; 8138; 921; 8154; 927; 8184; 933; 8170; 937; 8186;
  945; 8048; 949; 8050; 951; 8052; 953; 8054; 959; 8056; 965; 8058;
  969; 8060; 970; 8146; 971; 8162; 1045; 1024; 1048; 1037; 1077; 1104;
  1080; 1117; 7936; 7938; 7937; 7939; 7944; 7946; 7945; 7947; 7952; 7954;
  7953; 7955; 7960; 7962; 7961; 7963; 7968; 7970; 7969; 7971; 7976; 7978;
  7977; 7979; 7984; 7986; 7985; 7987; 7992; 7994; 7993; 7995; 8000; 8002;
  8001; 8003; 8008; 8010; 8009; 8011; 8016; 8018; 8017; 8019; 8025; 8027;
  8032; 8034; 8033; 8035; 8040; 8042; 8041; 8043; 8127; 8141; 8190; 8157;
  65; 193; 67; 262; 69; 201; 71; 500; 73; 205; 75; 7728;
  76; 313; 77; 7742; 78; 323; 79; 211; 80; 7764; 82; 340;
  83; 346; 85; 218; 87; 7810; 89; 221; 90; 377; 97; 225;
  99; 263; 101; 233; 103; 501; 105; 237; 107; 7729; 108; 314;
  109; 7743; 110; 324; 111; 243; 112; 7765; 114; 341; 115; 347;
  117; 250; 119; 7811; 121; 253; 122; 378; 168; 901; 194; 7844;
  197; 506; 198; 508; 199; 7688; 202; 7870; 207; 7726; 212; 7888;
  213; 7756; 216; 510; 220; 471; 226; 7845; 229; 507; 230; 509;
  231; 7689; 234; 7871; 239; 7727; 244; 7889; 245; 7757; 248; 511;
  252; 472; 258; 7854; 259; 7855; 274; 7702; 275; 7703; 332; 7762;
  333; 7763; 360; 7800; 361; 7801; 416; 7898; 417; 7899; 431; 7912;
  432; 7913; 913; 902; 917; 904; 919; 905; 921; 906; 927; 908;
  933; 910; 937; 911; 945; 940; 949; 941; 951; 942; 953; 943;
  959; 972; 965; 973; 969; 974; 970; 912; 971; 944; 978; 979;
  1043; 1027; 1050; 1036; 1075; 1107; 1082; 1116; 7936; 7940; 7937; 7941;
  7944; 7948; 7945; 7949; 7952; 7956; 7953; 7957; 7960; 7964; 7961; 7965;
  7968; 7972; 7969; 7973; 7976; 7980; 7977; 7981; 7984; 7988; 7985; 7989;
  7992; 7996; 7993; 7997; 8000; 8004; 8001; 8005; 8008; 8012; 8009; 8013;
  8016; 8020; 8017; 8021; 8025; 8029; 8032; 8036; 8033; 8037; 8040; 8044;
  8041; 8045; 8127; 8142; 8190; 8158; 65; 194; 67; 264; 69; 202;
  71; 284; 72; 292; 73; 206; 74; 308; 79; 212; 83; 348;
  85; 219; 87; 372; 89; 374; 90; 7824; 97; 226; 99; 265;
  101; 234; 103; 285; 104; 293; 105; 238; 106; 309; 111; 244;
  115; 349; 117; 251; 119; 373; 121; 375; 122; 7825; 7840; 7852;
  7841; 7853; 7864; 7878; 7865; 7879; 7884; 7896; 7885; 7897; 65; 195;
  69; 7868; 73; 296; 78; 209; 79; 213; 85; 360; 86; 7804;
  89; 7928; 97; 227; 101; 7869; 105; 297; 110; 241; 111; 245;
  117; 361; 118; 7805; 121; 7929; 194; 7850; 202; 7876; 212; 7894;
  226; 7851; 234; 7877; 244; 7895; 258; 7860; 259; 7861; 416; 7904;
  417; 7905; 431; 7918; 432; 7919; 65; 256; 69; 274; 71; 7712;
  73; 298; 79; 332; 85; 362; 89; 562; 97; 257; 101; 275;
  103; 7713; 105; 299; 111; 333; 117; 363; 121; 563; 196; 478;
  198; 482; 213; 556; 214; 554; 220; 469; 228; 479; 230; 483;
  245; 557; 246; 555; 252; 470; 490; 492; 491; 493; 550; 480;
  551; 481; 558; 560; 559; 561; 913; 8121; 921; 8153; 933; 8169;
  945; 8113; 953; 8145; 965; 8161; 1048; 1250; 1059; 1262; 1080; 1251;
  1091; 1263; 7734; 7736; 7735; 7737; 7770; 7772; 7771; 7773; 65; 258;
  69; 276; 71; 286; 73; 300; 79; 334; 85; 364; 97; 259;
  101; 277; 103; 287; 105; 301; 111; 335; 117; 365; 552; 7708;
  553; 7709; 913; 8120; 921; 8152; 933; 8168; 945; 8112; 953; 8144;
  965; 8160; 1040; 1232; 1045; 1238; 1046; 1217; 1048; 1049; 1059; 1038;
  1072; 1233; 1077; 1239; 1078; 1218; 1080; 1081; 1091; 1118; 7840; 7862;
  7841; 7863; 65; 550; 66; 7682; 67; 266; 68; 7690; 69; 278;
  70; 7710; 71; 288; 72; 7714; 73; 304; 77; 7744; 78; 7748;
  79; 558; 80; 7766; 82; 7768; 83; 7776; 84; 7786; 87; 7814;
  88; 7818; 89; 7822; 90; 379; 97; 551; 98; 7683; 99; 267;
  100; 7691; 101; 279; 102; 7711; 103; 289; 104; 7715; 109; 7745;
  110; 7749; 111; 559; 112; 7767; 114; 7769; 115; 7777; 116; 7787;
  119; 7815; 120; 7819; 121; 7823; 122; 380; 346; 7780; 347; 7781;
  352; 7782; 353; 7783; 383; 7835; 7778; 7784; 7779; 7785; 65; 196;
  69; 203; 72; 7718; 73; 207; 79; 214; 85; 220; 87; 7812;
  88; 7820; 89; 376; 97; 228; 101; 235; 104; 7719; 105; 239;
  111; 246; 116; 7831; 117; 252; 119; 7813; 120; 7821; 121; 255;
  213; 7758; 245; 7759; 362; 7802; 363; 7803; 921; 938; 933; 939;
  953; 970; 965; 971; 978; 980; 1030; 1031; 1040; 1234; 1045; 1025;
  1046; 1244; 1047; 1246; 1048; 1252; 1054; 1254; 1059; 1264; 1063; 1268;
  1067; 1272; 1069; 1260; 1072; 1235; 1077; 1105; 1078; 1245; 1079; 1247;
  1080; 1253; 1086; 1255; 1091; 1265; 1095; 1269; 1099; 1273; 1101; 1261;
  1110; 1111; 1240; 1242; 1241; 1243; 1256; 1258; 1257; 1259; 65; 7842;
  69; 7866; 73; 7880; 79; 7886; 85; 7910; 89; 7926; 97; 7843;
  101; 7867; 105; 7881; 111; 7887; 117; 7911; 121; 7927; 194; 7848;
  202; 7874; 212; 7892; 226; 7849; 234; 7875; 244; 7893; 258; 7858;
  259; 7859; 416; 7902; 417; 7903; 431; 7916; 432; 7917; 65; 197;
  85; 366; 97; 229; 117; 367; 119; 7832; 121; 7833; 79; 336;
  85; 368; 111; 337; 117; 369; 1059; 1266; 1091; 1267; 65; 461;
  67; 268; 68; 270; 69; 282; 71; 486; 72; 542; 73; 463;
  75; 488; 76; 317; 78; 327; 79; 465; 82; 344; 83; 352;
  84; 356; 85; 467; 90; 381; 97; 462; 99; 269; 100; 271;
  101; 283; 103; 487; 104; 543; 105; 464; 106; 496; 107; 489;
  108; 318; 110; 328; 111; 466; 114; 345; 115; 353; 116; 357;
  117; 468; 122; 382; 220; 473; 252; 474; 439; 494; 658; 495;
  65; 512; 69; 516; 73; 520; 79; 524; 82; 528; 85; 532;
  97; 513; 101; 517; 105; 521; 111; 525; 114; 529; 117; 533;
  1140; 1142; 1141; 1143; 65; 514; 69; 518; 73; 522; 79; 526;
  82; 530; 85; 534; 97; 515; 101; 519; 105; 523; 111; 527;
  114; 531; 117; 535; 913; 7944; 917; 7960; 919; 7976; 921; 7992;
  927; 8008; 937; 8040; 945; 7936; 949; 7952; 951; 7968; 953; 7984;
  959; 8000; 961; 8164; 965; 8016; 969; 8032; 913; 7945; 917; 7961;
  919; 7977; 921; 7993; 927; 8009; 929; 8172; 933; 8025; 937; 8041;
  945; 7937; 949; 7953; 951; 7969; 953; 7985; 959; 8001; 961; 8165;
  965; 8017; 969; 8033; 79; 416; 85; 431; 111; 417; 117; 432;
  65; 7840; 66; 7684; 68; 7692; 69; 7864; 72; 7716; 73; 7882;
  75; 7730; 76; 7734; 77; 7746; 78; 7750; 79; 7884; 82; 7770;
  83; 7778; 84; 7788; 85; 7908; 86; 7806; 87; 7816; 89; 7924;
  90; 7826; 97; 7841; 98; 7685; 100; 7693; 101; 7865; 104; 7717;
  105; 7883; 107; 7731; 108; 7735; 109; 7747; 110; 7751; 111; 7885;
  114; 7771; 115; 7779; 116; 7789; 117; 7909; 118; 7807; 119; 7817;
  121; 7925; 122; 7827; 416; 7906; 417; 7907; 431; 7920; 432; 7921;
  85; 7794; 117; 7795; 65; 7680; 97; 7681; 83; 536; 84; 538;
  115; 537; 116; 539; 67; 199; 68; 7696; 69; 552; 71; 290;
  72; 7720; 75; 310; 76; 315; 78; 325; 82; 342; 83; 350;
  84; 354; 99; 231; 100; 7697; 101; 553; 103; 291; 104; 7721;
  107; 311; 108; 316; 110; 326; 114; 343; 115; 351; 116; 355;
  65; 260; 69; 280; 73; 302; 79; 490; 85; 370; 97; 261;
  101; 281; 105; 303; 111; 491; 117; 371; 68; 7698; 69; 7704;
  76; 7740; 78; 7754; 84; 7792; 85; 7798; 100; 7699; 101; 7705;
  108; 7741; 110; 7755; 116; 7793; 117; 7799; 72; 7722; 104; 7723;
  69; 7706; 73; 7724; 85; 7796; 101; 7707; 105; 7725; 117; 7797;
  66; 7686; 68; 7694; 75; 7732; 76; 7738; 78; 7752; 82; 7774;
  84; 7790; 90; 7828; 98; 7687; 100; 7695; 104; 7830; 107; 7733;
  108; 7739; 110; 7753; 114; 7775; 116; 7791; 122; 7829; 60; 8814;
  61; 8800; 62; 8815; 8592; 8602; 8594; 8603; 8596; 8622; 8656; 8653;
  8658; 8655; 8660; 8654; 8707; 8708; 8712; 8713; 8715; 8716; 8739; 8740;
  8741; 8742; 8764; 8769; 8771; 8772; 8773; 8775; 8776; 8777; 8781; 8813;
  8801; 8802; 8804; 8816; 8805; 8817; 8818; 8820; 8819; 8821; 8822; 8824;
  8823; 8825; 8826; 8832; 8827; 8833; 8828; 8928; 8829; 8929; 8834; 8836;
  8835; 8837; 8838; 8840; 8839; 8841; 8849; 8930; 8850; 8931; 8866; 8876;
  8872; 8877; 8873; 8878; 8875; 8879; 8882; 8938; 8883; 8939; 8884; 8940;
  8885; 8941; 168; 8129; 945; 8118; 951; 8134; 953; 8150; 965; 8166;
  969; 8182; 970; 8151; 971; 8167; 7936; 7942; 7937; 7943; 7944; 7950;
  7945; 7951; 7968; 7974; 7969; 7975; 7976; 7982; 7977; 7983; 7984; 7990;
  7985; 7991; 7992; 7998; 7993; 7999; 8016; 8022; 8017; 8023; 8025; 8031;
  8032; 8038; 8033; 8039; 8040; 8046; 8041; 8047; 8127; 8143; 8190; 8159;
  913; 8124; 919; 8140; 937; 8188; 940; 8116; 942; 8132; 945; 8115;
  951; 8131; 969; 8179; 974; 8180; 7936; 8064; 7937; 8065; 7938; 8066;
  7939; 8067; 7940; 8068; 7941; 8069; 7942; 8070; 7943; 8071; 7944; 8072;
  7945; 8073; 7946; 8074; 7947; 8075; 7948; 8076; 7949; 8077; 7950; 8078;
  7951; 8079; 7968; 8080; 7969; 8081; 7970; 8082; 7971; 8083; 7972; 8084;
  7973; 8085; 7974; 8086; 7975; 8087; 7976; 8088; 7977; 8089; 7978; 8090;
  7979; 8091; 7980; 8092; 7981; 8093; 7982; 8094; 7983; 8095; 8032; 8096;
  8033; 8097; 8034; 8098; 8035; 8099; 8036; 8100; 8037; 8101; 8038; 8102;
  8039; 8103; 8040; 8104; 8041; 8105; 8042; 8106; 8043; 8107; 8044; 8108;
  8045; 8109; 8046; 8110; 8047; 8111; 8048; 8114; 8052; 8130; 8060; 8178;
  8118; 8119; 8134; 8135; 8182; 8183; 1575; 1570; 1575; 1571; 1608; 1572;
  1610; 1574; 1729; 1730; 1746; 1747; 1749; 1728; 1575; 1573; 2344; 2345;
  2352; 2353; 2355; 2356; 2503; 2507; 2503; 2508; 2887; 2891; 2887; 2888;
  2887; 2892; 3014; 3018; 3015; 3019; 2962; 2964; 3014; 3020; 3142; 3144;
  3270; 3274; 3263; 3264; 3270; 3271; 3274; 3275; 3270; 3272; 3398; 3402;
  3399; 3403; 3398; 3404; 3545; 3546; 3548; 3549; 3545; 3548; 3545; 3550;
  4133; 4134; 12358; 12436; 12363; 12364; 12365; 12366; 12367; 12368; 12369; 12370;
  12371; 12372; 12373; 12374; 12375; 12376; 12377; 12378; 12379; 12380; 12381; 12382;
  12383; 12384; 12385; 12386; 12388; 12389; 12390; 12391; 12392; 12393; 12399; 12400;
  12402; 12403; 12405; 12406; 12408; 12409; 12411; 12412; 12445; 12446; 12454; 12532;
  12459; 12460; 12461; 12462; 12463; 12464; 12465; 12466; 12467; 12468; 12469; 12470;
  12471; 12472; 12473; 12474; 12475; 12476; 12477; 12478; 12479; 12480; 12481; 12482;
  12484; 12485; 12486; 12487; 12488; 12489; 12495; 12496; 12498; 12499; 12501; 12502;
  12504; 12505; 12507; 12508; 12527; 12535; 12528; 12536; 12529; 12537; 12530; 12538;
  12541; 12542; 12399; 12401; 12402; 12404; 12405; 12407; 12408; 12410; 12411; 12413;
  12495; 12497; 12498; 12500; 12501; 12503; 12504; 12506; 12507; 12509].

(** Which characters combine. *)
Definition __CFUniCharCombiningBitmap : list Z := [
  0; 0; 0; 1; 2; 3; 4; 5; 0; 6; 7; 8;
  9; 10; 11; 12; 13; 20; 0; 0; 0; 0; 0; 14;
  15; 0; 0; 0; 0; 0; 0; 0; 16; 0; 0; 0;
  0; 0; 0; 0; 0; 0; 0; 0; 0; 0; 0; 0;
  17; 0; 0; 0; 0; 0; 0; 0; 0; 0; 0; 0;
  0; 0; 0; 0; 0; 0; 0; 0; 0; 0; 0; 0;
  0; 0; 0; 0; 0; 0; 0; 0; 0; 0; 0; 0;
  0; 0; 0; 0; 0; 0; 0; 0; 0; 0; 0; 0;
  0; 0; 0; 0; 0; 0; 0; 0; 0; 0; 0; 0;
  0; 0; 0; 0; 0; 0; 0; 0; 0; 0; 0; 0;
  0; 0; 0; 0; 0; 0; 0; 0; 0; 0; 0; 0;
  0; 0; 0; 0; 0; 0; 0; 0; 0; 0; 0; 0;
  0; 0; 0; 0; 0; 0; 0; 0; 0; 0; 0; 0;
  0; 0; 0; 0; 0; 0; 0; 0; 0; 0; 0; 0;
  0; 0; 0; 0; 0; 0; 0; 0; 0; 0; 0; 0;
  0; 0; 0; 0; 0; 0; 0; 0; 0; 0; 0; 0;
  0; 0; 0; 0; 0; 0; 0; 0; 0; 0; 0; 0;
  0; 0; 0; 0; 0; 0; 0; 0; 0; 0; 0; 0;
  0; 0; 0; 0; 0; 0; 0; 0; 0; 0; 0; 0;
  0; 0; 0; 0; 0; 0; 0; 0; 0; 0; 0; 0;
  0; 0; 0; 0; 0; 0; 0; 0; 0; 0; 0; 18;
  0; 0; 19; 0; 255; 255; 255; 255; 255; 255; 255; 255;
  255; 255; 0; 0; 255; 255; 0; 0; 0; 0; 0; 0;
  0; 0; 0; 0; 0; 0; 0; 0; 0; 0; 0; 0;
  0; 0; 0; 0; 0; 0; 0; 0; 0; 0; 0; 0;
  0; 0; 0; 0; 120; 3; 0; 0; 0; 0; 0; 0;
  0; 0; 0; 0; 0; 0; 0; 0; 0; 0; 0; 0;
  0; 0; 0; 0; 0; 0; 0; 0; 0; 0; 0; 0;
  0; 0; 254; 255; 251; 255; 255; 187; 22; 0; 0; 0;
  0; 0; 0; 0; 0; 0; 0; 0; 0; 0; 0; 0;
  0; 248; 63; 0; 0; 0; 1; 0; 0; 0; 0; 0;
  0; 0; 0; 0; 0; 0; 192; 255; 159; 61; 0; 0;
  0; 0; 2; 0; 0; 0; 255; 255; 255; 7; 0; 0;
  0; 0; 0; 0; 0; 0; 0; 0; 192; 255; 1; 0;
  0; 0; 0; 0; 0; 0; 0; 0; 14; 0; 0; 0;
  0; 0; 0; 208; 255; 63; 30; 0; 12; 0; 0; 0;
  14; 0; 0; 0; 0; 0; 0; 208; 159; 57; 128; 0;
  12; 0; 0; 0; 4; 0; 0; 0; 0; 0; 0; 208;
  135; 57; 0; 0; 0; 0; 3; 0; 14; 0; 0; 0;
  0; 0; 0; 208; 191; 59; 0; 0; 0; 0; 0; 0;
  14; 0; 0; 0; 0; 0; 0; 208; 143; 57; 192; 0;
  0; 0; 0; 0; 4; 0; 0; 0; 0; 0; 0; 192;
  199; 61; 128; 0; 0; 0; 0; 0; 14; 0; 0; 0;
  0; 0; 0; 192; 223; 61; 96; 0; 0; 0; 0; 0;
  12; 0; 0; 0; 0; 0; 0; 192; 223; 61; 96; 0;
  0; 0; 0; 0; 12; 0; 0; 0; 0; 0; 0; 192;
  207; 61; 128; 0; 0; 0; 0; 0; 12; 0; 0; 0;
  0; 0; 0; 0; 0; 132; 95; 255; 0; 0; 12; 0;
  0; 0; 0; 0; 0; 0; 242; 7; 128; 127; 0; 0;
  0; 0; 0; 0; 0; 0; 0; 0; 0; 0; 242; 27;
  0; 63; 0; 0; 0; 0; 0; 0; 0; 0; 0; 3;
  0; 0; 160; 194; 0; 0; 0; 0; 0; 0; 254; 255;
  223; 0; 255; 254; 255; 255; 255; 31; 64; 0; 0; 0;
  0; 0; 0; 0; 0; 0; 0; 0; 0; 240; 199; 3;
  0; 0; 192; 3; 0; 0; 0; 0; 0; 0; 0; 0;
  0; 0; 0; 0; 0; 0; 0; 0; 0; 0; 0; 0;
  0; 0; 28; 0; 0; 0; 28; 0; 0; 0; 12; 0;
  0; 0; 12; 0; 0; 0; 0; 0; 0; 0; 240; 255;
  255; 255; 15; 0; 0; 0; 0; 0; 0; 56; 0; 0;
  0; 0; 0; 0; 0; 0; 0; 0; 0; 0; 0; 0;
  0; 0; 0; 0; 0; 2; 0; 0; 0; 0; 0; 0;
  0; 0; 0; 0; 0; 0; 0; 0; 0; 0; 0; 0;
  0; 0; 0; 0; 0; 0; 0; 0; 0; 0; 0; 0;
  0; 0; 0; 0; 0; 0; 255; 255; 255; 7; 0; 0;
  0; 0; 0; 0; 0; 252; 0; 0; 0; 0; 0; 0;
  0; 0; 0; 0; 0; 0; 0; 6; 0; 0; 0; 0;
  0; 0; 0; 0; 0; 0; 0; 0; 0; 0; 0; 64;
  0; 0; 0; 0; 0; 0; 0; 0; 0; 0; 0; 0;
  0; 0; 0; 0; 0; 0; 0; 0; 0; 0; 0; 0;
  0; 0; 0; 0; 255; 255; 0; 0; 15; 0; 0; 0;
  0; 0; 0; 0; 0; 0; 0; 0; 0; 0; 0; 0;
  0; 0; 0; 0; 0; 0; 0; 0; 0; 0; 0; 0;
  0; 0; 0; 0; 0; 0; 0; 0; 0; 0; 0; 0;
  254; 255; 63; 0; 0; 0; 0; 0; 0; 255; 255; 255;
  7; 0; 0; 0; 0; 0; 0; 0].

