(* ===== verification/UtfConv.v ===== *)
(** * UTF-8 and UTF-16 (vfs/vfs_utfconv.c)

    Names are UTF-16 on the volume and UTF-8 for the kernel.  A string is the list of
    its 16-bit characters or of its bytes; an output buffer is the list written so far,
    compared with the size the caller gave.  A [goto toolong] or [invalid] returns the
    error with what was written before it. *)
From S2P Require Import Prelude Bits UtfTables.

Definition EINVAL : Z := 22.
Definition ENAMETOOLONG : Z := 63.
Definition UTF_REVERSE_ENDIAN : Z := 0x01.
Definition UTF_NO_NULL_TERM : Z := 0x02.
Definition UTF_DECOMPOSED : Z := 0x04.
Definition UTF_PRECOMPOSED : Z := 0x08.
Definition has_flag (flags flag : Z) : bool := negb (Z.land flags flag =? 0).

Definition UCS_ALT_NULL : Z := 0x2400.
Definition SP_HALF_SHIFT : Z := 10.
Definition SP_HALF_BASE : Z := 0x0010000.
Definition SP_HALF_MASK : Z := 0x3FF.
Definition SP_HIGH_FIRST : Z := 0xD800.
Definition SP_HIGH_LAST : Z := 0xDBFF.
Definition SP_LOW_FIRST : Z := 0xDC00.
Definition SP_LOW_LAST : Z := 0xDFFF.

Definition UNICODE_TO_UTF8_LEN (c : Z) : Z :=
  if c <? 0x0080 then 1 else if c <? 0x0800 then 2
  else if Z.land c 0xf800 =? 0xd800 then 2 else 3.

Definition utf_extrabytes : list Z :=
  [ 0;  0;  0;  0;  0;  0;  0;  0;  0;  0;  0;  0;  0;  0;  0;  0;
   -1; -1; -1; -1; -1; -1; -1; -1;  1;  1;  1;  1;  2;  2;  3; -1].

(** [NXSwapShort] when the byte order is the opposite one. *)
Definition swap_if (swapbytes : bool) (c : Z) : Z := if swapbytes then bswap16 c else c.

(** ** Properties of characters *)

(** The two-level bitmaps: one byte per block of 256 characters, 0xFF for a full block,
    0 for an empty one, otherwise the number of a bitmap of 32 bytes. *)
Definition bitmap_test (bitmap : list Z) (character : Z) : outcome bool :=
  value ← array_at bitmap (Z.land (Z.shiftr character 8) 0xFF);
  if value =? 0xFF then Ok true
  else if negb (value =? 0) then
    byte ← array_at bitmap ((value - 1) * 32 + 256 + Z.land character 0xFF / 8);
    Ok (negb (Z.land byte (Z.shiftl 1 (character mod 8)) =? 0))
  else Ok false.

Definition unicode_combinable (character : Z) : outcome bool :=
  if character <? 0x0300 then Ok false else bitmap_test __CFUniCharCombiningBitmap character.
Definition unicode_decomposeable (character : Z) : outcome bool :=
  if character <? 0x00C0 then Ok false else bitmap_test __CFUniCharDecomposableBitmap character.

(** ** Table lookup *)

Fixpoint pairs (l : list Z) : list (Z * Z) :=
  match l with k :: v :: l' => (k, v) :: pairs l' | _ => [] end.

(** The binary search of [getmappedvalue32] and [getmappedvalue16]; [p] and [q] are
    indices.  Every round at least halves the range. *)
Fixpoint bsearch (fuel : nat) (theTable : list (Z * Z)) (p q character : Z) : outcome Z :=
  if p <=? q then
    match fuel with
    | O => Diverge
    | S fuel' =>
        let divider := p + Z.shiftr (q - p) 1 in
        '(key, value) ← array_at theTable divider;
        if character <? key then bsearch fuel' theTable p (divider - 1) character
        else if key <? character then bsearch fuel' theTable (divider + 1) q character
        else Ok value
    end
  else Ok 0.

Definition getmappedvalue (theTable : list (Z * Z)) (numElem character : Z) : outcome Z :=
  '(first, _) ← array_at theTable 0;
  '(last, _) ← array_at theTable (numElem - 1);
  if (character <? first) || (last <? character) then Ok 0
  else bsearch (Z.to_nat numElem) theTable 0 (numElem - 1) character.

Definition getmappedvalue32 := getmappedvalue.
Definition getmappedvalue16 := getmappedvalue.

(** ** Decomposing and combining *)

Definition RECURSIVE_DECOMPOSITION : Z := 0x8000.
Definition EXTRACT_COUNT (value : Z) : Z := Z.land (Z.shiftr value 12) 0x0007.

Definition decomposition_table : list (Z * Z) := Eval vm_compute in pairs __CFUniCharDecompositionTable.

(** The characters copied by [while (length--)]. *)
Definition copy_chars (length : Z) (l : list Z) : outcome (list Z) :=
  if Z.of_nat (List.length l) <? length then Fault else Ok (take (Z.to_nat length) l).

Fixpoint unicode_recursive_decompose (fuel : nat) (character : Z) : outcome (list Z) :=
  match fuel with
  | O => Diverge
  | S fuel' =>
      value ← getmappedvalue16 decomposition_table
                (Z.of_nat (List.length decomposition_table)) character;
      let length := EXTRACT_COUNT value in
      let firstChar := Z.land value 0x0FFF in
      let bmpMappings :=
        if length =? 1 then [firstChar]
        else drop (Z.to_nat firstChar) __CFUniCharMultipleDecompositionTable in
      if has_flag value RECURSIVE_DECOMPOSITION then
        c ← array_at bmpMappings 0;
        used ← unicode_recursive_decompose fuel' c;
        match used with
        | [] => Ok []
        | _ => rest ← copy_chars (u32 (length - 1)) (tail bmpMappings); Ok (used ++ rest)
        end
      else copy_chars length bmpMappings
  end.

Definition HANGUL_SBASE : Z := 0xAC00.
Definition HANGUL_LBASE : Z := 0x1100.
Definition HANGUL_VBASE : Z := 0x1161.
Definition HANGUL_TBASE : Z := 0x11A7.
Definition HANGUL_SCOUNT : Z := 11172.
Definition HANGUL_LCOUNT : Z := 19.
Definition HANGUL_VCOUNT : Z := 21.
Definition HANGUL_TCOUNT : Z := 28.
Definition HANGUL_NCOUNT : Z := HANGUL_VCOUNT * HANGUL_TCOUNT.

(** The recursion of the table is at most three deep. *)
Definition unicode_decompose (character : Z) : outcome (list Z) :=
  if (HANGUL_SBASE <=? character) && (character <=? HANGUL_SBASE + HANGUL_SCOUNT) then
    let character := character - HANGUL_SBASE in
    Ok ([character / HANGUL_NCOUNT + HANGUL_LBASE;
         (character mod HANGUL_NCOUNT) / HANGUL_TCOUNT + HANGUL_VBASE]
        ++ if character mod HANGUL_TCOUNT =? 0 then []
           else [character mod HANGUL_TCOUNT + HANGUL_TBASE])
  else unicode_recursive_decompose 8 character.

Definition precomp_source : list (Z * Z) := Eval vm_compute in pairs __CFUniCharPrecompSourceTable.
Definition precomp_dest : list (Z * Z) := Eval vm_compute in pairs __CFUniCharBMPPrecompDestinationTable.

(** The test for Hangul sequences; [None] goes on to the tables. *)
Definition hangul_combine (base combining : Z) : option Z :=
  if (HANGUL_VBASE <=? combining) && (combining <? HANGUL_TBASE + HANGUL_TCOUNT) then
    if (combining <? HANGUL_VBASE + HANGUL_VCOUNT)
       && ((HANGUL_LBASE <=? base) && (base <? HANGUL_LBASE + HANGUL_LCOUNT)) then
      Some (u16 (HANGUL_SBASE + (base - HANGUL_LBASE) * (HANGUL_VCOUNT * HANGUL_TCOUNT)
                 + (combining - HANGUL_VBASE) * HANGUL_TCOUNT))
    else if (HANGUL_TBASE <? combining)
            && ((HANGUL_SBASE <=? base) && (base <? HANGUL_SBASE + HANGUL_SCOUNT)) then
      if (base - HANGUL_SBASE) mod HANGUL_TCOUNT =? 0
      then Some (u16 (base + (combining - HANGUL_TBASE))) else Some 0
    else None
  else None.

Definition unicode_combine (base combining : Z) : outcome Z :=
  match hangul_combine base combining with
  | Some c => Ok c
  | None =>
      value ← getmappedvalue32 precomp_source (Z.of_nat (List.length precomp_source)) combining;
      if negb (value =? 0) then
        value ← getmappedvalue16 (drop (Z.to_nat (Z.land value 0xFFFF)) precomp_dest)
                  (Z.shiftr value 16) base;
        Ok (u16 value)
      else Ok (u16 value)
  end.

(** ** Encoding *)

(** "Slash and NULL are not permitted": the character and whether it was illegal. *)
Definition encode_map (altslash ucs_ch : Z) : Z * bool :=
  if ucs_ch =? 0x2F then if negb (altslash =? 0) then (altslash, false) else (0x5F, true)
  else if ucs_ch =? 0 then (UCS_ALT_NULL, false) else (ucs_ch, false).

Definition utf8_encodelen (ucs : list Z) (altslash flags : Z) : Z :=
  let swapbytes := has_flag flags UTF_REVERSE_ENDIAN in
  foldl (fun len c =>
    len + UNICODE_TO_UTF8_LEN (fst (encode_map altslash (swap_if swapbytes c)))) 0 ucs.

Definition utf8_2 (c : Z) : list Z :=
  [Z.lor 0xc0 (Z.shiftr c 6); Z.lor 0x80 (Z.land 0x3f c)].
Definition utf8_3 (c : Z) : list Z :=
  [Z.lor 0xe0 (Z.shiftr c 12); Z.lor 0x80 (Z.land 0x3f (Z.shiftr c 6)); Z.lor 0x80 (Z.land 0x3f c)].
Definition utf8_4 (pair : Z) : list Z :=
  [Z.lor 0xf0 (Z.shiftr pair 18); Z.lor 0x80 (Z.land 0x3f (Z.shiftr pair 12));
   Z.lor 0x80 (Z.land 0x3f (Z.shiftr pair 6)); Z.lor 0x80 (Z.land 0x3f pair)].

Definition is_high (c : Z) : bool := (SP_HIGH_FIRST <=? c) && (c <=? SP_HIGH_LAST).
Definition is_low (c : Z) : bool := (SP_LOW_FIRST <=? c) && (c <=? SP_LOW_LAST).
Definition surrogate_pair (ucs_ch ch2 : Z) : Z :=
  Z.shiftl (ucs_ch - SP_HIGH_FIRST) SP_HALF_SHIFT + (ch2 - SP_LOW_FIRST) + SP_HALF_BASE.

Section encode.
Context (swapbytes decompose : bool) (altslash cap : Z).

(** The next character: from the decomposition under way, or from the source. *)
Definition encode_next (extra rest : list Z) : outcome (option (Z * list Z * list Z)) :=
  match extra, rest with
  | c :: extra, _ => Ok (Some (c, extra, rest))
  | [], [] => Ok None
  | [], c :: rest =>
      let ucs_ch := swap_if swapbytes c in
      d ← (if decompose then unicode_decomposeable ucs_ch else Ok false);
      if (d : bool) then
        seq ← unicode_decompose ucs_ch;
        match seq with
        | c :: extra => Ok (Some (c, extra, rest))
        | [] => Fault
        end
      else Ok (Some (ucs_ch, [], rest))
  end.

(** The low surrogate that follows a high one, if any ([charcnt > 0] is that
    characters are left). *)
Definition encode_pair (ucs_ch : Z) (extra rest : list Z) : outcome (option (Z * list Z)) :=
  if is_high ucs_ch then
    match extra, rest with
    | [], [] => Ok None
    | _, [] => Fault
    | _, c :: rest' =>
        let ch2 := swap_if swapbytes c in
        Ok (if is_low ch2 then Some (ch2, rest') else None)
    end
  else Ok None.

(** The loop of [utf8_encodestr]; [cap] is [bufend - bufstart]. *)
Fixpoint encode_loop (fuel : nat) (extra rest out : list Z) (result : Z) : outcome (Z * list Z) :=
  match fuel with
  | O => Diverge
  | S fuel' =>
      o ← encode_next extra rest;
      match o with
      | None => Ok (result, out)
      | Some (ucs_ch, extra, rest) =>
          let '(ucs_ch, illegal) := encode_map altslash ucs_ch in
          let result := if illegal then EINVAL else result in
          let put (bytes : list Z) rest :=
            if cap <? Z.of_nat (List.length out + List.length bytes) then Ok (ENAMETOOLONG, out)
            else encode_loop fuel' extra rest (out ++ bytes) result in
          if ucs_ch <? 0x0080 then put [ucs_ch] rest
          else if ucs_ch <? 0x800 then put (utf8_2 ucs_ch) rest
          else
            p ← encode_pair ucs_ch extra rest;
            match p with
            | Some (ch2, rest') => put (utf8_4 (surrogate_pair ucs_ch ch2)) rest'
            | None => put (utf8_3 ucs_ch) rest
            end
      end
  end.
End encode.

(** The result, the bytes written and [*utf8len].  A character decomposes into eight
    at most. *)
Definition utf8_encodestr (ucs : list Z) (buflen altslash flags : Z)
  : outcome (Z * list Z * Z) :=
  let nullterm := negb (has_flag flags UTF_NO_NULL_TERM) in
  let cap := if nullterm then buflen - 1 else buflen in
  (* the NUL is written without a test *)
  if nullterm && (buflen <? 1) then Fault else
  '(result, out) ←
    encode_loop (has_flag flags UTF_REVERSE_ENDIAN) (has_flag flags UTF_DECOMPOSED) altslash cap
      (8 * List.length ucs + 1) [] ucs [] 0;
  Ok (result, out ++ (if nullterm then [0] else []), Z.of_nat (List.length out)).

(** ** Decoding *)
Section decode.
Context (swapbytes decompose precompose : bool) (altslash buflen : Z).

(** [ucsp >= bufend] *)
Definition ucs_full (out : list Z) : bool := buflen <=? 2 * Z.of_nat (List.length out).

(** The characters of a decomposition; [false] is [goto toolong]. *)
Fixpoint put_sequence (seq out : list Z) : bool * list Z :=
  match seq with
  | [] => (true, out)
  | c :: seq =>
      let out := out ++ [swap_if swapbytes c] in
      if ucs_full out then (false, out) else put_sequence seq out
  end.

(** The last part of a turn for a character that is not ASCII: decomposition,
    composition with the character before it, then the end of the loop body. *)
Definition put_char (ucs_ch : Z) (out : list Z) : outcome (bool * list Z) :=
  let finish ucs_ch out :=
    let ucs_ch := if ucs_ch =? UCS_ALT_NULL then 0 else ucs_ch in
    let ucs_ch := if ucs_ch =? altslash then 0x2F else ucs_ch in
    Ok (true, out ++ [swap_if swapbytes ucs_ch]) in
  if decompose then
    d ← unicode_decomposeable ucs_ch;
    if (d : bool) then seq ← unicode_decompose ucs_ch; Ok (put_sequence seq out)
    else finish ucs_ch out
  else if precompose then
    match last out with
    | None => finish ucs_ch out
    | Some prev =>
        k ← unicode_combinable ucs_ch;
        if (k : bool) then
          composite ← unicode_combine (swap_if swapbytes prev) ucs_ch;
          if negb (composite =? 0) then finish composite (removelast out) else finish ucs_ch out
        else finish ucs_ch out
    end
  else finish ucs_ch out.

Fixpoint decode_loop (utf8 out : list Z) : outcome (Z * list Z) :=
  match utf8 with
  | [] => Ok (0, out)
  | byte :: rest =>
      if byte =? 0 then Ok (0, out)
      else if ucs_full out then Ok (ENAMETOOLONG, out)
      else if byte <? 0x80 then
        decode_loop rest (out ++ [swap_if swapbytes (if byte =? altslash then 0x2F else byte)])
      else
        extrabytes ← array_at utf_extrabytes (Z.shiftr byte 3);
        if (extrabytes <? 0) || (Z.of_nat (List.length rest) <? extrabytes) then Ok (EINVAL, out)
        else
          match rest with
          | b2 :: rest2 =>
              if extrabytes =? 1 then
                let ch := u32 (u32 (Z.shiftl byte 6 + b2) - 0x3080) in
                if ch <? 0x0080 then Ok (EINVAL, out)
                else '(go, out) ← put_char (u16 ch) out;
                     if (go : bool) then decode_loop rest2 out else Ok (ENAMETOOLONG, out)
              else
                match rest2 with
                | b3 :: rest3 =>
                    if extrabytes =? 2 then
                      let ch := u32 (u32 (Z.shiftl (Z.shiftl byte 6 + b2) 6 + b3) - 0xE2080) in
                      if ch <? 0x0800 then Ok (EINVAL, out)
                      else '(go, out) ← put_char (u16 ch) out;
                           if (go : bool) then decode_loop rest3 out else Ok (ENAMETOOLONG, out)
                    else
                      match rest3 with
                      | b4 :: rest4 =>
                          if extrabytes =? 3 then
                            let ch := u32 (u32 (Z.shiftl (Z.shiftl (Z.shiftl byte 6 + b2) 6 + b3) 6 + b4)
                                           - (0x3C82080 + SP_HALF_BASE)) in
                            let out := out ++ [swap_if swapbytes
                                                 (u16 (Z.shiftr ch SP_HALF_SHIFT + SP_HIGH_FIRST))] in
                            if ucs_full out then Ok (ENAMETOOLONG, out)
                            else decode_loop rest4
                                   (out ++ [swap_if swapbytes (u16 (Z.land ch SP_HALF_MASK + SP_LOW_FIRST))])
                          else Ok (EINVAL, out)
                      | [] => Fault
                      end
                | [] => Fault
                end
          | [] => Fault
          end
  end.
End decode.

(** The result, the characters written; [*ucslen] is twice their number. *)
Definition utf8_decodestr (utf8 : list Z) (buflen altslash flags : Z) : outcome (Z * list Z) :=
  decode_loop (has_flag flags UTF_REVERSE_ENDIAN) (has_flag flags UTF_DECOMPOSED)
    (has_flag flags UTF_PRECOMPOSED) altslash buflen utf8 [].

(** ** The binary search *)

(** The value of a key, 0 when there is none. *)
Fixpoint assoc (t : list (Z * Z)) (c : Z) : Z :=
  match t with
  | [] => 0
  | (k, v) :: t => if k =? c then v else assoc t c
  end.

Definition key_lt (a b : Z * Z) : Prop := fst a < fst b.
#[export] Instance key_lt_dec a b : Decision (key_lt a b).
Proof. unfold key_lt. apply _. Defined.

Lemma assoc_lookup t i c v :
  StronglySorted key_lt t -> t !! i = Some (c, v) -> assoc t c = v.
Proof.
  intros Hs. revert i. induction Hs as [|[k w] t Hs IH Hk]; intros [|i] Hi; try done; simpl in *.
  - injection Hi as -> ->. by rewrite Z.eqb_refl.
  - rewrite Forall_forall in Hk. specialize (Hk _ (list_elem_of_lookup_2 _ _ _ Hi)). unfold key_lt in Hk.
    simpl in Hk. rewrite (proj2 (Z.eqb_neq _ _)) by lia. by apply IH with i.
Qed.

Lemma assoc_none t c : (forall i k v, t !! i = Some (k, v) -> k <> c) -> assoc t c = 0.
Proof.
  induction t as [|[k v] t IH]; intros H; [done|]. simpl.
  rewrite (proj2 (Z.eqb_neq _ _)) by (by apply (H 0%nat k v)). apply IH. intros i. apply (H (S i)).
Qed.

Lemma sorted_lookup t i j a b :
  StronglySorted key_lt t -> t !! i = Some a -> t !! j = Some b -> (i < j)%nat -> fst a < fst b.
Proof.
  intros Hs Hi Hj Hij. apply list_elem_of_split_length in Hi as (t1 & t2 & -> & ->).
  apply StronglySorted_app in Hs as (_ & _ & [Hs _]%StronglySorted_cons).
  rewrite Forall_forall in Hs. apply Hs. rewrite lookup_app_r in Hj by lia.
  destruct (j - length t1)%nat as [|j'] eqn:E; [lia|]. simpl in Hj. by apply list_elem_of_lookup_2 in Hj.
Qed.

Lemma bsearch_spec fuel t p q c :
  StronglySorted key_lt t -> 0 <= p -> q < Z.of_nat (length t) -> q - p < Z.of_nat fuel ->
  (forall i k v, t !! i = Some (k, v) -> Z.of_nat i < p -> k < c) ->
  (forall i k v, t !! i = Some (k, v) -> q < Z.of_nat i -> c < k) ->
  bsearch fuel t p q c = Ok (assoc t c).
Proof.
  intros Hs. revert p q. induction fuel as [|fuel IH]; intros p q Hp Hq Hf Hlo Hhi; cbn [bsearch];
    destruct (Z.leb_spec p q) as [Hpq|Hpq]; try lia.
  1, 3: rewrite assoc_none; [done|]; intros i k v Hi ->;
    destruct (decide (Z.of_nat i < p)); [specialize (Hlo i c v Hi)|specialize (Hhi i c v Hi)]; lia.
  rewrite Z.shiftr_div_pow2 by lia. change (2 ^ 1) with 2.
  assert (0 <= (q - p) / 2 <= q - p) as Hd by (Z.to_euclidean_division_equations; lia).
  set (d := p + (q - p) / 2). unfold array_at. rewrite (proj2 (Z.leb_le 0 d)) by lia.
  destruct (lookup_lt_is_Some_2 t (Z.to_nat d)) as [[k v] Hkv]; [lia|]. rewrite Hkv.
  cbn [of_option mbind outcome_bind]. destruct (Z.ltb_spec c k) as [Hck|Hck].
  - apply IH; [lia|lia|lia|done|]. intros i k' v' Hi Hid.
    destruct (decide (Z.of_nat i = d)) as [E|E].
    + replace (Z.to_nat d) with i in Hkv by lia. congruence.
    + assert (k < k'); [|lia]. apply (sorted_lookup t (Z.to_nat d) i (k, v) (k', v')); done || lia.
  - destruct (Z.ltb_spec k c) as [Hkc|Hkc].
    + apply IH; [lia|lia|lia| |done]. intros i k' v' Hi Hid.
      destruct (decide (Z.of_nat i = d)) as [E|E].
      * replace (Z.to_nat d) with i in Hkv by lia. congruence.
      * assert (k' < k); [|lia]. apply (sorted_lookup t i (Z.to_nat d) (k', v') (k, v)); done || lia.
    + assert (k = c) as -> by lia. by rewrite (assoc_lookup t (Z.to_nat d) c v).
Qed.

Lemma getmappedvalue_assoc t c :
  t <> [] -> StronglySorted key_lt t -> getmappedvalue t (Z.of_nat (length t)) c = Ok (assoc t c).
Proof.
  intros Hne Hs. assert (0 < length t)%nat by (destruct t; simpl; [done|lia]).
  unfold getmappedvalue. unfold array_at. rewrite (proj2 (Z.leb_le 0 (_ - 1))) by lia.
  destruct (lookup_lt_is_Some_2 t 0) as [[k0 v0] H0]; [lia|].
  destruct (lookup_lt_is_Some_2 t (Z.to_nat (Z.of_nat (length t) - 1))) as [[kn vn] Hn]; [lia|].
  change (0 <=? 0) with true. change (Z.to_nat 0) with 0%nat. cbv iota. rewrite H0, Hn.
  cbn [of_option mbind outcome_bind].
  destruct (Z.ltb_spec c k0) as [H1|H1]; simpl.
  { rewrite assoc_none; [done|]. intros [|i] k v Hi ->; [rewrite H0 in Hi; injection Hi as -> _; lia|].
    assert (k0 < c); [|lia]. by apply (sorted_lookup t 0 (S i) (k0, v0) (c, v)); try lia. }
  destruct (Z.ltb_spec kn c) as [H2|H2]; simpl.
  { rewrite assoc_none; [done|]. intros i k v Hi ->. pose proof (lookup_lt_Some _ _ _ Hi).
    set (j := Z.to_nat (Z.of_nat (length t) - 1)) in *. destruct (decide (i = j)) as [->|].
    - rewrite Hn in Hi. injection Hi as -> _. lia.
    - assert (c < kn); [|lia]. apply (sorted_lookup t i j (c, v) (kn, vn)); done || lia. }
  apply bsearch_spec; [done|lia|lia|lia|intros; lia|]. intros i k v Hi Hlt.
  apply lookup_lt_Some in Hi. lia.
Qed.

Lemma decomposition_table_sorted : StronglySorted key_lt decomposition_table.
Proof. apply Sorted_StronglySorted; [intros x y z; unfold key_lt; lia|]. apply (bool_decide_unpack _). vm_compute. done. Qed.
Lemma precomp_source_sorted : StronglySorted key_lt precomp_source.
Proof. apply Sorted_StronglySorted; [intros x y z; unfold key_lt; lia|]. apply (bool_decide_unpack _). vm_compute. done. Qed.

(** ** Encoding *)

(** The UTF-8 form of a string, with slashes and NULs replaced. *)
Fixpoint utf8_of (altslash : Z) (ucs : list Z) : list Z :=
  match ucs with
  | [] => []
  | c :: ucs' =>
      let c' := fst (encode_map altslash c) in
      if c' <? 0x80 then c' :: utf8_of altslash ucs'
      else if c' <? 0x800 then utf8_2 c' ++ utf8_of altslash ucs'
      else if is_high c' then
        match ucs' with
        | c2 :: ucs'' =>
            if is_low c2 then utf8_4 (surrogate_pair c' c2) ++ utf8_of altslash ucs''
            else utf8_3 c' ++ utf8_of altslash ucs'
        | [] => utf8_3 c'
        end
      else utf8_3 c' ++ utf8_of altslash ucs'
  end.

(** A turn of the loop, without decomposition: the bytes it adds, what is left. *)
Lemma encode_loop_step altslash cap fuel c ucs out result :
  exists bytes ucs', bytes <> [] /\ (length ucs' <= length ucs)%nat /\
    utf8_of altslash (c :: ucs) = bytes ++ utf8_of altslash ucs' /\
    encode_loop false false altslash cap (S fuel) [] (c :: ucs) out result =
      if cap <? Z.of_nat (length out + length bytes) then Ok (ENAMETOOLONG, out)
      else encode_loop false false altslash cap fuel [] ucs' (out ++ bytes)
             (if snd (encode_map altslash c) then EINVAL else result).
Proof.
  cbn [encode_loop encode_next mbind outcome_bind swap_if utf8_of].
  destruct (encode_map altslash c) as [c' illegal]. cbn [fst snd].
  destruct (c' <? 0x80); [by exists [c'], ucs|].
  destruct (c' <? 0x800); [by exists (utf8_2 c'), ucs|].
  unfold encode_pair. destruct (is_high c'); cbn [mbind outcome_bind]; [|by exists (utf8_3 c'), ucs].
  destruct ucs as [|c2 ucs]; cbn [mbind outcome_bind swap_if].
  - exists (utf8_3 c'), []. by rewrite app_nil_r.
  - destruct (is_low c2); [|by exists (utf8_3 c'), (c2 :: ucs)].
    exists (utf8_4 (surrogate_pair c' c2)), ucs. split; [done|]. split; [simpl; lia|].
    done.
Qed.

(** What the loop returns: all of the string, or ENAMETOOLONG and as many characters as
    fit. *)
Definition encode_post (altslash cap : Z) (ucs out : list Z) (result : Z)
    (r : outcome (Z * list Z)) : Prop :=
  exists out' result', r = Ok (result', out ++ out') /\
    (out' = [] \/ Z.of_nat (length out + length out') <= cap) /\
    ((result' = result \/ altslash = 0 /\ result' = EINVAL) /\ out' = utf8_of altslash ucs \/
     result' = ENAMETOOLONG /\ cap < Z.of_nat (length out + length (utf8_of altslash ucs)) /\
       exists t, utf8_of altslash ucs = out' ++ t).

Lemma encode_loop_spec altslash cap fuel ucs out result :
  (length ucs < fuel)%nat ->
  encode_post altslash cap ucs out result (encode_loop false false altslash cap fuel [] ucs out result).
Proof.
  revert ucs out result. induction fuel as [|fuel IH]; intros ucs out result Hf; [lia|].
  destruct ucs as [|c ucs].
  { exists [], result. cbn. rewrite app_nil_r. split; [done|]. split; [by left|]. left. auto. }
  destruct (encode_loop_step altslash cap fuel c ucs out result)
    as (bytes & ucs' & Hne & Hlen & Hof & ->).
  unfold encode_post. rewrite Hof. destruct (Z.ltb_spec cap (Z.of_nat (length out + length bytes))) as [Hc|Hc].
  - exists [], ENAMETOOLONG. rewrite app_nil_r. split; [done|]. split; [by left|]. right.
    split; [done|]. split; [rewrite length_app; lia|by eexists].
  - simpl in Hf. set (r1 := if snd (encode_map altslash c) then EINVAL else result).
    destruct (IH ucs' (out ++ bytes) r1) as (out' & result' & -> & Hb & Hcase); [lia|].
    exists (bytes ++ out'), result'. rewrite app_assoc. split; [done|]. rewrite !length_app in *.
    split; [right; destruct Hb as [->|Hb]; simpl; lia|].
    destruct Hcase as [[Hr ->]|(-> & Hcap & t & Ht)]; [left|right].
    + split; [|done]. assert (r1 = result \/ altslash = 0 /\ r1 = EINVAL) as Hr1.
      { unfold r1, encode_map. destruct (c =? 47); [|by destruct (c =? 0); left].
        destruct (Z.eqb_spec altslash 0); simpl; [by right|by left]. }
      destruct Hr as [->|?]; [done|by right].
    + split; [done|]. split; [lia|]. exists t. by rewrite Ht, app_assoc.
Qed.

(** ** Decoding what was encoded *)

(** The characters as they come back: a slash and the replacement of a NUL. *)
Definition decode_map (altslash c : Z) : Z :=
  let c := if c =? UCS_ALT_NULL then 0 else c in if c =? altslash then 0x2F else c.

Lemma lor_low a k b : 0 <= k -> 0 <= b < 2 ^ k -> Z.lor (a * 2 ^ k) b = a * 2 ^ k + b.
Proof.
  intros Hk Hb. assert (Z.land (a * 2 ^ k) b = 0) as E.
  { apply Z.bits_inj'. intros i Hi. rewrite Z.land_spec, Z.bits_0.
    destruct (decide (i < k)); [by rewrite Z.mul_pow2_bits_low by lia|].
    rewrite (testbit_high k b i) by lia. apply andb_false_r. }
  rewrite Z.add_nocarry_lxor by done. by rewrite Z.lxor_lor.
Qed.
Lemma land_3f c : Z.land 0x3f c = c mod 64.
Proof. rewrite Z.land_comm. change 0x3f with (Z.ones 6). by rewrite Z.land_ones by lia. Qed.

Lemma utf8_2_eq c : 0x80 <= c < 0x800 -> utf8_2 c = [0xc0 + c / 64; 0x80 + c mod 64].
Proof.
  intros Hc. unfold utf8_2. rewrite land_3f, Z.shiftr_div_pow2 by lia. change (2 ^ 6) with 64.
  change 0xc0 with (6 * 2 ^ 5). change 0x80 with (2 * 2 ^ 6).
  rewrite !lor_low by (Z.to_euclidean_division_equations; lia). done.
Qed.
Lemma utf8_3_eq c :
  0x800 <= c < 0x10000 -> utf8_3 c = [0xe0 + c / 4096; 0x80 + (c / 64) mod 64; 0x80 + c mod 64].
Proof.
  intros Hc. unfold utf8_3. rewrite !land_3f, !Z.shiftr_div_pow2 by lia.
  change (2 ^ 6) with 64. change (2 ^ 12) with 4096.
  change 0xe0 with (14 * 2 ^ 4). change 0x80 with (2 * 2 ^ 6).
  rewrite !lor_low by (Z.to_euclidean_division_equations; lia). done.
Qed.
Lemma utf8_4_eq c :
  0x10000 <= c < 0x110000 ->
  utf8_4 c = [0xf0 + c / 262144; 0x80 + (c / 4096) mod 64; 0x80 + (c / 64) mod 64; 0x80 + c mod 64].
Proof.
  intros Hc. unfold utf8_4. rewrite !land_3f, !Z.shiftr_div_pow2 by lia.
  change (2 ^ 6) with 64. change (2 ^ 12) with 4096. change (2 ^ 18) with 262144.
  change 0xf0 with (30 * 2 ^ 3). change 0x80 with (2 * 2 ^ 6).
  rewrite !lor_low by (Z.to_euclidean_division_equations; lia). done.
Qed.

(** The number of bytes that follow a lead byte. *)
Lemma extrabytes_at byte n :
  (n = 1 /\ 0xc0 <= byte < 0xe0 \/ n = 2 /\ 0xe0 <= byte < 0xf0 \/ n = 3 /\ 0xf0 <= byte < 0xf8) ->
  array_at utf_extrabytes (Z.shiftr byte 3) = Ok n.
Proof.
  intros H. rewrite Z.shiftr_div_pow2 by lia. change (2 ^ 3) with 8.
  destruct H as [[-> H]|[[-> H]|[-> H]]].
  - assert (byte / 8 = 24 \/ byte / 8 = 25 \/ byte / 8 = 26 \/ byte / 8 = 27) as [->|[->|[->| ->]]]
      by (Z.to_euclidean_division_equations; lia); done.
  - assert (byte / 8 = 28 \/ byte / 8 = 29) as [->| ->] by (Z.to_euclidean_division_equations; lia); done.
  - assert (byte / 8 = 30) as -> by (Z.to_euclidean_division_equations; lia). done.
Qed.

Section decoding.
Context (altslash buflen : Z).
Abbreviation decode := (decode_loop false false false altslash buflen).

(** There is room for [n] more characters. *)
Definition room (out : list Z) (n : Z) : Prop := 2 * (Z.of_nat (length out) + n) <= buflen.

Lemma room_not_full out : room out 1 -> ucs_full buflen out = false.
Proof. unfold room, ucs_full. intros. apply Z.leb_gt. lia. Qed.

Lemma decode_1 c rest out :
  1 <= c < 0x80 -> room out 1 -> decode (c :: rest) out = decode rest (out ++ [decode_map altslash c]).
Proof.
  intros Hc Hr. cbn [decode_loop]. rewrite (room_not_full out Hr).
  rewrite (proj2 (Z.eqb_neq c 0)), (proj2 (Z.ltb_lt c 0x80)) by lia. cbn [swap_if].
  unfold decode_map, UCS_ALT_NULL. by rewrite (proj2 (Z.eqb_neq c 0x2400)) by lia.
Qed.

Lemma decode_2 c rest out :
  0x80 <= c < 0x800 -> room out 1 ->
  decode (utf8_2 c ++ rest) out = decode rest (out ++ [decode_map altslash c]).
Proof.
  intros Hc Hr. rewrite utf8_2_eq by done. cbn [app decode_loop].
  rewrite (room_not_full out Hr). set (b := 0xc0 + c / 64).
  assert (0xc0 <= b < 0xe0) as Hb by (unfold b; Z.to_euclidean_division_equations; lia).
  rewrite (proj2 (Z.eqb_neq b 0)), (proj2 (Z.ltb_ge b 0x80)), (extrabytes_at b 1) by lia.
  cbn [mbind outcome_bind]. rewrite (proj2 (Z.ltb_ge _ 1)) by (simpl; lia). cbn [orb Z.ltb Z.compare Z.eqb].
  rewrite Z.shiftl_mul_pow2 by lia. change (2 ^ 6) with 64.
  assert (b * 64 + (0x80 + c mod 64) = c + 0x3080) as -> by (unfold b; Z.to_euclidean_division_equations; lia).
  rewrite (u32_small (c + _)), Z.add_simpl_r, u32_small by lia.
  rewrite (proj2 (Z.ltb_ge c 0x80)), u16_small by lia. done.
Qed.

Lemma decode_3 c rest out :
  0x800 <= c < 0x10000 -> room out 1 ->
  decode (utf8_3 c ++ rest) out = decode rest (out ++ [decode_map altslash c]).
Proof.
  intros Hc Hr. rewrite utf8_3_eq by done. cbn [app decode_loop].
  rewrite (room_not_full out Hr). set (b := 0xe0 + c / 4096).
  assert (0xe0 <= b < 0xf0) as Hb by (unfold b; Z.to_euclidean_division_equations; lia).
  rewrite (proj2 (Z.eqb_neq b 0)), (proj2 (Z.ltb_ge b 0x80)), (extrabytes_at b 2) by lia.
  cbn [mbind outcome_bind]. rewrite (proj2 (Z.ltb_ge _ 2)) by (simpl; lia).
  change (2 <? 0) with false. change (2 =? 1) with false. change (2 =? 2) with true.
  cbn [orb]. cbv iota.
  rewrite !Z.shiftl_mul_pow2 by lia. change (2 ^ 6) with 64.
  assert ((b * 64 + (0x80 + (c / 64) mod 64)) * 64 + (0x80 + c mod 64) = c + 0xE2080) as ->.
  { unfold b. change 4096 with (64 * 64). rewrite <- Z.div_div by lia.
    pose proof (Z.div_mod c 64). pose proof (Z.div_mod (c / 64) 64). lia. }
  rewrite (u32_small (c + _)), Z.add_simpl_r, u32_small by lia.
  rewrite (proj2 (Z.ltb_ge c 0x800)), u16_small by lia. done.
Qed.

Lemma decode_4 c1 c2 rest out :
  is_high c1 = true -> is_low c2 = true -> room out 2 ->
  decode (utf8_4 (surrogate_pair c1 c2) ++ rest) out = decode rest (out ++ [c1; c2]).
Proof.
  intros H1 H2 Hr. unfold is_high, is_low, SP_HIGH_FIRST, SP_HIGH_LAST, SP_LOW_FIRST, SP_LOW_LAST in *.
  apply andb_true_iff in H1, H2. rewrite !Z.leb_le in H1, H2. unfold surrogate_pair.
  rewrite Z.shiftl_mul_pow2 by (unfold SP_HALF_SHIFT; lia). unfold SP_HALF_SHIFT, SP_HALF_BASE.
  change (2 ^ 10) with 1024. unfold SP_HIGH_FIRST, SP_LOW_FIRST.
  set (x := (c1 - 55296) * 1024 + (c2 - 56320)). assert (0 <= x < 1048576) as Hx by lia.
  rewrite utf8_4_eq by lia. cbn [app decode_loop].
  rewrite (room_not_full out) by (unfold room in *; lia). set (b := 0xf0 + (x + 65536) / 262144).
  assert (0xf0 <= b < 0xf8) as Hb by (unfold b; Z.to_euclidean_division_equations; lia).
  rewrite (proj2 (Z.eqb_neq b 0)), (proj2 (Z.ltb_ge b 0x80)), (extrabytes_at b 3) by lia.
  cbn [mbind outcome_bind]. rewrite (proj2 (Z.ltb_ge _ 3)) by (simpl; lia).
  change (3 <? 0) with false. change (3 =? 1) with false. change (3 =? 2) with false.
  change (3 =? 3) with true. cbn [orb]. cbv iota.
  rewrite !(Z.shiftl_mul_pow2 _ 6) by lia. change (2 ^ 6) with 64.
  assert (((b * 64 + (0x80 + ((x + 65536) / 4096) mod 64)) * 64 + (0x80 + ((x + 65536) / 64) mod 64)) * 64
            + (0x80 + (x + 65536) mod 64) = x + (0x3C82080 + 65536)) as ->.
  { unfold b. set (y := x + 65536). change 262144 with (64 * 64 * 64). change 4096 with (64 * 64).
    rewrite <- !Z.div_div by lia. pose proof (Z.div_mod y 64). pose proof (Z.div_mod (y / 64) 64).
    pose proof (Z.div_mod (y / 64 / 64) 64). lia. }
  unfold SP_HALF_BASE. rewrite (u32_small (x + _)), Z.add_simpl_r, (u32_small x) by lia.
  change SP_HALF_MASK with (Z.ones 10). rewrite Z.land_ones, Z.shiftr_div_pow2 by (unfold SP_HALF_SHIFT; lia).
  unfold SP_HALF_SHIFT. change (2 ^ 10) with 1024. unfold SP_HIGH_FIRST, SP_LOW_FIRST. cbn [swap_if].
  assert (x / 1024 + 55296 = c1) as -> by (unfold x; Z.to_euclidean_division_equations; lia).
  assert (x mod 1024 + 56320 = c2) as -> by (unfold x; Z.to_euclidean_division_equations; lia).
  rewrite !u16_small by lia.
  rewrite (room_not_full (out ++ [c1])) by (unfold room in *; rewrite length_app; simpl; lia).
  by rewrite <- app_assoc.
Qed.
End decoding.

Definition returned (altslash c : Z) : Z := decode_map altslash (fst (encode_map altslash c)).

Section roundtrip.
Context (altslash buflen : Z) (Halt : 1 <= altslash < 0x80).

Lemma encode_map_range c : unichar c -> 1 <= fst (encode_map altslash c) < 2 ^ 16.
Proof.
  intros Hc. unfold encode_map, unichar, UCS_ALT_NULL in *.
  rewrite (proj2 (Z.eqb_neq altslash 0)) by lia. simpl. case_ztests.
Qed.

Lemma returned_id c : c <> altslash -> c <> UCS_ALT_NULL -> returned altslash c = c.
Proof.
  intros H1 H2. unfold returned, encode_map, decode_map, UCS_ALT_NULL in *.
  case_ztests; repeat case_match; simpl in *; lia.
Qed.

(** A surrogate is not changed. *)
Lemma surrogate_returned c : 0xD800 <= c <= 0xDFFF -> returned altslash c = c /\ fst (encode_map altslash c) = c.
Proof.
  intros Hc. split; [apply returned_id; unfold UCS_ALT_NULL; lia|]. unfold encode_map.
  by rewrite (proj2 (Z.eqb_neq c 0x2F)), (proj2 (Z.eqb_neq c 0)) by lia.
Qed.

Lemma decode_utf8_of n ucs out :
  (length ucs <= n)%nat -> Forall unichar ucs -> room buflen out (Z.of_nat (length ucs)) ->
  decode_loop false false false altslash buflen (utf8_of altslash ucs) out
    = Ok (0, out ++ map (returned altslash) ucs).
Proof.
  revert ucs out. induction n as [|n IH]; intros ucs out Hn Hu Hr;
    (destruct Hu as [|c ucs Hc Hu]; [by rewrite app_nil_r|]); simpl in Hn; [lia|].
  assert (room buflen out 1) as Hr1 by (unfold room in *; simpl in Hr; lia).
  assert (forall x, room buflen (out ++ [x]) (Z.of_nat (length ucs))) as Hr2
    by (intros x; unfold room in *; rewrite length_app; simpl in *; lia).
  pose proof (encode_map_range c Hc) as Hc'. cbn [utf8_of map].
  rewrite (cons_middle (returned altslash c) out), app_assoc by idtac.
  unfold returned at 1. set (c' := fst (encode_map altslash c)) in *.
  destruct (Z.ltb_spec c' 0x80); [rewrite decode_1, IH by (done || lia); done|].
  destruct (Z.ltb_spec c' 0x800); [rewrite decode_2, IH by (done || lia); done|].
  destruct (is_high c') eqn:Hh; [|rewrite decode_3, IH by (done || lia); done].
  destruct ucs as [|c2 ucs]; [rewrite <- (app_nil_r (utf8_3 c')), decode_3 by (done || lia); by rewrite app_nil_r|].
  destruct (is_low c2) eqn:Hl; [|rewrite decode_3, IH by (done || lia); done].
  apply Forall_cons in Hu as [Hc2 Hu].
  rewrite decode_4 by (done || (unfold room in *; simpl in Hr; lia)).
  rewrite IH; [|simpl in Hn; lia|done|unfold room in *; rewrite length_app; simpl in *; lia].
  assert (decode_map altslash c' = c') as ->.
  { destruct (surrogate_returned c') as [E1 E2]; [unfold is_high, SP_HIGH_FIRST, SP_HIGH_LAST in Hh; lia|].
    unfold returned in E1. by rewrite E2 in E1. }
  cbn [map]. rewrite (proj1 (surrogate_returned c2 ltac:(unfold is_low, SP_LOW_FIRST, SP_LOW_LAST in Hl; lia))).
  by rewrite <- !app_assoc.
Qed.
End roundtrip.

(** ** The length of the encoding *)

(** Every surrogate is one of a pair. *)
Fixpoint paired (ucs : list Z) : bool :=
  match ucs with
  | [] => true
  | c :: ucs' =>
      if is_high c then match ucs' with c2 :: ucs'' => is_low c2 && paired ucs'' | [] => false end
      else negb (is_low c) && paired ucs'
  end.

Lemma land_f800 c : unichar c -> Z.land c 0xf800 = 2048 * (c / 2048).
Proof.
  intros Hc. unfold unichar in Hc. apply Z.bits_inj'. intros i Hi. rewrite Z.land_spec.
  change 0xf800 with (31 * 2 ^ 11). rewrite Z.mul_comm. change 2048 with (2 ^ 11).
  destruct (decide (i < 11)) as [Hlo|Hlo].
  { rewrite (Z.mul_comm (2 ^ 11) 31), (Z.mul_comm (2 ^ 11) (c / _)), !Z.mul_pow2_bits_low by lia.
    apply andb_false_r. }
  rewrite (Z.mul_comm (2 ^ 11) 31), (Z.mul_comm (2 ^ 11) (c / _)), !Z.mul_pow2_bits by lia.
  rewrite Z.div_pow2_bits, Z.sub_add by lia. change 31 with (Z.ones 5).
  destruct (decide (i < 16)) as [Hhi|Hhi].
  - rewrite Z.ones_spec_low by lia. apply andb_true_r.
  - by rewrite (testbit_high 16 c) by lia.
Qed.

Lemma UNICODE_TO_UTF8_LEN_eq c :
  unichar c -> UNICODE_TO_UTF8_LEN c =
    if c <? 0x80 then 1 else if c <? 0x800 then 2 else if is_high c || is_low c then 2 else 3.
Proof.
  intros Hc. unfold UNICODE_TO_UTF8_LEN. rewrite land_f800 by done.
  unfold is_high, is_low, SP_HIGH_FIRST, SP_HIGH_LAST, SP_LOW_FIRST, SP_LOW_LAST.
  case_ztests; try done; Z.to_euclidean_division_equations; lia.
Qed.

Section lengths.
Context (altslash : Z) (Halt : 1 <= altslash < 0x80).

Definition char_len (c : Z) : Z := UNICODE_TO_UTF8_LEN (fst (encode_map altslash c)).

Lemma encodelen_sum ucs : utf8_encodelen ucs altslash 0 = foldr (fun c n => char_len c + n) 0 ucs.
Proof.
  unfold utf8_encodelen. cbn [has_flag swap_if]. change (has_flag 0 UTF_REVERSE_ENDIAN) with false.
  cbn [swap_if]. fold char_len.
  assert (forall a, foldl (fun len c => len + char_len c) a ucs
            = a + foldr (fun c n => char_len c + n) 0 ucs) as H; [|apply (H 0)].
  induction ucs as [|c ucs IH]; intros a; simpl; [lia|]. rewrite IH. lia.
Qed.

Lemma char_len_surrogate c : 0xD800 <= c <= 0xDFFF -> char_len c = 2 /\ fst (encode_map altslash c) = c.
Proof.
  intros Hc. destruct (surrogate_returned altslash Halt c Hc) as [_ E]. unfold char_len. rewrite E.
  split; [|done]. rewrite UNICODE_TO_UTF8_LEN_eq by (unfold unichar; lia).
  unfold is_high, is_low, SP_HIGH_FIRST, SP_HIGH_LAST, SP_LOW_FIRST, SP_LOW_LAST. case_ztests; done.
Qed.

Lemma encode_map_surrogate c :
  is_high (fst (encode_map altslash c)) = is_high c /\ is_low (fst (encode_map altslash c)) = is_low c.
Proof.
  unfold encode_map. destruct (Z.eqb_spec c 0x2F) as [->|]; [|by destruct (Z.eqb_spec c 0) as [->|]].
  rewrite (proj2 (Z.eqb_neq altslash 0)) by lia. simpl.
  unfold is_high, is_low, SP_HIGH_FIRST, SP_HIGH_LAST, SP_LOW_FIRST, SP_LOW_LAST. case_ztests; done.
Qed.

Lemma encodelen_paired n ucs :
  (length ucs <= n)%nat -> Forall unichar ucs -> paired ucs = true ->
  utf8_encodelen ucs altslash 0 = Z.of_nat (length (utf8_of altslash ucs)).
Proof.
  rewrite encodelen_sum. revert ucs. induction n as [|n IH]; intros ucs Hn Hu Hp;
    (destruct Hu as [|c ucs Hc Hu]; [done|]); simpl in Hn; [lia|].
  cbn [utf8_of foldr paired] in *. pose proof (encode_map_range altslash Halt c Hc) as Hr.
  assert (unichar (fst (encode_map altslash c))) as Hu' by (unfold unichar; lia).
  unfold char_len at 1. rewrite (UNICODE_TO_UTF8_LEN_eq _ Hu').
  destruct (encode_map_surrogate c) as [-> ->]. destruct (is_high c) eqn:Hh.
  - destruct (char_len_surrogate c) as [_ Ec].
    { unfold is_high, SP_HIGH_FIRST, SP_HIGH_LAST in Hh. lia. }
    rewrite Ec in *. unfold is_high, SP_HIGH_FIRST, SP_HIGH_LAST in Hh.
    rewrite (proj2 (Z.ltb_ge c 0x80)), (proj2 (Z.ltb_ge c 0x800)) by lia.
    destruct ucs as [|c2 ucs]; [done|]. apply andb_true_iff in Hp as [Hl Hp]. rewrite Hl.
    apply Forall_cons in Hu as [_ Hu]. cbn [foldr].
    rewrite (proj1 (char_len_surrogate c2 ltac:(unfold is_low, SP_LOW_FIRST, SP_LOW_LAST in Hl; lia))).
    rewrite IH by (done || (simpl in Hn; lia)). cbn [orb]. rewrite length_app. simpl. lia.
  - apply andb_true_iff in Hp as [Hl Hp]. rewrite IH by (done || lia).
    apply negb_true_iff in Hl.
    rewrite Hl. cbn [orb].
    case_ztests; rewrite ?length_app; simpl; lia.
Qed.
End lengths.

(** ** Decomposition *)

(** [c] decomposes into one to four characters that do not decompose further. *)
Definition decomposes_fully (c : Z) : bool :=
  match unicode_decompose c with
  | Ok l => (1 <=? Z.of_nat (length l)) && (Z.of_nat (length l) <=? 4)
            && forallb (fun x => match unicode_decomposeable x with Ok b => negb b | _ => false end) l
  | _ => false
  end.
Definition decomposable_ok (c : Z) : bool :=
  match unicode_decomposeable c with
  | Ok true => decomposes_fully c
  | Ok false => true
  | _ => false
  end.

(** The blocks of 256 characters with no decomposable one and those of Hangul need
    no enumeration. *)
Definition block_ok (hi : Z) : bool :=
  match array_at __CFUniCharDecomposableBitmap hi with
  | Ok v => (v =? 0) || ((0xAC <=? hi) && (hi <? 0xD7))
            || forallb (fun lo => decomposable_ok (256 * hi + lo)) (seqZ 0 256)
  | _ => false
  end.
Lemma blocks_ok : forallb block_ok (seqZ 0 256) = true.
Proof. vm_compute. reflexivity. Qed.

Lemma char_block c : unichar c -> Z.land (Z.shiftr c 8) 0xFF = c / 256.
Proof.
  intros Hc. unfold unichar in Hc. rewrite Z.shiftr_div_pow2 by lia. change 0xFF with (Z.ones 8).
  rewrite Z.land_ones by lia. change (2 ^ 8) with 256. apply Z.mod_small.
  Z.to_euclidean_division_equations. lia.
Qed.

(** The parts of a Hangul syllable lie in blocks 0x11, whose bitmap is empty. *)
Lemma jamo_not_decomposable c : 0x1100 <= c < 0x1200 -> unicode_decomposeable c = Ok false.
Proof.
  intros Hc. unfold unicode_decomposeable, bitmap_test. rewrite (proj2 (Z.ltb_ge c 0xC0)) by lia.
  rewrite Z.shiftr_div_pow2 by lia. change (2 ^ 8) with 256.
  replace (c / 256) with 17 by (Z.to_euclidean_division_equations; lia). reflexivity.
Qed.

Lemma hangul_decompose c :
  HANGUL_SBASE <= c < HANGUL_SBASE + HANGUL_SCOUNT ->
  exists l v t, 0 <= l < HANGUL_LCOUNT /\ 0 <= v < HANGUL_VCOUNT /\ 0 <= t < HANGUL_TCOUNT /\
    c = HANGUL_SBASE + (l * HANGUL_VCOUNT + v) * HANGUL_TCOUNT + t /\
    unicode_decompose c = Ok ([l + HANGUL_LBASE; v + HANGUL_VBASE] ++ if t =? 0 then [] else [t + HANGUL_TBASE]).
Proof.
  unfold HANGUL_SBASE, HANGUL_SCOUNT, HANGUL_LCOUNT, HANGUL_VCOUNT, HANGUL_TCOUNT. intros Hc.
  set (s := c - 0xAC00). exists (s / 588), ((s mod 588) / 28), (s mod 28).
  repeat split; try (unfold s; Z.to_euclidean_division_equations; lia).
  unfold unicode_decompose, HANGUL_SBASE, HANGUL_SCOUNT, HANGUL_NCOUNT, HANGUL_VCOUNT, HANGUL_TCOUNT.
  rewrite (proj2 (Z.leb_le 0xAC00 c)), (proj2 (Z.leb_le c _)) by lia. done.
Qed.

Lemma decomposable_complete c :
  unichar c -> unicode_decomposeable c = Ok true -> decomposes_fully c = true.
Proof.
  intros Hc Hd. unfold unichar in Hc.
  destruct (decide (HANGUL_SBASE <= c < HANGUL_SBASE + HANGUL_SCOUNT)) as [Hh|Hh].
  { destruct (hangul_decompose c Hh) as (l & v & t & Hl & Hv & Ht & _ & E).
    unfold decomposes_fully. rewrite E.
    unfold HANGUL_LCOUNT, HANGUL_VCOUNT, HANGUL_TCOUNT, HANGUL_LBASE, HANGUL_VBASE, HANGUL_TBASE in *.
    destruct (t =? 0); simpl; rewrite !jamo_not_decomposable by lia; done. }
  pose proof blocks_ok as Hb. rewrite forallb_forall in Hb.
  assert (0 <= c / 256 < 256) as Hhi by (Z.to_euclidean_division_equations; lia).
  specialize (Hb (c / 256)). rewrite <- list_elem_of_In, elem_of_seqZ in Hb. specialize (Hb ltac:(lia)).
  unfold block_ok in Hb. pose proof Hd as Hd'. unfold unicode_decomposeable, bitmap_test in Hd.
  destruct (Z.ltb_spec c 0xC0); [done|]. rewrite char_block in Hd by done.
  destruct (array_at __CFUniCharDecomposableBitmap (c / 256)) as [x| | |]; try done.
  cbn [mbind outcome_bind] in Hd. destruct (Z.eqb_spec x 0) as [Ex|Hx]; [by rewrite Ex in Hd|]. clear Hd.
  unfold HANGUL_SBASE, HANGUL_SCOUNT in Hh. rewrite orb_false_l in Hb. apply orb_true_iff in Hb as [Hb|Hb].
  - apply andb_true_iff in Hb. rewrite Z.leb_le, Z.ltb_lt in Hb. exfalso.
    Z.to_euclidean_division_equations. lia.
  - rewrite forallb_forall in Hb. specialize (Hb (c mod 256)).
    rewrite <- list_elem_of_In, elem_of_seqZ in Hb. pose proof (Z.mod_pos_bound c 256).
    specialize (Hb ltac:(lia)). rewrite <- Z.div_mod in Hb by lia.
    unfold decomposable_ok in Hb. by rewrite Hd' in Hb.
Qed.

(** ** Properties *)

Lemma has_flag_0 f : has_flag 0 f = false.
Proof. unfold has_flag. by rewrite Z.land_0_l. Qed.

Lemma utf8_encodestr_spec ucs buflen altslash :
  1 <= buflen ->
  exists result out t,
    utf8_encodestr ucs buflen altslash 0 = Ok (result, out ++ [0], Z.of_nat (length out)) /\
    utf8_of altslash ucs = out ++ t /\ Z.of_nat (length (out ++ [0])) <= buflen /\
    (t = [] /\ (result = 0 \/ altslash = 0 /\ result = EINVAL) \/
     result = ENAMETOOLONG /\ buflen < Z.of_nat (length (utf8_of altslash ucs)) + 1).
Proof.
  intros Hb. unfold utf8_encodestr. rewrite !has_flag_0. simpl negb. cbv iota. cbn [andb]. rewrite (proj2 (Z.ltb_ge buflen 1) Hb).
  destruct (encode_loop_spec altslash (buflen - 1) (8 * length ucs + 1) ucs [] 0)
    as (out & result & -> & Hlen & Hcase); [lia|].
  cbn [mbind outcome_bind app]. destruct Hcase as [[Hr ->]|(-> & Hcap & t & Ht)].
  - exists result, (utf8_of altslash ucs), []. split; [done|]. split; [by rewrite app_nil_r|].
    split; [rewrite length_app; destruct Hlen as [->|]; simpl in *; lia|]. by left.
  - exists ENAMETOOLONG, out, t. split; [done|]. split; [done|].
    split; [rewrite length_app; destruct Hlen as [->|]; simpl in *; lia|]. right.
    split; [done|simpl in Hcap; lia].
Qed.

(** [utf8_encodestr] without decomposition always returns.  It writes the UTF-8
    form of the name, or ENAMETOOLONG and as many whole characters of it as fit, and a
    NUL; never more than [buflen] bytes. *)
Theorem utf8_encodestr_correct ucs buflen altslash :
  1 <= buflen ->
  exists result out t,
    utf8_encodestr ucs buflen altslash 0 = Ok (result, out ++ [0], Z.of_nat (length out)) /\
    utf8_of altslash ucs = out ++ t /\ Z.of_nat (length (out ++ [0])) <= buflen /\
    (t = [] /\ (result = 0 \/ altslash = 0 /\ result = EINVAL) \/
     result = ENAMETOOLONG /\ buflen < Z.of_nat (length (utf8_of altslash ucs)) + 1).
Proof. apply utf8_encodestr_spec. Qed.

Lemma utf8_encodestr_witness :
  exists out, utf8_encodestr [0x48; 0xE9; 0x20AC] 4 58 0 = Ok (ENAMETOOLONG, out ++ [0], 3) /\
    out = [0x48; 0xC3; 0xA9] /\ Z.of_nat (length (out ++ [0])) <= 4.
Proof.
  destruct (utf8_encodestr_correct [0x48; 0xE9; 0x20AC] 4 58 ltac:(lia)) as (r & out & t & E & _ & Hl & _).
  exists out. assert (utf8_encodestr [0x48; 0xE9; 0x20AC] 4 58 0 = Ok (ENAMETOOLONG, [0x48; 0xC3; 0xA9; 0], 3))
    as E' by (vm_compute; reflexivity).
  rewrite E' in E. injection E as <- Eo _. change [0x48; 0xC3; 0xA9; 0] with ([0x48; 0xC3; 0xA9] ++ [0]) in Eo.
  apply app_inj_tail in Eo as [<- _]. split; [exact E'|]. split; [reflexivity|exact Hl].
Defined.

(** C38: with no flags set (no decomposition, no swapping) decoding undoes encoding: a name
    of 16-bit characters without the replacement characters (the one for a slash, U+2400 for
    a NUL) that was encoded without an error comes back as it was, lone surrogates included,
    when the buffer to decode into has room for it. *)
Theorem utf8_roundtrip ucs altslash buflen buflen' bytes n :
  1 <= altslash < 0x80 -> Forall unichar ucs -> Forall (fun c => c <> altslash /\ c <> UCS_ALT_NULL) ucs ->
  1 <= buflen -> 2 * Z.of_nat (length ucs) <= buflen' ->
  utf8_encodestr ucs buflen altslash 0 = Ok (0, bytes, n) ->
  utf8_decodestr (take (Z.to_nat n) bytes) buflen' altslash 0 = Ok (0, ucs).
Proof.
  intros Halt Hu Hno Hb Hb' E. unfold utf8_encodestr in E. rewrite !has_flag_0 in E. simpl negb in E. cbv iota in E.
  cbn [andb] in E. rewrite (proj2 (Z.ltb_ge buflen 1) Hb) in E.
  destruct (encode_loop_spec altslash (buflen - 1) (8 * length ucs + 1) ucs [] 0)
    as (out & result & Heq & _ & Hcase); [lia|]. rewrite Heq in E. cbn [mbind outcome_bind app] in E.
  injection E as -> <- <-. rewrite Nat2Z.id, take_app_length.
  destruct Hcase as [[_ ->]|[? _]]; [|done]. unfold utf8_decodestr. rewrite !has_flag_0.
  rewrite (decode_utf8_of altslash buflen' Halt (length ucs)) by (done || unfold room; simpl; lia).
  simpl. do 2 f_equal. rewrite <- (list_fmap_id ucs) at 2. apply list_fmap_ext. intros i c Hi.
  apply (Forall_lookup_1 _ _ _ _ Hno) in Hi as [? ?]. by apply returned_id.
Qed.

Lemma utf8_roundtrip_witness :
  utf8_decodestr [0x41; 0x3A; 0xE2; 0x90; 0x80; 0xF0; 0x9F; 0x98; 0x80] 100 58 0
    = Ok (0, [0x41; 0x2F; 0; 0xD83D; 0xDE00]).
Proof.
  refine (utf8_roundtrip [0x41; 0x2F; 0; 0xD83D; 0xDE00] 58 100 100
            [0x41; 0x3A; 0xE2; 0x90; 0x80; 0xF0; 0x9F; 0x98; 0x80; 0] 9 _ _ _ _ _ _).
  - lia.
  - repeat (constructor; [unfold unichar; lia|]). constructor.
  - repeat (constructor; [unfold UCS_ALT_NULL; lia|]). constructor.
  - lia.
  - simpl. lia.
  - vm_compute. reflexivity.
Defined.

(** C39: [utf8_encodelen] is the number of bytes of the encoding, when every surrogate of
    the name is one of a pair. *)
Theorem utf8_encodelen_correct ucs altslash :
  1 <= altslash < 0x80 -> Forall unichar ucs -> paired ucs = true ->
  utf8_encodelen ucs altslash 0 = Z.of_nat (length (utf8_of altslash ucs)).
Proof. intros. by apply encodelen_paired with (length ucs). Qed.

Lemma utf8_encodelen_witness : utf8_encodelen [0x41; 0x20AC; 0xD83D; 0xDE00] 58 0 = 8.
Proof.
  apply (utf8_encodelen_correct [0x41; 0x20AC; 0xD83D; 0xDE00] 58); [lia| |vm_compute; reflexivity].
  repeat (constructor; [unfold unichar; lia|]). constructor.
Defined.

(** A lone surrogate is encoded in three bytes, but [utf8_encodelen] counts two for
    it, so that the name does not fit the buffer a caller allocates with that length. *)
Theorem utf8_encodelen_lone_surrogate c altslash :
  0xD800 <= c <= 0xDFFF -> 1 <= altslash < 0x80 ->
  utf8_encodelen [c] altslash 0 = 2 /\ length (utf8_of altslash [c]) = 3%nat /\
  utf8_encodestr [c] (1 + utf8_encodelen [c] altslash 0) altslash 0 = Ok (ENAMETOOLONG, [0], 0).
Proof.
  intros Hc Halt. destruct (char_len_surrogate altslash Halt c Hc) as [Hl He].
  assert (utf8_encodelen [c] altslash 0 = 2) as Hlen by (rewrite encodelen_sum; simpl; lia).
  assert (utf8_of altslash [c] = utf8_3 c) as Hof.
  { cbn [utf8_of]. rewrite He, (proj2 (Z.ltb_ge c 0x80)), (proj2 (Z.ltb_ge c 0x800)) by lia.
    destruct (is_high c); [done|by rewrite app_nil_r]. }
  split; [done|]. split; [by rewrite Hof|]. rewrite Hlen. unfold utf8_encodestr. rewrite !has_flag_0.
  destruct (encode_loop_step altslash 2 8 c [] [] 0) as (bytes & ucs' & _ & Hl' & Heq & Hst).
  destruct ucs'; [|simpl in Hl'; lia]. rewrite app_nil_r, Hof in Heq. subst bytes.
  change (8 * length [c] + 1)%nat with 9%nat. cbn [negb]. change (1 + 2 - 1) with 2. rewrite Hst. done.
Qed.

Lemma utf8_encodelen_lone_witness : utf8_encodelen [0xD800] 58 0 = 2.
Proof. exact (proj1 (utf8_encodelen_lone_surrogate 0xD800 58 ltac:(lia) ltac:(lia))). Defined.

(** The binary searches in the decomposition and composition tables find the value
    of a key, and 0 when there is none. *)
Theorem getmappedvalue_correct theTable c :
  theTable <> [] -> StronglySorted key_lt theTable ->
  getmappedvalue16 theTable (Z.of_nat (length theTable)) c = Ok (assoc theTable c) /\
  getmappedvalue32 theTable (Z.of_nat (length theTable)) c = Ok (assoc theTable c).
Proof. intros. split; by apply getmappedvalue_assoc. Qed.

Lemma getmappedvalue_witness :
  getmappedvalue16 decomposition_table 970 0x1E09 = Ok (assoc decomposition_table 0x1E09) /\
  getmappedvalue16 decomposition_table 970 0x41 = Ok 0.
Proof.
  replace 970 with (Z.of_nat (length decomposition_table)) by (vm_compute; reflexivity).
  destruct (getmappedvalue_correct decomposition_table 0x1E09) as [H1 _];
    [discriminate|apply decomposition_table_sorted|].
  destruct (getmappedvalue_correct decomposition_table 0x41) as [H2 _];
    [discriminate|apply decomposition_table_sorted|].
  rewrite H1, H2. split; [reflexivity|vm_compute; reflexivity].
Defined.

(** Every character marked as decomposable has a decomposition: one to four
    characters, which fit the callers' buffers of eight, none of them decomposable
    itself. *)
Theorem unicode_decompose_correct c :
  unichar c -> unicode_decomposeable c = Ok true ->
  exists l, unicode_decompose c = Ok l /\ (1 <= length l <= 4)%nat /\
    Forall (fun x => unicode_decomposeable x = Ok false) l.
Proof.
  intros Hc Hd. pose proof (decomposable_complete c Hc Hd) as H. unfold decomposes_fully in H.
  destruct (unicode_decompose c) as [l| | |]; try done. exists l. split; [done|].
  apply andb_true_iff in H as [[H1 H2]%andb_true_iff H3]. rewrite Z.leb_le in H1, H2. split; [lia|].
  rewrite forallb_forall in H3. apply Forall_forall. intros x Hx%list_elem_of_In. specialize (H3 x Hx).
  by destruct (unicode_decomposeable x) as [[]| | |].
Qed.

(** U+1E09 (c with cedilla and acute) goes through U+00E7. *)
Lemma unicode_decompose_witness :
  exists l, unicode_decompose 0x1E09 = Ok l /\ l = [0x63; 0x327; 0x301] /\
    Forall (fun x => unicode_decomposeable x = Ok false) l.
Proof.
  destruct (unicode_decompose_correct 0x1E09) as (l & E & _ & H);
    [unfold unichar; lia|vm_compute; reflexivity|].
  exists l. split; [exact E|]. split; [|exact H]. vm_compute in E. by injection E as <-.
Defined.

(** Composing the parts of a Hangul syllable gives the syllable back. *)
Theorem hangul_roundtrip c :
  HANGUL_SBASE <= c < HANGUL_SBASE + HANGUL_SCOUNT ->
  (exists l v, unicode_decompose c = Ok [l; v] /\ unicode_combine l v = Ok c) \/
  (exists l v t lv, unicode_decompose c = Ok [l; v; t] /\ unicode_combine l v = Ok lv /\
     unicode_combine lv t = Ok c).
Proof.
  intros Hc. destruct (hangul_decompose c Hc) as (l & v & t & Hl & Hv & Ht & -> & ->).
  unfold HANGUL_SBASE, HANGUL_SCOUNT, HANGUL_LCOUNT, HANGUL_VCOUNT, HANGUL_TCOUNT, HANGUL_LBASE,
    HANGUL_VBASE, HANGUL_TBASE in *.
  assert (hangul_combine (l + 0x1100) (v + 0x1161) = Some (0xAC00 + (l * 21 + v) * 28)) as Hlv.
  { unfold hangul_combine, HANGUL_SBASE, HANGUL_LCOUNT, HANGUL_VCOUNT, HANGUL_TCOUNT, HANGUL_LBASE,
      HANGUL_VBASE, HANGUL_TBASE.
    rewrite (proj2 (Z.leb_le 0x1161 _)), (proj2 (Z.ltb_lt (v + 0x1161) (0x11A7 + 28))),
      (proj2 (Z.ltb_lt (v + 0x1161) (0x1161 + 21))), (proj2 (Z.leb_le 0x1100 _)),
      (proj2 (Z.ltb_lt (l + 0x1100) _)) by lia.
    simpl. f_equal. rewrite u16_small; lia. }
  destruct (Z.eqb_spec t 0) as [->|Hne]; [left|right].
  - exists (l + 0x1100), (v + 0x1161). split; [done|]. unfold unicode_combine. rewrite Hlv. f_equal. lia.
  - exists (l + 0x1100), (v + 0x1161), (t + 0x11A7), (0xAC00 + (l * 21 + v) * 28). split; [done|].
    split; [unfold unicode_combine; by rewrite Hlv|]. unfold unicode_combine.
    assert (hangul_combine (0xAC00 + (l * 21 + v) * 28) (t + 0x11A7)
              = Some (0xAC00 + (l * 21 + v) * 28 + t)) as ->; [|done].
    unfold hangul_combine, HANGUL_SBASE, HANGUL_LCOUNT, HANGUL_VCOUNT, HANGUL_TCOUNT, HANGUL_LBASE,
      HANGUL_VBASE, HANGUL_TBASE, HANGUL_SCOUNT.
    rewrite (proj2 (Z.leb_le 0x1161 (t + 0x11A7))), (proj2 (Z.ltb_lt (t + 0x11A7) (0x11A7 + 28))),
      (proj2 (Z.ltb_ge (t + 0x11A7) (0x1161 + 21))), (proj2 (Z.ltb_lt 0x11A7 (t + 0x11A7))),
      (proj2 (Z.leb_le 0xAC00 (_ + (l * 21 + v) * 28))),
      (proj2 (Z.ltb_lt (_ + (l * 21 + v) * 28) (0xAC00 + 11172))) by lia.
    simpl. replace (0xAC00 + (l * 21 + v) * 28 - 0xAC00) with ((l * 21 + v) * 28) by lia.
    rewrite Z.mod_mul by lia. simpl. rewrite u16_small; [|lia]. f_equal. lia.
Qed.

Lemma hangul_witness : exists lv, unicode_combine 0x1100 0x1161 = Ok lv /\ unicode_combine lv 0x11A8 = Ok 0xAC01.
Proof.
  destruct (hangul_roundtrip 0xAC01) as [(l & v & E & _)|(l & v & t & lv & E & H1 & H2)];
    [unfold HANGUL_SBASE, HANGUL_SCOUNT; lia|discriminate E|].
  assert (l = 0x1100 /\ v = 0x1161 /\ t = 0x11A8) as (-> & -> & ->)
    by (vm_compute in E; injection E as <- <- <-; done).
  exists lv. split; [exact H1|exact H2].
Defined.

(** [utf8_decodestr] does not look at the high bits of the bytes that follow a lead
    byte: a two-byte sequence whose second byte is ASCII, which is malformed UTF-8, is
    taken for a character instead of being refused with EINVAL. *)
Theorem utf8_decodestr_malformed b1 b2 :
  0xC3 <= b1 < 0xE0 -> 0x40 <= b2 < 0x80 ->
  utf8_decodestr [b1; b2] 4 58 0 = Ok (0, [(b1 - 0xC2) * 64 + b2]).
Proof.
  intros H1 H2. unfold utf8_decodestr. rewrite !has_flag_0. cbn [decode_loop].
  change (ucs_full 4 []) with false.
  rewrite (proj2 (Z.eqb_neq b1 0)), (proj2 (Z.ltb_ge b1 0x80)), (extrabytes_at b1 1) by lia.
  cbn [mbind outcome_bind]. change (1 <? 0) with false. change (Z.of_nat (length [b2]) <? 1) with false.
  change (1 =? 1) with true. cbn [orb]. cbv iota.
  rewrite Z.shiftl_mul_pow2 by lia. change (2 ^ 6) with 64.
  rewrite (u32_small (b1 * 64 + b2)), u32_small by lia.
  replace (b1 * 64 + b2 - 0x3080) with ((b1 - 0xC2) * 64 + b2) by lia.
  rewrite (proj2 (Z.ltb_ge _ 0x80)), u16_small by lia. unfold put_char, UCS_ALT_NULL.
  rewrite (proj2 (Z.eqb_neq _ 0x2400)), (proj2 (Z.eqb_neq _ 58)) by lia. done.
Qed.

Lemma utf8_decodestr_malformed_witness : utf8_decodestr [0xC3; 0x41] 4 58 0 = Ok (0, [0x81]).
Proof. exact (utf8_decodestr_malformed 0xC3 0x41 ltac:(lia) ltac:(lia)). Defined.
