(* ===== verification/NameMangling.v ===== *)
(** * Mangled names (hfsplus/hfscommon/Unicode/UnicodeWrappers.c)

    A name that is too long in UTF-8 is cut and given its file ID as a suffix, in front
    of the extension: "longna#1A2B.txt".  [ConvertUnicodeToUTF8Mangled] makes such a
    name, [GetEmbeddedFileID] reads the ID back.  C strings are the lists of their
    bytes without the NUL. *)
From S2P Require Import Prelude Bits UtfConv.

Definition kMaxFileExtensionChars : Z := 5.

Definition EXTENSIONCHAR (c : Z) : bool :=
  (0x61 <=? c) && (c <=? 0x7A) || (0x41 <=? c) && (c <=? 0x5A) || (0x30 <=? c) && (c <=? 0x39).
Definition IsHexDigit (c : Z) : bool :=
  (0x30 <=? c) && (c <=? 0x39) || (0x41 <=? c) && (c <=? 0x46).

(** "0123456789ABCDEF" *)
Definition translate : list Z :=
  [0x30; 0x31; 0x32; 0x33; 0x34; 0x35; 0x36; 0x37; 0x38; 0x39; 0x41; 0x42; 0x43; 0x44; 0x45; 0x46].

(** The loop of [GetFileIDString]: [bs] are the values of [b] to come, [i] the number of
    digits written. *)
Fixpoint id_loop (fileID : Z) (bs : list Z) (i : Z) : outcome (list Z) :=
  match bs with
  | [] => Ok []
  | b :: bs =>
      c ← array_at translate (Z.land (Z.shiftr fileID b) 0xF);
      if negb (c =? 0x30) || (1 <? i) || (b =? 0)
      then rest ← id_loop fileID bs (i + 1); Ok (c :: rest)
      else id_loop fileID bs i
  end.

Definition GetFileIDString (fileID : Z) : outcome (list Z) :=
  digits ← id_loop fileID [28; 24; 20; 16; 12; 8; 4; 0] 0; Ok (0x23 :: digits).

(** The backward loop [while (extChars <= maxExtChars)] of [GetFilenameExtension] and
    [CountFilenameExtensionChars]: where the dot is, and the number of characters behind
    it.  [rounds] is the number of turns left. *)
Fixpoint scan_ext (rounds : nat) (str : list Z) (i : nat) (extChars : Z)
  : outcome (option (nat * Z)) :=
  match rounds with
  | O => Ok None
  | S rounds =>
      match i with
      | O => Fault
      | S i =>
          c ← of_option (str !! i);
          if c =? 0x2E then Ok (if 0 <? extChars then Some (i, extChars) else None)
          else if EXTENSIONCHAR c then scan_ext rounds str i (extChars + 1)
          else Ok None
      end
  end.

Definition max_ext_chars (length : Z) : Z :=
  if length <? kMaxFileExtensionChars + 2 then length - 2 else kMaxFileExtensionChars.

Definition GetFilenameExtension (unicodeStr : list Z) : outcome (list Z) :=
  let len := Z.of_nat (length unicodeStr) in
  if len <? 3 then Ok []
  else
    found ← scan_ext (Z.to_nat (max_ext_chars len + 1)) unicodeStr (length unicodeStr) 0;
    match found with
    | None => Ok []
    | Some (i, extChars) => Ok (map u8 (take (Z.to_nat (extChars + 1)) (drop i unicodeStr)))
    end.

Definition CountFilenameExtensionChars (filename : list Z) : outcome Z :=
  let len := Z.of_nat (length filename) in
  if len <? 3 then Ok 0
  else
    found ← scan_ext (Z.to_nat (max_ext_chars len + 1)) filename (length filename) 0;
    match found with
    | None => Ok 0
    | Some (_, extChars) => Ok extChars
    end.

Fixpoint hex_loop (hexStr : list Z) (value : Z) : Z :=
  match hexStr with
  | [] => value
  | c :: hexStr =>
      if (0x30 <=? c) && (c <=? 0x39) then hex_loop hexStr (u32 (u32 (Z.shiftl value 4) + (c - 0x30)))
      else if (0x41 <=? c) && (c <=? 0x46)
      then hex_loop hexStr (u32 (u32 (Z.shiftl value 4) + (10 + (c - 0x41))))
      else 0
  end.
Definition HexStringToInteger (hexStr : list Z) : Z := hex_loop hexStr 0.

(** "scan for file id digits": the loop from index [i - 1] down, over the first [length]
    characters. *)
Fixpoint scan_id (filename : list Z) (len : Z) (i : nat) : outcome (Z * Z) :=
  match i with
  | O => Ok (0, 0)
  | S i =>
      c ← of_option (filename !! i);
      if c =? 0x23 then
        if len - Z.of_nat i <? 3 then Ok (0, 0)
        else Ok (HexStringToInteger (take (Z.to_nat (len - Z.of_nat i - 1)) (drop (S i) filename)),
                 Z.of_nat i)
      else if negb (IsHexDigit c) then Ok (0, 0)
      else scan_id filename len i
  end.

(** The file ID and [*prefixLength]. *)
Definition GetEmbeddedFileID (filename : list Z) : outcome (Z * Z) :=
  let len := Z.of_nat (length filename) in
  if len <? 28 then Ok (0, 0)
  else
    extChars ← (if 5 <? len then CountFilenameExtensionChars filename else Ok 0);
    let extChars := s16 extChars in
    let len := if 0 <? extChars then len - (extChars + 1) else len in
    scan_id filename len (Z.to_nat (s16 (len - 1) + 1)).

(** The name and [*actualDstLen]; the NUL that ends it is not part of the list. *)
Definition ConvertUnicodeToUTF8Mangled (src : list Z) (maxDstLen cnid : Z)
  : outcome (list Z * Z) :=
  fileIDStr ← GetFileIDString cnid;
  extStr ← GetFilenameExtension src;
  let srcLen := (length src - length extStr)%nat in
  let tail_len := Z.of_nat (length extStr + length fileIDStr) in
  let subMaxLen := u64 (maxDstLen - tail_len) in
  '(_, dst, utf8len) ← utf8_encodestr (take srcLen src) subMaxLen 0x3A 0;
  Ok (take (Z.to_nat utf8len) dst ++ fileIDStr ++ extStr, utf8len + tail_len).

(** ** Hexadecimal digits *)

Definition nibble (fileID b : Z) : Z := Z.land (Z.shiftr fileID b) 0xF.
Definition hex_char (d : Z) : Z := if d <? 10 then 0x30 + d else 0x41 + (d - 10).

Lemma nibble_range fileID b : 0 <= nibble fileID b < 16.
Proof. unfold nibble. change 0xF with (Z.ones 4). rewrite Z.land_ones by lia. by apply Z.mod_pos_bound. Qed.

Lemma translate_at d : 0 <= d < 16 -> array_at translate d = Ok (hex_char d).
Proof.
  intros Hd. assert (Forall (fun d => array_at translate d = Ok (hex_char d)) (seqZ 0 16)) as H.
  { repeat (constructor; [reflexivity|]). constructor. }
  rewrite Forall_forall in H. apply H. apply elem_of_seqZ. lia.
Qed.

Lemma hex_char_digit d : 0 <= d < 16 -> IsHexDigit (hex_char d) = true /\ (hex_char d = 0x30 <-> d = 0).
Proof. intros Hd. unfold IsHexDigit, hex_char. case_ztests; done || (split; [done|lia]). Qed.

(** The value of a string of digits. *)
Definition digits_value (ds : list Z) (value : Z) : Z := foldl (fun v d => v * 16 + d) value ds.

Lemma hex_loop_digits ds value :
  Forall (fun d => 0 <= d < 16) ds -> 0 <= value -> digits_value ds value < 2 ^ 32 ->
  hex_loop (map hex_char ds) value = digits_value ds value.
Proof.
  intros H. revert value. induction H as [|d ds Hd H IH]; intros value Hv Hb; [done|].
  cbn [map hex_loop]. unfold digits_value in *. cbn [foldl] in *.
  assert (forall l x, Forall (fun d => 0 <= d < 16) l -> 0 <= x -> x <= foldl (fun v d => v * 16 + d) x l) as Hge.
  { clear. induction l as [|d l IH]; intros x Hl Hx; simpl; [done|]. apply Forall_cons in Hl as [? ?].
    specialize (IH (x * 16 + d) ltac:(done) ltac:(lia)). lia. }
  pose proof (Hge ds (value * 16 + d) H ltac:(lia)) as Hle.
  rewrite Z.shiftl_mul_pow2 by lia. change (2 ^ 4) with 16.
  unfold hex_char. destruct (Z.ltb_spec d 10).
  - rewrite (proj2 (Z.leb_le 48 (48 + d))), (proj2 (Z.leb_le (48 + d) 57)) by lia. cbn [andb].
    rewrite (u32_small (value * 16)), u32_small by lia. replace (value * 16 + (48 + d - 48)) with (value * 16 + d) by lia.
    apply IH; lia.
  - rewrite (proj2 (Z.leb_gt (65 + (d - 10)) 57)), andb_false_r by lia.
    rewrite (proj2 (Z.leb_le 65 (65 + (d - 10)))), (proj2 (Z.leb_le (65 + (d - 10)) 70)) by lia. cbn [andb].
    rewrite (u32_small (value * 16)), u32_small by lia. replace (value * 16 + (10 + (65 + (d - 10) - 65))) with (value * 16 + d) by lia.
    apply IH; lia.
Qed.

(** The digits [GetFileIDString] writes, from the digits of the number: [i] were
    written before. *)
Fixpoint emitted (ns : list Z) (i : Z) : list Z :=
  match ns with
  | [] => []
  | d :: ns' =>
      if negb (d =? 0) || (1 <? i) || bool_decide (ns' = []) then d :: emitted ns' (i + 1)
      else emitted ns' i
  end.

Definition shifts : list Z := [28; 24; 20; 16; 12; 8; 4; 0].
Definition nibbles (fileID : Z) : list Z := map (nibble fileID) shifts.

Lemma id_loop_emitted fileID pre i :
  Forall (fun b => 0 < b) pre ->
  id_loop fileID (pre ++ [0]) i = Ok (map hex_char (emitted (map (nibble fileID) (pre ++ [0])) i)).
Proof.
  intros H. revert i. induction H as [|b pre Hb H IH]; intros i; cbn [app map id_loop emitted].
  - fold (nibble fileID 0). pose proof (nibble_range fileID 0). rewrite translate_at by done.
    cbn [mbind outcome_bind]. rewrite Z.eqb_refl, bool_decide_eq_true_2, !orb_true_r by done. done.
  - fold (nibble fileID b). pose proof (nibble_range fileID b) as Hn. rewrite translate_at by done.
    cbn [mbind outcome_bind]. rewrite (proj2 (Z.eqb_neq b 0)), orb_false_r by lia.
    rewrite bool_decide_eq_false_2, orb_false_r by (by destruct pre).
    destruct (hex_char_digit _ Hn) as [_ Hz].
    assert ((hex_char (nibble fileID b) =? 0x30) = (nibble fileID b =? 0)) as ->.
    { destruct (Z.eqb_spec (nibble fileID b) 0) as [E|E]; [by apply Z.eqb_eq, Hz|].
      apply Z.eqb_neq. by rewrite Hz. }
    destruct (negb (nibble fileID b =? 0) || (1 <? i)); rewrite IH; done.
Qed.

Lemma GetFileIDString_emitted fileID :
  GetFileIDString fileID = Ok (0x23 :: map hex_char (emitted (nibbles fileID) 0)).
Proof.
  unfold GetFileIDString. change [28; 24; 20; 16; 12; 8; 4; 0] with ([28; 24; 20; 16; 12; 8; 4] ++ [0]).
  rewrite id_loop_emitted by (repeat constructor; lia). done.
Qed.

(** The zeros right behind the first digit are lost, so that a number keeps its digits
    only when the second one is not a zero, or is the last. *)
Fixpoint safe_digits (ns : list Z) : bool :=
  match ns with
  | [] => true
  | d :: ns' =>
      if d =? 0 then safe_digits ns'
      else match ns' with d' :: _ :: _ => negb (d' =? 0) | _ => true end
  end.
Definition fileid_safe (fileID : Z) : bool := safe_digits (nibbles fileID).

Lemma emitted_all ns i : 1 < i -> emitted ns i = ns.
Proof.
  revert i. induction ns as [|d ns IH]; intros i Hi; [done|]. cbn [emitted].
  rewrite (proj2 (Z.ltb_lt 1 i)), orb_true_r by done. simpl. by rewrite IH by lia.
Qed.

Lemma emitted_safe ns :
  ns <> [] -> safe_digits ns = true -> digits_value (emitted ns 0) 0 = digits_value ns 0.
Proof.
  induction ns as [|d ns IH]; intros Hne Hs; [done|]. cbn [emitted safe_digits] in *.
  destruct (Z.eqb_spec d 0) as [->|Hd].
  - destruct ns as [|d2 ns]; [done|]. rewrite bool_decide_eq_false_2 by done. simpl orb. cbv iota.
    rewrite IH by done. done.
  - simpl. destruct ns as [|d2 ns]; [done|]. cbn [emitted].
    destruct (decide (d2 = 0)) as [->|Hd2].
    + destruct ns as [|d3 ns]; [|done]. rewrite bool_decide_eq_true_2, !orb_true_r by done. done.
    + rewrite (proj2 (Z.eqb_neq d2 0)) by done. simpl. rewrite emitted_all by lia. done.
Qed.

Lemma nibbles_value fileID : 0 <= fileID < 2 ^ 32 -> digits_value (nibbles fileID) 0 = fileID.
Proof.
  intros Hf. unfold nibbles, shifts, digits_value. cbn [map foldl].
  assert (forall b c, 0 <= b -> c = b + 4 -> fileID / 2 ^ c * 16 + nibble fileID b = fileID / 2 ^ b) as Hstep.
  { intros b c Hb ->. unfold nibble. change 0xF with (Z.ones 4).
    rewrite Z.land_ones, Z.shiftr_div_pow2, Z.pow_add_r by lia.
    rewrite <- Z.div_div by lia. change (2 ^ 4) with 16. rewrite Z.mul_comm. symmetry. by apply Z.div_mod. }
  replace (0 * 16 + nibble fileID 28) with (fileID / 2 ^ 28).
  2: { rewrite <- (Hstep 28 32) by lia. rewrite (Z.div_small fileID (2 ^ 32)) by lia. done. }
  rewrite (Hstep 24 28), (Hstep 20 24), (Hstep 16 20), (Hstep 12 16), (Hstep 8 12), (Hstep 4 8),
    (Hstep 0 4) by lia.
  apply Z.div_1_r.
Qed.

Lemma nibbles_range fileID : Forall (fun d => 0 <= d < 16) (nibbles fileID).
Proof. apply Forall_forall. intros d (b & -> & _)%list_elem_of_fmap. apply nibble_range. Qed.

Lemma emitted_sub ns i : Forall (fun d => 0 <= d < 16) ns -> Forall (fun d => 0 <= d < 16) (emitted ns i).
Proof.
  intros H. revert i. induction H as [|d ns Hd H IH]; intros i; cbn [emitted]; [done|].
  case_match; [by constructor|done].
Qed.

(** ** Extensions *)

(** An extension: nothing, or a dot with one to five letters and digits. *)
Definition is_extension (ext : list Z) : Prop :=
  ext = [] \/ exists cs, ext = 0x2E :: cs /\ (1 <= length cs <= 5)%nat /\
    Forall (fun c => EXTENSIONCHAR c = true) cs.

Lemma scan_ext_spec rounds pre suf :
  Forall (fun c => EXTENSIONCHAR c = true) suf -> (rounds <= length pre)%nat ->
  match scan_ext rounds (pre ++ suf) (length pre) (Z.of_nat (length suf)) with
  | Ok (Some (i, n)) => exists pre' cs, pre ++ suf = pre' ++ 0x2E :: cs /\ i = length pre' /\
      n = Z.of_nat (length cs) /\ (1 <= length cs)%nat /\ (length cs < rounds + length suf)%nat /\
      Forall (fun c => EXTENSIONCHAR c = true) cs
  | Ok None => True
  | _ => False
  end.
Proof.
  revert pre suf. induction rounds as [|rounds IH]; intros pre suf Hs Hr; [done|].
  destruct pre as [|c pre _] using rev_ind; [simpl in Hr; lia|].
  rewrite length_app in *. simpl in Hr. replace (length pre + length [c])%nat with (S (length pre)) by (simpl; lia).
  cbn [scan_ext]. rewrite <- app_assoc. change ([c] ++ suf) with (c :: suf).
  rewrite list_lookup_middle by done. cbn [of_option mbind outcome_bind].
  destruct (Z.eqb_spec c 0x2E) as [->|Hc].
  - destruct (Z.ltb_spec 0 (Z.of_nat (length suf))); [|done]. exists pre, suf.
    split; [done|]. split; [done|]. split; [done|]. split; [lia|]. split; [lia|done].
  - destruct (EXTENSIONCHAR c) eqn:E; [|done].
    specialize (IH pre (c :: suf) ltac:(by constructor) ltac:(lia)).
    replace (Z.of_nat (length suf) + 1) with (Z.of_nat (length (c :: suf))) by (simpl; lia).
    destruct (scan_ext rounds (pre ++ c :: suf) (length pre) (Z.of_nat (length (c :: suf))))
      as [[[i n]|]| | |]; try done.
    destruct IH as (pre' & cs & -> & -> & -> & H1 & H2 & H3). exists pre', cs.
    simpl in H2. do 4 (split; [done|]). split; [lia|done].
Qed.

(** Scanning [suf] backwards reaches what stands before it. *)
Lemma scan_ext_skip rounds pre mid n :
  Forall (fun c => EXTENSIONCHAR c = true) mid -> (length mid <= rounds)%nat ->
  forall suf, scan_ext rounds (pre ++ mid ++ suf) (length pre + length mid) n
    = scan_ext (rounds - length mid) (pre ++ mid ++ suf) (length pre) (n + Z.of_nat (length mid)).
Proof.
  revert rounds n. induction mid as [|c mid IH] using rev_ind; intros rounds n Hm Hr suf.
  { simpl. by rewrite Nat.sub_0_r, Nat.add_0_r, Z.add_0_r. }
  rewrite length_app in *. simpl in *. destruct rounds as [|rounds]; [lia|].
  apply Forall_app in Hm as [Hm Hc]. rewrite Forall_singleton in Hc.
  replace (length pre + (length mid + 1))%nat with (S (length pre + length mid)) by lia.
  cbn [scan_ext]. rewrite <- (app_assoc mid), (app_assoc pre mid ([c] ++ suf)), <- length_app.
  change ([c] ++ suf) with (c :: suf). rewrite list_lookup_middle by done.
  cbn [of_option mbind outcome_bind].
  assert (c <> 0x2E) as Hne by (intros ->; done). rewrite (proj2 (Z.eqb_neq _ _) Hne), Hc.
  rewrite length_app, <- app_assoc, IH by (done || lia).
  replace (S rounds - (length mid + 1))%nat with (rounds - length mid)%nat by lia. f_equal. lia.
Qed.

Lemma scan_ext_stop rounds pre c mid n :
  Forall (fun c => EXTENSIONCHAR c = true) mid -> (length mid < rounds)%nat -> EXTENSIONCHAR c = false ->
  scan_ext rounds (pre ++ c :: mid) (length (pre ++ c :: mid)) n
    = Ok (if c =? 0x2E then if 0 <? n + Z.of_nat (length mid) then Some (length pre, n + Z.of_nat (length mid)) else None
          else None).
Proof.
  intros Hm Hr Hc. replace (length (pre ++ c :: mid)) with (length (pre ++ [c]) + length mid)%nat
    by (rewrite !length_app; simpl; lia).
  replace (pre ++ c :: mid) with ((pre ++ [c]) ++ mid ++ []) by (rewrite app_nil_r, <- app_assoc; done).
  rewrite scan_ext_skip by (done || lia). rewrite app_nil_r, <- app_assoc, length_app. simpl.
  destruct (rounds - length mid)%nat as [|r] eqn:E; [lia|].
  replace (length pre + 1)%nat with (S (length pre)) by lia. cbn [scan_ext].
  rewrite list_lookup_middle by done. cbn [of_option mbind outcome_bind]. rewrite Hc.
  by destruct (c =? 0x2E).
Qed.

(** Running out of turns. *)
Lemma scan_ext_long rounds pre mid n :
  Forall (fun c => EXTENSIONCHAR c = true) mid -> (rounds <= length mid)%nat ->
  scan_ext rounds (pre ++ mid) (length (pre ++ mid)) n = Ok None.
Proof.
  intros Hm Hr. assert (length (drop (length mid - rounds) mid) = rounds) as Hl2
    by (rewrite length_drop; lia).
  pose proof (take_drop (length mid - rounds) mid) as E.
  set (m1 := take _ mid) in *. set (m2 := drop _ mid) in *. clearbody m1 m2. subst mid.
  apply Forall_app in Hm as [_ Hm]. rewrite (app_assoc pre), length_app.
  rewrite <- (app_nil_r m2) at 1. rewrite scan_ext_skip by (done || lia).
  rewrite Hl2, Nat.sub_diag. done.
Qed.

Lemma max_ext_chars_range len : 3 <= len -> 1 <= max_ext_chars len <= 5 /\ max_ext_chars len <= len - 2.
Proof. unfold max_ext_chars, kMaxFileExtensionChars. case_ztests. Qed.

Lemma CountFilenameExtensionChars_mangled p ds ext :
  Forall (fun c => IsHexDigit c = true) ds -> is_extension ext ->
  28 <= Z.of_nat (length (p ++ 0x23 :: ds ++ ext)) ->
  CountFilenameExtensionChars (p ++ 0x23 :: ds ++ ext) = Ok (Z.of_nat (length ext - 1)).
Proof.
  intros Hd He Hl. unfold CountFilenameExtensionChars. set (name := p ++ 0x23 :: ds ++ ext) in *.
  rewrite (proj2 (Z.ltb_ge _ 3)) by lia. unfold max_ext_chars, kMaxFileExtensionChars.
  rewrite (proj2 (Z.ltb_ge _ (5 + 2))) by lia. change (Z.to_nat (5 + 1)) with 6%nat.
  assert (Forall (fun c => EXTENSIONCHAR c = true) ds) as Hd'.
  { eapply Forall_impl; [exact Hd|]. intros c. unfold IsHexDigit, EXTENSIONCHAR. simpl. lia. }
  destruct He as [->|(cs & -> & Hcs & Hc)].
  - unfold name. rewrite app_nil_r. destruct (decide (length ds < 6)%nat).
    + by rewrite scan_ext_stop.
    + replace (p ++ 0x23 :: ds) with ((p ++ [0x23]) ++ ds) by (by rewrite <- app_assoc).
      by rewrite scan_ext_long by (done || lia).
  - unfold name. replace (p ++ 0x23 :: ds ++ 0x2E :: cs) with ((p ++ 0x23 :: ds) ++ 0x2E :: cs)
      by (by rewrite <- app_assoc). rewrite scan_ext_stop by (done || lia). simpl length.
    rewrite Z.eqb_refl, (proj2 (Z.ltb_lt 0 _)) by lia. cbn [mbind outcome_bind]. f_equal. lia.
Qed.

Lemma scan_id_skip p mid suf len :
  Forall (fun c => IsHexDigit c = true) mid ->
  scan_id (p ++ mid ++ suf) len (length p + length mid) = scan_id (p ++ mid ++ suf) len (length p).
Proof.
  revert suf. induction mid as [|c mid IH] using rev_ind; intros suf Hm; [by rewrite Nat.add_0_r|].
  apply Forall_app in Hm as [Hm Hc]. rewrite Forall_singleton in Hc. rewrite length_app. simpl.
  replace (length p + (length mid + 1))%nat with (S (length p + length mid)) by lia.
  cbn [scan_id]. rewrite <- (app_assoc mid), (app_assoc p mid ([c] ++ suf)), <- length_app.
  change ([c] ++ suf) with (c :: suf). rewrite list_lookup_middle by done. cbn [of_option mbind outcome_bind].
  assert (c <> 0x23) as Hne by (intros ->; done). rewrite (proj2 (Z.eqb_neq _ _) Hne), Hc. simpl negb. cbv iota.
  by rewrite length_app, <- app_assoc, IH.
Qed.

(** The ID of a mangled name is found, whatever the prefix. *)
Lemma GetEmbeddedFileID_mangled p ds ext :
  Forall (fun c => IsHexDigit c = true) ds -> (2 <= length ds)%nat -> is_extension ext ->
  28 <= Z.of_nat (length (p ++ 0x23 :: ds ++ ext)) < 2 ^ 15 ->
  GetEmbeddedFileID (p ++ 0x23 :: ds ++ ext) = Ok (HexStringToInteger ds, Z.of_nat (length p)).
Proof.
  intros Hd Hl He Hlen. unfold GetEmbeddedFileID.
  rewrite (proj2 (Z.ltb_ge _ 28)), (proj2 (Z.ltb_lt 5 _)), CountFilenameExtensionChars_mangled by (done || lia).
  cbn [mbind outcome_bind]. rewrite !length_app in *. simpl in Hlen. rewrite length_app in Hlen.
  assert (length ext <= 6)%nat as He6.
  { destruct He as [->|(cs & -> & ? & _)]; simpl; lia. }
  rewrite (s16_small (Z.of_nat (length ext - 1))) by lia.
  replace (if 0 <? Z.of_nat (length ext - 1) then _ else _) with (Z.of_nat (length p + S (length ds))).
  2: { change (length (35 :: ds ++ ext)) with (S (length (ds ++ ext))). rewrite length_app.
       destruct He as [->|(cs & -> & ? & _)]; simpl length.
       - rewrite Nat.add_0_r. done.
       - rewrite (proj2 (Z.ltb_lt 0 _)) by lia. lia. }
  rewrite s16_small by (clear - Hlen; lia).
  replace (Z.to_nat (Z.of_nat (length p + S (length ds)) - 1 + 1)) with (length (p ++ [0x23%Z]) + length ds)%nat
    by (rewrite length_app; simpl; lia).
  replace (p ++ 0x23 :: ds ++ ext) with ((p ++ [0x23]) ++ ds ++ ext) by (by rewrite <- app_assoc).
  rewrite scan_id_skip by done. rewrite length_app. simpl. rewrite Nat.add_1_r. cbn [scan_id].
  rewrite <- app_assoc. simpl. rewrite list_lookup_middle by done. cbn [of_option mbind outcome_bind].
  rewrite Z.eqb_refl, (proj2 (Z.ltb_ge _ 3)) by lia. do 3 f_equal.
  rewrite list_drop_split. rewrite take_app_length' by lia. done.
Qed.

Lemma GetFilenameExtension_spec src :
  exists pre ext, GetFilenameExtension src = Ok ext /\ src = pre ++ ext /\ is_extension ext /\
    (ext <> [] -> pre <> []).
Proof.
  unfold GetFilenameExtension. destruct (Z.ltb_spec (Z.of_nat (length src)) 3) as [H3|H3].
  { exists src, []. rewrite app_nil_r. split; [done|]. split; [done|]. split; [by left|done]. }
  pose proof (max_ext_chars_range (Z.of_nat (length src)) H3) as Hm.
  set (mx := max_ext_chars (Z.of_nat (length src))) in *.
  pose proof (scan_ext_spec (Z.to_nat (mx + 1)) src [] ltac:(constructor) ltac:(lia)) as Hs.
  rewrite app_nil_r in Hs. change (Z.of_nat (length [])) with 0 in Hs.
  destruct (scan_ext (Z.to_nat (mx + 1)) src (length src) 0) as [[[i n]|]| | |]; try done;
    cbn [mbind outcome_bind].
  2: { exists src, []. rewrite app_nil_r. split; [done|]. split; [done|]. split; [by left|done]. }
  destruct Hs as (pre & cs & E & -> & -> & Hn1 & Hn2 & Hc). simpl in Hn2.
  pose proof (f_equal length E) as Hlen. rewrite length_app in Hlen. simpl in Hlen.
  clearbody mx. subst src. exists pre, (0x2E :: cs).
  split; [|split; [done|split; [right; exists cs; split; [done|split; [lia|done]]|]]].
  - rewrite drop_app_length. rewrite take_ge by (simpl; lia). f_equal.
    change (u8 0x2E :: map u8 cs = 0x2E :: cs). f_equal.
    rewrite <- (list_fmap_id cs) at 2. apply list_fmap_ext. intros i c Hi.
    apply (Forall_lookup_1 _ _ _ _ Hc) in Hi. cbv beta in Hi. apply u8_small.
    clear - Hi. unfold EXTENSIONCHAR, id in *. lia.
  - intros _ ->. simpl in *. lia.
Qed.

(** Where the extension of a name starts: before the last dot that has one to five letters
    and digits behind it, and something in front. *)
Definition split_at (src pre cs : list Z) : Prop :=
  src = pre ++ 0x2E :: cs /\ pre <> [] /\ (1 <= length cs <= 5)%nat /\ Forall (fun c => EXTENSIONCHAR c = true) cs.
Definition split_name (src pre ext : list Z) : Prop :=
  (exists cs, split_at src pre cs /\ ext = 0x2E :: cs) \/
  (pre = src /\ ext = [] /\ forall pre' cs, ~ split_at src pre' cs).

(** [GetFilenameExtension] finds the extension if there is one. *)
Lemma GetFilenameExtension_exact src :
  exists pre ext, GetFilenameExtension src = Ok ext /\ src = pre ++ ext /\ is_extension ext /\ split_name src pre ext.
Proof.
  destruct (GetFilenameExtension_spec src) as (pre & ext & He & Hsrc & Hext & Hpre). exists pre, ext. split_and!; try done.
  destruct Hext as [->|(cs & -> & Hl & Hc)]; [right|left; exists cs; split; [|done]; split; [done|]; split; [by apply Hpre|by split]].
  rewrite app_nil_r in Hsrc. subst pre. split_and!; [done..|]. intros pre' cs (E & Hne & Hl & Hc).
  assert (3 <= Z.of_nat (length src)) as H3.
  { rewrite E, length_app. destruct pre'; [done|]. simpl. lia. }
  assert (Z.of_nat (length cs) <= max_ext_chars (Z.of_nat (length src))) as Hm.
  { unfold max_ext_chars, kMaxFileExtensionChars. case_ztest; [|lia]. rewrite E, length_app. destruct pre'; [done|]. simpl. lia. }
  unfold GetFilenameExtension in He. rewrite (proj2 (Z.ltb_ge _ 3) H3) in He. rewrite E in He at 2 3.
  rewrite scan_ext_stop in He; [|done|lia|done]. change (0x2E =? 0x2E) with true in He. cbv iota in He.
  rewrite (proj2 (Z.ltb_lt 0 _)) in He by lia. cbn [mbind outcome_bind] in He. injection He as He.
  apply (f_equal length) in He. rewrite length_map, length_take, length_drop in He. rewrite E, length_app in He. simpl in He. lia.
Qed.

Lemma emitted_length ns i : (length (emitted ns i) <= length ns)%nat.
Proof.
  revert i. induction ns as [|d ns IH]; intros i; cbn [emitted]; [done|].
  case_match; simpl; [specialize (IH (i + 1))|specialize (IH i)]; lia.
Qed.

Lemma safe_hex fileID :
  0 <= fileID < 2 ^ 32 -> fileid_safe fileID = true ->
  HexStringToInteger (map hex_char (emitted (nibbles fileID) 0)) = fileID.
Proof.
  intros Hf Hs. pose proof (emitted_safe (nibbles fileID) ltac:(done) Hs) as Hv.
  rewrite nibbles_value in Hv by done. unfold HexStringToInteger.
  rewrite hex_loop_digits; [done|apply emitted_sub, nibbles_range|lia|lia].
Qed.

(** Two digits at least. *)
Lemma safe_two_digits fileID :
  16 <= fileID < 2 ^ 32 -> fileid_safe fileID = true -> (2 <= length (emitted (nibbles fileID) 0))%nat.
Proof.
  intros Hf Hs. pose proof (emitted_safe (nibbles fileID) ltac:(done) Hs) as Hv.
  rewrite nibbles_value in Hv by lia.
  pose proof (emitted_sub _ 0 (nibbles_range fileID)) as Hr.
  destruct (emitted (nibbles fileID) 0) as [|d [|d2 l]]; simpl in *; [unfold digits_value in Hv; simpl in Hv; lia| |lia].
  apply Forall_cons in Hr as [? _]. unfold digits_value in Hv. simpl in Hv. lia.
Qed.

Lemma emitted_hex fileID : Forall (fun c => IsHexDigit c = true) (map hex_char (emitted (nibbles fileID) 0)).
Proof.
  apply Forall_forall. intros c (d & -> & Hd)%list_elem_of_fmap.
  pose proof (emitted_sub _ 0 (nibbles_range fileID)) as Hr. rewrite Forall_forall in Hr.
  apply hex_char_digit, Hr, Hd.
Qed.

(** ** Properties *)

(** The digits [GetFileIDString] writes for an ID are read back by
    [HexStringToInteger], when the second digit of the ID is not a zero, or is the last
    one. *)
Theorem GetFileIDString_roundtrip fileID :
  0 <= fileID < 2 ^ 32 -> fileid_safe fileID = true ->
  exists digits, GetFileIDString fileID = Ok (0x23 :: digits) /\ (length digits <= 8)%nat /\
    HexStringToInteger digits = fileID.
Proof.
  intros Hf Hs. exists (map hex_char (emitted (nibbles fileID) 0)).
  split; [apply GetFileIDString_emitted|]. split; [|by apply safe_hex].
  rewrite length_map. apply (emitted_length (nibbles fileID) 0).
Qed.

Lemma GetFileIDString_witness : GetFileIDString 0x1A2B = Ok [0x23; 0x31; 0x41; 0x32; 0x42] /\
  HexStringToInteger [0x31; 0x41; 0x32; 0x42] = 0x1A2B.
Proof.
  destruct (GetFileIDString_roundtrip 0x1A2B) as (ds & E & _ & H); [lia|vm_compute; reflexivity|].
  assert (ds = [0x31; 0x41; 0x32; 0x42]) as -> by (vm_compute in E; by injection E as <-).
  split; [exact E|exact H].
Defined.

(** Zeros right behind the first digit of a file ID are left out by
    [GetFileIDString], so that different files get the same mangled name: 0x105 and
    0x15 are both written "#15". *)
Theorem GetFileIDString_collision d e :
  1 <= d <= 15 -> 1 <= e <= 15 ->
  GetFileIDString (d * 256 + e) = GetFileIDString (d * 16 + e) /\ d * 256 + e <> d * 16 + e.
Proof.
  intros Hd He. split; [|lia]. rewrite !GetFileIDString_emitted. do 2 f_equal.
  assert (Forall (fun d => Forall (fun e => emitted (nibbles (d * 256 + e)) 0 = emitted (nibbles (d * 16 + e)) 0)
            (seqZ 1 15)) (seqZ 1 15)) as H by (apply (bool_decide_unpack _); vm_compute; done).
  rewrite Forall_forall in H. specialize (H d). rewrite elem_of_seqZ in H. specialize (H ltac:(lia)).
  rewrite Forall_forall in H. specialize (H e). rewrite elem_of_seqZ in H. rewrite (H ltac:(lia)). done.
Qed.

Lemma GetFileIDString_collision_witness : GetFileIDString 0x105 = GetFileIDString 0x15.
Proof. exact (proj1 (GetFileIDString_collision 1 5 ltac:(lia) ltac:(lia))). Defined.

(** C40: [ConvertUnicodeToUTF8Mangled], into a destination of 16 to 32767 bytes, for every file
    ID: the name fits with its NUL and is a beginning of the UTF-8 form of the source without
    its extension (all of it, unless that does not fit), the file ID as [GetFileIDString]
    writes it, and the extension (the last dot with one to five letters and digits behind it,
    if it is not the first character).  When the ID is 16 at least and keeps its digits
    ([fileid_safe]: no zero is second of three or more digits), they stand for it, and if the
    name has at least 28 bytes [GetEmbeddedFileID] gives the ID and the length of the
    beginning back. *)
Theorem mangled_name_roundtrip src maxDstLen cnid :
  16 <= maxDstLen < 2 ^ 15 -> 0 <= cnid < 2 ^ 32 ->
  exists pre ext out t digits name,
    src = pre ++ ext /\ split_name src pre ext /\ utf8_of 0x3A pre = out ++ t /\
    (t = [] \/ maxDstLen < Z.of_nat (length (utf8_of 0x3A pre) + S (length digits) + length ext) + 1) /\
    GetFileIDString cnid = Ok (0x23 :: digits) /\ name = out ++ 0x23 :: digits ++ ext /\
    ConvertUnicodeToUTF8Mangled src maxDstLen cnid = Ok (name, Z.of_nat (length name)) /\
    Z.of_nat (length name) + 1 <= maxDstLen /\
    (16 <= cnid -> fileid_safe cnid = true -> HexStringToInteger digits = cnid /\
     (28 <= Z.of_nat (length name) -> GetEmbeddedFileID name = Ok (cnid, Z.of_nat (length out)))).
Proof.
  intros Hmax Hid. destruct (GetFilenameExtension_exact src) as (pre & ext & Ee & Hsrc & Hext & Hsplit).
  unfold ConvertUnicodeToUTF8Mangled. rewrite GetFileIDString_emitted, Ee. cbn [mbind outcome_bind].
  pose proof (safe_hex cnid Hid) as Hval. pose proof (safe_two_digits cnid) as Hd2.
  pose proof (emitted_hex cnid) as Hhex. pose proof (emitted_length (nibbles cnid) 0) as Hd8.
  rewrite <- (length_map hex_char) in Hd2, Hd8. change (length (nibbles cnid)) with 8%nat in Hd8.
  set (digits := map hex_char (emitted (nibbles cnid) 0)) in *. clearbody digits.
  assert (length ext <= 6)%nat as He6.
  { destruct Hext as [->|(cs & -> & ? & _)]; simpl; lia. }
  assert (take (length src - length ext) src = pre) as ->.
  { rewrite Hsrc, length_app, Nat.add_sub. apply take_app_length. }
  set (tl := Z.of_nat (length ext + length (0x23 :: digits))).
  assert (tl = Z.of_nat (length ext + S (length digits))) as Htl by done.
  assert (u64 (maxDstLen - tl) = maxDstLen - tl) as -> by (apply Z.mod_small; lia).
  destruct (utf8_encodestr_spec pre (maxDstLen - tl) 0x3A) as (result & out & t & -> & Hof & Hlen & Hcase); [lia|].
  cbn [mbind outcome_bind]. rewrite Nat2Z.id, take_app_length. rewrite length_app in Hlen. simpl in Hlen.
  set (name := out ++ 0x23 :: digits ++ ext).
  assert (length name = (length out + S (length digits + length ext))%nat) as Hname.
  { unfold name. rewrite length_app. simpl. by rewrite length_app. }
  exists pre, ext, out, t, digits, name. do 3 (split; [done|]).
  split; [destruct Hcase as [[-> _]|[_ ?]]; [by left|right; lia]|]. do 2 (split; [done|]).
  split; [change ((0x23 :: digits) ++ ext) with (0x23 :: digits ++ ext); fold name; do 2 f_equal; lia|].
  split; [lia|]. intros H16 Hs. split; [by apply Hval|]. intros H28. unfold name. rewrite GetEmbeddedFileID_mangled.
  - by rewrite Hval.
  - done.
  - apply Hd2; [lia|done].
  - done.
  - fold name. lia.
Qed.

(** Thirty times "a", then ".txt", into 32 bytes. *)
Lemma mangled_name_witness :
  exists name n p, ConvertUnicodeToUTF8Mangled (replicate 30 0x61 ++ [0x2E; 0x74; 0x78; 0x74]) 32 0x1A2B
      = Ok (name, n) /\ n = 31 /\ GetEmbeddedFileID name = Ok (0x1A2B, p).
Proof.
  destruct (mangled_name_roundtrip (replicate 30 0x61 ++ [0x2E; 0x74; 0x78; 0x74]) 32 0x1A2B)
    as (pre & ext & out & t & digits & name & _ & _ & _ & _ & _ & _ & E & _ & H); [lia|lia|].
  exists name, (Z.of_nat (length name)), (Z.of_nat (length out)). split; [exact E|].
  assert (Z.of_nat (length name) = 31) as Hn by (clear H; vm_compute in E; injection E as <-; reflexivity).
  split; [exact Hn|]. apply H; [lia|vm_compute; reflexivity|rewrite Hn; lia].
Defined.
