(* ===== verification/Bytes.v ===== *)
(** * Byte buffers

    A buffer in memory ([buf.b_data], a B-tree node, a key) as the list of its
    bytes, with the accesses the code makes: [bcopy], [bzero] and loads and
    stores of 16- and 32-bit fields at byte positions, in little-endian order.
    An access outside the buffer is a [Fault]. *)
From S2P Require Import Prelude.

Abbreviation buffer := (list Z).

(** The [n] bytes at position [p], and the buffer with the bytes [bs] there. *)
Definition slice (m : buffer) (p n : Z) : buffer := take (Z.to_nat n) (drop (Z.to_nat p) m).
Definition splice (m : buffer) (p : Z) (bs : buffer) : buffer :=
  take (Z.to_nat p) m ++ bs ++ drop (Z.to_nat p + length bs) m.

Definition in_buffer (m : buffer) (p n : Z) : bool :=
  (n =? 0) || ((0 <=? p) && (0 <=? n) && (p + n <=? Z.of_nat (length m))).

Definition get_bytes (m : buffer) (p n : Z) : outcome buffer :=
  if in_buffer m p n then Ok (slice m p n) else Fault.
Definition put_bytes (m : buffer) (p : Z) (bs : buffer) : outcome buffer :=
  if in_buffer m p (Z.of_nat (length bs)) then Ok (splice m p bs) else Fault.

(** [bcopy] within one buffer (the areas may overlap), and [bzero]. *)
Definition bcopy (m : buffer) (src dst n : Z) : outcome buffer :=
  bs ← get_bytes m src n; put_bytes m dst bs.
Definition bzero (m : buffer) (p n : Z) : outcome buffer :=
  if n <? 0 then Fault else put_bytes m p (replicate (Z.to_nat n) 0).

(** Little-endian fields. *)
Fixpoint le_encode (n : nat) (v : Z) : buffer :=
  match n with
  | O => []
  | S n => v mod 256 :: le_encode n (v / 256)
  end.
Fixpoint le_decode (bs : buffer) : Z :=
  match bs with
  | [] => 0
  | b :: bs => b + 256 * le_decode bs
  end.

Definition load8 (m : buffer) (p : Z) : outcome Z := bs ← get_bytes m p 1; Ok (le_decode bs).
Definition load16 (m : buffer) (p : Z) : outcome Z := bs ← get_bytes m p 2; Ok (le_decode bs).
Definition load32 (m : buffer) (p : Z) : outcome Z := bs ← get_bytes m p 4; Ok (le_decode bs).
Definition store8 (m : buffer) (p v : Z) : outcome buffer := put_bytes m p (le_encode 1 v).
Definition store16 (m : buffer) (p v : Z) : outcome buffer := put_bytes m p (le_encode 2 v).
Definition store32 (m : buffer) (p v : Z) : outcome buffer := put_bytes m p (le_encode 4 v).

Definition byte (b : Z) : Prop := 0 <= b < 256.
#[export] Instance byte_dec b : Decision (byte b).
Proof. unfold byte. apply _. Defined.

(** ** Slices *)

Lemma slice_length m p n :
  0 <= p -> 0 <= n -> p + n <= Z.of_nat (length m) -> Z.of_nat (length (slice m p n)) = n.
Proof. intros. unfold slice. rewrite length_take, length_drop. lia. Qed.

Lemma slice_nil m p : slice m p 0 = [].
Proof. done. Qed.

Lemma slice_all m n : n = Z.of_nat (length m) -> slice m 0 n = m.
Proof. intros ->. unfold slice. rewrite Nat2Z.id. apply firstn_all. Qed.

Lemma slice_lookup m p n (i : nat) :
  slice m p n !! i = if decide (Z.of_nat i < n) then m !! (Z.to_nat p + i)%nat else None.
Proof.
  unfold slice. destruct (decide (Z.of_nat i < n)).
  - rewrite lookup_take_lt by lia. apply lookup_drop.
  - apply lookup_take_ge. lia.
Qed.

Lemma splice_length m p bs :
  0 <= p -> p + Z.of_nat (length bs) <= Z.of_nat (length m) ->
  length (splice m p bs) = length m.
Proof. intros. unfold splice. rewrite !length_app, length_take, length_drop. lia. Qed.

Lemma splice_lookup m p bs (i : nat) :
  0 <= p -> p + Z.of_nat (length bs) <= Z.of_nat (length m) ->
  splice m p bs !! i =
  if decide (p <= Z.of_nat i < p + Z.of_nat (length bs))
  then bs !! (i - Z.to_nat p)%nat else m !! i.
Proof.
  intros. unfold splice. destruct (decide (Z.of_nat i < p)).
  { rewrite lookup_app_l by (rewrite length_take; lia).
    rewrite lookup_take_lt, decide_False by lia. done. }
  rewrite lookup_app_r by (rewrite length_take; lia). rewrite length_take.
  replace (i - Z.to_nat p `min` length m)%nat with (i - Z.to_nat p)%nat by lia.
  case_decide.
  - rewrite lookup_app_l by lia. done.
  - rewrite lookup_app_r by lia. rewrite lookup_drop. f_equal. lia.
Qed.

(** Consecutive slices. *)
Lemma slice_app m p a b :
  0 <= p -> 0 <= a -> 0 <= b -> slice m p (a + b) = slice m p a ++ slice m (p + a) b.
Proof.
  intros. unfold slice. rewrite Z2Nat.inj_add by done.
  rewrite <- (take_drop (Z.to_nat a) (take _ (drop (Z.to_nat p) m))).
  rewrite take_take, Nat.min_l by lia. f_equal.
  rewrite skipn_firstn_comm, drop_drop. rewrite Z2Nat.inj_add by done. f_equal. lia.
Qed.

(** A part of a slice. *)
Lemma slice_slice m p n q k :
  0 <= p -> 0 <= q -> 0 <= k -> q + k <= n -> slice (slice m p n) q k = slice m (p + q) k.
Proof.
  intros. apply list_eq. intros i. rewrite !slice_lookup.
  case_decide; [|done]. rewrite decide_True by lia. f_equal. lia.
Qed.

(** Reading where a write went, and next to it. *)
Lemma slice_splice_same m p n bs :
  0 <= p -> n = Z.of_nat (length bs) -> p + n <= Z.of_nat (length m) ->
  slice (splice m p bs) p n = bs.
Proof.
  intros ? -> ?. apply list_eq. intros i. rewrite slice_lookup.
  destruct (decide (Z.of_nat i < Z.of_nat (length bs))) as [Hi|Hi].
  - rewrite splice_lookup, decide_True by lia. f_equal. lia.
  - symmetry. apply lookup_ge_None. lia.
Qed.

Lemma slice_splice_disjoint m p q n bs :
  0 <= p -> 0 <= q -> p + Z.of_nat (length bs) <= Z.of_nat (length m) ->
  q + n <= p \/ p + Z.of_nat (length bs) <= q ->
  slice (splice m p bs) q n = slice m q n.
Proof.
  intros. apply list_eq. intros i. rewrite !slice_lookup. case_decide; [|done].
  rewrite splice_lookup, decide_False by lia. done.
Qed.

Lemma slice_app_l l1 l2 n : n = Z.of_nat (length l1) -> slice (l1 ++ l2) 0 n = l1.
Proof. intros ->. unfold slice. rewrite Nat2Z.id. apply take_app_length. Qed.

Lemma slice_app_at l1 l2 l3 p n :
  p = Z.of_nat (length l1) -> n = Z.of_nat (length l2) -> slice (l1 ++ l2 ++ l3) p n = l2.
Proof.
  intros -> ->. unfold slice. rewrite !Nat2Z.id, drop_app_length. apply take_app_length.
Qed.

(** ** Accesses inside the buffer *)

Lemma in_buffer_true m p n :
  0 <= p -> 0 <= n -> p + n <= Z.of_nat (length m) -> in_buffer m p n = true.
Proof. intros. unfold in_buffer. case_ztests; done. Qed.

Lemma get_bytes_ok m p n :
  0 <= p -> 0 <= n -> p + n <= Z.of_nat (length m) -> get_bytes m p n = Ok (slice m p n).
Proof. intros. unfold get_bytes. by rewrite in_buffer_true. Qed.

Lemma put_bytes_ok m p bs :
  0 <= p -> p + Z.of_nat (length bs) <= Z.of_nat (length m) ->
  put_bytes m p bs = Ok (splice m p bs).
Proof. intros. unfold put_bytes. by rewrite in_buffer_true by lia. Qed.

Lemma bcopy_ok m src dst n :
  0 <= src -> 0 <= dst -> 0 <= n ->
  src + n <= Z.of_nat (length m) -> dst + n <= Z.of_nat (length m) ->
  bcopy m src dst n = Ok (splice m dst (slice m src n)).
Proof.
  intros. unfold bcopy. rewrite get_bytes_ok by lia. simpl.
  apply put_bytes_ok; [lia|]. rewrite slice_length; lia.
Qed.

Lemma bzero_ok m p n :
  0 <= p -> 0 <= n -> p + n <= Z.of_nat (length m) ->
  bzero m p n = Ok (splice m p (replicate (Z.to_nat n) 0)).
Proof.
  intros. unfold bzero. destruct (Z.ltb_spec n 0); [lia|].
  apply put_bytes_ok; [lia|]. rewrite length_replicate. lia.
Qed.

(** ** Fields *)

Lemma le_encode_length n v : length (le_encode n v) = n.
Proof. revert v. induction n; intros; simpl; [done|]. by rewrite IHn. Qed.

Lemma le_encode_bytes n v : Forall byte (le_encode n v).
Proof.
  revert v. induction n; intros v; simpl; constructor; [|done].
  unfold byte. apply Z.mod_pos_bound. lia.
Qed.

Lemma le_decode_encode n v : le_decode (le_encode n v) = v mod 256 ^ Z.of_nat n.
Proof.
  revert v. induction n as [|n IH]; intros v; simpl le_encode; simpl le_decode.
  { rewrite Z.mod_1_r. done. }
  rewrite IH. rewrite Nat2Z.inj_succ, Z.pow_succ_r by lia.
  rewrite Z.rem_mul_r by lia. lia.
Qed.

Lemma le_decode_range bs : Forall byte bs -> 0 <= le_decode bs < 256 ^ Z.of_nat (length bs).
Proof.
  induction 1 as [|b bs Hb Hbs IH]; simpl le_decode; simpl length; [done|].
  unfold byte in Hb. rewrite Nat2Z.inj_succ, Z.pow_succ_r by lia. lia.
Qed.

Lemma le_encode_decode bs : Forall byte bs -> le_encode (length bs) (le_decode bs) = bs.
Proof.
  induction 1 as [|b bs Hb Hbs IH]; simpl; [done|]. unfold byte in Hb.
  rewrite (Z.mul_comm 256), Z.mod_add, Z.mod_small by lia.
  rewrite Z.div_add, Z.div_small by lia. by rewrite Z.add_0_l, IH.
Qed.

Lemma le_decode16 v : 0 <= v < 65536 -> le_decode (le_encode 2 v) = v.
Proof. intros. rewrite le_decode_encode. apply Z.mod_small. done. Qed.

Lemma le_encode16_mod v : le_encode 2 (u16 v) = le_encode 2 v.
Proof.
  unfold u16, wrap. change (2 ^ 16) with (256 * 256). simpl.
  rewrite Z.rem_mul_r, (Z.mul_comm 256), Z.mod_add by lia. rewrite Z.div_add by lia.
  rewrite (Z.mod_mod v 256) by lia. rewrite (Z.div_small (v mod 256)) by (apply Z.mod_pos_bound; lia).
  rewrite Z.add_0_l, Z.mod_mod by lia. done.
Qed.

Lemma load16_slice m p v :
  0 <= p -> p + 2 <= Z.of_nat (length m) -> 0 <= v < 65536 ->
  slice m p 2 = le_encode 2 v -> load16 m p = Ok v.
Proof.
  intros ? ? ? Hs. unfold load16. rewrite get_bytes_ok by lia. simpl.
  by rewrite Hs, le_decode16.
Qed.

Lemma store16_ok m p v :
  0 <= p -> p + 2 <= Z.of_nat (length m) -> store16 m p v = Ok (splice m p (le_encode 2 v)).
Proof. intros. apply put_bytes_ok; [done|]. rewrite le_encode_length. lia. Qed.

Lemma store32_ok m p v :
  0 <= p -> p + 4 <= Z.of_nat (length m) -> store32 m p v = Ok (splice m p (le_encode 4 v)).
Proof. intros. apply put_bytes_ok; [done|]. rewrite le_encode_length. lia. Qed.

Lemma slice_bytes m p n : Forall byte m -> Forall byte (slice m p n).
Proof. intros. unfold slice. by apply Forall_take, Forall_drop. Qed.

Lemma splice_bytes m p bs : Forall byte m -> Forall byte bs -> Forall byte (splice m p bs).
Proof.
  intros. unfold splice. apply Forall_app. split; [by apply Forall_take|].
  apply Forall_app. split; [done|by apply Forall_drop].
Qed.

#[global] Arguments le_encode : simpl never.
