(* ===== verification/BTreeNode.v ===== *)
(** * Nodes of the B-trees (hfsplus/hfscommon/BTree/BTreeNodeOps.c)

    A node is a buffer of [nodeSize] bytes: the 14 bytes of its
    [BTNodeDescriptor], its records one after the other, free space, and at the
    end of the buffer, growing downwards, the table of the record offsets.
    [node_holds] is the abstraction: the node holds a list of records.  The
    theorems show that the operations on the bytes implement the operations on
    that list. *)
From S2P Require Import Prelude Bytes UnicodeCompare.

(** ** The control block *)

Record BTreeControlBlock := mkBTree {
  btreeType : Z;
  treeDepth : Z;
  rootNode : Z;
  leafRecords : Z;
  firstLeafNode : Z;
  lastLeafNode : Z;
  nodeSize : Z;
  maxKeyLength : Z;
  totalNodes : Z;
  freeNodes : Z;
  flags : Z;
  attributes : Z;
  writeCount : Z;
  numGetNodes : Z;
  numGetNewNodes : Z;
  numReleaseNodes : Z;
  numUpdateNodes : Z;
  numMapNodesRead : Z;
  numHintChecks : Z;
  numPossibleHints : Z;
  numValidHints : Z
}.

Definition kOffsetSize : Z := 2.
(** [sizeof(BTNodeDescriptor)], which is packed. *)
Definition sizeof_BTNodeDescriptor : Z := 14.
Definition kBTLeafNode : Z := -1.
Definition kBTIndexNode : Z := 0.
Definition kBTHeaderNode : Z := 1.
Definition kBTMapNode : Z := 2.
Definition kBTBigKeysMask : Z := 2.
Definition kBTVariableIndexKeysMask : Z := 4.
Definition kBTHeaderDirty : Z := 1.

Definition noErr : Z := 0.
Definition ERR_BASE : Z := -32767.
Definition fsBTRecordNotFoundErr : Z := ERR_BASE + 32.
Definition fsBTFullErr : Z := ERR_BASE + 34.
Definition fsBTInvalidNodeErr : Z := ERR_BASE + 36.

(** ** Fields of the node descriptor *)

Definition fLink (node : buffer) : outcome Z := load32 node 0.
Definition bLink (node : buffer) : outcome Z := load32 node 4.
Definition kind (node : buffer) : outcome Z := k ← load8 node 8; Ok (swrap 8 k).
Definition height (node : buffer) : outcome Z := load8 node 9.
Definition numRecords (node : buffer) : outcome Z := load16 node 10.
Definition set_numRecords (node : buffer) (n : Z) : outcome buffer := store16 node 10 (u16 n).

Section node_ops.
Context (btreePtr : BTreeControlBlock).

(** ** Offsets *)

Definition GetOffsetAddress (index : Z) : Z := nodeSize btreePtr - Z.shiftl index 1 - 2.

(** The macro reads a signed [short]. *)
Definition GetRecordOffset (node : buffer) (index : Z) : outcome Z :=
  v ← load16 node (nodeSize btreePtr - Z.shiftl index 1 - kOffsetSize); Ok (s16 v).

Definition GetRecordAddress (node : buffer) (index : Z) : outcome Z :=
  GetRecordOffset node index.

Definition GetRecordSize (node : buffer) (index : Z) : outcome Z :=
  let pos := nodeSize btreePtr - Z.shiftl index 1 - kOffsetSize in
  next ← load16 node (pos - 2);
  this ← load16 node pos;
  Ok (u16 (next - this)).

Definition GetNodeDataSize (node : buffer) : outcome Z :=
  n ← numRecords node;
  freeOffset ← GetRecordOffset node n;
  Ok (u16 (u16 freeOffset + Z.shiftl n 1 - sizeof_BTNodeDescriptor)).

Definition GetNodeFreeSize (node : buffer) : outcome Z :=
  n ← numRecords node;
  freeOffset ← GetRecordOffset node n;
  Ok (u16 (nodeSize btreePtr - u16 freeOffset - Z.shiftl n 1 - kOffsetSize)).

(** [do *dst++ = *src++ + delta; while (numOffsets--)], with [dst] two bytes
    before [src]; [n] rounds. *)
Fixpoint insert_offsets (n : nat) (node : buffer) (src delta : Z) : outcome buffer :=
  match n with
  | O => Ok node
  | S n =>
      v ← load16 node src;
      node ← store16 node (src - 2) (u16 (v + delta));
      insert_offsets n node (src + 2) delta
  end.

Definition InsertOffset (node : buffer) (index delta : Z) : outcome buffer :=
  n ← numRecords node;
  let src := GetOffsetAddress n in
  let numOffsets := u16 (n - index) in
  node ← set_numRecords node (n + 1);
  insert_offsets (S (Z.to_nat numOffsets)) node src delta.

(** [while (numOffsets--) *--dst = *--src - delta;], with [src] two bytes
    before [dst]. *)
Fixpoint delete_offsets (n : nat) (node : buffer) (dst delta : Z) : outcome buffer :=
  match n with
  | O => Ok node
  | S n =>
      v ← load16 node (dst - 4);
      node ← store16 node (dst - 2) (u16 (v - delta));
      delete_offsets n node (dst - 2) delta
  end.

Definition DeleteOffset (node : buffer) (index : Z) : outcome buffer :=
  let dst := GetOffsetAddress index in
  vs ← load16 node (dst - 2);
  vd ← load16 node dst;
  let delta := u16 (vs - vd) in
  n ← numRecords node;
  node ← set_numRecords node (n - 1);
  delete_offsets (Z.to_nat (u16 (u16 (n - 1) - index))) node dst delta.

(** ** Records *)

(** [CalcKeySize] of the key at offset [key] of a buffer. *)
Definition big_keys : bool := negb (Z.land (attributes btreePtr) kBTBigKeysMask =? 0).
Definition KeyLength (m : buffer) (key : Z) : outcome Z :=
  if big_keys then load16 m key else load8 m key.
Definition CalcKeySize (m : buffer) (key : Z) : outcome Z :=
  l ← KeyLength m key; Ok (if big_keys then l + 2 else l + 1).

Definition ClearNode (node : buffer) : outcome buffer := bzero node 0 (nodeSize btreePtr).

(** [MoveRecordsLeft (recPtr, node + dst, size)] from another buffer. *)
Definition copy_in (node rec : buffer) (src dst size : Z) : outcome buffer :=
  bs ← get_bytes rec src size; put_bytes node dst bs.

Definition InsertRecord (node : buffer) (index : Z) (recPtr : buffer) (recSize : Z)
    : outcome (bool * buffer) :=
  freeSpace ← GetNodeFreeSize node;
  if freeSpace <? recSize + 2 then Ok (false, node)
  else
    indexOffset ← GetRecordOffset node index;
    n ← numRecords node;
    freeOffset ← GetRecordOffset node n;
    let indexOffset := u16 indexOffset in
    let bytesToMove := u16 (u16 freeOffset - indexOffset) in
    node ← (if bytesToMove =? 0 then Ok node
            else bcopy node indexOffset (indexOffset + recSize) bytesToMove);
    node ← InsertOffset node index recSize;
    node ← copy_in node recPtr 0 indexOffset recSize;
    Ok (true, node).

Definition InsertKeyRecord (node : buffer) (index : Z) (keyPtr : buffer) (keyLength : Z)
    (recPtr : buffer) (recSize : Z) : outcome (bool * buffer) :=
  let keySize := u16 (keyLength + (if big_keys then 2 else 1)) in
  let keySize := if Z.odd keySize then u16 (keySize + 1) else keySize in
  freeSpace ← GetNodeFreeSize node;
  if freeSpace <? keySize + recSize + 2 then Ok (false, node)
  else
    indexOffset ← GetRecordOffset node index;
    n ← numRecords node;
    freeOffset ← GetRecordOffset node n;
    let indexOffset := u16 indexOffset in
    let bytesToMove := u16 (u16 freeOffset - indexOffset) in
    node ← (if bytesToMove =? 0 then Ok node
            else bcopy node indexOffset (indexOffset + keySize + recSize) bytesToMove);
    node ← InsertOffset node index (u16 (keySize + recSize));
    node ← (if big_keys then store16 node indexOffset keyLength
            else store8 node indexOffset keyLength);
    rawKeyLength ← KeyLength keyPtr 0;
    let sizeOfLength := if big_keys then 2 else 1 in
    let dst := indexOffset + sizeOfLength in
    node ← copy_in node keyPtr sizeOfLength dst rawKeyLength;
    let bytesToMove := u16 (keySize - rawKeyLength) in
    node ← (if bytesToMove =? 0 then Ok node
            else bzero node (dst + rawKeyLength) bytesToMove);
    node ← copy_in node recPtr 0 (indexOffset + keySize) recSize;
    Ok (true, node).

Definition DeleteRecord (node : buffer) (index : Z) : outcome buffer :=
  indexOffset ← GetRecordOffset node index;
  nextOffset ← GetRecordOffset node (index + 1);
  n ← numRecords node;
  freeOffset ← GetRecordOffset node n;
  let bytesToMove := s16 (freeOffset - nextOffset) in
  node ← (if bytesToMove =? 0 then Ok node else bcopy node nextOffset indexOffset bytesToMove);
  node ← DeleteOffset node index;
  n ← numRecords node;
  address ← GetRecordAddress node n;
  bzero node address (s16 (nextOffset - indexOffset)).

(** The result: key offset, data offset, data size. *)
Definition GetRecordByIndex (node : buffer) (index : Z) : outcome (Z + Z * Z * Z) :=
  n ← numRecords node;
  if n <=? index then Ok (inl fsBTRecordNotFoundErr)
  else
    offset ← GetRecordOffset node index;
    let offset := u16 offset in
    keySize ← CalcKeySize node offset;
    let keySize := u16 keySize in
    let keySize := if Z.odd keySize then u16 (keySize + 1) else keySize in
    let data := u16 (offset + keySize) in
    nextOffset ← GetRecordOffset node (index + 1);
    Ok (inr (offset, data, u16 (u16 nextOffset - data))).

Definition GetChildNodeNum (node : buffer) (index : Z) : outcome Z :=
  pos ← GetRecordAddress node index;
  keySize ← CalcKeySize node pos;
  load32 node (pos + keySize).

(** ** Searching *)

Section search.
(** [keyCompareProc (searchKey, trialKey)]; a key is given by the memory that
    starts with it. *)
Context (keyCompareProc : buffer -> buffer -> outcome Z).

Fixpoint search_loop (fuel : nat) (node searchKey : buffer) (lowerBound upperBound : Z)
    : outcome (bool * Z) :=
  match fuel with
  | O => Diverge
  | S fuel =>
      if lowerBound <=? upperBound then
        let index := Z.shiftr (lowerBound + upperBound) 1 in
        offset ← load16 node (nodeSize btreePtr - kOffsetSize - 2 * index);
        result ← keyCompareProc searchKey (drop (Z.to_nat offset) node);
        if result <? 0 then search_loop fuel node searchKey lowerBound (index - 1)
        else if 0 <? result then search_loop fuel node searchKey (index + 1) upperBound
        else Ok (true, u16 index)
      else Ok (false, u16 lowerBound)
  end.

(** The distance of the bounds halves in every round; [numRecords + 1] rounds are
    more than enough. *)
Definition SearchNode (node searchKey : buffer) : outcome (bool * Z) :=
  n ← numRecords node;
  search_loop (S (Z.to_nat n)) node searchKey 0 (n - 1).
End search.

(** ** Checking *)

(** The do-while loop from [index] down to 0. *)
Fixpoint check_offsets (index : nat) (node : buffer) (k n prevOffset : Z) : outcome bool :=
  offset ← GetRecordOffset node (Z.of_nat index);
  let offset := u16 offset in
  if negb (Z.land offset 1 =? 0) then Ok false
  else if prevOffset <=? offset then Ok false
  else
    bad ← (if (k =? kBTLeafNode) && (Z.of_nat index <? n) then
             keySize ← CalcKeySize node offset; Ok (prevOffset - offset <? keySize)
           else Ok false);
    if bad : bool then Ok false
    else
      match index with
      | O => Ok (sizeof_BTNodeDescriptor <=? offset)
      | S index => check_offsets index node k n offset
      end.

Definition CheckNode (fcbEOF : Z) (node : buffer) : outcome Z :=
  let size := nodeSize btreePtr in
  if size =? 0 then Fault else
  let maxNode := u32 (fcbEOF / size - 1) in
  fl ← fLink node;
  bl ← bLink node;
  if (maxNode <? fl) || (maxNode <? bl) then Ok fsBTInvalidNodeErr else
  k ← kind node;
  if (k <? kBTLeafNode) || (kBTMapNode <? k) then Ok fsBTInvalidNodeErr else
  h ← height node;
  if treeDepth btreePtr <? h then Ok fsBTInvalidNodeErr else
  let maxRecords := s32 (Z.shiftr (u64 (size - sizeof_BTNodeDescriptor)) 3) in
  n ← numRecords node;
  if (n =? 0) || (maxRecords <? n) then Ok fsBTInvalidNodeErr else
  ok ← check_offsets (Z.to_nat n) node k n (u16 (size - Z.shiftl n 1));
  Ok (if ok : bool then noErr else fsBTInvalidNodeErr).
End node_ops.

(** ** Abstraction: the list of records of a node *)

Definition total (recs : list buffer) : Z := Z.of_nat (length (concat recs)).
(** Where record [i] starts; for [i = length recs], where the free space does. *)
Definition rec_offset (recs : list buffer) (i : nat) : Z :=
  sizeof_BTNodeDescriptor + total (take i recs).

Definition entry_pos (size : Z) (i : nat) : Z := size - 2 * Z.of_nat i - 2.

Record node_holds (size : Z) (recs : list buffer) (node : buffer) : Prop := {
  nh_size : Z.of_nat (length node) = size;
  nh_max : size <= 32768;
  nh_count : slice node 10 2 = le_encode 2 (Z.of_nat (length recs));
  nh_offsets i : (i <= length recs)%nat ->
    slice node (entry_pos size i) 2 = le_encode 2 (rec_offset recs i);
  nh_data : slice node sizeof_BTNodeDescriptor (total recs) = concat recs;
  nh_fits : rec_offset recs (length recs) + 2 * Z.of_nat (length recs) + 2 <= size
}.

(** The fields of the descriptor other than [numRecords]. *)
Definition same_links (node node' : buffer) : Prop :=
  slice node' 0 10 = slice node 0 10 /\ slice node' 12 2 = slice node 12 2.

Lemma total_nonneg recs : 0 <= total recs.
Proof. unfold total. lia. Qed.
Lemma total_app a b : total (a ++ b) = total a + total b.
Proof. unfold total. rewrite concat_app, length_app. lia. Qed.
Lemma total_cons r b : total (r :: b) = Z.of_nat (length r) + total b.
Proof. unfold total. simpl. rewrite length_app. lia. Qed.
Lemma total_split recs i : total recs = total (take i recs) + total (drop i recs).
Proof. rewrite <- total_app. by rewrite take_drop. Qed.
Lemma total_take_le recs i j : (i <= j)%nat -> total (take i recs) <= total (take j recs).
Proof.
  intros. rewrite (total_split (take j recs) i), take_take, Nat.min_l by done.
  pose proof (total_nonneg (drop i (take j recs))). lia.
Qed.

Lemma rec_offset_mono recs i j : (i <= j)%nat -> rec_offset recs i <= rec_offset recs j.
Proof. intros. unfold rec_offset. pose proof (total_take_le recs i j). lia. Qed.
Lemma rec_offset_ge recs i : 14 <= rec_offset recs i.
Proof. unfold rec_offset, sizeof_BTNodeDescriptor. pose proof (total_nonneg (take i recs)). lia. Qed.
Lemma rec_offset_all recs : rec_offset recs (length recs) = sizeof_BTNodeDescriptor + total recs.
Proof. unfold rec_offset. by rewrite firstn_all. Qed.
Lemma rec_offset_end recs i : (i <= length recs)%nat ->
  rec_offset recs (length recs) = rec_offset recs i + total (drop i recs).
Proof. intros. rewrite rec_offset_all. unfold rec_offset. rewrite (total_split recs i). lia. Qed.
Lemma rec_offset_S recs i r : recs !! i = Some r ->
  rec_offset recs (S i) = rec_offset recs i + Z.of_nat (length r).
Proof.
  intros H. unfold rec_offset. rewrite (take_S_r _ _ _ H), total_app, total_cons.
  change (total []) with 0. lia.
Qed.

(** Bounds of the values of a node, for [lia]. *)
Lemma node_holds_bounds size recs node i :
  node_holds size recs node -> (i <= length recs)%nat ->
  14 <= rec_offset recs i <= rec_offset recs (length recs) /\
  rec_offset recs (length recs) + 2 * Z.of_nat (length recs) + 2 <= size <= 32768 /\
  Z.of_nat (length node) = size.
Proof.
  intros H Hi. pose proof (rec_offset_ge recs i). pose proof (rec_offset_mono recs i (length recs) Hi).
  destruct H. lia.
Qed.

Section holds.
Context (bt : BTreeControlBlock) (recs : list buffer) (node : buffer).
Context (Hh : node_holds (nodeSize bt) recs node).

Lemma numRecords_holds : numRecords node = Ok (Z.of_nat (length recs)).
Proof using Hh.
  destruct (node_holds_bounds _ _ _ 0 Hh ltac:(lia)) as (? & ? & ?).
  apply load16_slice; [lia..|]. apply Hh.
Qed.

Lemma load_offset i : (i <= length recs)%nat ->
  load16 node (entry_pos (nodeSize bt) i) = Ok (rec_offset recs i).
Proof using Hh.
  intros Hi. destruct (node_holds_bounds _ _ _ i Hh Hi) as (? & ? & ?).
  unfold entry_pos. apply load16_slice; [lia..|]. by apply Hh.
Qed.

Lemma GetRecordOffset_holds i : (i <= length recs)%nat ->
  GetRecordOffset bt node (Z.of_nat i) = Ok (rec_offset recs i).
Proof using Hh.
  intros Hi. destruct (node_holds_bounds _ _ _ i Hh Hi) as (? & ? & ?).
  unfold GetRecordOffset, kOffsetSize. rewrite Z.shiftl_mul_pow2 by lia.
  replace (nodeSize bt - Z.of_nat i * 2 ^ 1 - 2) with (entry_pos (nodeSize bt) i)
    by (unfold entry_pos; lia).
  rewrite load_offset by done. simpl. by rewrite s16_small by lia.
Qed.

Lemma GetNodeFreeSize_holds :
  GetNodeFreeSize bt node =
  Ok (nodeSize bt - rec_offset recs (length recs) - 2 * Z.of_nat (length recs) - 2).
Proof using Hh.
  destruct (node_holds_bounds _ _ _ (length recs) Hh ltac:(lia)) as (? & ? & ?).
  unfold GetNodeFreeSize, kOffsetSize. rewrite numRecords_holds. simpl.
  rewrite GetRecordOffset_holds by lia. simpl. rewrite Z.shiftl_mul_pow2 by lia.
  rewrite (u16_small (rec_offset _ _)) by lia. rewrite u16_small by lia. f_equal. lia.
Qed.

Lemma slice_records i j : (i <= j <= length recs)%nat ->
  slice node (rec_offset recs i) (rec_offset recs j - rec_offset recs i) =
  concat (drop i (take j recs)).
Proof using Hh.
  intros Hij. unfold rec_offset.
  pose proof (total_take_le recs i j ltac:(lia)). pose proof (total_nonneg (take i recs)).
  pose proof (total_split recs j). pose proof (total_nonneg (drop j recs)).
  replace (sizeof_BTNodeDescriptor + total (take j recs) - (sizeof_BTNodeDescriptor + total (take i recs)))
    with (total (take j recs) - total (take i recs)) by lia.
  rewrite <- (slice_slice node _ (total recs)) by (unfold sizeof_BTNodeDescriptor; lia).
  rewrite (nh_data _ _ _ Hh).
  assert (concat recs = concat (take i recs) ++ concat (drop i (take j recs)) ++ concat (drop j recs)) as ->.
  { rewrite app_assoc, <- !concat_app. f_equal.
    assert (take i recs = take i (take j recs)) as -> by (by rewrite take_take, Nat.min_l by lia).
    by rewrite (take_drop i (take j recs)), take_drop. }
  apply slice_app_at; [done|].
  rewrite (total_split (take j recs) i), take_take, Nat.min_l by lia. unfold total. lia.
Qed.

Lemma slice_record i r : recs !! i = Some r ->
  slice node (rec_offset recs i) (Z.of_nat (length r)) = r.
Proof using Hh.
  intros Hr. pose proof (lookup_lt_Some _ _ _ Hr). pose proof (rec_offset_S _ _ _ Hr).
  replace (Z.of_nat (length r)) with (rec_offset recs (S i) - rec_offset recs i) by lia.
  rewrite slice_records by lia. rewrite (take_S_r _ _ _ Hr).
  rewrite drop_app_ge by (rewrite length_take; lia).
  rewrite length_take, Nat.min_l, Nat.sub_diag by lia. simpl. by rewrite app_nil_r.
Qed.
End holds.

(** ** The offset table *)

(** [node'] has the bytes of [node] outside [\[a, b)]. *)
Definition same_outside (a b : Z) (node node' : buffer) : Prop :=
  length node' = length node /\
  forall p n, 0 <= p -> 0 <= n -> p + n <= a \/ b <= p -> slice node' p n = slice node p n.

Lemma same_outside_refl a b node : same_outside a b node node.
Proof. done. Qed.

Lemma same_outside_trans a b c d lo hi n1 n2 n3 :
  same_outside a b n1 n2 -> same_outside c d n2 n3 ->
  lo <= a -> b <= hi -> lo <= c -> d <= hi -> same_outside lo hi n1 n3.
Proof.
  intros [L1 H1] [L2 H2] ? ? ? ?. split; [congruence|].
  intros p n ? ? ?. rewrite H2, H1; done || lia.
Qed.

Lemma same_outside_splice p bs node :
  0 <= p -> p + Z.of_nat (length bs) <= Z.of_nat (length node) ->
  same_outside p (p + Z.of_nat (length bs)) node (splice node p bs).
Proof.
  intros. split; [by apply splice_length|]. intros. apply slice_splice_disjoint; lia.
Qed.

Lemma same_outside_16 p v node :
  0 <= p -> p + 2 <= Z.of_nat (length node) ->
  same_outside p (p + 2) node (splice node p (le_encode 2 v)).
Proof. intros. apply (same_outside_splice p (le_encode 2 v)); rewrite ?le_encode_length; lia. Qed.

Lemma insert_offsets_spec k : forall node src delta (vals : nat -> Z),
  2 <= src -> src + 2 * Z.of_nat k <= Z.of_nat (length node) ->
  (forall j, (j < k)%nat -> 0 <= vals j < 65536 /\
     slice node (src + 2 * Z.of_nat j) 2 = le_encode 2 (vals j)) ->
  exists node', insert_offsets k node src delta = Ok node' /\
    same_outside (src - 2) (src + 2 * Z.of_nat k - 2) node node' /\
    forall j, (j < k)%nat -> slice node' (src + 2 * Z.of_nat j - 2) 2 = le_encode 2 (vals j + delta).
Proof.
  induction k as [|k IH]; intros node src delta vals Hsrc Hlen Hvals; simpl.
  { exists node. split_and!; [done|done|lia]. }
  destruct (Hvals 0%nat ltac:(lia)) as [Hv0 H0]. rewrite Z.add_0_r in H0.
  rewrite (load16_slice _ _ (vals 0%nat)) by (done || lia). simpl.
  rewrite store16_ok by lia. simpl. rewrite le_encode16_mod.
  set (node1 := splice node (src - 2) _).
  assert (same_outside (src - 2) src node node1) as Hs1.
  { replace src with (src - 2 + 2) at 2 by lia. apply same_outside_16; lia. }
  destruct (IH node1 (src + 2) delta (fun j => vals (S j))) as (node' & Hrun & Hs & Hnew);
    [lia|destruct Hs1; lia| |].
  { intros j Hj. destruct (Hvals (S j) ltac:(lia)) as [Hr Hsl]. split; [done|].
    replace (src + 2 + 2 * Z.of_nat j) with (src + 2 * Z.of_nat (S j)) by lia.
    rewrite (proj2 Hs1) by lia. done. }
  exists node'. split_and!; [done| |].
  { apply (same_outside_trans _ _ _ _ _ _ _ _ _ Hs1 Hs); lia. }
  intros [|j] Hj.
  - rewrite (proj2 Hs) by lia. replace (src + 2 * Z.of_nat 0 - 2) with (src - 2) by lia.
    apply slice_splice_same; rewrite ?le_encode_length; lia.
  - rewrite <- Hnew by lia. f_equal. lia.
Qed.

Lemma delete_offsets_spec k : forall node dst delta (vals : nat -> Z),
  2 + 2 * Z.of_nat k <= dst -> dst <= Z.of_nat (length node) ->
  (forall j, (j < k)%nat -> 0 <= vals j < 65536 /\
     slice node (dst - 4 - 2 * Z.of_nat j) 2 = le_encode 2 (vals j)) ->
  exists node', delete_offsets k node dst delta = Ok node' /\
    same_outside (dst - 2 * Z.of_nat k) dst node node' /\
    forall j, (j < k)%nat -> slice node' (dst - 2 - 2 * Z.of_nat j) 2 = le_encode 2 (vals j - delta).
Proof.
  induction k as [|k IH]; intros node dst delta vals Hdst Hlen Hvals; simpl.
  { exists node. split_and!; [done|done|lia]. }
  destruct (Hvals 0%nat ltac:(lia)) as [Hv0 H0]. rewrite Z.sub_0_r in H0.
  rewrite (load16_slice _ _ (vals 0%nat)) by (done || lia). simpl.
  rewrite store16_ok by lia. simpl. rewrite le_encode16_mod.
  set (node1 := splice node (dst - 2) _).
  assert (same_outside (dst - 2) dst node node1) as Hs1.
  { replace dst with (dst - 2 + 2) at 2 by lia. apply same_outside_16; lia. }
  destruct (IH node1 (dst - 2) delta (fun j => vals (S j))) as (node' & Hrun & Hs & Hnew);
    [lia|destruct Hs1; lia| |].
  { intros j Hj. destruct (Hvals (S j) ltac:(lia)) as [Hr Hsl]. split; [done|].
    replace (dst - 2 - 4 - 2 * Z.of_nat j) with (dst - 4 - 2 * Z.of_nat (S j)) by lia.
    rewrite (proj2 Hs1) by lia. done. }
  exists node'. split_and!; [done| |].
  { apply (same_outside_trans _ _ _ _ _ _ _ _ _ Hs1 Hs); lia. }
  intros [|j] Hj.
  - rewrite (proj2 Hs) by lia. replace (dst - 2 - 2 * Z.of_nat 0) with (dst - 2) by lia.
    apply slice_splice_same; rewrite ?le_encode_length; lia.
  - rewrite <- Hnew by lia. f_equal. lia.
Qed.

(** A table of [N + 1] offsets at the end of a node. *)
Record table (size : Z) (N : nat) (offs : nat -> Z) (node : buffer) : Prop := {
  tb_size : Z.of_nat (length node) = size;
  tb_max : size <= 32768;
  tb_count : slice node 10 2 = le_encode 2 (Z.of_nat N);
  tb_offs j : (j <= N)%nat ->
    0 <= offs j < 32768 /\ slice node (entry_pos size j) 2 = le_encode 2 (offs j)
}.

Lemma InsertOffset_spec bt N offs node (i : nat) delta :
  table (nodeSize bt) N offs node -> (i <= N)%nat ->
  14 <= nodeSize bt - 2 * Z.of_nat N - 4 ->
  exists node', InsertOffset bt node (Z.of_nat i) delta = Ok node' /\
    length node' = length node /\
    slice node' 10 2 = le_encode 2 (Z.of_nat (S N)) /\
    (forall j, (i <= j <= N)%nat ->
       slice node' (entry_pos (nodeSize bt) (S j)) 2 = le_encode 2 (offs j + delta)) /\
    (forall p n, 0 <= p -> 0 <= n ->
       p + n <= 10 \/ 12 <= p /\ p + n <= entry_pos (nodeSize bt) (S N) \/
       entry_pos (nodeSize bt) i <= p -> slice node' p n = slice node p n).
Proof.
  intros [Hsz Hmax Hcnt Hoffs] Hi Hroom. unfold InsertOffset.
  unfold numRecords. rewrite (load16_slice _ _ (Z.of_nat N)) by (done || lia). simpl.
  unfold set_numRecords. rewrite store16_ok, le_encode16_mod by lia. simpl.
  set (node1 := splice node 10 _).
  assert (same_outside 10 12 node node1) as Hs1 by (apply (same_outside_16 10); lia).
  unfold GetOffsetAddress. rewrite Z.shiftl_mul_pow2 by lia. rewrite u16_small by lia.
  replace (Z.to_nat (Z.of_nat N - Z.of_nat i)) with (N - i)%nat by lia.
  destruct (insert_offsets_spec (S (N - i)) node1 (nodeSize bt - Z.of_nat N * 2 ^ 1 - 2) delta
              (fun j => offs (N - j)%nat)) as (node' & Hrun & Hs & Hnew).
  { lia. } { destruct Hs1. lia. }
  { intros j Hj. destruct (Hoffs (N - j)%nat ltac:(lia)) as [Hr Hsl]. split; [lia|].
    rewrite (proj2 Hs1) by lia. rewrite <- Hsl. unfold entry_pos. f_equal. lia. }
  exists node'. unfold entry_pos in *. split_and!; [done|destruct Hs, Hs1; congruence| | |].
  - rewrite (proj2 Hs) by lia. replace (Z.of_nat (S N)) with (Z.of_nat N + 1) by lia.
    apply slice_splice_same; rewrite ?le_encode_length; lia.
  - intros j Hj. replace (offs j) with (offs (N - (N - j))%nat) by (f_equal; lia).
    rewrite <- Hnew by lia. f_equal. lia.
  - intros p n Hp Hn Hcase. rewrite (proj2 Hs) by lia. apply (proj2 Hs1); lia.
Qed.

Lemma DeleteOffset_spec bt N offs node (i : nat) :
  table (nodeSize bt) (S N) offs node -> (i <= N)%nat ->
  14 <= nodeSize bt - 2 * Z.of_nat N - 4 -> offs i <= offs (S i) ->
  exists node', DeleteOffset bt node (Z.of_nat i) = Ok node' /\
    length node' = length node /\
    slice node' 10 2 = le_encode 2 (Z.of_nat N) /\
    (forall j, (i < j <= N)%nat ->
       slice node' (entry_pos (nodeSize bt) j) 2 = le_encode 2 (offs (S j) - (offs (S i) - offs i))) /\
    (forall p n, 0 <= p -> 0 <= n ->
       p + n <= 10 \/ 12 <= p /\ p + n <= entry_pos (nodeSize bt) N \/
       entry_pos (nodeSize bt) i <= p -> slice node' p n = slice node p n).
Proof.
  intros [Hsz Hmax Hcnt Hoffs] Hi Hroom Hmono. unfold DeleteOffset.
  unfold GetOffsetAddress. rewrite Z.shiftl_mul_pow2 by lia.
  destruct (Hoffs i ltac:(lia)) as [Hr1 Hs1]. destruct (Hoffs (S i) ltac:(lia)) as [Hr2 Hs2].
  unfold entry_pos in *.
  rewrite (load16_slice _ (_ - 2 - 2) (offs (S i))); [|lia|lia|lia|rewrite <- Hs2; f_equal; lia]. simpl.
  rewrite (load16_slice _ _ (offs i)); [|lia|lia|lia|rewrite <- Hs1; f_equal; lia]. simpl.
  unfold numRecords. rewrite (load16_slice _ _ (Z.of_nat (S N))) by (done || lia). simpl.
  unfold set_numRecords. rewrite store16_ok, le_encode16_mod by lia. simpl.
  replace (Z.of_nat (S N) - 1) with (Z.of_nat N) by lia.
  set (node1 := splice node 10 _).
  assert (same_outside 10 12 node node1) as Ho1 by (apply (same_outside_16 10); lia).
  rewrite (u16_small (Z.of_nat N)), !u16_small by lia.
  replace (Z.to_nat (Z.of_nat N - Z.of_nat i)) with (N - i)%nat by lia.
  destruct (delete_offsets_spec (N - i) node1 (nodeSize bt - Z.of_nat i * 2 ^ 1 - 2)
              (offs (S i) - offs i) (fun j => offs (S (S i) + j)%nat)) as (node' & Hrun & Hs & Hnew).
  { lia. } { destruct Ho1. lia. }
  { intros j Hj. destruct (Hoffs (S (S i) + j)%nat ltac:(lia)) as [Hr Hsl]. split; [lia|].
    rewrite (proj2 Ho1) by lia. rewrite <- Hsl. f_equal. lia. }
  exists node'. split_and!; [done|destruct Hs, Ho1; congruence| | |].
  - rewrite (proj2 Hs) by lia. apply slice_splice_same; rewrite ?le_encode_length; lia.
  - intros j Hj. replace (S j) with (S (S i) + (j - S i))%nat by lia.
    rewrite <- Hnew by lia. f_equal. lia.
  - intros p n Hp Hn Hcase. rewrite (proj2 Hs) by lia. apply (proj2 Ho1); lia.
Qed.

(** ** Inserting a record *)

Definition insert_at {A} (i : nat) (x : A) (l : list A) : list A := take i l ++ x :: drop i l.

Lemma insert_at_length {A} i (x : A) l : (i <= length l)%nat -> length (insert_at i x l) = S (length l).
Proof. intros. unfold insert_at. rewrite length_app, length_take. simpl. rewrite length_drop. lia. Qed.

Lemma rec_offset_insert_low recs i r j : (j <= i <= length recs)%nat ->
  rec_offset (insert_at i r recs) j = rec_offset recs j.
Proof.
  intros. unfold rec_offset, insert_at. rewrite take_app_le by (rewrite length_take; lia).
  by rewrite take_take, Nat.min_l by lia.
Qed.

Lemma rec_offset_insert_high recs i r j : (i <= j <= length recs)%nat ->
  rec_offset (insert_at i r recs) (S j) = rec_offset recs j + Z.of_nat (length r).
Proof.
  intros. unfold rec_offset, insert_at. rewrite take_app_ge by (rewrite length_take; lia).
  rewrite length_take, Nat.min_l by lia. replace (S j - i)%nat with (S (j - i)) by lia. simpl.
  rewrite total_app, total_cons.
  replace (total (take j recs)) with (total (take i recs) + total (take (j - i) (drop i recs))); [lia|].
  rewrite <- total_app. f_equal. rewrite <- (take_drop i (take j recs)).
  rewrite take_take, Nat.min_l by lia. f_equal. by rewrite skipn_firstn_comm.
Qed.

(** A node with room for a record of [d] bytes at position [i], whose bytes are
    not set yet. *)
Record hole (size : Z) (recs : list buffer) (i : nat) (d : Z) (node : buffer) : Prop := {
  ho_size : Z.of_nat (length node) = size;
  ho_max : size <= 32768;
  ho_count : slice node 10 2 = le_encode 2 (Z.of_nat (S (length recs)));
  ho_low j : (j <= i)%nat -> slice node (entry_pos size j) 2 = le_encode 2 (rec_offset recs j);
  ho_high j : (i <= j <= length recs)%nat ->
    slice node (entry_pos size (S j)) 2 = le_encode 2 (rec_offset recs j + d);
  ho_before : slice node 14 (rec_offset recs i - 14) = concat (take i recs);
  ho_after : slice node (rec_offset recs i + d) (total (drop i recs)) = concat (drop i recs);
  ho_fits : rec_offset recs (length recs) + d + 2 * Z.of_nat (S (length recs)) + 2 <= size
}.

Lemma holds_table bt recs node :
  node_holds (nodeSize bt) recs node -> table (nodeSize bt) (length recs) (rec_offset recs) node.
Proof.
  intros H. split; [apply H..|]. intros j Hj.
  destruct (node_holds_bounds _ _ _ j H Hj) as (? & ? & ?). split; [lia|]. by apply H.
Qed.

(** The move of the records behind the insertion point. *)
Lemma shift_spec bt recs node (i : nat) d :
  node_holds (nodeSize bt) recs node -> (i <= length recs)%nat -> 0 <= d ->
  rec_offset recs (length recs) + d + 2 * Z.of_nat (length recs) + 4 <= nodeSize bt ->
  let n := rec_offset recs (length recs) - rec_offset recs i in
  exists node1,
    (if n =? 0 then Ok node else bcopy node (rec_offset recs i) (rec_offset recs i + d) n) = Ok node1 /\
    same_outside (rec_offset recs i + d) (rec_offset recs (length recs) + d) node node1 /\
    slice node1 (rec_offset recs i + d) (total (drop i recs)) = concat (drop i recs).
Proof.
  intros Hh Hi Hd Hfit n. destruct (node_holds_bounds _ _ _ i Hh Hi) as (? & ? & ?).
  pose proof (rec_offset_end recs i Hi) as He.
  assert (slice node (rec_offset recs i) n = concat (drop i recs)) as Hn.
  { unfold n. rewrite (slice_records _ _ _ Hh) by lia. by rewrite firstn_all. }
  destruct (Z.eqb_spec n 0) as [E|E].
  - exists node. split_and!; [done|done|]. replace (total (drop i recs)) with 0 by lia.
    rewrite <- Hn, E. done.
  - rewrite bcopy_ok by lia. rewrite Hn. eexists. split_and!; [done| |].
    + replace (rec_offset recs (length recs) + d)
        with (rec_offset recs i + d + Z.of_nat (length (concat (drop i recs))))
        by (unfold total in He; lia).
      apply same_outside_splice; unfold total in He; lia.
    + apply slice_splice_same; unfold total in *; lia.
Qed.

Lemma make_hole bt recs node (i : nat) d :
  node_holds (nodeSize bt) recs node -> (i <= length recs)%nat -> 0 <= d ->
  rec_offset recs (length recs) + d + 2 * Z.of_nat (length recs) + 4 <= nodeSize bt ->
  let n := rec_offset recs (length recs) - rec_offset recs i in
  exists node1 node2,
    (if n =? 0 then Ok node else bcopy node (rec_offset recs i) (rec_offset recs i + d) n) = Ok node1 /\
    InsertOffset bt node1 (Z.of_nat i) d = Ok node2 /\
    hole (nodeSize bt) recs i d node2 /\ same_links node node2.
Proof.
  intros Hh Hi Hd Hfit n. destruct (node_holds_bounds _ _ _ i Hh Hi) as (? & ? & ?).
  pose proof (rec_offset_end recs i Hi) as He. pose proof (total_nonneg (drop i recs)).
  destruct (shift_spec bt recs node i d Hh Hi Hd Hfit) as (node1 & Hrun1 & Hs1 & Hafter).
  destruct (InsertOffset_spec bt (length recs) (rec_offset recs) node1 i d)
    as (node2 & Hrun2 & Hlen2 & Hcnt2 & Hhigh & Hsame).
  { pose proof (holds_table _ _ _ Hh) as [Hsz Hmax Hcnt Hoffs]. destruct Hs1 as [Hl1 Hs1].
    split; [lia|done|rewrite Hs1 by lia; done|]. intros j Hj.
    split; [by apply Hoffs|]. rewrite Hs1 by (unfold entry_pos; lia). by apply Hoffs. }
  { done. } { lia. }
  exists node1, node2. unfold entry_pos in *. destruct Hs1 as [Hl1 Hs1].
  split_and!; [done|done| |].
  - split; [lia|lia|done| | | | |lia].
    + intros j Hj. unfold entry_pos. rewrite Hsame, Hs1 by lia. apply Hh. lia.
    + intros j Hj. unfold entry_pos. by apply Hhigh.
    + rewrite Hsame, Hs1 by lia.
      replace 14 with (rec_offset recs 0) by (unfold rec_offset; rewrite take_0; done).
      rewrite (slice_records _ _ _ Hh) by lia. by rewrite drop_0.
    + rewrite Hsame by lia. done.
  - split; rewrite Hsame, Hs1 by lia; done.
Qed.

Lemma fill_hole size recs (i : nat) d node node' r :
  hole size recs i d node -> (i <= length recs)%nat ->
  same_outside (rec_offset recs i) (rec_offset recs i + d) node node' ->
  Z.of_nat (length r) = d -> slice node' (rec_offset recs i) d = r ->
  node_holds size (insert_at i r recs) node' /\ same_links node node'.
Proof.
  intros [Hsz Hmax Hcnt Hlow Hhigh Hbef Haft Hfit] Hi [Hl Hs] Hr Hslice.
  pose proof (rec_offset_ge recs i). pose proof (rec_offset_end recs i Hi).
  pose proof (total_nonneg (drop i recs)).
  split; [|split; apply Hs; lia]. split.
  - lia.
  - done.
  - rewrite insert_at_length, Hs by lia. done.
  - rewrite insert_at_length by done. intros j Hj. rewrite Hs by (unfold entry_pos; lia).
    destruct (decide (j <= i)%nat).
    + rewrite rec_offset_insert_low by lia. by apply Hlow.
    + destruct j as [|j]; [lia|]. rewrite rec_offset_insert_high, Hr by lia. apply Hhigh. lia.
  - unfold insert_at. rewrite concat_app. simpl. rewrite total_app, total_cons, Hr.
    assert (total (take i recs) = rec_offset recs i - 14) as ->
      by (unfold rec_offset, sizeof_BTNodeDescriptor; lia).
    rewrite !slice_app by (unfold sizeof_BTNodeDescriptor; lia).
    unfold sizeof_BTNodeDescriptor. replace (14 + (rec_offset recs i - 14)) with (rec_offset recs i) by lia.
    rewrite Hslice. f_equal; [|f_equal]; rewrite Hs by lia; done.
  - rewrite insert_at_length by done. rewrite rec_offset_insert_high by lia. lia.
Qed.

Lemma InsertRecord_full bt recs node (i : nat) recPtr recSize :
  node_holds (nodeSize bt) recs node ->
  nodeSize bt < rec_offset recs (length recs) + recSize + 2 * Z.of_nat (length recs) + 4 ->
  InsertRecord bt node (Z.of_nat i) recPtr recSize = Ok (false, node).
Proof.
  intros Hh Hfull. unfold InsertRecord. rewrite (GetNodeFreeSize_holds _ _ _ Hh). simpl.
  case_ztests. done.
Qed.

Lemma InsertRecord_fits bt recs node (i : nat) recPtr recSize :
  node_holds (nodeSize bt) recs node -> (i <= length recs)%nat -> 0 <= recSize ->
  recSize <= Z.of_nat (length recPtr) ->
  rec_offset recs (length recs) + recSize + 2 * Z.of_nat (length recs) + 4 <= nodeSize bt ->
  exists node', InsertRecord bt node (Z.of_nat i) recPtr recSize = Ok (true, node') /\
    node_holds (nodeSize bt) (insert_at i (slice recPtr 0 recSize) recs) node' /\
    same_links node node'.
Proof.
  intros Hh Hi Hd Hrec Hfit. destruct (node_holds_bounds _ _ _ i Hh Hi) as (? & ? & ?).
  unfold InsertRecord. rewrite (GetNodeFreeSize_holds _ _ _ Hh). simpl. case_ztest; [lia|].
  rewrite (GetRecordOffset_holds _ _ _ Hh), (numRecords_holds _ _ _ Hh) by done. simpl.
  rewrite (GetRecordOffset_holds _ _ _ Hh) by lia. simpl.
  rewrite (u16_small (rec_offset recs i)), (u16_small (rec_offset recs (length recs))) by lia.
  rewrite u16_small by lia.
  destruct (make_hole bt recs node i recSize Hh Hi Hd Hfit) as (n1 & n2 & -> & Hrun2 & Hho & Hl). simpl.
  rewrite Hrun2. simpl. unfold copy_in. rewrite get_bytes_ok by lia. simpl.
  assert (Z.of_nat (length (slice recPtr 0 recSize)) = recSize) as Hlr by (apply slice_length; lia).
  assert (Z.of_nat (length n2) = nodeSize bt) by apply Hho.
  rewrite put_bytes_ok by lia. simpl.
  destruct (fill_hole _ _ _ _ _ (splice n2 (rec_offset recs i) (slice recPtr 0 recSize))
              (slice recPtr 0 recSize) Hho Hi) as [Hnew Hl'].
  { rewrite <- Hlr at 1. apply same_outside_splice; lia. }
  { done. } { apply slice_splice_same; lia. }
  eexists. split_and!; [done|done|]. destruct Hl, Hl'. split; congruence.
Qed.

(** ** Inserting a key and a record *)

Definition size_of_length (bt : BTreeControlBlock) : nat := if big_keys bt then 2 else 1.
(** The size of a key in a node: length field, key, and a pad byte to make it even. *)
Definition padded_key_size (bt : BTreeControlBlock) (keyLength : Z) : Z :=
  let keySize := keyLength + Z.of_nat (size_of_length bt) in
  if Z.odd keySize then keySize + 1 else keySize.

(** The bytes of a keyed record: [keyLength] as the length field, the bytes of the
    key, zeros up to the padded size, and the data. *)
Definition key_record (bt : BTreeControlBlock) (key : buffer) (raw keyLength : Z) (data : buffer)
    : buffer :=
  let szl := Z.of_nat (size_of_length bt) in
  le_encode (size_of_length bt) keyLength ++ slice key szl raw ++
  replicate (Z.to_nat (padded_key_size bt keyLength - szl - raw)) 0 ++ data.

Lemma size_of_length_range bt : (1 <= size_of_length bt <= 2)%nat.
Proof. unfold size_of_length. destruct (big_keys bt); lia. Qed.

Lemma padded_key_size_range bt kl :
  kl + Z.of_nat (size_of_length bt) <= padded_key_size bt kl <= kl + Z.of_nat (size_of_length bt) + 1.
Proof. unfold padded_key_size. destruct (Z.odd _); lia. Qed.

Lemma slice_splice_prefix m p n bs :
  0 <= p -> 0 <= n <= Z.of_nat (length bs) -> p + Z.of_nat (length bs) <= Z.of_nat (length m) ->
  slice (splice m p bs) p n = slice bs 0 n.
Proof.
  intros. rewrite <- (Z.add_0_r p) at 2.
  rewrite <- (slice_slice _ _ (Z.of_nat (length bs))) by lia.
  by rewrite slice_splice_same by lia.
Qed.

Lemma slice_replicate (x : Z) k n : 0 <= n <= Z.of_nat k -> slice (replicate k x) 0 n = replicate (Z.to_nat n) x.
Proof. intros. unfold slice. rewrite drop_0, take_replicate. f_equal. lia. Qed.

(** The writes that fill the hole, the clearing of pad bytes reaching into the
    area of the record, which is written last. *)
Lemma write_key_record m io hd kd z rec :
  0 <= io -> (length hd <= length rec)%nat -> (length hd <= z)%nat ->
  io + Z.of_nat (length kd + z + length rec) <= Z.of_nat (length m) ->
  exists m', (m1 ← put_bytes m io hd;
              m2 ← put_bytes m1 (io + Z.of_nat (length hd)) kd;
              m3 ← put_bytes m2 (io + Z.of_nat (length hd) + Z.of_nat (length kd)) (replicate z 0);
              put_bytes m3 (io + Z.of_nat (length kd + z)) rec) = Ok m' /\
    same_outside io (io + Z.of_nat (length kd + z + length rec)) m m' /\
    slice m' io (Z.of_nat (length kd + z + length rec)) =
      hd ++ kd ++ replicate (z - length hd) 0 ++ rec.
Proof.
  intros Hio Hrec Hz Hlen.
  rewrite put_bytes_ok by lia. simpl.
  pose proof (same_outside_splice io hd m ltac:(lia) ltac:(lia)) as S1.
  set (m1 := splice m io hd) in *. assert (length m1 = length m) as L1 by apply S1.
  rewrite put_bytes_ok by lia. simpl.
  pose proof (same_outside_splice (io + Z.of_nat (length hd)) kd m1 ltac:(lia) ltac:(lia)) as S2.
  set (m2 := splice m1 _ kd) in *. assert (length m2 = length m) as L2 by (rewrite <- L1; apply S2).
  rewrite put_bytes_ok by (rewrite ?length_replicate; lia). simpl.
  pose proof (same_outside_splice (io + Z.of_nat (length hd) + Z.of_nat (length kd)) (replicate z 0) m2
                ltac:(lia) ltac:(rewrite ?length_replicate; lia)) as S3.
  set (m3 := splice m2 _ (replicate z 0)) in *.
  assert (length m3 = length m) as L3 by (rewrite <- L2; apply S3).
  rewrite put_bytes_ok by lia.
  pose proof (same_outside_splice (io + Z.of_nat (length kd + z)) rec m3 ltac:(lia) ltac:(lia)) as S4.
  rewrite length_replicate in S3.
  eexists. split; [done|]. split.
  { pose proof (same_outside_trans _ _ _ _ io (io + Z.of_nat (length kd + z + length rec)) _ _ _ S1 S2
      ltac:(lia) ltac:(lia) ltac:(lia) ltac:(lia)) as S12.
    pose proof (same_outside_trans _ _ _ _ io (io + Z.of_nat (length kd + z + length rec)) _ _ _ S12 S3
      ltac:(lia) ltac:(lia) ltac:(lia) ltac:(lia)) as S13.
    apply (same_outside_trans _ _ _ _ _ _ _ _ _ S13 S4); lia. }
  replace (Z.of_nat (length kd + z + length rec)) with
    (Z.of_nat (length hd) + (Z.of_nat (length kd) + (Z.of_nat (z - length hd) + Z.of_nat (length rec)))) by lia.
  rewrite (slice_app _ io), (slice_app _ (io + Z.of_nat (length hd))), (slice_app _ (io + Z.of_nat (length hd) + Z.of_nat (length kd))) by lia.
  f_equal; [|f_equal; [|f_equal]].
  - rewrite (proj2 S4), (proj2 S3), (proj2 S2) by lia. apply slice_splice_same; lia.
  - rewrite (proj2 S4), (proj2 S3) by lia. apply slice_splice_same; lia.
  - rewrite (proj2 S4) by lia.
    unfold m3. rewrite slice_splice_prefix by (rewrite ?length_replicate; lia).
    rewrite slice_replicate by lia. f_equal. lia.
  - replace (io + Z.of_nat (length hd) + Z.of_nat (length kd) + Z.of_nat (z - length hd))
      with (io + Z.of_nat (length kd + z)) by lia.
    apply slice_splice_same; lia.
Qed.

Lemma put_length_field bt m p v :
  (if big_keys bt then store16 m p v else store8 m p v) = put_bytes m p (le_encode (size_of_length bt) v).
Proof. unfold size_of_length. by destruct (big_keys bt). Qed.

Lemma key_size_eq bt keyLength :
  0 <= keyLength < 65533 ->
  (if Z.odd (u16 (keyLength + (if big_keys bt then 2 else 1)))
   then u16 (u16 (keyLength + (if big_keys bt then 2 else 1)) + 1)
   else u16 (keyLength + (if big_keys bt then 2 else 1))) = padded_key_size bt keyLength.
Proof.
  intros. unfold padded_key_size, size_of_length.
  destruct (big_keys bt); simpl; rewrite (u16_small (keyLength + _)) by lia;
    destruct (Z.odd _); rewrite ?u16_small by lia; done.
Qed.

Lemma if_bzero m p n : 0 < n ->
  (if n =? 0 then Ok m else bzero m p n) = put_bytes m p (replicate (Z.to_nat n) 0).
Proof. intros. unfold bzero. case_ztests. done. Qed.

Lemma InsertKeyRecord_full bt recs node (i : nat) keyPtr keyLength recPtr recSize :
  node_holds (nodeSize bt) recs node -> 0 <= keyLength < 65533 ->
  nodeSize bt < rec_offset recs (length recs) + padded_key_size bt keyLength + recSize
                + 2 * Z.of_nat (length recs) + 4 ->
  InsertKeyRecord bt node (Z.of_nat i) keyPtr keyLength recPtr recSize = Ok (false, node).
Proof.
  intros Hh Hk Hfull. unfold InsertKeyRecord. rewrite (GetNodeFreeSize_holds _ _ _ Hh).
  cbv zeta. rewrite (key_size_eq bt keyLength Hk). simpl. case_ztests. done.
Qed.

Lemma InsertKeyRecord_fits bt recs node (i : nat) keyPtr raw keyLength recPtr recSize :
  node_holds (nodeSize bt) recs node -> (i <= length recs)%nat ->
  KeyLength bt keyPtr 0 = Ok raw -> 0 <= raw <= keyLength -> keyLength < 65533 ->
  Z.of_nat (size_of_length bt) + raw <= Z.of_nat (length keyPtr) ->
  Z.of_nat (size_of_length bt) <= recSize <= Z.of_nat (length recPtr) ->
  rec_offset recs (length recs) + padded_key_size bt keyLength + recSize
    + 2 * Z.of_nat (length recs) + 4 <= nodeSize bt ->
  exists node', InsertKeyRecord bt node (Z.of_nat i) keyPtr keyLength recPtr recSize = Ok (true, node') /\
    node_holds (nodeSize bt)
      (insert_at i (key_record bt keyPtr raw keyLength (slice recPtr 0 recSize)) recs) node' /\
    same_links node node'.
Proof.
  intros Hh Hi Hraw Hrl Hkl Hkey Hrec Hfit. destruct (node_holds_bounds _ _ _ i Hh Hi) as (? & ? & ?).
  pose proof (padded_key_size_range bt keyLength). pose proof (size_of_length_range bt).
  unfold InsertKeyRecord. rewrite (GetNodeFreeSize_holds _ _ _ Hh).
  cbv zeta. rewrite (key_size_eq bt keyLength) by lia. simpl. case_ztest; [lia|].
  rewrite (GetRecordOffset_holds _ _ _ Hh), (numRecords_holds _ _ _ Hh) by done. simpl.
  rewrite (GetRecordOffset_holds _ _ _ Hh) by lia. simpl.
  rewrite (u16_small (rec_offset recs i)), (u16_small (rec_offset recs (length recs))) by lia.
  rewrite (u16_small (rec_offset recs (length recs) - _)), (u16_small (padded_key_size _ _ + _)) by lia.
  set (d := padded_key_size bt keyLength + recSize). rewrite <- Z.add_assoc. fold d.
  destruct (make_hole bt recs node i d Hh Hi ltac:(lia) ltac:(lia)) as (n1 & n2 & -> & Hrun2 & Hho & Hl).
  simpl. rewrite Hrun2. simpl. rewrite put_length_field.
  assert (Z.of_nat (length n2) = nodeSize bt) by apply Hho.
  assert ((if big_keys bt then 2 else 1) = Z.of_nat (size_of_length bt)) as ->
    by (unfold size_of_length; by destruct (big_keys bt)).
  set (szl := Z.of_nat (size_of_length bt)) in *.
  set (kd := slice keyPtr szl raw). set (rd := slice recPtr 0 recSize).
  assert (Z.of_nat (length kd) = raw) as Lk by (apply slice_length; lia).
  assert (Z.of_nat (length rd) = recSize) as Lr by (apply slice_length; lia).
  set (hd := le_encode (size_of_length bt) keyLength).
  assert (length hd = size_of_length bt) as Lh by apply le_encode_length.
  destruct (write_key_record n2 (rec_offset recs i) hd kd
              (Z.to_nat (padded_key_size bt keyLength - raw)) rd) as (m' & Hw & Hs & Hsl).
  { lia. } { lia. } { lia. } { lia. }
  replace (Z.of_nat (length kd + Z.to_nat (padded_key_size bt keyLength - raw) + length rd)) with d in * by lia.
  destruct (fill_hole _ _ _ _ _ m' (key_record bt keyPtr raw keyLength rd) Hho Hi) as [Hnew Hl'].
  { done. }
  { unfold key_record. fold szl kd. rewrite !length_app, length_replicate, le_encode_length. lia. }
  { rewrite Hsl. unfold key_record. fold szl kd hd. do 3 f_equal. f_equal. lia. }
  exists m'. split_and!; [|done|destruct Hl, Hl'; split; congruence].
  revert Hw. rewrite Lk, Lh. fold szl.
  replace (rec_offset recs i + Z.of_nat (length kd + Z.to_nat (padded_key_size bt keyLength - raw)))
    with (rec_offset recs i + padded_key_size bt keyLength) by lia.
  destruct (put_bytes n2 _ hd) as [m1| | |]; simpl; try discriminate.
  rewrite Hraw. simpl. unfold copy_in. rewrite (get_bytes_ok keyPtr) by lia. simpl. fold kd.
  destruct (put_bytes m1 _ kd) as [m2| | |]; simpl; try discriminate.
  rewrite u16_small, if_bzero by lia.
  destruct (put_bytes m2 _ (replicate _ 0)) as [m3| | |]; simpl; try discriminate.
  rewrite (get_bytes_ok recPtr) by lia. simpl. fold rd. intros ->. done.
Qed.

(** ** Deleting a record *)

Section delete.
Context (recs : list buffer) (i : nat) (r : buffer) (Hr : recs !! i = Some r).

Lemma delete_record_length : length recs = S (length (delete i recs)).
Proof using Hr. pose proof (lookup_lt_Some _ _ _ Hr). rewrite length_delete by eauto. lia. Qed.

Lemma rec_offset_delete_low j : (j <= i)%nat -> rec_offset (delete i recs) j = rec_offset recs j.
Proof using Hr.
  intros. pose proof (lookup_lt_Some _ _ _ Hr). unfold rec_offset. rewrite delete_take_drop.
  rewrite take_app_le by (rewrite length_take; lia). by rewrite take_take, Nat.min_l.
Qed.

Lemma rec_offset_delete_high j : (i <= j)%nat ->
  rec_offset (delete i recs) j = rec_offset recs (S j) - Z.of_nat (length r).
Proof using Hr.
  intros. pose proof (lookup_lt_Some _ _ _ Hr). unfold rec_offset.
  rewrite delete_take_drop, take_app_ge by (rewrite length_take; lia).
  rewrite length_take, Nat.min_l by lia. rewrite total_app.
  rewrite <- (take_drop i (take (S j) recs)), total_app, take_take, Nat.min_l by lia.
  rewrite skipn_firstn_comm. replace (S j - i)%nat with (S (j - i)) by lia.
  rewrite (drop_S _ _ _ Hr). simpl. rewrite total_cons. lia.
Qed.
End delete.

(** The move of the records behind the deleted one. *)
Lemma close_gap_spec bt recs node (i : nat) r :
  node_holds (nodeSize bt) recs node -> recs !! i = Some r ->
  let n := rec_offset recs (length recs) - rec_offset recs (S i) in
  exists node1,
    (if n =? 0 then Ok node else bcopy node (rec_offset recs (S i)) (rec_offset recs i) n) = Ok node1 /\
    same_outside (rec_offset recs i) (rec_offset recs i + n) node node1 /\
    slice node1 (rec_offset recs i) n = concat (drop (S i) recs).
Proof.
  intros Hh Hr n. pose proof (lookup_lt_Some _ _ _ Hr) as Hi. pose proof (rec_offset_S _ _ _ Hr).
  destruct (node_holds_bounds _ _ _ (S i) Hh ltac:(lia)) as (? & ? & ?).
  pose proof (rec_offset_ge recs i).
  assert (slice node (rec_offset recs (S i)) n = concat (drop (S i) recs)) as Hn.
  { unfold n. rewrite (slice_records _ _ _ Hh) by lia. by rewrite firstn_all. }
  assert (Z.of_nat (length (concat (drop (S i) recs))) = n) as Hln
    by (pose proof (rec_offset_end recs (S i) ltac:(lia)); unfold total in *; lia).
  destruct (Z.eqb_spec n 0) as [E|E].
  - exists node. split_and!; [done|done|]. rewrite <- Hn, E. done.
  - rewrite bcopy_ok, Hn by lia. eexists. split_and!; [done| |].
    + rewrite <- Hln. apply same_outside_splice; lia.
    + apply slice_splice_same; lia.
Qed.

Lemma DeleteRecord_spec bt recs node (i : nat) r :
  node_holds (nodeSize bt) recs node -> recs !! i = Some r ->
  exists node', DeleteRecord bt node (Z.of_nat i) = Ok node' /\
    node_holds (nodeSize bt) (delete i recs) node' /\ same_links node node' /\
    slice node' (rec_offset (delete i recs) (length (delete i recs))) (Z.of_nat (length r)) =
      replicate (length r) 0.
Proof.
  intros Hh Hr. pose proof (lookup_lt_Some _ _ _ Hr) as Hi. pose proof (rec_offset_S _ _ _ Hr) as HS.
  destruct (node_holds_bounds _ _ _ (S i) Hh ltac:(lia)) as (? & ? & ?).
  pose proof (rec_offset_ge recs i). pose proof (delete_record_length _ _ _ Hr) as HL.
  pose proof (rec_offset_delete_high _ _ _ Hr (length (delete i recs)) ltac:(lia)) as HE.
  rewrite <- HL in HE. set (N := length (delete i recs)) in *.
  destruct (close_gap_spec bt recs node i r Hh Hr) as (node1 & Hrun1 & [Hl1 Hs1] & Hdata1).
  unfold DeleteRecord. rewrite (GetRecordOffset_holds _ _ _ Hh) by lia. simpl.
  replace (Z.of_nat i + 1) with (Z.of_nat (S i)) by lia.
  rewrite (GetRecordOffset_holds _ _ _ Hh) by lia. simpl.
  rewrite (numRecords_holds _ _ _ Hh). simpl. rewrite (GetRecordOffset_holds _ _ _ Hh) by lia. simpl.
  rewrite !s16_small by lia. rewrite Hrun1. simpl.
  destruct (DeleteOffset_spec bt N (rec_offset recs) node1 i)
    as (node2 & -> & Hl2 & Hcnt2 & Hnew2 & Hs2); [|lia..|].
  { pose proof (holds_table _ _ _ Hh) as [Hsz Hmax Hcnt Hoffs].
    split; [lia|done|rewrite <- HL, Hs1 by lia; done|]. intros j Hj. rewrite <- HL in Hj.
    split; [by apply Hoffs|]. rewrite Hs1 by (unfold entry_pos; lia). by apply Hoffs. }
  simpl. unfold numRecords. rewrite (load16_slice _ _ (Z.of_nat N)) by (done || lia). simpl.
  unfold entry_pos in *.
  assert (forall j, (j <= N)%nat ->
    slice node2 (nodeSize bt - 2 * Z.of_nat j - 2) 2 = le_encode 2 (rec_offset (delete i recs) j)) as Hent.
  { intros j Hj. destruct (decide (j <= i)%nat).
    - rewrite Hs2, Hs1 by lia. rewrite (rec_offset_delete_low _ _ _ Hr) by lia. apply Hh. lia.
    - rewrite Hnew2 by lia. rewrite (rec_offset_delete_high _ _ _ Hr) by lia. f_equal. lia. }
  unfold GetRecordAddress, GetRecordOffset, kOffsetSize. rewrite Z.shiftl_mul_pow2 by lia.
  rewrite (load16_slice _ _ (rec_offset (delete i recs) N));
    [|lia|lia|lia|rewrite <- Hent by lia; f_equal; lia].
  simpl. rewrite s16_small by lia. rewrite bzero_ok by lia.
  replace (Z.to_nat (rec_offset recs (S i) - rec_offset recs i)) with (length r) by lia.
  set (node3 := splice node2 _ _).
  assert (same_outside (rec_offset (delete i recs) N) (rec_offset recs (length recs)) node2 node3) as [Hl3 Hs3].
  { replace (rec_offset recs (length recs)) with
      (rec_offset (delete i recs) N + Z.of_nat (length (replicate (length r) 0)))
      by (rewrite length_replicate; lia).
    apply same_outside_splice; [lia|]. rewrite length_replicate. lia. }
  exists node3. split_and!; [done| | |].
  - split.
    + lia.
    + lia.
    + rewrite Hs3 by lia. done.
    + intros j Hj. unfold entry_pos. fold N in Hj. rewrite Hs3 by lia. by apply Hent.
    + pose proof (rec_offset_all (delete i recs)) as HT. fold N in HT. unfold sizeof_BTNodeDescriptor in *.
      rewrite Hs3, delete_take_drop, concat_app, total_app by lia.
      pose proof (rec_offset_end recs (S i) ltac:(lia)).
      assert (total (take i recs) = rec_offset recs i - 14) as ->
        by (unfold rec_offset, sizeof_BTNodeDescriptor; lia).
      pose proof (total_nonneg (drop (S i) recs)).
      rewrite slice_app by lia. f_equal.
      * rewrite Hs2, Hs1 by lia. replace 14 with (rec_offset recs 0) by (unfold rec_offset; rewrite take_0; done).
        rewrite (slice_records _ _ _ Hh) by lia. by rewrite drop_0.
      * replace (14 + (rec_offset recs i - 14)) with (rec_offset recs i) by lia.
        rewrite Hs2 by lia. rewrite <- Hdata1. f_equal. lia.
    + fold N. lia.
  - split; rewrite Hs3, Hs2, Hs1 by lia; done.
  - apply slice_splice_same; rewrite ?length_replicate; lia.
Qed.

(** ** Searching *)

(** What the B-tree code expects of a [keyCompareProc]: on the keys [P] it orders
    by [rank], and it reads nothing behind the trial key. *)
Class KeyCompare (P : buffer -> Prop) (rank : buffer -> list Z)
    (cmp : buffer -> buffer -> outcome Z) : Prop :=
  compare_rank a b rest : P a -> P b ->
    exists r, cmp a (b ++ rest) = Ok r /\ Z.sgn r = lex_cmp (rank a) (rank b).

Lemma lex_cmp_lt_trans l1 l2 l3 : lex_cmp l1 l2 = -1 -> lex_cmp l2 l3 = -1 -> lex_cmp l1 l3 = -1.
Proof.
  revert l2 l3. induction l1 as [|x l1 IH]; intros [|y l2] [|z l3]; simpl; try (done || lia).
  case_ztests; intros; try lia. eauto.
Qed.

Lemma lex_cmp_eq_lt l1 l2 l3 : lex_cmp l1 l2 = 0 -> lex_cmp l2 l3 = lex_cmp l1 l3.
Proof. rewrite lex_cmp_eq. by intros ->. Qed.

Section search_correct.
Context (bt : BTreeControlBlock) (P : buffer -> Prop) (rank : buffer -> list Z)
  (cmp : buffer -> buffer -> outcome Z) `{!KeyCompare P rank cmp}.
Context (recs : list buffer) (node key : buffer).
Context (Hh : node_holds (nodeSize bt) recs node) (HP : Forall P recs) (Hkey : P key).
(** The records are in strictly increasing order of their keys. *)
Context (Hsorted : forall i j a b, (i < j)%nat -> recs !! i = Some a -> recs !! j = Some b ->
           lex_cmp (rank a) (rank b) = -1).

Definition below (i : Z) : Prop :=
  forall j r, Z.of_nat j < i -> recs !! j = Some r -> lex_cmp (rank key) (rank r) = 1.
Definition above (i : Z) : Prop :=
  forall j r, i <= Z.of_nat j -> recs !! j = Some r -> lex_cmp (rank key) (rank r) = -1.

Lemma drop_record i r : recs !! i = Some r ->
  exists rest, drop (Z.to_nat (rec_offset recs i)) node = r ++ rest.
Proof using Hh.
  intros Hr. pose proof (slice_record _ _ _ Hh _ _ Hr) as Hs. unfold slice in Hs.
  rewrite Nat2Z.id in Hs. rewrite <- (take_drop (length r) (drop _ node)), Hs. eauto.
Qed.

Lemma trial_compare i r : recs !! i = Some r ->
  exists c, cmp key (drop (Z.to_nat (rec_offset recs i)) node) = Ok c /\
    Z.sgn c = lex_cmp (rank key) (rank r).
Proof using All.
  intros Hr. destruct (drop_record _ _ Hr) as [rest ->]. apply compare_rank; [done|].
  apply (Forall_lookup_1 _ _ _ _ HP Hr).
Qed.

Lemma below_extend i r :
  recs !! i = Some r -> lex_cmp (rank key) (rank r) = 1 -> below (Z.of_nat i + 1).
Proof using Hsorted.
  intros Hr Hc j r' Hj Hr'. destruct (decide (j = i)) as [->|]; [congruence|].
  pose proof (Hsorted j i r' r ltac:(lia) Hr' Hr) as Hlt.
  rewrite lex_cmp_sym in Hc |- *.
  rewrite (lex_cmp_lt_trans (rank r') (rank r) (rank key)); lia.
Qed.

Lemma above_extend i r :
  recs !! i = Some r -> lex_cmp (rank key) (rank r) = -1 -> above (Z.of_nat i).
Proof using Hsorted.
  intros Hr Hc j r' Hj Hr'. destruct (decide (j = i)) as [->|]; [congruence|].
  apply (lex_cmp_lt_trans _ (rank r)); [done|]. apply (Hsorted i j); done || lia.
Qed.

Definition found (res : bool * Z) : Prop :=
  match res with
  | (true, i) => exists r, recs !! Z.to_nat i = Some r /\ 0 <= i /\ lex_cmp (rank key) (rank r) = 0
  | (false, i) => 0 <= i <= Z.of_nat (length recs) /\ below i /\ above i
  end.

Lemma search_loop_spec fuel : forall lo hi,
  0 <= lo -> lo <= hi + 1 -> hi < Z.of_nat (length recs) -> hi - lo + 1 < Z.of_nat fuel ->
  below lo -> above (hi + 1) ->
  exists res, search_loop bt cmp fuel node key lo hi = Ok res /\ found res.
Proof using All.
  induction fuel as [|fuel IH]; intros lo hi Hlo Hle Hhi Hf Hb Ha; [lia|]. simpl.
  destruct (node_holds_bounds _ _ _ 0 Hh ltac:(lia)) as (? & ? & ?).
  pose proof (rec_offset_ge recs (length recs)).
  destruct (Z.leb_spec lo hi).
  2: { rewrite u16_small by lia. eexists. split; [done|]. simpl.
       replace (hi + 1) with lo in Ha by lia. split_and!; done || lia. }
  rewrite Z.shiftr_div_pow2 by lia. change (2 ^ 1) with 2.
  assert (lo <= (lo + hi) / 2 <= hi) as Hmid by
    (split; [apply Z.div_le_lower_bound|apply Z.div_le_upper_bound]; lia).
  set (mid := (lo + hi) / 2) in *. clearbody mid.
  destruct (lookup_lt_is_Some_2 recs (Z.to_nat mid)) as [r Hr]; [lia|].
  replace (nodeSize bt - kOffsetSize - 2 * mid) with (entry_pos (nodeSize bt) (Z.to_nat mid))
    by (unfold entry_pos, kOffsetSize; lia).
  rewrite (load_offset _ _ _ Hh) by lia. simpl.
  destruct (trial_compare _ _ Hr) as (c & -> & Hsgn). simpl.
  destruct (Z.ltb_spec c 0).
  { apply IH; try lia; [done|]. replace (mid - 1 + 1) with (Z.of_nat (Z.to_nat mid)) by lia.
    apply (above_extend _ r); [done|]. lia. }
  destruct (Z.ltb_spec 0 c).
  { apply IH; try lia; [|done]. replace (mid + 1) with (Z.of_nat (Z.to_nat mid) + 1) by lia.
    apply (below_extend _ r); [done|]. lia. }
  rewrite u16_small by lia. eexists. split; [done|]. simpl. exists r. split_and!; [done|lia|lia].
Qed.

Lemma SearchNode_spec : exists res, SearchNode bt cmp node key = Ok res /\ found res.
Proof using All.
  unfold SearchNode. rewrite (numRecords_holds _ _ _ Hh). cbv [mbind outcome_bind].
  apply search_loop_spec; try lia.
  - intros j r Hj. lia.
  - intros j r Hj Hr. apply lookup_lt_Some in Hr. lia.
Qed.
End search_correct.

(** ** Checking *)

(** The value of entry [j] of the offset table. *)
Definition entry (size : Z) (node : buffer) (j : nat) : Z :=
  le_decode (slice node (entry_pos size j) 2).

Section check.
Context (bt : BTreeControlBlock) (node : buffer).
Context (Hsize : Z.of_nat (length node) = nodeSize bt) (Hmax : nodeSize bt <= 32768)
  (Heven : Z.even (nodeSize bt) = true) (Hbytes : Forall byte node).

Let e := entry (nodeSize bt) node.

Lemma load_range p n : 0 <= p -> 0 <= n -> p + n <= nodeSize bt ->
  0 <= le_decode (slice node p n) < 256 ^ n.
Proof using Hbytes Hsize.
  intros. pose proof (le_decode_range (slice node p n) ltac:(by apply slice_bytes)) as H'.
  by rewrite slice_length in H' by lia.
Qed.

Lemma entry_load j : 2 * Z.of_nat j + 2 <= nodeSize bt ->
  GetRecordOffset bt node (Z.of_nat j) = Ok (s16 (e j)) /\ 0 <= e j < 65536 /\ u16 (s16 (e j)) = e j.
Proof using Hbytes Hsize.
  intros Hj. assert (0 <= e j < 65536) as He.
  { apply (load_range (entry_pos (nodeSize bt) j) 2); unfold entry_pos; lia. }
  split_and!; [|lia|lia|].
  - unfold GetRecordOffset, load16, kOffsetSize. rewrite Z.shiftl_mul_pow2 by lia.
    rewrite get_bytes_ok by lia. simpl. do 2 f_equal. unfold e, entry, entry_pos. do 2 f_equal. lia.
  - unfold u16, s16, wrap, swrap. change (2 ^ (16 - 1)) with 32768. change (2 ^ 16) with 65536.
    rewrite Zminus_mod, Z.mod_mod, <- Zminus_mod by lia. rewrite Z.mod_small; lia.
Qed.

(** The size of the key at [p], when its length field is inside the node. *)
Definition key_size_at (p : Z) : Z :=
  Z.of_nat (size_of_length bt) + le_decode (slice node p (Z.of_nat (size_of_length bt))).

Lemma CalcKeySize_at p : 0 <= p -> p + 2 <= nodeSize bt -> CalcKeySize bt node p = Ok (key_size_at p).
Proof using Hsize.
  intros. unfold CalcKeySize, KeyLength, key_size_at, size_of_length.
  destruct (big_keys bt); unfold load16, load8; rewrite get_bytes_ok by lia; simpl;
    by rewrite Z.add_comm.
Qed.

Definition checked (k n : Z) (j : nat) (next : Z) : Prop :=
  Z.even (e j) = true /\ e j < next /\
  (k = kBTLeafNode -> Z.of_nat j < n -> key_size_at (e j) <= next - e j).

Lemma land_1_even z : negb (Z.land z 1 =? 0) = negb (Z.even z).
Proof.
  f_equal. change 1 with (Z.ones 1). rewrite Z.land_ones by lia. change (2 ^ 1) with 2.
  rewrite Zmod_even. by destruct (Z.even z).
Qed.

(** The verdict of one round, and what follows it. *)
Definition round_ok (k n : Z) (j : nat) (next : Z) : bool :=
  Z.even (e j) && (e j <? next) &&
  negb ((k =? kBTLeafNode) && (Z.of_nat j <? n) && (next - e j <? key_size_at (e j))).

Lemma round_ok_spec k n j next : round_ok k n j next = true <-> checked k n j next.
Proof.
  unfold round_ok, checked. rewrite !andb_true_iff, negb_true_iff, Z.ltb_lt.
  rewrite !andb_false_iff, Z.eqb_neq, !Z.ltb_ge. split; [|intuition lia].
  intros [[? ?] [[?|?]|?]]; split_and!; try done; intros; lia || done.
Qed.

Lemma check_offsets_round k n index prev :
  2 * Z.of_nat index + 2 <= nodeSize bt -> prev <= nodeSize bt ->
  check_offsets bt index node k n prev =
  if round_ok k n index prev then
    match index with
    | O => Ok (sizeof_BTNodeDescriptor <=? e 0)
    | S i => check_offsets bt i node k n (e index)
    end
  else Ok false.
Proof using Hsize Heven Hbytes.
  intros Hi Hprev. destruct (entry_load _ Hi) as (Hrun & Hr & Hu).
  assert (e index < prev -> Z.even (e index) = true -> e index + 2 <= nodeSize bt) as Hin.
  { intros ? [a Ha]%Z.even_spec. apply Z.even_spec in Heven as [c Hc]. lia. }
  unfold round_ok.
  destruct index; cbn [check_offsets]; rewrite Hrun; cbn [mbind outcome_bind]; cbv zeta;
    rewrite Hu, land_1_even; (destruct (Z.even (e _)); [|done]); simpl negb; cbv iota;
    rewrite (Z.leb_antisym _ prev); (match goal with |- context [?x <? prev] => destruct (Z.ltb_spec x prev) end; [|done]); simpl;
    (destruct ((k =? kBTLeafNode) && _); [|done]);
    rewrite CalcKeySize_at by (try apply Hin; lia || done); simpl;
    destruct (_ <? key_size_at _); done.
Qed.

Lemma check_offsets_spec k n index : forall prev,
  2 * Z.of_nat index + 2 <= nodeSize bt -> prev <= nodeSize bt ->
  exists b, check_offsets bt index node k n prev = Ok b /\
    (b = true <-> 14 <= e 0 /\ checked k n index prev /\
       forall j, (j < index)%nat -> checked k n j (e (S j))).
Proof using Hsize Heven Hbytes.
  induction index as [|index IH]; intros prev Hi Hprev; rewrite check_offsets_round by done;
    setoid_rewrite <- (round_ok_spec k n _ prev); destruct (round_ok _ _ _ prev) eqn:Hc;
    try (exists false; split; [done|]; split; [done|]; by intros (_ & ? & _)).
  - eexists. split; [done|]. rewrite Z.leb_le. unfold sizeof_BTNodeDescriptor.
    split; [|tauto]. intros. split_and!; [done|done|lia].
  - apply round_ok_spec in Hc as (Hev & Hlt & _).
    destruct (IH (e (S index)) ltac:(lia) ltac:(lia)) as (b & -> & Hb).
    exists b. split; [done|]. rewrite Hb. split.
    + intros (H0 & Hi' & Hj). split_and!; [done|done|]. intros j Hj'.
      destruct (decide (j = index)) as [->|]; [done|]. apply Hj. lia.
    + intros (H0 & _ & Hj). split_and!; [done|apply Hj; lia|]. intros. apply Hj. lia.
Qed.

(** The verdict of [CheckNode]. *)
Definition valid_node (fcbEOF : Z) : Prop :=
  let n := le_decode (slice node 10 2) in
  let k := swrap 8 (le_decode (slice node 8 1)) in
  let maxNode := fcbEOF / nodeSize bt - 1 in
  le_decode (slice node 0 4) <= maxNode /\ le_decode (slice node 4 4) <= maxNode /\
  kBTLeafNode <= k <= kBTMapNode /\ le_decode (slice node 9 1) <= treeDepth bt /\
  1 <= n <= (nodeSize bt - 14) / 8 /\ 14 <= e 0 /\
  checked k n (Z.to_nat n) (nodeSize bt - 2 * n) /\
  forall j, Z.of_nat j < n -> checked k n j (e (S j)).

Lemma CheckNode_spec fcbEOF :
  64 <= nodeSize bt -> nodeSize bt <= fcbEOF < 2 ^ 32 * nodeSize bt ->
  exists err, CheckNode bt fcbEOF node = Ok err /\ (err = noErr \/ err = fsBTInvalidNodeErr) /\
    (err = noErr <-> valid_node fcbEOF).
Proof using Hsize Heven Hbytes Hmax.
  intros H64 HEOF. unfold CheckNode, valid_node, fLink, bLink, kind, height, numRecords.
  unfold load32, load16, load8.
  destruct (Z.eqb_spec (nodeSize bt) 0) as [?|_]; [lia|]. rewrite !get_bytes_ok by lia. simpl.
  assert (1 <= fcbEOF / nodeSize bt <= 2 ^ 32 - 1) as Hq.
  { split; [apply Z.div_le_lower_bound; lia|].
    apply Z.lt_succ_r, Z.div_lt_upper_bound; lia. }
  rewrite u32_small by lia.
  pose proof (load_range 10 2 ltac:(lia) ltac:(lia) ltac:(lia)) as Hn.
  set (n := le_decode (slice node 10 2)) in *. set (k := swrap 8 _).
  assert (forall P : Prop, ~ P -> exists err, Ok fsBTInvalidNodeErr = Ok err /\
     (err = noErr \/ err = fsBTInvalidNodeErr) /\ (err = noErr <-> P)) as Hbad.
  { intros P HP. eexists. split_and!; [done|by right|]. split; [done|tauto]. }
  repeat match goal with
  | |- context [(?a <? ?b) || (?c <? ?d)] =>
      destruct (Z.ltb_spec a b), (Z.ltb_spec c d); simpl; try (apply Hbad; unfold kBTLeafNode, kBTMapNode in *; lia)
  end.
  destruct (Z.ltb_spec (treeDepth bt) (le_decode (slice node 9 1))); [apply Hbad; lia|].
  unfold sizeof_BTNodeDescriptor.
  assert (s32 (Z.shiftr (u64 (nodeSize bt - 14)) 3) = (nodeSize bt - 14) / 8) as ->.
  { unfold u64. rewrite wrap_small, Z.shiftr_div_pow2 by lia. change (2 ^ 3) with 8.
    apply (swrap_small 32); [lia|]. pose proof (Z.div_pos (nodeSize bt - 14) 8 ltac:(lia) ltac:(lia)).
    pose proof (Z.div_le_upper_bound (nodeSize bt - 14) 8 (nodeSize bt) ltac:(lia) ltac:(lia)). lia. }
  pose proof (Z.mul_div_le (nodeSize bt - 14) 8 ltac:(lia)) as Hdiv.
  destruct (Z.eqb_spec n 0); simpl; [apply Hbad; lia|].
  destruct (Z.ltb_spec ((nodeSize bt - 14) / 8) n); simpl; [apply Hbad; lia|].
  rewrite Z.shiftl_mul_pow2, u16_small by lia. change (2 ^ 1) with 2.
  destruct (check_offsets_spec k n (Z.to_nat n) (nodeSize bt - n * 2)) as (b & -> & Hb); [lia..|].
  simpl. rewrite Z.mul_comm in Hb.
  exists (if b then noErr else fsBTInvalidNodeErr). split_and!; [done|destruct b; auto|].
  assert ((if b then noErr else fsBTInvalidNodeErr) = noErr <-> b = true) as -> by (by destruct b).
  rewrite Hb. split.
  - intros (? & Hlast & Hj). split_and!; try done; try lia. intros. apply Hj. lia.
  - intros (_ & _ & _ & _ & _ & ? & Hlast & Hj). split_and!; [done|done|]. intros. apply Hj. lia.
Qed.

(** The records of a node that passed the check: what lies between consecutive
    offsets. *)
Definition node_records (n : nat) : list buffer :=
  map (fun j => slice node (e j) (e (S j) - e j)) (seq 0 n).

Section records.
Context (n : nat) (Hfirst : e 0 = 14) (Hlast : e n + 2 * Z.of_nat n + 2 <= nodeSize bt).
Context (Hinc : forall j, (j < n)%nat -> e j < e (S j)).

Lemma entries_le i j : (i <= j <= n)%nat -> e i <= e j.
Proof using Hinc.
  intros [Hij Hj]. induction Hij as [|j Hij IH]; [lia|].
  pose proof (Hinc j ltac:(lia)). specialize (IH ltac:(lia)). lia.
Qed.

Lemma concat_records m : (m <= n)%nat ->
  concat (node_records m) = slice node 14 (e m - 14).
Proof using Hinc Hfirst.
  induction m as [|m IH]; intros Hm.
  { unfold node_records. simpl. by rewrite Hfirst. }
  unfold node_records. rewrite seq_S, map_app, concat_app. fold (node_records m).
  pose proof (entries_le 0 m ltac:(lia)). pose proof (Hinc m ltac:(lia)).
  rewrite IH by lia. simpl. rewrite app_nil_r.
  replace (e (S m) - 14) with ((e m - 14) + (e (S m) - e m)) by lia.
  rewrite (slice_app _ 14) by lia. f_equal. f_equal. lia.
Qed.

Lemma take_records i : (i <= n)%nat -> take i (node_records n) = node_records i.
Proof.
  intros. unfold node_records. rewrite firstn_map. f_equal.
  rewrite take_seq. f_equal. lia.
Qed.

Lemma rec_offset_records i : (i <= n)%nat -> rec_offset (node_records n) i = e i.
Proof using Hinc Hfirst Hlast Hsize.
  intros. unfold rec_offset. rewrite take_records by done. unfold total.
  pose proof (entries_le 0 i ltac:(lia)). pose proof (entries_le i n ltac:(lia)).
  rewrite concat_records, slice_length by lia. unfold sizeof_BTNodeDescriptor. lia.
Qed.

Lemma node_records_hold :
  le_decode (slice node 10 2) = Z.of_nat n -> node_holds (nodeSize bt) (node_records n) node.
Proof using Hinc Hfirst Hlast Hsize Hmax Hbytes.
  intros Hn. pose proof (entries_le 0 n ltac:(lia)).
  assert (length (node_records n) = n) as Hlen by (unfold node_records; by rewrite length_map, length_seq).
  split; rewrite ?Hlen; try done.
  - rewrite <- Hn. rewrite <- (le_encode_decode (slice node 10 2)) at 1 by (by apply slice_bytes).
    f_equal. pose proof (slice_length node 10 2). lia.
  - intros i Hi. rewrite rec_offset_records by done. unfold e, entry.
    rewrite <- (le_encode_decode (slice node (entry_pos _ i) 2)) at 1 by (by apply slice_bytes).
    f_equal. pose proof (slice_length node (entry_pos (nodeSize bt) i) 2). unfold entry_pos in *. lia.
  - unfold total. rewrite concat_records by lia. rewrite slice_length by lia. done.
  - rewrite rec_offset_records by done. lia.
Qed.
End records.
End check.
