(* ===== verification/BTreeKeys.v ===== *)
(** * Keys of the catalog and extents B-trees

    The four [keyCompareProc]s the volume code opens its B-trees with:
    [CompareCatalogKeys] and [CompareExtendedCatalogKeys]
    (hfsplus/hfscommon/Catalog/Catalog.c), [CompareExtentKeys] and
    [CompareExtentKeysPlus] (hfsplus/hfscommon/Misc/FileExtentMapping.c), on the
    bytes of the keys (structures of hfsplus/hfs_format.h).  Each is an instance
    of [KeyCompare], the interface the node search relies on. *)
From S2P Require Import Prelude Bytes UnicodeCompare BTreeNode.

(** The message about a wrong length does not change the result. *)
Definition CompareExtentKeys (searchKey trialKey : buffer) : outcome Z :=
  _ ← load8 searchKey 0;
  _ ← load8 trialKey 0;
  sFile ← load32 searchKey 2;
  tFile ← load32 trialKey 2;
  if sFile =? tFile then
    sFork ← load8 searchKey 1;
    tFork ← load8 trialKey 1;
    if sFork =? tFork then
      sBlock ← load16 searchKey 6;
      tBlock ← load16 trialKey 6;
      Ok (if sBlock =? tBlock then 0 else if tBlock <? sBlock then 1 else -1)
    else Ok (if tFork <? sFork then 1 else -1)
  else Ok (if tFile <? sFile then 1 else -1).

Definition CompareExtentKeysPlus (searchKey trialKey : buffer) : outcome Z :=
  _ ← load16 searchKey 0;
  _ ← load16 trialKey 0;
  sFile ← load32 searchKey 4;
  tFile ← load32 trialKey 4;
  if sFile =? tFile then
    sFork ← load8 searchKey 2;
    tFork ← load8 trialKey 2;
    if sFork =? tFork then
      sBlock ← load32 searchKey 8;
      tBlock ← load32 trialKey 8;
      Ok (if sBlock =? tBlock then 0 else if tBlock <? sBlock then 1 else -1)
    else Ok (if tFork <? sFork then 1 else -1)
  else Ok (if tFile <? sFile then 1 else -1).

Definition CompareCatalogKeys (searchKey trialKey : buffer) : outcome Z :=
  searchParentID ← load32 searchKey 2;
  trialParentID ← load32 trialKey 2;
  if trialParentID <? searchParentID then Ok 1
  else if searchParentID <? trialParentID then Ok (-1)
  else FastRelString (drop 6 searchKey) (drop 6 trialKey).

(** The [n] characters of [nodeName.unicode] at [p]. *)
Fixpoint unicode (n : nat) (m : buffer) (p : Z) : outcome (list Z) :=
  match n with
  | O => Ok []
  | S n => c ← load16 m p; cs ← unicode n m (p + 2); Ok (c :: cs)
  end.

Definition CompareExtendedCatalogKeys (searchKey trialKey : buffer) : outcome Z :=
  searchParentID ← load32 searchKey 2;
  trialParentID ← load32 trialKey 2;
  if trialParentID <? searchParentID then Ok 1
  else if searchParentID <? trialParentID then Ok (-1)
  else
    sLength ← load16 searchKey 6;
    tLength ← load16 trialKey 6;
    if (sLength =? 0) || (tLength =? 0) then Ok (sLength - tLength)
    else
      sName ← unicode (Z.to_nat sLength) searchKey 8;
      tName ← unicode (Z.to_nat tLength) trialKey 8;
      FastUnicodeCompare sName tName.

(** ** Reading a key that is followed by other bytes *)

(** The unsigned field of [n] bytes at [p]. *)
Definition field (m : buffer) (p n : Z) : Z := le_decode (slice m p n).

Lemma slice_app_inside a rest p n :
  0 <= p -> 0 <= n -> p + n <= Z.of_nat (length a) -> slice (a ++ rest) p n = slice a p n.
Proof.
  intros. unfold slice. rewrite drop_app_le by lia. rewrite take_app_le; [done|].
  rewrite length_drop. lia.
Qed.

Lemma get_field a rest p n :
  0 <= p -> 0 <= n -> p + n <= Z.of_nat (length a) ->
  (bs ← get_bytes (a ++ rest) p n; Ok (le_decode bs)) = Ok (field a p n).
Proof.
  intros. rewrite get_bytes_ok by (rewrite ?length_app; lia). simpl.
  by rewrite slice_app_inside.
Qed.

Lemma load8_field a rest p : 0 <= p -> p + 1 <= Z.of_nat (length a) -> load8 (a ++ rest) p = Ok (field a p 1).
Proof. intros. apply get_field; lia. Qed.
Lemma load16_field a rest p : 0 <= p -> p + 2 <= Z.of_nat (length a) -> load16 (a ++ rest) p = Ok (field a p 2).
Proof. intros. apply get_field; lia. Qed.
Lemma load32_field a rest p : 0 <= p -> p + 4 <= Z.of_nat (length a) -> load32 (a ++ rest) p = Ok (field a p 4).
Proof. intros. apply get_field; lia. Qed.

Lemma field_range m p n : Forall byte m -> 0 <= p -> 0 <= n -> p + n <= Z.of_nat (length m) ->
  0 <= field m p n < 256 ^ n.
Proof.
  intros. pose proof (le_decode_range (slice m p n) ltac:(by apply slice_bytes)) as H'.
  by rewrite slice_length in H'.
Qed.

(** The search key, which nothing follows. *)
Lemma load8_own a p : 0 <= p -> p + 1 <= Z.of_nat (length a) -> load8 a p = Ok (field a p 1).
Proof. intros. rewrite <- (load8_field a []) by done. by rewrite app_nil_r. Qed.
Lemma load16_own a p : 0 <= p -> p + 2 <= Z.of_nat (length a) -> load16 a p = Ok (field a p 2).
Proof. intros. rewrite <- (load16_field a []) by done. by rewrite app_nil_r. Qed.
Lemma load32_own a p : 0 <= p -> p + 4 <= Z.of_nat (length a) -> load32 a p = Ok (field a p 4).
Proof. intros. rewrite <- (load32_field a []) by done. by rewrite app_nil_r. Qed.

Ltac read_fields a b :=
  rewrite ?(load8_own a), ?(load16_own a), ?(load32_own a),
          ?(load8_field b), ?(load16_field b), ?(load32_field b) by lia;
  cbn [mbind outcome_bind].

(** ** Extents *)

Definition extent_key_plus (k : buffer) : Prop := 12 <= Z.of_nat (length k).
Definition extent_rank_plus (k : buffer) : list Z := [field k 4 4; field k 2 1; field k 8 4].
Definition extent_key (k : buffer) : Prop := 8 <= Z.of_nat (length k).
Definition extent_rank (k : buffer) : list Z := [field k 2 4; field k 1 1; field k 6 2].

Lemma sgn_lex3 a1 a2 a3 b1 b2 b3 :
  Z.sgn (if a1 =? b1 then
           if a2 =? b2 then if a3 =? b3 then 0 else if b3 <? a3 then 1 else -1
           else if b2 <? a2 then 1 else -1
         else if b1 <? a1 then 1 else -1) = lex_cmp [a1; a2; a3] [b1; b2; b3].
Proof. simpl. case_ztests; done || lia. Qed.

#[export] Instance CompareExtentKeysPlus_order :
  KeyCompare extent_key_plus extent_rank_plus CompareExtentKeysPlus.
Proof.
  intros a b rest Ha Hb. unfold extent_key_plus in *. unfold CompareExtentKeysPlus, extent_rank_plus.
  rewrite <- sgn_lex3. do 2 read_fields a b. destruct (field a 4 4 =? field b 4 4); [|eauto].
  read_fields a b. destruct (field a 2 1 =? field b 2 1); [|eauto]. read_fields a b. eauto.
Qed.

#[export] Instance CompareExtentKeys_order : KeyCompare extent_key extent_rank CompareExtentKeys.
Proof.
  intros a b rest Ha Hb. unfold extent_key in *. unfold CompareExtentKeys, extent_rank.
  rewrite <- sgn_lex3. do 2 read_fields a b. destruct (field a 2 4 =? field b 2 4); [|eauto].
  read_fields a b. destruct (field a 1 1 =? field b 1 1); [|eauto]. read_fields a b. eauto.
Qed.

(** ** Catalog *)

(** A comparison that is decided by the first number, or else by what follows. *)
Lemma sgn_lex_cons x y l1 l2 c r :
  c = Ok r -> Z.sgn r = lex_cmp l1 l2 ->
  exists r', (if y <? x then Ok 1 else if x <? y then Ok (-1) else c) = Ok r' /\
    Z.sgn r' = lex_cmp (x :: l1) (y :: l2).
Proof. intros -> Hr. simpl. case_ztests; eauto; lia. Qed.

Fixpoint chars (n : nat) (m : buffer) (p : Z) : list Z :=
  match n with O => [] | S n => field m p 2 :: chars n m (p + 2) end.

Lemma unicode_chars n a rest : forall p,
  0 <= p -> p + 2 * Z.of_nat n <= Z.of_nat (length a) -> unicode n (a ++ rest) p = Ok (chars n a p).
Proof.
  induction n as [|n IH]; intros p Hp Hn; simpl; [done|].
  rewrite load16_field by lia. simpl. rewrite IH by lia. done.
Qed.

Lemma chars_unichar n m : forall p, Forall byte m ->
  0 <= p -> p + 2 * Z.of_nat n <= Z.of_nat (length m) -> Forall unichar (chars n m p).
Proof.
  induction n as [|n IH]; intros p Hm Hp Hn; simpl; constructor.
  - apply (field_range m p 2); lia || done.
  - apply IH; lia || done.
Qed.

(** The characters of [nodeName]. *)
Definition node_name (k : buffer) : list Z := chars (Z.to_nat (field k 6 2)) k 8.
Definition catalog_key_plus (k : buffer) : Prop :=
  Forall byte k /\ 8 <= Z.of_nat (length k) /\ 8 + 2 * field k 6 2 <= Z.of_nat (length k).
(** Parent, then the folded name; the empty name (a thread record) first. *)
Definition catalog_rank_plus (k : buffer) : list Z :=
  field k 2 4 :: (if field k 6 2 =? 0 then [0] else 1 :: folded (node_name k)).

#[export] Instance CompareExtendedCatalogKeys_order :
  KeyCompare catalog_key_plus catalog_rank_plus CompareExtendedCatalogKeys.
Proof.
  intros a b rest (Ba & La & Na) (Bb & Lb & Nb). unfold CompareExtendedCatalogKeys.
  pose proof (field_range a 6 2 Ba ltac:(lia) ltac:(lia) ltac:(lia)) as Ra.
  pose proof (field_range b 6 2 Bb ltac:(lia) ltac:(lia) ltac:(lia)) as Rb.
  do 3 read_fields a b. unfold catalog_rank_plus.
  destruct (Z.eqb_spec (field a 6 2) 0); [|destruct (Z.eqb_spec (field b 6 2) 0)]; simpl orb; cbv iota.
  - eapply sgn_lex_cons; [done|]. simpl. case_ztests; lia.
  - eapply sgn_lex_cons; [done|]. simpl. lia.
  - pose proof (unicode_chars (Z.to_nat (field a 6 2)) a [] 8 ltac:(lia) ltac:(lia)) as Ua.
    rewrite app_nil_r in Ua. rewrite Ua, (unicode_chars _ b) by lia. simpl mbind.
    eapply sgn_lex_cons.
    + apply FastUnicodeCompare_lex; apply chars_unichar; done || lia.
    + fold (node_name a) (node_name b). cbn [lex_cmp]. rewrite Z.eqb_refl.
      destruct (lex_cmp_range (folded (node_name a)) (folded (node_name b))) as [->|[->| ->]]; done.
Qed.

Lemma rel_loop_app len cs1 cs2 r1 r2 guess :
  (len <= length cs1)%nat -> (len <= length cs2)%nat ->
  rel_loop len (cs1 ++ r1) (cs2 ++ r2) guess = rel_loop len cs1 cs2 guess.
Proof.
  revert cs1 cs2. induction len as [|len IH]; intros [|c1 cs1] [|c2 cs2] H1 H2; simpl in *; try done; try lia.
  rewrite IH by lia. done.
Qed.

Lemma FastRelString_app s1 s2 r1 r2 :
  str255 s1 -> str255 s2 ->
  FastRelString (s1 ++ r1) (s2 ++ r2) = Ok (lex_cmp (sort_words s1) (sort_words s2)).
Proof.
  intros H1 H2. rewrite <- (FastRelString_lex _ _ H1 H2).
  destruct H1 as (cs1 & -> & _ & _), H2 as (cs2 & -> & _ & _). unfold FastRelString. simpl.
  destruct (Z.eqb_spec (Z.of_nat (length cs1)) (Z.of_nat (length cs2)));
    [|destruct (Z.ltb_spec (Z.of_nat (length cs1)) (Z.of_nat (length cs2)))];
    rewrite Nat2Z.id; apply rel_loop_app; lia.
Qed.

(** The Pascal string [nodeName]. *)
Definition pascal_name (k : buffer) : list Z := take (S (Z.to_nat (field k 6 1))) (drop 6 k).
Definition catalog_key (k : buffer) : Prop :=
  7 + field k 6 1 <= Z.of_nat (length k) /\ 6 <= Z.of_nat (length k) /\ str255 (pascal_name k).
Definition catalog_rank (k : buffer) : list Z := field k 2 4 :: sort_words (pascal_name k).

Lemma drop_pascal_name k rest : catalog_key k ->
  exists rest', drop 6 (k ++ rest) = pascal_name k ++ rest'.
Proof.
  intros (Hl & H6 & _). rewrite drop_app_le by lia. unfold pascal_name.
  exists (drop (S (Z.to_nat (field k 6 1))) (drop 6 k) ++ rest).
  by rewrite app_assoc, take_drop.
Qed.

#[export] Instance CompareCatalogKeys_order : KeyCompare catalog_key catalog_rank CompareCatalogKeys.
Proof.
  intros a b rest Ha Hb. destruct (drop_pascal_name a [] Ha) as [ra Ea].
  destruct (drop_pascal_name b rest Hb) as [rb Eb]. rewrite app_nil_r in Ea.
  destruct Ha as (La & La' & Sa), Hb as (Lb & Lb' & Sb).
  unfold CompareCatalogKeys, catalog_rank. do 2 read_fields a b. rewrite Ea, Eb.
  eapply sgn_lex_cons; [by apply FastRelString_app|].
  destruct (lex_cmp_range (sort_words (pascal_name a)) (sort_words (pascal_name b))) as [->|[->| ->]]; done.
Qed.
