(* ===== verification/BTreeNodeTheorems.v ===== *)
(** * Correctness of the node operations

    The operations of [BTreeNode] on bytes against the operations on lists of
    records they stand for, and the search against the order of the keys. *)
From S2P Require Import Prelude Bytes UnicodeCompare BTreeNode BTreeKeys.

(** Records in strictly increasing order of their keys. *)
Definition keys_sorted (rank : buffer -> list Z) (recs : list buffer) : Prop :=
  forall i j a b, (i < j)%nat -> recs !! i = Some a -> recs !! j = Some b ->
    lex_cmp (rank a) (rank b) = -1.

Lemma lookup_insert_at {A} (i j : nat) (x : A) l :
  (i <= length l)%nat ->
  insert_at i x l !! j =
    if decide (j < i)%nat then l !! j else if decide (j = i) then Some x else l !! (j - 1)%nat.
Proof.
  intros Hi. unfold insert_at. repeat case_decide; subst.
  - rewrite lookup_app_l by (rewrite length_take; lia). by rewrite lookup_take_lt.
  - rewrite lookup_app_r by (rewrite length_take; lia).
    rewrite length_take, Nat.min_l, Nat.sub_diag by lia. done.
  - rewrite lookup_app_r by (rewrite length_take; lia). rewrite length_take, Nat.min_l by lia.
    replace (j - i)%nat with (S (j - i - 1)) by lia. simpl. rewrite lookup_drop. f_equal. lia.
Qed.

Lemma delete_insert_at {A} (i : nat) (x : A) l : (i <= length l)%nat -> delete i (insert_at i x l) = l.
Proof.
  intros. unfold insert_at. replace i with (length (take i l)) at 1 by (rewrite length_take; lia).
  rewrite delete_middle. apply take_drop.
Qed.

(** Inserting at the index a failed search returns keeps the order. *)
Lemma keys_sorted_insert rank recs key r (i : nat) :
  keys_sorted rank recs -> (i <= length recs)%nat -> rank r = rank key ->
  below rank recs key (Z.of_nat i) -> above rank recs key (Z.of_nat i) ->
  keys_sorted rank (insert_at i r recs).
Proof.
  intros Hs Hi Hr Hb Ha j k a b Hjk. rewrite !lookup_insert_at by done.
  repeat case_decide; subst; try lia; intros Ea Eb.
  - by apply (Hs j k).
  - injection Eb as <-. rewrite Hr, lex_cmp_sym. by rewrite (Hb j a) by (done || lia).
  - apply (Hs j (k - 1)%nat); done || lia.
  - injection Ea as <-. rewrite Hr. apply (Ha (k - 1)%nat b); done || lia.
  - apply (Hs (j - 1)%nat (k - 1)%nat); done || lia.
Qed.

Lemma keys_sorted_delete rank recs (i : nat) : keys_sorted rank recs -> keys_sorted rank (delete i recs).
Proof.
  intros Hs j k a b Hjk Ha Hb.
  assert (forall l x, delete i recs !! l = Some x ->
    exists l', recs !! l' = Some x /\ (l' = l /\ (l < i)%nat \/ l' = S l /\ (i <= l)%nat)) as Hl.
  { intros l x H. destruct (decide (l < i)%nat).
    - exists l. rewrite list_lookup_delete_lt in H by done. auto.
    - exists (S l). rewrite list_lookup_delete_ge in H by lia. auto with lia. }
  destruct (Hl j a Ha) as (j' & Ea & ?), (Hl k b Hb) as (k' & Eb & ?). apply (Hs j' k'); [lia|done|done].
Qed.

Lemma GetRecordByIndex_spec bt recs node (i : nat) r :
  node_holds (nodeSize bt) recs node -> recs !! i = Some r ->
  (2 <= length r)%nat -> 0 <= key_size_at bt r 0 ->
  let keySize := let s := key_size_at bt r 0 in if Z.odd s then s + 1 else s in
  keySize <= Z.of_nat (length r) ->
  GetRecordByIndex bt node (Z.of_nat i) =
    Ok (inr (rec_offset recs i, rec_offset recs i + keySize, Z.of_nat (length r) - keySize)).
Proof.
  intros Hh Hr Hlen Hpos keySize Hk. pose proof (lookup_lt_Some _ _ _ Hr) as Hi.
  destruct (node_holds_bounds _ _ _ (S i) Hh ltac:(lia)) as (? & ? & ?).
  pose proof (rec_offset_S _ _ _ Hr). pose proof (rec_offset_ge recs i).
  pose proof (size_of_length_range bt).
  unfold GetRecordByIndex. rewrite (numRecords_holds _ _ _ Hh). simpl. case_ztest; [lia|].
  rewrite (GetRecordOffset_holds _ _ _ Hh) by lia. simpl. rewrite (u16_small (rec_offset recs i)) by lia.
  assert (CalcKeySize bt node (rec_offset recs i) = Ok (key_size_at bt r 0)) as ->.
  { assert (key_size_at bt r 0 = key_size_at bt node (rec_offset recs i)) as ->.
    { unfold key_size_at. do 2 f_equal. rewrite <- (slice_record _ _ _ Hh _ _ Hr) at 1.
      rewrite slice_slice by lia. by rewrite Z.add_0_r. }
    apply CalcKeySize_at; lia. }
  simpl. replace (Z.of_nat i + 1) with (Z.of_nat (S i)) by lia.
  rewrite (GetRecordOffset_holds _ _ _ Hh) by lia. simpl.
  assert (0 <= keySize /\ key_size_at bt r 0 <= keySize) as [Hk0 Hk1]
    by (unfold keySize; destruct (Z.odd _); lia).
  rewrite (u16_small (key_size_at bt r 0)) by lia.
  assert ((if Z.odd (key_size_at bt r 0) then u16 (key_size_at bt r 0 + 1) else key_size_at bt r 0) = keySize)
    as -> by (unfold keySize in *; destruct (Z.odd _); rewrite ?u16_small by lia; done).
  rewrite (u16_small (rec_offset recs (S i))), (u16_small (rec_offset recs i + keySize)) by lia.
  rewrite u16_small by lia. do 3 f_equal. lia.
Qed.

(** The parts of a keyed record. *)
Section key_record_parts.
Context (bt : BTreeControlBlock) (key data : buffer) (raw keyLength : Z).
Context (Hraw : 0 <= raw <= keyLength)
  (Hkey : Z.of_nat (size_of_length bt) + raw <= Z.of_nat (length key)).
Let szl := Z.of_nat (size_of_length bt).
Let r := key_record bt key raw keyLength data.

Lemma key_record_length :
  Z.of_nat (length r) = padded_key_size bt keyLength + Z.of_nat (length data).
Proof using Hraw Hkey.
  pose proof (padded_key_size_range bt keyLength). pose proof (slice_length key szl raw).
  unfold r, key_record. rewrite !length_app, length_replicate, le_encode_length. fold szl. lia.
Qed.

Lemma key_record_key : slice r szl raw = slice key szl raw.
Proof using Hraw Hkey.
  unfold r, key_record. apply slice_app_at; [by rewrite le_encode_length|].
  symmetry. apply slice_length; lia.
Qed.

Lemma key_record_data : slice r (padded_key_size bt keyLength) (Z.of_nat (length data)) = data.
Proof using Hraw Hkey.
  pose proof (padded_key_size_range bt keyLength). pose proof (slice_length key szl raw).
  unfold r, key_record. rewrite (app_assoc (slice _ _ _)), app_assoc. rewrite <- (app_nil_r data) at 1.
  apply slice_app_at; [|done]. rewrite !length_app, length_replicate, le_encode_length. fold szl. lia.
Qed.

Lemma key_record_size : keyLength < 256 ^ szl -> key_size_at bt r 0 = szl + keyLength.
Proof using Hraw.
  intros. unfold key_size_at. fold szl. f_equal.
  unfold r, key_record. rewrite slice_app_l by (by rewrite le_encode_length).
  rewrite le_decode_encode. fold szl. apply Z.mod_small. lia.
Qed.
End key_record_parts.

Lemma padded_key_size_eq bt keyLength :
  padded_key_size bt keyLength =
  (let s := Z.of_nat (size_of_length bt) + keyLength in if Z.odd s then s + 1 else s).
Proof. unfold padded_key_size. by rewrite (Z.add_comm keyLength). Qed.

(** ** Properties *)

(** C4: [InsertRecord] never touches memory outside the node.  It answers true exactly when
    the record and an entry of the offset table fit into the free space, and then the node
    holds the old records with the new one at [index]; otherwise the node is unchanged.
    The links, kind and height of the node stay as they are. *)
Theorem InsertRecord_correct bt recs node (index : nat) recPtr recSize :
  node_holds (nodeSize bt) recs node -> (index <= length recs)%nat ->
  0 <= recSize <= Z.of_nat (length recPtr) ->
  exists ok node', InsertRecord bt node (Z.of_nat index) recPtr recSize = Ok (ok, node') /\
    same_links node node' /\
    (ok = true <-> rec_offset recs (length recs) + recSize + 2 * (Z.of_nat (length recs) + 2) <= nodeSize bt) /\
    (ok = true -> node_holds (nodeSize bt) (insert_at index (slice recPtr 0 recSize) recs) node') /\
    (ok = false -> node' = node).
Proof.
  intros Hh Hi Hr.
  destruct (decide (rec_offset recs (length recs) + recSize + 2 * (Z.of_nat (length recs) + 2) <= nodeSize bt)).
  - destruct (InsertRecord_fits bt recs node index recPtr recSize) as (node' & ? & ? & ?);
      [done|done|lia|lia|lia|]. exists true, node'. split_and!; done.
  - exists false, node. rewrite (InsertRecord_full bt recs) by (done || lia). split_and!; done.
Qed.

(** [InsertKeyRecord] likewise inserts the record that consists of the key with
    its length field set to [keyLength], padding zeros up to an even size, and the data;
    for data at least as long as the length field. *)
Theorem InsertKeyRecord_correct bt recs node (index : nat) keyPtr raw keyLength recPtr recSize :
  node_holds (nodeSize bt) recs node -> (index <= length recs)%nat ->
  KeyLength bt keyPtr 0 = Ok raw -> 0 <= raw <= keyLength -> keyLength < 65533 ->
  Z.of_nat (size_of_length bt) + raw <= Z.of_nat (length keyPtr) ->
  Z.of_nat (size_of_length bt) <= recSize <= Z.of_nat (length recPtr) ->
  exists ok node',
    InsertKeyRecord bt node (Z.of_nat index) keyPtr keyLength recPtr recSize = Ok (ok, node') /\
    same_links node node' /\
    (ok = true <-> rec_offset recs (length recs) + padded_key_size bt keyLength + recSize
                   + 2 * (Z.of_nat (length recs) + 2) <= nodeSize bt) /\
    (ok = true -> node_holds (nodeSize bt)
       (insert_at index (key_record bt keyPtr raw keyLength (slice recPtr 0 recSize)) recs) node') /\
    (ok = false -> node' = node).
Proof.
  intros Hh Hi Hk Hraw Hkl Hkp Hr.
  destruct (decide (rec_offset recs (length recs) + padded_key_size bt keyLength + recSize
                    + 2 * (Z.of_nat (length recs) + 2) <= nodeSize bt)).
  - destruct (InsertKeyRecord_fits bt recs node index keyPtr raw keyLength recPtr recSize)
      as (node' & ? & ? & ?); try done; [lia|]. exists true, node'. split_and!; done.
  - exists false, node. rewrite (InsertKeyRecord_full bt recs) by (done || lia). split_and!; done.
Qed.

(** [DeleteRecord] removes record [index] from the node, closes the gap, clears the
    bytes that become free and keeps all other records and the links. *)
Theorem DeleteRecord_correct bt recs node (index : nat) r :
  node_holds (nodeSize bt) recs node -> recs !! index = Some r ->
  exists node', DeleteRecord bt node (Z.of_nat index) = Ok node' /\
    node_holds (nodeSize bt) (delete index recs) node' /\ same_links node node' /\
    slice node' (rec_offset (delete index recs) (length (delete index recs))) (Z.of_nat (length r)) =
      replicate (length r) 0.
Proof. apply DeleteRecord_spec. Qed.

(** Deleting what was inserted gives a node with the records from before. *)
Theorem insert_delete_record bt recs node (index : nat) recPtr recSize :
  node_holds (nodeSize bt) recs node -> (index <= length recs)%nat ->
  0 <= recSize <= Z.of_nat (length recPtr) ->
  rec_offset recs (length recs) + recSize + 2 * (Z.of_nat (length recs) + 2) <= nodeSize bt ->
  exists node1 node2, InsertRecord bt node (Z.of_nat index) recPtr recSize = Ok (true, node1) /\
    DeleteRecord bt node1 (Z.of_nat index) = Ok node2 /\
    node_holds (nodeSize bt) recs node2 /\ same_links node node2.
Proof.
  intros Hh Hi Hr Hfit.
  destruct (InsertRecord_fits bt recs node index recPtr recSize) as (node1 & Hrun & Hh1 & [? ?]);
    [done|done|lia|lia|lia|].
  destruct (DeleteRecord_spec bt _ node1 index (slice recPtr 0 recSize) Hh1) as (node2 & Hrun2 & Hh2 & [? ?] & _).
  { rewrite lookup_insert_at, decide_False, decide_True by lia. done. }
  rewrite delete_insert_at in Hh2 by done.
  exists node1, node2. split_and!; try done. split; congruence.
Qed.

(** The binary search of [SearchNode] terminates and, in a node whose records are in
    the order of their keys, finds the record with the key if there is one and otherwise
    the index that separates the smaller from the greater keys. *)
Theorem SearchNode_correct bt P rank cmp recs node key :
  KeyCompare P rank cmp -> node_holds (nodeSize bt) recs node ->
  Forall P recs -> P key -> keys_sorted rank recs ->
  exists res, SearchNode bt cmp node key = Ok res /\
    match res with
    | (true, index) => exists r, recs !! Z.to_nat index = Some r /\ 0 <= index /\
        lex_cmp (rank key) (rank r) = 0
    | (false, index) => 0 <= index <= Z.of_nat (length recs) /\
        (forall j r, Z.of_nat j < index -> recs !! j = Some r -> lex_cmp (rank key) (rank r) = 1) /\
        (forall j r, index <= Z.of_nat j -> recs !! j = Some r -> lex_cmp (rank key) (rank r) = -1)
    end.
Proof. intros HK Hh HP Hk Hs. exact (SearchNode_spec bt P rank cmp recs node key Hh HP Hk Hs). Qed.

(** Searching a node of the HFS Plus catalog for a key that is not there and
    inserting a record with this key at the index found leaves the node in order. *)
Theorem search_insert_sorted bt recs node key rec index :
  node_holds (nodeSize bt) recs node -> Forall catalog_key_plus recs -> catalog_key_plus key ->
  keys_sorted catalog_rank_plus recs -> catalog_rank_plus rec = catalog_rank_plus key ->
  rec_offset recs (length recs) + Z.of_nat (length rec) + 2 * (Z.of_nat (length recs) + 2) <= nodeSize bt ->
  SearchNode bt CompareExtendedCatalogKeys node key = Ok (false, index) ->
  exists node' recs', InsertRecord bt node index rec (Z.of_nat (length rec)) = Ok (true, node') /\
    node_holds (nodeSize bt) recs' node' /\ keys_sorted catalog_rank_plus recs' /\
    recs' ≡ₚ rec :: recs.
Proof.
  intros Hh HP Hk Hs Hrank Hfit Hrun.
  destruct (SearchNode_spec bt _ _ _ recs node key Hh HP Hk Hs) as (res & Hrun' & Hres).
  rewrite Hrun in Hrun'. injection Hrun' as <-. destruct Hres as (Hi & Hb & Ha).
  replace index with (Z.of_nat (Z.to_nat index)) in * by lia.
  set (i := Z.to_nat index) in *.
  destruct (InsertRecord_fits bt recs node i rec (Z.of_nat (length rec)))
    as (node' & ? & ? & ?); [done|lia|lia|lia|lia|].
  exists node', (insert_at i rec recs).
  rewrite slice_all in * by done. split_and!; [done|done| |].
  - apply (keys_sorted_insert _ _ key); done || lia.
  - unfold insert_at. rewrite <- Permutation_middle. by rewrite take_drop.
Qed.

(** A keyed record that was inserted is found again: [GetRecordByIndex] returns
    the place of the key and of exactly the data. *)
Theorem key_record_roundtrip bt recs node (index : nat) keyPtr raw keyLength recPtr recSize :
  node_holds (nodeSize bt) recs node -> (index <= length recs)%nat ->
  KeyLength bt keyPtr 0 = Ok raw -> 0 <= raw <= keyLength ->
  keyLength < 65533 -> keyLength < 256 ^ Z.of_nat (size_of_length bt) ->
  Z.of_nat (size_of_length bt) + raw <= Z.of_nat (length keyPtr) ->
  Z.of_nat (size_of_length bt) <= recSize <= Z.of_nat (length recPtr) ->
  rec_offset recs (length recs) + padded_key_size bt keyLength + recSize
    + 2 * (Z.of_nat (length recs) + 2) <= nodeSize bt ->
  exists node', InsertKeyRecord bt node (Z.of_nat index) keyPtr keyLength recPtr recSize = Ok (true, node') /\
    exists key data, GetRecordByIndex bt node' (Z.of_nat index) = Ok (inr (key, data, recSize)) /\
      CalcKeySize bt node' key = Ok (Z.of_nat (size_of_length bt) + keyLength) /\
      slice node' (key + Z.of_nat (size_of_length bt)) raw = slice keyPtr (Z.of_nat (size_of_length bt)) raw /\
      slice node' data recSize = slice recPtr 0 recSize.
Proof.
  intros Hh Hi Hk Hraw Hkl Hkl' Hkp Hr Hfit.
  pose proof (padded_key_size_range bt keyLength). pose proof (size_of_length_range bt).
  destruct (InsertKeyRecord_fits bt recs node index keyPtr raw keyLength recPtr recSize)
    as (node' & Hrun & Hh' & _); try done; [lia|].
  exists node'. split; [done|]. set (data := slice recPtr 0 recSize) in *.
  assert (Z.of_nat (length data) = recSize) as Ld by (apply slice_length; lia).
  set (r := key_record bt keyPtr raw keyLength data) in *. set (recs' := insert_at index r recs) in *.
  assert (recs' !! index = Some r) as Hr'.
  { unfold recs'. rewrite lookup_insert_at, decide_False, decide_True by lia. done. }
  pose proof (key_record_length bt keyPtr data raw keyLength Hraw Hkp) as Lr. fold r in Lr.
  pose proof (key_record_size bt keyPtr data raw keyLength Hraw Hkl') as Sr. fold r in Sr.
  pose proof (slice_record bt recs' node' Hh' index r Hr') as Hslice.
  pose proof (rec_offset_ge recs' index) as Ho.
  pose proof (rec_offset_S _ _ _ Hr'). pose proof (lookup_lt_Some _ _ _ Hr').
  destruct (node_holds_bounds _ _ _ (S index) Hh' ltac:(lia)) as (? & ? & ?).
  assert (forall p n, 0 <= p -> 0 <= n -> p + n <= Z.of_nat (length r) ->
    slice node' (rec_offset recs' index + p) n = slice r p n) as Hpart.
  { intros. rewrite <- Hslice. rewrite slice_slice by lia. done. }
  exists (rec_offset recs' index), (rec_offset recs' index + padded_key_size bt keyLength).
  split_and!.
  - rewrite (GetRecordByIndex_spec bt recs' node' index r); try done; try lia.
    + rewrite Sr. rewrite padded_key_size_eq in *. cbv zeta in *. do 3 f_equal. lia.
    + rewrite Sr. rewrite padded_key_size_eq in *. cbv zeta in *. lia.
  - rewrite (CalcKeySize_at bt node') by lia. rewrite <- Sr. unfold key_size_at. do 3 f_equal.
    rewrite <- (Hpart 0) by lia. by rewrite Z.add_0_r.
  - rewrite Hpart by lia. by apply key_record_key.
  - rewrite Hpart by lia. rewrite <- Ld at 1. by apply key_record_data.
Qed.

(** C34: [CheckNode] answers for every node of the right size, whatever its bytes, and
    accepts it exactly when its links, kind, height and record count are in range, its
    offsets are even and strictly increasing below the offset table, and the keys of a leaf
    lie within their records.  An accepted node whose first record follows the descriptor
    holds a list of non-empty records, so all operations on nodes apply to it. *)
Theorem CheckNode_correct bt node fcbEOF :
  Z.of_nat (length node) = nodeSize bt -> 64 <= nodeSize bt <= 32768 ->
  Z.even (nodeSize bt) = true -> Forall byte node ->
  nodeSize bt <= fcbEOF < 2 ^ 32 * nodeSize bt ->
  exists err, CheckNode bt fcbEOF node = Ok err /\ (err = noErr \/ err = fsBTInvalidNodeErr) /\
    (err = noErr <-> valid_node bt node fcbEOF) /\
    (err = noErr -> entry (nodeSize bt) node 0 = 14 ->
     exists recs, node_holds (nodeSize bt) recs node /\ recs <> [] /\
       Forall (fun r => (1 <= length r)%nat) recs).
Proof.
  intros Hsz Hrange Heven Hb HEOF.
  destruct (CheckNode_spec bt node Hsz ltac:(lia) Heven Hb fcbEOF) as (err & Hrun & Herr & Hiff); [lia..|].
  exists err. split_and!; [done|done|done|]. intros Hno Hfirst. apply Hiff in Hno.
  set (n := Z.to_nat (le_decode (slice node 10 2))).
  destruct Hno as (_ & _ & _ & _ & Hn & _ & (Hev & Hlast & _) & Hj). fold n in Hev, Hlast.
  pose proof (Z.mul_div_le (nodeSize bt - 14) 8 ltac:(lia)).
  assert (forall j, (j < n)%nat -> entry (nodeSize bt) node j < entry (nodeSize bt) node (S j)) as Hinc.
  { intros j Hjn. apply (Hj j). lia. }
  assert (entry (nodeSize bt) node n + 2 * Z.of_nat n + 2 <= nodeSize bt) as Hend.
  { apply Z.even_spec in Hev as [x Hx], Heven as [y Hy]. lia. }
  exists (node_records bt node n).
  assert (forall i, (i <= n)%nat -> 14 <= entry (nodeSize bt) node i <= entry (nodeSize bt) node n) as Hent.
  { intros i Hi. rewrite <- Hfirst. split; apply (entries_le bt node n Hinc); lia. }
  split_and!.
  - apply (node_records_hold bt node Hsz ltac:(lia) Hb n Hfirst Hend Hinc). lia.
  - unfold node_records. destruct n eqn:E; [lia|]. done.
  - unfold node_records. apply Forall_map, Forall_forall. intros j Hjn. apply elem_of_seq in Hjn.
    pose proof (Hinc j ltac:(lia)). pose proof (Hent j ltac:(lia)). pose proof (Hent (S j) ltac:(lia)).
    simpl. pose proof (slice_length node (entry (nodeSize bt) node j)
      (entry (nodeSize bt) node (S j) - entry (nodeSize bt) node j)). lia.
Qed.

(** ** A concrete node *)

Ltac compute_bounds := repeat split; vm_compute; try reflexivity; intros ?; discriminate.

Definition node_holdsb (size : Z) (recs : list buffer) (node : buffer) : bool :=
  (Z.of_nat (length node) =? size) && (size <=? 32768) &&
  bool_decide (slice node 10 2 = le_encode 2 (Z.of_nat (length recs))) &&
  forallb (fun i => bool_decide (slice node (entry_pos size i) 2 = le_encode 2 (rec_offset recs i)))
    (seq 0 (S (length recs))) &&
  bool_decide (slice node sizeof_BTNodeDescriptor (total recs) = concat recs) &&
  (rec_offset recs (length recs) + 2 * Z.of_nat (length recs) + 2 <=? size).

Lemma node_holdsb_sound size recs node : node_holdsb size recs node = true -> node_holds size recs node.
Proof.
  unfold node_holdsb. rewrite !andb_true_iff, !bool_decide_eq_true, Z.eqb_eq, !Z.leb_le.
  intros [[[[[? ?] ?] Hf] ?] ?]. split; try done. intros i Hi. rewrite forallb_forall in Hf.
  specialize (Hf i ltac:(apply in_seq; lia)). by apply bool_decide_eq_true in Hf.
Qed.

(** A leaf of 128 bytes with records for the names "a" and "c" in folder 2. *)
Definition sample_tree : BTreeControlBlock := mkBTree 0 1 1 2 1 1 128 516 4 2 0 6 0 0 0 0 0 0 0 0 0.
Definition sample_key (c : Z) : buffer := [8; 0; 2; 0; 0; 0; 1; 0; c; 0].
Definition sample_records : list buffer := [sample_key 97 ++ [1; 2; 3; 4]; sample_key 99 ++ [5; 6; 7; 8]].
Definition sample_node : buffer :=
  le_encode 4 0 ++ le_encode 4 0 ++ [255; 1] ++ le_encode 2 2 ++ [0; 0] ++ concat sample_records ++
  replicate (128 - 14 - 28 - 6) 0 ++ le_encode 2 42 ++ le_encode 2 28 ++ le_encode 2 14.

Lemma sample_node_holds : node_holds (nodeSize sample_tree) sample_records sample_node.
Proof. apply node_holdsb_sound. vm_compute. reflexivity. Qed.

Lemma sample_keys_ok : Forall catalog_key_plus sample_records /\ catalog_key_plus (sample_key 98).
Proof.
  split; repeat constructor; try (vm_compute; done || (intros; discriminate)).
Qed.

Lemma sample_sorted : keys_sorted catalog_rank_plus sample_records.
Proof.
  intros [|[|i]] [|[|j]] a b Hij Ha Hb; try lia; try discriminate.
  injection Ha as <-. injection Hb as <-. vm_compute. reflexivity.
Qed.

Lemma InsertRecord_witness :
  exists ok node', InsertRecord sample_tree sample_node 1 (sample_key 98) 10 = Ok (ok, node') /\
    same_links sample_node node' /\
    (ok = true <-> rec_offset sample_records 2 + 10 + 2 * (2 + 2) <= 128) /\
    (ok = true -> node_holds 128 (insert_at 1 (slice (sample_key 98) 0 10) sample_records) node') /\
    (ok = false -> node' = sample_node).
Proof.
  apply (InsertRecord_correct sample_tree sample_records sample_node 1 (sample_key 98) 10);
    [apply sample_node_holds|simpl; lia|simpl; lia].
Defined.

Lemma InsertKeyRecord_witness :
  exists ok node',
    InsertKeyRecord sample_tree sample_node 1 (sample_key 98) 8 [9; 9; 9; 9] 4 = Ok (ok, node') /\
    same_links sample_node node' /\
    (ok = true <-> rec_offset sample_records 2 + padded_key_size sample_tree 8 + 4 + 2 * (2 + 2) <= 128) /\
    (ok = true -> node_holds 128 (insert_at 1
       (key_record sample_tree (sample_key 98) 8 8 (slice [9; 9; 9; 9] 0 4)) sample_records) node') /\
    (ok = false -> node' = sample_node).
Proof.
  apply (InsertKeyRecord_correct sample_tree sample_records sample_node 1 (sample_key 98) 8 8 [9; 9; 9; 9] 4);
    [apply sample_node_holds|simpl; lia|vm_compute; reflexivity|compute_bounds..].
Defined.

Lemma DeleteRecord_witness :
  exists node', DeleteRecord sample_tree sample_node 0 = Ok node' /\
    node_holds 128 [sample_key 99 ++ [5; 6; 7; 8]] node' /\ same_links sample_node node' /\
    slice node' (rec_offset [sample_key 99 ++ [5; 6; 7; 8]] 1) 14 = replicate 14 0.
Proof.
  apply (DeleteRecord_correct sample_tree sample_records sample_node 0 (sample_key 97 ++ [1; 2; 3; 4]));
    [apply sample_node_holds|reflexivity].
Defined.

Lemma insert_delete_witness :
  exists node1 node2, InsertRecord sample_tree sample_node 2 (sample_key 100) 10 = Ok (true, node1) /\
    DeleteRecord sample_tree node1 2 = Ok node2 /\
    node_holds 128 sample_records node2 /\ same_links sample_node node2.
Proof.
  apply (insert_delete_record sample_tree sample_records sample_node 2 (sample_key 100) 10);
    [apply sample_node_holds|simpl; lia|simpl; lia|vm_compute; intros ?; discriminate].
Defined.

Lemma SearchNode_witness :
  exists res, SearchNode sample_tree CompareExtendedCatalogKeys sample_node (sample_key 98) = Ok res /\
    match res with
    | (true, index) => exists r, sample_records !! Z.to_nat index = Some r /\ 0 <= index /\
        lex_cmp (catalog_rank_plus (sample_key 98)) (catalog_rank_plus r) = 0
    | (false, index) => 0 <= index <= 2 /\
        (forall j r, Z.of_nat j < index -> sample_records !! j = Some r ->
           lex_cmp (catalog_rank_plus (sample_key 98)) (catalog_rank_plus r) = 1) /\
        (forall j r, index <= Z.of_nat j -> sample_records !! j = Some r ->
           lex_cmp (catalog_rank_plus (sample_key 98)) (catalog_rank_plus r) = -1)
    end.
Proof.
  apply (SearchNode_correct sample_tree catalog_key_plus catalog_rank_plus CompareExtendedCatalogKeys
           sample_records sample_node (sample_key 98));
    [apply _|apply sample_node_holds|apply sample_keys_ok|apply sample_keys_ok|apply sample_sorted].
Defined.

Lemma search_insert_witness :
  exists node' recs', InsertRecord sample_tree sample_node 1 (sample_key 98) 10 = Ok (true, node') /\
    node_holds 128 recs' node' /\ keys_sorted catalog_rank_plus recs' /\
    recs' ≡ₚ sample_key 98 :: sample_records.
Proof.
  apply (search_insert_sorted sample_tree sample_records sample_node (sample_key 98) (sample_key 98) 1);
    [apply sample_node_holds|apply sample_keys_ok|apply sample_keys_ok|apply sample_sorted
    |reflexivity|vm_compute; intros ?; discriminate|vm_compute; reflexivity].
Defined.

Lemma key_record_witness :
  exists node', InsertKeyRecord sample_tree sample_node 1 (sample_key 98) 8 [9; 9; 9; 9] 4 = Ok (true, node') /\
    exists key data, GetRecordByIndex sample_tree node' 1 = Ok (inr (key, data, 4)) /\
      CalcKeySize sample_tree node' key = Ok (2 + 8) /\
      slice node' (key + 2) 8 = slice (sample_key 98) 2 8 /\
      slice node' data 4 = slice [9; 9; 9; 9] 0 4.
Proof.
  apply (key_record_roundtrip sample_tree sample_records sample_node 1 (sample_key 98) 8 8 [9; 9; 9; 9] 4);
    [apply sample_node_holds|simpl; lia|vm_compute; reflexivity|compute_bounds..].
Defined.

Lemma CheckNode_witness :
  exists err, CheckNode sample_tree 512 sample_node = Ok err /\
    (err = noErr \/ err = fsBTInvalidNodeErr) /\
    (err = noErr <-> valid_node sample_tree sample_node 512) /\
    (err = noErr -> entry 128 sample_node 0 = 14 ->
     exists recs, node_holds 128 recs sample_node /\ recs <> [] /\
       Forall (fun r => (1 <= length r)%nat) recs).
Proof.
  apply (CheckNode_correct sample_tree sample_node 512);
    [reflexivity|simpl; lia|reflexivity|apply (bool_decide_unpack _); vm_compute; done|simpl; lia].
Defined.

(** Where the hypothesis on the size of the data comes from: [bytesToMove = keySize -
    rawKeyLength] counts the length field twice, so as many bytes behind the key are cleared
    as the length field has; with no data to follow they are those of the next record. *)

(** Inserting a keyed record without data clears the first two bytes of the record that
    follows it in the node (here the length field of the key "c"). *)
Theorem InsertKeyRecord_clears_next :
  exists node', InsertKeyRecord sample_tree sample_node 1 (sample_key 98) 8 [] 0 = Ok (true, node') /\
    GetRecordOffset sample_tree node' 2 = Ok 38 /\
    slice node' 38 2 = [0; 0] /\ slice sample_node 28 2 = [8; 0].
Proof. eexists. split_and!; vm_compute; reflexivity. Qed.
