(* ===== verification/BTreeBlocks.v ===== *)
(** * Getting and releasing nodes (hfsplus/hfscommon/BTree/BTreeNodeOps.c)

    The B-tree code reaches its file through the procedures of the control block
    ([getBlockProc], [releaseBlockProc]); [FSAgent] is their interface, the rest
    of the code is written against it, and [FSAgentLaws] states what a working
    agent does.  A node in use is the value in its [NodeRec]; it goes back to the
    agent when it is released. *)
From S2P Require Import Prelude Bytes BTreeNode.

(** [BlockDescriptor]; [nil] pointers are [None].  [blockHeader], the buffer's
    header, is named by the number of the block. *)
Record NodeRec := mkNodeRec {
  nodeBuffer : option buffer;
  blockHeader : option Z;
  blockSize : Z;
  blockReadFromDisk : bool
}.

Definition kGetBlock : Z := 0.
Definition kGetEmptyBlock : Z := 8.
Definition kReleaseBlock : Z := 0.
Definition kForceWriteBlock : Z := 1.
Definition kMarkBlockDirty : Z := 2.
Definition kTrashBlock : Z := 4.
Definition kLockTransaction : Z := 256.
Definition kHFS_DamagedVolume : Z := 1.
Definition kHeaderNodeNum : Z := 0.

Definition fsBTInvalidHeaderErr : Z := ERR_BASE + 37.
Definition fsBTNoMoreMapNodesErr : Z := ERR_BASE + 0x030B.
Definition fsBTBadNodeType : Z := ERR_BASE + 0x030D.

Class FSAgent (W : Type) := {
  getBlockProc : W -> Z -> Z -> NodeRec -> Z * NodeRec * W;
  releaseBlockProc : W -> NodeRec -> Z -> Z * W;
  (** [GetFileControlBlock(fileRefNum)->fcbEOF] *)
  fcbEOF : W -> Z
}.

(** The state: control block, flags of the volume, and the agent's. *)
Record fs (W : Type) := mkFs { btree : BTreeControlBlock; vcbFlags : Z; agent : W }.
Arguments mkFs {W} _ _ _.
Arguments btree {W} _.
Arguments vcbFlags {W} _.
Arguments agent {W} _.

(** Assignments to fields of the control block. *)
Definition count_get (b : BTreeControlBlock) : BTreeControlBlock :=
  mkBTree (btreeType b) (treeDepth b) (rootNode b) (leafRecords b) (firstLeafNode b) (lastLeafNode b) (nodeSize b)
    (maxKeyLength b) (totalNodes b) (freeNodes b) (flags b) (attributes b) (writeCount b)
    (u32 (numGetNodes b + 1)) (numGetNewNodes b) (numReleaseNodes b) (numUpdateNodes b) (numMapNodesRead b)
    (numHintChecks b) (numPossibleHints b) (numValidHints b).
Definition count_new (b : BTreeControlBlock) : BTreeControlBlock :=
  mkBTree (btreeType b) (treeDepth b) (rootNode b) (leafRecords b) (firstLeafNode b) (lastLeafNode b) (nodeSize b)
    (maxKeyLength b) (totalNodes b) (freeNodes b) (flags b) (attributes b) (writeCount b)
    (numGetNodes b) (u32 (numGetNewNodes b + 1)) (numReleaseNodes b) (numUpdateNodes b) (numMapNodesRead b)
    (numHintChecks b) (numPossibleHints b) (numValidHints b).
Definition count_release (b : BTreeControlBlock) : BTreeControlBlock :=
  mkBTree (btreeType b) (treeDepth b) (rootNode b) (leafRecords b) (firstLeafNode b) (lastLeafNode b) (nodeSize b)
    (maxKeyLength b) (totalNodes b) (freeNodes b) (flags b) (attributes b) (writeCount b)
    (numGetNodes b) (numGetNewNodes b) (u32 (numReleaseNodes b + 1)) (numUpdateNodes b) (numMapNodesRead b)
    (numHintChecks b) (numPossibleHints b) (numValidHints b).
Definition count_update (b : BTreeControlBlock) : BTreeControlBlock :=
  mkBTree (btreeType b) (treeDepth b) (rootNode b) (leafRecords b) (firstLeafNode b) (lastLeafNode b) (nodeSize b)
    (maxKeyLength b) (totalNodes b) (freeNodes b) (flags b) (attributes b) (writeCount b)
    (numGetNodes b) (numGetNewNodes b) (numReleaseNodes b) (u32 (numUpdateNodes b + 1)) (numMapNodesRead b)
    (numHintChecks b) (numPossibleHints b) (numValidHints b).
Definition count_map (b : BTreeControlBlock) : BTreeControlBlock :=
  mkBTree (btreeType b) (treeDepth b) (rootNode b) (leafRecords b) (firstLeafNode b) (lastLeafNode b) (nodeSize b)
    (maxKeyLength b) (totalNodes b) (freeNodes b) (flags b) (attributes b) (writeCount b)
    (numGetNodes b) (numGetNewNodes b) (numReleaseNodes b) (numUpdateNodes b) (u32 (numMapNodesRead b + 1))
    (numHintChecks b) (numPossibleHints b) (numValidHints b).
(** [freeNodes = n; flags |= kBTHeaderDirty] *)
Definition set_freeNodes (b : BTreeControlBlock) (n : Z) : BTreeControlBlock :=
  mkBTree (btreeType b) (treeDepth b) (rootNode b) (leafRecords b) (firstLeafNode b) (lastLeafNode b) (nodeSize b)
    (maxKeyLength b) (totalNodes b) n (Z.lor (flags b) kBTHeaderDirty) (attributes b) (writeCount b)
    (numGetNodes b) (numGetNewNodes b) (numReleaseNodes b) (numUpdateNodes b) (numMapNodesRead b)
    (numHintChecks b) (numPossibleHints b) (numValidHints b).

Section blocks.
Context {W : Type} `{!FSAgent W}.

Definition with_tree (s : fs W) (b : BTreeControlBlock) : fs W := mkFs b (vcbFlags s) (agent s).
Definition with_agent (s : fs W) (w : W) : fs W := mkFs (btree s) (vcbFlags s) w.

(** [buffer = nil; blockHeader = nil] *)
Definition nil_node (r : NodeRec) : NodeRec := mkNodeRec None None (blockSize r) (blockReadFromDisk r).
Definition set_blockSize (r : NodeRec) (n : Z) : NodeRec :=
  mkNodeRec (nodeBuffer r) (blockHeader r) n (blockReadFromDisk r).
Definition set_buffer (r : NodeRec) (b : buffer) : NodeRec :=
  mkNodeRec (Some b) (blockHeader r) (blockSize r) (blockReadFromDisk r).

(** [ReleaseNode] and [TrashNode] differ in the option. *)
Definition release_with (options : Z) (s : fs W) (nodePtr : NodeRec) : Z * NodeRec * fs W :=
  match nodeBuffer nodePtr with
  | Some _ =>
      let '(err, w) := releaseBlockProc (agent s) nodePtr options in
      (err, nil_node nodePtr, with_tree (with_agent s w) (count_release (btree s)))
  | None => (noErr, nil_node nodePtr, s)
  end.
Definition ReleaseNode (s : fs W) (nodePtr : NodeRec) : Z * NodeRec * fs W :=
  release_with kReleaseBlock s nodePtr.
Definition TrashNode (s : fs W) (nodePtr : NodeRec) : Z * NodeRec * fs W :=
  release_with (Z.lor kReleaseBlock kTrashBlock) s nodePtr.

(** The [CheckNode] of a debugging build is ignored, but its accesses are made. *)
Definition UpdateNode (s : fs W) (nodePtr : NodeRec) (updateFlags : Z) : outcome (Z * NodeRec * fs W) :=
  match nodeBuffer nodePtr with
  | Some b =>
      _ ← (if Z.land (attributes (btree s)) kBTVariableIndexKeysMask =? 0 then Ok noErr
           else CheckNode (btree s) (fcbEOF (agent s)) b);
      let '(err, w) := releaseBlockProc (agent s) nodePtr (Z.lor updateFlags kMarkBlockDirty) in
      let s := with_tree (with_agent s w) (count_update (btree s)) in
      if negb (err =? noErr) then Ok (err, nodePtr, s) else Ok (noErr, nil_node nodePtr, s)
  | None => Ok (noErr, nil_node nodePtr, s)
  end.

Definition GetNode (s : fs W) (nodeNum : Z) (nodePtr : NodeRec) : outcome (Z * NodeRec * fs W) :=
  if totalNodes (btree s) <=? nodeNum then Ok (fsBTInvalidNodeErr, nil_node nodePtr, s)
  else
    let nodePtr := set_blockSize nodePtr (nodeSize (btree s)) in
    let '(err, nodePtr, w) := getBlockProc (agent s) nodeNum kGetBlock nodePtr in
    let s := with_agent s w in
    if negb (err =? noErr) then Ok (err, nil_node nodePtr, s)
    else
      let s := with_tree s (count_get (btree s)) in
      if blockReadFromDisk nodePtr then
        b ← of_option (nodeBuffer nodePtr);
        err ← CheckNode (btree s) (fcbEOF (agent s)) b;
        if negb (err =? noErr) then
          let s := mkFs (btree s) (Z.lor (vcbFlags s) kHFS_DamagedVolume) (agent s) in
          let '(_, nodePtr, s) := TrashNode s nodePtr in
          Ok (err, nil_node nodePtr, s)
        else Ok (noErr, nodePtr, s)
      else Ok (noErr, nodePtr, s).

Definition GetNewNode (s : fs W) (nodeNum : Z) (returnNodePtr : NodeRec) : outcome (Z * NodeRec * fs W) :=
  let returnNodePtr := set_blockSize returnNodePtr (nodeSize (btree s)) in
  let '(err, returnNodePtr, w) :=
    getBlockProc (agent s) nodeNum (kGetBlock + kGetEmptyBlock) returnNodePtr in
  let s := with_agent s w in
  if negb (err =? noErr) then Ok (err, returnNodePtr, s)
  else
    let s := with_tree s (count_new (btree s)) in
    b ← of_option (nodeBuffer returnNodePtr);
    b ← ClearNode (btree s) b;
    b ← store16 b (nodeSize (btree s) - 2) sizeof_BTNodeDescriptor;
    Ok (noErr, set_buffer returnNodePtr b, s).
End blocks.

(** ** What a working agent does

    [contents w n] is block [n] of the file as the agent would give it out.  A node
    of the file is given out with its contents; releasing it unchanged changes
    nothing, and releasing it dirty makes its bytes the contents of its block. *)
Class FSAgentLaws (W : Type) `{!FSAgent W} (size : Z) (contents : W -> Z -> buffer) : Prop := {
  get_ok w n r : 0 <= n -> (n + 1) * size <= fcbEOF w ->
    exists r' w', getBlockProc w n kGetBlock r = (noErr, r', w') /\
      nodeBuffer r' = Some (contents w n) /\ blockHeader r' = Some n /\
      (forall m, contents w' m = contents w m) /\ fcbEOF w' = fcbEOF w;
  get_empty_ok w n r : 0 <= n -> (n + 1) * size <= fcbEOF w ->
    exists r' w' b, getBlockProc w n (kGetBlock + kGetEmptyBlock) r = (noErr, r', w') /\
      nodeBuffer r' = Some b /\ Z.of_nat (length b) = size /\ blockHeader r' = Some n /\
      (forall m, m <> n -> contents w' m = contents w m) /\ fcbEOF w' = fcbEOF w;
  release_ok w n r : blockHeader r = Some n -> nodeBuffer r = Some (contents w n) ->
    exists w', releaseBlockProc w r kReleaseBlock = (noErr, w') /\
      (forall m, contents w' m = contents w m) /\ fcbEOF w' = fcbEOF w;
  release_dirty w n r b opts : 0 <= n -> blockHeader r = Some n -> nodeBuffer r = Some b ->
    Z.testbit opts 1 = true -> Z.testbit opts 2 = false ->
    exists w', releaseBlockProc w r opts = (noErr, w') /\
      contents w' n = b /\ (forall m, m <> n -> contents w' m = contents w m) /\
      fcbEOF w' = fcbEOF w
}.

(** Control blocks that differ at most in the counters of node operations. *)
Definition recount (b : BTreeControlBlock) (c1 c2 c3 c4 c5 c6 c7 c8 : Z) : BTreeControlBlock :=
  mkBTree (btreeType b) (treeDepth b) (rootNode b) (leafRecords b) (firstLeafNode b) (lastLeafNode b) (nodeSize b)
    (maxKeyLength b) (totalNodes b) (freeNodes b) (flags b) (attributes b) (writeCount b) c1 c2 c3 c4 c5 c6 c7 c8.
Definition same_tree (b b' : BTreeControlBlock) : Prop :=
  exists c1 c2 c3 c4 c5 c6 c7 c8, b' = recount b c1 c2 c3 c4 c5 c6 c7 c8.

#[export] Instance same_tree_equiv : Equivalence same_tree.
Proof.
  split.
  - intros []. repeat eexists.
  - intros [] b' (? & ? & ? & ? & ? & ? & ? & ? & ->). repeat eexists.
  - intros b1 b2 b3 (? & ? & ? & ? & ? & ? & ? & ? & ->) (? & ? & ? & ? & ? & ? & ? & ? & ->). repeat eexists.
Qed.

Lemma same_tree_counts b :
  same_tree b (count_get b) /\ same_tree b (count_new b) /\ same_tree b (count_release b) /\
  same_tree b (count_update b) /\ same_tree b (count_map b).
Proof. split_and!; repeat eexists. Qed.

Lemma same_tree_fields b b' : same_tree b b' ->
  nodeSize b' = nodeSize b /\ totalNodes b' = totalNodes b /\ freeNodes b' = freeNodes b /\
  attributes b' = attributes b /\ flags b' = flags b.
Proof. by intros (? & ? & ? & ? & ? & ? & ? & ? & ->). Qed.

(** Control blocks that agree on the tree: they differ at most in the number of free
    nodes, the flags and the counters. *)
Definition same_shape (b b' : BTreeControlBlock) : Prop :=
  treeDepth b' = treeDepth b /\ rootNode b' = rootNode b /\ leafRecords b' = leafRecords b /\
  firstLeafNode b' = firstLeafNode b /\ lastLeafNode b' = lastLeafNode b /\ nodeSize b' = nodeSize b /\
  maxKeyLength b' = maxKeyLength b /\ totalNodes b' = totalNodes b /\ attributes b' = attributes b.

#[export] Instance same_shape_equiv : Equivalence same_shape.
Proof. split; [done|intros b b' H|intros b1 b2 b3 H1 H2]; unfold same_shape in *; intuition congruence. Qed.

Lemma same_tree_shape b b' : same_tree b b' -> same_shape b b'.
Proof. by intros (? & ? & ? & ? & ? & ? & ? & ? & ->). Qed.

Lemma CheckNode_same b b' eof node : same_tree b b' -> CheckNode b' eof node = CheckNode b eof node.
Proof. by intros (? & ? & ? & ? & ? & ? & ? & ? & ->). Qed.

Section laws.
Context {W : Type} `{!FSAgent W} (size : Z) (contents : W -> Z -> buffer)
  `{!FSAgentLaws W size contents}.

(** Nothing but counters changed. *)
Definition same_fs (s s' : fs W) : Prop :=
  same_tree (btree s) (btree s') /\ vcbFlags s' = vcbFlags s /\
  fcbEOF (agent s') = fcbEOF (agent s) /\
  forall n, contents (agent s') n = contents (agent s) n.

#[export] Instance same_fs_equiv : Equivalence same_fs.
Proof.
  split.
  - intros s. split_and!; done.
  - intros s1 s2 (H1 & ? & ? & C1). split_and!; [by symmetry|done|done|]. intros n. by rewrite C1.
  - intros s1 s2 s3 (H1 & ? & ? & C1) (H2 & ? & ? & C2). split_and!; [by etrans|congruence|congruence|].
    intros n. by rewrite C2.
Qed.

(** Node [n] can be read: it is a node of the file that passes the check. *)
Definition readable (s : fs W) (n : Z) : Prop :=
  0 <= n < totalNodes (btree s) /\ (n + 1) * size <= fcbEOF (agent s) /\
  CheckNode (btree s) (fcbEOF (agent s)) (contents (agent s) n) = Ok noErr.

Lemma readable_same s s' n : same_fs s s' -> readable s n -> readable s' n.
Proof.
  intros (Ht & _ & HE & HC) (? & ? & ?). unfold readable.
  destruct (same_tree_fields _ _ Ht) as (_ & -> & _). rewrite HE, HC, (CheckNode_same _ _ _ _ Ht). done.
Qed.

Lemma GetNode_readable s n r : readable s n ->
  exists r' s', GetNode s n r = Ok (noErr, r', s') /\
    nodeBuffer r' = Some (contents (agent s) n) /\ blockHeader r' = Some n /\ same_fs s s'.
Proof using FSAgentLaws0.
  intros (Hn & HE & Hc). unfold GetNode. case_ztest; [lia|].
  destruct (get_ok (agent s) n (set_blockSize r (nodeSize (btree s))) ltac:(lia) HE)
    as (r' & w' & -> & Hb & Hh & HC & HE'). simpl.
  assert (same_fs s (with_tree (with_agent s w') (count_get (btree s)))) as Hs.
  { split_and!; [apply same_tree_counts|done|done|done]. }
  rewrite Hb, HE'. simpl. rewrite (CheckNode_same (btree s)) by apply same_tree_counts. rewrite Hc. simpl.
  destruct (blockReadFromDisk r'); eauto 10.
Qed.

Lemma ReleaseNode_unchanged s n r :
  nodeBuffer r = Some (contents (agent s) n) -> blockHeader r = Some n ->
  exists r' s', ReleaseNode s r = (noErr, r', s') /\ nodeBuffer r' = None /\ same_fs s s'.
Proof using FSAgentLaws0.
  intros Hb Hh. unfold ReleaseNode, release_with. rewrite Hb.
  destruct (release_ok (agent s) n r Hh Hb) as (w' & -> & HC & HE).
  do 2 eexists. split_and!; [done|done|]. split_and!; [apply same_tree_counts|done|done|done].
Qed.

(** [s'] is [s] with the bytes [b] in node [n]. *)
Definition updated (s s' : fs W) (n : Z) (b : buffer) : Prop :=
  same_tree (btree s) (btree s') /\ vcbFlags s' = vcbFlags s /\
  fcbEOF (agent s') = fcbEOF (agent s) /\ contents (agent s') n = b /\
  forall m, m <> n -> contents (agent s') m = contents (agent s) m.

Lemma UpdateNode_stores s n r b opts :
  0 <= n -> nodeBuffer r = Some b -> blockHeader r = Some n -> Z.testbit opts 2 = false ->
  is_Ok (CheckNode (btree s) (fcbEOF (agent s)) b) ->
  exists r' s', UpdateNode s r opts = Ok (noErr, r', s') /\
    nodeBuffer r' = None /\ updated s s' n b.
Proof using FSAgentLaws0.
  intros Hn Hb Hh Hopts [e Hc]. unfold UpdateNode. rewrite Hb, Hc.
  destruct (release_dirty (agent s) n r b (Z.lor opts kMarkBlockDirty) Hn Hh Hb
              ltac:(rewrite Z.lor_spec; apply orb_true_r)
              ltac:(rewrite Z.lor_spec, Hopts; done)) as (w' & -> & HC & HC' & HE).
  destruct (_ =? 0); simpl; (do 2 eexists; split_and!; [done|done|];
    split_and!; [apply same_tree_counts|done|done|done|done]).
Qed.
End laws.
