(* ===== verification/BTreeMap.v ===== *)
(** * The node map of a B-tree (hfsplus/hfscommon/BTree/BTreeAllocate.c)

    One bit for every node of the file, in record 2 of the header node and, for
    larger files, in the records of a chain of map nodes.  [AllocateNode] and
    [FreeNode] against the set of nodes in use that the map stands for. *)
From S2P Require Import Prelude Bits Bytes BTreeNode BTreeBlocks.

Section map_ops.
Context {W : Type} `{!FSAgent W}.

(** The result: error, node, [mapPtr] (an offset in the node) and [mapSize]. *)
Definition map_error (s : fs W) (nodePtr : NodeRec) (err : Z) : Z * NodeRec * option Z * Z * fs W :=
  let '(_, nodePtr, s) := ReleaseNode s nodePtr in (err, nodePtr, None, 0, s).

Definition map_record (s : fs W) (nodePtr : NodeRec) (mapIndex : Z)
    : outcome (Z * NodeRec * option Z * Z * fs W) :=
  b ← of_option (nodeBuffer nodePtr);
  mapPtr ← GetRecordAddress (btree s) b mapIndex;
  mapSize ← GetRecordSize (btree s) b mapIndex;
  Ok (noErr, nodePtr, Some mapPtr, mapSize, s).

Definition GetMapNode (s : fs W) (nodePtr : NodeRec) : outcome (Z * NodeRec * option Z * Z * fs W) :=
  match nodeBuffer nodePtr with
  | Some b =>
      nextNodeNum ← fLink b;
      if nextNodeNum =? 0 then Ok (map_error s nodePtr fsBTNoMoreMapNodesErr)
      else
        let '(err, nodePtr, s) := ReleaseNode s nodePtr in
        if negb (err =? noErr) then Ok (map_error s nodePtr err)
        else
          '(err, nodePtr, s) ← GetNode s nextNodeNum nodePtr;
          if negb (err =? noErr) then Ok (map_error s nodePtr err)
          else
            b ← of_option (nodeBuffer nodePtr);
            k ← kind b;
            if negb (k =? kBTMapNode) then Ok (map_error s nodePtr fsBTBadNodeType)
            else map_record (with_tree s (count_map (btree s))) nodePtr 0
  | None =>
      '(err, nodePtr, s) ← GetNode s kHeaderNodeNum nodePtr;
      if negb (err =? noErr) then Ok (map_error s nodePtr err)
      else
        b ← of_option (nodeBuffer nodePtr);
        k ← kind b;
        if negb (k =? kBTHeaderNode) then Ok (map_error s nodePtr fsBTInvalidHeaderErr)
        else map_record s nodePtr 2
  end.

(** [while (size--) if ( *pos++ != 0xFFFF) break; --pos;] *)
Fixpoint find_word (size : nat) (b : buffer) (pos : Z) : outcome Z :=
  match size with
  | O => Ok (pos - 2)
  | S size =>
      w ← load16 b pos;
      if negb (w =? 0xFFFF) then Ok pos else find_word size b (pos + 2)
  end.

(** [do { if ((freeWord & mask) == 0) break; mask >>= 1; } while (--bitOffset);] *)
Fixpoint find_bit (fuel : nat) (freeWord mask bitOffset : Z) : outcome (Z * Z) :=
  match fuel with
  | O => Diverge
  | S fuel =>
      if Z.land freeWord mask =? 0 then Ok (mask, bitOffset)
      else
        let mask := Z.shiftr mask 1 in
        let bitOffset := u16 (bitOffset - 1) in
        if bitOffset =? 0 then Ok (mask, bitOffset) else find_bit fuel freeWord mask bitOffset
  end.

(** The result of the search for a map record with a free bit. *)
Inductive map_search :=
| NoMap (err : Z) (node : NodeRec) (s : fs W)
| InMap (node : NodeRec) (mapPtr pos nodeNumber : Z) (s : fs W).

Fixpoint search_map (fuel : nat) (s : fs W) (node : NodeRec) (nodeNumber : Z) : outcome map_search :=
  match fuel with
  | O => Diverge
  | S fuel =>
      '(err, node, mapPtr, mapSize, s) ← GetMapNode s node;
      if negb (err =? noErr) then Ok (NoMap err node s)
      else
        mapPtr ← of_option mapPtr;
        b ← of_option (nodeBuffer node);
        pos ← find_word (Z.to_nat (Z.shiftr mapSize 1)) b mapPtr;
        w ← load16 b pos;
        if negb (w =? 0xFFFF) then Ok (InMap node mapPtr pos nodeNumber s)
        else search_map fuel s node (u32 (nodeNumber + Z.shiftl mapSize 3))
  end.

(** [ErrorExit] *)
Definition allocate_error (s : fs W) (node : NodeRec) (err : Z) : Z * Z * fs W :=
  let '(_, _, s) := ReleaseNode s node in (err, 0, s).

(** A chain of more than [totalNodes] map nodes runs in a circle, which the loop would
    not leave. *)
Definition AllocateNode (s : fs W) : outcome (Z * Z * fs W) :=
  r ← search_map (S (Z.to_nat (totalNodes (btree s)))) s (mkNodeRec None None 0 false) 0;
  match r with
  | NoMap err node s => Ok (allocate_error s node err)
  | InMap node mapPtr pos nodeNumber s =>
      b ← of_option (nodeBuffer node);
      w ← load16 b pos;
      let freeWord := SWAP_BE16 w in
      '(mask, bitOffset) ← find_bit 16 freeWord 0x8000 15;
      let nodeNumber := u32 (nodeNumber + Z.shiftl ((pos - mapPtr) / 2) 4 + (15 - bitOffset)) in
      if totalNodes (btree s) <=? nodeNumber then Ok (allocate_error s node fsBTFullErr)
      else
        b ← store16 b pos (Z.lor w (SWAP_BE16 mask));
        '(err, node, s) ← UpdateNode s (set_buffer node b) kLockTransaction;
        if negb (err =? noErr) then Ok (allocate_error s node err)
        else Ok (noErr, nodeNumber, with_tree s (set_freeNodes (btree s) (u32 (freeNodes (btree s) - 1))))
  end.

(** [while (nodeNum >= nodeIndex)]; in the first round it is true. *)
Fixpoint find_map (fuel : nat) (s : fs W) (node : NodeRec) (nodeNum nodeIndex : Z)
    (mapPos : option Z) (mapSize : Z) : outcome (Z * NodeRec * option Z * Z * Z * fs W) :=
  match fuel with
  | O => Diverge
  | S fuel =>
      if nodeIndex <=? nodeNum then
        '(err, node, mapPos, mapSize, s) ← GetMapNode s node;
        if negb (err =? noErr) then Ok (err, node, mapPos, mapSize, nodeIndex, s)
        else find_map fuel s node nodeNum (u32 (nodeIndex + Z.shiftl mapSize 3)) mapPos mapSize
      else Ok (noErr, node, mapPos, mapSize, nodeIndex, s)
  end.

Definition free_error (s : fs W) (node : NodeRec) (err : Z) : Z * fs W :=
  let '(_, _, s) := ReleaseNode s node in (err, s).

Definition FreeNode (s : fs W) (nodeNum : Z) : outcome (Z * fs W) :=
  '(err, node, mapPos, mapSize, nodeIndex, s) ←
    find_map (S (S (Z.to_nat (totalNodes (btree s))))) s (mkNodeRec None None 0 false) nodeNum 0 None 0;
  if negb (err =? noErr) then Ok (free_error s node err)
  else
    let nodeNum := u32 (nodeNum - u32 (nodeIndex - Z.shiftl mapSize 3)) in
    let bitOffset := 15 - Z.land nodeNum 0xF in
    mapPos ← of_option mapPos;
    b ← of_option (nodeBuffer node);
    let mapPos := mapPos + 2 * Z.shiftr nodeNum 4 in
    w ← load16 b mapPos;
    b ← store16 b mapPos (Z.land w (SWAP_BE16 (Z.lnot (Z.shiftl 1 bitOffset))));
    '(err, node, s) ← UpdateNode s (set_buffer node b) kLockTransaction;
    if negb (err =? noErr) then Ok (free_error s node err)
    else Ok (noErr, with_tree s (set_freeNodes (btree s) (u32 (freeNodes (btree s) + 1)))).
End map_ops.

Definition M_HeaderMapRecordSize (size : Z) : Z := size - 14 - 106 - 128 - 8.
Definition M_MapRecordSize (size : Z) : Z := size - 14 - 6.

Fixpoint calc_map_bits (fuel : nat) (mapBits total step : Z) : outcome Z :=
  match fuel with
  | O => Diverge
  | S fuel => if mapBits <? total then calc_map_bits fuel (u32 (mapBits + step)) total step else Ok mapBits
  end.
Definition CalcMapBits (b : BTreeControlBlock) : outcome Z :=
  calc_map_bits (S (Z.to_nat (totalNodes b))) (u32 (Z.shiftl (M_HeaderMapRecordSize (nodeSize b)) 3))
    (totalNodes b) (Z.shiftl (M_MapRecordSize (nodeSize b)) 3).

(** ** Writing into a record *)

Lemma splice_app_mid A r B q bs :
  0 <= q -> q + Z.of_nat (length bs) <= Z.of_nat (length r) ->
  splice (A ++ r ++ B) (Z.of_nat (length A) + q) bs = A ++ splice r q bs ++ B.
Proof.
  intros. unfold splice. rewrite Z2Nat.inj_add, Nat2Z.id by lia.
  rewrite <- Nat.add_assoc. rewrite take_app_add, drop_app_add, take_app_le, drop_app_le by lia.
  by rewrite <- !app_assoc.
Qed.

Lemma slice_splice_inside m p n q bs :
  0 <= p -> 0 <= q -> q + Z.of_nat (length bs) <= n -> p + n <= Z.of_nat (length m) ->
  slice (splice m (p + q) bs) p n = splice (slice m p n) q bs.
Proof.
  intros. pose proof (slice_length m p n). apply list_eq. intros i.
  rewrite slice_lookup, !splice_lookup, slice_lookup by lia.
  repeat case_decide; try lia; try done. f_equal. lia.
Qed.

Lemma total_lengths a b : map length a = map length b -> total a = total b.
Proof.
  revert b. induction a as [|x a IH]; intros [|y b] H; simpl in H; try discriminate; [done|].
  injection H as Hxy Hab. rewrite !total_cons, (IH _ Hab). lia.
Qed.

Lemma rec_offset_lengths a b i : map length a = map length b -> rec_offset a i = rec_offset b i.
Proof.
  intros H. unfold rec_offset. f_equal. apply total_lengths. by rewrite <- !firstn_map, H.
Qed.

Section write_record.
Context (size : Z) (recs : list buffer) (node r : buffer) (i : nat) (q : Z) (bs : buffer).
Context (Hh : node_holds size recs node) (Hr : recs !! i = Some r).
Context (Hq : 0 <= q) (Hfit : q + Z.of_nat (length bs) <= Z.of_nat (length r)).

Lemma map_length_write : map length (<[i := splice r q bs]> recs) = map length recs.
Proof using Hr Hq Hfit.
  pose proof (lookup_lt_Some _ _ _ Hr). rewrite <- (list_insert_id recs i r Hr) at 2.
  rewrite !(list_fmap_insert length). by rewrite splice_length by lia.
Qed.

Lemma concat_write : concat (<[i := splice r q bs]> recs) =
  splice (concat recs) (total (take i recs) + q) bs.
Proof using Hr Hq Hfit.
  pose proof (lookup_lt_Some _ _ _ Hr).
  rewrite <- (take_drop_middle recs i r Hr) at 2. rewrite insert_take_drop by done.
  rewrite !concat_app. simpl. symmetry. apply splice_app_mid; done.
Qed.

Lemma record_inside : sizeof_BTNodeDescriptor + total recs <= Z.of_nat (length node) /\
  total (take i recs) + Z.of_nat (length r) <= total recs.
Proof using Hh Hr.
  clear Hq Hfit. pose proof (nh_fits _ _ _ Hh) as Hf. rewrite rec_offset_all in Hf. rewrite (nh_size _ _ _ Hh).
  split; [lia|]. rewrite <- (take_drop_middle recs i r Hr) at 2.
  rewrite total_app, total_cons. pose proof (total_nonneg (drop (S i) recs)). lia.
Qed.

Lemma node_holds_write :
  node_holds size (<[i := splice r q bs]> recs) (splice node (rec_offset recs i + q) bs) /\
  (forall p n, 0 <= p -> 0 <= n ->
     p + n <= 14 \/ rec_offset recs (length recs) <= p ->
     slice (splice node (rec_offset recs i + q) bs) p n = slice node p n).
Proof using Hh Hr Hq Hfit.
  pose proof (rec_offset_ge recs i) as Ho. pose proof (lookup_lt_Some _ _ _ Hr) as Hi.
  pose proof (rec_offset_S _ _ _ Hr). pose proof (total_nonneg (take i recs)).
  destruct (node_holds_bounds _ _ _ (S i) Hh ltac:(lia)) as (? & ? & ?).
  destruct record_inside as [Hin1 Hin2]. pose proof map_length_write as Hml.
  assert (forall p n, 0 <= p -> 0 <= n -> p + n <= 14 \/ rec_offset recs (length recs) <= p ->
    slice (splice node (rec_offset recs i + q) bs) p n = slice node p n) as Hout.
  { intros. apply slice_splice_disjoint; lia. }
  split; [|done]. split.
  - rewrite splice_length by lia. lia.
  - lia.
  - rewrite length_insert, Hout by lia. apply Hh.
  - rewrite length_insert. intros j Hj. unfold entry_pos. rewrite Hout by lia.
    rewrite (rec_offset_lengths _ _ _ Hml). by apply Hh.
  - rewrite concat_write, (total_lengths _ _ Hml). unfold rec_offset. rewrite <- Z.add_assoc.
    rewrite slice_splice_inside by (unfold sizeof_BTNodeDescriptor in *; lia).
    by rewrite (nh_data _ _ _ Hh).
  - rewrite length_insert, (rec_offset_lengths _ _ _ Hml). apply Hh.
Qed.
End write_record.

(** ** Bits of a map record *)

(** Bit [n] of a map, the bits of a byte counted from the highest. *)
Definition used (r : buffer) (n : Z) : bool := Z.testbit (nth (Z.to_nat (n / 8)) r 0) (7 - n mod 8).
(** Word [j], as the processor reads it. *)
Definition word (r : buffer) (j : Z) : Z := le_decode (slice r (2 * j) 2).

Lemma testbit_bytes a b k : byte a -> byte b -> 0 <= k ->
  Z.testbit (a + 256 * b) k = if k <? 8 then Z.testbit a k else Z.testbit b (k - 8).
Proof.
  unfold byte. intros Ha Hb Hk. destruct (Z.ltb_spec k 8).
  - rewrite <- (Z.mod_pow2_bits_low _ 8) by lia. f_equal. change (2 ^ 8) with 256.
    rewrite (Z.mul_comm 256), Z.mod_add, Z.mod_small by lia. done.
  - replace k with ((k - 8) + 8) at 1 by lia. rewrite <- Z.div_pow2_bits by lia. f_equal.
    change (2 ^ 8) with 256. rewrite (Z.mul_comm 256), Z.div_add, Z.div_small by lia. lia.
Qed.

Lemma slice2 r p : 0 <= p -> p + 2 <= Z.of_nat (length r) ->
  slice r p 2 = [nth (Z.to_nat p) r 0; nth (S (Z.to_nat p)) r 0].
Proof.
  intros. apply (list_eq_same_length _ _ 2); [done| |].
  { pose proof (slice_length r p 2). lia. }
  intros i x y Hi. rewrite slice_lookup, decide_True by lia.
  intros Hx Hy. apply (nth_lookup_Some _ _ 0) in Hx.
  destruct i as [|[|i]]; [| |lia]; simpl in Hy; injection Hy as <-; rewrite <- Hx; f_equal; lia.
Qed.

Lemma nth_byte r i : Forall byte r -> byte (nth i r 0).
Proof.
  intros H. destruct (decide (i < length r)%nat).
  - apply Forall_nth; done.
  - rewrite nth_overflow by lia. done.
Qed.

Lemma word_range r j : Forall byte r -> 0 <= j -> 2 * j + 2 <= Z.of_nat (length r) -> 0 <= word r j < 65536.
Proof.
  intros. unfold word. pose proof (le_decode_range (slice r (2 * j) 2) ltac:(by apply slice_bytes)) as H'.
  rewrite slice_length in H' by lia. done.
Qed.

Lemma used_word r n : Forall byte r -> 0 <= n -> 2 * (n / 16) + 2 <= Z.of_nat (length r) ->
  used r n = Z.testbit (SWAP_BE16 (word r (n / 16))) (15 - n mod 16).
Proof.
  intros Hb Hn Hl. unfold used, word, SWAP_BE16.
  pose proof (Z.mod_pos_bound n 16 ltac:(lia)) as Ht. pose proof (Z.div_mod n 16 ltac:(lia)) as Hdm.
  pose proof (Z.div_pos n 16 Hn ltac:(lia)).
  set (j := n / 16) in *. set (t := n mod 16) in *. clearbody j t.
  rewrite bswap16_spec by lia. rewrite slice2 by lia. cbn [le_decode].
  rewrite Z.mul_0_r, Z.add_0_r, testbit_bytes; try (by apply nth_byte).
  2: { unfold swap16_pos. pose proof (Z.mod_pos_bound (15 - t) 8 ltac:(lia)).
       assert (0 <= (15 - t) / 8 <= 1) by (split; [apply Z.div_pos|apply Z.lt_succ_r, Z.div_lt_upper_bound]; lia).
       lia. }
  destruct (Z.ltb_spec t 8).
  - assert (n / 8 = 2 * j) as -> by (symmetry; apply (Z.div_unique n 8 (2 * j) t); lia).
    assert (n mod 8 = t) as -> by (symmetry; apply (Z.mod_unique n 8 (2 * j) t); lia).
    assert (swap16_pos (15 - t) = 7 - t) as ->.
    { unfold swap16_pos.
      assert ((15 - t) / 8 = 1) as -> by (symmetry; apply (Z.div_unique (15 - t) 8 1 (7 - t)); lia).
      assert ((15 - t) mod 8 = 7 - t) as -> by (symmetry; apply (Z.mod_unique (15 - t) 8 1 (7 - t)); lia).
      lia. }
    case_ztest; [|lia]. done.
  - assert (n / 8 = 2 * j + 1) as -> by (symmetry; apply (Z.div_unique n 8 (2 * j + 1) (t - 8)); lia).
    assert (n mod 8 = t - 8) as -> by (symmetry; apply (Z.mod_unique n 8 (2 * j + 1) (t - 8)); lia).
    assert (swap16_pos (15 - t) = 23 - t) as ->.
    { unfold swap16_pos. rewrite Z.div_small, Z.mod_small by lia. lia. }
    case_ztest; [lia|]. f_equal; [|lia]. f_equal. lia.
Qed.

(** A record after a store into word [j]. *)
Definition write_word (r : buffer) (j v : Z) : buffer := splice r (2 * j) (le_encode 2 v).

Section write_word.
Context (r : buffer) (j v : Z) (Hb : Forall byte r).
Context (Hj : 0 <= j) (Hl : 2 * j + 2 <= Z.of_nat (length r)) (Hv : 0 <= v < 65536).

Lemma write_word_length : length (write_word r j v) = length r.
Proof using Hj Hl. apply splice_length; [lia|]. rewrite le_encode_length. lia. Qed.

Lemma write_word_bytes : Forall byte (write_word r j v).
Proof using Hb. by apply splice_bytes, le_encode_bytes. Qed.

Lemma word_write_same : word (write_word r j v) j = v.
Proof using Hj Hl Hv.
  unfold word, write_word. rewrite slice_splice_same by (rewrite ?le_encode_length; lia).
  by apply le_decode16.
Qed.

Lemma word_write_other k : 0 <= k -> k <> j -> word (write_word r j v) k = word r k.
Proof using Hj Hl.
  intros. unfold word, write_word.
  rewrite slice_splice_disjoint by (rewrite ?le_encode_length; lia). done.
Qed.

Lemma used_write n : 0 <= n < 8 * Z.of_nat (length r) -> Z.even (Z.of_nat (length r)) = true ->
  used (write_word r j v) n =
  if n / 16 =? j then Z.testbit (SWAP_BE16 v) (15 - n mod 16) else used r n.
Proof using Hb Hj Hl Hv.
  intros Hn [h Hh]%Z.even_spec. pose proof (Z.div_pos n 16 ltac:(lia) ltac:(lia)).
  pose proof (Z.div_mod n 16 ltac:(lia)). pose proof (Z.mod_pos_bound n 16 ltac:(lia)).
  rewrite used_word; [|by apply write_word_bytes|lia|rewrite write_word_length; lia].
  destruct (Z.eqb_spec (n / 16) j) as [->|]; [by rewrite word_write_same|].
  rewrite word_write_other by done. symmetry. apply used_word; done || lia.
Qed.
End write_word.

Lemma pow2_testbit b i : 0 <= b -> 0 <= i -> Z.testbit (2 ^ b) i = (i =? b).
Proof. intros. rewrite Z.pow2_bits_eqb by done. apply Z.eqb_sym. Qed.

(** Setting and clearing bit [t] of word [n / 16], through the byte swap. *)
Lemma swap_set w t i : 0 <= t < 16 -> 0 <= i < 16 ->
  Z.testbit (SWAP_BE16 (Z.lor w (SWAP_BE16 (2 ^ t)))) i = Z.testbit (SWAP_BE16 w) i || (i =? t).
Proof.
  intros. unfold SWAP_BE16. pose proof (swap16_pos_range i ltac:(done)).
  rewrite !bswap16_spec, Z.lor_spec, bswap16_spec, swap16_pos_invol, pow2_testbit by lia. done.
Qed.

Lemma swap_clear w t i : 0 <= t < 16 -> 0 <= i < 16 ->
  Z.testbit (SWAP_BE16 (Z.land w (SWAP_BE16 (Z.lnot (Z.shiftl 1 t))))) i =
  Z.testbit (SWAP_BE16 w) i && negb (i =? t).
Proof.
  intros. unfold SWAP_BE16. pose proof (swap16_pos_range i ltac:(done)).
  rewrite !bswap16_spec, Z.land_spec, bswap16_spec, swap16_pos_invol, Z.lnot_spec by lia.
  rewrite Z.shiftl_1_l, pow2_testbit by lia. done.
Qed.

Lemma div_mod_16 m n : (n / 16 =? m / 16) && (15 - n mod 16 =? 15 - m mod 16) = (n =? m).
Proof.
  pose proof (Z.div_mod n 16 ltac:(lia)). pose proof (Z.div_mod m 16 ltac:(lia)).
  destruct (Z.eqb_spec (n / 16) (m / 16)), (Z.eqb_spec (15 - n mod 16) (15 - m mod 16)),
    (Z.eqb_spec n m); simpl; done || subst; lia.
Qed.

Section set_bit.
Context (r : buffer) (m : Z) (Hb : Forall byte r) (Heven : Z.even (Z.of_nat (length r)) = true).
Context (Hm : 0 <= m < 8 * Z.of_nat (length r)).

Lemma word_of_bit : 0 <= m / 16 /\ 2 * (m / 16) + 2 <= Z.of_nat (length r) /\ 0 <= 15 - m mod 16 < 16.
Proof using Heven Hm.
  apply Z.even_spec in Heven as [h Hh].
  pose proof (Z.div_mod m 16 ltac:(lia)). pose proof (Z.mod_pos_bound m 16 ltac:(lia)).
  pose proof (Z.div_pos m 16 ltac:(lia) ltac:(lia)). lia.
Qed.

Definition set_bit : buffer :=
  write_word r (m / 16) (Z.lor (word r (m / 16)) (SWAP_BE16 (2 ^ (15 - m mod 16)))).
Definition clear_bit : buffer :=
  write_word r (m / 16) (Z.land (word r (m / 16)) (SWAP_BE16 (Z.lnot (Z.shiftl 1 (15 - m mod 16))))).

Lemma set_word_range :
  0 <= Z.lor (word r (m / 16)) (SWAP_BE16 (2 ^ (15 - m mod 16))) < 65536.
Proof using Hb Heven Hm.
  destruct word_of_bit as (? & ? & ?). apply (lor_range 16); [by apply word_range|apply bswap16_range].
Qed.
Lemma clear_word_range :
  0 <= Z.land (word r (m / 16)) (SWAP_BE16 (Z.lnot (Z.shiftl 1 (15 - m mod 16)))) < 65536.
Proof using Hb Heven Hm.
  destruct word_of_bit as (? & ? & ?). apply (land_range 16); [by apply word_range|apply bswap16_range].
Qed.

Lemma used_set n : 0 <= n < 8 * Z.of_nat (length r) -> used set_bit n = used r n || (n =? m).
Proof using Hb Heven Hm.
  intros Hn. destruct word_of_bit as (? & ? & ?). unfold set_bit.
  rewrite used_write; [|done..|apply set_word_range|done|done].
  rewrite <- (div_mod_16 m n). pose proof (Z.mod_pos_bound n 16 ltac:(lia)).
  destruct (Z.eqb_spec (n / 16) (m / 16)) as [E|]; simpl; [|by rewrite orb_false_r].
  rewrite swap_set by lia. f_equal. rewrite <- E. symmetry. apply used_word; [done|lia|by rewrite E].
Qed.

Lemma used_clear n : 0 <= n < 8 * Z.of_nat (length r) -> used clear_bit n = used r n && negb (n =? m).
Proof using Hb Heven Hm.
  intros Hn. destruct word_of_bit as (? & ? & ?). unfold clear_bit.
  rewrite used_write; [|done..|apply clear_word_range|done|done].
  rewrite <- (div_mod_16 m n). pose proof (Z.mod_pos_bound n 16 ltac:(lia)).
  destruct (Z.eqb_spec (n / 16) (m / 16)) as [E|]; simpl; [|by rewrite andb_true_r].
  rewrite swap_clear by lia. f_equal. rewrite <- E. symmetry. apply used_word; [done|lia|by rewrite E].
Qed.
End set_bit.

(** ** The searches *)

Lemma land_pow2_0 w b : 0 <= b -> (Z.land w (2 ^ b) =? 0) = negb (Z.testbit w b).
Proof.
  intros. destruct (Z.eqb_spec (Z.land w (2 ^ b)) 0) as [E|E].
  - assert (Z.testbit (Z.land w (2 ^ b)) b = false) as H' by (by rewrite E, Z.bits_0).
    rewrite Z.land_spec, pow2_testbit, Z.eqb_refl, andb_true_r in H' by lia. by rewrite H'.
  - destruct (Z.testbit w b) eqn:Hw; [done|]. exfalso. apply E, Z.bits_inj'. intros i Hi.
    rewrite Z.land_spec, pow2_testbit, Z.bits_0 by lia.
    destruct (Z.eqb_spec i b) as [->|]; [by rewrite Hw|apply andb_false_r].
Qed.

Lemma find_bit_spec fuel fw b :
  0 < b < 16 -> b <= Z.of_nat fuel -> 0 <= fw < 65536 ->
  (forall i, b < i < 16 -> Z.testbit fw i = true) -> fw <> 0xFFFF ->
  exists b', find_bit fuel fw (2 ^ b) b = Ok (2 ^ b', b') /\ 0 <= b' <= b /\
    Z.testbit fw b' = false /\ forall i, b' < i < 16 -> Z.testbit fw i = true.
Proof.
  revert b. induction fuel as [|fuel IH]; intros b Hb Hf Hr Habove Hne; [lia|]. cbn [find_bit].
  rewrite land_pow2_0 by lia. destruct (Z.testbit fw b) eqn:Ht; cbn [negb].
  2: { exists b. split_and!; done || lia. }
  rewrite u16_small by lia. rewrite Z.shiftr_div_pow2 by lia.
  replace (2 ^ b / 2 ^ 1) with (2 ^ (b - 1)) by (rewrite Z.pow_sub_r by lia; done).
  assert (forall i, b - 1 < i < 16 -> Z.testbit fw i = true) as Habove'.
  { intros i Hi. destruct (decide (i = b)) as [->|]; [done|]. apply Habove. lia. }
  destruct (Z.eqb_spec (b - 1) 0) as [E|E].
  - exists 0. rewrite E. split_and!; [done|lia|lia| |intros i Hi; apply Habove'; lia].
    destruct (Z.testbit fw 0) eqn:H0; [|done]. destruct Hne.
    apply (bits_eq 16); [done|done|]. intros i Hi.
    change 0xFFFF with (Z.ones 16). rewrite Z.ones_spec_low by lia.
    destruct (decide (i = 0)) as [->|]; [done|]. apply Habove'. lia.
  - destruct (IH (b - 1)) as (b' & -> & ? & ? & ?); try done; try lia.
    exists b'. split_and!; done || lia.
Qed.

Lemma find_word_spec size b pos :
  (0 < size)%nat -> 0 <= pos -> pos + 2 * Z.of_nat size <= Z.of_nat (length b) ->
  exists j : nat, (j < size)%nat /\ find_word size b pos = Ok (pos + 2 * Z.of_nat j) /\
    (forall i : nat, (i < j)%nat -> le_decode (slice b (pos + 2 * Z.of_nat i) 2) = 0xFFFF) /\
    (le_decode (slice b (pos + 2 * Z.of_nat j) 2) = 0xFFFF -> j = (size - 1)%nat).
Proof.
  revert pos. induction size as [|size IH]; intros pos Hs Hp Hl; [lia|]. cbn [find_word].
  unfold load16. rewrite get_bytes_ok by lia. simpl.
  destruct (Z.eqb_spec (le_decode (slice b pos 2)) 0xFFFF) as [E|E]; simpl.
  - destruct (decide (size = 0%nat)) as [->|].
    + exists 0%nat. simpl. split_and!; [lia|f_equal; lia|lia|done].
    + destruct (IH (pos + 2)) as (j & Hj & Hrun & Hfull & Hlast); [lia..|].
      exists (S j). split_and!; [lia|rewrite Hrun; f_equal; lia| |].
      * intros [|i] Hi; [by rewrite Z.add_0_r|].
        rewrite <- (Hfull i) by lia. do 2 f_equal. lia.
      * replace (pos + 2 * Z.of_nat (S j)) with (pos + 2 + 2 * Z.of_nat j) by lia.
        intros HF. specialize (Hlast HF). lia.
  - exists 0%nat. rewrite Z.add_0_r. split_and!; [lia|done|lia|done].
Qed.

(** ** The map of a file *)

Section chain.
Context {W : Type} `{!FSAgent W} (contents : W -> Z -> buffer) (size : Z)
  `{!FSAgentLaws W size contents}.

(** Node [n] is the header node or a map node, and [r] is its map record. *)
Record map_node (s : fs W) (n : Z) (header : bool) (recs : list buffer) (r : buffer) : Prop := {
  mn_read : readable size contents s n;
  mn_bytes : Forall byte (contents (agent s) n);
  mn_holds : node_holds (nodeSize (btree s)) recs (contents (agent s) n);
  mn_rec : recs !! (if header then 2 else 0)%nat = Some r;
  mn_kind : kind (contents (agent s) n) = Ok (if header then kBTHeaderNode else kBTMapNode);
  mn_size : 2 <= Z.of_nat (length r);
  mn_even : Z.even (Z.of_nat (length r)) = true
}.

(** The chain of map nodes from node [n] on, with their map records. *)
Inductive map_chain (s : fs W) : Z -> bool -> list (Z * buffer) -> Prop :=
| chain_last n header recs r :
    map_node s n header recs r -> fLink (contents (agent s) n) = Ok 0 ->
    map_chain s n header [(n, r)]
| chain_next n header recs r m rest :
    map_node s n header recs r -> fLink (contents (agent s) n) = Ok m -> m <> 0 ->
    map_chain s m false rest -> map_chain s n header ((n, r) :: rest).

Definition map_bytes (chain : list (Z * buffer)) : buffer := concat (map snd chain).
Definition map_bits (chain : list (Z * buffer)) : Z := 8 * Z.of_nat (length (map_bytes chain)).

Lemma map_node_same s s' n header recs r :
  same_fs contents s s' -> map_node s n header recs r -> map_node s' n header recs r.
Proof using Type.
  intros Hs []. pose proof Hs as (Ht & _ & _ & HC). destruct (same_tree_fields _ _ Ht) as (E & _).
  split; rewrite ?HC, ?E; try done. by apply (readable_same _ _ s).
Qed.

Lemma map_chain_same s s' n header chain :
  same_fs contents s s' -> map_chain s n header chain -> map_chain s' n header chain.
Proof using Type.
  intros Hs Hc. pose proof Hs as (_ & _ & _ & HC). induction Hc; [eapply chain_last|eapply chain_next];
    eauto using map_node_same; by rewrite HC.
Qed.

(** What [GetMapNode] starts from when it is to get node [n]. *)
Definition before_node (s : fs W) (node : NodeRec) (n : Z) (header : bool) : Prop :=
  if header then nodeBuffer node = None /\ n = 0
  else exists m, nodeBuffer node = Some (contents (agent s) m) /\ blockHeader node = Some m /\
         fLink (contents (agent s) m) = Ok n /\ n <> 0.

Definition holds_node (s : fs W) (node : NodeRec) (n : Z) : Prop :=
  nodeBuffer node = Some (contents (agent s) n) /\ blockHeader node = Some n.

Lemma map_record_spec s node n header recs r :
  holds_node s node n -> map_node s n header recs r ->
  map_record s node (if header then 2 else 0) =
    Ok (noErr, node, Some (rec_offset recs (if header then 2 else 0)%nat), Z.of_nat (length r), s).
Proof using Type.
  intros [Hb _] Hm. unfold map_record. rewrite Hb. cbn [of_option mbind outcome_bind].
  pose proof (mn_holds _ _ _ _ _ Hm) as Hh. pose proof (mn_rec _ _ _ _ _ Hm) as Hr.
  set (i := (if header then 2 else 0)%nat) in *.
  replace (if header then 2 else 0) with (Z.of_nat i) by (by destruct header).
  clearbody i. pose proof (rec_offset_ge recs i).
  pose proof (lookup_lt_Some _ _ _ Hr) as Hi. pose proof (rec_offset_S _ _ _ Hr) as HS.
  destruct (node_holds_bounds _ _ _ (S i) Hh ltac:(lia)) as (? & ? & ?).
  unfold GetRecordAddress. rewrite (GetRecordOffset_holds _ _ _ Hh) by lia. cbn [mbind outcome_bind].
  unfold GetRecordSize, kOffsetSize. rewrite Z.shiftl_mul_pow2 by lia.
  replace (nodeSize (btree s) - Z.of_nat i * 2 ^ 1 - 2 - 2) with (entry_pos (nodeSize (btree s)) (S i))
    by (unfold entry_pos; lia).
  replace (nodeSize (btree s) - Z.of_nat i * 2 ^ 1 - 2) with (entry_pos (nodeSize (btree s)) i)
    by (unfold entry_pos; lia).
  rewrite !(load_offset _ _ _ Hh) by lia. cbn [mbind outcome_bind]. rewrite u16_small by lia.
  do 3 f_equal. lia.
Qed.

Lemma GetMapNode_spec s node n header recs r :
  before_node s node n header -> map_node s n header recs r ->
  exists node' s', GetMapNode s node =
      Ok (noErr, node', Some (rec_offset recs (if header then 2 else 0)%nat), Z.of_nat (length r), s') /\
    holds_node s' node' n /\ same_fs contents s s'.
Proof using FSAgentLaws0.
  intros Hbef Hm. unfold GetMapNode. destruct header; simpl in Hbef.
  - destruct Hbef as [-> ->]. change kHeaderNodeNum with 0.
    destruct (GetNode_readable size contents s 0 node (mn_read _ _ _ _ _ Hm))
      as (r' & s' & -> & Hb & Hh & Hs). simpl.
    pose proof Hs as (_ & _ & _ & HC). rewrite Hb. simpl.
    rewrite (mn_kind _ _ _ _ _ Hm). simpl.
    assert (holds_node s' r' 0) as Hho by (split; [by rewrite HC|done]).
    rewrite (map_record_spec s' r' 0 true recs r Hho) by (by eapply map_node_same). eauto.
  - destruct Hbef as (m & Hbm & Hm0 & Hfl & Hn). rewrite Hbm, Hfl. simpl. case_ztest; [done|].
    destruct (ReleaseNode_unchanged size contents s m node Hbm Hm0) as (r1 & s1 & -> & Hb1 & Hs1).
    simpl. apply (map_node_same _ s1) in Hm; [|done].
    destruct (GetNode_readable size contents s1 n r1 (mn_read _ _ _ _ _ Hm))
      as (r' & s' & -> & Hb & Hh & Hs). simpl.
    rewrite Hb. simpl. rewrite (mn_kind _ _ _ _ _ Hm). simpl.
    assert (same_fs contents s1 (with_tree s' (count_map (btree s')))) as Hs2.
    { etrans; [done|]. split_and!; [apply same_tree_counts|done..]. }
    set (s2 := with_tree s' (count_map (btree s'))) in *.
    assert (holds_node s2 r' n) as Hho.
    { split; [|done]. rewrite Hb. f_equal. symmetry. apply Hs2. }
    rewrite (map_record_spec s2 r' n false recs r Hho) by (by eapply map_node_same).
    do 2 eexists. split_and!; [done|done|]. by etrans.
Qed.

Lemma GetMapNode_end s node m :
  holds_node s node m -> fLink (contents (agent s) m) = Ok 0 ->
  exists node' s', GetMapNode s node = Ok (fsBTNoMoreMapNodesErr, node', None, 0, s') /\
    nodeBuffer node' = None /\ same_fs contents s s'.
Proof using FSAgentLaws0.
  intros [Hb Hh] Hfl. unfold GetMapNode. rewrite Hb, Hfl. simpl. unfold map_error.
  destruct (ReleaseNode_unchanged size contents s m node Hb Hh) as (r1 & s1 & -> & Hb1 & Hs1). eauto.
Qed.

(** *** Searching the map *)

Lemma slice_in_record s n header recs r p k :
  map_node s n header recs r -> 0 <= p -> 0 <= k -> p + k <= Z.of_nat (length r) ->
  slice (contents (agent s) n) (rec_offset recs (if header then 2 else 0)%nat + p) k = slice r p k.
Proof using Type.
  intros Hm ? ? ?. pose proof (rec_offset_ge recs (if header then 2 else 0)%nat).
  rewrite <- (slice_record _ _ _ (mn_holds _ _ _ _ _ Hm) _ _ (mn_rec _ _ _ _ _ Hm)).
  rewrite slice_slice by lia. done.
Qed.

Lemma map_node_inside s n header recs r :
  map_node s n header recs r ->
  14 <= rec_offset recs (if header then 2 else 0)%nat /\
  rec_offset recs (if header then 2 else 0)%nat + Z.of_nat (length r) <=
    Z.of_nat (length (contents (agent s) n)) /\
  Z.of_nat (length (contents (agent s) n)) <= 32768 /\ Forall byte r.
Proof using Type.
  intros Hm. pose proof (mn_holds _ _ _ _ _ Hm) as Hh. pose proof (mn_rec _ _ _ _ _ Hm) as Hr.
  pose proof (slice_record _ _ _ Hh _ _ Hr) as Hs.
  set (i := (if header then 2 else 0)%nat) in *. clearbody i.
  pose proof (lookup_lt_Some _ _ _ Hr). pose proof (rec_offset_S _ _ _ Hr).
  destruct (node_holds_bounds _ _ _ (S i) Hh ltac:(lia)) as (? & ? & ?).
  split_and!; [apply rec_offset_ge|lia|lia|]. rewrite <- Hs. by apply slice_bytes, Hm.
Qed.

Lemma used_full r n : Forall byte r -> 0 <= n -> 2 * (n / 16) + 2 <= Z.of_nat (length r) ->
  word r (n / 16) = 0xFFFF -> used r n = true.
Proof using Type.
  intros Hb Hn Hl Hw. rewrite used_word, Hw by done.
  change (SWAP_BE16 0xFFFF) with (Z.ones 16). apply Z.ones_spec_low.
  pose proof (Z.mod_pos_bound n 16 ltac:(lia)). lia.
Qed.

Lemma used_app a b n : 0 <= n ->
  used (a ++ b) n = if n <? 8 * Z.of_nat (length a) then used a n else used b (n - 8 * Z.of_nat (length a)).
Proof using Type.
  intros Hn. unfold used. pose proof (Z.div_mod n 8 ltac:(lia)). pose proof (Z.mod_pos_bound n 8 ltac:(lia)).
  pose proof (Z.div_pos n 8 ltac:(lia) ltac:(lia)).
  destruct (Z.ltb_spec n (8 * Z.of_nat (length a))).
  - by rewrite app_nth1 by lia.
  - rewrite app_nth2 by lia.
    replace (n - 8 * Z.of_nat (length a)) with (n + - Z.of_nat (length a) * 8) by lia.
    rewrite Z.div_add, Z.mod_add by lia. do 2 f_equal. lia.
Qed.

(** One map record: the first word that is not full, if there is one. *)
Lemma find_word_record s n header recs r :
  map_node s n header recs r ->
  exists j, 0 <= j /\ 2 * j + 2 <= Z.of_nat (length r) /\
    find_word (Z.to_nat (Z.shiftr (Z.of_nat (length r)) 1)) (contents (agent s) n)
      (rec_offset recs (if header then 2 else 0)%nat) =
      Ok (rec_offset recs (if header then 2 else 0)%nat + 2 * j) /\
    load16 (contents (agent s) n) (rec_offset recs (if header then 2 else 0)%nat + 2 * j) = Ok (word r j) /\
    (forall k, 0 <= k < 16 * j -> used r k = true) /\
    (word r j = 0xFFFF -> forall k, 0 <= k < 8 * Z.of_nat (length r) -> used r k = true).
Proof using Type.
  intros Hm. destruct (map_node_inside _ _ _ _ _ Hm) as (Ho & Hin & Hmax & Hb).
  pose proof (mn_even _ _ _ _ _ Hm) as [h Hh]%Z.even_spec. pose proof (mn_size _ _ _ _ _ Hm) as H2.
  rewrite Z.shiftr_div_pow2, Hh by lia. change (2 ^ 1) with 2. rewrite Z.mul_comm, Z.div_mul by lia.
  pose proof (fun p => slice_in_record s n header recs r p 2 Hm) as Hsl.
  set (o := rec_offset recs _) in *. clearbody o.
  destruct (find_word_spec (Z.to_nat h) (contents (agent s) n) o) as (j & Hj & Hrun & Hfull & Hlast); [lia..|].
  assert (forall i : nat, (i < Z.to_nat h)%nat ->
    le_decode (slice (contents (agent s) n) (o + 2 * Z.of_nat i) 2) = word r (Z.of_nat i)) as Hw.
  { intros i Hi. rewrite Hsl by lia. done. }
  assert (forall k, 0 <= k < 16 * Z.of_nat j -> used r k = true) as Hused.
  { intros k Hk. pose proof (Z.div_pos k 16 ltac:(lia) ltac:(lia)).
    assert (k / 16 < Z.of_nat j) by (apply Z.div_lt_upper_bound; lia).
    apply used_full; [done|lia|lia|]. specialize (Hfull (Z.to_nat (k / 16)) ltac:(lia)).
    rewrite Hw, Z2Nat.id in Hfull by lia. done. }
  exists (Z.of_nat j). split_and!; [lia|lia|done| |done|].
  - unfold load16. rewrite get_bytes_ok by lia. simpl. by rewrite Hw.
  - intros HF. rewrite <- Hw in HF by lia. specialize (Hlast HF). intros k Hk.
    destruct (decide (k < 16 * Z.of_nat j)); [apply Hused; lia|].
    assert (k / 16 = Z.of_nat j) as E by (symmetry; apply (Z.div_unique k 16 (Z.of_nat j) (k - 16 * Z.of_nat j)); lia).
    apply used_full; [done|lia|lia|]. rewrite E, <- Hw by lia. done.
Qed.

Definition search_result (s : fs W) (chain : list (Z * buffer)) (num : Z) (res : map_search) : Prop :=
  match res with
  | NoMap err node' s' =>
      err = fsBTNoMoreMapNodesErr /\ nodeBuffer node' = None /\ same_fs contents s s' /\
      forall k, 0 <= k < map_bits chain -> used (map_bytes chain) k = true
  | InMap node' mapPtr pos num' s' =>
      same_fs contents s s' /\
      exists pre m header recs r post j, chain = pre ++ (m, r) :: post /\
        num' = num + map_bits pre /\ holds_node s' node' m /\ map_node s m header recs r /\
        mapPtr = rec_offset recs (if header then 2 else 0)%nat /\ pos = mapPtr + 2 * j /\
        0 <= j /\ 2 * j + 2 <= Z.of_nat (length r) /\ word r j <> 0xFFFF /\
        forall k, 0 <= k < map_bits pre + 16 * j -> used (map_bytes chain) k = true
  end.

Lemma map_bits_cons n r chain : map_bits ((n, r) :: chain) = 8 * Z.of_nat (length r) + map_bits chain.
Proof using Type. unfold map_bits, map_bytes. simpl. rewrite length_app. lia. Qed.
Lemma map_bits_nonneg chain : 0 <= map_bits chain.
Proof using Type. unfold map_bits. lia. Qed.
Lemma map_bits_app a b : map_bits (a ++ b) = map_bits a + map_bits b.
Proof using Type. unfold map_bits, map_bytes. rewrite map_app, concat_app, length_app. lia. Qed.

(** The search goes on behind a full record. *)
Lemma search_result_cons s s1 n r chain num res :
  same_fs contents s s1 -> (forall k, 0 <= k < 8 * Z.of_nat (length r) -> used r k = true) ->
  search_result s1 chain (num + 8 * Z.of_nat (length r)) res -> search_result s ((n, r) :: chain) num res.
Proof using Type.
  intros Hs Hfull.
  assert (forall k b, 0 <= k < 8 * Z.of_nat (length r) + b ->
    (forall k, 0 <= k < b -> used (map_bytes chain) k = true) -> used (map_bytes ((n, r) :: chain)) k = true) as Hu.
  { intros k b Hk Hb. unfold map_bytes. simpl. rewrite used_app by lia. case_ztest; [apply Hfull; lia|].
    apply Hb. lia. }
  destruct res as [err node' s'|node' mapPtr pos num' s']; simpl.
  - intros (-> & Hb & Hs' & Hk). split_and!; [done|done|by etrans|].
    rewrite map_bits_cons. intros k Hk'. by apply (Hu k (map_bits chain)).
  - intros (Hs' & pre & m & header & recs & r' & post & j & -> & -> & Hho & Hm & -> & -> & ? & ? & ? & Hk).
    split; [by etrans|]. exists ((n, r) :: pre), m, header, recs, r', post, j.
    rewrite map_bits_cons. split_and!; try done; try lia.
    + by apply (map_node_same s1); [symmetry|].
    + intros k Hk'. apply (Hu k (map_bits pre + 16 * j)); [lia|]. done.
Qed.

Lemma search_map_spec chain : forall fuel s node n header num,
  map_chain s n header chain -> before_node s node n header -> (length chain < fuel)%nat ->
  0 <= num -> num + map_bits chain < 2 ^ 32 ->
  exists res, search_map fuel s node num = Ok res /\ search_result s chain num res.
Proof using FSAgentLaws0.
  induction chain as [|[n' r] rest IH]; intros fuel s node n header num Hc Hbef Hf Hnum Hbits;
    [inversion Hc|]. rewrite map_bits_cons in Hbits. pose proof (map_bits_nonneg rest).
  destruct fuel as [|fuel]; [simpl in Hf; lia|]. cbn [search_map].
  assert (n' = n /\ exists recs, map_node s n header recs r) as (-> & recs & Hm) by (inversion Hc; eauto).
  destruct (GetMapNode_spec s node n header recs r Hbef Hm) as (node1 & s1 & -> & Hho & Hs1).
  pose proof Hs1 as (_ & _ & _ & HC).
  simpl. destruct Hho as [Hb1 Hh1]. rewrite Hb1. simpl.
  pose proof (map_node_same _ _ _ _ _ _ Hs1 Hm) as Hm1.
  destruct (find_word_record s1 n header recs r Hm1) as (j & Hj0 & Hj & -> & Hload & Hpre & Hall).
  simpl. rewrite Hload. simpl. destruct (Z.eqb_spec (word r j) 0xFFFF) as [E|E]; simpl.
  2: { eexists. split; [done|]. simpl. split; [done|].
       exists [], n, header, recs, r, rest, j. split_and!; try done; [change (map_bits []) with 0; lia|].
       intros k Hk. change (map_bits []) with 0 in Hk. unfold map_bytes. simpl.
       rewrite used_app by lia. case_ztest; [|lia]. apply Hpre. lia. }
  specialize (Hall E). rewrite Z.shiftl_mul_pow2, u32_small by lia.
  replace (num + Z.of_nat (length r) * 2 ^ 3) with (num + 8 * Z.of_nat (length r)) by lia.
  inversion Hc as [? ? ? ? Hmn Hfl|? ? ? ? m ? Hmn Hfl Hne Hrest]; subst.
  - destruct fuel as [|fuel]; [simpl in Hf; lia|]. cbn [search_map].
    destruct (GetMapNode_end s1 node1 n) as (node2 & s2 & -> & Hb2 & Hs2); [done|by rewrite HC|].
    simpl. eexists. split; [done|]. apply (search_result_cons s s1); [done|done|].
    split_and!; [done|done|done|]. change (map_bits []) with 0. lia.
  - destruct (IH fuel s1 node1 m false (num + 8 * Z.of_nat (length r))) as (res & Hrun & Hres);
      [by eapply map_chain_same| |simpl in Hf; lia|lia|lia|].
    { exists n. by rewrite HC in *. }
    exists res. split; [done|]. by apply (search_result_cons s s1).
Qed.

(** *** Changing the map *)

(** [CheckNode] does not look into the records of a header or map node. *)
Lemma check_after_write s n header recs r q v :
  map_node s n header recs r -> 64 <= size -> size = nodeSize (btree s) ->
  Z.even size = true -> fcbEOF (agent s) < 2 ^ 32 * size ->
  0 <= q -> q + 2 <= Z.of_nat (length r) ->
  let b := splice (contents (agent s) n) (rec_offset recs (if header then 2 else 0)%nat + q) (le_encode 2 v) in
  CheckNode (btree s) (fcbEOF (agent s)) b = Ok noErr.
Proof using Type.
  clear FSAgentLaws0. intros Hm H64 Hsz Heven HEOF Hq Hq2 b.
  pose proof (mn_holds _ _ _ _ _ Hm) as Hh. pose proof (mn_rec _ _ _ _ _ Hm) as Hr.
  pose proof (mn_kind _ _ _ _ _ Hm) as Hk.
  destruct (mn_read _ _ _ _ _ Hm) as (Hn & HE & Hcheck).
  destruct (node_holds_write _ _ _ _ _ q (le_encode 2 v) Hh Hr) as [Hh' Hout];
    [lia|rewrite le_encode_length; lia|]. fold b in Hh', Hout.
  rewrite Hsz in *. assert (nodeSize (btree s) <= fcbEOF (agent s)) by nia.
  pose proof (mn_bytes _ _ _ _ _ Hm) as Hb.
  assert (Forall byte b) as Hb' by (apply splice_bytes; [done|apply le_encode_bytes]).
  pose proof (nh_max _ _ _ Hh) as Hmax.
  destruct (CheckNode_spec (btree s) _ (nh_size _ _ _ Hh) Hmax Heven Hb (fcbEOF (agent s)))
    as (e1 & Hrun1 & _ & Hv1); [lia|lia|].
  destruct (CheckNode_spec (btree s) _ (nh_size _ _ _ Hh') Hmax Heven Hb' (fcbEOF (agent s)))
    as (e2 & Hrun2 & _ & Hv2); [lia|lia|].
  rewrite Hrun2. f_equal. apply Hv2. rewrite Hcheck in Hrun1. injection Hrun1 as <-.
  pose proof (proj1 Hv1 eq_refl) as Hvalid. clear Hv1 Hv2 Hrun2.
  set (c := contents (agent s) n) in *.
  assert (forall j, (j <= length recs)%nat -> entry (nodeSize (btree s)) b j = entry (nodeSize (btree s)) c j) as He.
  { intros j Hj. unfold entry. rewrite Hout; [done| | |]; unfold entry_pos;
      pose proof (nh_fits _ _ _ Hh); pose proof (rec_offset_ge recs (length recs)); lia. }
  pose proof (nh_fits _ _ _ Hh). pose proof (rec_offset_ge recs (length recs)).
  assert (le_decode (slice c 10 2) = Z.of_nat (length recs)) as Hcnt.
  { rewrite (nh_count _ _ _ Hh), le_decode16 by lia. done. }
  assert (swrap 8 (le_decode (slice c 8 1)) <> kBTLeafNode) as Hnl.
  { unfold kind, load8 in Hk. rewrite get_bytes_ok in Hk by (pose proof (nh_size _ _ _ Hh); lia).
    simpl in Hk. injection Hk as ->. by destruct header. }
  unfold valid_node, checked in *. rewrite !Hout by lia. rewrite Hcnt in *.
  destruct Hvalid as (? & ? & ? & ? & ? & ? & (Hl1 & Hl2 & _) & Hj).
  split_and!; try done; try lia; rewrite ?He by lia; try done.
  intros j Hjn. rewrite !He by lia. destruct (Hj j Hjn) as (? & ? & _). split_and!; done.
Qed.

(** Sizes for which the offsets and node numbers of the code do not overflow. *)
Definition geometry (s : fs W) : Prop :=
  64 <= size /\ size = nodeSize (btree s) /\ Z.even size = true /\ fcbEOF (agent s) < 2 ^ 32 * size.

Lemma geometry_same s s' : same_fs contents s s' -> geometry s -> geometry s'.
Proof using Type.
  intros (Ht & _ & HE & _) (? & ? & ? & ?). destruct (same_tree_fields _ _ Ht) as (E & _).
  unfold geometry. rewrite HE, E. done.
Qed.

Lemma updated_after s s1 s' n b : same_fs contents s s1 -> updated contents s1 s' n b -> updated contents s s' n b.
Proof using Type.
  intros (Ht & ? & ? & HC) (Ht' & ? & ? & ? & HC'). split_and!; [by etrans|congruence|congruence|done|].
  intros m Hm. by rewrite HC', HC.
Qed.

Lemma map_node_other s s' m b n header recs r :
  updated contents s s' m b -> n <> m -> map_node s n header recs r -> map_node s' n header recs r.
Proof using Type.
  intros (Ht & _ & HE & _ & HC) Hne [(? & ? & Hc) ? ? ? ? ? ?].
  destruct (same_tree_fields _ _ Ht) as (E1 & E2 & _).
  split; rewrite ?HC, ?E1 by done; try done. unfold readable. rewrite HE, E2, HC by done.
  by rewrite (CheckNode_same _ _ _ _ Ht).
Qed.

Section write_map.
Context (s s' : fs W) (m : Z) (header : bool) (recs : list buffer) (r : buffer) (j v : Z).
Context (Hg : geometry s) (Hm : map_node s m header recs r).
Context (Hj : 0 <= j) (Hjr : 2 * j + 2 <= Z.of_nat (length r)).
Let i := (if header then 2 else 0)%nat.
Let b := splice (contents (agent s) m) (rec_offset recs i + 2 * j) (le_encode 2 v).

Lemma check_written : CheckNode (btree s) (fcbEOF (agent s)) b = Ok noErr.
Proof using Hg Hm Hj Hjr. destruct Hg as (? & ? & ? & ?). apply (check_after_write s m header recs r); done || lia. Qed.

Lemma fLink_written : fLink b = fLink (contents (agent s) m).
Proof using Hm Hj Hjr.
  destruct (map_node_inside _ _ _ _ _ Hm) as (Ho & Hin & _ & _). fold i in Ho, Hin.
  pose proof (rec_offset_ge recs i).
  assert (length b = length (contents (agent s) m)) as Hl
    by (apply splice_length; rewrite ?le_encode_length; lia).
  unfold fLink, load32. rewrite !get_bytes_ok by lia. simpl. do 2 f_equal.
  apply slice_splice_disjoint; rewrite ?le_encode_length; lia.
Qed.

Lemma map_node_written : updated contents s s' m b ->
  map_node s' m header (<[i := write_word r j v]> recs) (write_word r j v).
Proof using Hg Hm Hj Hjr.
  intros (Ht & _ & HE & Hb & HC). destruct (same_tree_fields _ _ Ht) as (E1 & E2 & _).
  pose proof check_written as Hcheck. destruct Hm as [(? & ? & _) Hbytes Hh Hr Hk Hs2 Hev]. fold i in Hr.
  destruct (node_holds_write _ _ _ _ _ (2 * j) (le_encode 2 v) Hh Hr) as [Hh' Hout];
    [lia|rewrite le_encode_length; lia|].
  destruct (map_node_inside _ _ _ _ _ Hm) as (Ho & Hin & _ & _). fold i in Ho, Hin.
  assert (length b = length (contents (agent s) m)) as Hl
    by (apply splice_length; rewrite ?le_encode_length; lia).
  pose proof (lookup_lt_Some _ _ _ Hr).
  split; rewrite ?Hb, ?E1; fold i.
  - unfold readable. rewrite HE, E2, Hb, (CheckNode_same _ _ _ _ Ht). done.
  - apply splice_bytes; [done|apply le_encode_bytes].
  - exact Hh'.
  - by apply list_lookup_insert_eq.
  - rewrite <- Hk. unfold kind, load8. rewrite !get_bytes_ok by lia. simpl. do 3 f_equal.
    apply Hout; lia.
  - by rewrite write_word_length.
  - by rewrite write_word_length.
Qed.

Lemma map_chain_written pre post n0 h0 :
  updated contents s s' m b ->
  map_chain s n0 h0 (pre ++ (m, r) :: post) -> NoDup (map fst (pre ++ (m, r) :: post)) ->
  map_chain s' n0 h0 (pre ++ (m, write_word r j v) :: post).
Proof using Hg Hm Hj Hjr.
  clear FSAgentLaws0. intros Hupd. pose proof Hupd as (_ & _ & _ & Hb & HC).
  assert (forall n h chain, ~ m ∈ map fst chain -> map_chain s n h chain -> map_chain s' n h chain) as Hrest.
  { intros n h chain Hni Hc. induction Hc as [n h rs r0 Hn Hfl|n h rs r0 k rest Hn Hfl Hk Hc IH];
      simpl in Hni; apply not_elem_of_cons in Hni as [Hni1 Hni2];
      [eapply chain_last|eapply chain_next; [| | |by apply IH]]; try (by eapply map_node_other); rewrite ?HC; done. }
  revert n0 h0. induction pre as [|[n r0] pre IH]; intros n0 h0 Hc Hnd; simpl in *;
    apply NoDup_cons in Hnd as [Hni Hnd].
  - assert (h0 = header) as ->.
    { pose proof (mn_kind _ _ _ _ _ Hm) as K1.
      inversion Hc as [? ? ? ? Hn|? ? ? ? ? ? Hn]; subst; pose proof (mn_kind _ _ _ _ _ Hn) as K2;
        rewrite K1 in K2; destruct header, h0; done. }
    inversion Hc; subst; [eapply chain_last|eapply chain_next];
      try (apply map_node_written; done); rewrite ?Hb, ?fLink_written; try done. by apply Hrest.
  - assert (n <> m) as Hne by (intros ->; apply Hni; rewrite map_app; simpl; set_solver).
    inversion Hc as [? ? ? ? Hn Hfl Heq|? ? rs ? k ? Hn Hfl Hk Hc' Heq]; subst.
    + by destruct pre.
    + eapply chain_next; [by eapply map_node_other|by rewrite HC|done|]. by apply IH.
Qed.
End write_map.

(** The map as the set of nodes in use. *)
Lemma used_map_bytes pre m r post n :
  map_bits pre <= n < map_bits pre + 8 * Z.of_nat (length r) ->
  used (map_bytes (pre ++ (m, r) :: post)) n = used r (n - map_bits pre).
Proof using Type.
  intros Hn. pose proof (map_bits_nonneg pre). unfold map_bits in Hn. unfold map_bytes in *.
  rewrite map_app, concat_app. simpl.
  rewrite used_app by lia. case_ztest; [lia|]. rewrite used_app by lia. case_ztest; [done|lia].
Qed.

Lemma used_map_bytes_other pre m r r' post n :
  0 <= n -> length r' = length r ->
  ~ map_bits pre <= n < map_bits pre + 8 * Z.of_nat (length r) ->
  used (map_bytes (pre ++ (m, r') :: post)) n = used (map_bytes (pre ++ (m, r) :: post)) n.
Proof using Type.
  intros H0 Hl Hn. unfold map_bits in Hn. unfold map_bytes in *. rewrite !map_app, !concat_app. simpl.
  rewrite !(used_app (concat (map snd pre))) by lia. case_ztest; [done|].
  rewrite !used_app by lia. rewrite Hl. case_ztest; [lia|done].
Qed.

(** The state after bit [n] of the map has been changed to [v], and the record
    of free nodes with it. *)
Definition map_changed (s s' : fs W) (chain : list (Z * buffer)) (n : Z) (v : bool) : Prop :=
  (exists chain', map_chain s' 0 true chain' /\ map fst chain' = map fst chain /\
     map_bits chain' = map_bits chain /\
     forall k, 0 <= k < map_bits chain ->
       used (map_bytes chain') k = if k =? n then v else used (map_bytes chain) k) /\
  (forall k, k ∉ map fst chain -> contents (agent s') k = contents (agent s) k) /\
  totalNodes (btree s') = totalNodes (btree s) /\ nodeSize (btree s') = nodeSize (btree s) /\
  fcbEOF (agent s') = fcbEOF (agent s) /\ same_shape (btree s) (btree s').

(** A chain of distinct nodes is no longer than the file. *)
Lemma map_chain_readable s n header chain :
  map_chain s n header chain -> Forall (fun k => 0 <= k < totalNodes (btree s)) (map fst chain).
Proof using Type.
  induction 1 as [n h recs r Hm|n h recs r m rest Hm]; simpl; repeat constructor; try done; apply Hm.
Qed.

Lemma distinct_below (l : list Z) t :
  NoDup l -> Forall (fun k => 0 <= k < t) l -> (length l <= Z.to_nat t)%nat.
Proof using Type.
  intros Hnd Hl. rewrite <- (length_map Z.to_nat), <- (length_seq (Z.to_nat t) 0).
  apply submseteq_length, NoDup_submseteq.
  - apply NoDup_fmap_2_strong; [|done]. rewrite Forall_forall in Hl.
    intros x y Hx Hy. pose proof (Hl x Hx). pose proof (Hl y Hy). simpl in *. lia.
  - intros k Hk. apply list_elem_of_fmap in Hk as (x & -> & Hx). rewrite Forall_forall in Hl.
    specialize (Hl x Hx). apply elem_of_seq. lia.
Qed.

(** The store of a changed word and the release of its node. *)
Lemma write_bit s s1 chain pre m header recs r post node j v :
  geometry s -> map_chain s 0 true chain -> NoDup (map fst chain) -> chain = pre ++ (m, r) :: post ->
  same_fs contents s s1 -> holds_node s1 node m -> map_node s m header recs r ->
  0 <= j -> 2 * j + 2 <= Z.of_nat (length r) ->
  let pos := rec_offset recs (if header then 2 else 0)%nat + 2 * j in
  exists b' node' s', store16 (contents (agent s) m) pos v = Ok b' /\
    UpdateNode s1 (set_buffer node b') kLockTransaction = Ok (noErr, node', s') /\
    nodeBuffer node' = None /\ same_tree (btree s) (btree s') /\
    map_chain s' 0 true (pre ++ (m, write_word r j v) :: post) /\
    (forall k, k <> m -> contents (agent s') k = contents (agent s) k) /\
    fcbEOF (agent s') = fcbEOF (agent s).
Proof using FSAgentLaws0.
  intros Hg Hc Hnd -> Hs1 [Hb Hh] Hm Hj Hjr pos.
  destruct (map_node_inside _ _ _ _ _ Hm) as (Ho & Hin & _ & _).
  eexists. 
  destruct (UpdateNode_stores size contents s1 m
    (set_buffer node (splice (contents (agent s) m) pos (le_encode 2 v)))
    (splice (contents (agent s) m) pos (le_encode 2 v)) kLockTransaction) as (node' & s' & Hrun & Hn' & Hupd).
  { apply (mn_read _ _ _ _ _ Hm). } { done. } { done. } { done. }
  { exists noErr. pose proof Hs1 as (Ht & _ & HE & _). rewrite HE, (CheckNode_same _ _ _ _ Ht).
    by apply (check_written s m header recs r). }
  exists node', s'. apply (updated_after s) in Hupd; [|done].
  split_and!; [apply store16_ok; unfold pos; lia|done|done|apply Hupd| |apply Hupd|apply Hupd].
  by apply (map_chain_written s s' m header recs r j v).
Qed.

Lemma map_node_free s x n header recs r :
  map_node s n header recs r -> map_node (with_tree s (set_freeNodes (btree s) x)) n header recs r.
Proof using Type. intros []. split; done. Qed.

Lemma map_chain_free s x n header chain :
  map_chain s n header chain -> map_chain (with_tree s (set_freeNodes (btree s) x)) n header chain.
Proof using Type. induction 1; [eapply chain_last|eapply chain_next]; eauto using map_node_free. Qed.

Lemma map_changed_intro s s' pre m r r' post n v x :
  map_chain s' 0 true (pre ++ (m, r') :: post) -> length r' = length r ->
  map_bits pre <= n < map_bits pre + 8 * Z.of_nat (length r) ->
  (forall k, 0 <= k < 8 * Z.of_nat (length r) ->
     used r' k = if k =? n - map_bits pre then v else used r k) ->
  (forall k, k <> m -> contents (agent s') k = contents (agent s) k) ->
  same_tree (btree s) (btree s') -> fcbEOF (agent s') = fcbEOF (agent s) ->
  map_changed s (with_tree s' (set_freeNodes (btree s') x)) (pre ++ (m, r) :: post) n v.
Proof using Type.
  intros Hc Hl Hn Hu HC Ht HE. destruct (same_tree_fields _ _ Ht) as (? & ? & _).
  split; [|split; [|split_and!; try done; apply (same_tree_shape _ _ Ht)]].
  - eexists. split; [by apply map_chain_free|]. rewrite !map_app. split_and!; [done| |].
    { rewrite !map_bits_app, !map_bits_cons, Hl. done. }
    intros k Hk. destruct (decide (map_bits pre <= k < map_bits pre + 8 * Z.of_nat (length r))).
    + rewrite !used_map_bytes by (rewrite ?Hl; lia). rewrite Hu by lia.
      replace (k - map_bits pre =? n - map_bits pre) with (k =? n); [done|].
      destruct (Z.eqb_spec k n), (Z.eqb_spec (k - map_bits pre) (n - map_bits pre)); done || lia.
    + rewrite (used_map_bytes_other _ _ r) by (done || lia). case_ztest; [lia|done].
  - intros k Hk. apply HC. intros ->. apply Hk. rewrite map_app. apply elem_of_app. right. constructor.
Qed.

Lemma allocate_error_spec s node err : nodeBuffer node = None -> allocate_error s node err = (err, 0, s).
Proof using Type. intros H. unfold allocate_error, ReleaseNode, release_with. by rewrite H. Qed.

Definition allocated (s : fs W) (chain : list (Z * buffer)) (res : Z * Z * fs W) : Prop :=
  let '(err, n, s') := res in
  err = noErr /\ 0 <= n < totalNodes (btree s) /\ n < map_bits chain /\
    used (map_bytes chain) n = false /\ (forall k, 0 <= k < n -> used (map_bytes chain) k = true) /\
    map_changed s s' chain n true /\
    freeNodes (btree s') = u32 (freeNodes (btree s) - 1) /\
    flags (btree s') = Z.lor (flags (btree s)) kBTHeaderDirty \/
  (err = fsBTFullErr \/ err = fsBTNoMoreMapNodesErr) /\ n = 0 /\ same_fs contents s s' /\
    forall k, 0 <= k < totalNodes (btree s) -> k < map_bits chain -> used (map_bytes chain) k = true.

(** The free bit of the word that the search found. *)
Lemma find_bit_record r j :
  Forall byte r -> 0 <= j -> 2 * j + 2 <= Z.of_nat (length r) -> word r j <> 0xFFFF ->
  exists t, 0 <= t < 16 /\
    find_bit 16 (SWAP_BE16 (word r j)) 0x8000 15 = Ok (2 ^ (15 - t), 15 - t) /\
    used r (16 * j + t) = false /\ forall k, 16 * j <= k < 16 * j + t -> used r k = true.
Proof using Type.
  intros Hb Hj Hl Hw. pose proof (word_range r j Hb Hj Hl) as Hr.
  destruct (find_bit_spec 16 (SWAP_BE16 (word r j)) 15) as (b & Hrun & Hb' & Hfree & Habove); [lia|lia| |lia| |].
  { apply bswap16_range. }
  { intros E. apply Hw. unfold SWAP_BE16 in E.
    rewrite <- (bswap16_invol (word r j)), E by done. done. }
  assert (forall t, 0 <= t < 16 ->
    used r (16 * j + t) = Z.testbit (SWAP_BE16 (word r j)) (15 - t)) as Hu.
  { intros t Ht. assert ((16 * j + t) / 16 = j) as E by (symmetry; apply (Z.div_unique _ 16 j t); lia).
    rewrite used_word by (rewrite ?E; done || lia). rewrite E. f_equal. f_equal.
    symmetry. apply (Z.mod_unique _ 16 j t); lia. }
  exists (15 - b). split_and!; [lia|lia| | |].
  - replace (15 - (15 - b)) with b by lia. exact Hrun.
  - rewrite Hu by lia. rewrite <- Hfree. f_equal. lia.
  - intros k Hk. replace k with (16 * j + (k - 16 * j)) by lia. rewrite Hu by lia. apply Habove. lia.
Qed.

Lemma div_mod_bit j t : 0 <= t < 16 -> (16 * j + t) / 16 = j /\ (16 * j + t) mod 16 = t.
Proof using Type.
  intros. split; symmetry; [apply (Z.div_unique _ 16 j t)|apply (Z.mod_unique _ 16 j t)]; lia.
Qed.

Lemma set_bit_eq r j t : 0 <= t < 16 ->
  set_bit r (16 * j + t) = write_word r j (Z.lor (word r j) (SWAP_BE16 (2 ^ (15 - t)))).
Proof using Type. intros Ht. unfold set_bit. by destruct (div_mod_bit j t Ht) as [-> ->]. Qed.

Lemma load_word s m header recs r j :
  map_node s m header recs r -> 0 <= j -> 2 * j + 2 <= Z.of_nat (length r) ->
  load16 (contents (agent s) m) (rec_offset recs (if header then 2 else 0)%nat + 2 * j) = Ok (word r j).
Proof using Type.
  intros Hm Hj Hjr. destruct (map_node_inside _ _ _ _ _ Hm) as (Ho & Hin & _ & _).
  unfold load16. rewrite get_bytes_ok by lia. simpl. f_equal. unfold word.
  by rewrite (slice_in_record _ _ _ _ _ _ _ Hm) by lia.
Qed.

Lemma AllocateNode_spec s chain :
  geometry s -> map_chain s 0 true chain -> NoDup (map fst chain) ->
  map_bits chain < 2 ^ 32 ->
  exists res, AllocateNode s = Ok res /\ allocated s chain res.
Proof using FSAgentLaws0.
  intros Hg Hc Hnd Hbits. unfold AllocateNode.
  pose proof (distinct_below _ _ Hnd (map_chain_readable _ _ _ _ Hc)) as Hlen. rewrite length_map in Hlen.
  destruct (search_map_spec chain (S (Z.to_nat (totalNodes (btree s)))) s (mkNodeRec None None 0 false) 0 true 0)
    as (res & -> & Hres); [done|done|lia|lia|lia|]. cbn [mbind outcome_bind].
  destruct res as [err node' s1|node' mapPtr pos num s1].
  { destruct Hres as (-> & Hb & Hs & Hu). rewrite allocate_error_spec by done.
    eexists. split; [done|]. right. split_and!; [by right|done|done|]. intros. apply Hu. lia. }
  destruct Hres as (Hs1 & pre & m & header & recs & r & post & j & Heq & -> & Hho & Hm & -> & -> & Hj & Hjr & Hw & Hu).
  destruct (map_node_inside _ _ _ _ _ Hm) as (Ho & Hin & Hmax & Hb).
  pose proof Hs1 as (Ht & _ & HE & HC). destruct (same_tree_fields _ _ Ht) as (E1 & E2 & E3 & _ & E5).
  rewrite (proj1 Hho), HC. cbn [of_option mbind outcome_bind].
  rewrite (load_word _ _ _ _ _ _ Hm Hj Hjr).
  cbn [mbind outcome_bind].
  destruct (find_bit_record r j Hb Hj Hjr Hw) as (t & Htr & -> & Hfree & Hbelow). cbn [mbind outcome_bind].
  replace (rec_offset recs (if header then 2 else 0)%nat + 2 * j - rec_offset recs (if header then 2 else 0)%nat)
    with (j * 2) by lia.
  rewrite Z.div_mul, Z.shiftl_mul_pow2 by lia.
  assert (map_bits chain = map_bits pre + 8 * Z.of_nat (length r) + map_bits post) as Hsum.
  { rewrite Heq, map_bits_app, map_bits_cons. lia. }
  pose proof (map_bits_nonneg pre). pose proof (map_bits_nonneg post).
  set (n := map_bits pre + 16 * j + t).
  replace (0 + map_bits pre + j * 2 ^ 4 + (15 - (15 - t))) with n by lia. rewrite u32_small by lia.
  assert (used (map_bytes chain) n = false) as Hn.
  { rewrite Heq, used_map_bytes by lia. rewrite <- Hfree. f_equal. lia. }
  assert (forall k, 0 <= k < n -> used (map_bytes chain) k = true) as Hall.
  { intros k Hk. destruct (decide (k < map_bits pre + 16 * j)); [apply Hu; lia|].
    rewrite Heq, used_map_bytes by lia. apply Hbelow. lia. }
  rewrite E2. destruct (Z.leb_spec (totalNodes (btree s)) n).
  { unfold allocate_error.
    destruct (ReleaseNode_unchanged size contents s1 m node' (proj1 Hho) (proj2 Hho)) as (r' & s' & -> & _ & Hs').
    eexists. split; [done|]. right. split_and!; [by left|done|by etrans|]. intros. apply Hall. lia. }
  destruct (write_bit s s1 chain pre m header recs r post node' j
              (Z.lor (word r j) (SWAP_BE16 (2 ^ (15 - t)))) Hg Hc Hnd Heq Hs1 Hho Hm Hj Hjr)
    as (b' & node2 & s' & -> & Hrun & Hnil & Ht' & Hc' & HC' & HE').
  cbn [mbind outcome_bind]. rewrite Hrun. cbn [mbind outcome_bind negb noErr Z.eqb].
  destruct (same_tree_fields _ _ Ht') as (F1 & F2 & F3 & _ & F5).
  eexists. split; [done|]. left. split_and!; try done; try lia.
  - rewrite Heq. eapply map_changed_intro; [exact Hc'|by apply write_word_length|lia| |done..].
    intros k Hk. rewrite <- set_bit_eq, used_set by (done || lia || apply Hm).
    replace (n - map_bits pre) with (16 * j + t) by lia.
    destruct (k =? 16 * j + t); [apply orb_true_r|apply orb_false_r].
  - simpl. by rewrite F3.
  - simpl. by rewrite F5.
Qed.

(** *** Freeing a node *)

Definition find_result (s : fs W) (chain : list (Z * buffer)) (n idx : Z)
    (res : Z * NodeRec * option Z * Z * Z * fs W) : Prop :=
  let '(err, node', mapPos, mapSize, idx', s') := res in
  same_fs contents s s' /\
  if n <? idx + map_bits chain then
    err = noErr /\
    exists pre m header recs r post, chain = pre ++ (m, r) :: post /\
      holds_node s' node' m /\ map_node s m header recs r /\
      mapPos = Some (rec_offset recs (if header then 2 else 0)%nat) /\ mapSize = Z.of_nat (length r) /\
      idx' = idx + map_bits pre + 8 * Z.of_nat (length r) /\ idx + map_bits pre <= n < idx'
  else err = fsBTNoMoreMapNodesErr /\ nodeBuffer node' = None.

Lemma find_result_cons s s1 n r k chain idx res :
  same_fs contents s s1 -> find_result s1 chain n (idx + 8 * Z.of_nat (length r)) res ->
  find_result s ((k, r) :: chain) n idx res.
Proof using Type.
  intros Hs. destruct res as [[[[[err node'] mapPos] mapSize] idx'] s']. unfold find_result.
  rewrite map_bits_cons, Z.add_assoc. intros [Hs' Hres]. split; [by etrans|].
  destruct (n <? _); [|done].
  destruct Hres as (-> & pre & m & header & recs & r' & post & -> & Hho & Hm & -> & -> & -> & Hn).
  split; [done|]. exists ((k, r) :: pre), m, header, recs, r', post. rewrite map_bits_cons.
  split_and!; try done; try lia. by apply (map_node_same s1); [symmetry|].
Qed.

Lemma find_map_spec chain : forall fuel s node n0 header n idx mp ms,
  map_chain s n0 header chain -> before_node s node n0 header -> (S (length chain) < fuel)%nat ->
  0 <= idx <= n -> idx + map_bits chain < 2 ^ 32 ->
  exists res, find_map fuel s node n idx mp ms = Ok res /\ find_result s chain n idx res.
Proof using FSAgentLaws0.
  induction chain as [|[k r] rest IH]; intros fuel s node n0 header n idx mp ms Hc Hbef Hf Hidx Hbits;
    [inversion Hc|]. rewrite map_bits_cons in Hbits. pose proof (map_bits_nonneg rest).
  destruct fuel as [|fuel]; [simpl in Hf; lia|]. cbn [find_map]. case_ztest; [|lia].
  assert (k = n0 /\ exists recs, map_node s n0 header recs r) as (-> & recs & Hm) by (inversion Hc; eauto).
  destruct (GetMapNode_spec s node n0 header recs r Hbef Hm) as (node1 & s1 & -> & Hho & Hs1).
  pose proof Hs1 as (_ & _ & _ & HC). cbn [mbind outcome_bind negb noErr Z.eqb].
  rewrite Z.shiftl_mul_pow2, u32_small by lia.
  replace (idx + Z.of_nat (length r) * 2 ^ 3) with (idx + 8 * Z.of_nat (length r)) by lia.
  destruct (Z.leb_spec (idx + 8 * Z.of_nat (length r)) n) as [Hle|Hlt].
  2: { destruct fuel as [|fuel]; [simpl in Hf; lia|]. cbn [find_map]. case_ztest; [lia|].
       eexists. split; [done|]. unfold find_result. rewrite map_bits_cons.
       split; [done|]. case_ztest; [|lia]. split; [done|]. exists [], n0, header, recs, r, rest.
       change (map_bits []) with 0. split_and!; done || lia. }
  inversion Hc as [? ? ? ? Hmn Hfl|? ? ? ? m ? Hmn Hfl Hne Hrest]; subst.
  - destruct fuel as [|fuel]; [simpl in Hf; lia|]. cbn [find_map]. case_ztest; [|lia].
    destruct (GetMapNode_end s1 node1 n0) as (node2 & s2 & -> & Hb2 & Hs2); [done|by rewrite HC|].
    simpl. eexists. split; [done|]. apply (find_result_cons s s1); [done|].
    unfold find_result. change (map_bits []) with 0. split; [done|]. case_ztest; [lia|done].
  - destruct (IH fuel s1 node1 m false n (idx + 8 * Z.of_nat (length r)) 
      (Some (rec_offset recs (if header then 2 else 0)%nat)) (Z.of_nat (length r))) as (res & Hrun & Hres);
      [by eapply map_chain_same| |simpl in Hf; lia|lia|lia|].
    { exists n0. destruct Hho. by rewrite HC in *. }
    exists res. split; [done|]. by apply (find_result_cons s s1).
Qed.

Lemma clear_bit_eq r n :
  clear_bit r n = write_word r (n / 16) (Z.land (word r (n / 16)) (SWAP_BE16 (Z.lnot (Z.shiftl 1 (15 - n mod 16))))).
Proof using Type. done. Qed.

Definition freed (s : fs W) (chain : list (Z * buffer)) (n : Z) (res : Z * fs W) : Prop :=
  let '(err, s') := res in
  if n <? map_bits chain then
    err = noErr /\ map_changed s s' chain n false /\
    freeNodes (btree s') = u32 (freeNodes (btree s) + 1) /\
    flags (btree s') = Z.lor (flags (btree s)) kBTHeaderDirty
  else err = fsBTNoMoreMapNodesErr /\ same_fs contents s s'.

Lemma FreeNode_spec s chain n :
  geometry s -> map_chain s 0 true chain -> NoDup (map fst chain) ->
  map_bits chain < 2 ^ 32 -> 0 <= n ->
  exists res, FreeNode s n = Ok res /\ freed s chain n res.
Proof using FSAgentLaws0.
  intros Hg Hc Hnd Hbits Hn. unfold FreeNode.
  pose proof (distinct_below _ _ Hnd (map_chain_readable _ _ _ _ Hc)) as Hlen. rewrite length_map in Hlen.
  destruct (find_map_spec chain (S (S (Z.to_nat (totalNodes (btree s))))) s (mkNodeRec None None 0 false)
    0 true n 0 None 0) as (res & -> & Hres); [done|done|lia|lia|lia|].
  destruct res as [[[[[err node'] mapPos] mapSize] idx'] s1]. cbn [mbind outcome_bind].
  unfold find_result in Hres. destruct Hres as [Hs1 Hres]. unfold freed. change (0 + map_bits chain) with (map_bits chain) in Hres.
  destruct (n <? map_bits chain).
  2: { destruct Hres as [-> Hnil]. simpl. unfold free_error, ReleaseNode, release_with. rewrite Hnil.
       eexists. split; [done|]. done. }
  destruct Hres as (-> & pre & m & header & recs & r & post & Heq & Hho & Hm & -> & -> & Hidx & Hin).
  pose proof (map_bits_nonneg pre). pose proof (map_bits_nonneg post).
  assert (map_bits chain = map_bits pre + 8 * Z.of_nat (length r) + map_bits post) as Hsum.
  { rewrite Heq, map_bits_app, map_bits_cons. lia. }
  cbn [negb noErr Z.eqb]. rewrite Z.shiftl_mul_pow2, (u32_small (idx' - _)), u32_small by lia.
  replace (n - (idx' - Z.of_nat (length r) * 2 ^ 3)) with (n - map_bits pre) by lia.
  set (t := n - map_bits pre). change 0xF with (Z.ones 4). rewrite Z.land_ones, Z.shiftr_div_pow2 by lia.
  change (2 ^ 4) with 16. change (Z.ones 4) with 15.
  pose proof Hs1 as (Ht & _ & HE & HC). rewrite (proj1 Hho), HC. cbn [of_option mbind outcome_bind].
  destruct (word_of_bit r t) as (? & ? & ?); [apply Hm|lia|].
  rewrite (load_word _ _ _ _ _ _ Hm) by lia. cbn [mbind outcome_bind].
  destruct (write_bit s s1 chain pre m header recs r post node' (t / 16)
              (Z.land (word r (t / 16)) (SWAP_BE16 (Z.lnot (Z.shiftl 1 (15 - t mod 16)))))
              Hg Hc Hnd Heq Hs1 Hho Hm) as (b' & node2 & s' & -> & Hrun & Hnil & Ht' & Hc' & HC' & HE'); [lia|lia|].
  cbn [mbind outcome_bind]. rewrite Hrun. cbn [mbind outcome_bind negb noErr Z.eqb].
  destruct (same_tree_fields _ _ Ht') as (F1 & F2 & F3 & _ & F5).
  eexists. split; [done|]. split_and!; [done| |simpl; by rewrite F3|simpl; by rewrite F5].
  rewrite Heq. eapply map_changed_intro; [exact Hc'|apply write_word_length; lia|lia| |done..].
  intros k Hk. rewrite <- clear_bit_eq. rewrite used_clear; [|apply (map_node_inside _ _ _ _ _ Hm)|apply Hm|lia|done].
  fold t. destruct (k =? t); [apply andb_false_r|apply andb_true_r].
Qed.
End chain.

(** ** [CalcMapBits] *)

Lemma calc_map_bits_spec fuel : forall bits total step,
  0 <= bits -> 0 < step -> total - bits < Z.of_nat fuel -> 0 < Z.of_nat fuel ->
  bits < 2 ^ 32 -> total + step < 2 ^ 32 ->
  exists k res, calc_map_bits fuel bits total step = Ok res /\ 0 <= k /\ res = bits + k * step /\
    total <= res /\ (k = 0 \/ res < total + step).
Proof.
  induction fuel as [|fuel IH]; intros bits total step Hb Hs Hf Hf0 Hbl Ht; [lia|]. cbn [calc_map_bits].
  destruct (Z.ltb_spec bits total).
  - rewrite u32_small by lia.
    destruct (IH (bits + step) total step) as (k & res & -> & Hk & -> & Hle & Hor); try lia.
    exists (k + 1), (bits + step + k * step). split_and!; [done|lia|lia|lia|]. right.
    destruct Hor as [-> |Hlt]; lia.
  - exists 0, bits. split_and!; try done; lia.
Qed.
