(* ===== verification/BTreeMapTheorems.v ===== *)
(** * Correctness of node allocation in a B-tree

    The theorems are about every agent that satisfies [FSAgentLaws]; [file_agent],
    a file in memory, is one. *)
From S2P Require Import Prelude Bits Bytes BTreeNode BTreeBlocks BTreeMap.

(** ** A file in memory *)

Record file_agent := mkFile { file_blocks : gmap Z buffer; file_eof : Z }.

(** Blocks of 512 bytes, always read from the medium. *)
Definition file_size : Z := 512.
Definition file_contents (w : file_agent) (n : Z) : buffer := default [] (file_blocks w !! n).

#[export] Instance file_FSAgent : FSAgent file_agent := {
  getBlockProc w n opts r :=
    (noErr,
     mkNodeRec (Some (if Z.testbit opts 3 then replicate 512 0 else file_contents w n)) (Some n) (blockSize r) true,
     w);
  releaseBlockProc w r opts :=
    match blockHeader r, nodeBuffer r with
    | Some n, Some b =>
        (noErr, if Z.testbit opts 1 && negb (Z.testbit opts 2)
                then mkFile (<[n := b]> (file_blocks w)) (file_eof w) else w)
    | _, _ => (-1, w)
    end;
  fcbEOF := file_eof
}.

#[export] Instance file_laws : FSAgentLaws file_agent file_size file_contents.
Proof.
  split.
  - intros w n r Hn HE. simpl. do 2 eexists. split_and!; done.
  - intros w n r Hn HE. simpl. do 3 eexists. split_and!; done.
  - intros w n r Hh Hb. simpl. rewrite Hh, Hb. simpl. eexists. split_and!; done.
  - intros w n r b opts _ Hh Hb H1 H2. unfold releaseBlockProc, file_FSAgent.
    rewrite Hh, Hb, H1, H2. simpl. eexists. split_and!; [done| | |done].
    + unfold file_contents. simpl. by rewrite lookup_insert_eq.
    + intros m Hm. unfold file_contents. simpl. by rewrite lookup_insert_ne.
Qed.

(** A file of four nodes, two of them in use; the map is in the header node. *)
Definition sample_bt : BTreeControlBlock := mkBTree 0 1 1 0 1 1 512 516 4 2 0 6 0 0 0 0 0 0 0 0 0.
Definition sample_map : buffer := 0xC0 :: replicate 255 0.
Definition sample_header_records : list buffer := [replicate 106 0; replicate 128 0; sample_map].
Definition sample_header : buffer :=
  replicate 8 0 ++ [1; 0; 3; 0; 0; 0] ++ concat sample_header_records ++
  le_encode 2 504 ++ le_encode 2 248 ++ le_encode 2 120 ++ le_encode 2 14.
Definition sample_fs : fs file_agent := mkFs sample_bt 0 (mkFile {[0 := sample_header]} 2048).
Definition sample_chain : list (Z * buffer) := [(0, sample_map)].

Lemma sample_holds : node_holds 512 sample_header_records sample_header.
Proof.
  split; try (vm_compute; done || (intros ?; discriminate)).
  intros i Hi. destruct i as [|[|[|[|i]]]]; try (vm_compute; done). simpl in Hi. lia.
Qed.

Lemma sample_map_chain : map_chain file_contents file_size sample_fs 0 true sample_chain.
Proof.
  apply (chain_last _ _ _ _ _ sample_header_records); [|vm_compute; done].
  split; try (vm_compute; done || (repeat split; done || (intros ?; discriminate))).
  - apply (bool_decide_unpack _). vm_compute. done.
  - apply sample_holds.
Qed.

Lemma sample_geometry : geometry file_size sample_fs.
Proof. repeat split; vm_compute; done. Qed.

Lemma sample_NoDup : NoDup (map fst sample_chain).
Proof. repeat constructor. apply not_elem_of_nil. Qed.

(** ** Properties *)

(** C3: [AllocateNode] always returns.  It takes the first node that the map has free, if that
    is a node of the file: it marks the node, and only it, as used in the map, writes nothing
    but the map node, counts one free node less and marks the header dirty.  Otherwise
    it reports that the tree is full, every node of the file that the map covers is in use,
    and nothing changes. *)
Theorem AllocateNode_correct {W} `{!FSAgent W} contents size `{!FSAgentLaws W size contents}
    (s : fs W) (chain : list (Z * buffer)) :
  geometry size s -> map_chain contents size s 0 true chain -> NoDup (map fst chain) ->
  map_bits chain < 2 ^ 32 ->
  exists err n s', AllocateNode s = Ok (err, n, s') /\
    (err = noErr /\ 0 <= n < totalNodes (btree s) /\ n < map_bits chain /\
       used (map_bytes chain) n = false /\ (forall k, 0 <= k < n -> used (map_bytes chain) k = true) /\
       map_changed contents size s s' chain n true /\
       freeNodes (btree s') = u32 (freeNodes (btree s) - 1) /\
       flags (btree s') = Z.lor (flags (btree s)) kBTHeaderDirty \/
     (err = fsBTFullErr \/ err = fsBTNoMoreMapNodesErr) /\ n = 0 /\ same_fs contents s s' /\
       forall k, 0 <= k < totalNodes (btree s) -> k < map_bits chain -> used (map_bytes chain) k = true).
Proof.
  intros Hg Hc Hnd Hb. destruct (AllocateNode_spec contents size s chain Hg Hc Hnd Hb) as ([[err n] s'] & Hrun & Hres).
  exists err, n, s'. split; [done|]. exact Hres.
Qed.

(** [FreeNode] clears the bit of the node, and no other, writes only the map node,
    and counts one free node more; for a number that the map does not cover it reports an
    error and changes nothing. *)
Theorem FreeNode_correct {W} `{!FSAgent W} contents size `{!FSAgentLaws W size contents}
    (s : fs W) (chain : list (Z * buffer)) n :
  geometry size s -> map_chain contents size s 0 true chain -> NoDup (map fst chain) ->
  map_bits chain < 2 ^ 32 -> 0 <= n ->
  exists err s', FreeNode s n = Ok (err, s') /\
    (n < map_bits chain -> err = noErr /\ map_changed contents size s s' chain n false /\
       freeNodes (btree s') = u32 (freeNodes (btree s) + 1) /\
       flags (btree s') = Z.lor (flags (btree s)) kBTHeaderDirty) /\
    (map_bits chain <= n -> err = fsBTNoMoreMapNodesErr /\ same_fs contents s s').
Proof.
  intros Hg Hc Hnd Hb Hn.
  destruct (FreeNode_spec contents size s chain n Hg Hc Hnd Hb Hn) as ([err s'] & Hrun & Hres).
  exists err, s'. split; [done|]. unfold freed in Hres.
  destruct (Z.ltb_spec n (map_bits chain)); split; intros; done || lia.
Qed.

(** Freeing the node just allocated restores the map and the count of free nodes. *)
Theorem allocate_free_node {W} `{!FSAgent W} contents size `{!FSAgentLaws W size contents}
    (s : fs W) (chain : list (Z * buffer)) n s1 :
  geometry size s -> map_chain contents size s 0 true chain -> NoDup (map fst chain) ->
  map_bits chain < 2 ^ 32 -> 0 <= freeNodes (btree s) < 2 ^ 32 ->
  AllocateNode s = Ok (noErr, n, s1) ->
  exists s2 chain2, FreeNode s1 n = Ok (noErr, s2) /\ map_chain contents size s2 0 true chain2 /\
    map fst chain2 = map fst chain /\
    (forall k, 0 <= k < map_bits chain -> used (map_bytes chain2) k = used (map_bytes chain) k) /\
    freeNodes (btree s2) = freeNodes (btree s).
Proof.
  intros Hg Hc Hnd Hb Hf Hrun.
  destruct (AllocateNode_spec contents size s chain Hg Hc Hnd Hb) as (res & Hrun' & Hres).
  rewrite Hrun in Hrun'. injection Hrun' as <-.
  destruct Hres as [(_ & Hn & Hnb & Hused & _ & Hch & Hfree & _)|[[?|?] _]]; [|done..].
  destruct Hch as ((chain1 & Hc1 & Hfst1 & Hbits1 & Hu1) & _ & Ht1 & Hsz1 & HE1 & _).
  assert (geometry size s1) as Hg1 by (unfold geometry in *; by rewrite Hsz1, HE1).
  destruct (FreeNode_spec contents size s1 chain1 n Hg1 Hc1) as ([err s2] & Hrun2 & Hres);
    [by rewrite Hfst1|by rewrite Hbits1|lia|].
  unfold freed in Hres. rewrite Hbits1 in Hres. destruct (Z.ltb_spec n (map_bits chain)); [|lia].
  destruct Hres as (-> & ((chain2 & Hc2 & Hfst2 & Hbits2 & Hu2) & _) & Hfree2 & _).
  exists s2, chain2. split_and!; [done|done|congruence| |].
  - intros k Hk. rewrite Hu2, Hu1 by lia. destruct (Z.eqb_spec k n) as [->|]; done.
  - rewrite Hfree2, Hfree. unfold u32, wrap. rewrite Zplus_mod_idemp_l.
    rewrite Z.sub_add. apply Z.mod_small. lia.
Qed.

(** [GetNode] hands out a node read from the disk only after [CheckNode] has accepted
    it, and hands out none with an error. *)
Theorem GetNode_safe {W} `{!FSAgent W} (s : fs W) nodeNum nodePtr err r' s' :
  GetNode s nodeNum nodePtr = Ok (err, r', s') ->
  (err <> noErr -> nodeBuffer r' = None) /\
  (err = noErr -> nodeNum < totalNodes (btree s) /\
     (blockReadFromDisk r' = true -> exists b, nodeBuffer r' = Some b /\
        CheckNode (btree s) (fcbEOF (agent s')) b = Ok noErr)).
Proof.
  unfold GetNode. destruct (Z.leb_spec (totalNodes (btree s)) nodeNum).
  { intros [= <- <- <-]. done. }
  destruct (getBlockProc _ _ _ _) as [[e r1] w]. simpl.
  destruct (Z.eqb_spec e noErr) as [->|He]; simpl; [|intros [= <- <- <-]; done].
  destruct (blockReadFromDisk r1) eqn:Hd; [|intros [= <- <- <-]; split; [done|]; by rewrite Hd].
  destruct (nodeBuffer r1) as [b|] eqn:Hb; simpl; [|done].
  change (CheckNode (count_get (btree s))) with (CheckNode (btree s)).
  destruct (CheckNode (btree s) (fcbEOF w) b) as [e2| | |] eqn:Hc; simpl; try done.
  destruct (Z.eqb_spec e2 noErr) as [->|He2]; simpl.
  - intros [= <- <- <-]. split; [done|]. intros _. split; [done|]. intros _. exists b. done.
  - destruct (TrashNode _ _) as [[e3 r3] s3]. intros [= <- <- <-]. done.
Qed.

(** [GetNewNode] hands out a node without records that the record operations
    can work on. *)
Lemma GetNewNode_spec {W} `{!FSAgent W} contents size `{!FSAgentLaws W size contents}
    (s : fs W) nodeNum nodePtr :
  size = nodeSize (btree s) -> 16 <= size <= 32768 ->
  0 <= nodeNum -> (nodeNum + 1) * size <= fcbEOF (agent s) ->
  exists r' s' b, GetNewNode s nodeNum nodePtr = Ok (noErr, r', s') /\ nodeBuffer r' = Some b /\
    blockHeader r' = Some nodeNum /\ node_holds size [] b /\ slice b 0 14 = replicate 14 0 /\
    same_tree (btree s) (btree s') /\ fcbEOF (agent s') = fcbEOF (agent s) /\
    forall m, m <> nodeNum -> contents (agent s') m = contents (agent s) m.
Proof.
  intros Hsz Hrange Hn HE. unfold GetNewNode.
  destruct (get_empty_ok (agent s) nodeNum (set_blockSize nodePtr (nodeSize (btree s))) Hn HE)
    as (r' & w' & b & -> & Hb & Hl & Hh & HC & HE'). simpl. rewrite Hb. simpl.
  unfold ClearNode, sizeof_BTNodeDescriptor. simpl.
  rewrite bzero_ok by lia. simpl.
  assert (splice b 0 (replicate (Z.to_nat (nodeSize (btree s))) 0) = replicate (Z.to_nat size) 0) as ->.
  { unfold splice. rewrite length_replicate, drop_ge, app_nil_r, Hsz by lia. done. }
  set (z := replicate (Z.to_nat size) 0). assert (Z.of_nat (length z) = size) as Hz by (unfold z; rewrite length_replicate; lia).
  rewrite store16_ok by lia. simpl.
  assert (forall p n, 0 <= p -> 0 <= n -> p + n <= size - 2 ->
    slice (splice z (nodeSize (btree s) - 2) (le_encode 2 14)) p n = replicate (Z.to_nat n) 0) as Hs.
  { intros p n Hp Hn0 Hpn. rewrite slice_splice_disjoint by (rewrite ?le_encode_length; lia).
    unfold z, slice. rewrite drop_replicate, take_replicate. f_equal. lia. }
  do 3 eexists. split_and!; [done|done|done| |apply Hs; lia|apply same_tree_counts|done|done].
  split.
  - rewrite splice_length by (rewrite ?le_encode_length; lia). done.
  - lia.
  - apply Hs; lia.
  - intros [|i] Hi; [|simpl in Hi; lia]. unfold entry_pos.
    replace (size - 2 * Z.of_nat 0 - 2) with (nodeSize (btree s) - 2) by lia.
    apply slice_splice_same; rewrite ?le_encode_length; lia.
  - done.
  - change (rec_offset [] (length [])) with 14. simpl. lia.
Qed.

(** [CalcMapBits] terminates and returns the size of the map, header record and full map
    records, that is the smallest to cover all nodes. *)
Theorem CalcMapBits_correct (b : BTreeControlBlock) :
  512 <= nodeSize b <= 32768 -> 0 <= totalNodes b < 2 ^ 31 ->
  exists k bits, CalcMapBits b = Ok bits /\ 0 <= k /\
    bits = 8 * (nodeSize b - 256) + k * (8 * (nodeSize b - 20)) /\ totalNodes b <= bits /\
    (k = 0 \/ bits - 8 * (nodeSize b - 20) < totalNodes b).
Proof.
  intros Hsz Ht. unfold CalcMapBits, M_HeaderMapRecordSize, M_MapRecordSize.
  rewrite !Z.shiftl_mul_pow2, u32_small by lia.
  destruct (calc_map_bits_spec (S (Z.to_nat (totalNodes b))) ((nodeSize b - 14 - 106 - 128 - 8) * 2 ^ 3)
    (totalNodes b) ((nodeSize b - 14 - 6) * 2 ^ 3)) as (k & res & Hrun & Hk & -> & Hle & Hor); [lia..|].
  do 2 eexists. split_and!; [exact Hrun|done|lia|lia|]. destruct Hor as [->|]; [by left|right; lia].
Qed.

(** ** The properties on the sample file *)

Lemma sample_bits : map_bits sample_chain < 2 ^ 32.
Proof. vm_compute. done. Qed.

Lemma AllocateNode_witness :
  exists err n s', AllocateNode sample_fs = Ok (err, n, s') /\
    (err = noErr /\ 0 <= n < 4 /\ n < map_bits sample_chain /\
       used (map_bytes sample_chain) n = false /\
       (forall k, 0 <= k < n -> used (map_bytes sample_chain) k = true) /\
       map_changed file_contents file_size sample_fs s' sample_chain n true /\
       freeNodes (btree s') = u32 (2 - 1) /\ flags (btree s') = Z.lor 0 kBTHeaderDirty \/
     (err = fsBTFullErr \/ err = fsBTNoMoreMapNodesErr) /\ n = 0 /\ same_fs file_contents sample_fs s' /\
       forall k, 0 <= k < 4 -> k < map_bits sample_chain -> used (map_bytes sample_chain) k = true).
Proof.
  apply (AllocateNode_correct file_contents file_size sample_fs sample_chain);
    [apply sample_geometry|apply sample_map_chain|apply sample_NoDup|apply sample_bits].
Defined.

Lemma FreeNode_witness :
  exists err s', FreeNode sample_fs 1 = Ok (err, s') /\
    (1 < map_bits sample_chain -> err = noErr /\
       map_changed file_contents file_size sample_fs s' sample_chain 1 false /\
       freeNodes (btree s') = u32 (2 + 1) /\ flags (btree s') = Z.lor 0 kBTHeaderDirty) /\
    (map_bits sample_chain <= 1 -> err = fsBTNoMoreMapNodesErr /\ same_fs file_contents sample_fs s').
Proof.
  apply (FreeNode_correct file_contents file_size sample_fs sample_chain 1);
    [apply sample_geometry|apply sample_map_chain|apply sample_NoDup|apply sample_bits|lia].
Defined.

(** The state after the allocation of node 2. *)
Definition sample_allocated : fs file_agent :=
  match AllocateNode sample_fs with Ok (_, _, s') => s' | _ => sample_fs end.

Lemma allocate_free_node_witness :
  exists s2 chain2, FreeNode sample_allocated 2 = Ok (noErr, s2) /\
    map_chain file_contents file_size s2 0 true chain2 /\
    map fst chain2 = map fst sample_chain /\
    (forall k, 0 <= k < map_bits sample_chain ->
       used (map_bytes chain2) k = used (map_bytes sample_chain) k) /\
    freeNodes (btree s2) = 2.
Proof.
  apply (allocate_free_node file_contents file_size sample_fs sample_chain 2 sample_allocated);
    [apply sample_geometry|apply sample_map_chain|apply sample_NoDup|apply sample_bits|simpl; lia
    |vm_compute; reflexivity].
Defined.

Definition sample_got : NodeRec * fs file_agent :=
  match GetNode sample_fs 0 (mkNodeRec None None 0 false) with
  | Ok (_, r, s') => (r, s') | _ => (mkNodeRec None None 0 false, sample_fs)
  end.

Lemma GetNode_witness :
  (noErr <> noErr -> nodeBuffer (fst sample_got) = None) /\
  (noErr = noErr -> 0 < 4 /\
     (blockReadFromDisk (fst sample_got) = true -> exists b, nodeBuffer (fst sample_got) = Some b /\
        CheckNode sample_bt (fcbEOF (agent (snd sample_got))) b = Ok noErr)).
Proof.
  apply (GetNode_safe sample_fs 0 (mkNodeRec None None 0 false) noErr (fst sample_got) (snd sample_got)).
  vm_compute. reflexivity.
Defined.

Lemma CalcMapBits_witness :
  exists k bits, CalcMapBits sample_bt = Ok bits /\ 0 <= k /\
    bits = 8 * (512 - 256) + k * (8 * (512 - 20)) /\ 4 <= bits /\
    (k = 0 \/ bits - 8 * (512 - 20) < 4).
Proof. apply (CalcMapBits_correct sample_bt); simpl; lia. Defined.
