(* ===== verification/BTreeMisc.v ===== *)
(** * Header, hints and simple replacement (hfsplus/hfscommon/BTree/BTreeMiscOps.c)

    [CalcKeyRecordSize], [VerifyHeader], [TreeIsDirty], [UpdateHeader],
    [CheckInsertParams], [TrySimpleReplace] and [IsItAHint]. *)
From S2P Require Import Prelude Bytes UnicodeCompare BTreeNode BTreeKeys BTreeNodeTheorems BTreeBlocks BTreeMap.
From S2P Require Import BTreeMapTheorems.

Definition kMaxTreeDepth : Z := 16.
Definition kUserBTreeType : Z := 128.
Definition kReservedBTreeType : Z := 255.
Definition paramErr : Z := -50.
Definition fsBTRecordTooLargeErr : Z := ERR_BASE + 35.
Definition fsBTInvalidFileErr : Z := ERR_BASE + 0x0302.
Definition fsBTUnknownVersionErr : Z := ERR_BASE + 0x0355.

Definition CalcKeyRecordSize (keySize recSize : Z) : Z :=
  let keySize := if Z.odd keySize then u16 (keySize + 1) else keySize in
  let recSize := if Z.odd recSize then u16 (recSize + 1) else recSize in
  u16 (keySize + recSize).

(** ** The header record

    The fields of [BTHeaderRec] that the code reads or writes, by their offsets in the
    packed structure; BTreeMiscOps.c does not access the reserved fields, [clumpSize] and
    [attributes]. *)
Record BTHeaderRec := mkHeader {
  h_treeDepth : Z;
  h_rootNode : Z;
  h_leafRecords : Z;
  h_firstLeafNode : Z;
  h_lastLeafNode : Z;
  h_nodeSize : Z;
  h_maxKeyLength : Z;
  h_totalNodes : Z;
  h_freeNodes : Z;
  h_btreeType : Z
}.

Definition field_at (m : buffer) (p : Z) (n : nat) : Z := le_decode (slice m p (Z.of_nat n)).
Definition header_at (m : buffer) (p : Z) : BTHeaderRec :=
  mkHeader (field_at m p 2) (field_at m (p + 2) 4) (field_at m (p + 6) 4) (field_at m (p + 10) 4)
    (field_at m (p + 14) 4) (field_at m (p + 18) 2) (field_at m (p + 20) 2) (field_at m (p + 22) 4)
    (field_at m (p + 26) 4) (field_at m (p + 36) 1).

Definition VerifyHeader (eof : Z) (header : BTHeaderRec) : Z :=
  if negb (existsb (Z.eqb (h_nodeSize header)) [512; 1024; 2048; 4096; 8192; 16384; 32768])
  then fsBTInvalidHeaderErr else
  let total := h_totalNodes header in
  let forkSize := u64 (total * h_nodeSize header) in
  if negb (forkSize =? eof) then fsBTInvalidHeaderErr else
  if total <=? h_freeNodes header then fsBTInvalidHeaderErr else
  if total <=? h_rootNode header then fsBTInvalidHeaderErr else
  if total <=? h_firstLeafNode header then fsBTInvalidHeaderErr else
  if total <=? h_lastLeafNode header then fsBTInvalidHeaderErr else
  if kMaxTreeDepth <? h_treeDepth header then fsBTInvalidHeaderErr else
  if existsb (Z.eqb (h_btreeType header)) [0; kUserBTreeType; kReservedBTreeType] then noErr
  else fsBTUnknownVersionErr.

Definition TreeIsDirty (b : BTreeControlBlock) : Z := Z.land (flags b) kBTHeaderDirty.

(** A sequence of assignments to fields: position, size and value. *)
Fixpoint put_fields (m : buffer) (fields : list (Z * nat * Z)) : outcome buffer :=
  match fields with
  | [] => Ok m
  | (p, n, v) :: fields => m ← put_bytes m p (le_encode n v); put_fields m fields
  end.

(** The assignments [header->treeDepth = btreePtr->treeDepth] to
    [header->btreeType = btreePtr->btreeType], in the order of the code. *)
Definition header_fields (b : BTreeControlBlock) (p : Z) : list (Z * nat * Z) :=
  [ (p, 2%nat, treeDepth b); (p + 2, 4%nat, rootNode b); (p + 6, 4%nat, leafRecords b);
    (p + 10, 4%nat, firstLeafNode b); (p + 14, 4%nat, lastLeafNode b); (p + 18, 2%nat, nodeSize b);
    (p + 20, 2%nat, maxKeyLength b); (p + 22, 4%nat, totalNodes b); (p + 26, 4%nat, freeNodes b);
    (p + 36, 1%nat, btreeType b) ].

(** [flags &= ~kBTHeaderDirty] *)
Definition clear_dirty (b : BTreeControlBlock) : BTreeControlBlock :=
  mkBTree (btreeType b) (treeDepth b) (rootNode b) (leafRecords b) (firstLeafNode b) (lastLeafNode b) (nodeSize b)
    (maxKeyLength b) (totalNodes b) (freeNodes b) (Z.land (flags b) (Z.lnot kBTHeaderDirty)) (attributes b)
    (writeCount b) (numGetNodes b) (numGetNewNodes b) (numReleaseNodes b) (numUpdateNodes b) (numMapNodesRead b)
    (numHintChecks b) (numPossibleHints b) (numValidHints b).

Section header.
Context {W : Type} `{!FSAgent W}.

Definition UpdateHeader (s : fs W) (forceWrite : bool) : outcome (Z * fs W) :=
  if Z.land (flags (btree s)) kBTHeaderDirty =? 0 then Ok (noErr, s)
  else
    '(err, node, s) ← GetNode s kHeaderNodeNum (mkNodeRec None None 0 false);
    if negb (err =? noErr) then Ok (err, s)
    else
      b ← of_option (nodeBuffer node);
      b ← put_fields b (header_fields (btree s) sizeof_BTNodeDescriptor);
      let options := if forceWrite then kForceWriteBlock else kLockTransaction in
      '(err, node, s) ← UpdateNode s (set_buffer node b) options;
      Ok (err, with_tree s (clear_dirty (btree s))).
End header.

(** ** Hints *)

(** [++numHintChecks] and, for a possible hint, [++numPossibleHints].  The comparison with
    [totalNodes] is compiled in: DEBUG_BUILD is 1 (hfs_macos_defs.h). *)
Definition count_hint (b : BTreeControlBlock) (possible : bool) : BTreeControlBlock :=
  mkBTree (btreeType b) (treeDepth b) (rootNode b) (leafRecords b) (firstLeafNode b) (lastLeafNode b) (nodeSize b)
    (maxKeyLength b) (totalNodes b) (freeNodes b) (flags b) (attributes b)
    (writeCount b) (numGetNodes b) (numGetNewNodes b) (numReleaseNodes b) (numUpdateNodes b) (numMapNodesRead b)
    (u32 (numHintChecks b + 1)) (if possible then u32 (numPossibleHints b + 1) else numPossibleHints b)
    (numValidHints b).

Definition IsItAHint (b : BTreeControlBlock) (hintNodeNum : Z) : bool * BTreeControlBlock :=
  let answer := if totalNodes b <=? hintNodeNum then false
                else if hintNodeNum =? 0 then false else true in
  (answer, count_hint b answer).

(** ** Insertion *)

(** A null pointer is [None]; of the iterator the key, of the record its bytes. *)
Definition CheckInsertParams (filePtr : option (option BTreeControlBlock)) (iterator record : option buffer)
    (recordLen : Z) : outcome Z :=
  match filePtr with
  | None => Ok paramErr
  | Some None => Ok fsBTInvalidFileErr
  | Some (Some b) =>
      match iterator with
      | None => Ok paramErr
      | Some key =>
          match record with
          | None => Ok paramErr
          | Some _ =>
              keySize ← CalcKeySize b key 0;
              if Z.shiftr (nodeSize b) 1 <? CalcKeyRecordSize (u16 keySize) recordLen
              then Ok fsBTRecordTooLargeErr else Ok noErr
          end
      end
  end.

(** The result: whether the record was inserted, and the node. *)
Definition TrySimpleReplace (b : BTreeControlBlock) (cmp : buffer -> buffer -> outcome Z)
    (node key record : buffer) (recordLen : Z) : outcome (bool * buffer) :=
  k ← kind node;
  if negb (k =? kBTLeafNode) then Ok (false, node)
  else
    '(foundIt, index) ← SearchNode b cmp node key;
    if negb foundIt then Ok (false, node)
    else
      keySize ← CalcKeySize b key 0;
      let keySize := u16 keySize in
      let spaceNeeded := CalcKeyRecordSize keySize recordLen in
      oldSpace ← GetRecordSize b node index;
      if spaceNeeded =? oldSpace then
        dst ← GetRecordAddress b node index;
        let keySize := if Z.odd keySize then u16 (keySize + 1) else keySize in
        node ← copy_in node record 0 (dst + keySize) recordLen;
        Ok (true, node)
      else
        free ← GetNodeFreeSize b node;
        if spaceNeeded <=? u32 (free + oldSpace) then
          node ← DeleteRecord b node index;
          keyLength ← KeyLength b key 0;
          '(_, node) ← InsertKeyRecord b node index key keyLength record recordLen;
          Ok (true, node)
        else Ok (false, node).

(** ** Writing fields *)

Fixpoint fields_ok (lo : Z) (fields : list (Z * nat * Z)) (hi : Z) : Prop :=
  match fields with
  | [] => lo <= hi
  | (p, n, v) :: fields => lo <= p /\ fields_ok (p + Z.of_nat n) fields hi
  end.

Lemma fields_ok_le lo fields hi : fields_ok lo fields hi -> lo <= hi.
Proof.
  revert lo. induction fields as [|[[p n] v] fields IH]; intros lo H; simpl in H; [done|].
  destruct H as [? H]. apply IH in H. lia.
Qed.

Lemma put_fields_spec fields : forall lo hi m,
  0 <= lo -> fields_ok lo fields hi -> hi <= Z.of_nat (length m) ->
  exists m', put_fields m fields = Ok m' /\ same_outside lo hi m m' /\
    Forall (fun '(p, n, v) => slice m' p (Z.of_nat n) = le_encode n v) fields.
Proof.
  induction fields as [|[[p n] v] fields IH]; intros lo hi m Hlo Hok Hhi; simpl.
  { exists m. split_and!; done || constructor. }
  destruct Hok as [Hp Hok]. pose proof (fields_ok_le _ _ _ Hok).
  rewrite put_bytes_ok by (rewrite ?le_encode_length; lia). simpl.
  pose proof (same_outside_splice p (le_encode n v) m ltac:(lia) ltac:(rewrite le_encode_length; lia)) as S1.
  rewrite le_encode_length in S1.
  destruct (IH (p + Z.of_nat n) hi (splice m p (le_encode n v))) as (m' & Hrun & S2 & Hf);
    [lia|done|destruct S1; lia|].
  exists m'. split_and!; [done|apply (same_outside_trans _ _ _ _ _ _ _ _ _ S1 S2); lia|].
  constructor; [|done]. rewrite (proj2 S2) by lia.
  apply slice_splice_same; rewrite ?le_encode_length; lia.
Qed.

(** A buffer changed in one area only. *)
Lemma same_outside_splice_eq lo hi m m' :
  0 <= lo -> lo <= hi -> hi <= Z.of_nat (length m) -> same_outside lo hi m m' ->
  m' = splice m lo (slice m' lo (hi - lo)).
Proof.
  intros ? ? ? [Hl Hs]. pose proof (slice_length m' lo (hi - lo) ltac:(lia) ltac:(lia) ltac:(lia)).
  rewrite <- (slice_all m' (Z.of_nat (length m'))) at 1 by done.
  replace (Z.of_nat (length m')) with (lo + ((hi - lo) + (Z.of_nat (length m) - hi))) by lia.
  rewrite !slice_app by lia. unfold splice. f_equal; [|f_equal].
  - rewrite Hs by lia. done.
  - rewrite Hs by lia. unfold slice at 1. rewrite take_ge by (rewrite length_drop; lia). f_equal. lia.
Qed.

Lemma field_at_read m p n v : slice m p (Z.of_nat n) = le_encode n v ->
  0 <= v < 256 ^ Z.of_nat n -> field_at m p n = v.
Proof. intros Hs Hv. unfold field_at. rewrite Hs, le_decode_encode. by apply Z.mod_small. Qed.

(** The control block's fields, at the width they have in the header. *)
Definition header_of (b : BTreeControlBlock) : BTHeaderRec :=
  mkHeader (treeDepth b) (rootNode b) (leafRecords b) (firstLeafNode b) (lastLeafNode b) (nodeSize b)
    (maxKeyLength b) (totalNodes b) (freeNodes b) (btreeType b).
Record widths_ok (b : BTreeControlBlock) : Prop := {
  w_treeDepth : 0 <= treeDepth b < 2 ^ 16;
  w_rootNode : 0 <= rootNode b < 2 ^ 32;
  w_leafRecords : 0 <= leafRecords b < 2 ^ 32;
  w_firstLeafNode : 0 <= firstLeafNode b < 2 ^ 32;
  w_lastLeafNode : 0 <= lastLeafNode b < 2 ^ 32;
  w_nodeSize : 0 <= nodeSize b < 2 ^ 16;
  w_maxKeyLength : 0 <= maxKeyLength b < 2 ^ 16;
  w_totalNodes : 0 <= totalNodes b < 2 ^ 32;
  w_freeNodes : 0 <= freeNodes b < 2 ^ 32;
  w_btreeType : 0 <= btreeType b < 2 ^ 8
}.

Lemma header_written m b p :
  0 <= p -> p + 37 <= Z.of_nat (length m) -> widths_ok b ->
  exists m', put_fields m (header_fields b p) = Ok m' /\ same_outside p (p + 37) m m' /\
    header_at m' p = header_of b.
Proof.
  intros Hp Hl [].
  destruct (put_fields_spec (header_fields b p) p (p + 37) m) as (m' & Hrun & Hs & Hf); [lia|simpl; lia|lia|].
  exists m'. split_and!; [done|done|]. unfold header_fields in Hf. rewrite !Forall_cons in Hf.
  destruct Hf as (? & ? & ? & ? & ? & ? & ? & ? & ? & ? & _).
  unfold header_at, header_of. f_equal; apply field_at_read; done.
Qed.

(** [VerifyHeader] accepts a header exactly when the node size is a power of two from
    512 to 32768, the file has room for exactly the nodes the header counts, the free nodes, the
    root and the first and last leaf are within the nodes, the depth is at most 16 and
    the type is one of the three defined; the product of nodes and node size does not
    wrap. *)
Theorem VerifyHeader_correct eof h :
  0 <= h_totalNodes h < 2 ^ 32 ->
  VerifyHeader eof h = noErr <->
  (exists k, 0 <= k <= 6 /\ h_nodeSize h = 512 * 2 ^ k) /\ eof = h_totalNodes h * h_nodeSize h /\
  h_freeNodes h < h_totalNodes h /\ h_rootNode h < h_totalNodes h /\
  h_firstLeafNode h < h_totalNodes h /\ h_lastLeafNode h < h_totalNodes h /\
  h_treeDepth h <= 16 /\ (h_btreeType h = 0 \/ h_btreeType h = 128 \/ h_btreeType h = 255).
Proof.
  intros Ht. unfold VerifyHeader.
  assert (existsb (Z.eqb (h_nodeSize h)) [512; 1024; 2048; 4096; 8192; 16384; 32768] = true <->
          exists k, 0 <= k <= 6 /\ h_nodeSize h = 512 * 2 ^ k) as Hsz.
  { rewrite existsb_exists. split.
    - intros (x & Hx & ->%Z.eqb_eq). simpl in Hx.
      destruct Hx as [<-|[<-|[<-|[<-|[<-|[<-|[<-|[]]]]]]]];
        [exists 0|exists 1|exists 2|exists 3|exists 4|exists 5|exists 6]; split; done || lia.
    - intros (k & Hk & ->). exists (512 * 2 ^ k). split; [|apply Z.eqb_refl].
      assert (k = 0 \/ k = 1 \/ k = 2 \/ k = 3 \/ k = 4 \/ k = 5 \/ k = 6) as Hc by lia.
      destruct Hc as [->|[->|[->|[->|[->|[->| ->]]]]]]; simpl; tauto. }
  rewrite <- Hsz.
  destruct (existsb (Z.eqb (h_nodeSize h)) _) eqn:E; simpl negb; cbv iota; [|split; [done|naive_solver]].
  destruct (proj1 Hsz eq_refl) as (k & Hk & Ek).
  assert (0 < 2 ^ k <= 2 ^ 6) by (split; [apply Z.pow_pos_nonneg|apply Z.pow_le_mono_r]; lia).
  assert (u64 (h_totalNodes h * h_nodeSize h) = h_totalNodes h * h_nodeSize h) as ->
    by (apply wrap_small; rewrite Ek; nia).
  unfold kMaxTreeDepth, kUserBTreeType, kReservedBTreeType. simpl existsb.
  repeat (case_ztest; simpl; try (split; [done|intuition lia])).
  all: intuition lia.
Qed.

(** ** [UpdateHeader] *)

Lemma put_fields_bytes fields : forall m m',
  put_fields m fields = Ok m' -> Forall byte m -> Forall byte m'.
Proof.
  induction fields as [|[[p n] v] fields IH]; intros m m' Hm Hb; simpl in Hm; [by injection Hm as <-|].
  destruct (put_bytes m p (le_encode n v)) as [m1| | |] eqn:E; simpl in Hm; try done.
  apply (IH m1); [done|]. unfold put_bytes in E. destruct (in_buffer _ _ _); [|done].
  injection E as <-. apply splice_bytes; [done|apply le_encode_bytes].
Qed.

Section update_header.
Context {W : Type} `{!FSAgent W} (contents : W -> Z -> buffer) (size : Z)
  `{!FSAgentLaws W size contents}.

(** The header node: its first record is the header record. *)
Record header_node (s : fs W) (hdr : buffer) (rest : list buffer) : Prop := {
  hn_read : readable size contents s 0;
  hn_bytes : Forall byte (contents (agent s) 0);
  hn_holds : node_holds size (hdr :: rest) (contents (agent s) 0);
  hn_length : length hdr = 106%nat
}.

(** Filling in the header record leaves the others alone. *)
Lemma header_record_written node hdr rest b :
  node_holds size (hdr :: rest) node -> length hdr = 106%nat -> widths_ok b -> Forall byte node ->
  exists node', put_fields node (header_fields b sizeof_BTNodeDescriptor) = Ok node' /\
    header_at node' sizeof_BTNodeDescriptor = header_of b /\
    (exists hdr', length hdr' = 106%nat /\ node_holds size (hdr' :: rest) node') /\
    same_links node node' /\ Forall byte node'.
Proof using Type.
  intros Hh Hl Hw Hb. unfold sizeof_BTNodeDescriptor.
  destruct (node_holds_bounds _ _ _ 1 Hh ltac:(simpl; lia)) as (? & ? & ?).
  assert (rec_offset (hdr :: rest) 1 = 14 + 106) as Ho1.
  { rewrite (rec_offset_S _ 0 hdr) by done. rewrite Hl. done. }
  destruct (header_written node b 14) as (node' & Hrun & Hs & Hhdr); [lia|lia|done|].
  exists node'. split_and!; [done|done| |split; apply Hs; lia|].
  - pose proof (same_outside_splice_eq 14 (14 + 37) node node' ltac:(lia) ltac:(lia) ltac:(lia) Hs) as E.
    destruct (node_holds_write size (hdr :: rest) node hdr 0 0 (slice node' 14 37)) as [Hw' _]; [done|done|lia| |].
    { rewrite slice_length; [lia..|destruct Hs; lia]. }
    exists (splice hdr 0 (slice node' 14 37)). split.
    + rewrite splice_length; [done|lia|]. rewrite slice_length; [lia..|destruct Hs; lia].
    + rewrite E at 2. exact Hw'.
  - by apply (put_fields_bytes (header_fields b 14) node).
Qed.

Lemma UpdateHeader_spec s hdr rest force :
  header_node s hdr rest -> widths_ok (btree s) -> size = nodeSize (btree s) -> 64 <= size ->
  Z.even size = true -> fcbEOF (agent s) < 2 ^ 32 * size ->
  Z.land (flags (btree s)) kBTHeaderDirty <> 0 ->
  exists s' hdr', UpdateHeader s force = Ok (noErr, s') /\
    header_at (contents (agent s') 0) sizeof_BTNodeDescriptor = header_of (btree s) /\
    length hdr' = 106%nat /\ node_holds size (hdr' :: rest) (contents (agent s') 0) /\
    same_links (contents (agent s) 0) (contents (agent s') 0) /\
    (forall n, n <> 0 -> contents (agent s') n = contents (agent s) n) /\
    flags (btree s') = Z.land (flags (btree s)) (Z.lnot kBTHeaderDirty).
Proof using FSAgentLaws0.
  intros [Hread Hb Hh Hl] Hw Hsz H64 Heven HEOF Hdirty. unfold UpdateHeader.
  destruct (Z.eqb_spec (Z.land (flags (btree s)) kBTHeaderDirty) 0) as [|_]; [done|].
  change kHeaderNodeNum with 0.
  destruct (GetNode_readable size contents s 0 (mkNodeRec None None 0 false) Hread)
    as (r & s1 & -> & Hbuf & Hhd & Hs1). cbn [mbind outcome_bind negb noErr Z.eqb]. rewrite Hbuf.
  cbn [of_option mbind outcome_bind].
  pose proof Hs1 as (Ht & _ & HE & HC). destruct (same_tree_fields _ _ Ht) as (E1 & _ & _ & _ & E5).
  assert (header_fields (btree s1) sizeof_BTNodeDescriptor = header_fields (btree s) sizeof_BTNodeDescriptor) as ->
    by (by destruct Ht as (? & ? & ? & ? & ? & ? & ? & ? & ->)).
  destruct (header_record_written (contents (agent s) 0) hdr rest (btree s) Hh Hl Hw Hb)
    as (node' & -> & Hhdr & (hdr' & Hl' & Hh') & Hlinks & Hb'). cbn [mbind outcome_bind].
  destruct (UpdateNode_stores size contents s1 0 (set_buffer r node') node'
    (if force then kForceWriteBlock else kLockTransaction)) as (r' & s' & -> & _ & Hupd);
    [done|done|done|by destruct force| |].
  { rewrite HE, (CheckNode_same _ _ _ _ Ht). pose proof (nh_size _ _ _ Hh'). pose proof (nh_max _ _ _ Hh').
    destruct Hread as (? & ? & _).
    destruct (CheckNode_spec (btree s) node') with (fcbEOF := fcbEOF (agent s)) as (e & He & _);
      [lia|lia|by rewrite <- Hsz|done|lia|lia|]. by exists e. }
  cbn [mbind outcome_bind]. apply (updated_after contents s) in Hupd; [|done].
  destruct Hupd as (Ht' & _ & _ & Hc0 & Hcn). destruct (same_tree_fields _ _ Ht') as (_ & _ & _ & _ & F5).
  do 2 eexists. split_and!; [done|simpl; rewrite Hc0; done|exact Hl'|simpl; rewrite Hc0; done
    |simpl; rewrite Hc0; done|done|simpl; by rewrite F5].
Qed.
End update_header.

(** ** Insertion *)

Definition even_size (n : Z) : Z := if Z.odd n then n + 1 else n.

Lemma even_size_range n : n <= even_size n <= n + 1.
Proof. unfold even_size. destruct (Z.odd n); lia. Qed.

Lemma CalcKeyRecordSize_even keySize recSize :
  0 <= keySize -> 0 <= recSize -> even_size keySize + even_size recSize < 65536 ->
  CalcKeyRecordSize keySize recSize = even_size keySize + even_size recSize.
Proof.
  intros Hk Hr Hs. pose proof (even_size_range keySize). pose proof (even_size_range recSize).
  unfold CalcKeyRecordSize, even_size in *.
  destruct (Z.odd keySize), (Z.odd recSize); cbv zeta; rewrite ?u16_small by (rewrite ?u16_small; lia); lia.
Qed.

Lemma padded_even bt kl : padded_key_size bt kl = even_size (Z.of_nat (size_of_length bt) + kl).
Proof. apply padded_key_size_eq. Qed.

Lemma CalcKeySize_length bt key kl : KeyLength bt key 0 = Ok kl ->
  CalcKeySize bt key 0 = Ok (Z.of_nat (size_of_length bt) + kl).
Proof.
  intros H. unfold CalcKeySize, size_of_length. rewrite H. simpl. destruct (big_keys bt); f_equal; lia.
Qed.

Lemma insert_at_delete {A} (i : nat) (x y : A) l : l !! i = Some y -> insert_at i x (delete i l) = <[i := x]> l.
Proof.
  intros H. pose proof (lookup_lt_Some _ _ _ H). unfold insert_at. rewrite delete_take_drop.
  rewrite insert_take_drop by done.
  rewrite take_app_le, drop_app_ge by (rewrite length_take; lia).
  rewrite take_take, Nat.min_l, length_take, Nat.min_l, Nat.sub_diag by lia. done.
Qed.

Lemma GetRecordSize_holds bt recs node (i : nat) r :
  node_holds (nodeSize bt) recs node -> recs !! i = Some r ->
  GetRecordSize bt node (Z.of_nat i) = Ok (Z.of_nat (length r)).
Proof.
  intros Hh Hr. pose proof (lookup_lt_Some _ _ _ Hr). pose proof (rec_offset_S _ _ _ Hr).
  pose proof (rec_offset_ge recs i).
  destruct (node_holds_bounds _ _ _ (S i) Hh ltac:(lia)) as (? & ? & ?).
  unfold GetRecordSize, kOffsetSize. rewrite Z.shiftl_mul_pow2 by lia.
  replace (nodeSize bt - Z.of_nat i * 2 ^ 1 - 2 - 2) with (entry_pos (nodeSize bt) (S i))
    by (unfold entry_pos; lia).
  replace (nodeSize bt - Z.of_nat i * 2 ^ 1 - 2) with (entry_pos (nodeSize bt) i) by (unfold entry_pos; lia).
  rewrite !(load_offset _ _ _ Hh) by lia. simpl. rewrite u16_small by lia. f_equal. lia.
Qed.

Section replace.
Context (bt : BTreeControlBlock) (P : buffer -> Prop) (rank : buffer -> list Z)
  (cmp : buffer -> buffer -> outcome Z) `{!KeyCompare P rank cmp}.
Context (recs : list buffer) (node key record : buffer) (kl recordLen : Z).
Context (Hh : node_holds (nodeSize bt) recs node) (HP : Forall P recs) (Hkey : P key)
  (Hsorted : keys_sorted rank recs).
Context (Hkl : KeyLength bt key 0 = Ok kl) (Hkl0 : 0 <= kl)
  (Hkeylen : Z.of_nat (size_of_length bt) + kl <= Z.of_nat (length key)).
Context (Hrec : Z.of_nat (size_of_length bt) <= recordLen <= Z.of_nat (length record)).

Definition space_needed : Z := padded_key_size bt kl + even_size recordLen.
Context (Hspace : space_needed < 65536).

Definition free_space : Z := nodeSize bt - rec_offset recs (length recs) - 2 * Z.of_nat (length recs) - 2.

(** [r'] is the record [r] with its data replaced. *)
Definition replaced (r r' : buffer) : Prop :=
  slice r' (padded_key_size bt kl) recordLen = slice record 0 recordLen /\
  (space_needed = Z.of_nat (length r) ->
     length r' = length r /\ slice r' 0 (padded_key_size bt kl) = slice r 0 (padded_key_size bt kl)) /\
  (space_needed <> Z.of_nat (length r) -> r' = key_record bt key kl kl (slice record 0 recordLen)).

Lemma replace_in_place i r :
  recs !! i = Some r -> space_needed = Z.of_nat (length r) ->
  exists node' r', copy_in node record 0 (rec_offset recs i + padded_key_size bt kl) recordLen = Ok node' /\
    node_holds (nodeSize bt) (<[i := r']> recs) node' /\ same_links node node' /\ replaced r r'.
Proof using Hh Hkl0 Hrec.
  intros Hr Hsp. unfold space_needed in Hsp. pose proof (even_size_range recordLen).
  pose proof (padded_key_size_range bt kl). pose proof (rec_offset_ge recs i).
  pose proof (lookup_lt_Some _ _ _ Hr). pose proof (rec_offset_S _ _ _ Hr).
  destruct (node_holds_bounds _ _ _ (S i) Hh ltac:(lia)) as (? & ? & ?).
  set (data := slice record 0 recordLen).
  assert (Z.of_nat (length data) = recordLen) as Ld by (apply slice_length; lia).
  destruct (node_holds_write _ _ _ _ i (padded_key_size bt kl) data Hh Hr) as [Hw Hout]; [lia|lia|].
  exists (splice node (rec_offset recs i + padded_key_size bt kl) data), (splice r (padded_key_size bt kl) data).
  split_and!; [|done|split; apply Hout; lia|].
  - unfold copy_in. rewrite get_bytes_ok by lia. simpl. apply put_bytes_ok; fold data; lia.
  - split_and!; [fold data; apply slice_splice_same; lia| |unfold space_needed; lia].
    intros _. split; [apply splice_length; lia|]. apply slice_splice_disjoint; lia.
Qed.

Lemma replace_by_insert i r :
  recs !! i = Some r -> space_needed <> Z.of_nat (length r) ->
  space_needed <= free_space + Z.of_nat (length r) ->
  exists node1 node' r', DeleteRecord bt node (Z.of_nat i) = Ok node1 /\
    InsertKeyRecord bt node1 (Z.of_nat i) key kl record recordLen = Ok (true, node') /\
    node_holds (nodeSize bt) (<[i := r']> recs) node' /\ same_links node node' /\ replaced r r'.
Proof using Hh Hkl Hkl0 Hkeylen Hrec Hspace.
  intros Hr Hne Hsp. unfold space_needed, free_space in *. pose proof (even_size_range recordLen).
  pose proof (padded_key_size_range bt kl). pose proof (lookup_lt_Some _ _ _ Hr).
  destruct (DeleteRecord_spec bt recs node i r Hh Hr) as (node1 & Hd & Hh1 & [L1 L2] & _).
  pose proof (delete_record_length recs i r Hr) as HL.
  pose proof (rec_offset_delete_high recs i r Hr (length (delete i recs)) ltac:(lia)) as HE.
  rewrite <- HL in HE.
  pose proof (rec_offset_ge (delete i recs) (length (delete i recs))). pose proof (size_of_length_range bt).
  destruct (node_holds_bounds _ _ _ 0 Hh ltac:(lia)) as (? & ? & ?).
  destruct (InsertKeyRecord_fits bt (delete i recs) node1 i key kl kl record recordLen Hh1)
    as (node' & Hi & Hh' & [L3 L4]); [lia|done|lia|lia|done|lia|lia|].
  rewrite (insert_at_delete _ _ r) in Hh' by done.
  exists node1, node'. eexists. split_and!; [done|done|exact Hh'|split; congruence|].
  assert (Z.of_nat (length (slice record 0 recordLen)) = recordLen) as Ld by (apply slice_length; lia).
  split_and!; [|unfold space_needed; lia|done].
  pose proof (key_record_data bt key (slice record 0 recordLen) kl kl) as D. rewrite Ld in D. apply D; lia.
Qed.

Lemma equal_key_unique i j a b :
  recs !! i = Some a -> recs !! j = Some b ->
  lex_cmp (rank key) (rank a) = 0 -> lex_cmp (rank key) (rank b) = 0 -> i = j.
Proof using Hsorted.
  intros Ha Hb Ea%lex_cmp_eq Eb%lex_cmp_eq.
  destruct (Nat.lt_trichotomy i j) as [Hlt|[->|Hlt]]; [|done|];
    [pose proof (Hsorted _ _ _ _ Hlt Ha Hb) as E|pose proof (Hsorted _ _ _ _ Hlt Hb Ha) as E];
    rewrite <- Ea, <- Eb, lex_cmp_refl in E; done.
Qed.

(** The record whose key is [key], where there is room for the new one. *)
Definition replaceable (i : nat) (r : buffer) : Prop :=
  recs !! i = Some r /\ lex_cmp (rank key) (rank r) = 0 /\ space_needed <= free_space + Z.of_nat (length r).

Definition replace_result (res : outcome (bool * buffer)) : Prop :=
  exists ok node', res = Ok (ok, node') /\ same_links node node' /\
    (ok = true <-> exists i r, replaceable i r) /\
    (ok = true -> exists i r r', replaceable i r /\ replaced r r' /\
       node_holds (nodeSize bt) (<[i := r']> recs) node') /\
    (ok = false -> node' = node).

Lemma replace_result_done i r r' node' :
  replaceable i r -> replaced r r' -> same_links node node' ->
  node_holds (nodeSize bt) (<[i := r']> recs) node' -> replace_result (Ok (true, node')).
Proof using Type. 
  intros Hi Hr Hl Hh'. exists true, node'. split_and!; [done|done| | |done].
  - split; [intros _; by exists i, r|done].
  - intros _. by exists i, r, r'.
Qed.

Lemma replace_result_none :
  (forall i r, ~ replaceable i r) -> replace_result (Ok (false, node)).
Proof using Type. intros H. exists false, node. split_and!; try done.
  split; [done|]. intros (i & r & Hi). by destruct (H i r). Qed.

Lemma padded_from_size : Z.of_nat (size_of_length bt) + kl < 65535 ->
  (if Z.odd (Z.of_nat (size_of_length bt) + kl) then u16 (Z.of_nat (size_of_length bt) + kl + 1)
   else Z.of_nat (size_of_length bt) + kl) = padded_key_size bt kl.
Proof using Hkl0.
  intros H. rewrite padded_even. unfold even_size. rewrite u16_small by (clear -Hkl0 H; lia). done.
Qed.

Lemma TrySimpleReplace_found i r :
  kind node = Ok kBTLeafNode -> SearchNode bt cmp node key = Ok (true, Z.of_nat i) ->
  recs !! i = Some r -> lex_cmp (rank key) (rank r) = 0 ->
  replace_result (TrySimpleReplace bt cmp node key record recordLen).
Proof using Hh Hsorted Hkl Hkl0 Hkeylen Hrec Hspace.
  intros Hk Hsearch Hr E. unfold TrySimpleReplace. rewrite Hk. cbn [mbind outcome_bind].
  rewrite Z.eqb_refl. cbn [negb]. rewrite Hsearch. cbn [mbind outcome_bind negb].
  pose proof (lookup_lt_Some _ _ _ Hr). pose proof (padded_key_size_range bt kl).
  pose proof (size_of_length_range bt). pose proof (even_size_range recordLen).
  pose proof (rec_offset_S _ _ _ Hr). pose proof (rec_offset_ge recs i).
  destruct (node_holds_bounds _ _ _ (S i) Hh ltac:(lia)) as (? & ? & ?).
  rewrite (CalcKeySize_length _ _ _ Hkl). cbn [mbind outcome_bind].
  rewrite (u16_small (Z.of_nat _ + kl)) by (unfold space_needed in Hspace; lia).
  rewrite CalcKeyRecordSize_even by (rewrite <- ?padded_even; unfold space_needed in Hspace; lia).
  rewrite <- padded_even. fold space_needed. rewrite (GetRecordSize_holds _ _ _ _ _ Hh Hr).
  cbn [mbind outcome_bind].
  destruct (Z.eqb_spec space_needed (Z.of_nat (length r))) as [Hsp|Hsp].
  - destruct (replace_in_place i r Hr Hsp) as (node' & r' & Hrun & Hh' & Hlk & Hrep).
    unfold GetRecordAddress. rewrite (GetRecordOffset_holds _ _ _ Hh) by lia. cbn [mbind outcome_bind].
    cbv zeta. rewrite padded_from_size by (unfold space_needed in Hsp; lia). rewrite Hrun.
    cbn [mbind outcome_bind]. eapply replace_result_done; [|done..].
    split_and!; [done..|unfold free_space; lia].
  - rewrite (GetNodeFreeSize_holds _ _ _ Hh). fold free_space. cbn [mbind outcome_bind].
    rewrite u32_small by (unfold free_space; lia).
    destruct (Z.leb_spec space_needed (free_space + Z.of_nat (length r))) as [Hfit|Hfit].
    + destruct (replace_by_insert i r Hr Hsp Hfit) as (node1 & node' & r' & -> & Hins & Hh' & Hlk & Hrep).
      cbn [mbind outcome_bind]. rewrite Hkl. cbn [mbind outcome_bind]. rewrite Hins. cbn [mbind outcome_bind].
      eapply replace_result_done; [|done..]. by split_and!.
    + apply replace_result_none. intros j r' (Hr' & E' & Hfit').
      rewrite (equal_key_unique j i r' r) in Hr' by done. rewrite Hr in Hr'. injection Hr' as <-. lia.
Qed.

Lemma TrySimpleReplace_leaf :
  kind node = Ok kBTLeafNode -> replace_result (TrySimpleReplace bt cmp node key record recordLen).
Proof using All.
  intros Hk.
  destruct (SearchNode_spec bt P rank cmp recs node key Hh HP Hkey Hsorted) as ([[] index] & Hs & Hf).
  - destruct Hf as (r & Hr & Hi & E). replace index with (Z.of_nat (Z.to_nat index)) in Hs by lia.
    by apply (TrySimpleReplace_found (Z.to_nat index) r).
  - unfold TrySimpleReplace. rewrite Hk. cbn [mbind outcome_bind]. rewrite Z.eqb_refl. cbn [negb].
    rewrite Hs. cbn [mbind outcome_bind negb].
    apply replace_result_none. intros i r (Hr & E & _). destruct Hf as (_ & Hb & Ha).
    destruct (decide (Z.of_nat i < index)).
    + rewrite (Hb i r) in E; done.
    + rewrite (Ha i r) in E; [done|lia|done].
Qed.
End replace.

(** ** Theorems *)

(** [TrySimpleReplace] replaces the record with the key, in its place and leaving every
    other record, the links and the height alone, exactly when the node is a leaf, holds a record
    with the key, and the new record fits into the space of the old one and the free
    space; otherwise the node is unchanged and the caller is told so. *)
Theorem TrySimpleReplace_correct bt P rank cmp recs node key record kl recordLen k :
  KeyCompare P rank cmp -> node_holds (nodeSize bt) recs node ->
  Forall P recs -> P key -> keys_sorted rank recs -> kind node = Ok k ->
  KeyLength bt key 0 = Ok kl -> 0 <= kl ->
  Z.of_nat (size_of_length bt) + kl <= Z.of_nat (length key) ->
  Z.of_nat (size_of_length bt) <= recordLen <= Z.of_nat (length record) ->
  space_needed bt kl recordLen < 65536 ->
  exists ok node', TrySimpleReplace bt cmp node key record recordLen = Ok (ok, node') /\ same_links node node' /\
    (ok = true <-> k = kBTLeafNode /\ exists i r, replaceable bt rank recs key kl recordLen i r) /\
    (ok = true -> exists i r r', replaceable bt rank recs key kl recordLen i r /\
       replaced bt key record kl recordLen r r' /\ node_holds (nodeSize bt) (<[i := r']> recs) node') /\
    (ok = false -> node' = node).
Proof.
  intros HK Hh HP Hkey Hs Hk Hkl Hkl0 Hkeylen Hrec Hsp.
  destruct (decide (k = kBTLeafNode)) as [->|Hne].
  - destruct (TrySimpleReplace_leaf bt P rank cmp recs node key record kl recordLen) as (ok & node' & ? & ? & ? & ? & ?);
      [done..|]. exists ok, node'. split_and!; [done|done| |done|done]. tauto.
  - exists false, node. unfold TrySimpleReplace. rewrite Hk. cbn [mbind outcome_bind].
    destruct (Z.eqb_spec k kBTLeafNode); [done|]. split_and!; try done. split; [done|]. by intros [? _].
Qed.

Lemma sample_present : catalog_key_plus (sample_key 99).
Proof. repeat constructor; try (vm_compute; done || (intros; discriminate)). Qed.

Lemma TrySimpleReplace_witness :
  exists ok node', TrySimpleReplace sample_tree CompareExtendedCatalogKeys sample_node (sample_key 99)
      [9; 9; 9; 9; 9; 9] 6 = Ok (ok, node') /\ same_links sample_node node' /\
    (ok = true <-> kBTLeafNode = kBTLeafNode /\
       exists i r, replaceable sample_tree catalog_rank_plus sample_records (sample_key 99) 8 6 i r) /\
    (ok = true -> exists i r r', replaceable sample_tree catalog_rank_plus sample_records (sample_key 99) 8 6 i r /\
       replaced sample_tree (sample_key 99) [9; 9; 9; 9; 9; 9] 8 6 r r' /\
       node_holds (nodeSize sample_tree) (<[i := r']> sample_records) node') /\
    (ok = false -> node' = sample_node).
Proof.
  apply (TrySimpleReplace_correct sample_tree catalog_key_plus catalog_rank_plus CompareExtendedCatalogKeys
           sample_records sample_node (sample_key 99) [9; 9; 9; 9; 9; 9] 8 6 kBTLeafNode);
    [apply _|apply sample_node_holds|apply sample_keys_ok|apply sample_present|apply sample_sorted
    |vm_compute; reflexivity|vm_compute; reflexivity|compute_bounds..].
Defined.

Lemma VerifyHeader_witness :
  VerifyHeader 2048 (header_of sample_bt) = noErr <->
  (exists k, 0 <= k <= 6 /\ h_nodeSize (header_of sample_bt) = 512 * 2 ^ k) /\
  2048 = h_totalNodes (header_of sample_bt) * h_nodeSize (header_of sample_bt) /\
  h_freeNodes (header_of sample_bt) < h_totalNodes (header_of sample_bt) /\
  h_rootNode (header_of sample_bt) < h_totalNodes (header_of sample_bt) /\
  h_firstLeafNode (header_of sample_bt) < h_totalNodes (header_of sample_bt) /\
  h_lastLeafNode (header_of sample_bt) < h_totalNodes (header_of sample_bt) /\
  h_treeDepth (header_of sample_bt) <= 16 /\
  (h_btreeType (header_of sample_bt) = 0 \/ h_btreeType (header_of sample_bt) = 128 \/
   h_btreeType (header_of sample_bt) = 255).
Proof. apply (VerifyHeader_correct 2048 (header_of sample_bt)). simpl. lia. Defined.

Section update_header_theorem.
Context {W : Type} `{!FSAgent W} (contents : W -> Z -> buffer) (size : Z)
  `{!FSAgentLaws W size contents}.

(** [UpdateHeader] writes nothing when the header is clean; when it is dirty the header
    record of node 0 holds afterwards exactly the fields of the control block, the other
    records, the links and all other nodes are untouched, and the header is clean. *)
Theorem UpdateHeader_correct s hdr rest force :
  header_node contents size s hdr rest -> widths_ok (btree s) -> size = nodeSize (btree s) -> 64 <= size ->
  Z.even size = true -> fcbEOF (agent s) < 2 ^ 32 * size ->
  (TreeIsDirty (btree s) = 0 -> UpdateHeader s force = Ok (noErr, s)) /\
  (TreeIsDirty (btree s) <> 0 ->
   exists s' hdr', UpdateHeader s force = Ok (noErr, s') /\
    header_at (contents (agent s') 0) sizeof_BTNodeDescriptor = header_of (btree s) /\
    length hdr' = 106%nat /\ node_holds size (hdr' :: rest) (contents (agent s') 0) /\
    same_links (contents (agent s) 0) (contents (agent s') 0) /\
    (forall n, n <> 0 -> contents (agent s') n = contents (agent s) n) /\
    TreeIsDirty (btree s') = 0).
Proof using FSAgentLaws0.
  intros Hn Hw Hsz H64 Heven HEOF. unfold TreeIsDirty. split; intros Hd.
  - unfold UpdateHeader. rewrite Hd. done.
  - destruct (UpdateHeader_spec contents size s hdr rest force Hn Hw Hsz H64 Heven HEOF Hd)
      as (s' & hdr' & ? & ? & ? & ? & ? & ? & Hf).
    exists s', hdr'. split_and!; try done. rewrite Hf. rewrite <- Z.land_assoc, (Z.land_comm (Z.lnot _)).
    rewrite Z.land_lnot_diag. apply Z.land_0_r.
Qed.
End update_header_theorem.


(** The sample tree with a header that is dirty. *)
Definition dirty_bt : BTreeControlBlock := mkBTree 0 1 1 0 1 1 512 516 4 2 kBTHeaderDirty 6 0 0 0 0 0 0 0 0 0.
Definition dirty_fs : fs file_agent := mkFs dirty_bt 0 (mkFile {[0 := sample_header]} 2048).

Lemma dirty_header : header_node file_contents file_size dirty_fs (replicate 106 0) [replicate 128 0; sample_map].
Proof.
  split; [|apply (bool_decide_unpack _); vm_compute; done|apply sample_holds|done].
  repeat split; vm_compute; done || (intros ?; discriminate).
Qed.

Lemma UpdateHeader_witness :
  (TreeIsDirty dirty_bt = 0 -> UpdateHeader dirty_fs true = Ok (noErr, dirty_fs)) /\
  (TreeIsDirty dirty_bt <> 0 ->
   exists s' hdr', UpdateHeader dirty_fs true = Ok (noErr, s') /\
    header_at (file_contents (agent s') 0) sizeof_BTNodeDescriptor = header_of dirty_bt /\
    length hdr' = 106%nat /\
    node_holds file_size (hdr' :: [replicate 128 0; sample_map]) (file_contents (agent s') 0) /\
    same_links (file_contents (agent dirty_fs) 0) (file_contents (agent s') 0) /\
    (forall n, n <> 0 -> file_contents (agent s') n = file_contents (agent dirty_fs) n) /\
    TreeIsDirty (btree s') = 0).
Proof.
  apply (UpdateHeader_correct file_contents file_size dirty_fs (replicate 106 0) [replicate 128 0; sample_map] true);
    [apply dirty_header|split; simpl; lia|reflexivity|compute_bounds|reflexivity|compute_bounds].
Defined.

(** The size of key and record is computed at 16 bits: a record of 65530 bytes passes the
    check of the size limit of half a node. *)
Theorem CheckInsertParams_wraps record :
  CheckInsertParams (Some (Some sample_tree)) (Some (sample_key 98)) (Some record) 65530 = Ok noErr.
Proof. vm_compute. reflexivity. Qed.
