(* ===== verification/BTreeTree.v ===== *)
(** * Multi-node operations (hfsplus/hfscommon/BTree/BTreeTreeOps.c)

    [SearchTree], [InsertTree], [DeleteTree] and the routines below them.  A node in use is
    the value in its [NodeRec]; pointers to a key or to record data are the bytes they point
    at, which no routine changes while the pointer is in use.  [Panic] and [PanicIf] print a
    message ([DebugStr] of hfs_macos_stubs.c) and go on, [ModifyBlockStart] is empty without
    the journal of Darwin: neither appears here. *)
From S2P Require Import Prelude Bytes UnicodeCompare BTreeNode BTreeBlocks BTreeMap.

Definition btBadNode : Z := ERR_BASE + 36.
Definition fsBTEmptyErr : Z := ERR_BASE + 0x030A.
Definition fsBTBadRotateErr : Z := ERR_BASE + 64.
Definition kMaxDepthEntries : nat := 16.
Definition kInsertRecord : bool := false.
Definition kReplaceRecord : bool := true.

(** ** The tree path table, an array of [kMaxTreeDepth] entries *)

Record TreePathRecord := mkPath { tp_node : Z; tp_index : Z }.
Abbreviation TreePathTable := (list TreePathRecord).

Definition path_at (t : TreePathTable) (level : Z) : outcome TreePathRecord := array_at t level.
Definition set_path (t : TreePathTable) (level : Z) (r : TreePathRecord) : outcome TreePathTable :=
  if (0 <=? level) && (level <? Z.of_nat (length t)) then Ok (<[Z.to_nat level := r]> t) else Fault.
Definition set_path_node (t : TreePathTable) (level n : Z) : outcome TreePathTable :=
  r ← path_at t level; set_path t level (mkPath n (tp_index r)).
Definition set_path_index (t : TreePathTable) (level i : Z) : outcome TreePathTable :=
  r ← path_at t level; set_path t level (mkPath (tp_node r) i).

(** ** Assignments to the control block and to node descriptors *)

Definition put_tree (b : BTreeControlBlock) (depth root first last flg : Z) : BTreeControlBlock :=
  mkBTree (btreeType b) depth root (leafRecords b) first last (nodeSize b)
    (maxKeyLength b) (totalNodes b) (freeNodes b) flg (attributes b) (writeCount b)
    (numGetNodes b) (numGetNewNodes b) (numReleaseNodes b) (numUpdateNodes b) (numMapNodesRead b)
    (numHintChecks b) (numPossibleHints b) (numValidHints b).
Definition set_treeDepth (b : BTreeControlBlock) (d : Z) : BTreeControlBlock :=
  put_tree b d (rootNode b) (firstLeafNode b) (lastLeafNode b) (flags b).
Definition set_rootNode (b : BTreeControlBlock) (n : Z) : BTreeControlBlock :=
  put_tree b (treeDepth b) n (firstLeafNode b) (lastLeafNode b) (flags b).
Definition set_firstLeafNode (b : BTreeControlBlock) (n : Z) : BTreeControlBlock :=
  put_tree b (treeDepth b) (rootNode b) n (lastLeafNode b) (flags b).
Definition set_lastLeafNode (b : BTreeControlBlock) (n : Z) : BTreeControlBlock :=
  put_tree b (treeDepth b) (rootNode b) (firstLeafNode b) n (flags b).
Definition M_BTreeHeaderDirty (b : BTreeControlBlock) : BTreeControlBlock :=
  put_tree b (treeDepth b) (rootNode b) (firstLeafNode b) (lastLeafNode b) (Z.lor (flags b) kBTHeaderDirty).

Definition set_fLink (node : buffer) (n : Z) : outcome buffer := store32 node 0 n.
Definition set_bLink (node : buffer) (n : Z) : outcome buffer := store32 node 4 n.
Definition set_kind (node : buffer) (k : Z) : outcome buffer := store8 node 8 (u8 k).
Definition set_height (node : buffer) (h : Z) : outcome buffer := store8 node 9 (u8 h).

(** The bytes from an offset into a node on. *)
Definition from_offset (node : buffer) (offset : Z) : outcome buffer :=
  if (0 <=? offset) && (offset <=? Z.of_nat (length node)) then Ok (drop (Z.to_nat offset) node) else Fault.

Definition GetKeyLength (b : BTreeControlBlock) (key : buffer) (forLeafNode : bool) : outcome Z :=
  if forLeafNode || negb (Z.land (attributes b) kBTVariableIndexKeysMask =? 0) then KeyLength b key 0
  else Ok (maxKeyLength b).

(** The address of the first record of a node. *)
Definition first_key (b : BTreeControlBlock) (node : buffer) : outcome buffer :=
  p ← GetRecordAddress b node 0; from_offset node p.

Record InsertKey := mkInsertKey {
  ik_keyPtr : buffer;
  ik_recPtr : buffer;
  ik_keyLength : Z;
  ik_recSize : Z;
  ik_replacingKey : bool;
  ik_skipRotate : bool
}.

(** ** Rotation *)

Definition RotateRecordLeft (b : BTreeControlBlock) (leftNode rightNode : buffer)
    : outcome (bool * buffer * buffer) :=
  size ← GetRecordSize b rightNode 0;
  recPtr ← first_key b rightNode;
  n ← numRecords leftNode;
  '(recordFit, leftNode) ← InsertRecord b leftNode n recPtr size;
  if negb recordFit then Ok (false, leftNode, rightNode)
  else
    rightNode ← DeleteRecord b rightNode 0;
    Ok (true, leftNode, rightNode).

(** The search for the balance point; the result: sizes, size of the last move, index. *)
Fixpoint balance_loop (fuel : nat) (b : BTreeControlBlock) (rightNode : buffer) (rightInsertIndex insertSize : Z)
    (leftSize rightSize moveSize moveIndex : Z) : outcome (Z * Z * Z * Z) :=
  match fuel with
  | O => Diverge
  | S fuel =>
      if leftSize <? rightSize then
        moveSize ← (if moveIndex <? rightInsertIndex then
                      n ← GetRecordSize b rightNode moveIndex; Ok (n + 2)
                    else if moveIndex =? rightInsertIndex then Ok insertSize
                    else n ← GetRecordSize b rightNode (moveIndex - 1); Ok (n + 2));
        balance_loop fuel b rightNode rightInsertIndex insertSize
          (leftSize + moveSize) (rightSize - moveSize) moveSize (u16 (moveIndex + 1))
      else Ok (leftSize, rightSize, moveSize, moveIndex)
  end.

(** What [RotateLeft] reports: [*insertIndex], [*insertNodeNum], [*recordFit], [*recsRotated]. *)
Record Rotation := mkRotation {
  ro_insertIndex : Z; ro_insertNodeNum : Z; ro_recordFit : bool; ro_recsRotated : Z
}.
Definition no_rotation : Rotation := mkRotation 0 0 false 0.

(** The rounds from [index] to [moveIndex]; [None] is [goto ErrorExit]. *)
Fixpoint rotate_loop (n : nat) (b : BTreeControlBlock) (leftNode rightNode : buffer) (index rightInsertIndex : Z)
    (keyPtr : buffer) (keyLength : Z) (recPtr : buffer) (recSize : Z) (ins : Z * Z)
    : outcome (option (Z * Z) * buffer * buffer) :=
  match n with
  | O => Ok (Some ins, leftNode, rightNode)
  | S n =>
      if index =? rightInsertIndex then
        leftInsertIndex ← numRecords leftNode;
        '(didItFit, leftNode) ← InsertKeyRecord b leftNode leftInsertIndex keyPtr keyLength recPtr recSize;
        if negb didItFit then Ok (None, leftNode, rightNode)
        else
          num ← bLink rightNode;
          rotate_loop n b leftNode rightNode (index + 1) rightInsertIndex keyPtr keyLength recPtr recSize
            (leftInsertIndex, num)
      else
        '(didItFit, leftNode, rightNode) ← RotateRecordLeft b leftNode rightNode;
        if negb didItFit then Ok (None, leftNode, rightNode)
        else rotate_loop n b leftNode rightNode (index + 1) rightInsertIndex keyPtr keyLength recPtr recSize ins
  end.

Definition insert_size (b : BTreeControlBlock) (keyLength recSize : Z) : Z :=
  let insertSize := keyLength + (if big_keys b then 2 else 1) + recSize + 2 in
  if Z.odd insertSize then insertSize + 1 else insertSize.

(** Every move takes at least two bytes from one side to the other. *)
Definition RotateLeft (b : BTreeControlBlock) (leftNode rightNode : buffer) (rightInsertIndex : Z)
    (keyPtr recPtr : buffer) (recSize : Z) : outcome (Z * Rotation * buffer * buffer) :=
  k ← kind rightNode;
  keyLength ← GetKeyLength b keyPtr (k =? kBTLeafNode);
  let insertSize := insert_size b keyLength recSize in
  rightFree ← GetNodeFreeSize b rightNode;
  leftFree ← GetNodeFreeSize b leftNode;
  let rightSize := nodeSize b - rightFree + insertSize in
  let leftSize := nodeSize b - leftFree in
  '(leftSize, rightSize, moveSize, moveIndex) ←
    balance_loop (S (Z.to_nat (rightSize - leftSize))) b rightNode rightInsertIndex insertSize
      leftSize rightSize 0 0;
  let '(rightSize, moveIndex) :=
    if nodeSize b <? leftSize then (rightSize + moveSize, u16 (moveIndex - 1)) else (rightSize, moveIndex) in
  if nodeSize b <? rightSize then Ok (noErr, no_rotation, leftNode, rightNode)
  else
    '(ins, leftNode, rightNode) ←
      rotate_loop (Z.to_nat moveIndex) b leftNode rightNode 0 rightInsertIndex keyPtr keyLength recPtr recSize (0, 0);
    match ins with
    | None => Ok (fsBTBadRotateErr, no_rotation, leftNode, rightNode)
    | Some (insertIndex, insertNodeNum) =>
        if moveIndex <=? rightInsertIndex then
          let rightInsertIndex := u16 (rightInsertIndex - moveIndex) in
          '(didItFit, rightNode) ← InsertKeyRecord b rightNode rightInsertIndex keyPtr keyLength recPtr recSize;
          if negb didItFit then Ok (fsBTBadRotateErr, no_rotation, leftNode, rightNode)
          else
            num ← fLink leftNode;
            Ok (noErr, mkRotation rightInsertIndex num true moveIndex, leftNode, rightNode)
        else Ok (noErr, mkRotation insertIndex insertNodeNum true moveIndex, leftNode, rightNode)
    end.

Section tree_ops.
Context {W : Type} `{!FSAgent W}.

(** ** Splitting *)

(** The error exit of [SplitLeft]. *)
Definition split_error (s : fs W) (leftNode rightNode : NodeRec) (err : Z)
    : Z * Rotation * NodeRec * NodeRec * fs W :=
  let '(_, leftNode, s) := ReleaseNode s leftNode in
  let '(_, rightNode, s) := ReleaseNode s rightNode in
  (err, no_rotation, leftNode, rightNode, s).

(** The checks of the two siblings. *)
Definition split_siblings_ok (leftBuf : option buffer) (rightBuf : buffer) (rightNodeNum : Z) : outcome bool :=
  rh ← height rightBuf;
  rk ← kind rightBuf;
  if (rh =? 1) && negb (rk =? kBTLeafNode) then Ok false
  else
    match leftBuf with
    | None => Ok true
    | Some leftBuf =>
        fl ← fLink leftBuf;
        lh ← height leftBuf;
        lk ← kind leftBuf;
        Ok ((fl =? rightNodeNum) && (lh =? rh) && (lk =? rk))
    end.

(** The new left node takes over the links of the right one: fields of [leftBuf] and
    [rightBuf], and whether this is a new first leaf. *)
Definition split_links (leftBuf rightBuf : buffer) (rightNodeNum newNodeNum : Z) : outcome (buffer * buffer * bool) :=
  leftBuf ← set_fLink leftBuf rightNodeNum;
  bl ← bLink rightBuf;
  leftBuf ← set_bLink leftBuf bl;
  k ← kind rightBuf;
  leftBuf ← set_kind leftBuf k;
  h ← height rightBuf;
  leftBuf ← set_height leftBuf h;
  rightBuf ← set_bLink rightBuf newNodeNum;
  lk ← kind leftBuf;
  lb ← bLink leftBuf;
  Ok (leftBuf, rightBuf, (lk =? kBTLeafNode) && (lb =? 0)).

Definition SplitLeft (s : fs W) (leftNode rightNode : NodeRec) (rightNodeNum index : Z)
    (keyPtr recPtr : buffer) (recSize : Z) : outcome (Z * Rotation * NodeRec * NodeRec * fs W) :=
  rightBuf ← of_option (nodeBuffer rightNode);
  ok ← split_siblings_ok (nodeBuffer leftNode) rightBuf rightNodeNum;
  if negb ok then Ok (fsBTInvalidNodeErr, no_rotation, leftNode, rightNode, s)
  else
    '(err, newNodeNum, s) ← AllocateNode s;
    if negb (err =? noErr) then Ok (split_error s leftNode rightNode err)
    else
      '(err, leftNode, s) ←
        match nodeBuffer leftNode with
        | Some leftBuf => leftBuf ← set_fLink leftBuf newNodeNum; UpdateNode s (set_buffer leftNode leftBuf) kLockTransaction
        | None => Ok (noErr, leftNode, s)
        end;
      if negb (err =? noErr) then Ok (split_error s leftNode rightNode err)
      else
        '(err, leftNode, s) ← GetNewNode s newNodeNum leftNode;
        if negb (err =? noErr) then Ok (split_error s leftNode rightNode err)
        else
          leftBuf ← of_option (nodeBuffer leftNode);
          '(leftBuf, rightBuf, firstLeaf) ← split_links leftBuf rightBuf rightNodeNum newNodeNum;
          let s := if firstLeaf : bool
                   then with_tree s (M_BTreeHeaderDirty (set_firstLeafNode (btree s) newNodeNum)) else s in
          '(err, ro, leftBuf, rightBuf) ← RotateLeft (btree s) leftBuf rightBuf index keyPtr recPtr recSize;
          let leftNode := set_buffer leftNode leftBuf in
          let rightNode := set_buffer rightNode rightBuf in
          if negb (err =? noErr) then Ok (split_error s leftNode rightNode err)
          else Ok (noErr, ro, leftNode, rightNode, s).

Definition AddNewRootNode (s : fs W) (leftNode rightNode : buffer) : outcome (Z * fs W) :=
  '(err, rootNum, s) ← AllocateNode s;
  if negb (err =? noErr) then Ok (err, s)
  else
    '(err, rootRec, s) ← GetNewNode s rootNum (mkNodeRec None None 0 false);
    if negb (err =? noErr) then Ok (err, s)
    else
      root ← of_option (nodeBuffer rootRec);
      root ← set_kind root kBTIndexNode;
      let s := with_tree s (set_treeDepth (btree s) (u16 (treeDepth (btree s) + 1))) in
      root ← set_height root (treeDepth (btree s));
      keyPtr ← first_key (btree s) leftNode;
      keyLength ← GetKeyLength (btree s) keyPtr false;
      recPtr ← from_offset rightNode 4;
      '(_, root) ← InsertKeyRecord (btree s) root 0 keyPtr keyLength recPtr 4;
      keyPtr ← first_key (btree s) rightNode;
      keyLength ← GetKeyLength (btree s) keyPtr false;
      recPtr ← from_offset leftNode 0;
      '(_, root) ← InsertKeyRecord (btree s) root 1 keyPtr keyLength recPtr 4;
      '(err, rootRec, s) ← UpdateNode s (set_buffer rootRec root) kLockTransaction;
      if negb (err =? noErr) then Ok (err, s)
      else Ok (noErr, with_tree s (M_BTreeHeaderDirty (set_rootNode (btree s) rootNum))).

(** ** Insertion *)

(** What [InsertNode] leaves in its reference parameters. *)
Record Insertion := mkInsertion {
  in_right : NodeRec;
  in_left : NodeRec;
  in_newNode : Z;
  in_newIndex : Z;
  in_updateParent : bool;
  in_insertParent : bool;
  in_rootSplit : bool
}.

Definition insert_error (s : fs W) (i : Insertion) (err : Z) : Z * Insertion * fs W :=
  let '(_, leftNode, s) := ReleaseNode s (in_left i) in
  (err, mkInsertion (in_right i) leftNode (in_newNode i) (in_newIndex i)
          (in_updateParent i) (in_insertParent i) (in_rootSplit i), s).

(** "Try Split Left" *)
Definition insert_split (s : fs W) (key : InsertKey) (node index : Z) (i : Insertion)
    : outcome (Z * Insertion * fs W) :=
  '(err, ro, leftNode, rightNode, s) ←
    SplitLeft s (in_left i) (in_right i) node index (ik_keyPtr key) (ik_recPtr key) (ik_recSize key);
  let err := s16 err in
  let i' := mkInsertion rightNode leftNode (ro_insertNodeNum ro) (ro_insertIndex ro) (in_updateParent i) in
  if negb (err =? noErr) then Ok (insert_error s (i' (in_insertParent i) false) err)
  else
    rightBuf ← of_option (nodeBuffer rightNode);
    leftBuf ← of_option (nodeBuffer leftNode);
    h ← height rightBuf;
    if h =? treeDepth (btree s) then
      '(err, s) ← AddNewRootNode s leftBuf rightBuf;
      let err := s16 err in
      if negb (err =? noErr) then Ok (insert_error s (i' (in_insertParent i) false) err)
      else Ok (noErr, i' (in_insertParent i) true, s)
    else
      let update := in_updateParent i || ik_replacingKey key || (1 <? ro_recsRotated ro) || (0 <? index) in
      Ok (noErr, mkInsertion rightNode leftNode (ro_insertNodeNum ro) (ro_insertIndex ro) update true false, s).

(** "Try Rotate Left", with the left sibling in hand; then the split. *)
Definition insert_rotate (s : fs W) (key : InsertKey) (node index : Z) (i : Insertion)
    : outcome (Z * Insertion * fs W) :=
  if ik_skipRotate key then insert_split s key node index i
  else
    leftBuf ← of_option (nodeBuffer (in_left i));
    rightBuf ← of_option (nodeBuffer (in_right i));
    '(err, ro, leftBuf, rightBuf) ← RotateLeft (btree s) leftBuf rightBuf index (ik_keyPtr key) (ik_recPtr key) (ik_recSize key);
    let i' := mkInsertion (set_buffer (in_right i) rightBuf) (set_buffer (in_left i) leftBuf)
                (ro_insertNodeNum ro) (ro_insertIndex ro) in
    if negb (err =? noErr) then Ok (insert_error s (i' (in_updateParent i) (in_insertParent i) false) (s16 err))
    else if ro_recordFit ro then
      let update := in_updateParent i || ik_replacingKey key || (1 <? ro_recsRotated ro) || (0 <? index) in
      Ok (noErr, i' update (in_insertParent i) false, s)
    else insert_split s key node index (i' (in_updateParent i) (in_insertParent i) false).

Definition InsertNode (s : fs W) (key : InsertKey) (rightNode : NodeRec) (node index : Z)
    (newNode newIndex : Z) (leftNode : NodeRec) (updateParent insertParent : bool)
    : outcome (Z * Insertion * fs W) :=
  rightBuf ← of_option (nodeBuffer rightNode);
  leftNodeNum ← bLink rightBuf;
  let inLeft := node =? leftNodeNum in
  target ← of_option (nodeBuffer (if inLeft then leftNode else rightNode));
  '(recordFit, target) ←
    InsertKeyRecord (btree s) target index (ik_keyPtr key) (ik_keyLength key) (ik_recPtr key) (ik_recSize key);
  let leftNode := if inLeft then set_buffer leftNode target else leftNode in
  let rightNode := if inLeft then rightNode else set_buffer rightNode target in
  if recordFit : bool then
    h ← height target;
    let update := updateParent || ((index =? 0) && negb (h =? treeDepth (btree s))) in
    Ok (noErr, mkInsertion rightNode leftNode node index update insertParent false, s)
  else
    let i := mkInsertion rightNode leftNode newNode newIndex updateParent insertParent false in
    if 0 <? leftNodeNum then
      match nodeBuffer leftNode with
      | Some _ => insert_rotate s key node index i
      | None =>
          '(err, leftNode, s) ← GetNode s leftNodeNum leftNode;
          let i := mkInsertion rightNode leftNode newNode newIndex updateParent insertParent false in
          if negb (s16 err =? noErr) then Ok (insert_error s i (s16 err))
          else insert_rotate s key node index i
      end
    else insert_split s key node index i.

(** The key and data of the record at [index] of the parent, for the comparison that
    prints a message only: an index out of range leaves the pointer undefined. *)
Definition parent_pointer (b : BTreeControlBlock) (parent : buffer) (index : Z) : outcome Z :=
  r ← GetRecordByIndex b parent index;
  match r with
  | inl _ => Fault
  | inr (_, data, _) => load32 parent data
  end.

Definition level_error (s : fs W) (targetNode leftNode : NodeRec) (err insertNode : Z) (t : TreePathTable)
    : Z * Z * NodeRec * TreePathTable * fs W :=
  let '(_, targetNode, s) := ReleaseNode s targetNode in
  let '(_, leftNode, s) := ReleaseNode s leftNode in
  (err, insertNode, targetNode, t, s).

(** Both nodes are done with. *)
Definition level_finish (s : fs W) (targetNode leftNode : NodeRec) (insertNode : Z) (t : TreePathTable)
    : outcome (Z * Z * NodeRec * TreePathTable * fs W) :=
  '(err, targetNode, s) ← UpdateNode s targetNode kLockTransaction;
  if negb (err =? noErr) then Ok (level_error s targetNode leftNode err insertNode t)
  else
    '(err, leftNode, s) ← UpdateNode s leftNode kLockTransaction;
    if negb (err =? noErr) then Ok (level_error s targetNode leftNode err insertNode t)
    else Ok (noErr, insertNode, targetNode, t, s).

(** The keys for the parent: the new key of the target, with the record of the parent at
    [index] deleted, and the key of the new left node. *)
Definition update_key (b : BTreeControlBlock) (target : buffer) (targetNodeNum : Z) (skipRotate : bool)
    : outcome InsertKey :=
  keyPtr ← first_key b target;
  keyLength ← GetKeyLength b keyPtr false;
  Ok (mkInsertKey keyPtr (le_encode 4 targetNodeNum) keyLength 4 kReplaceRecord skipRotate).
Definition insert_key (b : BTreeControlBlock) (leftBuf target : buffer) : outcome InsertKey :=
  keyPtr ← first_key b leftBuf;
  keyLength ← GetKeyLength b keyPtr false;
  recPtr ← from_offset target 4;
  Ok (mkInsertKey keyPtr recPtr keyLength 4 kInsertRecord false).

Definition parent_keys (b : BTreeControlBlock) (i : Insertion) (targetNodeNum index : Z) (primaryKey : InsertKey)
    (parent : buffer) : outcome (buffer * InsertKey * option InsertKey) :=
  target ← of_option (nodeBuffer (in_right i));
  '(parent, primaryKey) ←
    (if in_updateParent i then
       _ ← parent_pointer b parent index;
       parent ← DeleteRecord b parent index;
       k ← update_key b target targetNodeNum (in_insertParent i);
       Ok (parent, k)
     else Ok (parent, primaryKey));
  if in_insertParent i then
    leftBuf ← of_option (nodeBuffer (in_left i));
    k ← insert_key b leftBuf target;
    Ok (if in_updateParent i then (parent, primaryKey, Some k) else (parent, k, None))
  else Ok (parent, primaryKey, None).

(** [level] grows with every call and indexes the path table, so a fuel of one more than
    the table has entries is enough. *)
Fixpoint InsertLevel (fuel : nat) (s : fs W) (t : TreePathTable) (primaryKey : InsertKey)
    (secondaryKey : option InsertKey) (targetNode : NodeRec) (index level insertNode : Z)
    : outcome (Z * Z * NodeRec * TreePathTable * fs W) :=
  match fuel with
  | O => Diverge
  | S fuel =>
      p ← path_at t level;
      let targetNodeNum := tp_node p in
      '(err, i, s) ← InsertNode s primaryKey targetNode targetNodeNum index 0 0
                       (mkNodeRec None None 0 false) false false;
      if negb (err =? noErr) then Ok (level_error s (in_right i) (in_left i) err insertNode t)
      else
        t ← (if in_rootSplit i then set_path t (level + 1) (mkPath (rootNode (btree s)) 1) else Ok t);
        let insertNode := if level =? 1 then in_newNode i else insertNode in
        '(err, i, s) ←
          match secondaryKey with
          | None => Ok (noErr, i, s)
          | Some k => InsertNode s k (in_right i) (in_newNode i) (in_newIndex i) (in_newNode i) (in_newIndex i)
                        (in_left i) (in_updateParent i) (in_insertParent i)
          end;
        if negb (err =? noErr) then Ok (level_error s (in_right i) (in_left i) err insertNode t)
        else if in_insertParent i || in_updateParent i then
          let level := level + 1 in
          p ← path_at t level;
          '(err, parentNode, s) ← GetNode s (tp_node p) (mkNodeRec None None 0 false);
          if negb (err =? noErr) then Ok (level_error s (in_right i) (in_left i) err insertNode t)
          else
            parent ← of_option (nodeBuffer parentNode);
            '(parent, primaryKey, secondaryKey) ←
              parent_keys (btree s) i targetNodeNum (tp_index p) primaryKey parent;
            '(err, insertNode, _, t, s) ←
              InsertLevel fuel s t primaryKey secondaryKey (set_buffer parentNode parent) (tp_index p) level insertNode;
            if negb (err =? noErr) then Ok (level_error s (in_right i) (in_left i) err insertNode t)
            else level_finish s (in_right i) (in_left i) insertNode t
        else level_finish s (in_right i) (in_left i) insertNode t
  end.

Definition InsertTree (s : fs W) (t : TreePathTable) (keyPtr recPtr : buffer) (recSize : Z)
    (targetNode : NodeRec) (index level : Z) (replacingKey : bool) (insertNode : Z)
    : outcome (Z * Z * NodeRec * TreePathTable * fs W) :=
  keyLength ← GetKeyLength (btree s) keyPtr (level =? 1);
  InsertLevel (S kMaxDepthEntries) s t (mkInsertKey keyPtr recPtr keyLength recSize replacingKey false) None
    targetNode index level insertNode.

(** ** Search *)

Section search_tree.
Context (keyCompareProc : buffer -> buffer -> outcome Z).

Record Found := mkFound { f_nodeNum : Z; f_node : NodeRec; f_index : Z; f_path : TreePathTable }.

(** [ErrorExit] *)
Definition search_error (nodePtr : NodeRec) (t : TreePathTable) : Found := mkFound 0 (nil_node nodePtr) 0 t.

(** The kind a node must have on a level. *)
Definition expected_kind (level : Z) : Z := if level =? 1 then kBTLeafNode else kBTIndexNode.

(** A node is given up unless its height is the level, which falls with every round. *)
Fixpoint search_tree_loop (fuel : nat) (s : fs W) (searchKey : buffer) (t : TreePathTable) (nodePtr : NodeRec)
    (level curNodeNum : Z) : outcome (Z * Found * fs W) :=
  match fuel with
  | O => Diverge
  | S fuel =>
      if curNodeNum =? 0 then Ok (btBadNode, search_error nodePtr t, s)
      else
        '(err, nodeRec, s) ← GetNode s curNodeNum (mkNodeRec None None 0 false);
        if negb (err =? noErr) then Ok (err, search_error nodePtr t, s)
        else
          b ← of_option (nodeBuffer nodeRec);
          h ← height b;
          nodeKind ← kind b;
          if negb (h =? level) || negb (nodeKind =? expected_kind level) then
            let '(_, _, s) := ReleaseNode s nodeRec in
            Ok (btBadNode, search_error nodePtr t, s)
          else
            '(keyFound, index) ← SearchNode (btree s) keyCompareProc b searchKey;
            t ← set_path_node t level curNodeNum;
            if nodeKind =? kBTLeafNode then
              t ← set_path_index t level index;
              Ok (if keyFound : bool then noErr else fsBTRecordNotFoundErr, mkFound curNodeNum nodeRec index t, s)
            else
              let index := if negb keyFound && negb (index =? 0) then index - 1 else index in
              t ← set_path_index t level index;
              r ← GetRecordByIndex (btree s) b index;
              match r with
              | inl err =>
                  let '(_, _, s) := TrashNode s nodeRec in
                  Ok (err, search_error nodePtr t, s)
              | inr (_, data, _) =>
                  child ← load32 b data;
                  let '(err, _, s) := ReleaseNode s nodeRec in
                  if negb (err =? noErr) then Ok (err, search_error nodePtr t, s)
                  else search_tree_loop fuel s searchKey t nodePtr (level - 1) child
              end
  end.

Definition SearchTree (s : fs W) (searchKey : buffer) (t : TreePathTable) (nodePtr : NodeRec)
    : outcome (Z * Found * fs W) :=
  let level := s16 (treeDepth (btree s)) in
  if level =? 0 then Ok (fsBTEmptyErr, search_error nodePtr t, s)
  else
    t ← set_path t 0 (mkPath 0 0);
    search_tree_loop (S (Z.to_nat level)) s searchKey t nodePtr level (rootNode (btree s)).
End search_tree.

(** ** Deletion *)

(** A round takes one level off the tree. *)
Fixpoint collapse_loop (fuel : nat) (s : fs W) (blockPtr : NodeRec) : outcome (Z * NodeRec * fs W) :=
  match fuel with
  | O => Diverge
  | S fuel =>
      b ← of_option (nodeBuffer blockPtr);
      n ← numRecords b;
      k ← kind b;
      if (1 <? n) || (k =? kBTLeafNode) then Ok (noErr, blockPtr, s)
      else
        let nodeNum := rootNode (btree s) in
        child ← GetChildNodeNum (btree s) b 0;
        let s := with_tree s (set_treeDepth (set_rootNode (btree s) child) (u16 (treeDepth (btree s) - 1))) in
        b ← ClearNode (btree s) b;
        '(err, blockPtr, s) ← UpdateNode s (set_buffer blockPtr b) kLockTransaction;
        if negb (err =? noErr) then Ok (err, blockPtr, s)
        else
          '(err, s) ← FreeNode s nodeNum;
          if negb (err =? noErr) then Ok (err, blockPtr, s)
          else
            '(err, blockPtr, s) ← GetNode s (rootNode (btree s)) blockPtr;
            if negb (err =? noErr) then Ok (err, blockPtr, s)
            else collapse_loop fuel s blockPtr
  end.

Definition collapse_error (s : fs W) (blockPtr : NodeRec) (err : Z) : Z * NodeRec * fs W :=
  let '(_, blockPtr, s) := ReleaseNode s blockPtr in (err, blockPtr, s).

(** There are at most [treeDepth] levels to take off. *)
Definition CollapseTree (s : fs W) (blockPtr : NodeRec) : outcome (Z * NodeRec * fs W) :=
  let originalRoot := rootNode (btree s) in
  '(err, blockPtr, s) ← collapse_loop (S (Z.to_nat (treeDepth (btree s)))) s blockPtr;
  if negb (err =? noErr) then Ok (collapse_error s blockPtr err)
  else
    let s := if negb (rootNode (btree s) =? originalRoot) then with_tree s (M_BTreeHeaderDirty (btree s)) else s in
    '(err, blockPtr, s) ← UpdateNode s blockPtr kLockTransaction;
    if negb (err =? noErr) then Ok (collapse_error s blockPtr err) else Ok (noErr, blockPtr, s).

(** [GetNode] of a sibling, one link set, [UpdateNode]. *)
Definition relink (s : fs W) (sibling : Z) (set_link : buffer -> Z -> outcome buffer) (v : Z) : outcome (Z * fs W) :=
  '(err, siblingNode, s) ← GetNode s sibling (mkNodeRec None None 0 false);
  if negb (err =? noErr) then Ok (err, s)
  else
    b ← of_option (nodeBuffer siblingNode);
    b ← set_link b v;
    '(err, _, s) ← UpdateNode s (set_buffer siblingNode b) kLockTransaction;
    Ok (err, s).

(** The target is empty: its siblings are linked to each other and it is freed. *)
Definition remove_node (s : fs W) (targetNode : NodeRec) (target : buffer) (targetNodeNum : Z)
    : outcome (Z * NodeRec * fs W) :=
  fl ← fLink target;
  bl ← bLink target;
  k ← kind target;
  '(err, s) ←
    (if negb (bl =? 0) then relink s bl set_fLink fl
     else Ok (noErr, if k =? kBTLeafNode then with_tree s (set_firstLeafNode (btree s) fl) else s));
  if negb (err =? noErr) then Ok (err, set_buffer targetNode target, s)
  else
    '(err, s) ←
      (if negb (fl =? 0) then relink s fl set_bLink bl
       else Ok (noErr, if k =? kBTLeafNode then with_tree s (set_lastLeafNode (btree s) bl) else s));
    if negb (err =? noErr) then Ok (err, set_buffer targetNode target, s)
    else
      target ← ClearNode (btree s) target;
      '(err, targetNode, s) ← UpdateNode s (set_buffer targetNode target) kLockTransaction;
      if negb (err =? noErr) then Ok (err, targetNode, s)
      else
        '(err, s) ← FreeNode s targetNodeNum;
        Ok (err, targetNode, s).

Definition delete_error (s : fs W) (targetNode parentNode : NodeRec) (err : Z) : Z * NodeRec * fs W :=
  let '(_, targetNode, s) := ReleaseNode s targetNode in
  let '(_, parentNode, s) := ReleaseNode s parentNode in
  (err, targetNode, s).

(** The target is the root: a tree without a root is empty, a root with one record is
    collapsed. *)
Definition delete_root (s : fs W) (targetNode : NodeRec) : outcome (Z * NodeRec * fs W) :=
  match nodeBuffer targetNode with
  | None => Ok (noErr, targetNode, with_tree s (set_treeDepth (set_rootNode (btree s) 0) 0))
  | Some b =>
      n ← numRecords b;
      if n =? 1 then CollapseTree s targetNode else Ok (noErr, targetNode, s)
  end.

(** [UpdateNode] of the target. *)
Definition delete_finish (s : fs W) (targetNode parentNode : NodeRec) : outcome (Z * NodeRec * fs W) :=
  '(err, targetNode, s) ← UpdateNode s targetNode kLockTransaction;
  if negb (err =? noErr) then Ok (delete_error s targetNode parentNode err) else Ok (noErr, targetNode, s).

(** The fuel as for [InsertLevel].  The parent that [InsertTree] or [DeleteTree] was given is
    released by it. *)
Fixpoint delete_tree (fuel : nat) (s : fs W) (t : TreePathTable) (targetNode : NodeRec) (index level : Z)
    : outcome (Z * NodeRec * fs W) :=
  match fuel with
  | O => Diverge
  | S fuel =>
      let parentNode := mkNodeRec None None 0 false in
      p ← path_at t level;
      let targetNodeNum := tp_node p in
      target ← of_option (nodeBuffer targetNode);
      target ← DeleteRecord (btree s) target index;
      n ← numRecords target;
      '(err, targetNode, s) ←
        (if n =? 0 then remove_node s targetNode target targetNodeNum
         else Ok (noErr, set_buffer targetNode target, s));
      if negb (err =? noErr) then Ok (delete_error s targetNode parentNode err)
      else
        let isRoot := level =? treeDepth (btree s) in
        let deleteRequired := (n =? 0) && negb isRoot in
        let updateRequired := negb (n =? 0) && (index =? 0) && negb isRoot in
        '(err, targetNode, s) ← (if isRoot then delete_root s targetNode else Ok (noErr, targetNode, s));
        if negb (err =? noErr) then Ok (delete_error s targetNode parentNode err)
        else if updateRequired || deleteRequired then
          let level := level + 1 in
          p ← path_at t level;
          let index := tp_index p in
          '(err, parentNode, s) ← GetNode s (tp_node p) parentNode;
          if negb (err =? noErr) then Ok (delete_error s targetNode parentNode err)
          else if updateRequired then
            parent ← of_option (nodeBuffer parentNode);
            _ ← parent_pointer (btree s) parent index;
            parent ← DeleteRecord (btree s) parent index;
            target ← of_option (nodeBuffer targetNode);
            keyPtr ← first_key (btree s) target;
            '(err, _, parentNode, t, s) ←
              InsertTree s t keyPtr (le_encode 4 targetNodeNum) 4 (set_buffer parentNode parent) index level
                kReplaceRecord 0;
            if negb (err =? noErr) then Ok (delete_error s targetNode parentNode err)
            else delete_finish s targetNode parentNode
          else
            '(err, parentNode, s) ← delete_tree fuel s t parentNode index level;
            if negb (err =? noErr) then Ok (delete_error s targetNode parentNode err)
            else delete_finish s targetNode parentNode
        else delete_finish s targetNode parentNode
  end.

Definition DeleteTree (s : fs W) (t : TreePathTable) (targetNode : NodeRec) (index level : Z)
    : outcome (Z * NodeRec * fs W) :=
  delete_tree (S kMaxDepthEntries) s t targetNode index level.
End tree_ops.
