(* ===== verification/BTreeSearch.v ===== *)
(** * Correctness of the search in a tree

    [tree_at] relates the nodes of a file to the leaves of the tree below a node: the
    abstraction is the list of the leaves, each with its records.  [SearchTree] is shown to
    find the place of a key in that list, and to give up on every file that is no tree. *)
From S2P Require Import Prelude Bytes UnicodeCompare BTreeNode BTreeKeys BTreeNodeTheorems BTreeBlocks BTreeMap.
From S2P Require Import BTreeMapTheorems BTreeTree.

(** ** Index records: a key and the number of a node *)

Definition pointer_pos (bt : BTreeControlBlock) (r : buffer) : Z :=
  let s := key_size_at bt r 0 in if Z.odd s then s + 1 else s.
Definition child_of (bt : BTreeControlBlock) (r : buffer) : Z := le_decode (slice r (pointer_pos bt r) 4).
Definition index_record (bt : BTreeControlBlock) (r : buffer) : Prop :=
  (2 <= length r)%nat /\ 0 <= key_size_at bt r 0 /\ pointer_pos bt r + 4 <= Z.of_nat (length r).

Lemma pointer_pos_nonneg bt r : index_record bt r -> 0 <= pointer_pos bt r.
Proof. intros (_ & H & _). unfold pointer_pos. cbv zeta. destruct (Z.odd _); lia. Qed.

(** The pointer of an index record is read where it is. *)
Lemma read_child bt recs node (i : nat) r :
  node_holds (nodeSize bt) recs node -> recs !! i = Some r -> index_record bt r ->
  exists key data n, GetRecordByIndex bt node (Z.of_nat i) = Ok (inr (key, data, n)) /\
    load32 node data = Ok (child_of bt r).
Proof.
  intros Hh Hr Hir. pose proof (pointer_pos_nonneg _ _ Hir). destruct Hir as (Hl & Hk & Hp).
  pose proof (lookup_lt_Some _ _ _ Hr). pose proof (rec_offset_S _ _ _ Hr). pose proof (rec_offset_ge recs i).
  destruct (node_holds_bounds _ _ _ (S i) Hh ltac:(lia)) as (? & ? & ?).
  do 3 eexists. split.
  - apply (GetRecordByIndex_spec bt recs node i r); try done.
    change (pointer_pos bt r <= Z.of_nat (length r)). lia.
  - change (load32 node (rec_offset recs i + pointer_pos bt r) = Ok (child_of bt r)). unfold load32. rewrite get_bytes_ok by lia. simpl. f_equal. unfold child_of. f_equal.
    assert (slice r (pointer_pos bt r) 4 =
      slice (slice node (rec_offset recs i) (Z.of_nat (length r))) (pointer_pos bt r) 4) as ->
      by (by rewrite (slice_record _ _ _ Hh _ _ Hr)).
    by rewrite slice_slice by lia.
Qed.

(** ** Path tables *)

Lemma path_at_ok (t : TreePathTable) (l : nat) p : t !! l = Some p -> path_at t (Z.of_nat l) = Ok p.
Proof.
  intros H. unfold path_at, array_at. rewrite (proj2 (Z.leb_le _ _)) by lia. by rewrite Nat2Z.id, H.
Qed.

Lemma set_path_ok (t : TreePathTable) (l : nat) p : (l < length t)%nat ->
  set_path t (Z.of_nat l) p = Ok (<[l := p]> t).
Proof.
  intros H. unfold set_path. rewrite (proj2 (Z.leb_le _ _)), (proj2 (Z.ltb_lt _ _)) by lia.
  simpl. by rewrite Nat2Z.id.
Qed.

(** [treePathTable\[level\]] assigned in two steps. *)
Lemma set_path_entry (t : TreePathTable) (l : nat) n i : (l < length t)%nat ->
  (t ← set_path_node t (Z.of_nat l) n; set_path_index t (Z.of_nat l) i) = Ok (<[l := mkPath n i]> t).
Proof.
  intros Hl. destruct (lookup_lt_is_Some_2 t l Hl) as [p Hp].
  unfold set_path_node, set_path_index. rewrite (path_at_ok _ _ _ Hp). cbn [mbind outcome_bind].
  rewrite set_path_ok by done. cbn [mbind outcome_bind].
  rewrite (path_at_ok _ l (mkPath n (tp_index p))) by (by apply list_lookup_insert_eq).
  cbn [mbind outcome_bind tp_node]. rewrite set_path_ok by (by rewrite length_insert).
  by rewrite list_insert_insert_eq.
Qed.

(** A leaf: its number and its records. *)
Abbreviation leaf := (Z * list buffer)%type.

Section trees.
Context {W : Type} `{!FSAgent W} (size : Z) (contents : W -> Z -> buffer) `{!FSAgentLaws W size contents}.
Context (P : buffer -> Prop) (rank : buffer -> list Z) (cmp : buffer -> buffer -> outcome Z)
  `{!KeyCompare P rank cmp}.

Definition leaf_records (leaves : list leaf) : list buffer := concat (map snd leaves).

(** Node [n] of the file is a node of the tree on [level]. *)
Record node_ok (s : fs W) (level : nat) (k n : Z) (recs : list buffer) : Prop := {
  no_number : n <> 0;
  no_read : readable size contents s n;
  no_height : height (contents (agent s) n) = Ok (Z.of_nat level);
  no_kind : kind (contents (agent s) n) = Ok k;
  no_holds : node_holds size recs (contents (agent s) n);
  no_keys : Forall P recs;
  no_sorted : keys_sorted rank recs
}.

Inductive tree_at (s : fs W) : nat -> Z -> list leaf -> Prop :=
| tree_leaf n recs :
    node_ok s 1 kBTLeafNode n recs -> tree_at s 1 n [(n, recs)]
| tree_index l n recs parts :
    (1 <= l)%nat -> node_ok s (S l) kBTIndexNode n recs -> recs <> [] -> length parts = length recs ->
    Forall (index_record (btree s)) recs ->
    (forall i r leaves, recs !! i = Some r -> parts !! i = Some leaves ->
       tree_at s l (child_of (btree s) r) leaves) ->
    (forall i r leaves x, recs !! i = Some r -> parts !! i = Some leaves -> x ∈ leaf_records leaves ->
       lex_cmp (rank r) (rank x) <= 0) ->
    (forall i r leaves x, recs !! S i = Some r -> parts !! i = Some leaves -> x ∈ leaf_records leaves ->
       lex_cmp (rank x) (rank r) = -1) ->
    tree_at s (S l) n (concat parts).

Lemma child_of_same b b' r : same_tree b b' -> child_of b' r = child_of b r.
Proof. by intros (? & ? & ? & ? & ? & ? & ? & ? & ->). Qed.
Lemma index_record_same b b' r : same_tree b b' -> index_record b r -> index_record b' r.
Proof. by intros (? & ? & ? & ? & ? & ? & ? & ? & ->). Qed.

Lemma node_ok_same s s' l k n recs : same_fs contents s s' -> node_ok s l k n recs -> node_ok s' l k n recs.
Proof.
  intros Hs []. pose proof Hs as (_ & _ & _ & HC). split; rewrite ?HC; try done. by apply (readable_same _ _ s).
Qed.

Lemma tree_at_same s s' l n leaves : same_fs contents s s' -> tree_at s l n leaves -> tree_at s' l n leaves.
Proof.
  intros Hs. pose proof Hs as (Ht & _). induction 1 as [n recs Hn|l n recs parts Hl Hn Hne Hlen Hix _ IH Hlo Hhi].
  - constructor. by apply (node_ok_same s).
  - econstructor; try done; [by apply (node_ok_same s)| |].
    + eapply Forall_impl; [exact Hix|]. intros. by apply (index_record_same (btree s)).
    + intros i r lv Hr Hp. rewrite (child_of_same (btree s)) by done. by apply (IH i r).
Qed.

(** ** The place of a key *)

(** Record [index] of leaf [n] has the key. *)
Definition at_key (leaves : list leaf) (key : buffer) (n index : Z) : Prop :=
  exists recs r, (n, recs) ∈ leaves /\ recs !! Z.to_nat index = Some r /\ 0 <= index /\
    lex_cmp (rank key) (rank r) = 0.

(** There is no such record; [index] of leaf [n] is where it would go. *)
Definition at_gap (leaves : list leaf) (key : buffer) (n index : Z) : Prop :=
  exists pre recs post, leaves = pre ++ (n, recs) :: post /\ 0 <= index <= Z.of_nat (length recs) /\
    (forall r, r ∈ leaf_records pre ++ take (Z.to_nat index) recs -> lex_cmp (rank key) (rank r) = 1) /\
    (forall r, r ∈ drop (Z.to_nat index) recs ++ leaf_records post -> lex_cmp (rank key) (rank r) = -1).

Definition located (leaves : list leaf) (key : buffer) (err n index : Z) : Prop :=
  err = noErr /\ at_key leaves key n index \/ err = fsBTRecordNotFoundErr /\ at_gap leaves key n index.

Lemma leaf_records_app a b : leaf_records (a ++ b) = leaf_records a ++ leaf_records b.
Proof. unfold leaf_records. by rewrite map_app, concat_app. Qed.

Lemma at_key_part parts i leaves key n index :
  parts !! i = Some leaves -> at_key leaves key n index -> at_key (concat parts) key n index.
Proof.
  intros Hi (recs & r & Hin & Hr & H0 & E). exists recs, r. split_and!; try done.
  apply list_elem_of_In, in_concat. exists leaves. split; apply list_elem_of_In; [by eapply list_elem_of_lookup_2|done].
Qed.

Lemma elem_of_leaf_records x parts : x ∈ leaf_records (concat parts) ->
  exists j leaves, parts !! j = Some leaves /\ x ∈ leaf_records leaves.
Proof.
  induction parts as [|p parts IH]; simpl; [set_solver|]. rewrite leaf_records_app, elem_of_app. intros [H|H].
  - by exists 0%nat, p.
  - destruct (IH H) as (j & lv & ? & ?). by exists (S j), lv.
Qed.

Lemma at_gap_part parts i leaves key n index :
  parts !! i = Some leaves -> at_gap leaves key n index ->
  (forall j lv x, (j < i)%nat -> parts !! j = Some lv -> x ∈ leaf_records lv -> lex_cmp (rank key) (rank x) = 1) ->
  (forall j lv x, (i < j)%nat -> parts !! j = Some lv -> x ∈ leaf_records lv -> lex_cmp (rank key) (rank x) = -1) ->
  at_gap (concat parts) key n index.
Proof.
  intros Hi (pre & recs & post & -> & H0 & Hlo & Hhi) Hbelow Habove.
  exists (concat (take i parts) ++ pre), recs, (post ++ concat (drop (S i) parts)).
  pose proof (lookup_lt_Some _ _ _ Hi).
  split_and!; try lia.
  - rewrite <- (take_drop_middle parts i _ Hi) at 1. rewrite concat_app. simpl. by rewrite <- !app_assoc.
  - intros r. rewrite leaf_records_app, <- app_assoc, elem_of_app. intros [Hr|Hr]; [|by apply Hlo].
    destruct (elem_of_leaf_records _ _ Hr) as (j & lv & Hj & Hx).
    pose proof (lookup_lt_Some _ _ _ Hj) as Hlt. rewrite length_take in Hlt.
    rewrite lookup_take_lt in Hj by lia. apply (Hbelow j lv); [lia|done|done].
  - intros r. rewrite leaf_records_app, app_assoc, elem_of_app. intros [Hr|Hr]; [by apply Hhi|].
    destruct (elem_of_leaf_records _ _ Hr) as (j & lv & Hj & Hx).
    rewrite lookup_drop in Hj. apply (Habove (S i + j)%nat lv); [lia|done|done].
Qed.

(** The child to go on with. *)
Definition descend (res : bool * Z) : Z :=
  let '(keyFound, index) := res in if negb keyFound && negb (index =? 0) then index - 1 else index.

(** [i] is the last record of an index node that is not greater than the key, or the first. *)
Definition chosen (recs : list buffer) (key : buffer) (i : nat) : Prop :=
  (i < length recs)%nat /\
  (forall r, recs !! i = Some r -> (0 < i)%nat -> lex_cmp (rank r) (rank key) <= 0) /\
  (forall j r, (i < j)%nat -> recs !! j = Some r -> lex_cmp (rank key) (rank r) = -1).

Lemma descend_chosen recs key res : recs <> [] -> keys_sorted rank recs ->
  found rank recs key res -> exists i, descend res = Z.of_nat i /\ chosen recs key i.
Proof.
  intros Hne Hs Hf. destruct res as [[] index]; simpl.
  - destruct Hf as (r & Hr & H0 & E). exists (Z.to_nat index). split; [lia|].
    pose proof (lookup_lt_Some _ _ _ Hr). split_and!; [lia| |].
    + intros r' Hr' _. rewrite Hr in Hr'. injection Hr' as <-. rewrite lex_cmp_sym. lia.
    + intros j r' Hj Hr'. rewrite <- (lex_cmp_eq_lt _ _ (rank r') E). by apply (Hs (Z.to_nat index) j).
  - destruct Hf as (Hi & Hb & Ha). destruct recs as [|r0 recs]; [done|]. simpl in Hi.
    destruct (Z.eqb_spec index 0) as [->|Hne0]; simpl.
    + exists 0%nat. split; [done|]. split_and!; [simpl; lia|lia|]. intros j r Hj Hr. by apply (Ha j r); [lia|].
    + exists (Z.to_nat (index - 1)). split; [lia|]. split_and!; [simpl; lia| |].
      * intros r Hr _. rewrite lex_cmp_sym. rewrite (Hb (Z.to_nat (index - 1)) r); [lia|lia|done].
      * intros j r Hj Hr. apply (Ha j r); [lia|done].
Qed.

Lemma chosen_separates recs parts key i leaves err m index :

  length parts = length recs -> keys_sorted rank recs ->
  (forall i r leaves x, recs !! i = Some r -> parts !! i = Some leaves -> x ∈ leaf_records leaves ->
       lex_cmp (rank r) (rank x) <= 0) ->
  (forall i r leaves x, recs !! S i = Some r -> parts !! i = Some leaves -> x ∈ leaf_records leaves ->
       lex_cmp (rank x) (rank r) = -1) ->
  chosen recs key i -> parts !! i = Some leaves -> located leaves key err m index ->
  located (concat parts) key err m index.
Proof.
  intros Hlen Hs Hlo Hhi (Hi & Hle & Hgt) Hp [[-> H]|[-> H]].
  - left. split; [done|]. by apply (at_key_part _ i leaves).
  - right. split; [done|]. apply (at_gap_part _ i leaves); [done|done| |].
    + intros j lv x Hj Hlv Hx.
      destruct (lookup_lt_is_Some_2 recs (S j)) as [r' Hr']; [lia|].
      destruct (lookup_lt_is_Some_2 recs i) as [r Hr]; [lia|].
      pose proof (Hhi j r' lv x Hr' Hlv Hx) as Hxr.
      assert (lex_cmp (rank x) (rank r) = -1) as Hx'.
      { destruct (decide (S j = i)) as [<-|]; [congruence|].
        apply (lex_cmp_lt_trans _ (rank r')); [done|]. apply (Hs (S j) i); [lia|done|done]. }
      specialize (Hle r Hr ltac:(lia)). rewrite lex_cmp_sym.
      destruct (lex_cmp_range (rank r) (rank key)) as [E|[E|E]]; [|rewrite lex_cmp_eq in E|lia].
      * rewrite (lex_cmp_lt_trans (rank x) (rank r) (rank key)); done.
      * rewrite <- E, Hx'. done.
    + intros j lv x Hj Hlv Hx. pose proof (lookup_lt_Some _ _ _ Hlv).
      destruct (lookup_lt_is_Some_2 recs j) as [r Hr]; [lia|].
      pose proof (Hgt j r Hj Hr) as E. pose proof (Hlo j r lv x Hr Hlv Hx).
      destruct (lex_cmp_range (rank r) (rank x)) as [E'|[E'|E']]; [|rewrite lex_cmp_eq in E'|lia].
      * by apply (lex_cmp_lt_trans _ (rank r)).
      * by rewrite <- E'.
Qed.

(** The entries of the table lead from node [n] on [level] to [index] of leaf [m], by the
    records of the index nodes that a key belongs below. *)
Fixpoint path_ok (s : fs W) (t : TreePathTable) (key : buffer) (level : nat) (n m index : Z) : Prop :=
  match level with
  | O => False
  | S O => n = m /\ t !! 1%nat = Some (mkPath n index)
  | S l => exists i recs r, t !! S l = Some (mkPath n (Z.of_nat i)) /\
      node_holds size recs (contents (agent s) n) /\ recs !! i = Some r /\ chosen recs key i /\
      path_ok s t key l (child_of (btree s) r) m index
  end.

Lemma path_ok_same s s' t key l n m index :
  same_fs contents s s' -> path_ok s' t key l n m index -> path_ok s t key l n m index.
Proof.
  intros (Ht & _ & _ & HC). revert n. induction l as [|[|l] IH]; intros n; simpl; [done|done|].
  intros (i & recs & r & ? & Hh & ? & ? & Hp). exists i, recs, r. rewrite <- HC.
  split_and!; try done. apply IH. by rewrite <- (child_of_same (btree s) (btree s')).
Qed.

(** What the search from a node on returns. *)
Definition search_post (s : fs W) (t : TreePathTable) (level : nat) (n : Z) (leaves : list leaf) (key : buffer)
    (err : Z) (f : Found) (s' : fs W) : Prop :=
  same_fs contents s s' /\ located leaves key err (f_nodeNum f) (f_index f) /\
  nodeBuffer (f_node f) = Some (contents (agent s) (f_nodeNum f)) /\
  blockHeader (f_node f) = Some (f_nodeNum f) /\
  length (f_path f) = length t /\ (forall j, (level < j)%nat -> f_path f !! j = t !! j) /\
  path_ok s (f_path f) key level n (f_nodeNum f) (f_index f).

(** The first half of a round: the node is got and searched. *)
Lemma search_round s level k n recs key :
  node_ok s level k n recs -> nodeSize (btree s) = size -> P key ->
  exists r s1 res, GetNode s n (mkNodeRec None None 0 false) = Ok (noErr, r, s1) /\
    nodeBuffer r = Some (contents (agent s) n) /\ blockHeader r = Some n /\ same_fs contents s s1 /\
    SearchNode (btree s1) cmp (contents (agent s) n) key = Ok res /\ found rank recs key res.
Proof using FSAgentLaws0 KeyCompare0.
  intros [] Hsz Hk.
  destruct (GetNode_readable size contents s n (mkNodeRec None None 0 false)) as (r & s1 & Hg & Hb & Hhd & Hs); [done|].
  pose proof Hs as (Ht & _). destruct (same_tree_fields _ _ Ht) as (E & _).
  destruct (SearchNode_spec (btree s1) P rank cmp recs (contents (agent s) n) key) as (res & Hr & Hf);
    [by rewrite E, Hsz|done..|].
  by exists r, s1, res.
Qed.

Lemma search_leaf s t n recs key nodePtr fuel :
  node_ok s 1 kBTLeafNode n recs -> nodeSize (btree s) = size -> P key -> (1 < length t)%nat ->
  exists err f s', search_tree_loop cmp (S fuel) s key t nodePtr 1 n = Ok (err, f, s') /\
    search_post s t 1 n [(n, recs)] key err f s'.
Proof using FSAgentLaws0 KeyCompare0.
  intros Hn Hsz Hk Ht. destruct (search_round s 1 _ n recs key Hn Hsz Hk) as (r & s1 & [kf index] & Hg & Hb & Hhd & Hs & Hse & Hf).
  destruct Hn as [H0 _ Hhe Hki _ _ _]. cbn [search_tree_loop].
  rewrite (proj2 (Z.eqb_neq _ _) H0), Hg. cbn [mbind outcome_bind negb noErr Z.eqb]. rewrite Hb.
  cbn [of_option mbind outcome_bind]. rewrite Hhe, Hki. cbn [mbind outcome_bind]. 
  change (Z.of_nat 1) with 1. change (expected_kind 1) with kBTLeafNode. cbn [negb orb Z.eqb kBTLeafNode Pos.eqb].
  rewrite Hse. cbn [mbind outcome_bind].
  pose proof (set_path_entry t 1 n index Ht) as Hp. cbn [mbind outcome_bind] in Hp. change (Z.of_nat 1) with 1 in Hp.
  destruct (set_path_node t 1 n) as [t1| | |]; try done. cbn [mbind outcome_bind] in Hp |- *. rewrite Hp.
  cbn [mbind outcome_bind]. do 3 eexists. split; [done|].
  unfold search_post. cbn [f_nodeNum f_node f_index f_path]. split_and!; try done.
  - destruct kf; [left|right]; (split; [done|]).
    + destruct Hf as (x & ? & ? & ?). exists recs, x. by rewrite list_elem_of_singleton.
    + destruct Hf as (Hi & Hlo & Hhi). exists [], recs, []. split_and!; try done; try lia; unfold leaf_records; simpl.
      * intros x Hx. apply list_elem_of_lookup in Hx as [j Hj].
        pose proof (lookup_lt_Some _ _ _ Hj) as Hl. rewrite length_take in Hl.
        rewrite lookup_take_lt in Hj by lia. apply (Hlo j x); [lia|done].
      * intros x. rewrite app_nil_r. intros Hx. apply list_elem_of_lookup in Hx as [j Hj].
        rewrite lookup_drop in Hj. apply (Hhi (Z.to_nat index + j)%nat x); [lia|done].
  - by rewrite length_insert.
  - intros j Hj. by rewrite list_lookup_insert_ne by lia.
  - simpl. split; [done|]. by rewrite list_lookup_insert_eq.
Qed.

(** A round on an index node goes on with the child chosen. *)
Lemma search_index s t l n recs key nodePtr fuel :
  node_ok s (S l) kBTIndexNode n recs -> (1 <= l)%nat -> recs <> [] -> Forall (index_record (btree s)) recs ->
  nodeSize (btree s) = size -> P key -> (S l < length t)%nat ->
  exists i r s1, chosen recs key i /\ recs !! i = Some r /\ same_fs contents s s1 /\
    search_tree_loop cmp (S fuel) s key t nodePtr (Z.of_nat (S l)) n =
    search_tree_loop cmp fuel s1 key (<[S l := mkPath n (Z.of_nat i)]> t) nodePtr (Z.of_nat l) (child_of (btree s) r).
Proof using FSAgentLaws0 KeyCompare0.
  intros Hn Hl Hne Hix Hsz Hk Ht.
  destruct (search_round s _ _ n recs key Hn Hsz Hk) as (nr & s1 & [kf index] & Hg & Hb & Hhd & Hs & Hse & Hf).
  destruct Hn as [H0 _ Hhe Hki Hh _ Hsort].
  destruct (descend_chosen recs key (kf, index) Hne Hsort Hf) as (i & Hd & Hch). simpl in Hd.
  destruct (lookup_lt_is_Some_2 recs i) as [r Hr]; [apply Hch|].
  pose proof Hs as (Htree & _ & HE & HC). destruct (same_tree_fields _ _ Htree) as (E & _).
  destruct (read_child (btree s1) recs (contents (agent s) n) i r) as (kp & dp & dn & Hget & Hload);
    [by rewrite E, Hsz|done| |].
  { apply (index_record_same (btree s)); [done|]. by apply (Forall_lookup_1 _ _ _ _ Hix Hr). }
  destruct (ReleaseNode_unchanged size contents s1 n nr) as (nr' & s2 & Hrel & _ & Hs2); [by rewrite Hb, HC|done|].
  exists i, r, s2. split_and!; [done|done|by etrans|].
  cbn [search_tree_loop]. rewrite (proj2 (Z.eqb_neq _ _) H0), Hg. cbn [mbind outcome_bind negb noErr Z.eqb].
  rewrite Hb. cbn [of_option mbind outcome_bind]. rewrite Hhe, Hki. cbn [mbind outcome_bind].
  rewrite Z.eqb_refl. unfold expected_kind. rewrite (proj2 (Z.eqb_neq (Z.of_nat (S l)) 1)) by lia.
  cbn [negb orb Z.eqb kBTIndexNode kBTLeafNode]. rewrite Hse. cbn [mbind outcome_bind].
  rewrite Hd. pose proof (set_path_entry t (S l) n (Z.of_nat i) Ht) as Hp. cbn [mbind outcome_bind] in Hp.
  destruct (set_path_node t (Z.of_nat (S l)) n) as [t1| | |]; try done. cbn [mbind outcome_bind] in Hp |- *.
  rewrite Hp. cbn [mbind outcome_bind]. rewrite Hget. cbn [mbind outcome_bind]. rewrite Hload.
  cbn [mbind outcome_bind]. rewrite Hrel. cbn [negb noErr Z.eqb].
  rewrite (child_of_same (btree s)) by done. f_equal. lia.
Qed.

Lemma search_post_down s s1 t l n recs parts key i r leaves err f s' :
  node_ok s (S l) kBTIndexNode n recs -> (1 <= l)%nat -> (S l < length t)%nat -> length parts = length recs ->
  (forall i r leaves x, recs !! i = Some r -> parts !! i = Some leaves -> x ∈ leaf_records leaves ->
       lex_cmp (rank r) (rank x) <= 0) ->
  (forall i r leaves x, recs !! S i = Some r -> parts !! i = Some leaves -> x ∈ leaf_records leaves ->
       lex_cmp (rank x) (rank r) = -1) ->
  chosen recs key i -> recs !! i = Some r -> parts !! i = Some leaves -> same_fs contents s s1 ->
  search_post s1 (<[S l := mkPath n (Z.of_nat i)]> t) l (child_of (btree s) r) leaves key err f s' ->
  search_post s t (S l) n (concat parts) key err f s'.
Proof.
  intros Hn Hl Ht Hlen Hlo Hhi Hch Hr Hp Hs (Hs' & Hloc & Hb & Hhd & Hlt & Hkeep & Hpath).
  pose proof Hs as (_ & _ & _ & HC). unfold search_post. rewrite HC in Hb. split_and!; try done.
  - by etrans.
  - apply (chosen_separates recs parts key i leaves); try done. apply Hn.
  - by rewrite Hlt, length_insert.
  - intros j Hj. rewrite Hkeep by lia. by rewrite list_lookup_insert_ne by lia.
  - destruct l as [|l]; [lia|]. exists i, recs, r. split_and!; [|apply Hn|done|done|by apply (path_ok_same s s1)].
    rewrite Hkeep by lia. by rewrite list_lookup_insert_eq.
Qed.

Lemma search_tree_spec s l n leaves : tree_at s l n leaves ->
  forall s0 t key nodePtr fuel, same_fs contents s s0 -> nodeSize (btree s) = size -> P key ->
  (l < length t)%nat -> (l <= fuel)%nat ->
  exists err f s', search_tree_loop cmp fuel s0 key t nodePtr (Z.of_nat l) n = Ok (err, f, s') /\
    search_post s0 t l n leaves key err f s'.
Proof using FSAgentLaws0 KeyCompare0.
  induction 1 as [n recs Hn|l n recs parts Hl Hn Hne Hlen Hix Hsub IH Hlo Hhi];
    intros s0 t key nodePtr fuel Hs Hsz Hk Ht Hfuel; pose proof Hs as (Htree & _);
    destruct (same_tree_fields _ _ Htree) as (E & _); (destruct fuel as [|fuel]; [lia|]).
  - apply (search_leaf s0); try done; [|congruence]. by apply (node_ok_same s).
  - assert (Forall (index_record (btree s0)) recs) as Hix0.
    { eapply Forall_impl; [exact Hix|]. intros. by apply (index_record_same (btree s)). }
    destruct (search_index s0 t l n recs key nodePtr fuel) as (i & r & s1 & Hch & Hr & Hs1 & ->);
      try done; [by apply (node_ok_same s)|congruence|].
    destruct (lookup_lt_is_Some_2 parts i) as [lv Hlv]; [rewrite Hlen; by eapply lookup_lt_Some|].
    rewrite (child_of_same (btree s)) by done.
    destruct (IH i r lv Hr Hlv s1 (<[S l := mkPath n (Z.of_nat i)]> t) key nodePtr fuel)
      as (err & f & s' & Hrun & Hpost); [by etrans|done|done|rewrite length_insert; lia|lia|].
    exists err, f, s'. split; [done|].
    apply (search_post_down s0 s1 t l n recs parts key i r lv); try done; [by apply (node_ok_same s)|].
    by rewrite (child_of_same (btree s)).
Qed.

(** The whole search, from the root. *)
Lemma search_from_root s t leaves key nodePtr (depth : nat) :
  tree_at s depth (rootNode (btree s)) leaves ->
  treeDepth (btree s) = Z.of_nat depth -> (1 <= depth <= 15)%nat -> nodeSize (btree s) = size ->
  P key -> length t = kMaxDepthEntries ->
  exists err f s', SearchTree cmp s key t nodePtr = Ok (err, f, s') /\
    search_post s (<[0%nat := mkPath 0 0]> t) depth (rootNode (btree s)) leaves key err f s'.
Proof using FSAgentLaws0 KeyCompare0.
  intros Htree Hd Hdepth Hsz Hk Ht. unfold SearchTree. rewrite Hd. rewrite s16_small by lia. cbv zeta.
  rewrite (proj2 (Z.eqb_neq _ _)) by lia. unfold kMaxDepthEntries in Ht.
  rewrite (set_path_ok t 0) by lia. cbn [mbind outcome_bind].
  apply (search_tree_spec s depth (rootNode (btree s)) leaves Htree s (<[0%nat := mkPath 0 0]> t) key nodePtr
    (S (Z.to_nat (Z.of_nat depth)))); try done; [rewrite length_insert; lia|lia].
Qed.
End trees.

(** ** Termination on every file

    The search returns (with an error, if need be) whatever the blocks of the file hold and
    however the agent behaves. *)

Create HintDb total.

Definition returns {A} (o : outcome A) : Prop := o <> Diverge.

Lemma returns_bind {A B} (m : outcome A) (f : A -> outcome B) :
  returns m -> (forall a, m = Ok a -> returns (f a)) -> returns (m ≫= f).
Proof. unfold returns. destruct m; simpl; auto. Qed.
Lemma returns_Ok {A} (a : A) : returns (Ok a).
Proof. done. Qed.
Lemma returns_Fault {A} : returns (@Fault A).
Proof. done. Qed.
Lemma returns_of_option {A} (o : option A) : returns (of_option o).
Proof. by destruct o. Qed.
Lemma returns_get_bytes m p n : returns (get_bytes m p n).
Proof. unfold get_bytes. by destruct (in_buffer _ _ _). Qed.
#[export] Hint Resolve returns_Ok returns_Fault returns_of_option returns_get_bytes : total.

(** Goes through binds, tests and matches. *)
Ltac total :=
  repeat first
    [ solve [auto with total]
    | apply returns_bind; [|intros]
    | match goal with
      | |- returns (if ?b then _ else _) => destruct b
      | |- returns (match ?x with _ => _ end) => destruct x
      | |- returns (let '(_, _) := ?x in _) => destruct x
      end ].

Lemma returns_load m p : returns (load8 m p) /\ returns (load16 m p) /\ returns (load32 m p).
Proof. unfold load8, load16, load32. split_and!; total. Qed.
Lemma returns_load8 m p : returns (load8 m p).
Proof. apply returns_load. Qed.
Lemma returns_load16 m p : returns (load16 m p).
Proof. apply returns_load. Qed.
Lemma returns_load32 m p : returns (load32 m p).
Proof. apply returns_load. Qed.
#[export] Hint Resolve returns_load8 returns_load16 returns_load32 : total.

Lemma returns_kind b : returns (kind b).
Proof. unfold kind. total. Qed.
Lemma returns_height b : returns (height b).
Proof. unfold height. total. Qed.
Lemma returns_KeySize bt b p : returns (CalcKeySize bt b p).
Proof. unfold CalcKeySize, KeyLength. total. Qed.
Lemma returns_offset bt b i : returns (GetRecordOffset bt b i).
Proof. unfold GetRecordOffset. total. Qed.
#[export] Hint Resolve returns_kind returns_height returns_KeySize returns_offset : total.

Lemma returns_check_offsets bt node k n index : forall prev, returns (check_offsets bt index node k n prev).
Proof. induction index as [|index IH]; intros prev; cbn [check_offsets]; total. Qed.
#[export] Hint Resolve returns_check_offsets : total.

Lemma returns_CheckNode bt eof node : returns (CheckNode bt eof node).
Proof. unfold CheckNode, fLink, bLink, numRecords. total. Qed.
Lemma returns_GetRecordByIndex bt node i : returns (GetRecordByIndex bt node i).
Proof. unfold GetRecordByIndex, numRecords. total. Qed.
Lemma returns_set_path t l p : returns (set_path t l p).
Proof. unfold set_path. total. Qed.
Lemma returns_path_at t l : returns (path_at t l).
Proof. unfold path_at, array_at. total. Qed.
#[export] Hint Resolve returns_CheckNode returns_GetRecordByIndex returns_set_path returns_path_at : total.

Section search_terminates.
Context {W : Type} `{!FSAgent W} (cmp : buffer -> buffer -> outcome Z) (Hcmp : forall a b, returns (cmp a b)).

Lemma returns_search_loop bt node key fuel : forall lo hi,
  0 <= lo -> hi - lo + 1 < Z.of_nat fuel -> (0 < fuel)%nat -> returns (search_loop bt cmp fuel node key lo hi).
Proof using Hcmp.
  induction fuel as [|fuel IH]; intros lo hi Hlo Hf H0; [lia|]. cbn [search_loop].
  destruct (Z.leb_spec lo hi); [|total]. cbv zeta. rewrite Z.shiftr_div_pow2 by lia. change (2 ^ 1) with 2.
  assert (lo <= (lo + hi) / 2 <= hi) by (split; [apply Z.div_le_lower_bound|apply Z.div_le_upper_bound]; lia).
  total; apply IH; lia.
Qed.

Lemma returns_SearchNode bt node key : returns (SearchNode bt cmp node key).
Proof using Hcmp.
  unfold SearchNode, numRecords. apply returns_bind; [total|]. intros n _.
  destruct (decide (0 <= n)); [apply returns_search_loop; lia|].
  replace (Z.to_nat n) with 0%nat by lia. cbn [search_loop]. destruct (Z.leb_spec 0 (n - 1)); [lia|]. total.
Qed.

Lemma returns_GetNode (s : fs W) n r : returns (GetNode s n r).
Proof using Type. unfold GetNode. total. Qed.

Lemma returns_search_tree key nodePtr fuel : forall (s : fs W) t level n,
  1 <= level <= Z.of_nat fuel -> returns (search_tree_loop cmp fuel s key t nodePtr level n).
Proof using Hcmp.
  induction fuel as [|fuel IH]; intros s t level n Hl; [lia|]. cbn [search_tree_loop].
  destruct (n =? 0); [total|]. apply returns_bind; [apply returns_GetNode|]. intros [[err r] s1] _.
  destruct (negb (err =? noErr)); [total|]. apply returns_bind; [total|]. intros b _.
  apply returns_bind; [total|]. intros h _. apply returns_bind; [total|]. intros k _.
  unfold expected_kind. destruct (Z.eqb_spec h level); [|simpl; total].
  assert (level <> 1 -> forall s t c, returns (search_tree_loop cmp fuel s key t nodePtr (level - 1) c)) as Hrec
    by (intros; apply IH; lia).
  destruct (Z.eqb_spec level 1) as [_|Hne]; [destruct (Z.eqb_spec k kBTLeafNode) as [->|]|
    destruct (Z.eqb_spec k kBTIndexNode) as [->|]]; cbn [negb orb]; try solve [total];
    (apply returns_bind; [apply returns_SearchNode|]); intros [kf i] _; unfold set_path_node, set_path_index;
    cbn [Z.eqb kBTLeafNode kBTIndexNode Pos.eqb]; total; by apply Hrec.
Qed.
End search_terminates.

(** ** Theorems *)

Section search_theorems.
Context {W : Type} `{!FSAgent W} (size : Z) (contents : W -> Z -> buffer) `{!FSAgentLaws W size contents}.
Context (P : buffer -> Prop) (rank : buffer -> list Z) (cmp : buffer -> buffer -> outcome Z)
  `{!KeyCompare P rank cmp}.

(** C35: in a file that holds a B-tree of a depth up to 15, [SearchTree] finds the record
    with the key if one of the leaves has it, and otherwise the one place among all leaves
    where it belongs: everything before is smaller, everything after is greater.  The node
    returned is that leaf, the path table leads to it from the root, and nothing is changed
    in the file. *)
Theorem SearchTree_correct s t leaves key nodePtr (depth : nat) :
  tree_at size contents P rank s depth (rootNode (btree s)) leaves ->
  treeDepth (btree s) = Z.of_nat depth -> (1 <= depth <= 15)%nat -> nodeSize (btree s) = size ->
  P key -> length t = kMaxDepthEntries ->
  exists err f s', SearchTree cmp s key t nodePtr = Ok (err, f, s') /\ same_fs contents s s' /\
    (err = noErr /\ at_key rank leaves key (f_nodeNum f) (f_index f) \/
     err = fsBTRecordNotFoundErr /\ at_gap rank leaves key (f_nodeNum f) (f_index f)) /\
    nodeBuffer (f_node f) = Some (contents (agent s) (f_nodeNum f)) /\
    path_ok size contents rank s (f_path f) key depth (rootNode (btree s)) (f_nodeNum f) (f_index f).
Proof using FSAgentLaws0 KeyCompare0.
  intros Htree Hd Hdepth Hsz Hk Ht.
  destruct (search_from_root size contents P rank cmp s t leaves key nodePtr depth) as (err & f & s' & Hrun & Hpost); try done.
  destruct Hpost as (? & ? & ? & ? & _ & _ & ?). exists err, f, s'. by split_and!.
Qed.

(** The table has 16 entries, of which the first is not used: in a tree of depth 16, which
    [VerifyHeader] accepts, the search writes behind the table. *)
Theorem SearchTree_depth_16 s t key nodePtr recs n :
  node_ok size contents P rank s 16 kBTIndexNode n recs -> rootNode (btree s) = n ->
  treeDepth (btree s) = 16 -> nodeSize (btree s) = size -> P key -> length t = kMaxDepthEntries ->
  SearchTree cmp s key t nodePtr = Fault.
Proof using FSAgentLaws0 KeyCompare0.
  intros Hn Hroot Hd Hsz Hk Ht. unfold SearchTree. rewrite Hd, Hroot. change (s16 16) with 16. cbv zeta.
  unfold kMaxDepthEntries in Ht. rewrite (set_path_ok t 0) by lia. cbn [mbind outcome_bind].
  destruct (search_round size contents P rank cmp s 16 kBTIndexNode n recs key Hn Hsz Hk)
    as (r & s1 & [kf index] & Hg & Hb & _ & _ & Hse & _).
  destruct Hn as [H0 _ Hhe Hki _ _ _]. cbn [search_tree_loop Z.eqb].
  rewrite (proj2 (Z.eqb_neq _ _) H0), Hg. cbn [mbind outcome_bind negb noErr Z.eqb]. rewrite Hb.
  cbn [of_option mbind outcome_bind]. rewrite Hhe, Hki. cbn [mbind outcome_bind].
  change (negb (Z.of_nat 16 =? 16) || negb (kBTIndexNode =? expected_kind 16)) with false. cbv iota.
  rewrite Hse. cbn [mbind outcome_bind]. unfold set_path_node, path_at, array_at.
  change (0 <=? 16) with true. cbv iota. change (Z.to_nat 16) with 16%nat.
  rewrite (lookup_ge_None_2 (<[0%nat := mkPath 0 0]> t) 16) by (rewrite length_insert; lia). done.
Qed.
End search_theorems.

(** [SearchTree] does not run for ever on any file, whatever its nodes hold and whatever the
    agent does: the depth falls with every node. *)
Theorem SearchTree_terminates {W : Type} `{!FSAgent W} cmp (s : fs W) key t nodePtr :
  (forall a b, cmp a b <> Diverge) -> 0 <= treeDepth (btree s) < 32768 ->
  SearchTree cmp s key t nodePtr <> Diverge.
Proof.
  intros Hcmp Hd. change (returns (SearchTree cmp s key t nodePtr)).
  unfold SearchTree. rewrite s16_small by lia. cbv zeta.
  destruct (Z.eqb_spec (treeDepth (btree s)) 0); [total|].
  apply returns_bind; [total|]. intros t1 _. apply returns_search_tree; [done|lia].
Qed.

(** ** A tree with two leaves *)

Definition make_node (size fl bl k h : Z) (recs : list buffer) : buffer :=
  le_encode 4 fl ++ le_encode 4 bl ++ [k; h] ++ le_encode 2 (Z.of_nat (length recs)) ++ [0; 0] ++ concat recs ++
  replicate (Z.to_nat (size - 16 - total recs - 2 * Z.of_nat (length recs))) 0 ++
  concat (rev (map (fun i => le_encode 2 (rec_offset recs i)) (seq 0 (S (length recs))))).

Definition leaf_recs (c : Z) : list buffer := [sample_key c ++ [1; 2; 3; 4]; sample_key (c + 2) ++ [5; 6; 7; 8]].
Definition index_recs : list buffer := [sample_key 97 ++ le_encode 4 2; sample_key 103 ++ le_encode 4 3].
Definition two_bt : BTreeControlBlock := mkBTree 0 2 1 4 2 3 512 516 4 0 0 6 0 0 0 0 0 0 0 0 0.
Definition two_fs : fs file_agent :=
  mkFs two_bt 0 (mkFile {[1 := make_node 512 0 0 0 2 index_recs; 2 := make_node 512 3 0 255 1 (leaf_recs 97);
                          3 := make_node 512 0 2 255 1 (leaf_recs 103)]} 2048).
Definition two_leaves : list leaf := [(2, leaf_recs 97); (3, leaf_recs 103)].
Definition empty_path : TreePathTable := replicate 16 (mkPath 0 0).

(** A node of two records, checked by evaluation. *)
Lemma holds_two size node a b :
  bool_decide (size <= 32768 /\ rec_offset [a; b] 2 + 2 * 2 + 2 <= size /\ Z.of_nat (length node) = size /\
    slice node 10 2 = le_encode 2 2 /\
    slice node (size - 2) 2 = le_encode 2 (rec_offset [a; b] 0) /\
    slice node (size - 4) 2 = le_encode 2 (rec_offset [a; b] 1) /\
    slice node (size - 6) 2 = le_encode 2 (rec_offset [a; b] 2) /\
    slice node 14 (total [a; b]) = concat [a; b]) = true ->
  node_holds size [a; b] node.
Proof.
  rewrite bool_decide_eq_true. intros (? & ? & ? & ? & H0 & H1 & H2 & ?). split; try done.
  intros i Hi. unfold entry_pos. destruct i as [|[|[|i]]]; [| | |simpl in Hi; lia].
  - rewrite <- H0. f_equal. lia.
  - rewrite <- H1. f_equal. lia.
  - rewrite <- H2. f_equal. lia.
Qed.

Lemma sorted_two rank (a b : buffer) : lex_cmp (rank a) (rank b) = -1 -> keys_sorted rank [a; b].
Proof.
  intros H i j x y Hij Hx Hy. destruct i as [|[|i]], j as [|[|j]]; simpl in *; try lia; try done. congruence.
Qed.

Lemma two_node l k n fl bl h a b :
  n <> 0 -> n < 4 -> 0 <= n ->
  file_contents (agent two_fs) n = make_node 512 fl bl k h [a; b] ->
  CheckNode two_bt 2048 (make_node 512 fl bl k h [a; b]) = Ok noErr ->
  height (make_node 512 fl bl k h [a; b]) = Ok (Z.of_nat l) ->
  node_holds 512 [a; b] (make_node 512 fl bl k h [a; b]) ->
  catalog_key_plus a -> catalog_key_plus b -> lex_cmp (catalog_rank_plus a) (catalog_rank_plus b) = -1 ->
  kind (make_node 512 fl bl k h [a; b]) = Ok (swrap 8 k) ->
  node_ok file_size file_contents catalog_key_plus catalog_rank_plus two_fs l (swrap 8 k) n [a; b].
Proof.
  intros Hn Hn4 Hn0 HC Hck Hhe Hh Ha Hb Hlt Hk. split; rewrite ?HC; try done.
  - split; [simpl; lia|]. split; [unfold file_size; simpl; lia|]. by rewrite HC.
  - by rewrite !Forall_cons.
  - by apply sorted_two.
Qed.

Lemma sample_key_ok c bs : Forall byte (sample_key c ++ bs) -> catalog_key_plus (sample_key c ++ bs).
Proof. intros H. split_and!; [done|simpl; lia|]. rewrite length_app. change (field (sample_key c ++ bs) 6 2) with 1. simpl. lia. Qed.

Ltac two_node k fl bl h :=
  apply (two_node _ k _ fl bl h);
  [done|lia|lia|reflexivity|vm_compute; reflexivity|vm_compute; reflexivity
  |apply holds_two; vm_compute; reflexivity|apply sample_key_ok; apply (bool_decide_unpack _); vm_compute; exact I
  |apply sample_key_ok; apply (bool_decide_unpack _); vm_compute; exact I|vm_compute; reflexivity|vm_compute; reflexivity].

Lemma two_tree : tree_at file_size file_contents catalog_key_plus catalog_rank_plus two_fs 2 1 two_leaves.
Proof.
  change two_leaves with (concat [[(2, leaf_recs 97)]; [(3, leaf_recs 103)]]).
  apply (tree_index _ _ _ _ _ 1 1 index_recs); try done.
  - two_node 0 0 0 2.
  - unfold index_recs. rewrite !Forall_cons. split_and!; [| |done];
      (split_and!; [simpl; lia|vm_compute; intros ?; discriminate|vm_compute; intros ?; discriminate]).
  - intros i r lv Hr Hp. destruct i as [|[|i]]; simpl in Hr, Hp; [| |done];
      injection Hr as <-; injection Hp as <-.
    + change (child_of (btree two_fs) (sample_key 97 ++ le_encode 4 2)) with 2. apply tree_leaf. two_node 255 3 0 1.
    + change (child_of (btree two_fs) (sample_key 103 ++ le_encode 4 3)) with 3. apply tree_leaf. two_node 255 0 2 1.
  - intros i r lv x Hr Hp Hx. destruct i as [|[|i]]; simpl in Hr, Hp; [| |done];
      injection Hr as <-; injection Hp as <-; unfold leaf_records in Hx; simpl in Hx;
      rewrite !elem_of_cons in Hx; destruct Hx as [->|[->|Hx]]; vm_compute; done || (intros ?; discriminate) || set_solver.
  - intros i r lv x Hr Hp Hx. destruct i as [|[|i]]; simpl in Hr, Hp; [|done|done];
      injection Hr as <-; injection Hp as <-; unfold leaf_records in Hx; simpl in Hx;
      rewrite !elem_of_cons in Hx; destruct Hx as [->|[->|Hx]]; vm_compute; done || set_solver.
Qed.


Lemma SearchTree_witness :
  exists err f s', SearchTree CompareExtendedCatalogKeys two_fs (sample_key 104) empty_path (mkNodeRec None None 0 false)
      = Ok (err, f, s') /\ same_fs file_contents two_fs s' /\
    (err = noErr /\ at_key catalog_rank_plus two_leaves (sample_key 104) (f_nodeNum f) (f_index f) \/
     err = fsBTRecordNotFoundErr /\ at_gap catalog_rank_plus two_leaves (sample_key 104) (f_nodeNum f) (f_index f)) /\
    nodeBuffer (f_node f) = Some (file_contents (agent two_fs) (f_nodeNum f)) /\
    path_ok file_size file_contents catalog_rank_plus two_fs (f_path f) (sample_key 104) 2 1 (f_nodeNum f) (f_index f).
Proof.
  apply (SearchTree_correct file_size file_contents catalog_key_plus catalog_rank_plus CompareExtendedCatalogKeys
           two_fs empty_path two_leaves (sample_key 104) (mkNodeRec None None 0 false) 2);
    [apply two_tree|reflexivity|lia|reflexivity|apply (sample_key_ok 104 []); apply (bool_decide_unpack _); vm_compute; exact I
    |reflexivity].
Defined.

(** The search ends in the second leaf, before its second record. *)
Example SearchTree_evaluated :
  match SearchTree CompareExtendedCatalogKeys two_fs (sample_key 104) empty_path (mkNodeRec None None 0 false) with
  | Ok (err, f, _) => (err, f_nodeNum f, f_index f) = (fsBTRecordNotFoundErr, 3, 1)
  | _ => False
  end.
Proof. vm_compute. reflexivity. Qed.

Lemma SearchTree_terminates_witness :
  SearchTree (fun _ _ => Ok 1) two_fs (sample_key 104) empty_path (mkNodeRec None None 0 false) <> Diverge.
Proof.
  apply (SearchTree_terminates (fun _ _ => Ok 1) two_fs (sample_key 104) empty_path (mkNodeRec None None 0 false));
    [intros a b; discriminate|simpl; lia].
Defined.
