(* ===== verification/BTreeRotate.v ===== *)
(** * Correctness of rotating and splitting nodes

    [RotateLeft] and [SplitLeft] (hfsplus/hfscommon/BTree/BTreeTreeOps.c) against the lists
    of records: the records of the two nodes with the new record in its place, cut at another
    place. *)
From S2P Require Import Prelude Bytes UnicodeCompare BTreeNode BTreeKeys BTreeNodeTheorems BTreeBlocks BTreeMap.
From S2P Require Import BTreeMapTheorems BTreeMisc BTreeTree BTreeSearch.

(** ** The space records take *)

(** The bytes of records, each with its entry in the offset table. *)
Definition room (recs : list buffer) : Z := total recs + 2 * Z.of_nat (length recs).
(** The bytes of a node in use: descriptor, records, offsets, offset of the free space. *)
Definition used_bytes (recs : list buffer) : Z := 16 + room recs.

Lemma room_app a b : room (a ++ b) = room a + room b.
Proof. unfold room. rewrite total_app, length_app. lia. Qed.
Lemma room_cons r l : room (r :: l) = Z.of_nat (length r) + 2 + room l.
Proof. unfold room. rewrite total_cons. simpl. lia. Qed.
Lemma room_nonneg l : 0 <= room l.
Proof. unfold room. pose proof (total_nonneg l). lia. Qed.
Lemma room_take_S l i r : l !! i = Some r -> room (take (S i) l) = room (take i l) + Z.of_nat (length r) + 2.
Proof. intros H. rewrite (take_S_r _ _ _ H), room_app, room_cons. change (room []) with 0. lia. Qed.
Lemma room_take_drop l i : room l = room (take i l) + room (drop i l).
Proof. rewrite <- room_app. by rewrite take_drop. Qed.
Lemma room_insert_at l i r : room (insert_at i r l) = room l + Z.of_nat (length r) + 2.
Proof. unfold insert_at. rewrite room_app, room_cons, (room_take_drop l i). lia. Qed.
Lemma room_take_mono l i j : (i <= j)%nat -> room (take i l) <= room (take j l).
Proof.
  intros. rewrite (room_take_drop (take j l) i), take_take, Nat.min_l by done.
  pose proof (room_nonneg (drop i (take j l))). lia.
Qed.

Lemma used_bytes_offset recs : used_bytes recs = rec_offset recs (length recs) + 2 * Z.of_nat (length recs) + 2.
Proof. unfold used_bytes, room. rewrite rec_offset_all. unfold sizeof_BTNodeDescriptor. lia. Qed.

Lemma node_holds_used size recs node : node_holds size recs node ->
  used_bytes recs <= size <= 32768 /\ Z.of_nat (length node) = size.
Proof. intros Hh. rewrite used_bytes_offset. destruct (node_holds_bounds _ _ _ 0 Hh ltac:(lia)) as (? & ? & ?). lia. Qed.

Lemma free_used bt recs node : node_holds (nodeSize bt) recs node ->
  GetNodeFreeSize bt node = Ok (nodeSize bt - used_bytes recs).
Proof. intros Hh. rewrite (GetNodeFreeSize_holds _ _ _ Hh), used_bytes_offset. f_equal. lia. Qed.

Lemma insert_at_end {A} (x : A) l : insert_at (length l) x l = l ++ [x].
Proof. unfold insert_at. by rewrite firstn_all, drop_all. Qed.

Lemma drop_insert_at {A} m i (x : A) l : (m <= i)%nat -> (i <= length l)%nat ->
  drop m (insert_at i x l) = insert_at (i - m) x (drop m l).
Proof.
  intros Hm Hi. unfold insert_at. rewrite drop_app_le by (rewrite length_take; lia).
  rewrite skipn_firstn_comm, drop_drop. do 3 f_equal. lia.
Qed.

Lemma drop_insert_at_gt {A} m i (x : A) l : (i < m)%nat -> (i <= length l)%nat ->
  drop m (insert_at i x l) = drop (m - 1) l.
Proof.
  intros Hm Hi. unfold insert_at. rewrite drop_app_ge by (rewrite length_take; lia).
  rewrite length_take, Nat.min_l by lia. replace (m - i)%nat with (S (m - 1 - i)) by lia. simpl.
  rewrite drop_drop. f_equal. lia.
Qed.

(** ** One record *)

Lemma RotateRecordLeft_spec bt L R r lnode rnode :
  node_holds (nodeSize bt) L lnode -> node_holds (nodeSize bt) (r :: R) rnode ->
  used_bytes L + Z.of_nat (length r) + 2 <= nodeSize bt ->
  exists lnode' rnode', RotateRecordLeft bt lnode rnode = Ok (true, lnode', rnode') /\
    node_holds (nodeSize bt) (L ++ [r]) lnode' /\ node_holds (nodeSize bt) R rnode' /\
    same_links lnode lnode' /\ same_links rnode rnode'.
Proof.
  intros HL HR Hfit. rewrite used_bytes_offset in Hfit. unfold RotateRecordLeft, first_key, GetRecordAddress.
  change 0 with (Z.of_nat 0).
  pose proof (rec_offset_S (r :: R) 0 r eq_refl) as HS. pose proof (rec_offset_ge (r :: R) 0).
  destruct (node_holds_bounds _ _ _ 1 HR ltac:(simpl; lia)) as (? & ? & ?).
  rewrite (GetRecordSize_holds bt (r :: R) rnode 0 r HR eq_refl). cbn [mbind outcome_bind].
  rewrite (GetRecordOffset_holds bt (r :: R) rnode HR 0) by (simpl; lia).
  cbn [mbind outcome_bind]. unfold from_offset.
  rewrite (proj2 (Z.leb_le 0 _)), (proj2 (Z.leb_le _ (Z.of_nat (length rnode)))) by lia. cbn [andb mbind outcome_bind].
  rewrite (numRecords_holds _ _ _ HL). cbn [mbind outcome_bind].
  destruct (drop_record bt (r :: R) rnode HR 0 r eq_refl) as [rest Hrest]. rewrite Hrest.
  destruct (InsertRecord_fits bt L lnode (length L) (r ++ rest) (Z.of_nat (length r)))
    as (lnode' & -> & HL' & Hll); [done|lia|lia|rewrite length_app; lia|lia|]. cbn [mbind outcome_bind negb].
  destruct (DeleteRecord_spec bt (r :: R) rnode 0 r HR eq_refl) as (rnode' & -> & HR' & Hlr & _).
  cbn [mbind outcome_bind]. exists lnode', rnode'. split_and!; try done.
  rewrite insert_at_end in HL'. unfold slice in HL'. rewrite drop_0, Nat2Z.id, take_app_length in HL'. done.
Qed.

(** ** The balance point *)

Section balance.
Context (bt : BTreeControlBlock) (R : list buffer) (rnode kr : buffer) (i : nat) (base : Z).
Context (HR : node_holds (nodeSize bt) R rnode) (Hi : (i <= length R)%nat) (Hbase : 16 <= base).

(** The right node with the new record, and the sizes after [m] records were moved. *)
Definition with_new : list buffer := insert_at i kr R.
Definition left_size (m : nat) : Z := base + room (take m with_new).
Definition right_size (m : nat) : Z := 16 + room (drop m with_new).

Lemma with_new_length : length with_new = S (length R).
Proof using Hi. apply insert_at_length. done. Qed.

Lemma sizes_S m r : with_new !! m = Some r ->
  left_size (S m) = left_size m + (Z.of_nat (length r) + 2) /\
  right_size (S m) = right_size m - (Z.of_nat (length r) + 2).
Proof using Type.
  clear HR Hi Hbase. intros Hr. unfold left_size, right_size. rewrite (room_take_S _ _ _ Hr).
  pose proof (room_take_drop with_new m). pose proof (room_take_drop with_new (S m)).
  rewrite (room_take_S _ _ _ Hr) in *. lia.
Qed.

Lemma move_size m r : with_new !! m = Some r ->
  (if Z.of_nat m <? Z.of_nat i then n ← GetRecordSize bt rnode (Z.of_nat m); Ok (n + 2)
   else if Z.of_nat m =? Z.of_nat i then Ok (Z.of_nat (length kr) + 2)
   else n ← GetRecordSize bt rnode (Z.of_nat m - 1); Ok (n + 2)) = Ok (Z.of_nat (length r) + 2).
Proof using HR Hi.
  unfold with_new. rewrite lookup_insert_at by done. intros Hr.
  destruct (Z.ltb_spec (Z.of_nat m) (Z.of_nat i)); [|destruct (Z.eqb_spec (Z.of_nat m) (Z.of_nat i))].
  - rewrite decide_True in Hr by lia. by rewrite (GetRecordSize_holds _ _ _ _ _ HR Hr).
  - rewrite decide_False, decide_True in Hr by lia. injection Hr as <-. done.
  - rewrite decide_False, decide_False in Hr by lia. replace (Z.of_nat m - 1) with (Z.of_nat (m - 1)) by lia.
    by rewrite (GetRecordSize_holds _ _ _ _ _ HR Hr).
Qed.

(** Where the loop stops. *)
Definition balanced (m : nat) (mv : Z) : Prop :=
  (m <= length with_new)%nat /\ right_size m <= left_size m /\
  (m = 0%nat \/ (0 < m)%nat /\ left_size (m - 1) < right_size (m - 1) /\
     left_size (m - 1) = left_size m - mv /\ right_size (m - 1) = right_size m + mv).

Lemma balance_loop_spec fuel : forall m mv,
  (m <= length with_new)%nat -> right_size m - left_size m < Z.of_nat fuel -> (0 < fuel)%nat ->
  (m = 0%nat \/ (0 < m)%nat /\ left_size (m - 1) < right_size (m - 1) /\
     left_size (m - 1) = left_size m - mv /\ right_size (m - 1) = right_size m + mv) ->
  exists m' mv', balance_loop fuel bt rnode (Z.of_nat i) (Z.of_nat (length kr) + 2)
      (left_size m) (right_size m) mv (Z.of_nat m) =
    Ok (left_size m', right_size m', mv', Z.of_nat m') /\ balanced m' mv'.
Proof using All.
  induction fuel as [|fuel IH]; intros m mv Hm Hf H0 Hlast; [lia|]. cbn [balance_loop].
  destruct (Z.ltb_spec (left_size m) (right_size m)) as [Hlt|Hge].
  2: { exists m, mv. by split_and!. }
  assert (m < length with_new)%nat as Hm'.
  { destruct (decide (m = length with_new)) as [->|]; [|lia].
    unfold left_size, right_size in Hlt. rewrite drop_all in Hlt. change (room []) with 0 in Hlt.
    pose proof (room_nonneg (take (length with_new) with_new)). lia. }
  destruct (lookup_lt_is_Some_2 with_new m Hm') as [r Hr].
  rewrite (move_size m r Hr). cbn [mbind outcome_bind].
  destruct (sizes_S m r Hr) as [EL ER].
  rewrite <- EL, <- ER. rewrite u16_small.
  2: { pose proof with_new_length. destruct (node_holds_bounds _ _ _ 0 HR ltac:(lia)) as (? & ? & ?). lia. }
  replace (Z.of_nat m + 1) with (Z.of_nat (S m)) by lia.
  apply IH; [lia|lia|lia|]. right. replace (S m - 1)%nat with m by lia. split_and!; lia.
Qed.

(** The number of records to move, and that they fit. *)
Lemma balance_spec fuel :
  right_size 0 - left_size 0 < Z.of_nat fuel -> (0 < fuel)%nat -> base <= nodeSize bt ->
  exists ls rs mv m0, balance_loop fuel bt rnode (Z.of_nat i) (Z.of_nat (length kr) + 2)
      (left_size 0) (right_size 0) 0 0 = Ok (ls, rs, mv, m0) /\
    exists m, (if nodeSize bt <? ls then (rs + mv, u16 (m0 - 1)) else (rs, m0)) = (right_size m, Z.of_nat m) /\
      (m <= length with_new)%nat /\ (right_size m <= nodeSize bt -> left_size m <= nodeSize bt) /\
      (nodeSize bt < right_size m ->
         (left_size m < right_size m /\ exists r, with_new !! m = Some r /\
            nodeSize bt < left_size m + Z.of_nat (length r) + 2)).
Proof using All.
  intros Hf H0 Hb. destruct (balance_loop_spec fuel 0 0) as (m & mv & Hrun & Hm & Hge & Hlast); [lia|done|done|by left|].
  exists (left_size m), (right_size m), mv, (Z.of_nat m). split; [exact Hrun|].
  pose proof with_new_length. destruct (node_holds_bounds _ _ _ 0 HR ltac:(lia)) as (? & ? & ?).
  destruct (Z.ltb_spec (nodeSize bt) (left_size m)) as [Hbig|Hok].
  - destruct Hlast as [->|(Hpos & Hlt & EL & ER)].
    { unfold left_size in Hbig. rewrite take_0 in Hbig. change (room []) with 0 in Hbig. lia. }
    exists (m - 1)%nat. rewrite u16_small by lia. split_and!; [f_equal; lia|lia|intros; lia|].
    intros _. split; [lia|]. destruct (lookup_lt_is_Some_2 with_new (m - 1)) as [r Hr]; [lia|].
    exists r. split; [done|]. destruct (sizes_S (m - 1) r Hr) as [E _]. replace (S (m - 1)) with m in E by lia. lia.
  - exists m. split_and!; [done|done|intros; lia|intros; lia].
Qed.
End balance.

(** ** Fields of the descriptor *)

Lemma load_slice m p n : 0 <= p -> 0 <= n -> p + n <= Z.of_nat (length m) -> get_bytes m p n = Ok (slice m p n).
Proof. intros. by rewrite get_bytes_ok by lia. Qed.

Lemma same_links_fields node node' :
  same_links node node' -> length node' = length node -> 14 <= Z.of_nat (length node) ->
  fLink node' = fLink node /\ bLink node' = bLink node /\ kind node' = kind node /\ height node' = height node.
Proof.
  intros [H _] Hl H14.
  assert (forall p n, 0 <= p -> 0 <= n -> p + n <= 10 -> get_bytes node' p n = get_bytes node p n) as Hg.
  { intros p n ? ? ?. rewrite !load_slice by lia. f_equal.
    replace p with (0 + p) by lia. rewrite <- !(slice_slice _ 0 10) by lia. by rewrite H. }
  unfold fLink, bLink, kind, height, load32, load8. rewrite !Hg by lia. done.
Qed.

Lemma same_links_holds size recs recs' node node' :
  same_links node node' -> node_holds size recs node -> node_holds size recs' node' ->
  fLink node' = fLink node /\ bLink node' = bLink node /\ kind node' = kind node /\ height node' = height node.
Proof.
  intros Hl Hh Hh'. destruct (node_holds_bounds _ _ _ 0 Hh ltac:(lia)) as (? & ? & ?).
  destruct (node_holds_bounds _ _ _ 0 Hh' ltac:(lia)) as (? & ? & ?). apply same_links_fields; [done|lia|lia].
Qed.

#[export] Instance same_links_equiv : Equivalence same_links.
Proof.
  split.
  - done.
  - intros a b [? ?]. by split.
  - intros a b c [? ?] [? ?]. split; congruence.
Qed.

(** ** Moving records *)

Section rotate.
Context (bt : BTreeControlBlock) (L R : list buffer) (keyPtr recPtr : buffer) (raw keyLength recSize : Z) (i : nat).
Context (Hi : (i <= length R)%nat) (Hraw : KeyLength bt keyPtr 0 = Ok raw) (Hrl : 0 <= raw <= keyLength)
  (Hkl : keyLength < 65533) (Hkey : Z.of_nat (size_of_length bt) + raw <= Z.of_nat (length keyPtr))
  (Hrec : Z.of_nat (size_of_length bt) <= recSize <= Z.of_nat (length recPtr)).

Definition new_record : buffer := key_record bt keyPtr raw keyLength (slice recPtr 0 recSize).
Definition all_right : list buffer := with_new R new_record i.
(** What is left of the right node when [m] records of [all_right] have gone. *)
Definition remaining (m : nat) : list buffer := if decide (m <= i)%nat then drop m R else drop (m - 1) R.

Lemma new_record_length : Z.of_nat (length new_record) = padded_key_size bt keyLength + recSize.
Proof using Hrl Hkey Hrec.
  clear Hi Hraw Hkl. unfold new_record. rewrite key_record_length by done. rewrite slice_length by lia. done.
Qed.

(** The new record goes into a node with room for it. *)
Lemma insert_new recs node (j : nat) :
  node_holds (nodeSize bt) recs node -> (j <= length recs)%nat ->
  used_bytes recs + Z.of_nat (length new_record) + 2 <= nodeSize bt ->
  exists node', InsertKeyRecord bt node (Z.of_nat j) keyPtr keyLength recPtr recSize = Ok (true, node') /\
    node_holds (nodeSize bt) (insert_at j new_record recs) node' /\ same_links node node'.
Proof using All.
  intros Hh Hj Hfit. rewrite new_record_length, used_bytes_offset in Hfit.
  apply (InsertKeyRecord_fits bt recs node j keyPtr raw keyLength recPtr recSize); try done. lia.
Qed.

Lemma remaining_new m : all_right !! m = Some new_record -> m = i -> remaining (S m) = remaining m.
Proof using Type.
  clear Hi Hraw Hrl Hkl Hkey Hrec. intros _ ->. unfold remaining. rewrite decide_False, decide_True by lia. f_equal. lia.
Qed.

Lemma remaining_other m r : all_right !! m = Some r -> m <> i -> remaining m = r :: remaining (S m).
Proof using Hi.
  clear Hraw Hrl Hkl Hkey Hrec. unfold all_right, with_new. rewrite lookup_insert_at by done. intros Hr Hne. unfold remaining.
  repeat case_decide; try lia.
  - by rewrite (drop_S _ _ _ Hr).
  - replace (S m - 1)%nat with (S (m - 1)) by lia. by rewrite (drop_S _ _ _ Hr).
Qed.

Lemma rotate_loop_spec bl n : forall m lnode rnode ins,
  node_holds (nodeSize bt) (L ++ take m all_right) lnode -> node_holds (nodeSize bt) (remaining m) rnode ->
  (m + n <= length all_right)%nat -> used_bytes (L ++ take (m + n) all_right) <= nodeSize bt ->
  bLink rnode = Ok bl ->
  exists ins' lnode' rnode',
    rotate_loop n bt lnode rnode (Z.of_nat m) (Z.of_nat i) keyPtr keyLength recPtr recSize ins =
      Ok (Some ins', lnode', rnode') /\
    node_holds (nodeSize bt) (L ++ take (m + n) all_right) lnode' /\
    node_holds (nodeSize bt) (remaining (m + n)) rnode' /\ same_links lnode lnode' /\ same_links rnode rnode' /\
    ins' = if decide (m <= i < m + n)%nat then (Z.of_nat (length L + i), bl) else ins.
Proof using All.
  induction n as [|n IH]; intros m lnode rnode ins HL HR Hlen Hfit Hbl; cbn [rotate_loop].
  { exists ins, lnode, rnode. rewrite Nat.add_0_r. rewrite decide_False by lia. by split_and!. }
  destruct (lookup_lt_is_Some_2 all_right m) as [r Hr]; [lia|].
  assert (take (S m) all_right = take m all_right ++ [r]) as HS by (by apply take_S_r).
  assert (used_bytes (L ++ take m all_right) + Z.of_nat (length r) + 2 <= nodeSize bt) as Hroom.
  { unfold used_bytes in *. rewrite room_app in *. pose proof (room_take_mono all_right (S m) (m + S n) ltac:(lia)).
    rewrite (room_take_S _ _ _ Hr) in *. lia. }
  replace (m + S n)%nat with (S m + n)%nat in * by lia. replace (Z.of_nat m + 1) with (Z.of_nat (S m)) by lia.
  assert (length (L ++ take m all_right) = length L + m)%nat as Hll by (rewrite length_app, length_take; lia).
  destruct (Z.eqb_spec (Z.of_nat m) (Z.of_nat i)) as [Heq|Hne].
  - assert (m = i) as Emi by lia.
    assert (r = new_record) as ->.
    { unfold all_right, with_new in Hr. rewrite lookup_insert_at, decide_False, decide_True in Hr by lia. congruence. }
    rewrite (numRecords_holds _ _ _ HL). cbn [mbind outcome_bind].
    destruct (insert_new _ lnode (length (L ++ take m all_right)) HL) as (l1 & -> & HL1 & Hl1); [lia|done|].
    cbn [mbind outcome_bind negb]. rewrite Hbl. cbn [mbind outcome_bind].
    rewrite insert_at_end, <- app_assoc, <- HS in HL1. rewrite <- (remaining_new m Hr Emi) in HR.
    destruct (IH (S m) l1 rnode (Z.of_nat (length (L ++ take m all_right)), bl) HL1 HR)
      as (ins' & lnode' & rnode' & -> & ? & ? & ? & ? & Hins); [lia|done|done|].
    exists ins', lnode', rnode'. split_and!; try done; [by etrans|].
    rewrite Hins, decide_False, decide_True by lia. rewrite Hll. do 2 f_equal. lia.
  - rewrite (remaining_other m r Hr ltac:(lia)) in HR.
    destruct (RotateRecordLeft_spec bt _ (remaining (S m)) r lnode rnode HL HR Hroom)
      as (l1 & r1 & -> & HL1 & HR1 & Hl1 & Hr1). cbn [mbind outcome_bind negb].
    rewrite <- app_assoc, <- HS in HL1.
    destruct (same_links_holds _ _ _ _ _ Hr1 HR HR1) as (_ & Eb & _).
    destruct (IH (S m) l1 r1 ins HL1 HR1) as (ins' & lnode' & rnode' & -> & ? & ? & ? & ? & Hins); [lia|done|congruence|].
    exists ins', lnode', rnode'. split_and!; try done; [by etrans|by etrans|].
    rewrite Hins. repeat case_decide; done || lia.
Qed.

Lemma insert_size_even : Z.even recSize = true ->
  insert_size bt keyLength recSize = Z.of_nat (length new_record) + 2.
Proof using Hrl Hkey Hrec.
  clear Hi Hraw Hkl. intros He. rewrite new_record_length. unfold insert_size, padded_key_size. cbv zeta.
  replace (keyLength + (if big_keys bt then 2 else 1) + recSize + 2)
    with (keyLength + Z.of_nat (size_of_length bt) + (recSize + 2)) by (unfold size_of_length; destruct (big_keys bt); lia).
  rewrite Z.odd_add. rewrite <- (Z.negb_even (recSize + 2)), Z.even_add, He. simpl.
  rewrite xorb_false_r. destruct (Z.odd _); lia.
Qed.

(** The records can be cut after [c] of [all_right] so that both parts fit. *)
Definition cut_fits (c : nat) : Prop :=
  used_bytes (L ++ take c all_right) <= nodeSize bt /\ used_bytes (drop c all_right) <= nodeSize bt.

(** The two nodes after [m] records have gone to the left one. *)
Definition rotated (m : nat) (bl fl : Z) (ro : Rotation) (lnode' rnode' : buffer) : Prop :=
  ro = (if decide (i < m)%nat then mkRotation (Z.of_nat (length L + i)) bl true (Z.of_nat m)
        else mkRotation (Z.of_nat (i - m)) fl true (Z.of_nat m)) /\
  node_holds (nodeSize bt) (L ++ take m all_right) lnode' /\
  node_holds (nodeSize bt) (drop m all_right) rnode'.

Lemma remaining_drop m : remaining m = if decide (m <= i)%nat then drop m R else drop m all_right.
Proof using Hi.
  clear Hraw Hrl Hkl Hkey Hrec. unfold remaining, all_right, with_new. case_decide; [done|]. rewrite drop_insert_at_gt by lia. done.
Qed.

(** The second half of [RotateLeft]: the records that fit are moved. *)
Lemma rotate_records_spec lnode rnode bl fl m :
  node_holds (nodeSize bt) L lnode -> node_holds (nodeSize bt) R rnode ->
  bLink rnode = Ok bl -> fLink lnode = Ok fl -> (m <= length all_right)%nat -> cut_fits m ->
  exists ro lnode' rnode',
    ('(ins, leftNode, rightNode) ←
       rotate_loop (Z.to_nat (Z.of_nat m)) bt lnode rnode 0 (Z.of_nat i) keyPtr keyLength recPtr recSize (0, 0);
     match ins with
     | None => Ok (fsBTBadRotateErr, no_rotation, leftNode, rightNode)
     | Some (insertIndex, insertNodeNum) =>
        if Z.of_nat m <=? Z.of_nat i then
          let rightInsertIndex := u16 (Z.of_nat i - Z.of_nat m) in
          '(didItFit, rightNode) ← InsertKeyRecord bt rightNode rightInsertIndex keyPtr keyLength recPtr recSize;
          if negb didItFit then Ok (fsBTBadRotateErr, no_rotation, leftNode, rightNode)
          else
            num ← fLink leftNode;
            Ok (noErr, mkRotation rightInsertIndex num true (Z.of_nat m), leftNode, rightNode)
        else Ok (noErr, mkRotation insertIndex insertNodeNum true (Z.of_nat m), leftNode, rightNode)
     end) = Ok (noErr, ro, lnode', rnode') /\
    same_links lnode lnode' /\ same_links rnode rnode' /\ rotated m bl fl ro lnode' rnode'.
Proof using All.
  intros HL HR Hbl Hfl Hm [Hfl1 Hfr]. rewrite Nat2Z.id.
  destruct (rotate_loop_spec bl m 0 lnode rnode (0, 0)) as (ins & l1 & r1 & Hrun & HL1 & HR1 & Hl1 & Hr1 & Hins);
    [by rewrite take_0, app_nil_r|unfold remaining; by rewrite decide_True by lia|done|done|done|].
  simpl Nat.add in *. change (Z.of_nat 0) with 0 in Hrun. rewrite Hrun. cbn [mbind outcome_bind].
  destruct (node_holds_bounds _ _ _ 0 HR ltac:(lia)) as (? & ? & ?). pose proof (rec_offset_ge R (length R)).
  rewrite remaining_drop in HR1. unfold rotated.
  destruct (Z.leb_spec (Z.of_nat m) (Z.of_nat i)) as [Hle|Hgt].
  - rewrite decide_True in HR1 by lia. rewrite (decide_False (P := (0 <= i < m)%nat)) in Hins by lia. subst ins.
    rewrite u16_small by lia. replace (Z.of_nat i - Z.of_nat m) with (Z.of_nat (i - m)) by lia.
    assert (drop m all_right = insert_at (i - m) new_record (drop m R)) as Hd by (apply drop_insert_at; lia).
    destruct (insert_new (drop m R) r1 (i - m) HR1) as (r2 & -> & HR2 & Hr2).
    { rewrite length_drop. lia. }
    { rewrite Hd in Hfr. unfold used_bytes in *. rewrite room_insert_at in Hfr. lia. }
    cbn [mbind outcome_bind negb]. destruct (same_links_holds _ _ _ _ _ Hl1 HL HL1) as (-> & _). rewrite Hfl.
    cbn [mbind outcome_bind]. do 3 eexists. split_and!; [done|done|by etrans|by rewrite decide_False by lia|done|].
    by rewrite Hd.
  - rewrite decide_False in HR1 by lia. rewrite decide_True in Hins by lia. subst ins.
    do 3 eexists. split_and!; [done|done|done|by rewrite decide_True by lia|done|done].
Qed.

Lemma cut_sizes m : left_size R new_record i (used_bytes L) m = used_bytes (L ++ take m all_right) /\
  right_size R new_record i m = used_bytes (drop m all_right).
Proof using Type.
  clear Hi Hraw Hrl Hkl Hkey Hrec. unfold left_size, right_size, used_bytes, all_right. rewrite room_app. lia.
Qed.

Lemma RotateLeft_spec lnode rnode bl fl k :
  node_holds (nodeSize bt) L lnode -> node_holds (nodeSize bt) R rnode ->
  kind rnode = Ok k -> GetKeyLength bt keyPtr (k =? kBTLeafNode) = Ok keyLength ->
  bLink rnode = Ok bl -> fLink lnode = Ok fl -> Z.even recSize = true ->
  exists ro lnode' rnode',
    RotateLeft bt lnode rnode (Z.of_nat i) keyPtr recPtr recSize = Ok (noErr, ro, lnode', rnode') /\
    same_links lnode lnode' /\ same_links rnode rnode' /\
    ((exists m, (m <= length all_right)%nat /\ cut_fits m /\ rotated m bl fl ro lnode' rnode') \/
     (forall c, (c <= length all_right)%nat -> ~ cut_fits c) /\ ro = no_rotation /\ lnode' = lnode /\ rnode' = rnode).
Proof using All.
  intros HL HR Hk HK Hbl Hfl He. unfold RotateLeft. rewrite Hk. cbn [mbind outcome_bind]. rewrite HK.
  cbn [mbind outcome_bind]. rewrite (free_used _ _ _ HR), (free_used _ _ _ HL). cbn [mbind outcome_bind]. cbv zeta.
  rewrite insert_size_even by done.
  destruct (node_holds_used _ _ _ HL) as [HuL _]. destruct (node_holds_used _ _ _ HR) as [HuR _].
  pose proof (room_nonneg L). pose proof (room_nonneg R).
  replace (nodeSize bt - (nodeSize bt - used_bytes L)) with (left_size R new_record i (used_bytes L) 0)
    by (unfold left_size; rewrite take_0; change (room []) with 0; lia).
  replace (nodeSize bt - (nodeSize bt - used_bytes R) + (Z.of_nat (length new_record) + 2)) with (right_size R new_record i 0)
    by (unfold right_size, with_new; rewrite drop_0, room_insert_at; unfold used_bytes; lia).
  destruct (balance_spec bt R rnode new_record i (used_bytes L) HR Hi ltac:(unfold used_bytes; lia)
    (S (Z.to_nat (right_size R new_record i 0 - left_size R new_record i (used_bytes L) 0))))
    as (ls & rs & mv & m0 & -> & m & Hundo & Hm & Hleft & Hstuck); [lia|lia|lia|].
  cbn [mbind outcome_bind]. rewrite Hundo. destruct (cut_sizes m) as [EL ER].
  destruct (Z.ltb_spec (nodeSize bt) (right_size R new_record i m)) as [Hbig|Hok].
  - exists no_rotation, lnode, rnode. split_and!; try done. right. split_and!; try done.
    intros c Hc [H1 H2]. destruct (Hstuck Hbig) as (_ & r & Hr & Hover). fold all_right in Hr.
    unfold used_bytes in H1, H2. rewrite room_app in H1.
    pose proof (room_take_drop all_right c). pose proof (room_take_drop all_right m).
    rewrite EL in Hover. rewrite ER in Hbig. unfold used_bytes in Hover, Hbig. rewrite room_app in Hover.
    destruct (decide (c <= m)%nat).
    + pose proof (room_take_mono all_right c m ltac:(lia)). lia.
    + pose proof (room_take_mono all_right (S m) c ltac:(lia)) as Hm1. rewrite (room_take_S _ _ _ Hr) in Hm1. lia.
  - assert (cut_fits m) as Hcut by (split; lia).
    destruct (rotate_records_spec lnode rnode bl fl m) as (ro & l1 & r1 & Hrun & ? & ? & ?); try done.
    exists ro, l1, r1. split_and!; try done. left. by exists m.
Qed.
End rotate.

(** ** Splitting *)

Lemma node_holds_header size recs node node' :
  node_holds size recs node -> same_outside 0 10 node node' -> node_holds size recs node'.
Proof.
  intros Hh [Hl Hs]. pose proof (node_holds_bounds _ _ _ 0 Hh ltac:(lia)) as (? & ? & ?).
  pose proof (total_nonneg recs). destruct Hh as [? ? Hc Ho Hd Hf]. unfold sizeof_BTNodeDescriptor in *.
  split; try done; unfold sizeof_BTNodeDescriptor.
  - by rewrite Hl.
  - by rewrite Hs by lia.
  - intros i Hi. rewrite Hs; [by apply Ho|unfold entry_pos..]; try lia.
    all: pose proof (rec_offset_ge recs (length recs)); lia.
  - by rewrite Hs by lia.
Qed.

Lemma load_field node p n v : 0 <= p -> p + Z.of_nat n <= Z.of_nat (length node) ->
  slice node p (Z.of_nat n) = le_encode n v -> get_bytes node p (Z.of_nat n) = Ok (le_encode n v).
Proof. intros. rewrite get_bytes_ok by lia. by f_equal. Qed.

Lemma u8_s8 k : -128 <= k < 128 -> swrap 8 (u8 k) = k.
Proof.
  intros. unfold swrap, u8, wrap. change (2 ^ (8 - 1)) with 128. change (2 ^ 8) with 256.
  rewrite Zplus_mod_idemp_l, Z.mod_small; lia.
Qed.

(** The descriptor of the new left node. *)
Definition has_links (node : buffer) (fl bl k h : Z) : Prop :=
  fLink node = Ok fl /\ bLink node = Ok bl /\ kind node = Ok k /\ height node = Ok h.

Lemma has_links_same node node' fl bl k h :
  same_links node node' -> length node' = length node -> 14 <= Z.of_nat (length node) ->
  has_links node fl bl k h -> has_links node' fl bl k h.
Proof. intros. unfold has_links. by destruct (same_links_fields node node') as (-> & -> & -> & ->). Qed.

Lemma links_written node fl bl k h :
  14 <= Z.of_nat (length node) -> 0 <= fl < 2 ^ 32 -> 0 <= bl < 2 ^ 32 -> -128 <= k < 128 -> 0 <= h < 256 ->
  exists node', put_fields node [(0, 4%nat, fl); (4, 4%nat, bl); (8, 1%nat, u8 k); (9, 1%nat, u8 h)] = Ok node' /\
    same_outside 0 10 node node' /\ has_links node' fl bl k h.
Proof.
  intros Hl Hfl Hbl Hk Hh.
  destruct (put_fields_spec [(0, 4%nat, fl); (4, 4%nat, bl); (8, 1%nat, u8 k); (9, 1%nat, u8 h)] 0 10 node)
    as (node' & Hrun & Hs & Hf); [lia|simpl; lia|lia|].
  exists node'. split_and!; try done. rewrite !Forall_cons in Hf. destruct Hf as (F1 & F2 & F3 & F4 & _).
  destruct Hs as [HL _]. unfold has_links, fLink, bLink, kind, height, load32, load8.
  pose proof (load_field node' 0 4 fl ltac:(lia) ltac:(lia) F1) as G1.
  pose proof (load_field node' 4 4 bl ltac:(lia) ltac:(lia) F2) as G2.
  pose proof (load_field node' 8 1 (u8 k) ltac:(lia) ltac:(lia) F3) as G3.
  pose proof (load_field node' 9 1 (u8 h) ltac:(lia) ltac:(lia) F4) as G4.
  change (Z.of_nat 4) with 4 in *. change (Z.of_nat 1) with 1 in *. rewrite G1, G2, G3, G4.
  cbn [mbind outcome_bind]. rewrite !le_decode_encode. rewrite (u8_small h) by lia.
  rewrite !(Z.mod_small fl), !(Z.mod_small bl), !(Z.mod_small h) by (simpl; lia).
  assert (u8 k mod 256 ^ Z.of_nat 1 = u8 k) as -> by (apply Z.mod_small; apply Z.mod_pos_bound; lia).
  by rewrite u8_s8.
Qed.

(** [right->bLink = n] *)
Lemma bLink_written node fl bl k h n :
  14 <= Z.of_nat (length node) -> 0 <= n < 2 ^ 32 -> has_links node fl bl k h ->
  exists node', set_bLink node n = Ok node' /\ same_outside 4 8 node node' /\ has_links node' fl n k h.
Proof.
  intros Hl Hn (Hfl & _ & Hk & Hh). unfold set_bLink. rewrite store32_ok by lia. eexists. split; [done|].
  pose proof (same_outside_splice 4 (le_encode 4 n) node ltac:(lia) ltac:(rewrite le_encode_length; lia)) as Hs.
  rewrite le_encode_length in Hs. split; [exact Hs|]. destruct Hs as [HL Hs].
  unfold has_links, fLink, bLink, kind, height, load32, load8 in *.
  rewrite !get_bytes_ok in * by lia. rewrite (Hs 0), (Hs 8), (Hs 9) by lia. split_and!; try done.
  cbn [mbind outcome_bind]. rewrite slice_splice_same by (rewrite ?le_encode_length; lia).
  rewrite le_decode_encode, Z.mod_small by (simpl; lia). done.
Qed.

Lemma split_links_spec lnode rnode fl bl k h rightNum newNum :
  14 <= Z.of_nat (length lnode) -> 14 <= Z.of_nat (length rnode) -> has_links rnode fl bl k h ->
  0 <= rightNum < 2 ^ 32 -> 0 <= newNum < 2 ^ 32 -> 0 <= bl < 2 ^ 32 -> -128 <= k < 128 -> 0 <= h < 256 ->
  exists lnode' rnode', split_links lnode rnode rightNum newNum = Ok (lnode', rnode', (k =? kBTLeafNode) && (bl =? 0)) /\
    same_outside 0 10 lnode lnode' /\ has_links lnode' rightNum bl k h /\
    same_outside 4 8 rnode rnode' /\ has_links rnode' fl newNum k h.
Proof.
  intros Hll Hlr Hr ? ? ? ? ?. pose proof Hr as (Hfl & Hbl & Hk & Hh).
  destruct (links_written lnode rightNum bl k h) as (l1 & Hrun & Hs1 & Hl1); [done..|].
  destruct (bLink_written rnode fl bl k h newNum) as (r1 & Hr1 & Hs2 & Hl2); [done..|].
  exists l1, r1. split_and!; try done. unfold split_links, set_fLink, set_bLink, set_kind, set_height.
  unfold set_bLink in Hr1. cbn [put_fields] in Hrun. unfold store32, store8 in *. cbn [mbind outcome_bind] in *.
  destruct (put_bytes lnode 0 (le_encode 4 rightNum)) as [n1| | |]; cbn [mbind outcome_bind] in *; try done.
  rewrite Hbl. cbn [mbind outcome_bind].
  destruct (put_bytes n1 4 (le_encode 4 bl)) as [n2| | |]; cbn [mbind outcome_bind] in *; try done.
  rewrite Hk. cbn [mbind outcome_bind].
  destruct (put_bytes n2 8 (le_encode 1 (u8 k))) as [n3| | |]; cbn [mbind outcome_bind] in *; try done.
  rewrite Hh. cbn [mbind outcome_bind].
  destruct (put_bytes n3 9 (le_encode 1 (u8 h))) as [n4| | |]; cbn [mbind outcome_bind] in *; try done.
  injection Hrun as <-. rewrite Hr1. cbn [mbind outcome_bind]. destruct Hl1 as (_ & -> & -> & _). done.
Qed.

Section split.
Context {W : Type} `{!FSAgent W} (size : Z) (contents : W -> Z -> buffer) `{!FSAgentLaws W size contents}.

(** The left sibling, if the caller holds it: its number and bytes. *)
Definition holds_sibling (s : fs W) (leftNode : NodeRec) (sib : option (Z * buffer)) (rightNum k h : Z) : Prop :=
  match sib with
  | None => nodeBuffer leftNode = None
  | Some (ln, lf) => nodeBuffer leftNode = Some lf /\ (blockHeader leftNode = Some ln /\ 0 <= ln) /\
      Z.of_nat (length lf) = size /\ Forall byte lf /\
      fLink lf = Ok rightNum /\ kind lf = Ok k /\ height lf = Ok h
  end.

(** The sibling is linked to the new node and written. *)
Definition sibling_linked (s s' : fs W) (sib : option (Z * buffer)) (newNum : Z) : Prop :=
  match sib with
  | None => True
  | Some (ln, lf) => same_outside 0 4 lf (contents (agent s') ln) /\ fLink (contents (agent s') ln) = Ok newNum
  end.
Definition sibling_number (sib : option (Z * buffer)) : option Z := fst <$> sib.

Lemma check_total b eof node :
  Z.of_nat (length node) = nodeSize b -> 64 <= nodeSize b <= 32768 -> Z.even (nodeSize b) = true ->
  Forall byte node -> nodeSize b <= eof < 2 ^ 32 * nodeSize b -> is_Ok (CheckNode b eof node).
Proof.
  intros Hl Hs He Hb HE. destruct (CheckNode_spec b node Hl ltac:(lia) He Hb eof ltac:(lia) HE) as (err & Hc & _).
  by exists err.
Qed.

Lemma link_sibling s leftNode sib newNum rightNum k h :
  holds_sibling s leftNode sib rightNum k h -> geometry size s -> size <= 32768 -> size <= fcbEOF (agent s) ->
  0 <= newNum < 2 ^ 32 ->
  exists r s', match nodeBuffer leftNode with
               | Some lf => lf ← set_fLink lf newNum; UpdateNode s (set_buffer leftNode lf) kLockTransaction
               | None => Ok (noErr, leftNode, s)
               end = Ok (noErr, r, s') /\
    nodeBuffer r = None /\ same_tree (btree s) (btree s') /\ fcbEOF (agent s') = fcbEOF (agent s) /\
    sibling_linked s s' sib newNum /\
    forall m, Some m <> sibling_number sib -> contents (agent s') m = contents (agent s) m.
Proof using FSAgentLaws0.
  intros Hsib (H64 & Hsz & Hev & HE) Hmax HE' Hn. destruct sib as [[ln lf]|]; simpl in Hsib.
  - destruct Hsib as (-> & (Hhd & Hln) & Hl & Hb & _). unfold set_fLink. rewrite store32_ok by lia. cbn [mbind outcome_bind].
    set (lf' := splice lf 0 (le_encode 4 newNum)).
    assert (same_outside 0 4 lf lf') as Hs.
    { pose proof (same_outside_splice 0 (le_encode 4 newNum) lf ltac:(lia) ltac:(rewrite le_encode_length; lia)).
      by rewrite le_encode_length in *. }
    destruct (UpdateNode_stores size contents s ln (set_buffer leftNode lf') lf' kLockTransaction)
      as (r & s' & Hrun & Hnil & (Ht & _ & HEs & Hc & Ho)); [done|done|done|done| |].
    { apply check_total; [destruct Hs; lia|lia|by rewrite <- Hsz| |lia].
      apply splice_bytes; [done|apply le_encode_bytes]. }
    exists r, s'. split_and!; try done.
    + simpl. rewrite Hc. split; [done|]. unfold fLink, load32. rewrite get_bytes_ok by (destruct Hs; lia).
      cbn [mbind outcome_bind]. unfold lf'. rewrite slice_splice_same by (rewrite ?le_encode_length; lia).
      rewrite le_decode_encode, Z.mod_small by (simpl; lia). done.
    + intros m Hm. apply Ho. intros ->. by apply Hm.
  - rewrite Hsib. exists leftNode, s. split_and!; done.
Qed.

Lemma siblings_ok s leftNode sib rnode fl bl k h rightNum :
  holds_sibling s leftNode sib rightNum k h -> has_links rnode fl bl k h -> (h = 1 -> k = kBTLeafNode) ->
  split_siblings_ok (nodeBuffer leftNode) rnode rightNum = Ok true.
Proof using Type.
  intros Hsib (_ & _ & Hk & Hh) Hleaf. unfold split_siblings_ok. rewrite Hh, Hk. cbn [mbind outcome_bind].
  assert ((h =? 1) && negb (k =? kBTLeafNode) = false) as ->.
  { destruct (Z.eqb_spec h 1) as [E|]; [|done]. rewrite (Hleaf E). done. }
  destruct sib as [[ln lf]|]; simpl in Hsib; [|by rewrite Hsib].
  destruct Hsib as (-> & _ & _ & _ & -> & -> & ->). cbn [mbind outcome_bind]. by rewrite !Z.eqb_refl.
Qed.

(** The nodes before the rotation: the left one is new and empty. *)
Lemma split_prepare s leftNode rightNode sib rnode R rightNum fl bl k h index keyPtr recPtr recSize chain newNum s1 :
  holds_sibling s1 leftNode sib rightNum k h -> nodeBuffer rightNode = Some rnode -> node_holds size R rnode ->
  has_links rnode fl bl k h -> (h = 1 -> k = kBTLeafNode) ->
  geometry size s -> totalNodes (btree s) * size <= fcbEOF (agent s) -> totalNodes (btree s) < 2 ^ 32 ->
  0 <= rightNum < 2 ^ 32 -> 0 <= bl < 2 ^ 32 -> -128 <= k < 128 -> 0 <= h < 256 ->
  AllocateNode s = Ok (noErr, newNum, s1) -> 0 <= newNum < totalNodes (btree s) ->
  map_changed contents size s s1 chain newNum true ->
  exists leftNode' s2 lnode rnode', let s3 := if (k =? kBTLeafNode) && (bl =? 0)
          then with_tree s2 (M_BTreeHeaderDirty (set_firstLeafNode (btree s2) newNum)) else s2 in
    SplitLeft s leftNode rightNode rightNum index keyPtr recPtr recSize =
      ('(err, ro, lf, rt) ← RotateLeft (btree s3) lnode rnode' index keyPtr recPtr recSize;
       if negb (err =? noErr) then Ok (split_error s3 (set_buffer leftNode' lf) (set_buffer rightNode rt) err)
       else Ok (noErr, ro, set_buffer leftNode' lf, set_buffer rightNode rt, s3)) /\
    blockHeader leftNode' = Some newNum /\
    node_holds size [] lnode /\ has_links lnode rightNum bl k h /\
    node_holds size R rnode' /\ has_links rnode' fl newNum k h /\ same_outside 4 8 rnode rnode' /\
    same_shape (btree s) (btree s2) /\ fcbEOF (agent s2) = fcbEOF (agent s) /\
    (Some newNum <> sibling_number sib -> sibling_linked s1 s2 sib newNum) /\
    forall m, m ∉ map fst chain -> m <> newNum -> Some m <> sibling_number sib ->
      contents (agent s2) m = contents (agent s) m.
Proof using FSAgentLaws0.
  intros Hsib Hrb HR Hlinks Hleaf Hg HT HT32 ? ? ? ? Halloc Hnew (_ & HC1 & Ht1 & Hsz1 & HE1 & Hsh1).
  pose proof Hg as (H64 & Hsz & Hev & HE). destruct (node_holds_bounds _ _ _ 0 HR ltac:(lia)) as (? & ? & ?).
  unfold SplitLeft. rewrite Hrb. cbn [of_option mbind outcome_bind].
  rewrite (siblings_ok s1 leftNode sib rnode fl bl k h rightNum) by done. cbn [mbind outcome_bind negb].
  rewrite Halloc. cbn [mbind outcome_bind negb noErr Z.eqb].
  assert (geometry size s1) as Hg1 by (unfold geometry in *; rewrite Hsz1, HE1; done).
  destruct (link_sibling s1 leftNode sib newNum rightNum k h) as (r1 & s2 & Hrun1 & Hnil & Ht2 & HE2 & Hlink & HC2);
    [done|done|lia|rewrite HE1; nia|lia|].
  rewrite Hrun1. cbn [mbind outcome_bind negb noErr Z.eqb].
  pose proof (same_tree_shape _ _ Ht2) as Hsh2. 
  destruct (GetNewNode_spec contents size s2 newNum r1) as (r2 & s3 & b & Hrun2 & Hb & Hhd & Hh0 & _ & Ht3 & HE3 & HC3);
    [destruct (same_tree_fields _ _ Ht2) as (-> & _); congruence|lia|lia|rewrite HE2, HE1; nia|].
  rewrite Hrun2. cbn [mbind outcome_bind negb noErr Z.eqb]. rewrite Hb. cbn [of_option mbind outcome_bind].
  destruct (node_holds_bounds _ _ _ 0 Hh0 ltac:(lia)) as (? & ? & ?).
  destruct (split_links_spec b rnode fl bl k h rightNum newNum) as (l1 & rn1 & -> & Hs1 & Hl1 & Hs2 & Hl2); [lia|lia|done|lia..|].
  cbn [mbind outcome_bind]. exists r2, s3, l1, rn1. cbv zeta. split_and!; try done.
  - by apply (node_holds_header _ _ b).
  - apply (node_holds_header _ _ rnode); [done|]. destruct Hs2 as [HL Hs2]. split; [done|]. intros. apply Hs2; lia.
  - etrans; [exact Hsh1|]. etrans; [exact Hsh2|]. by apply same_tree_shape.
  - congruence.
  - intros Hns. destruct sib as [[ln lf]|]; [|done]. simpl in Hlink, Hns |- *. rewrite HC3; [done|]. intros ->. by apply Hns.
  - intros m Hm1 Hm2 Hm3. rewrite HC3, HC2, HC1 by done. done.
Qed.
End split.

(** ** When a split makes enough room *)

(** The longest part that fits into one node. *)
Lemma longest_fit (N : Z) (V : list buffer) : 16 <= N < used_bytes V ->
  exists c r, V !! c = Some r /\ used_bytes (take c V) <= N /\ N < used_bytes (take (S c) V).
Proof.
  unfold used_bytes. induction V as [|r V IH] using rev_ind; intros HN.
  { change (room []) with 0 in HN. lia. }
  destruct (decide (N < 16 + room V)) as [Hlt|Hge].
  - destruct (IH ltac:(lia)) as (c & r' & Hc & ? & ?). pose proof (lookup_lt_Some _ _ _ Hc).
    exists c, r'. rewrite lookup_app_l, !take_app_le by lia. done.
  - exists (length V), r. rewrite list_lookup_middle by done. rewrite take_app_length.
    rewrite take_ge by (rewrite length_app; simpl; lia). split_and!; [done|lia|lia].
Qed.

(** Records that leave ten bytes of half a node can always be cut in two. *)
Lemma cut_exists (N : Z) (R : list buffer) (V : list buffer) (x : buffer) :
  used_bytes R <= N -> room V = room R + Z.of_nat (length x) + 2 -> x ∈ V ->
  Forall (fun r => Z.of_nat (length r) <= N / 2 - 10) V -> 16 <= N < used_bytes V ->
  exists c, (c <= length V)%nat /\ used_bytes (take c V) <= N /\ used_bytes (drop c V) <= N.
Proof.
  intros HR HV Hx Hsmall HN. destruct (longest_fit N V HN) as (c & r & Hr & Hfit & Hover).
  exists c. pose proof (lookup_lt_Some _ _ _ Hr). split_and!; [lia|done|].
  rewrite Forall_forall in Hsmall. pose proof (Hsmall x Hx). pose proof (Hsmall r ltac:(by eapply list_elem_of_lookup_2)).
  pose proof (Z.mul_div_le N 2 ltac:(lia)). unfold used_bytes in *. rewrite (room_take_S _ _ _ Hr) in Hover.
  pose proof (room_take_drop V c). lia.
Qed.

Lemma insert_at_elem {A} i (x : A) l : x ∈ insert_at i x l.
Proof. unfold insert_at. apply elem_of_app. right. by left. Qed.

(** Both nodes have records after the rotation of a record that did not fit. *)
Lemma rotated_nonempty bt L R keyPtr recPtr raw keyLength recSize (i : nat) m :
  nodeSize bt < used_bytes (all_right bt R keyPtr recPtr raw keyLength recSize i) ->
  cut_fits bt L R keyPtr recPtr raw keyLength recSize i m ->
  drop m (all_right bt R keyPtr recPtr raw keyLength recSize i) <> [] /\
  (L = [] -> take m (all_right bt R keyPtr recPtr raw keyLength recSize i) <> []).
Proof.
  set (V := all_right _ _ _ _ _ _ _ _). intros Hbig [H1 H2]. fold V in H1, H2. unfold used_bytes in *.
  rewrite room_app in H1. pose proof (room_take_drop V m). pose proof (room_nonneg L). split.
  - intros E. rewrite E in *. change (room []) with 0 in *. lia.
  - intros -> E. rewrite E in *. change (room []) with 0 in *. lia.
Qed.

(** What the record operations depend on. *)
Definition same_format (b b' : BTreeControlBlock) : Prop :=
  nodeSize b' = nodeSize b /\ maxKeyLength b' = maxKeyLength b /\ attributes b' = attributes b.

Lemma same_shape_format b b' : same_shape b b' -> same_format b b'.
Proof. by intros (_ & _ & _ & _ & _ & ? & ? & _ & ?). Qed.

Section format.
Context (b b' : BTreeControlBlock) (Hf : same_format b b').

Lemma new_record_format keyPtr recPtr raw keyLength recSize :
  new_record b' keyPtr recPtr raw keyLength recSize = new_record b keyPtr recPtr raw keyLength recSize.
Proof using Hf.
  destruct Hf as (_ & _ & Ha). unfold new_record, key_record, padded_key_size, size_of_length, big_keys. by rewrite Ha.
Qed.
Lemma KeyLength_format m p : KeyLength b' m p = KeyLength b m p.
Proof using Hf. destruct Hf as (_ & _ & Ha). unfold KeyLength, big_keys. by rewrite Ha. Qed.
Lemma GetKeyLength_format m l : GetKeyLength b' m l = GetKeyLength b m l.
Proof using Hf. unfold GetKeyLength. rewrite KeyLength_format. destruct Hf as (_ & -> & ->). done. Qed.
Lemma size_of_length_format : size_of_length b' = size_of_length b.
Proof using Hf. destruct Hf as (_ & _ & Ha). unfold size_of_length, big_keys. by rewrite Ha. Qed.
End format.

(** ** Theorems *)

(** C36: [RotateLeft] moves records to the left node and puts the new record in its place
    whenever there is a way to cut the records of both nodes and the new one, in their order,
    into two that fit, and leaves both nodes alone otherwise.  The place reported is the
    place of the new record; links, kinds and heights stay. *)
Theorem RotateLeft_correct bt L R lnode rnode keyPtr recPtr raw keyLength recSize (i : nat) bl fl k :
  node_holds (nodeSize bt) L lnode -> node_holds (nodeSize bt) R rnode -> (i <= length R)%nat ->
  kind rnode = Ok k -> bLink rnode = Ok bl -> fLink lnode = Ok fl ->
  KeyLength bt keyPtr 0 = Ok raw -> GetKeyLength bt keyPtr (k =? kBTLeafNode) = Ok keyLength ->
  0 <= raw <= keyLength -> keyLength < 65533 ->
  Z.of_nat (size_of_length bt) + raw <= Z.of_nat (length keyPtr) ->
  Z.of_nat (size_of_length bt) <= recSize <= Z.of_nat (length recPtr) -> Z.even recSize = true ->
  let V := insert_at i (key_record bt keyPtr raw keyLength (slice recPtr 0 recSize)) R in
  exists ro lnode' rnode',
    RotateLeft bt lnode rnode (Z.of_nat i) keyPtr recPtr recSize = Ok (noErr, ro, lnode', rnode') /\
    same_links lnode lnode' /\ same_links rnode rnode' /\
    (ro_recordFit ro = true <->
       exists c, (c <= length V)%nat /\ used_bytes (L ++ take c V) <= nodeSize bt /\ used_bytes (drop c V) <= nodeSize bt) /\
    (ro_recordFit ro = true -> exists m, ro_recsRotated ro = Z.of_nat m /\
       node_holds (nodeSize bt) (L ++ take m V) lnode' /\ node_holds (nodeSize bt) (drop m V) rnode' /\
       if decide (i < m)%nat then ro_insertNodeNum ro = bl /\ ro_insertIndex ro = Z.of_nat (length L + i)
       else ro_insertNodeNum ro = fl /\ ro_insertIndex ro = Z.of_nat (i - m)) /\
    (ro_recordFit ro = false -> lnode' = lnode /\ rnode' = rnode).
Proof.
  intros HL HR Hi Hk Hbl Hfl Hraw HK Hrl Hkl Hkey Hrec He V.
  destruct (RotateLeft_spec bt L R keyPtr recPtr raw keyLength recSize i Hi Hraw Hrl Hkl Hkey Hrec
              lnode rnode bl fl k HL HR Hk HK Hbl Hfl He)
    as (ro & l1 & r1 & Hrun & Hl1 & Hr1 & [(m & Hm & Hcut & -> & HL1 & HR1)|(Hno & -> & -> & ->)]);
    exists ro, l1, r1 || eexists _, _, _.
  - split_and!; try done.
    + split; [intros _; by exists m|by destruct (decide _)].
    + intros _. exists m. split_and!; try done; destruct (decide _); done.
    + by destruct (decide _).
  - split_and!; try done. split; [done|]. intros (c & Hc & H1 & H2). by destruct (Hno c Hc).
Qed.

Section split_theorem.
Context {W : Type} `{!FSAgent W} (size : Z) (contents : W -> Z -> buffer) `{!FSAgentLaws W size contents}.

(** When a node is to be had and the records, the new one among them, each leave ten
    bytes of half a node, [SplitLeft] takes a node for the first part of the records and
    leaves the rest, with the new record in its place.  The new node is linked between the
    left sibling and the right node and has its kind and height; no node but the new one,
    the sibling and the map changes, and the first leaf of the tree is kept up to date. *)
Theorem SplitLeft_correct s leftNode rightNode sib rnode R rightNum fl bl k h (i : nat)
    keyPtr recPtr raw keyLength recSize chain newNum s1 :
  geometry size s -> totalNodes (btree s) * size <= fcbEOF (agent s) -> totalNodes (btree s) < 2 ^ 32 ->
  AllocateNode s = Ok (noErr, newNum, s1) -> 0 <= newNum < totalNodes (btree s) ->
  map_changed contents size s s1 chain newNum true ->
  holds_sibling size s1 leftNode sib rightNum k h -> Some newNum <> sibling_number sib ->
  nodeBuffer rightNode = Some rnode -> node_holds size R rnode -> has_links rnode fl bl k h ->
  (h = 1 -> k = kBTLeafNode) -> 0 <= rightNum < 2 ^ 32 -> 0 <= bl < 2 ^ 32 -> -128 <= k < 128 -> 0 <= h < 256 ->
  (i <= length R)%nat -> KeyLength (btree s) keyPtr 0 = Ok raw ->
  GetKeyLength (btree s) keyPtr (k =? kBTLeafNode) = Ok keyLength -> 0 <= raw <= keyLength -> keyLength < 65533 ->
  Z.of_nat (size_of_length (btree s)) + raw <= Z.of_nat (length keyPtr) ->
  Z.of_nat (size_of_length (btree s)) <= recSize <= Z.of_nat (length recPtr) -> Z.even recSize = true ->
  let V := insert_at i (key_record (btree s) keyPtr raw keyLength (slice recPtr 0 recSize)) R in
  size < used_bytes V -> Forall (fun r => Z.of_nat (length r) <= size / 2 - 10) V ->
  exists ro leftNode' rightNode' s' lnode' rnode' m,
    SplitLeft s leftNode rightNode rightNum (Z.of_nat i) keyPtr recPtr recSize =
      Ok (noErr, ro, leftNode', rightNode', s') /\
    nodeBuffer leftNode' = Some lnode' /\ blockHeader leftNode' = Some newNum /\
    nodeBuffer rightNode' = Some rnode' /\ blockHeader rightNode' = blockHeader rightNode /\
    (0 < m < length V)%nat /\ node_holds size (take m V) lnode' /\ node_holds size (drop m V) rnode' /\
    has_links lnode' rightNum bl k h /\ has_links rnode' fl newNum k h /\
    (if decide (i < m)%nat then ro_insertNodeNum ro = newNum /\ ro_insertIndex ro = Z.of_nat i
     else ro_insertNodeNum ro = rightNum /\ ro_insertIndex ro = Z.of_nat (i - m)) /\
    sibling_linked contents s1 s' sib newNum /\
    (forall n, n ∉ map fst chain -> n <> newNum -> Some n <> sibling_number sib ->
       contents (agent s') n = contents (agent s) n) /\
    firstLeafNode (btree s') = (if (k =? kBTLeafNode) && (bl =? 0) then newNum else firstLeafNode (btree s)).
Proof using FSAgentLaws0.
  intros Hg HT HT32 Halloc Hnew Hmap Hsib Hns Hrb HR Hlinks Hleaf ? Hbl ? ? Hi Hraw HK Hrl Hkl Hkey Hrec He V Hbig Hsmall.
  destruct (split_prepare size contents s leftNode rightNode sib rnode R rightNum fl bl k h (Z.of_nat i)
    keyPtr recPtr recSize chain newNum s1) as (r2 & s2 & ln0 & rn0 & -> & Hhd & HL0 & Hl0 & HR0 & Hr0 & _ & Hsh & HE2 & Hlink & HC);
    try done.
  set (s3 := if _ && _ then _ else s2). pose proof Hsh as (_ & _ & _ & Hfirst & _ & Hnsz & _).
  pose proof Hg as (? & Hsz & _).
  assert (same_format (btree s) (btree s3)) as Hf.
  { unfold s3. destruct (_ && _); by apply same_shape_format in Hsh. }
  assert (nodeSize (btree s3) = size) as Hsz3 by (destruct Hf as (-> & _); done).
  pose proof Hl0 as (Hl0f & _). pose proof Hr0 as (_ & Hr0b & Hr0k & _).
  pose proof (KeyLength_format _ _ Hf keyPtr 0) as Ek. pose proof (GetKeyLength_format _ _ Hf keyPtr (k =? kBTLeafNode)) as Eg.
  pose proof (size_of_length_format _ _ Hf) as Es. rewrite Hraw in Ek. rewrite HK in Eg. rewrite <- Es in Hkey, Hrec.
  rewrite <- Hsz3 in HL0, HR0.
  destruct (RotateLeft_spec (btree s3) [] R keyPtr recPtr raw keyLength recSize i Hi Ek Hrl Hkl Hkey Hrec
    ln0 rn0 newNum rightNum k HL0 HR0 Hr0k Eg Hr0b Hl0f He) as (ro & l1 & r1 & Hrun & Hll & Hlr & Hres).
  assert (all_right (btree s3) R keyPtr recPtr raw keyLength recSize i = V) as HV.
  { unfold all_right, with_new. by rewrite (new_record_format _ _ Hf). }
  destruct Hres as [(m & Hm & Hcut & -> & HL1 & HR1)|(Hno & _)].
  2: { exfalso. destruct (node_holds_used _ _ _ HR) as [? _].
       destruct (cut_exists size R V (new_record (btree s) keyPtr recPtr raw keyLength recSize)) as (c & Hc & ? & ?);
         [lia|apply room_insert_at|apply insert_at_elem|done|lia|].
       apply (Hno c); [by rewrite HV|]. unfold cut_fits. by rewrite HV, Hsz3. }
  rewrite Hrun. cbn [mbind outcome_bind negb noErr Z.eqb].
  pose proof (rotated_nonempty (btree s3) [] R keyPtr recPtr raw keyLength recSize i m) as Hne.
  rewrite HV, Hsz3 in *. destruct Hne as [Hd Ht]; [done|done|]. specialize (Ht eq_refl).
  assert (0 < m < length V)%nat as Hm0.
  { split; [destruct m; [done|lia]|]. destruct (decide (m < length V)%nat); [done|]. rewrite drop_ge in Hd by lia. done. }
  assert (forall a b, same_links a b -> Z.of_nat (length a) = size -> Z.of_nat (length b) = size ->
    forall fl' bl', has_links a fl' bl' k h -> has_links b fl' bl' k h) as Hkeep.
  { intros. apply (has_links_same a); [done|lia|lia|done]. }
  do 4 eexists. exists l1, r1, m. split_and!; try done; try apply Hm0.
  - apply (Hkeep ln0); [done|apply HL0|apply HL1|done].
  - apply (Hkeep rn0); [done|apply HR0|apply HR1|done].
  - by destruct (decide (i < m)%nat).
  - destruct sib as [[ln lf]|]; [|done]. assert (agent s3 = agent s2) as E by (unfold s3; by destruct (_ && _)).
    simpl. rewrite E. by apply Hlink.
  - intros n Hn1 Hn2 Hn3. assert (agent s3 = agent s2) as -> by (unfold s3; by destruct (_ && _)). by apply HC.
  - unfold s3. by destruct (_ && _).
Qed.
End split_theorem.

(** ** Evaluations *)

Definition split_record (c n : Z) : buffer := sample_key c ++ replicate (Z.to_nat (n - 10)) 1.
Definition lost_fs : fs file_agent :=
  mkFs (mkBTree 0 1 1 2 1 1 512 516 4 2 0 6 0 0 0 0 0 0 0 0 0) 0
    (mkFile {[0 := sample_header; 1 := make_node 512 0 0 255 1 [split_record 97 238; split_record 103 254]]} 2048).
Definition node_1 : NodeRec := mkNodeRec (Some (file_contents (agent lost_fs) 1)) (Some 1) 512 false.
Definition path_1 : TreePathTable := <[1%nat := mkPath 1 1]> empty_path.

(** Three records of about half a node each fit into no two nodes: with records that
    [CheckInsertParams] lets pass, [InsertTree] reports success, but the record is not in the
    tree. *)
Theorem InsertTree_loses_record :
  CheckInsertParams (Some (Some (btree lost_fs))) (Some (sample_key 99)) (Some (replicate 246 7)) 246 = Ok noErr /\
  match InsertTree lost_fs path_1 (sample_key 99) (replicate 246 7) 246 node_1 1 1 kInsertRecord 0 with
  | Ok (err, _, _, _, s') => err = noErr /\
      match SearchTree CompareExtendedCatalogKeys s' (sample_key 99) empty_path (mkNodeRec None None 0 false) with
      | Ok (err', _, _) => err' = fsBTRecordNotFoundErr
      | _ => False
      end
  | _ => False
  end.
Proof. split; [vm_compute; reflexivity|]. vm_compute. split; reflexivity. Qed.

Definition left_128 : buffer := make_node 128 5 0 255 1 (leaf_recs 97).
Definition right_128 : buffer := make_node 128 0 4 255 1 (leaf_recs 103).

Lemma RotateLeft_witness :
  let V := insert_at 1 (key_record sample_tree (sample_key 104) 8 8 (slice [9; 9; 9; 9] 0 4)) (leaf_recs 103) in
  exists ro lnode' rnode',
    RotateLeft sample_tree left_128 right_128 1 (sample_key 104) [9; 9; 9; 9] 4 = Ok (noErr, ro, lnode', rnode') /\
    same_links left_128 lnode' /\ same_links right_128 rnode' /\
    (ro_recordFit ro = true <->
       exists c, (c <= length V)%nat /\ used_bytes (leaf_recs 97 ++ take c V) <= 128 /\ used_bytes (drop c V) <= 128) /\
    (ro_recordFit ro = true -> exists m, ro_recsRotated ro = Z.of_nat m /\
       node_holds 128 (leaf_recs 97 ++ take m V) lnode' /\ node_holds 128 (drop m V) rnode' /\
       if decide (1 < m)%nat then ro_insertNodeNum ro = 4 /\ ro_insertIndex ro = Z.of_nat (2 + 1)
       else ro_insertNodeNum ro = 5 /\ ro_insertIndex ro = Z.of_nat (1 - m)) /\
    (ro_recordFit ro = false -> lnode' = left_128 /\ rnode' = right_128).
Proof.
  apply (RotateLeft_correct sample_tree (leaf_recs 97) (leaf_recs 103) left_128 right_128 (sample_key 104)
           [9; 9; 9; 9] 8 8 4 1 4 5 (-1));
    [apply holds_two; vm_compute; reflexivity|apply holds_two; vm_compute; reflexivity|simpl; lia
    |reflexivity|reflexivity|reflexivity|reflexivity|reflexivity|compute_bounds..].
Defined.

(** A root that is split: node 2 is free. *)
Definition full_fs : fs file_agent :=
  mkFs (mkBTree 0 1 1 2 1 1 512 516 4 2 0 6 0 0 0 0 0 0 0 0 0) 0
    (mkFile {[0 := sample_header; 1 := make_node 512 0 0 255 1 [split_record 97 210; split_record 103 210]]} 2048).
Definition full_node : buffer := make_node 512 0 0 255 1 [split_record 97 210; split_record 103 210].
Definition full_rec : NodeRec := mkNodeRec (Some full_node) (Some 1) 512 false.

Lemma full_chain : map_chain file_contents file_size full_fs 0 true sample_chain.
Proof.
  apply (chain_last _ _ _ _ _ sample_header_records); [|vm_compute; done].
  split; try (vm_compute; done || (repeat split; done || (intros ?; discriminate))).
  - apply (bool_decide_unpack _). vm_compute. done.
  - apply sample_holds.
Qed.

Lemma full_allocates : exists s1, AllocateNode full_fs = Ok (noErr, 2, s1) /\
  map_changed file_contents file_size full_fs s1 sample_chain 2 true.
Proof.
  destruct (AllocateNode_spec file_contents file_size full_fs sample_chain) as ([[err n] s1] & Hrun & Hres);
    [repeat split; vm_compute; done|apply full_chain|apply sample_NoDup|vm_compute; done|].
  assert (err = noErr /\ n = 2) as [-> ->].
  { destruct Hres as [(-> & Hn & Hb & Hf & Hall & _)|(_ & _ & _ & Hall)].
    - split; [done|]. destruct (Z.lt_trichotomy n 2) as [H|[H|H]]; [|done|].
      + exfalso. assert (n = 0 \/ n = 1) as [->| ->] by lia; vm_compute in Hf; done.
      + specialize (Hall 2 ltac:(lia)). vm_compute in Hall. done.
    - specialize (Hall 2 ltac:(simpl; lia) ltac:(vm_compute; done)). vm_compute in Hall. done. }
  exists s1. split; [done|]. destruct Hres as [(_ & _ & _ & _ & _ & H & _)|[[H|H] _]]; done.
Qed.

Lemma SplitLeft_witness :
  let V := insert_at 1 (key_record (btree full_fs) (sample_key 99) 8 8 (slice (replicate 200 7) 0 200))
             [split_record 97 210; split_record 103 210] in
  exists s1 ro leftNode' rightNode' s' lnode' rnode' m,
    SplitLeft full_fs (mkNodeRec None None 0 false) full_rec 1 1 (sample_key 99) (replicate 200 7) 200 =
      Ok (noErr, ro, leftNode', rightNode', s') /\
    nodeBuffer leftNode' = Some lnode' /\ blockHeader leftNode' = Some 2 /\
    nodeBuffer rightNode' = Some rnode' /\ blockHeader rightNode' = Some 1 /\
    (0 < m < length V)%nat /\ node_holds 512 (take m V) lnode' /\ node_holds 512 (drop m V) rnode' /\
    has_links lnode' 1 0 (-1) 1 /\ has_links rnode' 0 2 (-1) 1 /\
    (if decide (1 < m)%nat then ro_insertNodeNum ro = 2 /\ ro_insertIndex ro = 1
     else ro_insertNodeNum ro = 1 /\ ro_insertIndex ro = Z.of_nat (1 - m)) /\
    sibling_linked file_contents s1 s' None 2 /\
    (forall n, n ∉ map fst sample_chain -> n <> 2 -> Some n <> sibling_number None ->
       file_contents (agent s') n = file_contents (agent full_fs) n) /\
    firstLeafNode (btree s') = 2.
Proof.
  destruct full_allocates as (s1 & Hrun & Hmap). exists s1.
  apply (SplitLeft_correct file_size file_contents full_fs (mkNodeRec None None 0 false) full_rec None full_node
           [split_record 97 210; split_record 103 210] 1 0 0 (-1) 1 1 (sample_key 99) (replicate 200 7) 8 8 200
           sample_chain 2 s1);
    [repeat split; vm_compute; done|compute_bounds|compute_bounds|exact Hrun|compute_bounds|exact Hmap|reflexivity
    |discriminate|reflexivity|apply holds_two; vm_compute; reflexivity|repeat split; vm_compute; reflexivity
    |reflexivity|compute_bounds|compute_bounds|compute_bounds|compute_bounds|simpl; lia|vm_compute; reflexivity
    |vm_compute; reflexivity|compute_bounds|compute_bounds|compute_bounds|compute_bounds|vm_compute; reflexivity
    |vm_compute; reflexivity|apply (bool_decide_unpack _); vm_compute; exact I].
Defined.
