(* ===== verification/BTreeInsert.v ===== *)
(** * Inserting into and deleting from a tree

    The composition of [SearchTree] with [InsertTree] and [DeleteTree]
    (hfsplus/hfscommon/BTree/BTreeTreeOps.c) on whole trees, for changes that stay within a
    leaf: the file holds the tree with the record inserted or deleted. *)
From S2P Require Import Prelude Bytes UnicodeCompare BTreeNode BTreeKeys BTreeNodeTheorems BTreeBlocks BTreeMap.
From S2P Require Import BTreeMapTheorems BTreeMisc BTreeTree BTreeSearch BTreeRotate.

(** ** Nodes that pass the check *)

(** A record of even size, at least [kMinRecordSize] bytes and longer than its key. *)
Definition rec_ok (bt : BTreeControlBlock) (r : buffer) : Prop :=
  Z.even (Z.of_nat (length r)) = true /\ 6 <= Z.of_nat (length r) /\ key_size_at bt r 0 <= Z.of_nat (length r).

Lemma total_even bt recs : Forall (rec_ok bt) recs -> Z.even (total recs) = true.
Proof.
  induction 1 as [|r recs (He & _) _ IH]; [done|]. rewrite total_cons, Z.even_add, He, IH. done.
Qed.

Lemma total_min bt recs : Forall (rec_ok bt) recs -> 6 * Z.of_nat (length recs) <= total recs.
Proof. induction 1 as [|r recs (_ & ? & _) _ IH]; [done|]. rewrite total_cons. simpl length. lia. Qed.

Section check_holds.
Context (bt : BTreeControlBlock) (recs : list buffer) (node : buffer) (fl bl k h eof : Z).
Context (Hh : node_holds (nodeSize bt) recs node) (Hb : Forall byte node) (Hev : Z.even (nodeSize bt) = true)
  (H64 : 64 <= nodeSize bt) (HE : nodeSize bt <= eof < 2 ^ 32 * nodeSize bt).
Context (Hl : has_links node fl bl k h) (Hok : Forall (rec_ok bt) recs) (Hne : recs <> []).

Lemma holds_entry i : (i <= length recs)%nat -> entry (nodeSize bt) node i = rec_offset recs i.
Proof using Hh.
  intros Hi. destruct (node_holds_bounds _ _ _ i Hh Hi) as (? & ? & ?). unfold entry.
  rewrite (nh_offsets _ _ _ Hh) by done. by rewrite le_decode16 by lia.
Qed.

Lemma rec_offset_even i : Z.even (rec_offset recs i) = true.
Proof using Hok.
  unfold rec_offset. rewrite Z.even_add, (total_even bt) by (by apply Forall_take). done.
Qed.

Lemma holds_checked n j : (j < length recs)%nat -> checked bt node k n j (rec_offset recs (S j)).
Proof using Hh Hok Hne.
  intros Hj. destruct (lookup_lt_is_Some_2 recs j Hj) as [r Hr]. unfold checked.
  rewrite holds_entry by lia. pose proof (rec_offset_S _ _ _ Hr) as HS.
  pose proof (Forall_lookup_1 _ _ _ _ Hok Hr) as (_ & H6 & Hk). split_and!; [apply rec_offset_even|lia|].
  intros _ _. rewrite HS. destruct (node_holds_bounds _ _ _ (S j) Hh ltac:(lia)) as (? & ? & ?).
  replace (key_size_at bt node (rec_offset recs j)) with (key_size_at bt r 0); [lia|].
  unfold key_size_at. do 2 f_equal. rewrite <- (slice_record _ _ _ Hh _ _ Hr). pose proof (size_of_length_range bt).
  pose proof (rec_offset_ge recs j). rewrite slice_slice by lia. f_equal. lia.
Qed.

Lemma CheckNode_holds : fl <= eof / nodeSize bt - 1 -> bl <= eof / nodeSize bt - 1 ->
  kBTLeafNode <= k <= kBTMapNode -> h <= treeDepth bt -> CheckNode bt eof node = Ok noErr.
Proof using All.
  intros Hfl Hbl Hk Hd. destruct (node_holds_bounds _ _ _ (length recs) Hh ltac:(lia)) as (? & ? & ?).
  destruct (CheckNode_spec bt node ltac:(lia) ltac:(lia) Hev Hb eof H64 HE) as (err & -> & _ & Hv).
  f_equal. apply Hv. destruct Hl as (Lf & Lb & Lk & Lh). unfold valid_node. cbv zeta.
  unfold fLink, bLink, kind, height, load32, load8 in *. rewrite get_bytes_ok in * by lia.
  cbn [mbind outcome_bind] in *. injection Lf as ->. injection Lb as ->. injection Lk as ->. injection Lh as ->.
  rewrite (nh_count _ _ _ Hh), le_decode16 by lia. rewrite Nat2Z.id.
  pose proof (total_min bt recs Hok). pose proof (rec_offset_all recs) as Ho. unfold sizeof_BTNodeDescriptor in Ho.
  assert (1 <= length recs)%nat by (destruct recs; [done|simpl; lia]).
  split_and!; try lia.
  - apply Z.div_le_lower_bound; lia.
  - rewrite holds_entry by lia. apply rec_offset_ge.
  - unfold checked. rewrite holds_entry by lia. split_and!; [apply rec_offset_even|lia|lia].
  - intros j Hj. rewrite holds_entry by lia. apply holds_checked. lia.
Qed.
End check_holds.

(** ** The records of a node are determined by its bytes *)

Lemma node_holds_inj size recs recs' node :
  node_holds size recs node -> node_holds size recs' node -> recs = recs'.
Proof.
  intros H1 H2. set (bt := mkBTree 0 0 0 0 0 0 size 0 0 0 0 0 0 0 0 0 0 0 0 0 0).
  pose proof (numRecords_holds bt recs node H1) as E1. rewrite (numRecords_holds bt recs' node H2) in E1.
  injection E1 as El. apply Nat2Z.inj in El.
  assert (forall i, (i <= length recs)%nat -> rec_offset recs i = rec_offset recs' i) as Ho.
  { intros i Hi. pose proof (GetRecordOffset_holds bt recs node H1 i Hi) as E.
    rewrite (GetRecordOffset_holds bt recs' node H2 i ltac:(lia)) in E. congruence. }
  apply list_eq. intros i. destruct (decide (i < length recs)%nat) as [Hi|Hi].
  - destruct (lookup_lt_is_Some_2 recs i Hi) as [r Hr]. destruct (lookup_lt_is_Some_2 recs' i) as [r' Hr']; [lia|].
    rewrite Hr, Hr'. f_equal. rewrite <- (slice_record bt recs node H1 i r Hr), <- (slice_record bt recs' node H2 i r' Hr').
    pose proof (rec_offset_S _ _ _ Hr). pose proof (rec_offset_S _ _ _ Hr').
    rewrite (Ho i) by lia. f_equal. rewrite (Ho i), (Ho (S i)) in * by lia. lia.
  - rewrite !lookup_ge_None_2 by lia. done.
Qed.

(** ** A tree in which one leaf changes *)

Section update_leaf.
Context {W : Type} `{!FSAgent W} (size : Z) (contents : W -> Z -> buffer) `{!FSAgentLaws W size contents}.
Context (P : buffer -> Prop) (rank : buffer -> list Z).

Definition set_leaf (m : Z) (recs : list buffer) (lf : leaf) : leaf := if decide (lf.1 = m) then (m, recs) else lf.

Lemma set_leaf_other m recs leaves : m ∉ map fst leaves -> map (set_leaf m recs) leaves = leaves.
Proof.
  induction leaves as [|[n rs] leaves IH]; intros Hm; [done|]. simpl in *. rewrite not_elem_of_cons in Hm.
  rewrite IH by tauto. unfold set_leaf. simpl. rewrite decide_False by (intros ->; tauto). done.
Qed.

Lemma tree_leaves_nonempty s l n leaves : tree_at size contents P rank s l n leaves -> leaves <> [].
Proof.
  induction 1 as [n recs|l n recs parts _ _ Hne Hlen _ _ IH _ _]; [done|].
  destruct recs as [|r recs]; [done|]. destruct parts as [|p parts]; [done|].
  specialize (IH 0%nat r p eq_refl eq_refl). simpl. by destruct p.
Qed.

(** Index nodes are not leaves, so a leaf outside a subtree is none of its nodes. *)
Lemma tree_frame s s' m k : 
  same_tree (btree s) (btree s') -> fcbEOF (agent s') = fcbEOF (agent s) ->
  (forall n, n <> m -> contents (agent s') n = contents (agent s) n) ->
  kind (contents (agent s) m) = Ok k -> k <> kBTIndexNode ->
  forall l n leaves, tree_at size contents P rank s l n leaves -> m ∉ map fst leaves ->
  tree_at size contents P rank s' l n leaves.
Proof using Type.
  intros Ht HE HC Hk Hki.
  assert (forall l kk n recs, n <> m -> node_ok size contents P rank s l kk n recs ->
            node_ok size contents P rank s' l kk n recs) as Hnode.
  { intros l kk n recs Hn [H0 (? & ? & ?) ? ? ? ? ?]. split; rewrite ?HC; try done.
    unfold readable. rewrite HE, HC, (CheckNode_same _ _ _ _ Ht) by done.
    destruct (same_tree_fields _ _ Ht) as (_ & -> & _). done. }
  induction 1 as [n recs Hn|l n recs parts Hl Hn Hne Hlen Hix Hsub IH Hlo Hhi]; intros Hm.
  - apply tree_leaf, Hnode; [|done]. intros ->. apply Hm. simpl. by left.
  - apply (tree_index _ _ _ _ _ _ _ recs); try done.
    + apply Hnode; [|done]. intros ->. pose proof (no_kind _ _ _ _ _ _ _ _ _ Hn). congruence.
    + eapply Forall_impl; [exact Hix|]. intros. by apply (index_record_same (btree s)).
    + intros i r lv Hr Hp. rewrite (child_of_same (btree s)) by done. apply (IH i r lv Hr Hp).
      intros Hin. apply Hm. rewrite concat_map. apply list_elem_of_In, in_concat.
      exists (map fst lv). split; apply list_elem_of_In; [|done].
      apply list_elem_of_lookup. exists i. by rewrite list_lookup_fmap, Hp.
Qed.

(** A path ends in a leaf of the tree. *)
Lemma path_leaf s l n leaves : tree_at size contents P rank s l n leaves ->
  forall t key m index, path_ok size contents rank s t key l n m index -> m ∈ map fst leaves.
Proof using Type.
  induction 1 as [n recs Hn|l n recs parts Hl Hn Hne Hlen Hix Hsub IH Hlo Hhi]; intros t key m index Hp.
  - destruct Hp as [<- _]. simpl. by left.
  - destruct l as [|l]; [lia|]. destruct Hp as (i & recs' & r & _ & Hh & Hr & _ & Hp).
    rewrite <- (node_holds_inj _ _ _ _ (no_holds _ _ _ _ _ _ _ _ _ Hn) Hh) in Hr.
    destruct (lookup_lt_is_Some_2 parts i) as [lv Hlv]; [rewrite Hlen; by eapply lookup_lt_Some|].
    specialize (IH i r lv Hr Hlv t key m index Hp). rewrite concat_map. apply list_elem_of_In, in_concat.
    exists (map fst lv). split; apply list_elem_of_In; [|done].
    apply list_elem_of_lookup. exists i. by rewrite list_lookup_fmap, Hlv.
Qed.

Lemma NoDup_concat_index {A} (ls : list (list A)) i j a b x :
  NoDup (concat ls) -> ls !! i = Some a -> ls !! j = Some b -> x ∈ a -> x ∈ b -> i = j.
Proof using Type.
  revert i j. induction ls as [|l ls IH]; intros i j Hnd Hi Hj Ha Hb; [done|].
  simpl in Hnd. apply NoDup_app in Hnd as (_ & Hdis & Hnd).
  assert (forall k c, ls !! k = Some c -> x ∈ c -> x ∈ concat ls) as Hin.
  { intros k c Hk Hc. apply list_elem_of_In, in_concat. exists c.
    split; apply list_elem_of_In; [by eapply list_elem_of_lookup_2|done]. }
  destruct i as [|i], j as [|j]; simpl in Hi, Hj; [done|..].
  - injection Hi as ->. exfalso. apply (Hdis x Ha). by apply (Hin j b).
  - injection Hj as ->. exfalso. apply (Hdis x Hb). by apply (Hin i a).
  - f_equal. by apply IH.
Qed.

Lemma NoDup_concat_part {A} (ls : list (list A)) i a : NoDup (concat ls) -> ls !! i = Some a -> NoDup a.
Proof using Type.
  revert i. induction ls as [|l ls IH]; intros [|i] Hnd Hi; simpl in *; try done;
    apply NoDup_app in Hnd as (? & _ & ?); [congruence|by apply (IH i)].
Qed.

(** The records of a tree with a changed leaf. *)
Lemma set_leaf_records m recs recs' leaves x : NoDup (map fst leaves) -> (m, recs) ∈ leaves ->
  x ∈ leaf_records (map (set_leaf m recs') leaves) -> x ∈ leaf_records leaves \/ x ∈ recs'.
Proof using Type.
  intros _ _. unfold leaf_records. rewrite map_map. intros Hx.
  apply list_elem_of_In, in_concat in Hx as (rs & Hrs & Hx). apply in_map_iff in Hrs as ([n rs0] & <- & Hin).
  apply list_elem_of_In in Hx. unfold set_leaf in Hx. simpl in Hx. destruct (decide (n = m)); [by right|left].
  apply list_elem_of_In, in_concat. exists rs0. split; [by apply (in_map snd _ (n, rs0))|by apply list_elem_of_In].
Qed.

Section update.
Context (s s' : fs W) (m : Z) (recs recs' : list buffer) (key : buffer).
Context (Ht : same_tree (btree s) (btree s')) (HE : fcbEOF (agent s') = fcbEOF (agent s))
  (HC : forall n, n <> m -> contents (agent s') n = contents (agent s) n).
Context (Hold : kind (contents (agent s) m) = Ok kBTLeafNode)
  (Hnew : node_ok size contents P rank s' 1 kBTLeafNode m recs').

(** A key that comes to a leaf is one that the path leads to, and not the smallest. *)
Definition comes_to (l : nat) (n : Z) : Prop :=
  (exists t index, path_ok size contents rank s t key l n m index) /\
  (exists y, y ∈ recs /\ lex_cmp (rank y) (rank key) <= 0).

Lemma elem_leaf_records leaves x : (m, recs) ∈ leaves -> x ∈ recs -> x ∈ leaf_records leaves.
Proof using Type.
  intros Hm Hx. unfold leaf_records. apply list_elem_of_In, in_concat. exists recs.
  split; [|by apply list_elem_of_In]. apply (in_map snd _ (m, recs)). by apply list_elem_of_In.
Qed.

Lemma tree_update l n leaves : tree_at size contents P rank s l n leaves ->
  NoDup (map fst leaves) -> (m, recs) ∈ leaves ->
  (forall x, x ∈ recs' -> x ∈ recs \/ rank x = rank key /\ (l = 1%nat \/ comes_to l n)) ->
  tree_at size contents P rank s' l n (map (set_leaf m recs') leaves).
Proof using All.
  induction 1 as [n rs Hn|l n rs parts Hl Hn Hne Hlen Hix Hsub IH Hlo Hhi]; intros Hnd Hm Hx.
  { apply list_elem_of_singleton in Hm. injection Hm as <- <-. simpl. unfold set_leaf. simpl.
    rewrite decide_True by done. by apply tree_leaf. }
  rewrite concat_map in Hnd. rewrite concat_map.
  (* the part the leaf is in *)
  apply list_elem_of_In, in_concat in Hm as (lv & Hlv & Hm). apply list_elem_of_In in Hm.
  apply list_elem_of_In, list_elem_of_lookup in Hlv as [i Hlv].
  destruct (lookup_lt_is_Some_2 rs i) as [r Hr]; [rewrite <- Hlen; by eapply lookup_lt_Some|].
  assert (m ∈ map fst lv) as Hmi by (apply (list_elem_of_fmap_2 fst lv (m, recs)); done).
  assert (forall j lv', parts !! j = Some lv' -> j <> i -> m ∉ map fst lv') as Hother.
  { intros j lv' Hj Hne' Hin. apply Hne'.
    apply (NoDup_concat_index (map (map fst) parts) j i (map fst lv') (map fst lv) m Hnd);
      [by rewrite list_lookup_fmap, Hj|by rewrite list_lookup_fmap, Hlv|done|done]. }
  (* the new key is within the bounds of the part *)
  assert (forall x, x ∈ recs' -> x ∈ recs \/ rank x = rank key /\ comes_to l (child_of (btree s) r) /\ chosen rank rs key i)
    as Hx'.
  { intros x Hin. destruct (Hx x Hin) as [?|(Hrk & [?|Hc])]; [by left|lia|right]. split; [done|].
    destruct Hc as ((t & index & Hp) & Hy). destruct l as [|l]; [lia|].
    destruct Hp as (j & rs' & r' & Htab & Hh & Hr' & Hch & Hp).
    rewrite <- (node_holds_inj _ _ _ _ (no_holds _ _ _ _ _ _ _ _ _ Hn) Hh) in Hr', Hch.
    destruct (lookup_lt_is_Some_2 parts j) as [lv' Hlv']; [rewrite Hlen; by eapply lookup_lt_Some|].
    assert (j = i) as ->.
    { destruct (decide (j = i)); [done|]. exfalso. apply (Hother j lv' Hlv'); [done|].
      by apply (path_leaf s (S l) _ _ (Hsub j r' lv' Hr' Hlv') t key m index). }
    rewrite Hr in Hr'. injection Hr' as <-. split; [|done]. split; [by exists t, index|done]. }
  assert (forall j lv', map (map (set_leaf m recs')) parts !! j = Some lv' ->
    exists lv0, parts !! j = Some lv0 /\ lv' = map (set_leaf m recs') lv0 /\
      forall x, x ∈ leaf_records lv' -> x ∈ leaf_records lv0 \/ j = i /\ x ∈ recs') as Hparts.
  { intros j lv' Hj. rewrite list_lookup_fmap in Hj. destruct (parts !! j) as [lv0|] eqn:Ej; [|done].
    injection Hj as <-. exists lv0. split_and!; try done. intros x Hxl. destruct (decide (j = i)) as [->|Hji].
    - rewrite Hlv in Ej. injection Ej as <-.
      destruct (set_leaf_records m recs recs' lv x) as [?|?]; try done; [|by left|by right].
      apply (NoDup_concat_part (map (map fst) parts) i); [done|]. by rewrite list_lookup_fmap, Hlv.
    - left. by rewrite (set_leaf_other m recs' lv0) in Hxl by (by apply (Hother j)). }
  assert (forall x, x ∈ recs' -> x ∈ leaf_records lv \/ rank x = rank key /\ chosen rank rs key i /\
    exists y, y ∈ leaf_records lv /\ lex_cmp (rank y) (rank key) <= 0) as Hbound.
  { intros x Hin. destruct (Hx' x Hin) as [Hr'|(Hrk & (_ & y & Hy & Hle) & Hch)].
    - left. by apply (elem_leaf_records lv).
    - right. split_and!; try done. exists y. split; [by apply (elem_leaf_records lv)|done]. }
  apply (tree_index _ _ _ _ _ _ _ rs); try done.
  - (* the node itself *)
    destruct Hn as [H0 (? & ? & ?) ? Hk ? ? ?]. assert (n <> m) by (intros ->; rewrite Hold in Hk; done).
    split; rewrite ?HC; try done. unfold readable. rewrite HE, HC, (CheckNode_same _ _ _ _ Ht) by done.
    destruct (same_tree_fields _ _ Ht) as (_ & -> & _). done.
  - by rewrite length_map.
  - eapply Forall_impl; [exact Hix|]. intros. by apply (index_record_same (btree s)).
  - intros j r' lv' Hr' Hj. destruct (Hparts j lv' Hj) as (lv0 & Ej & -> & _).
    rewrite (child_of_same (btree s)) by done. destruct (decide (j = i)) as [->|Hji].
    + rewrite Hlv in Ej. injection Ej as <-. apply (IH i r' lv Hr' Hlv); [|done|].
      * apply (NoDup_concat_part (map (map fst) parts) i); [done|]. by rewrite list_lookup_fmap, Hlv.
      * intros x Hin. rewrite Hr in Hr'. injection Hr' as <-. destruct (Hx' x Hin) as [?|(? & ? & ?)]; [by left|right; auto].
    + rewrite set_leaf_other by (by apply (Hother j)).
      apply (tree_frame s s' m kBTLeafNode); try done; [by apply (Hsub j r')|by apply (Hother j)].
  - intros j r' lv' x Hr' Hj Hxl. destruct (Hparts j lv' Hj) as (lv0 & Ej & _ & Hcase).
    destruct (Hcase x Hxl) as [H|[-> H]]; [by apply (Hlo j r' lv0)|]. rewrite Hlv in Ej. injection Ej as <-.
    destruct (Hbound x H) as [?|(-> & _ & y & Hy & Hle)]; [by apply (Hlo i r' lv)|].
    apply (lex_cmp_trans _ (rank y)); [by apply (Hlo i r' lv)|done].
  - intros j r' lv' x Hr' Hj Hxl. destruct (Hparts j lv' Hj) as (lv0 & Ej & _ & Hcase).
    destruct (Hcase x Hxl) as [H|[-> H]]; [by apply (Hhi j r' lv0)|]. rewrite Hlv in Ej. injection Ej as <-.
    destruct (Hbound x H) as [?|(-> & (_ & _ & Hgt) & _)]; [by apply (Hhi i r' lv)|]. apply (Hgt (S i)); [lia|done].
Qed.
End update.
End update_leaf.

(** ** Bytes stay bytes *)

Create HintDb bytes.

(** Whatever a computation returns consists of bytes. *)
Definition gives_bytes (o : outcome buffer) : Prop := forall m, o = Ok m -> Forall byte m.

Lemma gives_bytes_bind {A} (m : outcome A) (f : A -> outcome buffer) :
  (forall a, m = Ok a -> gives_bytes (f a)) -> gives_bytes (m ≫= f).
Proof. intros H b Hb. apply bind_Ok in Hb as (a & Ha & Hb). by apply (H a Ha). Qed.
Lemma gives_bytes_Ok m : Forall byte m -> gives_bytes (Ok m).
Proof. intros H b [= <-]. done. Qed.
Lemma put_bytes_bytes m p bs : Forall byte m -> Forall byte bs -> gives_bytes (put_bytes m p bs).
Proof. intros Hm Hb b. unfold put_bytes. destruct (in_buffer _ _ _); [|done]. intros [= <-]. by apply splice_bytes. Qed.
Lemma get_bytes_bytes m p n : Forall byte m -> gives_bytes (get_bytes m p n).
Proof. intros Hm b. unfold get_bytes. destruct (in_buffer _ _ _); [|done]. intros [= <-]. by apply slice_bytes. Qed.
#[export] Hint Resolve gives_bytes_Ok put_bytes_bytes get_bytes_bytes le_encode_bytes slice_bytes : bytes.

Lemma replicate_bytes n v : byte v -> Forall byte (replicate n v).
Proof. apply Forall_replicate. Qed.
Lemma bcopy_bytes m src dst n : Forall byte m -> gives_bytes (bcopy m src dst n).
Proof.
  intros Hm. unfold bcopy. apply gives_bytes_bind. intros bs Hbs. apply put_bytes_bytes; [done|].
  by apply (get_bytes_bytes m src n Hm).
Qed.
Lemma bzero_bytes m p n : Forall byte m -> gives_bytes (bzero m p n).
Proof.
  intros Hm. unfold bzero. destruct (n <? 0); [done|]. apply put_bytes_bytes; [done|]. apply replicate_bytes.
  unfold byte. lia.
Qed.
Lemma copy_in_bytes node rec src dst n : Forall byte node -> Forall byte rec -> gives_bytes (copy_in node rec src dst n).
Proof.
  intros Hm Hr. unfold copy_in. apply gives_bytes_bind. intros bs Hbs. apply put_bytes_bytes; [done|].
  by apply (get_bytes_bytes rec src n Hr).
Qed.
Lemma store_bytes m p v : Forall byte m ->
  gives_bytes (store8 m p v) /\ gives_bytes (store16 m p v) /\ gives_bytes (store32 m p v).
Proof. intros. unfold store8, store16, store32. split_and!; auto with bytes. Qed.

Lemma insert_offsets_bytes n : forall node src delta, Forall byte node -> gives_bytes (insert_offsets n node src delta).
Proof.
  induction n as [|n IH]; intros node src delta Hm; cbn [insert_offsets]; [auto with bytes|].
  apply gives_bytes_bind. intros v _. apply gives_bytes_bind. intros node' Hn. apply IH.
  by apply (proj1 (proj2 (store_bytes node (src - 2) (u16 (v + delta)) Hm))).
Qed.

Lemma InsertOffset_bytes bt node i d : Forall byte node -> gives_bytes (InsertOffset bt node i d).
Proof.
  intros Hm. unfold InsertOffset, set_numRecords. apply gives_bytes_bind. intros n _. apply gives_bytes_bind.
  intros node' Hn. apply insert_offsets_bytes. by apply (proj1 (proj2 (store_bytes node 10 (u16 (n + 1)) Hm))).
Qed.

Lemma InsertKeyRecord_bytes bt node i keyPtr kl recPtr n ok node' :
  Forall byte node -> Forall byte keyPtr -> Forall byte recPtr ->
  InsertKeyRecord bt node i keyPtr kl recPtr n = Ok (ok, node') -> Forall byte node'.
Proof.
  intros Hm Hk Hr. unfold InsertKeyRecord. cbv zeta. set (ks := if Z.odd _ then _ else _).
  intros H. apply bind_Ok in H as (fs & _ & H). destruct (fs <? _); [by injection H as _ <-|].
  apply bind_Ok in H as (io & _ & H). apply bind_Ok in H as (nr & _ & H). apply bind_Ok in H as (fo & _ & H).
  apply bind_Ok in H as (n1 & H1 & H). assert (Forall byte n1) as B1.
  { destruct (_ =? 0) in H1; [by injection H1 as <-|]. exact (bcopy_bytes _ _ _ _ Hm _ H1). }
  apply bind_Ok in H as (n2 & H2 & H). pose proof (InsertOffset_bytes _ _ _ _ B1 _ H2) as B2.
  apply bind_Ok in H as (n3 & H3 & H). assert (Forall byte n3) as B3.
  { destruct (big_keys bt) in H3; by apply (store_bytes n2 _ _ B2) in H3. }
  apply bind_Ok in H as (rk & _ & H). apply bind_Ok in H as (n4 & H4 & H).
  pose proof (copy_in_bytes _ _ _ _ _ B3 Hk _ H4) as B4.
  apply bind_Ok in H as (n5 & H5 & H). assert (Forall byte n5) as B5.
  { destruct (_ =? 0) in H5; [by injection H5 as <-|]. exact (bzero_bytes _ _ _ B4 _ H5). }
  apply bind_Ok in H as (n6 & H6 & H). injection H as _ <-. exact (copy_in_bytes _ _ _ _ _ B5 Hr _ H6).
Qed.

(** ** Insertion into a leaf with room *)

Section insert_leaf.
Context {W : Type} `{!FSAgent W} (size : Z) (contents : W -> Z -> buffer) `{!FSAgentLaws W size contents}.


Lemma UpdateNode_nil (s : fs W) r opts : nodeBuffer r = None -> UpdateNode s r opts = Ok (noErr, nil_node r, s).
Proof using Type. intros H. unfold UpdateNode. by rewrite H. Qed.

(** The record fits, and either it is not the first one or there is no parent. *)
Lemma InsertTree_fits s t keyPtr recPtr recSize targetNode node recs m (i : nat) replacing n0 raw bl h :
  0 <= m -> nodeBuffer targetNode = Some node -> blockHeader targetNode = Some m -> nodeSize (btree s) = size ->
  node_holds size recs node -> (i <= length recs)%nat -> t !! 1%nat = Some (mkPath m (Z.of_nat i)) ->
  bLink node = Ok bl -> bl <> m -> height node = Ok h -> (i <> 0%nat \/ h = treeDepth (btree s)) ->
  KeyLength (btree s) keyPtr 0 = Ok raw -> 0 <= raw < 65533 ->
  Z.of_nat (size_of_length (btree s)) + raw <= Z.of_nat (length keyPtr) ->
  Z.of_nat (size_of_length (btree s)) <= recSize <= Z.of_nat (length recPtr) ->
  let new := key_record (btree s) keyPtr raw raw (slice recPtr 0 recSize) in
  used_bytes recs + Z.of_nat (length new) + 2 <= size ->
  (forall node', InsertKeyRecord (btree s) node (Z.of_nat i) keyPtr raw recPtr recSize = Ok (true, node') ->
     node_holds size (insert_at i new recs) node' -> is_Ok (CheckNode (btree s) (fcbEOF (agent s)) node')) ->
  exists r' s' node', InsertTree s t keyPtr recPtr recSize targetNode (Z.of_nat i) 1 replacing n0 =
      Ok (noErr, m, r', t, s') /\
    nodeBuffer r' = None /\ updated contents s s' m node' /\
    node_holds size (insert_at i new recs) node' /\ same_links node node' /\
    InsertKeyRecord (btree s) node (Z.of_nat i) keyPtr raw recPtr recSize = Ok (true, node').
Proof using FSAgentLaws0.
  intros Hm0 Hb Hhd Hsz Hh Hi Htab Hbl Hne Hhe Hroot Hraw Hrl Hkey Hrec new Hfit Hck.
  assert (Z.of_nat (length new) = padded_key_size (btree s) raw + recSize) as Hlen.
  { unfold new. rewrite key_record_length by lia. rewrite slice_length by lia. done. }
  rewrite used_bytes_offset in Hfit. rewrite <- Hsz in Hh.
  destruct (InsertKeyRecord_fits (btree s) recs node i keyPtr raw raw recPtr recSize)
    as (node' & Hrun & Hh' & Hl); [done|done|done|lia|lia|done|done|lia|].
  fold new in Hh'.
  destruct (same_links_holds _ _ _ _ _ Hl Hh Hh') as (_ & _ & _ & Ehe).
  destruct (UpdateNode_stores size contents s m (set_buffer targetNode node') node' kLockTransaction)
    as (r' & s' & Hup & Hnil & Hupd); [done|done|done|done|apply Hck; [done|by rewrite <- Hsz]|].
  exists r', s', node'. rewrite Hsz in Hh'. split_and!; try done.
  unfold InsertTree, GetKeyLength. cbn [Z.eqb Pos.eqb orb]. rewrite Hraw. cbn [mbind outcome_bind].
  change (S kMaxDepthEntries) with (S 16). cbn [InsertLevel].
  rewrite (path_at_ok t 1 _ Htab : path_at t 1 = _). cbn [mbind outcome_bind tp_node].
  unfold InsertNode. rewrite Hb. cbn [of_option mbind outcome_bind]. rewrite Hbl. cbn [mbind outcome_bind].
  rewrite (proj2 (Z.eqb_neq m bl)) by congruence. cbv zeta. cbv iota. rewrite Hb. cbn [of_option mbind outcome_bind].
  cbn [ik_keyPtr ik_keyLength ik_recPtr ik_recSize]. rewrite Hrun. cbn [mbind outcome_bind]. rewrite Ehe, Hhe.
  cbn [mbind outcome_bind].
  assert ((Z.of_nat i =? 0) && negb (h =? treeDepth (btree s)) = false) as ->.
  { destruct Hroot as [Hi0| ->]; [rewrite (proj2 (Z.eqb_neq (Z.of_nat i) 0)) by lia; done|].
    rewrite Z.eqb_refl. apply andb_false_r. }
  cbn [negb noErr Z.eqb in_rootSplit mbind outcome_bind in_newNode in_insertParent in_updateParent orb in_right in_left].
  unfold level_finish. rewrite Hup. cbn [mbind outcome_bind negb noErr Z.eqb]. rewrite UpdateNode_nil by done.
  done.
Qed.
End insert_leaf.

(** ** Whole trees *)

Section whole_trees.
Context {W : Type} `{!FSAgent W} (size : Z) (contents : W -> Z -> buffer) `{!FSAgentLaws W size contents}.
Context (P : buffer -> Prop) (rank : buffer -> list Z) (cmp : buffer -> buffer -> outcome Z)
  `{!KeyCompare P rank cmp}.

(** The descriptor of a node that can be read. *)
Lemma readable_links s n : geometry size s -> size <= 32768 -> readable size contents s n ->
  Forall byte (contents (agent s) n) -> Z.of_nat (length (contents (agent s) n)) = size ->
  exists fl bl k h, has_links (contents (agent s) n) fl bl k h /\
    fl <= fcbEOF (agent s) / size - 1 /\ bl <= fcbEOF (agent s) / size - 1 /\
    kBTLeafNode <= k <= kBTMapNode /\ h <= treeDepth (btree s).
Proof using Type.
  intros (H64 & Hsz & Hev & HE) Hmax (Hn & HEn & Hc) Hb Hl.
  assert (size <= fcbEOF (agent s)) as Hle by nia. rewrite Hsz in H64, Hev, HE, Hmax, Hl, Hle.
  destruct (CheckNode_spec (btree s) (contents (agent s) n) ltac:(lia) ltac:(lia) Hev Hb
              (fcbEOF (agent s)) ltac:(lia) (conj Hle HE)) as (err & Hrun & _ & Hv).
  rewrite Hc in Hrun. injection Hrun as <-. destruct (proj1 Hv eq_refl) as (? & ? & ? & ? & _).
  do 4 eexists. unfold has_links, fLink, bLink, kind, height, load32, load8. rewrite !get_bytes_ok by lia.
  cbn [mbind outcome_bind]. rewrite Hsz. split_and!; try done; try lia.
Qed.

(** The check of a node to be written returns. *)
Lemma CheckNode_returns s m node : geometry size s -> size <= 32768 -> readable size contents s m ->
  Forall byte node -> Z.of_nat (length node) = size -> is_Ok (CheckNode (btree s) (fcbEOF (agent s)) node).
Proof using Type.
  intros (H64 & Hsz & Hev & HE) Hmax (Hn & HEn & _) Hb Hl. assert (size <= fcbEOF (agent s)) as Hle by nia.
  rewrite Hsz in H64, Hev, HE, Hmax, Hl, Hle.
  destruct (CheckNode_spec (btree s) node ltac:(lia) ltac:(lia) Hev Hb _ H64 (conj Hle HE)) as (err & -> & _).
  by eexists.
Qed.

(** A leaf that was rewritten with well-formed records is a leaf of the tree again. *)
Lemma leaf_again s s' m recs recs' node' :
  node_ok size contents P rank s 1 kBTLeafNode m recs -> geometry size s -> size <= 32768 ->
  Forall byte (contents (agent s) m) -> updated contents s s' m node' ->
  node_holds size recs' node' -> same_links (contents (agent s) m) node' -> Forall byte node' ->
  Forall (rec_ok (btree s)) recs' -> recs' <> [] -> Forall P recs' -> keys_sorted rank recs' ->
  node_ok size contents P rank s' 1 kBTLeafNode m recs'.
Proof using Type.
  intros [H0 Hread Hhe Hki Hh _ _] Hg Hmax Hb (Ht & _ & HE' & HC & _) Hh' Hl Hb' Hok Hne HP Hs.
  pose proof Hg as (H64 & Hsz & Hev & HE).
  destruct (node_holds_bounds _ _ _ 0 Hh ltac:(lia)) as (? & ? & Hlen).
  destruct (readable_links s m Hg Hmax Hread Hb Hlen) as (fl & bl & k & h & Hlinks & Hfl & Hbl & Hk & Hd).
  destruct (node_holds_bounds _ _ _ 0 Hh' ltac:(lia)) as (? & ? & Hlen').
  destruct (same_links_holds _ _ _ _ _ Hl Hh Hh') as (_ & _ & Ek & Eh).
  pose proof (has_links_same _ _ fl bl k h Hl ltac:(lia) ltac:(lia) Hlinks) as Hlinks'.
  destruct Hread as (Hn & HEn & _). split; rewrite ?HC, ?Ek, ?Eh; try done.
  unfold readable. rewrite HC, HE', (CheckNode_same _ _ _ _ Ht). destruct (same_tree_fields _ _ Ht) as (_ & -> & _).
  split_and!; try done; try lia.
  assert (size <= fcbEOF (agent s)) as Hle by nia. rewrite Hsz in Hh', Hev, H64, HE, Hle, Hfl, Hbl.
  by apply (CheckNode_holds (btree s) recs' node' fl bl k h (fcbEOF (agent s)) Hh' Hb' Hev H64 (conj Hle HE)).
Qed.

Lemma leaf_unique (leaves : list leaf) m a b : NoDup (map fst leaves) -> (m, a) ∈ leaves -> (m, b) ∈ leaves -> a = b.
Proof using Type.
  induction leaves as [|[n rs] leaves IH]; intros Hnd Ha Hb; [by apply not_elem_of_nil in Ha|].
  simpl in Hnd. apply NoDup_cons in Hnd as [Hn Hnd]. rewrite elem_of_cons in Ha, Hb.
  assert (forall c, (m, c) ∈ leaves -> m ∈ map fst leaves) as Hin
    by (intros c Hc; apply (list_elem_of_fmap_2 fst leaves (m, c)); done).
  destruct Ha as [Ha|Ha], Hb as [Hb|Hb]; try congruence.
  - injection Ha as -> ->. exfalso. by apply Hn, (Hin b).
  - injection Hb as -> ->. exfalso. by apply Hn, (Hin a).
  - by apply IH.
Qed.

Lemma set_leaf_split (pre : list leaf) m recs recs' post : NoDup (map fst (pre ++ (m, recs) :: post)) ->
  map (set_leaf m recs') (pre ++ (m, recs) :: post) = pre ++ (m, recs') :: post.
Proof using Type.
  rewrite map_app. simpl. intros Hnd. apply NoDup_app in Hnd as (_ & Hd & Hnd). apply NoDup_cons in Hnd as [Hp _].
  rewrite map_app. simpl. rewrite !set_leaf_other.
  - unfold set_leaf. simpl. by rewrite decide_True.
  - done.
  - intros Hm. apply (Hd m Hm). by left.
Qed.
End whole_trees.

(** ** Search, then insert *)

Lemma elem_insert_at {A} i (x y : A) l : y ∈ insert_at i x l -> y = x \/ y ∈ l.
Proof.
  unfold insert_at. rewrite elem_of_app, elem_of_cons. intros [H|[H|H]]; [right|by left|right];
    rewrite <- (take_drop i l); apply elem_of_app; auto.
Qed.

Lemma Forall_insert_at {A} (Q : A -> Prop) i x l : Q x -> Forall Q l -> Forall Q (insert_at i x l).
Proof. intros. unfold insert_at. rewrite Forall_app, Forall_cons. auto using Forall_take, Forall_drop. Qed.

(** A record put where its key belongs keeps a leaf sorted. *)
Lemma gap_sorted rank recs key new i : keys_sorted rank recs -> (i <= length recs)%nat -> rank new = rank key ->
  (forall r, r ∈ take i recs -> lex_cmp (rank key) (rank r) = 1) ->
  (forall r, r ∈ drop i recs -> lex_cmp (rank key) (rank r) = -1) ->
  keys_sorted rank (insert_at i new recs).
Proof.
  intros Hs Hi Hrk Hlo Hhi. apply (keys_sorted_insert rank recs key); try done.
  - intros j r Hj Hr. apply Hlo, list_elem_of_lookup. exists j. rewrite lookup_take_lt by lia. done.
  - intros j r Hj Hr. apply Hhi, list_elem_of_lookup. exists (j - i)%nat. rewrite lookup_drop. by replace (i + (j - i))%nat with j by lia.
Qed.

Section insert_whole.
Context {W : Type} `{!FSAgent W} (size : Z) (contents : W -> Z -> buffer) `{!FSAgentLaws W size contents}.
Context (P : buffer -> Prop) (rank : buffer -> list Z) (cmp : buffer -> buffer -> outcome Z)
  `{!KeyCompare P rank cmp}.

(** The record that [InsertTree] makes of a key and its data, what it takes for it to be a
    record of a tree, and for a leaf to take it. *)
Definition insertable (bt : BTreeControlBlock) (key data : buffer) (recSize raw : Z) (new : buffer) : Prop :=
  KeyLength bt key 0 = Ok raw /\ 0 <= raw < 65533 /\
  Z.of_nat (size_of_length bt) + raw <= Z.of_nat (length key) /\
  Z.of_nat (size_of_length bt) <= recSize <= Z.of_nat (length data) /\
  new = key_record bt key raw raw (slice data 0 recSize) /\
  Forall byte key /\ Forall byte data /\ P new /\ rank new = rank key /\ rec_ok bt new.

Definition leaf_fits (s : fs W) (m : Z) (recs : list buffer) (new : buffer) : Prop :=
  Forall byte (contents (agent s) m) /\ Forall (rec_ok (btree s)) recs /\ bLink (contents (agent s) m) <> Ok m /\
  used_bytes recs + Z.of_nat (length new) + 2 <= size.

Lemma insertable_same b b' key data n raw new :
  same_tree b b' -> insertable b key data n raw new -> insertable b' key data n raw new.
Proof using Type. by intros (? & ? & ? & ? & ? & ? & ? & ? & ->). Qed.
Lemma rec_ok_same b b' r : same_tree b b' -> rec_ok b r -> rec_ok b' r.
Proof using Type. by intros (? & ? & ? & ? & ? & ? & ? & ? & ->). Qed.

Lemma leaf_fits_same s s' m recs new : same_fs contents s s' -> leaf_fits s m recs new -> leaf_fits s' m recs new.
Proof using Type.
  intros (Ht & _ & _ & HC) (? & Hf & ? & ?). unfold leaf_fits. rewrite HC. split_and!; try done.
  eapply Forall_impl; [exact Hf|]. intros r. by apply rec_ok_same.
Qed.

(** The leaves of a tree are its nodes of height 1. *)
Lemma tree_at_leaf s l n leaves : tree_at size contents P rank s l n leaves ->
  forall m recs, (m, recs) ∈ leaves -> node_ok size contents P rank s 1 kBTLeafNode m recs.
Proof using Type.
  induction 1 as [n recs Hn|l n recs parts Hl Hn Hne Hlen Hix Hsub IH Hlo Hhi]; intros m rs Hin.
  - apply list_elem_of_singleton in Hin. by injection Hin as -> ->.
  - apply list_elem_of_In, in_concat in Hin as (lv & Hlv & Hin). apply list_elem_of_In in Hin.
    apply list_elem_of_In, list_elem_of_lookup in Hlv as [i Hlv].
    destruct (lookup_lt_is_Some_2 recs i) as [r Hr]; [rewrite <- Hlen; by eapply lookup_lt_Some|].
    by apply (IH i r lv Hr Hlv).
Qed.

Lemma path_ok_entry s t key l n m index : path_ok size contents rank s t key l n m index ->
  t !! 1%nat = Some (mkPath m index).
Proof using Type.
  revert n. induction l as [|[|l] IH]; intros n; [done|by intros [<- ?]|]. intros (? & ? & ? & _ & _ & _ & _ & Hp).
  exact (IH _ Hp).
Qed.

(** The tree after a record was put into a leaf, where its key belongs. *)
Lemma inserted_tree s s' l n t key data recSize raw new pre m recs post (i : nat) node' :
  tree_at size contents P rank s l n (pre ++ (m, recs) :: post) -> NoDup (map fst (pre ++ (m, recs) :: post)) ->
  geometry size s -> size <= 32768 -> (i <= length recs)%nat ->
  (forall x, x ∈ take i recs -> lex_cmp (rank key) (rank x) = 1) ->
  (forall x, x ∈ drop i recs -> lex_cmp (rank key) (rank x) = -1) ->
  path_ok size contents rank s t key l n m (Z.of_nat i) ->
  insertable (btree s) key data recSize raw new -> leaf_fits s m recs new -> (i <> 0 \/ l = 1)%nat ->
  updated contents s s' m node' -> node_holds size (insert_at i new recs) node' ->
  same_links (contents (agent s) m) node' -> Forall byte node' ->
  tree_at size contents P rank s' l n (pre ++ (m, insert_at i new recs) :: post).
Proof using FSAgentLaws0 KeyCompare0.
  intros Htree Hnd Hg Hmax Hi Hlo Hhi Hpath (_ & _ & _ & _ & _ & _ & _ & HP & Hrk & Hok) (Hcb & Hcok & _ & _)
    Hroot Hupd Hh2 Hl2 Hby.
  assert ((m, recs) ∈ pre ++ (m, recs) :: post) as Hin by set_solver.
  pose proof (tree_at_leaf _ _ _ _ Htree m recs Hin) as Hn. pose proof Hn as [_ _ _ Hki _ Hkeys Hsort].
  assert (insert_at i new recs <> []) as Hne by (unfold insert_at; by destruct (take i recs)).
  rewrite <- (set_leaf_split pre m recs _ post Hnd). pose proof Hupd as (Ht & _ & HE2 & _ & HC).
  apply (tree_update size contents P rank s s' m recs (insert_at i new recs) key); try done.
  - apply (leaf_again size contents P rank s s' m recs _ node'); try done.
    + by apply Forall_insert_at.
    + by apply Forall_insert_at.
    + by apply (gap_sorted rank recs key).
  - intros x Hx. apply elem_insert_at in Hx as [->|Hx]; [right|by left]. split; [done|].
    destruct Hroot as [Hi0| ->]; [right|by left]. split; [by exists t, (Z.of_nat i)|].
    destruct recs as [|y recs]; [simpl in Hi; lia|]. exists y. split; [by left|].
    rewrite lex_cmp_sym, (Hlo y); [lia|]. destruct i; [done|]. simpl. by left.
Qed.

Lemma insert_at_gap s l n leaves t key data recSize raw new pre m recs post (i : nat) r n0 :
  tree_at size contents P rank s l n leaves -> NoDup (map fst leaves) -> geometry size s -> size <= 32768 ->
  treeDepth (btree s) = Z.of_nat l -> leaves = pre ++ (m, recs) :: post -> (i <= length recs)%nat ->
  (forall x, x ∈ take i recs -> lex_cmp (rank key) (rank x) = 1) ->
  (forall x, x ∈ drop i recs -> lex_cmp (rank key) (rank x) = -1) ->
  nodeBuffer r = Some (contents (agent s) m) -> blockHeader r = Some m ->
  path_ok size contents rank s t key l n m (Z.of_nat i) ->
  insertable (btree s) key data recSize raw new -> leaf_fits s m recs new -> (i <> 0 \/ l = 1)%nat ->
  exists r' s', InsertTree s t key data recSize r (Z.of_nat i) 1 kInsertRecord n0 = Ok (noErr, m, r', t, s') /\
    tree_at size contents P rank s' l n (pre ++ (m, insert_at i new recs) :: post) /\
    exists node', updated contents s s' m node' /\ same_links (contents (agent s) m) node' /\ Forall byte node'.
Proof using FSAgentLaws0 KeyCompare0.
  intros Htree Hnd Hg Hmax Hd -> Hi Hlo Hhi Hb Hhd Hpath (Hraw & Hr & Hkl & Hrs & -> & Hkb & Hdb & HP & Hrk & Hok)
    (Hcb & Hcok & Hbl & Hfit) Hroot. set (new := key_record _ _ _ _ _) in *.
  assert ((m, recs) ∈ pre ++ (m, recs) :: post) as Hin by set_solver.
  pose proof (tree_at_leaf _ _ _ _ Htree m recs Hin) as Hn. pose proof Hg as (H64 & Hsz & Hev & HE).
  pose proof Hn as [_ Hread Hhe Hki Hh Hkeys Hsort].
  destruct (node_holds_bounds _ _ _ 0 Hh ltac:(lia)) as (_ & _ & Hlen).
  destruct (readable_links size contents s m Hg Hmax Hread Hcb Hlen) as (fl & bl & k & h & Hlinks & Hfl & Hb' & Hk & Hh').
  pose proof (path_ok_entry _ _ _ _ _ _ _ Hpath) as Hent.
  assert (Forall (rec_ok (btree s)) (insert_at i new recs)) as Hoks by (by apply Forall_insert_at).
  assert (insert_at i new recs <> []) as Hne by (unfold insert_at; by destruct (take i recs)).
  destruct (InsertTree_fits size contents s t key data recSize r (contents (agent s) m) recs m i kInsertRecord n0 raw bl 1)
    as (r' & s' & node' & Hrun & _ & Hupd & Hh2 & Hl2 & Hins); try done.
  - apply Hread.
  - apply Hlinks.
  - intros ->. apply Hbl, Hlinks.
  - destruct Hroot; [by left|right]. lia.
  - intros node' Hins Hh2. destruct (node_holds_bounds _ _ _ 0 Hh2 ltac:(lia)) as (_ & _ & Hlen2).
    pose proof (InsertKeyRecord_bytes _ _ _ _ _ _ _ _ _ Hcb Hkb Hdb Hins) as Hby.
    by apply (CheckNode_returns size contents s m).
  - pose proof (InsertKeyRecord_bytes _ _ _ _ _ _ _ _ _ Hcb Hkb Hdb Hins) as Hby. exists r', s'.
    split_and!; [done| |by exists node'].
    by apply (inserted_tree s s' l n t key data recSize raw new pre m recs post i node').
Qed.

(** Searching for a key and inserting its record where the search ended, when the leaf
    has room: the file holds the same tree with the record added, all other records are kept
    in their order, and the new one stands between the smaller and the greater keys. *)
Theorem search_insert_tree s t leaves (depth : nat) key data recSize raw new nodePtr f s1 recs n0 :
  tree_at size contents P rank s depth (rootNode (btree s)) leaves -> NoDup (map fst leaves) ->
  geometry size s -> size <= 32768 -> treeDepth (btree s) = Z.of_nat depth -> (1 <= depth <= 15)%nat ->
  P key -> length t = kMaxDepthEntries -> insertable (btree s) key data recSize raw new ->
  SearchTree cmp s key t nodePtr = Ok (fsBTRecordNotFoundErr, f, s1) ->
  (f_nodeNum f, recs) ∈ leaves -> leaf_fits s (f_nodeNum f) recs new -> f_index f <> 0 \/ depth = 1%nat ->
  exists r' s2 leaves' before after,
    InsertTree s1 (f_path f) key data recSize (f_node f) (f_index f) 1 kInsertRecord n0 =
      Ok (noErr, f_nodeNum f, r', f_path f, s2) /\
    tree_at size contents P rank s2 depth (rootNode (btree s2)) leaves' /\ map fst leaves' = map fst leaves /\
    leaf_records leaves = before ++ after /\ leaf_records leaves' = before ++ new :: after /\
    (forall r, r ∈ before -> lex_cmp (rank key) (rank r) = 1) /\
    (forall r, r ∈ after -> lex_cmp (rank key) (rank r) = -1).
Proof using FSAgentLaws0 KeyCompare0.
  intros Htree Hnd Hg Hmax Hd Hdepth HPk Ht Hins Hsearch Hin Hfits Hroot. pose proof Hg as (_ & Hsz & _).
  destruct (search_from_root size contents P rank cmp s t leaves key nodePtr depth) as (err & f' & s1' & Hrun & Hpost); try done.
  rewrite Hsearch in Hrun. injection Hrun as <- <- <-.
  destruct Hpost as (Hs1 & Hloc & Hb & Hhd & _ & _ & Hpath). pose proof Hs1 as (Ht1 & _ & _ & HC).
  destruct Hloc as [[? _]|[_ (pre & recs' & post & Hlv & Hix & Hlo & Hhi)]]; [done|].
  assert (recs' = recs) as ->.
  { apply (leaf_unique leaves (f_nodeNum f)); [done| |done]. rewrite Hlv. set_solver. }
  destruct (insert_at_gap s1 depth (rootNode (btree s)) leaves (f_path f) key data recSize raw new pre (f_nodeNum f) recs
    post (Z.to_nat (f_index f)) (f_node f) n0) as (r' & s2 & Hrun & Htree2 & node' & (Ht2 & _) & _); try done.
  - by apply (tree_at_same _ _ _ _ s).
  - by apply (geometry_same contents size s).
  - rewrite <- Hd. by destruct Ht1 as (? & ? & ? & ? & ? & ? & ? & ? & ->).
  - lia.
  - set_solver.
  - set_solver.
  - by rewrite HC.
  - rewrite Z2Nat.id by lia. apply (path_ok_same _ _ _ s1 s); [by symmetry|done].
  - by apply (insertable_same (btree s)).
  - by apply (leaf_fits_same s).
  - lia.
  - rewrite Z2Nat.id in Hrun by lia.
    exists r', s2, (pre ++ (f_nodeNum f, insert_at (Z.to_nat (f_index f)) new recs) :: post),
      (leaf_records pre ++ take (Z.to_nat (f_index f)) recs), (drop (Z.to_nat (f_index f)) recs ++ leaf_records post).
    split_and!; try done.
    + replace (rootNode (btree s2)) with (rootNode (btree s)); [done|].
      destruct Ht1 as (? & ? & ? & ? & ? & ? & ? & ? & E1), Ht2 as (? & ? & ? & ? & ? & ? & ? & ? & E2). by rewrite E2, E1.
    + rewrite Hlv, !map_app. done.
    + rewrite Hlv, leaf_records_app. unfold leaf_records. simpl. by rewrite <- app_assoc, (app_assoc (take _ _)), take_drop.
    + rewrite leaf_records_app. unfold leaf_records, insert_at. simpl. by rewrite <- !app_assoc.
Qed.
End insert_whole.

(** ** A record put into the second leaf of a tree *)

Definition nowhere : Found := mkFound 0 (mkNodeRec None None 0 false) 0 empty_path.
Definition two_found : Found * fs file_agent :=
  match SearchTree CompareExtendedCatalogKeys two_fs (sample_key 104) empty_path (mkNodeRec None None 0 false) with
  | Ok (_, f, s) => (f, s)
  | _ => (nowhere, two_fs)
  end.
Definition new_record : buffer := sample_key 104 ++ [9; 9; 9; 9].

(** A comparison of numbers that compute. *)
Ltac compare := vm_compute; intros ?; discriminate.

Lemma two_leaf_fits : leaf_fits file_size file_contents two_fs 3 (leaf_recs 103) new_record.
Proof.
  unfold leaf_fits. split_and!.
  - apply (bool_decide_unpack _). vm_compute. exact I.
  - unfold leaf_recs. rewrite !Forall_cons. split_and!; [| |done]; (split_and!; [reflexivity|simpl; lia|compare]).
  - vm_compute. discriminate.
  - compare.
Qed.

Lemma search_insert_tree_witness :
  exists r' s2 leaves' before after,
    InsertTree two_found.2 (f_path two_found.1) (sample_key 104) [9; 9; 9; 9] 4 (f_node two_found.1) (f_index two_found.1)
      1 kInsertRecord 0 = Ok (noErr, f_nodeNum two_found.1, r', f_path two_found.1, s2) /\
    tree_at file_size file_contents catalog_key_plus catalog_rank_plus s2 2 (rootNode (btree s2)) leaves' /\
    map fst leaves' = map fst two_leaves /\
    leaf_records two_leaves = before ++ after /\ leaf_records leaves' = before ++ new_record :: after /\
    (forall r, r ∈ before -> lex_cmp (catalog_rank_plus (sample_key 104)) (catalog_rank_plus r) = 1) /\
    (forall r, r ∈ after -> lex_cmp (catalog_rank_plus (sample_key 104)) (catalog_rank_plus r) = -1).
Proof.
  assert (f_nodeNum two_found.1 = 3) as Hm by (vm_compute; reflexivity).
  apply (search_insert_tree file_size file_contents catalog_key_plus catalog_rank_plus CompareExtendedCatalogKeys
           two_fs empty_path two_leaves 2 (sample_key 104) [9; 9; 9; 9] 4 8 new_record (mkNodeRec None None 0 false)
           two_found.1 two_found.2 (leaf_recs 103) 0).
  - apply two_tree.
  - apply (bool_decide_unpack _). vm_compute. exact I.
  - split_and!; [compare|reflexivity|reflexivity|reflexivity].
  - compare.
  - reflexivity.
  - lia.
  - apply (sample_key_ok 104 []); apply (bool_decide_unpack _); vm_compute; exact I.
  - reflexivity.
  - split_and!; [reflexivity|lia|lia|compare|compare|compare|reflexivity| | | | |].
    + apply (bool_decide_unpack _). vm_compute. exact I.
    + apply (bool_decide_unpack _). vm_compute. exact I.
    + apply sample_key_ok. apply (bool_decide_unpack _). vm_compute. exact I.
    + vm_compute. reflexivity.
    + split_and!; [reflexivity|simpl; lia|compare].
  - vm_compute. reflexivity.
  - rewrite Hm. apply list_elem_of_further, list_elem_of_here.
  - rewrite Hm. apply two_leaf_fits.
  - left. vm_compute. discriminate.
Defined.

(** ** Search, then delete *)

Lemma delete_offsets_bytes n : forall node dst delta, Forall byte node -> gives_bytes (delete_offsets n node dst delta).
Proof.
  induction n as [|n IH]; intros node dst delta Hm; cbn [delete_offsets]; [auto with bytes|].
  apply gives_bytes_bind. intros v _. apply gives_bytes_bind. intros node' Hn. apply IH.
  by apply (proj1 (proj2 (store_bytes node (dst - 2) (u16 (v - delta)) Hm))).
Qed.

Lemma DeleteRecord_bytes bt node i : Forall byte node -> gives_bytes (DeleteRecord bt node i).
Proof.
  intros Hm. unfold DeleteRecord, DeleteOffset, set_numRecords. do 4 (apply gives_bytes_bind; intros ? _).
  cbv zeta. apply gives_bytes_bind. intros n1 H1. assert (Forall byte n1) as B1.
  { destruct (_ =? 0) in H1; [by injection H1 as <-|]. exact (bcopy_bytes _ _ _ _ Hm _ H1). }
  apply gives_bytes_bind. intros n2 H2. assert (Forall byte n2) as B2.
  { revert n2 H2. apply gives_bytes_bind. intros ? _. apply gives_bytes_bind. intros ? _. apply gives_bytes_bind.
    intros v _. apply gives_bytes_bind. intros n3 H3. apply delete_offsets_bytes.
    by apply (proj1 (proj2 (store_bytes n1 10 (u16 (v - 1)) B1))). }
  do 2 (apply gives_bytes_bind; intros ? _). by apply bzero_bytes.
Qed.

Section delete_whole.
Context {W : Type} `{!FSAgent W} (size : Z) (contents : W -> Z -> buffer) `{!FSAgentLaws W size contents}.
Context (P : buffer -> Prop) (rank : buffer -> list Z) (cmp : buffer -> buffer -> outcome Z)
  `{!KeyCompare P rank cmp}.

(** A deletion that stays within the leaf: the leaf keeps a record, and there is no parent
    that has its first key. *)
Definition leaf_stays (depth i n : nat) : Prop :=
  (2 <= n /\ (2 <= depth /\ i <> 0 \/ depth = 1))%nat.

(** A leaf is the end of a collapse: it is written, and that is all. *)
Lemma CollapseTree_leaf s r b n : nodeBuffer r = Some b -> numRecords b = Ok n -> kind b = Ok kBTLeafNode ->
  forall r' s', UpdateNode s r kLockTransaction = Ok (noErr, r', s') -> CollapseTree s r = Ok (noErr, r', s').
Proof using Type.
  intros Hb Hn Hk r' s' Hup. unfold CollapseTree. cbn [collapse_loop]. rewrite Hb. cbn [of_option mbind outcome_bind].
  rewrite Hn. cbn [mbind outcome_bind]. rewrite Hk. cbn [mbind outcome_bind]. rewrite Z.eqb_refl, orb_true_r. cbn [mbind outcome_bind].
  rewrite !Z.eqb_refl. cbn [negb]. rewrite Hup. done.
Qed.

Lemma DeleteTree_leaf s t targetNode node recs m (i : nat) r (depth : nat) :
  0 <= m -> nodeBuffer targetNode = Some node -> blockHeader targetNode = Some m -> nodeSize (btree s) = size ->
  node_holds size recs node -> recs !! i = Some r -> t !! 1%nat = Some (mkPath m (Z.of_nat i)) ->
  treeDepth (btree s) = Z.of_nat depth -> leaf_stays depth i (length recs) -> kind node = Ok kBTLeafNode ->
  (forall node', DeleteRecord (btree s) node (Z.of_nat i) = Ok node' -> node_holds size (delete i recs) node' ->
     is_Ok (CheckNode (btree s) (fcbEOF (agent s)) node')) ->
  exists r' s' node', DeleteTree s t targetNode (Z.of_nat i) 1 = Ok (noErr, r', s') /\
    updated contents s s' m node' /\ node_holds size (delete i recs) node' /\ same_links node node' /\
    DeleteRecord (btree s) node (Z.of_nat i) = Ok node'.
Proof using FSAgentLaws0.
  intros Hm0 Hb Hhd Hsz Hh Hr Htab Hd Hstay Hkind Hck. rewrite <- Hsz in Hh.
  destruct (DeleteRecord_spec (btree s) recs node i r Hh Hr) as (node' & Hrun & Hh' & Hl & _).
  pose proof (delete_record_length _ _ _ Hr) as HL. unfold leaf_stays in Hstay.
  destruct (UpdateNode_stores size contents s m (set_buffer targetNode node') node' kLockTransaction)
    as (r' & s' & Hup & Hnil & Hupd); [done|done|done|done|apply Hck; [done|by rewrite <- Hsz]|].
  pose proof (numRecords_holds (btree s) _ _ Hh') as Hn. rewrite Hsz in Hh'.
  assert (kind node' = Ok kBTLeafNode) as Hkind'.
  { destruct (node_holds_bounds _ _ _ 0 Hh ltac:(lia)) as (_ & _ & ?), (node_holds_bounds _ _ _ 0 Hh' ltac:(lia)) as (_ & _ & ?).
    destruct (node_holds_bounds _ _ _ (length recs) Hh ltac:(lia)) as (? & ? & _).
    destruct (same_links_fields node node' Hl ltac:(lia) ltac:(lia)) as (_ & _ & -> & _). done. }
  cut (exists r'', DeleteTree s t targetNode (Z.of_nat i) 1 = Ok (noErr, r'', s')).
  { intros [r'' ?]. by exists r'', s', node'. }
  unfold DeleteTree. cbn [delete_tree]. rewrite (path_at_ok t 1 _ Htab : path_at t 1 = _). cbn [mbind outcome_bind tp_node].
  rewrite Hb. cbn [of_option mbind outcome_bind]. rewrite Hrun. cbn [mbind outcome_bind]. rewrite Hn.
  cbn [mbind outcome_bind]. rewrite (proj2 (Z.eqb_neq (Z.of_nat (length (delete i recs))) 0)) by lia.
  cbn [mbind outcome_bind]. change (negb (noErr =? noErr)) with false. cbv iota. rewrite Hd. unfold delete_root.
  cbn [set_buffer nodeBuffer]. rewrite Hn. cbn [mbind outcome_bind].
  assert (delete_finish s (set_buffer targetNode node') (mkNodeRec None None 0 false) = Ok (noErr, r', s')) as Hfin.
  { unfold delete_finish. rewrite Hup. done. }
  destruct Hstay as [H2 [(? & ?)| ->]].
  - cbv zeta. rewrite (proj2 (Z.eqb_neq 1 (Z.of_nat depth))), (proj2 (Z.eqb_neq (Z.of_nat i) 0)) by lia. by exists r'.
  - change (1 =? Z.of_nat 1) with true. destruct (Nat.eqb_spec (length (delete i recs)) 1) as [E1|E1].
    + rewrite E1. change (Z.of_nat 1 =? 1) with true. cbn iota.
      rewrite (CollapseTree_leaf s (set_buffer targetNode node') node' _ eq_refl Hn Hkind' r' s' Hup).
      cbn [mbind outcome_bind negb andb orb noErr Z.eqb]. change (Z.of_nat 1 =? 0) with false. cbn [negb andb orb]. rewrite andb_false_r. cbn [orb].
      unfold delete_finish, UpdateNode. rewrite Hnil. by eexists.
    + rewrite (proj2 (Z.eqb_neq (Z.of_nat (length (delete i recs))) 1)) by lia.
      cbn [mbind outcome_bind negb andb orb noErr Z.eqb]. rewrite andb_false_r. by exists r'.
Qed.

Lemma delete_at_key s l n leaves t pre m recs post (i : nat) x r key :
  tree_at size contents P rank s l n leaves -> NoDup (map fst leaves) -> geometry size s -> size <= 32768 ->
  treeDepth (btree s) = Z.of_nat l -> leaves = pre ++ (m, recs) :: post -> recs !! i = Some x ->
  nodeBuffer r = Some (contents (agent s) m) -> blockHeader r = Some m ->
  path_ok size contents rank s t key l n m (Z.of_nat i) ->
  Forall byte (contents (agent s) m) -> Forall (rec_ok (btree s)) recs -> leaf_stays l i (length recs) ->
  exists r' s', DeleteTree s t r (Z.of_nat i) 1 = Ok (noErr, r', s') /\
    tree_at size contents P rank s' l n (pre ++ (m, delete i recs) :: post) /\
    exists node', updated contents s s' m node' /\ same_links (contents (agent s) m) node' /\ Forall byte node'.
Proof using FSAgentLaws0 KeyCompare0.
  intros Htree Hnd Hg Hmax Hd -> Hx Hb Hhd Hpath Hcb Hok Hstay.
  assert ((m, recs) ∈ pre ++ (m, recs) :: post) as Hin by set_solver.
  pose proof (tree_at_leaf size contents P rank _ _ _ _ Htree m recs Hin) as Hn. pose proof Hg as (H64 & Hsz & Hev & HE).
  pose proof Hn as [_ Hread Hhe Hki Hh Hkeys Hsort]. pose proof (delete_record_length _ _ _ Hx) as HL.
  pose proof (path_ok_entry _ _ _ _ _ _ _ _ _ _ Hpath) as Hent.
  destruct (DeleteTree_leaf s t r (contents (agent s) m) recs m i x l)
    as (r' & s' & node' & Hrun & Hupd & Hh2 & Hl2 & Hdel); try done.
  - apply Hread.
  - intros node' Hdel Hh2. destruct (node_holds_bounds _ _ _ 0 Hh2 ltac:(lia)) as (_ & _ & Hlen2).
    apply (CheckNode_returns size contents s m); try done. exact (DeleteRecord_bytes _ _ _ Hcb _ Hdel).
  - pose proof (DeleteRecord_bytes _ _ _ Hcb _ Hdel) as Hby. exists r', s'. split_and!; [done| |by exists node'].
    rewrite <- (set_leaf_split pre m recs _ post Hnd).
    assert (forall y, y ∈ delete i recs -> y ∈ recs) as Hsub.
    { intros y Hy. rewrite delete_take_drop, elem_of_app in Hy. rewrite <- (take_drop_middle recs i x Hx). set_solver. }
    pose proof Hupd as (Ht & _ & HE2 & _ & HC).
    apply (tree_update size contents P rank s s' m recs (delete i recs) key); try done.
    + apply (leaf_again size contents P rank s s' m recs _ node'); try done.
      * rewrite Forall_forall in Hok |- *. auto.
      * intros E. rewrite E in HL. unfold leaf_stays in Hstay. simpl in HL. lia.
      * rewrite Forall_forall in Hkeys |- *. auto.
      * by apply keys_sorted_delete.
    + intros y Hy. left. auto.
Qed.


(** Searching for a key and deleting the record found, when its leaf keeps others: the
    file holds the same tree without that record, and nothing else is lost. *)
Theorem search_delete_tree s t leaves (depth : nat) key nodePtr f s1 recs :
  tree_at size contents P rank s depth (rootNode (btree s)) leaves -> NoDup (map fst leaves) ->
  geometry size s -> size <= 32768 -> treeDepth (btree s) = Z.of_nat depth -> (1 <= depth <= 15)%nat ->
  P key -> length t = kMaxDepthEntries ->
  SearchTree cmp s key t nodePtr = Ok (noErr, f, s1) -> (f_nodeNum f, recs) ∈ leaves ->
  Forall byte (contents (agent s) (f_nodeNum f)) -> Forall (rec_ok (btree s)) recs ->
  leaf_stays depth (Z.to_nat (f_index f)) (length recs) ->
  exists r' s2 leaves' before r after,
    DeleteTree s1 (f_path f) (f_node f) (f_index f) 1 = Ok (noErr, r', s2) /\
    tree_at size contents P rank s2 depth (rootNode (btree s2)) leaves' /\ map fst leaves' = map fst leaves /\
    leaf_records leaves = before ++ r :: after /\ leaf_records leaves' = before ++ after /\
    lex_cmp (rank key) (rank r) = 0.
Proof using FSAgentLaws0 KeyCompare0.
  intros Htree Hnd Hg Hmax Hd Hdepth HPk Ht Hsearch Hin Hcb Hok Hstay. pose proof Hg as (_ & Hsz & _).
  destruct (search_from_root size contents P rank cmp s t leaves key nodePtr depth) as (err & f' & s1' & Hrun & Hpost); try done.
  rewrite Hsearch in Hrun. injection Hrun as <- <- <-.
  destruct Hpost as (Hs1 & Hloc & Hb & Hhd & _ & _ & Hpath). pose proof Hs1 as (Ht1 & _ & _ & HC).
  destruct Hloc as [[_ (recs' & x & Hin' & Hx & H0 & Heq)]|[? _]]; [|done].
  rewrite (leaf_unique leaves (f_nodeNum f) recs' recs Hnd Hin' Hin) in Hx. clear recs' Hin'.
  destruct (list_elem_of_split _ _ Hin) as (pre & post & Hlv).
  destruct (delete_at_key s1 depth (rootNode (btree s)) leaves (f_path f) pre (f_nodeNum f) recs
    post (Z.to_nat (f_index f)) x (f_node f) key) as (r' & s2 & Hrun & Htree2 & node' & (Ht2 & _) & _); try done.
  - by apply (tree_at_same _ _ _ _ s).
  - by apply (geometry_same contents size s).
  - rewrite <- Hd. by destruct Ht1 as (? & ? & ? & ? & ? & ? & ? & ? & ->).
  - by rewrite HC.
  - rewrite Z2Nat.id by lia. apply (path_ok_same _ _ _ s1 s); [by symmetry|done].
  - by rewrite HC.
  - eapply Forall_impl; [exact Hok|]. intros y. by apply rec_ok_same.
  - rewrite Z2Nat.id in Hrun by lia.
    exists r', s2, (pre ++ (f_nodeNum f, delete (Z.to_nat (f_index f)) recs) :: post),
      (leaf_records pre ++ take (Z.to_nat (f_index f)) recs), x, (drop (S (Z.to_nat (f_index f))) recs ++ leaf_records post).
    split_and!; try done.
    + replace (rootNode (btree s2)) with (rootNode (btree s)); [done|].
      destruct Ht1 as (? & ? & ? & ? & ? & ? & ? & ? & E1), Ht2 as (? & ? & ? & ? & ? & ? & ? & ? & E2). by rewrite E2, E1.
    + rewrite Hlv, !map_app. done.
    + rewrite Hlv, leaf_records_app. unfold leaf_records. simpl. rewrite <- (take_drop_middle recs _ x Hx) at 1.
      by rewrite <- !app_assoc.
    + rewrite leaf_records_app. unfold leaf_records. simpl. rewrite delete_take_drop. by rewrite <- !app_assoc.
Qed.
End delete_whole.

(** The second record of the second leaf deleted. *)
Definition two_found_key : Found * fs file_agent :=
  match SearchTree CompareExtendedCatalogKeys two_fs (sample_key 105) empty_path (mkNodeRec None None 0 false) with
  | Ok (_, f, s) => (f, s)
  | _ => (nowhere, two_fs)
  end.

Lemma search_delete_tree_witness :
  exists r' s2 leaves' before r after,
    DeleteTree two_found_key.2 (f_path two_found_key.1) (f_node two_found_key.1) (f_index two_found_key.1) 1 =
      Ok (noErr, r', s2) /\
    tree_at file_size file_contents catalog_key_plus catalog_rank_plus s2 2 (rootNode (btree s2)) leaves' /\
    map fst leaves' = map fst two_leaves /\
    leaf_records two_leaves = before ++ r :: after /\ leaf_records leaves' = before ++ after /\
    lex_cmp (catalog_rank_plus (sample_key 105)) (catalog_rank_plus r) = 0.
Proof.
  assert (f_nodeNum two_found_key.1 = 3) as Hm by (vm_compute; reflexivity).
  apply (search_delete_tree file_size file_contents catalog_key_plus catalog_rank_plus CompareExtendedCatalogKeys
           two_fs empty_path two_leaves 2 (sample_key 105) (mkNodeRec None None 0 false)
           two_found_key.1 two_found_key.2 (leaf_recs 103)).
  - apply two_tree.
  - apply (bool_decide_unpack _). vm_compute. exact I.
  - split_and!; [compare|reflexivity|reflexivity|reflexivity].
  - compare.
  - reflexivity.
  - lia.
  - apply (sample_key_ok 105 []); apply (bool_decide_unpack _); vm_compute; exact I.
  - reflexivity.
  - vm_compute. reflexivity.
  - rewrite Hm. apply list_elem_of_further, list_elem_of_here.
  - rewrite Hm. apply two_leaf_fits.
  - apply two_leaf_fits.
  - split; [simpl; lia|]. left. split; [lia|vm_compute; discriminate].
Defined.
