(* ===== verification/BTreeFile.v ===== *)
(** * B-tree files (hfsplus/hfscommon/BTree/BTree.c)

    The entry points of the B-tree manager: searching, iterating, inserting, replacing,
    updating and deleting records of a file, opening and closing it, and what they use of
    BTreeMiscOps.c ([FindIteratorPosition]) and BTreeAllocate.c ([ExtendBTree]).  An open
    file is the state [fs]; [FCB] adds the case of a file without a control block.
    Parameters that may be null are options, buffers that the code fills are returned, and
    an iterator that is both searched with and filled is passed twice. *)
From S2P Require Import Prelude Bits Bytes UnicodeCompare BTreeNode BTreeKeys BTreeNodeTheorems BTreeBlocks BTreeMap.
From S2P Require Import BTreeMapTheorems BTreeMisc BTreeTree.

Definition fsBTDuplicateRecordErr : Z := ERR_BASE + 33.
Definition fsBTInvalidIteratorErr : Z := ERR_BASE + 0x0308.
Definition fsBTBadNodeSize : Z := ERR_BASE + 0x030C.
Definition fsBTStartOfIterationErr : Z := ERR_BASE + 0x0353.
Definition fsBTEndOfIterationErr : Z := ERR_BASE + 0x0354.
Definition fsInvalidIterationMovmentErr : Z := ERR_BASE + 0x0A05.

Definition kBTreeFirstRecord : Z := 0.
Definition kBTreeNextRecord : Z := 1.
Definition kBTreePrevRecord : Z := 2.
Definition kBTreeLastRecord : Z := 3.
Definition kBTreeCurrentRecord : Z := 4.
Definition kMinNodeSize : Z := 512.
Definition kBTBadCloseMask : Z := 1.

(** ** Iterators and buffers *)

Record BTreeHint := mkHint {
  hint_writeCount : Z;
  hint_nodeNum : Z;
  hint_index : Z;
  hint_reserved1 : Z;
  hint_reserved2 : Z
}.
Definition no_hint : BTreeHint := mkHint 0 0 0 0 0.

Record BTreeIterator := mkIterator {
  it_hint : BTreeHint;
  it_version : Z;
  it_reserved : Z;
  it_hitCount : Z;
  it_maxLeafRecs : Z;
  it_key : buffer
}.
Definition set_hint (it : BTreeIterator) (h : BTreeHint) : BTreeIterator :=
  mkIterator h (it_version it) (it_reserved it) (it_hitCount it) (it_maxLeafRecs it) (it_key it).
Definition BTInvalidateHint (it : BTreeIterator) : BTreeIterator :=
  let h := it_hint it in
  set_hint it (mkHint (hint_writeCount h) 0 (hint_index h) (hint_reserved1 h) (hint_reserved2 h)).

Record FSBufferDescriptor := mkBuffer { bufferAddress : buffer; itemSize : Z; itemCount : Z }.

(** [BlockMoveData (recordPtr, record->bufferAddress, len)], with the length cut to the size
    of the buffer. *)
Definition copy_record (b : buffer) (recordPtr len : Z) (record : FSBufferDescriptor) : outcome FSBufferDescriptor :=
  let recordSize := u32 (itemCount record * itemSize record) in
  let len := if recordSize <? len then u16 recordSize else len in
  d ← copy_in (bufferAddress record) b recordPtr 0 len;
  Ok (mkBuffer d (itemSize record) (itemCount record)).
Definition copy_to (b : buffer) (recordPtr len : Z) (record : option FSBufferDescriptor)
    : outcome (option FSBufferDescriptor) :=
  match record with
  | None => Ok None
  | Some record => record ← copy_record b recordPtr len record; Ok (Some record)
  end.

(** [BlockMoveData (key, &iterator->key, CalcKeySize (btreePtr, key))] *)
Definition copy_key (bt : BTreeControlBlock) (b : buffer) (keyPtr : Z) (key : buffer) : outcome buffer :=
  keySize ← CalcKeySize bt b keyPtr; copy_in key b keyPtr 0 keySize.

(** The iterator of an error exit: everything is cleared, of the key its length. *)
Definition clear_iterator (it : BTreeIterator) : outcome BTreeIterator :=
  key ← store16 (it_key it) 0 0;
  Ok (mkIterator no_hint 0 0 (it_hitCount it) (it_maxLeafRecs it) key).

(** ** Assignments to the control block *)

Definition set_counts (b : BTreeControlBlock) (leaf total free flg attr write : Z) : BTreeControlBlock :=
  mkBTree (btreeType b) (treeDepth b) (rootNode b) leaf (firstLeafNode b) (lastLeafNode b) (nodeSize b)
    (maxKeyLength b) total free flg attr write
    (numGetNodes b) (numGetNewNodes b) (numReleaseNodes b) (numUpdateNodes b) (numMapNodesRead b)
    (numHintChecks b) (numPossibleHints b) (numValidHints b).
Definition set_totalNodes (b : BTreeControlBlock) (n : Z) : BTreeControlBlock :=
  set_counts b (leafRecords b) n (freeNodes b) (flags b) (attributes b) (writeCount b).
Definition set_attributes (b : BTreeControlBlock) (a : Z) : BTreeControlBlock :=
  set_counts b (leafRecords b) (totalNodes b) (freeNodes b) (flags b) a (writeCount b).
(** [++writeCount] *)
Definition count_write (b : BTreeControlBlock) : BTreeControlBlock :=
  set_counts b (leafRecords b) (totalNodes b) (freeNodes b) (flags b) (attributes b) (u32 (writeCount b + 1)).
(** [++writeCount; leafRecords += d; M_BTreeHeaderDirty] *)
Definition count_leaf (b : BTreeControlBlock) (d : Z) : BTreeControlBlock :=
  set_counts b (u32 (leafRecords b + d)) (totalNodes b) (freeNodes b) (Z.lor (flags b) kBTHeaderDirty) (attributes b)
    (u32 (writeCount b + 1)).
(** [++numValidHints] *)
Definition count_valid (b : BTreeControlBlock) : BTreeControlBlock :=
  mkBTree (btreeType b) (treeDepth b) (rootNode b) (leafRecords b) (firstLeafNode b) (lastLeafNode b) (nodeSize b)
    (maxKeyLength b) (totalNodes b) (freeNodes b) (flags b) (attributes b) (writeCount b)
    (numGetNodes b) (numGetNewNodes b) (numReleaseNodes b) (numUpdateNodes b) (numMapNodesRead b)
    (numHintChecks b) (numPossibleHints b) (u32 (numValidHints b + 1)).

(** ** The fork below a file

    The procedures and properties of the agent that opening and growing a file use. *)
Class ForkAgent (W : Type) := {
  setEndOfForkProc : W -> Z -> Z -> Z * W;
  setBlockSizeProc : W -> Z -> Z -> Z * W;
  hfs_phys_block_size : W -> Z;
  hfs_media_writeable : W -> bool
}.

Definition no_node : NodeRec := mkNodeRec None None 0 false.
(** [node.buffer = nil], the header is kept *)
Definition drop_buffer (r : NodeRec) : NodeRec :=
  mkNodeRec None (blockHeader r) (blockSize r) (blockReadFromDisk r).
Definition has_buffer (r : NodeRec) : bool := match nodeBuffer r with Some _ => true | None => false end.

(** ** Growing a file: [ExtendBTree] of BTreeAllocate.c *)

Section extend.
Context {W : Type} `{!FSAgent W, !ForkAgent W}.

(** The count of the bits in the map: error, the last map node with its record,
    [mapBits], [recStartBit] and [totalMapBits]. *)
Fixpoint count_map_bits (fuel : nat) (s : fs W) (mapNode : NodeRec) (totalMapBits : Z)
    : outcome (Z * NodeRec * option Z * Z * Z * Z * fs W) :=
  match fuel with
  | O => Diverge
  | S fuel =>
      '(err, mapNode, mapStart, mapSize, s) ← GetMapNode s mapNode;
      if negb (err =? noErr) then Ok (err, mapNode, mapStart, 0, 0, totalMapBits, s)
      else
        let mapBits := u32 (Z.shiftl mapSize 3) in
        let recStartBit := totalMapBits in
        let totalMapBits := u32 (totalMapBits + mapBits) in
        b ← of_option (nodeBuffer mapNode);
        next ← fLink b;
        if negb (next =? 0) then count_map_bits fuel s mapNode totalMapBits
        else Ok (noErr, mapNode, mapStart, mapBits, recStartBit, totalMapBits, s)
  end.

(** One new map node: one record that takes all of the node. *)
Definition map_node_init (nodeSize : Z) (b : buffer) : outcome buffer :=
  b ← set_numRecords b 1;
  b ← set_kind b kBTMapNode;
  store16 b (nodeSize - 4) (u16 (nodeSize - 6)).

(** The nodes from [nodeNum] on, [n] after it, each linked to the next. *)
Fixpoint init_map_nodes (n : nat) (s : fs W) (newNode : NodeRec) (nodeNum : Z) : outcome (Z * NodeRec * fs W) :=
  '(err, newNode, s) ← GetNewNode s nodeNum newNode;
  if negb (err =? noErr) then Ok (err, newNode, s)
  else
    b ← of_option (nodeBuffer newNode);
    b ← map_node_init (nodeSize (btree s)) b;
    match n with
    | O => UpdateNode s (set_buffer newNode b) kLockTransaction
    | S n =>
        let nodeNum := u32 (nodeNum + 1) in
        b ← set_fLink b nodeNum;
        '(err, newNode, s) ← UpdateNode s (set_buffer newNode b) kLockTransaction;
        if negb (err =? noErr) then Ok (err, newNode, s) else init_map_nodes n s newNode nodeNum
    end.

(** The map node that the bit of [nodeNum] is in. *)
Fixpoint seek_map (fuel : nat) (s : fs W) (mapNode : NodeRec) (mapStart : option Z) (mapBits recStartBit totalMapBits nodeNum : Z)
    : outcome (Z * NodeRec * option Z * Z * Z * Z * fs W) :=
  match fuel with
  | O => Diverge
  | S fuel =>
      if mapBits <=? u32 (nodeNum - recStartBit) then
        b ← of_option (nodeBuffer mapNode);
        nextNodeNum ← fLink b;
        if nextNodeNum =? 0 then Ok (fsBTNoMoreMapNodesErr, mapNode, mapStart, mapBits, recStartBit, totalMapBits, s)
        else
          '(err, mapNode, s) ← UpdateNode s mapNode kLockTransaction;
          if negb (err =? noErr) then Ok (err, mapNode, mapStart, mapBits, recStartBit, totalMapBits, s)
          else
            '(err, mapNode, s) ← GetNode s nextNodeNum mapNode;
            if negb (err =? noErr) then Ok (err, mapNode, mapStart, mapBits, recStartBit, totalMapBits, s)
            else
              b ← of_option (nodeBuffer mapNode);
              mapStart ← GetRecordAddress (btree s) b 0;
              mapSize ← GetRecordSize (btree s) b 0;
              let mapBits := u32 (Z.shiftl mapSize 3) in
              seek_map fuel s mapNode (Some mapStart) mapBits totalMapBits (u32 (totalMapBits + mapBits)) nodeNum
      else Ok (noErr, mapNode, mapStart, mapBits, recStartBit, totalMapBits, s)
  end.

(** The bits of [n] nodes from [nodeNum] on are set. *)
Fixpoint mark_map_nodes (n : nat) (s : fs W) (mapNode : NodeRec) (mapStart : option Z)
    (mapBits recStartBit totalMapBits nodeNum : Z) : outcome (Z * NodeRec * fs W) :=
  match n with
  | O => UpdateNode s mapNode kLockTransaction
  | S n =>
      '(err, mapNode, mapStart, mapBits, recStartBit, totalMapBits, s) ←
        seek_map (S (Z.to_nat (totalNodes (btree s)))) s mapNode mapStart mapBits recStartBit totalMapBits nodeNum;
      if negb (err =? noErr) then Ok (err, mapNode, s)
      else
        start ← of_option mapStart;
        b ← of_option (nodeBuffer mapNode);
        let bit := u32 (nodeNum - recStartBit) in
        let mapPos := start + 2 * Z.shiftr bit 4 in
        let bitInWord := 15 - Z.land bit 0xF in
        w ← load16 b mapPos;
        b ← store16 b mapPos (Z.lor w (SWAP_BE16 (Z.shiftl 1 bitInWord)));
        mark_map_nodes n s (set_buffer mapNode b) mapStart mapBits recStartBit totalMapBits (u32 (nodeNum + 1))
  end.

Definition extend_error (s : fs W) (mapNode newNode : NodeRec) (err : Z) : Z * fs W :=
  let '(_, _, s) := ReleaseNode s mapNode in
  let '(_, _, s) := ReleaseNode s newNode in (err, s).

(** [Success]: what [UpdateHeader] returns is ignored. *)
Definition extend_finish (s : fs W) (oldTotalNodes newTotalNodes newMapNodes : Z) : outcome (Z * fs W) :=
  let b := btree s in
  let s := with_tree s (set_counts b (leafRecords b) newTotalNodes
             (u32 (freeNodes b + (newTotalNodes - oldTotalNodes - newMapNodes))) (Z.lor (flags b) kBTHeaderDirty)
             (attributes b) (writeCount b)) in
  '(_, s) ← UpdateHeader s true;
  Ok (noErr, s).

(** [newMapNodes], with the division by [mapNodeRecSize]. *)
Definition new_map_nodes (newTotalNodes totalMapBits nodeSize : Z) : outcome Z :=
  let mapNodeRecSize := u16 (nodeSize - sizeof_BTNodeDescriptor - 6) in
  if newTotalNodes <=? totalMapBits then Ok 0
  else if mapNodeRecSize =? 0 then Fault
  else Ok (u32 (Z.shiftr (newTotalNodes - totalMapBits) 3 / mapNodeRecSize + 1)).

(** The chain of map nodes has at most [totalNodes] nodes unless it runs in a circle, which
    the loop would not leave. *)
Definition ExtendBTree (s : fs W) (newTotalNodes : Z) : outcome (Z * fs W) :=
  let oldTotalNodes := totalNodes (btree s) in
  if newTotalNodes <=? oldTotalNodes then Ok (noErr, s)
  else
    let size := nodeSize (btree s) in
    '(err, mapNode, mapStart, mapBits, recStartBit, totalMapBits, s) ←
      count_map_bits (S (Z.to_nat oldTotalNodes)) s no_node 0;
    if negb (err =? noErr) then Ok (extend_error s mapNode no_node err)
    else
      let minEOF := u64 (newTotalNodes * size) in
      let '(err, w) := if fcbEOF (agent s) <? minEOF then setEndOfForkProc (agent s) minEOF (u64 (0x7fffffff * size))
                       else (noErr, agent s) in
      let s := with_agent s w in
      if negb (err =? noErr) then Ok (extend_error s mapNode no_node err)
      else if size =? 0 then Fault
      else
        let newTotalNodes := u32 (fcbEOF (agent s) / size) in
        let s := with_tree s (set_totalNodes (btree s) newTotalNodes) in
        newMapNodes ← new_map_nodes newTotalNodes totalMapBits size;
        if newTotalNodes <=? totalMapBits then
          let '(err, mapNode, s) := ReleaseNode s mapNode in
          if negb (err =? noErr) then Ok (extend_error s mapNode no_node err)
          else extend_finish s oldTotalNodes newTotalNodes 0
        else
          b ← of_option (nodeBuffer mapNode);
          b ← set_fLink b oldTotalNodes;
          let mapNode := set_buffer mapNode b in
          '(err, newNode, s) ← init_map_nodes (Z.to_nat (newMapNodes - 1)) s no_node oldTotalNodes;
          if negb (err =? noErr) then Ok (extend_error s mapNode newNode err)
          else
            '(err, mapNode, s) ←
              mark_map_nodes (Z.to_nat newMapNodes) s mapNode mapStart mapBits recStartBit totalMapBits oldTotalNodes;
            if negb (err =? noErr) then Ok (extend_error s mapNode newNode err)
            else extend_finish s oldTotalNodes newTotalNodes newMapNodes.

Definition BTCheckFreeSpace_open (s : fs W) : outcome (Z * fs W) :=
  let nodesNeeded := s32 ((treeDepth (btree s) + 1) * 10) in
  if freeNodes (btree s) <? u32 nodesNeeded then
    ExtendBTree s (u32 (nodesNeeded + totalNodes (btree s) - freeNodes (btree s)))
  else Ok (noErr, s).
End extend.

(** ** Operations on an open file *)

Section open_file.
Context {W : Type} `{!FSAgent W}.
(** The comparison of keys, and what the stack holds where a path table is put. *)
Context (keyCompareProc : buffer -> buffer -> outcome Z) (stack : TreePathTable).

(** *** [BTSearchRecord] *)

(** What the parameters point to: searched with, record buffer, length, iterator to be set. *)
Record SearchIO := mkSearchIO {
  io_search : BTreeIterator;
  io_record : option FSBufferDescriptor;
  io_recordLen : option Z;
  io_result : option BTreeIterator
}.

(** The node of a hint, if it has the key: with an error, the search ends. *)
Definition search_hint (s : fs W) (it : BTreeIterator)
    : outcome (Z * option (NodeRec * Z) * BTreeIterator * fs W) :=
  let nodeNum := hint_nodeNum (it_hint it) in
  '(err, node, s) ← GetNode s nodeNum no_node;
  if negb (err =? noErr) then Ok (noErr, None, BTInvalidateHint it, s)
  else
    b ← of_option (nodeBuffer node);
    k ← kind b;
    n ← numRecords b;
    '(foundRecord, index) ← (if (k =? kBTLeafNode) && (0 <? n) then SearchNode (btree s) keyCompareProc b (it_key it)
                             else Ok (false, 0));
    if negb foundRecord then
      let '(err, _, s) := ReleaseNode s node in
      if negb (err =? noErr) then Ok (err, None, it, s) else Ok (noErr, None, BTInvalidateHint it, s)
    else Ok (noErr, Some (node, index), it, with_tree s (count_valid (btree s))).

(** [ErrorExit] *)
Definition search_exit (s : fs W) (io : SearchIO) (err : Z) : outcome (Z * SearchIO * fs W) :=
  result ← (match io_result io with None => Ok None | Some it => it ← clear_iterator it; Ok (Some it) end);
  Ok (if err =? fsBTEmptyErr then fsBTRecordNotFoundErr else err,
      mkSearchIO (io_search io) (io_record io) (match io_recordLen io with None => None | Some _ => Some 0 end) result, s).

(** The position is set in the iterator, if there is one. *)
Definition set_position (bt : BTreeControlBlock) (it : BTreeIterator) (nodeNum index : Z) (b : buffer) (keyPtr : Z)
    : outcome BTreeIterator :=
  key ← copy_key bt b keyPtr (it_key it);
  Ok (mkIterator (mkHint (writeCount bt) nodeNum index 0 0) 0 0 (it_hitCount it) (it_maxLeafRecs it) key).

Definition search_finish (s : fs W) (io : SearchIO) (foundRecord : bool) (nodeNum : Z) (node : NodeRec) (index : Z)
    : outcome (Z * SearchIO * fs W) :=
  b ← of_option (nodeBuffer node);
  '(keyPtr, io) ←
    (if foundRecord then
       r ← GetRecordByIndex (btree s) b index;
       match r with
       | inl _ => Fault
       | inr (keyPtr, recordPtr, len) =>
           record ← copy_to b recordPtr len (io_record io);
           Ok (keyPtr, mkSearchIO (io_search io) record (match io_recordLen io with None => None | Some _ => Some len end)
                         (io_result io))
       end
     else Ok (0, io));
  result ←
    (match io_result io with
     | None => Ok None
     | Some it =>
         it ← (if foundRecord then set_position (btree s) it nodeNum index b keyPtr
               else set_position (btree s) it nodeNum index (it_key (io_search io)) 0);
         Ok (Some it)
     end);
  let io := mkSearchIO (io_search io) (io_record io) (io_recordLen io) result in
  let '(err, node, s) := ReleaseNode s node in
  if negb (err =? noErr) then search_exit s io err
  else Ok (if foundRecord then noErr else fsBTRecordNotFoundErr, io, s).

(** The search of the tree. *)
Definition search_by_key (s : fs W) (io : SearchIO) : outcome (Z * SearchIO * fs W) :=
  '(err, f, s) ← SearchTree keyCompareProc s (it_key (io_search io)) stack no_node;
  if err =? noErr then search_finish s io true (f_nodeNum f) (f_node f) (f_index f)
  else if err =? fsBTRecordNotFoundErr then search_finish s io false (f_nodeNum f) (f_node f) (f_index f)
  else search_exit s io err.

Definition set_search (io : SearchIO) (it : BTreeIterator) : SearchIO :=
  mkSearchIO it (io_record io) (io_recordLen io) (io_result io).

Definition search_record (s : fs W) (io : SearchIO) : outcome (Z * SearchIO * fs W) :=
  let '(validHint, b) := IsItAHint (btree s) (hint_nodeNum (it_hint (io_search io))) in
  let s := with_tree s b in
  let nodeNum := hint_nodeNum (it_hint (io_search io)) in
  '(err, hit, it, s) ← (if validHint then search_hint s (io_search io) else Ok (noErr, None, io_search io, s));
  let io := set_search io it in
  if negb (err =? noErr) then search_exit s io err
  else
    match hit with
    | Some (node, index) => search_finish s io true nodeNum node index
    | None => search_by_key s io
    end.

(** *** [FindIteratorPosition] of BTreeMiscOps.c *)

Record Position := mkPosition {
  pos_left : NodeRec;
  pos_node : NodeRec;
  pos_right : NodeRec;
  pos_nodeNum : Z;
  pos_index : Z;
  pos_found : bool
}.

Definition position_error (s : fs W) (leftNode middle rightNode : NodeRec) (err : Z) : Z * Position * fs W :=
  let '(_, leftNode, s) := ReleaseNode s leftNode in
  let '(_, middle, s) := ReleaseNode s middle in
  let '(_, rightNode, s) := ReleaseNode s rightNode in
  (err, mkPosition leftNode middle rightNode 0 0 false, s).

(** [SearchTheTree] *)
Definition search_position (s : fs W) (key : buffer) (leftNode middle rightNode : NodeRec)
    : outcome (Z * Position * fs W) :=
  let '(err, leftNode, s) := ReleaseNode s leftNode in
  if negb (err =? noErr) then Ok (position_error s leftNode middle rightNode err) else
  let '(err, middle, s) := ReleaseNode s middle in
  if negb (err =? noErr) then Ok (position_error s leftNode middle rightNode err) else
  let '(err, rightNode, s) := ReleaseNode s rightNode in
  if negb (err =? noErr) then Ok (position_error s leftNode middle rightNode err) else
  '(err, f, s) ← SearchTree keyCompareProc s key stack middle;
  if (err =? noErr) || (err =? fsBTRecordNotFoundErr) then
    Ok (noErr, mkPosition leftNode (f_node f) rightNode (f_nodeNum f) (f_index f) (err =? noErr), s)
  else Ok (position_error s leftNode (f_node f) rightNode err).

(** The key is before the records of the node of the hint. *)
Definition position_left (s : fs W) (key : buffer) (middle : NodeRec) (b : buffer) (nodeNum : Z)
    : outcome (Z * Position * fs W) :=
  bl ← bLink b;
  if bl =? 0 then Ok (noErr, mkPosition no_node middle no_node nodeNum 0 false, s)
  else
    '(err, leftNode, s) ← GetNode s bl no_node;
    if negb (err =? noErr) then Ok (position_error s leftNode middle no_node err)
    else
      lb ← of_option (nodeBuffer leftNode);
      k ← kind lb;
      n ← numRecords lb;
      if negb (k =? kBTLeafNode) || (n <=? 0) then search_position s key leftNode middle no_node
      else
        '(foundIt, leftIndex) ← SearchNode (btree s) keyCompareProc lb key;
        if (foundIt : bool) then Ok (noErr, mkPosition (drop_buffer leftNode) leftNode middle bl leftIndex true, s)
        else if leftIndex =? 0 then search_position s key leftNode middle no_node
        else if n <=? leftIndex then
          nodeNum ← fLink lb;
          Ok (noErr, mkPosition leftNode middle no_node nodeNum 0 false, s)
        else Ok (noErr, mkPosition (drop_buffer leftNode) leftNode middle bl leftIndex false, s).

(** The key is behind them. *)
Definition position_right (s : fs W) (key : buffer) (middle : NodeRec) (b : buffer) (nodeNum index : Z)
    : outcome (Z * Position * fs W) :=
  fl ← fLink b;
  if fl =? 0 then Ok (noErr, mkPosition no_node middle no_node nodeNum index false, s)
  else
    '(err, rightNode, s) ← GetNode s fl no_node;
    if negb (err =? noErr) then Ok (position_error s no_node middle rightNode err)
    else
      rb ← of_option (nodeBuffer rightNode);
      k ← kind rb;
      n ← numRecords rb;
      if negb (k =? kBTLeafNode) || (n <=? 0) then search_position s key no_node middle rightNode
      else
        '(foundIt, rightIndex) ← SearchNode (btree s) keyCompareProc rb key;
        if n <=? rightIndex then search_position s key no_node middle rightNode
        else Ok (noErr, mkPosition middle rightNode (drop_buffer rightNode) fl rightIndex foundIt, s).

Definition FindIteratorPosition (s : fs W) (iterator : option BTreeIterator) : outcome (Z * Position * fs W) :=
  match iterator with
  | None => Ok (position_error s no_node no_node no_node fsBTInvalidIteratorErr)
  | Some it =>
      let key := it_key it in
      let nodeNum := hint_nodeNum (it_hint it) in
      let '(validHint, bt) := IsItAHint (btree s) nodeNum in
      let s := with_tree s bt in
      if negb validHint then search_position s key no_node no_node no_node
      else
        '(err, middle, s) ← GetNode s nodeNum no_node;
        if err =? fsBTInvalidNodeErr then search_position s key no_node middle no_node
        else if negb (err =? noErr) then Ok (position_error s no_node middle no_node err)
        else
          b ← of_option (nodeBuffer middle);
          k ← kind b;
          n ← numRecords b;
          if negb (k =? kBTLeafNode) || (n <=? 0) then search_position s key no_node middle no_node
          else
            let s := with_tree s (count_valid (btree s)) in
            '(foundIt, index) ← SearchNode (btree s) keyCompareProc b key;
            if (foundIt : bool) then Ok (noErr, mkPosition no_node middle no_node nodeNum index true, s)
            else if index =? 0 then position_left s key middle b nodeNum
            else if n <=? index then position_right s key middle b nodeNum index
            else search_position s key no_node middle no_node
  end.

(** *** Moving over the leaves *)

(** The first or the last record; [MARK_VOLUMEDAMAGED] is empty. *)
Definition first_or_last (s : fs W) (operation : Z) : outcome (Z * Position * fs W) :=
  let first := operation =? kBTreeFirstRecord in
  let nodeNum := if first then firstLeafNode (btree s) else lastLeafNode (btree s) in
  if nodeNum =? 0 then Ok (fsBTEmptyErr, mkPosition no_node no_node no_node nodeNum 0 false, s)
  else
    '(err, node, s) ← GetNode s nodeNum no_node;
    if negb (err =? noErr) then Ok (err, mkPosition no_node node no_node nodeNum 0 false, s)
    else
      b ← of_option (nodeBuffer node);
      k ← kind b;
      n ← numRecords b;
      if negb (k =? kBTLeafNode) || (n <=? 0) then
        let '(err, node, s) := ReleaseNode s node in
        if negb (err =? noErr) then Ok (err, mkPosition no_node node no_node nodeNum 0 false, s)
        else Ok (fsBTInvalidNodeErr, mkPosition no_node node no_node nodeNum 0 false, s)
      else Ok (noErr, mkPosition no_node node no_node nodeNum (if first then 0 else n - 1) false, s).

(** [right = node; node = left], once there is a left node. *)
Definition shift_left (s : fs W) (p : Position) : outcome (Z * Position * fs W) :=
  let '(err, rightNode, s) := if has_buffer (pos_right p) then ReleaseNode s (pos_right p) else (noErr, pos_right p, s) in
  if negb (err =? noErr) then Ok (err, mkPosition (pos_left p) (pos_node p) rightNode (pos_nodeNum p) (pos_index p) (pos_found p), s)
  else
    lb ← of_option (nodeBuffer (pos_left p));
    n ← numRecords lb;
    Ok (noErr, mkPosition (drop_buffer (pos_left p)) (pos_left p) (pos_node p) (pos_nodeNum p) (u16 (n - 1)) (pos_found p), s).

(** To the node before. *)
Definition move_left (s : fs W) (p : Position) : outcome (Z * Position * fs W) :=
  b ← of_option (nodeBuffer (pos_node p));
  '(err, p, s) ←
    (if has_buffer (pos_left p) then Ok (noErr, p, s)
     else
       nodeNum ← bLink b;
       let p := mkPosition (pos_left p) (pos_node p) (pos_right p) nodeNum (pos_index p) (pos_found p) in
       if 0 <? nodeNum then
         '(err, leftNode, s) ← GetNode s nodeNum (pos_left p);
         Ok (err, mkPosition leftNode (pos_node p) (pos_right p) nodeNum (pos_index p) (pos_found p), s)
       else Ok (fsBTStartOfIterationErr, p, s));
  if negb (err =? noErr) then Ok (err, p, s) else shift_left s p.

(** [left = node; node = right], once there is a right node. *)
Definition shift_right (s : fs W) (p : Position) : Z * Position * fs W :=
  let '(err, leftNode, s) := if has_buffer (pos_left p) then ReleaseNode s (pos_left p) else (noErr, pos_left p, s) in
  if negb (err =? noErr) then
    (err, mkPosition leftNode (pos_node p) (pos_right p) (pos_nodeNum p) (pos_index p) (pos_found p), s)
  else (noErr, mkPosition (pos_node p) (pos_right p) (drop_buffer (pos_right p)) (pos_nodeNum p) 0 (pos_found p), s).

(** To the node behind.  [true]: there is none. *)
Definition move_right (s : fs W) (p : Position) : outcome (bool * Z * Position * fs W) :=
  b ← of_option (nodeBuffer (pos_node p));
  '(ended, err, p, s) ←
    (if has_buffer (pos_right p) then Ok (false, noErr, p, s)
     else
       nodeNum ← fLink b;
       let p := mkPosition (pos_left p) (pos_node p) (pos_right p) nodeNum (pos_index p) (pos_found p) in
       if 0 <? nodeNum then
         '(err, rightNode, s) ← GetNode s nodeNum (pos_right p);
         Ok (false, err, mkPosition (pos_left p) (pos_node p) rightNode nodeNum (pos_index p) (pos_found p), s)
       else Ok (true, fsBTEndOfIterationErr, p, s));
  if negb (err =? noErr) then Ok (ended, err, p, s)
  else let '(err, p, s) := shift_right s p in Ok (false, err, p, s).

Definition at_index (p : Position) (i : Z) : Position :=
  mkPosition (pos_left p) (pos_node p) (pos_right p) (pos_nodeNum p) i (pos_found p).

Definition iterate_prev (s : fs W) (p : Position) : outcome (Z * Position * fs W) :=
  if 0 <? pos_index p then Ok (noErr, at_index p (pos_index p - 1), s) else move_left s p.

Definition iterate_next (s : fs W) (p : Position) : outcome (Z * Position * fs W) :=
  b ← of_option (nodeBuffer (pos_node p));
  n ← numRecords b;
  fl ← fLink b;
  if negb (pos_found p) && (fl =? 0) && (pos_index p =? n) then Ok (fsBTEndOfIterationErr, p, s)
  else if negb (pos_found p) && negb (pos_index p =? n) then Ok (noErr, p, s)
  else if pos_index p <? n - 1 then Ok (noErr, at_index p (u16 (pos_index p + 1)), s)
  else '(_, err, p, s) ← move_right s p; Ok (err, p, s).

Definition iterate_current (s : fs W) (p : Position) : outcome (Z * Position * fs W) :=
  b ← of_option (nodeBuffer (pos_node p));
  n ← numRecords b;
  if negb (pos_found p) && (n <=? pos_index p) then Ok (fsBTEndOfIterationErr, p, s) else Ok (noErr, p, s).

(** Up to [CopyData] of [BTIterateRecord] or [ProcessData] of [BTIterateRecords], which
    takes a record that is not found for none that is an error. *)
Definition iterate_to (s : fs W) (records : bool) (operation : Z) (iterator : option BTreeIterator)
    : outcome (Z * Position * fs W) :=
  if negb ((0 <=? operation) && (operation <=? 4)) then
    Ok (fsInvalidIterationMovmentErr, mkPosition no_node no_node no_node 0 0 false, s)
  else if (operation =? kBTreeFirstRecord) || (operation =? kBTreeLastRecord) then first_or_last s operation
  else
    '(err, p, s) ← FindIteratorPosition s iterator;
    let err := if records && (err =? fsBTRecordNotFoundErr) then noErr else err in
    if negb (err =? noErr) then Ok (err, p, s)
    else if operation =? kBTreePrevRecord then iterate_prev s p
    else if operation =? kBTreeNextRecord then iterate_next s p
    else iterate_current s p.

(** The three [ReleaseNode] of an error exit. *)
Definition release_all (s : fs W) (p : Position) : fs W :=
  let '(_, _, s) := ReleaseNode s (pos_left p) in
  let '(_, _, s) := ReleaseNode s (pos_node p) in
  let '(_, _, s) := ReleaseNode s (pos_right p) in s.

Definition iterate_error (err : Z) : Z :=
  if (err =? fsBTEmptyErr) || (err =? fsBTEndOfIterationErr) then fsBTRecordNotFoundErr else err.

(** The nodes released at the end; with an error, what is left of the position. *)
Definition release_position (s : fs W) (p : Position) : Z * Position * fs W :=
  let '(err, node, s) := ReleaseNode s (pos_node p) in
  let p := mkPosition (pos_left p) node (pos_right p) (pos_nodeNum p) (pos_index p) (pos_found p) in
  if negb (err =? noErr) then (err, p, s) else
  let '(err, leftNode, s) := if has_buffer (pos_left p) then ReleaseNode s (pos_left p) else (noErr, pos_left p, s) in
  let p := mkPosition leftNode (pos_node p) (pos_right p) (pos_nodeNum p) (pos_index p) (pos_found p) in
  if negb (err =? noErr) then (err, p, s) else
  let '(err, rightNode, s) := if has_buffer (pos_right p) then ReleaseNode s (pos_right p) else (noErr, pos_right p, s) in
  (err, mkPosition (pos_left p) (pos_node p) rightNode (pos_nodeNum p) (pos_index p) (pos_found p), s).

(** *** [BTIterateRecord] *)

Definition iterate_exit (s : fs W) (p : Position) (iterator : option BTreeIterator) (record : option FSBufferDescriptor)
    (recordLen : option Z) (err : Z) : outcome (Z * option BTreeIterator * option FSBufferDescriptor * option Z * fs W) :=
  iterator ← (match iterator with None => Ok None | Some it => it ← clear_iterator it; Ok (Some it) end);
  Ok (iterate_error err, iterator, record, match recordLen with None => None | Some _ => Some 0 end, release_all s p).

(** The iterator with the new position; the check for endless iterations is not compiled. *)
Definition set_iterator (bt : BTreeControlBlock) (operation : Z) (it : BTreeIterator) (p : Position) (b : buffer)
    (keyPtr : Z) : outcome BTreeIterator :=
  key ← copy_key bt b keyPtr (it_key it);
  let hitCount :=
    if (operation =? kBTreeFirstRecord) || (operation =? kBTreeLastRecord) then 1
    else if negb (operation =? kBTreeCurrentRecord) then u32 (it_hitCount it + 1) else it_hitCount it in
  Ok (mkIterator (mkHint (writeCount bt) (pos_nodeNum p) (pos_index p) 0 0) 0 0 hitCount
        (Z.max (leafRecords bt) (it_maxLeafRecs it)) key).

Definition iterate_record (s : fs W) (operation : Z) (iterator : option BTreeIterator)
    (record : option FSBufferDescriptor) (recordLen : option Z)
    : outcome (Z * option BTreeIterator * option FSBufferDescriptor * option Z * fs W) :=
  '(err, p, s) ← iterate_to s false operation iterator;
  if negb (err =? noErr) then iterate_exit s p iterator record recordLen err
  else
    b ← of_option (nodeBuffer (pos_node p));
    r ← GetRecordByIndex (btree s) b (pos_index p);
    match r with
    | inl err => iterate_exit s p iterator record recordLen err
    | inr (keyPtr, recordPtr, len) =>
        let recordLen := match recordLen with None => None | Some _ => Some len end in
        record ← copy_to b recordPtr len record;
        iterator ← (match iterator with
                    | None => Ok None
                    | Some it => it ← set_iterator (btree s) operation it p b keyPtr; Ok (Some it)
                    end);
        let '(err, p, s) := release_position s p in
        if negb (err =? noErr) then iterate_exit s p iterator record recordLen err
        else Ok (noErr, iterator, record, recordLen, s)
    end.

(** *** [BTIterateRecords] *)

Section records.
(** The callback: key, record and its length, and the state; zero ends the iteration. *)
Context {C : Type} (callBackProc : buffer -> buffer -> Z -> C -> Z * C).

(** A record as the callback gets it: the key and what follows in the node, and the data. *)
Definition call_record (b : buffer) (keyPtr recordPtr len : Z) (c : C) : outcome (Z * C) :=
  key ← from_offset b keyPtr;
  record ← get_bytes b recordPtr len;
  Ok (callBackProc key record len c).

Inductive loop_exit :=
| LoopDone (err : Z) (keyPtr : Z)
| LoopError (err : Z).

(** [while (err == 0)]: the leaves are followed for as long as the callback asks for more;
    in a circle of leaves that has no end. *)
Fixpoint records_loop (fuel : nat) (s : fs W) (p : Position) (keyPtr recordPtr len : Z) (c : C)
    : outcome (loop_exit * Position * C * fs W) :=
  match fuel with
  | O => Diverge
  | S fuel =>
      b ← of_option (nodeBuffer (pos_node p));
      '(more, c) ← call_record b keyPtr recordPtr len c;
      if more =? 0 then Ok (LoopDone noErr keyPtr, p, c, s)
      else
        n ← numRecords b;
        '(ended, err, p, s) ←
          (if pos_index p + 1 <? n then Ok (false, noErr, at_index p (pos_index p + 1), s) else move_right s p);
        if (ended : bool) then Ok (LoopDone err keyPtr, p, c, s)
        else if negb (err =? noErr) then Ok (LoopError err, p, c, s)
        else
          b ← of_option (nodeBuffer (pos_node p));
          r ← GetRecordByIndex (btree s) b (pos_index p);
          match r with
          | inl _ => Ok (LoopError btBadNode, p, c, s)
          | inr (keyPtr, recordPtr, len) => records_loop fuel s p keyPtr recordPtr len c
          end
  end.

Definition records_exit (s : fs W) (p : Position) (iterator : option BTreeIterator) (err : Z) (c : C)
    : outcome (Z * option BTreeIterator * C * fs W) :=
  iterator ← (match iterator with
              | None => Ok None
              | Some it =>
                  key ← store16 (it_key it) 0 0;
                  let h := it_hint it in
                  Ok (Some (mkIterator (mkHint 0 0 0 (hint_reserved1 h) (hint_reserved2 h)) 0 (it_reserved it)
                              (it_hitCount it) (it_maxLeafRecs it) key))
              end);
  Ok (iterate_error err, iterator, c, release_all s p).

Definition iterate_records (fuel : nat) (s : fs W) (operation : Z) (iterator : option BTreeIterator) (c : C)
    : outcome (Z * option BTreeIterator * C * fs W) :=
  '(err, p, s) ← iterate_to s true operation iterator;
  if negb (err =? noErr) then records_exit s p iterator err c
  else
    b ← of_option (nodeBuffer (pos_node p));
    r ← GetRecordByIndex (btree s) b (pos_index p);
    match r with
    | inl _ => records_exit s p iterator btBadNode c
    | inr (keyPtr, recordPtr, len) =>
        '(ex, p, c, s) ← records_loop fuel s p keyPtr recordPtr len c;
        match ex with
        | LoopError err => records_exit s p iterator err c
        | LoopDone err keyPtr =>
            b ← of_option (nodeBuffer (pos_node p));
            iterator ←
              (match iterator with
               | None => Ok None
               | Some it =>
                   key ← copy_key (btree s) b keyPtr (it_key it);
                   let h := it_hint it in
                   Ok (Some (mkIterator (mkHint (writeCount (btree s)) (pos_nodeNum p) (pos_index p) (hint_reserved1 h)
                                           (hint_reserved2 h)) 0 (it_reserved it) (it_hitCount it) (it_maxLeafRecs it) key))
               end);
            if negb (err =? noErr) then records_exit s p iterator err c
            else
              let '(err, p, s) := release_position s p in
              if negb (err =? noErr) then records_exit s p iterator err c else Ok (noErr, iterator, c, s)
        end
    end.
End records.

(** *** Changing records *)

(** The hint after a change, and the one of an error exit. *)
Definition changed_hint (it : BTreeIterator) (bt : BTreeControlBlock) (nodeNum : Z) : BTreeIterator :=
  set_hint it (mkHint (writeCount bt) nodeNum 0 0 0).

(** [if (nodesNeeded > 0)]: the file is extended so that every level can be split. *)
Definition make_room `{!ForkAgent W} (s : fs W) : outcome (Z * fs W) :=
  let nodesNeeded := s32 (treeDepth (btree s) + 1 - freeNodes (btree s)) in
  if 0 <? nodesNeeded then
    let nodesNeeded := s32 (nodesNeeded + totalNodes (btree s)) in
    mapBits ← CalcMapBits (btree s);
    let nodesNeeded := if mapBits <? u32 nodesNeeded then s32 (nodesNeeded + 1) else nodesNeeded in
    ExtendBTree s (u32 nodesNeeded)
  else Ok (noErr, s).

Definition insert_exit (s : fs W) (nodeRec : NodeRec) (it : BTreeIterator) (err : Z) : Z * BTreeIterator * fs W :=
  let '(_, _, s) := ReleaseNode s nodeRec in
  (if err =? fsBTEmptyErr then fsBTRecordNotFoundErr else err, set_hint it no_hint, s).

(** [Success] of [BTInsertRecord] *)
Definition insert_success (s : fs W) (it : BTreeIterator) (insertNodeNum : Z) : Z * BTreeIterator * fs W :=
  let s := with_tree s (count_leaf (btree s) 1) in (noErr, changed_hint it (btree s) insertNodeNum, s).

(** A tree that is empty gets its first leaf. *)
Definition insert_first `{!ForkAgent W} (s : fs W) (nodeRec : NodeRec) (it : BTreeIterator) (data : buffer) (recordLen : Z)
    : outcome (Z * BTreeIterator * fs W) :=
  '(err, s) ← (if freeNodes (btree s) =? 0 then ExtendBTree s (u32 (totalNodes (btree s) + 1)) else Ok (noErr, s));
  if negb (err =? noErr) then Ok (insert_exit s nodeRec it err)
  else
    '(err, insertNodeNum, s) ← AllocateNode s;
    if negb (err =? noErr) then Ok (insert_exit s nodeRec it err)
    else
      '(err, nodeRec, s) ← GetNewNode s insertNodeNum nodeRec;
      if negb (err =? noErr) then Ok (insert_exit s nodeRec it err)
      else
        b ← of_option (nodeBuffer nodeRec);
        b ← set_kind b kBTLeafNode;
        b ← set_height b 1;
        keyLength ← KeyLength (btree s) (it_key it) 0;
        '(recordFit, b) ← InsertKeyRecord (btree s) b 0 (it_key it) keyLength data recordLen;
        if negb recordFit then Ok (insert_exit s (set_buffer nodeRec b) it fsBTRecordTooLargeErr)
        else
          '(err, nodeRec, s) ← UpdateNode s (set_buffer nodeRec b) kLockTransaction;
          if negb (err =? noErr) then Ok (insert_exit s nodeRec it err)
          else
            let b := btree s in
            let s := with_tree s (put_tree b 1 insertNodeNum insertNodeNum insertNodeNum (Z.lor (flags b) kBTHeaderDirty)) in
            Ok (insert_success s it insertNodeNum).

(** A record that is not the first of its leaf, and fits. *)
Definition insert_simple (s : fs W) (nodeRec : NodeRec) (it : BTreeIterator) (data : buffer) (recordLen index : Z)
    : outcome (bool * Z * NodeRec * fs W) :=
  if 0 <? index then
    b ← of_option (nodeBuffer nodeRec);
    keyLength ← KeyLength (btree s) (it_key it) 0;
    '(recordFit, b) ← InsertKeyRecord (btree s) b index (it_key it) keyLength data recordLen;
    let nodeRec := set_buffer nodeRec b in
    if (recordFit : bool) then
      '(err, nodeRec, s) ← UpdateNode s nodeRec kLockTransaction;
      Ok (true, err, nodeRec, s)
    else Ok (false, noErr, nodeRec, s)
  else Ok (false, noErr, nodeRec, s).

(** The insertion at the position that was found. *)
Definition insert_at_position `{!ForkAgent W} (s : fs W) (f : Found) (it : BTreeIterator) (data : buffer) (recordLen : Z)
    : outcome (Z * BTreeIterator * fs W) :=
  '(done, err, nodeRec, s) ← insert_simple s (f_node f) it data recordLen (f_index f);
  if negb (err =? noErr) then Ok (insert_exit s nodeRec it err)
  else if (done : bool) then Ok (insert_success s it (f_nodeNum f))
  else
    '(err, s) ← make_room s;
    if negb (err =? noErr) then Ok (insert_exit s nodeRec it err)
    else
      '(err, insertNodeNum, nodeRec, _, s) ←
        InsertTree s (f_path f) (it_key it) data recordLen nodeRec (f_index f) 1 kInsertRecord (f_nodeNum f);
      if negb (err =? noErr) then Ok (insert_exit s nodeRec it err)
      else Ok (insert_success s it insertNodeNum).

Definition insert_record `{!ForkAgent W} (s : fs W) (it : BTreeIterator) (data : buffer) (recordLen : Z)
    : outcome (Z * BTreeIterator * fs W) :=
  '(err, f, s) ← SearchTree keyCompareProc s (it_key it) stack no_node;
  if err =? noErr then Ok (insert_exit s (f_node f) it fsBTDuplicateRecordErr)
  else if err =? fsBTEmptyErr then insert_first s (f_node f) it data recordLen
  else if negb (err =? fsBTRecordNotFoundErr) then Ok (insert_exit s (f_node f) it err)
  else
    insert_at_position s f it data recordLen.

(** *** [BTReplaceRecord] *)

Definition replace_exit (s : fs W) (nodeRec : NodeRec) (it : BTreeIterator) (err : Z) : Z * BTreeIterator * fs W :=
  let '(_, _, s) := ReleaseNode s nodeRec in (err, set_hint it no_hint, s).

(** The node of the hint: with [true] all is done. *)
Definition replace_hint (s : fs W) (it : BTreeIterator) (data : buffer) (recordLen : Z)
    : outcome (bool * Z * NodeRec * BTreeIterator * fs W) :=
  '(err, nodeRec, s) ← GetNode s (hint_nodeNum (it_hint it)) no_node;
  if negb (err =? noErr) then Ok (false, noErr, nodeRec, BTInvalidateHint it, s)
  else
    b ← of_option (nodeBuffer nodeRec);
    '(recordFit, b) ← TrySimpleReplace (btree s) keyCompareProc b (it_key it) data recordLen;
    let nodeRec := set_buffer nodeRec b in
    if (recordFit : bool) then
      '(err, nodeRec, s) ← UpdateNode s nodeRec 0;
      if negb (err =? noErr) then Ok (true, err, nodeRec, it, s)
      else Ok (true, noErr, nodeRec, it, with_tree s (count_valid (btree s)))
    else
      let '(err, nodeRec, s) := ReleaseNode s nodeRec in
      Ok (false, err, nodeRec, BTInvalidateHint it, s).

Definition replace_record `{!ForkAgent W} (s : fs W) (it : BTreeIterator) (data : buffer) (recordLen : Z)
    : outcome (Z * BTreeIterator * fs W) :=
  let insertNodeNum := hint_nodeNum (it_hint it) in
  let '(validHint, bt) := IsItAHint (btree s) insertNodeNum in
  let s := with_tree s bt in
  '(done, err, nodeRec, it, s) ← (if validHint then replace_hint s it data recordLen else Ok (false, noErr, no_node, it, s));
  if negb (err =? noErr) then Ok (replace_exit s nodeRec it err)
  else if (done : bool) then Ok (noErr, changed_hint it (btree s) insertNodeNum, s)
  else
    '(err, f, s) ← SearchTree keyCompareProc s (it_key it) stack nodeRec;
    if negb (err =? noErr) then Ok (replace_exit s (f_node f) it err)
    else
      b ← of_option (nodeBuffer (f_node f));
      '(recordFit, b) ← TrySimpleReplace (btree s) keyCompareProc b (it_key it) data recordLen;
      let nodeRec := set_buffer (f_node f) b in
      if (recordFit : bool) then
        '(err, nodeRec, s) ← UpdateNode s nodeRec 0;
        if negb (err =? noErr) then Ok (replace_exit s nodeRec it err)
        else Ok (noErr, changed_hint it (btree s) (f_nodeNum f), s)
      else
        '(err, s) ← make_room s;
        if negb (err =? noErr) then Ok (replace_exit s nodeRec it err)
        else
          b ← DeleteRecord (btree s) b (f_index f);
          '(err, insertNodeNum, nodeRec, _, s) ←
            InsertTree s (f_path f) (it_key it) data recordLen (set_buffer nodeRec b) (f_index f) 1 kReplaceRecord (f_nodeNum f);
          if negb (err =? noErr) then Ok (replace_exit s nodeRec it err)
          else
            let s := with_tree s (count_write (btree s)) in
            Ok (noErr, changed_hint it (btree s) insertNodeNum, s).

(** *** [BTUpdateRecord] *)

Section update_record.
(** The callback changes the record in place. *)
Context {C : Type} (callBackProc : buffer -> buffer -> Z -> C -> Z * buffer * C).

(** The record of a node changed, and the node written. *)
Definition update_in_node (s : fs W) (nodeRec : NodeRec) (b : buffer) (index : Z) (c : C)
    : outcome (Z * NodeRec * C * fs W) :=
  r ← GetRecordByIndex (btree s) b index;
  match r with
  | inl err => Ok (err, nodeRec, c, s)
  | inr (keyPtr, recordPtr, len) =>
      key ← from_offset b keyPtr;
      record ← get_bytes b recordPtr len;
      let '(err, record, c) := callBackProc key record len c in
      b ← put_bytes b recordPtr record;
      let nodeRec := set_buffer nodeRec b in
      if negb (err =? noErr) then Ok (err, nodeRec, c, s)
      else '(err, nodeRec, s) ← UpdateNode s nodeRec 0; Ok (err, nodeRec, c, s)
  end.

Definition update_record (s : fs W) (it : BTreeIterator) (c : C) : outcome (Z * BTreeIterator * C * fs W) :=
  let nodeNum := hint_nodeNum (it_hint it) in
  let '(validHint, bt) := IsItAHint (btree s) nodeNum in
  let s := with_tree s bt in
  '(done, err, nodeRec, it, c, s) ←
    (if negb validHint then Ok (false, noErr, no_node, it, c, s)
     else
       '(err, nodeRec, s) ← GetNode s nodeNum no_node;
       if negb (err =? noErr) then Ok (false, noErr, nodeRec, BTInvalidateHint it, c, s)
       else
         b ← of_option (nodeBuffer nodeRec);
         k ← kind b;
         '(foundIt, index) ← (if k =? kBTLeafNode then SearchNode (btree s) keyCompareProc b (it_key it) else Ok (false, 0));
         if (foundIt : bool) then
           '(err, nodeRec, c, s) ← update_in_node s nodeRec b index c;
           Ok (true, err, nodeRec, it, c, if err =? noErr then with_tree s (count_valid (btree s)) else s)
         else
           let '(err, nodeRec, s) := ReleaseNode s nodeRec in
           Ok (false, err, nodeRec, BTInvalidateHint it, c, s));
  if negb (err =? noErr) then let '(err, it, s) := replace_exit s nodeRec it err in Ok (err, it, c, s)
  else if (done : bool) then Ok (noErr, changed_hint it (btree s) nodeNum, c, s)
  else
    '(err, f, s) ← SearchTree keyCompareProc s (it_key it) stack nodeRec;
    if negb (err =? noErr) then let '(err, it, s) := replace_exit s (f_node f) it err in Ok (err, it, c, s)
    else
      b ← of_option (nodeBuffer (f_node f));
      '(err, nodeRec, c, s) ← update_in_node s (f_node f) b (f_index f) c;
      if negb (err =? noErr) then let '(err, it, s) := replace_exit s nodeRec it err in Ok (err, it, c, s)
      else Ok (noErr, changed_hint it (btree s) (f_nodeNum f), c, s).
End update_record.

(** *** [BTDeleteRecord] *)

Definition delete_record (s : fs W) (it : BTreeIterator) : outcome (Z * BTreeIterator * fs W) :=
  '(err, f, s) ← SearchTree keyCompareProc s (it_key it) stack no_node;
  if negb (err =? noErr) then let '(_, _, s) := ReleaseNode s (f_node f) in Ok (err, it, s)
  else
    '(err, nodeRec, s) ← DeleteTree s (f_path f) (f_node f) (f_index f) 1;
    if negb (err =? noErr) then let '(_, _, s) := ReleaseNode s nodeRec in Ok (err, it, s)
    else Ok (noErr, BTInvalidateHint it, with_tree s (count_leaf (btree s) (-1))).
End open_file.

(** ** Files *)

(** [fcbBTCBPtr] and the state below it; [lastfsync] is a field of the control block that
    nothing else uses. *)
Record FCB (W : Type) := mkFCB {
  fcbBTCBPtr : option BTreeControlBlock;
  lastfsync : Z;
  fcb_vcbFlags : Z;
  fcb_agent : W
}.
Arguments mkFCB {W} _ _ _ _.
Arguments fcbBTCBPtr {W} _.
Arguments lastfsync {W} _.
Arguments fcb_vcbFlags {W} _.
Arguments fcb_agent {W} _.

Record BTreeInfoRec := mkInfo {
  info_nodeSize : Z;
  info_maxKeyLength : Z;
  info_treeDepth : Z;
  info_lastfsync : Z;
  info_numRecords : Z;
  info_numNodes : Z;
  info_numFreeNodes : Z
}.

Section files.
Context {W : Type} `{!FSAgent W, !ForkAgent W}.
Context (keyCompareProc : buffer -> buffer -> outcome Z) (stack : TreePathTable).

(** The file with an open control block. *)
Definition opened (s : fs W) (sync : Z) : FCB W := mkFCB (Some (btree s)) sync (vcbFlags s) (agent s).

(** An operation on the control block; without one, [none] is returned. *)
Definition on_btree {A} (f : FCB W) (none : A) (op : fs W -> outcome (A * fs W)) : outcome (A * FCB W) :=
  match fcbBTCBPtr f with
  | None => Ok (none, f)
  | Some b => '(a, s) ← op (mkFs b (fcb_vcbFlags f) (fcb_agent f)); Ok (a, opened s (lastfsync f))
  end.

Definition BTSearchRecord (f : FCB W) (io : SearchIO) : outcome (Z * SearchIO * FCB W) :=
  on_btree f (fsBTInvalidFileErr, io) (fun s => search_record keyCompareProc stack s io).

Definition BTIterateRecord (f : FCB W) (operation : Z) (iterator : option BTreeIterator)
    (record : option FSBufferDescriptor) (recordLen : option Z)
    : outcome (Z * option BTreeIterator * option FSBufferDescriptor * option Z * FCB W) :=
  on_btree f (fsBTInvalidFileErr, iterator, record, recordLen)
    (fun s => iterate_record keyCompareProc stack s operation iterator record recordLen).

(** The control block is not checked. *)
Definition BTIterateRecords {C} (callBackProc : buffer -> buffer -> Z -> C -> Z * C) (fuel : nat) (f : FCB W)
    (operation : Z) (iterator : option BTreeIterator) (c : C) : outcome (Z * option BTreeIterator * C * FCB W) :=
  b ← of_option (fcbBTCBPtr f);
  '(err, iterator, c, s) ← iterate_records keyCompareProc stack callBackProc fuel (mkFs b (fcb_vcbFlags f) (fcb_agent f))
                              operation iterator c;
  Ok (err, iterator, c, opened s (lastfsync f)).

Definition check_params (f : FCB W) (it : BTreeIterator) (data : buffer) (recordLen : Z) : outcome Z :=
  CheckInsertParams (Some (fcbBTCBPtr f)) (Some (it_key it)) (Some data) recordLen.

Definition BTInsertRecord (f : FCB W) (it : BTreeIterator) (data : buffer) (recordLen : Z)
    : outcome (Z * BTreeIterator * FCB W) :=
  err ← check_params f it data recordLen;
  if negb (err =? noErr) then Ok (err, it, f)
  else on_btree f (err, it) (fun s => insert_record keyCompareProc stack s it data recordLen).

Definition BTReplaceRecord (f : FCB W) (it : BTreeIterator) (data : buffer) (recordLen : Z)
    : outcome (Z * BTreeIterator * FCB W) :=
  err ← check_params f it data recordLen;
  if negb (err =? noErr) then Ok (err, it, f)
  else on_btree f (err, it) (fun s => replace_record keyCompareProc stack s it data recordLen).

(** The control block is not checked. *)
Definition BTUpdateRecord {C} (callBackProc : buffer -> buffer -> Z -> C -> Z * buffer * C) (f : FCB W)
    (it : BTreeIterator) (c : C) : outcome (Z * BTreeIterator * C * FCB W) :=
  b ← of_option (fcbBTCBPtr f);
  '(err, it, c, s) ← update_record keyCompareProc stack callBackProc (mkFs b (fcb_vcbFlags f) (fcb_agent f)) it c;
  Ok (err, it, c, opened s (lastfsync f)).

(** Without a control block the error exit calls [ReleaseNode] with no block to release. *)
Definition BTDeleteRecord (f : FCB W) (it : BTreeIterator) : outcome (Z * BTreeIterator * FCB W) :=
  on_btree f (fsBTInvalidFileErr, it) (fun s => delete_record keyCompareProc stack s it).

Definition BTGetInformation (f : FCB W) : Z * option BTreeInfoRec :=
  match fcbBTCBPtr f with
  | None => (fsBTInvalidFileErr, None)
  | Some b => (noErr, Some (mkInfo (nodeSize b) (maxKeyLength b) (treeDepth b) (lastfsync f) (leafRecords b)
                              (totalNodes b) (freeNodes b)))
  end.

Definition BTIsDirty (f : FCB W) : outcome Z := b ← of_option (fcbBTCBPtr f); Ok (TreeIsDirty b).

Definition BTFlushPath (f : FCB W) : outcome (Z * FCB W) :=
  on_btree f fsBTInvalidFileErr (fun s => UpdateHeader s false).

(** The fields read from a header, but for node size and attributes. *)
Definition load_header (b : BTreeControlBlock) (h : BTHeaderRec) (size attr flg write : Z) : BTreeControlBlock :=
  mkBTree (h_btreeType h) (h_treeDepth h) (h_rootNode h) (h_leafRecords h) (h_firstLeafNode h) (h_lastLeafNode h) size
    (h_maxKeyLength h) (h_totalNodes h) (h_freeNodes h) flg attr write
    (numGetNodes b) (numGetNewNodes b) (numReleaseNodes b) (numUpdateNodes b) (numMapNodesRead b)
    (numHintChecks b) (numPossibleHints b) (numValidHints b).

Definition BTReloadData (f : FCB W) : outcome (Z * FCB W) :=
  on_btree f fsBTInvalidFileErr (fun s =>
    '(err, node, s) ← GetNode s kHeaderNodeNum no_node;
    if negb (err =? noErr) then Ok (err, s)
    else
      b ← of_option (nodeBuffer node);
      _ ← get_bytes b sizeof_BTNodeDescriptor 106;
      let header := header_at b sizeof_BTNodeDescriptor in
      let err := VerifyHeader (fcbEOF (agent s)) header in
      let bt := btree s in
      let s := if err =? noErr
               then with_tree s (load_header bt header (nodeSize bt) (attributes bt) (Z.land (flags bt) (Z.lnot kBTHeaderDirty))
                                   (writeCount bt))
               else s in
      let '(_, _, s) := ReleaseNode s node in
      Ok (err, s)).

(** In these the lock of the control block is asserted before the pointer is checked. *)
Definition BTGetLastSync (f : FCB W) : outcome (Z * Z) :=
  _ ← of_option (fcbBTCBPtr f); Ok (noErr, lastfsync f).

(** [M_ReturnErrorIf(lastsync, paramErr)] *)
Definition BTSetLastSync (f : FCB W) (lastsync : Z) : outcome (Z * FCB W) :=
  b ← of_option (fcbBTCBPtr f);
  if negb (lastsync =? 0) then Ok (paramErr, f)
  else Ok (noErr, mkFCB (Some b) lastsync (fcb_vcbFlags f) (fcb_agent f)).

Definition BTCheckFreeSpace (f : FCB W) : outcome (Z * FCB W) :=
  b ← of_option (fcbBTCBPtr f);
  '(err, s) ← BTCheckFreeSpace_open (mkFs b (fcb_vcbFlags f) (fcb_agent f));
  Ok (err, opened s (lastfsync f)).

(** The attribute of a file that was not closed is cleared. *)
Definition BTClosePath (f : FCB W) : outcome (Z * FCB W) :=
  match fcbBTCBPtr f with
  | None => Ok (fsBTInvalidFileErr, f)
  | Some b =>
      let b := set_attributes b (Z.land (attributes b) (Z.lnot kBTBadCloseMask)) in
      '(err, s) ← UpdateHeader (mkFs b (fcb_vcbFlags f) (fcb_agent f)) true;
      if negb (err =? noErr) then Ok (err, opened s (lastfsync f))
      else Ok (noErr, mkFCB None (lastfsync f) (vcbFlags s) (agent s))
  end.

(** *** [BTOpenPath] *)

Definition open_error (s : fs W) (nodeRec : NodeRec) (sync err : Z) : Z * FCB W :=
  let '(_, _, s) := ReleaseNode s nodeRec in (err, mkFCB None sync (vcbFlags s) (agent s)).

Definition zero_btree : BTreeControlBlock := mkBTree 0 0 0 0 0 0 0 0 0 0 0 0 0 0 0 0 0 0 0 0 0.

(** The control block from the header; its attributes are at offset 38. *)
Definition open_header (b : BTreeControlBlock) (node : buffer) : BTreeControlBlock :=
  let header := header_at node sizeof_BTNodeDescriptor in
  let attr := field_at node (sizeof_BTNodeDescriptor + 38) 4 in
  let attr := if 40 <? h_maxKeyLength header then Z.lor attr (kBTBigKeysMask + kBTVariableIndexKeysMask) else attr in
  load_header b header (h_nodeSize header) attr 0 1.

(** The header node checked: in the block at hand, if that is a node. *)
Definition open_check (s : fs W) (nodeRec : NodeRec) (node : buffer) : outcome (Z * NodeRec * fs W) :=
  if nodeSize (btree s) =? blockSize nodeRec then
    err ← CheckNode (btree s) (fcbEOF (agent s)) node;
    Ok (err, nodeRec, if err =? noErr then s else mkFs (btree s) (Z.lor (vcbFlags s) kHFS_DamagedVolume) (agent s))
  else
    let '(err, w) := setBlockSizeProc (agent s) (nodeSize (btree s)) 32 in
    let s := with_agent s w in
    if negb (err =? noErr) then Ok (err, nodeRec, s)
    else
      let '(err, w) := releaseBlockProc (agent s) nodeRec kTrashBlock in
      let s := with_tree (with_agent s w) (count_release (btree s)) in
      if negb (err =? noErr) then Ok (err, nodeRec, s) else GetNode s kHeaderNodeNum nodeRec.

Definition BTOpenPath (f : FCB W) : outcome (Z * FCB W) :=
  match fcbBTCBPtr f with
  | Some _ => Ok (noErr, f)
  | None =>
      if fcbEOF (fcb_agent f) <? kMinNodeSize then Ok (fsBTInvalidFileErr, f)
      else
        let s := mkFs zero_btree (fcb_vcbFlags f) (fcb_agent f) in
        let nodeRec := mkNodeRec None None (hfs_phys_block_size (agent s)) false in
        let '(err, w) := setBlockSizeProc (agent s) (blockSize nodeRec) 1 in
        let s := with_agent s w in
        if negb (err =? noErr) then Ok (open_error s nodeRec 0 err)
        else
          let '(err, nodeRec, w) := getBlockProc (agent s) kHeaderNodeNum kGetBlock nodeRec in
          let s := with_agent s w in
          if negb (err =? noErr) then Ok (open_error s (nil_node nodeRec) 0 err)
          else
            let s := with_tree s (count_get (btree s)) in
            b ← of_option (nodeBuffer nodeRec);
            _ ← get_bytes b sizeof_BTNodeDescriptor 106;
            let err := VerifyHeader (fcbEOF (agent s)) (header_at b sizeof_BTNodeDescriptor) in
            if negb (err =? noErr) then Ok (open_error s nodeRec 0 err)
            else
              let s := with_tree s (open_header (btree s) b) in
              if (nodeSize (btree s) <? blockSize nodeRec) && ((0 <? leafRecords (btree s)) || hfs_media_writeable (agent s))
              then Ok (open_error s nodeRec 0 fsBTBadNodeSize)
              else
                '(err, nodeRec, s) ← open_check s nodeRec b;
                if negb (err =? noErr) then Ok (open_error s nodeRec 0 err)
                else
                  let '(err, nodeRec, s) := ReleaseNode s nodeRec in
                  if negb (err =? noErr) then Ok (open_error s nodeRec 0 err)
                  else Ok (noErr, opened s 0)
  end.
End files.
