(* ===== verification/BTreeFileTheorems.v ===== *)
(** * Correctness of the entry points of the B-tree manager

    [tree_file] is the invariant of an open file: a tree with linked, non-empty leaves and
    the count of its records.  The operations of BTree.c are shown to implement a sorted
    sequence of records: search, iteration over all records in order, insertion and deletion
    of one record, and the errors for a key that is missing or there already. *)
From S2P Require Import Prelude Bits Bytes UnicodeCompare BTreeNode BTreeKeys BTreeNodeTheorems BTreeBlocks BTreeMap.
From S2P Require Import BTreeMapTheorems BTreeMisc BTreeTree BTreeSearch BTreeRotate BTreeInsert BTreeFile.

(** ** Records: a key and data *)

Definition data_of (bt : BTreeControlBlock) (r : buffer) : buffer := drop (Z.to_nat (pointer_pos bt r)) r.
Definition key_of (bt : BTreeControlBlock) (r : buffer) : buffer := slice r 0 (key_size_at bt r 0).

(** A record has its key, padded to an even size, and then data. *)
Lemma rec_ok_pointer bt r : rec_ok bt r -> Forall byte r ->
  0 <= key_size_at bt r 0 <= pointer_pos bt r /\ pointer_pos bt r <= Z.of_nat (length r) /\ (2 <= length r)%nat.
Proof.
  intros (He & H6 & Hk) Hb. pose proof (size_of_length_range bt).
  assert (0 <= key_size_at bt r 0) as H0.
  { unfold key_size_at. pose proof (le_decode_range (slice r 0 (Z.of_nat (size_of_length bt))) ltac:(by apply slice_bytes)). lia. }
  unfold pointer_pos. cbv zeta. destruct (Z.odd (key_size_at bt r 0)) eqn:Ho; split_and!; try lia.
  apply Z.odd_spec in Ho as [a Ha]. apply Z.even_spec in He as [b Hb']. lia.
Qed.

(** [GetRecordByIndex] on a node of well-formed records. *)
Lemma get_record bt recs node (i : nat) r :
  node_holds (nodeSize bt) recs node -> recs !! i = Some r -> rec_ok bt r -> Forall byte r ->
  exists key data n, GetRecordByIndex bt node (Z.of_nat i) = Ok (inr (key, data, n)) /\
    0 <= key /\ 0 <= data /\ data + n <= nodeSize bt /\ n = Z.of_nat (length (data_of bt r)) /\
    slice node data n = data_of bt r /\ key + 2 <= nodeSize bt /\
    (exists rest, drop (Z.to_nat key) node = r ++ rest) /\
    key_size_at bt node key = key_size_at bt r 0 /\ key + key_size_at bt r 0 <= nodeSize bt /\
    slice node key (key_size_at bt r 0) = key_of bt r.
Proof.
  intros Hh Hr Hok Hb. destruct (rec_ok_pointer bt r Hok Hb) as (Hk & Hp & Hl).
  pose proof (lookup_lt_Some _ _ _ Hr). pose proof (rec_offset_S _ _ _ Hr). pose proof (rec_offset_ge recs i).
  destruct (node_holds_bounds _ _ _ (S i) Hh ltac:(lia)) as (? & ? & ?). pose proof (size_of_length_range bt).
  pose proof (slice_record _ _ _ Hh _ _ Hr) as Hsl.
  exists (rec_offset recs i), (rec_offset recs i + pointer_pos bt r), (Z.of_nat (length r) - pointer_pos bt r).
  split; [apply (GetRecordByIndex_spec bt recs node i r); done || exact Hp || lia|].
  assert (Z.of_nat (length (data_of bt r)) = Z.of_nat (length r) - pointer_pos bt r) as Hd.
  { unfold data_of. rewrite length_drop. lia. }
  split_and!; try lia.
  - rewrite <- (slice_slice node (rec_offset recs i) (Z.of_nat (length r)) (pointer_pos bt r)) by lia.
    rewrite Hsl. unfold slice, data_of. apply take_ge. rewrite length_drop. lia.
  - by apply (drop_record bt recs node Hh i).
  - unfold key_size_at. do 2 f_equal. rewrite <- Hsl at 1. rewrite slice_slice by lia. f_equal. lia.
  - unfold key_of. rewrite <- Hsl at 2. rewrite slice_slice by lia. f_equal. lia.
Qed.

(** ** Files *)

(** The number of leaf [i], zero where there is none. *)
Definition leaf_number (leaves : list leaf) (i : nat) : Z :=
  match leaves !! i with Some lf => lf.1 | None => 0 end.
Definition leaf_before (leaves : list leaf) (i : nat) : Z :=
  match i with O => 0 | S i => leaf_number leaves i end.

Section file.
Context {W : Type} `{!FSAgent W} (size : Z) (contents : W -> Z -> buffer) `{!FSAgentLaws W size contents}.
Context (P : buffer -> Prop) (rank : buffer -> list Z) (cmp : buffer -> buffer -> outcome Z)
  `{!KeyCompare P rank cmp}.

(** Leaf [i] of the file. *)
Record file_leaf (s : fs W) (leaves : list leaf) (i : nat) (m : Z) (recs : list buffer) : Prop := {
  fl_bytes : Forall byte (contents (agent s) m);
  fl_recs : Forall (rec_ok (btree s)) recs;
  fl_nonempty : recs <> [];
  fl_next : fLink (contents (agent s) m) = Ok (leaf_number leaves (S i));
  fl_prev : bLink (contents (agent s) m) = Ok (leaf_before leaves i)
}.

Record tree_file (s : fs W) (depth : nat) (leaves : list leaf) : Prop := {
  tf_tree : tree_at size contents P rank s depth (rootNode (btree s)) leaves;
  tf_depth : treeDepth (btree s) = Z.of_nat depth;
  tf_range : (1 <= depth <= 15)%nat;
  tf_nodup : NoDup (map fst leaves);
  tf_geometry : geometry size s;
  tf_size : size <= 32768;
  tf_leaf i m recs : leaves !! i = Some (m, recs) -> file_leaf s leaves i m recs;
  tf_first : firstLeafNode (btree s) = leaf_number leaves 0;
  tf_count : leafRecords (btree s) = Z.of_nat (length (leaf_records leaves))
}.

Lemma tree_file_same s s' depth leaves : same_fs contents s s' -> tree_file s depth leaves -> tree_file s' depth leaves.
Proof using Type.
  intros Hs [Htree Hd Hr Hn Hg Hz Hl Hf Hc]. pose proof Hs as (Ht & _ & _ & HC).
  pose proof Ht as (? & ? & ? & ? & ? & ? & ? & ? & E).
  assert (rootNode (btree s') = rootNode (btree s) /\ treeDepth (btree s') = treeDepth (btree s) /\
    firstLeafNode (btree s') = firstLeafNode (btree s) /\ leafRecords (btree s') = leafRecords (btree s)) as (E1 & E2 & E3 & E4)
    by (rewrite E; done).
  split; rewrite ?E1, ?E2, ?E3, ?E4; try done.
  - by apply (tree_at_same _ _ _ _ s).
  - by apply (geometry_same contents size s).
  - intros i m recs Hi. destruct (Hl i m recs Hi) as [? Hok ? ? ?]. split; rewrite ?HC; try done.
    eapply Forall_impl; [exact Hok|]. intros r. by apply rec_ok_same.
Qed.

Lemma tree_file_search s depth leaves key t nodePtr : tree_file s depth leaves -> P key -> length t = kMaxDepthEntries ->
  exists err f s', SearchTree cmp s key t nodePtr = Ok (err, f, s') /\
    search_post size contents rank s (<[0%nat := mkPath 0 0]> t) depth (rootNode (btree s)) leaves key err f s'.
Proof using FSAgentLaws0 KeyCompare0.
  intros [Htree Hd Hr _ (_ & Hsz & _) _ _ _ _] HP Ht. by apply (search_from_root size contents P rank cmp).
Qed.

(** The leaf in which a search ends. *)
Lemma file_node s depth leaves i m recs : tree_file s depth leaves -> leaves !! i = Some (m, recs) ->
  node_ok size contents P rank s 1 kBTLeafNode m recs /\ file_leaf s leaves i m recs /\
  Z.of_nat (length (contents (agent s) m)) = size /\ Forall (Forall byte) recs.
Proof using Type.
  intros HF Hi. pose proof (tf_leaf _ _ _ HF _ _ _ Hi) as Hl.
  pose proof (tree_at_leaf size contents P rank _ _ _ _ (tf_tree _ _ _ HF) m recs ltac:(by eapply list_elem_of_lookup_2)) as Hn.
  pose proof (no_holds _ _ _ _ _ _ _ _ _ Hn) as Hh. destruct (node_holds_bounds _ _ _ 0 Hh ltac:(lia)) as (_ & _ & Hlen).
  split_and!; try done. apply Forall_lookup. intros j r Hj.
  pose proof (tf_geometry _ _ _ HF) as (_ & Hsz & _). rewrite Hsz in Hh.
  rewrite <- (slice_record _ _ _ Hh _ _ Hj). apply slice_bytes, Hl.
Qed.

(** A key is in the file, or it is not. *)
Lemma at_key_record leaves key n index : at_key rank leaves key n index ->
  exists i recs r, leaves !! i = Some (n, recs) /\ recs !! Z.to_nat index = Some r /\ 0 <= index /\
    r ∈ leaf_records leaves /\ lex_cmp (rank key) (rank r) = 0.
Proof using Type.
  intros (recs & r & Hin & Hr & H0 & E). pose proof Hin as [i Hi]%list_elem_of_lookup.
  exists i, recs, r. split_and!; try done. apply list_elem_of_In, in_concat. exists recs.
  split; apply list_elem_of_In; [|by eapply list_elem_of_lookup_2].
  by apply (list_elem_of_fmap_2 snd leaves (n, recs)).
Qed.

Lemma at_gap_missing leaves key n index : at_gap rank leaves key n index ->
  forall r, r ∈ leaf_records leaves -> lex_cmp (rank key) (rank r) <> 0.
Proof using Type.
  intros (pre & recs & post & -> & _ & Hlo & Hhi) r Hr. rewrite leaf_records_app in Hr. unfold leaf_records in Hr at 2.
  simpl in Hr. rewrite <- (take_drop (Z.to_nat index) recs) in Hr. rewrite !elem_of_app in Hr.
  assert (lex_cmp (rank key) (rank r) = 1 \/ lex_cmp (rank key) (rank r) = -1) as [E|E]; [|lia..].
  destruct Hr as [H|[[H|H]|H]]; [left|left|right|right]; (apply Hlo || apply Hhi); rewrite elem_of_app; auto.
Qed.
End file.

(** ** Searching *)

Lemma copy_in_ok dst src p n : 0 <= p -> 0 <= n -> p + n <= Z.of_nat (length src) -> n <= Z.of_nat (length dst) ->
  copy_in dst src p 0 n = Ok (splice dst 0 (slice src p n)).
Proof.
  intros. unfold copy_in. rewrite get_bytes_ok by lia. cbn [mbind outcome_bind].
  apply put_bytes_ok; [lia|]. rewrite slice_length; lia.
Qed.

(** As much of a record as the buffer takes is in it. *)
Definition record_copied (bt : BTreeControlBlock) (r : buffer) (d d' : FSBufferDescriptor) : Prop :=
  let n := Z.min (u32 (itemCount d * itemSize d)) (Z.of_nat (length (data_of bt r))) in
  slice (bufferAddress d') 0 n = slice (data_of bt r) 0 n /\ itemSize d' = itemSize d /\ itemCount d' = itemCount d.

Definition buffer_fits (d : FSBufferDescriptor) : Prop :=
  u32 (itemCount d * itemSize d) <= Z.of_nat (length (bufferAddress d)).

Lemma copy_record_spec bt b p r d : 0 <= p -> p + Z.of_nat (length (data_of bt r)) <= Z.of_nat (length b) ->
  Z.of_nat (length b) < 65536 -> slice b p (Z.of_nat (length (data_of bt r))) = data_of bt r -> buffer_fits d ->
  exists d', copy_record b p (Z.of_nat (length (data_of bt r))) d = Ok d' /\ record_copied bt r d d'.
Proof.
  intros Hp Hl Hs Hd Hf. unfold copy_record, record_copied. cbv zeta.
  pose proof (Z.mod_pos_bound (itemCount d * itemSize d) (2 ^ 32) ltac:(lia)) as Hr.
  fold (wrap 32 (itemCount d * itemSize d)) in Hr. fold (u32 (itemCount d * itemSize d)) in Hr.
  unfold buffer_fits in Hf. set (sz := u32 _) in *. clearbody sz.
  set (n := Z.min sz (Z.of_nat (length (data_of bt r)))).
  assert ((if sz <? Z.of_nat (length (data_of bt r)) then u16 sz else Z.of_nat (length (data_of bt r))) = n) as ->.
  { unfold n. destruct (Z.ltb_spec sz (Z.of_nat (length (data_of bt r)))); [rewrite u16_small by lia|]; lia. }
  assert (0 <= n <= Z.of_nat (length (data_of bt r)) /\ n <= sz) as [? ?] by (unfold n; lia). clearbody n.
  rewrite copy_in_ok by lia. cbn [mbind outcome_bind]. eexists. split; [done|]. cbn [bufferAddress].
  split_and!; try done. rewrite slice_splice_same; [|lia|rewrite slice_length; lia|lia].
  rewrite <- Hd. rewrite slice_slice by lia. f_equal. lia.
Qed.

Section search.
Context {W : Type} `{!FSAgent W} (size : Z) (contents : W -> Z -> buffer) `{!FSAgentLaws W size contents}.
Context (P : buffer -> Prop) (rank : buffer -> list Z) (cmp : buffer -> buffer -> outcome Z)
  `{!KeyCompare P rank cmp}.

(** A hint names no node, or one that can be read; if that is a leaf, it is one of the tree. *)
Definition hint_ok (s : fs W) (leaves : list leaf) (h : Z) : Prop :=
  totalNodes (btree s) <= h \/ h = 0 \/
  readable size contents s h /\ Z.of_nat (length (contents (agent s) h)) = size /\
    (kind (contents (agent s) h) <> Ok kBTLeafNode \/ exists recs, (h, recs) ∈ leaves).

(** What the buffers of a search are large enough for. *)
Record io_fits (s : fs W) (leaves : list leaf) (io : SearchIO) : Prop := {
  io_fits_record d : io_record io = Some d -> buffer_fits d;
  io_fits_key it r : io_result io = Some it -> r ∈ leaf_records leaves ->
    key_size_at (btree s) r 0 <= Z.of_nat (length (it_key it));
  io_fits_search it : io_result io = Some it -> (2 <= length (it_key (io_search io)))%nat /\
    0 <= key_size_at (btree s) (it_key (io_search io)) 0 <= Z.of_nat (length (it_key (io_search io))) /\
    key_size_at (btree s) (it_key (io_search io)) 0 <= Z.of_nat (length (it_key it))
}.

(** The iterator is at record [r] of leaf [m]. *)
Definition iterator_at (bt : BTreeControlBlock) (m : Z) (r : buffer) (it' : BTreeIterator) : Prop :=
  hint_nodeNum (it_hint it') = m /\ slice (it_key it') 0 (key_size_at bt r 0) = key_of bt r.

(** The iterator has the key that was searched for, and names leaf [m]. *)
Definition iterator_moved (bt : BTreeControlBlock) (key : buffer) (m : Z) (it it' : BTreeIterator) : Prop :=
  hint_nodeNum (it_hint it') = m /\ it_key it' = splice (it_key it) 0 (slice key 0 (key_size_at bt key 0)).

Definition found_io (bt : BTreeControlBlock) (m : Z) (r : buffer) (io io' : SearchIO) : Prop :=
  io_recordLen io' = (match io_recordLen io with None => None | Some _ => Some (Z.of_nat (length (data_of bt r))) end) /\
  option_Forall2 (record_copied bt r) (io_record io) (io_record io') /\
  option_Forall2 (fun _ => iterator_at bt m r) (io_result io) (io_result io').

Lemma IsItAHint_same s h : exists b, IsItAHint (btree s) h =
    (negb (totalNodes (btree s) <=? h) && negb (h =? 0), b) /\ same_fs contents s (with_tree s b).
Proof using Type.
  unfold IsItAHint. destruct (totalNodes (btree s) <=? h), (h =? 0); eexists; (split; [done|]);
    (split_and!; [|done|done|done]); destruct s as [[] ? ?]; repeat eexists.
Qed.

Lemma count_valid_same s : same_fs contents s (with_tree s (count_valid (btree s))).
Proof using Type. split_and!; [|done|done|done]. destruct s as [[] ? ?]; repeat eexists. Qed.

(** The node of a hint has the record, or it is put back. *)
Lemma search_hint_spec s depth leaves it : tree_file size contents P rank s depth leaves -> P (it_key it) ->
  readable size contents s (hint_nodeNum (it_hint it)) ->
  Z.of_nat (length (contents (agent s) (hint_nodeNum (it_hint it)))) = size ->
  kind (contents (agent s) (hint_nodeNum (it_hint it))) <> Ok kBTLeafNode \/
    (exists recs, (hint_nodeNum (it_hint it), recs) ∈ leaves) ->
  exists hit it' s', search_hint cmp s it = Ok (noErr, hit, it', s') /\ it_key it' = it_key it /\ same_fs contents s s' /\
    match hit with
    | None => True
    | Some (node, index) => let m := hint_nodeNum (it_hint it) in
        nodeBuffer node = Some (contents (agent s) m) /\ blockHeader node = Some m /\ at_key rank leaves (it_key it) m index
    end.
Proof using FSAgentLaws0 KeyCompare0.
  intros HF HP Hread Hlen Hk. set (m := hint_nodeNum (it_hint it)) in *. pose proof HF as [_ _ _ _ (H64 & Hsz & _) _ _ _ _].
  unfold search_hint. fold m. cbv zeta.
  destruct (GetNode_readable size contents s m no_node Hread) as (node & s1 & -> & Hb & Hhd & Hs1).
  cbn [mbind outcome_bind negb noErr Z.eqb]. rewrite Hb. cbn [of_option mbind outcome_bind].
  assert (exists k, kind (contents (agent s) m) = Ok k) as [k Hkind].
  { unfold kind, load8. rewrite get_bytes_ok by lia. by eexists. }
  assert (exists n, numRecords (contents (agent s) m) = Ok n) as [n Hnum].
  { unfold numRecords, load16. rewrite get_bytes_ok by lia. by eexists. }
  rewrite Hkind, Hnum. cbn [mbind outcome_bind]. pose proof Hs1 as (Ht1 & _ & _ & HC1).
  destruct (ReleaseNode_unchanged size contents s1 m node ltac:(by rewrite HC1) Hhd) as (node' & s2 & Hrel & _ & Hs2).
  assert (same_fs contents s s2) as Hs by (by etrans).
  destruct ((k =? kBTLeafNode) && (0 <? n)) eqn:E.
  2: { cbn [mbind outcome_bind negb]. rewrite Hrel. cbn [negb noErr Z.eqb]. exists None, (BTInvalidateHint it), s2. done. }
  apply andb_prop in E as [->%Z.eqb_eq _]. destruct Hk as [Hk|[recs Hin]]; [done|].
  pose proof Hin as [i Hi]%list_elem_of_lookup. destruct (file_node _ _ _ _ s depth leaves i m recs HF Hi) as ([] & _ & _ & _).
  destruct (same_tree_fields _ _ Ht1) as (En & _).
  destruct (SearchNode_spec (btree s1) P rank cmp recs (contents (agent s) m) (it_key it)) as ([fnd index] & -> & Hf);
    [by rewrite En, <- Hsz|done..|].
  cbn [mbind outcome_bind]. destruct fnd; cbn [negb].
  - exists (Some (node, index)), it, (with_tree s1 (count_valid (btree s1))). split_and!; try done.
    + transitivity s1; [done|apply count_valid_same].
    + destruct Hf as (r & ? & ? & ?). by exists recs, r.
  - rewrite Hrel. cbn [negb noErr Z.eqb]. exists None, (BTInvalidateHint it), s2. done.
Qed.

Lemma set_position_spec bt it nodeNum index b keyPtr ks : 0 <= keyPtr -> keyPtr + 2 <= Z.of_nat (length b) ->
  key_size_at bt b keyPtr = ks -> 0 <= ks -> keyPtr + ks <= Z.of_nat (length b) -> ks <= Z.of_nat (length (it_key it)) ->
  exists it', set_position bt it nodeNum index b keyPtr = Ok it' /\ hint_nodeNum (it_hint it') = nodeNum /\
    slice (it_key it') 0 ks = slice b keyPtr ks /\ length (it_key it') = length (it_key it) /\
    it_hint it' = mkHint (writeCount bt) nodeNum index 0 0 /\ it_key it' = splice (it_key it) 0 (slice b keyPtr ks).
Proof using Type.
  intros. unfold set_position, copy_key. subst ks.
  assert (CalcKeySize bt b keyPtr = Ok (key_size_at bt b keyPtr)) as ->.
  { unfold CalcKeySize, KeyLength, key_size_at, size_of_length.
    destruct (big_keys bt); unfold load16, load8; rewrite get_bytes_ok by lia; simpl; by rewrite Z.add_comm. }
  cbn [mbind outcome_bind]. rewrite copy_in_ok by lia. cbn [mbind outcome_bind]. eexists. split; [done|].
  cbn [it_hint hint_nodeNum it_key]. split_and!; try done.
  - rewrite slice_splice_same; try done; rewrite ?slice_length; lia.
  - apply splice_length; rewrite ?slice_length; lia.
Qed.

(** The end of a search that found record [index] of leaf [m]. *)
Lemma search_finish_found s depth leaves io m index i recs r node :
  tree_file size contents P rank s depth leaves -> io_fits s leaves io ->
  leaves !! i = Some (m, recs) -> recs !! Z.to_nat index = Some r -> 0 <= index ->
  nodeBuffer node = Some (contents (agent s) m) -> blockHeader node = Some m ->
  exists io' s', search_finish s io true m node index = Ok (noErr, io', s') /\ same_fs contents s s' /\
    found_io (btree s) m r io io'.
Proof using FSAgentLaws0.
  intros HF [Hfr Hfk _] Hi Hr H0 Hb Hhd. destruct (file_node _ _ _ _ s depth leaves i m recs HF Hi) as (Hn & Hl & Hlen & Hby).
  pose proof (tf_geometry _ _ _ _ _ _ _ HF) as (_ & Hsz & _). pose proof (tf_size _ _ _ _ _ _ _ HF) as Hmax.
  pose proof (no_holds _ _ _ _ _ _ _ _ _ Hn) as Hh. rewrite Hsz in Hh.
  assert (rec_ok (btree s) r) as Hok by (by apply (Forall_lookup_1 _ _ _ _ (fl_recs _ _ _ _ _ _ Hl) Hr)).
  pose proof (Forall_lookup_1 _ _ _ _ Hby Hr) as Hbr. destruct (rec_ok_pointer _ _ Hok Hbr) as (Hk & _ & _).
  destruct (get_record (btree s) recs _ (Z.to_nat index) r Hh Hr Hok Hbr)
    as (kp & dp & dn & Hget & ? & ? & ? & -> & Hdata & ? & _ & Hks & ? & Hkey).
  rewrite Z2Nat.id in Hget by done. rewrite <- Hsz in *.
  assert (r ∈ leaf_records leaves) as Hin.
  { apply list_elem_of_In, in_concat. exists recs. split; apply list_elem_of_In; [|by eapply list_elem_of_lookup_2].
    apply (list_elem_of_fmap_2 snd leaves (m, recs)). by eapply list_elem_of_lookup_2. }
  destruct (ReleaseNode_unchanged size contents s m node Hb Hhd) as (node' & s' & Hrel & _ & Hs').
  unfold search_finish. rewrite Hb. cbn [of_option mbind outcome_bind]. rewrite Hget. cbn [mbind outcome_bind].
  assert (exists rec', copy_to (contents (agent s) m) dp (Z.of_nat (length (data_of (btree s) r))) (io_record io) = Ok rec' /\
    option_Forall2 (record_copied (btree s) r) (io_record io) rec') as (rec' & -> & Hrec').
  { destruct (io_record io) as [d|] eqn:Ed; [|by exists None; split; [|constructor]].
    destruct (copy_record_spec (btree s) (contents (agent s) m) dp r d) as (d' & Hd & ?);
      [lia|lia|lia|done|by apply Hfr|]. unfold copy_to. rewrite Hd. exists (Some d'). split; [done|by constructor]. }
  cbn [mbind outcome_bind io_result io_record io_recordLen io_search].
  assert (exists res', (match io_result io with
     | None => Ok None
     | Some it => it ← set_position (btree s) it m index (contents (agent s) m) kp; Ok (Some it) end) = Ok res' /\
    option_Forall2 (fun _ => iterator_at (btree s) m r) (io_result io) res') as (res' & Hres & Hit).
  { destruct (io_result io) as [it|] eqn:Ei; [|by exists None; split; [|constructor]].
    destruct (set_position_spec (btree s) it m index (contents (agent s) m) kp (key_size_at (btree s) r 0))
      as (it' & Hset & Hm & Hsl & _); [lia|lia|done|lia|lia|by apply Hfk|].
    rewrite Hset. exists (Some it'). split; [done|]. constructor. split; [done|]. by rewrite Hsl. }
  rewrite Hres. cbn [mbind outcome_bind]. rewrite Hrel. cbn [negb noErr Z.eqb].
  eexists _, s'. split; [done|]. split; [done|]. by split_and!.
Qed.

Lemma search_finish_missing s depth leaves io m index node :
  tree_file size contents P rank s depth leaves -> io_fits s leaves io ->
  nodeBuffer node = Some (contents (agent s) m) -> blockHeader node = Some m ->
  exists io' s', search_finish s io false m node index = Ok (fsBTRecordNotFoundErr, io', s') /\ same_fs contents s s' /\
    io_record io' = io_record io /\ io_recordLen io' = io_recordLen io /\
    option_Forall2 (iterator_moved (btree s) (it_key (io_search io)) m) (io_result io) (io_result io').
Proof using FSAgentLaws0.
  intros HF [_ _ Hfs] Hb Hhd.
  destruct (ReleaseNode_unchanged size contents s m node Hb Hhd) as (node' & s' & Hrel & _ & Hs').
  unfold search_finish. rewrite Hb. cbn [of_option mbind outcome_bind].
  assert (exists res', (match io_result io with
     | None => Ok None
     | Some it => it ← set_position (btree s) it m index (it_key (io_search io)) 0; Ok (Some it) end) = Ok res' /\
    option_Forall2 (iterator_moved (btree s) (it_key (io_search io)) m) (io_result io) res')
    as (res' & Hres & Hmoved).
  { destruct (io_result io) as [it|] eqn:Ei; [|by exists None; split; [|constructor]]. destruct (Hfs it eq_refl) as (? & ? & ?).
    destruct (set_position_spec (btree s) it m index (it_key (io_search io)) 0
      (key_size_at (btree s) (it_key (io_search io)) 0)) as (it' & Hset & Hm & _ & _ & _ & Hkey); [lia|lia|done|lia|lia|lia|].
    rewrite Hset. exists (Some it'). split; [done|]. by constructor. }
  rewrite Hres. cbn [mbind outcome_bind]. rewrite Hrel. cbn [negb noErr Z.eqb]. eexists _, s'. by split_and!.
Qed.

Lemma io_fits_same s s' leaves io : same_fs contents s s' -> io_fits s leaves io -> io_fits s' leaves io.
Proof using Type.
  intros (Ht & _) [Hr Hk Hs]. pose proof Ht as (? & ? & ? & ? & ? & ? & ? & ? & E).
  split; [done|rewrite E; exact Hk|rewrite E; exact Hs].
Qed.

Lemma found_io_same s s' m r io io' : same_fs contents s s' -> found_io (btree s') m r io io' -> found_io (btree s) m r io io'.
Proof using Type. intros ((? & ? & ? & ? & ? & ? & ? & ? & E) & _). rewrite E. done. Qed.

(** What a search returns, for a key that is there and for one that is not. *)
Definition search_result (s : fs W) (leaves : list leaf) (io : SearchIO) (err : Z) (io' : SearchIO) : Prop :=
  err = noErr /\ (exists m recs r, (m, recs) ∈ leaves /\ r ∈ recs /\
     lex_cmp (rank (it_key (io_search io))) (rank r) = 0 /\ found_io (btree s) m r io io') \/
  err = fsBTRecordNotFoundErr /\ io_record io' = io_record io /\ io_recordLen io' = io_recordLen io /\
     (exists m recs, (m, recs) ∈ leaves /\
        option_Forall2 (iterator_moved (btree s) (it_key (io_search io)) m) (io_result io) (io_result io')) /\
     forall r, r ∈ leaf_records leaves -> lex_cmp (rank (it_key (io_search io))) (rank r) <> 0.

Context (stack : TreePathTable) (Hstack : length stack = kMaxDepthEntries).

(** With an iterator that has the same key, in a file where only counters differ. *)
Lemma io_fits_set s s' leaves io it : same_fs contents s s' -> it_key it = it_key (io_search io) ->
  io_fits s leaves io -> io_fits s' leaves (set_search io it).
Proof using Type.
  intros Hs Hit Hio. apply (io_fits_same s s') in Hio as [Hr Hk Hsr]; [|done].
  split; cbn [set_search io_record io_result io_search]; [done|done|]. by rewrite Hit.
Qed.

(** The end of a search that found the key. *)
Lemma search_found s s1 depth leaves io it node m index :
  tree_file size contents P rank s depth leaves -> io_fits s leaves io -> same_fs contents s s1 ->
  it_key it = it_key (io_search io) -> at_key rank leaves (it_key it) m index ->
  nodeBuffer node = Some (contents (agent s) m) -> blockHeader node = Some m ->
  exists io' s', search_finish s1 (set_search io it) true m node index = Ok (noErr, io', s') /\ same_fs contents s s' /\
    search_result s leaves io noErr io'.
Proof using FSAgentLaws0.
  intros HF Hio Hs Hit Hat Hb Hhd. pose proof Hs as (_ & _ & _ & HC). rewrite Hit in Hat. rewrite <- HC in Hb.
  destruct (at_key_record rank leaves _ _ _ Hat) as (i & recs & r & Hi & Hr & H0 & Hin & E).
  destruct (search_finish_found s1 depth leaves (set_search io it) m index i recs r node)
    as (io' & s' & -> & Hs' & Hfound); try done.
  - by apply (tree_file_same size contents P rank s).
  - by apply (io_fits_set s).
  - exists io', s'. split_and!; [done|by transitivity s1|]. left. split; [done|]. exists m, recs, r.
    split_and!; [by eapply list_elem_of_lookup_2|by eapply list_elem_of_lookup_2|done|by apply (found_io_same s s1)].
Qed.

(** The search in the tree, when the hint did not help. *)
Lemma search_by_key_spec s s1 depth leaves io it : tree_file size contents P rank s depth leaves ->
  P (it_key (io_search io)) -> io_fits s leaves io -> same_fs contents s s1 -> it_key it = it_key (io_search io) ->
  exists err io' s', search_by_key cmp stack s1 (set_search io it) = Ok (err, io', s') /\
    same_fs contents s s' /\ search_result s leaves io err io'.
Proof using FSAgentLaws0 KeyCompare0 Hstack.
  intros HF HP Hio Hs Hit. pose proof (tree_file_same size contents P rank s s1 depth leaves Hs HF) as HF1.
  unfold search_by_key. cbn [set_search io_search]. rewrite Hit.
  destruct (tree_file_search size contents P rank cmp s1 depth leaves (it_key (io_search io)) stack no_node HF1 HP Hstack)
    as (err & f & s2 & -> & Hs2 & Hloc & Hb & Hhd & _ & _ & _).
  cbn [mbind outcome_bind]. assert (same_fs contents s s2) as Hs' by (by transitivity s1).
  pose proof Hs as (_ & _ & _ & HC). rewrite HC in Hb. pose proof Hs' as (_ & _ & _ & HC').
  destruct Hloc as [[-> Hat]|[-> Hgap]].
  - cbn [noErr Z.eqb]. destruct (search_found s s2 depth leaves io it (f_node f) (f_nodeNum f) (f_index f))
      as (io' & s' & Hrun & ? & ?); try done; [by rewrite Hit|]. by exists noErr, io', s'.
  - cbn [Z.eqb fsBTRecordNotFoundErr ERR_BASE Z.add Z.pos_sub noErr].
    destruct (search_finish_missing s2 depth leaves (set_search io it) (f_nodeNum f) (f_index f) (f_node f))
      as (io' & s' & Hrun & Hs3 & ? & ? & Hmoved);
      [by apply (tree_file_same size contents P rank s)|by apply (io_fits_set s)|by rewrite HC'|done|].
    exists fsBTRecordNotFoundErr, io', s'. split_and!; [done|by transitivity s2|]. right. split_and!; try done.
    { destruct Hgap as (pre & recs & post & Hlv & _). exists (f_nodeNum f), recs. split; [rewrite Hlv; set_solver|].
      cbn [set_search io_search io_result] in Hmoved. rewrite Hit in Hmoved. destruct Hs' as ((? & ? & ? & ? & ? & ? & ? & ? & E') & _).
      rewrite E' in Hmoved. exact Hmoved. }
    by apply (at_gap_missing rank leaves _ (f_nodeNum f) (f_index f)).
Qed.

Lemma search_record_spec s depth leaves io : tree_file size contents P rank s depth leaves ->
  P (it_key (io_search io)) -> io_fits s leaves io -> hint_ok s leaves (hint_nodeNum (it_hint (io_search io))) ->
  exists err io' s', search_record cmp stack s io = Ok (err, io', s') /\ same_fs contents s s' /\
    search_result s leaves io err io'.
Proof using FSAgentLaws0 KeyCompare0 Hstack.
  intros HF HP Hio Hhint. set (h := hint_nodeNum (it_hint (io_search io))) in *. unfold search_record. fold h.
  destruct (IsItAHint_same s h) as (b & -> & Hs0). set (s0 := with_tree s b) in *. cbv zeta.
  pose proof (tree_file_same size contents P rank s s0 depth leaves Hs0 HF) as HF0.
  destruct (negb (totalNodes (btree s) <=? h) && negb (h =? 0)) eqn:Hv;
    [|cbn [mbind outcome_bind negb noErr Z.eqb]; by apply (search_by_key_spec s s0 depth)].
  destruct Hhint as [Hh|[Hh|(Hread & Hlen & Hk)]].
  - by rewrite (proj2 (Z.leb_le _ _)) in Hv.
  - by rewrite Hh, andb_false_r in Hv.
  - destruct (search_hint_spec s0 depth leaves (io_search io)) as (hit & it' & s1 & -> & Hkey & Hs1 & Hhit);
      [done|done|by apply (readable_same _ _ s)|done|done|].
    assert (same_fs contents s s1) as Hs by (by transitivity s0).
    cbn [mbind outcome_bind negb noErr Z.eqb]. destruct hit as [[node index]|]; [|by apply (search_by_key_spec s s1 depth)].
    cbv zeta in Hhit. fold h in Hhit. destruct Hhit as (Hb & Hhd & Hat). exists noErr.
    apply (search_found s s1 depth); try done. by rewrite Hkey.
Qed.

End search.

(** ** Positions *)

Section positions.
Context {W : Type} `{!FSAgent W} (size : Z) (contents : W -> Z -> buffer) `{!FSAgentLaws W size contents}.
Context (P : buffer -> Prop) (rank : buffer -> list Z) (cmp : buffer -> buffer -> outcome Z)
  `{!KeyCompare P rank cmp}.
Context (s : fs W) (depth : nat) (leaves : list leaf) (HF : tree_file size contents P rank s depth leaves).

(** No node, or leaf [k]. *)
Definition sibling (k : nat) (r : NodeRec) : Prop :=
  nodeBuffer r = None \/
  exists m recs, leaves !! k = Some (m, recs) /\ nodeBuffer r = Some (contents (agent s) m) /\ blockHeader r = Some m.

(** Leaf [i] is in use, with its neighbours or without. *)
Record pos_leaf (p : Position) (i : nat) (m : Z) (recs : list buffer) : Prop := {
  pl_leaf : leaves !! i = Some (m, recs);
  pl_buffer : nodeBuffer (pos_node p) = Some (contents (agent s) m);
  pl_header : blockHeader (pos_node p) = Some m;
  pl_left : match i with O => nodeBuffer (pos_left p) = None | S k => sibling k (pos_left p) end;
  pl_right : sibling (S i) (pos_right p)
}.

Lemma release_sibling s1 k r : same_fs contents s s1 -> sibling k r ->
  exists r' s2, ReleaseNode s1 r = (noErr, r', s2) /\ nodeBuffer r' = None /\ same_fs contents s s2.
Proof using FSAgentLaws0.
  intros Hs [Hn|(m & recs & _ & Hb & Hh)].
  - unfold ReleaseNode, release_with. rewrite Hn. by exists (nil_node r), s1.
  - pose proof Hs as (_ & _ & _ & HC). destruct (ReleaseNode_unchanged size contents s1 m r) as (r' & s2 & -> & ? & Hs2);
      [by rewrite HC|done|]. exists r', s2. split_and!; [done|done|by transitivity s1].
Qed.

Lemma release_node s1 p i m recs : same_fs contents s s1 -> pos_leaf p i m recs ->
  exists r' s2, ReleaseNode s1 (pos_node p) = (noErr, r', s2) /\ nodeBuffer r' = None /\ same_fs contents s s2.
Proof using FSAgentLaws0.
  intros Hs []. apply (release_sibling s1 i); [done|]. right. by exists m, recs.
Qed.

Lemma sibling_left p i m recs : pos_leaf p i m recs -> exists k, sibling k (pos_left p).
Proof using Type. intros [_ _ _ Hl _]. destruct i as [|k]; [|by exists k]. exists 0%nat. by left. Qed.

(** All nodes of a position are released in the end. *)
Lemma release_position_spec s1 p i m recs : same_fs contents s s1 -> pos_leaf p i m recs ->
  exists p' s2, release_position s1 p = (noErr, p', s2) /\ same_fs contents s s2.
Proof using FSAgentLaws0.
  intros Hs Hp. destruct (release_node s1 p i m recs Hs Hp) as (nr & s2 & Hr & _ & Hs2).
  destruct (sibling_left p i m recs Hp) as [k Hk]. pose proof (pl_right _ _ _ _ Hp) as Hrt.
  unfold release_position. rewrite Hr. cbn [negb noErr Z.eqb pos_left pos_right pos_node].
  assert (exists l' s3, (if has_buffer (pos_left p) then ReleaseNode s2 (pos_left p) else (noErr, pos_left p, s2)) = (noErr, l', s3) /\
    same_fs contents s s3) as (l' & s3 & -> & Hs3).
  { destruct (release_sibling s2 k (pos_left p) Hs2 Hk) as (l' & s3 & -> & _ & ?). destruct (has_buffer _); eauto. }
  cbn [negb noErr Z.eqb pos_left pos_right pos_node].
  assert (exists l' s4, (if has_buffer (pos_right p) then ReleaseNode s3 (pos_right p) else (noErr, pos_right p, s3)) = (noErr, l', s4) /\
    same_fs contents s s4) as (l2 & s4 & -> & Hs4).
  { destruct (release_sibling s3 (S i) (pos_right p) Hs3 Hrt) as (l2 & s4 & -> & _ & ?). destruct (has_buffer _); eauto. }
  by eexists _, s4.
Qed.

Lemma release_all_spec s1 p i m recs : same_fs contents s s1 -> pos_leaf p i m recs -> same_fs contents s (release_all s1 p).
Proof using FSAgentLaws0.
  intros Hs Hp. destruct (sibling_left p i m recs Hp) as [k Hk]. unfold release_all.
  destruct (release_sibling s1 k (pos_left p) Hs Hk) as (? & s2 & -> & _ & Hs2).
  destruct (release_node s2 p i m recs Hs2 Hp) as (? & s3 & -> & _ & Hs3).
  destruct (release_sibling s3 (S i) (pos_right p) Hs3 (pl_right _ _ _ _ Hp)) as (? & s4 & -> & _ & Hs4). done.
Qed.

(** A leaf is got, by its number. *)
Lemma get_leaf s1 k m recs r : same_fs contents s s1 -> leaves !! k = Some (m, recs) ->
  exists r' s2, GetNode s1 m r = Ok (noErr, r', s2) /\ nodeBuffer r' = Some (contents (agent s) m) /\
    blockHeader r' = Some m /\ same_fs contents s s2.
Proof using FSAgentLaws0 HF.
  intros Hs Hk. destruct (file_node size contents P rank s depth leaves k m recs HF Hk) as ([] & _).
  pose proof Hs as (_ & _ & _ & HC).
  destruct (GetNode_readable size contents s1 m r) as (r' & s2 & -> & ? & ? & ?); [by apply (readable_same _ _ s)|].
  exists r', s2. split_and!; try done; [congruence|by transitivity s1].
Qed.

Lemma leaf_number_pos k m recs : leaves !! k = Some (m, recs) -> 0 < m /\ leaf_number leaves k = m.
Proof using HF FSAgentLaws0.
  intros Hk. unfold leaf_number. rewrite Hk. split; [|done].
  destruct (file_node size contents P rank s depth leaves k m recs HF Hk) as ([H0 (? & _) _ _ _ _ _] & _). lia.
Qed.

Lemma shift_right_spec s1 p i m recs m' recs' : same_fs contents s s1 -> leaves !! i = Some (m, recs) ->
  leaves !! S i = Some (m', recs') -> (exists k, sibling k (pos_left p)) ->
  nodeBuffer (pos_node p) = Some (contents (agent s) m) -> blockHeader (pos_node p) = Some m ->
  nodeBuffer (pos_right p) = Some (contents (agent s) m') -> blockHeader (pos_right p) = Some m' ->
  exists p' s2, shift_right s1 p = (noErr, p', s2) /\ same_fs contents s s2 /\ pos_leaf p' (S i) m' recs' /\
    pos_index p' = 0 /\ pos_nodeNum p' = pos_nodeNum p.
Proof using FSAgentLaws0.
  intros Hs Hi Hnx [k Hk] Hb Hh Eb Eh. unfold shift_right.
  destruct (release_sibling s1 k (pos_left p) Hs Hk) as (l' & s2 & -> & _ & Hs2).
  destruct (has_buffer (pos_left p)); cbn [negb noErr Z.eqb]; do 2 eexists; (split; [done|]); (split; [done|]);
    (split; [|done]); (split; cbn [pos_left pos_node pos_right]; [done|done|done| |by left]); right; by exists m, recs.
Qed.

(** To the next leaf, or to the end. *)
Lemma move_right_spec s1 p i m recs : same_fs contents s s1 -> pos_leaf p i m recs ->
  exists p' s2, same_fs contents s s2 /\
    match leaves !! S i with
    | Some (m', recs') => move_right s1 p = Ok (false, noErr, p', s2) /\ pos_leaf p' (S i) m' recs' /\ pos_index p' = 0 /\
        (pos_nodeNum p' = m' \/ pos_nodeNum p' = pos_nodeNum p)
    | None => move_right s1 p = Ok (true, fsBTEndOfIterationErr, p', s2) /\ pos_leaf p' i m recs /\ pos_index p' = pos_index p
    end.
Proof using FSAgentLaws0 HF.
  intros Hs Hp. pose proof Hp as [Hi Hb Hh Hl Hr]. pose proof (tf_leaf _ _ _ _ _ _ _ HF _ _ _ Hi) as [_ _ _ Hnext _].
  pose proof (sibling_left p i m recs Hp) as Hk. unfold move_right. rewrite Hb. cbn [of_option mbind outcome_bind].
  destruct (leaves !! S i) as [[m' recs']|] eqn:Hnx.
  - destruct (leaf_number_pos _ _ _ Hnx) as [Hm Hnum]. rewrite Hnum in Hnext.
    destruct Hr as [Hnil|(m2 & recs2 & E & Eb & Eh)].
    + unfold has_buffer at 1. rewrite Hnil. rewrite Hnext. cbn [mbind outcome_bind]. rewrite (proj2 (Z.ltb_lt _ _) Hm).
      destruct (get_leaf s1 (S i) m' recs' (pos_right p) Hs Hnx) as (r' & s2 & Hg & ? & ? & Hs2).
      cbn [pos_right pos_left pos_node pos_index pos_found]. rewrite Hg. cbn [mbind outcome_bind negb noErr Z.eqb].
      destruct (shift_right_spec s2 (mkPosition (pos_left p) (pos_node p) r' m' (pos_index p) (pos_found p)) i m recs m' recs')
        as (p' & s3 & -> & ? & ? & ? & ?); try done. exists p', s3. split_and!; try done. by left.
    + assert (has_buffer (pos_right p) = true) as -> by (unfold has_buffer; by rewrite Eb).
      cbn [mbind outcome_bind negb noErr Z.eqb].
      rewrite Hnx in E. injection E as <- <-. destruct (shift_right_spec s1 p i m recs m' recs') as (p' & s3 & -> & ? & ? & ? & ?); try done.
      exists p', s3. split_and!; try done. by right.
  - assert (leaf_number leaves (S i) = 0) as E by (unfold leaf_number; by rewrite Hnx). rewrite E in Hnext.
    destruct Hr as [Hnil|(m2 & recs2 & E2 & _)]; [|congruence]. unfold has_buffer at 1. rewrite Hnil, Hnext.
    cbn [mbind outcome_bind Z.ltb Z.compare negb fsBTEndOfIterationErr ERR_BASE noErr Z.add Z.pos_sub Z.eqb].
    eexists _, s1. split_and!; [done|done| |done]. split; try done. by left.
Qed.
End positions.

(** ** Iterating over all records *)

(** What [GetRecordByIndex] tells about record [r] of a node. *)
Record rec_at (bt : BTreeControlBlock) (node : buffer) (keyPtr recordPtr len : Z) (r : buffer) : Prop := {
  ra_key : 0 <= keyPtr;
  ra_key_in : keyPtr + 2 <= Z.of_nat (length node);
  ra_rest : exists rest, drop (Z.to_nat keyPtr) node = r ++ rest;
  ra_data : 0 <= recordPtr;
  ra_data_in : recordPtr + len <= Z.of_nat (length node);
  ra_len : len = Z.of_nat (length (data_of bt r));
  ra_slice : slice node recordPtr len = data_of bt r;
  ra_size : key_size_at bt node keyPtr = key_size_at bt r 0;
  ra_size_in : 0 <= key_size_at bt r 0 /\ keyPtr + key_size_at bt r 0 <= Z.of_nat (length node);
  ra_copy : slice node keyPtr (key_size_at bt r 0) = key_of bt r
}.

Lemma GetRecordByIndex_same b b' node i : same_tree b b' -> GetRecordByIndex b' node i = GetRecordByIndex b node i.
Proof. by intros (? & ? & ? & ? & ? & ? & ? & ? & ->). Qed.

Section all_records.
Context {W : Type} `{!FSAgent W} (size : Z) (contents : W -> Z -> buffer) `{!FSAgentLaws W size contents}.
Context (P : buffer -> Prop) (rank : buffer -> list Z) (cmp : buffer -> buffer -> outcome Z)
  `{!KeyCompare P rank cmp}.
Context (s : fs W) (depth : nat) (leaves : list leaf) (HF : tree_file size contents P rank s depth leaves).

Lemma leaf_record s1 i m recs (j : nat) r : same_fs contents s s1 -> leaves !! i = Some (m, recs) -> recs !! j = Some r ->
  exists kp dp n, GetRecordByIndex (btree s1) (contents (agent s) m) (Z.of_nat j) = Ok (inr (kp, dp, n)) /\
    rec_at (btree s) (contents (agent s) m) kp dp n r /\ P r.
Proof using FSAgentLaws0 HF.
  intros (Ht & _) Hi Hr. rewrite (GetRecordByIndex_same _ _ _ _ Ht).
  destruct (file_node size contents P rank s depth leaves i m recs HF Hi) as (Hn & Hl & Hlen & Hby).
  pose proof (tf_geometry _ _ _ _ _ _ _ HF) as (_ & Hsz & _).
  pose proof (no_holds _ _ _ _ _ _ _ _ _ Hn) as Hh. rewrite Hsz in Hh, Hlen.
  assert (rec_ok (btree s) r) as Hok by (by apply (Forall_lookup_1 _ _ _ _ (fl_recs _ _ _ _ _ _ Hl) Hr)).
  pose proof (Forall_lookup_1 _ _ _ _ Hby Hr) as Hbr. destruct (rec_ok_pointer _ _ Hok Hbr) as (Hk & _ & _).
  destruct (get_record (btree s) recs _ j r Hh Hr Hok Hbr)
    as (kp & dp & dn & Hget & ? & ? & ? & ? & Hdata & ? & ? & Hks & ? & Hkey).
  exists kp, dp, dn. split_and!; [done| |by apply (Forall_lookup_1 _ _ _ _ (no_keys _ _ _ _ _ _ _ _ _ Hn) Hr)].
  split; try done; lia.
Qed.

Section callback.
Context {C : Type} (cb : buffer -> buffer -> Z -> C -> Z * C).
(** The callback does not read behind the record. *)
Context (Hcb : forall r rest data n c, P r -> cb (r ++ rest) data n c = cb r data n c) (stack : TreePathTable).

(** The callback on a sequence of records: whether it stopped, and the state. *)
Fixpoint visit (bt : BTreeControlBlock) (rs : list buffer) (c : C) : bool * C :=
  match rs with
  | [] => (false, c)
  | r :: rs =>
      let '(more, c) := cb r (data_of bt r) (Z.of_nat (length (data_of bt r))) c in
      if more =? 0 then (true, c) else visit bt rs c
  end.

Lemma call_record_spec s1 m kp dp n r c : rec_at (btree s) (contents (agent s1) m) kp dp n r -> P r ->
  call_record cb (contents (agent s1) m) kp dp n c = Ok (cb r (data_of (btree s) r) (Z.of_nat (length (data_of (btree s) r))) c).
Proof using Hcb.
  intros [? ? [rest Hrest] ? ? -> Hsl ? ? _] HP. unfold call_record, from_offset.
  rewrite (proj2 (Z.leb_le 0 kp)), (proj2 (Z.leb_le kp _)) by lia. cbn [andb mbind outcome_bind].
  rewrite get_bytes_ok by lia. cbn [mbind outcome_bind]. by rewrite Hrest, Hsl, Hcb.
Qed.

(** A round that goes on has the next record. *)
Lemma next_record s1 p i m recs (j : nat) r todo : same_fs contents s s1 -> pos_leaf contents s leaves p i m recs ->
  pos_index p = Z.of_nat j -> recs !! j = Some r ->
  drop (S j) recs ++ leaf_records (drop (S i) leaves) = todo ->
  exists p' s2, same_fs contents s s2 /\
    match todo with
    | [] => exists err,
        (if pos_index p + 1 <? Z.of_nat (length recs) then Ok (false, noErr, at_index p (pos_index p + 1), s1) else move_right s1 p)
        = Ok (true, err, p', s2) /\ err = fsBTEndOfIterationErr /\ pos_leaf contents s leaves p' i m recs
    | r' :: todo' =>
        (if pos_index p + 1 <? Z.of_nat (length recs) then Ok (false, noErr, at_index p (pos_index p + 1), s1) else move_right s1 p)
        = Ok (false, noErr, p', s2) /\
        exists i' m' recs' (j' : nat), pos_leaf contents s leaves p' i' m' recs' /\ pos_index p' = Z.of_nat j' /\
          recs' !! j' = Some r' /\ drop (S j') recs' ++ leaf_records (drop (S i') leaves) = todo'
    end.
Proof using FSAgentLaws0 HF.
  intros Hs Hp Hj Hr Htodo. pose proof (lookup_lt_Some _ _ _ Hr) as Hlt. rewrite Hj.
  destruct (Z.ltb_spec (Z.of_nat j + 1) (Z.of_nat (length recs))) as [Hmore|Hend].
  - destruct (lookup_lt_is_Some_2 recs (S j)) as [r' Hr']; [lia|].
    rewrite (drop_S _ _ _ Hr') in Htodo. simpl in Htodo. subst todo.
    exists (at_index p (Z.of_nat j + 1)), s1. split; [done|]. split; [done|]. exists i, m, recs, (S j).
    destruct Hp. split_and!; [split; done|simpl; lia|done|done].
  - rewrite drop_ge in Htodo by lia. simpl in Htodo.
    destruct (move_right_spec size contents P rank s depth leaves HF s1 p i m recs Hs Hp) as (p' & s2 & Hs2 & Hmv).
    destruct (leaves !! S i) as [[m' recs']|] eqn:Hnx.
    + destruct Hmv as (Hrun & Hp' & Hj' & _).
      rewrite (drop_S _ _ _ Hnx) in Htodo. unfold leaf_records in Htodo. simpl in Htodo.
      pose proof (fl_nonempty _ _ _ _ _ _ (tf_leaf _ _ _ _ _ _ _ HF _ _ _ Hnx)) as Hne.
      destruct recs' as [|r' recs']; [done|]. simpl in Htodo. subst todo.
      exists p', s2. split; [done|]. split; [done|]. exists (S i), m', (r' :: recs'), 0%nat. done.
    + destruct Hmv as (Hrun & Hp' & _). rewrite drop_ge in Htodo by (by apply lookup_ge_None_1).
      unfold leaf_records in Htodo. simpl in Htodo. subst todo. exists p', s2. split; [done|]. by eexists.
Qed.

Lemma records_loop_spec todo : forall s1 p i m recs (j : nat) r kp dp n c fuel,
  same_fs contents s s1 -> pos_leaf contents s leaves p i m recs -> pos_index p = Z.of_nat j -> recs !! j = Some r ->
  drop (S j) recs ++ leaf_records (drop (S i) leaves) = todo -> (length todo < fuel)%nat ->
  rec_at (btree s) (contents (agent s) m) kp dp n r -> P r ->
  exists p' i' m' recs' r' kp' dp' n' s2,
    records_loop cb fuel s1 p kp dp n c =
      Ok (LoopDone (if (visit (btree s) (r :: todo) c).1 then noErr else fsBTEndOfIterationErr) kp', p',
          (visit (btree s) (r :: todo) c).2, s2) /\
    same_fs contents s s2 /\ pos_leaf contents s leaves p' i' m' recs' /\ r' ∈ recs' /\
    rec_at (btree s) (contents (agent s) m') kp' dp' n' r'.
Proof using FSAgentLaws0 HF Hcb.
  induction todo as [|r1 todo IH]; intros s1 p i m recs j r kp dp n c fuel Hs Hp Hj Hr Htodo Hfuel Hat HP;
    (destruct fuel as [|fuel]; [simpl in Hfuel; lia|]);
    pose proof Hp as [Hi Hb Hh _ _]; cbn [records_loop visit]; rewrite Hb; cbn [of_option mbind outcome_bind];
    rewrite (call_record_spec s m kp dp n r c Hat HP); cbn [mbind outcome_bind];
    (destruct (cb r _ _ c) as [more c1]; destruct (more =? 0);
      [exists p, i, m, recs, r, kp, dp, n, s1; split_and!; done || by eapply list_elem_of_lookup_2|]);
    (destruct (file_node size contents P rank s depth leaves i m recs HF Hi) as ([_ _ _ _ Hhold _ _] & _));
    pose proof (tf_geometry _ _ _ _ _ _ _ HF) as (_ & Hsz & _); rewrite Hsz in Hhold;
    rewrite (numRecords_holds _ _ _ Hhold); cbn [mbind outcome_bind];
    (destruct (next_record s1 p i m recs j r _ Hs Hp Hj Hr Htodo) as (p' & s2 & Hs2 & Hnext)).
  - destruct Hnext as (err & -> & -> & Hp'). cbn [mbind outcome_bind].
    exists p', i, m, recs, r, kp, dp, n, s2. split_and!; done || by eapply list_elem_of_lookup_2.
  - destruct Hnext as (-> & i' & m' & recs' & j' & Hp' & Hj' & Hr' & Htodo'). cbn [mbind outcome_bind negb noErr Z.eqb].
    pose proof Hp' as [Hi' Hb' _ _ _]. rewrite Hb', Hj'. cbn [of_option mbind outcome_bind].
    destruct (leaf_record s2 i' m' recs' j' r1 Hs2 Hi' Hr') as (kp' & dp' & n' & -> & Hat' & HP'). cbn [mbind outcome_bind].
    apply (IH s2 p' i' m' recs' j' r1 kp' dp' n' c1 fuel); try done. simpl in Hfuel. lia.
Qed.

(** An iterator has room for the key of every record. *)
Definition key_fits (it : BTreeIterator) : Prop :=
  (2 <= length (it_key it))%nat /\ forall r, r ∈ leaf_records leaves -> key_size_at (btree s) r 0 <= Z.of_nat (length (it_key it)).

Lemma leaf_elem i m recs r : leaves !! i = Some (m, recs) -> r ∈ recs -> r ∈ leaf_records leaves.
Proof using Type.
  intros Hi Hr. apply list_elem_of_In, in_concat. exists recs. split; apply list_elem_of_In; [|done].
  apply (list_elem_of_fmap_2 snd leaves (m, recs)). by eapply list_elem_of_lookup_2.
Qed.

Lemma copy_key_spec s1 i m recs kp dp n r it : same_fs contents s s1 -> leaves !! i = Some (m, recs) -> r ∈ recs ->
  rec_at (btree s) (contents (agent s) m) kp dp n r -> key_fits it ->
  copy_key (btree s1) (contents (agent s) m) kp (it_key it) = Ok (splice (it_key it) 0 (key_of (btree s) r)) /\
  length (splice (it_key it) 0 (key_of (btree s) r)) = length (it_key it).
Proof using Type.
  intros (Ht & _) Hi Hr [Hk Hki _ _ _ _ _ Hs Hsi Hc] [_ Hf]. specialize (Hf r (leaf_elem i m recs r Hi Hr)).
  destruct Ht as (? & ? & ? & ? & ? & ? & ? & ? & ->).
  assert (CalcKeySize (btree s) (contents (agent s) m) kp = Ok (key_size_at (btree s) r 0)) as E.
  { rewrite <- Hs. unfold CalcKeySize, KeyLength, key_size_at, size_of_length.
    destruct (big_keys (btree s)); unfold load16, load8; rewrite get_bytes_ok by lia; simpl; by rewrite Z.add_comm. }
  split.
  - unfold copy_key. change (CalcKeySize (recount _ _ _ _ _ _ _ _ _)) with (CalcKeySize (btree s)). rewrite E.
    cbn [mbind outcome_bind]. rewrite copy_in_ok by lia. by rewrite Hc.
  - apply splice_length; [lia|]. rewrite <- Hc, slice_length; lia.
Qed.

(** The iteration ends where the callback or the tree does. *)
Lemma iterate_first_spec iterator c fuel : (forall it, iterator = Some it -> key_fits it) ->
  (length (leaf_records leaves) < fuel)%nat ->
  exists it' s', iterate_records cmp stack cb fuel s kBTreeFirstRecord iterator c =
      Ok (if (visit (btree s) (leaf_records leaves) c).1 then noErr else fsBTRecordNotFoundErr, it',
          (visit (btree s) (leaf_records leaves) c).2, s') /\ same_fs contents s s'.
Proof using FSAgentLaws0 HF Hcb.
  intros Hit Hfuel.
  destruct (leaves !! 0%nat) as [[m recs]|] eqn:Hi.
  2: { pose proof (tree_leaves_nonempty _ _ _ _ _ _ _ _ (tf_tree _ _ _ _ _ _ _ HF)) as He. by destruct leaves. }
  pose proof (fl_nonempty _ _ _ _ _ _ (tf_leaf _ _ _ _ _ _ _ HF _ _ _ Hi)) as Hne.
  destruct recs as [|r recs]; [done|].
  destruct (leaf_number_pos size contents P rank s depth leaves HF 0 m _ Hi) as [Hm Hnum].
  destruct (file_node size contents P rank s depth leaves 0 m _ HF Hi) as ([_ _ _ Hki Hhold _ _] & _).
  pose proof (tf_geometry _ _ _ _ _ _ _ HF) as (_ & Hsz & _). rewrite Hsz in Hhold.
  assert (same_fs contents s s) as Hs by done.
  destruct (get_leaf size contents P rank s depth leaves HF s 0 m _ no_node Hs Hi) as (node & s1 & Hg & Hb & Hhd & Hs1).
  assert (iterate_to cmp stack s true kBTreeFirstRecord iterator = Ok (noErr, mkPosition no_node node no_node m 0 false, s1)) as Hto.
  { unfold iterate_to. cbn [Z.leb Z.eqb negb andb orb kBTreeFirstRecord]. unfold first_or_last. cbv zeta. 
    change (kBTreeFirstRecord =? kBTreeFirstRecord) with true. cbv iota.
    rewrite (tf_first _ _ _ _ _ _ _ HF), Hnum, (proj2 (Z.eqb_neq _ _)) by lia. rewrite Hg.
    cbn [mbind outcome_bind negb noErr Z.eqb]. rewrite Hb. cbn [of_option mbind outcome_bind]. rewrite Hki.
    cbn [mbind outcome_bind]. rewrite (numRecords_holds _ _ _ Hhold). cbn [mbind outcome_bind]. simpl. done. }
  assert (pos_leaf contents s leaves (mkPosition no_node node no_node m 0 false) 0 m (r :: recs)) as Hp.
  { split; try done. by left. }
  destruct (leaf_record s1 0 m (r :: recs) 0 r Hs1 Hi eq_refl) as (kp & dp & n & Hget & Hat & HP).
  assert (leaf_records leaves = r :: recs ++ leaf_records (drop 1 leaves)) as Hall.
  { rewrite <- (take_drop_middle leaves 0 _ Hi) at 1. done. }
  rewrite Hall in Hfuel. simpl in Hfuel.
  destruct (records_loop_spec (recs ++ leaf_records (drop 1 leaves)) s1 (mkPosition no_node node no_node m 0 false) 0 m (r :: recs)
    0 r kp dp n c fuel) as (p' & i' & m' & recs' & r' & kp' & dp' & n' & s2 & Hrun & Hs2 & Hp' & Hr' & Hat'); try done; [lia|].
  rewrite <- Hall in Hrun. unfold iterate_records. rewrite Hto. cbn [mbind outcome_bind negb noErr Z.eqb pos_node pos_index].
  rewrite Hb. cbn [of_option mbind outcome_bind]. change (Z.of_nat 0) with 0 in Hget. rewrite Hget. cbn [mbind outcome_bind]. rewrite Hrun.
  cbn [mbind outcome_bind]. pose proof Hp' as [Hi' Hb' _ _ _]. rewrite Hb'. cbn [of_option mbind outcome_bind].
  destruct (visit (btree s) (leaf_records leaves) c) as [stopped c'] eqn:Ev. cbn [fst snd].
  destruct (release_position_spec size contents s leaves s2 p' i' m' recs' Hs2 Hp') as (p2 & s3 & Hrel & Hs3).
  pose proof (release_all_spec size contents s leaves s2 p' i' m' recs' Hs2 Hp') as Hs4.
  destruct iterator as [it|].
  - destruct (copy_key_spec s2 i' m' recs' kp' dp' n' r' it Hs2 Hi' Hr' Hat' (Hit it eq_refl)) as [Hck Hlen].
    rewrite Hck. cbn [mbind outcome_bind]. destruct stopped; cbn [negb noErr Z.eqb].
    + rewrite Hrel. cbn [negb noErr Z.eqb]. by eexists _, s3.
    + unfold records_exit, store16. cbn [it_key]. destruct (Hit it eq_refl) as [H2 _].
      rewrite put_bytes_ok by (rewrite ?le_encode_length; lia). cbn [mbind outcome_bind]. by eexists _, _.
  - cbn [mbind outcome_bind]. destruct stopped; cbn [negb noErr Z.eqb].
    + rewrite Hrel. cbn [negb noErr Z.eqb]. by eexists _, s3.
    + unfold records_exit. cbn [mbind outcome_bind]. by eexists _, _.
Qed.

(** C8: [BTIterateRecords] from the first record on calls the callback with every record of
    the tree in the order of the keys, each with its data, until the callback returns zero;
    when the records are exhausted it reports that there is none left.  It returns, and the
    file is not changed.  The callback looks only at the key, the data and the length that it
    is given, and an iterator that is to be set has room for the keys of the tree. *)
Theorem BTIterateRecords_correct sync iterator c fuel : (forall it, iterator = Some it -> key_fits it) ->
  (length (leaf_records leaves) < fuel)%nat ->
  exists it' s', BTIterateRecords cmp stack cb fuel (opened s sync) kBTreeFirstRecord iterator c =
      Ok (if (visit (btree s) (leaf_records leaves) c).1 then noErr else fsBTRecordNotFoundErr, it',
          (visit (btree s) (leaf_records leaves) c).2, opened s' sync) /\ same_fs contents s s'.
Proof using FSAgentLaws0 HF Hcb.
  intros Hit Hfuel. destruct (iterate_first_spec iterator c fuel Hit Hfuel) as (it' & s' & Hrun & Hs').
  exists it', s'. split; [|done]. unfold BTIterateRecords. cbn [opened fcbBTCBPtr fcb_vcbFlags fcb_agent of_option mbind outcome_bind].
  assert (mkFs (btree s) (vcbFlags s) (agent s) = s) as -> by (by destruct s). rewrite Hrun. done.
Qed.
End callback.
End all_records.

(** ** Inserting and deleting *)

Section changes.
Context {W : Type} `{!FSAgent W, !ForkAgent W} (size : Z) (contents : W -> Z -> buffer) `{!FSAgentLaws W size contents}.
Context (P : buffer -> Prop) (rank : buffer -> list Z) (cmp : buffer -> buffer -> outcome Z)
  `{!KeyCompare P rank cmp}.

(** The counts of records and changes are no part of the tree. *)
Lemma tree_at_count s d l n leaves : tree_at size contents P rank s l n leaves ->
  tree_at size contents P rank (with_tree s (count_leaf (btree s) d)) l n leaves.
Proof using Type.
  assert (forall l k n recs, node_ok size contents P rank s l k n recs ->
    node_ok size contents P rank (with_tree s (count_leaf (btree s) d)) l k n recs) as Hn by (intros ? ? ? ? []; by split).
  induction 1 as [n recs H|l n recs parts Hl H Hne Hlen Hix Hsub IH Hlo Hhi].
  - by apply tree_leaf, Hn.
  - by apply (tree_index _ _ _ _ _ _ _ recs); try done; apply Hn.
Qed.

Lemma leaf_number_update (pre : list leaf) m recs recs' post k :
  leaf_number (pre ++ (m, recs') :: post) k = leaf_number (pre ++ (m, recs) :: post) k.
Proof using Type.
  unfold leaf_number. destruct (decide (k < length pre)%nat).
  - by rewrite !lookup_app_l by lia.
  - rewrite !lookup_app_r by lia. destruct (k - length pre)%nat; done.
Qed.

(** A file in which the records of one leaf changed. *)
Lemma tree_file_update s s' depth pre m recs recs' post node' d :
  tree_file size contents P rank s depth (pre ++ (m, recs) :: post) -> updated contents s s' m node' ->
  same_links (contents (agent s) m) node' -> node_holds size recs' node' -> Forall byte node' ->
  Forall (rec_ok (btree s)) recs' -> recs' <> [] ->
  tree_at size contents P rank s' depth (rootNode (btree s)) (pre ++ (m, recs') :: post) ->
  Z.of_nat (length recs') = Z.of_nat (length recs) + d -> leafRecords (btree s) + d < 2 ^ 32 ->
  tree_file size contents P rank (with_tree s' (count_leaf (btree s') d)) depth (pre ++ (m, recs') :: post).
Proof using Type.
  intros HF Hupd Hl Hh Hby Hok Hne Htree Hlen Hmax. pose proof HF as [_ Hd Hr Hnd Hg Hz Hlf Hf Hc].
  pose proof Hupd as (Ht & _ & HE & HCm & HC). pose proof Ht as (? & ? & ? & ? & ? & ? & ? & ? & E).
  assert ((pre ++ (m, recs) :: post) !! length pre = Some (m, recs)) as Hi by apply list_lookup_split.
  destruct (file_node size contents P rank s depth _ _ m recs HF Hi) as (Hn & _ & _ & _).
  pose proof (no_holds _ _ _ _ _ _ _ _ _ Hn) as Hho.
  destruct (same_links_holds _ _ _ _ _ Hl Hho Hh) as (Efl & Ebl & _ & _).
  assert (forall k, leaf_before (pre ++ (m, recs') :: post) k = leaf_before (pre ++ (m, recs) :: post) k) as Hbef
    by (intros [|k]; [done|apply leaf_number_update]).
  assert (rootNode (btree s') = rootNode (btree s) /\ treeDepth (btree s') = treeDepth (btree s) /\
    firstLeafNode (btree s') = firstLeafNode (btree s) /\ leafRecords (btree s') = leafRecords (btree s) /\
    nodeSize (btree s') = nodeSize (btree s)) as (E1 & E2 & E3 & E4 & E5) by (rewrite E; done).
  assert (forall rs, Forall (rec_ok (btree s)) rs -> Forall (rec_ok (count_leaf (btree s') d)) rs) as Hoks.
  { intros rs Hrs. eapply Forall_impl; [exact Hrs|]. intros r. exact (rec_ok_same (btree s) (btree s') r Ht). }
  split; cbn [with_tree btree agent count_leaf set_counts rootNode treeDepth firstLeafNode leafRecords];
    rewrite ?E1, ?E2, ?E3, ?E4; try done.
  - by apply tree_at_count.
  - by rewrite map_app in Hnd |- *.
  - destruct Hg as (? & ? & ? & ?). unfold geometry. cbn [with_tree btree agent count_leaf set_counts nodeSize]. by rewrite HE, E5.
  - intros k n rs Hk. destruct (decide (k = length pre)) as [->|Hkp].
    + rewrite list_lookup_split in Hk. injection Hk as <- <-. destruct (Hlf _ _ _ Hi) as [_ _ _ Hnx Hpv].
      split; cbn [with_tree agent]; rewrite ?HCm; [done|by apply Hoks|done| |].
      * by rewrite (leaf_number_update pre m recs), Efl.
      * by rewrite Hbef, Ebl.
    + assert ((pre ++ (m, recs) :: post) !! k = Some (n, rs)) as Hk'.
      { destruct (decide (k < length pre)%nat); [by rewrite lookup_app_l in Hk |- * by lia|].
        rewrite lookup_app_r in Hk |- * by lia. destruct (k - length pre)%nat eqn:Ek; [lia|done]. }
      assert (n <> m) as Hnm.
      { intros ->. apply Hkp. apply (NoDup_lookup (map fst (pre ++ (m, recs) :: post)) k (length pre) m Hnd);
          by rewrite list_lookup_fmap, ?Hk', ?Hi. }
      destruct (Hlf _ _ _ Hk') as [? ? ? Hnx Hpv]. split; cbn [with_tree agent]; rewrite ?(HC n Hnm);
        [done|by apply Hoks|done|by rewrite (leaf_number_update pre m recs)|by rewrite Hbef].
  - by rewrite (leaf_number_update pre m recs).
  - rewrite Hc.
    assert (Z.of_nat (length (leaf_records (pre ++ (m, recs') :: post))) =
      Z.of_nat (length (leaf_records (pre ++ (m, recs) :: post))) + d) as ->.
    { rewrite !leaf_records_app, !length_app. unfold leaf_records. simpl. rewrite !length_app. lia. }
    apply u32_small. rewrite Hc in Hmax. rewrite leaf_records_app, length_app in Hmax |- *. unfold leaf_records in *.
    simpl in *. rewrite length_app in *. lia.
Qed.

(** No leaf is its own neighbour. *)
Lemma file_leaf_fits s depth leaves i m recs new : tree_file size contents P rank s depth leaves ->
  leaves !! i = Some (m, recs) -> used_bytes recs + Z.of_nat (length new) + 2 <= size -> leaf_fits size contents s m recs new.
Proof using Type.
  intros HF Hi Hfit. pose proof (tf_leaf _ _ _ _ _ _ _ HF _ _ _ Hi) as [? ? ? _ Hpv].
  split_and!; try done. rewrite Hpv. intros [= E]. destruct i as [|i]; simpl in E.
  - destruct (file_node size contents P rank s depth _ _ m recs HF Hi) as ([] & _). done.
  - unfold leaf_number in E. destruct (leaves !! i) as [[m' recs']|] eqn:Hi'; simpl in E.
    + subst m'. enough (i = S i) by lia.
      apply (NoDup_lookup (map fst leaves) i (S i) m (tf_nodup _ _ _ _ _ _ _ HF)); by rewrite list_lookup_fmap, ?Hi, ?Hi'.
    + destruct (file_node size contents P rank s depth _ _ m recs HF Hi) as ([] & _). done.
Qed.

Lemma updated_holds s s' l n m recs node' leaves : tree_at size contents P rank s' l n leaves -> (m, recs) ∈ leaves ->
  updated contents s s' m node' -> node_holds size recs node'.
Proof using Type.
  intros Ht Hin (_ & _ & _ & HCm & _). pose proof (tree_at_leaf size contents P rank _ _ _ _ Ht m recs Hin) as [].
  congruence.
Qed.

(** A record that belongs behind the first one of its leaf, and fits. *)
Lemma insert_simple_spec s r it data recSize raw new m recs (i : nat) :
  nodeBuffer r = Some (contents (agent s) m) -> blockHeader r = Some m -> geometry size s -> size <= 32768 ->
  readable size contents s m -> node_holds size recs (contents (agent s) m) -> (i <= length recs)%nat -> i <> 0%nat ->
  insertable P rank (btree s) (it_key it) data recSize raw new -> leaf_fits size contents s m recs new ->
  exists r' s' node', insert_simple s r it data recSize (Z.of_nat i) = Ok (true, noErr, r', s') /\
    updated contents s s' m node' /\ node_holds size (insert_at i new recs) node' /\
    same_links (contents (agent s) m) node' /\ Forall byte node'.
Proof using FSAgentLaws0.
  intros Hb Hhd Hg Hmax Hread Hh Hi H0 (Hraw & Hr & Hkl & Hrs & -> & Hkb & Hdb & _) (Hcb & _ & _ & Hfit).
  pose proof Hg as (_ & Hsz & _). set (new := key_record _ _ _ _ _) in *.
  assert (Z.of_nat (length new) = padded_key_size (btree s) raw + recSize) as Hlen.
  { unfold new. rewrite key_record_length by lia. rewrite slice_length by lia. done. }
  rewrite used_bytes_offset in Hfit. rewrite Hsz in Hh, Hfit.
  destruct (InsertKeyRecord_fits (btree s) recs (contents (agent s) m) i (it_key it) raw raw data recSize)
    as (node' & Hrun & Hh' & Hl); [done|done|done|lia|lia|done|done|lia|].
  fold new in Hh'. rewrite <- Hsz in Hh'.
  pose proof (InsertKeyRecord_bytes _ _ _ _ _ _ _ _ _ Hcb Hkb Hdb Hrun) as Hby.
  destruct (node_holds_bounds _ _ _ 0 Hh' ltac:(lia)) as (_ & _ & Hlen').
  destruct (UpdateNode_stores size contents s m (set_buffer r node') node' kLockTransaction)
    as (r' & s' & Hup & _ & Hupd); [apply Hread|done|done|done|by apply (CheckNode_returns size contents s m)|].
  exists r', s', node'. split_and!; try done. unfold insert_simple. rewrite (proj2 (Z.ltb_lt 0 (Z.of_nat i))) by lia.
  rewrite Hb. cbn [of_option mbind outcome_bind]. rewrite Hraw. cbn [mbind outcome_bind]. rewrite Hrun.
  cbn [mbind outcome_bind]. rewrite Hup. done.
Qed.

Lemma make_room_none s depth : treeDepth (btree s) = Z.of_nat depth -> (depth <= 15)%nat ->
  Z.of_nat depth + 1 <= freeNodes (btree s) < 2 ^ 31 -> make_room s = Ok (noErr, s).
Proof using Type.
  intros Hd Hr Hf. unfold make_room. rewrite Hd. unfold s32. rewrite swrap_small by lia.
  cbv zeta. by rewrite (proj2 (Z.ltb_ge _ _)) by lia.
Qed.

(** What is left of an insertion after the search: the records of one leaf. *)
Definition inserted (depth : nat) (leaves : list leaf) (key new : buffer) (s' : fs W) : Prop :=
  exists leaves' before after, tree_file size contents P rank s' depth leaves' /\
    leaf_records leaves = before ++ after /\ leaf_records leaves' = before ++ new :: after /\
    (forall r, r ∈ before -> lex_cmp (rank key) (rank r) = 1) /\
    (forall r, r ∈ after -> lex_cmp (rank key) (rank r) = -1).

Lemma inserted_file s s' depth pre m recs post (i : nat) key new node' :
  tree_file size contents P rank s depth (pre ++ (m, recs) :: post) -> (i <= length recs)%nat ->
  updated contents s s' m node' -> same_links (contents (agent s) m) node' -> Forall byte node' ->
  rec_ok (btree s) new -> leafRecords (btree s) + 1 < 2 ^ 32 ->
  tree_at size contents P rank s' depth (rootNode (btree s)) (pre ++ (m, insert_at i new recs) :: post) ->
  (forall r, r ∈ leaf_records pre ++ take i recs -> lex_cmp (rank key) (rank r) = 1) ->
  (forall r, r ∈ drop i recs ++ leaf_records post -> lex_cmp (rank key) (rank r) = -1) ->
  inserted depth (pre ++ (m, recs) :: post) key new (with_tree s' (count_leaf (btree s') 1)).
Proof using Type.
  intros HF Hi Hupd Hl Hby Hok Hmax Htree Hlo Hhi.
  exists (pre ++ (m, insert_at i new recs) :: post), (leaf_records pre ++ take i recs), (drop i recs ++ leaf_records post).
  split_and!; try done.
  - assert ((pre ++ (m, recs) :: post) !! length pre = Some (m, recs)) as Hlk by apply list_lookup_split.
    apply (tree_file_update s s' depth pre m recs (insert_at i new recs) post node'); try done.
    + apply (updated_holds s s' _ _ m _ node' _ Htree); [|done]. apply (list_elem_of_lookup_2 _ (length pre)), list_lookup_split.
    + apply Forall_insert_at; [done|]. apply (tf_leaf _ _ _ _ _ _ _ HF _ _ _ Hlk).
    + unfold insert_at. by destruct (take i recs).
    + rewrite insert_at_length by done. lia.
  - rewrite leaf_records_app. unfold leaf_records. simpl. by rewrite <- app_assoc, (app_assoc (take _ _)), take_drop.
  - rewrite leaf_records_app. unfold leaf_records, insert_at. simpl. by rewrite <- !app_assoc.
Qed.


Lemma insert_exit_spec s s1 r it err m : same_fs contents s s1 -> nodeBuffer r = Some (contents (agent s1) m) ->
  blockHeader r = Some m -> err <> fsBTEmptyErr ->
  exists s2, insert_exit s1 r it err = (err, set_hint it no_hint, s2) /\ same_fs contents s s2.
Proof using FSAgentLaws0.
  intros Hs Hb Hh He. destruct (ReleaseNode_unchanged size contents s1 m r Hb Hh) as (r' & s2 & Hrel & _ & Hs2).
  unfold insert_exit. rewrite Hrel, (proj2 (Z.eqb_neq _ _) He). exists s2. split; [done|by transitivity s1].
Qed.

(** The insertion, once the search has found the gap. *)
Lemma insert_record_gap s1 depth leaves it data recSize raw new pre recs post f :
  tree_file size contents P rank s1 depth leaves -> insertable P rank (btree s1) (it_key it) data recSize raw new ->
  leaves = pre ++ (f_nodeNum f, recs) :: post -> 0 <= f_index f <= Z.of_nat (length recs) ->
  (forall r, r ∈ leaf_records pre ++ take (Z.to_nat (f_index f)) recs -> lex_cmp (rank (it_key it)) (rank r) = 1) ->
  (forall r, r ∈ drop (Z.to_nat (f_index f)) recs ++ leaf_records post -> lex_cmp (rank (it_key it)) (rank r) = -1) ->
  nodeBuffer (f_node f) = Some (contents (agent s1) (f_nodeNum f)) -> blockHeader (f_node f) = Some (f_nodeNum f) ->
  path_ok size contents rank s1 (f_path f) (it_key it) depth (rootNode (btree s1)) (f_nodeNum f) (f_index f) ->
  used_bytes recs + Z.of_nat (length new) + 2 <= size ->
  (f_index f <> 0 \/ depth = 1%nat /\ Z.of_nat depth + 1 <= freeNodes (btree s1) < 2 ^ 31) ->
  leafRecords (btree s1) + 1 < 2 ^ 32 ->
  exists it' s', insert_at_position s1 f it data recSize = Ok (noErr, it', s') /\
    inserted depth leaves (it_key it) new s'.
Proof using FSAgentLaws0 KeyCompare0.
  intros HF Hins -> Hix Hlo Hhi Hb Hhd Hpath Hfit Hroot Hmax.
  assert ((pre ++ (f_nodeNum f, recs) :: post) !! length pre = Some (f_nodeNum f, recs)) as Hlk by apply list_lookup_split.
  pose proof (file_leaf_fits s1 depth _ _ _ _ new HF Hlk Hfit) as Hleaf. pose proof HF as [Htree Hd Hrange Hnd Hg Hsize _ _ _].
  destruct (file_node size contents P rank s1 depth _ _ _ recs HF Hlk) as (Hn & _ & _ & _).
  set (i := Z.to_nat (f_index f)) in *. assert (f_index f = Z.of_nat i) as Ei by (unfold i; lia). clearbody i.
  rewrite Ei in Hix, Hpath, Hroot.
  pose proof Hins as (_ & _ & _ & _ & _ & _ & _ & _ & _ & Hok).
  assert (forall x, x ∈ take i recs -> lex_cmp (rank (it_key it)) (rank x) = 1) as Hlo'
    by (intros x Hx; apply Hlo; rewrite elem_of_app; auto).
  assert (forall x, x ∈ drop i recs -> lex_cmp (rank (it_key it)) (rank x) = -1) as Hhi'
    by (intros x Hx; apply Hhi; rewrite elem_of_app; auto).
  unfold insert_at_position. rewrite Ei.
  destruct (decide (i = 0%nat)) as [Hi0|Hi0].
  - destruct Hroot as [?|[-> Hfree]]; [lia|]. unfold insert_simple. rewrite (proj2 (Z.ltb_ge 0 (Z.of_nat i))) by lia.
    cbn [mbind outcome_bind negb noErr Z.eqb]. rewrite (make_room_none s1 1) by (done || lia).
    cbn [mbind outcome_bind negb noErr Z.eqb].
    destruct (insert_at_gap size contents P rank cmp s1 1 (rootNode (btree s1)) (pre ++ (f_nodeNum f, recs) :: post) (f_path f)
      (it_key it) data recSize raw new pre (f_nodeNum f) recs post i (f_node f) (f_nodeNum f))
      as (r' & s2 & -> & Htree2 & node' & Hupd & Hl & Hby); try done; [lia|by right|].
    cbn [mbind outcome_bind negb noErr Z.eqb]. do 2 eexists. split; [done|].
    apply (inserted_file s1 s2 1 pre (f_nodeNum f) recs post i (it_key it) new node'); try done. lia.
  - destruct (insert_simple_spec s1 (f_node f) it data recSize raw new (f_nodeNum f) recs i)
      as (r' & s2 & node' & -> & Hupd & Hh2 & Hl & Hby); try done; [apply Hn|apply Hn|lia|].
    cbn [mbind outcome_bind negb noErr Z.eqb]. do 2 eexists. split; [done|].
    apply (inserted_file s1 s2 depth pre (f_nodeNum f) recs post i (it_key it) new node'); try done; [lia|].
    apply (inserted_tree size contents P rank cmp s1 s2 depth _ (f_path f) (it_key it) data recSize raw new pre _ recs post i node');
      try done; [lia|by left].
Qed.

Context (stack : TreePathTable) (Hstack : length stack = kMaxDepthEntries).

(** A search before a change: the leaf, the path to it, and where in it. *)
Lemma search_for_change s depth leaves key : tree_file size contents P rank s depth leaves -> P key ->
  exists err f s1, SearchTree cmp s key stack no_node = Ok (err, f, s1) /\ same_fs contents s s1 /\
    tree_file size contents P rank s1 depth leaves /\
    nodeBuffer (f_node f) = Some (contents (agent s1) (f_nodeNum f)) /\ blockHeader (f_node f) = Some (f_nodeNum f) /\
    path_ok size contents rank s1 (f_path f) key depth (rootNode (btree s1)) (f_nodeNum f) (f_index f) /\
    (err = noErr /\ at_key rank leaves key (f_nodeNum f) (f_index f) \/
     err = fsBTRecordNotFoundErr /\ at_gap rank leaves key (f_nodeNum f) (f_index f)).
Proof using FSAgentLaws0 KeyCompare0 Hstack.
  intros HF HP. destruct (tree_file_search size contents P rank cmp s depth leaves key stack no_node HF HP Hstack)
    as (err & f & s1 & Hrun & Hs1 & Hloc & Hb & Hhd & _ & _ & Hpath).
  exists err, f, s1. pose proof Hs1 as ((? & ? & ? & ? & ? & ? & ? & ? & E) & _ & _ & HC).
  assert (rootNode (btree s1) = rootNode (btree s)) as E1 by (by rewrite E).
  split_and!; try done.
  - by apply (tree_file_same size contents P rank s).
  - by rewrite HC.
  - rewrite E1. apply (path_ok_same _ _ _ s1 s); [by symmetry|done].
Qed.

Lemma on_opened {A} (s : fs W) sync (none : A) (op : fs W -> outcome (A * fs W)) : on_btree (opened s sync) none op = ('(a, s') ← op s; Ok (a, opened s' sync)).
Proof using Type. unfold on_btree. cbn [opened fcbBTCBPtr fcb_vcbFlags fcb_agent]. by destruct s. Qed.

(** C5: [BTInsertRecord] of a key that is not in the tree, with parameters that pass the
    checks, when the leaf that the search for the key ends in has room for the record, and the record does not become the first of that
    leaf, or the tree is that one leaf and has two free nodes; the count of records fits into
    32 bits.  The file then holds the same tree with the record in its place among the keys,
    the count of records grows by one, and the invariant of the file is kept.  (Splits and a
    new first key of a leaf are not covered.) *)
Theorem BTInsertRecord_correct s sync depth leaves it data recordLen raw new :
  tree_file size contents P rank s depth leaves -> P (it_key it) ->
  check_params (opened s sync) it data recordLen = Ok noErr ->
  insertable P rank (btree s) (it_key it) data recordLen raw new ->
  (forall r, r ∈ leaf_records leaves -> lex_cmp (rank (it_key it)) (rank r) <> 0) ->
  (forall err f s1 recs, SearchTree cmp s (it_key it) stack no_node = Ok (err, f, s1) -> (f_nodeNum f, recs) ∈ leaves ->
     used_bytes recs + Z.of_nat (length new) + 2 <= size /\
     (f_index f <> 0 \/ depth = 1%nat /\ 2 <= freeNodes (btree s) < 2 ^ 31)) ->
  leafRecords (btree s) + 1 < 2 ^ 32 ->
  exists it' s', BTInsertRecord cmp stack (opened s sync) it data recordLen = Ok (noErr, it', opened s' sync) /\
    inserted depth leaves (it_key it) new s'.
Proof using FSAgentLaws0 KeyCompare0 Hstack.
  intros HF HP Hpar Hins Hmiss Hfit Hmax.
  destruct (search_for_change s depth leaves (it_key it) HF HP) as (err & f & s1 & Hrun & Hs1 & HF1 & Hb & Hhd & Hpath & Hloc).
  pose proof Hs1 as ((? & ? & ? & ? & ? & ? & ? & ? & E) & _).
  destruct Hloc as [[-> Hat]|[-> (pre & recs & post & Hlv & Hix & Hlo & Hhi)]].
  { destruct (at_key_record rank leaves _ _ _ Hat) as (_ & _ & r & _ & _ & _ & Hin & E0). by destruct (Hmiss r Hin). }
  destruct (Hfit _ _ _ recs Hrun ltac:(rewrite Hlv; set_solver)) as [Hroom Hroot].
  destruct (insert_record_gap s1 depth leaves it data recordLen raw new pre recs post f) as (it' & s' & Hgo & Hinsd); try done.
  - rewrite E. exact Hins.
  - rewrite E. destruct Hroot as [?|[-> ?]]; [by left|by right].
  - rewrite E. exact Hmax.
  - exists it', s'. split; [|exact Hinsd]. unfold BTInsertRecord. rewrite Hpar. cbn [mbind outcome_bind negb noErr Z.eqb].
    rewrite on_opened. unfold insert_record. rewrite Hrun.
    cbn [mbind outcome_bind Z.eqb fsBTRecordNotFoundErr fsBTEmptyErr ERR_BASE Z.add Z.pos_sub noErr negb]. simpl.
    rewrite Hgo. done.
Qed.

(** C9: a record is neither inserted under a key that is in the tree already, nor deleted
    under one that is not: [BTInsertRecord] and [BTDeleteRecord] report the error, and the
    file is not changed. *)
Theorem BTree_key_errors s sync depth leaves it data recordLen :
  tree_file size contents P rank s depth leaves -> P (it_key it) ->
  check_params (opened s sync) it data recordLen = Ok noErr ->
  exists s', same_fs contents s s' /\
    if decide (Exists (fun r => lex_cmp (rank (it_key it)) (rank r) = 0) (leaf_records leaves))
    then BTInsertRecord cmp stack (opened s sync) it data recordLen =
           Ok (fsBTDuplicateRecordErr, set_hint it no_hint, opened s' sync)
    else BTDeleteRecord cmp stack (opened s sync) it = Ok (fsBTRecordNotFoundErr, it, opened s' sync).
Proof using FSAgentLaws0 KeyCompare0 Hstack.
  intros HF HP Hpar.
  destruct (search_for_change s depth leaves (it_key it) HF HP) as (err & f & s1 & Hrun & Hs1 & HF1 & Hb & Hhd & Hpath & Hloc).
  case_decide as Hex.
  - assert (err = noErr) as ->.
    { destruct Hloc as [[-> _]|[_ Hgap]]; [done|]. exfalso. apply Exists_exists in Hex as (r & Hin & Hr).
      by apply (at_gap_missing rank leaves _ _ _ Hgap r Hin). }
    destruct (insert_exit_spec s s1 (f_node f) it fsBTDuplicateRecordErr (f_nodeNum f)) as (s2 & Hex2 & Hs2); try done.
    exists s2. split; [done|]. unfold BTInsertRecord. rewrite Hpar. cbn [mbind outcome_bind negb noErr Z.eqb].
    rewrite on_opened. unfold insert_record. rewrite Hrun. cbn [mbind outcome_bind noErr Z.eqb]. rewrite Hex2. done.
  - assert (err = fsBTRecordNotFoundErr) as ->.
    { destruct Hloc as [[_ Hat]|[-> _]]; [|done]. exfalso. apply Hex. apply Exists_exists.
      destruct (at_key_record rank leaves _ _ _ Hat) as (_ & _ & r & _ & _ & _ & Hin & E0). by exists r. }
    destruct (ReleaseNode_unchanged size contents s1 (f_nodeNum f) (f_node f) Hb Hhd) as (r' & s2 & Hrel & _ & Hs2).
    exists s2. split; [by transitivity s1|]. unfold BTDeleteRecord. rewrite on_opened. unfold delete_record. rewrite Hrun.
    cbn [mbind outcome_bind]. change (negb (fsBTRecordNotFoundErr =? noErr)) with true. cbv iota. rewrite Hrel. done.
Qed.

(** C6: [BTDeleteRecord] of a key in a leaf that keeps at least one other record, when the
    record is not the first of the leaf or the tree is one leaf: the file holds the same tree
    without that record, the count of records falls by one, and the invariant of the file is
    kept. *)
Theorem BTDeleteRecord_correct s sync depth leaves it :
  tree_file size contents P rank s depth leaves -> P (it_key it) ->
  (exists r, r ∈ leaf_records leaves /\ lex_cmp (rank (it_key it)) (rank r) = 0) ->
  (forall m recs i r, (m, recs) ∈ leaves -> recs !! i = Some r -> lex_cmp (rank (it_key it)) (rank r) = 0 ->
     leaf_stays depth i (length recs)) ->
  leafRecords (btree s) < 2 ^ 32 ->
  exists s' leaves' before r after,
    BTDeleteRecord cmp stack (opened s sync) it = Ok (noErr, BTInvalidateHint it, opened s' sync) /\
    tree_file size contents P rank s' depth leaves' /\ leaf_records leaves = before ++ r :: after /\
    leaf_records leaves' = before ++ after /\ lex_cmp (rank (it_key it)) (rank r) = 0.
Proof using FSAgentLaws0 KeyCompare0 Hstack.
  intros HF HP [r0 [Hr0 E0]] Hstay Hmax.
  destruct (search_for_change s depth leaves (it_key it) HF HP) as (err & f & s1 & Hrun & Hs1 & HF1 & Hb & Hhd & Hpath & Hloc).
  destruct Hloc as [[-> Hat]|[_ Hgap]]; [|by destruct (at_gap_missing rank leaves _ _ _ Hgap r0 Hr0)].
  destruct (at_key_record rank leaves _ _ _ Hat) as (k & recs & x & Hk & Hx & H0 & Hin & Heq).
  specialize (Hstay _ recs _ x ltac:(by eapply list_elem_of_lookup_2) Hx Heq).
  destruct (list_elem_of_split leaves _ ltac:(by eapply list_elem_of_lookup_2)) as (pre & post & Hlv). subst leaves.
  assert ((pre ++ (f_nodeNum f, recs) :: post) !! length pre = Some (f_nodeNum f, recs)) as Hlk by apply list_lookup_split.
  pose proof (tf_leaf _ _ _ _ _ _ _ HF1 _ _ _ Hlk) as [Hcb Hok _ _ _]. pose proof HF1 as [Htree Hd Hrange Hnd Hg Hsize _ _ _].
  pose proof (delete_record_length _ _ _ Hx) as HL. pose proof Hs1 as ((? & ? & ? & ? & ? & ? & ? & ? & E) & _).
  destruct (delete_at_key size contents P rank cmp s1 depth (rootNode (btree s1)) (pre ++ (f_nodeNum f, recs) :: post) (f_path f)
    pre (f_nodeNum f) recs post (Z.to_nat (f_index f)) x (f_node f) (it_key it))
    as (r' & s2 & Hdel & Htree2 & node' & Hupd & Hl & Hby); try done; [by rewrite Z2Nat.id by lia|].
  rewrite Z2Nat.id in Hdel by lia.
  exists (with_tree s2 (count_leaf (btree s2) (-1))), (pre ++ (f_nodeNum f, delete (Z.to_nat (f_index f)) recs) :: post),
    (leaf_records pre ++ take (Z.to_nat (f_index f)) recs), x, (drop (S (Z.to_nat (f_index f))) recs ++ leaf_records post).
  split_and!; try done.
  - unfold BTDeleteRecord. rewrite on_opened. unfold delete_record. rewrite Hrun. cbn [mbind outcome_bind noErr Z.eqb negb].
    rewrite Hdel. done.
  - apply (tree_file_update s1 s2 depth pre _ recs (delete (Z.to_nat (f_index f)) recs) post node'); try done.
    + apply (updated_holds s1 s2 _ _ (f_nodeNum f) _ node' _ Htree2); [|done]. apply (list_elem_of_lookup_2 _ (length pre)), list_lookup_split.
    + rewrite Forall_forall in Hok |- *. intros y Hy. apply Hok. rewrite delete_take_drop, elem_of_app in Hy.
      rewrite <- (take_drop_middle recs _ x Hx), elem_of_app, elem_of_cons. tauto.
    + intros En. rewrite En in HL. unfold leaf_stays in Hstay. simpl in HL. lia.
    + lia.
    + assert (leafRecords (btree s1) = leafRecords (btree s)) as -> by (by rewrite E). lia.
  - rewrite leaf_records_app. unfold leaf_records. simpl. rewrite <- (take_drop_middle recs _ x Hx) at 1. by rewrite <- !app_assoc.
  - rewrite leaf_records_app. unfold leaf_records. simpl. rewrite delete_take_drop. by rewrite <- !app_assoc.
Qed.
End changes.

(** ** A file with two leaves *)

#[export] Instance file_ForkAgent : ForkAgent file_agent := {
  setEndOfForkProc w minEOF _ := (noErr, mkFile (file_blocks w) minEOF);
  setBlockSizeProc w _ _ := (noErr, w);
  hfs_phys_block_size _ := 512;
  hfs_media_writeable _ := true
}.

Lemma two_tree_file : tree_file file_size file_contents catalog_key_plus catalog_rank_plus two_fs 2 two_leaves.
Proof.
  split.
  - apply two_tree.
  - reflexivity.
  - lia.
  - apply (bool_decide_unpack _). vm_compute. exact I.
  - split_and!; [compare|reflexivity|reflexivity|reflexivity].
  - compare.
  - intros i m recs Hi. destruct i as [|[|i]]; [| |by destruct i]; injection Hi as <- <-;
      (split; [apply (bool_decide_unpack _); vm_compute; exact I| |done|vm_compute; reflexivity|vm_compute; reflexivity]);
      unfold leaf_recs; rewrite !Forall_cons; (split_and!; [| |done]); (split_and!; [reflexivity|simpl; lia|compare]).
  - reflexivity.
  - reflexivity.
Qed.

(** The key of an iterator, in its buffer of 522 bytes. *)
Definition iterator_for (c h : Z) : BTreeIterator :=
  mkIterator (mkHint 0 h 0 0 0) 0 0 0 0 (sample_key c ++ replicate 512 0).

Lemma iterator_key c h : bool_decide (byte c) = true -> catalog_key_plus (it_key (iterator_for c h)).
Proof.
  intros Hc. apply sample_key_ok. apply Forall_app. split; [|apply Forall_replicate; unfold byte; lia].
  apply bool_decide_eq_true in Hc. unfold sample_key, byte in *. repeat constructor; lia.
Qed.

Definition two_io : SearchIO :=
  mkSearchIO (iterator_for 105 3) (Some (mkBuffer [0; 0; 0; 0] 4 1)) (Some 0) (Some (iterator_for 105 3)).

Lemma two_records r : r ∈ leaf_records two_leaves -> key_size_at two_bt r 0 = 10.
Proof.
  unfold leaf_records, two_leaves, leaf_recs. simpl. rewrite !elem_of_cons.
  intros [->|[->|[->|[->|Hr]]]]; [reflexivity..|by apply not_elem_of_nil in Hr].
Qed.


(** It is the fourth record, with these data. *)
Example BTSearchRecord_evaluated :
  match BTSearchRecord CompareExtendedCatalogKeys empty_path (opened two_fs 0) two_io with
  | Ok (err, io', _) => err = noErr /\ bufferAddress <$> io_record io' = Some [5; 6; 7; 8] /\ io_recordLen io' = Some 4
  | _ => False
  end.
Proof. vm_compute. repeat split; reflexivity. Qed.

(** A callback that collects the data of the records. *)
Definition collect (key data : buffer) (n : Z) (c : list buffer) : Z * list buffer := (1, c ++ [data]).

Lemma BTIterateRecords_witness :
  exists it' s', BTIterateRecords CompareExtendedCatalogKeys empty_path collect 5 (opened two_fs 0) kBTreeFirstRecord
      (Some (iterator_for 97 0)) [] =
      Ok (fsBTRecordNotFoundErr, it', [[1; 2; 3; 4]; [5; 6; 7; 8]; [1; 2; 3; 4]; [5; 6; 7; 8]], opened s' 0) /\
    same_fs file_contents two_fs s'.
Proof.
  apply (BTIterateRecords_correct file_size file_contents catalog_key_plus catalog_rank_plus CompareExtendedCatalogKeys
           two_fs 2 two_leaves two_tree_file collect (fun _ _ _ _ _ _ => eq_refl) empty_path 0 (Some (iterator_for 97 0)) [] 5).
  - intros it [= <-]. split; [simpl; lia|]. intros r Hr. change (btree two_fs) with two_bt. rewrite (two_records r Hr). compare.
  - simpl. lia.
Defined.

Lemma two_insertable : insertable catalog_key_plus catalog_rank_plus two_bt (it_key (iterator_for 104 0)) [9; 9; 9; 9] 4 8 new_record.
Proof.
  split_and!; [reflexivity|lia|lia|compare|compare|compare|reflexivity| | | | |].
  - apply (bool_decide_unpack _). vm_compute. exact I.
  - apply (bool_decide_unpack _). vm_compute. exact I.
  - apply sample_key_ok. apply (bool_decide_unpack _). vm_compute. exact I.
  - vm_compute. reflexivity.
  - split_and!; [reflexivity|simpl; lia|compare].
Qed.

Lemma found_inj (e1 e2 : Z) (f1 f2 : Found) (s1 s2 : fs file_agent) : Ok (e1, f1, s1) = Ok (e2, f2, s2) -> f1 = f2.
Proof. by intros [=]. Qed.

Lemma BTInsertRecord_witness :
  exists it' s', BTInsertRecord CompareExtendedCatalogKeys empty_path (opened two_fs 0) (iterator_for 104 0) [9; 9; 9; 9] 4 =
      Ok (noErr, it', opened s' 0) /\
    inserted file_size file_contents catalog_key_plus catalog_rank_plus 2 two_leaves (it_key (iterator_for 104 0)) new_record s'.
Proof.
  apply (BTInsertRecord_correct file_size file_contents catalog_key_plus catalog_rank_plus CompareExtendedCatalogKeys
           empty_path eq_refl two_fs 0 2 two_leaves (iterator_for 104 0) [9; 9; 9; 9] 4 8 new_record).
  - apply two_tree_file.
  - by apply iterator_key.
  - vm_compute. reflexivity.
  - apply two_insertable.
  - unfold leaf_records, two_leaves, leaf_recs. simpl. intros r. rewrite !elem_of_cons.
    intros [->|[->|[->|[->|Hr]]]]; [vm_compute; discriminate..|by apply not_elem_of_nil in Hr].
  - intros err f s1 recs Hrun Hin. split.
    { revert Hin. unfold two_leaves. rewrite !elem_of_cons.
      intros [[= _ ->]|[[= _ ->]|Hr]]; [compare|compare|by apply not_elem_of_nil in Hr]. }
    left.
    assert (SearchTree CompareExtendedCatalogKeys two_fs (it_key (iterator_for 104 0)) empty_path no_node =
      Ok (fsBTRecordNotFoundErr, two_found.1, two_found.2)) as E by (vm_compute; reflexivity).
    rewrite E in Hrun. rewrite <- (found_inj _ _ _ _ _ _ Hrun). vm_compute. discriminate.
  - reflexivity.
Defined.

Lemma BTree_key_errors_witness :
  exists s', same_fs file_contents two_fs s' /\
    BTInsertRecord CompareExtendedCatalogKeys empty_path (opened two_fs 0) (iterator_for 105 0) [9; 9; 9; 9] 4 =
      Ok (fsBTDuplicateRecordErr, set_hint (iterator_for 105 0) no_hint, opened s' 0).
Proof.
  destruct (BTree_key_errors file_size file_contents catalog_key_plus catalog_rank_plus CompareExtendedCatalogKeys
              empty_path eq_refl two_fs 0 2 two_leaves (iterator_for 105 0) [9; 9; 9; 9] 4) as (s' & Hs & Hrun).
  - apply two_tree_file.
  - by apply iterator_key.
  - vm_compute. reflexivity.
  - exists s'. split; [exact Hs|]. rewrite decide_True in Hrun; [exact Hrun|].
    apply Exists_exists. exists (sample_key 105 ++ [5; 6; 7; 8]). split; [|vm_compute; reflexivity].
    do 3 apply list_elem_of_further. apply list_elem_of_here.
Defined.

Lemma BTDeleteRecord_witness :
  exists s' leaves' before r after,
    BTDeleteRecord CompareExtendedCatalogKeys empty_path (opened two_fs 0) (iterator_for 105 0) =
      Ok (noErr, BTInvalidateHint (iterator_for 105 0), opened s' 0) /\
    tree_file file_size file_contents catalog_key_plus catalog_rank_plus s' 2 leaves' /\
    leaf_records two_leaves = before ++ r :: after /\ leaf_records leaves' = before ++ after /\
    lex_cmp (catalog_rank_plus (it_key (iterator_for 105 0))) (catalog_rank_plus r) = 0.
Proof.
  apply (BTDeleteRecord_correct file_size file_contents catalog_key_plus catalog_rank_plus CompareExtendedCatalogKeys
           empty_path eq_refl two_fs 0 2 two_leaves (iterator_for 105 0)).
  - apply two_tree_file.
  - by apply iterator_key.
  - exists (sample_key 105 ++ [5; 6; 7; 8]). split; [|vm_compute; reflexivity].
    do 3 apply list_elem_of_further. apply list_elem_of_here.
  - intros m recs i r Hin Hi Hr. unfold two_leaves, leaf_recs in Hin. rewrite !elem_of_cons in Hin.
    destruct Hin as [[= -> ->]|[[= -> ->]|Hin]]; [| |by apply not_elem_of_nil in Hin].
    + destruct i as [|[|i]]; [..|done]; injection Hi as <-; vm_compute in Hr; discriminate.
    + destruct i as [|[|i]]; [injection Hi as <-; vm_compute in Hr; discriminate| |done].
      split; [simpl; lia|]. left. lia.
  - reflexivity.
Defined.

(** A time of the last sync is never set, unless it is zero: the test of the argument is the
    wrong way round. *)
Lemma BTSetLastSync_ignored {W : Type} (f : FCB W) b t :
  fcbBTCBPtr f = Some b -> t <> 0 -> BTSetLastSync f t = Ok (paramErr, f).
Proof. intros Hb Ht. unfold BTSetLastSync. rewrite Hb. simpl. by rewrite (proj2 (Z.eqb_neq _ _) Ht). Qed.
