(* ===== verification/BTreeIterate.v ===== *)
(** * Moving over the records of a B-tree one by one

    [BTIterateRecord] (hfsplus/hfscommon/BTree/BTree.c) with the position of an iterator:
    the records before and behind its key, whether the key is in the tree or not and
    whatever node the hint names. *)
From S2P Require Import Prelude Bits Bytes UnicodeCompare BTreeNode BTreeKeys BTreeNodeTheorems BTreeBlocks BTreeMap.
From S2P Require Import BTreeMapTheorems BTreeMisc BTreeTree BTreeSearch BTreeRotate BTreeInsert BTreeFile BTreeFileTheorems.

(** ** The order of all records *)

Lemma sorted_concat {A} (R : A -> A -> Prop) (ll : list (list A)) :
  (forall i l, ll !! i = Some l -> StronglySorted R l) ->
  (forall i j a b x y, (i < j)%nat -> ll !! i = Some a -> ll !! j = Some b -> x ∈ a -> y ∈ b -> R x y) ->
  StronglySorted R (concat ll).
Proof.
  induction ll as [|l ll IH]; intros Hs Hlt; simpl; [constructor|]. apply StronglySorted_app_2.
  - intros x y Hx [b [Hb%list_elem_of_In Hy%list_elem_of_In]]%list_elem_of_In%in_concat.
    apply list_elem_of_lookup in Hb as [j Hj]. apply (Hlt 0%nat (S j) l b); by (lia || done).
  - by apply (Hs 0%nat).
  - apply IH; [intros i l' Hi; by apply (Hs (S i))|]. intros i j a b x y Hij Ha Hb. apply (Hlt (S i) (S j) a b); by (lia || done).
Qed.

Lemma keys_sorted_strongly rank recs : keys_sorted rank recs <->
  StronglySorted (fun a b => lex_cmp (rank a) (rank b) = -1) recs.
Proof.
  split.
  - induction recs as [|r recs IH]; intros Hs; constructor.
    + apply IH. intros i j a b Hij Ha Hb. apply (Hs (S i) (S j) a b); by (lia || done).
    + apply Forall_lookup. intros j b Hb. by apply (Hs 0%nat (S j) r b); [lia| |].
  - intros Hs. induction Hs as [|r recs Hs IH Hr]; intros i j a b Hij Ha Hb; [done|].
    destruct i as [|i], j as [|j]; try lia; simplify_eq/=.
    + by apply (Forall_lookup_1 _ _ _ _ Hr Hb).
    + apply (IH i j); by (lia || done).
Qed.

Lemma lex_cmp_le_lt l1 l2 l3 : lex_cmp l1 l2 <= 0 -> lex_cmp l2 l3 = -1 -> lex_cmp l1 l3 = -1.
Proof.
  intros H1 H2. destruct (lex_cmp_range l1 l2) as [E|[E|E]]; [by apply (lex_cmp_lt_trans l1 l2)| |lia].
  by apply lex_cmp_eq in E as ->.
Qed.

Section order.
Context {W : Type} `{!FSAgent W} (size : Z) (contents : W -> Z -> buffer) `{!FSAgentLaws W size contents}.
Context (P : buffer -> Prop) (rank : buffer -> list Z).

(** The records of a tree are in the order of their keys. *)
Lemma tree_sorted s l n leaves : tree_at size contents P rank s l n leaves ->
  StronglySorted (fun a b => lex_cmp (rank a) (rank b) = -1) (leaf_records leaves).
Proof using Type.
  induction 1 as [n recs H|l n recs parts Hl H Hne Hlen Hix Hsub IH Hlo Hhi].
  - unfold leaf_records. simpl. rewrite app_nil_r. by apply keys_sorted_strongly, H.
  - assert (leaf_records (concat parts) = concat (map leaf_records parts)) as ->.
    { unfold leaf_records. clear. induction parts as [|p parts IH]; simpl; [done|]. by rewrite map_app, concat_app, IH. }
    assert (forall i p, parts !! i = Some p -> exists r, recs !! i = Some r) as Hr.
    { intros i p Hi%lookup_lt_Some. apply lookup_lt_is_Some_2. lia. }
    apply sorted_concat.
    + intros i x Hi. rewrite list_lookup_fmap in Hi. destruct (parts !! i) as [p|] eqn:Hp; simplify_eq/=.
      destruct (Hr i p Hp) as [r Hi]. by apply (IH i r).
    + intros i j a b x y Hij Ha Hb Hx Hy. rewrite list_lookup_fmap in Ha, Hb.
      destruct (parts !! i) as [p|] eqn:Hp; simplify_eq/=. destruct (parts !! j) as [q|] eqn:Hq; simplify_eq/=.
      destruct (Hr j q Hq) as [r Hj]. destruct (lookup_lt_is_Some_2 recs (S i)) as [r' Hi'].
      { apply lookup_lt_Some in Hj. lia. }
      pose proof (Hhi i r' p x Hi' Hp Hx) as H1. pose proof (Hlo j r q y Hj Hq Hy) as H2.
      assert (lex_cmp (rank r') (rank r) <= 0) as H3.
      { destruct (decide (S i = j)) as [<-|Hne']; [simplify_eq; rewrite lex_cmp_refl; lia|].
        rewrite (no_sorted _ _ _ _ _ _ _ _ _ H (S i) j r' r); by (lia || done). }
      pose proof (lex_cmp_trans _ _ _ H3 H2). destruct (lex_cmp_range (rank r') (rank y)) as [E|[E|E]]; [|apply lex_cmp_eq in E|lia].
      * by apply (lex_cmp_lt_trans _ (rank r')).
      * by rewrite <- E.
Qed.

(** One comparison tells the side of all records before or behind. *)
Lemma sorted_lower key a x b : StronglySorted (fun a b => lex_cmp (rank a) (rank b) = -1) (a ++ x :: b) ->
  lex_cmp (rank key) (rank x) <> -1 -> forall y, y ∈ a -> lex_cmp (rank key) (rank y) = 1.
Proof using Type.
  intros Hs Hx y Hy. pose proof (StronglySorted_app_1_elem_of _ a (x :: b) y x Hs Hy ltac:(by left)) as Hyx. simpl in Hyx.
  rewrite lex_cmp_sym. enough (lex_cmp (rank y) (rank key) = -1) by lia. rewrite lex_cmp_sym in Hx.
  destruct (lex_cmp_range (rank x) (rank key)) as [E|[E|E]]; [by apply (lex_cmp_lt_trans _ (rank x))|by apply lex_cmp_eq in E as <-|lia].
Qed.

Lemma sorted_upper key a x b : StronglySorted (fun a b => lex_cmp (rank a) (rank b) = -1) (a ++ x :: b) ->
  lex_cmp (rank key) (rank x) <> 1 -> forall y, y ∈ b -> lex_cmp (rank key) (rank y) = -1.
Proof using Type.
  intros Hs Hx y Hy. apply StronglySorted_app_1_r in Hs. apply StronglySorted_inv in Hs as [_ Hs].
  rewrite Forall_forall in Hs. apply (lex_cmp_le_lt _ (rank x)); [|by apply Hs].
  destruct (lex_cmp_range (rank key) (rank x)); lia.
Qed.
End order.

(** ** Where an iterator is *)

Section iterate.
Context {W : Type} `{!FSAgent W} (size : Z) (contents : W -> Z -> buffer) `{!FSAgentLaws W size contents}.
Context (P : buffer -> Prop) (rank : buffer -> list Z) (cmp : buffer -> buffer -> outcome Z)
  `{!KeyCompare P rank cmp}.
Context (s : fs W) (depth : nat) (leaves : list leaf) (HF : tree_file size contents P rank s depth leaves).
Context (key : buffer) (HP : P key).

Definition before (r : buffer) : Prop := lex_cmp (rank key) (rank r) = 1.
Definition behind (r : buffer) : Prop := lex_cmp (rank key) (rank r) = -1.

#[export] Instance before_dec r : Decision (before r) := decide (lex_cmp (rank key) (rank r) = 1).
#[export] Instance behind_dec r : Decision (behind r) := decide (lex_cmp (rank key) (rank r) = -1).

Lemma leaf_split i m recs : leaves !! i = Some (m, recs) ->
  leaf_records leaves = leaf_records (take i leaves) ++ recs ++ leaf_records (drop (S i) leaves).
Proof using Type. intros Hi. rewrite <- (take_drop_middle leaves i _ Hi) at 1. by rewrite leaf_records_app. Qed.

Lemma file_sorted : StronglySorted (fun a b => lex_cmp (rank a) (rank b) = -1) (leaf_records leaves).
Proof using HF. apply (tree_sorted size contents P rank s depth (rootNode (btree s))), HF. Qed.

Lemma leaf_nonempty i m recs : leaves !! i = Some (m, recs) -> exists r recs', recs = r :: recs'.
Proof using HF.
  intros Hi. pose proof (fl_nonempty _ _ _ _ _ _ (tf_leaf _ _ _ _ _ _ _ HF _ _ _ Hi)). destruct recs; [done|eauto].
Qed.

(** All records up to place [j] of leaf [i] are before the key if those of the leaf are, and
    one of them is there to compare with: in the leaf, or in the one before. *)
Lemma lower_all i m recs j : leaves !! i = Some (m, recs) -> (forall r, r ∈ take j recs -> before r) ->
  (j <> 0%nat \/ i = 0%nat \/ exists k m' recs', i = S k /\ leaves !! k = Some (m', recs') /\ forall r, r ∈ recs' -> before r) ->
  forall r, r ∈ leaf_records (take i leaves) ++ take j recs -> before r.
Proof using HF.
  intros Hi Hj Hor r [Hr|Hr]%elem_of_app; [|by apply Hj]. pose proof file_sorted as Hs. destruct Hor as [H|[->|(k & m' & recs' & -> & Hk & H)]].
  - destruct (leaf_nonempty i m recs Hi) as (x & recs' & ->). destruct j as [|j]; [done|].
    rewrite (leaf_split i m _ Hi) in Hs. apply (sorted_lower rank key _ x _ Hs); [|done].
    rewrite (Hj x) by (simpl; by left). done.
  - by apply not_elem_of_nil in Hr.
  - rewrite (take_S_r _ _ _ Hk), leaf_records_app in Hr. unfold leaf_records in Hr at 2. simpl in Hr. rewrite app_nil_r in Hr.
    apply elem_of_app in Hr as [Hr|Hr]; [|by apply H]. destruct (leaf_nonempty k m' recs' Hk) as (x & recs2 & ->).
    rewrite (leaf_split k m' _ Hk) in Hs. apply (sorted_lower rank key _ x _ Hs); [|done].
    rewrite (H x) by by left. done.
Qed.

Lemma upper_all i m recs j : leaves !! i = Some (m, recs) -> (forall r, r ∈ drop j recs -> behind r) ->
  ((j < length recs)%nat \/ S i = length leaves \/ exists m' r' recs', leaves !! S i = Some (m', r' :: recs') /\ behind r') ->
  forall r, r ∈ drop j recs ++ leaf_records (drop (S i) leaves) -> behind r.
Proof using HF.
  intros Hi Hj Hor r [Hr|Hr]%elem_of_app; [by apply Hj|]. pose proof file_sorted as Hs.
  destruct Hor as [H|[H|(m' & r' & recs' & Hn & H)]].
  - destruct (lookup_lt_is_Some_2 recs j H) as [x Hx]. rewrite (leaf_split i m _ Hi), <- (take_drop_middle recs j x Hx) in Hs.
    rewrite <- app_assoc, app_assoc in Hs. apply (sorted_upper rank key _ x _ Hs); [|by apply elem_of_app; right].
    rewrite (Hj x); [done|]. rewrite (drop_S _ _ _ Hx). by left.
  - rewrite drop_ge in Hr by lia. by apply not_elem_of_nil in Hr.
  - rewrite (drop_S _ _ _ Hn) in Hr. unfold leaf_records in Hr. simpl in Hr. apply elem_of_cons in Hr as [->|Hr]; [done|].
    rewrite (leaf_split (S i) m' _ Hn) in Hs. simpl in Hs. apply (sorted_upper rank key _ r' _ Hs); [|done]. by rewrite H.
Qed.

(** Position [p] is at place [j] of leaf [i]: the record with the key is there, or the gap in
    which it would be. *)
Record placed (p : Position) (i : nat) (m : Z) (recs : list buffer) (j : nat) : Prop := {
  pc_leaf : pos_leaf contents s leaves p i m recs;
  pc_number : pos_nodeNum p = m;
  pc_index : pos_index p = Z.of_nat j;
  pc_range : (j <= length recs)%nat;
  pc_lower r : r ∈ leaf_records (take i leaves) ++ take j recs -> before r;
  pc_upper : if pos_found p
    then exists x, recs !! j = Some x /\ lex_cmp (rank key) (rank x) = 0 /\
           forall r, r ∈ drop (S j) recs ++ leaf_records (drop (S i) leaves) -> behind r
    else forall r, r ∈ drop j recs ++ leaf_records (drop (S i) leaves) -> behind r
}.

(** A record with the key, in leaf [i]. *)
Lemma found_sides i m recs j x : leaves !! i = Some (m, recs) -> recs !! j = Some x -> lex_cmp (rank key) (rank x) = 0 ->
  (forall r, r ∈ leaf_records (take i leaves) ++ take j recs -> before r) /\
  (forall r, r ∈ drop (S j) recs ++ leaf_records (drop (S i) leaves) -> behind r).
Proof using HF.
  intros Hi Hx E. pose proof file_sorted as Hs. rewrite (leaf_split i m _ Hi), <- (take_drop_middle recs j x Hx) in Hs.
  rewrite <- app_assoc, app_assoc in Hs. simpl in Hs. split.
  - apply (sorted_lower rank key _ x _ Hs). by rewrite E.
  - apply (sorted_upper rank key _ x _ Hs). by rewrite E.
Qed.

Lemma placed_found p i m recs j x : pos_leaf contents s leaves p i m recs -> pos_nodeNum p = m -> pos_index p = Z.of_nat j ->
  pos_found p = true -> recs !! j = Some x -> lex_cmp (rank key) (rank x) = 0 -> placed p i m recs j.
Proof using HF.
  intros Hp Hm Hj Hf Hx E. destruct (found_sides i m recs j x (pl_leaf _ _ _ _ _ _ _ Hp) Hx E) as [Hlo Hup].
  pose proof (lookup_lt_Some _ _ _ Hx). split; try done; [lia|]. rewrite Hf. by exists x.
Qed.

(** Leaf [i] is searched for the key. *)
Lemma position_in_leaf s1 i m recs : same_fs contents s s1 -> leaves !! i = Some (m, recs) ->
  kind (contents (agent s) m) = Ok kBTLeafNode /\ numRecords (contents (agent s) m) = Ok (Z.of_nat (length recs)) /\
  (1 <= length recs)%nat /\ exists b j, SearchNode (btree s1) cmp (contents (agent s) m) key = Ok (b, Z.of_nat j) /\ (j <= length recs)%nat /\
    if (b : bool) then exists x, recs !! j = Some x /\ lex_cmp (rank key) (rank x) = 0
    else (forall r, r ∈ take j recs -> before r) /\ (forall r, r ∈ drop j recs -> behind r).
Proof using FSAgentLaws0 KeyCompare0 HF HP.
  intros (Ht & _) Hi. destruct (file_node size contents P rank s depth leaves i m recs HF Hi) as ([] & _).
  pose proof (tf_geometry _ _ _ _ _ _ _ HF) as (_ & Hsz & _). destruct (same_tree_fields _ _ Ht) as (En & _).
  destruct (leaf_nonempty i m recs Hi) as (x0 & recs0 & E0). split; [done|].
  split; [by rewrite Hsz in no_holds; apply (numRecords_holds (btree s))|]. split; [rewrite E0; simpl; lia|].
  destruct (SearchNode_spec (btree s1) P rank cmp recs (contents (agent s) m) key) as ([b j] & Hrun & Hf);
    [by rewrite En, <- Hsz|done..|].
  destruct b; cbn [found] in Hf.
  - destruct Hf as (x & Hx & Hj & E). exists true, (Z.to_nat j). rewrite Z2Nat.id by done.
    pose proof (lookup_lt_Some _ _ _ Hx). split_and!; [done|lia|by exists x].
  - destruct Hf as (Hj & Hb & Ha). exists false, (Z.to_nat j). rewrite Z2Nat.id by lia. split_and!; [done|lia|..].
    + intros r [k Hk]%list_elem_of_lookup. apply lookup_take_Some in Hk as [Hk ?]. apply (Hb k r); [lia|done].
    + intros r [k Hk]%list_elem_of_lookup. rewrite lookup_drop in Hk. apply (Ha (Z.to_nat j + k)%nat r); [lia|done].
Qed.

(** A node that is not in use, or in use and unchanged. *)
Definition unchanged (r : NodeRec) : Prop :=
  nodeBuffer r = None \/ exists n, nodeBuffer r = Some (contents (agent s) n) /\ blockHeader r = Some n.

Lemma sibling_unchanged k r : sibling contents s leaves k r -> unchanged r.
Proof using Type. intros [?|(m & recs & _ & ? & ?)]; [by left|right; by exists m]. Qed.

Lemma release_unchanged s1 r : same_fs contents s s1 -> unchanged r ->
  exists r' s2, ReleaseNode s1 r = (noErr, r', s2) /\ nodeBuffer r' = None /\ same_fs contents s s2.
Proof using FSAgentLaws0.
  intros Hs [Hn|(m & Hb & Hh)].
  - unfold ReleaseNode, release_with. rewrite Hn. by exists (nil_node r), s1.
  - pose proof Hs as (_ & _ & _ & HC). destruct (ReleaseNode_unchanged size contents s1 m r) as (r' & s2 & -> & ? & Hs2);
      [by rewrite HC|done|]. exists r', s2. split_and!; [done|done|by transitivity s1].
Qed.

Context (stack : TreePathTable) (Hstack : length stack = kMaxDepthEntries).

Definition found_position (s1 : fs W) (res : outcome (Z * Position * fs W)) : Prop :=
  exists p s2 i m recs j, res = Ok (noErr, p, s2) /\ same_fs contents s s2 /\ placed p i m recs j.

(** The search from the root on, with all nodes released. *)
Lemma search_position_spec s1 l mid r : same_fs contents s s1 -> unchanged l -> unchanged mid -> unchanged r ->
  found_position s1 (search_position cmp stack s1 key l mid r).
Proof using FSAgentLaws0 KeyCompare0 HF HP Hstack.
  intros Hs Hl Hm Hr. unfold search_position.
  destruct (release_unchanged s1 l Hs Hl) as (l' & s2 & -> & Hl' & Hs2). cbn [negb noErr Z.eqb].
  destruct (release_unchanged s2 mid Hs2 Hm) as (mid' & s3 & -> & Hm' & Hs3). cbn [negb noErr Z.eqb].
  destruct (release_unchanged s3 r Hs3 Hr) as (r' & s4 & -> & Hr' & Hs4). cbn [negb noErr Z.eqb].
  destruct (tree_file_search size contents P rank cmp s4 depth leaves key stack mid'
    (tree_file_same size contents P rank s s4 depth leaves Hs4 HF) HP Hstack) as (err & f & s5 & -> & Hs5 & Hloc & Hb & Hhd & _).
  cbn [mbind outcome_bind]. pose proof Hs4 as (_ & _ & _ & HC). rewrite HC in Hb.
  assert (same_fs contents s s5) as Hs' by (by transitivity s4).
  assert (forall i recs b, leaves !! i = Some (f_nodeNum f, recs) ->
    pos_leaf contents s leaves (mkPosition l' (f_node f) r' (f_nodeNum f) (f_index f) b) i (f_nodeNum f) recs) as Hpl.
  { intros i recs b Hi. split; try done; cbn [pos_left pos_right]; [destruct i; [done|by left]|by left]. }
  destruct Hloc as [[-> Hat]|[-> Hgap]].
  - destruct (at_key_record rank leaves _ _ _ Hat) as (i & recs & x & Hi & Hx & H0 & _ & E).
    eexists _, s5, i, (f_nodeNum f), recs, (Z.to_nat (f_index f)). split; [reflexivity|]. split; [done|].
    apply (placed_found _ _ _ _ _ x); try done; [by apply Hpl|]. cbn [pos_index]. lia.
  - destruct Hgap as (pre & recs & post & Hlv & Hj & Hlo & Hup).
    assert (leaves !! length pre = Some (f_nodeNum f, recs)) as Hi by (rewrite Hlv; apply list_lookup_split).
    eexists _, s5, (length pre), (f_nodeNum f), recs, (Z.to_nat (f_index f)). split; [reflexivity|]. split; [done|].
    split; cbn [pos_nodeNum pos_index pos_found]; [by apply Hpl|done|lia|lia| |].
    + intros y Hy. apply Hlo. rewrite Hlv, take_app_length in Hy. done.
    + intros y Hy. apply Hup. rewrite Hlv in Hy.
      replace (drop (S (length pre)) (pre ++ (f_nodeNum f, recs) :: post)) with post in Hy; [done|].
      by rewrite cons_middle, app_assoc, drop_app_length' by (rewrite length_app; simpl; lia).
Qed.

(** In the leaves on both sides of leaf [i], when the key is not within its records. *)
Lemma position_left_spec s1 middle i m recs : same_fs contents s s1 -> leaves !! i = Some (m, recs) ->
  nodeBuffer middle = Some (contents (agent s) m) -> blockHeader middle = Some m -> (forall r, r ∈ recs -> behind r) ->
  found_position s1 (position_left cmp stack s1 key middle (contents (agent s) m) m).
Proof using FSAgentLaws0 KeyCompare0 HF HP Hstack.
  intros Hs Hi Hb Hh Hall. unfold position_left. pose proof (tf_leaf _ _ _ _ _ _ _ HF _ _ _ Hi) as [_ _ _ _ Hprev].
  rewrite Hprev. cbn [mbind outcome_bind]. destruct (leaf_nonempty i m recs Hi) as (x0 & recs0 & E0).
  assert (forall r, r ∈ drop 0 recs ++ leaf_records (drop (S i) leaves) -> behind r) as Hup0.
  { apply (upper_all i m recs 0 Hi); [done|]. left. rewrite E0. simpl. lia. }
  assert (unchanged middle) as Hum by (right; by exists m).
  destruct i as [|k]; cbn [leaf_before Z.eqb].
  - eexists _, s1, 0%nat, m, recs, 0%nat. split; [reflexivity|]. split; [done|]. split; try done; [|lia|].
    + split; try done. by left.
    + intros r Hr. by apply not_elem_of_nil in Hr.
  - assert (exists m' recs', leaves !! k = Some (m', recs')) as (m' & recs' & Hk).
    { destruct (lookup_lt_is_Some_2 leaves k) as [[m' recs'] Hk]; [apply lookup_lt_Some in Hi; lia|eauto]. }
    destruct (leaf_number_pos size contents P rank s depth leaves HF k m' recs' Hk) as [Hm0 ->].
    rewrite (proj2 (Z.eqb_neq m' 0)) by lia.
    destruct (get_leaf size contents P rank s depth leaves HF s1 k m' recs' no_node Hs Hk) as (l & s2 & -> & Hlb & Hlh & Hs2).
    cbn [mbind outcome_bind negb noErr Z.eqb]. rewrite Hlb. cbn [of_option mbind outcome_bind].
    destruct (position_in_leaf s2 k m' recs' Hs2 Hk) as (-> & -> & Hlen & b & j & -> & Hj & Hres). cbn [mbind outcome_bind].
    rewrite Z.eqb_refl, (proj2 (Z.leb_gt _ 0)) by lia. cbn [negb orb].
    assert (unchanged l) as Hul by (right; by exists m').
    assert (sibling contents s leaves k l) as Hsl by (right; by exists m', recs').
    assert (sibling contents s leaves (S k) middle) as Hsm by (right; by exists m, recs).
    assert (match k with O => nodeBuffer (drop_buffer l) = None | S k => sibling contents s leaves k (drop_buffer l) end) as Hnl
      by (destruct k; [done|by left]).
    destruct b.
    + destruct Hres as (x & Hx & E). eexists _, s2, k, m', recs', j. split; [reflexivity|]. split; [done|].
      by apply (placed_found _ _ _ _ _ x).
    + destruct Hres as [Hlo Hup]. destruct (Z.eqb_spec (Z.of_nat j) 0) as [Ej|Ej]; [apply search_position_spec; try done; by left|].
      destruct (Z.leb_spec (Z.of_nat (length recs')) (Z.of_nat j)) as [Hge|Hlt].
      * pose proof (tf_leaf _ _ _ _ _ _ _ HF _ _ _ Hk) as [_ _ _ -> _]. cbn [mbind outcome_bind].
        destruct (leaf_number_pos size contents P rank s depth leaves HF (S k) m recs Hi) as [_ ->].
        eexists _, s2, (S k), m, recs, 0%nat. split; [reflexivity|]. split; [done|]. split; try done; [|lia|].
        -- split; try done. by left.
        -- apply (lower_all (S k) m recs 0 Hi); [intros r Hr; by apply not_elem_of_nil in Hr|]. right. right.
           exists k, m', recs'. split_and!; try done. intros r Hr. apply Hlo. by rewrite take_ge by lia.
      * eexists _, s2, k, m', recs', j. split; [reflexivity|]. split; [done|]. split; try done; cbn [pos_found].
        -- apply (lower_all k m' recs' j Hk Hlo). left. lia.
        -- apply (upper_all k m' recs' j Hk Hup). left. lia.
Qed.

Lemma position_right_spec s1 middle i m recs : same_fs contents s s1 -> leaves !! i = Some (m, recs) ->
  nodeBuffer middle = Some (contents (agent s) m) -> blockHeader middle = Some m -> (forall r, r ∈ recs -> before r) ->
  found_position s1 (position_right cmp stack s1 key middle (contents (agent s) m) m (Z.of_nat (length recs))).
Proof using FSAgentLaws0 KeyCompare0 HF HP Hstack.
  intros Hs Hi Hb Hh Hall. unfold position_right. pose proof (tf_leaf _ _ _ _ _ _ _ HF _ _ _ Hi) as [_ _ _ Hnext _].
  rewrite Hnext. cbn [mbind outcome_bind]. destruct (leaf_nonempty i m recs Hi) as (x0 & recs0 & E0).
  assert (forall r, r ∈ leaf_records (take i leaves) ++ take (length recs) recs -> before r) as Hlo0.
  { apply (lower_all i m recs _ Hi); [by rewrite take_ge by lia|]. left. rewrite E0. simpl. lia. }
  assert (match i with O => nodeBuffer no_node = None | S k => sibling contents s leaves k no_node end) as Hnl
    by (destruct i; [done|by left]).
  assert (unchanged middle) as Hum by (right; by exists m).
  destruct (leaves !! S i) as [[m' recs']|] eqn:Hn.
  - destruct (leaf_number_pos size contents P rank s depth leaves HF (S i) m' recs' Hn) as [Hm0 ->].
    rewrite (proj2 (Z.eqb_neq m' 0)) by lia.
    destruct (get_leaf size contents P rank s depth leaves HF s1 (S i) m' recs' no_node Hs Hn) as (r & s2 & -> & Hrb & Hrh & Hs2).
    cbn [mbind outcome_bind negb noErr Z.eqb]. rewrite Hrb. cbn [of_option mbind outcome_bind].
    destruct (position_in_leaf s2 (S i) m' recs' Hs2 Hn) as (-> & -> & Hlen & b & j & -> & Hj & Hres). cbn [mbind outcome_bind].
    rewrite Z.eqb_refl, (proj2 (Z.leb_gt _ 0)) by lia. cbn [negb orb].
    assert (unchanged r) as Hur by (right; by exists m').
    destruct (Z.leb_spec (Z.of_nat (length recs')) (Z.of_nat j)) as [Hge|Hlt]; [apply search_position_spec; try done; by left|].
    assert (pos_leaf contents s leaves (mkPosition middle r (drop_buffer r) m' (Z.of_nat j) b) (S i) m' recs') as Hpl.
    { split; try done; cbn [pos_left pos_right]; [right; by exists m, recs|by left]. }
    eexists _, s2, (S i), m', recs', j. split; [reflexivity|]. split; [done|]. destruct b.
    + destruct Hres as (x & Hx & E). by apply (placed_found _ _ _ _ _ x).
    + destruct Hres as [Hlo Hup]. split; try done; cbn [pos_found].
      * apply (lower_all (S i) m' recs' j Hn Hlo). right. right. by exists i, m, recs.
      * apply (upper_all (S i) m' recs' j Hn Hup). left. lia.
  - assert (leaf_number leaves (S i) = 0) as -> by (unfold leaf_number; by rewrite Hn). cbn [Z.eqb].
    eexists _, s1, i, m, recs, (length recs). split; [reflexivity|]. split; [done|]. split; try done; cbn [pos_found].
    + split; try done. by left.
    + apply (upper_all i m recs _ Hi); [rewrite drop_ge by lia; intros r Hr; by apply not_elem_of_nil in Hr|]. right. left.
      apply lookup_ge_None in Hn. apply lookup_lt_Some in Hi. lia.
Qed.

(** An iterator with the key is at its place, whatever the hint. *)
Lemma FindIteratorPosition_spec it : it_key it = key -> hint_ok size contents s leaves (hint_nodeNum (it_hint it)) ->
  found_position s (FindIteratorPosition cmp stack s (Some it)).
Proof using FSAgentLaws0 KeyCompare0 HF HP Hstack.
  intros Hkey Hhint. set (h := hint_nodeNum (it_hint it)) in *. unfold FindIteratorPosition. rewrite Hkey. fold h.
  destruct (IsItAHint_same contents s h) as (bt & -> & Hs0). set (s0 := with_tree s bt) in *. cbv zeta.
  destruct (negb (totalNodes (btree s) <=? h) && negb (h =? 0)) eqn:Hv; cbn [negb]; [|apply search_position_spec; first [done|by left]].
  destruct Hhint as [Hh|[Hh|(Hread & Hlen & Hk)]]; [by rewrite (proj2 (Z.leb_le _ _)) in Hv|by rewrite Hh, andb_false_r in Hv|].
  destruct (GetNode_readable size contents s0 h no_node) as (mid & s1 & -> & Hb & Hhd & Hs1); [by apply (readable_same _ _ s)|].
  cbn [mbind outcome_bind]. change (noErr =? fsBTInvalidNodeErr) with false. cbn [negb noErr Z.eqb]. rewrite Hb. cbn [of_option mbind outcome_bind].
  assert (same_fs contents s s1) as Hs by (by transitivity s0). change (contents (agent s0) h) with (contents (agent s) h) in *.
  assert (unchanged mid) as Hum by (right; by exists h). pose proof (tf_geometry _ _ _ _ _ _ _ HF) as (H64 & _ & _).
  assert (exists k, kind (contents (agent s) h) = Ok k) as [k Hkind].
  { unfold kind, load8. rewrite get_bytes_ok by lia. by eexists. }
  assert (exists n, numRecords (contents (agent s) h) = Ok n) as [n Hnum].
  { unfold numRecords, load16. rewrite get_bytes_ok by lia. by eexists. }
  rewrite Hkind, Hnum. cbn [mbind outcome_bind]. destruct (Z.eqb_spec k kBTLeafNode) as [->|Hkl]; cbn [negb orb];
    [|apply search_position_spec; first [done|by left]].
  destruct Hk as [Hk|[recs [i Hi]%list_elem_of_lookup]]; [done|].
  assert (same_fs contents s (with_tree s1 (count_valid (btree s1)))) as Hs2 by (transitivity s1; [done|apply count_valid_same]).
  destruct (position_in_leaf (with_tree s1 (count_valid (btree s1))) i h recs Hs2 Hi) as (_ & En & Hl & b & j & -> & Hj & Hres).
  rewrite Hnum in En. injection En as ->. rewrite (proj2 (Z.leb_gt _ 0)) by lia. cbn [mbind outcome_bind]. destruct b.
  - destruct Hres as (x & Hx & E). eexists _, _, i, h, recs, j. split; [reflexivity|]. split; [done|].
    apply (placed_found _ _ _ _ _ x); try done. split; try done; cbn [pos_left pos_right]; [destruct i; [done|by left]|by left].
  - destruct Hres as [Hlo Hup]. destruct (Z.eqb_spec (Z.of_nat j) 0) as [Ej|Ej].
    + apply (position_left_spec _ _ i h recs); try done. intros r Hr. apply Hup. by replace j with 0%nat by lia.
    + destruct (Z.leb_spec (Z.of_nat (length recs)) (Z.of_nat j)).
      * replace j with (length recs) by lia. apply (position_right_spec _ _ i h recs); try done. intros r Hr. apply Hlo. by rewrite take_ge by lia.
      * apply search_position_spec; first [done|by left].
Qed.

(** ** Moving *)

Lemma leaf_length i m recs : leaves !! i = Some (m, recs) -> Z.of_nat (length recs) < 65536.
Proof using HF Hstack.
  intros Hi. destruct (file_node size contents P rank s depth leaves i m recs HF Hi) as ([_ _ _ _ Hh _ _] & _).
  pose proof (nh_max _ _ _ Hh). pose proof (nh_fits _ _ _ Hh). pose proof (rec_offset_ge recs (length recs)). lia.
Qed.

Lemma shift_left_spec s1 p k m recs m' recs' : same_fs contents s s1 -> leaves !! S k = Some (m, recs) ->
  leaves !! k = Some (m', recs') -> sibling contents s leaves (S (S k)) (pos_right p) ->
  nodeBuffer (pos_node p) = Some (contents (agent s) m) -> blockHeader (pos_node p) = Some m ->
  nodeBuffer (pos_left p) = Some (contents (agent s) m') -> blockHeader (pos_left p) = Some m' ->
  exists p' s2, shift_left s1 p = Ok (noErr, p', s2) /\ same_fs contents s s2 /\ pos_leaf contents s leaves p' k m' recs' /\
    pos_index p' = Z.of_nat (length recs' - 1) /\ pos_nodeNum p' = pos_nodeNum p.
Proof using FSAgentLaws0 KeyCompare0 HF HP Hstack.
  intros Hs Hi Hk Hr Hb Hh Hlb Hlh. unfold shift_left.
  destruct (position_in_leaf s1 k m' recs' Hs Hk) as (_ & Hnum & Hlen & _).
  pose proof (leaf_length k m' recs' Hk) as Hmax.
  assert (exists r' s2, (if has_buffer (pos_right p) then ReleaseNode s1 (pos_right p) else (noErr, pos_right p, s1)) = (noErr, r', s2) /\
    same_fs contents s s2) as (r' & s2 & -> & Hs2).
  { destruct (release_unchanged s1 (pos_right p) Hs (sibling_unchanged _ _ Hr)) as (r' & s2 & -> & _ & ?). destruct (has_buffer _); eauto. }
  cbn [negb noErr Z.eqb]. rewrite Hlb. cbn [of_option mbind outcome_bind]. rewrite Hnum. cbn [mbind outcome_bind].
  eexists _, s2. split; [reflexivity|]. split; [done|]. cbn [pos_index pos_nodeNum]. split; [|split; [rewrite u16_small; lia|done]].
  split; try done; cbn [pos_left pos_right]; [destruct k; [done|by left]|right; by exists m, recs].
Qed.

Lemma move_left_spec s1 p i m recs : same_fs contents s s1 -> pos_leaf contents s leaves p i m recs -> pos_nodeNum p = m ->
  exists p' s2, same_fs contents s s2 /\
    match i with
    | O => move_left s1 p = Ok (fsBTStartOfIterationErr, p', s2) /\ pos_leaf contents s leaves p' i m recs
    | S k => exists m' recs', leaves !! k = Some (m', recs') /\ move_left s1 p = Ok (noErr, p', s2) /\
        pos_leaf contents s leaves p' k m' recs' /\ pos_index p' = Z.of_nat (length recs' - 1) /\
        exists rs, (pos_nodeNum p', rs) ∈ leaves
    end.
Proof using FSAgentLaws0 KeyCompare0 HF HP Hstack.
  intros Hs Hp Hm. pose proof Hp as [Hi Hb Hh Hl Hr]. pose proof (tf_leaf _ _ _ _ _ _ _ HF _ _ _ Hi) as [_ _ _ _ Hprev].
  unfold move_left. rewrite Hb. cbn [of_option mbind outcome_bind]. destruct i as [|k].
  - unfold has_buffer at 1. rewrite Hl, Hprev.
    cbn [mbind outcome_bind leaf_before Z.ltb Z.compare negb fsBTStartOfIterationErr ERR_BASE noErr Z.add Z.pos_sub Z.eqb].
    eexists _, s1. split; [done|]. split; [done|]. by split.
  - destruct (lookup_lt_is_Some_2 leaves k) as [[m' recs'] Hk]; [apply lookup_lt_Some in Hi; lia|].
    destruct (leaf_number_pos size contents P rank s depth leaves HF k m' recs' Hk) as [Hm' Hnum].
    assert (forall n, n = m \/ n = m' -> exists rs, (n, rs) ∈ leaves) as Hin.
    { intros n [->| ->]; eexists; by eapply list_elem_of_lookup_2. }
    destruct Hl as [Hnil|(m2 & recs2 & E & Eb & Eh)].
    + unfold has_buffer at 1. rewrite Hnil, Hprev. cbn [mbind outcome_bind leaf_before]. rewrite Hnum, (proj2 (Z.ltb_lt _ _) Hm').
      destruct (get_leaf size contents P rank s depth leaves HF s1 k m' recs' (pos_left p) Hs Hk) as (r' & s2 & Hg & ? & ? & Hs2).
      cbn [pos_right pos_left pos_node pos_index pos_found]. rewrite Hg. cbn [mbind outcome_bind negb noErr Z.eqb].
      destruct (shift_left_spec s2 (mkPosition r' (pos_node p) (pos_right p) m' (pos_index p) (pos_found p)) k m recs m' recs')
        as (p' & s3 & -> & ? & ? & ? & Hn); try done. exists p', s3. split; [done|]. exists m', recs'. split_and!; try done.
      apply Hin. right. by rewrite Hn.
    + assert (has_buffer (pos_left p) = true) as -> by (unfold has_buffer; by rewrite Eb).
      cbn [mbind outcome_bind negb noErr Z.eqb]. rewrite Hk in E. injection E as <- <-.
      destruct (shift_left_spec s1 p k m recs m' recs') as (p' & s3 & -> & ? & ? & ? & Hn); try done.
      exists p', s3. split; [done|]. exists m', recs'. split_and!; try done. apply Hin. left. by rewrite Hn.
Qed.

(** The record that a move ends at. *)
Definition moved (err : Z) (next : option buffer) (p : Position) (e : Z) : Prop :=
  exists i m recs, pos_leaf contents s leaves p i m recs /\
    match next with
    | Some r => e = noErr /\ (exists j, pos_index p = Z.of_nat j /\ recs !! j = Some r) /\ exists rs, (pos_nodeNum p, rs) ∈ leaves
    | None => e = err
    end.

Definition previous (l : list buffer) : option buffer := last (filter before l).
Definition next (l : list buffer) : option buffer := head (filter behind l).

Lemma filter_lower a b : Forall before a -> Forall (fun r => ~ before r) b -> filter before (a ++ b) = a.
Proof using Type. intros Ha Hb. by rewrite filter_app, filter_all, filter_none, app_nil_r. Qed.

Lemma filter_upper a b : Forall (fun r => ~ behind r) a -> Forall behind b -> filter behind (a ++ b) = b.
Proof using Type. intros Ha Hb. by rewrite filter_app, filter_none, filter_all. Qed.

(** From its place, to the last record before the key. *)
Lemma iterate_prev_spec s1 p i m recs j : same_fs contents s s1 -> placed p i m recs j ->
  exists e p' s2, iterate_prev s1 p = Ok (e, p', s2) /\ same_fs contents s s2 /\
    moved fsBTStartOfIterationErr (previous (leaf_records leaves)) p' e.
Proof using FSAgentLaws0 KeyCompare0 HF HP Hstack.
  intros Hs [Hp Hm Hj Hr Hlo Hup]. pose proof (pl_leaf _ _ _ _ _ _ _ Hp) as Hi.
  assert (filter before (leaf_records leaves) = leaf_records (take i leaves) ++ take j recs) as Hf.
  { rewrite (leaf_split i m recs Hi). rewrite <- (take_drop j recs) at 1. rewrite <- app_assoc, app_assoc.
    apply filter_lower; apply Forall_forall; [done|]. intros r Hr' Hb. unfold before in Hb. destruct (pos_found p).
    - destruct Hup as (x & Hx & E & Hup). rewrite (drop_S _ _ _ Hx) in Hr'. apply elem_of_cons in Hr' as [->|Hr']; [congruence|].
      specialize (Hup r Hr'). unfold behind in Hup. congruence.
    - specialize (Hup r Hr'). unfold behind in Hup. congruence. }
  unfold iterate_prev, previous. rewrite Hj, Hf. destruct j as [|j].
  - change (0 <? Z.of_nat 0) with false. cbv iota. rewrite take_0, app_nil_r.
    destruct (move_left_spec s1 p i m recs Hs Hp Hm) as (p' & s2 & Hs2 & Hmv). destruct i as [|k].
    + destruct Hmv as (-> & Hp'). exists fsBTStartOfIterationErr, p', s2. split; [done|]. split; [done|]. by exists 0%nat, m, recs.
    + destruct Hmv as (m' & recs' & Hk & -> & Hp' & Hix & Hn). exists noErr, p', s2. split; [done|]. split; [done|].
      exists k, m', recs'. split; [done|]. destruct (leaf_nonempty k m' recs' Hk) as (x & recs2 & E).
      rewrite (take_S_r _ _ _ Hk), leaf_records_app. unfold leaf_records at 2. simpl. rewrite app_nil_r.
      assert (exists y, last recs' = Some y) as [y Hy] by (destruct (last recs') eqn:El; [eauto|apply last_None in El; congruence]).
      rewrite last_app, Hy. split; [done|]. split; [|done]. exists (length recs' - 1)%nat. split; [done|].
      rewrite last_lookup in Hy. by rewrite Nat.sub_1_r.
  - rewrite (proj2 (Z.ltb_lt _ _)) by lia. eexists noErr, _, s1. split; [reflexivity|]. split; [done|].
    exists i, m, recs. split; [by destruct Hp|].
    destruct (lookup_lt_is_Some_2 recs j ltac:(lia)) as [x Hx]. rewrite (take_S_r _ _ _ Hx), app_assoc, last_snoc.
    split; [done|]. split; [exists j; split; [cbn [at_index pos_index]; lia|done]|].
    exists recs. cbn [at_index pos_nodeNum]. rewrite Hm. by eapply list_elem_of_lookup_2.
Qed.

(** To the first record behind the key. *)
Lemma iterate_next_spec s1 p i m recs j : same_fs contents s s1 -> placed p i m recs j ->
  exists e p' s2, iterate_next s1 p = Ok (e, p', s2) /\ same_fs contents s s2 /\
    moved fsBTEndOfIterationErr (next (leaf_records leaves)) p' e.
Proof using FSAgentLaws0 KeyCompare0 HF HP Hstack.
  intros Hs [Hp Hm Hj Hr Hlo Hup]. pose proof Hp as [Hi Hb Hh Hl Hrt].
  destruct (position_in_leaf s1 i m recs Hs Hi) as (_ & Hnum & Hlen & _).
  pose proof (tf_leaf _ _ _ _ _ _ _ HF _ _ _ Hi) as [_ _ _ Hnext _].
  set (j' := if pos_found p then S j else j).
  assert (filter behind (leaf_records leaves) = drop j' recs ++ leaf_records (drop (S i) leaves)) as Hf.
  { rewrite (leaf_split i m recs Hi). rewrite <- (take_drop j' recs) at 1. rewrite <- app_assoc, app_assoc.
    apply filter_upper; apply Forall_forall; unfold j'; destruct (pos_found p); [|intros r Hr' Hb'; unfold behind in Hb'| |done].
    - destruct Hup as (x & Hx & E & _). intros r Hr' Hb'. unfold behind in Hb'. rewrite (take_S_r _ _ _ Hx), app_assoc in Hr'.
      apply elem_of_app in Hr' as [Hr'|Hr']; [specialize (Hlo r Hr'); unfold before in Hlo; congruence|].
      apply list_elem_of_singleton in Hr' as ->. congruence.
    - specialize (Hlo r Hr'). unfold before in Hlo. congruence.
    - by destruct Hup as (x & _ & _ & Hup). }
  assert ((j' <= length recs)%nat) as Hj'.
  { unfold j'. destruct (pos_found p); [|done]. destruct Hup as (x & Hx%lookup_lt_Some & _). lia. }
  assert (forall x k, recs !! k = Some x -> forall e, e = noErr ->
    forall p', pos_leaf contents s leaves p' i m recs -> pos_index p' = Z.of_nat k -> pos_nodeNum p' = m -> j' = k ->
    moved fsBTEndOfIterationErr (next (leaf_records leaves)) p' e) as Hstay.
  { intros x k Hx e -> p' Hp' Hk Hm' <-. exists i, m, recs. split; [done|]. unfold next. rewrite Hf, (drop_S _ _ _ Hx). simpl.
    split; [done|]. split; [by exists j'|]. exists recs. rewrite Hm'. by eapply list_elem_of_lookup_2. }
  assert (j' = length recs -> (pos_found p = true \/ j = length recs) ->
    exists e p' s2, ('(_, err, p, s) ← move_right s1 p; Ok (err, p, s)) = Ok (e, p', s2) /\ same_fs contents s s2 /\
      moved fsBTEndOfIterationErr (next (leaf_records leaves)) p' e) as Hright.
  { intros E _. unfold next. rewrite Hf, E, drop_ge by lia. cbn [app].
    destruct (move_right_spec size contents P rank s depth leaves HF s1 p i m recs Hs Hp) as (p' & s2 & Hs2 & Hmv).
    destruct (leaves !! S i) as [[m' recs']|] eqn:Hn.
    - destruct Hmv as (-> & Hp' & Hix & Hnum'). cbn [mbind outcome_bind]. exists noErr, p', s2. split; [done|]. split; [done|].
      exists (S i), m', recs'. split; [done|]. rewrite (drop_S _ _ _ Hn). unfold leaf_records. simpl.
      destruct (leaf_nonempty (S i) m' recs' Hn) as (x & recs2 & ->). simpl. split; [done|]. split; [by exists 0%nat|].
      destruct Hnum' as [->| ->]; [exists (x :: recs2)|exists recs; rewrite Hm]; by eapply list_elem_of_lookup_2.
    - destruct Hmv as (-> & Hp' & _). cbn [mbind outcome_bind]. exists fsBTEndOfIterationErr, p', s2. split; [done|]. split; [done|].
      exists i, m, recs. split; [done|]. rewrite drop_ge by (by apply lookup_ge_None in Hn). done. }
  unfold iterate_next. rewrite Hb. cbn [of_option mbind outcome_bind]. rewrite Hnum, Hnext. cbn [mbind outcome_bind]. rewrite Hj.
  assert (leaf_number leaves (S i) = 0 -> leaves !! S i = None) as Hend.
  { intros H0. destruct (leaves !! S i) as [[m' recs']|] eqn:Hn; [|done].
    destruct (leaf_number_pos size contents P rank s depth leaves HF (S i) m' recs' Hn). lia. }
  assert (Z.of_nat (length recs) < 65536) as Hmax by (by apply (leaf_length i m)).
  destruct (pos_found p) eqn:Efound; cbn [negb andb].
  - destruct (Z.ltb_spec (Z.of_nat j) (Z.of_nat (length recs) - 1)).
    + eexists _, _, s1. split; [reflexivity|]. split; [done|]. destruct (lookup_lt_is_Some_2 recs (S j) ltac:(lia)) as [x Hx].
      apply (Hstay x (S j)); [done|done|by destruct Hp|cbn [at_index pos_index]; rewrite u16_small; lia|done|done].
    + apply Hright; [unfold j'; lia|by left].
  - destruct (Z.eqb_spec (Z.of_nat j) (Z.of_nat (length recs))) as [E|E]; cbn [negb].
    + destruct (Z.eqb_spec (leaf_number leaves (S i)) 0) as [E0|E0]; cbn [andb].
      * eexists _, _, s1. split; [reflexivity|]. split; [done|]. exists i, m, recs. split; [done|]. unfold next.
        rewrite Hf, drop_ge by (unfold j'; lia). rewrite drop_ge by (by apply lookup_ge_None, Hend). done.
      * rewrite (proj2 (Z.ltb_ge _ _)) by lia. apply Hright; [unfold j'; lia|right; lia].
    + rewrite andb_false_r. eexists _, _, s1. split; [reflexivity|]. split; [done|].
      destruct (lookup_lt_is_Some_2 recs j ltac:(lia)) as [x Hx]. by apply (Hstay x j).
Qed.

(** ** [BTIterateRecord] *)

Definition neighbour (operation : Z) (l : list buffer) : option buffer :=
  if operation =? kBTreePrevRecord then previous l else next l.

(** The move, up to the record. *)
Lemma iterate_to_spec operation it : operation = kBTreePrevRecord \/ operation = kBTreeNextRecord -> it_key it = key ->
  hint_ok size contents s leaves (hint_nodeNum (it_hint it)) ->
  exists e p s2, iterate_to cmp stack s false operation (Some it) = Ok (e, p, s2) /\ same_fs contents s s2 /\
    moved (if operation =? kBTreePrevRecord then fsBTStartOfIterationErr else fsBTEndOfIterationErr)
      (neighbour operation (leaf_records leaves)) p e.
Proof using FSAgentLaws0 KeyCompare0 HF HP Hstack.
  intros Hop Hkey Hhint. destruct (FindIteratorPosition_spec it Hkey Hhint) as (p & s1 & i & m & recs & j & Hrun & Hs1 & Hpl).
  unfold iterate_to. destruct Hop as [-> | ->]; cbn [Z.leb Z.eqb negb andb orb Z.compare Pos.compare Pos.compare_cont Pos.eqb
    kBTreePrevRecord kBTreeNextRecord kBTreeFirstRecord kBTreeLastRecord]; rewrite Hrun; cbn [mbind outcome_bind negb noErr Z.eqb].
  - by apply (iterate_prev_spec s1 p i m recs j).
  - by apply (iterate_next_spec s1 p i m recs j).
Qed.

Definition iterated (operation : Z) (it : BTreeIterator) (record : option FSBufferDescriptor) (recordLen : option Z)
    (err : Z) (it' : BTreeIterator) (record' : option FSBufferDescriptor) (recordLen' : option Z) : Prop :=
  match neighbour operation (leaf_records leaves) with
  | Some r => err = noErr /\ option_Forall2 (record_copied (btree s) r) record record' /\
      recordLen' = (match recordLen with None => None | Some _ => Some (Z.of_nat (length (data_of (btree s) r))) end) /\
      it_key it' = splice (it_key it) 0 (key_of (btree s) r) /\ exists rs, (hint_nodeNum (it_hint it'), rs) ∈ leaves
  | None => err = (if operation =? kBTreePrevRecord then fsBTStartOfIterationErr else fsBTRecordNotFoundErr) /\ record' = record
  end.

Lemma iterate_record_spec operation it record recordLen :
  operation = kBTreePrevRecord \/ operation = kBTreeNextRecord -> it_key it = key ->
  hint_ok size contents s leaves (hint_nodeNum (it_hint it)) -> key_fits s leaves it ->
  (forall d, record = Some d -> buffer_fits d) ->
  exists err it' record' recordLen' s', iterate_record cmp stack s operation (Some it) record recordLen =
      Ok (err, Some it', record', recordLen', s') /\ same_fs contents s s' /\
    iterated operation it record recordLen err it' record' recordLen'.
Proof using FSAgentLaws0 KeyCompare0 HF HP Hstack.
  intros Hop Hkey Hhint Hfit Hrec.
  destruct (iterate_to_spec operation it Hop Hkey Hhint) as (e & p & s2 & Hto & Hs2 & i & m & recs & Hp & Hmv).
  unfold iterate_record. rewrite Hto. cbn [mbind outcome_bind]. unfold iterated.
  destruct (neighbour operation (leaf_records leaves)) as [r|].
  - destruct Hmv as (-> & (j & Hj & Hr) & Hn). cbn [negb noErr Z.eqb]. pose proof Hp as [Hi Hb _ _ _].
    rewrite Hb. cbn [of_option mbind outcome_bind]. rewrite Hj.
    destruct (leaf_record size contents P rank s depth leaves HF s2 i m recs j r Hs2 Hi Hr) as (kp & dp & n & Hget & Hat & _).
    rewrite Hget. cbn [mbind outcome_bind].
    destruct (file_node size contents P rank s depth leaves i m recs HF Hi) as (_ & _ & Hlen & _).
    pose proof (tf_size _ _ _ _ _ _ _ HF) as Hsz.
    assert (exists rec', copy_to (contents (agent s) m) dp n record = Ok rec' /\
      option_Forall2 (record_copied (btree s) r) record rec') as (rec' & -> & Hrec').
    { pose proof Hat as [_ _ _ ? ? -> ? _ _ _]. destruct record as [d|]; [|by exists None; split; [|constructor]].
      destruct (copy_record_spec (btree s) (contents (agent s) m) dp r d) as (d' & Hd & ?); [done|done|lia|done|by apply Hrec|].
      unfold copy_to. rewrite Hd. exists (Some d'). split; [done|by constructor]. }
    destruct (copy_key_spec contents s leaves s2 i m recs kp dp n r it Hs2 Hi ltac:(by eapply list_elem_of_lookup_2) Hat Hfit) as [Hck _].
    cbn [mbind outcome_bind]. unfold set_iterator. rewrite Hck. cbn [mbind outcome_bind].
    destruct (release_position_spec size contents s leaves s2 p i m recs Hs2 Hp) as (p2 & s3 & -> & Hs3). cbn [negb noErr Z.eqb].
    eexists _, _, _, _, s3. split; [reflexivity|]. split; [done|]. split_and!; try done. by rewrite (ra_len _ _ _ _ _ _ Hat).
  - subst e. assert (negb ((if operation =? kBTreePrevRecord then fsBTStartOfIterationErr else fsBTEndOfIterationErr) =? noErr) = true) as ->
      by (by destruct (operation =? kBTreePrevRecord)).
    unfold iterate_exit, clear_iterator, store16. destruct Hfit as [H2 _].
    rewrite put_bytes_ok by (rewrite ?le_encode_length; lia). cbn [mbind outcome_bind].
    eexists _, _, _, _, _. split; [reflexivity|]. split; [by apply (release_all_spec size contents s leaves s2 p i m recs)|].
    split; [by destruct (operation =? kBTreePrevRecord)|done].
Qed.

(** C14: [BTIterateRecord] moves an iterator to the next or the previous record: the first of
    the records behind its key, or the last of those before, whether the key itself is in
    the tree or not.  The record is copied into the buffer, the iterator gets its key and a
    leaf as its hint; at an end of the tree the error says so.  The hint may be none, out of
    range or wrong, as long as the node it names can be read and is not a leaf that is outside
    the tree; the iterator has room for the keys of the tree.  The file is not changed. *)
Theorem BTIterateRecord_correct sync operation it record recordLen :
  operation = kBTreePrevRecord \/ operation = kBTreeNextRecord -> it_key it = key ->
  hint_ok size contents s leaves (hint_nodeNum (it_hint it)) -> key_fits s leaves it ->
  (forall d, record = Some d -> buffer_fits d) ->
  exists err it' record' recordLen' s', BTIterateRecord cmp stack (opened s sync) operation (Some it) record recordLen =
      Ok (err, Some it', record', recordLen', opened s' sync) /\ same_fs contents s s' /\
    iterated operation it record recordLen err it' record' recordLen'.
Proof using FSAgentLaws0 KeyCompare0 HF HP Hstack.
  intros Hop Hkey Hhint Hfit Hrec.
  destruct (iterate_record_spec operation it record recordLen Hop Hkey Hhint Hfit Hrec) as (e & it' & r' & l' & s' & Hrun & ? & ?).
  exists e, it', r', l', s'. split; [|done]. unfold BTIterateRecord. rewrite on_opened, Hrun. done.
Qed.
End iterate.

(** From the first key of the second leaf back to the last record of the first one. *)
Lemma BTIterateRecord_witness :
  exists it' s', BTIterateRecord CompareExtendedCatalogKeys empty_path (opened two_fs 0) kBTreePrevRecord
      (Some (iterator_for 103 3)) (Some (mkBuffer [0; 0; 0; 0] 4 1)) (Some 0) =
      Ok (noErr, Some it', Some (mkBuffer [5; 6; 7; 8] 4 1), Some 4, opened s' 0) /\
    same_fs file_contents two_fs s' /\ it_key it' = it_key (iterator_for 99 0).
Proof.
  destruct (BTIterateRecord_correct file_size file_contents catalog_key_plus catalog_rank_plus CompareExtendedCatalogKeys
    two_fs 2 two_leaves two_tree_file (it_key (iterator_for 103 3)) (iterator_key 103 3 eq_refl) empty_path eq_refl 0
    kBTreePrevRecord (iterator_for 103 3) (Some (mkBuffer [0; 0; 0; 0] 4 1)) (Some 0))
    as (err & it' & record' & len' & s' & Hrun & Hs & Hit).
  - by left.
  - reflexivity.
  - right. right. split_and!.
    + apply (no_read _ _ catalog_key_plus catalog_rank_plus _ 1 kBTLeafNode 3 (leaf_recs 103)).
      apply (tree_at_leaf file_size file_contents _ _ _ _ _ _ two_tree). apply list_elem_of_further, list_elem_of_here.
    + reflexivity.
    + right. exists (leaf_recs 103). apply list_elem_of_further, list_elem_of_here.
  - split; [simpl; lia|]. intros r Hr. change (btree two_fs) with two_bt. rewrite (two_records r Hr). compare.
  - intros d [= <-]. compare.
  - unfold iterated in Hit.
    assert (neighbour catalog_rank_plus (it_key (iterator_for 103 3)) kBTreePrevRecord (leaf_records two_leaves) =
      Some (sample_key 99 ++ [5; 6; 7; 8])) as E by (vm_compute; reflexivity).
    rewrite E in Hit. destruct Hit as (-> & Hrec & -> & Hkey & _). inversion Hrec as [d d' Hd|]; subst. clear Hrec.
    destruct Hd as (Hsl & Hsz & Hct).
    exists it', s'. split; [|split; [exact Hs|rewrite Hkey; vm_compute; reflexivity]]. rewrite Hrun.
    assert (match BTIterateRecord CompareExtendedCatalogKeys empty_path (opened two_fs 0) kBTreePrevRecord
      (Some (iterator_for 103 3)) (Some (mkBuffer [0; 0; 0; 0] 4 1)) (Some 0) with
      | Ok (_, _, r, _, _) => r = Some (mkBuffer [5; 6; 7; 8] 4 1) | _ => False end) as Hev by (vm_compute; reflexivity).
    rewrite Hrun in Hev. rewrite Hev. reflexivity.
Defined.
