(* ===== verification/BTreeScanner.v ===== *)
(** * Scanning a B-tree file (BTreeScanner.c)

    The scanner reads the nodes of the file in their order on disk, many at a time and past
    the cache, and gives the records of the leaf nodes among them.  Mapping a node to a
    block of the device ([VOP_BMAP]) and reading blocks ([bread]) are parameters. *)
From S2P Require Import Prelude Bits VolumeBitmap VolumeAllocation ExtentMapping Bytes UnicodeCompare BTreeNode BTreeKeys BTreeNodeTheorems.
From S2P Require Import BTreeBlocks BTreeMisc BTreeFile.

Definition fsEndOfIterationErr : Z := ERR_BASE + 0x0A07.
Definition fsBTTimeOutErr : Z := ERR_BASE + 0x0A08.

(** [currentNodePtr] is an offset in the data of the buffer; [startTime] is not used. *)
Record BTScanState := mkScan {
  bufferSize : Z;
  bufferPtr : option buffer;
  nodeNum : Z;
  recordNum : Z;
  currentNodePtr : Z;
  nodesLeftInBuffer : Z;
  recordsFound : Z
}.

Section scanner.
Context (btcb : BTreeControlBlock) (fcbEOF : Z).
(** The block of a node and the number of nodes that follow it there, or an error; and the
    data of as many bytes from a block on. *)
Context (VOP_BMAP : Z -> Z + Z * Z) (bread : Z -> Z -> Z + buffer).

(** The position moves; the record is kept or set to the first one. *)
Definition set_node (ss : BTScanState) (node ptr left : Z) (record : Z) : BTScanState :=
  mkScan (bufferSize ss) (bufferPtr ss) node record ptr left (recordsFound ss).
Definition set_data (ss : BTScanState) (data : option buffer) (ptr left : Z) : BTScanState :=
  mkScan (bufferSize ss) data (nodeNum ss) (recordNum ss) ptr left (recordsFound ss).
Definition set_record (ss : BTScanState) (record found : Z) : BTScanState :=
  mkScan (bufferSize ss) (bufferPtr ss) (nodeNum ss) record (currentNodePtr ss) (nodesLeftInBuffer ss) found.

Definition ReadMultipleNodes (ss : BTScanState) : outcome (Z * BTScanState) :=
  if nodeSize btcb =? 0 then Fault else
  let ss := set_data ss None 0 (nodesLeftInBuffer ss) in
  match VOP_BMAP (nodeNum ss) with
  | inl err => Ok (err, ss)
  | inr (myPhyBlockNum, myBlockRun) =>
      let myBlocksInBufferCount := bufferSize ss / nodeSize btcb in
      let myBufferSize := if u32 (myBlockRun + 1) <? myBlocksInBufferCount then u32 ((myBlockRun + 1) * nodeSize btcb) else bufferSize ss in
      match bread myPhyBlockNum myBufferSize with
      | inl err => Ok (err, ss)
      | inr data => Ok (noErr, set_data ss (Some data) 0 (Z.of_nat (length data) / nodeSize btcb))
      end
  end.

(** The bytes of the node at the pointer. *)
Definition current_node (ss : BTScanState) : outcome buffer :=
  data ← of_option (bufferPtr ss);
  get_bytes data (currentNodePtr ss) (nodeSize btcb).

(** [while (1)]: each round reads a buffer or goes to the next node. *)
Fixpoint FindNextLeafNode (fuel : nat) (ss : BTScanState) (avoidIO : bool) : outcome (Z * BTScanState) :=
  match fuel with
  | O => Diverge
  | S fuel =>
      let check ss :=
        node ← current_node ss;
        err ← CheckNode btcb fcbEOF node;
        if negb (err =? noErr) then FindNextLeafNode fuel ss avoidIO
        else k ← kind node; if k =? kBTLeafNode then Ok (noErr, ss) else FindNextLeafNode fuel ss avoidIO in
      if nodesLeftInBuffer ss =? 0 then
        if avoidIO then Ok (fsBTTimeOutErr, ss)
        else '(err, ss) ← ReadMultipleNodes ss; if negb (err =? noErr) then Ok (err, ss) else check ss
      else
        let node := u32 (nodeNum ss + 1) in
        let left := nodesLeftInBuffer ss - 1 in
        if totalNodes btcb <=? node then Ok (fsEndOfIterationErr, set_node ss node (currentNodePtr ss) left (recordNum ss))
        else if left =? 0 then FindNextLeafNode fuel (set_node ss node (currentNodePtr ss) left 0) avoidIO
        else check (set_node ss node (currentNodePtr ss + nodeSize btcb) left (recordNum ss))
  end.
Definition find_fuel : nat := 2 * Z.to_nat (totalNodes btcb) + 2.

(** [while (err == noErr)]: the result and, if there is one, the record: where its key and
    its data start in the node and the size of the data. *)
Fixpoint scan_loop (fuel : nat) (ss : BTScanState) (avoidIO : bool) : outcome (Z * option (Z * Z * Z) * BTScanState) :=
  match fuel with
  | O => Diverge
  | S fuel =>
      node ← current_node ss;
      r ← GetRecordByIndex btcb node (u16 (recordNum ss));
      match r with
      | inr e => Ok (noErr, Some e, set_record ss (u32 (recordNum ss + 1)) (u32 (recordsFound ss + 1)))
      | inl err =>
          if 0 <? err then Ok (err, None, ss)
          else if leafRecords btcb <=? recordsFound ss then Ok (btNotFound, None, ss)
          else
            '(err, ss) ← FindNextLeafNode find_fuel (set_record ss 0 (recordsFound ss)) avoidIO;
            if err =? noErr then scan_loop fuel ss avoidIO
            else Ok (if err =? fsEndOfIterationErr then btNotFound else err, None, ss)
      end
  end.

Definition BTScanNextRecord (ss : BTScanState) (avoidIO : bool) : outcome (Z * option (Z * Z * Z) * BTScanState) :=
  '(err, ss) ← (if nodesLeftInBuffer ss =? 0 then FindNextLeafNode find_fuel ss avoidIO else Ok (noErr, ss));
  if err =? noErr then scan_loop (Z.to_nat (totalNodes btcb) + 1) ss avoidIO
  else Ok (if err =? fsEndOfIterationErr then btNotFound else err, None, ss).

End scanner.

Definition BTScanInitialize (fcbBTCBPtr : option BTreeControlBlock) (startingNode startingRecord found size : Z) : outcome (Z + BTScanState) :=
  match fcbBTCBPtr with
  | None => Ok (inl fsBTInvalidFileErr)
  | Some btcb =>
      if size <? nodeSize btcb then Ok (inl paramErr)
      else if nodeSize btcb =? 0 then Fault
      else Ok (inr (mkScan (size / nodeSize btcb * nodeSize btcb) None startingNode startingRecord 0 0 found))
  end.

(** Where to resume, and the state with its buffer released. *)
Definition BTScanTerminate (ss : BTScanState) : Z * Z * Z * BTScanState :=
  (nodeNum ss, recordNum ss, recordsFound ss, set_data ss None 0 (nodesLeftInBuffer ss)).
