(* ===== verification/BTreeScannerTheorems.v ===== *)
(** * Correctness of the scanner

    A scan gives the records of all leaf nodes in the order of the nodes in the file, each
    once, whatever the sizes of the runs on disk and of the buffer, and can be interrupted
    and resumed anywhere. *)
From S2P Require Import Prelude Bits VolumeBitmap VolumeAllocation ExtentMapping Bytes UnicodeCompare BTreeNode BTreeKeys BTreeNodeTheorems.
From S2P Require Import BTreeBlocks BTreeMap BTreeMisc BTreeTree BTreeSearch BTreeInsert BTreeFile BTreeFileTheorems BTreeScanner.

(** The records a scan finds in a node: those of a valid leaf, otherwise none. *)
Definition leaf_node (bt : BTreeControlBlock) (fcbEOF : Z) (node : buffer) (recs : list buffer) : Prop :=
  CheckNode bt fcbEOF node = Ok noErr /\ kind node = Ok kBTLeafNode /\
  node_holds (nodeSize bt) recs node /\ Forall (fun r => rec_ok bt r /\ Forall byte r) recs.
Definition skipped_node (bt : BTreeControlBlock) (fcbEOF : Z) (node : buffer) : Prop :=
  exists err, CheckNode bt fcbEOF node = Ok err /\
    (err <> noErr \/ exists k, kind node = Ok k /\ k <> kBTLeafNode).
Definition scans (bt : BTreeControlBlock) (fcbEOF : Z) (node : buffer) (recs : list buffer) : Prop :=
  Z.of_nat (length node) = nodeSize bt /\
  (leaf_node bt fcbEOF node recs \/ skipped_node bt fcbEOF node /\ recs = []).

(** The device: the nodes of a run can be read together, up to the end of the run. *)
Class ScanDevice (size : Z) (nodes : list buffer) (VOP_BMAP : Z -> Z + Z * Z) (bread : Z -> Z -> Z + buffer) : Prop := {
  sd_read n : (n < length nodes)%nat ->
    exists p run, VOP_BMAP (Z.of_nat n) = inr (p, run) /\ 0 <= run < 2 ^ 31 - 1 /\
      forall k, 0 < k <= run + 1 -> exists data, bread p (k * size) = inr data /\
        Z.of_nat (length data) = k * size /\
        forall j node, Z.of_nat j < k -> nodes !! (n + j)%nat = Some node -> slice data (Z.of_nat j * size) size = node
}.

(** The tree, the size of its buffer and what is read from it. *)
Record scan_file (bt : BTreeControlBlock) (fcbEOF : Z) (nodes : list buffer) (recs : list (list buffer)) : Prop := {
  sf_total : totalNodes bt = Z.of_nat (length nodes);
  sf_nodes : 0 < totalNodes bt < 2 ^ 32;
  sf_size : 0 < nodeSize bt < 2 ^ 16;
  sf_scans : Forall2 (scans bt fcbEOF) nodes recs;
  sf_records : Z.of_nat (length (concat recs)) <= leafRecords bt < 2 ^ 32
}.

Section scan.
Context (bt : BTreeControlBlock) (fcbEOF : Z) (nodes : list buffer) (recs : list (list buffer)).
Context (VOP_BMAP : Z -> Z + Z * Z) (bread : Z -> Z -> Z + buffer).

(** Up to [k] records, one call after the other, each with its bytes. *)
Definition record_of (ss : BTScanState) (e : Z * Z * Z) : outcome buffer :=
  let '(key, data, n) := e in
  node ← current_node bt ss;
  get_bytes node key (data + n - key).
Fixpoint scan_run (k : nat) (ss : BTScanState) : outcome (list buffer * Z * BTScanState) :=
  match k with
  | O => Ok ([], noErr, ss)
  | S k =>
      '(err, found, ss) ← BTScanNextRecord bt fcbEOF VOP_BMAP bread ss false;
      match found with
      | None => Ok ([], err, ss)
      | Some e =>
          r ← record_of ss e;
          '(rs, err, ss) ← scan_run k ss;
          Ok (r :: rs, err, ss)
      end
  end.

(** The state is at node [n]: nothing is in the buffer, or the node and what follows it. *)
Definition buffered (ss : BTScanState) (n : nat) : Prop :=
  exists data, bufferPtr ss = Some data /\ 0 < nodesLeftInBuffer ss /\
    forall j node, Z.of_nat j < nodesLeftInBuffer ss -> nodes !! (n + j)%nat = Some node ->
      get_bytes data (currentNodePtr ss + Z.of_nat j * nodeSize bt) (nodeSize bt) = Ok node.
Record at_node (ss : BTScanState) (n : nat) : Prop := {
  an_num : nodeNum ss = Z.of_nat n;
  an_lt : (n < length nodes)%nat;
  an_size : exists c, 0 < c /\ bufferSize ss = c * nodeSize bt /\ bufferSize ss < 2 ^ 32;
  an_buffer : nodesLeftInBuffer ss = 0 \/ buffered ss n
}.

(** The records still to come. *)
Record pending (ss : BTScanState) (rest : list buffer) : Prop := {
  pe_node : exists n node rs, at_node ss n /\ nodes !! n = Some node /\ recs !! n = Some rs /\
    0 <= recordNum ss <= Z.of_nat (length rs) /\
    rest = drop (Z.to_nat (recordNum ss)) rs ++ concat (drop (S n) recs) /\
    (nodesLeftInBuffer ss = 0 \/ leaf_node bt fcbEOF node rs);
  pe_found : 0 <= recordsFound ss /\ recordsFound ss + Z.of_nat (length rest) <= leafRecords bt
}.

Context (HF : scan_file bt fcbEOF nodes recs) `{HD : !ScanDevice (nodeSize bt) nodes VOP_BMAP bread}.

Lemma node_scans n : (n < length nodes)%nat ->
  exists node rs, nodes !! n = Some node /\ recs !! n = Some rs /\ scans bt fcbEOF node rs.
Proof using HF.
  intros [node Hn]%lookup_lt_is_Some. destruct (Forall2_lookup_l _ _ _ _ _ (sf_scans _ _ _ _ HF) Hn) as (rs & ? & ?). eauto.
Qed.

Lemma current_node_at ss n node : at_node ss n -> nodesLeftInBuffer ss <> 0 -> nodes !! n = Some node ->
  current_node bt ss = Ok node.
Proof.
  intros Ha Hl Hn. destruct (an_buffer _ _ Ha) as [?|(data & Hd & ? & Hj)]; [done|].
  unfold current_node. rewrite Hd. simpl. rewrite <- (Hj O node); [f_equal; lia|lia|by rewrite Nat.add_0_r].
Qed.

(** Reading fills the buffer from the node on. *)
Lemma ReadMultipleNodes_spec ss n : at_node ss n -> exists ss',
  ReadMultipleNodes bt VOP_BMAP bread ss = Ok (noErr, ss') /\ at_node ss' n /\ nodesLeftInBuffer ss' <> 0 /\
  recordNum ss' = recordNum ss /\ recordsFound ss' = recordsFound ss.
Proof using All.
  intros [Hn Hlt (c & Hc & Hb & Hb') _]. pose proof (sf_size _ _ _ _ HF).
  unfold ReadMultipleNodes. case_ztest; [lia|]. cbn [nodeNum set_data]. rewrite Hn.
  destruct (sd_read n Hlt) as (p & run & -> & Hrun & Hread). cbn [bufferSize set_data]. rewrite Hb, Z.div_mul by lia.
  rewrite (u32_small (run + 1)) by lia.
  set (sz := if run + 1 <? c then _ else _).
  assert (exists k, 0 < k <= run + 1 /\ sz = k * nodeSize bt) as (k & Hk & ->).
  { unfold sz. case_ztest; [exists (run + 1)|exists c]; split; try lia. apply u32_small. nia. }
  destruct (Hread k Hk) as (data & -> & Hlen & Hsl).
  eexists. split; [reflexivity|].
  rewrite Hlen, Z.div_mul by lia. cbn [recordNum recordsFound nodesLeftInBuffer set_data].
  split; [|split_and!; done || lia]. split; cbn [nodeNum bufferSize set_data nodesLeftInBuffer]; [done|done|by exists c|]. right. exists data. cbn [bufferPtr currentNodePtr nodesLeftInBuffer set_data].
  split_and!; [done|lia|]. intros j node Hj Hnode. rewrite Z.add_0_l, get_bytes_ok by nia. by rewrite (Hsl j node).
Qed.

(** The loop stops at the first leaf, or at the end if there is none. *)
Definition first_node (ss : BTScanState) (n : nat) : nat := if nodesLeftInBuffer ss =? 0 then n else S n.
Definition find_measure (ss : BTScanState) (n : nat) : nat := 2 * (length nodes - n) + (if nodesLeftInBuffer ss =? 0 then 2 else 1).
Definition found_leaf (ss : BTScanState) (first : nat) (res : outcome (Z * BTScanState)) : Prop :=
  (exists ss' m node rs, res = Ok (noErr, ss') /\ at_node ss' m /\ nodesLeftInBuffer ss' <> 0 /\
     nodes !! m = Some node /\ recs !! m = Some rs /\ leaf_node bt fcbEOF node rs /\
     (first <= m)%nat /\ concat (drop first recs) = concat (drop m recs) /\
     recordNum ss' = recordNum ss /\ recordsFound ss' = recordsFound ss /\ (recordNum ss <> 0 -> m = first)) \/
  (exists ss', res = Ok (fsEndOfIterationErr, ss') /\ concat (drop first recs) = []).

(** A node that is skipped has no records. *)
Lemma skip_records n : recs !! n = Some [] -> concat (drop n recs) = concat (drop (S n) recs).
Proof. intros H. by rewrite (drop_S _ _ _ H). Qed.

(** The test of the node at hand: a leaf ends the loop, at any other node it goes on. *)
Lemma check_spec ss n (go : outcome (Z * BTScanState)) :
  at_node ss n -> nodesLeftInBuffer ss <> 0 -> (recordNum ss = 0 \/ recs !! n <> Some []) ->
  (recordNum ss = 0 -> recs !! n = Some [] -> found_leaf ss (S n) go) ->
  found_leaf ss n
    (node ← current_node bt ss;
     err ← CheckNode bt fcbEOF node;
     if negb (err =? noErr) then go else k ← kind node; if k =? kBTLeafNode then Ok (noErr, ss) else go).
Proof using HF.
  intros Ha Hl Hr Hgo. destruct (node_scans n (an_lt _ _ Ha)) as (node & rs & Hn & Hrs & _ & [Hleaf|[(err & Hc & Hk) ->]]).
  - rewrite (current_node_at _ _ _ Ha Hl Hn). simpl. destruct Hleaf as (Hc & Hk & Hh). rewrite Hc. simpl. rewrite Hk. simpl.
    left. exists ss, n, node, rs. split_and!; done || lia.
  - rewrite (current_node_at _ _ _ Ha Hl Hn). simpl. rewrite Hc. simpl.
    assert (found_leaf ss n go) as Hres.
    { destruct Hr as [Hr|?]; [|done]. destruct (Hgo Hr Hrs) as [(ss' & m & node' & rs & H1 & H2 & H3 & H4 & H5 & H6 & H7 & H8 & H9 & H10 & H11)|(ss' & H1 & H2)].
      - left. exists ss', m, node', rs. split_and!; try done; [lia|by rewrite (skip_records _ Hrs)].
      - right. exists ss'. by rewrite (skip_records _ Hrs). }
    case_ztest; [|done]. subst. destruct Hk as [?|(k & -> & Hk)]; [done|]. simpl. by case_ztest.
Qed.

Lemma found_leaf_same ss ss' first res : recordNum ss' = recordNum ss -> recordsFound ss' = recordsFound ss ->
  found_leaf ss' first res -> found_leaf ss first res.
Proof. unfold found_leaf. by intros -> ->. Qed.

(** The next node of the buffer. *)
Lemma at_node_next ss n : at_node ss n -> nodesLeftInBuffer ss <> 0 -> (S n < length nodes)%nat ->
  at_node (set_node ss (Z.of_nat (S n)) (currentNodePtr ss + nodeSize bt) (nodesLeftInBuffer ss - 1) (recordNum ss)) (S n).
Proof.
  intros [Hn _ Hs Hb] Hl Hlt. split; cbn; [done..|]. destruct Hb as [?|(data & Hd & Hpos & Hj)]; [done|].
  destruct (decide (nodesLeftInBuffer ss = 1)); [left; lia|right]. exists data. cbn. split_and!; [done|lia|].
  intros j node ? Hnode. rewrite <- (Hj (S j) node); [f_equal; lia|lia|]. by rewrite <- Hnode, Nat.add_succ_r.
Qed.

Lemma FindNextLeafNode_spec fuel : forall ss n, at_node ss n ->
  (recordNum ss = 0 \/ nodesLeftInBuffer ss = 0 /\ recs !! n <> Some []) -> (find_measure ss n <= fuel)%nat ->
  found_leaf ss (first_node ss n) (FindNextLeafNode bt fcbEOF VOP_BMAP bread fuel ss false).
Proof using All.
  induction fuel as [|fuel IH]; intros ss n Ha Hr Hf; unfold find_measure in *.
  { destruct (nodesLeftInBuffer ss =? 0); lia. }
  pose proof (an_lt _ _ Ha) as Hlt. unfold first_node. cbn [FindNextLeafNode]. revert Hf.
  destruct (Z.eqb_spec (nodesLeftInBuffer ss) 0) as [H0|H0]; intros Hf.
  - destruct (ReadMultipleNodes_spec ss n Ha) as (ss' & -> & Ha' & Hl' & Hr' & Hf'). cbn [mbind outcome_bind].
    apply (found_leaf_same ss ss'); [done..|]. apply (check_spec ss' n); try done.
    + rewrite Hr'. destruct Hr as [?|[_ ?]]; auto.
    + intros Hz _. specialize (IH ss' n Ha' (or_introl Hz)). revert IH. unfold first_node.
      destruct (Z.eqb_spec (nodesLeftInBuffer ss') 0); [done|]. intros IH. apply IH. lia.
  - destruct Hr as [Hr|[? _]]; [|done]. pose proof (sf_total _ _ _ _ HF) as Ht. pose proof (sf_nodes _ _ _ _ HF) as Hn.
    rewrite (an_num _ _ Ha), u32_small by lia. replace (Z.of_nat n + 1) with (Z.of_nat (S n)) by lia.
    destruct (Z.leb_spec (totalNodes bt) (Z.of_nat (S n))) as [He|He].
    { right. eexists. split; [reflexivity|]. rewrite drop_ge; [done|].
      rewrite <- (Forall2_length _ _ _ (sf_scans _ _ _ _ HF)). lia. }
    assert (at_node (set_node ss (Z.of_nat (S n)) (currentNodePtr ss + nodeSize bt) (nodesLeftInBuffer ss - 1) (recordNum ss)) (S n)) as Hnext
      by (apply at_node_next; done || lia).
    destruct (Z.eqb_spec (nodesLeftInBuffer ss - 1) 0) as [H1|H1].
    + set (ss' := set_node _ _ _ _ _). apply (found_leaf_same ss ss'); [by rewrite Hr|done|].
      specialize (IH ss' (S n)). unfold first_node in IH. cbn in IH. rewrite H1 in IH. cbn in IH. apply IH; [|by left|lia].
      destruct Hnext as [? ? ? _]. split; [done..|by left].
    + set (ss' := set_node _ _ _ _ _) in *. apply (found_leaf_same ss ss'); [done..|]. apply (check_spec ss' (S n)); [done..|by left|].
      intros _ _. specialize (IH ss' (S n) Hnext (or_introl Hr)). revert IH. unfold first_node. cbn.
      destruct (Z.eqb_spec (nodesLeftInBuffer ss - 1) 0); [done|]. intros IH. apply IH. lia.
Qed.

(** A record of a leaf is read with all its bytes; behind the last there is none. *)
Lemma leaf_record_at node rs (i : nat) r : leaf_node bt fcbEOF node rs -> rs !! i = Some r ->
  exists key data n, GetRecordByIndex bt node (u16 (Z.of_nat i)) = Ok (inr (key, data, n)) /\
    get_bytes node key (data + n - key) = Ok r.
Proof.
  intros (_ & _ & Hh & Hrs) Hr. destruct (Forall_lookup_1 _ _ _ _ Hrs Hr) as [Hok Hb].
  destruct (rec_ok_pointer bt r Hok Hb) as (Hk & Hp & Hl). pose proof (lookup_lt_Some _ _ _ Hr).
  pose proof (rec_offset_S _ _ _ Hr). pose proof (rec_offset_ge rs i).
  destruct (node_holds_bounds _ _ _ (S i) Hh ltac:(lia)) as (? & ? & ?).
  exists (rec_offset rs i), (rec_offset rs i + pointer_pos bt r), (Z.of_nat (length r) - pointer_pos bt r).
  rewrite u16_small by lia. split; [apply (GetRecordByIndex_spec bt rs node i r); done || exact Hp || lia|].
  rewrite get_bytes_ok by lia. f_equal. etrans; [|exact (slice_record _ _ _ Hh _ _ Hr)]. f_equal. lia.
Qed.
Lemma leaf_end node rs : leaf_node bt fcbEOF node rs ->
  GetRecordByIndex bt node (u16 (Z.of_nat (length rs))) = Ok (inl fsBTRecordNotFoundErr).
Proof.
  intros (_ & _ & Hh & _). destruct (node_holds_bounds _ _ _ (length rs) Hh ltac:(lia)) as (? & ? & ?).
  unfold GetRecordByIndex. rewrite (numRecords_holds _ _ _ Hh), u16_small by lia. simpl. case_ztest; [done|lia].
Qed.

(** One call: the next record, or none if there is none. *)
Definition scanned (ss : BTScanState) (rest : list buffer) (res : outcome (Z * option (Z * Z * Z) * BTScanState)) : Prop :=
  match rest with
  | [] => exists ss', res = Ok (btNotFound, None, ss')
  | r :: rest => exists e ss', res = Ok (noErr, Some e, ss') /\ record_of ss' e = Ok r /\ pending ss' rest
  end.

Lemma record_step ss n node rs rest : at_node ss n -> nodesLeftInBuffer ss <> 0 -> nodes !! n = Some node -> recs !! n = Some rs ->
  leaf_node bt fcbEOF node rs -> 0 <= recordNum ss < Z.of_nat (length rs) ->
  rest = drop (Z.to_nat (recordNum ss)) rs ++ concat (drop (S n) recs) ->
  0 <= recordsFound ss -> recordsFound ss + Z.of_nat (length rest) <= leafRecords bt ->
  exists e, GetRecordByIndex bt node (u16 (recordNum ss)) = Ok (inr e) /\
    scanned ss rest (Ok (noErr, Some e, set_record ss (u32 (recordNum ss + 1)) (u32 (recordsFound ss + 1)))).
Proof using HF.
  intros Ha Hl Hn Hrs Hleaf Hi -> Hf Hrec. pose proof (sf_records _ _ _ _ HF).
  destruct (lookup_lt_is_Some_2 rs (Z.to_nat (recordNum ss)) ltac:(lia)) as [r Hr].
  destruct (leaf_record_at node rs _ r Hleaf Hr) as (key & data & len & Hget & Hbytes).
  rewrite Z2Nat.id in Hget by lia. exists (key, data, len). split; [done|].
  pose proof Hleaf as (_ & _ & Hh & _). destruct (node_holds_bounds _ _ _ 0 Hh ltac:(lia)) as (_ & ? & _).
  pose proof (rec_offset_ge rs (length rs)). rewrite (drop_S _ _ _ Hr) in *. simpl in Hrec.
  rewrite !u32_small by lia. cbn [scanned app]. eexists _, _. split; [reflexivity|]. split.
  { pose proof (current_node_at _ _ _ Ha Hl Hn) as Hc. unfold record_of, current_node in *. cbn [bufferPtr currentNodePtr set_record].
    rewrite Hc. exact Hbytes. }
  split; [|cbn; lia]. exists n, node, rs. cbn [recordNum nodesLeftInBuffer set_record].
  split_and!; [by destruct Ha; split|done|done|lia|lia| |by right]. do 2 f_equal. lia.
Qed.

Lemma scan_loop_spec fuel : forall ss n node rs rest, at_node ss n -> nodesLeftInBuffer ss <> 0 -> nodes !! n = Some node ->
  recs !! n = Some rs -> leaf_node bt fcbEOF node rs -> 0 <= recordNum ss <= Z.of_nat (length rs) ->
  rest = drop (Z.to_nat (recordNum ss)) rs ++ concat (drop (S n) recs) ->
  0 <= recordsFound ss -> recordsFound ss + Z.of_nat (length rest) <= leafRecords bt -> (length nodes - n < fuel)%nat ->
  scanned ss rest (scan_loop bt fcbEOF VOP_BMAP bread fuel ss false).
Proof using All.
  induction fuel as [|fuel IH]; intros ss n node rs rest Ha Hl Hn Hrs Hleaf Hi Hrest Hf Hrec Hfuel; [lia|].
  cbn [scan_loop]. rewrite (current_node_at _ _ _ Ha Hl Hn). cbn [mbind outcome_bind].
  destruct (decide (recordNum ss < Z.of_nat (length rs))) as [Hlt|Hge].
  { destruct (record_step ss n node rs rest) as (e & -> & Hres); try done; lia. }
  assert (recordNum ss = Z.of_nat (length rs)) as Hend by lia. rewrite Hend, (leaf_end node rs Hleaf). cbn [mbind outcome_bind].
  rewrite Hend, Nat2Z.id, drop_all in Hrest. simpl in Hrest. change (0 <? fsBTRecordNotFoundErr) with false. cbv iota.
  destruct (Z.leb_spec (leafRecords bt) (recordsFound ss)) as [He|He].
  { destruct rest; [by eexists|simpl in Hrec; lia]. }
  set (ss0 := set_record ss 0 (recordsFound ss)).
  assert (at_node ss0 n) as Ha0 by (by destruct Ha; split).
  pose proof (sf_total _ _ _ _ HF) as Ht. pose proof (an_lt _ _ Ha).
  assert (first_node ss0 n = S n) as Hfirst by (unfold first_node; cbn; destruct (Z.eqb_spec (nodesLeftInBuffer ss) 0); done).
  destruct (FindNextLeafNode_spec (find_fuel bt) ss0 n Ha0 (or_introl eq_refl))
    as [(ss' & m & node' & rs' & -> & Ha' & Hl' & Hn' & Hrs' & Hleaf' & Hm & Hcat & Hr' & Hf' & _)|(ss' & -> & Hcat)].
  { unfold find_measure, find_fuel. rewrite Ht, Nat2Z.id. case_ztest; lia. }
  - cbn [mbind outcome_bind]. change (noErr =? noErr) with true. cbv iota. rewrite Hfirst in *.
    assert (scanned ss' rest (scan_loop bt fcbEOF VOP_BMAP bread fuel ss' false)) as Hres; [|by destruct rest].
    apply (IH ss' m node' rs' rest); try done; rewrite ?Hr', ?Hf'; cbn; try lia.
    by rewrite Hrest, Hcat, (drop_S _ _ _ Hrs').
  - cbn [mbind outcome_bind]. rewrite Hfirst in Hcat. rewrite Hrest, Hcat. by eexists.
Qed.

Lemma BTScanNextRecord_spec ss rest : pending ss rest -> scanned ss rest (BTScanNextRecord bt fcbEOF VOP_BMAP bread ss false).
Proof using All.
  intros [(n & node & rs & Ha & Hn & Hrs & Hi & Hrest & Hleaf) (Hf & Hrec)].
  pose proof (sf_total _ _ _ _ HF) as Ht. pose proof (an_lt _ _ Ha). unfold BTScanNextRecord.
  destruct (Z.eqb_spec (nodesLeftInBuffer ss) 0) as [H0|H0].
  2:{ cbn [mbind outcome_bind]. change (noErr =? noErr) with true. cbv iota. rewrite Ht, Nat2Z.id.
      destruct Hleaf; [done|]. apply (scan_loop_spec _ ss n node rs); try done; lia. }
  assert (first_node ss n = n) as Hfirst by (unfold first_node; by rewrite H0).
  assert (recordNum ss <> 0 -> recs !! n <> Some []) as Hne by (intros ? E; rewrite Hrs in E; injection E as ->; simpl in Hi; lia).
  destruct (FindNextLeafNode_spec (find_fuel bt) ss n Ha)
    as [(ss' & m & node' & rs' & -> & Ha' & Hl' & Hn' & Hrs' & Hleaf' & Hm & Hcat & Hr' & Hf' & Heq)|(ss' & -> & Hcat)].
  { destruct (decide (recordNum ss = 0)); auto. }
  { unfold find_measure, find_fuel. rewrite Ht, Nat2Z.id. case_ztest; lia. }
  - cbn [mbind outcome_bind]. change (noErr =? noErr) with true. cbv iota. rewrite Hfirst in *. rewrite Ht, Nat2Z.id.
    assert (scanned ss' rest (scan_loop bt fcbEOF VOP_BMAP bread (length nodes + 1) ss' false)) as Hres; [|by destruct rest].
    destruct (decide (recordNum ss = 0)) as [Hz|Hnz].
    + apply (scan_loop_spec _ ss' m node' rs'); rewrite ?Hr', ?Hf'; try done; try lia.
      rewrite (drop_S _ _ _ Hrs), (drop_S _ _ _ Hrs') in Hcat. by rewrite Hrest, Hz.
    + rewrite (Heq Hnz) in *. assert (rs' = rs) as -> by congruence.
      apply (scan_loop_spec _ ss' n node' rs); rewrite ?Hr', ?Hf'; try done; lia.
  - cbn [mbind outcome_bind]. rewrite Hfirst, (drop_S _ _ _ Hrs) in Hcat.
    change (rs ++ concat (drop (S n) recs) = []) in Hcat. apply app_eq_nil in Hcat as [-> Hcat].
    rewrite Hrest, Hcat, drop_nil. by eexists.
Qed.

Lemma scan_run_spec k : forall ss rest, pending ss rest ->
  (k <= length rest)%nat /\ (exists ss', scan_run k ss = Ok (take k rest, noErr, ss') /\ pending ss' (drop k rest)) \/
  (length rest < k)%nat /\ exists ss', scan_run k ss = Ok (rest, btNotFound, ss').
Proof using All.
  induction k as [|k IH]; intros ss rest Hp.
  { left. split; [lia|]. exists ss. by destruct rest. }
  cbn [scan_run]. pose proof (BTScanNextRecord_spec ss rest Hp) as Hs. destruct rest as [|r rest]; cbn [scanned] in Hs.
  - destruct Hs as (ss' & ->). right. split; [simpl; lia|]. by exists ss'.
  - destruct Hs as (e & ss' & -> & Hr & Hp'). cbn [mbind outcome_bind]. rewrite Hr. cbn [mbind outcome_bind].
    destruct (IH ss' rest Hp') as [(? & ss1 & -> & ?)|(? & ss1 & ->)]; [left|right]; (split; [simpl; lia|]); by exists ss1.
Qed.

(** A scan that is set up at a position has the records from there on to come. *)
Lemma BTScanInitialize_spec n node rs (i : nat) found size : nodes !! n = Some node -> recs !! n = Some rs -> (i <= length rs)%nat ->
  nodeSize bt <= size < 2 ^ 32 -> 0 <= found ->
  found + Z.of_nat (length (drop i rs ++ concat (drop (S n) recs))) <= leafRecords bt ->
  exists ss, BTScanInitialize (Some bt) (Z.of_nat n) (Z.of_nat i) found size = Ok (inr ss) /\
    pending ss (drop i rs ++ concat (drop (S n) recs)).
Proof using HF.
  intros Hn Hrs Hi Hsize Hf Hrec. pose proof (sf_size _ _ _ _ HF). unfold BTScanInitialize.
  case_ztest; [lia|]. case_ztest; [lia|]. eexists. split; [reflexivity|]. split; [|done].
  exists n, node, rs. cbn. split_and!; [|done|done|lia|lia|by rewrite Nat2Z.id|by left].
  split; cbn; [done|by apply lookup_lt_Some in Hn| |by left].
  exists (size / nodeSize bt). split_and!; [apply Z.div_str_pos; lia|done|].
  pose proof (Z.mul_div_le size (nodeSize bt) ltac:(lia)). lia.
Qed.

(** What [BTScanTerminate] tells is enough to go on with any buffer. *)
Lemma BTScan_resume ss rest size : pending ss rest -> nodeSize bt <= size < 2 ^ 32 ->
  let '(node, record, found, _) := BTScanTerminate ss in
  exists ss', BTScanInitialize (Some bt) node record found size = Ok (inr ss') /\ pending ss' rest.
Proof using HF.
  intros [(n & node & rs & Ha & Hn & Hrs & Hi & -> & _) (Hf & Hrec)] Hsize. cbn.
  rewrite (an_num _ _ Ha). replace (recordNum ss) with (Z.of_nat (Z.to_nat (recordNum ss))) by lia.
  rewrite Nat2Z.id. apply (BTScanInitialize_spec n node); done || lia.
Qed.
End scan.

(** C13: a scan from the start gives the records of all valid leaf nodes, in the order of the
    nodes in the file and each once, and then reports that there are no more: whatever the
    runs of blocks on disk and the size of the buffer.  It may be terminated after any
    number of records and resumed with another buffer, and goes on with the next record. *)
Theorem BTScan_correct bt fcbEOF nodes recs VOP_BMAP bread `{!ScanDevice (nodeSize bt) nodes VOP_BMAP bread} size size' (k : nat) :
  scan_file bt fcbEOF nodes recs -> nodeSize bt <= size < 2 ^ 32 -> nodeSize bt <= size' < 2 ^ 32 ->
  (k <= length (concat recs))%nat ->
  exists ss ss1, BTScanInitialize (Some bt) 0 0 0 size = Ok (inr ss) /\
    scan_run bt fcbEOF VOP_BMAP bread k ss = Ok (take k (concat recs), noErr, ss1) /\
    let '(node, record, found, _) := BTScanTerminate ss1 in
    exists ss2 ss3, BTScanInitialize (Some bt) node record found size' = Ok (inr ss2) /\
      scan_run bt fcbEOF VOP_BMAP bread (S (length (concat recs))) ss2 = Ok (drop k (concat recs), btNotFound, ss3).
Proof.
  intros HF Hsize Hsize' Hk. pose proof (sf_total _ _ _ _ HF). pose proof (sf_nodes _ _ _ _ HF).
  destruct (node_scans bt fcbEOF nodes recs HF 0) as (node & rs & Hn & Hrs & _); [lia|].
  assert (concat recs = drop 0 rs ++ concat (drop 1 recs)) as Hall by (destruct recs; [done|by injection Hrs as ->]).
  destruct (BTScanInitialize_spec bt fcbEOF nodes recs HF 0 node rs 0 0 size Hn Hrs) as (ss & Hini & Hp); try lia.
  { rewrite <- Hall. pose proof (sf_records _ _ _ _ HF). lia. }
  rewrite <- Hall in Hp. exists ss.
  destruct (scan_run_spec bt fcbEOF nodes recs VOP_BMAP bread HF k ss _ Hp) as [(_ & ss1 & Hrun & Hp1)|[? _]]; [|lia].
  exists ss1. split_and!; [done..|].
  pose proof (BTScan_resume bt fcbEOF nodes recs HF ss1 _ size' Hp1 Hsize') as Hres.
  destruct (BTScanTerminate ss1) as [[[n' i'] f'] ?]. destruct Hres as (ss2 & Hini2 & Hp2). exists ss2.
  destruct (scan_run_spec bt fcbEOF nodes recs VOP_BMAP bread HF (S (length (concat recs))) ss2 _ Hp2)
    as [(Hlen & _)|(_ & ss3 & Hrun3)]; [rewrite length_drop in Hlen; lia|]. by exists ss3.
Qed.

(** ** An image in memory *)

(** A device whose blocks are the nodes, with runs of any lengths. *)
Definition image_bmap (run : Z -> Z) (n : Z) : Z + Z * Z := inr (n, run n).
Definition image_read (size : Z) (image : buffer) (block n : Z) : Z + buffer := inr (slice image (block * size) n).

Lemma slice_concat size (nodes : list buffer) n node : 0 <= size -> Forall (fun b => Z.of_nat (length b) = size) nodes ->
  nodes !! n = Some node -> slice (concat nodes) (Z.of_nat n * size) size = node.
Proof.
  intros Hs HF. revert n. induction HF as [|b l Hb _ IH]; intros n Hn; [done|]. destruct n as [|n].
  - injection Hn as ->. by apply slice_app_l.
  - rewrite <- (IH n Hn). unfold slice. cbn [concat]. rewrite drop_app_ge by lia. do 2 f_equal. lia.
Qed.

Lemma length_concat_nodes size (nodes : list buffer) : Forall (fun b => Z.of_nat (length b) = size) nodes ->
  Z.of_nat (length (concat nodes)) = Z.of_nat (length nodes) * size.
Proof. induction 1 as [|b l Hb _ IH]; [done|]. cbn [concat length]. rewrite length_app. lia. Qed.

Lemma image_device size run nodes : 0 < size -> Forall (fun b => Z.of_nat (length b) = size) nodes ->
  Z.of_nat (length nodes) < 2 ^ 31 ->
  (forall n, 0 <= n < Z.of_nat (length nodes) -> 0 <= run n /\ n + run n < Z.of_nat (length nodes)) ->
  ScanDevice size nodes (image_bmap run) (image_read size (concat nodes)).
Proof.
  intros Hs HF Hlen Hrun. split. intros n Hn. exists (Z.of_nat n), (run (Z.of_nat n)). split; [done|].
  destruct (Hrun (Z.of_nat n) ltac:(lia)) as [??]. split; [lia|]. intros k Hk. eexists. split; [reflexivity|].
  pose proof (length_concat_nodes size nodes HF) as Hc. split; [rewrite slice_length; nia|].
  intros j node Hj Hnode. rewrite slice_slice by nia. rewrite <- (slice_concat size nodes _ node ltac:(lia) HF Hnode). f_equal. lia.
Qed.

(** A file of an empty node, an index node and two leaves, in two runs on disk. *)
Definition scan_nodes : list buffer :=
  [replicate 512 0; make_node 512 0 0 0 2 index_recs; make_node 512 3 0 255 1 (leaf_recs 97); make_node 512 0 2 255 1 (leaf_recs 103)].
Definition scan_records : list (list buffer) := [[]; []; leaf_recs 97; leaf_recs 103].
Definition scan_runs (n : Z) : Z := if n <? 2 then 1 - n else 3 - n.

Lemma scan_file_sample : scan_file two_bt 2048 scan_nodes scan_records.
Proof.
  split; [reflexivity|vm_compute; split; congruence..| |vm_compute; split; congruence].
  unfold scan_nodes, scan_records. rewrite !Forall2_cons. split_and!; [..|by constructor]; (split; [reflexivity|]).
  - right. split; [|done]. exists fsBTInvalidNodeErr. split; [vm_compute; reflexivity|by left].
  - right. split; [|done]. exists noErr. split; [vm_compute; reflexivity|]. right. exists 0. by split; [vm_compute; reflexivity|].
  - left. split_and!; [vm_compute; reflexivity..|apply holds_two; vm_compute; reflexivity|].
    apply (bool_decide_unpack _). vm_compute. exact I.
  - left. split_and!; [vm_compute; reflexivity..|apply holds_two; vm_compute; reflexivity|].
    apply (bool_decide_unpack _). vm_compute. exact I.
Qed.

Lemma scan_device_sample : ScanDevice (nodeSize two_bt) scan_nodes (image_bmap scan_runs) (image_read 512 (concat scan_nodes)).
Proof.
  apply (image_device 512 scan_runs scan_nodes); [lia|apply (bool_decide_unpack _); vm_compute; exact I|vm_compute; reflexivity|].
  intros n Hn. change (Z.of_nat (length scan_nodes)) with 4 in *. unfold scan_runs. case_ztest; lia.
Qed.

Lemma BTScan_witness :
  exists ss ss1, BTScanInitialize (Some two_bt) 0 0 0 1536 = Ok (inr ss) /\
    scan_run two_bt 2048 (image_bmap scan_runs) (image_read 512 (concat scan_nodes)) 3 ss = Ok (leaf_recs 97 ++ [sample_key 103 ++ [1; 2; 3; 4]], noErr, ss1) /\
    let '(node, record, found, _) := BTScanTerminate ss1 in
    exists ss2 ss3, BTScanInitialize (Some two_bt) node record found 512 = Ok (inr ss2) /\
      scan_run two_bt 2048 (image_bmap scan_runs) (image_read 512 (concat scan_nodes)) 5 ss2 = Ok ([sample_key 105 ++ [5; 6; 7; 8]], btNotFound, ss3).
Proof.
  apply (BTScan_correct two_bt 2048 scan_nodes scan_records (image_bmap scan_runs) (image_read 512 (concat scan_nodes))
    (ScanDevice0 := scan_device_sample) 1536 512 3 scan_file_sample); [vm_compute; split; congruence..|simpl; lia].
Defined.
