(* ===== verification/ExtentRecords.v ===== *)
(** * The records of the extents file

    The routines of hfsplus/hfscommon/Misc/FileExtentMapping.c that read and write the
    extents B-tree, on top of the B-tree manager (BTreeFile.v): they implement the
    interface [ExtentsFile] of ExtentMapping.v.  The file is that of HFS Plus or of HFS,
    whose keys and records have shorter fields; the structures are laid out as in
    hfsplus/hfs_format.h (packed to two bytes). *)
From S2P Require Import Prelude Bits VolumeBitmap VolumeAllocation ExtentMapping.
From S2P Require Import Bytes UnicodeCompare BTreeNode BTreeKeys BTreeNodeTheorems BTreeBlocks BTreeMap.
From S2P Require Import BTreeMapTheorems BTreeMisc BTreeTree BTreeFile.

(** ** Keys and records as bytes *)

Definition kMaxKeyLength : Z := 520.

(** [HFSExtentKey] and [HFSPlusExtentKey] *)
Definition extent_key_bytes (hfs : bool) (forkType fileID startBlock : Z) : buffer :=
  if hfs then [kHFSExtentKeyMaximumLength; u8 forkType] ++ le_encode 4 (u32 fileID) ++ le_encode 2 (u16 startBlock)
  else le_encode 2 kHFSPlusExtentKeyMaximumLength ++ [u8 forkType; 0] ++ le_encode 4 (u32 fileID) ++ le_encode 4 (u32 startBlock).

(** The whole key, with its length and pad. *)
Definition key_bytes (key : HFSPlusExtentKey) : buffer :=
  le_encode 2 (u16 (xk_keyLength key)) ++ [u8 (xk_forkType key); u8 (xk_pad key)] ++ le_encode 4 (u32 (xk_fileID key)) ++
  le_encode 4 (u32 (xk_startBlock key)).

(** A key of the tree, as the caller gets it. *)
Definition found_key (hfs : bool) (key : buffer) : outcome HFSPlusExtentKey :=
  if hfs then
    fork ← load8 key 1; id ← load32 key 2; start ← load16 key 6;
    Ok (mkExtentKey kHFSPlusExtentKeyMaximumLength fork 0 id start)
  else
    len ← load16 key 0; fork ← load8 key 2; pad ← load8 key 3; id ← load32 key 4; start ← load32 key 8;
    Ok (mkExtentKey len fork pad id start).

(** Descriptors of [w]-byte fields. *)
Definition extent_bytes (w : nat) (d : extents) : buffer :=
  concat (map (fun e => le_encode w (wrap (8 * Z.of_nat w) (startBlock e)) ++ le_encode w (wrap (8 * Z.of_nat w) (blockCount e))) d).

Fixpoint read_extents (w n : nat) (b : buffer) : extents :=
  match n with
  | O => []
  | S n => Ext (le_decode (take w b)) (le_decode (take w (drop w b))) :: read_extents w n (drop (2 * w) b)
  end.

(** [HFSToHFSPlusExtents], with the reading of the three descriptors *)
Definition HFSToHFSPlusExtents (b : buffer) : extents := read_extents 2 3 b ++ replicate 5 ext0.

(** [HFSPlusToHFSExtents]: the three descriptors, and an error if there is a fourth. *)
Definition HFSPlusToHFSExtents (d : extents) : Z * buffer :=
  let e := ext_at d 3 in
  (if negb (startBlock e =? 0) || negb (blockCount e =? 0) then fsDSIntErr else noErr, extent_bytes 2 (take 3 d)).

Definition record_size (hfs : bool) : Z := if hfs then 12 else 64.
Definition found_data (hfs : bool) (b : buffer) : extents := if hfs then HFSToHFSPlusExtents b else read_extents 4 8 b.

(** The iterator, allocated and cleared. *)
Definition zero_iterator (key : buffer) (hint : Z) : BTreeIterator :=
  mkIterator (mkHint 0 hint 0 0 0) 0 0 0 0 (splice (replicate (Z.to_nat (kMaxKeyLength + 2)) 0) 0 key).

(** ** The volume

    The state of the agent has the volume control block, but for its flags, which the
    B-tree manager sets itself, and the flag [C_MODIFIED] of the cnode of the file. *)
Class VolumeAgent (W : Type) := {
  world_vcb : W -> ExtendedVCB;
  world_set_vcb : W -> ExtendedVCB -> W;
  extents_modified : W -> bool
}.

Section records.
Context {W : Type} `{!FSAgent W, !ForkAgent W, !VolumeAgent W}.
(** What the stack holds where the path table and the record are put. *)
Context (stack : TreePathTable) (junk : buffer).

Definition volume_vcb (f : FCB W) : ExtendedVCB := set_flags (fcb_vcbFlags f) (world_vcb (fcb_agent f)).
Definition set_volume (f : FCB W) (v : ExtendedVCB) : FCB W :=
  mkFCB (fcbBTCBPtr f) (lastfsync f) (VolumeBitmap.vcbFlags v) (world_set_vcb (fcb_agent f) v).
Definition is_hfs (f : FCB W) : bool := vcbSigWord (volume_vcb f) =? kHFSSigWord.

(** The comparison that the file was opened with. *)
Definition extents_compare (hfs : bool) : buffer -> buffer -> outcome Z :=
  if hfs then CompareExtentKeys else CompareExtentKeysPlus.

(** The record before the one searched for, if it belongs to the same fork. *)
Definition previous_record (f : FCB W) (hfs : bool) (forkType fileID : Z) (it : BTreeIterator) (btRecord : FSBufferDescriptor)
    (recordLen : option Z) : outcome (Z * BTreeIterator * FSBufferDescriptor * FCB W) :=
  '(err, it, btRecord, _, f) ← BTIterateRecord (extents_compare hfs) stack f kBTreePrevRecord (Some it) (Some btRecord) recordLen;
  it ← of_option it;
  btRecord ← of_option btRecord;
  let err := s16 err in
  let err := if err =? fsBTStartOfIterationErr then btNotFound else err in
  if negb (err =? noErr) then Ok (err, it, btRecord, f)
  else
    key ← found_key hfs (it_key it);
    Ok (if negb (xk_fileID key =? u32 fileID) || negb (xk_forkType key =? u8 forkType) then btNotFound else noErr, it, btRecord, f).

(** The error, the key and data found, and the hint. *)
Definition FindExtentRecord (f : FCB W) (forkType fileID startBlock : Z) (allowPrevious : bool)
    : outcome (Z * option (HFSPlusExtentKey * extents) * Z * FCB W) :=
  let hfs := is_hfs f in
  let it := zero_iterator (extent_key_bytes hfs forkType fileID startBlock) 0 in
  let btRecord := mkBuffer (take (Z.to_nat (record_size hfs)) junk) (record_size hfs) 1 in
  '(err, io, f) ← BTSearchRecord (extents_compare hfs) stack f (mkSearchIO it (Some btRecord) (Some 0) (Some it));
  it ← of_option (io_result io);
  btRecord ← of_option (io_record io);
  '(err, it, btRecord, f) ←
    (if (s16 err =? btNotFound) && allowPrevious then previous_record f hfs forkType fileID it btRecord (io_recordLen io)
     else Ok (s16 err, it, btRecord, f));
  found ← (if err =? noErr then
             key ← found_key hfs (it_key it);
             Ok (Some (key, found_data hfs (bufferAddress btRecord)))
           else Ok None);
  Ok (err, found, hint_nodeNum (it_hint it), f).

(** The error and the hint. *)
Definition CreateExtentRecord (f : FCB W) (key : HFSPlusExtentKey) (d : extents) : outcome (Z * Z * FCB W) :=
  let hfs := is_hfs f in
  '(err, f) ← BTCheckFreeSpace f;
  if negb (s16 err =? noErr) then Ok (s16 err, 0, f)
  else
    let bytes := if hfs then extent_key_bytes true (xk_forkType key) (xk_fileID key) (xk_startBlock key) else key_bytes key in
    let it := zero_iterator bytes 0 in
    let '(err, data) := if hfs then HFSPlusToHFSExtents d else (noErr, extent_bytes 4 d) in
    '(err, it, f) ← (if err =? noErr then
                       '(err, it, f) ← BTInsertRecord (extents_compare hfs) stack f it data (record_size hfs);
                       Ok (s16 err, it, f)
                     else Ok (err, it, f));
    '(_, f) ← BTFlushPath f;
    Ok (err, if err =? noErr then hint_nodeNum (it_hint it) else 0, f).

Definition DeleteExtentRecord (f : FCB W) (forkType fileID startBlock : Z) : outcome (Z * FCB W) :=
  let hfs := is_hfs f in
  '(err, f) ← BTCheckFreeSpace f;
  if negb (s16 err =? noErr) then Ok (s16 err, f)
  else
    let it := zero_iterator (extent_key_bytes hfs forkType fileID startBlock) 0 in
    '(err, _, f) ← BTDeleteRecord (extents_compare hfs) stack f it;
    '(_, f) ← BTFlushPath f;
    Ok (s16 err, f).

(** [UpdateExtentRecord] of a record that is not the one of the fork: it is searched for
    and replaced. *)
Definition update_extent_record (f : FCB W) (key : HFSPlusExtentKey) (d : extents) (extentBTreeHint : Z) : outcome (Z * FCB W) :=
  let hfs := is_hfs f in
  '(err, f) ← BTCheckFreeSpace f;
  if negb (s16 err =? noErr) then Ok (s16 err, f)
  else
    let bytes := if hfs then extent_key_bytes true (xk_forkType key) (xk_fileID key) (xk_startBlock key) else key_bytes key in
    let it := zero_iterator bytes extentBTreeHint in
    let btRecord := mkBuffer (take (Z.to_nat (record_size hfs)) junk) (record_size hfs) 1 in
    '(err, io, f) ← BTSearchRecord (extents_compare hfs) stack f (mkSearchIO it (Some btRecord) (Some 0) (Some it));
    it ← of_option (io_result io);
    recordLen ← of_option (io_recordLen io);
    let '(err', data) := if hfs then HFSPlusToHFSExtents d else (noErr, extent_bytes 4 d) in
    let err := if s16 err =? noErr then err' else s16 err in
    '(err, f) ← (if err =? noErr then
                   '(err, _, f) ← BTReplaceRecord (extents_compare hfs) stack f it data recordLen;
                   Ok (s16 err, f)
                 else Ok (err, f));
    '(_, f) ← BTFlushPath f;
    Ok (err, f).

#[export] Instance btree_extents : ExtentsFile (FCB W) := {
  xf_vcb := volume_vcb;
  xf_set := set_volume;
  xf_find := FindExtentRecord;
  xf_create := CreateExtentRecord;
  xf_delete := DeleteExtentRecord;
  xf_update := update_extent_record;
  xf_flush f := '(err, f) ← BTFlushPath f; Ok (s16 err, f);
  xf_modified f := extents_modified (fcb_agent f)
}.
End records.
