(* ===== verification/ExtentTree.v ===== *)
(** * The extents B-tree keeps the records of the forks

    The records of the extents file stand for a map from file, fork and first block to
    extents.  [FindExtentRecord] of ExtentRecords.v reads that map: with it the routines
    that map positions of a file (ExtentTheorems.v) run on the B-tree. *)
From S2P Require Import Prelude Bits VolumeBitmap VolumeAllocation AllocationTheorems ExtentMapping ExtentTheorems.
From S2P Require Import Bytes UnicodeCompare BTreeNode BTreeKeys BTreeNodeTheorems BTreeBlocks BTreeMap.
From S2P Require Import BTreeMapTheorems BTreeMisc BTreeTree BTreeSearch BTreeRotate BTreeInsert BTreeFile BTreeFileTheorems.
From S2P Require Import BTreeIterate ExtentRecords.

(** ** A file has one list of leaves *)

Section file.
Context {W : Type} `{!FSAgent W} (size : Z) (contents : W -> Z -> buffer).
Context (P : buffer -> Prop) (rank : buffer -> list Z).

Lemma tree_at_unique s l n leaves1 : tree_at size contents P rank s l n leaves1 ->
  forall leaves2, tree_at size contents P rank s l n leaves2 -> leaves1 = leaves2.
Proof.
  induction 1 as [n recs Hn|l n recs parts Hl Hn Hne Hlen Hix Hsub IH Hlo Hhi]; intros leaves2 H2.
  - inversion H2 as [? recs2 Hn2|]; subst; [|lia].
    by rewrite (node_holds_inj size recs recs2 _ (no_holds _ _ _ _ _ _ _ _ _ Hn) (no_holds _ _ _ _ _ _ _ _ _ Hn2)).
  - inversion H2 as [|? ? recs2 parts2 Hl2 Hn2 Hne2 Hlen2 Hix2 Hsub2 Hlo2 Hhi2]; subst; [lia|].
    pose proof (node_holds_inj size recs recs2 _ (no_holds _ _ _ _ _ _ _ _ _ Hn) (no_holds _ _ _ _ _ _ _ _ _ Hn2)). subst recs2.
    f_equal. apply list_eq. intros i. destruct (parts !! i) as [p|] eqn:Hp; symmetry.
    + pose proof (lookup_lt_Some _ _ _ Hp). destruct (lookup_lt_is_Some_2 parts2 i ltac:(lia)) as [p2 Hp2].
      destruct (lookup_lt_is_Some_2 recs i ltac:(lia)) as [r Hr]. rewrite Hp2. f_equal. symmetry.
      apply (IH i r p Hr Hp). by apply (Hsub2 i r).
    + apply lookup_ge_None in Hp. apply lookup_ge_None. lia.
Qed.

(** ** The part of the agent that a file depends on *)

(** The blocks of the file and its control block are the same. *)
Definition same_file (s s' : fs W) : Prop :=
  same_tree (btree s) (btree s') /\ fcbEOF (agent s') = fcbEOF (agent s) /\
  forall n, 0 <= n -> contents (agent s') n = contents (agent s) n.

Lemma readable_file s s' n : same_file s s' -> readable size contents s n -> readable size contents s' n.
Proof.
  intros (Ht & HE & HC) (Hn & ? & ?). unfold readable. destruct (same_tree_fields _ _ Ht) as (_ & -> & _).
  rewrite HE, HC, (CheckNode_same _ _ _ _ Ht) by lia. done.
Qed.

Lemma tree_at_file s s' l n leaves : same_file s s' -> tree_at size contents P rank s l n leaves -> tree_at size contents P rank s' l n leaves.
Proof.
  intros Hs. pose proof Hs as (Ht & _ & HC).
  assert (forall l k n recs, node_ok size contents P rank s l k n recs -> node_ok size contents P rank s' l k n recs) as Hok.
  { intros l' k n' recs []. pose proof no_read as (Hr & _). split; rewrite ?HC by lia; try done. by apply (readable_file s). }
  induction 1 as [n recs Hn|l n recs parts Hl Hn Hne Hlen Hix _ IH Hlo Hhi].
  - constructor. by apply Hok.
  - econstructor; try done; [by apply Hok| |].
    + eapply Forall_impl; [exact Hix|]. intros. by apply (index_record_same (btree s)).
    + intros i r lv Hr Hp. rewrite (child_of_same (btree s)) by done. by apply (IH i r).
Qed.

Lemma tree_file_file s s' depth leaves : same_file s s' -> tree_file size contents P rank s depth leaves ->
  tree_file size contents P rank s' depth leaves.
Proof.
  intros Hs HF. pose proof HF as [Htree Hd Hr Hn Hg Hz Hl Hf Hc]. pose proof Hs as (Ht & HE & HC).
  pose proof Ht as (? & ? & ? & ? & ? & ? & ? & ? & E).
  assert (rootNode (btree s') = rootNode (btree s) /\ treeDepth (btree s') = treeDepth (btree s) /\ nodeSize (btree s') = nodeSize (btree s) /\
    firstLeafNode (btree s') = firstLeafNode (btree s) /\ leafRecords (btree s') = leafRecords (btree s)) as (E1 & E2 & E5 & E3 & E4)
    by (rewrite E; done).
  split; rewrite ?E1, ?E2, ?E3, ?E4; try done.
  - by apply (tree_at_file s).
  - destruct Hg as (? & ? & ? & ?). unfold geometry. by rewrite HE, E5.
  - intros i m recs Hi. destruct (Hl i m recs Hi) as [? Hok ? ? ?].
    destruct (file_node size contents P rank s depth leaves i m recs HF Hi) as ([_ (Hm & _) _ _ _ _ _] & _).
    split; rewrite ?HC by lia; try done. eapply Forall_impl; [exact Hok|]. intros r. by apply rec_ok_same.
Qed.

Lemma same_fs_file s s' : same_fs contents s s' -> same_file s s'.
Proof. intros (? & _ & ? & ?). split_and!; auto. Qed.

Lemma hint_ok_file s s' leaves h : same_file s s' -> 0 <= h -> hint_ok size contents s leaves h -> hint_ok size contents s' leaves h.
Proof.
  intros Hs Hh [H|[H|(Hr & Hl & Hk)]]; pose proof Hs as (Ht & _ & HC); destruct (same_tree_fields _ _ Ht) as (_ & E & _); unfold hint_ok.
  - left. by rewrite E.
  - by right; left.
  - right. right. rewrite HC by done. split_and!; [by apply (readable_file s)|done|done].
Qed.
End file.

(** ** Records as bytes *)

Definition extent_record (id fork st : Z) (d : extents) : buffer := extent_key_bytes false fork id st ++ extent_bytes 4 d.

Definition key_range (id fork st : Z) : Prop := 0 <= id < 2 ^ 32 /\ 0 <= fork < 256 /\ 0 <= st < 2 ^ 32.

Lemma le_decode_u32 v : 0 <= v < 2 ^ 32 -> le_decode (le_encode 4 (u32 v)) = v.
Proof. intros Hv. rewrite u32_small by done. rewrite le_decode_encode. by apply Z.mod_small. Qed.

Lemma extent_key_fields id fork st rest : key_range id fork st ->
  let k := extent_key_bytes false fork id st ++ rest in
  extent_rank_plus k = [id; fork; st] /\ found_key false k = Ok (mkExtentKey kHFSPlusExtentKeyMaximumLength fork 0 id st).
Proof.
  intros (Hid & Hf & Hst) k.
  assert (field k 4 4 = id) as E1 by (transitivity (le_decode (le_encode 4 (u32 id))); [reflexivity|by apply le_decode_u32]).
  assert (field k 8 4 = st) as E2 by (transitivity (le_decode (le_encode 4 (u32 st))); [reflexivity|by apply le_decode_u32]).
  assert (field k 2 1 = fork) as E3.
  { transitivity (le_decode [u8 fork]); [reflexivity|]. simpl. rewrite u8_small; lia. }
  assert (12 <= Z.of_nat (length k)) as Hl by (unfold k; rewrite length_app; simpl; lia).
  split; [by unfold extent_rank_plus; rewrite E1, E2, E3|]. unfold found_key.
  rewrite load16_own, !load8_own, !load32_own by lia. cbn [mbind outcome_bind]. rewrite E1, E2, E3. reflexivity.
Qed.

Lemma extent_bytes_length w d : length (extent_bytes w d) = (2 * w * length d)%nat.
Proof.
  unfold extent_bytes. induction d as [|e d IH]; simpl; [lia|]. rewrite !length_app, !le_encode_length, IH. lia.
Qed.

Lemma extent_bytes_byte w d : Forall byte (extent_bytes w d).
Proof.
  unfold extent_bytes. induction d as [|e d IH]; simpl; [constructor|]. rewrite !Forall_app. split_and!; [apply le_encode_bytes..|done].
Qed.

Lemma read_extents_bytes d rest : Forall (fun e => 0 <= startBlock e < 2 ^ 32 /\ 0 <= blockCount e < 2 ^ 32) d ->
  read_extents 4 (length d) (extent_bytes 4 d ++ rest) = d.
Proof.
  induction 1 as [|e d (Hs & Hb) Hd IH]; [done|]. cbn [length read_extents]. f_equal.
  - destruct e as [s c]. cbn [startBlock blockCount] in *. change (extent_bytes 4 (Ext s c :: d)) with
      ((le_encode 4 (u32 s) ++ le_encode 4 (u32 c)) ++ extent_bytes 4 d). f_equal.
    + transitivity (le_decode (le_encode 4 (u32 s))); [reflexivity|by apply le_decode_u32].
    + transitivity (le_decode (le_encode 4 (u32 c))); [reflexivity|by apply le_decode_u32].
  - exact IH.
Qed.

(** A record in a tree with 16-bit key lengths: its key, its data and its order. *)
Lemma extent_record_parts bt id fork st d : big_keys bt = true -> key_range id fork st -> record_ok d ->
  let r := extent_record id fork st d in
  key_size_at bt r 0 = 12 /\ key_of bt r = extent_key_bytes false fork id st /\ data_of bt r = extent_bytes 4 d /\
  extent_rank_plus r = [id; fork; st].
Proof.
  intros Hbig Hk [Hd _] r.
  assert (key_size_at bt r 0 = 12) as Hsz by (unfold key_size_at, size_of_length; rewrite Hbig; reflexivity).
  split; [done|]. split; [unfold key_of; rewrite Hsz; reflexivity|]. split; [|by apply extent_key_fields].
  unfold data_of, pointer_pos. rewrite Hsz. reflexivity.
Qed.

(** The data of a record in a buffer of its size. *)
Lemma found_data_copied bt id fork st d junk (d' : FSBufferDescriptor) : big_keys bt = true -> key_range id fork st -> record_ok d ->
  record_copied bt (extent_record id fork st d) (mkBuffer junk 64 1) d' -> read_extents 4 8 (bufferAddress d') = d.
Proof.
  intros Hbig Hk Hd (Hsl & _). destruct (extent_record_parts bt id fork st d Hbig Hk Hd) as (_ & _ & E & _). rewrite E in Hsl.
  destruct Hd as [Hlen Hr]. rewrite extent_bytes_length, Hlen in Hsl. cbn [itemCount itemSize] in Hsl. change (Z.min (u32 (1 * 64)) (Z.of_nat (2 * 4 * 8))) with 64 in Hsl.
  rewrite (slice_all (extent_bytes 4 d)) in Hsl by (rewrite extent_bytes_length, Hlen; reflexivity).
  rewrite <- (take_drop 64 (bufferAddress d')). change (take 64 (bufferAddress d')) with (slice (bufferAddress d') 0 64). rewrite Hsl.
  rewrite <- Hlen. by apply read_extents_bytes.
Qed.

(** ** The map of the records *)

(** The volume control block is part of the agent, apart from the blocks of the file: the
    block -1, which is no node, stands for it, so that what changes no other block does not
    change the volume. *)
Class VolumeAgentLaws (W : Type) `{!FSAgent W, !VolumeAgent W} (contents : W -> Z -> buffer) : Prop := {
  va_get w v : world_vcb (world_set_vcb w v) = v;
  va_contents w v n : 0 <= n -> contents (world_set_vcb w v) n = contents w n;
  va_eof w v : fcbEOF (world_set_vcb w v) = fcbEOF w;
  va_ghost w w' : contents w (-1) = contents w' (-1) -> world_vcb w = world_vcb w'
}.

Record holds_extents (m : gmap (Z * Z * Z) extents) (L : list buffer) : Prop := {
  he_record r : r ∈ L -> exists id fork st d, r = extent_record id fork st d /\ key_range id fork st /\ record_ok d /\
    m !! (id, fork, st) = Some d;
  he_key id fork st d : m !! (id, fork, st) = Some d ->
    key_range id fork st /\ record_ok d /\ extent_record id fork st d ∈ L
}.

(** The last of the records before a key is the largest of them. *)
Lemma previous_max rank key L r x : StronglySorted (fun a b => lex_cmp (rank a) (rank b) = -1) L ->
  previous rank key L = Some r -> x ∈ L -> before rank key x -> lex_cmp (rank x) (rank r) <= 0.
Proof.
  intros Hs Hp Hx Hb. unfold previous in Hp. rewrite last_lookup in Hp.
  assert (x ∈ filter (before rank key) L) as Hxf by (apply list_elem_of_filter; done).
  assert (StronglySorted (fun a b => lex_cmp (rank a) (rank b) = -1) (filter (before rank key) L)) as Hsf.
  { clear -Hs. induction Hs as [|a l Hs IH Ha]; [constructor|]. rewrite filter_cons. case_decide; [|done]. constructor; [done|].
    rewrite Forall_forall in Ha |- *. intros y [_ Hy]%list_elem_of_filter. by apply Ha. }
  apply list_elem_of_lookup in Hxf as [i Hi]. apply keys_sorted_strongly in Hsf.
  pose proof (lookup_lt_Some _ _ _ Hi). destruct (decide (i = pred (length (filter (before rank key) L)))) as [->|Hne].
  - rewrite Hp in Hi. injection Hi as <-. by rewrite lex_cmp_refl.
  - assert (i < pred (length (filter (before rank key) L)))%nat as Hlt by lia. rewrite (Hsf i _ x r Hlt Hi Hp). lia.
Qed.

Lemma previous_elem rank key L r : previous rank key L = Some r -> r ∈ L /\ before rank key r.
Proof. intros H%last_Some_elem_of%list_elem_of_filter. tauto. Qed.

Lemma previous_none rank key L x : previous rank key L = None -> x ∈ L -> ~ before rank key x.
Proof.
  intros H%last_None Hx Hb. assert (x ∈ filter (before rank key) L) as Hf by (apply list_elem_of_filter; done).
  rewrite H in Hf. by apply not_elem_of_nil in Hf.
Qed.

(** Order of two keys. *)
Lemma lex3 a b c a' b' c' : lex_cmp [a; b; c] [a'; b'; c'] =
  if a =? a' then if b =? b' then if c =? c' then 0 else if c' <? c then 1 else -1
  else if b' <? b then 1 else -1 else if a' <? a then 1 else -1.
Proof. rewrite <- sgn_lex3. case_ztests; reflexivity. Qed.

(** What the record before the key tells about the fork. *)
Lemma find_previous m L key id fork b : holds_extents m L ->
  StronglySorted (fun a b => lex_cmp (extent_rank_plus a) (extent_rank_plus b) = -1) L -> extent_rank_plus key = [id; fork; b] ->
  m !! (id, fork, b) = None ->
  match previous extent_rank_plus key L with
  | None => forall s d, m !! (id, fork, s) = Some d -> ~ s <= b
  | Some r => exists id' fork' s d, r = extent_record id' fork' s d /\ key_range id' fork' s /\ record_ok d /\ m !! (id', fork', s) = Some d /\
      ((id', fork') = (id, fork) -> s <= b /\ forall s' d', m !! (id, fork, s') = Some d' -> s' <= b -> s' <= s) /\
      ((id', fork') <> (id, fork) -> forall s' d', m !! (id, fork, s') = Some d' -> ~ s' <= b)
  end.
Proof.
  intros [Hrec Hkey] Hs Hk Hno.
  assert (forall s d, m !! (id, fork, s) = Some d -> s <= b -> extent_record id fork s d ∈ L /\
    extent_rank_plus (extent_record id fork s d) = [id; fork; s] /\ before extent_rank_plus key (extent_record id fork s d)) as Hbef.
  { intros s d Hm Hsb. destruct (Hkey _ _ _ _ Hm) as (Hr & Hok & Hin). destruct (extent_key_fields id fork s (extent_bytes 4 d) Hr) as [E _].
    fold (extent_record id fork s d) in E. split_and!; [done|done|]. unfold before. rewrite Hk, E, lex3, !Z.eqb_refl.
    destruct (Z.eqb_spec b s) as [->|]; [congruence|]. by rewrite (proj2 (Z.ltb_lt _ _)) by lia. }
  destruct (previous extent_rank_plus key L) as [r|] eqn:Hp.
  - destruct (previous_elem _ _ _ _ Hp) as [Hin Hb]. destruct (Hrec r Hin) as (id' & fork' & s & d & -> & Hr & Hok & Hm).
    destruct (extent_key_fields id' fork' s (extent_bytes 4 d) Hr) as [E _]. fold (extent_record id' fork' s d) in E.
    exists id', fork', s, d. split_and!; try done.
    + intros [= -> ->]. unfold before in Hb. rewrite Hk, E, lex3, !Z.eqb_refl in Hb. split.
      { destruct (Z.eqb_spec b s); [lia|]. destruct (Z.ltb_spec s b); lia. }
      intros s' d' Hm' Hs'. destruct (Hbef s' d' Hm' Hs') as (Hin' & E' & Hb').
      pose proof (previous_max _ _ _ _ _ Hs Hp Hin' Hb') as Hmax. rewrite E, E', lex3, !Z.eqb_refl in Hmax.
      destruct (Z.eqb_spec s' s); [lia|]. destruct (Z.ltb_spec s s'); lia.
    + intros Hne s' d' Hm' Hs'. destruct (Hbef s' d' Hm' Hs') as (Hin' & E' & Hb').
      pose proof (previous_max _ _ _ _ _ Hs Hp Hin' Hb') as Hmax. unfold before in Hb. rewrite E, E', lex3 in Hmax. rewrite Hk, E, lex3 in Hb.
      apply Hne. destruct (Z.eqb_spec id id') as [->|]; destruct (Z.eqb_spec fork fork') as [->|]; try done; exfalso;
        repeat case_match; rewrite ?Z.ltb_lt, ?Z.ltb_ge in *; lia.
  - intros s d Hm Hsb. destruct (Hbef s d Hm Hsb) as (Hin & _ & Hb). by apply (previous_none _ _ _ _ Hp Hin).
Qed.

(** ** Finding records *)

Lemma option_forall2_some {A B} (R : A -> B -> Prop) x o : option_Forall2 R (Some x) o -> exists y, o = Some y /\ R x y.
Proof. inversion 1; eauto. Qed.

Section volume.
Context {W : Type} `{!FSAgent W, !ForkAgent W, !VolumeAgent W} (size : Z) (contents : W -> Z -> buffer)
  `{!FSAgentLaws W size contents, !VolumeAgentLaws W contents}.

(** The file is open, its tree is in order and has the records [m]. *)
Record volume_file (f : FCB W) (m : gmap (Z * Z * Z) extents) (s : fs W) (sync : Z) (depth : nat) (leaves : list leaf) : Prop := {
  vf_open : f = opened s sync;
  vf_tree : tree_file size contents extent_key_plus extent_rank_plus s depth leaves;
  vf_big : big_keys (btree s) = true;
  vf_sig : vcbSigWord (world_vcb (agent s)) = kHFSPlusSigWord;
  vf_records : holds_extents m (leaf_records leaves)
}.

Definition volume_rep (f : FCB W) (m : gmap (Z * Z * Z) extents) : Prop :=
  exists s sync depth leaves, volume_file f m s sync depth leaves.

(** A hint for the tree of the file, whichever that is. *)
Definition volume_hint (f : FCB W) (h : Z) : Prop := 0 <= h /\
  forall s sync depth leaves, f = opened s sync -> tree_file size contents extent_key_plus extent_rank_plus s depth leaves ->
    hint_ok size contents s leaves h.

Lemma volume_vcb_same s s' sync : same_fs contents s s' -> volume_vcb (opened s' sync) = volume_vcb (opened s sync).
Proof using VolumeAgentLaws0.
  intros (_ & Hf & _ & HC). unfold volume_vcb. cbn [opened fcb_vcbFlags fcb_agent]. rewrite Hf. f_equal. apply va_ghost, HC.
Qed.

(** Where only counters differ, the file has the same records. *)
Lemma volume_file_same m s s' sync depth leaves : same_fs contents s s' -> volume_file (opened s sync) m s sync depth leaves ->
  volume_file (opened s' sync) m s' sync depth leaves.
Proof using VolumeAgentLaws0.
  intros Hs [_ Ht Hb Hsig Hr]. pose proof Hs as ((? & ? & ? & ? & ? & ? & ? & ? & E) & _ & _ & HC). split; try done.
  - by apply (tree_file_same size contents _ _ s).
  - by rewrite E.
  - by rewrite (va_ghost (agent s') (agent s)) by apply HC.
Qed.

(** A leaf of the file is a hint. *)
Lemma leaf_hint m s sync depth leaves h recs : volume_file (opened s sync) m s sync depth leaves -> (h, recs) ∈ leaves ->
  volume_hint (opened s sync) h.
Proof using Type.
  intros [_ Ht _ _ _] [i Hi]%list_elem_of_lookup.
  destruct (file_node size contents _ _ s depth leaves i h recs Ht Hi) as ([_ Hr _ _ _ _ _] & _ & Hl & _).
  split; [apply Hr|]. intros s2 sync2 depth2 leaves2 E Ht2. assert (s2 = s) as ->.
  { destruct s, s2. injection E as -> -> -> ->. done. }
  assert (depth2 = depth) as ->.
  { pose proof (tf_depth _ _ _ _ _ _ _ Ht). pose proof (tf_depth _ _ _ _ _ _ _ Ht2). lia. }
  rewrite (tree_at_unique _ _ _ _ _ _ _ _ (tf_tree _ _ _ _ _ _ _ Ht2) _ (tf_tree _ _ _ _ _ _ _ Ht)).
  right. right. split_and!; [done|done|]. right. exists recs. by eapply list_elem_of_lookup_2.
Qed.

(** The key that is searched for. *)
Lemma zero_key id fork b hint : it_key (zero_iterator (extent_key_bytes false fork id b) hint) =
  extent_key_bytes false fork id b ++ replicate 510 0.
Proof using Type. reflexivity. Qed.

Lemma zero_key_length id fork b hint : length (it_key (zero_iterator (extent_key_bytes false fork id b) hint)) = 522%nat.
Proof using Type. by rewrite zero_key. Qed.

Lemma key_again k rest : length k = 12%nat -> splice (k ++ rest) 0 (slice (k ++ rest) 0 12) = k ++ rest.
Proof using Type.
  intros Hk. rewrite slice_app_l by lia. unfold splice. rewrite take_0, Hk. cbn [app]. f_equal.
  rewrite drop_app_length' by lia. done.
Qed.


Context (stack : TreePathTable) (Hstack : length stack = kMaxDepthEntries).
Context (junk : buffer) (Hjunk : (64 <= length junk)%nat).

Definition search_io (id fork b hint : Z) : SearchIO :=
  let it := zero_iterator (extent_key_bytes false fork id b) hint in
  mkSearchIO it (Some (mkBuffer (take 64 junk) 64 1)) (Some 0) (Some it).

(** The search for a record: its data and a leaf, or the place in the tree it would have. *)
Lemma search_extent m s sync depth leaves id fork b hint : volume_file (opened s sync) m s sync depth leaves -> key_range id fork b ->
  hint_ok size contents s leaves hint ->
  exists err io it d len s', BTSearchRecord CompareExtentKeysPlus stack (opened s sync) (search_io id fork b hint) =
      Ok (err, io, opened s' sync) /\ same_fs contents s s' /\
    io_result io = Some it /\ io_record io = Some d /\ io_recordLen io = Some len /\ (exists rs, (hint_nodeNum (it_hint it), rs) ∈ leaves) /\
    match m !! (id, fork, b) with
    | Some x => err = noErr /\ read_extents 4 8 (bufferAddress d) = x /\ len = 64 /\
        (exists rest, it_key it = extent_key_bytes false fork id b ++ rest)
    | None => err = fsBTRecordNotFoundErr /\ d = mkBuffer (take 64 junk) 64 1 /\ it_key it = extent_key_bytes false fork id b ++ replicate 510 0
    end.
Proof using FSAgentLaws0 Hstack Hjunk.
  intros [_ Ht Hbig Hsig Hrec] Hk Hhint. pose proof Hrec as [Hr1 Hr2].
  destruct (extent_key_fields id fork b (replicate 510 0) Hk) as [Erank _].
  assert (forall fork id b rest, key_size_at (btree s) (extent_key_bytes false fork id b ++ rest) 0 = 12) as Hks.
  { intros. unfold key_size_at, size_of_length. rewrite Hbig. reflexivity. }
  destruct (search_record_spec size contents extent_key_plus extent_rank_plus CompareExtentKeysPlus stack Hstack s depth leaves
    (search_io id fork b hint)) as (err & io & s' & Hrun & Hs & Hres); [done| | |done|].
  - cbn [search_io io_search]. unfold extent_key_plus. rewrite zero_key_length. lia.
  - split.
    + intros d [= <-]. unfold buffer_fits. cbn [itemCount itemSize bufferAddress]. rewrite length_take. change (u32 (1 * 64)) with 64. lia.
    + intros it r Hit Hr. assert (length (it_key it) = 522%nat) as -> by (injection Hit as <-; reflexivity). destruct (Hr1 r Hr) as (? & ? & ? & d & -> & _). unfold extent_record. rewrite Hks. lia.
    + intros it Hit. assert (length (it_key it) = 522%nat) as -> by (injection Hit as <-; reflexivity).
      cbn [search_io io_search]. rewrite zero_key_length, zero_key, Hks. split_and!; lia.
  - assert (BTSearchRecord CompareExtentKeysPlus stack (opened s sync) (search_io id fork b hint) = Ok (err, io, opened s' sync)) as Hbt
      by (unfold BTSearchRecord; rewrite on_opened, Hrun; done).
    exists err, io. destruct Hres as [(-> & m' & recs & r & Hm' & Hrr & Hcmp & Hlen & Hcopy & Hit)|(-> & Erec & Elen & (m' & recs & Hm' & Hit) & Hmiss)];
      cbn [search_io io_search io_result io_record io_recordLen] in *.
    + apply option_forall2_some in Hcopy as (d & Ed & Hd). apply option_forall2_some in Hit as (it & Eit & Hh & Hsl).
      apply list_elem_of_lookup in Hm' as [i Hi].
      destruct (Hr1 r (leaf_elem leaves i m' recs r Hi Hrr)) as (id' & fork' & st & x & -> & Hk' & Hok & Hm).
      destruct (extent_key_fields id' fork' st (extent_bytes 4 x) Hk') as [E' _]. fold (extent_record id' fork' st x) in E'.
      rewrite zero_key in Hcmp. apply lex_cmp_eq in Hcmp. rewrite Erank, E' in Hcmp. injection Hcmp as <- <- <-. rewrite Hm.
      destruct (extent_record_parts (btree s) id fork b x Hbig Hk Hok) as (E1 & E2' & E3' & _). rewrite E1, E2' in Hsl. rewrite E3' in Hlen.
      exists it, d, 64, s'. split_and!; try done.
      * rewrite Hlen. f_equal. rewrite extent_bytes_length. destruct Hok as [-> _]. reflexivity.
      * exists recs. rewrite Hh. by eapply list_elem_of_lookup_2.
      * by apply (found_data_copied (btree s) id fork b x (take 64 junk)).
      * exists (drop 12 (it_key it)). rewrite <- Hsl. change (slice (it_key it) 0 12) with (take 12 (it_key it)). by rewrite take_drop.
    + assert (m !! (id, fork, b) = None) as ->.
      { destruct (m !! (id, fork, b)) as [x|] eqn:Hm; [|done]. destruct (Hr2 _ _ _ _ Hm) as (_ & _ & Hin). exfalso.
        apply (Hmiss _ Hin). rewrite zero_key. apply lex_cmp_eq. rewrite Erank.
        unfold extent_record. by destruct (extent_key_fields id fork b (extent_bytes 4 x) Hk) as [-> _]. }
      apply option_forall2_some in Hit as (it & Eit & Hh & Hkey).
      rewrite zero_key, Hks, key_again in Hkey by done.
      exists it, (mkBuffer (take 64 junk) 64 1), 0, s'. split_and!; try done. exists recs. by rewrite Hh.
Qed.

Lemma volume_is_plus m s sync depth leaves : volume_file (opened s sync) m s sync depth leaves -> is_hfs (opened s sync) = false.
Proof using Type. intros [_ _ _ Hsig _]. unfold is_hfs, volume_vcb. cbn [opened fcb_agent fcb_vcbFlags set_flags vcbSigWord]. by rewrite Hsig. Qed.

(** The move to the record before. *)
Lemma previous_extent m s s1 sync depth leaves id fork b it len : volume_file (opened s sync) m s sync depth leaves -> same_fs contents s s1 ->
  key_range id fork b -> m !! (id, fork, b) = None -> (exists rs, (hint_nodeNum (it_hint it), rs) ∈ leaves) ->
  it_key it = extent_key_bytes false fork id b ++ replicate 510 0 ->
  exists err it' d s', previous_record stack (opened s1 sync) false fork id it (mkBuffer (take 64 junk) 64 1) len =
      Ok (err, it', d, opened s' sync) /\ same_fs contents s s' /\
    (err = btNotFound /\ (forall s d, m !! (id, fork, s) = Some d -> ~ s <= b) \/
     err = noErr /\ (exists rs, (hint_nodeNum (it_hint it'), rs) ∈ leaves) /\
       exists st x rest, it_key it' = extent_key_bytes false fork id st ++ rest /\ read_extents 4 8 (bufferAddress d) = x /\
         key_range id fork st /\ m !! (id, fork, st) = Some x /\ st <= b /\ forall s' d', m !! (id, fork, s') = Some d' -> s' <= b -> s' <= st).
Proof using FSAgentLaws0 VolumeAgentLaws0 Hstack Hjunk.
  intros HV Hs1 Hk Hno [rs Hin] Hit. pose proof (volume_file_same m s s1 sync depth leaves Hs1 HV) as HV1.
  destruct HV1 as [_ Ht Hbig _ Hrec]. pose proof Hrec as [Hr1 Hr2].
  destruct (extent_key_fields id fork b (replicate 510 0) Hk) as [Erank _].
  assert (forall r, r ∈ leaf_records leaves -> key_size_at (btree s1) r 0 = 12) as Hks.
  { intros r Hr. destruct (Hr1 r Hr) as (? & ? & ? & ? & -> & _). unfold key_size_at, size_of_length. rewrite Hbig. reflexivity. }
  assert (extent_key_plus (it_key it)) as HP by (rewrite Hit; unfold extent_key_plus; rewrite length_app; simpl; lia).
  destruct (iterate_record_spec size contents extent_key_plus extent_rank_plus CompareExtentKeysPlus s1 depth leaves Ht (it_key it)
    HP stack Hstack kBTreePrevRecord it
    (Some (mkBuffer (take 64 junk) 64 1)) len) as (err & it' & record' & len' & s' & Hrun & Hs & Hres).
  - by left.
  - done.
  - apply list_elem_of_lookup in Hin as [i Hi].
    destruct (file_node size contents _ _ s1 depth leaves i _ rs Ht Hi) as ([_ Hread _ _ _ _ _] & _ & Hl & _).
    right. right. split_and!; [done|done|]. right. exists rs. by eapply list_elem_of_lookup_2.
  - split; rewrite Hit; [rewrite length_app; simpl; lia|]. intros r Hr. rewrite (Hks r Hr), length_app. simpl. lia.
  - intros d [= <-]. unfold buffer_fits. cbn [itemCount itemSize bufferAddress]. rewrite length_take. change (u32 (1 * 64)) with 64. lia.
  - assert (same_fs contents s s') as Hs' by (by transitivity s1).
    assert (BTIterateRecord CompareExtentKeysPlus stack (opened s1 sync) kBTreePrevRecord (Some it) (Some (mkBuffer (take 64 junk) 64 1)) len =
      Ok (err, Some it', record', len', opened s' sync)) as Hbt by (unfold BTIterateRecord; rewrite on_opened, Hrun; done).
    unfold previous_record. change (extents_compare false) with CompareExtentKeysPlus. rewrite Hbt. cbn [mbind outcome_bind of_option].
    pose proof (find_previous m (leaf_records leaves) (it_key it) id fork b Hrec
      (file_sorted size contents extent_key_plus extent_rank_plus s1 depth leaves Ht) ltac:(by rewrite Hit) Hno) as Hprev.
    unfold iterated in Hres. change (neighbour extent_rank_plus (it_key it) kBTreePrevRecord (leaf_records leaves)) with
      (previous extent_rank_plus (it_key it) (leaf_records leaves)) in Hres.
    destruct (previous extent_rank_plus (it_key it) (leaf_records leaves)) as [r|].
    + destruct Hprev as (id' & fork' & st & x & -> & Hk' & Hok & Hm & Hsame & Hother).
      destruct Hres as (-> & Hcopy & _ & Hkey & Hh). apply option_forall2_some in Hcopy as (d & -> & Hd).
      destruct (extent_record_parts (btree s1) id' fork' st x Hbig Hk' Hok) as (_ & E & _). rewrite E in Hkey.
      assert (it_key it' = extent_key_bytes false fork' id' st ++ replicate 510 0) as Hkey'.
      { rewrite Hkey, Hit. reflexivity. }
      destruct (extent_key_fields id' fork' st (replicate 510 0) Hk') as [_ Hfk]. rewrite Hkey'. cbn [mbind outcome_bind of_option].
      change (s16 noErr =? fsBTStartOfIterationErr) with false. change (negb (s16 noErr =? noErr)) with false. cbv iota. rewrite Hfk.
      cbn [mbind outcome_bind xk_fileID xk_forkType]. rewrite u32_small, u8_small by (destruct Hk as (? & ? & ?); lia).
      eexists _, it', d, s'. split; [reflexivity|]. split; [done|].
      destruct (Z.eqb_spec id' id) as [->|Hne]; [destruct (Z.eqb_spec fork' fork) as [->|Hne]|]; cbn [negb orb].
      * right. destruct (Hsame eq_refl) as [? ?]. split; [done|]. split; [done|]. exists st, x, (replicate 510 0). split_and!; try done.
        by apply (found_data_copied (btree s1) id fork st x (take 64 junk)).
      * left. split; [done|]. apply Hother. congruence.
      * left. split; [done|]. apply Hother. congruence.
    + destruct Hres as [-> ->]. cbn [mbind outcome_bind of_option].
      change (s16 (if kBTreePrevRecord =? kBTreePrevRecord then fsBTStartOfIterationErr else fsBTRecordNotFoundErr)) with fsBTStartOfIterationErr.
      change (fsBTStartOfIterationErr =? fsBTStartOfIterationErr) with true. cbv iota. change (negb (btNotFound =? noErr)) with true. cbv iota.
      eexists _, it', _, s'. split; [reflexivity|]. split; [done|]. by left.
Qed.

Lemma FindExtentRecord_spec m s sync depth leaves fork id b prev : volume_file (opened s sync) m s sync depth leaves -> key_range id fork b ->
  exists err found hint s', FindExtentRecord stack junk (opened s sync) fork id b prev = Ok (err, found, hint, opened s' sync) /\
    ExtentTheorems.find_result m fork id b prev err found /\ same_fs contents s s' /\ (err = noErr -> exists rs, (hint, rs) ∈ leaves).
Proof using FSAgentLaws0 VolumeAgentLaws0 Hstack Hjunk.
  intros HV Hk. unfold FindExtentRecord. rewrite (volume_is_plus m s sync depth leaves HV). cbv zeta.
  change (Z.to_nat (record_size false)) with 64%nat. change (record_size false) with 64. change (extents_compare false) with CompareExtentKeysPlus.
  destruct (search_extent m s sync depth leaves id fork b 0 HV Hk ltac:(by right; left)) as (err & io & it & d & len & s1 & Hrun & Hs1 & Eit & Ed & El & Hh & Hres).
  unfold search_io in Hrun. cbv zeta in Hrun. rewrite Hrun. cbn [mbind outcome_bind]. rewrite Eit, Ed. cbn [mbind outcome_bind of_option]. rewrite El.
  destruct (m !! (id, fork, b)) as [x|] eqn:Hm.
  - destruct Hres as (-> & Hx & _ & rest & Hkey). change (s16 noErr =? btNotFound) with false. cbn [andb mbind outcome_bind].
    change (s16 noErr =? noErr) with true. cbv iota. rewrite Hkey. destruct (extent_key_fields id fork b rest Hk) as [_ ->].
    cbn [mbind outcome_bind]. eexists _, _, _, s1. split; [reflexivity|]. split; [|by split].
    left. split; [done|]. exists b, x. split_and!; first [lia|done|by rewrite <- Hx].
  - destruct Hres as (-> & -> & Hkey). change (s16 fsBTRecordNotFoundErr =? btNotFound) with true. cbn [andb]. destruct prev.
    + destruct (previous_extent m s s1 sync depth leaves id fork b it (Some len) HV Hs1 Hk Hm Hh Hkey)
        as (err & it' & d & s' & -> & Hs' & [(-> & Hno)|(-> & Hh' & st & x & rest & Hkey' & Hx & Hk' & Hm' & Hle & Hmax)]); cbn [mbind outcome_bind].
      * change (btNotFound =? noErr) with false. cbn [mbind outcome_bind]. eexists _, _, _, s'. split; [reflexivity|]. split; [|by split].
        right. by split_and!.
      * change (noErr =? noErr) with true. cbv iota. rewrite Hkey'. destruct (extent_key_fields id fork st rest Hk') as [_ ->].
        cbn [mbind outcome_bind]. eexists _, _, _, s'. split; [reflexivity|]. split; [|by split].
        left. split; [done|]. exists st, x. split_and!; first [done|by rewrite <- Hx].
    + cbn [mbind outcome_bind]. change (s16 fsBTRecordNotFoundErr =? noErr) with false. cbn [mbind outcome_bind].
      eexists _, _, _, s1. split; [reflexivity|]. split; [|by split]. right. by split_and!.
Qed.

(** Another volume control block does not change the file. *)
Lemma set_volume_file s v : same_file contents s (mkFs (btree s) (VolumeBitmap.vcbFlags v) (world_set_vcb (agent s) v)).
Proof using VolumeAgentLaws0.
  split_and!; cbn [btree agent]; [done|apply va_eof|]. intros n Hn. by apply va_contents.
Qed.

Lemma same_file_sym s s' : same_file contents s s' -> same_file contents s' s.
Proof using Type. intros (Ht & HE & HC). split_and!; [by symmetry|done|]. intros n Hn. by rewrite HC. Qed.

(** The B-tree implements the reading half of the interface. *)
#[export] Instance btree_reads : ExtentsFileReads (FCB W) (ExtentsFile0 := btree_extents stack junk) volume_rep volume_hint.
Proof using FSAgentLaws0 VolumeAgentLaws0 Hstack Hjunk.
  split.
  - intros x v. cbn [xf_vcb xf_set btree_extents]. unfold volume_vcb, set_volume. cbn [fcb_agent fcb_vcbFlags]. rewrite va_get. by destruct v.
  - intros x v m (s & sync & depth & leaves & [-> Ht Hb Hsig Hr]) Hv. cbn [xf_set btree_extents xf_vcb] in *.
    exists (mkFs (btree s) (VolumeBitmap.vcbFlags v) (world_set_vcb (agent s) v)), sync, depth, leaves. split; try done.
    + apply (tree_file_file size contents _ _ s); [apply set_volume_file|done].
    + cbn [agent]. rewrite va_get, Hv. exact Hsig.
  - intros x v h [Hh Hx]. split; [done|]. intros s sync depth leaves E Ht. cbn [xf_set btree_extents] in E.
    destruct x as [[bt|] sy fl w]; [|done]. unfold set_volume, opened in E. cbn [fcbBTCBPtr lastfsync fcb_agent] in E. injection E as E1 E2 E3 E4.
    assert (same_file contents (mkFs bt fl w) s) as Hs.
    { destruct s as [bt' fl' w']. cbn [btree vcbFlags agent] in *. subst. exact (set_volume_file (mkFs bt' fl w) v). }
    apply (hint_ok_file size contents (mkFs bt fl w)); [done|done|]. apply (Hx (mkFs bt fl w) sy depth leaves); [done|].
    by apply (tree_file_file size contents _ _ s); [apply same_file_sym|].
  - intros x m fork id b prev (s & sync & depth & leaves & HV) Hf Hid Hb. pose proof HV as [E _ _ _ _]. subst x.
    assert (key_range id fork b) as Hk by (split_and!; try lia; unfold kDataForkType, kResourceForkType in Hf; lia).
    destruct (FindExtentRecord_spec m s sync depth leaves fork id b prev HV Hk) as (err & found & hint & s' & Hrun & Hres & Hs & Hh).
    exists err, found, hint, (opened s' sync). pose proof (volume_file_same m s s' sync depth leaves Hs HV) as HV'.
    split; [exact Hrun|]. split; [done|]. split; [by exists s', sync, depth, leaves|]. split; [by apply volume_vcb_same|].
    intros He. destruct (Hh He) as [rs Hin]. by apply (leaf_hint m s' sync depth leaves hint rs).
Qed.

(** C15: On a volume whose extents B-tree is in order and has the records [m],
    [FindExtentRecord] finds what the map has: the record of the file, fork and block that
    is asked for, or where it is allowed the last one of the same fork before the block,
    with its eight extents; else it fails with [btNotFound].  Neither the records nor the
    volume control block change, and the hint it returns is one for the tree. *)
Theorem FindExtentRecord_correct m (f : FCB W) (fork id b : Z) (prev : bool) : volume_rep f m -> key_range id fork b ->
  exists err found hint f', FindExtentRecord stack junk f fork id b prev = Ok (err, found, hint, f') /\
    ExtentTheorems.find_result m fork id b prev err found /\ volume_rep f' m /\ volume_vcb f' = volume_vcb f /\
    (err = noErr -> volume_hint f' hint).
Proof using FSAgentLaws0 VolumeAgentLaws0 Hstack Hjunk.
  intros (s & sync & depth & leaves & HV) Hk. pose proof (vf_open _ _ _ _ _ _ HV) as ->.
  destruct (FindExtentRecord_spec m s sync depth leaves fork id b prev HV Hk) as (err & found & hint & s' & Hrun & Hres & Hs & Hh).
  pose proof (volume_file_same m s s' sync depth leaves Hs HV) as HV'. exists err, found, hint, (opened s' sync).
  split_and!; [done|done|by exists s', sync, depth, leaves|by apply volume_vcb_same|].
  intros He. destruct (Hh He) as [rs Hin]. by apply (leaf_hint m s' sync depth leaves hint rs).
Qed.
End volume.
