(* ===== verification/ExtentVolume.v ===== *)
(** * A volume with an extents B-tree

    A volume whose extents file is a B-tree of one leaf with two records, on which the
    theorems of ExtentTree.v and ExtentTheorems.v are applied: the agent of
    BTreeMapTheorems.v with the volume control block beside it. *)
From stdpp Require Import countable.
From S2P Require Import Prelude Bits VolumeBitmap VolumeAllocation AllocationTheorems ExtentMapping ExtentTheorems ExtentTable.
From S2P Require Import Bytes UnicodeCompare BTreeNode BTreeKeys BTreeNodeTheorems BTreeBlocks BTreeMap.
From S2P Require Import BTreeMapTheorems BTreeMisc BTreeTree BTreeSearch BTreeRotate BTreeInsert BTreeFile BTreeFileTheorems.
From S2P Require Import BTreeIterate ExtentRecords ExtentTree.

(** ** The agent *)

Record volume_agent := mkVolume { va_file : file_agent; va_vcb : ExtendedVCB }.

Definition vcb_fields (v : ExtendedVCB) : list Z * list (Z * Z) * gmap Z (list Z) :=
  ([vcbSigWord v; VolumeBitmap.vcbFlags v; VolumeBitmap.blockSize v; VolumeBitmap.totalBlocks v; freeBlocks v; nextAllocation v; vcbVBMSt v;
    vcbVBMIOSize v; vcbFreeExtCnt v; reserveBlocks v; loanedBlocks v],
   map (fun e => (startBlock e, blockCount e)) (vcbFreeExt v), bitmap v).

Lemma vcb_fields_inj v v' : vcb_fields v = vcb_fields v' -> v = v'.
Proof.
  destruct v, v'. unfold vcb_fields. cbn. intros [= -> -> -> -> -> -> -> -> -> -> -> E ->]. f_equal.
  revert E. apply (list_fmap_eq_inj (fun e => (startBlock e, blockCount e))). intros [] []. cbn. congruence.
Qed.

(** The block -1 is the volume control block. *)
Definition volume_contents (w : volume_agent) (n : Z) : buffer :=
  if n =? -1 then [Z.pos (encode (vcb_fields (va_vcb w)))] else file_contents (va_file w) n.

#[export] Instance volume_FSAgent : FSAgent volume_agent := {
  getBlockProc w n opts r :=
    let '(err, r, f) := getBlockProc (va_file w) n opts r in (err, r, mkVolume f (va_vcb w));
  releaseBlockProc w r opts :=
    let '(err, f) := releaseBlockProc (va_file w) r opts in (err, mkVolume f (va_vcb w));
  fcbEOF w := fcbEOF (va_file w)
}.

#[export] Instance volume_ForkAgent : ForkAgent volume_agent := {
  setEndOfForkProc w minEOF maxEOF := let '(err, f) := setEndOfForkProc (va_file w) minEOF maxEOF in (err, mkVolume f (va_vcb w));
  setBlockSizeProc w _ _ := (noErr, w);
  hfs_phys_block_size _ := 512;
  hfs_media_writeable _ := true
}.

#[export] Instance volume_VolumeAgent : VolumeAgent volume_agent := {
  world_vcb := va_vcb;
  world_set_vcb w v := mkVolume (va_file w) v;
  extents_modified _ := false
}.

#[export] Instance volume_laws : FSAgentLaws volume_agent file_size volume_contents.
Proof.
  split; intros w n r.
  - intros Hn HE. simpl. eexists _, _. split_and!; try done. unfold volume_contents. by destruct (Z.eqb_spec n (-1)); [lia|].
  - intros Hn HE. simpl. eexists _, _, _. split_and!; done.
  - intros Hh Hb. simpl. rewrite Hh, Hb. simpl. eexists. split_and!; done.
  - intros b opts Hn Hh Hb H1 H2. unfold releaseBlockProc, volume_FSAgent, releaseBlockProc, file_FSAgent.
    rewrite Hh, Hb, H1, H2. cbn [andb negb]. eexists. split; [done|]. unfold volume_contents, file_contents. cbn [va_file va_vcb file_blocks].
    split_and!; [destruct (Z.eqb_spec n (-1)); [lia|]; by rewrite lookup_insert_eq| |done].
    intros m Hm. by rewrite lookup_insert_ne.
Qed.

#[export] Instance volume_volume_laws : VolumeAgentLaws volume_agent volume_contents.
Proof.
  split; try done.
  - intros w v n Hn. unfold volume_contents. by destruct (Z.eqb_spec n (-1)); [lia|].
  - intros w w' E. unfold volume_contents in E. cbn [Z.eqb Pos.eqb] in E. injection E as E. apply (inj encode) in E. by apply vcb_fields_inj.
Qed.

(** ** The tree: one leaf, the root, with the records of two files *)

Definition other_extents : extents := Ext 60 3 :: replicate 7 ext0.
Definition tree_records : list buffer :=
  [extent_record 16 0 8 (frag_overflow ++ replicate 7 ext0); extent_record 17 0 12 other_extents].
Definition tree_map : gmap (Z * Z * Z) extents := <[(17, 0, 12) := other_extents]> frag_file.
Definition tree_bt : BTreeControlBlock := mkBTree 0 1 1 2 1 1 512 10 4 2 0 2 0 0 0 0 0 0 0 0 0.
Definition tree_fs : fs volume_agent :=
  mkFs tree_bt 0 (mkVolume (mkFile {[1 := make_node 512 0 0 255 1 tree_records]} 2048) frag_vol).
Definition tree_leaves : list leaf := [(1, tree_records)].

Lemma tree_leaf_holds : node_holds 512 tree_records (make_node 512 0 0 255 1 tree_records).
Proof. apply holds_two. vm_compute. reflexivity. Qed.

Lemma tree_node_is : volume_contents (agent tree_fs) 1 = make_node 512 0 0 255 1 tree_records.
Proof. reflexivity. Qed.

Lemma tree_root : tree_at file_size volume_contents extent_key_plus extent_rank_plus tree_fs 1 1 tree_leaves.
Proof.
  apply tree_leaf. split; rewrite ?tree_node_is.
  - done.
  - split; [simpl; lia|]. split; [unfold file_size; simpl; lia|]. rewrite tree_node_is. vm_compute. reflexivity.
  - vm_compute. reflexivity.
  - vm_compute. reflexivity.
  - apply tree_leaf_holds.
  - unfold tree_records. rewrite !Forall_cons. split_and!; [compare|compare|done].
  - apply sorted_two. vm_compute. reflexivity.
Qed.

Lemma tree_is_file : tree_file file_size volume_contents extent_key_plus extent_rank_plus tree_fs 1 tree_leaves.
Proof.
  split.
  - apply tree_root.
  - reflexivity.
  - lia.
  - apply (bool_decide_unpack _). vm_compute. exact I.
  - split_and!; [compare|reflexivity|reflexivity|reflexivity].
  - compare.
  - intros [|i] m recs Hi; [|by destruct i]. injection Hi as <- <-.
    split; rewrite ?tree_node_is; [apply (bool_decide_unpack _); vm_compute; exact I| |done|vm_compute; reflexivity|vm_compute; reflexivity].
    unfold tree_records; rewrite !Forall_cons; (split_and!; [| |done]); (split_and!; [reflexivity|simpl; lia|compare]).
  - reflexivity.
  - reflexivity.
Qed.

Lemma tree_holds : holds_extents tree_map (leaf_records tree_leaves).
Proof.
  assert (record_ok (frag_overflow ++ replicate 7 ext0) /\ record_ok other_extents) as [H1 H2].
  { split; (split; [reflexivity|]); apply (bool_decide_unpack _); vm_compute; exact I. }
  assert (key_range 16 0 8 /\ key_range 17 0 12) as [H3 H4] by (unfold key_range; lia). split.
  - intros r. change (leaf_records tree_leaves) with tree_records. unfold tree_records. rewrite !elem_of_cons.
    intros [->|[->|[]%not_elem_of_nil]]; do 4 eexists; by split_and!.
  - intros id fork st d. change (leaf_records tree_leaves) with tree_records. unfold tree_map, frag_file, tree_records.
    intros [[[= <- <- <-] <-]|[_ [[= <- <- <-] <-]%lookup_singleton_Some]]%lookup_insert_Some; split_and!; try done; rewrite !elem_of_cons; tauto.
Qed.

Lemma tree_volume : volume_rep file_size volume_contents (opened tree_fs 0) tree_map.
Proof. exists tree_fs, 0, 1%nat, tree_leaves. split; [done|apply tree_is_file|done|done|apply tree_holds]. Qed.

(** ** The theorems on it *)

Definition stack_path : TreePathTable := replicate kMaxDepthEntries (mkPath 0 0).
Definition stack_junk : buffer := replicate 64 0xA5.

(** Block 10 of file 16: its record is the one that starts with block 8. *)
Lemma FindExtentRecord_witness :
  exists hint f', FindExtentRecord stack_path stack_junk (opened tree_fs 0) 0 16 10 true =
      Ok (noErr, Some (mkExtentKey kHFSPlusExtentKeyMaximumLength 0 0 16 8, frag_overflow ++ replicate 7 ext0), hint, f') /\
    volume_rep file_size volume_contents f' tree_map /\ volume_hint file_size volume_contents f' hint.
Proof.
  destruct (FindExtentRecord_correct file_size volume_contents stack_path eq_refl stack_junk ltac:(apply (bool_decide_unpack _); vm_compute; exact I)
    tree_map (opened tree_fs 0) 0 16 10 true) as (err & found & hint & f' & Hrun & Hres & Hrep & _ & Hh).
  - apply tree_volume.
  - unfold key_range. lia.
  - exists hint, f'. destruct Hres as [(-> & st & d & -> & Hm & _)|(_ & _ & Hno)].
    + unfold tree_map, frag_file in Hm. apply lookup_insert_Some in Hm as [[[= ] _]|[_ [[= <-] <-]%lookup_singleton_Some]].
      split_and!; [done|done|by apply Hh].
    + exfalso. apply (Hno eq_refl 8 (frag_overflow ++ replicate 7 ext0)); [reflexivity|lia].
Defined.

Lemma tree_fork : fork_ok frag_vol tree_map frag_fork frag_records.
Proof.
  destruct frag_ok as [Hr Ho Hm Hc Ht]. split; try done.
  - intros j l Hl. destruct (Ho j l Hl) as [H1 (d & H2 & H3)]. split; [done|]. exists d. split; [|done].
    unfold tree_map. rewrite lookup_insert_ne; [done|]. cbn. congruence.
  - intros s d Hs. apply (Hm s d). unfold tree_map in Hs. rewrite lookup_insert_ne in Hs; [done|]. cbn. congruence.
Qed.

(** Byte 904 of block 9 of the fork, which is block 21 of the volume: its extent is found
    in the B-tree. *)
Lemma MapFileBlockC_witness :
  exists f', MapFileBlockC (ExtentsFile0 := btree_extents stack_path stack_junk) (mkDevice 512 0 0) (opened tree_fs 0) frag_fork 8192 37768 =
      Ok (noErr, Some (169, 3192), f') /\
    contiguous_bytes frag_fork (concat frag_records) 4096 37768 8192 21 3192.
Proof.
  assert (exists f', MapFileBlockC (ExtentsFile0 := btree_extents stack_path stack_junk) (mkDevice 512 0 0) (opened tree_fs 0) frag_fork 8192 37768 =
      Ok (noErr, Some (169, 3192), f')) as [f' E] by (eexists; vm_compute; reflexivity).
  exists f'. split; [exact E|].
  destruct (MapFileBlockC_correct (ExtentsFile0 := btree_extents stack_path stack_junk) (volume_rep file_size volume_contents) (volume_hint file_size volume_contents)
    (ExtentsFileReads0 := btree_reads file_size volume_contents stack_path eq_refl stack_junk ltac:(apply (bool_decide_unpack _); vm_compute; exact I))
    (mkDevice 512 0 0) (opened tree_fs 0) tree_map frag_fork frag_records 8192 37768) as (x' & _ & _ & H); try (cbn; lia).
  - apply tree_volume.
  - apply tree_fork.
  - exists 8. reflexivity.
  - apply (bool_decide_unpack _). vm_compute. done.
  - change (map_block (concat frag_records) (37768 / 4096)) with (Some 21) in H.
    destruct H as (avail & H & Hc). rewrite E in H. injection H as H1 H2. rewrite H1. exact Hc.
Defined.
