(* ===== verification/NodeSwap.v ===== *)
(** * Byte order of B-tree nodes (hfsplus/hfs_endian.c)

    A node is big-endian on the disk and in the order of the host in memory.
    [hfs_swap_BTNode] turns it in place: with [unswap = 0] after it was read, with
    [unswap = 1] before it is written; with [unswap = 3] it leaves the descriptor as it is.
    The host is little-endian, so that [x = SWAP_BE32(x)] reverses the bytes of [x].  The
    structures are those of hfsplus/hfs_format.h, packed to two bytes. *)
From S2P Require Import Prelude Bits Bytes BTreeNode BTreeBlocks.

Definition kHFSExtentsFileID : Z := 3.
Definition kHFSCatalogFileID : Z := 4.
Definition kHFSFolderRecord : Z := 0x0100.
Definition kHFSFileRecord : Z := 0x0200.
Definition kHFSFolderThreadRecord : Z := 0x0300.
Definition kHFSFileThreadRecord : Z := 0x0400.
Definition kHFSPlusFolderRecord : Z := 1.
Definition kHFSPlusFileRecord : Z := 2.
Definition kHFSPlusFolderThreadRecord : Z := 3.
Definition kHFSPlusFileThreadRecord : Z := 4.

(** ** Fields: an offset and a number of bytes *)

Abbreviation field_at := (Z * Z)%type.

Definition swap_field (b : buffer) (p w : Z) : outcome buffer :=
  bs ← get_bytes b p w; put_bytes b p (rev bs).

Fixpoint swap_fields (b : buffer) (base : Z) (l : list field_at) : outcome buffer :=
  match l with
  | [] => Ok b
  | (p, w) :: l => b ← swap_field b (base + p) w; swap_fields b base l
  end.

Definition swap_when (c : bool) (b : buffer) (p w : Z) : outcome buffer := if c then swap_field b p w else Ok b.

(** An array of [n] extent descriptors with fields of [w] bytes. *)
Definition descriptor_fields (p w : Z) (n : nat) : list field_at :=
  concat (map (fun j => [(p + 2 * w * Z.of_nat j, w); (p + 2 * w * Z.of_nat j + w, w)]) (seq 0 n)).
(** The characters of a name. *)
Definition char_fields (p n : Z) : list field_at := map (fun j => (p + 2 * j, 2)) (seqZ 0 n).

(** [HFSPlusForkData] *)
Definition fork_fields : list field_at := [(0, 8); (8, 4); (12, 4)] ++ descriptor_fields 16 4 8.
(** [HFSPlusCatalogFolder] and [HFSPlusCatalogFile] behind their type, up to the forks *)
Definition folder_fields : list field_at :=
  [(2, 2); (4, 4); (8, 4); (12, 4); (16, 4); (20, 4); (24, 4); (28, 4); (32, 4); (36, 4); (42, 2); (44, 4); (80, 4)].
Definition file_fields : list field_at :=
  [(2, 2); (8, 4); (12, 4); (16, 4); (20, 4); (24, 4); (28, 4); (32, 4); (36, 4); (42, 2); (44, 4); (80, 4)].
(** [HFSCatalogFolder], and [HFSCatalogFile] with its two arrays of extents *)
Definition hfs_folder_fields : list field_at := [(2, 2); (4, 2); (6, 4); (10, 4); (14, 4); (18, 4)].
Definition hfs_file_fields : list field_at :=
  [(20, 4); (24, 2); (26, 4); (30, 4); (34, 2); (36, 4); (40, 4); (44, 4); (48, 4); (52, 4); (72, 2)] ++ descriptor_fields 74 2 6.
(** [BTHeaderRec] *)
Definition header_rec_fields : list field_at :=
  [(0, 2); (2, 4); (6, 4); (10, 4); (14, 4); (18, 2); (20, 2); (22, 4); (26, 4); (32, 4); (38, 4)].

Definition hfs_swap_HFSPlusForkData (b : buffer) (src : Z) : outcome buffer := swap_fields b src fork_fields.

(** ** Records *)

(** A name of UTF-16 characters: its length is read in the order of the host. *)
Definition swap_name (b : buffer) (p : Z) (unswap : bool) : outcome buffer :=
  b ← swap_when (negb unswap) b p 2;
  n ← load16 b p;
  b ← swap_fields b p (char_fields 2 n);
  swap_when unswap b p 2.

(** The child pointer of an index record. *)
Definition swap_child (b : buffer) (p : Z) : outcome buffer := swap_field b p 4.

(** Record of the extents file at [p]. *)
Definition swap_extent_plus (b : buffer) (p : Z) (unswap : bool) : outcome buffer :=
  b ← swap_when (negb unswap) b p 2;
  keyLength ← load16 b p;
  let srcRec := p + keyLength + 2 in
  b ← swap_when unswap b p 2;
  b ← swap_fields b p [(4, 4); (8, 4)];
  k ← kind b;
  if k =? kBTIndexNode then swap_child b srcRec else swap_fields b srcRec (descriptor_fields 0 4 8).

(** What [srcPtr] points at in a leaf of the catalog. *)
Definition swap_record_plus (b : buffer) (p : Z) (unswap : bool) : outcome buffer :=
  b ← swap_when (negb unswap) b p 2;
  recordType ← load16 b p;
  let recordType := s16 recordType in
  b ← (if recordType =? kHFSPlusFolderRecord then swap_fields b p folder_fields
       else if recordType =? kHFSPlusFileRecord then
         b ← swap_fields b p file_fields;
         b ← hfs_swap_HFSPlusForkData b (p + 88);
         hfs_swap_HFSPlusForkData b (p + 168)
       else if (recordType =? kHFSPlusFolderThreadRecord) || (recordType =? kHFSPlusFileThreadRecord) then
         b ← swap_field b (p + 4) 4;
         swap_name b (p + 8) unswap
       else Panic "hfs_swap_BTNode: unrecognized catalog record type");
  swap_when unswap b p 2.

Definition swap_catalog_plus (b : buffer) (p : Z) (unswap : bool) : outcome buffer :=
  b ← swap_when (negb unswap) b p 2;
  keyLength ← load16 b p;
  let srcPtr := p + keyLength + 2 in
  b ← swap_when unswap b p 2;
  b ← swap_field b (p + 2) 4;
  b ← swap_name b (p + 6) unswap;
  k ← kind b;
  if k =? kBTIndexNode then swap_child b srcPtr else swap_record_plus b srcPtr unswap.

Definition swap_extent (b : buffer) (p : Z) (unswap : bool) : outcome buffer :=
  b ← swap_fields b p [(2, 4); (6, 2)];
  keyLength ← load8 b p;
  let srcRec := p + Z.land (keyLength + 2) (Z.lnot 1) in
  k ← kind b;
  if k =? kBTIndexNode then swap_child b srcRec else swap_fields b srcRec (descriptor_fields 0 2 3).

Definition swap_record (b : buffer) (p : Z) (unswap : bool) : outcome buffer :=
  b ← swap_when (negb unswap) b p 2;
  recordType ← load16 b p;
  let recordType := s16 recordType in
  b ← (if recordType =? kHFSFolderRecord then swap_fields b p hfs_folder_fields
       else if recordType =? kHFSFileRecord then swap_fields b p hfs_file_fields
       else if (recordType =? kHFSFolderThreadRecord) || (recordType =? kHFSFileThreadRecord) then swap_field b (p + 10) 4
       else Panic "hfs_swap_BTNode: unrecognized catalog record type");
  swap_when unswap b p 2.

Definition swap_catalog (b : buffer) (p : Z) (unswap : bool) : outcome buffer :=
  b ← swap_field b (p + 2) 4;
  keyLength ← load8 b p;
  let srcPtr := p + Z.land (keyLength + 2) (Z.lnot 1) in
  k ← kind b;
  if k =? kBTIndexNode then swap_child b srcPtr else swap_record b srcPtr unswap.

(** ** Nodes *)

(** [for (i = 0; i < bound; i++)]: the bound is read again in every round.  It is at most
    65536. *)
Fixpoint for_each (fuel : nat) (bound : buffer -> outcome Z) (body : buffer -> Z -> outcome buffer) (b : buffer) (i : Z)
    : outcome buffer :=
  match fuel with
  | O => Diverge
  | S fuel =>
      n ← bound b;
      if i <? n then b ← body b i; for_each fuel bound body b (i + 1) else Ok b
  end.
Definition for_fuel : nat := Z.to_nat 65537.

(** The records of a node: [srcOffs] points at the offset of the last one. *)
Definition swap_records (size : Z) (op : buffer -> Z -> outcome buffer) (b : buffer) : outcome buffer :=
  n ← numRecords b;
  let srcOffs := size - n * 2 in
  for_each for_fuel numRecords (fun b i => p ← load16 b (srcOffs + 2 * i); op b p) b 0.

Definition hfs_swap_HFSPlusBTInternalNode (size : Z) (b : buffer) (fileID : Z) (unswap : bool) : outcome buffer :=
  if fileID =? kHFSExtentsFileID then swap_records size (fun b p => swap_extent_plus b p unswap) b
  else if fileID =? kHFSCatalogFileID then swap_records size (fun b p => swap_catalog_plus b p unswap) b
  else Panic "hfs_swap_BTNode: unrecognized B-Tree type".

Definition hfs_swap_HFSBTInternalNode (size : Z) (b : buffer) (fileID : Z) (unswap : bool) : outcome buffer :=
  if fileID =? kHFSExtentsFileID then swap_records size (fun b p => swap_extent b p unswap) b
  else if fileID =? kHFSCatalogFileID then swap_records size (fun b p => swap_catalog b p unswap) b
  else Panic "hfs_swap_BTNode: unrecognized B-Tree type".

(** The offsets, the free space one included. *)
Definition swap_offset (size srcOffs : Z) (unswap : bool) (b : buffer) (i : Z) : outcome buffer :=
  b ← swap_when (negb unswap) b (srcOffs + 2 * i) 2;
  v ← load16 b (srcOffs + 2 * i);
  if size <=? v then Panic "hfs_swap_BTNode: B-Tree node offset out of range"
  else swap_when unswap b (srcOffs + 2 * i) 2.

Definition swap_offsets (size : Z) (unswap : bool) (b : buffer) : outcome buffer :=
  n ← numRecords b;
  let srcOffs := size - (n + 1) * 2 in
  if size <? srcOffs then Panic "hfs_swap_BTNode: Too many records in the B-Tree node"
  else for_each for_fuel (fun b => n ← numRecords b; Ok (n + 1)) (swap_offset size srcOffs unswap) b 0.

Definition swap_descriptor (size : Z) (b : buffer) : outcome buffer :=
  b ← swap_fields b 0 [(0, 4); (4, 4); (10, 2)];
  swap_offsets size false b.
Definition unswap_descriptor (size : Z) (b : buffer) : outcome buffer :=
  b ← swap_fields b 0 [(0, 4); (4, 4)];
  b ← swap_offsets size true b;
  swap_field b 10 2.

Definition swap_contents (size : Z) (b : buffer) (isHFSPlus : bool) (fileID : Z) (unswap : bool) : outcome buffer :=
  k ← kind b;
  if (k =? kBTIndexNode) || (k =? kBTLeafNode) then
    if isHFSPlus then hfs_swap_HFSPlusBTInternalNode size b fileID unswap else hfs_swap_HFSBTInternalNode size b fileID unswap
  else if k =? kBTMapNode then Ok b
  else if k =? kBTHeaderNode then swap_fields b 14 header_rec_fields
  else Ok b.

Definition hfs_swap_BTNode (src : NodeRec) (isHFSPlus : bool) (fileID unswap : Z) : outcome (Z * NodeRec) :=
  b ← of_option (nodeBuffer src);
  let size := blockSize src in
  b ← (if unswap =? 0 then swap_descriptor size b else Ok b);
  b ← swap_contents size b isHFSPlus fileID (negb (unswap =? 0));
  b ← (if unswap =? 1 then unswap_descriptor size b else Ok b);
  Ok (0, set_buffer src b).
