(* ===== verification/NodeSwapTheorems.v ===== *)
(** * Swapping the bytes of a node and back

    Both directions of [hfs_swap_BTNode] reverse the bytes of the same fields, which lie
    one after the other in the node; so the second undoes the first. *)
From S2P Require Import Prelude Bits Bytes BTreeNode BTreeKeys BTreeNodeTheorems BTreeBlocks BTreeSearch NodeSwap.

(** ** Reversing the bytes of fields *)

Definition inside (f : field_at) (i : nat) : Prop := f.1 <= Z.of_nat i < f.1 + f.2.
Definition mirror (f : field_at) (i : nat) : nat := Z.to_nat (2 * f.1 + f.2 - 1 - Z.of_nat i).
Definition apart (f g : field_at) : Prop := f.1 + f.2 <= g.1 \/ g.1 + g.2 <= f.1.
Definition fits (n : Z) (f : field_at) : Prop := 0 <= f.1 /\ 0 < f.2 /\ f.1 + f.2 <= n.

#[export] Instance inside_dec f i : Decision (inside f i).
Proof. unfold inside. apply _. Defined.

Definition flip_field (b : buffer) (f : field_at) : buffer := splice b f.1 (rev (slice b f.1 f.2)).
Definition flip (l : list field_at) (b : buffer) : buffer := foldl flip_field b l.

(** [b'] is [b] with the fields [l] reversed, in whatever order. *)
Record flipped (l : list field_at) (b b' : buffer) : Prop := {
  fl_length : length b' = length b;
  fl_in f i : f ∈ l -> inside f i -> b' !! i = b !! mirror f i;
  fl_out i : (forall f, f ∈ l -> ~ inside f i) -> b' !! i = b !! i
}.

Lemma lookup_rev (l : buffer) i : (i < length l)%nat -> rev l !! i = l !! (length l - 1 - i)%nat.
Proof. intros Hi. rewrite rev_alt. change (rev_append l []) with (reverse l). rewrite reverse_lookup by done. f_equal. lia. Qed.

Lemma flip_field_length b f : fits (Z.of_nat (length b)) f -> length (flip_field b f) = length b.
Proof.
  intros (? & ? & ?). unfold flip_field. pose proof (slice_length b f.1 f.2 ltac:(lia) ltac:(lia) ltac:(lia)).
  apply splice_length; [done|]. rewrite length_rev. lia.
Qed.

Lemma flip_field_lookup b f i : fits (Z.of_nat (length b)) f ->
  flip_field b f !! i = if decide (inside f i) then b !! mirror f i else b !! i.
Proof.
  intros (H1 & H2 & H3). unfold flip_field. pose proof (slice_length b f.1 f.2 ltac:(lia) ltac:(lia) ltac:(lia)) as HL.
  rewrite splice_lookup, length_rev, HL by (rewrite ?length_rev; lia). destruct (decide (inside f i)) as [Hi|Hi]; unfold inside in Hi.
  - rewrite decide_True by lia. rewrite lookup_rev by lia. rewrite slice_lookup, decide_True by lia. f_equal. unfold mirror. lia.
  - by rewrite decide_False by lia.
Qed.

Definition separate (l : list field_at) : Prop := NoDup l /\ forall f g, f ∈ l -> g ∈ l -> f <> g -> apart f g.

Lemma separate_perm l l' : l ≡ₚ l' -> separate l -> separate l'.
Proof. intros Hp [Hn Ha]. split; [by rewrite <- Hp|]. intros f g. rewrite <- Hp. apply Ha. Qed.

Lemma separate_app l1 l2 : separate (l1 ++ l2) -> separate l1 /\ separate l2 /\ forall f g, f ∈ l1 -> g ∈ l2 -> apart f g.
Proof.
  intros [(Hn1 & Hd & Hn2)%NoDup_app Ha]. split_and!; [split; [done|]; intros f g; specialize (Ha f g); set_solver..|].
  intros f g Hf Hg. apply Ha; [set_solver..|]. intros ->. by apply (Hd g).
Qed.

Lemma flip_flipped l b : separate l -> Forall (fits (Z.of_nat (length b))) l -> flipped l b (flip l b).
Proof.
  revert b. induction l as [|f l IH]; intros b [Hn Ha] Hf; [by split; [|intros f i ?%not_elem_of_nil|]|].
  apply NoDup_cons in Hn as [Hfl Hn]. apply Forall_cons in Hf as [Hf Hl].
  assert (forall g, g ∈ l -> apart f g) as Hsep.
  { intros g Hg. apply Ha; [set_solver..|]. intros ->. done. }
  destruct (IH (flip_field b f)) as [HL Hin Hout].
  { split; [done|]. intros g h Hg Hh. apply Ha; set_solver. }
  { by rewrite flip_field_length. }
  rewrite flip_field_length in HL by done. split; [done| |].
  - intros g i [->|Hg]%elem_of_cons Hi.
    + change (flip (f :: l) b) with (flip l (flip_field b f)). rewrite Hout, flip_field_lookup, decide_True; [done..|].
      intros h Hh. destruct (Hsep h Hh); unfold inside in *; lia.
    + change (flip (f :: l) b) with (flip l (flip_field b f)). rewrite (Hin g i Hg Hi), flip_field_lookup, decide_False; [done| |done].
      pose proof (Hsep g Hg) as Hx. rewrite Forall_forall in Hl. destruct (Hl g Hg) as (? & ? & ?). unfold inside, mirror, apart in *. lia.
  - intros i Hi. change (flip (f :: l) b) with (flip l (flip_field b f)). rewrite Hout by (intros g Hg; apply Hi; set_solver).
    rewrite flip_field_lookup, decide_False; [done| |done]. apply Hi. set_solver.
Qed.

Lemma flipped_unique l l' b b1 b2 : (forall f, f ∈ l <-> f ∈ l') -> flipped l b b1 -> flipped l' b b2 -> b1 = b2.
Proof.
  intros Hl [_ Hi1 Ho1] [_ Hi2 Ho2]. apply list_eq. intros i. destruct (decide (Exists (fun f => inside f i) l)) as [Hx|Hx].
  - apply Exists_exists in Hx as (f & Hf & Hi). rewrite (Hi1 f i), (Hi2 f i); [done|by apply Hl|done..].
  - rewrite Ho1, Ho2; [done|..]; intros f Hf Hi; apply Hx, Exists_exists; exists f; (split; [first [done|by apply Hl]|done]).
Qed.

(** What is reversed twice is as it was. *)
Lemma flipped_sym l b b' : separate l -> Forall (fits (Z.of_nat (length b))) l -> flipped l b b' -> flipped l b' b.
Proof.
  intros [_ Ha] Hf [HL Hi Ho]. split; [done| |by intros; rewrite Ho].
  intros f i Hfl Hin. rewrite Forall_forall in Hf. destruct (Hf f Hfl) as (? & ? & ?). rewrite (Hi f (mirror f i) Hfl).
  - f_equal. unfold inside, mirror in *. lia.
  - unfold inside, mirror in *. lia.
Qed.

Lemma flip_perm l l' b : l ≡ₚ l' -> separate l -> Forall (fits (Z.of_nat (length b))) l -> flip l b = flip l' b.
Proof.
  intros Hp Hs Hf. apply (flipped_unique l l' b); [intros f; by rewrite Hp|by apply flip_flipped|].
  apply flip_flipped; [by apply (separate_perm l)|by rewrite <- Hp].
Qed.

Lemma flip_app l l' b : flip (l ++ l') b = flip l' (flip l b).
Proof. apply foldl_app. Qed.

Lemma flip_length l b : Forall (fits (Z.of_nat (length b))) l -> length (flip l b) = length b.
Proof.
  revert b. induction l as [|f l IH]; intros b Hf; [done|]. apply Forall_cons in Hf as [Hf Hl].
  change (flip (f :: l) b) with (flip l (flip_field b f)). rewrite IH; rewrite flip_field_length; done.
Qed.

Lemma flip_flip l l' b : l ≡ₚ l' -> separate l -> Forall (fits (Z.of_nat (length b))) l -> flip l (flip l' b) = b.
Proof.
  intros Hp Hs Hf. rewrite <- (flip_perm l l' b Hp Hs Hf). apply (flipped_unique l l (flip l b)); [done| |].
  - apply flip_flipped; [done|]. by rewrite flip_length.
  - apply flipped_sym; [done|done|by apply flip_flipped].
Qed.

(** What the fields are then, and the bytes between them. *)
Lemma slice_flip_in l b f : separate l -> Forall (fits (Z.of_nat (length b))) l -> f ∈ l ->
  slice (flip l b) f.1 f.2 = rev (slice b f.1 f.2).
Proof.
  intros Hs Hf Hfl. pose proof (flip_flipped l b Hs Hf) as [HL Hi _]. rewrite Forall_forall in Hf.
  destruct (Hf f Hfl) as (? & ? & ?). pose proof (slice_length b f.1 f.2 ltac:(lia) ltac:(lia) ltac:(lia)) as Hs1.
  apply list_eq. intros i. rewrite slice_lookup. case_decide as Hd.
  - rewrite (Hi f) by (done || (unfold inside; lia)). rewrite lookup_rev by lia. rewrite slice_lookup, decide_True by lia.
    f_equal. unfold mirror. lia.
  - symmetry. apply lookup_ge_None. rewrite length_rev. lia.
Qed.

Lemma slice_flip_out l b p n : separate l -> Forall (fits (Z.of_nat (length b))) l -> 0 <= p -> (forall f, f ∈ l -> apart (p, n) f) ->
  slice (flip l b) p n = slice b p n.
Proof.
  intros Hs Hf Hp Ha. pose proof (flip_flipped l b Hs Hf) as [_ _ Ho]. apply list_eq. intros i. rewrite !slice_lookup.
  case_decide; [|done]. apply Ho. intros f Hfl. pose proof (Ha f Hfl) as Hx. unfold apart, inside in *. simpl in Hx. lia.
Qed.

(** ** Fields one after the other *)

Fixpoint ascending (lo hi : Z) (l : list field_at) : bool :=
  match l with
  | [] => lo <=? hi
  | (p, w) :: l => (lo <=? p) && (0 <? w) && ascending (p + w) hi l
  end.
Definition shift (d : Z) (l : list field_at) : list field_at := map (fun f => (d + f.1, f.2)) l.

Lemma ascending_cons lo hi p w l : ascending lo hi ((p, w) :: l) = true <-> lo <= p /\ 0 < w /\ ascending (p + w) hi l = true.
Proof. cbn [ascending]. rewrite !andb_true_iff, Z.leb_le, Z.ltb_lt. tauto. Qed.

Lemma ascending_le lo hi l : ascending lo hi l = true -> lo <= hi.
Proof. revert lo. induction l as [|[p w] l IH]; intros lo; [apply Z.leb_le|]. rewrite ascending_cons. intros (? & ? & ?%IH). lia. Qed.

Lemma ascending_app lo hi l1 l2 : ascending lo hi (l1 ++ l2) = true <-> exists mid, ascending lo mid l1 = true /\ ascending mid hi l2 = true.
Proof.
  revert lo. induction l1 as [|[p w] l1 IH]; intros lo.
  - split.
    + intros H. exists lo. split; [|done]. apply Z.leb_le. lia.
    + intros (mid & H1%Z.leb_le & H2). change ([] ++ l2) with l2. destruct l2 as [|[p w] l2]; [apply Z.leb_le in H2; apply Z.leb_le; lia|].
      rewrite ascending_cons in H2 |- *. destruct H2 as (? & ? & ?). split_and!; [lia|done..].
  - change (((p, w) :: l1) ++ l2) with ((p, w) :: (l1 ++ l2)). rewrite ascending_cons, IH. setoid_rewrite ascending_cons. naive_solver.
Qed.

Lemma ascending_bounds lo hi l : ascending lo hi l = true -> Forall (fun f => lo <= f.1 /\ 0 < f.2 /\ f.1 + f.2 <= hi) l.
Proof.
  revert lo. induction l as [|[p w] l IH]; intros lo; [done|]. rewrite ascending_cons. intros (? & ? & H).
  pose proof (ascending_le _ _ _ H). constructor; [simpl; lia|]. apply (Forall_impl _ _ _ (IH _ H)). simpl. intros f ?. lia.
Qed.

Lemma ascending_fits lo hi l : 0 <= lo -> ascending lo hi l = true -> Forall (fits hi) l.
Proof. intros Hlo H. apply (Forall_impl _ _ _ (ascending_bounds _ _ _ H)). intros f ?. unfold fits. lia. Qed.

Lemma ascending_separate lo hi l : ascending lo hi l = true -> separate l.
Proof.
  revert lo. induction l as [|[p w] l IH]; intros lo H; [split; [constructor|by intros ? ? ?%not_elem_of_nil]|].
  apply ascending_cons in H as (Hp & Hw & H). destruct (IH _ H) as [Hn Ha].
  assert (forall f, f ∈ l -> apart (p, w) f) as Hx.
  { intros f Hf. left. pose proof (ascending_bounds _ _ _ H) as Hb. rewrite Forall_forall in Hb. simpl. by apply Hb. }
  split.
  - constructor; [|done]. intros Hin. destruct (Hx _ Hin); simpl in *; lia.
  - intros f g [->|Hf]%elem_of_cons [->|Hg]%elem_of_cons Hne; [done|by apply Hx| |by apply Ha].
    destruct (Hx f Hf); [by right|by left].
Qed.

Lemma ascending_shift d lo hi l : ascending (d + lo) (d + hi) (shift d l) = ascending lo hi l.
Proof.
  revert lo. induction l as [|[p w] l IH]; intros lo; cbn [shift map ascending fst snd].
  - destruct (Z.leb_spec lo hi), (Z.leb_spec (d + lo) (d + hi)); lia || done.
  - rewrite <- Z.add_assoc. fold (shift d l). rewrite IH. f_equal. f_equal. destruct (Z.leb_spec lo p), (Z.leb_spec (d + lo) (d + p)); lia || done.
Qed.

Lemma shift_app d l1 l2 : shift d (l1 ++ l2) = shift d l1 ++ shift d l2.
Proof. apply map_app. Qed.
Lemma shift_shift d e l : shift d (shift e l) = shift (d + e) l.
Proof. unfold shift. rewrite map_map. apply map_ext. intros [p w]. simpl. f_equal. lia. Qed.

Lemma elem_of_shift f d l : f ∈ shift d l <-> (f.1 - d, f.2) ∈ l.
Proof.
  unfold shift. rewrite list_elem_of_fmap. split.
  - intros ([p w] & -> & H). simpl. by replace (d + p - d) with p by lia.
  - intros H. exists (f.1 - d, f.2). split; [|done]. destruct f. simpl. f_equal. lia.
Qed.

Lemma separate_shift d l : separate l -> separate (shift d l).
Proof.
  intros [Hn Ha]. split.
  - assert (Inj (=) (=) (fun f : field_at => (d + f.1, f.2))) as Hi by (intros [] []; simpl; intros [=]; f_equal; lia).
    by apply (NoDup_fmap_2 (fun f : field_at => (d + f.1, f.2))).
  - intros [p w] [q v]. rewrite !elem_of_shift. simpl. intros Hf Hg Hne.
    assert ((p - d, w) <> (q - d, v)) as Hne' by (intros [=]; apply Hne; f_equal; lia).
    destruct (Ha _ _ Hf Hg Hne'); unfold apart in *; simpl in *; lia.
Qed.

(** ** The code reverses fields *)

Lemma swap_field_ok b p w : fits (Z.of_nat (length b)) (p, w) -> swap_field b p w = Ok (flip [(p, w)] b).
Proof.
  intros (H1 & H2 & H3). cbn [fst snd] in *. unfold swap_field. rewrite get_bytes_ok by lia. cbn [mbind outcome_bind].
  pose proof (slice_length b p w ltac:(lia) ltac:(lia) ltac:(lia)). rewrite put_bytes_ok; [done|lia|]. rewrite length_rev. lia.
Qed.

Lemma fits_shift n d m f : fits m f -> 0 <= d -> d + m <= n -> fits n (d + f.1, f.2).
Proof. intros (? & ? & ?) ? ?. unfold fits. simpl. lia. Qed.

Lemma swap_fields_ok b base l : Forall (fits (Z.of_nat (length b))) (shift base l) -> swap_fields b base l = Ok (flip (shift base l) b).
Proof.
  revert b. induction l as [|[p w] l IH]; intros b H; [done|]. cbn [shift map fst snd] in H. apply Forall_cons in H as [Hf H].
  cbn [swap_fields]. rewrite swap_field_ok by done. cbn [mbind outcome_bind]. rewrite IH; [done|].
  assert (length (flip [(base + p, w)] b) = length b) as -> by (apply flip_field_length; done). done.
Qed.

(** ** The fields of a record

    Their positions depend on the length of the key, the lengths of names and the type of a
    catalog record, in the order of the host. *)

Definition name_fields (n : Z) : list field_at := (0, 2) :: char_fields 2 n.

Definition plus_data_fields (r : buffer) (p : Z) : option (list field_at) :=
  let t := s16 (field r p 2) in
  if t =? kHFSPlusFolderRecord then Some ((0, 2) :: folder_fields)
  else if t =? kHFSPlusFileRecord then Some ((0, 2) :: file_fields ++ shift 88 fork_fields ++ shift 168 fork_fields)
  else if (t =? kHFSPlusFolderThreadRecord) || (t =? kHFSPlusFileThreadRecord) then
    Some ((0, 2) :: (4, 4) :: shift 8 (name_fields (field r (p + 8) 2)))
  else None.

Definition hfs_data_fields (r : buffer) (p : Z) : option (list field_at) :=
  let t := s16 (field r p 2) in
  if t =? kHFSFolderRecord then Some ((0, 2) :: hfs_folder_fields)
  else if t =? kHFSFileRecord then Some ((0, 2) :: hfs_file_fields)
  else if (t =? kHFSFolderThreadRecord) || (t =? kHFSFileThreadRecord) then Some [(0, 2); (10, 4)]
  else None.

Definition record_fields (isHFSPlus : bool) (fileID k : Z) (r : buffer) : option (list field_at) :=
  if isHFSPlus then
    let q := field r 0 2 + 2 in
    if fileID =? kHFSExtentsFileID then
      Some ([(0, 2); (4, 4); (8, 4)] ++ shift q (if k =? kBTIndexNode then [(0, 4)] else descriptor_fields 0 4 8))
    else if fileID =? kHFSCatalogFileID then
      d ← (if k =? kBTIndexNode then Some [(0, 4)] else plus_data_fields r q);
      Some ([(0, 2); (2, 4)] ++ shift 6 (name_fields (field r 6 2)) ++ shift q d)
    else None
  else
    let q := Z.land (field r 0 1 + 2) (Z.lnot 1) in
    if fileID =? kHFSExtentsFileID then
      Some ([(2, 4); (6, 2)] ++ shift q (if k =? kBTIndexNode then [(0, 4)] else descriptor_fields 0 2 3))
    else if fileID =? kHFSCatalogFileID then
      d ← (if k =? kBTIndexNode then Some [(0, 4)] else hfs_data_fields r q);
      Some ([(2, 4)] ++ shift q d)
    else None.

(** ** One record *)

Section record.
Context (b : buffer) (o : Z) (r : buffer) (Ho : 14 <= o) (Hb : o + Z.of_nat (length r) <= Z.of_nat (length b)).

(** The node with the fields [D] of the record reversed. *)
Definition state (D : list field_at) : buffer := flip (shift o D) b.
Definition good (D : list field_at) : Prop := separate D /\ Forall (fits (Z.of_nat (length r))) D.

Lemma good_sub D l : D ⊆+ l -> good l -> good D.
Proof using Type.
  intros Hs [[Hn Ha] Hf]. assert (forall f, f ∈ D -> f ∈ l) as Hin by (intros f Hx; by apply (elem_of_submseteq D l f)). split; [split|].
  - apply submseteq_Permutation in Hs as [l' Hl]. rewrite Hl in Hn. by apply NoDup_app in Hn as [? _].
  - intros f g Hf1 Hg. apply Ha; by apply Hin.
  - rewrite Forall_forall in Hf |- *. intros f Hx. by apply Hf, Hin.
Qed.

Lemma good_fits D : good D -> Forall (fits (Z.of_nat (length b))) (shift o D).
Proof using Ho Hb.
  intros [_ Hf]. unfold shift. apply Forall_fmap. apply (Forall_impl _ _ _ Hf). intros f Hx. simpl. apply (fits_shift _ _ _ _ Hx); lia.
Qed.

Lemma state_length D : good D -> length (state D) = length b.
Proof using Ho Hb. intros H. apply flip_length, good_fits, H. Qed.

Lemma state_perm D D' : D ≡ₚ D' -> good D -> state D = state D'.
Proof using Ho Hb.
  intros Hp H. apply flip_perm; [by apply Permutation_map|apply separate_shift, H|by apply good_fits].
Qed.

Lemma state_fields D q l : good (D ++ shift q l) -> swap_fields (state D) (o + q) l = Ok (state (D ++ shift q l)).
Proof using Ho Hb.
  intros H. assert (good D) as HD by (apply (good_sub _ (D ++ shift q l)); [solve_submseteq|done]).
  rewrite swap_fields_ok, <- (shift_shift o q).
  - unfold state. by rewrite <- flip_app, <- shift_app.
  - rewrite state_length, <- (shift_shift o q) by done. apply good_fits. apply (good_sub _ (D ++ shift q l)); [solve_submseteq|done].
Qed.

Lemma state_field D p w : good (D ++ [(p, w)]) -> swap_field (state D) (o + p) w = Ok (state (D ++ [(p, w)])).
Proof using Ho Hb.
  intros H. pose proof (state_fields D 0 [(p, w)]) as Hx. unfold shift in Hx. cbn [map fst snd] in Hx. rewrite Z.add_0_l, Z.add_0_r in Hx.
  specialize (Hx H). cbn [swap_fields] in Hx. by destruct (swap_field (state D) (o + p) w).
Qed.

Lemma state_kind D : good D -> kind (state D) = kind b.
Proof using Ho Hb.
  intros H. unfold kind, load8, get_bytes, in_buffer. rewrite state_length by done. unfold state. rewrite slice_flip_out; [done|apply separate_shift, H|by apply good_fits|lia|].
  intros f Hf. pose proof (good_fits D H) as Hx. destruct H as [_ H]. rewrite Forall_forall in H. apply elem_of_shift in Hf. destruct (H _ Hf) as (? & ? & ?).
  left. simpl in *. lia.
Qed.

Lemma load_state w D p v : good D -> 0 <= p -> 0 <= w -> p + w <= Z.of_nat (length r) -> slice (state D) (o + p) w = v ->
  get_bytes (state D) (o + p) w = Ok v.
Proof using Ho Hb. intros H Hp Hw Hl <-. apply get_bytes_ok; rewrite ?state_length by done; lia. Qed.

(** A field in its place is read as it is, in host order. *)
Lemma read_host D p w : slice b o (Z.of_nat (length r)) = r -> good (D ++ [(p, w)]) -> get_bytes (state D) (o + p) w = Ok (slice r p w).
Proof using Ho Hb.
  intros Hr HG. pose proof HG as [Hs Hf]. apply separate_app in Hs as (_ & _ & Ha). apply Forall_app in Hf as [_ Hf]. apply Forall_cons in Hf as [(? & ? & ?) _]. simpl in *.
  assert (good D) as HD by (apply (good_sub _ (D ++ [(p, w)])); [solve_submseteq|done]).
  apply load_state; [done|lia..|]. unfold state. rewrite slice_flip_out; [|apply separate_shift, HD|by apply good_fits|lia|].
  - rewrite <- (slice_slice b o (Z.of_nat (length r)) p w), Hr by lia. done.
  - intros f Hf. apply elem_of_shift in Hf. pose proof (Ha _ (p, w) Hf ltac:(apply list_elem_of_singleton; done)) as Hx.
    unfold apart in *. simpl in *. lia.
Qed.

(** One that was reversed on the disk is read after it has been reversed again. *)
Lemma read_disk D l p w : slice b o (Z.of_nat (length r)) = flip l r -> good l -> (D ++ [(p, w)]) ⊆+ l ->
  get_bytes (state (D ++ [(p, w)])) (o + p) w = Ok (slice r p w).
Proof using Ho Hb.
  intros Hr Hl HD. assert (good (D ++ [(p, w)])) as HG by by apply (good_sub _ l).
  assert ((p, w) ∈ l) as Hin by (apply (elem_of_submseteq (D ++ [(p, w)]) l); [set_solver|done]).
  pose proof Hl as [Hs Hf]. pose proof Hf as Hf'. rewrite Forall_forall in Hf. destruct (Hf _ Hin) as (? & ? & ?). simpl in *.
  apply load_state; [done|lia..|]. unfold state.
  rewrite (slice_flip_in _ b (o + p, w)); [|apply separate_shift, HG|by apply good_fits|].
  - cbn [fst snd]. rewrite <- (slice_slice b o (Z.of_nat (length r)) p w), Hr by lia.
    pose proof (slice_flip_in l r (p, w) Hs Hf' Hin) as E. cbn [fst snd] in E. rewrite E. apply rev_involutive.
  - apply elem_of_shift. simpl. replace (o + p - o) with p by lia. set_solver.
Qed.

(** What no field covers is the same in both orders. *)
Lemma read_both u D l p w : slice b o (Z.of_nat (length r)) = (if u : bool then r else flip l r) -> good l -> D ⊆+ l -> 0 <= p -> 0 <= w ->
  p + w <= Z.of_nat (length r) -> (forall f, f ∈ l -> apart (p, w) f) -> get_bytes (state D) (o + p) w = Ok (slice r p w).
Proof using Ho Hb.
  intros Hr Hl HD Hp Hw Hpw Ha. assert (good D) as HG by by apply (good_sub _ l). apply load_state; [done|lia..|]. unfold state.
  rewrite slice_flip_out; [|apply separate_shift, HG|by apply good_fits|lia|].
  - rewrite <- (slice_slice b o (Z.of_nat (length r)) p w), Hr by lia. destruct u; [done|].
    apply slice_flip_out; [apply Hl|apply Hl|done|done].
  - intros f Hf. apply elem_of_shift in Hf. pose proof (Ha _ (elem_of_submseteq _ _ _ Hf HD)) as Hx. unfold apart in *. simpl in *. lia.
Qed.

(** The record as it is found: in the order of the host before it is unswapped. *)
Definition image (u : bool) (l : list field_at) : Prop := slice b o (Z.of_nat (length r)) = if u then r else flip l r.

Context (u : bool) (l : list field_at) (Himage : image u l) (Hl : good l).

Lemma good_of D : D ⊆+ l -> good D.
Proof using Hl. intros H. by apply (good_sub _ l). Qed.

(** A field that tells the length or type of what follows is swapped first and unswapped
    last. *)
Lemma around D p (K : buffer -> Z -> outcome buffer) E : D ++ (p, 2) :: E ⊆+ l ->
  (forall D', D' ++ E ⊆+ l -> K (state D') (field r p 2) = Ok (state (D' ++ E))) ->
  (b ← swap_when (negb u) (state D) (o + p) 2; v ← load16 b (o + p); b ← K b v; swap_when u b (o + p) 2) = Ok (state (D ++ (p, 2) :: E)).
Proof using Ho Hb Himage Hl.
  intros HD HK. unfold load16, swap_when. unfold image in Himage. destruct u; cbn [negb].
  - cbn [mbind outcome_bind]. rewrite (read_host D p 2 Himage) by (apply good_of; rewrite <- HD; solve_submseteq). cbn [mbind outcome_bind].
    change (le_decode (slice r p 2)) with (field r p 2). rewrite HK by (rewrite <- HD; solve_submseteq). cbn [mbind outcome_bind].
    rewrite state_field by (apply good_of; rewrite <- HD; solve_submseteq). f_equal. apply state_perm; [solve_Permutation|].
    apply good_of. rewrite <- HD. solve_submseteq.
  - rewrite state_field by (apply good_of; rewrite <- HD; solve_submseteq). cbn [mbind outcome_bind].
    rewrite (read_disk D l p 2 Himage Hl) by (rewrite <- HD; solve_submseteq). cbn [mbind outcome_bind].
    change (le_decode (slice r p 2)) with (field r p 2). rewrite HK by (rewrite <- HD; solve_submseteq). cbn [mbind outcome_bind].
    by rewrite <- app_assoc.
Qed.

(** The length of a key is swapped back as soon as it has been read. *)
Lemma key_length {A} D (K : buffer -> Z -> outcome A) p : D ++ [(p, 2)] ⊆+ l ->
  (b ← swap_when (negb u) (state D) (o + p) 2; v ← load16 b (o + p); b ← swap_when u b (o + p) 2; K b v) =
  K (state (D ++ [(p, 2)])) (field r p 2).
Proof using Ho Hb Himage Hl.
  intros HD. unfold load16, swap_when. unfold image in Himage. destruct u; cbn [negb].
  - cbn [mbind outcome_bind]. rewrite (read_host D p 2 Himage) by by apply good_of. cbn [mbind outcome_bind].
    by rewrite state_field by by apply good_of.
  - rewrite state_field by by apply good_of. cbn [mbind outcome_bind]. by rewrite (read_disk D l p 2 Himage Hl).
Qed.

Lemma swap_name_ok D p : D ++ shift p (name_fields (field r p 2)) ⊆+ l ->
  swap_name (state D) (o + p) u = Ok (state (D ++ shift p (name_fields (field r p 2)))).
Proof using Ho Hb Himage Hl.
  unfold name_fields, shift at 1 2. cbn [map fst snd]. rewrite Z.add_0_r. intros HD.
  apply (around D p (fun b n => swap_fields b (o + p) (char_fields 2 n))); [done|].
  intros D' HD'. apply state_fields. by apply good_of.
Qed.

Lemma swap_record_plus_ok D p d : plus_data_fields r p = Some d -> D ++ shift p d ⊆+ l ->
  swap_record_plus (state D) (o + p) u = Ok (state (D ++ shift p d)).
Proof using Ho Hb Himage Hl.
  unfold plus_data_fields. intros Hd HD.
  assert (exists E, d = (0, 2) :: E) as [E ->] by (repeat case_match; simplify_eq; eauto).
  unfold shift in HD |- *. cbn [map fst snd] in HD |- *. rewrite Z.add_0_r in HD |- *. fold (shift p E) in HD |- *.
  unfold swap_record_plus. cbv zeta in Hd.
  apply (around D p (fun b v => if s16 v =? kHFSPlusFolderRecord then swap_fields b (o + p) folder_fields
       else if s16 v =? kHFSPlusFileRecord then
         b ← swap_fields b (o + p) file_fields; b ← hfs_swap_HFSPlusForkData b (o + p + 88); hfs_swap_HFSPlusForkData b (o + p + 168)
       else if (s16 v =? kHFSPlusFolderThreadRecord) || (s16 v =? kHFSPlusFileThreadRecord) then
         b ← swap_field b (o + p + 4) 4; swap_name b (o + p + 8) u
       else Panic "hfs_swap_BTNode: unrecognized catalog record type")); [done|].
  intros D' HD'. destruct (_ =? kHFSPlusFolderRecord); [injection Hd as <-; apply state_fields; by apply good_of|].
  destruct (_ =? kHFSPlusFileRecord); [|destruct (_ || _); [|done]].
  - assert (E = file_fields ++ shift 88 fork_fields ++ shift 168 fork_fields) as -> by congruence.
    rewrite !shift_app, !shift_shift in HD' |- *. unfold hfs_swap_HFSPlusForkData. rewrite <- !Z.add_assoc.
    rewrite state_fields by (apply good_of; rewrite <- HD'; solve_submseteq). cbn [mbind outcome_bind].
    rewrite state_fields by (apply good_of; rewrite <- HD'; solve_submseteq). cbn [mbind outcome_bind].
    rewrite state_fields by (apply good_of; rewrite <- HD'; solve_submseteq). by rewrite <- !app_assoc.
  - assert (E = (4, 4) :: shift 8 (name_fields (field r (p + 8) 2))) as -> by congruence.
    change (shift p ((4, 4) :: shift 8 (name_fields (field r (p + 8) 2)))) with ((p + 4, 4) :: shift p (shift 8 (name_fields (field r (p + 8) 2)))) in HD' |- *.
    rewrite shift_shift in HD' |- *. rewrite <- !Z.add_assoc.
    rewrite state_field by (apply good_of; rewrite <- HD'; solve_submseteq). cbn [mbind outcome_bind].
    rewrite swap_name_ok by (rewrite <- app_assoc; exact HD'). by rewrite <- app_assoc.
Qed.

Lemma swap_record_ok D p d : hfs_data_fields r p = Some d -> D ++ shift p d ⊆+ l ->
  swap_record (state D) (o + p) u = Ok (state (D ++ shift p d)).
Proof using Ho Hb Himage Hl.
  unfold hfs_data_fields. intros Hd HD.
  assert (exists E, d = (0, 2) :: E) as [E ->] by (repeat case_match; simplify_eq; eauto).
  unfold shift in HD |- *. cbn [map fst snd] in HD |- *. rewrite Z.add_0_r in HD |- *. fold (shift p E) in HD |- *.
  unfold swap_record. cbv zeta in Hd.
  apply (around D p (fun b v => if s16 v =? kHFSFolderRecord then swap_fields b (o + p) hfs_folder_fields
       else if s16 v =? kHFSFileRecord then swap_fields b (o + p) hfs_file_fields
       else if (s16 v =? kHFSFolderThreadRecord) || (s16 v =? kHFSFileThreadRecord) then swap_field b (o + p + 10) 4
       else Panic "hfs_swap_BTNode: unrecognized catalog record type")); [done|].
  intros D' HD'. destruct (_ =? kHFSFolderRecord); [|destruct (_ =? kHFSFileRecord); [|destruct (_ || _); [|done]]].
  - assert (E = hfs_folder_fields) as -> by congruence. apply state_fields. by apply good_of.
  - assert (E = hfs_file_fields) as -> by congruence. apply state_fields. by apply good_of.
  - assert (E = [(10, 4)]) as -> by congruence. rewrite <- Z.add_assoc. apply state_field. by apply good_of.
Qed.

Lemma swap_child_ok D q : D ++ shift q [(0, 4)] ⊆+ l -> swap_child (state D) (o + q) = Ok (state (D ++ shift q [(0, 4)])).
Proof using Ho Hb Hl.
  unfold shift. cbn [map fst snd]. rewrite Z.add_0_r. intros HD. apply state_field. by apply good_of.
Qed.

Lemma key_length_0 {A} D (K : buffer -> Z -> outcome A) : D ++ [(0, 2)] ⊆+ l ->
  (b ← swap_when (negb u) (state D) o 2; v ← load16 b o; b ← swap_when u b o 2; K b v) = K (state (D ++ [(0, 2)])) (field r 0 2).
Proof using Ho Hb Himage Hl. intros HD. rewrite <- (key_length D K 0 HD). by rewrite Z.add_0_r. Qed.

Context (k : Z) (Hkind : kind b = Ok k).

Lemma swap_extent_plus_ok : record_fields true kHFSExtentsFileID k r = Some l -> swap_extent_plus b o u = Ok (state l).
Proof using All.
  intros E. assert (l = [(0, 2); (4, 4); (8, 4)] ++ shift (field r 0 2 + 2) (if k =? kBTIndexNode then [(0, 4)] else descriptor_fields 0 4 8)) as El
    by (unfold record_fields in E; rewrite Z.eqb_refl in E; congruence).
  unfold swap_extent_plus. change b with (state []) at 1.
  rewrite (key_length_0 [] (fun b v => b ← swap_fields b o [(4, 4); (8, 4)]; k ← kind b;
    if k =? kBTIndexNode then swap_child b (o + v + 2) else swap_fields b (o + v + 2) (descriptor_fields 0 4 8))) by (rewrite El; solve_submseteq).
  cbn [app]. pose proof (state_fields [(0, 2)] 0 [(4, 4); (8, 4)]) as Hx. rewrite Z.add_0_r in Hx. change (shift 0 [(4, 4); (8, 4)]) with [(4, 4); (8, 4)] in Hx.
  rewrite Hx by (apply good_of; rewrite El; solve_submseteq). cbn [mbind outcome_bind app].
  rewrite state_kind, Hkind by (apply good_of; rewrite El; solve_submseteq). cbn [mbind outcome_bind]. rewrite <- Z.add_assoc, El.
  destruct (k =? kBTIndexNode).
  - apply swap_child_ok. by rewrite El.
  - apply state_fields. apply good_of. by rewrite El.
Qed.

Lemma swap_catalog_plus_ok : record_fields true kHFSCatalogFileID k r = Some l -> swap_catalog_plus b o u = Ok (state l).
Proof using All.
  intros E. assert (exists d, (if k =? kBTIndexNode then Some [(0, 4)] else plus_data_fields r (field r 0 2 + 2)) = Some d /\
    l = [(0, 2); (2, 4)] ++ shift 6 (name_fields (field r 6 2)) ++ shift (field r 0 2 + 2) d) as (d & Hd & El).
  { unfold record_fields in E. change (kHFSCatalogFileID =? kHFSExtentsFileID) with false in E. rewrite Z.eqb_refl in E.
    apply bind_Some in E as (d & Hd & [= <-]). by exists d. }
  unfold swap_catalog_plus. change b with (state []) at 1.
  rewrite (key_length_0 [] (fun b v => b ← swap_field b (o + 2) 4; b ← swap_name b (o + 6) u; k ← kind b;
    if k =? kBTIndexNode then swap_child b (o + v + 2) else swap_record_plus b (o + v + 2) u)) by (rewrite El; solve_submseteq).
  cbn [app]. rewrite state_field by (apply good_of; rewrite El; solve_submseteq). cbn [mbind outcome_bind app].
  rewrite swap_name_ok by (rewrite El; solve_submseteq). cbn [mbind outcome_bind].
  rewrite state_kind, Hkind by (apply good_of; rewrite El; solve_submseteq). cbn [mbind outcome_bind]. rewrite <- Z.add_assoc, El, app_assoc.
  destruct (k =? kBTIndexNode).
  - injection Hd as <-. apply swap_child_ok. by rewrite El, app_assoc.
  - apply swap_record_plus_ok; [done|]. by rewrite El, app_assoc.
Qed.

(** The length of an HFS key is one byte. *)
Lemma key_byte {A} D (K : Z -> outcome A) : Forall (fun f => 1 <= f.1) l -> D ⊆+ l -> l <> [] ->
  (v ← load8 (state D) o; K v) = K (field r 0 1).
Proof using Ho Hb Himage Hl.
  intros Hx HD Hne. unfold load8. rewrite <- (Z.add_0_r o). rewrite (read_both u D l 0 1 Himage Hl HD); [done|lia..| |].
  - destruct l as [|f l']; [done|]. destruct Hl as [_ Hf]. apply Forall_cons in Hf as [(? & ? & ?) _]. lia.
  - intros f Hf. rewrite Forall_forall in Hx. left. simpl. by apply Hx.
Qed.

Lemma swap_extent_ok : Forall (fun f => 1 <= f.1) l -> record_fields false kHFSExtentsFileID k r = Some l -> swap_extent b o u = Ok (state l).
Proof using All.
  intros Hpos E. set (q := Z.land (field r 0 1 + 2) (Z.lnot 1)) in *.
  assert (l = [(2, 4); (6, 2)] ++ shift q (if k =? kBTIndexNode then [(0, 4)] else descriptor_fields 0 2 3)) as El
    by (unfold record_fields in E; rewrite Z.eqb_refl in E; unfold q; congruence).
  unfold swap_extent. change b with (state []) at 1. pose proof (state_fields [] 0 [(2, 4); (6, 2)]) as Hx.
  rewrite Z.add_0_r in Hx. change (shift 0 [(2, 4); (6, 2)]) with [(2, 4); (6, 2)] in Hx.
  rewrite Hx by (apply good_of; rewrite El; solve_submseteq). cbn [mbind outcome_bind app].
  rewrite (key_byte _ (fun v => k ← kind (state [(2, 4); (6, 2)]); if k =? kBTIndexNode then swap_child (state [(2, 4); (6, 2)]) (o + Z.land (v + 2) (Z.lnot 1))
    else swap_fields (state [(2, 4); (6, 2)]) (o + Z.land (v + 2) (Z.lnot 1)) (descriptor_fields 0 2 3))); [|done|rewrite El; solve_submseteq|by rewrite El].
  rewrite state_kind, Hkind by (apply good_of; rewrite El; solve_submseteq). cbn [mbind outcome_bind]. fold q. rewrite El.
  destruct (k =? kBTIndexNode).
  - apply swap_child_ok. by rewrite El.
  - apply state_fields. apply good_of. by rewrite El.
Qed.

Lemma swap_catalog_ok : Forall (fun f => 1 <= f.1) l -> record_fields false kHFSCatalogFileID k r = Some l -> swap_catalog b o u = Ok (state l).
Proof using All.
  intros Hpos E. set (q := Z.land (field r 0 1 + 2) (Z.lnot 1)) in *.
  assert (exists d, (if k =? kBTIndexNode then Some [(0, 4)] else hfs_data_fields r q) = Some d /\ l = [(2, 4)] ++ shift q d) as (d & Hd & El).
  { unfold record_fields in E. change (kHFSCatalogFileID =? kHFSExtentsFileID) with false in E. rewrite Z.eqb_refl in E.
    apply bind_Some in E as (d & Hd & [= <-]). by exists d. }
  unfold swap_catalog. change b with (state []) at 1.
  rewrite state_field by (apply good_of; rewrite El; solve_submseteq). cbn [mbind outcome_bind app].
  rewrite (key_byte _ (fun v => k ← kind (state [(2, 4)]); if k =? kBTIndexNode then swap_child (state [(2, 4)]) (o + Z.land (v + 2) (Z.lnot 1))
    else swap_record (state [(2, 4)]) (o + Z.land (v + 2) (Z.lnot 1)) u)); [|done|rewrite El; solve_submseteq|by rewrite El].
  rewrite state_kind, Hkind by (apply good_of; rewrite El; solve_submseteq). cbn [mbind outcome_bind]. fold q. rewrite El.
  destruct (k =? kBTIndexNode).
  - injection Hd as <-. apply swap_child_ok. by rewrite El.
  - apply swap_record_ok; [done|]. by rewrite El.
Qed.
End record.

(** ** Regions of a node *)

Definition between (lo hi : Z) (l : list field_at) : Prop := Forall (fun f => lo <= f.1 /\ 0 < f.2 /\ f.1 + f.2 <= hi) l.

Lemma between_weaken lo hi lo' hi' l : between lo hi l -> lo' <= lo -> hi <= hi' -> between lo' hi' l.
Proof. intros H ? ?. apply (Forall_impl _ _ _ H). intros f ?. lia. Qed.

Lemma between_fits lo hi n l : between lo hi l -> 0 <= lo -> hi <= n -> Forall (fits n) l.
Proof. intros H ? ?. apply (Forall_impl _ _ _ H). intros f ?. unfold fits. lia. Qed.

Lemma between_shift lo hi d l : between lo hi l -> between (d + lo) (d + hi) (shift d l).
Proof. intros H. unfold between, shift. apply Forall_fmap. apply (Forall_impl _ _ _ H). simpl. intros f ?. lia. Qed.

Lemma between_apart lo hi lo' hi' l1 l2 f g : between lo hi l1 -> between lo' hi' l2 -> hi <= lo' \/ hi' <= lo -> f ∈ l1 -> g ∈ l2 -> apart f g.
Proof.
  unfold between. rewrite !Forall_forall. intros H1 H2 Hd Hf Hg. specialize (H1 f Hf). specialize (H2 g Hg). unfold apart. lia.
Qed.

Lemma separate_app_2 lo hi lo' hi' l1 l2 : between lo hi l1 -> between lo' hi' l2 -> hi <= lo' \/ hi' <= lo ->
  separate l1 -> separate l2 -> separate (l1 ++ l2).
Proof.
  intros H1 H2 Hd [Hn1 Ha1] [Hn2 Ha2].
  assert (forall f g, f ∈ l1 -> g ∈ l2 -> apart f g) as Hx by (intros f g; by apply (between_apart lo hi lo' hi' l1 l2)).
  split.
  - apply NoDup_app. split_and!; [done| |done]. intros f Hf Hg. unfold between in H1. rewrite Forall_forall in H1. specialize (H1 f Hf).
    destruct (Hx f f Hf Hg); lia.
  - intros f g [Hf|Hf]%elem_of_app [Hg|Hg]%elem_of_app Hne; [by apply Ha1|by apply Hx| |by apply Ha2].
    destruct (Hx g f Hg Hf); [by right|by left].
Qed.

(** Reversing fields in one place does not change another. *)
Lemma slice_flip_far lo hi l b p n : between lo hi l -> 0 <= lo -> hi <= Z.of_nat (length b) -> separate l -> 0 <= p -> p + n <= lo \/ hi <= p ->
  slice (flip l b) p n = slice b p n.
Proof.
  intros H Hlo Hhi Hs Hp Hd. apply slice_flip_out; [done|by apply (between_fits lo hi)|done|].
  unfold between in H. rewrite Forall_forall in H. intros f Hf. specialize (H f Hf). unfold apart. simpl. lia.
Qed.

Lemma slice_flip_field b o n p w : 0 <= o -> fits n (p, w) -> o + n <= Z.of_nat (length b) ->
  slice (flip_field b (o + p, w)) o n = flip_field (slice b o n) (p, w).
Proof.
  intros Ho (H1 & H2 & H3) Hb. simpl in *. apply list_eq. intros i.
  pose proof (slice_length b o n ltac:(lia) ltac:(lia) ltac:(lia)) as HL.
  rewrite slice_lookup, flip_field_lookup by (unfold fits; simpl; lia).
  rewrite flip_field_lookup by (unfold fits; simpl; lia). unfold inside, mirror. simpl.
  destruct (decide (p <= Z.of_nat i < p + w)) as [Hi|Hi].
  - rewrite !decide_True by lia. rewrite slice_lookup, decide_True by lia. f_equal. lia.
  - rewrite slice_lookup. case_decide; [|done]. rewrite decide_False by lia. done.
Qed.

(** A part of the node on its own. *)
Lemma slice_flip_near l b o n : 0 <= o -> 0 <= n -> o + n <= Z.of_nat (length b) -> Forall (fits n) l ->
  slice (flip (shift o l) b) o n = flip l (slice b o n).
Proof.
  intros Ho Hn Hb Hf. revert b Hb. induction Hf as [|[p w] l Hx Hf IH]; intros b Hb; [done|].
  change (flip (shift o ((p, w) :: l)) b) with (flip (shift o l) (flip_field b (o + p, w))).
  change (flip ((p, w) :: l) (slice b o n)) with (flip l (flip_field (slice b o n) (p, w))).
  assert (fits (Z.of_nat (length b)) (o + p, w)) by (destruct Hx as (? & ? & ?); unfold fits; simpl in *; lia).
  rewrite IH by (rewrite flip_field_length; done). f_equal. by apply slice_flip_field.
Qed.

Lemma numRecords_slice b b' : length b' = length b -> slice b' 10 2 = slice b 10 2 -> numRecords b' = numRecords b.
Proof. intros HL Hs. unfold numRecords, load16, get_bytes, in_buffer. by rewrite HL, Hs. Qed.
Lemma kind_slice b b' : length b' = length b -> slice b' 8 1 = slice b 8 1 -> kind b' = kind b.
Proof. intros HL Hs. unfold kind, load8, get_bytes, in_buffer. by rewrite HL, Hs. Qed.

(** ** The offsets *)

Definition offset_fields (n : nat) : list field_at := map (fun i => (2 * Z.of_nat i, 2)) (seq 0 n).

Lemma offset_fields_S n : offset_fields (S n) = offset_fields n ++ [(2 * Z.of_nat n, 2)].
Proof. unfold offset_fields. by rewrite seq_S, map_app. Qed.

Lemma offset_fields_ascending n : ascending 0 (2 * Z.of_nat n) (offset_fields n) = true.
Proof.
  induction n as [|n IH]; [done|]. rewrite offset_fields_S, ascending_app. exists (2 * Z.of_nat n). split; [done|].
  rewrite ascending_cons. split_and!; [lia..|]. apply Z.leb_le. lia.
Qed.

Lemma offset_fields_prefix i n : (i <= n)%nat -> offset_fields i ⊆+ offset_fields n.
Proof. intros H. unfold offset_fields. replace n with (i + (n - i))%nat by lia. rewrite seq_app, map_app. apply submseteq_inserts_r. done. Qed.

Section offsets.
Context (size : Z) (n : nat) (b r : buffer) (u : bool).
Local Abbreviation o := (size - (Z.of_nat n + 1) * 2).
Context (Hsize : Z.of_nat (length b) = size) (Ho : 14 <= o) (Hmax : size <= 32768).
Context (Hr : Z.of_nat (length r) = 2 * (Z.of_nat n + 1)) (Hn : numRecords b = Ok (Z.of_nat n)).
Context (Himage : image b o r u (offset_fields (S n))).
Context (Hrange : forall i, (i <= n)%nat -> field r (2 * Z.of_nat i) 2 < size).

Lemma offsets_good i : (i <= S n)%nat -> good r (offset_fields i).
Proof using All.
  intros Hi. apply (good_sub _ _ (offset_fields (S n))); [by apply offset_fields_prefix|].
  pose proof (offset_fields_ascending (S n)) as Ha. split; [by apply (ascending_separate _ _ _ Ha)|].
  rewrite Hr. replace (2 * (Z.of_nat n + 1)) with (2 * Z.of_nat (S n)) by lia. by apply (ascending_fits 0).
Qed.

Lemma swap_offset_ok i : (i <= n)%nat ->
  swap_offset size o u (state b o (offset_fields i)) (Z.of_nat i) = Ok (state b o (offset_fields (S i))).
Proof using All.
  intros Hi. rewrite offset_fields_S.
  rewrite <- (around b o r Ho ltac:(lia) u (offset_fields (S n)) Himage (offsets_good (S n) (le_n _)) (offset_fields i) (2 * Z.of_nat i)
    (fun b v => if size <=? v then Panic "hfs_swap_BTNode: B-Tree node offset out of range" else Ok b) []).
  - unfold swap_offset. destruct (swap_when _ _ _ _) as [b'| | |]; [|done..]. cbn [mbind outcome_bind].
    destruct (load16 b' _); [|done..]. cbn [mbind outcome_bind]. by destruct (size <=? a).
  - rewrite <- offset_fields_S. apply offset_fields_prefix. lia.
  - intros D' HD'. specialize (Hrange i Hi). destruct (Z.leb_spec size (field r (2 * Z.of_nat i) 2)); [lia|]. by rewrite app_nil_r.
Qed.

Lemma offsets_records i : (i <= S n)%nat -> numRecords (state b o (offset_fields i)) = Ok (Z.of_nat n).
Proof using All.
  intros Hi. pose proof (offsets_good i Hi) as HG. rewrite <- Hn. apply numRecords_slice; [apply (state_length b o r Ho ltac:(lia) _ HG)|].
  unfold state. pose proof (ascending_bounds _ _ _ (offset_fields_ascending i)) as Hb.
  apply (slice_flip_far (o + 0) (o + 2 * Z.of_nat i)); [by apply between_shift|lia..|apply separate_shift, HG|lia|lia].
Qed.

Lemma swap_offsets_ok : swap_offsets size u b = Ok (state b o (offset_fields (S n))).
Proof using All.
  unfold swap_offsets. rewrite Hn. cbn [mbind outcome_bind]. destruct (Z.ltb_spec size o); [lia|].
  enough (forall fuel i, (i <= S n)%nat -> (S n - i < fuel)%nat ->
    for_each fuel (fun b => n ← numRecords b; Ok (n + 1)) (swap_offset size o u) (state b o (offset_fields i)) (Z.of_nat i) =
    Ok (state b o (offset_fields (S n)))) as Hloop.
  { apply (Hloop for_fuel 0%nat); [lia|]. unfold for_fuel. lia. }
  intros fuel. induction fuel as [|fuel IH]; intros i Hi Hf; [lia|]. cbn [for_each].
  rewrite offsets_records by done. cbn [mbind outcome_bind]. destruct (Z.ltb_spec (Z.of_nat i) (Z.of_nat n + 1)).
  - rewrite swap_offset_ok by lia. cbn [mbind outcome_bind]. replace (Z.of_nat i + 1) with (Z.of_nat (S i)) by lia. apply IH; lia.
  - by replace i with (S n) by lia.
Qed.
End offsets.

(** ** The records *)

Definition record_op (isHFSPlus : bool) (fileID : Z) : buffer -> Z -> bool -> outcome buffer :=
  if isHFSPlus then if fileID =? kHFSExtentsFileID then swap_extent_plus else swap_catalog_plus
  else if fileID =? kHFSExtentsFileID then swap_extent else swap_catalog.

Lemma record_op_ok plus fileID k b o r u l : 14 <= o -> o + Z.of_nat (length r) <= Z.of_nat (length b) -> image b o r u l -> kind b = Ok k ->
  record_fields plus fileID k r = Some l -> ascending 0 (Z.of_nat (length r)) l = true ->
  record_op plus fileID b o u = Ok (flip (shift o l) b).
Proof.
  intros Ho Hb Hi Hk E Ha. assert (good r l) as Hg by (split; [by apply (ascending_separate _ _ _ Ha)|by apply (ascending_fits 0)]).
  assert (fileID = kHFSExtentsFileID \/ fileID = kHFSCatalogFileID) as Hid.
  { unfold record_fields in E. destruct plus; destruct (Z.eqb_spec fileID kHFSExtentsFileID), (Z.eqb_spec fileID kHFSCatalogFileID); tauto || done. }
  unfold record_op. destruct plus.
  - destruct Hid as [-> | ->]; [by apply (swap_extent_plus_ok b o r Ho Hb u l Hi Hg k Hk)|by apply (swap_catalog_plus_ok b o r Ho Hb u l Hi Hg k Hk)].
  - assert (Forall (fun f => 1 <= f.1) l) as Hpos.
    { assert (exists t, l = (2, 4) :: t) as [t ->].
      { unfold record_fields in E. destruct Hid as [-> | ->]; cbn [Z.eqb] in E; [injection E as <-; by eexists|].
        apply bind_Some in E as (d & _ & [= <-]). by eexists. }
      apply ascending_cons in Ha as (_ & _ & Ha). constructor; [simpl; lia|].
      apply (Forall_impl _ _ _ (ascending_bounds _ _ _ Ha)). intros f ?. lia. }
    destruct Hid as [-> | ->]; [by apply (swap_extent_ok b o r Ho Hb u l Hi Hg k Hk)|by apply (swap_catalog_ok b o r Ho Hb u l Hi Hg k Hk)].
Qed.

Lemma internal_node size b plus fileID u : fileID = kHFSExtentsFileID \/ fileID = kHFSCatalogFileID ->
  (if plus : bool then hfs_swap_HFSPlusBTInternalNode size b fileID u else hfs_swap_HFSBTInternalNode size b fileID u) =
  swap_records size (fun b p => record_op plus fileID b p u) b.
Proof. intros [-> | ->]; by destruct plus. Qed.

Section node.
Context (plus : bool) (fileID k size : Z) (recs : list buffer) (ls : list (list field_at)) (host : buffer).
Context (Hh : node_holds size recs host).
Context (Hlay : Forall2 (fun r l => record_fields plus fileID k r = Some l /\ ascending 0 (Z.of_nat (length r)) l = true) recs ls).

(** The fields of record [j], and of the last [i] records, which the code takes from the
    last to the first. *)
Definition group (j : nat) : list field_at := shift (rec_offset recs j) (default [] (ls !! j)).
Fixpoint groups (i : nat) : list field_at :=
  match i with
  | O => []
  | S i => groups i ++ group (length recs - 1 - i)
  end.

Lemma group_record j : (j < length recs)%nat -> exists r l, recs !! j = Some r /\ ls !! j = Some l /\ group j = shift (rec_offset recs j) l /\
  record_fields plus fileID k r = Some l /\ ascending 0 (Z.of_nat (length r)) l = true.
Proof using Hlay.
  intros Hj. destruct (lookup_lt_is_Some_2 recs j Hj) as [r Hr]. destruct (Forall2_lookup_l _ _ _ _ _ Hlay Hr) as (l & Hl & H1 & H2).
  exists r, l. unfold group. by rewrite Hl.
Qed.

Lemma group_between j : (j < length recs)%nat -> between (rec_offset recs j) (rec_offset recs (S j)) (group j) /\ separate (group j).
Proof using Hlay.
  intros Hj. destruct (group_record j Hj) as (r & l & Hr & _ & -> & _ & Ha). pose proof (rec_offset_S _ _ _ Hr) as ->. split.
  - rewrite <- (Z.add_0_r (rec_offset recs j)) at 1. apply between_shift, (ascending_bounds _ _ _ Ha).
  - apply separate_shift, (ascending_separate _ _ _ Ha).
Qed.

Lemma groups_between i : (i <= length recs)%nat ->
  between (rec_offset recs (length recs - i)) (rec_offset recs (length recs)) (groups i) /\ separate (groups i).
Proof using Hlay.
  induction i as [|i IH]; intros Hi; [split; [constructor|by split; [constructor|intros ? ? ?%not_elem_of_nil]]|].
  destruct (IH ltac:(lia)) as [Hb Hs]. destruct (group_between (length recs - 1 - i) ltac:(lia)) as [Hg Hgs].
  replace (length recs - S i)%nat with (length recs - 1 - i)%nat by lia.
  replace (S (length recs - 1 - i)) with (length recs - i)%nat in Hg by lia. cbn [groups].
  pose proof (rec_offset_mono recs (length recs - 1 - i) (length recs - i) ltac:(lia)).
  pose proof (rec_offset_mono recs (length recs - i) (length recs) ltac:(lia)). split.
  - apply Forall_app. split; [apply (between_weaken _ _ _ _ _ Hb); lia|apply (between_weaken _ _ _ _ _ Hg); lia].
  - apply (separate_app_2 _ _ _ _ _ _ Hb Hg); [by right|done|done].
Qed.

(** A node whose records are all in the order [u] says, and the rest in that of the host. *)
Record node_image (u : bool) (b : buffer) : Prop := {
  ni_length : Z.of_nat (length b) = size;
  ni_count : slice b 10 2 = slice host 10 2;
  ni_kind : kind b = Ok k;
  ni_entry i : (i <= length recs)%nat -> slice b (entry_pos size i) 2 = slice host (entry_pos size i) 2;
  ni_record j r l : recs !! j = Some r -> ls !! j = Some l -> image b (rec_offset recs j) r u l
}.

Context (u : bool) (b : buffer) (Hb : node_image u b).

Lemma image_count : numRecords b = Ok (Z.of_nat (length recs)).
Proof using Hh Hb.
  destruct Hb as [HL Hc _ _ _]. pose proof (node_holds_bounds _ _ _ 0 Hh ltac:(lia)). unfold numRecords.
  rewrite (load16_slice b 10 (Z.of_nat (length recs))); [done|lia..|]. rewrite Hc. apply (nh_count _ _ _ Hh).
Qed.

Lemma groups_far i p n : (i <= length recs)%nat -> 0 <= p -> p + n <= rec_offset recs (length recs - i) \/ rec_offset recs (length recs) <= p ->
  slice (flip (groups i) b) p n = slice b p n /\ length (flip (groups i) b) = length b.
Proof using Hh Hlay Hb.
  intros Hi Hp Hd. destruct (groups_between i Hi) as [Hg Hs]. pose proof (ni_length _ _ Hb).
  pose proof (rec_offset_ge recs (length recs - i)). pose proof (node_holds_bounds _ _ _ (length recs) Hh ltac:(lia)). split.
  - apply (slice_flip_far _ _ _ _ _ _ Hg); [lia..|done|done|done].
  - apply flip_length, (between_fits _ _ _ _ Hg); lia.
Qed.

Lemma record_round i : (i < length recs)%nat ->
  (p ← load16 (flip (groups i) b) (size - Z.of_nat (length recs) * 2 + 2 * Z.of_nat i); record_op plus fileID (flip (groups i) b) p u) =
  Ok (flip (groups (S i)) b).
Proof using Hh Hlay Hb.
  intros Hi. destruct (group_record (length recs - 1 - i) ltac:(lia)) as (r & l & Hr & Hl & Eg & HF & Ha).
  pose proof (rec_offset_S _ _ _ Hr) as Hnext. replace (S (length recs - 1 - i)) with (length recs - i)%nat in Hnext by lia.
  pose proof (rec_offset_ge recs (length recs - 1 - i)). pose proof (node_holds_bounds _ _ _ (length recs) Hh ltac:(lia)).
  pose proof (node_holds_bounds _ _ _ (length recs - 1 - i) Hh ltac:(lia)). pose proof (rec_offset_mono recs (length recs - i) (length recs) ltac:(lia)).
  pose proof (ni_length _ _ Hb) as HL. pose proof (rec_offset_ge recs (length recs)).
  destruct (groups_far i 8 1 ltac:(lia) ltac:(lia)) as [Hk8 Hlen]; [left; pose proof (rec_offset_ge recs (length recs - i)); lia|].
  rewrite (load16_slice _ _ (rec_offset recs (length recs - 1 - i))); [|lia..|].
  2: { replace (size - Z.of_nat (length recs) * 2 + 2 * Z.of_nat i) with (entry_pos size (length recs - 1 - i)) by (unfold entry_pos; lia).
       destruct (groups_far i (entry_pos size (length recs - 1 - i)) 2 ltac:(lia)) as [-> _]; [unfold entry_pos; lia|right; unfold entry_pos; lia|].
       rewrite (ni_entry _ _ Hb) by lia. apply (nh_offsets _ _ _ Hh). lia. }
  cbn [mbind outcome_bind groups]. rewrite Eg. rewrite flip_app. apply (record_op_ok plus fileID k _ _ r u l); [lia|lia| | |done|done].
  - unfold image. destruct (groups_far i (rec_offset recs (length recs - 1 - i)) (Z.of_nat (length r)) ltac:(lia) ltac:(lia) ltac:(left; lia)) as [-> _].
    apply (ni_record _ _ Hb _ _ _ Hr Hl).
  - rewrite <- (ni_kind _ _ Hb). by apply kind_slice.
Qed.

Lemma swap_records_ok : swap_records size (fun b p => record_op plus fileID b p u) b = Ok (flip (groups (length recs)) b).
Proof using Hh Hlay Hb.
  unfold swap_records. rewrite image_count. cbn [mbind outcome_bind]. pose proof (node_holds_bounds _ _ _ (length recs) Hh ltac:(lia)).
  enough (forall fuel i, (i <= length recs)%nat -> (length recs - i < fuel)%nat ->
    for_each fuel numRecords (fun b i => p ← load16 b (size - Z.of_nat (length recs) * 2 + 2 * i); record_op plus fileID b p u)
      (flip (groups i) b) (Z.of_nat i) = Ok (flip (groups (length recs)) b)) as Hloop.
  { apply (Hloop for_fuel 0%nat); [lia|]. unfold for_fuel. lia. }
  intros fuel. induction fuel as [|fuel IH]; intros i Hi Hf; [lia|]. cbn [for_each].
  destruct (groups_far i 10 2 Hi ltac:(lia)) as [Hs Hlen]; [left; pose proof (rec_offset_ge recs (length recs - i)); lia|].
  rewrite (numRecords_slice b), image_count by done. cbn [mbind outcome_bind].
  destruct (Z.ltb_spec (Z.of_nat i) (Z.of_nat (length recs))).
  - rewrite record_round by lia. cbn [mbind outcome_bind]. replace (Z.of_nat i + 1) with (Z.of_nat (S i)) by lia. apply IH; lia.
  - by replace i with (length recs) by lia.
Qed.
End node.

(** Record [j] among the fields of all, the others are elsewhere. *)
Lemma groups_split plus fileID k recs ls
    (Hlay : Forall2 (fun r l => record_fields plus fileID k r = Some l /\ ascending 0 (Z.of_nat (length r)) l = true) recs ls) j r i :
  recs !! j = Some r -> (i <= length recs)%nat -> (length recs - i <= j)%nat ->
  exists X, groups recs ls i ≡ₚ group recs ls j ++ X /\ forall f, f ∈ X -> apart (rec_offset recs j, Z.of_nat (length r)) f.
Proof.
  intros Hr. pose proof (lookup_lt_Some _ _ _ Hr) as Hj. pose proof (rec_offset_S _ _ _ Hr) as HS.
  induction i as [|i IH]; intros Hi Hij; [lia|]. cbn [groups]. destruct (decide (j = length recs - 1 - i)%nat) as [->|Hne].
  - exists (groups recs ls i). split; [apply Permutation_app_comm|]. intros f Hf.
    destruct (groups_between plus fileID k recs ls Hlay i ltac:(lia)) as [Hb _]. unfold between in Hb. rewrite Forall_forall in Hb. specialize (Hb f Hf).
    replace (S (length recs - 1 - i)) with (length recs - i)%nat in HS by lia. left. simpl. lia.
  - destruct (IH ltac:(lia) ltac:(lia)) as (X & HX & Hfar). exists (X ++ group recs ls (length recs - 1 - i)).
    split; [by rewrite HX, <- app_assoc|]. intros f [Hf|Hf]%elem_of_app; [by apply Hfar|].
    destruct (group_between plus fileID k recs ls Hlay (length recs - 1 - i) ltac:(lia)) as [Hb _]. unfold between in Hb. rewrite Forall_forall in Hb.
    specialize (Hb f Hf). pose proof (rec_offset_mono recs (S (length recs - 1 - i)) j ltac:(lia)). right. simpl. lia.
Qed.

(** ** Nodes *)

Definition has_records (k : Z) : bool := (k =? kBTIndexNode) || (k =? kBTLeafNode).
Definition layouts (plus : bool) (fileID k : Z) (recs : list buffer) : list (list field_at) :=
  map (fun r => default [] (record_fields plus fileID k r)) recs.

(** A record that has all its fields, one after the other, and a node of such records; of a
    header node only the fields of its first record count. *)
Definition host_record (plus : bool) (fileID k : Z) (r : buffer) : bool :=
  match record_fields plus fileID k r with
  | Some l => ascending 0 (Z.of_nat (length r)) l
  | None => false
  end.
Definition host_node (plus : bool) (fileID k : Z) (recs : list buffer) : bool :=
  if has_records k then ((fileID =? kHFSExtentsFileID) || (fileID =? kHFSCatalogFileID)) && forallb (host_record plus fileID k) recs
  else if k =? kBTHeaderNode then 42 <=? total recs
  else true.

Definition content_fields (plus : bool) (fileID k : Z) (recs : list buffer) : list field_at :=
  if has_records k then groups recs (layouts plus fileID k recs) (length recs)
  else if k =? kBTHeaderNode then shift 14 header_rec_fields
  else [].

(** All fields of a node. *)
Definition node_fields (plus : bool) (fileID k size : Z) (recs : list buffer) : list field_at :=
  [(0, 4); (4, 4); (10, 2)] ++ content_fields plus fileID k recs ++ shift (size - (Z.of_nat (length recs) + 1) * 2) (offset_fields (S (length recs))).

Section round_trip.
Context (plus : bool) (fileID k size : Z) (recs : list buffer) (host : buffer).
Context (Hh : node_holds size recs host) (Hk : kind host = Ok k) (Hok : host_node plus fileID k recs = true).
Local Abbreviation C := (content_fields plus fileID k recs).
Local Abbreviation o := (size - (Z.of_nat (length recs) + 1) * 2).
Local Abbreviation O := (shift o (offset_fields (S (length recs)))).

Lemma host_layouts : has_records k = true ->
  Forall2 (fun r l => record_fields plus fileID k r = Some l /\ ascending 0 (Z.of_nat (length r)) l = true) recs (layouts plus fileID k recs).
Proof using Hok.
  intros E. unfold host_node in Hok. rewrite E, andb_true_iff in Hok. destruct Hok as [_ Hx]. rewrite forallb_forall in Hx.
  unfold layouts. apply Forall2_fmap_r. apply Forall_Forall2_diag. rewrite Forall_forall. intros r Hr.
  specialize (Hx r ltac:(by apply list_elem_of_In)). unfold host_record in Hx. unfold compose.
  destruct (record_fields plus fileID k r); [by split|done].
Qed.

Lemma content_between : between 14 (rec_offset recs (length recs)) C /\ separate C.
Proof using Hok.
  unfold content_fields. destruct (has_records k) eqn:E.
  - destruct (groups_between plus fileID k recs (layouts plus fileID k recs) (host_layouts E) (length recs) (le_n _)) as [Hb Hs]. split; [|done].
    rewrite Nat.sub_diag in Hb. exact Hb.
  - unfold host_node in Hok. rewrite E in Hok. destruct (k =? kBTHeaderNode).
    + apply Z.leb_le in Hok. rewrite rec_offset_all. unfold sizeof_BTNodeDescriptor. split.
      * apply (between_weaken 14 56); [|lia..]. repeat constructor; simpl; lia.
      * apply separate_shift, (ascending_separate 0 42). reflexivity.
    + split; [constructor|]. split; [constructor|]. by intros ? ? ?%not_elem_of_nil.
Qed.

Lemma offsets_between : between o size O /\ separate O.
Proof using Type.
  pose proof (offset_fields_ascending (S (length recs))) as Ha. split; [|apply separate_shift, (ascending_separate _ _ _ Ha)].
  apply (between_weaken (o + 0) (o + 2 * Z.of_nat (S (length recs)))); [|lia..]. apply between_shift, (ascending_bounds _ _ _ Ha).
Qed.

Lemma descriptor_between : between 0 14 [(0, 4); (4, 4); (10, 2)] /\ separate [(0, 4); (4, 4); (10, 2)].
Proof using Type. split; [repeat constructor; simpl; lia|]. by apply (ascending_separate 0 14). Qed.

Lemma node_separate : separate (node_fields plus fileID k size recs) /\ Forall (fits size) (node_fields plus fileID k size recs).
Proof using Hh Hok.
  destruct content_between as [HC HCs]. destruct offsets_between as [HO HOs]. destruct descriptor_between as [HD HDs].
  pose proof (node_holds_bounds _ _ _ (length recs) Hh ltac:(lia)). pose proof (rec_offset_ge recs (length recs)). split.
  - unfold node_fields. apply (separate_app_2 0 14 14 size); [done| |lia|done|].
    + apply Forall_app. split; [apply (between_weaken _ _ _ _ _ HC); lia|apply (between_weaken _ _ _ _ _ HO); lia].
    + apply (separate_app_2 _ _ _ _ _ _ HC HO); [lia|done|done].
  - unfold node_fields. rewrite !Forall_app. split_and!; [apply (between_fits _ _ _ _ HD)|apply (between_fits _ _ _ _ HC)|apply (between_fits _ _ _ _ HO)]; lia.
Qed.

(** The records, in the one direction and the other. *)
Lemma image_host : has_records k = true -> node_image k size recs (layouts plus fileID k recs) host true host.
Proof using Hh Hk.
  intros E. split; [apply (nh_size _ _ _ Hh)|done..|]. intros j r l Hr _. unfold image.
  apply (slice_record (mkBTree 0 0 0 0 0 0 size 0 0 0 0 0 0 0 0 0 0 0 0 0 0) recs host Hh j r Hr).
Qed.

Lemma content_far b p n : Z.of_nat (length b) = size -> 0 <= p -> p + n <= 14 \/ rec_offset recs (length recs) <= p ->
  slice (flip C b) p n = slice b p n /\ length (flip C b) = length b.
Proof using Hh Hok.
  intros HL Hp Hd. destruct content_between as [HC HCs]. pose proof (node_holds_bounds _ _ _ (length recs) Hh ltac:(lia)). split.
  - apply (slice_flip_far _ _ _ _ _ _ HC); [lia..|done|done|done].
  - apply flip_length, (between_fits _ _ _ _ HC); lia.
Qed.

Lemma contents_ok u b : Z.of_nat (length b) = size -> kind b = Ok k ->
  (has_records k = true -> node_image k size recs (layouts plus fileID k recs) host u b) ->
  swap_contents size b plus fileID u = Ok (flip C b).
Proof using All.
  intros HL Hkb Hi. unfold swap_contents. rewrite Hkb. cbn [mbind outcome_bind]. change ((k =? kBTIndexNode) || (k =? kBTLeafNode)) with (has_records k).
  unfold content_fields. destruct (has_records k) eqn:E.
  - rewrite internal_node.
    + apply (swap_records_ok plus fileID k size recs (layouts plus fileID k recs) host Hh (host_layouts E) u b (Hi eq_refl)).
    + unfold host_node in Hok. rewrite E, andb_true_iff, orb_true_iff, !Z.eqb_eq in Hok. tauto.
  - unfold host_node in Hok. rewrite E in Hok. destruct (Z.eqb_spec k kBTMapNode) as [->|]; [done|].
    destruct (k =? kBTHeaderNode); [|done]. apply Z.leb_le in Hok. apply swap_fields_ok. rewrite HL.
    pose proof (node_holds_bounds _ _ _ (length recs) Hh ltac:(lia)) as (_ & Hx & _). rewrite rec_offset_all in Hx. unfold sizeof_BTNodeDescriptor in Hx.
    repeat constructor; simpl; lia.
Qed.

Lemma image_disk : has_records k = true -> node_image k size recs (layouts plus fileID k recs) host false (flip C host).
Proof using All.
  intros E. pose proof (nh_size _ _ _ Hh) as HL. pose proof (node_holds_bounds _ _ _ (length recs) Hh ltac:(lia)).
  destruct (content_far host 8 1 HL ltac:(lia) ltac:(lia)) as [H8 Hlen]. destruct (content_far host 10 2 HL ltac:(lia) ltac:(lia)) as [H10 _].
  split; [lia|done|by rewrite <- Hk; apply kind_slice| |].
  - intros i Hi. apply (content_far host); [done|unfold entry_pos; lia|right; unfold entry_pos; lia].
  - intros j r l Hr Hl. pose proof (lookup_lt_Some _ _ _ Hr) as Hj. pose proof (rec_offset_ge recs j). pose proof (rec_offset_S _ _ _ Hr) as HS.
    pose proof (rec_offset_mono recs (S j) (length recs) ltac:(lia)).
    destruct (group_record plus fileID k recs _ (host_layouts E) j Hj) as (r' & l' & Hr' & Hl' & Eg & _ & Ha). rewrite Hr in Hr'. rewrite Hl in Hl'. injection Hr' as <-. injection Hl' as <-.
    destruct (group_between plus fileID k recs _ (host_layouts E) j Hj) as [Hgb Hgs].
    assert (exists X, C ≡ₚ group recs (layouts plus fileID k recs) j ++ X /\ forall f, f ∈ X -> apart (rec_offset recs j, Z.of_nat (length r)) f)
      as (X & HX & Hfar).
    { unfold content_fields. rewrite E. apply (groups_split plus fileID k recs _ (host_layouts E) j r (length recs) Hr); lia. }
    destruct content_between as [HC HCs]. unfold between in HC. rewrite HX in HC. apply Forall_app in HC as [_ HXb].
    destruct (separate_app _ _ (separate_perm _ _ HX HCs)) as (_ & HXs & _).
    unfold image. rewrite (flip_perm _ _ _ HX HCs) by (destruct content_between as [HC' _]; apply (between_fits _ _ _ _ HC'); lia).
    rewrite flip_app, Eg. assert (Forall (fits (Z.of_nat (length r))) l) as Hfl by by apply (ascending_fits 0).
    assert (length (flip (shift (rec_offset recs j) l) host) = length host) as Hl2.
    { apply flip_length. rewrite <- Eg. apply (between_fits _ _ _ _ Hgb); lia. }
    rewrite slice_flip_out; [|done|rewrite Hl2; apply (between_fits _ _ _ _ HXb); lia|lia|done].
    rewrite slice_flip_near by (done || lia). f_equal.
    apply (slice_record (mkBTree 0 0 0 0 0 0 size 0 0 0 0 0 0 0 0 0 0 0 0 0 0) recs host Hh j r Hr).
Qed.

(** What the code makes of the node for the disk. *)
Definition disk_node : buffer := flip (C ++ [(0, 4); (4, 4)] ++ O ++ [(10, 2)]) host.

Lemma disk_perm : C ++ [(0, 4); (4, 4)] ++ O ++ [(10, 2)] ≡ₚ node_fields plus fileID k size recs.
Proof using Type. unfold node_fields. solve_Permutation. Qed.

Lemma disk_flipped : flipped (node_fields plus fileID k size recs) host disk_node.
Proof using All.
  destruct node_separate as [Hs Hf]. pose proof (nh_size _ _ _ Hh) as HL. rewrite <- HL in Hf at 1. unfold disk_node.
  rewrite <- (flip_perm (node_fields plus fileID k size recs)); [by apply flip_flipped|by rewrite disk_perm|done|done].
Qed.

(** The array of offsets of the node. *)
Definition offset_array : buffer := slice host o (2 * (Z.of_nat (length recs) + 1)).

Lemma offset_array_length : Z.of_nat (length offset_array) = 2 * (Z.of_nat (length recs) + 1).
Proof using Hh.
  pose proof (node_holds_bounds _ _ _ (length recs) Hh ltac:(lia)). apply slice_length; lia.
Qed.

Lemma offset_array_range i : (i <= length recs)%nat -> field offset_array (2 * Z.of_nat i) 2 < size.
Proof using Hh.
  intros Hi. pose proof (node_holds_bounds _ _ _ (length recs - i) Hh ltac:(lia)). unfold field, offset_array. rewrite slice_slice by lia.
  replace (o + 2 * Z.of_nat i) with (entry_pos size (length recs - i)) by (unfold entry_pos; lia).
  rewrite (nh_offsets _ _ _ Hh) by lia. rewrite le_decode16 by lia. lia.
Qed.

Lemma host_count : numRecords host = Ok (Z.of_nat (length recs)).
Proof using Hh.
  pose proof (node_holds_bounds _ _ _ 0 Hh ltac:(lia)). unfold numRecords.
  rewrite (load16_slice host 10 (Z.of_nat (length recs))); [done|lia..|]. apply (nh_count _ _ _ Hh).
Qed.

(** The offsets, in a node that has the others in either order. *)
Lemma node_offsets u b : Z.of_nat (length b) = size -> slice b 10 2 = slice host 10 2 -> image b o offset_array u (offset_fields (S (length recs))) ->
  swap_offsets size u b = Ok (flip O b).
Proof using Hh.
  intros HL H10 Hi. pose proof (node_holds_bounds _ _ _ (length recs) Hh ltac:(lia)). pose proof (rec_offset_ge recs (length recs)).
  pose proof (nh_size _ _ _ Hh). apply (swap_offsets_ok size (length recs) b offset_array u); [lia|lia|lia|apply offset_array_length| |done|apply offset_array_range].
  rewrite <- host_count. apply numRecords_slice; [lia|done].
Qed.

Lemma host_lengths : Z.of_nat (length host) = size /\ 14 + 2 * Z.of_nat (length recs) + 2 <= size /\
  rec_offset recs (length recs) <= o /\ length (flip C host) = length host.
Proof using All.
  pose proof (nh_size _ _ _ Hh) as HL. pose proof (node_holds_bounds _ _ _ (length recs) Hh ltac:(lia)).
  destruct (content_far host 8 1 HL ltac:(lia) ltac:(lia)) as [_ Hlen]. split_and!; lia.
Qed.

(** Before the node is written. *)
Lemma unswap_ok src : nodeBuffer src = Some host -> blockSize src = size -> hfs_swap_BTNode src plus fileID 1 = Ok (0, set_buffer src disk_node).
Proof using All.
  intros Hsrc Hsz. destruct host_lengths as (HL & Hmin & Ho & HLC). destruct descriptor_between as [HD HDs].
  destruct (separate_app [(0, 4); (4, 4)] [(10, 2)] HDs) as (HDs' & _ & _). unfold hfs_swap_BTNode. rewrite Hsrc, Hsz. cbn [of_option mbind outcome_bind].
  change (1 =? 0) with false. cbv iota. cbn [mbind outcome_bind negb]. rewrite (contents_ok true host HL Hk image_host). cbn [mbind outcome_bind].
  assert (Forall (fits (Z.of_nat (length (flip C host)))) [(0, 4); (4, 4)]) as Hf by (rewrite HLC; repeat constructor; simpl; lia).
  change (1 =? 1) with true. cbv iota. unfold unswap_descriptor. rewrite swap_fields_ok by done. cbn [mbind outcome_bind].
  change (shift 0 [(0, 4); (4, 4)]) with [(0, 4); (4, 4)]. pose proof (flip_length _ _ Hf) as HL2.
  rewrite (node_offsets true); [|lia| |].
  - cbn [mbind outcome_bind]. assert (length (flip O (flip [(0, 4); (4, 4)] (flip C host))) = length host) as HL3.
    { rewrite flip_length; [lia|]. destruct offsets_between as [HO _]. apply (between_fits _ _ _ _ HO); lia. }
    rewrite swap_field_ok by (rewrite HL3; unfold fits; simpl; lia). cbn [mbind outcome_bind]. unfold disk_node. by rewrite !flip_app.
  - rewrite slice_flip_out; [|done|done|lia|].
    + by destruct (content_far host 10 2 HL ltac:(lia) ltac:(lia)).
    + intros f. rewrite !elem_of_cons. intros [->|[->|?%not_elem_of_nil]]; [right; simpl; lia..|done].
  - unfold image. rewrite offset_array_length. unfold offset_array. rewrite slice_flip_out; [|done|done|lia|].
    + apply (content_far host); [done|lia|lia].
    + intros f. rewrite !elem_of_cons. intros [->|[->|?%not_elem_of_nil]]; [right; simpl; lia..|done].
Qed.

Lemma disk_descriptor : flip [(0, 4); (4, 4); (10, 2)] disk_node = flip O (flip C host) /\ length disk_node = length host.
Proof using All.
  destruct node_separate as [Hs Hf]. destruct host_lengths as (HL & Hmin & Ho & HLC). rewrite <- HL in Hf at 1. destruct descriptor_between as [HD HDs].
  destruct offsets_between as [HO HOs]. split.
  - assert (disk_node = flip ((C ++ O) ++ [(0, 4); (4, 4); (10, 2)]) host) as ->.
    { unfold disk_node. apply flip_perm; [solve_Permutation|by apply (separate_perm _ _ (symmetry disk_perm))|by rewrite disk_perm]. }
    rewrite flip_app, flip_app. apply flip_flip; [done|done|].
    apply (between_fits _ _ _ _ HD); [lia|]. rewrite flip_length; [lia|]. apply (between_fits _ _ _ _ HO); lia.
  - apply (fl_length _ _ _ disk_flipped).
Qed.

(** After it has been read. *)
Lemma swap_ok src : nodeBuffer src = Some disk_node -> blockSize src = size -> hfs_swap_BTNode src plus fileID 0 = Ok (0, set_buffer src host).
Proof using All.
  intros Hsrc Hsz. destruct host_lengths as (HL & Hmin & Ho & HLC). destruct disk_descriptor as [Hdd HLd]. destruct content_between as [HC HCs].
  destruct offsets_between as [HO HOs]. pose proof (node_holds_bounds _ _ _ (length recs) Hh ltac:(lia)).
  unfold hfs_swap_BTNode. rewrite Hsrc, Hsz. cbn [of_option mbind outcome_bind]. change (0 =? 0) with true. cbv iota. unfold swap_descriptor.
  rewrite swap_fields_ok by (rewrite HLd; repeat constructor; simpl; lia). cbn [mbind outcome_bind].
  change (shift 0 [(0, 4); (4, 4); (10, 2)]) with [(0, 4); (4, 4); (10, 2)]. rewrite Hdd.
  assert (Forall (fits (Z.of_nat (length (flip C host)))) O) as HfO by (apply (between_fits _ _ _ _ HO); lia).
  pose proof (flip_length _ _ HfO) as HL2. rewrite (node_offsets false); [|lia| |].
  - rewrite flip_flip by done. cbn [mbind outcome_bind negb]. rewrite (contents_ok false); [|lia| |apply image_disk].
    + cbn [mbind outcome_bind]. rewrite flip_flip; [done|done|done|]. apply (between_fits _ _ _ _ HC); lia.
    + rewrite <- Hk. destruct (content_far host 8 1 HL ltac:(lia) ltac:(lia)). by apply kind_slice.
  - rewrite (slice_flip_far o size) by (done || lia). apply (content_far host); [done|lia|lia].
  - unfold image. rewrite offset_array_length. rewrite slice_flip_near; [|lia..|].
    + f_equal. apply (content_far host); [done|lia|lia].
    + apply (ascending_fits 0); [lia|]. replace (2 * (Z.of_nat (length recs) + 1)) with (2 * Z.of_nat (S (length recs))) by lia. apply offset_fields_ascending.
Qed.
End round_trip.

(** C32: [hfs_swap_BTNode] turns a node of the extents or catalog file, of an HFS or HFS Plus
    volume, or a header or map node, from the order of the host into that of the disk, and
    back into the same node.  Between the two it has the bytes of exactly the fields of the
    node descriptor, of the records with their keys, names and data, or of the header
    record, and of the offsets reversed. *)
Theorem hfs_swap_BTNode_roundtrip isHFSPlus fileID src node recs k : nodeBuffer src = Some node ->
  node_holds (blockSize src) recs node -> kind node = Ok k -> host_node isHFSPlus fileID k recs = true ->
  exists disk, hfs_swap_BTNode src isHFSPlus fileID 1 = Ok (0, set_buffer src disk) /\
    flipped (node_fields isHFSPlus fileID k (blockSize src) recs) node disk /\
    hfs_swap_BTNode (set_buffer src disk) isHFSPlus fileID 0 = Ok (0, src).
Proof.
  intros Hsrc Hh Hk Hok. exists (disk_node isHFSPlus fileID k (blockSize src) recs node). split_and!.
  - by apply unswap_ok.
  - by apply disk_flipped.
  - rewrite (swap_ok isHFSPlus fileID k (blockSize src) recs node Hh Hk Hok); [|done|done]. f_equal. f_equal.
    destruct src. cbn in *. unfold set_buffer. cbn. by rewrite Hsrc.
Qed.

(** ** A leaf of the catalog: a folder and its thread *)

Definition swap_sample : list buffer :=
  [le_encode 2 8 ++ le_encode 4 2 ++ le_encode 2 1 ++ le_encode 2 0x61 ++ le_encode 2 kHFSPlusFolderRecord ++ seqZ 1 86;
   le_encode 2 6 ++ le_encode 4 16 ++ le_encode 2 0 ++ le_encode 2 kHFSPlusFolderThreadRecord ++ [0; 0] ++ le_encode 4 2 ++ le_encode 2 1 ++ le_encode 2 0x61].
Definition swap_sample_node : NodeRec := mkNodeRec (Some (make_node 512 3 0 255 1 swap_sample)) (Some 7) 512 true.

Lemma hfs_swap_BTNode_witness :
  exists disk, hfs_swap_BTNode swap_sample_node true kHFSCatalogFileID 1 = Ok (0, set_buffer swap_sample_node disk) /\
    hfs_swap_BTNode (set_buffer swap_sample_node disk) true kHFSCatalogFileID 0 = Ok (0, swap_sample_node) /\
    slice disk 10 2 = [0; 2] /\ slice disk 14 10 = [0; 8; 0; 0; 0; 2; 0; 1; 0; 0x61].
Proof.
  destruct (hfs_swap_BTNode_roundtrip true kHFSCatalogFileID swap_sample_node (make_node 512 3 0 255 1 swap_sample) swap_sample kBTLeafNode)
    as (disk & H1 & _ & H2).
  - reflexivity.
  - apply holds_two. vm_compute. reflexivity.
  - vm_compute. reflexivity.
  - vm_compute. reflexivity.
  - exists disk. split; [exact H1|]. split; [exact H2|].
    destruct (hfs_swap_BTNode swap_sample_node true kHFSCatalogFileID 1) as [[z n]| | |] eqn:E; [|discriminate..].
    injection H1 as _ H1. assert (nodeBuffer n = Some disk) as Hd by (rewrite H1; reflexivity).
    assert (match hfs_swap_BTNode swap_sample_node true kHFSCatalogFileID 1 with
            | Ok (_, n) => match nodeBuffer n with
                           | Some d => slice d 10 2 = [0; 2] /\ slice d 14 10 = [0; 8; 0; 0; 0; 2; 0; 1; 0; 0x61]
                           | None => False end
            | _ => False end) as Hx by (vm_compute; split; reflexivity).
    rewrite E, Hd in Hx. exact Hx.
Defined.

(** The check for too many records does not work: the array of offsets never starts behind
    the end of the node, and with 300 records in 512 bytes it starts before the node. *)
Lemma too_many_records :
  hfs_swap_BTNode (mkNodeRec (Some (replicate 10 0 ++ [1; 44] ++ replicate 500 0)) (Some 7) 512 true) true kHFSCatalogFileID 0 = Fault.
Proof. vm_compute. reflexivity. Qed.
