(* ===== verification/Encodings.v ===== *)
(** * Text encodings of HFS names (hfsplus/hfs_encodings.c)

    Names on an HFS volume are Pascal strings of up to 31 bytes in an encoding of the
    classic Mac OS; the module converts them to and from decomposed Unicode.  MacRoman is
    built in, other converters register themselves in a list with reference counts. *)
From S2P Require Import Prelude UtfConv.

Definition kTextEncodingMacRoman : Z := 0.
Definition kTECUsedFallbacksStatus : Z := -8783.
Definition MAX_HFS_UNICODE_CHARS : Z := 15 * 5.

(** ** MacRoman: the tables; 63 is the question mark *)

Definition gLatin1Table : list Z := Eval vm_compute in
  [0xCA; 0xC1; 0xA2; 0xA3; 0xDB; 0xB4; 63; 0xA4; 0xAC; 0xA9; 0xBB; 0xC7; 0xC2; 63; 0xA8; 0xF8; 0xA1; 0xB1; 63; 63; 0xAB; 0xB5; 0xA6; 0xE1; 0xFC; 63; 0xBC; 0xC8] ++
  replicate 3 63 ++ [0xC0] ++ replicate 6 63 ++ [0xAE] ++ replicate 17 63 ++ [0xAF] ++ replicate 6 63 ++ [0xA7] ++
  replicate 6 63 ++ [0xBE] ++ replicate 16 63 ++ [0xD6; 0xBF] ++ replicate 7 63.

Definition gSpaceModsTable : list Z := Eval vm_compute in
  replicate 6 63 ++ [0xF6; 0xFF] ++ replicate 16 63 ++ [0xF9; 0xFA; 0xFB; 0xFE; 0xF7; 0xFD; 63; 63].

Definition gPunctTable : list Z := Eval vm_compute in
  replicate 3 63 ++ [0xD0; 0xD1] ++ replicate 3 63 ++
  [0xD4; 0xD5; 0xE2; 63; 0xD2; 0xD3; 0xE3; 63; 0xA0; 0xE0; 0xA5] ++ replicate 3 63 ++ [0xC9] ++ replicate 9 63 ++
  [0xE4] ++ replicate 8 63 ++ [0xDC; 0xDD] ++ replicate 9 63 ++ [0xDA] ++ replicate 103 63 ++ [0xDB] ++
  replicate 3 63.

Definition gMathTable : list Z := Eval vm_compute in
  [63; 63; 0xB6] ++ replicate 3 63 ++ [0xC6] ++ replicate 8 63 ++ [0xB8; 63; 0xB7] ++ replicate 8 63 ++ [0xC3] ++
  replicate 3 63 ++ [0xB0] ++ replicate 12 63 ++ [0xBA] ++ replicate 28 63 ++ [0xC5] ++ replicate 23 63 ++ [0xAD] ++
  replicate 3 63 ++ [0xB2; 0xB3; 63; 63].

Definition gReverseCombTable : list Z := Eval vm_compute in
  [0xDA; 0x40] ++ replicate 3 0xDA ++ [0x56] ++ replicate 3 0xDA ++ [0x6C] ++ replicate 4 0xDA ++ [0x82; 0x98] ++
  replicate 5 0xDA ++ [0xAE] ++ replicate 3 0xDA ++ [0xC4] ++ replicate 7 0xDA ++ [0x4B] ++ replicate 3 0xDA ++
  [0x61] ++ replicate 3 0xDA ++ [0x77] ++ replicate 4 0xDA ++ [0x8D; 0xA3] ++ replicate 5 0xDA ++ [0xB9] ++
  replicate 3 0xDA ++ [0xCF] ++ replicate 6 0xDA ++ [0xCB; 0xE7; 0xE5; 0xCC] ++ replicate 4 63 ++
  [0x80; 63; 0x81; 0x88; 0x87; 0x89; 0x8B] ++ replicate 4 63 ++ [0x8A; 63; 0x8C; 0xE9; 0x83; 0xE6] ++
  replicate 5 63 ++ [0xE8; 63; 63; 0x8F; 0x8E; 0x90] ++ replicate 5 63 ++ [0x91; 63; 63; 0xED; 0xEA; 0xEB] ++
  replicate 5 63 ++ [0xEC; 63; 63; 0x93; 0x92; 0x94] ++ replicate 5 63 ++ [0x95] ++ replicate 5 63 ++ [0x84] ++
  replicate 10 63 ++ [0x96] ++ replicate 7 63 ++ [0xF1; 0xEE; 0xEF; 0xCD] ++ replicate 4 63 ++
  [0x85; 63; 63; 0x98; 0x97; 0x99; 0x9B] ++ replicate 4 63 ++ [0x9A; 63; 63; 0xF4; 0xF2; 0xF3] ++ replicate 5 63 ++
  [0x86; 63; 63; 0x9D; 0x9C; 0x9E] ++ replicate 5 63 ++ [0x9F] ++ replicate 10 63 ++ [0xD9] ++ replicate 10 63 ++
  [0xD8] ++ replicate 13 63.

Definition gHiBitBaseUnicode : list Z :=
  [0x41; 0x41; 0x43; 0x45; 0x4E; 0x4F; 0x55; 0x61; 0x61; 0x61; 0x61; 0x61; 0x61; 0x63; 0x65; 0x65;
   0x65; 0x65; 0x69; 0x69; 0x69; 0x69; 0x6E; 0x6F; 0x6F; 0x6F; 0x6F; 0x6F; 0x75; 0x75; 0x75; 0x75;
   0x2020; 0xB0; 0xA2; 0xA3; 0xA7; 0x2022; 0xB6; 0xDF; 0xAE; 0xA9; 0x2122; 0xB4; 0xA8; 0x2260; 0xC6; 0xD8;
   0x221E; 0xB1; 0x2264; 0x2265; 0xA5; 0xB5; 0x2202; 0x2211; 0x220F; 0x3C0; 0x222B; 0xAA; 0xBA; 0x3A9; 0xE6; 0xF8;
   0xBF; 0xA1; 0xAC; 0x221A; 0x192; 0x2248; 0x2206; 0xAB; 0xBB; 0x2026; 0xA0; 0x41; 0x41; 0x4F; 0x152; 0x153;
   0x2013; 0x2014; 0x201C; 0x201D; 0x2018; 0x2019; 0xF7; 0x25CA; 0x79; 0x59; 0x2044; 0x20AC; 0x2039; 0x203A; 0xFB01; 0xFB02;
   0x2021; 0xB7; 0x201A; 0x201E; 0x2030; 0x41; 0x45; 0x41; 0x45; 0x45; 0x49; 0x49; 0x49; 0x49; 0x4F; 0x4F;
   0xF8FF; 0x4F; 0x55; 0x55; 0x55; 0x131; 0x2C6; 0x2DC; 0xAF; 0x2D8; 0x2D9; 0x2DA; 0xB8; 0x2DD; 0x2DB; 0x2C7].

Definition gHiBitCombUnicode : list Z := Eval vm_compute in
  [0x308; 0x30A; 0x327; 0x301; 0x303; 0x308; 0x308; 0x301; 0x300; 0x302; 0x308; 0x303; 0x30A; 0x327; 0x301; 0x300; 0x302; 0x308; 0x301; 0x300; 0x302; 0x308; 0x303; 0x301; 0x300; 0x302; 0x308; 0x303; 0x301; 0x300; 0x302; 0x308] ++
  replicate 43 0 ++ [0x300; 0x303; 0x303] ++ replicate 10 0 ++ [0x308; 0x308] ++ replicate 11 0 ++
  [0x302; 0x302; 0x301; 0x308; 0x300; 0x301; 0x302; 0x308; 0x300; 0x301; 0x302; 0x00; 0x300; 0x301; 0x302; 0x300] ++
  replicate 11 0.

(** ** Unicode to MacRoman *)

(** The characters outside of the tables. *)
Definition other_char (c : Z) : Z :=
  if c =? 0x0131 then 0xF5 else if c =? 0x0152 then 0xCE else if c =? 0x0153 then 0xCF else if c =? 0x0192 then 0xC4
  else if c =? 0x2122 then 0xAA else if c =? 0x25CA then 0xD7 else if c =? 0xF8FF then 0xF0 else if c =? 0xFB01 then 0xDE
  else if c =? 0xFB02 then 0xDF else 63.

(** A character that is not ASCII: what it is mapped to, and whether the base character
    before it is taken back. *)
Definition map_char (c prevChar : Z) : outcome (Z * bool) :=
  let lsb := u8 c in
  let page := Z.land c 0xFF00 in
  if page =? 0x0000 then
    if 0xA0 <=? lsb then mc ← array_at gLatin1Table (lsb - 0xA0); Ok (mc, false) else Ok (63, false)
  else if page =? 0x0200 then
    if (0xC0 <=? lsb) && (lsb <=? 0xDF) then mc ← array_at gSpaceModsTable (lsb - 0xC0); Ok (mc, false) else Ok (63, false)
  else if page =? 0x2000 then
    if (0x10 <=? lsb) && (lsb <=? 0xAF) then mc ← array_at gPunctTable (lsb - 0x10); Ok (mc, false) else Ok (63, false)
  else if page =? 0x2200 then
    if lsb <=? 0x68 then mc ← array_at gMathTable lsb; Ok (mc, false) else Ok (63, false)
  else if page =? 0x0300 then
    if c <=? 0x030A then
      if (0x41 <=? prevChar) && (prevChar <? 0x7A) then
        row ← array_at gReverseCombTable (prevChar - 0x40);
        mc ← array_at gReverseCombTable (row + lsb);
        Ok (mc, true)
      else Ok (63, false)
    else if c =? 0x0327 then
      if prevChar =? 0x43 then Ok (0x82, true) else if prevChar =? 0x63 then Ok (0x8D, true) else Ok (63, false)
    else if c =? 0x03A9 then Ok (0xBD, false)
    else if c =? 0x03C0 then Ok (0xB9, false)
    else Ok (63, false)
  else Ok (other_char c, false).

(** The loop: [out] is what was written behind the length byte. *)
Fixpoint mac_roman_loop (inputChars : nat) (u out : list Z) (prevChar result : Z) : outcome (Z * list Z) :=
  match inputChars with
  | O => Ok (result, out)
  | S inputChars =>
      match u with
      | [] => Fault
      | c :: u =>
          '(lsb, prevChar, result, out) ←
            (if negb (Z.land c 0xFF80 =? 0) then
               '(mc, back) ← map_char c prevChar;
               Ok (mc, 0, if mc =? 63 then kTECUsedFallbacksStatus else result, if back : bool then removelast out else out)
             else Ok (u8 c, u8 c, result, out));
          if 31 <=? Z.of_nat (length out) then Ok (ENAMETOOLONG, out)
          else mac_roman_loop inputChars u (out ++ [lsb]) prevChar result
      end
  end.

Definition unicode_to_mac_roman (uni_str : list Z) (unicodeChars : Z) : outcome (Z * list Z) :=
  '(result, out) ← mac_roman_loop (Z.to_nat (u16 unicodeChars)) uni_str [] 0 0;
  Ok (result, Z.of_nat (length out) :: out).

(** ** MacRoman to Unicode *)

(** Writing behind the end of [uni_str], which has [cap] characters, is a fault. *)
Definition put_uni (cap : Z) (out : list Z) (c : Z) : outcome (list Z) :=
  if Z.of_nat (length out) <? cap then Ok (out ++ [c]) else Fault.

Fixpoint unicode_loop (cap : Z) (pascalChars : nat) (p out : list Z) : outcome (list Z) :=
  match pascalChars with
  | O => Ok out
  | S pascalChars =>
      match p with
      | [] => Fault
      | c :: p =>
          if c <? 0x80 then out ← put_uni cap out c; unicode_loop cap pascalChars p out
          else
            let c := Z.land c 0x7F in
            uc ← array_at gHiBitBaseUnicode c;
            out ← put_uni cap out uc;
            if (uc <=? 0x7A) && (0x41 <=? uc) then
              comb ← array_at gHiBitCombUnicode c;
              out ← put_uni cap out comb;
              unicode_loop cap pascalChars p out
            else unicode_loop cap pascalChars p out
      end
  end.

(** [maxCharLen] is not used.  The result with the characters and their number. *)
Definition mac_roman_to_unicode (cap : Z) (hfs_str : list Z) (maxCharLen : Z) : outcome (Z * list Z * Z) :=
  match hfs_str with
  | [] => Fault
  | n :: p => out ← unicode_loop cap (Z.to_nat n) p []; Ok (0, out, Z.of_nat (length out))
  end.

(** ** Names of a volume *)

(** The converters of the volume: [hfs_get_unicode] and [hfs_get_hfsname]. *)
Record converter := mkConverter {
  get_unicode : Z -> list Z -> Z -> outcome (Z * list Z * Z);
  get_hfsname : list Z -> Z -> outcome (Z * list Z)
}.
Definition mac_roman : converter := mkConverter mac_roman_to_unicode unicode_to_mac_roman.

Section volume.
Context (cv : converter).

(** The result, [dstStr] and [*actualDstLen] where they are set. *)
Definition encode_name (r : Z * list Z * Z) (maxDstLen : Z) : outcome (Z * list Z * option Z) :=
  let '(error, uniStr, uniCount) := r in
  let error := if uniCount =? 0 then EINVAL else error in
  if error =? 0 then
    let uni := take (Z.to_nat uniCount) uniStr in
    '(error, dst, utf8len) ← utf8_encodestr uni maxDstLen 0x3A 0;
    Ok (error, dst, Some (if error =? ENAMETOOLONG then utf8_encodelen uni 0x3A 0 else utf8len))
  else Ok (error, [], None).

Definition hfs_to_utf8 (hfs_str : list Z) (maxDstLen : Z) : outcome (Z * list Z * option Z) :=
  r ← get_unicode cv MAX_HFS_UNICODE_CHARS hfs_str MAX_HFS_UNICODE_CHARS;
  encode_name r maxDstLen.

Definition mac_roman_to_utf8 (hfs_str : list Z) (maxDstLen : Z) : outcome (Z * list Z * option Z) :=
  r ← mac_roman_to_unicode MAX_HFS_UNICODE_CHARS hfs_str MAX_HFS_UNICODE_CHARS;
  encode_name r maxDstLen.

Definition unicode_to_hfs (srcLen : Z) (srcStr : list Z) (retry : bool) : outcome (Z * list Z) :=
  '(error, dst) ← get_hfsname cv srcStr (srcLen / 2);
  if negb (error =? 0) && retry then unicode_to_mac_roman srcStr (srcLen / 2) else Ok (error, dst).

Definition utf8_to_hfs (srcStr : list Z) : outcome (Z * list Z) :=
  '(error, uniStr) ← utf8_decodestr srcStr (2 * MAX_HFS_UNICODE_CHARS) 0x3A 0;
  if error =? 0 then unicode_to_hfs (2 * Z.of_nat (length uniStr)) uniStr true else Ok (error, []).

Definition utf8_to_mac_roman (srcStr : list Z) : outcome (Z * list Z) :=
  '(error, uniStr) ← utf8_decodestr srcStr (2 * MAX_HFS_UNICODE_CHARS) 0x3A 0;
  if error =? 0 then unicode_to_mac_roman uniStr (Z.of_nat (length uniStr)) else Ok (error, []).
End volume.

(** ** The list of converters *)

Record hfs_encoding := mkEncoding { refcount : Z; kmod_id : Z; encoding : Z; funcs : converter }.

Definition hfs_addconverter (l : list hfs_encoding) (id enc : Z) (f : converter) : Z * list hfs_encoding :=
  (0, mkEncoding 0 id enc f :: l).

Definition add_ref (e : hfs_encoding) (n : Z) : hfs_encoding := mkEncoding (s32 (refcount e + n)) (kmod_id e) (encoding e) (funcs e).

Definition hfs_converterinit : list hfs_encoding :=
  match snd (hfs_addconverter [] 0 kTextEncodingMacRoman mac_roman) with
  | e :: l => add_ref e 1 :: l
  | [] => []
  end.

(** [busy] *)
Fixpoint hfs_remconverter (l : list hfs_encoding) (id enc : Z) : bool * list hfs_encoding :=
  match l with
  | [] => (false, [])
  | e :: l =>
      if (encoding e =? enc) && (kmod_id e =? id) then
        let e := add_ref e (-1) in
        if (refcount e <=? 0) && negb (kmod_id e =? 0) then (false, l) else (true, e :: l)
      else let '(busy, l) := hfs_remconverter l id enc in (busy, e :: l)
  end.

Definition hfs_converterdestroy (l : list hfs_encoding) : list hfs_encoding := snd (hfs_remconverter l 0 kTextEncodingMacRoman).

Fixpoint hfs_getconverter (l : list hfs_encoding) (enc : Z) : Z * option converter * list hfs_encoding :=
  match l with
  | [] => (EINVAL, None, [])
  | e :: l =>
      if encoding e =? enc then (0, Some (funcs e), add_ref e 1 :: l)
      else let '(err, f, l) := hfs_getconverter l enc in (err, f, e :: l)
  end.

Fixpoint hfs_relconverter (l : list hfs_encoding) (enc : Z) : Z * list hfs_encoding :=
  match l with
  | [] => (EINVAL, [])
  | e :: l =>
      if encoding e =? enc then
        let e := add_ref e (-1) in
        if (refcount e <=? 0) && negb (kmod_id e =? 0) then (0, l) else (0, e :: l)
      else let '(err, l) := hfs_relconverter l enc in (err, e :: l)
  end.

(** ** A MacRoman name survives the conversion *)

(** What a byte becomes. *)
Definition roman_chars (c : Z) : list Z :=
  if c <? 0x80 then [c]
  else
    let i := Z.to_nat (Z.land c 0x7F) in
    let uc := nth i gHiBitBaseUnicode 0 in
    if (uc <=? 0x7A) && (0x41 <=? uc) then [uc; nth i gHiBitCombUnicode 0] else [uc].

#[local] Instance map_result_eq_dec : EqDecision (outcome (Z * bool)).
Proof. intros x y. unfold Decision. decide equality; [apply (decide_rel (=))|apply (decide_rel (=) (A := string))]. Defined.

(** Only combining marks look at the character before. *)
Definition no_mark (c : Z) : bool := negb (Z.land c 0xFF00 =? 0x0300) || ((0x030A <? c) && negb (c =? 0x0327)).
Lemma map_char_prev c p : no_mark c = true -> map_char c p = map_char c 0.
Proof.
  unfold no_mark, map_char. cbv zeta. destruct (Z.land c 0xFF00 =? 0x0300); [|done]. cbn [negb orb].
  destruct (Z.ltb_spec 0x030A c); [|done]. destruct (Z.leb_spec c 0x030A); [lia|]. by destruct (c =? 0x0327).
Qed.

(** The tables, checked for every byte. *)
Definition roman_ok (c : Z) : bool :=
  match roman_chars c with
  | [uc] => if c <? 0x80 then (Z.land uc 0xFF80 =? 0) && (u8 uc =? c)
            else negb (Z.land uc 0xFF80 =? 0) && no_mark uc && negb (c =? 63) && bool_decide (map_char uc 0 = Ok (c, false))
  | [uc; comb] => (Z.land uc 0xFF80 =? 0) && (u8 uc =? uc) && negb (Z.land comb 0xFF80 =? 0) && negb (c =? 63) &&
                  bool_decide (map_char comb uc = Ok (c, true))
  | _ => false
  end.

Lemma roman_tables : Forall (fun c => roman_ok c = true) (seqZ 0 256).
Proof. apply (bool_decide_unpack _). vm_compute. exact I. Qed.

Lemma roman_byte c : 0 <= c < 256 -> roman_ok c = true.
Proof. intros H. pose proof roman_tables as Hx. rewrite Forall_forall in Hx. apply Hx, elem_of_seqZ. lia. Qed.

(** One byte, from the loop that reads Unicode. *)
Lemma roman_step c n rest out prev result : 0 <= c < 256 -> (length out <= 30)%nat ->
  exists prev', mac_roman_loop (length (roman_chars c) + n) (roman_chars c ++ rest) out prev result =
    mac_roman_loop n rest (out ++ [c]) prev' result.
Proof.
  intros Hc Hout. pose proof (roman_byte c Hc) as Hok. unfold roman_ok in Hok.
  assert (forall k, (k <= 30)%nat -> (31 <=? Z.of_nat k) = false) as Hroom by (intros k Hk; apply Z.leb_gt; lia).
  destruct (roman_chars c) as [|uc [|comb [|]]]; [done| | |done].
  - destruct (c <? 0x80).
    + apply andb_true_iff in Hok as [H1 H2%Z.eqb_eq]. exists c. cbn [length Nat.add app mac_roman_loop].
      rewrite H1. cbn [negb mbind outcome_bind]. by rewrite Hroom, H2.
    + rewrite !andb_true_iff in Hok. destruct Hok as [[[H1 H2] H3%negb_true_iff] H4%bool_decide_eq_true]. exists 0.
      cbn [length Nat.add app mac_roman_loop]. rewrite H1, (map_char_prev _ _ H2), H4. cbn [mbind outcome_bind]. by rewrite H3, Hroom.
  - rewrite !andb_true_iff in Hok. destruct Hok as [[[[H1 H2%Z.eqb_eq] H3] H4%negb_true_iff] H5%bool_decide_eq_true]. exists 0.
    cbn [length Nat.add app mac_roman_loop]. rewrite H1. cbn [negb mbind outcome_bind]. rewrite Hroom by done.
    rewrite H3, H2, H5. cbn [mbind outcome_bind]. rewrite H4, removelast_last, Hroom by done. done.
Qed.

Lemma mac_roman_chars s out prev result : Forall (fun c => 0 <= c < 256) s -> (length out + length s <= 31)%nat ->
  mac_roman_loop (length (concat (map roman_chars s))) (concat (map roman_chars s)) out prev result = Ok (result, out ++ s).
Proof.
  intros Hs. revert out prev. induction Hs as [|c s Hc Hs IH]; intros out prev Hlen; cbn [map concat].
  - by rewrite app_nil_r.
  - rewrite length_app. cbn [length] in Hlen. destruct (roman_step c (length (concat (map roman_chars s))) (concat (map roman_chars s)) out prev result)
      as [prev' ->]; [done|lia|]. rewrite IH by (rewrite length_app; simpl; lia). by rewrite <- app_assoc.
Qed.

(** What the other direction writes. *)
Lemma unicode_loop_chars cap s out : Forall (fun c => 0 <= c < 256) s -> Z.of_nat (length out) + 2 * Z.of_nat (length s) <= cap ->
  unicode_loop cap (length s) s out = Ok (out ++ concat (map roman_chars s)).
Proof.
  intros Hs. revert out. induction Hs as [|c s Hc Hs IH]; intros out Hcap; cbn [length unicode_loop map concat]; [by rewrite app_nil_r|].
  cbn [length] in Hcap. unfold roman_chars at 1. assert (forall o c, Z.of_nat (length o) < cap -> put_uni cap o c = Ok (o ++ [c])) as Hput.
  { intros o d Ho. unfold put_uni. by rewrite (proj2 (Z.ltb_lt _ _) Ho). }
  destruct (Z.ltb_spec c 0x80).
  - rewrite Hput by lia. cbn [mbind outcome_bind]. rewrite IH by (rewrite length_app; simpl; lia). by rewrite <- app_assoc.
  - assert (0 <= Z.land c 0x7F < 128) as Hi.
    { change 0x7F with (Z.ones 7). rewrite (Z.land_ones c 7) by lia. apply Z.mod_pos_bound. lia. }
    assert (forall t, length t = 128%nat -> array_at t (Z.land c 0x7F) = Ok (nth (Z.to_nat (Z.land c 0x7F)) t 0)) as Hat.
    { intros t Ht. unfold array_at. rewrite (proj2 (Z.leb_le _ _)) by lia. destruct (lookup_lt_is_Some_2 t (Z.to_nat (Z.land c 0x7F)) ltac:(lia)) as [x Hx].
      rewrite Hx. cbn. f_equal. symmetry. by apply nth_lookup_Some. }
    cbv zeta. rewrite (Hat gHiBitBaseUnicode) by done. cbn [mbind outcome_bind]. rewrite Hput by lia. cbn [mbind outcome_bind].
    destruct ((_ <=? 0x7A) && _).
    + rewrite (Hat gHiBitCombUnicode) by done. cbn [mbind outcome_bind]. rewrite Hput by (rewrite length_app; simpl; lia). cbn [mbind outcome_bind].
      rewrite IH by (rewrite !length_app; simpl; lia). by rewrite <- !app_assoc.
    + rewrite IH by (rewrite length_app; simpl; lia). by rewrite <- app_assoc.
Qed.

Lemma roman_chars_length s : (length (concat (map roman_chars s)) <= 2 * length s)%nat.
Proof.
  induction s as [|c s IH]; [done|]. cbn [map concat]. rewrite length_app. cbn [length].
  assert (length (roman_chars c) <= 2)%nat; [|lia]. unfold roman_chars. by repeat case_match; simpl; lia.
Qed.

(** C31: Every MacRoman name of an HFS volume, of up to 31 bytes, is converted to Unicode,
    within the 75 characters the callers have room for, and back to the same name. *)
Theorem mac_roman_roundtrip s : Forall (fun c => 0 <= c < 256) s -> (length s <= 31)%nat ->
  exists uni, mac_roman_to_unicode MAX_HFS_UNICODE_CHARS (Z.of_nat (length s) :: s) MAX_HFS_UNICODE_CHARS = Ok (0, uni, Z.of_nat (length uni)) /\
    unicode_to_mac_roman uni (Z.of_nat (length uni)) = Ok (0, Z.of_nat (length s) :: s).
Proof.
  intros Hs Hlen. exists (concat (map roman_chars s)). pose proof (roman_chars_length s). split.
  - unfold mac_roman_to_unicode. rewrite Nat2Z.id, unicode_loop_chars; [done|done|]. unfold MAX_HFS_UNICODE_CHARS. simpl. lia.
  - unfold unicode_to_mac_roman. rewrite u16_small, Nat2Z.id, mac_roman_chars by (done || simpl; lia). done.
Qed.

(** "Ärger π" *)
Lemma mac_roman_roundtrip_witness :
  exists uni, mac_roman_to_unicode MAX_HFS_UNICODE_CHARS [7; 0x80; 0x72; 0x67; 0x65; 0x72; 0x20; 0xB9] MAX_HFS_UNICODE_CHARS =
      Ok (0, uni, Z.of_nat (length uni)) /\
    uni = [0x41; 0x308; 0x72; 0x67; 0x65; 0x72; 0x20; 0x3C0] /\
    unicode_to_mac_roman uni (Z.of_nat (length uni)) = Ok (0, [7; 0x80; 0x72; 0x67; 0x65; 0x72; 0x20; 0xB9]).
Proof.
  destruct (mac_roman_roundtrip [0x80; 0x72; 0x67; 0x65; 0x72; 0x20; 0xB9]) as (uni & H1 & H2).
  - repeat constructor; lia.
  - simpl. lia.
  - exists uni. split; [exact H1|]. split; [|exact H2].
    assert (mac_roman_to_unicode MAX_HFS_UNICODE_CHARS [7; 0x80; 0x72; 0x67; 0x65; 0x72; 0x20; 0xB9] MAX_HFS_UNICODE_CHARS =
      Ok (0, [0x41; 0x308; 0x72; 0x67; 0x65; 0x72; 0x20; 0x3C0], 8)) as E by (vm_compute; reflexivity).
    change (Z.of_nat (length [0x80; 0x72; 0x67; 0x65; 0x72; 0x20; 0xB9])) with 7 in H1. rewrite E in H1. injection H1 as <- _. reflexivity.
Defined.

(** The test of the table of mathematical operators admits one character more than it has. *)
Lemma map_char_behind : map_char 0x2268 0 = Fault.
Proof. reflexivity. Qed.

(** A name with a wrong length byte is written behind the 75 characters. *)
Lemma mac_roman_overflow : mac_roman_to_utf8 (40 :: replicate 40 0x80) 256 = Fault.
Proof. vm_compute. reflexivity. Qed.

(** A converter that one volume uses is removed. *)
Lemma remconverter_in_use f l : hfs_remconverter (snd (hfs_getconverter (snd (hfs_addconverter l 5 1 f)) 1)) 5 1 = (false, l).
Proof. reflexivity. Qed.

(** What was taken is given back, unless nothing else holds the converter. *)
Lemma get_relconverter l enc f l' : hfs_getconverter l enc = (0, Some f, l') ->
  Forall (fun e => 0 <= refcount e < 2 ^ 31 - 1) l -> Forall (fun e => 0 < refcount e \/ kmod_id e = 0) l -> hfs_relconverter l' enc = (0, l).
Proof.
  revert l'. induction l as [|e l IH]; intros l' H Hr Hk; [done|]. apply Forall_cons in Hr as [Hr Hrs]. apply Forall_cons in Hk as [Hk Hks].
  cbn [hfs_getconverter] in H. destruct (encoding e =? enc) eqn:E.
  - injection H as _ <-. cbn [hfs_relconverter]. unfold add_ref. cbn [encoding refcount kmod_id funcs]. rewrite E.
    assert (s32 (s32 (refcount e + 1) + -1) = refcount e) as ->.
    { unfold s32. rewrite (swrap_small 32 (refcount e + 1)), swrap_small by lia. lia. }
    destruct (Z.leb_spec (refcount e) 0); cbn [andb]; [|by destruct e]. destruct Hk as [Hk|Hk]; [lia|]. rewrite Hk. by destruct e; simpl in *; subst.
  - destruct (hfs_getconverter l enc) as [[err f'] l1] eqn:El. injection H as -> -> <-. cbn [hfs_relconverter]. rewrite E.
    by rewrite (IH l1).
Qed.
