(* ===== verification/MacTime.v ===== *)
(** * Dates (hfsplus/hfs_macos_stubs.c)

    Volumes count seconds from 1904, HFS volumes in local time; the kernel from 1970.  Dates
    are 32-bit values on the volume, and zero is no date. *)
From S2P Require Import Prelude.

Definition MAC_GMT_FACTOR : Z := 2082844800.

Definition to_bsd_time (hfs_time : Z) : Z :=
  if MAC_GMT_FACTOR <? hfs_time then u32 (hfs_time - MAC_GMT_FACTOR) else 0.
Definition to_hfs_time (bsd_time : Z) : Z :=
  let hfs_time := u32 bsd_time in
  if negb (hfs_time =? 0) then u32 (hfs_time + MAC_GMT_FACTOR) else hfs_time.

Section zone.
(** [gTimeZone.tz_minuteswest] *)
Context (tz_minuteswest : Z).

Definition LocalToUTC (localTime : Z) : Z :=
  if negb (localTime =? 0) then u32 (localTime + tz_minuteswest * 60) else localTime.
Definition UTCToLocal (utcTime : Z) : Z :=
  if negb (utcTime =? 0) then u32 (utcTime - tz_minuteswest * 60) else utcTime.

Lemma LocalToUTC_roundtrip t : 0 <= t < 2 ^ 32 -> t <> u32 (tz_minuteswest * 60) -> LocalToUTC (UTCToLocal t) = t.
Proof.
  intros Ht Hne. unfold UTCToLocal, LocalToUTC. destruct (Z.eqb_spec t 0) as [->|Hz]; [done|]. cbn [negb].
  assert (u32 (t - tz_minuteswest * 60) <> 0) as Hn.
  { unfold u32, wrap in *. intros E. apply Hne. apply Z.mod_divide in E as [k E]; [|done].
    replace (tz_minuteswest * 60) with (t + (- k) * 2 ^ 32) by lia. rewrite Z.mod_add by done. by rewrite Z.mod_small. }
  rewrite (proj2 (Z.eqb_neq _ _) Hn). cbn [negb]. unfold u32, wrap. rewrite Z.add_mod_idemp_l by done.
  rewrite Z.sub_add. by apply Z.mod_small.
Qed.
End zone.

(** Dates from 1970 on until 2040 are the same after they were stored and read. *)
Lemma to_bsd_time_roundtrip t : 0 <= t < 2 ^ 32 - MAC_GMT_FACTOR -> to_bsd_time (to_hfs_time t) = t.
Proof.
  unfold to_hfs_time, to_bsd_time, MAC_GMT_FACTOR. intros Ht. rewrite u32_small by lia. destruct (Z.eqb_spec t 0) as [->|Hz]; [done|].
  cbn [negb]. rewrite u32_small by lia. destruct (Z.ltb_spec 2082844800 (t + 2082844800)); [|lia].
  rewrite u32_small by lia. lia.
Qed.

(** Later ones wrap, to no date at all in many cases. *)
Lemma to_hfs_time_wraps t : 2 ^ 32 - MAC_GMT_FACTOR <= t < 2 ^ 32 -> to_bsd_time (to_hfs_time t) = 0 \/ to_bsd_time (to_hfs_time t) < t.
Proof.
  unfold to_hfs_time, to_bsd_time, MAC_GMT_FACTOR. intros Ht. rewrite (u32_small t) by lia. destruct (Z.eqb_spec t 0); [lia|]. cbn [negb].
  assert (u32 (t + 2082844800) = t + 2082844800 - 2 ^ 32) as ->.
  { unfold u32, wrap. symmetry. apply (Z.mod_unique _ _ 1); lia. }
  destruct (Z.ltb_spec 2082844800 (t + 2082844800 - 2 ^ 32)); [lia|]. by left.
Qed.
