(* ===== verification/Catalog.v ===== *)
(** * The catalog (hfsplus/hfs_catalog.c)

    The catalog B-tree has a record for every file and folder, whose key is the parent and
    the name, and for each of them a thread record, whose key is its own number (CNID) and
    the empty name, that tells its parent and name.  Here are the routines that look up,
    create, rename, delete and update files and folders on top of the B-tree manager, for
    HFS Plus and HFS volumes.  Keys and records are the bytes of the structures of
    hfsplus/hfs_format.h, packed to two bytes. *)
From S2P Require Import Prelude Bits VolumeBitmap VolumeAllocation ExtentMapping UtfConv NameMangling Encodings MacTime.
From S2P Require Import Bytes UnicodeCompare BTreeNode BTreeKeys BTreeBlocks BTreeFile NodeSwap.

(** ** Constants *)

Definition kHFSFirstUserCatalogNodeID : Z := 16.
Definition kRootParID : Z := 1.
Definition fsRtDirID : Z := 2.
Definition kHFSCatalogNodeIDsReusedMask : Z := Z.shiftl 1 12.
Definition kHFSPlusCatalogKeyMinimumLength : Z := 6.
Definition kHFSCatalogKeyMinimumLength : Z := 6.
Definition kHFSThreadExistsMask : Z := 2.
Definition kHFSFileLockedMask : Z := 1.
Definition kHardLinkFileType : Z := 0x686C6E6B.
Definition kHFSPlusCreator : Z := 0x6866732B.
Definition sizeof_CatalogKey : Z := 518.
Definition sizeof_CatalogRecord : Z := 520.
Definition btExists : Z := ERR_BASE + 33.
Definition ENOENT : Z := 2.
Definition EIO : Z := 5.
Definition ENXIO : Z := 6.
Definition EBADF : Z := 9.
Definition ENOMEM : Z := 12.
Definition EEXIST : Z := 17.
Definition EISDIR : Z := 21.
Definition EFBIG : Z := 27.
Definition ENOSPC : Z := 28.
Definition ERANGE : Z := 34.
Definition ENOTEMPTY : Z := 66.
Definition EOVERFLOW : Z := 84.
Definition CD_HASBUF : Z := 0x01.
Definition CD_DECOMPOSED : Z := 0x02.
Definition CD_ISDIR : Z := 0x80.
Definition S_IFMT : Z := 0xF000.
Definition S_IFCHR : Z := 0x2000.
Definition S_IFDIR : Z := 0x4000.
Definition S_IFBLK : Z := 0x6000.
Definition S_IFREG : Z := 0x8000.
Definition S_IFLNK : Z := 0xA000.
Definition ACCESSPERMS : Z := 0x1FF.
Definition ALLPERMS : Z := 0xFFF.
Definition UF_IMMUTABLE : Z := 0x2.
Definition SF_IMMUTABLE : Z := 0x20000.

(** [MacToVFSError]; [memFullErr] and [fileBoundsErr] are -108 and -1309. *)
Definition MacToVFSError (err : Z) : Z :=
  let err := s16 err in
  if 0 <=? err then err
  else if err =? -34 then ENOSPC
  else if err =? ERR_BASE + 34 then EFBIG
  else if err =? ERR_BASE + 17 then EOVERFLOW
  else if err =? ERR_BASE + 36 then EBADF
  else if err =? -108 then ENOMEM
  else if (err =? ERR_BASE + 49) || (err =? btExists) then EEXIST
  else if (err =? ERR_BASE + 48) || (err =? btNotFound) then ENOENT
  else if err =? ERR_BASE + 50 then ENOTEMPTY
  else if err =? ERR_BASE + 53 then EISDIR
  else if err =? ERR_BASE + 16 then ERANGE
  else if err =? -37 then ENAMETOOLONG
  else if (err =? -50) || (err =? -1309) then EINVAL
  else if err =? ERR_BASE + 0x030C then ENXIO
  else EIO.

(** ** Runtime structures *)

(** [cat_desc]: [cd_namelen] is the length of the name. *)
Record cat_desc := mkDesc {
  cd_flags : Z;
  cd_encoding : Z;
  cd_name : list Z;
  cd_parentcnid : Z;
  cd_hint : Z;
  cd_cnid : Z
}.
Definition cd_namelen (d : cat_desc) : Z := Z.of_nat (length (cd_name d)).

(** [cat_attr]; [ca_union] is [ca_entries] of a directory, [ca_blocks] of a file. *)
Record cat_attr := mkAttr {
  ca_fileid : Z;
  ca_mode : Z;
  ca_nlink : Z;
  ca_uid : Z;
  ca_gid : Z;
  ca_rdev : Z;
  ca_atime : Z;
  ca_mtime : Z;
  ca_mtime_nsec : Z;
  ca_ctime : Z;
  ca_itime : Z;
  ca_btime : Z;
  ca_flags : Z;
  ca_union : Z;
  ca_finderinfo : buffer
}.

Record cat_fork := mkCatFork { cf_size : Z; cf_clump : Z; cf_blocks : Z; cf_extents : list HFSPlusExtentDescriptor }.

(** The parts of [hfsmount] and its volume control block that the catalog uses. *)
Record hfsmount := mkMount {
  hm_sigWord : Z;
  hm_nxtCNID : Z;
  hm_atrb : Z;
  hm_flags : Z;
  hm_blockSize : Z;
  hm_crDate : Z;
  hm_encodings : Z;
  hfs_uid : Z;
  hfs_gid : Z;
  hfs_dir_mask : Z;
  hfs_file_mask : Z;
  hfs_encoding : Z;
  hfs_converter : converter;
  hfs_private_metadata_dir : Z;
  hfs_metadata_createdate : Z;
  mnt_unknownpermissions : bool;
  hm_minuteswest : Z
}.
Definition std_hfs (m : hfsmount) : bool := hm_sigWord m =? kHFSSigWord.
Definition set_volume_cnid (m : hfsmount) (cnid atrb flags : Z) : hfsmount :=
  mkMount (hm_sigWord m) cnid atrb flags (hm_blockSize m) (hm_crDate m) (hm_encodings m) (hfs_uid m) (hfs_gid m) (hfs_dir_mask m) (hfs_file_mask m)
    (hfs_encoding m) (hfs_converter m) (hfs_private_metadata_dir m) (hfs_metadata_createdate m) (mnt_unknownpermissions m) (hm_minuteswest m).
Definition set_volume_encodings (m : hfsmount) (enc flags : Z) : hfsmount :=
  mkMount (hm_sigWord m) (hm_nxtCNID m) (hm_atrb m) flags (hm_blockSize m) (hm_crDate m) enc (hfs_uid m) (hfs_gid m) (hfs_dir_mask m) (hfs_file_mask m)
    (hfs_encoding m) (hfs_converter m) (hfs_private_metadata_dir m) (hfs_metadata_createdate m) (mnt_unknownpermissions m) (hm_minuteswest m).

(** [vcbFlags |= 0xFF00], a 16-bit field *)
Definition dirty_flags (flags : Z) : Z := s16 (Z.lor flags 0xFF00).

(** [hfs_setencodingbits] of hfs_vfsops.c: the shift is one of [int]. *)
Definition hfs_setencodingbits (m : hfsmount) (enc : Z) : outcome hfsmount :=
  let index := if enc =? 152 then 48 else if enc =? 140 then 49 else enc in
  if index <? 128 then
    if index <? 31 then Ok (set_volume_encodings m (Z.lor (hm_encodings m) (Z.shiftl 1 index)) (dirty_flags (hm_flags m))) else Fault
  else Ok m.

(** ** Fields of structures *)

Definition get (b : buffer) (p n : Z) : Z := field b p n.
Definition put (b : buffer) (p n v : Z) : buffer := splice b p (le_encode (Z.to_nat n) (wrap (8 * n) v)).
Definition zeros (b : buffer) (n : Z) : buffer := splice b 0 (replicate (Z.to_nat n) 0).

(** Several assignments, each at an offset with a width. *)
Definition puts (b : buffer) (l : list (Z * Z * Z)) : buffer := foldl (fun b '(p, n, v) => put b p n v) b l.

Definition recordType (r : buffer) : Z := s16 (get r 0 2).

(** ** Parts of catalog records *)

Definition getencoding (crp : buffer) : Z :=
  if recordType crp =? kHFSPlusFolderRecord then get crp 80 4
  else if recordType crp =? kHFSPlusFileRecord then get crp 80 4
  else 0.

Definition getcnid (crp : buffer) : outcome Z :=
  let t := recordType crp in
  if t =? kHFSFolderRecord then Ok (get crp 6 4)
  else if t =? kHFSFileRecord then Ok (get crp 20 4)
  else if t =? kHFSPlusFolderRecord then Ok (get crp 8 4)
  else if t =? kHFSPlusFileRecord then Ok (get crp 8 4)
  else Panic "hfs: getcnid: unknown recordType".

Definition getparentcnid (recp : buffer) : outcome Z :=
  let t := recordType recp in
  if (t =? kHFSFileThreadRecord) || (t =? kHFSFolderThreadRecord) then Ok (get recp 10 4)
  else if (t =? kHFSPlusFileThreadRecord) || (t =? kHFSPlusFolderThreadRecord) then Ok (get recp 4 4)
  else Panic "hfs: getparentcnid: unknown recordType".

Definition isadir (crp : buffer) : bool := (recordType crp =? kHFSFolderRecord) || (recordType crp =? kHFSPlusFolderRecord).

(** ** Keys and thread records *)

Definition buildthreadkey (parentID : Z) (std : bool) (key : buffer) : buffer :=
  if std then puts key [(0, 1, kHFSCatalogKeyMinimumLength); (1, 1, 0); (2, 4, parentID); (6, 1, 0)]
  else puts key [(0, 2, kHFSPlusCatalogKeyMinimumLength); (2, 4, parentID); (6, 2, 0)].

(** The size and the record. *)
Definition buildthread (key rec : buffer) (std directory : bool) : Z * buffer :=
  if std then
    let rec := zeros rec 46 in
    let rec := puts rec [(0, 2, if directory then kHFSFolderThreadRecord else kHFSFileThreadRecord); (10, 4, get key 2 4)] in
    (46, splice rec 14 (slice key 6 (get key 6 1 + 1)))
  else
    let rec := puts rec [(0, 2, if directory then kHFSPlusFolderThreadRecord else kHFSPlusFileThreadRecord); (2, 2, 0); (4, 4, get key 2 4)] in
    let rec := splice rec 8 (slice key 6 (2 * (get key 6 2 + 1))) in
    (520 - (510 - get rec 8 2 * 2), rec).

(** The result and the key. *)
Definition buildkey (m : hfsmount) (descp : cat_desc) (key : buffer) (retry : bool) : outcome (Z * buffer) :=
  if (cd_namelen descp =? 0) || (nth 0 (cd_name descp) 0 =? 0) then Ok (EINVAL, key)
  else
    let key := puts key [(2, 4, cd_parentcnid descp); (6, 2, 0)] in
    let utf8_flags := if Z.land (cd_flags descp) CD_DECOMPOSED =? 0 then UTF_DECOMPOSED else 0 in
    '(result, unicode) ← utf8_decodestr (cd_name descp) 510 0x3A utf8_flags;
    let unicodeBytes := 2 * Z.of_nat (length unicode) in
    let key := splice key 8 (concat (map (le_encode 2) unicode)) in
    let key := puts key [(6, 2, unicodeBytes / 2); (0, 2, kHFSPlusCatalogKeyMinimumLength + unicodeBytes)] in
    if negb (result =? 0) then Ok (if negb (result =? ENAMETOOLONG) then EINVAL else result, key)
    else if std_hfs m then
      let hfskey := puts (replicate 38 0) [(0, 1, kHFSCatalogKeyMinimumLength); (2, 4, get key 2 4); (6, 1, 0)] in
      if 0 <? get key 6 2 then
        '(result, name) ← unicode_to_hfs (hfs_converter m) (get key 6 2 * 2) unicode retry;
        if negb (result =? 0) then Ok (EINVAL, key)
        else
          let hfskey := splice hfskey 6 name in
          Ok (0, splice key 0 (put hfskey 0 1 (get hfskey 0 1 + get hfskey 6 1)))
      else Ok (0, splice key 0 hfskey)
    else Ok (0, key).

(** A descriptor from a key of HFS Plus; the result of the conversion is not used by the
    callers. *)
Definition builddesc (key : buffer) (cnid hint enc : Z) (isdir : bool) : outcome cat_desc :=
  let n := get key 6 2 in
  let name := map (fun j => get key (8 + 2 * j) 2) (seqZ 0 n) in
  '(result, out, utf8len) ← utf8_encodestr name (3 * n + 1) 0x3A 0;
  '(_, out, utf8len) ←
    (if result =? ENAMETOOLONG then utf8_encodestr name (1 + utf8_encodelen name 0x3A 0) 0x3A 0 else Ok (result, out, utf8len));
  Ok (mkDesc (Z.lor (Z.lor CD_DECOMPOSED CD_HASBUF) (if isdir then CD_ISDIR else 0)) (u8 enc) (take (Z.to_nat utf8len) out) (get key 2 4) hint cnid).

(** [promotekey]: the key and the encoding *)
Definition promotekey (m : hfsmount) (hfskey : buffer) : outcome (buffer * Z) :=
  let name := drop 6 hfskey in
  '(error, uni, uniCount) ← get_unicode (hfs_converter m) 255 name 255;
  '(enc, uni, uniCount) ←
    (if negb (error =? 0) && negb (hfs_encoding m =? kTextEncodingMacRoman) then
       '(_, uni, uniCount) ← mac_roman_to_unicode 255 name 255; Ok (0, uni, uniCount)
     else Ok (hfs_encoding m, uni, uniCount));
  let keyp := splice (replicate 518 0) 8 (concat (map (le_encode 2) uni)) in
  Ok (puts keyp [(6, 2, uniCount); (2, 4, get hfskey 2 4)], enc).

(** ** Attributes and forks *)

Definition S_ISDIR (mode : Z) : bool := Z.land mode S_IFMT =? S_IFDIR.

(** The 32-bit word at an offset of the Finder information, which is big-endian. *)
Definition finder_word (b : buffer) (p : Z) : Z := le_decode (rev (slice b p 4)).

(** The record, of which the first bytes are set, and its size. *)
Definition buildrecord (m : hfsmount) (attrp : cat_attr) (cnid : Z) (std : bool) (enc : Z) (crp : buffer) : buffer * Z :=
  let type := Z.land (ca_mode attrp) S_IFMT in
  let createtime := to_hfs_time (ca_itime attrp) in
  if std then
    let createtime := UTCToLocal (hm_minuteswest m) createtime in
    if type =? S_IFDIR then
      let crp := puts (zeros crp 70) [(0, 2, kHFSFolderRecord); (6, 4, cnid); (10, 4, createtime); (14, 4, createtime)] in
      (splice crp 22 (take 32 (ca_finderinfo attrp)), 70)
    else
      let crp := puts (zeros crp 102) [(0, 2, kHFSFileRecord); (20, 4, cnid); (44, 4, createtime); (48, 4, createtime)] in
      let crp := splice crp 4 (take 16 (ca_finderinfo attrp)) in
      (splice crp 56 (slice (ca_finderinfo attrp) 16 16), 102)
  else
    let '(crp, size) :=
      if type =? S_IFDIR then
        let crp := puts (zeros crp 88) [(0, 2, kHFSPlusFolderRecord); (8, 4, cnid); (12, 4, createtime); (16, 4, createtime); (24, 4, createtime);
          (20, 4, createtime); (80, 4, enc)] in
        (splice crp 48 (take 32 (ca_finderinfo attrp)), 88)
      else
        let crp := puts (zeros crp 248) [(0, 2, kHFSPlusFileRecord); (8, 4, cnid); (12, 4, createtime); (16, 4, createtime); (24, 4, createtime);
          (20, 4, createtime); (2, 2, kHFSThreadExistsMask); (80, 4, enc)] in
        let crp :=
          if (type =? S_IFBLK) || (type =? S_IFCHR) then put crp 44 4 (ca_rdev attrp)
          else if type =? S_IFREG then
            let crp := if (finder_word (ca_finderinfo attrp) 0 =? kHardLinkFileType) && (finder_word (ca_finderinfo attrp) 4 =? kHFSPlusCreator)
                       then put crp 44 4 (ca_rdev attrp) else crp in
            splice crp 48 (take 32 (ca_finderinfo attrp))
          else if type =? S_IFLNK then splice crp 48 (take 32 (ca_finderinfo attrp))
          else crp in
        (crp, 248) in
    (puts crp [(32, 4, ca_uid attrp); (36, 4, ca_gid attrp); (42, 2, ca_mode attrp); (40, 1, Z.shiftr (ca_flags attrp) 16);
       (41, 1, Z.land (ca_flags attrp) 0xFF)], size).

(** [getbsdattr], from a record of HFS Plus *)
Definition getbsdattr (m : hfsmount) (crp : buffer) : cat_attr :=
  let isDirectory := recordType crp =? kHFSPlusFolderRecord in
  let fileMode := get crp 42 2 in
  let '(flags, uid, gid, mode, rdev, nlink) :=
    if Z.land fileMode S_IFMT =? 0 then
      (0, hfs_uid m, hfs_gid m,
       if isDirectory then Z.lor S_IFDIR (Z.land (hfs_dir_mask m) ACCESSPERMS) else Z.lor S_IFREG (Z.land (hfs_file_mask m) ACCESSPERMS), 0, 1)
    else
      let type := Z.land fileMode S_IFMT in
      (Z.lor (get crp 41 1) (Z.shiftl (get crp 40 1) 16),
       if mnt_unknownpermissions m then hfs_uid m else get crp 32 4,
       if mnt_unknownpermissions m then hfs_gid m else get crp 36 4,
       fileMode,
       if (type =? S_IFCHR) || (type =? S_IFBLK) then get crp 44 4 else 0,
       if (type =? S_IFREG) && (0 <? get crp 44 4) then get crp 44 4 else 1) in
  let '(mode, nlink, union, flags) :=
    if isDirectory then
      (if negb (S_ISDIR mode) then Z.lor (Z.ldiff mode S_IFMT) S_IFDIR else mode, 2 + get crp 4 4, get crp 4 4, flags)
    else
      (mode, nlink, u32 (get crp 100 4 + get crp 180 4),
       if negb (Z.land (get crp 2 2) kHFSFileLockedMask =? 0)
       then if Z.land flags (Z.lor SF_IMMUTABLE UF_IMMUTABLE) =? 0 then Z.lor flags UF_IMMUTABLE else flags
       else Z.ldiff flags (Z.lor SF_IMMUTABLE UF_IMMUTABLE)) in
  mkAttr (get crp 8 4) mode nlink uid gid rdev (to_bsd_time (get crp 24 4)) (to_bsd_time (get crp 16 4)) 0 (to_bsd_time (get crp 20 4))
    (to_bsd_time (get crp 12 4)) (to_bsd_time (get crp 28 4)) flags union (slice crp 48 32).

(** [promoteattr]: a record of HFS as one of HFS Plus, on what the stack holds *)
Definition promoteattr (m : hfsmount) (rec crp : buffer) : buffer :=
  let utc t := LocalToUTC (hm_minuteswest m) t in
  let crp :=
    if recordType rec =? kHFSFolderRecord then
      let crp := puts crp [(0, 2, kHFSPlusFolderRecord); (2, 2, get rec 2 2); (8, 4, get rec 6 4); (12, 4, utc (get rec 10 4));
        (16, 4, utc (get rec 14 4)); (28, 4, utc (get rec 18 4)); (4, 4, get rec 4 2)] in
      splice crp 48 (slice rec 22 32)
    else
      let crp := puts crp [(0, 2, kHFSPlusFileRecord); (2, 2, get rec 2 1); (8, 4, get rec 20 4); (12, 4, utc (get rec 44 4));
        (16, 4, utc (get rec 48 4)); (28, 4, utc (get rec 52 4)); (4, 4, 0)] in
      let crp := splice crp 48 (slice rec 4 16) in
      let crp := splice crp 64 (slice rec 56 16) in
      puts crp [(100, 4, u64 (s32 (get rec 30 4)) / hm_blockSize m); (180, 4, u64 (s32 (get rec 40 4)) / hm_blockSize m)] in
  let crp := puts crp [(80, 4, 0); (20, 4, get crp 16 4); (24, 4, get crp 16 4)] in
  put (splice crp 32 (replicate 16 0)) 84 4 0.

Definition descriptors (w : nat) (n : nat) (b : buffer) : list HFSPlusExtentDescriptor :=
  map (fun j => Ext (get b (2 * Z.of_nat w * Z.of_nat j) (Z.of_nat w)) (get b (2 * Z.of_nat w * Z.of_nat j + Z.of_nat w) (Z.of_nat w))) (seq 0 n).

(** [promotefork]: the fork of an HFS file; sizes are signed 32-bit values *)
Definition promotefork (m : hfsmount) (filep : buffer) (resource : bool) : cat_fork :=
  let p := if resource then 36 else 26 in
  mkCatFork (u64 (s32 (get filep p 4))) 0 (u32 (u64 (s32 (get filep (p + 4) 4)) / hm_blockSize m))
    (descriptors 2 3 (drop (if resource then 86 else 74)%nat filep) ++ replicate 5 (Ext 0 0)).

(** The fork data of a record of HFS Plus, copied. *)
Definition copyfork (b : buffer) (p : Z) : cat_fork :=
  mkCatFork (get b p 8) (get b (p + 8) 4) (get b (p + 12) 4) (descriptors 4 8 (drop (Z.to_nat p + 16) b)).
Definition no_fork : cat_fork := mkCatFork 0 0 0 (replicate 8 (Ext 0 0)).

(** ** Updating a record *)

(** The BSD information is written if it was initialized before or if the values differ
    from the defaults. *)
Definition update_bsdinfo (m : hfsmount) (attrp : cat_attr) (mask : Z) (r : buffer) : buffer :=
  if negb (get r 42 2 =? 0) || negb (ca_flags attrp =? 0) || negb (ca_uid attrp =? hfs_uid m) || negb (ca_gid attrp =? hfs_gid m) ||
     negb (Z.land (ca_mode attrp) ALLPERMS =? Z.land mask ACCESSPERMS) then
    let r := if (get r 42 2 =? 0) || negb (mnt_unknownpermissions m) then puts r [(32, 4, ca_uid attrp); (36, 4, ca_gid attrp)] else r in
    puts r [(41, 1, Z.land (ca_flags attrp) 0xFF); (40, 1, Z.shiftr (ca_flags attrp) 16); (42, 2, ca_mode attrp)]
  else r.

Definition put_dates (attrp : cat_attr) (r : buffer) : buffer :=
  puts r [(12, 4, to_hfs_time (ca_itime attrp)); (16, 4, to_hfs_time (ca_mtime attrp)); (28, 4, to_hfs_time (ca_btime attrp));
    (24, 4, to_hfs_time (ca_atime attrp)); (20, 4, to_hfs_time (ca_ctime attrp))].

(** [n] descriptors of [w]-byte fields. *)
Definition put_descriptors (w : Z) (n : nat) (r : buffer) (p : Z) (l : list HFSPlusExtentDescriptor) : buffer :=
  puts r (concat (imap (fun j e => [(p + 2 * w * Z.of_nat j, w, startBlock e); (p + 2 * w * Z.of_nat j + w, w, blockCount e)]) (take n l))).

Definition update_hfs_fork (m : hfsmount) (forkp : option cat_fork) (size ext : Z) (r : buffer) : buffer :=
  match forkp with
  | Some f => put_descriptors 2 3 (puts r [(size, 4, cf_size f); (size + 4, 4, cf_blocks f * hm_blockSize m)]) ext (cf_extents f)
  | None => r
  end.
Definition update_plus_fork (forkp : option cat_fork) (p : Z) (r : buffer) : buffer :=
  match forkp with
  | Some f => put_descriptors 4 8 (puts r [(p, 8, cf_size f); (p + 12, 4, cf_blocks f)]) (p + 16) (cf_extents f)
  | None => r
  end.

(** The result and the record; the parameters are those of [update_state]. *)
Definition catrec_update (m : hfsmount) (descp : cat_desc) (attrp : cat_attr) (datafork rsrcfork : option cat_fork) (ckp crp : buffer)
    : outcome (Z * buffer) :=
  let t := recordType crp in
  let local d := UTCToLocal (hm_minuteswest m) (to_hfs_time d) in
  if t =? kHFSFolderRecord then
    if negb (get ckp 2 4 =? cd_parentcnid descp) || negb (get crp 6 4 =? cd_cnid descp) then Ok (btNotFound, crp)
    else
      let crp := puts crp [(4, 2, ca_union attrp); (10, 4, local (ca_itime attrp)); (14, 4, local (ca_mtime attrp)); (18, 4, local (ca_btime attrp))] in
      let crp := splice crp 22 (slice (ca_finderinfo attrp) 0 16) in
      Ok (0, splice crp 38 (slice (ca_finderinfo attrp) 16 16))
  else if t =? kHFSFileRecord then
    if negb (get ckp 2 4 =? cd_parentcnid descp) || negb (get crp 20 4 =? ca_fileid attrp) then Ok (btNotFound, crp)
    else
      let crp := puts crp [(44, 4, local (ca_itime attrp)); (48, 4, local (ca_mtime attrp)); (52, 4, local (ca_btime attrp))] in
      let crp := splice crp 4 (slice (ca_finderinfo attrp) 0 16) in
      let crp := splice crp 56 (slice (ca_finderinfo attrp) 16 16) in
      Ok (0, update_hfs_fork m datafork 26 74 (update_hfs_fork m rsrcfork 36 86 crp))
  else if t =? kHFSPlusFolderRecord then
    if negb (get ckp 2 4 =? cd_parentcnid descp) || negb (get crp 8 4 =? cd_cnid descp) then Ok (btNotFound, crp)
    else
      let crp := put (put_dates attrp (put crp 4 4 (ca_union attrp))) 80 4 (cd_encoding descp) in
      Ok (0, update_bsdinfo m attrp (hfs_dir_mask m) (splice crp 48 (slice (ca_finderinfo attrp) 0 32)))
  else if t =? kHFSPlusFileRecord then
    if negb (get crp 8 4 =? ca_fileid attrp) then Ok (btNotFound, crp)
    else
      let crp := put (put_dates attrp crp) 80 4 (cd_encoding descp) in
      let crp := update_bsdinfo m attrp (hfs_file_mask m) (splice crp 48 (slice (ca_finderinfo attrp) 0 32)) in
      let crp := update_plus_fork datafork 88 (update_plus_fork rsrcfork 168 crp) in
      if negb (get crp 184 4 =? 0) && (get crp 184 4 =? get crp 104 4) then Panic "catrec_update: rsrc fork == data fork"
      else
        let crp := put crp 2 2 (if negb (Z.land (ca_flags attrp) (Z.lor SF_IMMUTABLE UF_IMMUTABLE) =? 0)
                                then Z.lor (get crp 2 2) kHFSFileLockedMask else Z.ldiff (get crp 2 2) kHFSFileLockedMask) in
        let type := Z.land (ca_mode attrp) S_IFMT in
        Ok (0, if (type =? S_IFBLK) || (type =? S_IFCHR) then put crp 44 4 (ca_rdev attrp)
               else if negb (cd_cnid descp =? ca_fileid attrp) || (ca_nlink attrp =? 2) then put crp 44 4 (ca_nlink attrp)
               else crp)
  else Ok (btNotFound, crp).

(** ** The B-tree and the cache of iterators *)

(** The B-tree manager (BTree.c), opened on the catalog file.  A search gets the iterator,
    the buffer for the record and whether the iterator is to be set; it gives the error,
    iterator, buffer and the size of the record.  [ct_insert], [ct_replace] get the record
    and its size. *)
Class CatalogTree (X : Type) := {
  ct_search : X -> BTreeIterator -> buffer -> bool -> outcome (Z * BTreeIterator * buffer * Z * X);
  ct_insert : X -> BTreeIterator -> buffer -> Z -> outcome (Z * BTreeIterator * X);
  ct_replace : X -> BTreeIterator -> buffer -> Z -> outcome (Z * BTreeIterator * X);
  ct_delete : X -> BTreeIterator -> outcome (Z * BTreeIterator * X);
  ct_update : X -> BTreeIterator -> (buffer -> buffer -> outcome (Z * buffer)) -> outcome (Z * BTreeIterator * X);
  ct_free_space : X -> outcome (Z * X);
  ct_flush : X -> outcome X;
  (** [TrashCatalogIterator] of CatalogIterators.c *)
  ct_trash : X -> Z -> X
}.

Definition new_iterator : BTreeIterator := mkIterator no_hint 0 0 0 0 (replicate 522 0).
Definition set_key (it : BTreeIterator) (key : buffer) : BTreeIterator :=
  mkIterator (it_hint it) (it_version it) (it_reserved it) (it_hitCount it) (it_maxLeafRecs it) key.
Definition set_nodeNum (it : BTreeIterator) (n : Z) : BTreeIterator :=
  set_hint it (mkHint (hint_writeCount (it_hint it)) n (hint_index (it_hint it)) (hint_reserved1 (it_hint it)) (hint_reserved2 (it_hint it))).

(** ** Looking up *)

Section catalog.
Context {X : Type} `{!CatalogTree X}.
(** [hfs_pickencoding] of hfs_encodinghint.c, and what the memory for a record holds. *)
Context (hfs_pickencoding : list Z -> Z) (junk : buffer).

(** Decimal digits, as [sprintf] writes them. *)
Fixpoint decimal (fuel : nat) (n : Z) (acc : list Z) : list Z :=
  match fuel with
  | O => acc
  | S fuel => let acc := 48 + n mod 10 :: acc in if n / 10 =? 0 then acc else decimal fuel (n / 10) acc
  end.
Definition MAKE_INODE_NAME (linkno : Z) : list Z := [105; 78; 111; 100; 101] ++ decimal 20 linkno [].

(** The record of the inode, if it is found. *)
Definition resolvelink (m : hfsmount) (x : X) (linkref : Z) (recp : buffer) : outcome (Z * buffer * X) :=
  let idesc := mkDesc 0 0 (MAKE_INODE_NAME linkref) (hfs_private_metadata_dir m) 0 0 in
  '(_, key) ← buildkey m idesc (it_key new_iterator) false;
  '(result, _, recp, _, x) ← ct_search x (set_key new_iterator key) recp false;
  if result =? 0 then Ok (0, if get recp 44 4 =? 0 then put recp 44 4 2 else recp, x) else Ok (ENOENT, recp, x).

Definition is_hardlink (m : hfsmount) (recp : buffer) : bool :=
  negb (std_hfs m) && (recordType recp =? kHFSPlusFileRecord) && (finder_word recp 48 =? kHardLinkFileType) && (finder_word recp 52 =? kHFSPlusCreator) &&
  ((to_bsd_time (get recp 12 4) =? hm_crDate m) || (to_bsd_time (get recp 12 4) =? hfs_metadata_createdate m)).

(** What a look-up returns to its caller, in the structures that it asked for. *)
Record found := mkFound { fo_desc : option cat_desc; fo_attr : option cat_attr; fo_fork : option cat_fork }.
Record wanted := mkWanted { want_desc : bool; want_attr : bool; want_fork : bool }.
Definition nothing : found := mkFound None None None.

Definition lookup_attr (m : hfsmount) (recp : buffer) (ilink : Z) : cat_attr :=
  if std_hfs m then getbsdattr m (promoteattr m recp junk)
  else
    let a := getbsdattr m recp in
    if negb (ilink =? 0) then
      mkAttr (ca_fileid a) (ca_mode a) (ca_nlink a) (ca_uid a) (ca_gid a) ilink (ca_atime a) (ca_mtime a) (ca_mtime_nsec a) (ca_ctime a) (ca_itime a)
        (ca_btime a) (ca_flags a) (ca_union a) (ca_finderinfo a)
    else a.
Definition lookup_fork (m : hfsmount) (recp : buffer) (wantrsrc : bool) : cat_fork :=
  if isadir recp then no_fork
  else if std_hfs m then promotefork m recp wantrsrc
  else copyfork recp (if wantrsrc then 168 else 88).
Definition lookup_desc (m : hfsmount) (key : buffer) (cnid hint enc : Z) (isdir : bool) : outcome cat_desc :=
  '(key, enc) ← (if std_hfs m then promotekey m key else Ok (key, enc));
  builddesc key cnid hint enc isdir.

(** [keyp] is the 518 bytes of the key. *)
Definition cat_lookupbykey (m : hfsmount) (x : X) (keyp : buffer) (hint : Z) (wantrsrc : bool) (w : wanted) : outcome (Z * found * X) :=
  let it := set_nodeNum (set_key new_iterator (splice (it_key new_iterator) 0 keyp)) hint in
  '(result, it, recp, _, x) ← ct_search x it junk true;
  if negb (result =? 0) then Ok (MacToVFSError result, nothing, x)
  else
    cnid ← getcnid recp;
    let enc := getencoding recp in
    let hint := hint_nodeNum (it_hint it) in
    '(ilink, recp, x) ←
      (if (want_attr w || want_fork w) && is_hardlink m recp then
         let ilink := get recp 44 4 in
         '(_, recp, x) ← resolvelink m x ilink recp; Ok (ilink, recp, x)
       else Ok (0, recp, x));
    desc ← (if want_desc w then d ← lookup_desc m (it_key it) cnid hint enc (isadir recp); Ok (Some d) else Ok None);
    Ok (0, mkFound desc (if want_attr w then Some (lookup_attr m recp ilink) else None)
             (if want_fork w then Some (lookup_fork m recp wantrsrc) else None), x).

(** A thread record turned into the key of its node, in place: where the key starts. *)
Definition thread_key (recp : buffer) : option (Z * buffer) :=
  let t := recordType recp in
  if (t =? kHFSFileThreadRecord) || (t =? kHFSFolderThreadRecord) then Some (8, put recp 8 1 (kHFSCatalogKeyMinimumLength + get recp 14 1))
  else if (t =? kHFSPlusFileThreadRecord) || (t =? kHFSPlusFolderThreadRecord) then
    Some (2, put recp 2 2 (kHFSPlusCatalogKeyMinimumLength + get recp 8 2 * 2))
  else None.

Definition cat_idlookup (m : hfsmount) (x : X) (cnid : Z) (w : wanted) : outcome (Z * found * X) :=
  let it := set_key new_iterator (buildthreadkey cnid (std_hfs m) (it_key new_iterator)) in
  '(result, _, recp, _, x) ← ct_search x it junk true;
  if negb (result =? 0) then Ok (MacToVFSError result, nothing, x)
  else
    match thread_key recp with
    | None => Ok (ENOENT, nothing, x)
    | Some (p, recp) =>
        keyp ← get_bytes recp p sizeof_CatalogKey;
        '(result, f, x) ← cat_lookupbykey m x keyp 0 false w;
        Ok (MacToVFSError result, f, x)
    end.

(** The caller wants the descriptor.  The length for [bcmp] is unsigned. *)
Definition cat_lookupmangled (m : hfsmount) (x : X) (descp : cat_desc) (wantrsrc : bool) (w : wanted) : outcome (Z * found * X) :=
  if wantrsrc then Ok (ENOENT, nothing, x)
  else
    '(fileID, prefixlen) ← GetEmbeddedFileID (cd_name descp);
    if fileID <? kHFSFirstUserCatalogNodeID then Ok (ENOENT, nothing, x)
    else
      '(result, f, x) ← cat_idlookup m x fileID w;
      if negb (result =? 0) then Ok (ENOENT, nothing, x)
      else
        out ← of_option (fo_desc f);
        if negb (cd_parentcnid descp =? cd_parentcnid out) then Ok (ENOENT, nothing, x)
        else if cd_namelen out <? prefixlen then Ok (ENOENT, nothing, x)
        else if prefixlen <? 6 then Fault
        else if negb (bool_decide (slice (cd_name out) 0 (prefixlen - 6) = slice (cd_name descp) 0 (prefixlen - 6))) then Ok (ENOENT, nothing, x)
        else Ok (0, f, x).

Definition cat_lookup (m : hfsmount) (x : X) (descp : cat_desc) (wantrsrc : bool) (w : wanted) : outcome (Z * found * X) :=
  '(result, keyp) ← buildkey m descp (take (Z.to_nat sizeof_CatalogKey) junk) true;
  if negb (result =? 0) then Ok (result, nothing, x)
  else
    '(result, f, x) ← cat_lookupbykey m x keyp (cd_hint descp) wantrsrc w;
    if (result =? ENOENT) && negb (std_hfs m) then cat_lookupmangled m x descp wantrsrc w else Ok (result, f, x).

(** The key of a node from its number. *)
Definition getkey (m : hfsmount) (x : X) (cnid : Z) (key : buffer) : outcome (Z * buffer * X) :=
  let it := set_key new_iterator (buildthreadkey cnid (std_hfs m) (it_key new_iterator)) in
  '(result, _, recp, _, x) ← ct_search x it junk true;
  if negb (result =? 0) then Ok (MacToVFSError result, key, x)
  else
    match thread_key recp with
    | None => Ok (ENOENT, key, x)
    | Some (p, recp) =>
        let n := if p =? 2 then get recp p 2 + 2 else get recp p 1 + 1 in
        keyp ← get_bytes recp p n;
        Ok (0, splice key 0 keyp, x)
    end.

(** ** Creating *)

(** The thread record gets the next number that is free; [vcbFlags] is that of the volume. *)
Fixpoint insert_thread (fuel : nat) (m : hfsmount) (x : X) (it : BTreeIterator) (data : buffer) (datalen nextCNID : Z)
    : outcome (Z * Z * BTreeIterator * hfsmount * X) :=
  match fuel with
  | O => Diverge
  | S fuel =>
      let it := set_key it (buildthreadkey nextCNID (std_hfs m) (it_key it)) in
      '(result, it, x) ← ct_insert x it data datalen;
      if (result =? btExists) && negb (std_hfs m) then
        let nextCNID := u32 (nextCNID + 1) in
        if nextCNID <? kHFSFirstUserCatalogNodeID then
          insert_thread fuel (set_volume_cnid m (hm_nxtCNID m) (s16 (Z.lor (hm_atrb m) kHFSCatalogNodeIDsReusedMask)) (dirty_flags (hm_flags m)))
            x it data datalen kHFSFirstUserCatalogNodeID
        else insert_thread fuel m x it data datalen nextCNID
      else Ok (result, nextCNID, it, m, x)
  end.

(** [exit:] *)
Definition create_exit (m : hfsmount) (x : X) (result : Z) (attrp : cat_attr) (out : option cat_desc)
    : outcome (Z * cat_attr * option cat_desc * hfsmount * X) :=
  x ← ct_flush x; Ok (MacToVFSError result, attrp, out, m, x).

Definition set_fileid (a : cat_attr) (cnid : Z) : cat_attr :=
  mkAttr cnid (ca_mode a) (ca_nlink a) (ca_uid a) (ca_gid a) (ca_rdev a) (ca_atime a) (ca_mtime a) (ca_mtime_nsec a) (ca_ctime a) (ca_itime a)
    (ca_btime a) (ca_flags a) (ca_union a) (ca_finderinfo a).

(** The record of the node itself, and what follows. *)
Definition create_node (m : hfsmount) (x : X) (descp : cat_desc) (attrp : cat_attr) (wantdesc : bool) (it : BTreeIterator) (key data : buffer)
    (nextCNID enc : Z) : outcome (Z * cat_attr * option cat_desc * hfsmount * X) :=
  let isdir := S_ISDIR (ca_mode attrp) in
  let '(data, datalen) := buildrecord m attrp nextCNID (std_hfs m) enc data in
  let it := set_key it (splice (it_key it) 0 key) in
  '(result, it, x) ← ct_insert x it data datalen;
  if negb (result =? 0) then
    let result := if result =? btExists then EEXIST else result in
    x ← (if negb (std_hfs m) || isdir then
           '(_, _, x) ← ct_delete x (set_key it (buildthreadkey nextCNID (std_hfs m) (it_key it))); Ok x
         else Ok x);
    create_exit m x result attrp None
  else
    out ← (if wantdesc then d ← lookup_desc m (it_key it) nextCNID (hint_nodeNum (it_hint it)) enc isdir; Ok (Some d) else Ok None);
    let attrp := set_fileid attrp nextCNID in
    let x := ct_trash x (cd_parentcnid descp) in
    let nextCNID := u32 (nextCNID + 1) in
    let '(nextCNID, atrb) :=
      if nextCNID <? kHFSFirstUserCatalogNodeID then (kHFSFirstUserCatalogNodeID, s16 (Z.lor (hm_atrb m) kHFSCatalogNodeIDsReusedMask))
      else (nextCNID, hm_atrb m) in
    create_exit (set_volume_cnid m nextCNID atrb (dirty_flags (hm_flags m))) x result attrp out.

(** The result, [*attrp], [*out_descp], the volume and the tree. *)
Definition cat_create (fuel : nat) (m : hfsmount) (x : X) (descp : cat_desc) (attrp : cat_attr) (wantdesc : bool)
    : outcome (Z * cat_attr * option cat_desc * hfsmount * X) :=
  let nextCNID := hm_nxtCNID m in
  if std_hfs m && (nextCNID =? 0xFFFFFFFF) then Ok (ENOSPC, attrp, None, m, x)
  else
    '(result, key) ← buildkey m descp (replicate 518 0) false;
    if negb (result =? 0) then create_exit m x result attrp None
    else
      let enc := if std_hfs m then 0 else hfs_pickencoding (map (fun j => get key (8 + 2 * j) 2) (seqZ 0 (get key 6 2))) in
      m ← (if std_hfs m then Ok m else hfs_setencodingbits m enc);
      '(result, x) ← ct_free_space x;
      if negb (result =? 0) then create_exit m x result attrp None
      else
        let data := replicate (Z.to_nat sizeof_CatalogRecord) 0 in
        if negb (std_hfs m) || (Z.land (ca_mode attrp) S_IFMT =? S_IFDIR) then
          let '(datalen, data) := buildthread key data (std_hfs m) (S_ISDIR (ca_mode attrp)) in
          '(result, nextCNID, it, m, x) ← insert_thread fuel m x new_iterator data datalen nextCNID;
          if negb (result =? 0) then create_exit m x result attrp None
          else create_node m x descp attrp wantdesc it key data nextCNID enc
        else create_node m x descp attrp wantdesc new_iterator key data nextCNID enc.

(** ** Deleting and updating *)

Definition cat_delete (m : hfsmount) (x : X) (descp : cat_desc) (attrp : cat_attr) : outcome (Z * X) :=
  if (cd_cnid descp <? kHFSFirstUserCatalogNodeID) || (cd_parentcnid descp =? kRootParID) then Ok (EINVAL, x)
  else
    '(result, key, cnid, x) ←
      (if cd_namelen descp =? 0 then
         '(result, key, x) ← getkey m x (ca_fileid attrp) (it_key new_iterator); Ok (result, key, ca_fileid attrp, x)
       else '(result, key) ← buildkey m descp (it_key new_iterator) false; Ok (result, key, cd_cnid descp, x));
    if negb (result =? 0) then x ← ct_flush x; Ok (MacToVFSError result, x)
    else
      '(result, x) ← ct_free_space x;
      if negb (result =? 0) then x ← ct_flush x; Ok (MacToVFSError result, x)
      else
        '(result, it, x) ← ct_delete x (set_key new_iterator key);
        if negb (result =? 0) then x ← ct_flush x; Ok (MacToVFSError result, x)
        else
          '(_, _, x) ← ct_delete x (set_key it (buildthreadkey cnid (std_hfs m) (it_key it)));
          x ← ct_flush (ct_trash x (cd_parentcnid descp));
          Ok (MacToVFSError result, x).

(** The result and the hint of the descriptor. *)
Definition cat_update (m : hfsmount) (x : X) (descp : cat_desc) (attrp : cat_attr) (datafork rsrcfork : option cat_fork) : outcome (Z * Z * X) :=
  '(result, key, x) ←
    (if negb (cd_cnid descp =? ca_fileid attrp) || (cd_namelen descp =? 0) then getkey m x (ca_fileid attrp) (it_key new_iterator)
     else '(result, key) ← buildkey m descp (it_key new_iterator) false; Ok (result, key, x));
  if negb (result =? 0) then x ← ct_flush x; Ok (MacToVFSError result, cd_hint descp, x)
  else
    '(result, it, x) ← ct_update x (set_nodeNum (set_key new_iterator key) (cd_hint descp)) (catrec_update m descp attrp datafork rsrcfork);
    x ← ct_flush x;
    Ok (MacToVFSError result, if negb (result =? 0) then cd_hint descp else hint_nodeNum (it_hint it), x).

(** ** Renaming *)

(** The way from the destination back to the root: the result and the record buffer. *)
Fixpoint check_path (fuel : nat) (m : hfsmount) (x : X) (cnid pathcnid : Z) (key recp : buffer) : outcome (Z * buffer * X) :=
  match fuel with
  | O => Diverge
  | S fuel =>
      if fsRtDirID <? pathcnid then
        let key := buildthreadkey pathcnid (std_hfs m) key in
        '(result, _, recp, _, x) ← ct_search x (set_key new_iterator key) recp false;
        if negb (result =? 0) then Ok (result, recp, x)
        else
          pathcnid ← getparentcnid recp;
          if pathcnid =? cnid then Ok (EINVAL, recp, x) else check_path fuel m x cnid pathcnid key recp
      else Ok (0, recp, x)
  end.

(** Whether a directory may be moved. *)
Definition check_move (fuel : nat) (m : hfsmount) (x : X) (from_cdp todir_cdp to_cdp : cat_desc) : outcome (Z * buffer * X) :=
  if negb (Z.land (cd_flags from_cdp) CD_ISDIR =? 0) && negb (cd_parentcnid from_cdp =? cd_parentcnid to_cdp) then
    let cnid := cd_cnid from_cdp in
    let pathcnid := cd_parentcnid todir_cdp in
    if (cnid =? fsRtDirID) || (cnid =? cd_parentcnid to_cdp) || (cnid =? pathcnid) then Ok (EINVAL, junk, x)
    else check_path fuel m x cnid pathcnid (it_key new_iterator) junk
  else Ok (0, junk, x).

Definition rename_exit (m : hfsmount) (x : X) (result : Z) (out : option cat_desc) : outcome (Z * option cat_desc * hfsmount * X) :=
  x ← ct_flush x; Ok (MacToVFSError result, out, m, x).

(** The record is at its new place: the thread record follows. *)
Definition rename_thread (m : hfsmount) (x : X) (from_cdp : cat_desc) (wantdesc directory skipthread : bool) (from_it to_it : BTreeIterator)
    (recp : buffer) (enc : Z) : outcome (Z * option cat_desc * hfsmount * X) :=
  '(_, from_it, x) ← ct_delete x (set_key from_it (buildthreadkey (cd_cnid from_cdp) (std_hfs m) (it_key from_it)));
  '(result, x) ←
    (if skipthread then Ok (0, x)
     else
       let '(datasize, recp) := buildthread (it_key to_it) recp (std_hfs m) directory in
       '(result, _, x) ← ct_insert x (set_key from_it (buildthreadkey (cd_cnid from_cdp) (std_hfs m) (it_key from_it))) recp datasize;
       Ok (result, x));
  out ← (if wantdesc then d ← lookup_desc m (it_key to_it) (cd_cnid from_cdp) (hint_nodeNum (it_hint to_it)) enc directory; Ok (Some d) else Ok None);
  rename_exit m x result out.

(** The new name differs from the old one in case only, if the record there is the node's
    own: the result, whether the old record is gone, the iterators and the record. *)
Definition rename_case (x : X) (from_cdp to_cdp : cat_desc) (from_it to_it : BTreeIterator) (recp : buffer)
    : outcome (Z * bool * BTreeIterator * BTreeIterator * buffer * X) :=
  let fromtype := recordType recp in
  if negb (cd_parentcnid from_cdp =? cd_parentcnid to_cdp) then Ok (btExists, false, from_it, to_it, recp, x)
  else
    '(result, _, recp, datasize, x) ← ct_search x to_it recp false;
    same ← (if negb (fromtype =? recordType recp) then Ok false else cnid ← getcnid recp; Ok (cd_cnid from_cdp =? cnid));
    if negb same then Ok (result, false, from_it, to_it, recp, x)
    else
      '(result, from_it, x) ← ct_delete x from_it;
      if negb (result =? 0) then Ok (result, false, from_it, to_it, recp, x)
      else
        '(result, to_it, x) ← ct_insert x to_it recp datasize;
        if negb (result =? 0) then
          '(err, from_it, x) ← ct_insert x from_it recp datasize;
          if negb (err =? 0) then Panic "cat_create: could not undo" else Ok (result, false, from_it, to_it, recp, x)
        else Ok (0, true, from_it, to_it, recp, x).

Definition rename_record (m : hfsmount) (x : X) (from_cdp to_cdp : cat_desc) (wantdesc : bool) (from_it to_it : BTreeIterator) (recp : buffer)
    : outcome (Z * option cat_desc * hfsmount * X) :=
  let directory := negb (Z.land (cd_flags from_cdp) CD_ISDIR =? 0) in
  '(result, from_it, recp, datasize, x) ← ct_search x from_it recp true;
  if negb (result =? 0) then rename_exit m x result None
  else
    let to_key := it_key to_it in
    let enc := if std_hfs m then 0 else hfs_pickencoding (map (fun j => get to_key (8 + 2 * j) 2) (seqZ 0 (get to_key 6 2))) in
    m ← (if std_hfs m then Ok m else hfs_setencodingbits m enc);
    let recp := if std_hfs m then recp else put recp 80 4 enc in
    let skipthread := std_hfs m && negb directory && (Z.land (get recp 2 1) kHFSThreadExistsMask =? 0) in
    let x := ct_trash x (cd_parentcnid from_cdp) in
    let x := if negb (cd_parentcnid from_cdp =? cd_parentcnid to_cdp) then ct_trash x (cd_parentcnid to_cdp) else x in
    '(result, to_it, x) ← ct_insert x to_it recp datasize;
    if result =? btExists then
      '(result, sourcegone, from_it, to_it, recp, x) ← rename_case x from_cdp to_cdp from_it to_it recp;
      if sourcegone : bool then rename_thread m x from_cdp wantdesc directory skipthread from_it to_it recp enc
      else rename_exit m x result None
    else if negb (result =? 0) then rename_exit m x result None
    else
      '(result, from_it, x) ← ct_delete x from_it;
      if negb (result =? 0) then
        '(err, _, x) ← ct_delete x to_it;
        if negb (err =? 0) then Panic "cat_create: could not undo" else rename_exit m x result None
      else rename_thread m x from_cdp wantdesc directory skipthread from_it to_it recp enc.

Definition cat_rename (fuel : nat) (m : hfsmount) (x : X) (from_cdp todir_cdp to_cdp : cat_desc) (wantdesc : bool)
    : outcome (Z * option cat_desc * hfsmount * X) :=
  if (cd_namelen from_cdp =? 0) || (cd_namelen to_cdp =? 0) then Ok (EINVAL, None, m, x)
  else
    '(result, from_key) ← buildkey m from_cdp (it_key new_iterator) false;
    if negb (result =? 0) then rename_exit m x result None
    else
      '(result, to_key) ← buildkey m to_cdp (it_key new_iterator) false;
      if negb (result =? 0) then rename_exit m x result None
      else
        '(result, x) ← ct_free_space x;
        if negb (result =? 0) then rename_exit m x result None
        else
          '(result, recp, x) ← check_move fuel m x from_cdp todir_cdp to_cdp;
          if negb (result =? 0) then rename_exit m x result None
          else rename_record m x from_cdp to_cdp wantdesc (set_key new_iterator from_key) (set_key new_iterator to_key) recp.

(** ** Thread records of HFS files *)

Definition cat_insertfilethread (m : hfsmount) (x : X) (descp : cat_desc) : outcome (Z * X) :=
  if negb (std_hfs m) then Ok (EINVAL, x)
  else
    let exit (result : Z) (x : X) := x ← ct_flush x; Ok (MacToVFSError result, x) in
    '(result, key) ← buildkey m descp (it_key new_iterator) false;
    if negb (result =? 0) then exit result x
    else
      '(result, x) ← ct_free_space x;
      if negb (result =? 0) then exit result x
      else
        '(result, it, file_rec, datasize, x) ← ct_search x (set_key new_iterator key) (take 102 junk) true;
        if negb (result =? 0) then exit result x
        else if negb (recordType file_rec =? kHFSFileRecord) then exit EISDIR x
        else if Z.land (get file_rec 2 1) kHFSThreadExistsMask =? 0 then
          let file_rec := put file_rec 2 1 (Z.lor (get file_rec 2 1) kHFSThreadExistsMask) in
          let '(size, thread_rec) := buildthread (it_key it) (take 46 junk) true false in
          let it1 := set_key new_iterator (buildthreadkey (get file_rec 20 4) true (it_key new_iterator)) in
          '(result, _, x) ← ct_insert x it1 thread_rec size;
          if negb (result =? 0) then exit result x
          else
            '(_, _, x) ← ct_replace x it file_rec datasize;
            x ← ct_flush x;
            exit result x
        else exit result x.
End catalog.
