(* ===== verification/CatalogKeys.v ===== *)
(** * Keys and records of the catalog as bytes

    What the routines of Catalog.v write into keys, thread records and records of files
    and folders of HFS Plus, and how the fields read back. *)
From S2P Require Import Prelude Bits VolumeBitmap VolumeAllocation ExtentMapping UtfConv NameMangling Encodings MacTime.
From S2P Require Import Bytes UnicodeCompare BTreeNode BTreeKeys BTreeBlocks BTreeFile NodeSwap Catalog.

(** ** Fields *)

Lemma put_length b p n v : 0 <= p -> 0 <= n -> p + n <= Z.of_nat (length b) -> length (put b p n v) = length b.
Proof. intros. apply splice_length; rewrite ?le_encode_length; lia. Qed.

Lemma put_bytes_all b p n v : Forall byte b -> Forall byte (put b p n v).
Proof. intros. apply splice_bytes; [done|apply le_encode_bytes]. Qed.

Lemma get_put_same b p n v : 0 <= p -> 0 <= n -> p + n <= Z.of_nat (length b) -> get (put b p n v) p n = wrap (8 * n) v.
Proof.
  intros. unfold get, field, put. rewrite slice_splice_same by (rewrite ?le_encode_length; lia).
  rewrite le_decode_encode, Z2Nat.id by done. unfold wrap. rewrite Z.pow_mul_r by lia. apply Z.mod_mod. lia.
Qed.

Lemma slice_put_other b p n v q k : 0 <= p -> 0 <= n -> 0 <= q -> p + n <= Z.of_nat (length b) -> q + k <= p \/ p + n <= q ->
  slice (put b p n v) q k = slice b q k.
Proof. intros. apply slice_splice_disjoint; rewrite ?le_encode_length; lia. Qed.

Lemma get_put_other b p n v q k : 0 <= p -> 0 <= n -> 0 <= q -> p + n <= Z.of_nat (length b) -> q + k <= p \/ p + n <= q ->
  get (put b p n v) q k = get b q k.
Proof. intros. unfold get, field. by rewrite slice_put_other. Qed.

Lemma get_splice_other b p bs q k : 0 <= p -> 0 <= q -> p + Z.of_nat (length bs) <= Z.of_nat (length b) ->
  q + k <= p \/ p + Z.of_nat (length bs) <= q -> get (splice b p bs) q k = get b q k.
Proof. intros. unfold get, field. by rewrite slice_splice_disjoint. Qed.

(** A field of a slice. *)
Lemma get_slice b p n q k : 0 <= p -> 0 <= q -> 0 <= k -> q + k <= n -> get (slice b p n) q k = get b (p + q) k.
Proof. intros. unfold get, field. by rewrite slice_slice. Qed.

Lemma get_take b n q k : 0 <= q -> 0 <= k -> q + k <= Z.of_nat n -> get (take n b) q k = get b q k.
Proof. intros. change (take n b) with (take n (drop 0 b)). rewrite <- (Nat2Z.id n). by apply (get_slice b 0). Qed.

Lemma get_range b p n : Forall byte b -> 0 <= p -> 0 <= n -> p + n <= Z.of_nat (length b) -> 0 <= get b p n < 256 ^ n.
Proof. apply field_range. Qed.

Lemma zeros_length b n : 0 <= n <= Z.of_nat (length b) -> length (zeros b n) = length b.
Proof. intros. apply splice_length; rewrite ?length_replicate; lia. Qed.

Lemma zeros_bytes b n : Forall byte b -> Forall byte (zeros b n).
Proof. intros. apply splice_bytes; [done|]. by apply Forall_replicate. Qed.

Lemma wrap_idem w n : 0 <= n < 2 ^ w -> wrap w n = n.
Proof. intros. by apply Z.mod_small. Qed.

(** Where a field was set among others, and where it was not. *)
Ltac buffer_length :=
  repeat first
    [ rewrite put_length by buffer_length
    | rewrite splice_length by buffer_length
    | rewrite zeros_length by buffer_length
    | rewrite length_replicate
    | rewrite length_take
    | rewrite length_drop ]; lia.
Ltac read_field :=
  repeat first
    [ rewrite get_put_same by buffer_length
    | rewrite get_put_other by buffer_length
    | rewrite get_splice_other by buffer_length ].

(** ** The characters of a name *)

(** Decoding, without composition, writes at least one character for each one it reads
    and nothing behind the buffer. *)
Section decoding.
Context (swapbytes decompose : bool) (altslash cap : Z).
Abbreviation bounded out := (Z.of_nat (length out) <= cap).
Abbreviation grown out out' := (length out < length out')%nat.

Lemma put_sequence_grows seq : forall out out', seq <> [] -> put_sequence swapbytes (2 * cap) seq out = (true, out') ->
  grown out out' /\ bounded out'.
Proof.
  induction seq as [|c seq IH]; [done|]. intros out out' _. cbn [put_sequence].
  unfold ucs_full. destruct (Z.leb_spec (2 * cap) (2 * Z.of_nat (length (out ++ [swap_if swapbytes c])))) as [|Hc]; [done|].
  rewrite length_app in Hc. cbn [length] in Hc. destruct seq as [|c' seq].
  - cbn [put_sequence]. intros [= <-]. rewrite length_app. cbn [length]. lia.
  - intros H. apply IH in H as [Hg Hb]; [|done]. rewrite length_app in Hg. split; [|done]. lia.
Qed.

Lemma put_char_grows c out out' : unichar c -> ucs_full (2 * cap) out = false ->
  put_char swapbytes decompose false altslash (2 * cap) c out = Ok (true, out') -> grown out out' /\ bounded out'.
Proof.
  unfold ucs_full. intros Hc Hf%Z.leb_gt. unfold put_char.
  assert (forall x, grown out (out ++ [x]) /\ bounded (out ++ [x])) as Hone by (intros; rewrite length_app; cbn [length]; lia).
  destruct decompose; cycle 1. { intros [= <-]. apply Hone. }
  destruct (unicode_decomposeable c) as [[]| | |] eqn:Hd; try done; cbn [mbind outcome_bind]; cycle 1. { intros [= <-]. apply Hone. }
  pose proof (decomposable_complete c Hc Hd) as Hfull. unfold decomposes_fully in Hfull.
  destruct (unicode_decompose c) as [l| | |]; try done. cbn [mbind outcome_bind]. intros [= H].
  apply (put_sequence_grows l); [|done]. by intros ->.
Qed.

Lemma decode_loop_grows n : forall utf8 out ucs, (length utf8 <= n)%nat -> bounded out ->
  decode_loop swapbytes decompose false altslash (2 * cap) utf8 out = Ok (0, ucs) ->
  bounded ucs /\ (length out <= length ucs)%nat /\ (forall b rest, utf8 = b :: rest -> b <> 0 -> grown out ucs).
Proof.
  induction n as [|n IH]; intros [|b utf8] out ucs Hn Hb; cbn [length] in Hn; try lia; cbn [decode_loop].
  1,2: by intros [= <-].
  destruct (Z.eqb_spec b 0) as [->|Hb0]. { intros [= <-]. split_and!; try done. intros ? ? [= <- <-]. done. }
  destruct (ucs_full (2 * cap) out) eqn:Hf; [done|].
  assert (forall rest out' , (length rest <= n)%nat -> grown out out' -> bounded out' ->
    decode_loop swapbytes decompose false altslash (2 * cap) rest out' = Ok (0, ucs) ->
    bounded ucs /\ (length out <= length ucs)%nat /\ (forall b' rest', b :: utf8 = b' :: rest' -> b' <> 0 -> grown out ucs)) as Hgo.
  { intros rest out' Hr Hg Hb' H. destruct (IH _ _ _ Hr Hb' H) as (? & ? & _). split_and!; [done|lia|]. intros. lia. }
  assert (forall c rest, (length rest <= n)%nat ->
    ('(go, out) ← put_char swapbytes decompose false altslash (2 * cap) (u16 c) out;
     if (go : bool) then decode_loop swapbytes decompose false altslash (2 * cap) rest out else Ok (ENAMETOOLONG, out)) = Ok (0, ucs) ->
    bounded ucs /\ (length out <= length ucs)%nat /\ (forall b' rest', b :: utf8 = b' :: rest' -> b' <> 0 -> grown out ucs)) as Hput.
  { intros c rest Hr. destruct (put_char _ _ _ _ _ _ _) as [[[] out']| | |] eqn:Hp; try done. cbn [mbind outcome_bind].
    apply put_char_grows in Hp as [Hg Hb']; [by apply Hgo|split; apply Z.mod_pos_bound; lia|done]. }
  unfold ucs_full in Hf. apply Z.leb_gt in Hf.
  assert (forall x, grown out (out ++ [x]) /\ bounded (out ++ [x])) as Hone by (intros; rewrite length_app; cbn [length]; lia).
  destruct (b <? 0x80). { apply Hgo; try apply Hone. lia. }
  destruct (array_at utf_extrabytes (Z.shiftr b 3)) as [k| | |]; try done. cbn [mbind outcome_bind].
  destruct ((k <? 0) || _); [done|].
  destruct utf8 as [|b2 rest2]; [done|]. cbn [length] in Hn. destruct (k =? 1). { destruct (_ <? 0x80); [done|]. apply Hput. lia. }
  destruct rest2 as [|b3 rest3]; [done|]. cbn [length] in Hn. destruct (k =? 2). { destruct (_ <? 0x800); [done|]. apply Hput. lia. }
  destruct rest3 as [|b4 rest4]; [done|]. cbn [length] in Hn. destruct (k =? 3); [|done].
  unfold ucs_full. match goal with |- (if ?a <=? ?b then _ else _) = _ -> _ => destruct (Z.leb_spec a b) as [|Hf2] end; [done|].
  rewrite length_app in Hf2. cbn [length] in Hf2. apply Hgo; rewrite ?length_app; cbn [length]; lia.
Qed.
End decoding.

(** ** Keys *)

(** A key whose length is that of its name. *)
Definition full_key (k : buffer) : Prop := catalog_key_plus k /\ get k 0 2 = 6 + 2 * get k 6 2.
(** The part of a key that a node of the tree has. *)
Definition key_trim (k : buffer) : buffer := slice k 0 (2 + get k 0 2).
Definition stored_key (k : buffer) : Prop := full_key k /\ Z.of_nat (length k) = 2 + get k 0 2.

Lemma full_key_range k : full_key k -> 0 <= get k 6 2 /\ 2 + get k 0 2 <= Z.of_nat (length k) /\ 8 <= Z.of_nat (length k).
Proof.
  intros [(Hb & Hl & Hn) E]. unfold get in *. pose proof (field_range k 6 2 Hb ltac:(lia) ltac:(lia) ltac:(lia)). lia.
Qed.

Lemma chars_slice n : forall m p m' q, 0 <= p -> 0 <= q -> slice m p (2 * Z.of_nat n) = slice m' q (2 * Z.of_nat n) -> chars n m p = chars n m' q.
Proof.
  induction n as [|n IH]; intros m p m' q Hp Hq H; [done|]. cbn [chars].
  replace (2 * Z.of_nat (S n)) with (2 + 2 * Z.of_nat n) in H by lia. f_equal.
  - apply (f_equal (fun l => slice l 0 2)) in H. rewrite !slice_slice, !Z.add_0_r in H by lia. unfold field. by rewrite H.
  - apply IH; [lia..|]. apply (f_equal (fun l => slice l 2 (2 * Z.of_nat n))) in H. by rewrite !slice_slice in H by lia.
Qed.

(** Keys of the same parent and name. *)
Lemma rank_slice k k' q : 0 <= q -> full_key k -> slice k' (q + 2) (get k 0 2) = slice k 2 (get k 0 2) ->
  catalog_rank_plus (drop (Z.to_nat q) k') = catalog_rank_plus k.
Proof.
  intros Hq Hk H. pose proof (full_key_range k Hk) as (Hn & Hl & _). destruct Hk as [_ E].
  assert (forall p n, 2 <= p -> 0 <= n -> p + n <= 2 + get k 0 2 -> slice (drop (Z.to_nat q) k') p n = slice k p n) as Hs.
  { intros p n Hp Hn0 Hpn. apply (f_equal (fun l => slice l (p - 2) n)) in H. rewrite !slice_slice in H by lia.
    replace (2 + (p - 2)) with p in H by lia. rewrite <- H. apply list_eq. intros i. rewrite !slice_lookup.
    case_decide; [|done]. rewrite lookup_drop. f_equal. lia. }
  unfold catalog_rank_plus, field. rewrite !Hs by (unfold get in *; lia). f_equal.
  fold (field k 6 2). destruct (field k 6 2 =? 0); [done|]. f_equal. f_equal.
  unfold node_name. replace (field (drop (Z.to_nat q) k') 6 2) with (field k 6 2) by (unfold field; rewrite Hs; [done|unfold get in *; lia..]).
  apply chars_slice; [lia..|]. unfold get in *. apply Hs; lia.
Qed.

Lemma key_trim_stored k : full_key k -> stored_key (key_trim k) /\ catalog_rank_plus (key_trim k) = catalog_rank_plus k /\
  slice (key_trim k) 2 (get k 0 2) = slice k 2 (get k 0 2) /\ get (key_trim k) 0 2 = get k 0 2 /\ get (key_trim k) 2 4 = get k 2 4 /\
  get (key_trim k) 6 2 = get k 6 2.
Proof.
  intros Hk. pose proof (full_key_range k Hk) as (Hn & Hl & _). pose proof Hk as [(Hb & _ & _) E]. unfold key_trim.
  assert (get (slice k 0 (2 + get k 0 2)) 0 2 = get k 0 2) as E0 by (rewrite get_slice; [done|lia..]).
  assert (get (slice k 0 (2 + get k 0 2)) 6 2 = get k 6 2) as E6 by (rewrite get_slice; [done|lia..]).
  assert (get (slice k 0 (2 + get k 0 2)) 2 4 = get k 2 4) as E2 by (rewrite get_slice; [done|lia..]).
  assert (slice (slice k 0 (2 + get k 0 2)) 2 (get k 0 2) = slice k 2 (get k 0 2)) as Es by (rewrite slice_slice; [done|lia..]).
  pose proof (slice_length k 0 (2 + get k 0 2) ltac:(lia) ltac:(lia) ltac:(lia)) as HL.
  split; [|split; [|done]].
  - split; [|by rewrite E0]. split; [|by rewrite E0, E6]. split; [by apply slice_bytes|]. unfold get in *. rewrite E6. lia.
  - rewrite <- (rank_slice k (slice k 0 (2 + get k 0 2)) 0); [done|lia|done|done].
Qed.

(** The key of a name: parent and characters. *)
Definition plus_key (parent : Z) (u : list Z) : buffer :=
  let n := Z.of_nat (length u) in le_encode 2 (6 + 2 * n) ++ le_encode 4 parent ++ le_encode 2 n ++ concat (map (le_encode 2) u).
Definition decode_name (d : cat_desc) : outcome (Z * list Z) :=
  utf8_decodestr (cd_name d) 510 0x3A (if Z.land (cd_flags d) CD_DECOMPOSED =? 0 then UTF_DECOMPOSED else 0).
Definition has_name (d : cat_desc) : bool := negb ((cd_namelen d =? 0) || (nth 0 (cd_name d) 0 =? 0)).

Lemma decode_name_length d u : has_name d = true -> decode_name d = Ok (0, u) -> Z.of_nat (length u) <= 255 /\ (0 < length u)%nat.
Proof.
  unfold has_name. intros Hname%negb_true_iff Hdec. apply orb_false_iff in Hname as [Hlen H0]. apply Z.eqb_neq in H0.
  unfold decode_name, utf8_decodestr in Hdec.
  assert (has_flag (if Z.land (cd_flags d) CD_DECOMPOSED =? 0 then UTF_DECOMPOSED else 0) UTF_PRECOMPOSED = false) as Hpre
    by (by destruct (Z.land (cd_flags d) CD_DECOMPOSED =? 0)).
  rewrite Hpre in Hdec. change 510 with (2 * 255) in Hdec.
  apply (decode_loop_grows _ _ _ 255 (length (cd_name d))) in Hdec as (? & _ & Hg); [|lia|simpl; lia].
  destruct (cd_name d) as [|b rest] eqn:En; [unfold cd_namelen in Hlen; by rewrite En in Hlen|]. cbn [nth] in H0.
  split; [done|]. by apply (Hg b rest).
Qed.

Lemma chars_bytes u : length (concat (map (le_encode 2) u)) = (2 * length u)%nat /\ Forall byte (concat (map (le_encode 2) u)).
Proof.
  induction u as [|c u [IH1 IH2]]; [done|]. cbn [map concat]. rewrite length_app, le_encode_length, IH1, Forall_app. cbn [length].
  split; [lia|]. split; [apply le_encode_bytes|done].
Qed.

(** [buildkey] on a volume of HFS Plus. *)
Lemma buildkey_run m d key retry u : std_hfs m = false -> Forall byte key -> 518 <= Z.of_nat (length key) ->
  0 <= cd_parentcnid d < 2 ^ 32 -> has_name d = true -> decode_name d = Ok (0, u) ->
  exists key', buildkey m d key retry = Ok (0, key') /\ key_trim key' = plus_key (cd_parentcnid d) u /\
  full_key key' /\ length key' = length key /\ get key' 2 4 = cd_parentcnid d /\ get key' 6 2 = Z.of_nat (length u).
Proof.
  intros Hs Hb Hl Hp Hname Hdec. destruct (decode_name_length d u Hname Hdec) as [Hu Hu0].
  unfold buildkey. unfold has_name in Hname. apply negb_true_iff in Hname. rewrite Hname. unfold decode_name in Hdec. rewrite Hdec.
  cbn [mbind outcome_bind]. rewrite Hs. cbn [negb Z.eqb].
  destruct (chars_bytes u) as [Hbs Hbb]. unfold plus_key. set (bs := concat (map (le_encode 2) u)) in *.
  unfold puts. cbn [foldl]. set (k1 := put (put key 2 4 _) 6 2 0).
  assert (length k1 = length key) as L1 by (unfold k1; buffer_length). set (k2 := splice k1 8 bs).
  assert (length k2 = length key) as L2 by (unfold k2; buffer_length).
  replace (2 * Z.of_nat (length u) / 2) with (Z.of_nat (length u)) by (rewrite Z.mul_comm; by rewrite Z.div_mul). set (n := Z.of_nat (length u)) in *.
  change kHFSPlusCatalogKeyMinimumLength with 6.
  set (k3 := put (put k2 6 2 n) 0 2 _). assert (length k3 = length key) as L3 by (unfold k3; buffer_length).
  assert (wrap (8 * 2) n = n /\ wrap (8 * 2) (6 + 2 * n) = 6 + 2 * n) as [Wn W6] by (split; apply wrap_idem; change (2 ^ (8 * 2)) with 65536; lia).
  assert (get k3 6 2 = n) as E6 by (unfold k3; read_field; done).
  assert (get k3 2 4 = cd_parentcnid d) as E2 by (unfold k3, k2, k1; read_field; by apply wrap_idem).
  assert (get k3 0 2 = 6 + 2 * n) as E0 by (unfold k3; read_field; done).
  assert (Forall byte k1) by (by repeat apply put_bytes_all).
  exists k3. split; [done|]. split; cycle 1.
  { split_and!; try done; try lia. split; [|by rewrite E0, E6]. split; [|unfold get in *; rewrite E6, L3; lia].
    apply put_bytes_all, put_bytes_all, splice_bytes; done. }
  unfold key_trim. rewrite E0. replace (2 + (6 + 2 * n)) with (2 + (4 + (2 + 2 * n))) by lia. rewrite !slice_app by lia. cbn [Z.add Pos.add].
  change (2 + 4) with 6. change (6 + 2) with 8. unfold k3 at 1. unfold put at 1. rewrite slice_splice_same by (rewrite ?le_encode_length; buffer_length).
  rewrite W6. f_equal. unfold k3. rewrite !(slice_put_other (put k2 6 2 n)) by buffer_length. f_equal.
  { rewrite slice_put_other by lia. unfold k2. rewrite slice_splice_disjoint by lia. unfold k1. rewrite slice_put_other by buffer_length.
    unfold put. rewrite slice_splice_same by (rewrite ?le_encode_length; lia). by rewrite wrap_idem. }
  f_equal.
  - unfold put. rewrite slice_splice_same by (rewrite ?le_encode_length; lia). by rewrite Wn.
  - rewrite slice_put_other by lia. unfold k2. apply slice_splice_same; lia.
Qed.

(** Its success does not depend on the buffer. *)
Lemma buildkey_success m d key retry key' : std_hfs m = false -> buildkey m d key retry = Ok (0, key') ->
  has_name d = true /\ exists u, decode_name d = Ok (0, u).
Proof.
  intros Hs. unfold buildkey. fold (decode_name d). unfold has_name. destruct (_ || _) eqn:Hname; [done|].
  destruct (decode_name d) as [[r u]| | |] eqn:Hdec; try done. cbn [mbind outcome_bind]. rewrite Hs.
  destruct (Z.eqb_spec r 0) as [->|]; cbn [negb]; cycle 1. { destruct (Z.eqb_spec r ENAMETOOLONG) as [->|]; cbn [negb]; intros [=]. }
  by eauto.
Qed.

Lemma buildkey_plus m d key retry key' : std_hfs m = false -> Forall byte key -> 518 <= Z.of_nat (length key) ->
  0 <= cd_parentcnid d < 2 ^ 32 -> buildkey m d key retry = Ok (0, key') ->
  full_key key' /\ length key' = length key /\ get key' 2 4 = cd_parentcnid d /\ 0 < get key' 6 2 <= 255 /\
  exists u, has_name d = true /\ decode_name d = Ok (0, u) /\ key_trim key' = plus_key (cd_parentcnid d) u.
Proof.
  intros Hs Hb Hl Hp H. destruct (buildkey_success m d key retry key' Hs H) as (Hname & u & Hdec).
  destruct (buildkey_run m d key retry u Hs Hb Hl Hp Hname Hdec) as (k & Hk & Ht & Hf & HL & E2 & E6).
  assert (k = key') as -> by congruence. destruct (decode_name_length d u Hname Hdec). split_and!; try done; try lia. eauto.
Qed.

(** ** Threads *)

Lemma buildthreadkey_plus id key : Forall byte key -> 8 <= Z.of_nat (length key) -> 0 <= id < 2 ^ 32 ->
  let k := buildthreadkey id false key in full_key k /\ length k = length key /\ catalog_rank_plus k = [id; 0] /\ get k 0 2 = 6 /\ get k 2 4 = id.
Proof.
  intros Hb Hl Hid k. unfold buildthreadkey in k. unfold puts in k. cbn [foldl] in k.
  assert (get k 6 2 = 0) as E6 by (unfold k; by read_field).
  assert (get k 2 4 = id) as E2 by (unfold k; read_field; by apply wrap_idem).
  assert (get k 0 2 = 6) as E0 by (unfold k; by read_field).
  assert (length k = length key) as L by (unfold k; buffer_length).
  split_and!; try done.
  - split; [|by rewrite E0, E6]. split; [by repeat apply put_bytes_all|]. unfold get in *. rewrite E6, L. lia.
  - unfold catalog_rank_plus. unfold get in *. by rewrite E2, E6.
Qed.

(** The record of a thread starts with its kind and has then what the key has after its
    length. *)
Definition names (td k : buffer) : Prop := drop 4 td = drop 2 k.
Definition thread_kind (directory : bool) : Z := if directory then kHFSPlusFolderThreadRecord else kHFSPlusFileThreadRecord.

Lemma slice_drop m p n : 0 <= p -> 0 <= n -> p + n = Z.of_nat (length m) -> slice m p n = drop (Z.to_nat p) m.
Proof. intros. unfold slice. apply take_ge. rewrite length_drop. lia. Qed.

Lemma splice_whole b p n : 0 <= p -> 0 <= n -> p + n <= Z.of_nat (length b) -> Forall byte b ->
  le_encode (Z.to_nat n) (wrap (8 * n) (get b p n)) = slice b p n.
Proof.
  intros Hp Hn Hl Hb. pose proof (get_range b p n Hb Hp Hn Hl) as Hr.
  rewrite wrap_idem by (rewrite Z.pow_mul_r by lia; exact Hr). unfold get, field.
  rewrite <- (le_encode_decode (slice b p n)) at 2 by (by apply slice_bytes). f_equal. pose proof (slice_length b p n Hp Hn Hl). lia.
Qed.

Lemma buildthread_plus key rec directory : full_key key -> get key 6 2 <= 255 -> Forall byte rec -> length rec = 520%nat ->
  let '(n, td) := buildthread key rec false directory in
  n = 4 + get key 0 2 /\ length td = 520%nat /\ Forall byte td /\ recordType (take (Z.to_nat n) td) = thread_kind directory /\
  names (take (Z.to_nat n) td) (key_trim key).
Proof.
  intros Hk Hn Hb Hl. pose proof (full_key_range key Hk) as (H0 & Hkl & _). pose proof Hk as [(Hkb & _ & _) E].
  unfold buildthread, puts. cbn [foldl]. set (r1 := put (put (put rec 0 2 _) 2 2 0) 4 4 (get key 2 4)).
  assert (length r1 = 520%nat) as L1 by (unfold r1; rewrite <- Hl; buffer_length).
  set (s := slice key 6 (2 * (get key 6 2 + 1))).
  assert (Z.of_nat (length s) = 2 * (get key 6 2 + 1)) as Ls by (apply slice_length; lia).
  set (td := splice r1 8 s). assert (length td = 520%nat) as L by (unfold td; rewrite <- L1; buffer_length).
  assert (get td 8 2 = get key 6 2) as E8.
  { unfold td, get, field. transitivity (le_decode (slice (slice (splice r1 8 s) 8 (Z.of_nat (length s))) 0 2)).
    - rewrite slice_slice by lia. done.
    - rewrite slice_splice_same by lia. unfold s. rewrite slice_slice by lia. done. }
  rewrite E8. replace (520 - (510 - get key 6 2 * 2)) with (4 + get key 0 2) by lia. set (n := 4 + get key 0 2).
  split; [done|]. split; [done|].
  assert (Forall byte r1) as Hb1 by (by repeat apply put_bytes_all).
  split; [by apply splice_bytes; [|apply slice_bytes]|]. split.
  { unfold recordType. rewrite get_take by lia. unfold td, r1. read_field. by destruct directory. }
  unfold names. change 4%nat with (Z.to_nat 4). change 2%nat with (Z.to_nat 2).
  assert (length (take (Z.to_nat n) td) = Z.to_nat n) as Ln by (rewrite length_take, L; lia).
  destruct (key_trim_stored key Hk) as (Hst & _ & Htr & _). destruct Hst as [_ Hlt].
  assert (get (key_trim key) 0 2 = get key 0 2) as Et by apply (key_trim_stored key Hk). rewrite Et in Hlt.
  rewrite <- (slice_drop _ 4 (get key 0 2)) by (rewrite ?Ln; lia). rewrite <- (slice_drop (key_trim key) 2 (get key 0 2)), Htr by lia.
  change (take (Z.to_nat n) td) with (slice td 0 n). rewrite slice_slice by lia. cbn [Z.add].
  replace (get key 0 2) with (4 + 2 * (get key 6 2 + 1)) by lia. rewrite !slice_app by lia. f_equal.
  - unfold td. rewrite slice_splice_disjoint by lia. unfold r1, put at 1. rewrite slice_splice_same by (rewrite ?le_encode_length; buffer_length).
    apply splice_whole; done || lia.
  - cbn [Z.add Pos.add]. unfold td. rewrite slice_splice_same by lia. done.
Qed.

(** What a thread tells is where its node is. *)
Definition thread_rank (td : buffer) : list Z := catalog_rank_plus (drop 2 td).

Lemma names_rank td k : stored_key k -> names td k -> thread_rank td = catalog_rank_plus k.
Proof.
  intros [Hk Hl] Hn. pose proof (full_key_range k Hk) as (? & ? & ?). pose proof Hk as [_ E].
  apply (rank_slice k td 2); [lia|done|]. unfold names in Hn. unfold slice. change (Z.to_nat (2 + 2)) with 4%nat. change (Z.to_nat 2) with 2%nat. by rewrite Hn.
Qed.

(** ** Records of files and folders *)

Lemma slice_zeros b n q k : 0 <= q -> 0 <= k -> q + k <= n -> n <= Z.of_nat (length b) -> slice (zeros b n) q k = replicate (Z.to_nat k) 0.
Proof.
  intros Hq Hk Hqk Hn. apply list_eq. intros i. rewrite slice_lookup. unfold zeros. rewrite splice_lookup by (rewrite ?length_replicate; lia).
  rewrite length_replicate. case_decide.
  - rewrite decide_True by lia. rewrite !lookup_replicate_2; [done|lia..].
  - symmetry. apply lookup_ge_None. rewrite length_replicate. lia.
Qed.

Lemma get_zeros b n q k : 0 <= q -> 0 <= k -> q + k <= n -> n <= Z.of_nat (length b) -> get (zeros b n) q k = 0.
Proof.
  intros. unfold get, field. rewrite slice_zeros by done. induction (Z.to_nat k) as [|j IH]; [done|]. cbn [replicate le_decode]. lia.
Qed.

(** Attributes that a record can hold. *)
Record attr_ok (a : cat_attr) : Prop := {
  ao_finder : length (ca_finderinfo a) = 32%nat /\ Forall byte (ca_finderinfo a);
  ao_mode : 0 <= ca_mode a < 2 ^ 16;
  ao_uid : 0 <= ca_uid a < 2 ^ 32;
  ao_gid : 0 <= ca_gid a < 2 ^ 32
}.

Definition is_dir (a : cat_attr) : bool := Z.land (ca_mode a) S_IFMT =? S_IFDIR.
Definition record_kind (directory : bool) : Z := if directory then kHFSPlusFolderRecord else kHFSPlusFileRecord.

(** Values of fields, each at an offset with a width. *)
Definition has_fields (d : buffer) (l : list (Z * Z * Z)) : Prop := Forall (fun '(p, n, v) => get d p n = wrap (8 * n) v) l.

(** The fields that every new record has. *)
Definition new_fields (a : cat_attr) (cnid enc : Z) : list (Z * Z * Z) :=
  let t := to_hfs_time (ca_itime a) in
  [(0, 2, record_kind (is_dir a)); (2, 2, if is_dir a then 0 else kHFSThreadExistsMask); (4, 4, 0); (8, 4, cnid); (12, 4, t); (16, 4, t);
   (20, 4, t); (24, 4, t); (28, 4, 0); (32, 4, ca_uid a); (36, 4, ca_gid a); (40, 1, Z.shiftr (ca_flags a) 16);
   (41, 1, Z.land (ca_flags a) 0xFF); (42, 2, ca_mode a); (80, 4, enc)].

(** A field after several assignments inside a buffer. *)
Fixpoint read_puts (l : list (Z * Z * Z)) (q k v0 : Z) : option Z :=
  match l with
  | [] => Some v0
  | (p, n, v) :: l =>
      if (p =? q) && (n =? k) then read_puts l q k (wrap (8 * n) v)
      else if (q + k <=? p) || (p + n <=? q) then read_puts l q k v0 else None
  end.
Definition puts_fit (len : Z) (l : list (Z * Z * Z)) : bool := forallb (fun '(p, n, v) => (0 <=? p) && (0 <=? n) && (p + n <=? len)) l.

Lemma puts_length len l : forall b, Z.of_nat (length b) = len -> puts_fit len l = true -> Z.of_nat (length (puts b l)) = len.
Proof.
  induction l as [|[[p n] v] l IH]; intros b Hl Hf; [done|]. cbn [puts_fit forallb] in Hf. apply andb_true_iff in Hf as [Hp Hf].
  rewrite !andb_true_iff, !Z.leb_le in Hp. apply (IH (put b p n v)); [rewrite put_length; lia|done].
Qed.

(** A part of the buffer where nothing is assigned. *)
Definition puts_apart (q k : Z) (l : list (Z * Z * Z)) : bool := forallb (fun '(p, n, v) => (q + k <=? p) || (p + n <=? q)) l.

Lemma slice_puts_apart len l q k : 0 <= q -> forall b, Z.of_nat (length b) = len -> puts_fit len l = true -> puts_apart q k l = true ->
  slice (puts b l) q k = slice b q k.
Proof.
  intros Hq. induction l as [|[[p n] v] l IH]; intros b Hl Hf Ha; [done|]. cbn [puts_fit puts_apart forallb] in Hf, Ha.
  apply andb_true_iff in Hf as [Hp Hf]. apply andb_true_iff in Ha as [Hd Ha]. rewrite !andb_true_iff, !Z.leb_le in Hp. rewrite orb_true_iff, !Z.leb_le in Hd.
  transitivity (slice (put b p n v) q k); [|apply slice_put_other; lia]. apply (IH (put b p n v)); [rewrite put_length; lia|done..].
Qed.

Lemma puts_ok len l : forall b, Z.of_nat (length b) = len -> puts_fit len l = true -> Forall byte b ->
  Z.of_nat (length (puts b l)) = len /\ Forall byte (puts b l).
Proof.
  induction l as [|[[p n] v] l IH]; intros b Hl Hf Hb; [done|]. cbn [puts_fit forallb] in Hf. apply andb_true_iff in Hf as [Hp Hf].
  rewrite !andb_true_iff, !Z.leb_le in Hp. apply (IH (put b p n v)); [rewrite put_length; lia|done|by apply put_bytes_all].
Qed.

Lemma get_puts len l q k : forall b v0 r, 0 <= q -> Z.of_nat (length b) = len -> puts_fit len l = true -> get b q k = v0 ->
  read_puts l q k v0 = Some r -> get (puts b l) q k = r.
Proof.
  induction l as [|[[p n] v] l IH]; intros b v0 r Hq Hl Hf Hg; [cbn; by intros [= <-]|]. cbn [puts_fit forallb] in Hf.
  apply andb_true_iff in Hf as [Hp Hf]. rewrite !andb_true_iff, !Z.leb_le in Hp. cbn [read_puts].
  assert (Z.of_nat (length (put b p n v)) = len) as Hl' by (rewrite put_length; lia).
  destruct (Z.eqb_spec p q) as [->|]; cbn [andb]; [destruct (Z.eqb_spec n k) as [->|]|].
  - apply (IH (put b q k v)); try done. apply get_put_same; lia.
  - destruct (_ || _) eqn:Hd; [|done]. apply orb_true_iff in Hd. rewrite !Z.leb_le in Hd.
    apply (IH (put b q n v)); try done. rewrite get_put_other by lia. done.
  - destruct (_ || _) eqn:Hd; [|done]. apply orb_true_iff in Hd. rewrite !Z.leb_le in Hd.
    apply (IH (put b p n v)); try done. rewrite get_put_other by lia. done.
Qed.

(** What the buffer of a new record has before its permissions are set: the fields of
    [l], with zeros elsewhere; but [special] at 44 and the bytes from 48 are left open. *)
Definition new_record_base (crp : buffer) (n : Z) (l : list (Z * Z * Z)) (r : buffer) : Prop :=
  length r = 520%nat /\ Forall byte r /\ forall q k, 0 <= q -> 0 <= k -> q + k <= n -> q + k <= 44 \/ 80 <= q -> get r q k = get (puts (zeros crp n) l) q k.

Lemma base_put crp n l v : length crp = 520%nat -> Forall byte crp -> n <= 520 -> puts_fit 520 l = true -> 80 <= n ->
  new_record_base crp n l (puts (zeros crp n) l) /\
  forall r, new_record_base crp n l r -> new_record_base crp n l (put r 44 4 v) /\
    forall f, length f = 32%nat -> Forall byte f -> new_record_base crp n l (splice r 48 f).
Proof.
  intros Hl Hb Hn Hf Hn'. split.
  { destruct (puts_ok 520 l (zeros crp n)) as [? ?]; [rewrite zeros_length; lia|done|by apply zeros_bytes|]. split_and!; try done. lia. }
  intros r (Hr & Hrb & Hg). split.
  - split; [rewrite put_length; lia|]. split; [by apply put_bytes_all|]. intros q k Hq Hk Hqk Hd. rewrite get_put_other by lia. by apply Hg.
  - intros f Hfl Hfb. split; [rewrite splice_length; lia|]. split; [by apply splice_bytes|]. intros q k Hq Hk Hqk Hd.
    rewrite get_splice_other by lia. by apply Hg.
Qed.

Definition perm_fields (a : cat_attr) : list (Z * Z * Z) :=
  [(32, 4, ca_uid a); (36, 4, ca_gid a); (42, 2, ca_mode a); (40, 1, Z.shiftr (ca_flags a) 16); (41, 1, Z.land (ca_flags a) 0xFF)].

Lemma new_record_get crp n l r a q k r0 v : length crp = 520%nat -> n <= 520 -> puts_fit 520 l = true -> new_record_base crp n l r ->
  0 <= q -> 0 <= k -> q + k <= n -> q + k <= 44 \/ 80 <= q ->
  read_puts l q k 0 = Some r0 -> read_puts (perm_fields a) q k r0 = Some v -> get (puts r (perm_fields a)) q k = v.
Proof.
  intros Hl Hn Hf (Hr & _ & Hg) Hq Hk Hqk Hd H1 H2. apply (get_puts 520 _ _ _ _ r0); [lia|lia|reflexivity| |done].
  rewrite Hg by done. apply (get_puts 520 _ _ _ _ 0); [lia|rewrite zeros_length; lia|done| |done]. apply get_zeros; lia.
Qed.

(** A new record: the kind and size, the fields above, and a fork with no blocks. *)
Lemma buildrecord_plus m a cnid enc crp : attr_ok a -> Forall byte crp -> length crp = 520%nat ->
  let '(d, n) := buildrecord m a cnid false enc crp in
  n = (if is_dir a then 88 else 248) /\ length d = 520%nat /\ Forall byte d /\ has_fields d (new_fields a cnid enc) /\
  (is_dir a = false -> get d 100 4 = 0 /\ get d 180 4 = 0).
Proof.
  intros [(Hf & Hfb) _ _ _] Hb Hl. unfold buildrecord. fold (is_dir a).
  assert (length (take 32 (ca_finderinfo a)) = 32%nat /\ Forall byte (take 32 (ca_finderinfo a))) as [Hf' Hfb'].
  { rewrite length_take, Hf. split; [done|]. by apply Forall_take. }
  set (t := to_hfs_time (ca_itime a)).
  destruct (is_dir a) eqn:Hdir.
  - match goal with |- context [puts (zeros crp 88) ?l'] => set (l := l') end.
    destruct (base_put crp 88 l 0 Hl Hb ltac:(lia) eq_refl ltac:(lia)) as [Hbase Hstep].
    apply Hstep in Hbase as [_ Hbase]. specialize (Hbase _ Hf' Hfb'). set (r := splice _ 48 _) in *.
    destruct (puts_ok 520 (perm_fields a) r) as [L B]; [destruct Hbase; lia|done|apply Hbase|].
    split; [done|]. split; [unfold perm_fields in L; lia|]. split; [exact B|]. split; [|done].
    unfold new_fields. rewrite Hdir. repeat constructor; eapply (new_record_get crp 88 l); (done || lia || reflexivity).
  - match goal with |- context [puts (zeros crp 248) ?l'] => set (l := l') end.
    destruct (base_put crp 248 l (ca_rdev a) Hl Hb ltac:(lia) eq_refl ltac:(lia)) as [Hbase Hstep].
    match goal with |- context [puts ?r' (_ :: _)] => match r' with puts _ _ => fail 1 | _ => set (r := r') end end.
    assert (new_record_base crp 248 l r) as Hr.
    { unfold r. clear r. destruct (_ || _). { by apply Hstep. }
      destruct (_ =? S_IFREG).
      - destruct (_ && _); [destruct (Hstep _ Hbase) as [Hb2 _]; destruct (Hstep _ Hb2) as [_ H3]; by apply H3|].
        destruct (Hstep _ Hbase) as [_ H3]. by apply H3.
      - destruct (_ =? S_IFLNK); [destruct (Hstep _ Hbase) as [_ H3]; by apply H3|done]. }
    destruct (puts_ok 520 (perm_fields a) r) as [L B]; [destruct Hr; lia|done|apply Hr|].
    split; [done|]. split; [unfold perm_fields in L; lia|]. split; [exact B|].
    split; [unfold new_fields; rewrite Hdir; repeat constructor|intros _; split]; eapply (new_record_get crp 248 l); (done || lia || reflexivity).
Qed.

(** ** Descriptors *)

Lemma utf8_of_length altslash n : forall u, (length u <= n)%nat -> (length (utf8_of altslash u) <= 3 * length u)%nat.
Proof.
  induction n as [|n IH]; intros [|c u] Hu; cbn [length] in Hu; try (cbn; lia). cbn [utf8_of].
  destruct (_ <? 0x80); [pose proof (IH u ltac:(lia)); cbn [length]; lia|].
  destruct (_ <? 0x800). { rewrite length_app. pose proof (IH u ltac:(lia)). unfold utf8_2. cbn [length]. lia. }
  destruct (is_high _); [destruct u as [|c2 u]; [unfold utf8_3; cbn [length]; lia|destruct (is_low c2)]|]; rewrite length_app; cbn [length] in Hu.
  - pose proof (IH u ltac:(lia)). unfold utf8_4. cbn [length]. lia.
  - pose proof (IH (c2 :: u) ltac:(cbn [length]; lia)). unfold utf8_3. cbn [length] in *. lia.
  - pose proof (IH u ltac:(lia)). unfold utf8_3. cbn [length]. lia.
Qed.

Lemma chars_map n key : forall p b, chars n key (p + 2 * b) = map (fun j => get key (p + 2 * j) 2) (seqZ b (Z.of_nat n)).
Proof.
  induction n as [|n IH]; intros p b; [done|]. cbn [chars]. rewrite seqZ_cons by lia. cbn [map]. f_equal.
  replace (Z.pred (Z.of_nat (S n))) with (Z.of_nat n) by lia. rewrite <- IH. f_equal. lia.
Qed.

(** The descriptor of a key has its name in UTF-8. *)
Lemma builddesc_name key cnid hint enc isdir : 0 <= get key 6 2 ->
  builddesc key cnid hint enc isdir = Ok (mkDesc (Z.lor (Z.lor CD_DECOMPOSED CD_HASBUF) (if isdir then CD_ISDIR else 0)) (u8 enc)
    (utf8_of 0x3A (node_name key)) (get key 2 4) hint cnid).
Proof.
  intros Hn. unfold builddesc. set (n := get key 6 2) in *.
  assert (map (fun j => get key (8 + 2 * j) 2) (seqZ 0 n) = node_name key) as ->.
  { unfold node_name. rewrite <- (Z2Nat.id n) by done. symmetry. apply (chars_map _ key 8 0). }
  assert (length (node_name key) = Z.to_nat n) as Hl by (unfold node_name; rewrite (chars_map _ key 8 0), length_map, length_seqZ; unfold n, get; lia).
  destruct (utf8_encodestr_spec (node_name key) (3 * n + 1) 0x3A ltac:(lia)) as (result & out & t & -> & Hout & _ & Hcase). cbn [mbind outcome_bind].
  pose proof (utf8_of_length 0x3A _ (node_name key) (Nat.le_refl _)) as Hlen.
  destruct Hcase as [[-> [->|[? _]]]|[_ ?]]; [|done|lia]. cbn [Z.eqb ENAMETOOLONG mbind outcome_bind]. rewrite app_nil_r in Hout.
  rewrite Nat2Z.id, take_app_length, Hout. done.
Qed.

(** ** The attributes of a new record *)

(** The Finder information of a new record: that of the attributes, or none. *)
Lemma buildrecord_finder m a cnid enc crp : attr_ok a -> length crp = 520%nat ->
  let '(d, n) := buildrecord m a cnid false enc crp in slice d 48 32 = ca_finderinfo a \/ slice d 48 32 = replicate 32 0.
Proof.
  intros [(Hf & _) _ _ _] Hl. unfold buildrecord. fold (is_dir a).
  assert (take 32 (ca_finderinfo a) = ca_finderinfo a) as -> by (apply take_ge; lia).
  assert (forall r, length r = 520%nat -> slice (puts r (perm_fields a)) 48 32 = slice r 48 32) as Hperm.
  { intros r Hr. apply (slice_puts_apart 520); (lia || reflexivity). }
  assert (forall r, length r = 520%nat -> slice (puts (splice r 48 (ca_finderinfo a)) (perm_fields a)) 48 32 = ca_finderinfo a) as Hset.
  { intros r Hr. rewrite Hperm by (rewrite splice_length; lia). apply slice_splice_same; lia. }
  assert (forall n l, 0 <= n <= 520 -> puts_fit 520 l = true -> length (puts (zeros crp n) l) = 520%nat) as Hlen.
  { intros n l Hn Hfit. pose proof (puts_length 520 l (zeros crp n) ltac:(rewrite zeros_length; lia) Hfit). lia. }
  destruct (is_dir a); [left; apply Hset, Hlen; (lia || reflexivity)|].
  match goal with |- context [puts (zeros crp 248) ?l'] => set (l := l') end.
  assert (length (puts (zeros crp 248) l) = 520%nat) as Hbase by (apply Hlen; (lia || reflexivity)).
  assert (slice (puts (zeros crp 248) l) 48 32 = replicate 32 0) as Hzero.
  { rewrite (slice_puts_apart 520) by (rewrite ?zeros_length; (lia || reflexivity)). apply slice_zeros; lia. }
  destruct (_ || _). { right. fold (perm_fields a). rewrite Hperm, slice_put_other by (rewrite ?put_length; lia). exact Hzero. }
  destruct (_ =? S_IFREG). { left. apply Hset. destruct (_ && _); [rewrite put_length; lia|done]. }
  destruct (_ =? S_IFLNK); [left; by apply Hset|]. right. fold (perm_fields a). by rewrite Hperm.
Qed.

(** The flags are kept in two bytes. *)
Lemma flags_split f : 0 <= f -> Z.land f 0xFF00FF = f ->
  Z.lor (wrap (8 * 1) (Z.land f 0xFF)) (Z.shiftl (wrap (8 * 1) (Z.shiftr f 16)) 16) = f.
Proof.
  intros Hf E. unfold wrap. change (8 * 1) with 8. rewrite <- !Z.land_ones by lia. apply Z.bits_inj'. intros i Hi.
  rewrite <- E at 3. rewrite Z.lor_spec, Z.shiftl_spec, !Z.land_spec by done.
  destruct (decide (i < 16)) as [Hlt|Hge].
  - rewrite (Z.testbit_neg_r _ (i - 16)) by lia. rewrite orb_false_r. destruct (decide (i < 8)).
    + rewrite Z.ones_spec_low by lia. rewrite andb_true_r. f_equal. 
      assert (i = 0 \/ i = 1 \/ i = 2 \/ i = 3 \/ i = 4 \/ i = 5 \/ i = 6 \/ i = 7) as Hc by lia.
      repeat (destruct Hc as [->|Hc]; [done|]). by subst.
    + rewrite Z.ones_spec_high by lia. rewrite andb_false_r.
      assert (i = 8 \/ i = 9 \/ i = 10 \/ i = 11 \/ i = 12 \/ i = 13 \/ i = 14 \/ i = 15) as Hc by lia.
      repeat (destruct Hc as [->|Hc]; [by rewrite andb_false_r|]). subst. by rewrite andb_false_r.
  - rewrite Z.shiftr_spec by lia. replace (i - 16 + 16) with i by lia.
    assert (Z.testbit 0xFF i = false) as ->. { apply (testbit_high 8); lia. }
    rewrite andb_false_r, andb_false_l, orb_false_l. f_equal. destruct (decide (i < 24)).
    + rewrite Z.ones_spec_low by lia.
      assert (i = 16 \/ i = 17 \/ i = 18 \/ i = 19 \/ i = 20 \/ i = 21 \/ i = 22 \/ i = 23) as Hc by lia.
      repeat (destruct Hc as [->|Hc]; [done|]). by subst.
    + rewrite Z.ones_spec_high by lia. symmetry. apply (testbit_high 24); lia.
Qed.

Lemma has_fields_buffer recp d l : forallb (fun '(p, k, v) => (0 <=? p) && (0 <=? k) && (p + k <=? Z.of_nat (length d))) l = true ->
  slice recp 0 (Z.of_nat (length d)) = d -> has_fields d l -> has_fields recp l.
Proof.
  unfold has_fields. rewrite forallb_forall, !Forall_forall. intros H1 Hs H2 [[p k] v] Hin. specialize (H1 _ (proj1 (list_elem_of_In _ _) Hin)). cbn in H1.
  rewrite !andb_true_iff, !Z.leb_le in H1. rewrite <- (H2 _ Hin). rewrite <- Hs. rewrite get_slice by lia. done.
Qed.

Lemma has_field d l p n v : has_fields d l -> (p, n, v) ∈ l -> get d p n = wrap (8 * n) v.
Proof. unfold has_fields. rewrite Forall_forall. intros H Hin. apply (H _ Hin). Qed.

(** Attributes that read back: the type of the file is set, the flags are those of the two
    bytes, and the date is one from 1970 to 2040. *)
Record attr_kept (a : cat_attr) : Prop := {
  ak_ok : attr_ok a;
  ak_type : Z.land (ca_mode a) S_IFMT <> 0;
  ak_flags : 0 <= ca_flags a /\ Z.land (ca_flags a) 0xFF00FF = ca_flags a;
  ak_date : 0 <= ca_itime a < 2 ^ 32 - MAC_GMT_FACTOR
}.

(** What a look-up gives for a new file or folder.  The immutable flags of a file do not
    come back. *)
Definition attr_back (a : cat_attr) (cnid : Z) (b : cat_attr) : Prop :=
  ca_fileid b = cnid /\ ca_mode b = ca_mode a /\ ca_uid b = ca_uid a /\ ca_gid b = ca_gid a /\
  ca_itime b = ca_itime a /\ ca_mtime b = ca_itime a /\ ca_ctime b = ca_itime a /\ ca_atime b = ca_itime a /\ ca_btime b = 0 /\
  ca_flags b = (if is_dir a then ca_flags a else Z.ldiff (ca_flags a) (Z.lor SF_IMMUTABLE UF_IMMUTABLE)).

Lemma getbsdattr_new m a cnid enc recp : attr_kept a -> 0 <= cnid < 2 ^ 32 -> mnt_unknownpermissions m = false ->
  has_fields recp (new_fields a cnid enc) -> attr_back a cnid (getbsdattr m recp).
Proof.
  intros [[_ Hmode Huid Hgid] Htype [Hf0 Hf] Hdate] Hid Hperm H.
  assert (forall p n v, (p, n, v) ∈ new_fields a cnid enc -> get recp p n = wrap (8 * n) v) as Hg by (intros; by apply (has_field recp (new_fields a cnid enc))).
  assert (recordType recp = record_kind (is_dir a)) as Hkind.
  { unfold recordType. rewrite (Hg 0 2 (record_kind (is_dir a))) by (unfold new_fields; set_solver). by destruct (is_dir a). }
  assert (get recp 42 2 = ca_mode a) as Em by (rewrite (Hg 42 2 (ca_mode a)) by (unfold new_fields; set_solver); by apply wrap_idem).
  assert (to_bsd_time (wrap (8 * 4) (to_hfs_time (ca_itime a))) = ca_itime a) as Et.
  { rewrite <- (to_bsd_time_roundtrip (ca_itime a) Hdate) at 2. f_equal. apply wrap_idem. unfold to_hfs_time.
    destruct (negb _); apply u32_range. }
  unfold getbsdattr. rewrite Hkind, Em, Hperm. rewrite (proj2 (Z.eqb_neq _ _) Htype).
  rewrite (Hg 41 1 (Z.land (ca_flags a) 0xFF)), (Hg 40 1 (Z.shiftr (ca_flags a) 16)) by (unfold new_fields; set_solver). rewrite (flags_split _ Hf0 Hf).
  rewrite (Hg 8 4 cnid), (Hg 32 4 (ca_uid a)), (Hg 36 4 (ca_gid a)) by (unfold new_fields; set_solver). rewrite !wrap_idem by done.
  rewrite (Hg 24 4 (to_hfs_time (ca_itime a))), (Hg 16 4 (to_hfs_time (ca_itime a))), (Hg 20 4 (to_hfs_time (ca_itime a))),
    (Hg 12 4 (to_hfs_time (ca_itime a))), (Hg 28 4 0) by (unfold new_fields; set_solver). rewrite Et.
  unfold attr_back. destruct (is_dir a) eqn:Hdir.
  - cbn [record_kind Z.eqb kHFSPlusFolderRecord]. split_and!; try done.
    cbn [ca_mode]. unfold S_ISDIR. unfold is_dir in Hdir. by rewrite Hdir.
  - change (record_kind false =? kHFSPlusFolderRecord) with false. cbv iota beta zeta.
    rewrite (Hg 2 2 kHFSThreadExistsMask) by (unfold new_fields; rewrite Hdir; set_solver).
    change (negb (Z.land (wrap (8 * 2) kHFSThreadExistsMask) kHFSFileLockedMask =? 0)) with false. cbv iota. split_and!; done.
Qed.
