(* ===== verification/CatalogTheorems.v ===== *)
(** * The catalog keeps its records and threads together

    The catalog tree of an HFS Plus volume stands for a map from the order of keys
    (parent and folded name) to records.  Every record of a file or folder has a thread
    that names it, and every thread names a record with its number: creating, deleting
    and renaming keep that, and change nothing else. *)
From S2P Require Import Prelude Bits VolumeBitmap VolumeAllocation ExtentMapping UtfConv NameMangling Encodings MacTime.
From S2P Require Import Bytes UnicodeCompare BTreeNode BTreeKeys BTreeBlocks BTreeFile NodeSwap Catalog CatalogKeys.

(** ** The map *)

Abbreviation catalog := (gmap (list Z) (buffer * buffer)).

(** An error that the caller does not take for success or for a key that exists. *)
Definition other_error (err : Z) : Prop := MacToVFSError err <> 0 /\ MacToVFSError err <> EEXIST.

(** What the B-tree manager promises to the catalog (see the theorems on [BTSearchRecord],
    [BTInsertRecord] and [BTDeleteRecord] of BTreeFileTheorems.v): [rep x c] says that the
    tree [x] holds the keys and records of [c].  A search without a hint finds what is
    there; the insertion of a key that is there fails, and so does the deletion of one that
    is not.  Other insertions and deletions succeed, or, if the tree is [fallible] (a full
    volume, an error of the disk), fail with another error and leave the records as they were.
    Neither the check for space nor the cache of iterators changes the records. *)
Class CatalogTreeLaws (X : Type) `{!CatalogTree X} (rep : X -> catalog -> Prop) (fallible : Prop) : Prop := {
  law_search x c it recp w : rep x c -> catalog_key_plus (it_key it) -> hint_nodeNum (it_hint it) = 0 -> length recp = 520%nat ->
    exists err it' recp' n x', ct_search x it recp w = Ok (err, it', recp', n, x') /\ rep x' c /\ length recp' = 520%nat /\
      match c !! catalog_rank_plus (it_key it) with
      | Some (k, d) => err = 0 /\ n = Z.of_nat (length d) /\ (n <= 520 -> slice recp' 0 n = d) /\ (Forall byte recp -> Forall byte recp') /\
          (w = true -> (length k <= length (it_key it))%nat -> length (it_key it') = length (it_key it) /\
             (Forall byte (it_key it) -> Forall byte (it_key it')) /\ slice (it_key it') 0 (Z.of_nat (length k)) = k)
      | None => err = btNotFound
      end;
  law_insert x c it data n : rep x c -> full_key (it_key it) -> Forall byte data -> 0 <= n <= Z.of_nat (length data) ->
    exists err it' x', ct_insert x it data n = Ok (err, it', x') /\ it_key it' = it_key it /\
      match c !! catalog_rank_plus (it_key it) with
      | Some _ => err = btExists /\ hint_nodeNum (it_hint it') = 0 /\ rep x' c
      | None => err = 0 /\ rep x' (<[catalog_rank_plus (it_key it) := (key_trim (it_key it), take (Z.to_nat n) data)]> c) \/
          fallible /\ other_error err /\ rep x' c
      end;
  law_delete x c it : rep x c -> catalog_key_plus (it_key it) ->
    exists err it' x', ct_delete x it = Ok (err, it', x') /\ it_key it' = it_key it /\
      match c !! catalog_rank_plus (it_key it) with
      | Some _ => err = 0 /\ rep x' (delete (catalog_rank_plus (it_key it)) c) \/ fallible /\ other_error err /\ rep x' c
      | None => err = btNotFound /\ rep x' c
      end;
  law_space x c : rep x c -> exists err x', ct_free_space x = Ok (err, x') /\ rep x' c /\ (err = 0 \/ other_error err);
  law_flush x c : rep x c -> exists x', ct_flush x = Ok x' /\ rep x' c;
  law_trash x c p : rep x c -> rep (ct_trash x p) c
}.

(** ** The invariant *)

Definition node_cnid (d : buffer) : Z := get d 8 4.
Definition thread_at (id : Z) : list Z := [id; 0].

(** A record of a file or folder, under a key with a name. *)
Definition node_record (k d : buffer) : Prop :=
  0 < get k 6 2 /\ exists directory, recordType d = record_kind directory /\ Z.of_nat (length d) = (if directory then 88 else 248).
(** The thread of a record. *)
Definition thread_record (td k d : buffer) : Prop :=
  (exists directory, recordType d = record_kind directory /\ recordType td = thread_kind directory) /\ names td k.

Record catalog_inv (c : catalog) : Prop := {
  ci_key r k d : c !! r = Some (k, d) -> stored_key k /\ catalog_rank_plus k = r /\ Forall byte d /\ get k 6 2 <= 255;
  ci_node r k d : c !! r = Some (k, d) -> 0 < get k 6 2 ->
    node_record k d /\ exists tk td, c !! thread_at (node_cnid d) = Some (tk, td) /\ thread_record td k d;
  ci_thread id tk td : c !! thread_at id = Some (tk, td) ->
    exists k d, c !! catalog_rank_plus k = Some (k, d) /\ node_record k d /\ node_cnid d = id /\ thread_record td k d
}.

(** Two records are not of the same file: numbers are not used twice. *)
Lemma cnid_unique c r k d r' k' d' : catalog_inv c -> c !! r = Some (k, d) -> c !! r' = Some (k', d') -> 0 < get k 6 2 -> 0 < get k' 6 2 ->
  node_cnid d = node_cnid d' -> r = r'.
Proof.
  intros Hc H1 H2 Hn1 Hn2 E.
  destruct (ci_key c Hc _ _ _ H1) as (Hk1 & <- & _). destruct (ci_key c Hc _ _ _ H2) as (Hk2 & <- & _).
  destruct (ci_node c Hc _ _ _ H1 Hn1) as (_ & tk & td & Ht & _ & Hname1). destruct (ci_node c Hc _ _ _ H2 Hn2) as (_ & tk' & td' & Ht' & _ & Hname2).
  rewrite E, Ht' in Ht. assert (td' = td) as -> by congruence.
  rewrite <- (names_rank td k Hk1 Hname1), <- (names_rank td k' Hk2 Hname2). done.
Qed.

(** The order of a key tells whether it has a name. *)
Lemma thread_rank_name k id : full_key k -> catalog_rank_plus k = thread_at id -> get k 6 2 = 0.
Proof.
  intros [(Hb & Hl & _) _]. unfold catalog_rank_plus, thread_at, get. destruct (Z.eqb_spec (field k 6 2) 0); [done|]. intros [= ].
Qed.

Lemma name_not_thread k id : 0 < get k 6 2 -> catalog_rank_plus k <> thread_at id.
Proof. unfold catalog_rank_plus, thread_at, get. destruct (Z.eqb_spec (field k 6 2) 0); [lia|]. intros _ [= ]. Qed.

Lemma no_name_thread k : full_key k -> get k 6 2 <= 0 -> catalog_rank_plus k = thread_at (get k 2 4).
Proof.
  intros Hk Hn. pose proof (full_key_range k Hk) as (H0 & _). unfold catalog_rank_plus, thread_at, get in *.
  destruct (Z.eqb_spec (field k 6 2) 0); [done|lia].
Qed.

(** *** Adding a file or folder *)

Definition add_node (c : catalog) (k d tk td : buffer) : catalog :=
  <[catalog_rank_plus k := (k, d)]> (<[thread_at (node_cnid d) := (tk, td)]> c).

Lemma add_node_inv c k d tk td : catalog_inv c -> c !! catalog_rank_plus k = None -> c !! thread_at (node_cnid d) = None ->
  stored_key k -> get k 6 2 <= 255 -> Forall byte d -> node_record k d -> stored_key tk -> catalog_rank_plus tk = thread_at (node_cnid d) ->
  Forall byte td -> thread_record td k d -> catalog_inv (add_node c k d tk td).
Proof.
  intros Hc H1 H2 Hk Hk255 Hd Hn Htk Hrt Htd Ht. pose proof (name_not_thread k (node_cnid d) (proj1 Hn)) as Hne.
  pose proof (thread_rank_name tk _ (proj1 Htk) Hrt) as Htk0.
  unfold add_node. split.
  - intros r k' d'. rewrite !lookup_insert. repeat case_decide; subst; [intros [= <- <-]..|apply (ci_key c Hc)]; split_and!; try done. lia.
  - intros r k' d'. rewrite lookup_insert. case_decide; subst.
    + intros [= <- <-] _. split; [done|]. exists tk, td. rewrite lookup_insert_ne, lookup_insert_eq by done. done.
    + rewrite lookup_insert. case_decide; subst; [intros [= <- <-]; lia|]. intros Hr Hn'.
      destruct (ci_node c Hc _ _ _ Hr Hn') as (Hnr & tk' & td' & Hl & Htr). split; [done|]. exists tk', td'.
      rewrite !lookup_insert_ne; [done| |]; congruence.
  - intros id tk' td'. rewrite lookup_insert_ne by (intros E; by apply (name_not_thread k id (proj1 Hn))).
    rewrite lookup_insert. case_decide as E.
    + injection E as <-. intros [= <- <-]. exists k, d. by rewrite lookup_insert_eq.
    + intros Hl. destruct (ci_thread c Hc _ _ _ Hl) as (k' & d' & Hl' & Hn' & Hid & Htr). exists k', d'. split; [|done].
      rewrite !lookup_insert_ne; [done| |]; [|congruence]. intros E'. apply (name_not_thread k' (node_cnid d) (proj1 Hn')). done.
Qed.

(** *** Removing one *)

Definition remove_node (c : catalog) (r : list Z) (id : Z) : catalog := delete (thread_at id) (delete r c).

Lemma remove_node_inv c r k d : catalog_inv c -> c !! r = Some (k, d) -> 0 < get k 6 2 -> catalog_inv (remove_node c r (node_cnid d)).
Proof.
  intros Hc Hr Hn. destruct (ci_key c Hc _ _ _ Hr) as (Hk & Hrk & _). unfold remove_node. split.
  - intros r' k' d' H. rewrite !lookup_delete_Some in H. destruct H as (_ & _ & H). by apply (ci_key c Hc).
  - intros r' k' d' H Hn'. rewrite !lookup_delete_Some in H. destruct H as (Hr1 & Hr2 & H).
    destruct (ci_node c Hc _ _ _ H Hn') as (Hnr & tk & td & Hl & Htr). split; [done|]. exists tk, td.
    rewrite !lookup_delete_ne; [done| |].
    + rewrite <- Hrk. intros E. by apply (name_not_thread k (node_cnid d') Hn).
    + intros [= E]. apply Hr2. by apply (cnid_unique c _ k d _ k' d').
  - intros id tk td H. rewrite !lookup_delete_Some in H. destruct H as (Hr1 & Hr2 & H).
    destruct (ci_thread c Hc _ _ _ H) as (k' & d' & Hl & Hn' & Hid & Htr). exists k', d'. split; [|done].
    rewrite !lookup_delete_ne; [done| |].
    + intros E. rewrite <- E, Hr in Hl. assert (d = d') as -> by congruence. by rewrite Hid in Hr1.
    + intros E. by apply (name_not_thread k' (node_cnid d) (proj1 Hn')).
Qed.

(** ** The next number *)

Definition cnid_count : Z := 2 ^ 32 - kHFSFirstUserCatalogNodeID.
(** The [i]th number from [n] on, around the end. *)
Definition cnid_after (n i : Z) : Z := kHFSFirstUserCatalogNodeID + (n - kHFSFirstUserCatalogNodeID + i) mod cnid_count.
Definition cnid_range (n : Z) : Prop := kHFSFirstUserCatalogNodeID <= n < 2 ^ 32.

Lemma cnid_after_range n i : cnid_range (cnid_after n i).
Proof.
  unfold cnid_range, cnid_after. pose proof (Z.mod_pos_bound (n - kHFSFirstUserCatalogNodeID + i) cnid_count eq_refl) as H.
  unfold cnid_count in *. lia.
Qed.

Lemma cnid_after_0 n : cnid_range n -> cnid_after n 0 = n.
Proof. unfold cnid_range, cnid_after. intros. rewrite Z.mod_small; unfold cnid_count; lia. Qed.

Lemma cnid_after_add n i j : cnid_after (cnid_after n i) j = cnid_after n (i + j).
Proof.
  unfold cnid_after. f_equal. rewrite Z.add_simpl_l. rewrite Z.add_mod_idemp_l by done. f_equal. lia.
Qed.

Lemma cnid_after_1 n : cnid_range n ->
  (if u32 (n + 1) <? kHFSFirstUserCatalogNodeID then kHFSFirstUserCatalogNodeID else u32 (n + 1)) = cnid_after n 1.
Proof.
  unfold cnid_range, cnid_after, cnid_count, kHFSFirstUserCatalogNodeID. intros Hn.
  destruct (decide (n = 2 ^ 32 - 1)) as [->|]; [done|]. rewrite u32_small by lia. rewrite Z.mod_small by lia.
  destruct (Z.ltb_spec (n + 1) 16); lia.
Qed.

Lemma cnid_after_inj n i j : 0 <= i < cnid_count -> 0 <= j < cnid_count -> cnid_after n i = cnid_after n j -> i = j.
Proof.
  intros Hi Hj E. unfold cnid_after in E. apply Z.add_reg_l in E.
  assert (cnid_count <> 0) as H0 by done.
  assert (forall k, 0 <= k < cnid_count -> (((n - kHFSFirstUserCatalogNodeID + k) mod cnid_count) - (n - kHFSFirstUserCatalogNodeID)) mod cnid_count = k) as Hk.
  { intros k Hk. rewrite Zminus_mod_idemp_l. rewrite Z.add_simpl_l. by apply Z.mod_small. }
  rewrite <- (Hk i Hi), <- (Hk j Hj), E. done.
Qed.

(** The first free number is among the first ones, as many as there are records and one. *)
Definition first_free (c : catalog) (n : Z) (j : nat) : Prop :=
  c !! thread_at (cnid_after n (Z.of_nat j)) = None /\ forall i, (i < j)%nat -> is_Some (c !! thread_at (cnid_after n (Z.of_nat i))).

Lemma first_free_exists c n : Z.of_nat (size c) < cnid_count -> exists j, first_free c n j /\ (j <= size c)%nat.
Proof.
  intros Hs.
  assert (forall k, (exists j, first_free c n j /\ (j < k)%nat) \/ forall i, (i < k)%nat -> is_Some (c !! thread_at (cnid_after n (Z.of_nat i)))) as H.
  { induction k as [|k [(j & Hj & Hk)|IH]]; [right; lia|left; exists j; split; [done|lia]|].
    destruct (c !! thread_at (cnid_after n (Z.of_nat k))) eqn:E.
    - right. intros i Hi. destruct (decide (i = k)) as [->|]; [by rewrite E|]. apply IH. lia.
    - left. exists k. split; [|lia]. by split. }
  destruct (H (S (size c))) as [(j & Hj & Hk)|Hall]; [exists j; split; [done|lia]|]. exfalso.
  set (l := (fun i : nat => thread_at (cnid_after n (Z.of_nat i))) <$> seq 0 (S (size c))).
  assert (NoDup l) as Hnd.
  { apply NoDup_fmap_2_strong; [|apply NoDup_seq]. intros i j Hi Hj E. rewrite elem_of_seq in Hi, Hj.
    apply Nat2Z.inj, (cnid_after_inj n); [lia..|]. by injection E. }
  assert (list_to_set l ⊆ dom c) as Hsub.
  { intros r Hr. rewrite elem_of_list_to_set in Hr. apply list_elem_of_fmap in Hr as (i & -> & Hi). rewrite elem_of_seq in Hi.
    apply elem_of_dom, Hall. lia. }
  apply subseteq_size in Hsub. rewrite size_list_to_set, size_dom in Hsub by done. unfold l in Hsub. rewrite length_fmap, length_seq in Hsub. lia.
Qed.

Section operations.
Context {X : Type} `{!CatalogTree X} (rep : X -> catalog -> Prop) {fallible : Prop} `{!CatalogTreeLaws X rep fallible}.
Context (hfs_pickencoding : list Z -> Z) (junk : buffer).

(** The iterator that the routines reuse. *)
Definition it_ok (it : BTreeIterator) : Prop := Forall byte (it_key it) /\ length (it_key it) = 522%nat.

Lemma new_iterator_ok : it_ok new_iterator.
Proof using Type. split; [|done]. by apply Forall_replicate. Qed.

Lemma set_thread_ok it id : it_ok it -> 0 <= id < 2 ^ 32 ->
  let it' := set_key it (buildthreadkey id false (it_key it)) in
  it_ok it' /\ full_key (it_key it') /\ catalog_rank_plus (it_key it') = thread_at id.
Proof using Type.
  intros [Hb Hl] Hid it'. destruct (buildthreadkey_plus id (it_key it) Hb ltac:(lia) Hid) as (Hk & HL & Hr & _).
  split; [|done]. split; [apply Hk|]. by unfold it'; rewrite <- Hl.
Qed.

Definition cnid_only (m m' : hfsmount) : Prop := exists atrb flags, m' = set_volume_cnid m (hm_nxtCNID m) atrb flags.

Lemma cnid_only_refl m : cnid_only m m.
Proof using Type. exists (hm_atrb m), (hm_flags m). by destruct m. Qed.

Lemma other_error_nonzero err : other_error err -> err <> 0 /\ err <> btExists.
Proof using Type. intros [H1 H2]. split; intros ->; [by apply H1|by apply H2]. Qed.

(** The loop stops at the first free number, and leaves the tree as it was if its thread
    cannot be inserted. *)
Lemma insert_thread_spec c data n j : Forall byte data -> 0 <= n <= Z.of_nat (length data) -> forall fuel m x it id,
  rep x c -> std_hfs m = false -> it_ok it -> cnid_range id -> first_free c id j -> (j < fuel)%nat ->
  let cnid := cnid_after id (Z.of_nat j) in
  exists err it' m' x', insert_thread fuel m x it data n id = Ok (err, cnid, it', m', x') /\ cnid_only m m' /\ it_ok it' /\
    (err = 0 /\ (exists tk, stored_key tk /\ catalog_rank_plus tk = thread_at cnid /\
                   rep x' (<[thread_at cnid := (tk, take (Z.to_nat n) data)]> c)) \/
     other_error err /\ rep x' c).
Proof using CatalogTreeLaws0.
  intros Hd Hn. induction j as [|j IH]; intros fuel m x it id Hrep Hstd Hit Hid [Hfree Htaken] Hfuel cnid;
    (destruct fuel as [|fuel]; [lia|]); cbn [insert_thread]; rewrite Hstd; cbn [negb andb];
    destruct (set_thread_ok it id Hit ltac:(unfold cnid_range in Hid; unfold kHFSFirstUserCatalogNodeID in Hid; lia)) as (Hit1 & Hk & Hr);
    set (it1 := set_key it (buildthreadkey id false (it_key it))) in *;
    destruct (law_insert x c it1 data n Hrep Hk Hd Hn) as (err & it2 & x2 & Hins & Hkey & Hcase); rewrite Hins; cbn [mbind outcome_bind];
    rewrite Hr in Hcase.
  - unfold cnid. change (Z.of_nat 0) with 0 in *. rewrite (cnid_after_0 id Hid) in Hfree |- *. rewrite Hfree in Hcase.
    assert (err <> btExists) as Hne. { destruct Hcase as [[-> _]|(_ & He & _)]; [done|]. by apply other_error_nonzero. }
    rewrite (proj2 (Z.eqb_neq err btExists) Hne). cbn [andb]. exists err, it2, m, x2. split; [done|]. split; [apply cnid_only_refl|].
    split. { split; rewrite Hkey; apply Hit1. }
    destruct Hcase as [[-> Hrep2]|(_ & He & Hrep2)]; [left|by right]. split; [done|]. destruct (key_trim_stored _ Hk) as (Hst & Hrk & _).
    exists (key_trim (it_key it1)). by rewrite Hrk.
  - destruct (Htaken 0%nat ltac:(lia)) as [y Hy]. change (Z.of_nat 0) with 0 in Hy. rewrite (cnid_after_0 id Hid) in Hy. rewrite Hy in Hcase.
    destruct Hcase as (-> & _ & Hrep2). cbn [andb]. rewrite Z.eqb_refl.
    pose proof (cnid_after_1 id Hid) as E1.
    assert (forall m2, std_hfs m2 = false -> cnid_only m m2 -> exists err it' m' x',
      insert_thread fuel m2 x2 it2 data n (cnid_after id 1) = Ok (err, cnid, it', m', x') /\ cnid_only m m' /\ it_ok it' /\
      (err = 0 /\ (exists tk, stored_key tk /\ catalog_rank_plus tk = thread_at cnid /\
                     rep x' (<[thread_at cnid := (tk, take (Z.to_nat n) data)]> c)) \/ other_error err /\ rep x' c)) as Hgo.
    { intros m2 Hstd2 (at2 & fl2 & Hm2). destruct (IH fuel m2 x2 it2 (cnid_after id 1)) as (e & it3 & m3 & x3 & Hrun & (at3 & fl3 & Hm3) & Hit3 & Hc3); try done.
      - split; rewrite Hkey; apply Hit1.
      - apply cnid_after_range.
      - split; [rewrite cnid_after_add; replace (1 + Z.of_nat j) with (Z.of_nat (S j)) by lia; done|].
        intros i Hi. rewrite cnid_after_add. replace (1 + Z.of_nat i) with (Z.of_nat (S i)) by lia. apply Htaken. lia.
      - lia.
      - assert (cnid_after (cnid_after id 1) (Z.of_nat j) = cnid) as E.
        { unfold cnid. rewrite cnid_after_add. f_equal. lia. }
        rewrite E in *. exists e, it3, m3, x3. split; [done|]. split; [|done]. exists at3, fl3. by rewrite Hm3, Hm2. }
    destruct (u32 (id + 1) <? kHFSFirstUserCatalogNodeID); rewrite E1; apply Hgo; try done; [|apply cnid_only_refl].
    by eexists _, _.
Qed.

(** A key in the iterator. *)
Lemma splice_key it key : it_ok it -> full_key key -> length key = 518%nat ->
  let k := splice (it_key it) 0 key in
  full_key k /\ Forall byte k /\ length k = 522%nat /\ key_trim k = key_trim key /\ catalog_rank_plus k = catalog_rank_plus key /\
  get k 6 2 = get key 6 2.
Proof using Type.
  intros [Hib Hil] Hk Hl k. pose proof (full_key_range key Hk) as (Hn & Hkl & _). pose proof Hk as [(Hb & _ & _) E].
  assert (length k = 522%nat) as HL by (unfold k; rewrite splice_length; lia).
  assert (Forall byte k) as HB by (unfold k; by apply splice_bytes).
  assert (forall p n, 0 <= p -> 0 <= n -> p + n <= 518 -> slice k p n = slice key p n) as Hs.
  { intros p n Hp Hn0 Hpn. transitivity (slice (slice k 0 518) p n); [rewrite slice_slice by lia; f_equal; lia|].
    unfold k. rewrite slice_splice_same by lia. done. }
  assert (forall p n, 0 <= p -> 0 <= n -> p + n <= 518 -> get k p n = get key p n) as Hg by (intros; unfold get, field; by rewrite Hs).
  assert (key_trim k = key_trim key) as Ht by (unfold key_trim; rewrite Hg, Hs by lia; done).
  assert (full_key k) as HK.
  { split; [|rewrite !Hg by lia; done]. split; [done|]. pose proof (Hg 6 2 ltac:(lia) ltac:(lia) ltac:(lia)) as E6. unfold get in *. rewrite E6. lia. }
  split_and!; try done; [|by apply Hg; lia].
  destruct (key_trim_stored k HK) as (_ & <- & _). rewrite Ht. apply key_trim_stored, Hk.
Qed.

(** How the flush at the end leaves the result. *)
Lemma create_exit_spec m x c result a out : rep x c -> exists x', create_exit m x result a out = Ok (MacToVFSError result, a, out, m, x') /\ rep x' c.
Proof using CatalogTreeLaws0.
  intros H. unfold create_exit. destruct (law_flush x c H) as (x' & -> & H'). by exists x'.
Qed.

(** The Finder information of a new record. *)
Definition finder_kept (a : cat_attr) (d : buffer) : Prop := slice d 48 32 = ca_finderinfo a \/ slice d 48 32 = replicate 32 0.

(** What a creation does: the outcome, the attributes, the volume and the tree.  If the
    file is there, it has the first free number; otherwise nothing was changed, but for a
    thread that could not be deleted again. *)
Definition created (c : catalog) (m : hfsmount) (key : buffer) (a : cat_attr) (j : nat) (enc : Z) (err : Z) (a' : cat_attr) (m' : hfsmount) (x' : X) : Prop :=
  let cnid := cnid_after (hm_nxtCNID m) (Z.of_nat j) in
  err = 0 /\ c !! catalog_rank_plus key = None /\ a' = set_fileid a cnid /\ hm_nxtCNID m' = cnid_after cnid 1 /\
    (exists d tk td, rep x' (add_node c (key_trim key) d tk td) /\ catalog_inv (add_node c (key_trim key) d tk td) /\ node_cnid d = cnid /\
       has_fields d (new_fields a cnid enc) /\ finder_kept a d) \/
  err <> 0 /\ (rep x' c \/ fallible /\ exists tk td, c !! thread_at cnid = None /\ rep x' (<[thread_at cnid := (tk, td)]> c)) /\
    a' = a /\ hm_nxtCNID m' = hm_nxtCNID m /\ (err = EEXIST -> is_Some (c !! catalog_rank_plus key)).

Lemma has_fields_take d n l : forallb (fun '(p, k, v) => (0 <=? p) && (0 <=? k) && (p + k <=? Z.of_nat n)) l = true -> has_fields d l -> has_fields (take n d) l.
Proof using Type.
  unfold has_fields. rewrite forallb_forall, !Forall_forall. intros H1 H2 [[p k] v] Hin. specialize (H1 _ (proj1 (list_elem_of_In _ _) Hin)). cbn in H1.
  rewrite !andb_true_iff, !Z.leb_le in H1. rewrite get_take by lia. apply (H2 _ Hin).
Qed.

(** The record as it is stored. *)
Lemma new_node m a cnid enc data k : attr_ok a -> Forall byte data -> length data = 520%nat -> 0 <= cnid < 2 ^ 32 -> 0 < get k 6 2 ->
  let '(d, n) := buildrecord m a cnid false enc data in let d' := take (Z.to_nat n) d in
  0 <= n <= Z.of_nat (length d) /\ Forall byte d /\ node_record k d' /\ node_cnid d' = cnid /\ has_fields d' (new_fields a cnid enc) /\
  recordType d' = record_kind (is_dir a) /\ finder_kept a d'.
Proof using Type.
  intros Ha Hb Hl Hid Hk. pose proof (buildrecord_plus m a cnid enc data Ha Hb Hl) as H. pose proof (buildrecord_finder m a cnid enc data Ha Hl) as Hfi.
  destruct (buildrecord m a cnid false enc data) as [d n]. destruct H as (Hn & HL & HB & Hf & _).
  assert (has_fields (take (Z.to_nat n) d) (new_fields a cnid enc)) as Hf' by (apply has_fields_take; [rewrite Hn; by destruct (is_dir a)|done]).
  assert (recordType (take (Z.to_nat n) d) = record_kind (is_dir a)) as Ht.
  { unfold recordType. rewrite (has_field _ _ 0 2 _ Hf') by (unfold new_fields; left). by destruct (is_dir a). }
  assert (node_cnid (take (Z.to_nat n) d) = cnid) as Hc.
  { unfold node_cnid. rewrite (has_field _ _ 8 4 cnid Hf') by (unfold new_fields; do 3 right; left). by apply wrap_idem. }
  split; [destruct (is_dir a); lia|]. split; [done|]. split.
  { split; [done|]. exists (is_dir a). split; [done|]. rewrite length_take, HL. destruct (is_dir a); lia. }
  split_and!; try done. unfold finder_kept. change (take (Z.to_nat n) d) with (slice d 0 n). rewrite slice_slice; [exact Hfi|destruct (is_dir a); lia..].
Qed.

Lemma create_node_spec m x c d a w it key data cnid enc j tk td : std_hfs m = false -> it_ok it -> full_key key -> length key = 518%nat ->
  0 < get key 6 2 <= 255 -> attr_ok a -> Forall byte data -> length data = 520%nat ->
  cnid = cnid_after (hm_nxtCNID m) (Z.of_nat j) -> catalog_inv c -> c !! thread_at cnid = None ->
  stored_key tk -> catalog_rank_plus tk = thread_at cnid -> Forall byte td -> names td (key_trim key) -> recordType td = thread_kind (is_dir a) ->
  rep x (<[thread_at cnid := (tk, td)]> c) ->
  exists err a' out m' x', create_node m x d a w it key data cnid enc = Ok (err, a', out, m', x') /\ created c m key a j enc err a' m' x'.
Proof using CatalogTreeLaws0.
  intros Hstd Hit Hk Hkl Hkn Ha Hb Hl Hcnid Hinv Hfree Htk Hrtk Htd Hname Hkind Hrep.
  assert (cnid_range cnid) as Hr by (rewrite Hcnid; apply cnid_after_range).
  assert (0 <= cnid < 2 ^ 32) as Hr' by (unfold cnid_range, kHFSFirstUserCatalogNodeID in Hr; lia).
  destruct (key_trim_stored key Hk) as (Hst & Hrk & _ & _ & _ & E6).
  pose proof (new_node m a cnid enc data (key_trim key) Ha Hb Hl Hr' ltac:(lia)) as Hnew.
  unfold create_node. rewrite Hstd. destruct (buildrecord m a cnid false enc data) as [rec n].
  destruct Hnew as (Hn & HB & Hnode & Hid & Hfields & Htype & Hfinder). set (rec' := take (Z.to_nat n) rec) in *.
  destruct (splice_key it key Hit Hk Hkl) as (Hk1 & Hkb1 & Hkl1 & Htrim & Hrank & _).
  set (it1 := set_key it (splice (it_key it) 0 key)). change (splice (it_key it) 0 key) with (it_key it1) in Hk1, Hkb1, Hkl1, Htrim, Hrank.
  destruct (law_insert x _ it1 rec n Hrep Hk1 HB Hn) as (err & it2 & x2 & -> & Hkey2 & Hcase). cbn [mbind outcome_bind].
  rewrite Hrank in Hcase. rewrite lookup_insert_ne in Hcase by (intros E; apply (name_not_thread key cnid); [lia|done]).
  cbn [negb orb].
  assert (err = 0 /\ c !! catalog_rank_plus key = None /\ rep x2 (<[catalog_rank_plus key := (key_trim key, rec')]> (<[thread_at cnid := (tk, td)]> c)) \/
    err <> 0 /\ rep x2 (<[thread_at cnid := (tk, td)]> c) /\ (let e := MacToVFSError (if err =? btExists then EEXIST else err) in
      e <> 0 /\ (e = EEXIST -> is_Some (c !! catalog_rank_plus key)))) as [(-> & Hnone & Hrep2)|(Hne & Hrep2 & He0 & HeE)].
  { destruct (c !! catalog_rank_plus key) as [y|].
    - destruct Hcase as (-> & _ & Hrep2). right. split_and!; try done.
    - destruct Hcase as [[-> Hrep2]|(_ & He & Hrep2)]; [left; rewrite Htrim in Hrep2; done|].
      right. destruct (other_error_nonzero err He) as [H0 H1]. rewrite (proj2 (Z.eqb_neq _ _) H1). destruct He. done. }
  - cbn [Z.eqb negb]. assert (exists out, (if w then d0 ← lookup_desc m (it_key it2) cnid (hint_nodeNum (it_hint it2)) enc (S_ISDIR (ca_mode a)); Ok (Some d0)
      else Ok None) = Ok out) as [out ->].
    { destruct w; [|by eexists]. unfold lookup_desc. rewrite Hstd. cbn [mbind outcome_bind]. rewrite Hkey2.
      rewrite builddesc_name by (pose proof (full_key_range _ Hk1); lia). by eexists. }
    cbn [mbind outcome_bind]. pose proof (cnid_after_1 cnid Hr) as E1.
    match goal with |- context [let '(_, _) := ?e in _] => destruct e as [next atrb] eqn:Enext end.
    assert (next = cnid_after cnid 1) as ->.
    { rewrite <- E1. destruct (_ <? _); congruence. }
    destruct (create_exit_spec (set_volume_cnid m (cnid_after cnid 1) atrb (dirty_flags (hm_flags m))) (ct_trash x2 (cd_parentcnid d))
      (<[catalog_rank_plus key := (key_trim key, rec')]> (<[thread_at cnid := (tk, td)]> c)) 0 (set_fileid a cnid) out) as (x3 & -> & Hrep3).
    { by apply law_trash. }
    eexists _, _, _, _, _. split; [done|]. left. rewrite <- Hcnid. split_and!; try done. exists rec', tk, td.
    unfold add_node. rewrite Hrk, Hid. split; [done|]. split; [|done].
    pose proof (add_node_inv c (key_trim key) rec' tk td Hinv) as H. unfold add_node in H. rewrite Hrk, Hid in H. apply H; try done.
    + lia.
    + by apply Forall_take.
    + split; [|done]. by exists (is_dir a).
  - rewrite (proj2 (Z.eqb_neq err 0) Hne). cbn [negb].
    destruct (set_thread_ok it2 cnid) as (_ & Hk2 & Hr2); [split; rewrite Hkey2; done|done|].
    destruct (law_delete x2 _ (set_key it2 (buildthreadkey cnid false (it_key it2))) Hrep2 (proj1 Hk2)) as (e3 & it3 & x3 & -> & _ & H3).
    rewrite Hr2, lookup_insert_eq in H3. rewrite delete_insert_eq, delete_id in H3 by done. cbn [mbind outcome_bind].
    destruct H3 as [[-> Hrep3]|(Hfal & _ & Hrep3)].
    + destruct (create_exit_spec m x3 c (if err =? btExists then EEXIST else err) a None Hrep3) as (x4 & -> & Hrep4).
      eexists _, _, _, _, _. split; [done|]. right. split_and!; try done. by left.
    + destruct (create_exit_spec m x3 _ (if err =? btExists then EEXIST else err) a None Hrep3) as (x4 & -> & Hrep4).
      eexists _, _, _, _, _. split; [done|]. right. split_and!; try done. right. split; [done|]. exists tk, td. by rewrite <- Hcnid.
Qed.

(** [hfs_setencodingbits] changes only the encodings. *)
Lemma setencodingbits_same m enc m1 : hfs_setencodingbits m enc = Ok m1 -> std_hfs m1 = std_hfs m /\ hm_nxtCNID m1 = hm_nxtCNID m.
Proof using Type.
  unfold hfs_setencodingbits. destruct (_ <? 128); [|by intros [= <-]]. destruct (_ <? 31); [|done]. by intros [= <-].
Qed.

(** The encoding that is chosen for a key. *)
Definition key_encoding (key : buffer) : Z := hfs_pickencoding (map (fun j => get key (8 + 2 * j) 2) (seqZ 0 (get key 6 2))).

Lemma created_mount c m m1 key a j enc err a' m' x' : hm_nxtCNID m1 = hm_nxtCNID m -> created c m1 key a j enc err a' m' x' -> created c m key a j enc err a' m' x'.
Proof using Type. unfold created. by intros ->. Qed.

Lemma cat_create_spec fuel m m1 x c d a w key : rep x c -> catalog_inv c -> std_hfs m = false -> cnid_range (hm_nxtCNID m) ->
  Z.of_nat (size c) < cnid_count -> (size c < fuel)%nat -> attr_ok a -> 0 <= cd_parentcnid d < 2 ^ 32 ->
  buildkey m d (replicate 518 0) false = Ok (0, key) -> hfs_setencodingbits m (key_encoding key) = Ok m1 ->
  exists err a' out m' x' j, cat_create hfs_pickencoding fuel m x d a w = Ok (err, a', out, m', x') /\
    first_free c (hm_nxtCNID m) j /\ created c m key a j (key_encoding key) err a' m' x'.
Proof using CatalogTreeLaws0.
  intros Hrep Hinv Hstd Hnxt Hsize Hfuel Ha Hp Hkey Henc.
  destruct (buildkey_plus m d (replicate 518 0) false key Hstd ltac:(by apply Forall_replicate) ltac:(by rewrite length_replicate) Hp Hkey)
    as (Hk & Hkl & _ & Hkn & _). rewrite length_replicate in Hkl.
  destruct (first_free_exists c (hm_nxtCNID m) Hsize) as (j & Hj & Hjs).
  destruct (setencodingbits_same m _ m1 Henc) as [Hstd1 Hn1]. rewrite Hstd in Hstd1.
  unfold cat_create. rewrite Hstd. cbn [andb]. rewrite Hkey. cbn [mbind outcome_bind Z.eqb negb]. fold (key_encoding key). rewrite Henc. cbn [mbind outcome_bind].
  destruct (law_space x c Hrep) as (err & x1 & -> & Hrep1 & Herr). cbn [mbind outcome_bind].
  assert (forall err x2, other_error err -> rep x2 c -> exists err' a' out m' x' j, create_exit m1 x2 err a None = Ok (err', a', out, m', x') /\
    first_free c (hm_nxtCNID m) j /\ created c m key a j (key_encoding key) err' a' m' x') as Hfail.
  { intros e x2 [He0 HeE] Hrep2. destruct (create_exit_spec m1 x2 c e a None Hrep2) as (x3 & -> & Hrep3).
    eexists _, _, _, _, _, j. split; [done|]. split; [done|]. right. split_and!; try done. by left. }
  destruct (Z.eqb_spec err 0) as [->|He]; cbn [negb]; [|destruct Herr as [?|Herr]; [done|by apply Hfail]].
  rewrite Hstd1. cbn [negb orb]. pose proof (buildthread_plus key (replicate (Z.to_nat sizeof_CatalogRecord) 0) (S_ISDIR (ca_mode a)) Hk ltac:(lia)
    ltac:(by apply Forall_replicate) eq_refl) as Hth.
  destruct (buildthread key _ false (S_ISDIR (ca_mode a))) as [n td]. destruct Hth as (Hn & Htl & Htb & Htk & Htn).
  pose proof (full_key_range key Hk) as (_ & Hkr & _). pose proof Hk as [_ Ek].
  rewrite <- Hn1 in Hnxt, Hj.
  destruct (insert_thread_spec c td n j Htb ltac:(lia) fuel m1 x1 new_iterator (hm_nxtCNID m1)) as (e & it & m2 & x2 & Hrun & (atrb & fl & Hm2) & Hit & Hc);
    try done; [apply new_iterator_ok|lia|]. rewrite <- Hn1. rewrite Hrun. cbn [mbind outcome_bind].
  destruct Hc as [[-> (tk & Hst & Hrk & Hrep2)]|[He Hrep2]].
  - cbn [Z.eqb negb]. destruct (create_node_spec m2 x2 c d a w it key td (cnid_after (hm_nxtCNID m1) (Z.of_nat j)) (key_encoding key) j tk (take (Z.to_nat n) td))
      as (err & a' & out & m' & x' & -> & Hcr); try done; try (by rewrite Hm2).
    + apply Hj.
    + by apply Forall_take.
    + exists err, a', out, m', x', j. split; [done|]. split; [done|]. by apply (created_mount c m m2); [rewrite Hm2|].
  - destruct (other_error_nonzero e He) as [He0 _]. rewrite (proj2 (Z.eqb_neq e 0) He0). cbn [negb].
    destruct He as [H0 HE]. destruct (create_exit_spec m2 x2 c e a None Hrep2) as (x3 & -> & Hrep3).
    eexists _, _, _, _, _, j. split; [done|]. split; [done|]. right. split_and!; try done; [by left|by rewrite Hm2].
Qed.

(** ** From a number to its key *)

(** The record of a thread in the buffer of a search. *)
Lemma slice_get b d p n : 0 <= p -> 0 <= n -> p + n <= Z.of_nat (length d) -> slice b 0 (Z.of_nat (length d)) = d -> slice b p n = slice d p n /\ get b p n = get d p n.
Proof using Type.
  intros Hp Hn Hpn E. assert (slice b p n = slice d p n) as Hs by (rewrite <- E; rewrite slice_slice by lia; f_equal; lia).
  split; [done|]. unfold get, field. by rewrite Hs.
Qed.

(** The key that is left in the buffer, behind the kind of the thread. *)
Lemma thread_key_spec recp td k : stored_key k -> get k 6 2 <= 255 -> names td k -> (exists directory, recordType td = thread_kind directory) ->
  Forall byte recp -> length recp = 520%nat -> slice recp 0 (Z.of_nat (length td)) = td ->
  exists recp', thread_key recp = Some (2, recp') /\ length recp' = 520%nat /\ Forall byte recp' /\ get recp' 2 2 = get k 0 2 /\
    slice recp' 2 (2 + get k 0 2) = k.
Proof using Type.
  intros [Hk Hkl] Hk255 Hnames [dir Hkind] Hb Hl Hs. pose proof (full_key_range k Hk) as (H0 & _ & _). pose proof Hk as [(Hkb & _) E].
  assert (Z.of_nat (length td) = 4 + get k 0 2) as Htl.
  { apply (f_equal length) in Hnames. rewrite !length_drop in Hnames. lia. }
  assert (slice td 4 (get k 0 2) = slice k 2 (get k 0 2)) as Hst.
  { rewrite !slice_drop by lia. exact Hnames. }
  assert (get td 8 2 = get k 6 2) as E8.
  { unfold get, field. replace (slice td 8 2) with (slice (slice td 4 (get k 0 2)) 4 2) by (rewrite slice_slice; [done|lia..]).
    rewrite Hst, slice_slice by lia. done. }
  assert (forall p n, 0 <= p -> 0 <= n -> p + n <= Z.of_nat (length td) -> slice recp p n = slice td p n) as Hsl by (intros; by apply slice_get).
  assert (get recp 8 2 = get k 6 2) as E8' by (rewrite <- E8; apply slice_get; lia || done).
  assert (recordType recp = thread_kind dir) as Hkind'.
  { rewrite <- Hkind. unfold recordType. f_equal. apply slice_get; lia || done. }
  unfold thread_key. rewrite Hkind', E8'. change kHFSPlusCatalogKeyMinimumLength with 6. replace (6 + get k 6 2 * 2) with (get k 0 2) by lia.
  exists (put recp 2 2 (get k 0 2)). split; [by destruct dir|]. assert (length (put recp 2 2 (get k 0 2)) = 520%nat) as HL by (rewrite put_length; lia).
  split; [done|]. split; [by apply put_bytes_all|].
  split. { rewrite get_put_same by lia. apply wrap_idem. change (2 ^ (8 * 2)) with 65536. lia. }
  transitivity (slice k 0 (2 + get k 0 2)); [|apply slice_all; lia]. rewrite (slice_app _ 2 2), (slice_app k 0 2) by lia. f_equal.
  - unfold put. rewrite slice_splice_same by (rewrite ?le_encode_length; lia). apply splice_whole; try done; lia.
  - change (2 + 2) with 4. change (0 + 2) with 2. rewrite slice_put_other, Hsl, Hst by lia. done.
Qed.

(** The key of the record that is moved, in its iterator. *)
Definition from_ok (it : BTreeIterator) (r : list Z) (k : buffer) : Prop :=
  it_ok it /\ full_key (it_key it) /\ catalog_rank_plus (it_key it) = r /\ key_trim (it_key it) = k.

Lemma from_key_ok it k : it_ok it -> stored_key k -> slice (it_key it) 0 (Z.of_nat (length k)) = k -> from_ok it (catalog_rank_plus k) k.
Proof using Type.
  intros [Hb Hl] [Hk Hkl] Hs. pose proof (full_key_range k Hk) as (H0 & _ & H8). pose proof Hk as [_ E].
  assert (forall p n, 0 <= p -> 0 <= n -> p + n <= Z.of_nat (length k) -> get (it_key it) p n = get k p n) as Hg by (intros; by apply slice_get).
  assert (Z.of_nat (length k) <= 522) as Hle.
  { apply (f_equal length) in Hs. unfold slice in Hs. rewrite length_take, length_drop in Hs. lia. }
  assert (full_key (it_key it)) as Hf.
  { split; [|rewrite !Hg by lia; done]. pose proof (Hg 6 2 ltac:(lia) ltac:(lia) ltac:(lia)) as E6. split; [done|]. unfold get in *. rewrite E6. lia. }
  assert (key_trim (it_key it) = k) as Ht.
  { unfold key_trim. rewrite Hg by lia. rewrite <- Hkl. done. }
  split; [done|]. split; [done|]. split; [|done]. destruct (key_trim_stored _ Hf) as (_ & <- & _). by rewrite Ht.
Qed.

(** The kind and number of a record that was found. *)
Lemma found_node d recp dir : recordType d = record_kind dir -> 12 <= Z.of_nat (length d) -> slice recp 0 (Z.of_nat (length d)) = d ->
  recordType recp = recordType d /\ getcnid recp = Ok (node_cnid d).
Proof using Type.
  intros Hk Hl Hs. assert (recordType recp = recordType d) as E by (unfold recordType; f_equal; apply slice_get; lia || done).
  split; [done|]. unfold getcnid. rewrite E, Hk. destruct (slice_get recp d 8 4 ltac:(lia) ltac:(lia) ltac:(lia) Hs) as [_ E8].
  unfold node_cnid. rewrite E8. by destruct dir.
Qed.

Lemma rank_parent k k' : catalog_rank_plus k = catalog_rank_plus k' -> get k 2 4 = get k' 2 4.
Proof using Type. unfold catalog_rank_plus, get. by intros [= ->]. Qed.

(** The record that moved: with the same bytes but for the encoding. *)
Definition same_but_encoding (d d' : buffer) : Prop := length d' = length d /\ take 80 d' = take 80 d /\ drop 84 d' = drop 84 d.

(** The record in the buffer, with its new encoding. *)
Lemma set_encoding recp d enc dir : recordType d = record_kind dir -> Z.of_nat (length d) = (if dir then 88 else 248) -> Forall byte recp ->
  length recp = 520%nat -> slice recp 0 (Z.of_nat (length d)) = d ->
  let recp' := put recp 80 4 enc in let d' := take (length d) recp' in
  Forall byte recp' /\ length recp' = 520%nat /\ recordType recp' = recordType d /\ same_but_encoding d d' /\ Forall byte d'.
Proof using Type.
  intros Hk Hl Hb HL Hs recp' d'. assert (Forall byte recp') as Hb' by (by apply put_bytes_all).
  assert (length recp' = 520%nat) as HL' by (unfold recp'; rewrite put_length; lia).
  assert (88 <= Z.of_nat (length d) <= 248) as Hl' by (destruct dir; lia).
  assert (take (length d) recp = d) as Hs' by (unfold slice in Hs; by rewrite Nat2Z.id in Hs).
  split; [done|]. split; [done|]. split.
  { unfold recordType, recp'. rewrite get_put_other by lia. f_equal. apply slice_get; lia || done. }
  split; [|by apply Forall_take]. split_and!.
  - unfold d'. rewrite length_take. lia.
  - rewrite <- Hs' at 1. unfold d'. rewrite !take_take. replace (80 `min` length d)%nat with 80%nat by lia.
    apply (slice_put_other recp 80 4 enc 0 80); lia.
  - rewrite <- Hs' at 1. unfold d'. rewrite !skipn_firstn_comm.
    pose proof (slice_put_other recp 80 4 enc 84 (Z.of_nat (length d - 84)) ltac:(lia) ltac:(lia) ltac:(lia) ltac:(lia) ltac:(lia)) as H'.
    unfold slice in H'. rewrite !Nat2Z.id in H'. exact H'.
Qed.

(** What the memory holds is bytes. *)
Context (Hjunk : Forall byte junk) (Hjunkl : length junk = 520%nat).

Lemma getkey_spec m x c id tk td : rep x c -> catalog_inv c -> std_hfs m = false -> 0 <= id < 2 ^ 32 -> c !! thread_at id = Some (tk, td) ->
  exists key x', getkey junk m x id (it_key new_iterator) = Ok (0, key, x') /\ rep x' c /\ length key = 522%nat /\ catalog_key_plus key /\ catalog_rank_plus key = thread_rank td.
Proof using All.
  intros Hrep Hinv Hstd Hid Htd. destruct (set_thread_ok new_iterator id new_iterator_ok Hid) as (_ & Hk & Hr).
  unfold getkey. rewrite Hstd.
  destruct (law_search x c (set_key new_iterator (buildthreadkey id false (it_key new_iterator))) junk true Hrep (proj1 Hk) eq_refl Hjunkl)
    as (err & it' & recp & n & x' & -> & Hrep' & Hl & Hcase). cbn [mbind outcome_bind]. rewrite Hr, Htd in Hcase.
  destruct Hcase as (-> & -> & Hs & Hb & _). cbn [Z.eqb negb].
  destruct (ci_thread c Hinv id tk td Htd) as (k & d & Hkd & _ & _ & [(dir & _ & Hkind) Hnames]). destruct (ci_key c Hinv _ _ _ Hkd) as (Hst & _ & _ & H255).
  pose proof Hst as [Hkf Hkl]. pose proof (full_key_range k Hkf) as (H0 & _ & H8). pose proof Hkf as [_ E].
  assert (Z.of_nat (length td) <= 520) as Hle.
  { apply (f_equal length) in Hnames. rewrite !length_drop in Hnames. lia. }
  destruct (thread_key_spec recp td k Hst H255 Hnames ltac:(by exists dir) (Hb Hjunk) Hl (Hs Hle)) as (recp' & -> & Hl' & Hb' & E2 & Hsk).
  rewrite Z.eqb_refl, E2. rewrite get_bytes_ok by lia. cbn [mbind outcome_bind].
  replace (get k 0 2 + 2) with (2 + get k 0 2) by lia. rewrite Hsk.
  exists (splice (it_key new_iterator) 0 k), x'. split; [done|]. split; [done|].
  destruct (new_iterator_ok) as [Hib Hil].
  assert (slice (splice (it_key new_iterator) 0 k) 0 (Z.of_nat (length k)) = k) as Hsp by (apply slice_splice_same; lia).
  assert (length (splice (it_key new_iterator) 0 k) = 522%nat) as HL by (rewrite splice_length; lia).
  pose proof Hkf as [(Hkb & _ & _) _]. split; [done|].
  split.
  - split; [by apply splice_bytes|]. destruct (slice_get _ k 6 2 ltac:(lia) ltac:(lia) ltac:(lia) Hsp) as [_ E6].
    unfold get in *. rewrite E6. lia.
  - rewrite (names_rank td k Hst Hnames). apply (rank_slice k _ 0); [lia|done|]. apply slice_get; lia || done.
Qed.

(** ** Deleting *)

(** The record that a deletion is for: under the name of the descriptor, or, without one,
    where the thread of the file tells. *)
Definition delete_target (m : hfsmount) (c : catalog) (d : cat_desc) (a : cat_attr) (r : list Z) (id : Z) : Prop :=
  if cd_namelen d =? 0 then id = ca_fileid a /\ exists tk td, c !! thread_at id = Some (tk, td) /\ r = thread_rank td
  else id = cd_cnid d /\ exists key, buildkey m d (it_key new_iterator) false = Ok (0, key) /\ r = catalog_rank_plus key.

(** How a deletion ends: the record and its thread are gone, or none of them, or (if the
    thread cannot be deleted) the record only. *)
Definition deleted (c : catalog) (r : list Z) (id err : Z) (x' : X) : Prop :=
  err = 0 /\ is_Some (c !! r) /\ rep x' (remove_node c r id) /\ catalog_inv (remove_node c r id) \/ err <> 0 /\ rep x' c \/
  fallible /\ err = 0 /\ is_Some (c !! r) /\ rep x' (delete r c).

Lemma cat_delete_spec m x c d a r id : rep x c -> catalog_inv c -> std_hfs m = false -> 16 <= cd_cnid d < 2 ^ 32 -> 0 <= ca_fileid a < 2 ^ 32 ->
  0 <= cd_parentcnid d < 2 ^ 32 -> cd_parentcnid d <> kRootParID -> delete_target m c d a r id ->
  (forall k rec, c !! r = Some (k, rec) -> node_cnid rec = id) ->
  exists err x', cat_delete junk m x d a = Ok (err, x') /\ deleted c r id err x'.
Proof using All.
  intros Hrep Hinv Hstd Hid Hfile Hp Hroot Htarget Hmatch. unfold cat_delete.
  rewrite (proj2 (Z.ltb_ge _ _)) by (unfold kHFSFirstUserCatalogNodeID; lia). rewrite (proj2 (Z.eqb_neq _ _) Hroot). cbn [orb].
  assert (forall e x1, rep x1 c -> MacToVFSError e <> 0 -> exists err x', (x ← ct_flush x1; Ok (MacToVFSError e, x)) = Ok (err, x') /\ deleted c r id err x') as Hfail.
  { intros e x1 H1 He. destruct (law_flush x1 c H1) as (x2 & -> & H2). eexists _, _. split; [done|]. right. by left. }
  match goal with |- context [mbind _ (if cd_namelen d =? 0 then ?A else ?B)] => set (find := if cd_namelen d =? 0 then A else B) end.
  assert (exists key x1, find = Ok (0, key, id, x1) /\ rep x1 c /\ Forall byte key /\ length key = 522%nat /\ catalog_key_plus key /\ catalog_rank_plus key = r /\
    0 <= id < 2 ^ 32 /\ (forall i, r <> thread_at i))
    as (key & x1 & Hfind & Hrep1 & Hkb & Hkl & Hk & Hr & Hid' & Hnt).
  { unfold find, delete_target in *. destruct (cd_namelen d =? 0).
    - destruct Htarget as [-> (tk & td & Htd & ->)]. destruct (getkey_spec m x c _ tk td Hrep Hinv Hstd Hfile Htd) as (key & x1 & Hg & Hrep1 & Hl & Hk & Hr).
      rewrite Hg. cbn [mbind outcome_bind]. exists key, x1. split_and!; try done; try lia; [apply Hk|]. intros i E.
      destruct (ci_thread c Hinv _ _ _ Htd) as (k & d' & Hkd & [Hn0 _] & _ & [_ Hnames]). destruct (ci_key c Hinv _ _ _ Hkd) as (Hst & _).
      apply (name_not_thread k i Hn0). by rewrite <- (names_rank td k Hst Hnames).
    - destruct Htarget as [-> (key & Hkey & ->)]. destruct new_iterator_ok as [Hib Hil].
      destruct (buildkey_plus m d _ false key Hstd Hib ltac:(lia) Hp Hkey) as (Hkf & Hkl & _ & Hkn & _). rewrite Hkey. cbn [mbind outcome_bind].
      exists key, x. rewrite Hil in Hkl. split_and!; try done; try lia; try apply Hkf. intros i. apply name_not_thread. lia. }
  rewrite Hfind. cbn [mbind outcome_bind Z.eqb negb].
  destruct (law_space x1 c Hrep1) as (err & x2 & -> & Hrep2 & Herr). cbn [mbind outcome_bind].
  destruct (Z.eqb_spec err 0) as [->|He]; cbn [negb]; [|destruct Herr as [?|[? _]]; [done|by apply Hfail]].
  destruct (law_delete x2 c (set_key new_iterator key) Hrep2 Hk) as (e & it3 & x3 & -> & Hkey3 & H3). cbn [mbind outcome_bind].
  change (it_key (set_key new_iterator key)) with key in *. rewrite Hr in H3.
  destruct (c !! r) as [[k rec]|] eqn:Hrec; cycle 1. { destruct H3 as [-> Hrep3]. by apply Hfail. }
  destruct H3 as [[-> Hrep3]|(_ & He & Hrep3)]; cycle 1.
  { destruct (other_error_nonzero e He) as [He0 _]. rewrite (proj2 (Z.eqb_neq e 0) He0). cbn [negb]. apply Hfail; [done|apply He]. }
  cbn [Z.eqb negb]. destruct (ci_key c Hinv _ _ _ Hrec) as ((Hkf & _) & Hrk & _).
  assert (0 < get k 6 2) as Hn.
  { pose proof (full_key_range k Hkf). destruct (decide (get k 6 2 <= 0)); [|lia]. exfalso. apply (Hnt (get k 2 4)).
    rewrite <- Hrk. by apply no_name_thread. }
  destruct (ci_node c Hinv _ _ _ Hrec Hn) as (_ & tk & td & Htd & _). rewrite (Hmatch _ _ eq_refl) in Htd.
  destruct (set_thread_ok it3 id) as (_ & Hk4 & Hr4); [split; by rewrite Hkey3|done|].
  rewrite Hstd. destruct (law_delete x3 _ (set_key it3 (buildthreadkey id false (it_key it3))) Hrep3 (proj1 Hk4)) as (e & it4 & x4 & -> & _ & H4).
  cbn [mbind outcome_bind]. rewrite Hr4, lookup_delete_ne, Htd in H4 by (by intros E; apply (Hnt id)).
  destruct H4 as [[-> Hrep4]|(Hfal & _ & Hrep4)]; cycle 1.
  { destruct (law_flush _ _ (law_trash x4 _ (cd_parentcnid d) Hrep4)) as (x5 & -> & Hrep5). cbn [mbind outcome_bind].
    eexists _, _. split; [done|]. right. right. split; [done|]. split; [done|]. by rewrite Hrec. }
  destruct (law_flush _ _ (law_trash x4 _ (cd_parentcnid d) Hrep4)) as (x5 & -> & Hrep5). cbn [mbind outcome_bind].
  eexists _, _. split; [done|]. left. split; [done|]. split; [by rewrite Hrec|]. split; [done|].
  rewrite <- (Hmatch _ _ eq_refl). by apply (remove_node_inv c r k rec).
Qed.

(** ** Renaming *)

(** The way up from a folder: the parents that the threads tell, until the root. *)
Inductive path (c : catalog) : Z -> list Z -> Prop :=
| path_root id : id <= fsRtDirID -> path c id []
| path_up id tk td l : fsRtDirID < id < 2 ^ 32 -> c !! thread_at id = Some (tk, td) -> path c (get td 4 4) l -> path c id (get td 4 4 :: l).

(** The thread of [id], searched for, in a buffer. *)
Lemma search_thread x c key id tk td recp : rep x c -> catalog_inv c -> Forall byte key -> length key = 522%nat -> 0 <= id < 2 ^ 32 ->
  c !! thread_at id = Some (tk, td) -> Forall byte recp -> length recp = 520%nat ->
  let key' := buildthreadkey id false key in
  exists it' n recp' x', ct_search x (set_key new_iterator key') recp false = Ok (0, it', recp', n, x') /\ rep x' c /\ Forall byte recp' /\
    length recp' = 520%nat /\ getparentcnid recp' = Ok (get td 4 4) /\ Forall byte key' /\ length key' = 522%nat.
Proof using All.
  intros Hrep Hinv Hkb Hkl Hid Htd Hb Hl key'. destruct (buildthreadkey_plus id key Hkb ltac:(lia) Hid) as (Hk & Hkl' & Hr & _).
  destruct (law_search x c (set_key new_iterator key') recp false Hrep (proj1 Hk) eq_refl Hl) as (err & it' & recp' & n & x' & -> & Hrep' & Hl' & Hcase).
  change (catalog_rank_plus (it_key (set_key new_iterator key'))) with (catalog_rank_plus key') in Hcase. unfold key' in Hcase. rewrite Hr in Hcase. fold (thread_at id) in Hcase.
  rewrite Htd in Hcase. destruct Hcase as (-> & -> & Hs & Hb' & _).
  destruct (ci_thread c Hinv id tk td Htd) as (k & d & Hkd & _ & _ & [(dir & _ & Hkind) Hnames]). destruct (ci_key c Hinv _ _ _ Hkd) as ([Hkf Hks] & _ & _ & H255).
  pose proof (full_key_range k Hkf) as (H0 & _ & _). pose proof Hkf as [_ E].
  assert (Z.of_nat (length td) = 4 + get k 0 2) as Htl.
  { apply (f_equal length) in Hnames. rewrite !length_drop in Hnames. lia. }
  specialize (Hs ltac:(lia)). eexists _, _, _, _. split; [done|]. split_and!; try done; [by apply Hb'| |apply Hk|unfold key'; lia].
  unfold getparentcnid. assert (recordType recp' = thread_kind dir) as Hkind'.
  { rewrite <- Hkind. unfold recordType. f_equal. apply slice_get; lia || done. }
  rewrite Hkind'. destruct (slice_get recp' td 4 4 ltac:(lia) ltac:(lia) ltac:(lia) Hs) as [_ ->]. by destruct dir.
Qed.

(** The check of a move: it fails when the folder is on the way up. *)
Lemma check_path_spec c cnid id l : catalog_inv c -> path c id l -> forall fuel m x key recp, rep x c -> std_hfs m = false ->
  Forall byte key -> length key = 522%nat -> Forall byte recp -> length recp = 520%nat -> (length l < fuel)%nat ->
  exists recp' x', check_path fuel m x cnid id key recp = Ok (if decide (cnid ∈ l) then EINVAL else 0, recp', x') /\ rep x' c /\
    Forall byte recp' /\ length recp' = 520%nat.
Proof using All.
  intros Hinv. induction 1 as [id Hid|id tk td l Hid Htd Hpath IH]; intros fuel m x key recp Hrep Hstd Hkb Hkl Hb Hl Hfuel;
    (destruct fuel as [|fuel]; [lia|]); cbn [check_path].
  - rewrite (proj2 (Z.ltb_ge _ _)) by lia. exists recp, x. split_and!; try done.
  - rewrite (proj2 (Z.ltb_lt _ _)) by lia. rewrite Hstd.
    destruct (search_thread x c key id tk td recp Hrep Hinv Hkb Hkl ltac:(unfold fsRtDirID in Hid; lia) Htd Hb Hl)
      as (it' & n & recp1 & x1 & -> & Hrep1 & Hb1 & Hl1 & Hpar & Hkb1 & Hkl1).
    cbn [mbind outcome_bind Z.eqb negb]. rewrite Hpar. cbn [mbind outcome_bind].
    destruct (Z.eqb_spec (get td 4 4) cnid) as [E|E].
    + exists recp1, x1. rewrite decide_True by (rewrite E; left). done.
    + destruct (IH fuel m x1 (buildthreadkey id false key) recp1) as (recp2 & x2 & -> & ?); try done; [cbn [length] in Hfuel; lia|].
      exists recp2, x2. split; [|done]. do 4 f_equal. case_decide as H1; case_decide as H2; try done.
      * exfalso. apply H2. by right.
      * exfalso. apply H1. apply elem_of_cons in H2 as [H2|H2]; [by subst|done].
Qed.

Lemma rename_exit_spec m x c result out : rep x c -> exists x', rename_exit m x result out = Ok (MacToVFSError result, out, m, x') /\ rep x' c.
Proof using CatalogTreeLaws0.
  intros H. unfold rename_exit. destruct (law_flush x c H) as (x' & -> & H'). by exists x'.
Qed.

(** The outcome: moved, with its thread, or not at all, or (if the thread cannot be
    deleted, or not be inserted any more) moved with the old thread or without one. *)
Definition renamed (c : catalog) (r : list Z) (d key : buffer) (err : Z) (x' : X) : Prop :=
  (err = 0 /\ (c !! catalog_rank_plus key = None \/ catalog_rank_plus key = r) /\
     exists d' tk td, same_but_encoding d d' /\
       rep x' (add_node (remove_node c r (node_cnid d)) (key_trim key) d' tk td) /\
       catalog_inv (add_node (remove_node c r (node_cnid d)) (key_trim key) d' tk td)) \/
  (rep x' c /\ (err <> 0 \/ err = 0 /\ is_Some (c !! catalog_rank_plus key) /\ catalog_rank_plus key <> r)) \/
  (fallible /\ err <> 0 /\ exists d', same_but_encoding d d' /\
     (rep x' (<[catalog_rank_plus key := (key_trim key, d')]> (remove_node c r (node_cnid d))) \/
      rep x' (<[catalog_rank_plus key := (key_trim key, d')]> (delete r c)))).

(** Both records are written: the thread follows. *)
Lemma rename_thread_spec m x c d1 w dir from_it to_it recp enc r k d d' key : catalog_inv c -> std_hfs m = false -> c !! r = Some (k, d) -> 0 < get k 6 2 ->
  cd_cnid d1 = node_cnid d -> 0 <= node_cnid d < 2 ^ 32 -> recordType d = record_kind dir ->
  it_ok from_it -> it_ok to_it -> key = it_key to_it -> full_key key -> 0 < get key 6 2 <= 255 -> (c !! catalog_rank_plus key = None \/ catalog_rank_plus key = r) ->
  Forall byte recp -> length recp = 520%nat -> same_but_encoding d d' -> Forall byte d' ->
  rep x (<[catalog_rank_plus key := (key_trim key, d')]> (delete r c)) ->
  exists err out m' x', rename_thread m x d1 w dir false from_it to_it recp enc = Ok (err, out, m', x') /\ renamed c r d key err x'.
Proof using All.
  intros Hinv Hstd Hr Hn Hd1 Hid Hkind Hfrom Hto -> Hk Hkn Hfree Hb Hl Hsame Hd'b Hrep. set (key := it_key to_it) in *. set (id := node_cnid d) in *.
  destruct (ci_key c Hinv _ _ _ Hr) as ((Hkf & _) & Hrk & _). destruct (ci_node c Hinv _ _ _ Hr Hn) as (Hnode & tk0 & td0 & Htd0 & _).
  assert (r <> thread_at id) as Hrt by (rewrite <- Hrk; by apply name_not_thread).
  assert (catalog_rank_plus key <> thread_at id) as Hkt by (apply name_not_thread; lia).
  unfold rename_thread. rewrite Hd1, Hstd. fold key.
  destruct (set_thread_ok from_it id Hfrom Hid) as (Hit1 & Hk1 & Hr1). set (it1 := set_key from_it (buildthreadkey id false (it_key from_it))) in *.
  destruct (law_delete x _ it1 Hrep (proj1 Hk1)) as (e & it2 & x2 & -> & Hkey2 & H2). cbn [mbind outcome_bind].
  rewrite Hr1, lookup_insert_ne, lookup_delete_ne in H2 by done. unfold id in H2 at 1. rewrite Htd0 in H2.
  pose proof (buildthread_plus key recp dir Hk ltac:(lia) Hb Hl) as Hth. destruct (buildthread key recp false dir) as [n td].
  destruct Hth as (Hnn & Htl & Htb & Htk & Htn). pose proof (full_key_range key Hk) as (_ & Hkr & _). pose proof Hk as [_ Ek].
  destruct (set_thread_ok it2 id) as (Hit3 & Hk3 & Hr3); [split; rewrite Hkey2; apply Hit1|done|].
  set (it3 := set_key it2 (buildthreadkey id false (it_key it2))) in *.
  assert (exists err it4 x4, ct_insert x2 it3 td n = Ok (err, it4, x4) /\
    (err = 0 /\ rep x4 (<[thread_at id := (key_trim (it_key it3), take (Z.to_nat n) td)]> (<[catalog_rank_plus key := (key_trim key, d')]> (remove_node c r id))) \/
     fallible /\ MacToVFSError err <> 0 /\ (rep x4 (<[catalog_rank_plus key := (key_trim key, d')]> (remove_node c r id)) \/
       rep x4 (<[catalog_rank_plus key := (key_trim key, d')]> (delete r c))))) as (err & it4 & x4 & Hins & H4).
  { destruct H2 as [[-> Hrep2]|(Hfal & _ & Hrep2)].
    - rewrite delete_insert_ne in Hrep2 by done. fold (remove_node c r id) in Hrep2.
      destruct (law_insert x2 _ it3 td n Hrep2 Hk3 Htb ltac:(lia)) as (err & it4 & x4 & Hins & _ & H4). exists err, it4, x4. split; [done|].
      rewrite Hr3, lookup_insert_ne in H4 by done. unfold remove_node in H4 at 1. rewrite lookup_delete_eq in H4.
      destruct H4 as [H4|(Hfal & He & Hrep4)]; [by left|]. right. split_and!; [done|apply He|by left].
    - destruct (law_insert x2 _ it3 td n Hrep2 Hk3 Htb ltac:(lia)) as (err & it4 & x4 & Hins & _ & H4). exists err, it4, x4. split; [done|].
      rewrite Hr3, lookup_insert_ne, lookup_delete_ne in H4 by done. unfold id in H4 at 1. rewrite Htd0 in H4. destruct H4 as (-> & _ & Hrep4).
      right. split_and!; [done|done|by right]. }
  rewrite Hins. cbn [mbind outcome_bind].
  assert (exists out, (if w then d0 ← lookup_desc m key id (hint_nodeNum (it_hint to_it)) enc dir; Ok (Some d0) else Ok None) = Ok out) as [out ->].
  { destruct w; [|by eexists]. unfold lookup_desc. rewrite Hstd. cbn [mbind outcome_bind]. rewrite builddesc_name by lia. by eexists. }
  cbn [mbind outcome_bind]. destruct (key_trim_stored key Hk) as (Hst & Hrkt & _ & _ & _ & E6).
  pose proof Hsame as (HL & Ht & Hdr). destruct Hnode as [_ (dir' & Hkind' & Hdl)].
  assert (forall p z, 0 <= p -> 0 <= z -> p + z <= 80 -> get d' p z = get d p z) as Hget.
  { intros p z Hp Hz Hpz. rewrite <- (get_take d' 80), Ht, get_take by lia. done. }
  assert (node_cnid d' = id) as Hid' by (unfold id, node_cnid; apply Hget; lia).
  assert (recordType d' = recordType d) as Hkd by (unfold recordType; f_equal; apply Hget; lia).
  destruct H4 as [[-> Hrep4]|(Hfal & He & Hrep4)].
  - destruct (rename_exit_spec m x4 _ 0 out Hrep4) as (x5 & -> & Hrep5). eexists _, _, _, _. split; [done|]. left. split; [done|]. split; [done|].
    destruct (key_trim_stored _ Hk3) as (Hst3 & Hrk3 & _). rewrite Hr3 in Hrk3.
    exists d', (key_trim (it_key it3)), (take (Z.to_nat n) td). split; [done|].
    rewrite insert_insert_ne in Hrep5 by done. unfold add_node. rewrite Hrkt, Hid'. split; [done|].
    pose proof (add_node_inv (remove_node c r id) (key_trim key) d' (key_trim (it_key it3)) (take (Z.to_nat n) td)) as Hadd.
    unfold add_node in Hadd. rewrite Hrkt, Hid' in Hadd. apply Hadd; try done; try lia.
    + by apply (remove_node_inv c r k d).
    + unfold remove_node. rewrite lookup_delete_ne by done. destruct Hfree as [Hfree| ->]; [|apply lookup_delete_eq].
      rewrite lookup_delete_ne; [done|]. intros E. by rewrite <- E, Hr in Hfree.
    + unfold remove_node. apply lookup_delete_eq.
    + split; [rewrite E6; lia|]. exists dir'. by rewrite Hkd, HL.
    + by apply Forall_take.
    + split; [|done]. exists dir. by rewrite Hkd.
  - destruct Hrep4 as [Hrep4|Hrep4]; destruct (rename_exit_spec m x4 _ err out Hrep4) as (x5 & -> & Hrep5);
      eexists _, _, _, _; (split; [done|]); right; right; (split; [done|]); (split; [done|]); exists d'; (split; [done|]); [by left|by right].
Qed.

Lemma rename_case_spec x c d1 d2 from_it to_it recp r k d key : rep x c -> catalog_inv c -> c !! r = Some (k, d) -> 0 < get k 6 2 -> from_ok from_it r k ->
  it_ok to_it -> hint_nodeNum (it_hint to_it) = 0 -> key = it_key to_it -> full_key key -> 0 < get key 6 2 -> is_Some (c !! catalog_rank_plus key) ->
  Forall byte recp -> length recp = 520%nat -> recordType recp = recordType d -> cd_cnid d1 = node_cnid d ->
  cd_parentcnid d1 = get k 2 4 -> cd_parentcnid d2 = get key 2 4 ->
  fallible /\ rename_case x d1 d2 from_it to_it recp = Panic "cat_create: could not undo" \/
  exists result gone from_it' to_it' recp' x', rename_case x d1 d2 from_it to_it recp = Ok (result, gone, from_it', to_it', recp', x') /\
    it_ok from_it' /\ it_ok to_it' /\ it_key to_it' = key /\ Forall byte recp' /\ length recp' = 520%nat /\
    (gone = true /\ catalog_rank_plus key = r /\ rep x' (<[r := (key_trim key, d)]> (delete r c)) \/
     gone = false /\ rep x' c /\ (MacToVFSError result <> 0 \/ MacToVFSError result = 0 /\ catalog_rank_plus key <> r)).
Proof using All.
  intros Hrep Hinv Hr Hn (Hfi & Hff & Hfr & Hft) Hto Hhint -> Hk Hkn [[k2 rec2] H2] Hb Hl Htype Hcnid Hp1 Hp2. set (key := it_key to_it) in *.
  destruct (ci_key c Hinv _ _ _ Hr) as (_ & Hrk & Hdb & _). destruct (ci_node c Hinv _ _ _ Hr Hn) as ([_ (dir & Hkind & Hdl)] & _).
  unfold rename_case. destruct (Z.eqb_spec (cd_parentcnid d1) (cd_parentcnid d2)) as [Hpp|Hpp]; cbn [negb]; cycle 1.
  { right. eexists _, _, _, _, _, _. split; [done|]. split_and!; try done. right. split_and!; try done. by left. }
  destruct (law_search x c to_it recp false Hrep (proj1 Hk) Hhint Hl) as (err & it' & recp2 & n & x2 & -> & Hrep2 & Hl2 & Hcase).
  fold key in Hcase. rewrite H2 in Hcase. destruct Hcase as (-> & -> & Hs2 & Hb2 & _). cbn [mbind outcome_bind].
  destruct (ci_key c Hinv _ _ _ H2) as ((Hk2 & _) & Hrk2 & _).
  assert (0 < get k2 6 2) as Hn2.
  { destruct (decide (get k2 6 2 <= 0)) as [Hle|]; [|lia]. exfalso. apply (name_not_thread key (get k2 2 4) Hkn). rewrite <- Hrk2. by apply no_name_thread. }
  destruct (ci_node c Hinv _ _ _ H2 Hn2) as ([_ (dir2 & Hkind2 & Hdl2)] & _).
  specialize (Hs2 ltac:(destruct dir2; lia)). destruct (found_node rec2 recp2 dir2 Hkind2 ltac:(destruct dir2; lia) Hs2) as [Ht2 Hc2].
  assert (forall result, MacToVFSError result = 0 -> catalog_rank_plus key <> r -> exists result' gone from_it' to_it' recp' x',
    Ok (result, false, from_it, to_it, recp2, x2) = Ok (result', gone, from_it', to_it', recp', x') /\
    it_ok from_it' /\ it_ok to_it' /\ it_key to_it' = key /\ Forall byte recp' /\ length recp' = 520%nat /\
    (gone = true /\ catalog_rank_plus key = r /\ rep x' (<[r := (key_trim key, d)]> (delete r c)) \/
     gone = false /\ rep x' c /\ (MacToVFSError result' <> 0 \/ MacToVFSError result' = 0 /\ catalog_rank_plus key <> r))) as Hsib.
  { intros result Hres Hne. eexists _, _, _, _, _, _. split; [done|]. split_and!; try done; [by apply Hb2|]. right. split_and!; try done. by right. }
  rewrite Ht2, Htype. destruct (decide (catalog_rank_plus key = r)) as [Heq|Hne]; cycle 1.
  - (* another file of the directory *)
    right. destruct (negb (recordType d =? recordType rec2)); cbn [mbind outcome_bind negb]; [by apply Hsib|].
    rewrite Hc2. cbn [mbind outcome_bind]. destruct (Z.eqb_spec (cd_cnid d1) (node_cnid rec2)) as [E|E]; [|by apply Hsib].
    exfalso. apply Hne. symmetry. apply (cnid_unique c r k d _ k2 rec2); try done. by rewrite <- Hcnid.
  - rewrite Heq, Hr in H2. injection H2 as <- <-. rewrite Z.eqb_refl, Hc2, Hcnid. cbn [negb mbind outcome_bind]. rewrite Z.eqb_refl. cbn [negb].
    destruct (law_delete x2 c from_it Hrep2 (proj1 Hff)) as (e & it3 & x3 & -> & Hkey3 & H3). cbn [mbind outcome_bind].
    rewrite Hfr, Hr in H3. destruct H3 as [[-> Hrep3]|(_ & He & Hrep3)]; cycle 1.
    { destruct (other_error_nonzero e He) as [He0 _]. rewrite (proj2 (Z.eqb_neq e 0) He0). right. cbn [negb]. eexists _, _, _, _, _, _. split; [done|].
      split_and!; try done; try (by apply Hb2); [split; rewrite Hkey3; apply Hfi|]. right. split_and!; try done. left. apply He. }
    cbn [Z.eqb negb]. assert (take (Z.to_nat (Z.of_nat (length d))) recp2 = d) as Htake by exact Hs2.
    destruct (law_insert x3 _ to_it recp2 (Z.of_nat (length d)) Hrep3 Hk (Hb2 Hb) ltac:(destruct dir; lia)) as (e & it4 & x4 & -> & Hkey4 & H4).
    cbn [mbind outcome_bind]. fold key in H4. rewrite Heq, lookup_delete_eq, Htake in H4. destruct H4 as [[-> Hrep4]|(_ & He & Hrep4)].
    + right. eexists _, _, _, _, _, _. split; [done|]. split_and!; try done; try (by apply Hb2).
      * split; rewrite Hkey3; apply Hfi.
      * split; rewrite Hkey4; apply Hto.
      * left. done.
    + destruct (other_error_nonzero e He) as [He0 _]. rewrite (proj2 (Z.eqb_neq e 0) He0). cbn [negb].
      destruct (law_insert x4 _ it3 recp2 (Z.of_nat (length d)) Hrep4 ltac:(by rewrite Hkey3) (Hb2 Hb) ltac:(destruct dir; lia)) as (e5 & it5 & x5 & -> & Hkey5 & H5).
      cbn [mbind outcome_bind]. rewrite Hkey3, Hfr, lookup_delete_eq, Hft, Htake in H5. destruct H5 as [[-> Hrep5]|(Hfal & He5 & Hrep5)].
      * rewrite insert_delete_id in Hrep5 by done. right. cbn [Z.eqb negb]. eexists _, _, _, _, _, _. split; [done|]. split_and!; try done; try (by apply Hb2).
        -- split; rewrite Hkey5, Hkey3; apply Hfi.
        -- split; rewrite Hkey4; apply Hto.
        -- right. split_and!; try done. left. apply He.
      * destruct (other_error_nonzero e5 He5) as [He50 _]. rewrite (proj2 (Z.eqb_neq e5 0) He50). by left.
Qed.

Lemma rename_record_spec m m1 x c d1 d2 w key1 key2 recp k d : rep x c -> catalog_inv c -> std_hfs m = false ->
  Forall byte key1 -> length key1 = 522%nat -> full_key key1 -> c !! catalog_rank_plus key1 = Some (k, d) -> 0 < get key1 6 2 ->
  Forall byte key2 -> length key2 = 522%nat -> full_key key2 -> 0 < get key2 6 2 <= 255 ->
  Forall byte recp -> length recp = 520%nat -> cd_cnid d1 = node_cnid d -> 0 <= node_cnid d < 2 ^ 32 ->
  recordType d = record_kind (negb (Z.land (cd_flags d1) CD_ISDIR =? 0)) -> cd_parentcnid d1 = get key1 2 4 -> cd_parentcnid d2 = get key2 2 4 ->
  hfs_setencodingbits m (key_encoding key2) = Ok m1 ->
  let go := rename_record hfs_pickencoding m x d1 d2 w (set_key new_iterator key1) (set_key new_iterator key2) recp in
  fallible /\ go = Panic "cat_create: could not undo" \/
  exists err out m' x', go = Ok (err, out, m', x') /\ renamed c (catalog_rank_plus key1) d key2 err x'.
Proof using All.
  intros Hrep Hinv Hstd Hb1 Hl1 Hk1 Hr Hn1 Hb2 Hl2 Hk2 Hn2 Hb Hl Hcnid Hid Hkind Hp1 Hp2 Henc go. set (r := catalog_rank_plus key1) in *.
  set (dir := negb (Z.land (cd_flags d1) CD_ISDIR =? 0)) in *. destruct (setencodingbits_same m _ m1 Henc) as [Hstd1 _]. rewrite Hstd in Hstd1.
  destruct (ci_key c Hinv _ _ _ Hr) as ((Hkf & Hks) & Hrk & Hdb & H255). pose proof (proj2 Hkf) as Ekf.
  assert (0 < get k 6 2) as Hn.
  { destruct (decide (get k 6 2 <= 0)) as [Hle|]; [|lia]. exfalso. apply (name_not_thread key1 (get k 2 4) Hn1). fold r. rewrite <- Hrk. by apply no_name_thread. }
  destruct (ci_node c Hinv _ _ _ Hr Hn) as ([_ (dir' & Hkind' & Hdl)] & _).
  unfold go, rename_record. fold dir.
  destruct (law_search x c (set_key new_iterator key1) recp true Hrep (proj1 Hk1) eq_refl Hl) as (err & from_it & recp1 & n & x1 & -> & Hrep1 & HL1 & Hcase).
  change (it_key (set_key new_iterator key1)) with key1 in Hcase. fold r in Hcase. rewrite Hr in Hcase.
  destruct Hcase as (-> & -> & Hs & HB1 & Hkey). cbn [mbind outcome_bind Z.eqb negb]. destruct (Hkey eq_refl ltac:(cbn; lia)) as (Hfl & Hfb & Hfs). specialize (Hs ltac:(destruct dir'; lia)).
  assert (from_ok from_it r k) as Hfrom by (rewrite <- Hrk; apply from_key_ok; [split; [by apply Hfb|by rewrite Hfl]|done|done]).
  change (it_key (set_key new_iterator key2)) with key2. fold (key_encoding key2). rewrite Hstd, Henc. cbn [mbind outcome_bind]. rewrite Hstd1. cbn [andb].
  destruct (set_encoding recp1 d (key_encoding key2) dir' Hkind' Hdl (HB1 Hb) HL1 Hs) as (HB2 & HL2 & Ht2 & Hsame & Hd'b).
  set (recp2 := put recp1 80 4 (key_encoding key2)) in *. set (x2 := if negb (cd_parentcnid d1 =? cd_parentcnid d2) then _ else _).
  assert (rep x2 c) as Hrep2 by (unfold x2; destruct (negb (cd_parentcnid d1 =? cd_parentcnid d2)); repeat apply law_trash; exact Hrep1).
  destruct (law_insert x2 c (set_key new_iterator key2) recp2 (Z.of_nat (length d)) Hrep2 Hk2 HB2 ltac:(destruct dir'; lia)) as (e & to_it & x3 & -> & Hkey3 & H3).
  cbn [mbind outcome_bind]. change (it_key (set_key new_iterator key2)) with key2 in Hkey3, H3. rewrite Nat2Z.id in H3.
  assert (it_ok to_it) as Hto by (split; by rewrite Hkey3).
  destruct (c !! catalog_rank_plus key2) as [y|] eqn:H2.
  - destruct H3 as (-> & Hhint & Hrep3). rewrite Z.eqb_refl.
    destruct (rename_case_spec x3 c d1 d2 from_it to_it recp2 r k d key2) as [[Heq ->]|(result & gone & from' & to' & recp' & x4 & -> & Hfi & Hti & Htk & Hrb & Hrl & Hcase)]; try done.
    + lia.
    + rewrite Hp1. apply rank_parent. by rewrite Hrk.
    + by left.
    + right. cbn [mbind outcome_bind]. destruct Hcase as [(-> & Heq & Hrep4)|(-> & Hrep4 & Hres)].
      * apply (rename_thread_spec m1 x4 c d1 w dir from' to' recp' (key_encoding key2) r k d d key2); try done.
        -- by right.
        -- by rewrite Heq.
      * destruct (rename_exit_spec m1 x4 c result None Hrep4) as (x5 & -> & Hrep5). eexists _, _, _, _. split; [done|]. right. left. split; [done|].
        destruct Hres as [?|[? ?]]; [by left|]. right. split_and!; done.
  - destruct H3 as [[-> Hrep3]|(_ & He & Hrep3)].
    + change (0 =? btExists) with false. cbn [Z.eqb negb]. destruct Hfrom as (Hfi & Hff & Hfr & Hft).
      destruct (law_delete x3 _ from_it Hrep3 (proj1 Hff)) as (e & it4 & x4 & -> & Hkey4 & H4). cbn [mbind outcome_bind].
      assert (catalog_rank_plus key2 <> r) as Hne by (intros E; by rewrite E, Hr in H2).
      rewrite Hfr, lookup_insert_ne, Hr in H4 by done. destruct H4 as [[-> Hrep4]|(Hfal & He & Hrep4)]; cycle 1.
      { destruct (other_error_nonzero e He) as [He0 _]. rewrite (proj2 (Z.eqb_neq e 0) He0). cbn [negb].
        destruct (law_delete x4 _ to_it Hrep4 ltac:(rewrite Hkey3; apply Hk2)) as (e5 & it5 & x5 & -> & _ & H5). cbn [mbind outcome_bind].
        rewrite Hkey3, lookup_insert_eq in H5. destruct H5 as [[-> Hrep5]|(_ & He5 & _)].
        - rewrite delete_insert_id in Hrep5 by done. right. cbn [Z.eqb negb].
          destruct (rename_exit_spec m1 x5 c e None Hrep5) as (x6 & -> & Hrep6). eexists _, _, _, _. split; [done|]. right. left. split; [done|]. left. apply He.
        - destruct (other_error_nonzero e5 He5) as [He50 _]. rewrite (proj2 (Z.eqb_neq e5 0) He50). by left. }
      right. cbn [Z.eqb negb]. rewrite delete_insert_ne in Hrep4 by done.
      apply (rename_thread_spec m1 x4 c d1 w dir it4 to_it recp2 (key_encoding key2) r k d (take (length d) recp2) key2); try done.
      * split; rewrite Hkey4; apply Hfi.
      * by left.
    + right. destruct (other_error_nonzero e He) as [He0 HeE]. rewrite (proj2 (Z.eqb_neq _ _) He0), (proj2 (Z.eqb_neq _ _) HeE). cbn [negb].
      destruct (rename_exit_spec m1 x3 c e None Hrep3) as (x5 & -> & Hrep5). eexists _, _, _, _. split; [done|]. right. left. split; [done|]. left. apply He.
Qed.

(** The folder that is moved is on the way from the root to where it would go. *)
Definition moves_into_itself (d1 dt d2 : cat_desc) (l : list Z) : Prop :=
  Z.land (cd_flags d1) CD_ISDIR <> 0 /\ cd_parentcnid d1 <> cd_parentcnid d2 /\ cd_cnid d1 ∈ cd_parentcnid d2 :: cd_parentcnid dt :: l.

Lemma check_move_spec fuel m x c d1 dt d2 l : rep x c -> catalog_inv c -> std_hfs m = false -> path c (cd_parentcnid dt) l -> (length l < fuel)%nat ->
  cd_cnid d1 <> fsRtDirID ->
  exists result recp x', check_move junk fuel m x d1 dt d2 = Ok (result, recp, x') /\ rep x' c /\ Forall byte recp /\ length recp = 520%nat /\
    (result = 0 /\ ~ moves_into_itself d1 dt d2 l \/ result = EINVAL).
Proof using All.
  intros Hrep Hinv Hstd Hpath Hfuel Hroot. unfold check_move, moves_into_itself.
  destruct (Z.eqb_spec (Z.land (cd_flags d1) CD_ISDIR) 0) as [|Hdir]; cbn [negb andb].
  { exists 0, junk, x. split_and!; try done. left. split; [done|]. by intros (? & _). }
  destruct (Z.eqb_spec (cd_parentcnid d1) (cd_parentcnid d2)) as [|Hpar]; cbn [negb andb].
  { exists 0, junk, x. split_and!; try done. left. split; [done|]. by intros (_ & ? & _). }
  rewrite (proj2 (Z.eqb_neq _ _) Hroot). cbn [orb].
  destruct (Z.eqb_spec (cd_cnid d1) (cd_parentcnid d2)) as [|H2]; cbn [orb]. { exists EINVAL, junk, x. split_and!; try done. by right. }
  destruct (Z.eqb_spec (cd_cnid d1) (cd_parentcnid dt)) as [|H3]. { exists EINVAL, junk, x. split_and!; try done. by right. }
  destruct new_iterator_ok as [Hb Hl].
  destruct (check_path_spec c (cd_cnid d1) _ l Hinv Hpath fuel m x (it_key new_iterator) junk Hrep Hstd Hb Hl Hjunk Hjunkl Hfuel) as (recp & x' & -> & ? & ? & ?).
  eexists _, _, _. split; [done|]. split_and!; try done. case_decide as Hin; [by right|]. left. split; [done|].
  intros (_ & _ & Hmem). by rewrite !elem_of_cons in Hmem; destruct Hmem as [|[|]].
Qed.

Lemma cat_rename_spec fuel m m1 x c d1 dt d2 w key1 key2 k d l : rep x c -> catalog_inv c -> std_hfs m = false ->
  0 <= cd_parentcnid d1 < 2 ^ 32 -> 0 <= cd_parentcnid d2 < 2 ^ 32 ->
  buildkey m d1 (it_key new_iterator) false = Ok (0, key1) -> buildkey m d2 (it_key new_iterator) false = Ok (0, key2) ->
  c !! catalog_rank_plus key1 = Some (k, d) -> cd_cnid d1 = node_cnid d -> cd_cnid d1 <> fsRtDirID ->
  recordType d = record_kind (negb (Z.land (cd_flags d1) CD_ISDIR =? 0)) ->
  path c (cd_parentcnid dt) l -> (length l < fuel)%nat -> hfs_setencodingbits m (key_encoding key2) = Ok m1 ->
  let go := cat_rename hfs_pickencoding junk fuel m x d1 dt d2 w in
  fallible /\ go = Panic "cat_create: could not undo" \/
  exists err out m' x', go = Ok (err, out, m', x') /\ renamed c (catalog_rank_plus key1) d key2 err x' /\
    (moves_into_itself d1 dt d2 l -> err <> 0 /\ rep x' c).
Proof using All.
  intros Hrep Hinv Hstd Hp1 Hp2 Hkey1 Hkey2 Hr Hcnid Hroot Hkind Hpath Hfuel Henc go. destruct new_iterator_ok as [Hb Hl].
  destruct (buildkey_plus m d1 _ false key1 Hstd Hb ltac:(lia) Hp1 Hkey1) as (Hk1 & Hl1 & E1 & Hn1 & u1 & Hname1 & _).
  destruct (buildkey_plus m d2 _ false key2 Hstd Hb ltac:(lia) Hp2 Hkey2) as (Hk2 & Hl2 & E2 & Hn2 & u2 & Hname2 & _). rewrite Hl in Hl1, Hl2.
  unfold has_name in Hname1, Hname2. apply negb_true_iff, orb_false_iff in Hname1 as [Hn1' _]. apply negb_true_iff, orb_false_iff in Hname2 as [Hn2' _].
  destruct (ci_key c Hinv _ _ _ Hr) as ((Hkf & _) & Hrk & Hdb & _).
  assert (0 < get k 6 2) as Hn.
  { destruct (decide (get k 6 2 <= 0)) as [Hle|]; [|lia]. exfalso. apply (name_not_thread key1 (get k 2 4)); [lia|]. rewrite <- Hrk. by apply no_name_thread. }
  destruct (ci_node c Hinv _ _ _ Hr Hn) as ([_ (dir' & Hkind' & Hdl)] & _).
  assert (0 <= node_cnid d < 2 ^ 32) as Hid by (apply (get_range d 8 4 Hdb); destruct dir'; lia).
  unfold go, cat_rename. rewrite Hn1', Hn2', Hkey1. cbn [orb mbind outcome_bind Z.eqb negb]. rewrite Hkey2. cbn [mbind outcome_bind Z.eqb negb].
  assert (forall e x1, rep x1 c -> MacToVFSError e <> 0 -> exists err out m' x', rename_exit m x1 e None = Ok (err, out, m', x') /\
    renamed c (catalog_rank_plus key1) d key2 err x' /\ (moves_into_itself d1 dt d2 l -> err <> 0 /\ rep x' c)) as Hfail.
  { intros e x1 H1 He. destruct (rename_exit_spec m x1 c e None H1) as (x2 & -> & H2). eexists _, _, _, _. split; [done|].
    split; [|done]. right. left. split; [done|by left]. }
  destruct (law_space x c Hrep) as (err & x1 & -> & Hrep1 & Herr). cbn [mbind outcome_bind].
  destruct (Z.eqb_spec err 0) as [->|He]; cbn [negb]; [|right; destruct Herr as [?|[? _]]; [done|by apply Hfail]].
  destruct (check_move_spec fuel m x1 c d1 dt d2 l Hrep1 Hinv Hstd Hpath Hfuel Hroot) as (result & recp & x2 & -> & Hrep2 & Hrb & Hrl & [[-> Hok]| ->]);
    cbn [mbind outcome_bind Z.eqb negb]; [|right; by apply Hfail].
  destruct (rename_record_spec m m1 x2 c d1 d2 w key1 key2 recp k d Hrep2) as [[Heq Hgo]|(err & out & m' & x' & Hgo & Hren)]; try done; try (lia || apply Hk1 || apply Hk2).
  - left. done.
  - right. exists err, out, m', x'. done.
Qed.
End operations.

Arguments created {X} rep fallible c m key a j enc err a' m' x'.
Arguments deleted {X} rep fallible c r id err x'.
Arguments renamed {X} rep fallible c r d key err x'.
