(* ===== verification/CatalogLookup.v ===== *)
(** * Looking up in the catalog

    What [cat_lookup] and [cat_idlookup] return for the records of the catalog, and that a
    file or folder that was created is found with the attributes it was created with. *)
From S2P Require Import Prelude Bits VolumeBitmap VolumeAllocation ExtentMapping UtfConv NameMangling Encodings MacTime.
From S2P Require Import Bytes UnicodeCompare BTreeNode BTreeKeys BTreeBlocks BTreeFile NodeSwap Catalog CatalogKeys CatalogTheorems.

Section lookup.
Context {X : Type} `{!CatalogTree X} (rep : X -> catalog -> Prop) {fallible : Prop} `{!CatalogTreeLaws X rep fallible}.
Context (hfs_pickencoding : list Z -> Z) (junk : buffer) (Hjunk : Forall byte junk) (Hjunkl : length junk = 520%nat).

(** The name, the attributes and the fork come from the record that was found. *)
Definition found_record (m : hfsmount) (k d : buffer) (wantrsrc : bool) (w : wanted) (f : found) : Prop :=
  exists recp, length recp = 520%nat /\ slice recp 0 (Z.of_nat (length d)) = d /\
    (want_desc w = true -> exists desc, fo_desc f = Some desc /\ cd_name desc = utf8_of 0x3A (node_name k) /\ cd_parentcnid desc = get k 2 4 /\
       cd_cnid desc = node_cnid d /\ (Z.land (cd_flags desc) CD_ISDIR =? 0) = negb (isadir d)) /\
    (want_attr w = true -> fo_attr f = Some (getbsdattr m recp)) /\
    (want_fork w = true -> fo_fork f = Some (if isadir d then no_fork else copyfork recp (if wantrsrc then 168 else 88))).

(** The record is not that of a hard link. *)
Definition no_link (d : buffer) : Prop := finder_word d 48 <> kHardLinkFileType.

Lemma cat_lookupbykey_spec m x c keyp wantrsrc w k d : rep x c -> catalog_inv c -> std_hfs m = false ->
  full_key keyp -> length keyp = 518%nat -> 0 < get keyp 6 2 -> c !! catalog_rank_plus keyp = Some (k, d) -> no_link d ->
  exists f x', cat_lookupbykey junk m x keyp 0 wantrsrc w = Ok (0, f, x') /\ rep x' c /\ found_record m k d wantrsrc w f.
Proof using All.
  intros Hrep Hinv Hstd Hk Hkl Hn Hr Hlink. destruct (splice_key new_iterator keyp (new_iterator_ok) Hk Hkl) as (Hk1 & Hkb1 & Hkl1 & Htrim & Hrank & Hn1).
  unfold cat_lookupbykey. set (it := set_nodeNum _ 0).
  destruct (law_search x c it junk true Hrep (proj1 Hk1) eq_refl Hjunkl) as (err & it' & recp & n & x' & -> & Hrep' & Hl & Hcase). cbn [mbind outcome_bind].
  change (it_key it) with (splice (it_key new_iterator) 0 keyp) in Hcase. rewrite Hrank, Hr in Hcase. destruct Hcase as (-> & -> & Hs & Hb & Hkey).
  destruct (ci_key c Hinv _ _ _ Hr) as ((Hkf & Hks) & Hrk & Hdb & H255). pose proof (proj2 Hkf) as Ekf.
  assert (0 < get k 6 2) as Hnk.
  { destruct (decide (get k 6 2 <= 0)) as [Hle|]; [|lia]. exfalso. apply (name_not_thread keyp (get k 2 4) Hn). rewrite <- Hrk. by apply no_name_thread. }
  destruct (ci_node c Hinv _ _ _ Hr Hnk) as ([_ (dir & Hkind & Hdl)] & _). specialize (Hs ltac:(destruct dir; lia)).
  change (it_key it) with (splice (it_key new_iterator) 0 keyp) in Hkey. destruct (Hkey eq_refl ltac:(lia)) as (Hil & Hib & Hik). cbn [Z.eqb negb].
  destruct (found_node d recp dir Hkind ltac:(destruct dir; lia) Hs) as [Htype Hcnid]. rewrite Hcnid. cbn [mbind outcome_bind].
  assert (is_hardlink m recp = false) as ->.
  { unfold is_hardlink, finder_word. destruct (slice_get recp d 48 4 ltac:(lia) ltac:(lia) ltac:(destruct dir; lia) Hs) as [-> _].
    fold (finder_word d 48). rewrite (proj2 (Z.eqb_neq _ _) Hlink). by rewrite !andb_false_r. }
  rewrite andb_false_r. cbn [mbind outcome_bind].
  assert (isadir recp = isadir d) as Hdir by (unfold isadir; by rewrite Htype).
  assert (from_ok it' (catalog_rank_plus k) k) as (Hio & Hif & _ & Hit).
  { apply (from_key_ok); [split; [by apply Hib|by rewrite Hil]|done|done]. }
  destruct (key_trim_stored _ Hif) as (_ & _ & Htr & E0 & E2 & E6). rewrite Hit in Htr, E0, E2, E6.
  assert (lookup_desc m (it_key it') (node_cnid d) (hint_nodeNum (it_hint it')) (getencoding recp) (isadir recp) =
    Ok (mkDesc (Z.lor (Z.lor CD_DECOMPOSED CD_HASBUF) (if isadir d then CD_ISDIR else 0)) (u8 (getencoding recp)) (utf8_of 0x3A (node_name k)) (get k 2 4)
      (hint_nodeNum (it_hint it')) (node_cnid d))) as ->.
  { unfold lookup_desc. rewrite Hstd. cbn [mbind outcome_bind]. rewrite builddesc_name by lia. rewrite Hdir, E2. do 3 f_equal.
    unfold node_name. unfold get in *. rewrite <- E6. apply chars_slice; [lia..|].
    apply (f_equal (fun l => slice l 6 (2 * Z.of_nat (Z.to_nat (field k 6 2))))) in Htr. rewrite !slice_slice in Htr by lia. done. }
  exists (mkFound (if want_desc w then Some (mkDesc (Z.lor (Z.lor CD_DECOMPOSED CD_HASBUF) (if isadir d then CD_ISDIR else 0)) (u8 (getencoding recp))
      (utf8_of 0x3A (node_name k)) (get k 2 4) (hint_nodeNum (it_hint it')) (node_cnid d)) else None)
    (if want_attr w then Some (lookup_attr junk m recp 0) else None) (if want_fork w then Some (lookup_fork m recp wantrsrc) else None)), x'.
  split; [by destruct (want_desc w)|]. split; [done|]. exists recp. split; [done|]. split; [done|]. split_and!; intros ->; cbn [fo_desc fo_attr fo_fork].
  - eexists. split; [done|]. split_and!; try done. cbn [cd_flags]. by destruct (isadir d).
  - unfold lookup_attr. rewrite Hstd. done.
  - unfold lookup_fork. rewrite Hdir, Hstd. done.
Qed.

(** ** By number *)

Lemma cat_idlookup_spec m x c id w tk td : rep x c -> catalog_inv c -> std_hfs m = false -> 0 <= id < 2 ^ 32 -> c !! thread_at id = Some (tk, td) ->
  (forall k d, c !! thread_rank td = Some (k, d) -> no_link d) ->
  exists k d f x', c !! thread_rank td = Some (k, d) /\ node_cnid d = id /\ cat_idlookup junk m x id w = Ok (0, f, x') /\ rep x' c /\
    found_record m k d false w f.
Proof using All.
  intros Hrep Hinv Hstd Hid Htd Hlink. destruct (set_thread_ok new_iterator id new_iterator_ok Hid) as (_ & Hk & Hr).
  destruct (ci_thread c Hinv id tk td Htd) as (k & d & Hkd & [Hn _] & Hcnid & [(dir & _ & Hkind) Hnames]).
  destruct (ci_key c Hinv _ _ _ Hkd) as (Hst & _ & _ & H255). pose proof (names_rank td k Hst Hnames) as Hrank.
  unfold cat_idlookup. rewrite Hstd.
  destruct (law_search x c (set_key new_iterator (buildthreadkey id false (it_key new_iterator))) junk true Hrep (proj1 Hk) eq_refl Hjunkl)
    as (err & it' & recp & n & x' & -> & Hrep' & Hl & Hcase). cbn [mbind outcome_bind]. rewrite Hr, Htd in Hcase.
  destruct Hcase as (-> & -> & Hs & Hb & _). cbn [Z.eqb negb].
  pose proof Hst as [Hkf Hkl]. pose proof (full_key_range k Hkf) as (H0 & _ & H8). pose proof Hkf as [_ E].
  assert (Z.of_nat (length td) <= 520) as Hle.
  { apply (f_equal length) in Hnames. rewrite !length_drop in Hnames. lia. }
  destruct (thread_key_spec recp td k Hst H255 Hnames ltac:(by exists dir) (Hb Hjunk) Hl (Hs Hle)) as (recp' & -> & Hl' & Hb' & E2 & Hsk).
  unfold sizeof_CatalogKey. rewrite get_bytes_ok by lia. cbn [mbind outcome_bind].
  assert (Z.of_nat (length (slice recp' 2 518)) = 518) as HL by (apply slice_length; lia).
  assert (slice (slice recp' 2 518) 0 (Z.of_nat (length k)) = k) as Hsk'.
  { rewrite slice_slice by lia. rewrite Hkl. exact Hsk. }
  assert (forall p z, 0 <= p -> 0 <= z -> p + z <= Z.of_nat (length k) -> get (slice recp' 2 518) p z = get k p z) as Hg by (intros; by apply slice_get).
  assert (full_key (slice recp' 2 518)) as Hf.
  { split; [|rewrite !Hg by lia; done]. pose proof (Hg 6 2 ltac:(lia) ltac:(lia) ltac:(lia)) as E6. split; [by apply slice_bytes|].
    unfold get in *. rewrite E6. lia. }
  assert (catalog_rank_plus (slice recp' 2 518) = catalog_rank_plus k) as Hrk.
  { apply (rank_slice k _ 0); [lia|done|]. apply slice_get; lia || done. }
  destruct (cat_lookupbykey_spec m x' c (slice recp' 2 518) false w k d) as (f & x2 & -> & Hrep2 & Hfound); try done; try lia.
  - rewrite Hg by lia. done.
  - by rewrite Hrk.
  - apply (Hlink k d). by rewrite Hrank.
  - exists k, d, f, x2. rewrite Hrank. done.
Qed.

(** ** What was created is found *)

Lemma finder_no_link a d : finder_kept a d -> length (ca_finderinfo a) = 32%nat -> finder_word (ca_finderinfo a) 0 <> kHardLinkFileType -> no_link d.
Proof using All.
  unfold no_link, finder_word. intros Hk Hl Hne. assert (slice d 48 4 = slice (slice d 48 32) 0 4) as -> by (rewrite slice_slice; [done|lia..]).
  destruct Hk as [-> | ->]; [done|]. by vm_compute.
Qed.

Lemma created_found fuel m m1 x c d a w key a' out m' x' m2 : rep x c -> catalog_inv c -> std_hfs m = false -> cnid_range (hm_nxtCNID m) ->
  Z.of_nat (size c) < cnid_count -> (size c < fuel)%nat -> attr_kept a -> finder_word (ca_finderinfo a) 0 <> kHardLinkFileType ->
  0 <= cd_parentcnid d < 2 ^ 32 -> cd_hint d = 0 ->
  buildkey m d (replicate 518 0) false = Ok (0, key) -> hfs_setencodingbits m (key_encoding hfs_pickencoding key) = Ok m1 ->
  cat_create hfs_pickencoding fuel m x d a w = Ok (0, a', out, m', x') ->
  std_hfs m2 = false -> mnt_unknownpermissions m2 = false ->
  exists f x2 desc b, cat_lookup junk m2 x' d false (mkWanted true true false) = Ok (0, f, x2) /\ fo_desc f = Some desc /\ fo_attr f = Some b /\
    cd_cnid desc = ca_fileid a' /\ cd_parentcnid desc = cd_parentcnid d /\ cd_name desc = utf8_of 0x3A (node_name (key_trim key)) /\
    (Z.land (cd_flags desc) CD_ISDIR =? 0) = negb (is_dir a) /\ attr_back a (ca_fileid a') b.
Proof using All.
  intros Hrep Hinv Hstd Hnxt Hsize Hfuel Ha Hlink Hp Hhint Hkey Henc Hcreate Hstd2 Hperm2.
  destruct (cat_create_spec rep hfs_pickencoding fuel m m1 x c d a w key Hrep Hinv Hstd Hnxt Hsize Hfuel (ak_ok a Ha) Hp Hkey Henc)
    as (err & a1 & out1 & m3 & x1 & j & Hrun & _ & Hcr). rewrite Hcreate in Hrun.
  assert (err = 0 /\ a1 = a' /\ x1 = x') as (-> & -> & ->) by (injection Hrun; by intros). clear Hrun.
  destruct Hcr as [(_ & _ & -> & _ & rec & tk & td & Hrep' & Hinv' & Hid & Hfields & Hfinder)|(? & _)]; [|done].
  set (cnid := cnid_after (hm_nxtCNID m) (Z.of_nat j)) in *.
  assert (0 <= cnid < 2 ^ 32) as Hr by (pose proof (cnid_after_range (hm_nxtCNID m) (Z.of_nat j)) as H; unfold cnid_range, kHFSFirstUserCatalogNodeID in H; unfold cnid; lia).
  destruct (buildkey_plus m d (replicate 518 0) false key Hstd ltac:(by apply Forall_replicate) ltac:(by rewrite length_replicate) Hp Hkey)
    as (Hk & _ & Ep & Hn & u & Hname & Hdec & Htrim).
  destruct (buildkey_run m2 d (take (Z.to_nat sizeof_CatalogKey) junk) true u Hstd2) as (key2 & Hkey2 & Htrim2 & Hk2 & Hl2 & _ & En2); try done.
  { by apply Forall_take. } { rewrite length_take, Hjunkl. unfold sizeof_CatalogKey. lia. }
  rewrite length_take, Hjunkl in Hl2. change (Z.to_nat sizeof_CatalogKey `min` 520)%nat with 518%nat in Hl2.
  destruct (key_trim_stored key Hk) as (_ & Hrk & _ & _ & Et2 & Et6). destruct (key_trim_stored key2 Hk2) as (_ & Hrk2 & _). rewrite Htrim2, <- Htrim in Hrk2.
  destruct (decode_name_length d u Hname Hdec) as [_ Hu].
  assert (add_node c (key_trim key) rec tk td !! catalog_rank_plus key2 = Some (key_trim key, rec)) as Hlk.
  { unfold add_node. rewrite Hrk2. apply lookup_insert_eq. }
  destruct (ak_ok a Ha) as [(Hfl & _) _ _ _].
  destruct (cat_lookupbykey_spec m2 x' _ key2 false (mkWanted true true false) (key_trim key) rec Hrep' Hinv' Hstd2 Hk2 Hl2 ltac:(lia) Hlk)
    as (f & x2 & Hrun & _ & recp & Hrl & Hrs & Hdesc & Hattr & _); [by apply (finder_no_link a)|].
  destruct (Hdesc eq_refl) as (desc & Hfd & Hdn & Hdp & Hdc & Hdd). specialize (Hattr eq_refl). cbn [fo_attr] in Hattr.
  exists f, x2, desc, (getbsdattr m2 recp). split.
  { unfold cat_lookup. rewrite Hkey2. cbn [mbind outcome_bind Z.eqb negb]. rewrite Hhint, Hrun. done. }
  assert (0 < get (key_trim key) 6 2) as Hkn by lia.
  destruct (ci_node _ Hinv' _ _ _ Hlk Hkn) as ([_ (dir & Hkind & Hdl)] & _).
  assert (has_fields recp (new_fields a cnid (key_encoding hfs_pickencoding key))) as Hfields'.
  { apply (has_fields_buffer recp rec); [|done|done]. rewrite Hdl. unfold new_fields. by destruct dir, (is_dir a). }
  assert (isadir rec = is_dir a) as Hisdir.
  { unfold isadir, recordType. rewrite (has_field rec _ 0 2 (record_kind (is_dir a)) Hfields) by (unfold new_fields; left). by destruct (is_dir a). }
  split_and!; try done.
  - by rewrite Hdc, Hid.
  - by rewrite Hdp, Et2, Ep.
  - by rewrite Hdd, Hisdir.
  - by apply (getbsdattr_new m2 a cnid (key_encoding hfs_pickencoding key)).
Qed.
End lookup.
