(* ===== verification/CatalogTable.v ===== *)
(** * A catalog in memory, and the theorems on the catalog

    A map is a catalog tree: it satisfies the laws of CatalogTheorems.v, so that the
    routines of Catalog.v can be run on it; so is a map that refuses some of the changes.  The theorems on creating, deleting, renaming
    and looking up follow, each with a run on such a catalog. *)
From S2P Require Import Prelude Bits VolumeBitmap VolumeAllocation ExtentMapping UtfConv NameMangling Encodings MacTime.
From S2P Require Import Bytes UnicodeCompare BTreeNode BTreeKeys BTreeBlocks BTreeFile NodeSwap Catalog CatalogKeys CatalogTheorems CatalogLookup.

(** ** The table *)

Definition table_search (x : catalog) (it : BTreeIterator) (recp : buffer) (w : bool) : outcome (Z * BTreeIterator * buffer * Z * catalog) :=
  match x !! catalog_rank_plus (it_key it) with
  | Some (k, d) =>
      Ok (0, if w && bool_decide (length k <= length (it_key it))%nat then set_key it (splice (it_key it) 0 k) else it,
          if bool_decide (length d <= length recp)%nat then splice recp 0 d else recp, Z.of_nat (length d), x)
  | None => Ok (btNotFound, it, recp, 0, x)
  end.

Definition table_insert (x : catalog) (it : BTreeIterator) (data : buffer) (n : Z) : outcome (Z * BTreeIterator * catalog) :=
  match x !! catalog_rank_plus (it_key it) with
  | Some _ => Ok (btExists, set_hint it no_hint, x)
  | None => Ok (0, it, <[catalog_rank_plus (it_key it) := (key_trim (it_key it), take (Z.to_nat n) data)]> x)
  end.

Definition table_delete (x : catalog) (it : BTreeIterator) : outcome (Z * BTreeIterator * catalog) :=
  match x !! catalog_rank_plus (it_key it) with
  | Some _ => Ok (0, it, delete (catalog_rank_plus (it_key it)) x)
  | None => Ok (btNotFound, it, x)
  end.

#[export] Instance table_tree : CatalogTree catalog := {
  ct_search := table_search;
  ct_insert := table_insert;
  ct_replace x it data n :=
    match x !! catalog_rank_plus (it_key it) with
    | Some (k, _) => Ok (0, it, <[catalog_rank_plus (it_key it) := (k, take (Z.to_nat n) data)]> x)
    | None => Ok (btNotFound, it, x)
    end;
  ct_delete := table_delete;
  ct_update x it f :=
    match x !! catalog_rank_plus (it_key it) with
    | Some (k, d) => '(err, d) ← f k d; Ok (err, it, <[catalog_rank_plus (it_key it) := (k, d)]> x)
    | None => Ok (btNotFound, it, x)
    end;
  ct_free_space x := Ok (0, x);
  ct_flush x := Ok x;
  ct_trash x _ := x
}.

(** The records are bytes. *)
Definition table_rep (x c : catalog) : Prop := x = c /\ map_Forall (fun _ e => Forall byte e.1 /\ Forall byte e.2) c.

#[export] Instance table_laws : CatalogTreeLaws catalog table_rep False.
Proof.
  split.
  - intros x c it recp w [-> Hc] Hk _ Hl. cbn [ct_search table_tree]. unfold table_search.
    destruct (c !! catalog_rank_plus (it_key it)) as [[k d]|] eqn:E; [|by eexists _, _, _, _, _].
    destruct (Hc _ _ E) as [Hkb Hdb]. cbn [fst snd] in *. eexists _, _, _, _, _. split; [done|]. split; [done|]. rewrite Hl.
    split. { case_bool_decide; [rewrite splice_length; lia|done]. }
    split; [done|]. split; [done|]. split. { intros Hn. rewrite bool_decide_true by lia. apply slice_splice_same; lia. }
    split. { intros Hb. case_bool_decide; [by apply splice_bytes|done]. }
    intros -> Hkl. cbn [andb]. rewrite bool_decide_true by done. cbn [set_key it_key]. split; [apply splice_length; lia|].
    split; [intros Hb; by apply splice_bytes|]. apply slice_splice_same; lia.
  - intros x c it data n [-> Hc] Hk Hb Hn. cbn [ct_insert table_tree]. unfold table_insert.
    destruct (c !! catalog_rank_plus (it_key it)) as [y|] eqn:E.
    + eexists _, _, _. split; [done|]. done.
    + eexists _, _, _. split; [done|]. split; [done|]. left. split; [done|]. split; [done|]. apply map_Forall_insert; [done|].
      split; [|done]. split; [apply slice_bytes, Hk|by apply Forall_take].
  - intros x c it [-> Hc] Hk. cbn [ct_delete table_tree]. unfold table_delete.
    destruct (c !! catalog_rank_plus (it_key it)) as [y|] eqn:E; eexists _, _, _; (split; [done|]); (split; [done|]); [|done].
    left. split; [done|]. split; [done|]. by apply map_Forall_delete.
  - intros x c H. by exists 0, x; eauto.
  - intros x c H. by exists x.
  - done.
Qed.

(** ** A catalog with a folder and a file *)

(** A volume of HFS Plus uses no converter. *)
Definition no_converter : converter := mkConverter (fun _ _ _ => Ok (EINVAL, [], 0)) (fun _ _ => Ok (EINVAL, [])).
Definition sample_mount : hfsmount :=
  mkMount 0x482B 16 0 0 4096 0 0 501 20 0x1ED 0x1ED 0 no_converter 0 0 false 0.
Definition sample_junk : buffer := replicate 520 7.
Definition sample_encoding (_ : list Z) : Z := 0.
Definition sample_desc (parent flags cnid : Z) (name : list Z) : cat_desc := mkDesc flags 0 name parent 0 cnid.
Definition sample_attr (mode : Z) : cat_attr := mkAttr 0 mode 1 501 20 0 0 0 0 0 1000000 0 0x1 0 (replicate 32 0).
Definition run_state {A} (r : outcome (Z * cat_attr * option cat_desc * hfsmount * A)) (x : A) : hfsmount * A :=
  match r with Ok (_, _, _, m, x) => (m, x) | _ => (sample_mount, x) end.

(** The folder [d] (16) in the root, and in it the file [a] (17). *)
Definition sample1 : hfsmount * catalog := Eval vm_compute in
  run_state (cat_create sample_encoding 1 sample_mount (∅ : catalog) (sample_desc 2 0 0 [100]) (sample_attr 0x41ED) false) ∅.
Definition sample2 : hfsmount * catalog := Eval vm_compute in
  run_state (cat_create sample_encoding 3 sample1.1 sample1.2 (sample_desc 16 0 0 [97]) (sample_attr 0x81A4) false) ∅.

Lemma empty_inv : catalog_inv ∅.
Proof. split; intros *; by rewrite lookup_empty. Qed.

Lemma empty_rep : table_rep ∅ ∅.
Proof. split; [done|]. apply map_Forall_empty. Qed.

Lemma sample_attr_ok mode : 0 <= mode < 2 ^ 16 -> attr_ok (sample_attr mode).
Proof. intros. split; cbn [sample_attr ca_mode ca_uid ca_gid ca_finderinfo]; try lia. split; [done|]. by apply Forall_replicate. Qed.

(** One more file in a catalog in memory. *)
Lemma create_state (m : hfsmount) (x : catalog) fuel d a key m1 st : table_rep x x -> catalog_inv x -> std_hfs m = false -> cnid_range (hm_nxtCNID m) ->
  Z.of_nat (size x) < cnid_count -> (size x < fuel)%nat -> attr_ok a -> 0 <= cd_parentcnid d < 2 ^ 32 ->
  buildkey m d (replicate 518 0) false = Ok (0, key) -> hfs_setencodingbits m (key_encoding sample_encoding key) = Ok m1 ->
  run_state (cat_create sample_encoding fuel m x d a false) ∅ = st -> table_rep st.2 st.2 /\ catalog_inv st.2.
Proof.
  intros Hrep Hinv Hstd Hn Hs Hf Ha Hp Hk He Hst.
  destruct (cat_create_spec table_rep sample_encoding fuel m m1 x x d a false key Hrep Hinv Hstd Hn Hs Hf Ha Hp Hk He) as (err & a' & out & m' & x' & j & Hrun & _ & Hcr).
  rewrite Hrun in Hst. cbn [run_state] in Hst. subst st. cbn [snd]. destruct Hcr as [(_ & _ & _ & _ & r & tk & td & H & Hinv' & _)|(_ & [H|[[] _]] & _)].
  - destruct H as [-> ?]. by split.
  - destruct H as [-> ?]. by split.
Qed.

Lemma sample1_ok : table_rep sample1.2 sample1.2 /\ catalog_inv sample1.2.
Proof.
  eapply (create_state sample_mount ∅ 1 (sample_desc 2 0 0 [100]) (sample_attr 0x41ED)).
  - apply empty_rep.
  - apply empty_inv.
  - reflexivity.
  - by vm_compute.
  - by vm_compute.
  - by vm_compute; lia.
  - apply sample_attr_ok. lia.
  - cbn. lia.
  - vm_compute. reflexivity.
  - vm_compute. reflexivity.
  - vm_compute. reflexivity.
Qed.

Ltac compute_goal := vm_compute; (reflexivity || (intros; discriminate) || lia).

Lemma sample2_ok : table_rep sample2.2 sample2.2 /\ catalog_inv sample2.2.
Proof.
  eapply (create_state sample1.1 sample1.2 3 (sample_desc 16 0 0 [97]) (sample_attr 0x81A4)).
  - apply sample1_ok.
  - apply sample1_ok.
  - reflexivity.
  - split; compute_goal.
  - compute_goal.
  - compute_goal.
  - apply sample_attr_ok. lia.
  - cbn. lia.
  - vm_compute. reflexivity.
  - vm_compute. reflexivity.
  - vm_compute. reflexivity.
Qed.

Definition key_of_desc (m : hfsmount) (d : cat_desc) (b : buffer) : buffer :=
  match buildkey m d b false with Ok (_, key) => key | _ => [] end.

(** ** The theorems *)

Section theorems.
Context {X : Type} `{!CatalogTree X} (rep : X -> catalog -> Prop) {fallible : Prop} `{!CatalogTreeLaws X rep fallible}.
Context (hfs_pickencoding : list Z -> Z).

(** C17: [cat_create] on an HFS Plus volume, for a name that makes a key and whose text
    encoding has a bit in the volume header (else the shift of [hfs_setencodingbits] is
    undefined), always returns while a number is free.  Either the catalog has a new record under the name and a new
    thread under the first free number from the next one on (around the end, past the numbers
    in use), with the invariant kept and the counter behind that number; or an error is
    returned and the catalog is what it was, also when the thread was already inserted, unless
    the B-tree then fails to delete the thread again, which stays.  EEXIST is returned only if
    the name was there.  The B-tree is any that satisfies the laws of the interface; a failed
    change of it changes nothing. *)
Theorem cat_create_correct fuel m m1 x c d a w key : rep x c -> catalog_inv c -> std_hfs m = false -> cnid_range (hm_nxtCNID m) ->
  Z.of_nat (size c) < cnid_count -> (size c < fuel)%nat -> attr_ok a -> 0 <= cd_parentcnid d < 2 ^ 32 ->
  buildkey m d (replicate 518 0) false = Ok (0, key) -> hfs_setencodingbits m (key_encoding hfs_pickencoding key) = Ok m1 ->
  exists err a' out m' x' j, cat_create hfs_pickencoding fuel m x d a w = Ok (err, a', out, m', x') /\
    first_free c (hm_nxtCNID m) j /\ created rep fallible c m key a j (key_encoding hfs_pickencoding key) err a' m' x'.
Proof using CatalogTreeLaws0. by apply cat_create_spec. Qed.

Context (junk : buffer) (Hjunk : Forall byte junk) (Hjunkl : length junk = 520%nat).

(** C20: what [cat_create] created on an HFS Plus volume, [cat_lookup] without a hint finds:
    under the same parent and name, with the number that it got, as a file or folder, and with
    the mode, owner and group it was created with; all dates but that of the backup, which is
    0, are its creation date, and the flags are those given, but for the immutable flags of a
    file, which are lost.  The file is not made as a hard link, its mode has a type, its flags
    are among those that are stored, its date is representable, the text encoding has a bit in
    the volume header, and the volume is not mounted without permissions. *)
Theorem cat_create_lookup fuel m m1 x c d a w key a' out m' x' m2 : rep x c -> catalog_inv c -> std_hfs m = false -> cnid_range (hm_nxtCNID m) ->
  Z.of_nat (size c) < cnid_count -> (size c < fuel)%nat -> attr_kept a -> finder_word (ca_finderinfo a) 0 <> kHardLinkFileType ->
  0 <= cd_parentcnid d < 2 ^ 32 -> cd_hint d = 0 ->
  buildkey m d (replicate 518 0) false = Ok (0, key) -> hfs_setencodingbits m (key_encoding hfs_pickencoding key) = Ok m1 ->
  cat_create hfs_pickencoding fuel m x d a w = Ok (0, a', out, m', x') ->
  std_hfs m2 = false -> mnt_unknownpermissions m2 = false ->
  exists f x2 desc b, cat_lookup junk m2 x' d false (mkWanted true true false) = Ok (0, f, x2) /\ fo_desc f = Some desc /\ fo_attr f = Some b /\
    cd_cnid desc = ca_fileid a' /\ cd_parentcnid desc = cd_parentcnid d /\ cd_name desc = utf8_of 0x3A (node_name (key_trim key)) /\
    (Z.land (cd_flags desc) CD_ISDIR =? 0) = negb (is_dir a) /\ attr_back a (ca_fileid a') b.
Proof using All. by apply (created_found rep (fallible:=fallible)). Qed.

(** C19: [cat_delete] on an HFS Plus volume of a file or folder that is not the root, has a
    number from 16 on and is there, by name with its number or by number only, removes its record and its thread
    and nothing else, and keeps the invariant; if it reports an error, the catalog is what it
    was.  If the B-tree fails to delete the thread, that is ignored and the thread stays.  It
    does not look whether a folder is empty or a file has no blocks, which the comment before
    its checks asks for ([cat_delete_not_empty]): the caller has to.  The B-tree is any that
    satisfies the laws of the interface. *)
Theorem cat_delete_correct m x c d a r id : rep x c -> catalog_inv c -> std_hfs m = false -> 16 <= cd_cnid d < 2 ^ 32 -> 0 <= ca_fileid a < 2 ^ 32 ->
  0 <= cd_parentcnid d < 2 ^ 32 -> cd_parentcnid d <> kRootParID -> delete_target m c d a r id ->
  (forall k rec, c !! r = Some (k, rec) -> node_cnid rec = id) ->
  exists err x', cat_delete junk m x d a = Ok (err, x') /\ deleted rep fallible c r id err x'.
Proof using All. by apply (cat_delete_spec rep (fallible:=fallible) hfs_pickencoding junk). Qed.

(** C18: [cat_rename] on an HFS Plus volume, of a file or folder that is there and is not the
    root, into a folder from which the threads lead up to the root, to a name whose text
    encoding has a bit in the volume header, returns, if the B-tree does not fail, with the
    record and its thread at the new key, changed only in the text encoding, with the
    invariant kept, or with the catalog as it was.  It reports success without any effect only where another file has the new
    name; in the same folder that is a defect, since the comments there say EEXIST
    ([cat_rename_onto_sibling]).  A folder is never moved into itself or below.  If the B-tree
    fails to delete or insert the thread, the record is moved with its old thread or without
    one and an error is returned; if it fails to undo a half-made move, the code panics.  The
    B-tree is any that satisfies the laws of the interface. *)
Theorem cat_rename_correct fuel m m1 x c d1 dt d2 w key1 key2 k d l : rep x c -> catalog_inv c -> std_hfs m = false ->
  0 <= cd_parentcnid d1 < 2 ^ 32 -> 0 <= cd_parentcnid d2 < 2 ^ 32 ->
  buildkey m d1 (it_key new_iterator) false = Ok (0, key1) -> buildkey m d2 (it_key new_iterator) false = Ok (0, key2) ->
  c !! catalog_rank_plus key1 = Some (k, d) -> cd_cnid d1 = node_cnid d -> cd_cnid d1 <> fsRtDirID ->
  recordType d = record_kind (negb (Z.land (cd_flags d1) CD_ISDIR =? 0)) ->
  path c (cd_parentcnid dt) l -> (length l < fuel)%nat -> hfs_setencodingbits m (key_encoding hfs_pickencoding key2) = Ok m1 ->
  let go := cat_rename hfs_pickencoding junk fuel m x d1 dt d2 w in
  fallible /\ go = Panic "cat_create: could not undo" \/
  exists err out m' x', go = Ok (err, out, m', x') /\ renamed rep fallible c (catalog_rank_plus key1) d key2 err x' /\
    (moves_into_itself d1 dt d2 l -> err <> 0 /\ rep x' c).
Proof using All. by apply cat_rename_spec. Qed.

(** C21: [cat_idlookup] on an HFS Plus volume finds, for a number that has a thread, the record
    that the thread names, if that is not a hard link: its number is the one asked for, and
    name, attributes and fork are those of the record. *)
Theorem cat_idlookup_correct m x c id w tk td : rep x c -> catalog_inv c -> std_hfs m = false -> 0 <= id < 2 ^ 32 -> c !! thread_at id = Some (tk, td) ->
  (forall k d, c !! thread_rank td = Some (k, d) -> no_link d) ->
  exists k d f x', c !! thread_rank td = Some (k, d) /\ node_cnid d = id /\ cat_idlookup junk m x id w = Ok (0, f, x') /\ rep x' c /\
    found_record m k d false w f.
Proof using All. by apply (cat_idlookup_spec rep (fallible:=fallible) hfs_pickencoding junk). Qed.
End theorems.

(** ** The theorems on the sample *)

Lemma sample_junk_ok : Forall byte sample_junk /\ length sample_junk = 520%nat.
Proof. split; [|done]. by apply Forall_replicate. Qed.

Definition file_a : cat_desc := sample_desc 16 0 17 [97].
Definition file_b : cat_desc := sample_desc 16 0 0 [98].
Definition file_c : cat_desc := sample_desc 16 0 0 [99].
Definition file_key (b : nat) (d : cat_desc) : buffer := key_of_desc sample_mount d (replicate b 0).

(** What the theorems on [cat_create] ask of the sample and the file [b]. *)
Lemma sample_create : std_hfs sample2.1 = false /\ cnid_range (hm_nxtCNID sample2.1) /\ Z.of_nat (size sample2.2) < cnid_count /\ (size sample2.2 < 5)%nat /\
  0 <= cd_parentcnid file_b < 2 ^ 32 /\ buildkey sample2.1 file_b (replicate 518 0) false = Ok (0, file_key 518 file_b) /\
  hfs_setencodingbits sample2.1 (key_encoding sample_encoding (file_key 518 file_b)) = Ok sample2.1.
Proof.
  split; [reflexivity|]. split; [split; compute_goal|]. split; [compute_goal|]. split; [compute_goal|]. split; [cbn; lia|].
  split; vm_compute; reflexivity.
Qed.

(** The second file of the folder. *)
Lemma cat_create_witness : exists err a' out m' x' j,
  cat_create sample_encoding 5 sample2.1 sample2.2 file_b (sample_attr 0x81A4) true = Ok (err, a', out, m', x') /\
  first_free sample2.2 (hm_nxtCNID sample2.1) j /\
  created table_rep False sample2.2 sample2.1 (file_key 518 file_b) (sample_attr 0x81A4) j (key_encoding sample_encoding (file_key 518 file_b)) err a' m' x'.
Proof.
  destruct sample_create as (H1 & H2 & H3 & H4 & H5 & H6 & H7). destruct sample2_ok as [Hr Hi].
  exact (cat_create_correct table_rep sample_encoding 5 sample2.1 sample2.1 sample2.2 sample2.2 file_b (sample_attr 0x81A4) true (file_key 518 file_b)
    Hr Hi H1 H2 H3 H4 (sample_attr_ok 0x81A4 ltac:(lia)) H5 H6 H7).
Defined.

Lemma sample_attr_kept : attr_kept (sample_attr 0x81A4).
Proof. split; [apply sample_attr_ok; lia|compute_goal|split; compute_goal|split; compute_goal]. Qed.

(** The catalog with both files. *)
Definition sample3 : hfsmount * catalog := Eval vm_compute in
  run_state (cat_create sample_encoding 5 sample2.1 sample2.2 file_b (sample_attr 0x81A4) false) ∅.

Lemma sample3_run : cat_create sample_encoding 5 sample2.1 sample2.2 file_b (sample_attr 0x81A4) false =
  Ok (0, set_fileid (sample_attr 0x81A4) 18, None, sample3.1, sample3.2).
Proof. vm_compute. reflexivity. Qed.

Lemma cat_create_lookup_witness : exists f x2 desc b,
  cat_lookup sample_junk sample3.1 sample3.2 file_b false (mkWanted true true false) = Ok (0, f, x2) /\ fo_desc f = Some desc /\ fo_attr f = Some b /\
  cd_cnid desc = 18 /\ cd_name desc = [98] /\ ca_mode b = 0x81A4 /\ ca_itime b = 1000000.
Proof.
  destruct sample_create as (H1 & H2 & H3 & H4 & H5 & H6 & H7). destruct sample2_ok as [Hr Hi].
  destruct (cat_create_lookup table_rep sample_encoding sample_junk (proj1 sample_junk_ok) (proj2 sample_junk_ok) 5 sample2.1 sample2.1 sample2.2 sample2.2
    file_b (sample_attr 0x81A4) false (file_key 518 file_b) _ None sample3.1 sample3.2 sample3.1 Hr Hi H1 H2 H3 H4 sample_attr_kept ltac:(compute_goal) H5 eq_refl
    H6 H7 sample3_run eq_refl eq_refl)
    as (f & x2 & desc & b & Hl & Hd & Hb & Hc & _ & Hn & _ & _ & Hm & _ & _ & Ht & _).
  exists f, x2, desc, b. split; [exact Hl|]. split; [exact Hd|]. split; [exact Hb|]. split; [exact Hc|].
  split; [rewrite Hn; vm_compute; reflexivity|]. split; [exact Hm|exact Ht].
Defined.

Lemma sample_node : exists k d, sample2.2 !! catalog_rank_plus (file_key 522 file_a) = Some (k, d) /\ node_cnid d = 17 /\
  recordType d = kHFSPlusFileRecord /\ no_link d.
Proof.
  destruct (sample2.2 !! catalog_rank_plus (file_key 522 file_a)) as [[k d]|] eqn:E; [|vm_compute in E; discriminate].
  exists k, d. split; [reflexivity|]. vm_compute in E. injection E as _ <-. split; [reflexivity|]. split; [reflexivity|]. vm_compute. discriminate.
Qed.

Lemma cat_delete_witness : exists err x', cat_delete sample_junk sample2.1 sample2.2 file_a (sample_attr 0x81A4) = Ok (err, x') /\
  deleted table_rep False sample2.2 (catalog_rank_plus (file_key 522 file_a)) 17 err x'.
Proof.
  destruct sample2_ok as [Hr Hi].
  assert (delete_target sample2.1 sample2.2 file_a (sample_attr 0x81A4) (catalog_rank_plus (file_key 522 file_a)) 17) as Ht.
  { split; [reflexivity|]. exists (file_key 522 file_a). split; [vm_compute; reflexivity|reflexivity]. }
  assert (forall k rec, sample2.2 !! catalog_rank_plus (file_key 522 file_a) = Some (k, rec) -> node_cnid rec = 17) as Hm.
  { destruct sample_node as (k & d & E & Hid & _). intros k' d' E'. rewrite E in E'. assert (d' = d) as -> by congruence. exact Hid. }
  exact (cat_delete_correct table_rep sample_encoding sample_junk (proj1 sample_junk_ok) (proj2 sample_junk_ok) sample2.1 sample2.2 sample2.2 file_a
    (sample_attr 0x81A4) _ 17 Hr Hi eq_refl ltac:(cbn; lia) ltac:(cbn; lia) ltac:(cbn; lia) ltac:(cbn; discriminate) Ht Hm).
Defined.

(** To a new name in the same folder. *)
Lemma cat_rename_witness : exists err out m' x',
  cat_rename sample_encoding sample_junk 3 sample2.1 sample2.2 file_a (sample_desc 2 CD_ISDIR 16 [100]) file_c true = Ok (err, out, m', x') /\
  exists k d, sample2.2 !! catalog_rank_plus (file_key 522 file_a) = Some (k, d) /\
    renamed table_rep False sample2.2 (catalog_rank_plus (file_key 522 file_a)) d (file_key 522 file_c) err x'.
Proof.
  destruct sample_node as (k & d & E & Hid & Hkind & _). destruct sample2_ok as [Hr Hi].
  assert (buildkey sample2.1 file_a (it_key new_iterator) false = Ok (0, file_key 522 file_a)) as H1 by (vm_compute; reflexivity).
  assert (buildkey sample2.1 file_c (it_key new_iterator) false = Ok (0, file_key 522 file_c)) as H2 by (vm_compute; reflexivity).
  assert (hfs_setencodingbits sample2.1 (key_encoding sample_encoding (file_key 522 file_c)) = Ok sample2.1) as H3 by (vm_compute; reflexivity).
  assert (path sample2.2 2 []) as H4 by (apply path_root; unfold fsRtDirID; lia).
  destruct (cat_rename_correct table_rep sample_encoding sample_junk (proj1 sample_junk_ok) (proj2 sample_junk_ok) 3 sample2.1 sample2.1 sample2.2 sample2.2
    file_a (sample_desc 2 CD_ISDIR 16 [100]) file_c true (file_key 522 file_a) (file_key 522 file_c) k d [] Hr Hi eq_refl ltac:(cbn; lia) ltac:(cbn; lia)
    H1 H2 E (eq_sym Hid) ltac:(cbn; discriminate) Hkind H4 ltac:(cbn; lia) H3) as [[[] _]|(err & out & m' & x' & Hgo & Hren & _)].
  exists err, out, m', x'. split; [exact Hgo|]. exists k, d. split; [exact E|exact Hren].
Defined.

(** By its number. *)
Lemma cat_idlookup_witness : exists d f x', cat_idlookup sample_junk sample2.1 sample2.2 17 (mkWanted true true true) = Ok (0, f, x') /\ node_cnid d = 17 /\
  exists desc, fo_desc f = Some desc /\ cd_name desc = [97] /\ cd_cnid desc = 17.
Proof.
  destruct (sample2.2 !! thread_at 17) as [[tk td]|] eqn:E; [|vm_compute in E; discriminate]. destruct sample2_ok as [Hrep Hi].
  assert (thread_rank td = catalog_rank_plus (file_key 522 file_a)) as Hr.
  { vm_compute in E. injection E as _ <-. vm_compute. reflexivity. }
  destruct sample_node as (k0 & d0 & E0 & _ & _ & Hlink).
  assert (forall k d, sample2.2 !! thread_rank td = Some (k, d) -> no_link d) as Hl.
  { rewrite Hr. intros k d Hk. rewrite E0 in Hk. assert (d = d0) as -> by congruence. exact Hlink. }
  destruct (cat_idlookup_correct table_rep sample_encoding sample_junk (proj1 sample_junk_ok) (proj2 sample_junk_ok) sample2.1 sample2.2 sample2.2 17
    (mkWanted true true true) tk td Hrep Hi eq_refl ltac:(lia) E Hl) as (k & d & f & x' & Hk & Hid & Hgo & _ & recp & _ & _ & Hdesc & _).
  exists d, f, x'. split; [exact Hgo|]. split; [exact Hid|]. destruct (Hdesc eq_refl) as (desc & Hf & Hn & _ & Hc & _). exists desc.
  split; [exact Hf|]. rewrite Hc, Hid, Hn. split; [|reflexivity]. rewrite Hr in Hk. vm_compute in Hk. injection Hk as <- _. vm_compute. reflexivity.
Defined.

(** ** Renaming to a name that is taken *)

(** The folder with the files [a] and [b]: [a] is renamed to [b].  The result is 0, and the
    catalog did not change: the error of the insertion was overwritten by that of the
    search for the other record. *)
Lemma cat_rename_onto_sibling :
  cat_rename sample_encoding sample_junk 3 sample3.1 sample3.2 file_a (sample_desc 2 CD_ISDIR 16 [100]) file_b false = Ok (0, None, sample3.1, sample3.2).
Proof. vm_compute. reflexivity. Qed.

(** Into another folder the same is an error. *)
Lemma cat_rename_onto_other :
  cat_rename sample_encoding sample_junk 3 sample3.1 sample3.2 file_a (sample_desc 1 CD_ISDIR 2 [100]) (sample_desc 2 0 0 [100]) false =
    Ok (EEXIST, None, sample3.1, sample3.2).
Proof. vm_compute. reflexivity. Qed.

(** The folder [d] with the file [a] in it is deleted. *)
Lemma cat_delete_not_empty : exists x', cat_delete sample_junk sample2.1 sample2.2 (sample_desc 2 CD_ISDIR 16 [100]) (sample_attr 0x41ED) = Ok (0, x') /\
  x' !! thread_at 16 = None /\ is_Some (x' !! catalog_rank_plus (file_key 522 file_a)).
Proof. eexists. split; [vm_compute; reflexivity|]. split; [vm_compute; reflexivity|]. eexists. vm_compute. reflexivity. Qed.

(** ** A catalog that refuses changes *)

(** What is left of the changes that are asked for: whether each is refused, as on a full
    disk. *)
Definition refusing : Type := catalog * list bool.
Definition asked (y : refusing) : bool * refusing := match y.2 with [] => (false, y) | r :: rs => (r, (y.1, rs)) end.
Definition refused_insert (y : refusing) (it : BTreeIterator) (data : buffer) (n : Z) : outcome (Z * BTreeIterator * refusing) :=
  let '(r, y) := asked y in
  if r && bool_decide (y.1 !! catalog_rank_plus (it_key it) = None) then Ok (dskFulErr, it, y)
  else '(err, it, x) ← table_insert y.1 it data n; Ok (err, it, (x, y.2)).
Definition refused_delete (y : refusing) (it : BTreeIterator) : outcome (Z * BTreeIterator * refusing) :=
  let '(r, y) := asked y in
  if r && bool_decide (is_Some (y.1 !! catalog_rank_plus (it_key it))) then Ok (dskFulErr, it, y)
  else '(err, it, x) ← table_delete y.1 it; Ok (err, it, (x, y.2)).

#[export] Instance refusing_tree : CatalogTree refusing := {
  ct_search y it recp w := '(err, it, recp, n, x) ← table_search y.1 it recp w; Ok (err, it, recp, n, (x, y.2));
  ct_insert := refused_insert;
  ct_replace y it data n := '(err, it, x) ← ct_replace y.1 it data n; Ok (err, it, (x, y.2));
  ct_delete := refused_delete;
  ct_update y it f := '(err, it, x) ← ct_update y.1 it f; Ok (err, it, (x, y.2));
  ct_free_space y := Ok (0, y);
  ct_flush y := Ok y;
  ct_trash y _ := y
}.

Lemma asked_fst y : (asked y).2.1 = y.1.
Proof. destruct y as [x [|r rs]]; done. Qed.

Lemma full_disk_error : other_error dskFulErr.
Proof. done. Qed.

#[export] Instance refusing_laws : CatalogTreeLaws refusing (fun y c => table_rep y.1 c) True.
Proof.
  split.
  - intros [x rs] c it recp w Hx Hk Hh Hl. destruct (law_search x c it recp w Hx Hk Hh Hl) as (err & it' & recp' & n & x' & He & Hrest).
    cbn [ct_search table_tree refusing_tree fst snd] in *. rewrite He. by exists err, it', recp', n, (x', rs).
  - intros y c it data n Hy Hk Hb Hn. cbn [ct_insert refusing_tree]. unfold refused_insert. pose proof (asked_fst y) as Ey.
    destruct (asked y) as [r y']. cbn [snd] in Ey. rewrite <- Ey in Hy. pose proof (proj1 Hy) as Ec.
    destruct (law_insert y'.1 c it data n Hy Hk Hb Hn) as (err & it' & x' & He & Hkey & Hcase). cbn [ct_insert table_tree] in He.
    destruct (r && _) eqn:Er.
    + apply andb_true_iff in Er as [_ Hnone%bool_decide_eq_true]. rewrite Ec in Hnone. rewrite Hnone. exists dskFulErr, it, y'. split_and!; try done. by right.
    + rewrite He. cbn [mbind outcome_bind]. exists err, it', (x', y'.2). split_and!; try done. destruct (c !! _); [done|]. destruct Hcase as [?|[[] _]]. by left.
  - intros y c it Hy Hk. cbn [ct_delete refusing_tree]. unfold refused_delete. pose proof (asked_fst y) as Ey.
    destruct (asked y) as [r y']. cbn [snd] in Ey. rewrite <- Ey in Hy. pose proof (proj1 Hy) as Ec.
    destruct (law_delete y'.1 c it Hy Hk) as (err & it' & x' & He & Hkey & Hcase). cbn [ct_delete table_tree] in He.
    destruct (r && _) eqn:Er.
    + apply andb_true_iff in Er as [_ [e Hsome]%bool_decide_eq_true]. rewrite Ec in Hsome. rewrite Hsome. exists dskFulErr, it, y'. split_and!; try done. by right.
    + rewrite He. cbn [mbind outcome_bind]. exists err, it', (x', y'.2). split_and!; try done. destruct (c !! _); [|done]. destruct Hcase as [?|[[] _]]. by left.
  - intros y c H. by exists 0, y; eauto.
  - intros y c H. by exists y.
  - done.
Qed.

(** The file [b] cannot be inserted behind its thread, and the thread not be deleted. *)
Lemma cat_create_left_thread : exists a' m' y', cat_create sample_encoding 5 sample2.1 ((sample2.2, [false; true; true]) : refusing) file_b (sample_attr 0x81A4) false =
  Ok (MacToVFSError dskFulErr, a', None, m', y') /\ is_Some (y'.1 !! thread_at 18) /\ y'.1 !! catalog_rank_plus (file_key 522 file_b) = None.
Proof. eexists _, _, _. split; [vm_compute; reflexivity|]. split; [eexists; vm_compute; reflexivity|vm_compute; reflexivity]. Qed.

(** The old record cannot be deleted, and then not the new one. *)
Lemma cat_rename_panic : cat_rename sample_encoding sample_junk 3 sample2.1 ((sample2.2, [false; true; true]) : refusing) file_a
  (sample_desc 2 CD_ISDIR 16 [100]) file_c false = Panic "cat_create: could not undo".
Proof. vm_compute. reflexivity. Qed.

(** ** Other defects *)

(** The shift is one of [int]; 126 is [kTextEncodingMacUnicode]. *)
Lemma setencodingbits_shift :
  hfs_setencodingbits sample_mount 152 = Fault /\ hfs_setencodingbits sample_mount 140 = Fault /\ hfs_setencodingbits sample_mount 126 = Fault.
Proof. split_and!; reflexivity. Qed.

(** The name #00...010 in the root, where the folder with number 16 is. *)
Lemma mangled_short_prefix : cat_lookupmangled sample_junk sample2.1 sample2.2 (sample_desc 2 0 0 (35 :: replicate 25 48 ++ [49; 48])) false (mkWanted true true true) = Fault.
Proof. vm_compute. reflexivity. Qed.
