(* ===== verification/CatalogIterators.v ===== *)
(** * The cache of catalog iterators (hfscommon/Catalog/CatalogIterators.c)

    Sixteen iterators remember where the reading of a directory stopped.  They are in one
    array and linked in the order of their last use, in both directions; an iterator that
    is needed anew is taken from the end of the list.  Names of up to 63 characters are in
    the iterator itself, one longer name is in a buffer of the globals. *)
From S2P Require Import Prelude Bits VolumeBitmap VolumeAllocation ExtentMapping UtfConv NameMangling Encodings MacTime.
From S2P Require Import Bytes UnicodeCompare BTreeNode BTreeKeys BTreeBlocks BTreeFile NodeSwap Catalog.

Definition kCatalogIteratorCount : nat := 16.
Definition kShortPascalName : Z := 0.
Definition kShortUnicodeName : Z := 1.
Definition kLongUnicodeName : Z := 2.
Definition CMMaxCName : Z := 31.
Definition sizeof_UniStr63 : Z := 128.
Definition kHFSPlusSigWord : Z := 0x482B.

(** ** Names and keys (CatalogUtilities.c) *)

(** [UpdateCatalogName] *)
Definition UpdateCatalogName (srcName destName : buffer) : buffer :=
  let length := get srcName 0 1 in
  let length := if CMMaxCName <? length then CMMaxCName else length in
  splice (put destName 0 1 length) 1 (slice srcName 1 length).

(** [CopyCatalogName]: a name of no characters is only its length, and [NULL] is [None]. *)
Definition CopyCatalogName (srcName : option buffer) (dstName : buffer) (isHFSPlus : bool) : buffer :=
  match srcName with
  | None => put dstName 0 2 0
  | Some srcName =>
      let length := if isHFSPlus then 2 * (get srcName 0 2 + 1) else 1 + get srcName 0 1 in
      if 1 <? length then splice dstName 0 (slice srcName 0 length) else put dstName 0 2 0
  end.

Definition BuildCatalogKey (parentID : Z) (cName : option buffer) (isHFSPlus : bool) (key : buffer) : buffer :=
  if isHFSPlus then
    let key := puts key [(0, 2, kHFSPlusCatalogKeyMinimumLength); (2, 4, parentID); (6, 2, 0)] in
    match cName with
    | Some name =>
        let key := splice key 6 (CopyCatalogName (Some name) (drop 6 key) isHFSPlus) in
        put key 0 2 (get key 0 2 + 2 * get name 0 2)
    | None => key
    end
  else
    let key := puts key [(0, 1, kHFSCatalogKeyMinimumLength); (1, 1, 0); (2, 4, parentID); (6, 1, 0)] in
    match cName with
    | Some name =>
        let key := splice key 6 (UpdateCatalogName name (drop 6 key)) in
        put key 0 1 (get key 0 1 + get key 6 1)
    | None => key
    end.

(** ** The iterators *)

(** [folderName]: a name in the iterator, or the pointer to that of the globals. *)
Inductive FolderName := LocalName (name : buffer) | LongNamePtr.

(** Pointers to iterators are places in the array.  [volume] is the address of the volume
    control block, 0 for none; [ci_locked] says whether [iterator_lock] is held. *)
Record CatalogIterator := mkCI {
  nextMRU : option nat;
  nextLRU : option nat;
  volume : Z;
  currentIndex : Z;
  currentOffset : Z;
  nextOffset : Z;
  folderID : Z;
  btreeNodeHint : Z;
  btreeIndexHint : Z;
  nameType : Z;
  parentID : Z;
  folderName : FolderName;
  ci_locked : bool
}.

Record CatalogCacheGlobals := mkGlobals {
  iterators : list CatalogIterator;
  mru : option nat;
  lru : option nat;
  longName : buffer
}.

Definition set_links (m l : option nat) (c : CatalogIterator) : CatalogIterator :=
  mkCI m l (volume c) (currentIndex c) (currentOffset c) (nextOffset c) (folderID c) (btreeNodeHint c) (btreeIndexHint c) (nameType c) (parentID c)
    (folderName c) (ci_locked c).
Definition set_nextMRU (m : option nat) (c : CatalogIterator) : CatalogIterator := set_links m (nextLRU c) c.
Definition set_nextLRU (l : option nat) (c : CatalogIterator) : CatalogIterator := set_links (nextMRU c) l c.
Definition set_folder (vol folder : Z) (c : CatalogIterator) : CatalogIterator :=
  mkCI (nextMRU c) (nextLRU c) vol (currentIndex c) (currentOffset c) (nextOffset c) folder (btreeNodeHint c) (btreeIndexHint c) (nameType c) (parentID c)
    (folderName c) (ci_locked c).
Definition set_locked (b : bool) (c : CatalogIterator) : CatalogIterator :=
  mkCI (nextMRU c) (nextLRU c) (volume c) (currentIndex c) (currentOffset c) (nextOffset c) (folderID c) (btreeNodeHint c) (btreeIndexHint c) (nameType c)
    (parentID c) (folderName c) b.
Definition set_name (type parent : Z) (name : FolderName) (c : CatalogIterator) : CatalogIterator :=
  mkCI (nextMRU c) (nextLRU c) (volume c) (currentIndex c) (currentOffset c) (nextOffset c) (folderID c) (btreeNodeHint c) (btreeIndexHint c) type parent
    name (ci_locked c).
Definition set_offsets (cur next : Z) (c : CatalogIterator) : CatalogIterator :=
  mkCI (nextMRU c) (nextLRU c) (volume c) (currentIndex c) cur next (folderID c) (btreeNodeHint c) (btreeIndexHint c) (nameType c) (parentID c)
    (folderName c) (ci_locked c).
Definition set_hints (node index : Z) (c : CatalogIterator) : CatalogIterator :=
  mkCI (nextMRU c) (nextLRU c) (volume c) (currentIndex c) (currentOffset c) (nextOffset c) (folderID c) node index (nameType c) (parentID c)
    (folderName c) (ci_locked c).

Definition deref (g : CatalogCacheGlobals) (p : option nat) : outcome CatalogIterator :=
  match p with None => Fault | Some i => of_option (iterators g !! i) end.
Definition set_mru (g : CatalogCacheGlobals) (p : option nat) : CatalogCacheGlobals := mkGlobals (iterators g) p (lru g) (longName g).
Definition set_lru (g : CatalogCacheGlobals) (p : option nat) : CatalogCacheGlobals := mkGlobals (iterators g) (mru g) p (longName g).
Definition set_longName (g : CatalogCacheGlobals) (b : buffer) : CatalogCacheGlobals := mkGlobals (iterators g) (mru g) (lru g) b.

(** An assignment through a pointer. *)
Definition modify (g : CatalogCacheGlobals) (p : option nat) (f : CatalogIterator -> CatalogIterator) : outcome CatalogCacheGlobals :=
  match p with
  | None => Fault
  | Some i => c ← of_option (iterators g !! i); Ok (mkGlobals (<[i := f c]> (iterators g)) (mru g) (lru g) (longName g))
  end.

(** ** The order of use *)

Definition InsertCatalogIteratorAsMRU (g : CatalogCacheGlobals) (iterator : nat) : outcome CatalogCacheGlobals :=
  if bool_decide (mru g = Some iterator) then Ok g
  else
    let swapIterator := mru g in
    let g := set_mru g (Some iterator) in
    c ← deref g (Some iterator);
    g ← modify g (nextLRU c) (set_nextMRU (nextMRU c));
    c ← deref g (Some iterator);
    g ← (match nextMRU c with
         | Some n => modify g (Some n) (set_nextLRU (nextLRU c))
         | None => Ok (set_lru g (nextLRU c))
         end);
    g ← modify g (Some iterator) (set_nextMRU swapIterator);
    g ← modify g (Some iterator) (set_nextLRU None);
    modify g swapIterator (set_nextLRU (Some iterator)).

Definition InsertCatalogIteratorAsLRU (g : CatalogCacheGlobals) (iterator : nat) : outcome CatalogCacheGlobals :=
  if bool_decide (lru g = Some iterator) then Ok g
  else
    let swapIterator := lru g in
    let g := set_lru g (Some iterator) in
    c ← deref g (Some iterator);
    g ← modify g (nextMRU c) (set_nextLRU (nextLRU c));
    c ← deref g (Some iterator);
    g ← (match nextLRU c with
         | Some n => modify g (Some n) (set_nextMRU (nextMRU c))
         | None => Ok (set_mru g (nextMRU c))
         end);
    g ← modify g (Some iterator) (set_nextLRU swapIterator);
    g ← modify g (Some iterator) (set_nextMRU None);
    modify g swapIterator (set_nextMRU (Some iterator)).

(** ** Routines *)

(** An iterator of the array, cleared. *)
Definition init_iterator (i : nat) : CatalogIterator :=
  mkCI (if bool_decide (i = kCatalogIteratorCount - 1)%nat then None else Some (i + 1)%nat) (if bool_decide (i = 0)%nat then None else Some (i - 1)%nat)
    0 0 0 0 0 0 0 0 0 (LocalName (replicate 128 0)) false.
Definition InitCatalogCache : CatalogCacheGlobals :=
  mkGlobals (map init_iterator (seq 0 kCatalogIteratorCount)) (Some 0%nat) (Some (kCatalogIteratorCount - 1)%nat) (replicate 512 0).

(** The loop of [TrashCatalogIterator] from an iterator on. *)
Fixpoint trash_loop (fuel : nat) (g : CatalogCacheGlobals) (vol folder : Z) (iterator : option nat) : outcome CatalogCacheGlobals :=
  match iterator with
  | None => Ok g
  | Some i =>
      match fuel with
      | O => Diverge
      | S fuel =>
          c ← deref g (Some i);
          if negb (volume c =? vol) then trash_loop fuel g vol folder (nextMRU c)
          else if (folder =? 0) || (folder =? folderID c) then
            g ← modify g (Some i) (set_folder 0 0);
            match nextMRU c with
            | Some next => g ← InsertCatalogIteratorAsLRU g i; trash_loop fuel g vol folder (Some next)
            | None => Ok g
            end
          else trash_loop fuel g vol folder (nextMRU c)
      end
  end.
Definition TrashCatalogIterator (g : CatalogCacheGlobals) (vol folder : Z) : outcome CatalogCacheGlobals :=
  trash_loop (2 * kCatalogIteratorCount) g vol folder (mru g).
Definition InvalidateCatalogCache (g : CatalogCacheGlobals) (vol : Z) : outcome CatalogCacheGlobals := TrashCatalogIterator g vol 0.

Definition AgeCatalogIterator (g : CatalogCacheGlobals) (i : nat) : outcome CatalogCacheGlobals := InsertCatalogIteratorAsLRU g i.

(** The lock is released. *)
Definition ReleaseCatalogIterator (g : CatalogCacheGlobals) (i : nat) : outcome CatalogCacheGlobals := modify g (Some i) (set_locked false).

(** The first iterator, in the order of use, of the folder that is not busy and stands at
    the offset. *)
Fixpoint find_iterator (fuel : nat) (g : CatalogCacheGlobals) (vol folder offset : Z) (iterator : option nat) : outcome (option nat) :=
  match iterator with
  | None => Ok None
  | Some i =>
      match fuel with
      | O => Diverge
      | S fuel =>
          c ← deref g (Some i);
          if negb (volume c =? vol) || negb (folderID c =? folder) then find_iterator fuel g vol folder offset (nextMRU c)
          else if ci_locked c then find_iterator fuel g vol folder offset (nextMRU c)
          else if (currentOffset c =? offset) || (nextOffset c =? offset) then Ok (Some i)
          else find_iterator fuel g vol folder offset (nextMRU c)
      end
  end.

(** [folderName.unicodeName.length = 0]; what the name has behind its length is not read
    before it is written. *)
Definition clear_name (name : FolderName) : FolderName :=
  LocalName (match name with LocalName b => put b 0 2 0 | LongNamePtr => replicate 128 0 end).

Definition recycle (vol folder sigWord : Z) (c : CatalogIterator) : CatalogIterator :=
  mkCI (nextMRU c) (nextLRU c) vol (s16 0xFFFF) 0xFFFFFFFF 0xFFFFFFFF folder 0 0
    (if sigWord =? kHFSPlusSigWord then kShortUnicodeName else kShortPascalName) folder (clear_name (folderName c)) (ci_locked c).

(** [CI_LOCK_FROM_LIST]: the lock of the list is released and that of the iterator taken;
    there is no result while another one holds it, and the caller sleeps. *)
Definition CI_LOCK_FROM_LIST (g : CatalogCacheGlobals) (i : nat) : outcome (option CatalogCacheGlobals) :=
  c ← deref g (Some i);
  if ci_locked c then Ok None else g ← modify g (Some i) (set_locked true); Ok (Some g).

(** [GetCatalogIterator] up to the place where it may sleep: an iterator that suits, locked
    and in front, or the oldest one, which is to be locked and recycled. *)
Definition get_choose (g : CatalogCacheGlobals) (vol folder offset : Z) : outcome (nat * bool * CatalogCacheGlobals) :=
  best ← find_iterator kCatalogIteratorCount g vol folder offset (mru g);
  match best with
  | Some i => g ← modify g (Some i) (set_locked true); g ← InsertCatalogIteratorAsMRU g i; Ok (i, true, g)
  | None => i ← of_option (lru g); Ok (i, false, g)
  end.
(** The rest, with the lock of the iterator that was chosen before. *)
Definition get_recycle (g : CatalogCacheGlobals) (i : nat) (vol sigWord folder : Z) : outcome CatalogCacheGlobals :=
  g ← modify g (Some i) (recycle vol folder sigWord); InsertCatalogIteratorAsMRU g i.

(** The call when no one else runs: if the oldest iterator is busy there is no one to release
    it, and the caller sleeps for ever.  CatalogIteratorThreads.v has the calls of several
    threads, which go on after a sleep. *)
Definition GetCatalogIterator (g : CatalogCacheGlobals) (vol sigWord folder offset : Z) : outcome (nat * CatalogCacheGlobals) :=
  '(i, found, g) ← get_choose g vol folder offset;
  if found : bool then Ok (i, g)
  else
    locked ← CI_LOCK_FROM_LIST g i;
    match locked with
    | None => Diverge
    | Some g => g ← get_recycle g i vol sigWord folder; Ok (i, g)
    end.

(** ** Between catalog and B-tree iterators *)

(** The name as it is in memory. *)
Definition name_bytes (g : CatalogCacheGlobals) (c : CatalogIterator) : outcome buffer :=
  match folderName c with
  | LocalName b => if nameType c =? kLongUnicodeName then Fault else Ok b
  | LongNamePtr => if nameType c =? kLongUnicodeName then Ok (longName g) else Fault
  end.

Definition UpdateBtreeIterator (g : CatalogCacheGlobals) (i : nat) (it : BTreeIterator) : outcome BTreeIterator :=
  c ← deref g (Some i);
  let it := set_hint it (mkHint 0 (btreeNodeHint c) (btreeIndexHint c) (hint_reserved1 (it_hint it)) (hint_reserved2 (it_hint it))) in
  if (nameType c =? kShortPascalName) || (nameType c =? kShortUnicodeName) || (nameType c =? kLongUnicodeName) then
    b ← name_bytes g c;
    let hfsPlus := negb (nameType c =? kShortPascalName) in
    let nodeName := if 0 <? (if hfsPlus then get b 0 2 else get b 0 1) then Some b else None in
    Ok (set_key it (BuildCatalogKey (parentID c) nodeName hfsPlus (it_key it)))
  else Ok it.

(** The first iterator with a long name. *)
Fixpoint find_long (fuel : nat) (g : CatalogCacheGlobals) (iterator : option nat) : outcome (option nat) :=
  match iterator with
  | None => Ok None
  | Some i =>
      match fuel with
      | O => Diverge
      | S fuel => c ← deref g (Some i); if nameType c =? kLongUnicodeName then Ok (Some i) else find_long fuel g (nextMRU c)
      end
  end.

(** [PrepareForLongName] up to the place where it may sleep: the iterator that has the buffer
    is made the oldest one, and is to be locked.  If there is none the lock of the list is
    released. *)
Definition prepare_choose (g : CatalogCacheGlobals) : outcome (option nat * CatalogCacheGlobals) :=
  iter ← find_long kCatalogIteratorCount g (mru g);
  match iter with
  | None => Ok (None, g)
  | Some j =>
      c ← deref g (Some j);
      g ← (match nextMRU c with Some _ => InsertCatalogIteratorAsLRU g j | None => Ok g end);
      Ok (Some j, g)
  end.
(** With its lock it is trashed, and unlocked. *)
Definition prepare_trash (g : CatalogCacheGlobals) (j : nat) : outcome CatalogCacheGlobals :=
  g ← modify g (Some j) (set_folder 0 0); modify g (Some j) (set_locked false).
(** Then the buffer belongs to this iterator. *)
Definition prepare_set (g : CatalogCacheGlobals) (i : nat) : outcome CatalogCacheGlobals :=
  modify g (Some i) (fun c => set_name kLongUnicodeName (parentID c) LongNamePtr c).

(** When no one else runs, as for [GetCatalogIterator]. *)
Definition PrepareForLongName (g : CatalogCacheGlobals) (i : nat) : outcome CatalogCacheGlobals :=
  '(iter, g) ← prepare_choose g;
  g ← (match iter with
       | None => Ok g
       | Some j =>
           locked ← CI_LOCK_FROM_LIST g j;
           match locked with None => Diverge | Some g => prepare_trash g j end
       end);
  prepare_set g i.

(** Writing a name of [n] bytes into the iterator, or through the pointer. *)
Definition store_name (g : CatalogCacheGlobals) (i : nat) (name : buffer) : outcome CatalogCacheGlobals :=
  c ← deref g (Some i);
  match folderName c with
  | LocalName b => b ← put_bytes b 0 name; modify g (Some i) (set_name (nameType c) (parentID c) (LocalName b))
  | LongNamePtr => b ← put_bytes (longName g) 0 name; Ok (set_longName g b)
  end.

Definition known_type (c : CatalogIterator) : bool :=
  (nameType c =? kShortPascalName) || (nameType c =? kShortUnicodeName) || (nameType c =? kLongUnicodeName).
Definition nameSize (c : CatalogIterator) (key : buffer) : Z :=
  if nameType c =? kShortPascalName then get key 6 1 + 1 else u16 ((get key 6 2 + 1) * 2).

(** [UpdateCatalogIterator] before the call of [PrepareForLongName], and whether there is
    one. *)
Definition update_begin (g : CatalogCacheGlobals) (it : BTreeIterator) (i : nat) : outcome (bool * CatalogCacheGlobals) :=
  g ← modify g (Some i) (set_hints (hint_nodeNum (it_hint it)) (hint_index (it_hint it)));
  c ← deref g (Some i);
  if known_type c then
    g ← modify g (Some i) (fun c => set_name (nameType c) (get (it_key it) 2 4) (folderName c) c);
    Ok ((nameType c =? kShortUnicodeName) && (sizeof_UniStr63 <? nameSize c (it_key it)), g)
  else Ok (false, g).
(** The rest of it. *)
Definition update_finish (g : CatalogCacheGlobals) (it : BTreeIterator) (i : nat) : outcome CatalogCacheGlobals :=
  c ← deref g (Some i);
  if known_type c then
    g ← (if negb (parentID c =? folderID c) then modify g (Some i) (fun c => set_offsets (currentOffset c) 0xFFFFFFFF c) else Ok g);
    name ← get_bytes (it_key it) 6 (nameSize c (it_key it));
    store_name g i name
  else Ok g.

Definition UpdateCatalogIterator (g : CatalogCacheGlobals) (it : BTreeIterator) (i : nat) : outcome CatalogCacheGlobals :=
  '(long, g) ← update_begin g it i;
  g ← (if long : bool then PrepareForLongName g i else Ok g);
  update_finish g it i.
