(* ===== verification/CatalogIteratorLists.v ===== *)
(** * The list of catalog iterators

    The links of the iterators stand for one list, the order of use.  The two insertions
    and the loop that discards the iterators of a folder keep it doubly linked; the lemmas
    say where they move iterators and what else they change. *)
From S2P Require Import Prelude Bits VolumeBitmap VolumeAllocation ExtentMapping UtfConv NameMangling Encodings MacTime.
From S2P Require Import Bytes UnicodeCompare BTreeNode BTreeKeys BTreeBlocks BTreeFile NodeSwap Catalog CatalogIterators.

(** ** Segments of a doubly linked list *)

(** The first of a segment, or what follows it; the last, or what precedes it. *)
Definition first (l : list nat) (next : option nat) : option nat := match l with [] => next | i :: _ => Some i end.
Definition final (prev : option nat) (l : list nat) : option nat := match last l with None => prev | o => o end.

Fixpoint dseg (T : list CatalogIterator) (prev : option nat) (l : list nat) (next : option nat) : Prop :=
  match l with
  | [] => True
  | i :: l => (exists c, T !! i = Some c /\ nextLRU c = prev /\ nextMRU c = first l next) /\ dseg T (Some i) l next
  end.

Lemma first_app l k next : first (l ++ k) next = first l (first k next).
Proof. by destruct l. Qed.

Lemma final_cons prev i l : final prev (i :: l) = final (Some i) l.
Proof. unfold final. rewrite last_cons. by destruct (last l). Qed.

Lemma final_snoc prev l i : final prev (l ++ [i]) = Some i.
Proof. unfold final. by rewrite last_snoc. Qed.

Lemma final_reverse l prev : final prev (reverse l) = first l prev.
Proof. destruct l as [|i l]; [done|]. by rewrite reverse_cons, final_snoc. Qed.

Lemma dseg_app T prev l k next : dseg T prev (l ++ k) next <-> dseg T prev l (first k next) /\ dseg T (final prev l) k next.
Proof.
  revert prev. induction l as [|i l IH]; intros prev; simpl; [tauto|].
  rewrite IH, first_app, final_cons. tauto.
Qed.

(** What is not in the segment can change. *)
Lemma dseg_frame T prev l next i c : i ∉ l -> dseg T prev l next -> dseg (<[i := c]> T) prev l next.
Proof.
  revert prev. induction l as [|j l IH]; intros prev; simpl; [done|].
  intros [Hij Hi]%not_elem_of_cons [Hj Hl]. rewrite list_lookup_insert_ne by done. auto.
Qed.

(** So can anything but the links. *)
Lemma dseg_data T prev l next i c c' : T !! i = Some c -> nextMRU c' = nextMRU c -> nextLRU c' = nextLRU c ->
  dseg T prev l next -> dseg (<[i := c']> T) prev l next.
Proof.
  intros Hc Hm Hl. revert prev. induction l as [|j l IH]; intros prev; simpl; [done|].
  intros [(d & Hd & ? & ?) Hs]. split; [|auto].
  destruct (decide (i = j)) as [->|].
  - rewrite list_lookup_insert_eq by (by eapply lookup_lt_Some). simplify_eq. exists c'. split_and!; congruence.
  - rewrite list_lookup_insert_ne by done. eauto.
Qed.

Lemma dseg_set_first T prev prev' i l next c : NoDup (i :: l) -> T !! i = Some c -> dseg T prev (i :: l) next ->
  dseg (<[i := set_nextLRU prev' c]> T) prev' (i :: l) next.
Proof.
  intros [Hi _]%NoDup_cons Hc [(d & Hd & ? & ?) Hl]. simplify_eq. split; [|by apply dseg_frame].
  rewrite list_lookup_insert_eq by (by eapply lookup_lt_Some). by eexists.
Qed.

Lemma dseg_set_last T prev l i next next' c : NoDup (l ++ [i]) -> T !! i = Some c -> dseg T prev (l ++ [i]) next ->
  dseg (<[i := set_nextMRU next' c]> T) prev (l ++ [i]) next'.
Proof.
  intros (_ & Hi & _)%NoDup_app Hc. rewrite !dseg_app. simpl. intros [Hl [(d & Hd & Hp & ?) _]]. simplify_eq.
  split; [apply dseg_frame; [set_solver|done]|]. split; [|done].
  rewrite list_lookup_insert_eq by (by eapply lookup_lt_Some). by eexists.
Qed.

Lemma dseg_elem T prev l next i : dseg T prev l next -> i ∈ l -> exists c, T !! i = Some c.
Proof.
  revert prev. induction l as [|j l IH]; intros prev; simpl; [by intros ? ?%elem_of_nil|].
  intros [(c & Hc & _) Hl] [->|?]%elem_of_cons; eauto.
Qed.

(** Read backwards. *)
Definition mirror_iterator (c : CatalogIterator) : CatalogIterator := set_links (nextLRU c) (nextMRU c) c.

Lemma dseg_mirror T prev l next : dseg T prev l next -> dseg (mirror_iterator <$> T) next (reverse l) prev.
Proof.
  revert prev. induction l as [|i l IH]; intros prev; simpl; [done|].
  intros [(c & Hc & ? & ?) Hl]. rewrite reverse_cons, dseg_app. simpl. split; [by apply IH|]. split; [|done].
  rewrite list_lookup_fmap, Hc, final_reverse. by exists (mirror_iterator c).
Qed.

(** ** The list of the cache *)

(** [l] is the order of use. *)
Definition linked (g : CatalogCacheGlobals) (l : list nat) : Prop :=
  NoDup l /\ mru g = head l /\ lru g = last l /\ dseg (iterators g) None l None.

(** What the iterators hold but their links. *)
Definition data (g : CatalogCacheGlobals) : list CatalogIterator := set_links None None <$> iterators g.

Definition mirror (g : CatalogCacheGlobals) : CatalogCacheGlobals := mkGlobals (mirror_iterator <$> iterators g) (lru g) (mru g) (longName g).

Lemma mirror_iterator_involutive c : mirror_iterator (mirror_iterator c) = c.
Proof. by destruct c. Qed.

Lemma mirror_involutive g : mirror (mirror g) = g.
Proof.
  destruct g as [T m l n]. unfold mirror. simpl. f_equal. rewrite <- list_fmap_compose.
  rewrite <- (list_fmap_id T) at 2. apply list_fmap_ext. intros. apply mirror_iterator_involutive.
Qed.

Lemma data_mirror g : data (mirror g) = data g.
Proof. unfold data, mirror. simpl. rewrite <- list_fmap_compose. by apply list_fmap_ext. Qed.

Lemma linked_mirror g l : linked g l -> linked (mirror g) (reverse l).
Proof.
  intros (Hd & Hm & Hl & Hs). split_and!; simpl.
  - by rewrite reverse_Permutation.
  - by rewrite Hl, head_reverse.
  - by rewrite Hm, last_reverse.
  - by apply dseg_mirror.
Qed.

Lemma modify_mirror g p f f' : (forall c, mirror_iterator (f c) = f' (mirror_iterator c)) ->
  modify (mirror g) p f' = (g ← modify g p f; Ok (mirror g)).
Proof.
  intros Hf. destruct p as [i|]; simpl; [|done]. rewrite list_lookup_fmap.
  destruct (iterators g !! i) as [c|]; simpl; [|done]. f_equal. unfold mirror. simpl. by rewrite list_fmap_insert, Hf.
Qed.

Lemma deref_mirror g p : deref (mirror g) p = (c ← deref g p; Ok (mirror_iterator c)).
Proof. destruct p as [i|]; simpl; [|done]. rewrite list_lookup_fmap. by destruct (iterators g !! i). Qed.

Lemma modify_mirror_MRU g p x : modify (mirror g) p (set_nextMRU x) = (g ← modify g p (set_nextLRU x); Ok (mirror g)).
Proof. by apply modify_mirror. Qed.

Lemma modify_mirror_LRU g p x : modify (mirror g) p (set_nextLRU x) = (g ← modify g p (set_nextMRU x); Ok (mirror g)).
Proof. by apply modify_mirror. Qed.

(** The two insertions are the same but for the direction. *)
Lemma insert_mirror g i : InsertCatalogIteratorAsMRU (mirror g) i = (g ← InsertCatalogIteratorAsLRU g i; Ok (mirror g)).
Proof.
  unfold InsertCatalogIteratorAsLRU, InsertCatalogIteratorAsMRU. change (mru (mirror g)) with (lru g). case_bool_decide; [done|].
  change (set_mru (mirror g) (Some i)) with (mirror (set_lru g (Some i))).
  set (s := lru g). clearbody s. generalize (set_lru g (Some i)). clear g H. intros g.
  rewrite deref_mirror. destruct (deref g (Some i)) as [c| | |]; try done. cbn [mbind outcome_bind].
  change (nextLRU (mirror_iterator c)) with (nextMRU c). change (nextMRU (mirror_iterator c)) with (nextLRU c).
  rewrite modify_mirror_MRU. destruct (modify g (nextMRU c) (set_nextLRU (nextLRU c))) as [g1| | |]; try done. cbn [mbind outcome_bind].
  rewrite deref_mirror. destruct (deref g1 (Some i)) as [d| | |]; try done. cbn [mbind outcome_bind].
  change (nextLRU (mirror_iterator d)) with (nextMRU d). change (nextMRU (mirror_iterator d)) with (nextLRU d).
  assert (Hstep : forall o : outcome CatalogCacheGlobals,
    (g ← (g ← o; Ok (mirror g)); g ← modify g (Some i) (set_nextMRU s); g ← modify g (Some i) (set_nextLRU None); modify g s (set_nextLRU (Some i))) =
    (g ← (g ← o; g ← modify g (Some i) (set_nextLRU s); g ← modify g (Some i) (set_nextMRU None); modify g s (set_nextMRU (Some i))); Ok (mirror g))).
  { intros [g2| | |]; try done. cbn [mbind outcome_bind].
    rewrite modify_mirror_MRU. destruct (modify g2 (Some i) (set_nextLRU s)) as [g3| | |]; try done. cbn [mbind outcome_bind].
    rewrite modify_mirror_LRU. destruct (modify g3 (Some i) (set_nextMRU None)) as [g4| | |]; try done. cbn [mbind outcome_bind].
    apply modify_mirror_LRU. }
  destruct (nextLRU d) as [n|]; [rewrite modify_mirror_LRU|change (Ok (set_lru (mirror g1) (nextMRU d))) with (g ← Ok (set_mru g1 (nextMRU d)); Ok (mirror g))]; apply Hstep.
Qed.

(** One assignment to the links of an iterator. *)
Definition update (g : CatalogCacheGlobals) (i : nat) (c : CatalogIterator) : CatalogCacheGlobals :=
  mkGlobals (<[i := c]> (iterators g)) (mru g) (lru g) (longName g).

Lemma modify_Ok g i c f : iterators g !! i = Some c -> modify g (Some i) f = Ok (update g i (f c)).
Proof. intros Hc. simpl. by rewrite Hc. Qed.

Lemma update_lookup g i c d : iterators g !! i = Some d -> iterators (update g i c) !! i = Some c.
Proof. intros. simpl. rewrite list_lookup_insert_eq; [done|]. by eapply lookup_lt_Some. Qed.

Lemma data_update_links g i c d : iterators g !! i = Some d -> set_links None None c = set_links None None d -> data (update g i c) = data g.
Proof.
  intros Hd Hc. unfold data. simpl. rewrite list_fmap_insert, Hc. apply list_insert_id. by rewrite list_lookup_fmap, Hd.
Qed.

(** Taking an iterator out of the list: its neighbours are linked. *)
Lemma unlink_spec T pre a i post c :
  NoDup ((pre ++ [a]) ++ i :: post) -> dseg T None ((pre ++ [a]) ++ i :: post) None -> T !! i = Some c ->
  exists ca, T !! a = Some ca /\ nextLRU c = Some a /\ nextMRU c = first post None /\
    let T1 := <[a := set_nextMRU (nextMRU c) ca]> T in
    match post with
    | [] => dseg T1 None (pre ++ [a]) None
    | b :: _ => exists cb, T1 !! b = Some cb /\ dseg (<[b := set_nextLRU (Some a) cb]> T1) None ((pre ++ [a]) ++ post) None
    end.
Proof.
  intros Hd Hs Hc. apply dseg_app in Hs as [Hpre [(c' & Hc' & Hl & Hm) Hpost]]. simplify_eq. rewrite final_snoc in Hl.
  apply NoDup_app in Hd as (Hd1 & Hd2 & [Hi Hd3]%NoDup_cons).
  destruct (dseg_elem _ _ _ _ a Hpre) as [ca Hca]; [set_solver|]. exists ca. split_and!; [done..|].
  pose proof (dseg_set_last _ _ _ _ _ (nextMRU c') _ Hd1 Hca Hpre) as Hpre'. simpl.
  assert (Ha : a ∉ post) by (intros ?; by apply (Hd2 a); set_solver).
  apply (dseg_frame _ _ _ _ a (set_nextMRU (nextMRU c') ca)) in Hpost; [|done].
  destruct post as [|b post]; [by rewrite Hm in Hpre' |- *|].
  destruct (dseg_elem _ _ _ _ b Hpost) as [cb Hcb]; [set_solver|]. exists cb. split; [done|].
  apply dseg_app. rewrite final_snoc. split.
  - apply dseg_frame; [|by rewrite Hm in Hpre' |- *]. intros ?. by apply (Hd2 b); set_solver.
  - by apply (dseg_set_first _ (Some i)).
Qed.

(** Putting it in front. *)
Lemma push_spec T i h l c ch : NoDup (i :: h :: l) -> dseg T None (h :: l) None -> T !! i = Some c -> T !! h = Some ch ->
  dseg (<[h := set_nextLRU (Some i) ch]> (<[i := set_nextLRU None (set_nextMRU (Some h) c)]> T)) None (i :: h :: l) None.
Proof.
  intros [Hi Hd]%NoDup_cons Hs Hc Hh. assert (i <> h) by set_solver. split.
  - rewrite list_lookup_insert_ne, list_lookup_insert_eq by (done || by eapply lookup_lt_Some). by eexists.
  - apply (dseg_set_first _ None); [done|by rewrite list_lookup_insert_ne|]. by apply dseg_frame.
Qed.

(** The end of [InsertCatalogIteratorAsMRU]: the iterator is out of the list. *)
Lemma insert_front g i l h c : NoDup (i :: h :: l) -> iterators g !! i = Some c -> mru g = Some i -> lru g = last (h :: l) ->
  dseg (iterators g) None (h :: l) None ->
  exists g', (g ← modify g (Some i) (set_nextMRU (Some h)); g ← modify g (Some i) (set_nextLRU None); modify g (Some h) (set_nextLRU (Some i))) = Ok g' /\
    linked g' (i :: h :: l) /\ data g' = data g /\ longName g' = longName g.
Proof.
  intros Hd Hc Hm Hl Hs. destruct (dseg_elem _ _ _ _ h Hs) as [ch Hh]; [set_solver|].
  assert (i <> h) by (apply NoDup_cons in Hd; set_solver).
  rewrite (modify_Ok _ _ _ _ Hc). cbn [mbind outcome_bind].
  rewrite (modify_Ok _ _ _ _ (update_lookup _ _ _ _ Hc)). cbn [mbind outcome_bind].
  assert (Hh' : iterators (update (update g i (set_nextMRU (Some h) c)) i (set_nextLRU None (set_nextMRU (Some h) c))) !! h = Some ch).
  { simpl. by rewrite !list_lookup_insert_ne. }
  rewrite (modify_Ok _ _ _ _ Hh'). eexists. split_and!; [done| |..|done].
  - split_and!; [done|done|simpl; by rewrite Hl|]. simpl. rewrite list_insert_insert_eq. by apply push_spec.
  - rewrite (data_update_links _ _ _ _ Hh') by done.
    rewrite (data_update_links _ _ _ _ (update_lookup _ _ _ _ Hc)) by done. by apply (data_update_links _ _ _ _ Hc).
Qed.

Lemma insert_MRU_spec g pre i post : linked g (pre ++ i :: post) ->
  exists g', InsertCatalogIteratorAsMRU g i = Ok g' /\ linked g' (i :: pre ++ post) /\ data g' = data g /\ longName g' = longName g.
Proof.
  intros (Hd & Hm & Hl & Hs). unfold InsertCatalogIteratorAsMRU. case_bool_decide as Hi.
  { destruct pre as [|p pre]; [by exists g|]. exfalso. rewrite Hm in Hi. simpl in Hi. simplify_eq. apply NoDup_cons in Hd as [[] _]. set_solver. }
  destruct pre as [|a pre _] using rev_ind; [done|].
  destruct (dseg_elem _ _ _ _ i Hs) as [c Hc]; [set_solver|].
  destruct (unlink_spec _ _ _ _ _ _ Hd Hs Hc) as (ca & Hca & Hcl & Hcm & Hrest). simpl in Hrest.
  assert (Hia : i <> a) by (intros ->; apply NoDup_app in Hd; set_solver).
  assert (Hdn : NoDup (i :: (pre ++ [a]) ++ post)) by (by rewrite Permutation_middle).
  destruct (pre ++ [a]) as [|h l] eqn:El; [by destruct pre|].
  rewrite Hm. cbn [deref set_mru iterators of_option]. rewrite Hc. cbn [of_option mbind outcome_bind]. rewrite Hcl.
  rewrite (modify_Ok (set_mru g (Some i)) a ca) by done. cbn [mbind outcome_bind].
  set (g1 := update (set_mru g (Some i)) a (set_nextMRU (nextMRU c) ca)).
  assert (Hc1 : iterators g1 !! i = Some c) by (simpl; by rewrite list_lookup_insert_ne).
  assert (Hdata : data g1 = data g) by by apply (data_update_links (set_mru g (Some i)) a _ ca).
  cbn [deref]. rewrite Hc1. cbn [of_option mbind outcome_bind]. rewrite Hcm, Hcl. cbn [head app].
  destruct post as [|b post]; cbn [first mbind outcome_bind].
  - destruct (insert_front (set_lru g1 (Some a)) i l h c) as (g' & -> & ? & Hd' & ?); try done.
    + by rewrite app_nil_r in Hdn.
    + rewrite <- El. simpl. by rewrite last_snoc.
    + exists g'. rewrite app_nil_r. split_and!; [done|done|by rewrite Hd'|done].
  - destruct Hrest as (cb & Hcb & Hseg). assert (i <> b) by (apply NoDup_cons in Hdn as [Hn _]; set_solver).
    rewrite (modify_Ok g1 b cb) by done. cbn [mbind outcome_bind].
    destruct (insert_front (update g1 b (set_nextLRU (Some a) cb)) i (l ++ b :: post) h c) as (g' & -> & ? & Hd' & ?); try done.
    + simpl. by rewrite list_lookup_insert_ne.
    + simpl lru. rewrite Hl. change (h :: l ++ b :: post) with ((h :: l) ++ b :: post). rewrite <- El, !last_app. done.
    + exists g'. split_and!; [done|done| |done]. rewrite Hd', <- Hdata. by apply (data_update_links _ _ _ cb).
Qed.

Lemma insert_LRU_spec g pre i post : linked g (pre ++ i :: post) ->
  exists g', InsertCatalogIteratorAsLRU g i = Ok g' /\ linked g' (pre ++ post ++ [i]) /\ data g' = data g /\ longName g' = longName g.
Proof.
  intros Hl. apply linked_mirror in Hl. rewrite reverse_app, reverse_cons, <- app_assoc in Hl.
  destruct (insert_MRU_spec _ _ _ _ Hl) as (g' & He & Hl' & Hd & Hn). rewrite insert_mirror in He.
  apply bind_Ok in He as (g1 & He & [= <-]). exists g1. split_and!; [done| | |done].
  - apply linked_mirror in Hl'. rewrite mirror_involutive in Hl'. simpl in Hl'. rewrite reverse_cons, reverse_app, !reverse_involutive in Hl'.
    by rewrite <- app_assoc in Hl'.
  - by rewrite !data_mirror in Hd.
Qed.

(** ** Discarding the iterators of a folder *)

Definition matches (vol folder : Z) (c : CatalogIterator) : bool := (volume c =? vol) && ((folder =? 0) || (folder =? folderID c)).
Definition trash (vol folder : Z) (c : CatalogIterator) : CatalogIterator := if matches vol folder c then set_folder 0 0 c else c.
Definition matching (vol folder : Z) (D : list CatalogIterator) (i : nat) : bool :=
  match D !! i with Some c => matches vol folder c | None => false end.
(** The others first, both in their order. *)
Definition matching_last (vol folder : Z) (D : list CatalogIterator) (l : list nat) : list nat :=
  filter (fun i => matching vol folder D i = false) l ++ filter (fun i => matching vol folder D i = true) l.

Lemma matches_links m n vol folder c : matches vol folder (set_links m n c) = matches vol folder c.
Proof. done. Qed.

Lemma trash_not_matching vol folder c : vol <> 0 -> matches vol folder (trash vol folder c) = false.
Proof.
  intros Hv. unfold trash. destruct (matches vol folder c) eqn:E; [|done]. unfold matches. cbn [volume set_folder].
  by rewrite (proj2 (Z.eqb_neq 0 vol)) by auto.
Qed.

Lemma trash_idem vol folder c : vol <> 0 -> trash vol folder (trash vol folder c) = trash vol folder c.
Proof. intros Hv. unfold trash at 1. by rewrite trash_not_matching. Qed.

Lemma data_lookup g i c : iterators g !! i = Some c -> data g !! i = Some (set_links None None c).
Proof. intros Hc. unfold data. by rewrite list_lookup_fmap, Hc. Qed.

Lemma data_length g : length (data g) = length (iterators g).
Proof. apply length_fmap. Qed.

(** An assignment that leaves the links. *)
Lemma linked_data g l i c c' : linked g l -> iterators g !! i = Some c -> nextMRU c' = nextMRU c -> nextLRU c' = nextLRU c ->
  linked (update g i c') l.
Proof. intros (? & ? & ? & ?) ???. split_and!; try done. by eapply dseg_data. Qed.

Lemma data_update g i c : data (update g i c) = <[i := set_links None None c]> (data g).
Proof. apply list_fmap_insert. Qed.

(** One matching iterator is trashed and put behind the rest. *)
Section trash_one.
Context (vol folder : Z) (D : list CatalogIterator) (i : nat) (c : CatalogIterator) (rest : list nat).
Context (Hv : vol <> 0) (Hc : D !! i = Some c) (Hm : matches vol folder c = true) (Hi : i ∉ rest).
Let D' : list CatalogIterator := <[i := trash vol folder c]> D.

Lemma matching_trashed : matching vol folder D' i = false.
Proof using Hv Hc.
  unfold matching, D'. rewrite list_lookup_insert_eq by (by eapply lookup_lt_Some). by apply trash_not_matching.
Qed.

Lemma matching_others b : filter (fun j => matching vol folder D' j = b) rest = filter (fun j => matching vol folder D j = b) rest.
Proof using Hc Hi. apply filter_same. intros j Hj. unfold matching, D'. by rewrite list_lookup_insert_ne by (intros ->; done). Qed.

Lemma filter_trashed : filter (fun j => matching vol folder D' j = true) (rest ++ [i]) = filter (fun j => matching vol folder D j = true) rest.
Proof using Hv Hc Hi. rewrite filter_app, filter_cons, filter_nil, matching_trashed, matching_others. apply app_nil_r. Qed.

Lemma matching_last_cons : matching_last vol folder D' (rest ++ [i]) = matching_last vol folder D (i :: rest).
Proof using Hv Hc Hm Hi.
  unfold matching_last. rewrite filter_trashed, filter_app, !filter_cons, filter_nil, matching_trashed, matching_others.
  assert (matching vol folder D i = true) as -> by (unfold matching; by rewrite Hc). simpl. by rewrite <- app_assoc.
Qed.

Lemma trashed_lookup j :
  (if bool_decide (j ∈ rest ++ [i]) then trash vol folder else id) <$> D' !! j =
  (if bool_decide (j ∈ i :: rest) then trash vol folder else id) <$> D !! j.
Proof using Hv Hc.
  rewrite (bool_decide_ext (j ∈ rest ++ [i]) (j ∈ i :: rest)) by (rewrite elem_of_app, list_elem_of_singleton, elem_of_cons; tauto). unfold D'. destruct (decide (j = i)) as [->|Hj].
  - rewrite Hc, list_lookup_insert_eq by (by eapply lookup_lt_Some). rewrite bool_decide_eq_true_2 by apply elem_of_cons, or_introl, eq_refl. simpl. by rewrite trash_idem.
  - by rewrite list_lookup_insert_ne.
Qed.
End trash_one.

(** The body of the loop: an iterator that does not match is passed, one that does is
    trashed and put at the end unless it is there. *)
Lemma trash_loop_pass fuel g vol folder i c : iterators g !! i = Some c -> matches vol folder c = false ->
  trash_loop (S fuel) g vol folder (Some i) = trash_loop fuel g vol folder (nextMRU c).
Proof.
  intros Hc Hm. cbn [trash_loop deref]. rewrite Hc. cbn [of_option mbind outcome_bind]. unfold matches in Hm.
  destruct (volume c =? vol); [|done]. simpl in Hm. by rewrite Hm.
Qed.

Lemma trash_loop_match fuel g vol folder i c : iterators g !! i = Some c -> matches vol folder c = true ->
  trash_loop (S fuel) g vol folder (Some i) =
  (let g := update g i (set_folder 0 0 c) in
   match nextMRU c with Some next => g ← InsertCatalogIteratorAsLRU g i; trash_loop fuel g vol folder (Some next) | None => Ok g end).
Proof.
  intros Hc Hm. cbn [trash_loop]. rewrite (modify_Ok _ _ _ _ Hc). cbn [deref]. rewrite Hc. cbn [of_option mbind outcome_bind].
  by apply andb_true_iff in Hm as [-> ->].
Qed.

Lemma trash_loop_spec vol folder : vol <> 0 -> forall fuel g before rest,
  linked g (before ++ rest) -> (length rest + length (filter (fun i => matching vol folder (data g) i = true) rest) <= fuel)%nat ->
  exists g', trash_loop fuel g vol folder (head rest) = Ok g' /\ linked g' (before ++ matching_last vol folder (data g) rest) /\
    longName g' = longName g /\
    forall j, data g' !! j = (if bool_decide (j ∈ rest) then trash vol folder else id) <$> data g !! j.
Proof.
  intros Hv. induction fuel as [|fuel IH]; intros g before [|i rest] Hl Hf; try (simpl in Hf; lia);
    try (exists g; split_and!; try done; intros j; by rewrite option_fmap_id).
  pose proof Hl as (Hd & _ & _ & Hs). apply NoDup_app in Hd as (_ & _ & [Hi _]%NoDup_cons).
  apply dseg_app in Hs as [_ [(c & Hc & _ & Hm) _]]. pose proof (data_lookup _ _ _ Hc) as HD.
  assert (Hnext : nextMRU c = head rest) by (by rewrite Hm; destruct rest).
  assert (Hmi : matching vol folder (data g) i = matches vol folder c) by (unfold matching; by rewrite HD).
  rewrite filter_cons, Hmi in Hf. simpl head. destruct (matches vol folder c) eqn:Ec.
  - rewrite (trash_loop_match _ _ _ _ _ _ Hc Ec). cbv zeta. set (g1 := update g i (set_folder 0 0 c)).
    assert (Hl1 : linked g1 (before ++ i :: rest)) by (by eapply linked_data).
    assert (Hdata1 : data g1 = <[i := trash vol folder (set_links None None c)]> (data g)).
    { unfold g1. rewrite data_update. unfold trash. by rewrite matches_links, Ec. }
    rewrite Hnext. destruct rest as [|n rest]; cbn [head].
    + exists g1. split_and!; [done| |done|].
      * unfold matching_last. rewrite !filter_cons, Hmi. exact Hl1.
      * intros j. rewrite Hdata1. rewrite <- (trashed_lookup vol folder _ i _ []) by done. simpl app. case_bool_decide as Hj; [|by rewrite option_fmap_id].
        apply list_elem_of_singleton in Hj as ->. rewrite list_lookup_insert_eq by (by eapply lookup_lt_Some). simpl. by rewrite trash_idem.
    + destruct (insert_LRU_spec _ _ _ _ Hl1) as (g2 & -> & Hl2 & Hd2 & Hn2). cbn [mbind outcome_bind]. rewrite <- Hd2 in Hdata1.
      destruct (IH g2 before ((n :: rest) ++ [i])) as (g' & He & Hl' & Hn' & Hdata').
      * done.
      * rewrite Hdata1, filter_trashed, length_app by done. simpl in Hf |- *. lia.
      * exists g'. rewrite Hdata1 in Hl', Hdata'. rewrite matching_last_cons in Hl' by done.
        split_and!; [done|done|by rewrite Hn'|]. intros j. rewrite Hdata'. by apply trashed_lookup.
  - rewrite (trash_loop_pass _ _ _ _ _ _ Hc Ec), Hnext. destruct (IH g (before ++ [i]) rest) as (g' & -> & Hl' & Hn' & Hdata').
    + by rewrite <- app_assoc.
    + simpl in Hf. lia.
    + exists g'. split_and!; [done| |done|].
      * unfold matching_last. rewrite !filter_cons, Hmi. simpl. by rewrite <- app_assoc in Hl'.
      * intros j. rewrite Hdata'. destruct (decide (j = i)) as [->|Hj].
        -- rewrite HD. rewrite bool_decide_eq_false_2, bool_decide_eq_true_2 by set_solver. simpl. unfold trash. by rewrite matches_links, Ec.
        -- by rewrite (bool_decide_ext (j ∈ i :: rest) (j ∈ rest)) by set_solver.
Qed.
