(* ===== verification/CatalogIteratorTheorems.v ===== *)
(** * The cache of catalog iterators: its state and its routines

    Every iterator is in the list once and its name is stored as its kind says; each
    routine keeps that.  The theorems say which iterator is found or recycled, which are
    discarded, and that the position of a B-tree iterator survives being kept in one.  Here a
    routine runs alone; CatalogIteratorThreads.v has several threads. *)
From S2P Require Import Prelude Bits VolumeBitmap VolumeAllocation ExtentMapping UtfConv NameMangling Encodings MacTime.
From S2P Require Import Bytes UnicodeCompare BTreeNode BTreeKeys BTreeBlocks BTreeFile NodeSwap Catalog CatalogKeys CatalogIterators CatalogIteratorLists.

(** ** The state of the cache *)

(** The kind of a name is how it is stored. *)
Definition name_ok (c : CatalogIterator) : Prop :=
  match folderName c with
  | LocalName b => (nameType c = kShortPascalName \/ nameType c = kShortUnicodeName) /\ Z.of_nat (length b) = sizeof_UniStr63 /\ Forall byte b
  | LongNamePtr => nameType c = kLongUnicodeName
  end.

(** Every iterator is in the list once. *)
Record cache_inv (g : CatalogCacheGlobals) (l : list nat) : Prop := {
  ci_linked : linked g l;
  ci_all : l ≡ₚ seq 0 kCatalogIteratorCount;
  ci_count : length (iterators g) = kCatalogIteratorCount;
  ci_names : Forall name_ok (data g);
  ci_long : length (longName g) = 512%nat /\ Forall byte (longName g)
}.

Lemma cache_elem g l i : cache_inv g l -> i ∈ l <-> (i < kCatalogIteratorCount)%nat.
Proof. intros H. rewrite (ci_all _ _ H), elem_of_seq. lia. Qed.

Lemma cache_length g l : cache_inv g l -> length l = kCatalogIteratorCount.
Proof. intros H. by rewrite (ci_all _ _ H), length_seq. Qed.

Lemma cache_lookup g l i : cache_inv g l -> (i < kCatalogIteratorCount)%nat -> exists c, iterators g !! i = Some c /\ name_ok c.
Proof.
  intros H Hi. rewrite <- (ci_count _ _ H) in Hi. apply lookup_lt_is_Some_2 in Hi as [c Hc]. exists c. split; [done|].
  pose proof (ci_names _ _ H) as Hn. rewrite Forall_lookup in Hn. apply (Hn i (set_links None None c)). by apply data_lookup.
Qed.

(** A change of one iterator and of the order. *)
Lemma cache_step g l g' l' i c : cache_inv g l -> linked g' l' -> l' ≡ₚ l -> data g' = <[i := c]> (data g) -> name_ok c ->
  longName g' = longName g -> cache_inv g' l'.
Proof.
  intros H Hl Hp Hd Hn Hlong. split; [done| | | |by rewrite Hlong; apply (ci_long _ _ H)].
  - by rewrite Hp, (ci_all _ _ H).
  - by rewrite <- data_length, Hd, length_insert, data_length, (ci_count _ _ H).
  - rewrite Hd. apply Forall_insert; [apply (ci_names _ _ H)|done].
Qed.

Lemma cache_order g l g' l' : cache_inv g l -> linked g' l' -> l' ≡ₚ l -> data g' = data g -> longName g' = longName g -> cache_inv g' l'.
Proof.
  intros H Hl Hp Hd Hlong. split; [done| | |by rewrite Hd; apply (ci_names _ _ H)|by rewrite Hlong; apply (ci_long _ _ H)].
  - by rewrite Hp, (ci_all _ _ H).
  - by rewrite <- data_length, Hd, data_length, (ci_count _ _ H).
Qed.

Lemma name_ok_links m n c : name_ok (set_links m n c) <-> name_ok c.
Proof. done. Qed.

(** An assignment to an iterator. *)
Lemma cache_update g l i c c' : cache_inv g l -> iterators g !! i = Some c -> nextMRU c' = nextMRU c -> nextLRU c' = nextLRU c -> name_ok c' ->
  cache_inv (update g i c') l.
Proof.
  intros H Hc Hm Hl Hn. apply (cache_step g l _ _ i (set_links None None c')); [done| |done|apply data_update|done|done].
  eapply linked_data; [by apply ci_linked|done..].
Qed.

(** An assignment that has nothing to do with the links. *)
Definition plain (f : CatalogIterator -> CatalogIterator) : Prop := forall m n c, f (set_links m n c) = set_links m n (f c).

Lemma plain_links f c : plain f -> nextMRU (f c) = nextMRU c /\ nextLRU (f c) = nextLRU c.
Proof.
  intros Hf. assert (Hc : set_links (nextMRU c) (nextLRU c) c = c) by by destruct c.
  pose proof (Hf (nextMRU c) (nextLRU c) c) as E. rewrite Hc in E. by rewrite E.
Qed.

Lemma data_iterator g i c : data g !! i = Some c -> exists d, iterators g !! i = Some d /\ c = set_links None None d.
Proof. unfold data. rewrite list_lookup_fmap. destruct (iterators g !! i) as [d|]; [|done]. intros [= <-]. by exists d. Qed.

Lemma cache_data g l i : cache_inv g l -> (i < kCatalogIteratorCount)%nat -> exists c, data g !! i = Some c /\ name_ok c.
Proof. intros H Hi. destruct (cache_lookup _ _ _ H Hi) as (c & Hc & Hn). exists (set_links None None c). by rewrite (data_lookup _ _ _ Hc). Qed.

Lemma data_name_ok g l i c : cache_inv g l -> data g !! i = Some c -> name_ok c.
Proof. intros H Hc. pose proof (ci_names _ _ H) as Hn. rewrite Forall_lookup in Hn. exact (Hn _ _ Hc). Qed.

Lemma data_count g l i c : cache_inv g l -> data g !! i = Some c -> (i < kCatalogIteratorCount)%nat.
Proof. intros H Hc. rewrite <- (ci_count _ _ H), <- data_length. by eapply lookup_lt_Some. Qed.

Lemma modify_spec g l i f c : cache_inv g l -> data g !! i = Some c -> plain f -> name_ok (f c) ->
  exists g', modify g (Some i) f = Ok g' /\ cache_inv g' l /\ data g' = <[i := f c]> (data g) /\ longName g' = longName g.
Proof.
  intros H (d & Hd & ->)%data_iterator Hf Hn. rewrite (modify_Ok _ _ _ _ Hd). eexists. split; [done|].
  destruct (plain_links f d Hf). rewrite data_update, Hf. rewrite Hf in Hn. split; [|done]. by apply (cache_update g l i d).
Qed.

Lemma InitCatalogCache_inv : cache_inv InitCatalogCache (seq 0 kCatalogIteratorCount).
Proof.
  split; [|done|done| |].
  - split_and!; [apply NoDup_seq|done|done|]. simpl. by repeat (split; [by eexists|]).
  - apply Forall_forall. intros c (d & -> & (i & -> & _)%list_elem_of_fmap)%list_elem_of_fmap. simpl. split_and!; [by left|done|]. by apply Forall_replicate.
  - split; [done|]. by apply Forall_replicate.
Qed.

(** *** Ageing and releasing *)

Definition to_front (i : nat) (l : list nat) : list nat := i :: filter (fun j => j <> i) l.
Definition to_back (i : nat) (l : list nat) : list nat := filter (fun j => j <> i) l ++ [i].

Lemma filter_split (pre : list nat) i post : NoDup (pre ++ i :: post) -> filter (fun j => j <> i) (pre ++ i :: post) = pre ++ post.
Proof.
  intros (Hd1 & Hd2 & [Hi Hd3]%NoDup_cons)%NoDup_app. rewrite filter_app, filter_cons_False by auto.
  rewrite !filter_all; [done|apply Forall_forall; set_solver|]. apply Forall_forall. intros j Hj ->. by apply (Hd2 i); set_solver.
Qed.

Lemma insert_front_spec g l i : linked g l -> i ∈ l ->
  exists g', InsertCatalogIteratorAsMRU g i = Ok g' /\ linked g' (to_front i l) /\ data g' = data g /\ longName g' = longName g.
Proof.
  intros Hl (pre & post & ->)%list_elem_of_split. unfold to_front. rewrite filter_split by apply Hl. by apply insert_MRU_spec.
Qed.

Lemma insert_back_spec g l i : linked g l -> i ∈ l ->
  exists g', InsertCatalogIteratorAsLRU g i = Ok g' /\ linked g' (to_back i l) /\ data g' = data g /\ longName g' = longName g.
Proof.
  intros Hl (pre & post & ->)%list_elem_of_split. unfold to_back. rewrite filter_split, <- app_assoc by apply Hl. by apply insert_LRU_spec.
Qed.

Lemma to_front_perm i l : NoDup l -> i ∈ l -> to_front i l ≡ₚ l.
Proof.
  intros Hd (pre & post & ->)%list_elem_of_split. unfold to_front. rewrite filter_split by done. by rewrite Permutation_middle.
Qed.

Lemma to_back_perm i l : NoDup l -> i ∈ l -> to_back i l ≡ₚ l.
Proof. intros Hd Hi. trans (to_front i l); [|by apply to_front_perm]. symmetry. apply Permutation_cons_append. Qed.

Lemma AgeCatalogIterator_spec g l i : cache_inv g l -> (i < kCatalogIteratorCount)%nat ->
  exists g', AgeCatalogIterator g i = Ok g' /\ cache_inv g' (to_back i l) /\ data g' = data g.
Proof.
  intros H Hi%(cache_elem g l i H). destruct (insert_back_spec g l i) as (g' & He & Hl & Hd & Hn); [apply H|done|].
  exists g'. split_and!; [done| |done]. apply (cache_order g l); try done. apply to_back_perm; [apply (ci_linked _ _ H)|done].
Qed.

Lemma ReleaseCatalogIterator_spec g l i : cache_inv g l -> (i < kCatalogIteratorCount)%nat ->
  exists g', ReleaseCatalogIterator g i = Ok g' /\ cache_inv g' l.
Proof.
  intros H Hi. destruct (cache_lookup g l i H Hi) as (c & Hc & Hn). unfold ReleaseCatalogIterator. rewrite (modify_Ok _ _ _ _ Hc).
  eexists. split; [done|]. by apply (cache_update g l i c).
Qed.

(** *** Discarding *)

Lemma matching_last_perm vol folder D l : matching_last vol folder D l ≡ₚ l.
Proof.
  unfold matching_last. induction l as [|i l IH]; [done|]. rewrite !filter_cons.
  destruct (matching vol folder D i); simpl; [by rewrite <- Permutation_middle, IH|by rewrite IH].
Qed.

Lemma matching_count vol folder D l : (length (filter (fun i => matching vol folder D i = true) l) <= length l)%nat.
Proof. apply length_filter. Qed.

Lemma trash_name_ok vol folder c : name_ok c -> name_ok (trash vol folder c).
Proof. intros H. unfold trash. by destruct (matches vol folder c). Qed.

Lemma TrashCatalogIterator_spec g l vol folder : cache_inv g l -> vol <> 0 ->
  exists g', TrashCatalogIterator g vol folder = Ok g' /\ cache_inv g' (matching_last vol folder (data g) l) /\
    data g' = trash vol folder <$> data g /\ longName g' = longName g.
Proof.
  intros H Hv. pose proof (ci_linked _ _ H) as Hl. unfold TrashCatalogIterator.
  destruct (trash_loop_spec vol folder Hv (2 * kCatalogIteratorCount) g [] l) as (g' & He & Hl' & Hn & Hd); [done| |].
  { pose proof (matching_count vol folder (data g) l). rewrite (cache_length _ _ H) in *. lia. }
  rewrite (proj1 (proj2 Hl)). exists g'.
  assert (Hd' : data g' = trash vol folder <$> data g).
  { apply list_eq. intros j. rewrite Hd, list_lookup_fmap. case_bool_decide as Hj; [done|].
    rewrite (cache_elem _ _ _ H), <- (ci_count _ _ H), <- data_length in Hj. by rewrite lookup_ge_None_2 by lia. }
  split_and!; [done| |done|done]. split; [done| | | |by rewrite Hn; apply (ci_long _ _ H)].
  - by rewrite matching_last_perm, (ci_all _ _ H).
  - by rewrite <- data_length, Hd', length_fmap, data_length, (ci_count _ _ H).
  - rewrite Hd'. apply Forall_fmap. eapply Forall_impl; [apply (ci_names _ _ H)|]. intros c. apply trash_name_ok.
Qed.

(** *** Getting an iterator *)

(** One of the folder, not busy, that stands at the offset. *)
Definition suits (vol folder offset : Z) (c : CatalogIterator) : bool :=
  (volume c =? vol) && (folderID c =? folder) && negb (ci_locked c) && ((currentOffset c =? offset) || (nextOffset c =? offset)).
Definition suitable (vol folder offset : Z) (D : list CatalogIterator) (i : nat) : bool :=
  match D !! i with Some c => suits vol folder offset c | None => false end.
Definition best (vol folder offset : Z) (D : list CatalogIterator) (l : list nat) : option nat :=
  head (filter (fun i => suitable vol folder offset D i = true) l).

Lemma find_iterator_spec vol folder offset : forall fuel g before rest, linked g (before ++ rest) -> (length rest <= fuel)%nat ->
  find_iterator fuel g vol folder offset (head rest) = Ok (best vol folder offset (data g) rest).
Proof.
  induction fuel as [|fuel IH]; intros g before [|i rest] Hl Hf; try (simpl in Hf; lia); try done.
  pose proof Hl as (_ & _ & _ & Hs). apply dseg_app in Hs as [_ [(c & Hc & _ & Hm) _]].
  assert (Hnext : nextMRU c = head rest) by (by rewrite Hm; destruct rest).
  assert (Hsi : suitable vol folder offset (data g) i = suits vol folder offset c) by (unfold suitable; by rewrite (data_lookup _ _ _ Hc)).
  cbn [find_iterator head deref]. rewrite Hc. cbn [of_option mbind outcome_bind]. rewrite Hnext.
  rewrite (IH g (before ++ [i]) rest) by ((by rewrite <- app_assoc) || (simpl in Hf; lia)).
  unfold best. rewrite filter_cons, Hsi. unfold suits.
  destruct (volume c =? vol); [|done]. destruct (folderID c =? folder); [|done]. destruct (ci_locked c); [done|].
  cbn [negb orb andb]. by destruct ((currentOffset c =? offset) || (nextOffset c =? offset)).
Qed.

Lemma best_suits vol folder offset D l i : best vol folder offset D l = Some i ->
  i ∈ l /\ exists c, D !! i = Some c /\ suits vol folder offset c = true.
Proof.
  intros [Hs Hi]%head_Some_elem_of%list_elem_of_filter. split; [done|]. unfold suitable in Hs. destruct (D !! i) as [c|]; [|done]. by exists c.
Qed.

(** The lock is taken and the rest begins anew. *)
Definition recycled (vol folder sigWord : Z) (c : CatalogIterator) : CatalogIterator := recycle vol folder sigWord (set_locked true c).

(** The choice, and what becomes of the iterator chosen. *)
Definition choice (vol sigWord folder offset : Z) (D : list CatalogIterator) (l : list nat) : option (nat * (CatalogIterator -> CatalogIterator)) :=
  match best vol folder offset D l with
  | Some i => Some (i, set_locked true)
  | None => i ← last l; c ← D !! i; if ci_locked c then None else Some (i, recycled vol folder sigWord)
  end.

(** An iterator at the thread of a folder: the key is the folder with no name, and no offset
    is known. *)
Record at_thread (vol sigWord folder : Z) (c : CatalogIterator) : Prop := {
  at_volume : volume c = vol;
  at_folder : folderID c = folder;
  at_parent : parentID c = folder;
  at_name : exists b, folderName c = LocalName b /\ get b 0 2 = 0;
  at_type : nameType c = if sigWord =? 0x482B then 1 else 0;
  at_hints : btreeNodeHint c = 0 /\ btreeIndexHint c = 0;
  at_index : currentIndex c = -1;
  at_offsets : currentOffset c = 0xFFFFFFFF /\ nextOffset c = 0xFFFFFFFF
}.

Lemma put_name_ok b : Z.of_nat (length b) = sizeof_UniStr63 -> Forall byte b -> length (put b 0 2 0) = length b /\ Forall byte (put b 0 2 0).
Proof. unfold sizeof_UniStr63. intros. split; [apply put_length; lia|by apply put_bytes_all]. Qed.

Lemma recycle_name_ok vol folder sigWord c : name_ok c -> name_ok (recycle vol folder sigWord c).
Proof.
  intros Hn. unfold name_ok. cbn [folderName nameType recycle clear_name]. split; [destruct (sigWord =? kHFSPlusSigWord); auto|].
  unfold name_ok in Hn. destruct (folderName c) as [b|].
  - destruct Hn as (_ & Hl & Hb). destruct (put_name_ok b Hl Hb) as [Hlen Hbytes]. split; [by rewrite Hlen|done].
  - split; [done|by apply Forall_replicate].
Qed.

Lemma recycle_at_thread vol folder sigWord c : name_ok c -> at_thread vol sigWord folder (recycle vol folder sigWord c).
Proof.
  intros Hn. split; try done. cbn [folderName recycle]. unfold clear_name, name_ok in *. eexists. split; [done|].
  destruct (folderName c) as [b|]; [|done]. destruct Hn as (_ & Hl & _). unfold sizeof_UniStr63 in Hl. by rewrite get_put_same by lia.
Qed.

(** The iterator is changed and put in front. *)
Lemma take_spec g l i f c : cache_inv g l -> data g !! i = Some c -> plain f -> name_ok (f c) ->
  exists g', (g ← modify g (Some i) f; InsertCatalogIteratorAsMRU g i) = Ok g' /\ cache_inv g' (to_front i l) /\
    data g' = <[i := f c]> (data g) /\ longName g' = longName g.
Proof.
  intros H Hc Hf Hn. pose proof (proj2 (cache_elem g l i H) (data_count g l i c H Hc)) as Hi.
  destruct (modify_spec g l i f c H Hc Hf Hn) as (g1 & -> & H1 & Hd1 & Hn1). cbn [mbind outcome_bind].
  destruct (insert_front_spec g1 l i) as (g' & He & Hl' & Hd & Hlong); [apply H1|done|].
  exists g'. rewrite Hd, Hlong. split_and!; [done| |done|done]. apply (cache_order g1 l); try done.
  apply to_front_perm; [apply (ci_linked _ _ H)|done].
Qed.

(** An iterator that suits is taken, or the oldest one is to be. *)
Lemma get_choose_spec g l vol folder offset : cache_inv g l ->
  match best vol folder offset (data g) l with
  | Some i => exists c g', data g !! i = Some c /\ ci_locked c = false /\ get_choose g vol folder offset = Ok (i, true, g') /\ cache_inv g' (to_front i l) /\
      data g' = <[i := set_locked true c]> (data g) /\ longName g' = longName g
  | None => exists i, last l = Some i /\ (i < kCatalogIteratorCount)%nat /\ get_choose g vol folder offset = Ok (i, false, g)
  end.
Proof.
  intros H. pose proof (ci_linked _ _ H) as Hl. unfold get_choose. rewrite (proj1 (proj2 Hl)).
  rewrite (find_iterator_spec _ _ _ _ g [] l Hl) by (by rewrite (cache_length _ _ H)). cbn [mbind outcome_bind].
  destruct (best vol folder offset (data g) l) as [i|] eqn:Eb.
  - apply best_suits in Eb as (Hi%(cache_elem g l i H) & c & Hc & Hs). destruct (cache_data _ _ _ H Hi) as (c' & Hc' & Hn). simplify_eq.
    destruct (take_spec g l i (set_locked true) c H Hc) as (g' & He & H' & Hd & Hlong); [done..|]. exists c, g'.
    destruct (modify g (Some i) (set_locked true)) as [g1| | |]; try done. cbn [mbind outcome_bind] in *. rewrite He. split_and!; try done.
    unfold suits in Hs. by destruct (ci_locked c); [rewrite andb_false_r in Hs|].
  - rewrite (proj1 (proj2 (proj2 Hl))). destruct (last l) as [i|] eqn:El; cycle 1.
    { apply last_None in El as ->. pose proof (cache_length _ _ H). done. }
    exists i. split_and!; [done| |done]. apply (cache_elem g l i H). by apply last_Some_elem_of.
Qed.

Lemma lock_spec g l i c : cache_inv g l -> data g !! i = Some c -> if ci_locked c then CI_LOCK_FROM_LIST g i = Ok None else
  exists g', CI_LOCK_FROM_LIST g i = Ok (Some g') /\ cache_inv g' l /\ data g' = <[i := set_locked true c]> (data g) /\ longName g' = longName g.
Proof.
  intros H Hc. pose proof (data_iterator _ _ _ Hc) as (d & Hd & ->). cbn [ci_locked set_links]. unfold CI_LOCK_FROM_LIST. cbn [deref]. rewrite Hd.
  cbn [of_option mbind outcome_bind]. destruct (ci_locked d); [done|].
  pose proof (data_name_ok g l i _ H Hc) as Hn.
  destruct (modify_spec g l i (set_locked true) _ H Hc) as (g' & -> & ? & ? & ?); [done..|]. by exists g'.
Qed.

Lemma get_recycle_spec g l i c vol sigWord folder : cache_inv g l -> data g !! i = Some c -> exists g', get_recycle g i vol sigWord folder = Ok g' /\
  cache_inv g' (to_front i l) /\ data g' = <[i := recycle vol folder sigWord c]> (data g) /\ longName g' = longName g.
Proof.
  intros H Hc. apply (take_spec g l i); [done..|]. by apply recycle_name_ok, (data_name_ok g l i).
Qed.

Lemma GetCatalogIterator_spec g l vol sigWord folder offset i f : cache_inv g l ->
  choice vol sigWord folder offset (data g) l = Some (i, f) ->
  exists c g', data g !! i = Some c /\ GetCatalogIterator g vol sigWord folder offset = Ok (i, g') /\ cache_inv g' (to_front i l) /\
    data g' = <[i := f c]> (data g) /\ longName g' = longName g.
Proof.
  intros H Hch. pose proof (get_choose_spec g l vol folder offset H) as Hg. unfold GetCatalogIterator. unfold choice in Hch.
  destruct (best vol folder offset (data g) l) as [j|] eqn:Eb.
  - destruct Hg as (c & g' & Hc & _ & -> & H' & Hd & Hn). cbn [mbind outcome_bind]. simplify_eq. by exists c, g'.
  - destruct Hg as (j & El & Hj & ->). cbn [mbind outcome_bind]. rewrite El in Hch. cbn [mbind option_bind] in Hch.
    destruct (data g !! j) as [c|] eqn:Hc; [|done]. cbn in Hch. pose proof (lock_spec g l j c H Hc) as Hk.
    destruct (ci_locked c); [done|]. destruct Hk as (g1 & -> & H1 & Hd1 & Hn1). cbn [mbind outcome_bind]. simplify_eq.
    destruct (get_recycle_spec g1 l i (set_locked true c) vol sigWord folder H1) as (g' & -> & H' & Hd' & Hn').
    { rewrite Hd1. apply list_lookup_insert_eq. by eapply lookup_lt_Some. }
    exists c, g'. rewrite Hd', Hd1, list_insert_insert_eq, Hn'. by split_and!.
Qed.

(** The iterator is of the folder, locked, and stands at the offset or at the thread. *)
Lemma choice_result vol sigWord folder offset D l i f c : choice vol sigWord folder offset D l = Some (i, f) -> D !! i = Some c -> name_ok c ->
  i ∈ l /\ volume (f c) = vol /\ folderID (f c) = folder /\ ci_locked c = false /\ ci_locked (f c) = true /\
  (f c = set_locked true c /\ (currentOffset c = offset \/ nextOffset c = offset) \/ at_thread vol sigWord folder (f c)).
Proof.
  unfold choice. intros Hch HD Hn. destruct (best vol folder offset D l) as [j|] eqn:Eb; [simplify_eq|].
  - apply best_suits in Eb as (Hi & d & Hd & Hs). simplify_eq. unfold suits in Hs.
    apply andb_true_iff in Hs as [[[Hv Hf]%andb_true_iff Hk]%andb_true_iff Ho]. apply negb_true_iff in Hk. apply orb_true_iff in Ho.
    rewrite !Z.eqb_eq in *. cbn. tauto.
  - destruct (last l) as [j|] eqn:El; [|done]. cbn in Hch. destruct (D !! j) as [d|] eqn:Ed; [|done]. cbn in Hch.
    destruct (ci_locked d) eqn:Ek; [done|]. simplify_eq. cbn. split_and!; try done; [by apply last_Some_elem_of|]. right. by apply recycle_at_thread.
Qed.

(** ** Keys built from names *)

Lemma splice_drop b p s : 0 <= p -> p + Z.of_nat (length s) <= Z.of_nat (length b) ->
  splice b p (splice (drop (Z.to_nat p) b) 0 s) = splice b p s.
Proof.
  intros Hp Hs. unfold splice at 2. rewrite take_0. unfold splice. cbn [app]. rewrite !length_app, !length_drop.
  rewrite drop_drop. f_equal. rewrite <- app_assoc. f_equal.
  change (Z.to_nat 0) with 0%nat. rewrite !Nat.add_0_l. set (r := drop (Z.to_nat p + length s) b). rewrite (drop_ge b) by lia. apply app_nil_r.
Qed.

Lemma slice_field_at b b' p q n : 0 <= p -> 0 <= q -> 0 <= n -> p + n <= Z.of_nat (length b) -> q + n <= Z.of_nat (length b') ->
  Forall byte b -> Forall byte b' -> get b p n = get b' q n -> slice b p n = slice b' q n.
Proof. intros Hp Hq Hn Hl Hl' Hb Hb' E. rewrite <- (splice_whole b), <- (splice_whole b') by done. by rewrite E. Qed.

(** Two keys of the same parent and name. *)
Lemma same_key_trim k k' n : Forall byte k -> Forall byte k' -> 0 <= n -> 8 + 2 * n <= Z.of_nat (length k) -> 8 + 2 * n <= Z.of_nat (length k') ->
  get k 0 2 = 6 + 2 * n -> get k' 0 2 = 6 + 2 * n -> get k 2 4 = get k' 2 4 -> slice k 6 (2 + 2 * n) = slice k' 6 (2 + 2 * n) ->
  key_trim k = key_trim k'.
Proof.
  intros Hb Hb' Hn Hl Hl' E E' Ep Es. unfold key_trim. rewrite E, E'.
  replace (2 + (6 + 2 * n)) with (2 + (4 + (2 + 2 * n))) by lia. rewrite !(slice_app _ _ 2), !(slice_app _ _ 4) by lia.
  change (0 + 2) with 2. change (2 + 4) with 6.
  rewrite Es. f_equal; [|f_equal]; apply slice_field_at; done || lia.
Qed.

Section build.
Context (parent n : Z) (b key : buffer).
Context (Hp : 0 <= parent < 2 ^ 32) (Hn : 0 <= n <= 255) (Hb : Forall byte b) (Hk : Forall byte key).
Context (Hbl : 2 + 2 * n <= Z.of_nat (length b)) (Hkl : 8 + 2 * n <= Z.of_nat (length key)) (Hbn : get b 0 2 = n).

Lemma build_key_plus : let k := BuildCatalogKey parent (if 0 <? n then Some b else None) true key in
  Forall byte k /\ length k = length key /\ get k 0 2 = 6 + 2 * n /\ get k 2 4 = parent /\ slice k 6 (2 + 2 * n) = slice b 0 (2 + 2 * n).
Proof using All.
  assert (Hp' : parent mod 2 ^ 32 = parent) by (by apply Z.mod_small). cbn [BuildCatalogKey puts foldl].
  set (k1 := put (put (put key 0 2 _) 2 4 parent) 6 2 0).
  assert (Hk1 : Forall byte k1) by (unfold k1; by repeat apply put_bytes_all).
  assert (Hl1 : length k1 = length key) by (unfold k1; rewrite !put_length; buffer_length).
  assert (H0 : get k1 0 2 = 6) by (unfold k1; by read_field).
  assert (H2 : get k1 2 4 = parent) by (unfold k1; read_field; done).
  destruct (Z.ltb_spec 0 n); cbv beta zeta iota.
  - unfold CopyCatalogName. rewrite Hbn. replace (1 <? 2 * (n + 1)) with true by (symmetry; apply Z.ltb_lt; lia).
    assert (Hs : Z.of_nat (length (slice b 0 (2 * (n + 1)))) = 2 + 2 * n) by (rewrite slice_length; lia).
    change (drop 6 k1) with (drop (Z.to_nat 6) k1). rewrite splice_drop by lia. set (k2 := splice k1 6 _).
    assert (Hl2 : length k2 = length key) by (unfold k2; rewrite splice_length; lia).
    assert (Hk2 : Forall byte k2) by (apply splice_bytes; [done|by apply slice_bytes]).
    assert (H02 : get k2 0 2 = 6) by (unfold k2; rewrite get_splice_other; lia).
    split_and!.
    + by apply put_bytes_all.
    + rewrite put_length; lia.
    + rewrite get_put_same, H02 by lia. apply wrap_idem. lia.
    + rewrite get_put_other by lia. unfold k2. rewrite get_splice_other; lia.
    + rewrite slice_put_other by lia. unfold k2. rewrite slice_splice_same by lia. f_equal. lia.
  - assert (n = 0) as E0 by lia. rewrite E0. split_and!; try done. change (2 + 2 * 0) with 2.
    assert (get k1 6 2 = 0) as H6 by (unfold k1; by rewrite get_put_same by buffer_length).
    apply slice_field_at; [lia..|done|done|lia].
Qed.
End build.

(** ** The buffer of long names *)

Definition has_long (D : list CatalogIterator) (i : nat) : bool :=
  match D !! i with Some c => nameType c =? kLongUnicodeName | None => false end.
(** The iterator that loses the buffer. *)
Definition holder (D : list CatalogIterator) (l : list nat) : option nat := head (filter (fun i => has_long D i = true) l).

Lemma find_long_spec : forall fuel g before rest, linked g (before ++ rest) -> (length rest <= fuel)%nat ->
  find_long fuel g (head rest) = Ok (holder (data g) rest).
Proof.
  induction fuel as [|fuel IH]; intros g before [|i rest] Hl Hf; try (simpl in Hf; lia); try done.
  pose proof Hl as (_ & _ & _ & Hs). apply dseg_app in Hs as [_ [(c & Hc & _ & Hm) _]].
  assert (Hnext : nextMRU c = head rest) by (by rewrite Hm; destruct rest).
  assert (Hi : has_long (data g) i = (nameType c =? kLongUnicodeName)) by (unfold has_long; by rewrite (data_lookup _ _ _ Hc)).
  cbn [find_long head deref]. rewrite Hc. cbn [of_option mbind outcome_bind]. rewrite Hnext.
  rewrite (IH g (before ++ [i]) rest) by ((by rewrite <- app_assoc) || (simpl in Hf; lia)).
  unfold holder. rewrite filter_cons, Hi. by destruct (nameType c =? kLongUnicodeName).
Qed.

Lemma holder_long D l j : holder D l = Some j -> j ∈ l /\ exists c, D !! j = Some c /\ nameType c = kLongUnicodeName.
Proof.
  intros [Hs Hj]%head_Some_elem_of%list_elem_of_filter. split; [done|]. unfold has_long in Hs. destruct (D !! j) as [c|]; [|done].
  exists c. by rewrite Z.eqb_eq in Hs.
Qed.

(** The one that loses the buffer becomes the oldest. *)
Lemma prepare_choose_spec g l : cache_inv g l ->
  match holder (data g) l with
  | None => prepare_choose g = Ok (None, g)
  | Some j => exists g', prepare_choose g = Ok (Some j, g') /\ cache_inv g' (to_back j l) /\ data g' = data g /\ longName g' = longName g
  end.
Proof.
  intros H. pose proof (ci_linked _ _ H) as Hl. unfold prepare_choose. rewrite (proj1 (proj2 Hl)).
  rewrite (find_long_spec _ g [] l Hl) by (by rewrite (cache_length _ _ H)). cbn [mbind outcome_bind].
  destruct (holder (data g) l) as [j|] eqn:Eh; [|done]. apply holder_long in Eh as [Hj _].
  destruct (insert_back_spec g l j Hl Hj) as (g1 & He & Hl1 & Hd1 & Hn1).
  assert (H1 : cache_inv g1 (to_back j l)) by (apply (cache_order g l); try done; apply to_back_perm; [apply Hl|done]).
  destruct (cache_lookup g l j H) as (c & Hc & _); [by apply (cache_elem g l j H)|]. cbn [deref]. rewrite Hc. cbn [of_option mbind outcome_bind].
  destruct (nextMRU c) as [k|] eqn:Em; [rewrite He; by exists g1|]. exists g. split_and!; try done.
  apply list_elem_of_split in Hj as (pre & post & ->). pose proof Hl as (Hnd & _ & _ & Hs). apply dseg_app in Hs as [_ [(d & Hd & _ & Hm) _]].
  simplify_eq. destruct post as [|k post]; [|by rewrite Hm in Em]. unfold to_back. by rewrite filter_split, app_nil_r.
Qed.

Lemma prepare_trash_spec g l j c : cache_inv g l -> data g !! j = Some c -> exists g', prepare_trash g j = Ok g' /\ cache_inv g' l /\
  data g' = <[j := set_locked false (set_folder 0 0 c)]> (data g) /\ longName g' = longName g.
Proof.
  intros H Hc. pose proof (data_name_ok g l j c H Hc) as Hn. unfold prepare_trash.
  destruct (modify_spec g l j (set_folder 0 0) c H Hc) as (g1 & -> & H1 & Hd1 & Hn1); [done..|]. cbn [mbind outcome_bind].
  destruct (modify_spec g1 l j (set_locked false) (set_folder 0 0 c) H1) as (g2 & -> & H2 & Hd2 & Hn2); [|done..|].
  { rewrite Hd1. apply list_lookup_insert_eq. by eapply lookup_lt_Some. }
  exists g2. by rewrite Hd2, Hd1, list_insert_insert_eq, Hn2.
Qed.

Lemma prepare_set_spec g l i c : cache_inv g l -> data g !! i = Some c -> exists g', prepare_set g i = Ok g' /\ cache_inv g' l /\
  data g' = <[i := set_name kLongUnicodeName (parentID c) LongNamePtr c]> (data g) /\ longName g' = longName g.
Proof. intros H Hc. by apply (modify_spec g l i (fun c => set_name kLongUnicodeName (parentID c) LongNamePtr c) c). Qed.

(** No one holds the lock of the iterator that loses the buffer. *)
Definition holder_free (g : CatalogCacheGlobals) (l : list nat) : Prop :=
  forall j c, holder (data g) l = Some j -> data g !! j = Some c -> ci_locked c = false.

Lemma PrepareForLongName_spec g l i c : cache_inv g l -> data g !! i = Some c ->
  nameType c <> kLongUnicodeName -> holder_free g l ->
  exists g' l', PrepareForLongName g i = Ok g' /\ cache_inv g' l' /\ longName g' = longName g /\
    data g' !! i = Some (set_name kLongUnicodeName (parentID c) LongNamePtr c).
Proof.
  intros H HD Ht Hfree. unfold PrepareForLongName. pose proof (prepare_choose_spec g l H) as Hch.
  assert (exists g1 l1, ('(iter, g) ← prepare_choose g; match iter with None => Ok g | Some j => locked ← CI_LOCK_FROM_LIST g j;
    match locked with None => Diverge | Some g => prepare_trash g j end end) = Ok g1 /\ cache_inv g1 l1 /\ longName g1 = longName g /\
    data g1 !! i = Some c) as (g1 & l1 & E1 & H1 & Hn1 & HD1).
  { destruct (holder (data g) l) as [j|] eqn:Eh; [|rewrite Hch; by exists g, l].
    destruct (holder_long _ _ _ Eh) as (Hj & cj & Hcj & Hlong). destruct Hch as (g1 & -> & H1 & Hd1 & Hn1). cbn [mbind outcome_bind].
    pose proof (lock_spec g1 _ j cj H1) as Hk. rewrite Hd1 in Hk. specialize (Hk Hcj). rewrite (Hfree _ _ Eh Hcj) in Hk.
    destruct Hk as (g2 & -> & H2 & Hd2 & Hn2). cbn [mbind outcome_bind].
    destruct (prepare_trash_spec g2 _ j (set_locked true cj) H2) as (g3 & -> & H3 & Hd3 & Hn3).
    { rewrite Hd2. apply list_lookup_insert_eq. by eapply lookup_lt_Some. }
    assert (i <> j) by congruence. exists g3, (to_back j l). split_and!; [done|done|congruence|].
    rewrite Hd3, Hd2. by rewrite !list_lookup_insert_ne. }
  destruct (prepare_set_spec g1 l1 i c H1 HD1) as (g2 & E2 & H2 & Hd2 & Hn2). exists g2, l1. split_and!; [|done|congruence|].
  - destruct (prepare_choose g) as [[iter g0]| | |]; try done. cbn [mbind outcome_bind] in *. by rewrite E1.
  - rewrite Hd2. apply list_lookup_insert_eq. by eapply lookup_lt_Some.
Qed.

(** ** From B-tree iterators and back *)

(** The size of the name of a key, and a key of the kind of the iterator. *)
Definition name_size (pascal : bool) (key : buffer) : Z := if pascal then get key 6 1 + 1 else u16 ((get key 6 2 + 1) * 2).
Definition key_fits (pascal : bool) (key : buffer) : Prop :=
  Forall byte key /\ 8 <= Z.of_nat (length key) /\ (if pascal then get key 6 1 <= CMMaxCName else get key 6 2 <= 255) /\
  6 + name_size pascal key <= Z.of_nat (length key).
Definition is_pascal (c : CatalogIterator) : bool := nameType c =? kShortPascalName.
Definition room (c : CatalogIterator) : Z := match folderName c with LocalName _ => sizeof_UniStr63 | LongNamePtr => 512 end.

Lemma name_size_plus key : Forall byte key -> 8 <= Z.of_nat (length key) -> get key 6 2 <= 255 ->
  0 <= get key 6 2 /\ name_size false key = 2 + 2 * get key 6 2.
Proof.
  intros Hb Hl Hn. pose proof (get_range key 6 2 Hb ltac:(lia) ltac:(lia) ltac:(lia)) as Hr. split; [lia|].
  cbn [name_size]. unfold u16, wrap. rewrite Z.mod_small; lia.
Qed.

Lemma name_size_range pascal key : key_fits pascal key -> 0 <= name_size pascal key <= 512 /\ (pascal = true -> name_size pascal key <= 32).
Proof.
  intros (Hb & Hl & Hn & Hs). destruct pascal; cbn [name_size] in *.
  - pose proof (get_range key 6 1 Hb ltac:(lia) ltac:(lia) ltac:(lia)). unfold CMMaxCName in Hn. lia.
  - destruct (name_size_plus key Hb Hl Hn) as [? E]. cbn [name_size] in E. lia.
Qed.

(** What was stored is read. *)
Definition reads (g : CatalogCacheGlobals) (c : CatalogIterator) (name : buffer) : Prop :=
  exists b, name_bytes g c = Ok b /\ Forall byte b /\ Z.of_nat (length name) <= Z.of_nat (length b) /\ slice b 0 (Z.of_nat (length name)) = name.

Lemma store_name_spec g l i c name : cache_inv g l -> iterators g !! i = Some c -> name_ok c -> Forall byte name ->
  Z.of_nat (length name) <= room c ->
  exists g' nm, let c' := set_name (nameType c) (parentID c) nm c in
    store_name g i name = Ok g' /\ cache_inv g' l /\ iterators g' = <[i := c']> (iterators g) /\ name_ok c' /\ reads g' c' name.
Proof.
  intros H Hc Hn Hb Hr. unfold store_name, name_ok, room, reads, name_bytes in *. cbn [deref]. rewrite Hc. cbn [of_option mbind outcome_bind].
  destruct (folderName c) as [b|] eqn:Ef.
  - destruct Hn as (Ht & Hl & Hbb). rewrite put_bytes_ok by lia. cbn [mbind outcome_bind]. rewrite (modify_Ok _ _ _ _ Hc).
    assert (Hl' : length (splice b 0 name) = length b) by (rewrite splice_length; lia).
    assert (Hbs : Forall byte (splice b 0 name)) by by apply splice_bytes.
    assert (Hnok : name_ok (set_name (nameType c) (parentID c) (LocalName (splice b 0 name)) c)).
    { unfold name_ok. cbn. by rewrite Hl'. }
    eexists _, (LocalName (splice b 0 name)). split_and!; [done|by apply (cache_update g l i c)|done..|].
    exists (splice b 0 name). cbn. rewrite Hl'. split_and!; [|done|lia|apply slice_splice_same; lia].
    by destruct Ht as [-> | ->].
  - destruct (ci_long _ _ H) as [Hl Hbb]. rewrite put_bytes_ok by lia. cbn [mbind outcome_bind].
    assert (Hl' : length (splice (longName g) 0 name) = 512%nat) by (rewrite splice_length; lia).
    assert (Hbs : Forall byte (splice (longName g) 0 name)) by by apply splice_bytes.
    eexists _, LongNamePtr. split_and!; [done| | |done|].
    + split; [apply (ci_linked _ _ H)|apply (ci_all _ _ H)|apply (ci_count _ _ H)|apply (ci_names _ _ H)|done].
    + cbn [iterators set_longName]. symmetry. apply list_insert_id. rewrite Hc. f_equal. destruct c. cbn in *. by subst.
    + exists (splice (longName g) 0 name). cbn. rewrite Hn. cbn. rewrite Hl'. split_and!; [done..|lia|apply slice_splice_same; lia].
Qed.

(** The same iterator but for its links and how it keeps its name. *)
Definition renamed (c c' : CatalogIterator) : Prop :=
  set_links None None c' = set_name (nameType c') (parentID c) (folderName c') (set_links None None c) /\ is_pascal c' = is_pascal c.

Lemma holder_update g l i c c' : iterators g !! i = Some c -> nameType c' = nameType c -> ci_locked c' = ci_locked c ->
  holder_free g l -> holder_free (update g i c') l.
Proof.
  intros Hc Ht Hk Hfree j d. rewrite data_update. unfold holder.
  rewrite (filter_same _ (fun k => has_long (data g) k = true)).
  - intros Hj Hd. destruct (decide (i = j)) as [->|Hij].
    + rewrite list_lookup_insert_eq in Hd by (by eapply lookup_lt_Some, data_lookup). simplify_eq. cbn. rewrite Hk.
      exact (Hfree j _ Hj (data_lookup _ _ _ Hc)).
    + rewrite list_lookup_insert_ne in Hd by done. by apply (Hfree j).
  - intros k _. unfold has_long. destruct (decide (i = k)) as [->|Hik]; [|by rewrite list_lookup_insert_ne].
    rewrite list_lookup_insert_eq by (by eapply lookup_lt_Some, data_lookup). rewrite (data_lookup _ _ _ Hc). cbn. by rewrite Ht.
Qed.

(** A name that does not fit into the iterator. *)
Definition needs_buffer (c : CatalogIterator) (size : Z) : bool := (nameType c =? kShortUnicodeName) && (sizeof_UniStr63 <? size).

(** There is room for the name. *)
Lemma make_room g l i c size : cache_inv g l -> (i < kCatalogIteratorCount)%nat -> iterators g !! i = Some c -> name_ok c ->
  size <= 512 -> (is_pascal c = true -> size <= 32) -> (needs_buffer c size = true -> holder_free g l) ->
  exists g' l' c', (if needs_buffer c size then PrepareForLongName g i else Ok g) = Ok g' /\
    cache_inv g' l' /\ iterators g' !! i = Some c' /\ name_ok c' /\ size <= room c' /\ renamed c c' /\
    nameType c' = (if needs_buffer c size then kLongUnicodeName else nameType c).
Proof.
  intros H Hi Hc Hn Hs Hp Hfree. unfold needs_buffer in *. destruct (Z.eqb_spec (nameType c) kShortUnicodeName) as [Et|Et]; cbn [andb].
  - destruct (Z.ltb_spec sizeof_UniStr63 size) as [Hbig|Hsmall].
    + destruct (PrepareForLongName_spec g l i (set_links None None c)) as (g' & l' & He & H' & _ & Hd'); try done; try by apply Hfree.
      { by apply data_lookup. }
      { cbn. rewrite Et. done. }
      destruct (cache_lookup _ _ _ H' Hi) as (c' & Hc' & Hn'). rewrite (data_lookup _ _ _ Hc') in Hd'.
      apply (inj Some) in Hd'. pose proof (f_equal folderName Hd') as Hf. pose proof (f_equal nameType Hd') as Hty. cbn in Hf, Hty.
      exists g', l', c'. split_and!; [done..| | |done]; [unfold room; by rewrite Hf|].
      unfold renamed, is_pascal. by rewrite Hf, Hty, Et.
    + exists g, l, c. split_and!; [done..| |by destruct c|done]. unfold name_ok, room in *. destruct (folderName c); [done|]. lia.
  - exists g, l, c. split_and!; [done..| |by destruct c|done]. unfold name_ok, room, is_pascal in *. destruct (folderName c); [|done].
    destruct Hn as [[E|] _]; [|done]. rewrite E in Hp. specialize (Hp eq_refl). unfold sizeof_UniStr63. lia.
Qed.

(** The iterator stands where the B-tree iterator does. *)
Record placed (it : BTreeIterator) (c c' : CatalogIterator) : Prop := {
  pl_volume : volume c' = volume c;
  pl_folder : folderID c' = folderID c;
  pl_locked : ci_locked c' = ci_locked c;
  pl_pascal : is_pascal c' = is_pascal c;
  pl_parent : parentID c' = get (it_key it) 2 4;
  pl_node : btreeNodeHint c' = hint_nodeNum (it_hint it);
  pl_index : btreeIndexHint c' = hint_index (it_hint it);
  pl_current : currentOffset c' = currentOffset c;
  pl_next : nextOffset c' = if get (it_key it) 2 4 =? folderID c then nextOffset c else 0xFFFFFFFF
}.

Lemma name_ok_type c : name_ok c -> (nameType c =? kShortPascalName) || (nameType c =? kShortUnicodeName) || (nameType c =? kLongUnicodeName) = true.
Proof. unfold name_ok. destruct (folderName c); [intros [[-> | ->] _]|intros ->]; done. Qed.

Lemma placed_intro it c c3 nm :
  renamed (set_name (nameType c) (get (it_key it) 2 4) (folderName c) (set_hints (hint_nodeNum (it_hint it)) (hint_index (it_hint it)) c)) c3 ->
  placed it c (let c4 := if get (it_key it) 2 4 =? folderID c then c3 else set_offsets (currentOffset c3) 0xFFFFFFFF c3 in
               set_name (nameType c4) (parentID c4) nm c4).
Proof.
  intros [Hren Hpas]. unfold is_pascal in Hpas. cbv zeta. split; unfold is_pascal.
  4: by destruct (get (it_key it) 2 4 =? folderID c).
  1: apply (f_equal volume) in Hren. 2: apply (f_equal folderID) in Hren. 3: apply (f_equal ci_locked) in Hren. 4: apply (f_equal parentID) in Hren.
  5: apply (f_equal btreeNodeHint) in Hren. 6: apply (f_equal btreeIndexHint) in Hren. 7: apply (f_equal currentOffset) in Hren.
  8: apply (f_equal nextOffset) in Hren.
  all: by destruct (get (it_key it) 2 4 =? folderID c).
Qed.

(** The iterator with the hints and the parent of the key. *)
Definition begun (it : BTreeIterator) (c : CatalogIterator) : CatalogIterator :=
  set_name (nameType c) (get (it_key it) 2 4) (folderName c) (set_hints (hint_nodeNum (it_hint it)) (hint_index (it_hint it)) c).

Lemma update_begin_spec g i c it : iterators g !! i = Some c -> name_ok c ->
  update_begin g it i = Ok (needs_buffer c (name_size (is_pascal c) (it_key it)), update g i (begun it c)).
Proof.
  intros Hc Hn. unfold update_begin. rewrite (modify_Ok _ _ _ _ Hc). cbn [mbind outcome_bind deref].
  rewrite (update_lookup _ _ _ _ Hc). cbn [of_option mbind outcome_bind]. unfold known_type. rewrite name_ok_type by done.
  rewrite (modify_Ok _ _ _ _ (update_lookup _ _ _ _ Hc)). cbn [mbind outcome_bind]. do 2 f_equal. unfold update. cbn. by rewrite list_insert_insert_eq.
Qed.

(** What becomes of the offset of the next entry. *)
Definition left_folder (c : CatalogIterator) : CatalogIterator :=
  if parentID c =? folderID c then c else set_offsets (currentOffset c) 0xFFFFFFFF c.

Lemma update_finish_spec g l i c it : cache_inv g l -> iterators g !! i = Some c -> name_ok c -> key_fits (is_pascal c) (it_key it) ->
  name_size (is_pascal c) (it_key it) <= room c ->
  exists g' nm, let c' := set_name (nameType c) (parentID c) nm (left_folder c) in
    update_finish g it i = Ok g' /\ cache_inv g' l /\ iterators g' = <[i := c']> (iterators g) /\ name_ok c' /\
    reads g' c' (slice (it_key it) 6 (name_size (is_pascal c) (it_key it))).
Proof.
  intros H Hc Hn Hk Hroom. destruct (name_size_range _ _ Hk) as [Hr _]. destruct Hk as (Hb & Hl8 & _ & Hfit).
  unfold update_finish. cbn [deref]. rewrite Hc. cbn [of_option mbind outcome_bind]. unfold known_type. rewrite name_ok_type by done.
  change (nameSize c (it_key it)) with (name_size (is_pascal c) (it_key it)). set (size := name_size _ _) in *.
  assert (Hlen : Z.of_nat (length (slice (it_key it) 6 size)) = size) by (apply slice_length; lia).
  assert ((if negb (parentID c =? folderID c) then modify g (Some i) (fun c => set_offsets (currentOffset c) 0xFFFFFFFF c) else Ok g) =
    Ok (update g i (left_folder c))) as ->.
  { unfold left_folder. destruct (parentID c =? folderID c); cbn [negb]; [|by rewrite (modify_Ok _ _ _ _ Hc)].
    destruct g. unfold update. cbn in *. by rewrite list_insert_id. }
  cbn [mbind outcome_bind]. rewrite get_bytes_ok by lia. cbn [mbind outcome_bind].
  assert (Hn4 : name_ok (left_folder c) /\ room (left_folder c) = room c /\ nameType (left_folder c) = nameType c /\ parentID (left_folder c) = parentID c)
    by (unfold left_folder; by destruct (parentID c =? folderID c)). destruct Hn4 as (Hn4 & Er & Et & Ep).
  destruct (store_name_spec (update g i (left_folder c)) l i (left_folder c) (slice (it_key it) 6 size)) as (g5 & nm & E & H5 & Hc5 & Hn5 & Hrd).
  - apply (cache_update g l i c); try done; unfold left_folder; by destruct (parentID c =? folderID c).
  - by eapply update_lookup.
  - done.
  - by apply slice_bytes.
  - lia.
  - exists g5, nm. rewrite <- Et, <- Ep. split_and!; try done. rewrite Hc5. cbn. by rewrite list_insert_insert_eq.
Qed.

Lemma UpdateCatalogIterator_spec g l i c it : cache_inv g l -> (i < kCatalogIteratorCount)%nat -> iterators g !! i = Some c ->
  key_fits (is_pascal c) (it_key it) -> (needs_buffer c (name_size (is_pascal c) (it_key it)) = true -> holder_free g l) ->
  exists g' l' c', UpdateCatalogIterator g it i = Ok g' /\ cache_inv g' l' /\ iterators g' !! i = Some c' /\ placed it c c' /\ name_ok c' /\
    reads g' c' (slice (it_key it) 6 (name_size (is_pascal c) (it_key it))) /\
    nameType c' = (if needs_buffer c (name_size (is_pascal c) (it_key it)) then kLongUnicodeName else nameType c).
Proof.
  intros H Hi Hc Hk Hfree. destruct (cache_lookup _ _ _ H Hi) as (d & Hd & Hn). rewrite Hc in Hd. injection Hd as <-.
  destruct (name_size_range _ _ Hk) as [Hr Hr32]. unfold UpdateCatalogIterator. rewrite (update_begin_spec g i c it Hc Hn). cbn [mbind outcome_bind].
  set (g2 := update g i (begun it c)). assert (Hc2 : iterators g2 !! i = Some (begun it c)) by by eapply update_lookup.
  assert (H2 : cache_inv g2 l) by by apply (cache_update g l i c).
  set (size := name_size (is_pascal c) (it_key it)) in *.
  destruct (make_room g2 l i (begun it c) size H2 Hi Hc2) as (g3 & l3 & c3 & E3 & H3 & Hc3 & Hn3 & Hroom & Hren & Hty); [done|lia|done| |].
  { intros Hnb. eapply holder_update; [exact Hc|done..|]. by apply Hfree. }
  change (needs_buffer (begun it c) size) with (needs_buffer c size) in *. rewrite E3. cbn [mbind outcome_bind].
  assert (Hpas : is_pascal c3 = is_pascal c) by apply Hren. change (nameType (begun it c)) with (nameType c) in Hty.
  assert (Epar : parentID c3 = get (it_key it) 2 4 /\ folderID c3 = folderID c).
  { destruct Hren as [Hren _]. split; [by apply (f_equal parentID) in Hren|by apply (f_equal folderID) in Hren]. } destruct Epar as [Epar Efol].
  destruct (update_finish_spec g3 l3 i c3 it H3 Hc3 Hn3) as (g5 & nm & -> & H5 & Hc5 & Hn5 & Hrd); [by rewrite Hpas|by rewrite Hpas|].
  rewrite Hpas in Hrd. eexists g5, l3, _. split_and!; [done|done| | |exact Hn5|exact Hrd|done].
  - rewrite Hc5. apply list_lookup_insert_eq. by eapply lookup_lt_Some.
  - pose proof (placed_intro it c c3 nm Hren) as Hpl. cbv zeta in Hpl. unfold left_folder. rewrite Epar, Efol in *.
    by destruct (get (it_key it) 2 4 =? folderID c); [rewrite <- Epar|rewrite <- Epar].
Qed.

(** Where a name is. *)
Definition kept (g : CatalogCacheGlobals) (c : CatalogIterator) (long : bool) (name : buffer) : Prop :=
  if long then folderName c = LongNamePtr /\ slice (longName g) 0 (Z.of_nat (length name)) = name
  else exists b, folderName c = LocalName b /\ slice b 0 (Z.of_nat (length name)) = name.

Lemma reads_kept g c name : name_ok c -> reads g c name -> kept g c (bool_decide (nameType c = kLongUnicodeName)) name.
Proof.
  intros Hn (b & Hb & _ & _ & Hs). unfold name_ok, name_bytes, kept in *. destruct (folderName c) as [b'|].
  - destruct Hn as [[Et | Et] _]; rewrite Et in *; cbn in *; simplify_eq; by exists b.
  - rewrite Hn in *. cbn in *. by simplify_eq.
Qed.

(** For a name of [n] characters of HFS Plus. *)
Lemma needs_buffer_plus c n : name_ok c -> is_pascal c = false ->
  bool_decide ((if needs_buffer c (2 + 2 * n) then kLongUnicodeName else nameType c) = kLongUnicodeName) =
    bool_decide (nameType c = kLongUnicodeName \/ 63 < n) /\
  (needs_buffer c (2 + 2 * n) = true -> nameType c <> kLongUnicodeName /\ 63 < n).
Proof.
  unfold name_ok, is_pascal, needs_buffer, sizeof_UniStr63. intros Hn Hp.
  assert (Ht : nameType c = kShortUnicodeName \/ nameType c = kLongUnicodeName).
  { destruct (folderName c); [|by right]. destruct Hn as [[E|E] _]; [by rewrite E in Hp|by left]. }
  destruct Ht as [-> | ->]; cbn [andb Z.eqb].
  - change (kShortUnicodeName =? kShortUnicodeName) with true. cbn [andb]. destruct (Z.ltb_spec 128 (2 + 2 * n)).
    + split; [|split; [done|lia]]. rewrite !bool_decide_true; [done|right; lia|done].
    + split; [|done]. rewrite !bool_decide_false; [done|intros [|]; [done|lia]|done].
  - split; [|done]. rewrite !bool_decide_true; [done|by left|done].
Qed.

(** *** The way back *)

Lemma UpdateBtreeIterator_spec g i c it2 key : iterators g !! i = Some c -> name_ok c -> is_pascal c = false ->
  full_key key -> get key 6 2 <= 255 -> reads g c (slice key 6 (name_size false key)) -> parentID c = get key 2 4 ->
  Forall byte (it_key it2) -> 520 <= Z.of_nat (length (it_key it2)) ->
  exists it3, UpdateBtreeIterator g i it2 = Ok it3 /\ key_trim (it_key it3) = key_trim key /\
    hint_nodeNum (it_hint it3) = btreeNodeHint c /\ hint_index (it_hint it3) = btreeIndexHint c.
Proof.
  intros Hc Hn Hp Hk H255 (b & Hb & Hbb & Hbl & Hbs) Hpar Hb2 Hl2. pose proof (full_key_range _ Hk) as (_ & Hkl & Hl8). destruct Hk as [(Hkb & _ & _) Ek].
  destruct (name_size_plus key Hkb Hl8 H255) as [H0 Es]. set (n := get key 6 2) in *.
  rewrite Es in Hbl, Hbs. pose proof (slice_length key 6 (2 + 2 * n) ltac:(lia) ltac:(lia) ltac:(lia)) as Hls. rewrite Hls in Hbl, Hbs.
  assert (Hbn : get b 0 2 = n).
  { transitivity (get (slice b 0 (2 + 2 * n)) 0 2); [symmetry; apply (get_slice b 0); lia|]. rewrite Hbs. apply (get_slice key 6); lia. }
  unfold UpdateBtreeIterator. cbn [deref]. rewrite Hc. cbn [of_option mbind outcome_bind]. rewrite name_ok_type by done.
  rewrite Hb. cbn [mbind outcome_bind]. unfold is_pascal in Hp. rewrite Hp. cbn [negb]. rewrite Hbn. eexists. split; [done|].
  split; [|done]. cbn [it_key set_key set_hint].
  destruct (build_key_plus (parentID c) n b (it_key it2)) as (Hb3 & Hl3 & E0 & E2 & E6); try done; try lia.
  { rewrite Hpar. apply (get_range key 2 4); [done|lia..]. }
  apply (same_key_trim _ _ n); try done; try lia. by rewrite E6.
Qed.

(** ** The theorems *)

(** C26: [GetCatalogIterator], when the iterator it is to take is not busy, gives the most
    recently used iterator of the folder that is not busy and stands at the offset, as it is;
    if there is none it recycles the least recently used one, which then stands at the thread
    of the folder: its key is the folder with an empty name of the kind of the volume, its
    hints are 0 and it has no offset.  The iterator is locked and is now the first of the
    list; the others and their order are as before. *)
Theorem GetCatalogIterator_correct g l vol sigWord folder offset i f : cache_inv g l ->
  choice vol sigWord folder offset (data g) l = Some (i, f) ->
  exists c g', data g !! i = Some c /\ GetCatalogIterator g vol sigWord folder offset = Ok (i, g') /\
    cache_inv g' (i :: filter (fun j => j <> i) l) /\ data g' = <[i := f c]> (data g) /\
    volume (f c) = vol /\ folderID (f c) = folder /\ ci_locked c = false /\ ci_locked (f c) = true /\
    (f c = set_locked true c /\ (currentOffset c = offset \/ nextOffset c = offset) \/ at_thread vol sigWord folder (f c)).
Proof.
  intros H Hch. destruct (GetCatalogIterator_spec g l _ _ _ _ i f H Hch) as (c & g' & Hc & He & H' & Hd & _).
  destruct (choice_result _ _ _ _ _ _ _ _ _ Hch Hc) as (_ & ? & ? & ? & ? & ?); [by apply (data_name_ok g l i)|]. exists c, g'. by split_and!.
Qed.

(** C27: [TrashCatalogIterator] returns; the iterators of the volume and folder (folder 0
    stands for all) are of no volume any more and are, in their order, the least recently
    used ones; none of the folder is left, and the others are as before. *)
Theorem TrashCatalogIterator_correct g l vol folder : cache_inv g l -> vol <> 0 ->
  exists g', TrashCatalogIterator g vol folder = Ok g' /\ cache_inv g' (matching_last vol folder (data g) l) /\
    data g' = trash vol folder <$> data g /\ (forall i c, iterators g' !! i = Some c -> matches vol folder c = false).
Proof.
  intros H Hv. destruct (TrashCatalogIterator_spec g l vol folder H Hv) as (g' & He & H' & Hd & _). exists g'. split_and!; try done.
  intros i c Hc. rewrite <- (matches_links None None). apply data_lookup in Hc. rewrite Hd, list_lookup_fmap in Hc.
  destruct (data g !! i) as [d|]; [|done]. injection Hc as <-. by apply trash_not_matching.
Qed.

(** C28: what [UpdateCatalogIterator] keeps of a B-tree iterator in a catalog iterator of an
    HFS Plus volume, [UpdateBtreeIterator] gives back: its key and its hints.  The name is in
    the buffer that all share if it has more than 63 characters or the iterator used the
    buffer before, and else in the iterator.  The offsets of the position stay, but that of
    the next entry if the key is not in the folder any more.  If the iterator needs the buffer
    anew, no one else may hold the lock of the iterator that has it now. *)
Theorem catalog_iterator_roundtrip g l i c it it2 : cache_inv g l -> (i < kCatalogIteratorCount)%nat -> iterators g !! i = Some c ->
  is_pascal c = false -> full_key (it_key it) -> get (it_key it) 6 2 <= 255 ->
  (nameType c <> kLongUnicodeName -> 63 < get (it_key it) 6 2 -> holder_free g l) ->
  Forall byte (it_key it2) -> 520 <= Z.of_nat (length (it_key it2)) ->
  exists g' l' c' it3, UpdateCatalogIterator g it i = Ok g' /\ cache_inv g' l' /\ iterators g' !! i = Some c' /\ placed it c c' /\
    kept g' c' (bool_decide (nameType c = kLongUnicodeName \/ 63 < get (it_key it) 6 2)) (slice (it_key it) 6 (2 + 2 * get (it_key it) 6 2)) /\
    UpdateBtreeIterator g' i it2 = Ok it3 /\ key_trim (it_key it3) = key_trim (it_key it) /\
    hint_nodeNum (it_hint it3) = hint_nodeNum (it_hint it) /\ hint_index (it_hint it3) = hint_index (it_hint it).
Proof.
  intros H Hi Hc Hp Hk Hn Hfree Hb2 Hl2. pose proof (full_key_range _ Hk) as (_ & Hkl & Hl8). pose proof Hk as [(Hkb & _ & _) Ek].
  destruct (name_size_plus (it_key it) Hkb Hl8 Hn) as [H0 Es].
  destruct (cache_lookup _ _ _ H Hi) as (d & Hd & Hnok). rewrite Hc in Hd. injection Hd as <-.
  pose proof (needs_buffer_plus c (get (it_key it) 6 2) Hnok Hp) as [Hlong Hnb].
  destruct (UpdateCatalogIterator_spec g l i c it H Hi Hc) as (g' & l' & c' & He & H' & Hc' & Hpl & Hn' & Hrd & Hty).
  { rewrite Hp. split_and!; try done. rewrite Es. lia. }
  { rewrite Hp, Es. intros [? ?]%Hnb. by apply Hfree. }
  rewrite Hp in Hrd, Hty. destruct (UpdateBtreeIterator_spec g' i c' it2 (it_key it)) as (it3 & He3 & Hk3 & Hn3 & Hi3); try done.
  { by rewrite (pl_pascal _ _ _ Hpl). }
  { apply Hpl. }
  exists g', l', c', it3. rewrite Hn3, Hi3, (pl_node _ _ _ Hpl), (pl_index _ _ _ Hpl). split_and!; try done.
  rewrite Es in Hrd, Hty. rewrite <- Hlong, <- Hty. by apply reads_kept.
Qed.

(** C30: [BuildCatalogKey] makes a key of HFS Plus: bytes in a buffer of the same size, with
    the length, the parent and the name that it should have, also when there is no name. *)
Theorem BuildCatalogKey_typed parent n b key : 0 <= parent < 2 ^ 32 -> 0 <= n <= 255 -> Forall byte b -> Forall byte key ->
  2 + 2 * n <= Z.of_nat (length b) -> 8 + 2 * n <= Z.of_nat (length key) -> get b 0 2 = n ->
  let k := BuildCatalogKey parent (if 0 <? n then Some b else None) true key in
  full_key k /\ length k = length key /\ get k 2 4 = parent /\ get k 6 2 = n /\ slice k 6 (2 + 2 * n) = slice b 0 (2 + 2 * n).
Proof.
  intros Hp Hn Hb Hk Hbl Hkl Hbn k. destruct (build_key_plus parent n b key Hp Hn Hb Hk Hbl Hkl Hbn) as (Hkb & Hl & E0 & E2 & E6). fold k in Hkb, Hl, E0, E2, E6.
  assert (E62 : get k 6 2 = n).
  { transitivity (get (slice k 6 (2 + 2 * n)) 0 2); [symmetry; apply (get_slice k 6); lia|]. rewrite E6.
    transitivity (get b 0 2); [apply (get_slice b 0); lia|done]. }
  split; [|by split_and!]. split; [|lia]. split_and!; [done|lia|]. unfold get in E62. lia.
Qed.

(** ** Runs *)

(** A folder is read, its iterator is recycled from the end of the list. *)
Definition first_cache : CatalogCacheGlobals := Eval vm_compute in
  match GetCatalogIterator InitCatalogCache 1 kHFSPlusSigWord 16 0 with Ok (_, g) => g | _ => InitCatalogCache end.

Lemma first_cache_inv : cache_inv first_cache (15%nat :: seq 0 15).
Proof.
  destruct (GetCatalogIterator_spec InitCatalogCache _ 1 kHFSPlusSigWord 16 0 15 (recycled 1 16 kHFSPlusSigWord) InitCatalogCache_inv eq_refl)
    as (c & g' & _ & He & H' & _). assert (g' = first_cache) as -> by (vm_compute in He; by injection He as <-). exact H'.
Qed.

Lemma GetCatalogIterator_correct_witness : exists g', GetCatalogIterator InitCatalogCache 1 kHFSPlusSigWord 16 0 = Ok (15%nat, g').
Proof.
  destruct (GetCatalogIterator_correct InitCatalogCache _ 1 kHFSPlusSigWord 16 0 15 (recycled 1 16 kHFSPlusSigWord) InitCatalogCache_inv eq_refl)
    as (c & g' & _ & He & _). exists g'. exact He.
Defined.

Lemma TrashCatalogIterator_correct_witness : exists g', TrashCatalogIterator first_cache 1 16 = Ok g' /\
  cache_inv g' (matching_last 1 16 (data first_cache) (15%nat :: seq 0 15)) /\ matching_last 1 16 (data first_cache) (15%nat :: seq 0 15) = seq 0 16.
Proof.
  destruct (TrashCatalogIterator_correct first_cache _ 1 16 first_cache_inv ltac:(discriminate)) as (g' & He & H & _).
  exists g'. split; [exact He|]. split; [exact H|]. vm_compute. reflexivity.
Defined.

(** A key with a name of [n] times the same character. *)
Definition repeated_key (parent : Z) (n : nat) (ch : Z) : buffer :=
  splice (puts (replicate 522 0) [(0, 2, 6 + 2 * Z.of_nat n); (2, 4, parent); (6, 2, Z.of_nat n)]) 8 (concat (replicate n [ch; 0])).

Lemma long_key_ok : full_key (repeated_key 16 70 97).
Proof. split; [|vm_compute; reflexivity]. split; [|split; vm_compute; discriminate]. eapply bool_decide_unpack. vm_compute. exact I. Qed.

Lemma first_holder_free : holder_free first_cache (15%nat :: seq 0 15).
Proof. intros j c Hj. vm_compute in Hj. discriminate. Qed.

(** A name of 70 characters goes through the buffer of long names. *)
Lemma catalog_iterator_roundtrip_witness : exists g' it3,
  UpdateCatalogIterator first_cache (set_key new_iterator (repeated_key 16 70 97)) 15 = Ok g' /\
  UpdateBtreeIterator g' 15 new_iterator = Ok it3 /\ key_trim (it_key it3) = key_trim (repeated_key 16 70 97).
Proof.
  destruct (iterators first_cache !! 15%nat) as [c|] eqn:Hc; [|exfalso; vm_compute in Hc; discriminate].
  assert (Hp : is_pascal c = false) by (vm_compute in Hc; injection Hc as <-; reflexivity).
  destruct (catalog_iterator_roundtrip first_cache _ 15 c (set_key new_iterator (repeated_key 16 70 97)) new_iterator first_cache_inv
              ltac:(unfold kCatalogIteratorCount; lia) Hc Hp long_key_ok ltac:(vm_compute; discriminate) (fun _ _ => first_holder_free)
              ltac:(apply Forall_replicate; split; [vm_compute; discriminate|reflexivity]) ltac:(vm_compute; discriminate))
    as (g' & _ & _ & it3 & He & _ & _ & _ & _ & He3 & Hk & _).
  exists g', it3. split; [exact He|]. split; [exact He3|exact Hk].
Defined.

Lemma BuildCatalogKey_typed_witness : full_key (BuildCatalogKey 16 (Some [1; 0; 97; 0]) true (replicate 522 0)).
Proof.
  refine (proj1 (BuildCatalogKey_typed 16 1 [1; 0; 97; 0] (replicate 522 0) _ _ _ _ _ _ _)).
  - lia.
  - lia.
  - repeat constructor; vm_compute; discriminate.
  - apply Forall_replicate. split; [vm_compute; discriminate|reflexivity].
  - vm_compute. discriminate.
  - vm_compute. discriminate.
  - vm_compute. reflexivity.
Defined.
