(* ===== verification/CatalogIteratorThreads.v ===== *)
(** * Several threads at the cache of catalog iterators

    The routines of CatalogIterators.c hold the lock of the list only for parts of their
    work: [GetCatalogIterator] and [PrepareForLongName] release it while they sleep for the
    lock of an iterator, and go on with the iterator that they chose before.  A machine has
    the cache and what every thread is about to do; its steps are the parts of the routines
    that run under the lock of the list, or under the lock of an iterator by its owner.  The
    invariant of the cache holds between any two steps, a lock has one owner, and the
    threads cannot block each other for ever. *)
From S2P Require Import Prelude Bits VolumeBitmap VolumeAllocation ExtentMapping UtfConv NameMangling Encodings MacTime.
From S2P Require Import Bytes UnicodeCompare BTreeNode BTreeKeys BTreeBlocks BTreeFile NodeSwap Catalog CatalogKeys CatalogIterators CatalogIteratorLists.
From S2P Require Import CatalogIteratorTheorems.

(** ** The machine *)

(** Where a thread is, from its call of [GetCatalogIterator] to that of
    [ReleaseCatalogIterator]. *)
Inductive activity :=
| GetWaits (j : nat) (vol sigWord folder : Z)    (* CI_LOCK_FROM_LIST of GetCatalogIterator *)
| GetLocked (j : nat) (vol sigWord folder : Z)   (* behind it *)
| Holds (i : nat)                                (* the iterator was returned *)
| PrepWaits (j i : nat) (it : BTreeIterator)     (* CI_LOCK_FROM_LIST of PrepareForLongName *)
| PrepLocked (j i : nat) (it : BTreeIterator)    (* behind it *)
| Prepared (i : nat) (it : BTreeIterator)        (* the buffer is to be taken *)
| Done.

Record machine := Machine { cache : CatalogCacheGlobals; acts : list activity }.

(** What happens next: a thread calls [GetCatalogIterator], gets the lock that it waits for,
    goes on, or uses its iterator; or someone discards the iterators of a folder. *)
Inductive label :=
| Enter (vol sigWord folder offset : Z)
| Lock (k : nat)
| Go (k : nat)
| Update (k : nat) (it : BTreeIterator)
| Offsets (k : nat) (current next : Z)
| Discard (k : nat)
| Age (k : nat)
| Release (k : nat)
| Trash (vol folder : Z).

Definition moves (m : machine) (k : nat) (g : CatalogCacheGlobals) (a : activity) : machine := Machine g (<[k := a]> (acts m)).

(** A thread with an iterator does something to it. *)
Definition owner (m : machine) (k : nat) (f : nat -> outcome (CatalogCacheGlobals * activity)) : outcome (option machine) :=
  match acts m !! k with
  | Some (Holds i) => '(g, a) ← f i; Ok (Some (moves m k g a))
  | _ => Ok None
  end.

(** A step; there is none while a thread sleeps. *)
Definition fire (m : machine) (lab : label) : outcome (option machine) :=
  match lab with
  | Enter vol sigWord folder offset =>
      '(i, found, g) ← get_choose (cache m) vol folder offset;
      Ok (Some (Machine g (acts m ++ [if found : bool then Holds i else GetWaits i vol sigWord folder])))
  | Trash vol folder => g ← TrashCatalogIterator (cache m) vol folder; Ok (Some (Machine g (acts m)))
  | Lock k =>
      match acts m !! k with
      | Some (GetWaits j vol sigWord folder) =>
          r ← CI_LOCK_FROM_LIST (cache m) j; Ok (option_map (fun g => moves m k g (GetLocked j vol sigWord folder)) r)
      | Some (PrepWaits j i it) => r ← CI_LOCK_FROM_LIST (cache m) j; Ok (option_map (fun g => moves m k g (PrepLocked j i it)) r)
      | _ => Ok None
      end
  | Go k =>
      match acts m !! k with
      | Some (GetLocked j vol sigWord folder) => g ← get_recycle (cache m) j vol sigWord folder; Ok (Some (moves m k g (Holds j)))
      | Some (PrepLocked j i it) => g ← prepare_trash (cache m) j; Ok (Some (moves m k g (Prepared i it)))
      | Some (Prepared i it) => g ← prepare_set (cache m) i; g ← update_finish g it i; Ok (Some (moves m k g (Holds i)))
      | _ => Ok None
      end
  | Update k it => owner m k (fun i =>
      '(long, g) ← update_begin (cache m) it i;
      if long : bool then '(iter, g) ← prepare_choose g; Ok (g, match iter with None => Prepared i it | Some j => PrepWaits j i it end)
      else g ← update_finish g it i; Ok (g, Holds i))
  | Offsets k current next => owner m k (fun i => g ← modify (cache m) (Some i) (set_offsets current next); Ok (g, Holds i))
  | Discard k => owner m k (fun i => g ← modify (cache m) (Some i) (set_folder 0 0); Ok (g, Holds i))
  | Age k => owner m k (fun i => g ← AgeCatalogIterator (cache m) i; Ok (g, Holds i))
  | Release k => owner m k (fun i => g ← ReleaseCatalogIterator (cache m) i; Ok (g, Done))
  end.

(** The lock that a thread waits for, and the locks that it has. *)
Definition waits_for (a : activity) : option nat := match a with GetWaits j _ _ _ | PrepWaits j _ _ => Some j | _ => None end.
Definition locks_of (a : activity) : list nat :=
  match a with
  | GetWaits _ _ _ _ | Done => []
  | GetLocked i _ _ _ | Holds i | PrepWaits _ i _ | Prepared i _ => [i]
  | PrepLocked j i _ => [i; j]
  end.
Definition held (A : list activity) : list nat := mjoin (map locks_of A).
Definition goes (a : activity) : bool := match a with GetLocked _ _ _ _ | PrepLocked _ _ _ | Prepared _ _ => true | _ => false end.

(** The steps that can be: a lock is free, a thread does what it is about to do, a thread
    that has an iterator uses it, with a key of its kind. *)
Definition enabled (m : machine) (lab : label) : Prop :=
  match lab with
  | Enter _ _ _ _ => True
  | Trash vol _ => vol <> 0
  | Lock k => exists a j c, acts m !! k = Some a /\ waits_for a = Some j /\ iterators (cache m) !! j = Some c /\ ci_locked c = false
  | Go k => exists a, acts m !! k = Some a /\ goes a = true
  | Update k it => exists i c, acts m !! k = Some (Holds i) /\ iterators (cache m) !! i = Some c /\ key_fits (is_pascal c) (it_key it)
  | Offsets k _ _ | Discard k | Age k | Release k => exists i, acts m !! k = Some (Holds i)
  end.

Inductive reachable : machine -> Prop :=
| reach_init : reachable (Machine InitCatalogCache [])
| reach_step m lab m' : reachable m -> enabled m lab -> fire m lab = Ok (Some m') -> reachable m'.

(** ** The invariant *)

(** A thread that waits for the buffer has an iterator with a short name, and a long name
    for it. *)
Definition short (D : list CatalogIterator) (i : nat) : Prop := exists c, D !! i = Some c /\ nameType c = kShortUnicodeName.
Definition act_ok (D : list CatalogIterator) (a : activity) : Prop :=
  match a with
  | GetWaits j _ _ _ => (j < kCatalogIteratorCount)%nat
  | PrepWaits j i it => (j < kCatalogIteratorCount)%nat /\ j <> i /\ short D i /\ key_fits false (it_key it)
  | PrepLocked _ i it | Prepared i it => short D i /\ key_fits false (it_key it)
  | _ => True
  end.

(** Who waits for a thread that itself waits for the buffer came before it. *)
Definition no_cycle (A : list activity) : Prop := exists rank : nat -> nat, forall j i it j' it',
  PrepWaits j i it ∈ A -> PrepWaits j' j it' ∈ A -> (rank i < rank j)%nat.

Record machine_inv (m : machine) (l : list nat) : Prop := {
  mi_cache : cache_inv (cache m) l;
  mi_once : NoDup (held (acts m));
  mi_locked : forall i c, data (cache m) !! i = Some c -> ci_locked c = true <-> i ∈ held (acts m);
  mi_count : forall i, i ∈ held (acts m) -> (i < kCatalogIteratorCount)%nat;
  mi_acts : Forall (act_ok (data (cache m))) (acts m);
  mi_cycle : no_cycle (acts m)
}.

Lemma held_app A B : held (A ++ B) = held A ++ held B.
Proof. unfold held. by rewrite map_app, join_app. Qed.

Lemma held_cons a B : held (a :: B) = locks_of a ++ held B.
Proof. done. Qed.

Lemma held_elem A i : i ∈ held A <-> exists a, a ∈ A /\ i ∈ locks_of a.
Proof.
  unfold held. rewrite list_elem_of_join. split.
  - intros (x & Hx & (a & -> & Ha)%list_elem_of_fmap). by exists a.
  - intros (a & Ha & Hi). exists (locks_of a). split; [done|]. apply list_elem_of_fmap. by exists a.
Qed.

Lemma held_middle A a B : held (A ++ a :: B) ≡ₚ locks_of a ++ held (A ++ B).
Proof. rewrite !held_app, held_cons, !(assoc_L (++)). by rewrite (Permutation_app_comm (held A)). Qed.

Lemma held_unique A a B i : NoDup (held (A ++ a :: B)) -> i ∈ locks_of a -> i ∉ held (A ++ B).
Proof. rewrite held_middle. intros (_ & H & _)%NoDup_app. auto. Qed.

(** *** One thread moves *)

(** The threads are [A], the one that moves from [a] to [a'], and [B]; the cache becomes [g].
    It gets only locks that are free, has the locks of its new place and no others of its own,
    and changes no iterator that it has no lock of. *)
Section move.
Context (m : machine) (l l' : list nat) (A B : list activity) (a a' : activity) (g : CatalogCacheGlobals).
Context (Hm : machine_inv m l) (Hacts : acts m = A ++ a :: B) (Hg : cache_inv g l').
Context (Hnd : NoDup (locks_of a')).
Context (Hnew : forall j, j ∈ locks_of a' -> j ∈ locks_of a \/ exists c, data (cache m) !! j = Some c /\ ci_locked c = false).
Context (Hsame : forall i, i ∉ locks_of a -> i ∉ locks_of a' -> data g !! i = data (cache m) !! i).
Context (Hflag : forall i c, data g !! i = Some c -> i ∈ locks_of a \/ i ∈ locks_of a' -> ci_locked c = true <-> i ∈ locks_of a').
Context (Hok : act_ok (data g) a').
Context (Hlong : forall j i it, a' = PrepWaits j i it -> exists c, data g !! j = Some c /\ nameType c = kLongUnicodeName).

Lemma move_disjoint i : i ∈ locks_of a' -> i ∉ held (A ++ B).
Proof using All.
  intros Hi HR. pose proof (mi_once _ _ Hm) as Honce. rewrite Hacts in Honce. destruct (Hnew i Hi) as [Ha|(c & Hc & Hk)].
  - by apply (held_unique _ _ _ _ Honce Ha).
  - apply not_true_iff_false in Hk. apply Hk, (mi_locked _ _ Hm i c Hc). rewrite Hacts, held_middle. set_solver.
Qed.

Lemma move_others : Forall (act_ok (data g)) (A ++ B).
Proof using All.
  pose proof (mi_acts _ _ Hm) as H. pose proof (mi_once _ _ Hm) as Honce. rewrite Hacts in H, Honce.
  rewrite Forall_forall in *. intros b Hb. specialize (H b ltac:(set_solver)).
  assert (Hs : forall i, i ∈ locks_of b -> short (data (cache m)) i -> short (data g) i).
  { intros i Hi (c & Hc & Ht). exists c. split; [|done]. assert (HR : i ∈ held (A ++ B)) by (apply held_elem; by exists b).
    rewrite Hsame; [done| |]; intros Hl; [by apply (held_unique _ _ _ _ Honce Hl)|by apply (move_disjoint i)]. }
  destruct b; cbn in *; try done; destruct_and?; split_and?; try done; apply Hs; set_solver.
Qed.

Lemma move_cycle : no_cycle (A ++ a' :: B).
Proof using All.
  destruct (mi_cycle _ _ Hm) as [rank Hr]. rewrite Hacts in Hr.
  assert (Hold : forall b, b ∈ A ++ B -> b ∈ A ++ a :: B) by set_solver. assert (Hcase : forall b, b ∈ A ++ a' :: B -> b = a' \/ b ∈ A ++ B) by set_solver.
  assert ((exists j i it, a' = PrepWaits j i it) \/ forall j i it, PrepWaits j i it <> a') as [(j0 & i0 & it0 & E)|Hno]
    by (destruct a'; (by left; eauto) || (by right)).
  2:{ exists rank. intros j i it j' it' H1%Hcase H2%Hcase. destruct H1 as [H1|H1]; [by apply Hno in H1|].
    destruct H2 as [H2|H2]; [by apply Hno in H2|]. eauto. }
  exists (fun x => if decide (x = i0) then S (max_list (map rank (held (A ++ B)))) else rank x).
  assert (Hi0 : forall j i it, PrepWaits j i it ∈ A ++ B -> i <> i0 /\ i ∈ held (A ++ B)).
  { intros j i it Hin. assert (i ∈ held (A ++ B)) by (apply held_elem; exists (PrepWaits j i it); set_solver). split; [|done].
    intros ->. apply (move_disjoint i0); [rewrite E; set_solver|done]. }
  intros j i it j' it' H1%Hcase H2%Hcase. destruct H1 as [H1|H1], H2 as [H2|H2].
  - exfalso. destruct (Hlong j0 i0 it0 E) as (c & Hc & Ht). rewrite E in H1, H2. injection H1 as -> -> ->. injection H2 as <- -> _.
    rewrite E in Hok. destruct Hok as (_ & Hne & _). done.
  - exfalso. destruct (Hlong j0 i0 it0 E) as (c & Hc & Ht). rewrite E in H1. injection H1 as -> -> ->.
    pose proof move_others as Ho. rewrite Forall_forall in Ho. specialize (Ho _ H2). destruct Ho as (_ & _ & (d & Hd & Hs) & _). simplify_eq.
    rewrite Ht in Hs. done.
  - rewrite E in H2. injection H2 as -> -> ->. destruct (Hi0 _ _ _ H1) as [Hne Hin]. rewrite decide_False, decide_True by done.
    apply Nat.lt_succ_r, max_list_elem_of_le, list_elem_of_fmap. by exists i.
  - destruct (Hi0 _ _ _ H1) as [? _]. destruct (Hi0 _ _ _ H2) as [? _]. rewrite !decide_False by done. eauto.
Qed.

Lemma move_inv : machine_inv (Machine g (A ++ a' :: B)) l'.
Proof using All.
  pose proof (mi_once _ _ Hm) as Honce. rewrite Hacts in Honce. split; cbn [cache acts].
  - done.
  - rewrite held_middle in *. apply NoDup_app. split_and!; [done|apply move_disjoint|]. apply NoDup_app in Honce. tauto.
  - intros i c Hc. rewrite held_middle, elem_of_app. destruct (decide (i ∈ locks_of a \/ i ∈ locks_of a')) as [Hin|Hout].
    + rewrite (Hflag i c Hc Hin). split; [tauto|]. intros [?|HR]; [done|]. destruct Hin as [Ha|?]; [|done].
      by apply (held_unique _ _ _ _ Honce) in HR.
    + rewrite Hsame in Hc by tauto. rewrite (mi_locked _ _ Hm i c Hc), Hacts, held_middle, elem_of_app. tauto.
  - intros i. rewrite held_middle, elem_of_app. intros [Hi|Hi].
    + destruct (Hnew i Hi) as [Ha|(c & Hc & _)]; [|by apply (data_count _ _ _ _ (mi_cache _ _ Hm) Hc)].
      apply (mi_count _ _ Hm). rewrite Hacts, held_middle. set_solver.
    + apply (mi_count _ _ Hm). rewrite Hacts, held_middle. set_solver.
  - pose proof move_others as Ho. rewrite Forall_app in Ho |- *. rewrite Forall_cons. tauto.
  - apply move_cycle.
Qed.
End move.

Lemma moves_split m k a : acts m !! k = Some a -> exists A B, acts m = A ++ a :: B /\ forall g a', moves m k g a' = Machine g (A ++ a' :: B).
Proof.
  intros Hk. exists (take k (acts m)), (drop (S k) (acts m)). split; [by rewrite take_drop_middle|]. intros g a'. unfold moves.
  by rewrite insert_take_drop by (by eapply lookup_lt_Some).
Qed.

Lemma held_lookup m k a i : acts m !! k = Some a -> i ∈ locks_of a -> i ∈ held (acts m).
Proof. intros Hk Hi. apply held_elem. exists a. split; [by eapply list_elem_of_lookup_2|done]. Qed.

(** The iterator of a lock that a thread has. *)
Lemma owned m l k a i : machine_inv m l -> acts m !! k = Some a -> i ∈ locks_of a ->
  exists c, data (cache m) !! i = Some c /\ ci_locked c = true /\ name_ok c.
Proof.
  intros Hm Hk Hi. pose proof (held_lookup _ _ _ _ Hk Hi) as Hh.
  destruct (cache_data _ _ i (mi_cache _ _ Hm) (mi_count _ _ Hm i Hh)) as (c & Hc & Hn). exists c. by rewrite (mi_locked _ _ Hm i c Hc).
Qed.

Lemma act_lookup m l k a : machine_inv m l -> acts m !! k = Some a -> act_ok (data (cache m)) a.
Proof. intros Hm Hk. pose proof (mi_acts _ _ Hm) as H. rewrite Forall_lookup in H. eauto. Qed.

(** A thread changes its own iterator. *)
Lemma own_inv m l l' k a a' g i c : machine_inv m l -> acts m !! k = Some a -> cache_inv g l' -> data g = <[i := c]> (data (cache m)) ->
  locks_of a = [i] -> locks_of a' = [i] -> ci_locked c = true -> act_ok (data g) a' ->
  (forall j i it, a' = PrepWaits j i it -> exists c, data g !! j = Some c /\ nameType c = kLongUnicodeName) ->
  machine_inv (moves m k g a') l'.
Proof.
  intros Hm Hk Hg Hd Ha Ha' Hc Hok Hlong. destruct (moves_split m k a Hk) as (A & B & E & ->).
  apply (move_inv m l l' A B a a' g Hm E Hg); rewrite ?Ha, ?Ha'; try done.
  - apply NoDup_singleton.
  - by left.
  - intros x Hx _. rewrite Hd. apply list_lookup_insert_ne. set_solver.
  - intros x d Hx Hin. assert (x = i) as -> by set_solver. rewrite Hd, list_lookup_insert_eq in Hx; [simplify_eq; set_solver|].
    rewrite data_length, (ci_count _ _ (mi_cache _ _ Hm)). apply (mi_count _ _ Hm), (held_lookup m k a); [done|]. rewrite Ha. set_solver.
Qed.

(** A thread takes a lock that is free. *)
Lemma lock_inv m l k a a' g j c : machine_inv m l -> acts m !! k = Some a -> cache_inv g l -> data (cache m) !! j = Some c -> ci_locked c = false ->
  data g = <[j := set_locked true c]> (data (cache m)) -> j ∉ locks_of a -> locks_of a' = locks_of a ++ [j] ->
  act_ok (data g) a' -> waits_for a' = None -> machine_inv (moves m k g a') l.
Proof.
  intros Hm Hk Hg Hc Hfree Hd Hj Ha' Hok Hw. destruct (moves_split m k a Hk) as (A & B & E & ->).
  pose proof (mi_once _ _ Hm) as Honce. rewrite E, held_middle in Honce. apply NoDup_app in Honce as (Hnd & _).
  apply (move_inv m l l A B a a' g Hm E Hg); rewrite ?Ha'; try done.
  - apply NoDup_app. split_and!; [done|set_solver|apply NoDup_singleton].
  - intros x [Hx|Hx]%elem_of_app; [by left|]. right. exists c. by apply list_elem_of_singleton in Hx as ->.
  - intros x _ Hx. rewrite Hd. apply list_lookup_insert_ne. set_solver.
  - intros x d Hx Hin. assert (Hx' : x ∈ locks_of a ++ [j]) by set_solver. split; [done|]. intros _.
    rewrite Hd in Hx. apply list_lookup_insert_Some in Hx as [(-> & <- & _)|(Hne & Hx)]; [done|].
    apply (mi_locked _ _ Hm x d Hx), (held_lookup m k a _ Hk). set_solver.
  - intros ? ? ? ->. done.
Qed.

(** A thread gives a lock back. *)
Lemma unlock_inv m l k a a' g j c : machine_inv m l -> acts m !! k = Some a -> cache_inv g l ->
  data g = <[j := c]> (data (cache m)) -> ci_locked c = false -> locks_of a = locks_of a' ++ [j] ->
  act_ok (data g) a' -> waits_for a' = None -> machine_inv (moves m k g a') l.
Proof.
  intros Hm Hk Hg Hd Hfree Ha Hok Hw. destruct (moves_split m k a Hk) as (A & B & E & ->).
  pose proof (mi_once _ _ Hm) as Honce. rewrite E, held_middle in Honce. apply NoDup_app in Honce as (Hnd & _).
  rewrite Ha in Hnd. apply NoDup_app in Hnd as (Hnd & Hj & _).
  apply (move_inv m l l A B a a' g Hm E Hg); rewrite ?Ha; try done.
  - intros x Hx. left. set_solver.
  - intros x Hx _. rewrite Hd. apply list_lookup_insert_ne. set_solver.
  - intros x d Hx Hin. rewrite Hd in Hx. apply list_lookup_insert_Some in Hx as [(-> & <- & _)|(Hne & Hx)].
    + rewrite Hfree. split; [done|]. intros Hx. exfalso. apply (Hj x Hx). set_solver.
    + assert (Hx' : x ∈ locks_of a') by set_solver. split; [done|]. intros _. apply (mi_locked _ _ Hm x d Hx), (held_lookup m k a _ Hk). rewrite Ha. set_solver.
  - intros ? ? ? ->. done.
Qed.

(** A thread comes. *)
Lemma done_inv m l : machine_inv m l -> machine_inv (Machine (cache m) (acts m ++ [Done])) l.
Proof.
  intros Hm. assert (E : held (acts m ++ [Done]) = held (acts m)) by (rewrite held_app; apply app_nil_r).
  split; cbn [cache acts]; rewrite ?E; try apply Hm.
  - apply Forall_app. split; [apply (mi_acts _ _ Hm)|by constructor].
  - destruct (mi_cycle _ _ Hm) as [rank Hr]. exists rank. intros j i it j' it' H1 H2. apply (Hr j i it j' it'); set_solver.
Qed.

(** Nothing about the locks or the kinds of names changes. *)
Lemma quiet_inv m l g l' (f : CatalogIterator -> CatalogIterator) : machine_inv m l -> cache_inv g l' -> data g = f <$> data (cache m) ->
  (forall c, ci_locked (f c) = ci_locked c /\ nameType (f c) = nameType c) -> machine_inv (Machine g (acts m)) l'.
Proof.
  intros Hm Hg Hd Hf. split; cbn [cache acts]; try apply Hm; try done.
  - intros i c. rewrite Hd, list_lookup_fmap. destruct (data (cache m) !! i) as [d|] eqn:Ed; [|done]. intros [= <-].
    rewrite (proj1 (Hf d)). by apply (mi_locked _ _ Hm).
  - eapply Forall_impl; [apply (mi_acts _ _ Hm)|]. assert (Hs : forall i, short (data (cache m)) i -> short (data g) i).
    { intros i (c & Hc & Ht). exists (f c). rewrite Hd, list_lookup_fmap, Hc. split; [done|]. by rewrite (proj2 (Hf c)). }
    intros []; cbn; naive_solver.
Qed.

(** ** The steps *)

(** A step is made and keeps the invariant. *)
Definition fires (m : machine) (lab : label) : Prop := exists m' l', fire m lab = Ok (Some m') /\ machine_inv m' l'.

Lemma enter_fires m l vol sigWord folder offset : machine_inv m l -> fires m (Enter vol sigWord folder offset).
Proof.
  intros Hm. pose proof (mi_cache _ _ Hm) as H. pose proof (get_choose_spec (cache m) l vol folder offset H) as Hg. unfold fires. cbn [fire].
  pose proof (done_inv m l Hm) as Hd. destruct (best vol folder offset (data (cache m)) l) as [i|].
  - destruct Hg as (c & g' & Hc & Hfree & -> & H' & Hdata & _). eexists _, (to_front i l). split; [done|].
    apply (move_inv _ l _ (acts m) [] Done (Holds i) g' Hd); try done.
    + apply NoDup_singleton.
    + intros j ->%list_elem_of_singleton. right. by exists c.
    + intros x _ Hx. rewrite Hdata. apply list_lookup_insert_ne. set_solver.
    + intros x d Hx Hin. assert (x = i) as -> by set_solver. rewrite Hdata, list_lookup_insert_eq in Hx by (by eapply lookup_lt_Some). simplify_eq.
      cbn. set_solver.
  - destruct Hg as (i & _ & Hi & ->). eexists _, l. split; [done|]. apply (move_inv _ l _ (acts m) [] Done (GetWaits i vol sigWord folder) (cache m) Hd); try done.
    + constructor.
    + set_solver.
    + set_solver.
Qed.

Lemma trash_fires m l vol folder : machine_inv m l -> vol <> 0 -> fires m (Trash vol folder).
Proof.
  intros Hm Hv. destruct (TrashCatalogIterator_spec (cache m) l vol folder (mi_cache _ _ Hm) Hv) as (g & He & Hg & Hd & _). unfold fires. cbn [fire].
  rewrite He. eexists _, _. split; [done|]. apply (quiet_inv m l g _ (trash vol folder)); try done. intros c. unfold trash. by destruct (matches vol folder c).
Qed.

(** A thread gets the lock that it waits for, once that is free. *)
Lemma lock_fires m l k a j c : machine_inv m l -> acts m !! k = Some a -> waits_for a = Some j -> data (cache m) !! j = Some c -> ci_locked c = false ->
  exists g, let a' := match a with GetWaits j v s f => GetLocked j v s f | PrepWaits j i it => PrepLocked j i it | a => a end in
    fire m (Lock k) = Ok (Some (moves m k g a')) /\ machine_inv (moves m k g a') l.
Proof.
  intros Hm Hk Hw Hc Hfree. pose proof (mi_cache _ _ Hm) as H. pose proof (lock_spec _ l j c H Hc) as Hl. rewrite Hfree in Hl.
  destruct Hl as (g & He & Hg & Hd & _). exists g. cbn [fire]. rewrite Hk. pose proof (act_lookup _ _ _ _ Hm Hk) as Hok.
  destruct a; try done; injection Hw as ->; rewrite He; (split; [done|]); apply (lock_inv m l k _ _ g j c Hm Hk Hg Hc Hfree Hd); try done.
  - set_solver.
  - destruct Hok as (_ & Hne & _). set_solver.
  - destruct Hok as (_ & Hne & (d & Hd' & Ht) & Hkey). split; [|done]. exists d. rewrite Hd. by rewrite list_lookup_insert_ne.
Qed.

(** *** Going on *)

Lemma recycle_fires m l k j vol sigWord folder : machine_inv m l -> acts m !! k = Some (GetLocked j vol sigWord folder) ->
  exists g c, fire m (Go k) = Ok (Some (moves m k g (Holds j))) /\ machine_inv (moves m k g (Holds j)) (to_front j l) /\
    data g !! j = Some c /\ ci_locked c = true /\ at_thread vol sigWord folder c.
Proof.
  intros Hm Hk. destruct (owned m l k _ j Hm Hk) as (c & Hc & Hl & Hn); [set_solver|].
  destruct (get_recycle_spec (cache m) l j c vol sigWord folder (mi_cache _ _ Hm) Hc) as (g & He & Hg & Hd & _).
  exists g, (recycle vol folder sigWord c). cbn [fire]. rewrite Hk, He. split_and!; [done| | |done|by apply recycle_at_thread].
  - by apply (own_inv m l _ k _ _ g j (recycle vol folder sigWord c) Hm Hk Hg Hd).
  - rewrite Hd. apply list_lookup_insert_eq. by eapply lookup_lt_Some.
Qed.

Lemma prepared_fires m l k i it : machine_inv m l -> acts m !! k = Some (Prepared i it) -> fires m (Go k).
Proof.
  intros Hm Hk. destruct (act_lookup _ _ _ _ Hm Hk) as [(c & Hc & Ht) Hkey]. destruct (owned m l k _ i Hm Hk) as (d & Hd & Hl & Hn); [set_solver|].
  rewrite Hc in Hd. injection Hd as <-. destruct (prepare_set_spec (cache m) l i c (mi_cache _ _ Hm) Hc) as (g & He & Hg & Hdg & _). set (c2 := set_name _ _ _ c) in *.
  assert (Hc2 : data g !! i = Some c2) by (rewrite Hdg; apply list_lookup_insert_eq; by eapply lookup_lt_Some).
  apply data_iterator in Hc2 as (c3 & Hc3 & E3). assert (Hp : is_pascal c3 = false) by (unfold is_pascal; change (nameType c3) with (nameType (set_links None None c3)); by rewrite <- E3).
  assert (Hf : folderName c3 = LongNamePtr) by (change (folderName c3) with (folderName (set_links None None c3)); by rewrite <- E3).
  assert (Hk3 : ci_locked c3 = true) by (change (ci_locked c3) with (ci_locked (set_links None None c3)); by rewrite <- E3).
  destruct (update_finish_spec g l i c3 it Hg Hc3) as (g' & nm & He' & Hg' & Hit & _).
  - by apply (data_name_ok g l i (set_links None None c3)), data_lookup.
  - by rewrite Hp.
  - rewrite Hp. unfold room. rewrite Hf. destruct (name_size_range false (it_key it) Hkey). lia.
  - unfold fires. cbn [fire]. rewrite Hk, He. cbn [mbind outcome_bind]. rewrite He'. eexists _, l. split; [done|].
    apply (own_inv m l l k _ (Holds i) g' i (set_links None None (set_name (nameType c3) (parentID c3) nm (left_folder c3))) Hm Hk Hg'); try done.
    + unfold data at 1. rewrite Hit, list_fmap_insert. fold (data g). by rewrite Hdg, list_insert_insert_eq.
    + cbn. unfold left_folder. by destruct (parentID c3 =? folderID c3).
Qed.

Lemma go_fires m l k a : machine_inv m l -> acts m !! k = Some a -> goes a = true -> fires m (Go k).
Proof.
  intros Hm Hk Ha. destruct a as [| j vol sigWord folder | | | j i it | i it |]; try done; [| |by apply (prepared_fires m l k i it)].
  - destruct (recycle_fires m l k j vol sigWord folder Hm Hk) as (g & _ & He & Hg & _). by eexists _, _.
  - destruct (act_lookup _ _ _ _ Hm Hk) as [(d & Hd & Ht) Hkey]. destruct (owned m l k _ j Hm Hk) as (c & Hc & _ & _); [set_solver|].
    destruct (prepare_trash_spec (cache m) l j c (mi_cache _ _ Hm) Hc) as (g & He & Hg & Hdg & _). unfold fires. cbn [fire]. rewrite Hk, He.
    eexists _, l. split; [done|]. eapply (unlock_inv m l k _ _ g j _ Hm Hk Hg Hdg); try done. split; [|done]. exists d. split; [|done].
    rewrite Hdg, list_lookup_insert_ne; [done|]. intros ->. pose proof (mi_once _ _ Hm) as Honce. destruct (moves_split m k _ Hk) as (A & B & E & _).
    rewrite E, held_middle in Honce. apply NoDup_app in Honce as (Hnd & _). apply NoDup_cons in Hnd as [Hnd _]. apply Hnd. set_solver.
Qed.

(** *** Using an iterator *)

Lemma fits_room c size : name_ok c -> size <= 512 -> (is_pascal c = true -> size <= 32) -> needs_buffer c size = false -> size <= room c.
Proof.
  unfold needs_buffer, name_ok, room, is_pascal, sizeof_UniStr63. intros Hn Hs Hp Hnb. destruct (folderName c); [|done].
  destruct Hn as [[E|E] _]; rewrite E in *; [specialize (Hp eq_refl); lia|]. cbn in Hnb. apply Z.ltb_ge in Hnb. done.
Qed.

Lemma update_fires m l k it : machine_inv m l -> enabled m (Update k it) -> fires m (Update k it).
Proof.
  intros Hm (i & c & Hk & Hc & Hkey). pose proof (mi_cache _ _ Hm) as H. pose proof (data_lookup _ _ _ Hc) as Hcd.
  destruct (owned m l k _ i Hm Hk) as (d & Hd & Hl & Hn); [set_solver|]. rewrite Hcd in Hd. injection Hd as <-. cbn in Hl.
  destruct (name_size_range _ _ Hkey) as [Hr Hr32]. unfold fires. cbn [fire]. unfold owner. rewrite Hk.
  rewrite (update_begin_spec _ i c it Hc Hn). cbn [mbind outcome_bind]. set (g2 := update (cache m) i (begun it c)).
  assert (Hc2 : iterators g2 !! i = Some (begun it c)) by by eapply update_lookup.
  assert (H2 : cache_inv g2 l) by by apply (cache_update (cache m) l i c).
  assert (Hd2 : data g2 = <[i := set_links None None (begun it c)]> (data (cache m))) by apply data_update.
  assert (Hi2 : data g2 !! i = Some (set_links None None (begun it c))) by by apply data_lookup.
  destruct (needs_buffer c (name_size (is_pascal c) (it_key it))) eqn:Enb.
  - assert (Et : nameType c = kShortUnicodeName) by (unfold needs_buffer in Enb; apply andb_true_iff in Enb as [?%Z.eqb_eq _]; done).
    assert (Hs : short (data g2) i) by (exists (set_links None None (begun it c)); done).
    assert (Hp : key_fits false (it_key it)) by (unfold is_pascal in Hkey; by rewrite Et in Hkey).
    pose proof (prepare_choose_spec g2 l H2) as Hch. destruct (holder (data g2) l) as [j|] eqn:Eh.
    + destruct Hch as (g3 & -> & H3 & Hd3 & _). cbn [mbind outcome_bind]. destruct (holder_long _ _ _ Eh) as (Hj & e & He & Hlong).
      eexists _, (to_back j l). split; [done|]. eapply (own_inv m l _ k _ _ g3 i _ Hm Hk H3); [by rewrite Hd3|done|done|done| |].
      * rewrite Hd3. split_and!; [by apply (data_count g2 l j e)| |done|done]. intros ->. rewrite He in Hi2. injection Hi2 as ->. cbn in Hlong. by rewrite Et in Hlong.
      * intros ? ? ? [= <- <- <-]. rewrite Hd3. by exists e.
    + rewrite Hch. cbn [mbind outcome_bind]. eexists _, l. split; [done|]. by eapply (own_inv m l _ k _ _ g2 i _ Hm Hk H2).
  - destruct (update_finish_spec g2 l i (begun it c) it H2 Hc2) as (g3 & nm & He & H3 & Hit & _); [done|done| |].
    { apply (fits_room c (name_size (is_pascal c) (it_key it))); [done|lia|done|done]. }
    change (is_pascal (begun it c)) with (is_pascal c) in *. rewrite He. cbn [mbind outcome_bind]. eexists _, l. split; [done|].
    eapply (own_inv m l _ k _ _ g3 i _ Hm Hk H3); [|done|done| |done|done].
    + unfold data at 1. rewrite Hit, list_fmap_insert. fold (data g2). by rewrite Hd2, list_insert_insert_eq.
    + cbn. unfold left_folder. by destruct (parentID (begun it c) =? folderID (begun it c)).
Qed.

(** An assignment of the owner that has to do with neither locks nor links. *)
Lemma assign_fires m l k i f : machine_inv m l -> acts m !! k = Some (Holds i) -> plain f ->
  (forall c, name_ok c -> name_ok (f c)) -> (forall c, ci_locked (f c) = ci_locked c) ->
  exists m' l', owner m k (fun i => g ← modify (cache m) (Some i) f; Ok (g, Holds i)) = Ok (Some m') /\ machine_inv m' l'.
Proof.
  intros Hm Hk Hf Hname Hlock. destruct (owned m l k _ i Hm Hk) as (c & Hc & Hl & Hn); [set_solver|].
  destruct (modify_spec (cache m) l i f c (mi_cache _ _ Hm) Hc Hf (Hname c Hn)) as (g & He & Hg & Hd & _). unfold owner. rewrite Hk, He.
  eexists _, l. split; [done|]. apply (own_inv m l l k _ (Holds i) g i (f c) Hm Hk Hg Hd); try done. by rewrite Hlock.
Qed.

Lemma age_fires m l k i : machine_inv m l -> acts m !! k = Some (Holds i) -> fires m (Age k).
Proof.
  intros Hm Hk. destruct (owned m l k _ i Hm Hk) as (c & Hc & Hl & Hn); [set_solver|]. pose proof (data_count _ _ _ _ (mi_cache _ _ Hm) Hc) as Hi.
  destruct (AgeCatalogIterator_spec (cache m) l i (mi_cache _ _ Hm) Hi) as (g & He & Hg & Hd). unfold fires. cbn [fire]. unfold owner. rewrite Hk, He.
  eexists _, _. split; [done|]. apply (own_inv m l _ k _ (Holds i) g i c Hm Hk Hg); try done. by rewrite Hd, list_insert_id.
Qed.

Lemma release_fires m l k i : machine_inv m l -> acts m !! k = Some (Holds i) -> fires m (Release k).
Proof.
  intros Hm Hk. destruct (owned m l k _ i Hm Hk) as (c & Hc & Hl & Hn); [set_solver|].
  destruct (modify_spec (cache m) l i (set_locked false) c (mi_cache _ _ Hm) Hc) as (g & He & Hg & Hd & _); [done..|].
  unfold fires. cbn [fire]. unfold owner, ReleaseCatalogIterator. rewrite Hk, He. eexists _, l. split; [done|].
  by eapply (unlock_inv m l k _ _ g i _ Hm Hk Hg Hd).
Qed.

Lemma enabled_fires m l lab : machine_inv m l -> enabled m lab -> fires m lab.
Proof.
  intros Hm He. destruct lab as [vol sigWord folder offset|k|k|k it|k cur next|k|k|k|vol folder].
  - by apply (enter_fires m l).
  - destruct He as (a & j & c & Hk & Hw & Hc & Hfree). destruct (lock_fires m l k a j _ Hm Hk Hw (data_lookup _ _ _ Hc) Hfree) as (g & ? & ?). by eexists _, l.
  - destruct He as (a & Hk & Ha). by apply (go_fires m l k a).
  - by apply (update_fires m l).
  - destruct He as [i Hk]. by apply (assign_fires m l k i (set_offsets cur next)).
  - destruct He as [i Hk]. by apply (assign_fires m l k i (set_folder 0 0)).
  - destruct He as [i Hk]. by apply (age_fires m l k i).
  - destruct He as [i Hk]. by apply (release_fires m l k i).
  - by apply (trash_fires m l).
Qed.

Lemma init_machine_inv : machine_inv (Machine InitCatalogCache []) (seq 0 kCatalogIteratorCount).
Proof.
  split; cbn [cache acts]; [apply InitCatalogCache_inv|constructor| |set_solver|constructor|].
  - intros i c (d & Hd & ->)%data_iterator. apply list_elem_of_lookup_2, list_elem_of_fmap in Hd as (n & -> & _). cbn. set_solver.
  - exists (fun _ => 0%nat). set_solver.
Qed.

Lemma reachable_inv m : reachable m -> exists l, machine_inv m l.
Proof.
  induction 1 as [|m lab m' _ [l Hm] He Hf]; [eexists; apply init_machine_inv|].
  destruct (enabled_fires m l lab Hm He) as (m1 & l1 & E & H1). rewrite Hf in E. injection E as <-. by exists l1.
Qed.

(** ** Waiting ends *)

(** The steps that bring a thread to its end. *)
Definition ahead (k : nat) : list label := [Lock k; Go k; Release k].
Definition can_go (m : machine) : Prop := exists k lab m', lab ∈ ahead k /\ enabled m lab /\ fire m lab = Ok (Some m').

Lemma can_go_intro m l k lab : machine_inv m l -> lab ∈ ahead k -> enabled m lab -> can_go m.
Proof. intros Hm Hlab He. destruct (enabled_fires m l lab Hm He) as (m' & _ & ? & _). by exists k, lab, m'. Qed.

(** Someone has a lock that is not free. *)
Lemma lock_owner m l j c : machine_inv m l -> data (cache m) !! j = Some c -> ci_locked c = true -> exists k a, acts m !! k = Some a /\ j ∈ locks_of a.
Proof. intros Hm Hc Hl%(mi_locked _ _ Hm j c Hc). apply held_elem in Hl as (a & [k Hk]%list_elem_of_lookup & Hj). by exists k, a. Qed.

Lemma waiting_goes m l k a j : machine_inv m l -> acts m !! k = Some a -> waits_for a = Some j ->
  (forall k' a', acts m !! k' = Some a' -> j ∈ locks_of a' -> can_go m) -> can_go m.
Proof.
  intros Hm Hk Hw Hgo. assert (Hj : (j < kCatalogIteratorCount)%nat).
  { pose proof (act_lookup _ _ _ _ Hm Hk) as Hok. destruct a; simplify_eq/=; [done|]. by destruct Hok. }
  destruct (cache_lookup _ _ j (mi_cache _ _ Hm) Hj) as (c & Hc & _). destruct (ci_locked c) eqn:El.
  - destruct (lock_owner m l j _ Hm (data_lookup _ _ _ Hc) El) as (k' & a' & Hk' & Hj'). eauto.
  - apply (can_go_intro m l k (Lock k) Hm); [set_solver|]. by exists a, j, c.
Qed.

(** The owner of a lock goes on, or waits for one that came later. *)
Lemma owner_goes m l rank : machine_inv m l ->
  (forall j i it j' it', PrepWaits j i it ∈ acts m -> PrepWaits j' j it' ∈ acts m -> (rank i < rank j)%nat) ->
  forall n k a i, acts m !! k = Some a -> i ∈ locks_of a -> (max_list (map rank (held (acts m))) - rank i <= n)%nat -> can_go m.
Proof.
  intros Hm Hr. assert (Hgo : forall k a, acts m !! k = Some a -> goes a = true -> can_go m).
  { intros k a Hk Ha. apply (can_go_intro m l k (Go k) Hm); [set_solver|]. by exists a. }
  assert (Hmax : forall i, i ∈ held (acts m) -> (rank i <= max_list (map rank (held (acts m))))%nat).
  { intros i Hi. apply max_list_elem_of_le, list_elem_of_fmap. by exists i. }
  induction n as [n IH] using lt_wf_ind. intros k a i Hk Hi Hn. destruct a as [| |i'|j i' it| | |]; try (by apply (Hgo _ _ Hk)); [set_solver| | |set_solver].
  - apply (can_go_intro m l k (Release k) Hm); [set_solver|]. by exists i'.
  - assert (i' = i) as -> by set_solver. apply (waiting_goes m l k _ j Hm Hk); [done|]. intros k' a' Hk' Hj.
    destruct a' as [| |i2|j2 i2 it2| | |]; try (by apply (Hgo _ _ Hk')); [set_solver| | |set_solver].
    + apply (can_go_intro m l k' (Release k') Hm); [set_solver|]. by exists i2.
    + assert (i2 = j) as -> by set_solver. assert (Hlt : (rank i < rank j)%nat) by (eapply Hr; by eapply list_elem_of_lookup_2).
      pose proof (Hmax j (held_lookup _ _ _ _ Hk' Hj)). eapply (IH (max_list (map rank (held (acts m))) - rank j)%nat); [lia|exact Hk'|exact Hj|done].
Qed.

Lemma no_deadlock m l k a : machine_inv m l -> acts m !! k = Some a -> a <> Done -> can_go m.
Proof.
  intros Hm Hk Ha. destruct (mi_cycle _ _ Hm) as [rank Hr].
  assert (Ho : forall k a i, acts m !! k = Some a -> i ∈ locks_of a -> can_go m) by (intros; by eapply (owner_goes m l rank)).
  destruct a as [j vol sigWord folder|j vol sigWord folder|i|j i it|j i it|i it|]; try done.
  { apply (waiting_goes m l k _ j Hm Hk); [done|]. eauto. }
  all: eapply (Ho k _ _ Hk); apply list_elem_of_here.
Qed.

(** ** The theorems *)

(** C25: however the calls of several threads interleave, also while some sleep, the links of
    the sixteen iterators form one list in both directions that has every iterator once, from
    the most to the least recently used one, and each name is where its kind says; the locks
    that are taken are those that the threads have, each in one thread.  Every step that a
    thread is about to make is made, to such a state again: no pointer fails and no loop runs
    for ever.  The parts of the routines that run under one lock are the steps. *)
Theorem catalog_cache_invariant m : reachable m ->
  (exists l, cache_inv (cache m) l) /\ NoDup (held (acts m)) /\
  (forall i c, iterators (cache m) !! i = Some c -> ci_locked c = true <-> i ∈ held (acts m)) /\
  forall lab, enabled m lab -> exists m', fire m lab = Ok (Some m') /\ reachable m'.
Proof.
  intros Hr. destruct (reachable_inv m Hr) as [l Hm]. split_and!; [exists l; apply Hm|apply Hm| |].
  - intros i c Hc. exact (mi_locked _ _ Hm i _ (data_lookup _ _ _ Hc)).
  - intros lab He. destruct (enabled_fires m l lab Hm He) as (m' & _ & Hf & _). exists m'. split; [done|]. by eapply reach_step.
Qed.

(** C29: the threads at the cache never block each other for ever: as long as one has not
    finished, a step that brings some thread to its end can be made.  A thread sleeps only
    for a lock that another one has; one that sleeps in [GetCatalogIterator] gets the lock of
    the iterator that it chose before as soon as that is free, and then has this iterator,
    locked, the first of the list and at the thread of the folder that it asked for. *)
Theorem GetCatalogIterator_progress m k a : reachable m -> acts m !! k = Some a -> a <> Done ->
  can_go m /\
  (forall j, waits_for a = Some j -> fire m (Lock k) = Ok None -> exists k' a', k' <> k /\ acts m !! k' = Some a' /\ j ∈ locks_of a') /\
  (forall j vol sigWord folder c, a = GetWaits j vol sigWord folder -> iterators (cache m) !! j = Some c -> ci_locked c = false ->
    exists m', fire m (Lock k) = Ok (Some m') /\ acts m' !! k = Some (GetLocked j vol sigWord folder)) /\
  (forall j vol sigWord folder, a = GetLocked j vol sigWord folder ->
    exists m' c, fire m (Go k) = Ok (Some m') /\ acts m' !! k = Some (Holds j) /\ mru (cache m') = Some j /\
      iterators (cache m') !! j = Some c /\ ci_locked c = true /\ at_thread vol sigWord folder c).
Proof.
  intros Hr Hk Ha. destruct (reachable_inv m Hr) as [l Hm]. split_and!.
  - by apply (no_deadlock m l k a).
  - intros j Hw Hsleep. pose proof (act_lookup _ _ _ _ Hm Hk) as Hok.
    assert (Hj : (j < kCatalogIteratorCount)%nat /\ j ∉ locks_of a) by (destruct a; simplify_eq/=; set_solver). destruct Hj as [Hj Hown].
    destruct (cache_lookup _ _ j (mi_cache _ _ Hm) Hj) as (c & Hc & _). apply data_lookup in Hc. destruct (ci_locked c) eqn:El.
    + destruct (lock_owner m l j _ Hm Hc El) as (k' & a' & Hk' & Hj'). exists k', a'. split_and!; [|done|done]. intros ->. by simplify_eq.
    + destruct (lock_fires m l k a j _ Hm Hk Hw Hc El) as (g & Hf & _). cbn zeta in Hf. by rewrite Hf in Hsleep.
  - intros j vol sigWord folder c -> Hc Hfree. destruct (lock_fires m l k _ j _ Hm Hk eq_refl (data_lookup _ _ _ Hc) Hfree) as (g & Hf & _).
    eexists. split; [exact Hf|]. apply list_lookup_insert_eq. by eapply lookup_lt_Some.
  - intros j vol sigWord folder ->. destruct (recycle_fires m l k j vol sigWord folder Hm Hk) as (g & c & Hf & Hg & (d & Hd & ->)%data_iterator & Hl & Hat).
    eexists _, d. split_and!; [exact Hf| | |exact Hd|exact Hl|by destruct Hat].
    + apply list_lookup_insert_eq. by eapply lookup_lt_Some.
    + apply (ci_linked _ _ (mi_cache _ _ Hg)).
Qed.

(** ** Runs *)

Fixpoint run (m : machine) (labs : list label) : option machine :=
  match labs with
  | [] => Some m
  | lab :: labs => match fire m lab with Ok (Some m') => run m' labs | _ => None end
  end.

(** Threads that only get and release iterators. *)
Definition plain_label (lab : label) : bool := match lab with Enter _ _ _ _ | Lock _ | Go _ | Release _ => true | _ => false end.

Lemma lock_Some g j g' : CI_LOCK_FROM_LIST g j = Ok (Some g') -> exists c, iterators g !! j = Some c /\ ci_locked c = false.
Proof.
  unfold CI_LOCK_FROM_LIST. cbn [deref]. destruct (iterators g !! j) as [c|]; [|done]. cbn [of_option mbind outcome_bind].
  destruct (ci_locked c) eqn:El; [done|]. by exists c.
Qed.

Lemma fire_enabled m lab m' : plain_label lab = true -> fire m lab = Ok (Some m') -> enabled m lab.
Proof.
  destruct lab as [| k | k | | | | | k |]; cbn [plain_label fire enabled]; try done; intros _; unfold owner; destruct (acts m !! k) as [[]|] eqn:Hk; try done;
    try (by intros _; eexists; eauto).
  - destruct (CI_LOCK_FROM_LIST (cache m) j) as [[g|]| | |] eqn:E; try done. destruct (lock_Some _ _ _ E) as (c & ? & ?). intros _. by eexists _, j, c.
  - destruct (CI_LOCK_FROM_LIST (cache m) j) as [[g|]| | |] eqn:E; try done. destruct (lock_Some _ _ _ E) as (c & ? & ?). intros _. by eexists _, j, c.
Qed.

Lemma run_reachable labs : forall m m', reachable m -> forallb plain_label labs = true -> run m labs = Some m' -> reachable m'.
Proof.
  induction labs as [|lab labs IH]; intros m m' Hm; cbn [forallb run]; [by intros _ [= <-]|]. intros [Hp Hps]%andb_true_iff.
  destruct (fire m lab) as [[m1|]| | |] eqn:E; try done. apply (IH m1); [|done]. by eapply reach_step; [|eapply fire_enabled|].
Qed.

(** Seventeen threads read seventeen folders: the last one waits for the iterator of the
    first, which is then released. *)
Definition reader (k : nat) (folder : Z) : list label := [Enter 1 kHFSPlusSigWord folder 0; Lock k; Go k].
Definition crowd : list label := flat_map (fun k => reader k (16 + Z.of_nat k)) (seq 0 16) ++ [Enter 1 kHFSPlusSigWord 32 0].
Definition crowded : machine := Eval vm_compute in match run (Machine InitCatalogCache []) crowd with Some m => m | None => Machine InitCatalogCache [] end.
Definition woken : machine := Eval vm_compute in match run crowded [Release 0] with Some m => m | None => crowded end.

Lemma crowded_reachable : reachable crowded.
Proof. apply (run_reachable crowd (Machine InitCatalogCache [])); [apply reach_init|vm_compute; reflexivity..]. Qed.

Lemma woken_reachable : reachable woken.
Proof. apply (run_reachable [Release 0] crowded); [apply crowded_reachable|vm_compute; reflexivity..]. Qed.

Example crowded_waits : acts crowded !! 16%nat = Some (GetWaits 15 1 kHFSPlusSigWord 32) /\ fire crowded (Lock 16) = Ok None.
Proof. vm_compute. split; reflexivity. Qed.

Lemma catalog_cache_invariant_witness : exists m', fire crowded (Trash 1 20) = Ok (Some m') /\ reachable m'.
Proof. exact (proj2 (proj2 (proj2 (catalog_cache_invariant crowded crowded_reachable))) (Trash 1 20) ltac:(discriminate)). Defined.

Lemma GetCatalogIterator_progress_witness : exists m', fire woken (Lock 16) = Ok (Some m') /\ acts m' !! 16%nat = Some (GetLocked 15 1 kHFSPlusSigWord 32).
Proof.
  destruct (iterators (cache woken) !! 15%nat) as [c|] eqn:Hc; [|exfalso; vm_compute in Hc; discriminate].
  refine (proj1 (proj2 (proj2 (GetCatalogIterator_progress woken 16 (GetWaits 15 1 kHFSPlusSigWord 32) woken_reachable _ _))) 15%nat _ _ _ c eq_refl Hc _).
  - vm_compute. reflexivity.
  - discriminate.
  - vm_compute in Hc. injection Hc as <-. reflexivity.
Defined.

(** Two threads that find no owner of the buffer of long names both take it: the lock of the
    list is released before the kind of the name is changed.  Both have their iterators
    locked, of their folders; the position of the first one is read back with the name of the
    second. *)
Definition race : list label :=
  reader 0 16 ++ reader 1 17 ++
  [Update 0 (set_key new_iterator (repeated_key 16 70 97)); Update 1 (set_key new_iterator (repeated_key 17 80 98)); Go 0; Go 1].

Definition raced : machine := Eval vm_compute in match run (Machine InitCatalogCache []) race with Some m => m | None => Machine InitCatalogCache [] end.

Lemma long_name_race : run (Machine InitCatalogCache []) race = Some raced /\ acts raced = [Holds 15; Holds 14] /\
  (exists c, iterators (cache raced) !! 15%nat = Some c /\ volume c = 1 /\ folderID c = 16) /\
  (it ← UpdateBtreeIterator (cache raced) 15 new_iterator; Ok (key_trim (it_key it))) = Ok (key_trim (repeated_key 16 80 98)).
Proof.
  split; [vm_compute; reflexivity|]. split; [reflexivity|]. split; [|vm_compute; reflexivity].
  eexists. split; [reflexivity|]. split; reflexivity.
Qed.
