(* ===== verification/CatalogDirectory.v ===== *)
(** * Reading directories (hfs_catalog.c and hfscommon/Catalog/Catalog.c)

    [cat_getdirentries] hands the entries of a folder to a buffer of the caller, from an
    offset on; a catalog iterator remembers the position for the next call.
    [cat_getentriesattr] lists entries with their attributes. *)
From S2P Require Import Prelude Bits VolumeBitmap VolumeAllocation ExtentMapping UtfConv NameMangling Encodings MacTime.
From S2P Require Import Bytes UnicodeCompare BTreeNode BTreeKeys BTreeBlocks BTreeFile NodeSwap Catalog CatalogIterators.

Definition cmNotFound : Z := ERR_BASE + 48.
Definition kRootDirID : Z := 2.
Definition kdirentMaxNameBytes : Z := 255.
Definition DT_DIR : Z := 4.
Definition DT_REG : Z := 8.
Definition HFS_AVERAGE_NAME_SIZE : Z := 22.
Definition AVERAGE_HFSDIRENTRY_SIZE : Z := 8 + HFS_AVERAGE_NAME_SIZE + 4.
Definition CAT_START_OFFSET : Z := 24.
Definition MAXHFSVNODELEN : Z := 31.

(** [struct dirent]; [d_name] without the NUL. *)
Record dirent := mkDirent { d_fileno : Z; d_reclen : Z; d_type : Z; d_namlen : Z; d_name : list Z }.

(** The caller's buffer: the entries that were copied to it. *)
Record uio := mkUio { uio_offset : Z; uio_resid : Z; uio_out : list dirent }.

(** The B-tree manager, for reading on from a position: [BTIterateRecord] without a
    record, and [BTIterateRecords]. *)
Class DirectoryTree (X : Type) := {
  dt_iterate : X -> Z -> BTreeIterator -> outcome (Z * BTreeIterator * X);
  dt_iterates {C : Type} : X -> Z -> BTreeIterator -> (buffer -> buffer -> Z -> C -> Z * C) -> C -> outcome (Z * BTreeIterator * C * X)
}.

Record read_state := mkRead {
  cbs_parentID : Z;
  cbs_hiddenDirID : Z;
  cbs_hiddenJournalID : Z;
  cbs_hiddenInfoBlkID : Z;
  cbs_lastoffset : Z;
  cbs_uio : uio;
  cbs_hfsPlus : bool;
  cbs_result : Z
}.
Definition set_read (st : read_state) (lastoffset : Z) (u : uio) (result : Z) : read_state :=
  mkRead (cbs_parentID st) (cbs_hiddenDirID st) (cbs_hiddenJournalID st) (cbs_hiddenInfoBlkID st) lastoffset u (cbs_hfsPlus st) result.

Record cat_entry := mkEntry {
  ce_desc : cat_desc;
  ce_attr : cat_attr;
  ce_datasize : Z;
  ce_rsrcsize : Z;
  ce_datablks : Z;
  ce_rsrcblks : Z
}.
Definition MAXCATENTRIES : nat := 8.
(** [ce_entry] has [MAXCATENTRIES] entries, of which [realentries] are valid. *)
Record cat_entrylist := mkEntryList { maxentries : Z; realentries : Z; ce_entry : list cat_entry }.
Record readattr_state := mkReadattr { ra_list : cat_entrylist; ra_dir : Z; ra_error : Z }.

Section directory.
Context {X : Type} `{!CatalogTree X, !DirectoryTree X}.
(** What the memory of a record holds; the size of [struct dirent] without its name and the
    sizes of the entries [.] and [..] ([_GENERIC_DIRLEN]), of the system; the errors of
    [uiomove]. *)
Context (junk : buffer) (dirent_fixed DOTS_SIZE : Z) (copyout : uio -> Z -> Z).

Definition DIRENTRY_SIZE (namlen : Z) : Z := dirent_fixed + Z.land (namlen + 1 + 3) (Z.lnot 3).

Definition uiomove (e : dirent) (n : Z) (u : uio) : Z * uio :=
  let err := copyout u n in
  if err =? 0 then (0, mkUio (uio_offset u + n) (uio_resid u - n) (uio_out u ++ [e])) else (err, u).

(** The characters of the name of a key. *)
Definition ustr (ckp : buffer) : list Z := map (fun j => get ckp (8 + 2 * j) 2) (seqZ 0 (get ckp 6 2)).

Definition GetDirEntrySize (m : hfsmount) (ckp : buffer) : outcome Z :=
  if hm_sigWord m =? kHFSPlusSigWord then
    let utf8chars := utf8_encodelen (ustr ckp) 0x3A 0 in
    Ok (DIRENTRY_SIZE (if kdirentMaxNameBytes <? utf8chars then kdirentMaxNameBytes else utf8chars))
  else
    '(result, _, utf8chars) ← hfs_to_utf8 (hfs_converter m) (drop 6 ckp) (kdirentMaxNameBytes + 1);
    utf8chars ←
      (if negb (result =? 0) then '(_, _, n) ← mac_roman_to_utf8 (drop 6 ckp) (MAXHFSVNODELEN + 1); Ok (match n with None => utf8chars | _ => n end)
       else Ok utf8chars);
    n ← of_option utf8chars;
    Ok (DIRENTRY_SIZE n).

(** [while (nextOffset < offset)] *)
Fixpoint position_loop (fuel : nat) (m : hfsmount) (x : X) (bip : BTreeIterator) (pid curOffset nextOffset offset : Z)
    : outcome (Z * BTreeIterator * Z * Z * X) :=
  if nextOffset <? offset then
    match fuel with
    | O => Diverge
    | S fuel =>
        '(result, bip, x) ← dt_iterate x kBTreeNextRecord bip;
        if negb (result =? 0) then Ok (result, bip, curOffset, nextOffset, x)
        else if negb (pid =? get (it_key bip) 2 4) then Ok (cmNotFound, bip, curOffset, nextOffset, x)
        else
          n ← GetDirEntrySize m (it_key bip);
          position_loop fuel m x bip pid nextOffset (u32 (nextOffset + n)) offset
    end
  else Ok (0, bip, curOffset, nextOffset, x).

(** The result, [*op] and the iterator.  [cip->volume] is the volume of [m]. *)
Definition PositionIterator (fuel : nat) (m : hfsmount) (g : CatalogCacheGlobals) (x : X) (cip : nat) (offset : Z) (bip : BTreeIterator)
    : outcome (Z * Z * BTreeIterator * CatalogCacheGlobals * X) :=
  c ← deref g (Some cip);
  if negb (folderID c =? parentID c) then Ok (cmNotFound, 0, bip, g, x)
  else
    bip ← UpdateBtreeIterator g cip bip;
    if currentOffset c =? offset then Ok (0, kBTreeCurrentRecord, bip, g, x)
    else if nextOffset c =? offset then Ok (0, kBTreeNextRecord, bip, g, x)
    else
      let exit result bip g x := Ok (if result =? btNotFound then cmNotFound else result, kBTreeNextRecord, bip, g, x) in
      '(result, bip, _, _, x) ← ct_search x bip junk true;
      if negb (result =? 0) then exit result bip g x
      else if CAT_START_OFFSET <? offset then
        '(result, bip, x) ← dt_iterate x kBTreeNextRecord bip;
        if negb (result =? 0) then exit result bip g x
        else
          n ← GetDirEntrySize m (it_key bip);
          '(result, bip, curOffset, nextOffset, x) ←
            position_loop fuel m x bip (get (it_key bip) 2 4) CAT_START_OFFSET (u32 (CAT_START_OFFSET + n)) offset;
          if negb (result =? 0) then exit result bip g x
          else if negb (nextOffset =? offset) then exit cmNotFound bip g x
          else
            g ← UpdateCatalogIterator g bip cip;
            g ← modify g (Some cip) (set_offsets curOffset nextOffset);
            exit 0 bip g x
      else exit 0 bip g x.

(** The type and number of an entry; other records end the reading. *)
Definition entry_kind (hfsPlus : bool) (crp : buffer) : option (Z * Z) :=
  let t := recordType crp in
  if hfsPlus then
    if t =? kHFSPlusFolderRecord then Some (DT_DIR, get crp 8 4)
    else if t =? kHFSPlusFileRecord then Some (DT_REG, get crp 8 4) else None
  else
    if t =? kHFSFolderRecord then Some (DT_DIR, get crp 6 4)
    else if t =? kHFSFileRecord then Some (DT_REG, get crp 20 4) else None.

(** The name of an entry, and its length. *)
Definition entry_name (m : hfsmount) (hfsPlus : bool) (ckp : buffer) (fileno : Z) : outcome (list Z * Z) :=
  if hfsPlus then
    '(result, out, utf8chars) ← utf8_encodestr (ustr ckp) (kdirentMaxNameBytes + 1) 0x3A 0;
    if result =? ENAMETOOLONG then ConvertUnicodeToUTF8Mangled (ustr ckp) (kdirentMaxNameBytes + 1) fileno
    else Ok (take (Z.to_nat utf8chars) out, utf8chars)
  else
    '(result, out, utf8chars) ← hfs_to_utf8 (hfs_converter m) (drop 6 ckp) (kdirentMaxNameBytes + 1);
    '(out, utf8chars) ←
      (if negb (result =? 0) then
         '(_, out, n) ← mac_roman_to_utf8 (drop 6 ckp) (kdirentMaxNameBytes + 1); Ok (out, match n with None => utf8chars | _ => n end)
       else Ok (out, utf8chars));
    n ← of_option utf8chars;
    Ok (take (Z.to_nat n) out, n).

(** Zero ends the iteration. *)
Definition catrec_read (m : hfsmount) (ckp crp : buffer) (st : read_state) : outcome (Z * read_state) :=
  let curID := get ckp 2 4 in
  let lastitem := Ok (0, set_read st (uio_offset (cbs_uio st)) (cbs_uio st) ENOENT) in
  if negb (cbs_parentID st =? curID) then lastitem
  else
    match entry_kind (cbs_hfsPlus st) crp with
    | None => Ok (0, st)
    | Some (type, fileno) =>
        '(name, utf8chars) ← entry_name m (cbs_hfsPlus st) ckp fileno;
        let catent := mkDirent fileno (DIRENTRY_SIZE utf8chars) type utf8chars name in
        if (curID =? kRootDirID) && (fileno =? cbs_hiddenDirID st) && (type =? DT_DIR) then lastitem
        else if (curID =? kRootDirID) && (type =? DT_REG) && ((fileno =? cbs_hiddenJournalID st) || (fileno =? cbs_hiddenInfoBlkID st)) then Ok (1, st)
        else
          let u := cbs_uio st in
          if uio_resid u <? d_reclen catent then Ok (0, set_read st (uio_offset u) u (cbs_result st))
          else
            let '(err, u') := uiomove catent (d_reclen catent) u in
            Ok (if (err =? 0) && (AVERAGE_HFSDIRENTRY_SIZE <=? uio_resid u') then 1 else 0, set_read st (uio_offset u) u' err)
    end.

(** A callback that can fail as one that keeps the failure. *)
Definition keep {C} (f : buffer -> buffer -> Z -> C -> outcome (Z * C)) (key rec : buffer) (len : Z) (st : outcome C) : Z * outcome C :=
  match (c ← st; f key rec len c) with
  | Ok (r, c) => (r, Ok c)
  | Panic msg => (0, Panic msg)
  | Fault => (0, Fault)
  | Diverge => (0, Diverge)
  end.

(** [cat_getdirentries]: the result, [*eofflag], the buffer and the states.  [vol] is the
    address of the volume; [jnl] and [info] are what the stack has where the numbers of the
    journal files would be. *)
Definition cat_getdirentries (fuel : nat) (m : hfsmount) (vol : Z) (jnl info : Z) (g : CatalogCacheGlobals) (x : X) (descp : cat_desc) (u : uio)
    : outcome (Z * Z * uio * CatalogCacheGlobals * X) :=
  let dirID := cd_cnid descp in
  let diroffset := u32 (uio_offset u - DOTS_SIZE) in
  '(cip, g) ← GetCatalogIterator g vol (hm_sigWord m) dirID diroffset;
  '(result, op, it, g, x) ← PositionIterator fuel m g x cip diroffset new_iterator;
  if result =? cmNotFound then
    g ← AgeCatalogIterator g cip;
    g ← ReleaseCatalogIterator g cip;
    Ok (0, 1, u, g, x)
  else
    let discard g :=
      (g ← modify g (Some cip) (set_folder 0 0); g ← AgeCatalogIterator g cip; ReleaseCatalogIterator g cip) in
    let result := MacToVFSError result in
    if negb (result =? 0) then g ← discard g; Ok (result, 0, u, g, x)
    else
      c ← deref g (Some cip);
      let st := mkRead dirID (hfs_private_metadata_dir m) jnl info (currentOffset c) u (hm_sigWord m =? kHFSPlusSigWord) 0 in
      '(err, it, st, x) ← dt_iterates x op it (keep (fun key rec _ st => catrec_read m key rec st)) (Ok st);
      st ← st;
      let result := if negb (cbs_result st =? 0) then cbs_result st else MacToVFSError err in
      let eofflag := if result =? ENOENT then 1 else 0 in
      let result := if result =? ENOENT then 0 else result in
      if result =? 0 then
        g ← modify g (Some cip) (set_offsets (u32 (cbs_lastoffset st)) (u32 (uio_offset (cbs_uio st))));
        g ← UpdateCatalogIterator g it cip;
        g ← ReleaseCatalogIterator g cip;
        Ok (0, eofflag, cbs_uio st, g, x)
      else g ← discard g; Ok (result, eofflag, cbs_uio st, g, x).

(** ** Entries with their attributes *)

(** [getbsdattr] and the fields of the forks, from a record of a file of HFS Plus. *)
Definition pack_file (m : hfsmount) (desc : cat_desc) (rec : buffer) : cat_entry :=
  mkEntry desc (getbsdattr m rec) (get rec 88 8) (get rec 168 8) (get rec 100 4) (get rec 180 4).
Definition set_rdev (a : cat_attr) (rdev : Z) : cat_attr :=
  mkAttr (ca_fileid a) (ca_mode a) (ca_nlink a) (ca_uid a) (ca_gid a) rdev (ca_atime a) (ca_mtime a) (ca_mtime_nsec a) (ca_ctime a) (ca_itime a)
    (ca_btime a) (ca_flags a) (ca_union a) (ca_finderinfo a).
Definition set_entry (cep : cat_entry) (desc : cat_desc) (attr : cat_attr) : cat_entry :=
  mkEntry desc attr (ce_datasize cep) (ce_rsrcsize cep) (ce_datablks cep) (ce_rsrcblks cep).

(** What becomes of an entry of the list; the sizes of a folder stay what they were.  A
    hard link is resolved later. *)
Definition read_entry (m : hfsmount) (key rec : buffer) (node : Z) (cep : cat_entry) : outcome cat_entry :=
  cnid ← getcnid rec;
  if std_hfs m then
    '(pluskey, encoding) ← promotekey m key;
    desc ← builddesc pluskey cnid node encoding (isadir rec);
    let cep := set_entry cep desc (getbsdattr m (promoteattr m rec junk)) in
    Ok (if recordType rec =? kHFSFileRecord then
          let blks p := u64 (Z.quot (s32 (get rec p 4)) (s32 (hm_blockSize m))) in
          mkEntry (ce_desc cep) (ce_attr cep) (s32 (get rec 26 4)) (s32 (get rec 36 4)) (blks 30) (blks 40)
        else cep)
  else
    desc ← builddesc key cnid node (getencoding rec) (isadir rec);
    Ok (if recordType rec =? kHFSPlusFileRecord then
          let cep := pack_file m desc rec in
          if (finder_word rec 48 =? kHardLinkFileType) && (finder_word rec 52 =? kHFSPlusCreator)
          then set_entry cep desc (set_rdev (ce_attr cep) (get rec 44 4)) else cep
        else set_entry cep desc (getbsdattr m rec)).

(** The callback of [cat_getentriesattr], from within [BTIterateRecords]: [node] is the
    third argument that it is called with. *)
Definition catrec_readattr (m : hfsmount) (key rec : buffer) (node : Z) (st : readattr_state) : outcome (Z * readattr_state) :=
  let list := ra_list st in
  let fail error := Ok (0, mkReadattr list (ra_dir st) error) in
  if maxentries list <=? realentries list then Ok (0, st)
  else
    let parentcnid := get key 2 4 in
    let t := recordType rec in
    if negb ((t =? kHFSPlusFolderRecord) || (t =? kHFSPlusFileRecord) || (t =? kHFSFolderRecord) || (t =? kHFSFileRecord)) then fail ENOENT
    else if negb (parentcnid =? ra_dir st) then fail ENOENT
    else if (parentcnid =? kRootDirID) && (t =? kHFSPlusFolderRecord) && (get rec 8 4 =? hfs_private_metadata_dir m) then Ok (1, st)
    else
      let n := realentries list in
      cep ← array_at (ce_entry list) n;
      cep ← read_entry m key rec node cep;
      let list := mkEntryList (maxentries list) (n + 1) (<[Z.to_nat n := cep]> (ce_entry list)) in
      Ok (if n + 1 <? maxentries list then 1 else 0, mkReadattr list (ra_dir st) (ra_error st)).

(** [for (i = 0; i < index; ++i)] *)
Fixpoint skip_entries (index : nat) (x : X) (it : BTreeIterator) : outcome (Z * BTreeIterator * X) :=
  match index with
  | O => Ok (0, it, x)
  | S index =>
      '(result, it, x) ← dt_iterate x kBTreeNextRecord it;
      if negb (result =? 0) then Ok (result, it, x) else skip_entries index x it
  end.

(** A hard link in the list becomes the file that it links to. *)
Definition is_link (m : hfsmount) (a : cat_attr) : bool :=
  (Z.land (ca_mode a) S_IFMT =? S_IFREG) && negb (ca_rdev a =? 0) && (finder_word (ca_finderinfo a) 0 =? kHardLinkFileType) &&
  (finder_word (ca_finderinfo a) 4 =? kHFSPlusCreator) && ((ca_itime a =? hm_crDate m) || (ca_itime a =? hfs_metadata_createdate m)).
Fixpoint resolve_links (n : nat) (m : hfsmount) (x : X) (l : list cat_entry) : outcome (list cat_entry * X) :=
  match n, l with
  | S n, cep :: l =>
      '(cep, x) ←
        (if is_link m (ce_attr cep) then
           '(err, filerec, x) ← resolvelink m x (ca_rdev (ce_attr cep)) (take 248 junk);
           Ok (if negb (err =? 0) then cep else pack_file m (ce_desc cep) filerec, x)
         else Ok (cep, x));
      '(l, x) ← resolve_links n m x l;
      Ok (cep :: l, x)
  | _, _ => Ok (l, x)
  end.

(** The iterator at the entry before the one with this index: the name in [prevdesc] is
    used, or the entries are counted from the thread of the folder on. *)
Definition start_entries (m : hfsmount) (x : X) (prevdesc : cat_desc) (index : nat) : outcome (Z * BTreeIterator * X) :=
  let it := set_nodeNum new_iterator (cd_hint prevdesc) in
  '(usable, key) ←
    (if (index =? 0)%nat || (cd_namelen prevdesc =? 0) then Ok (false, it_key it)
     else '(err, key) ← buildkey m prevdesc (it_key it) false; Ok (err =? 0, key));
  if usable : bool then Ok (0, set_key it key, x)
  else
    '(result, it, _, _, x) ← ct_search x (set_key it (buildthreadkey (cd_parentcnid prevdesc) (std_hfs m) key)) junk true;
    if negb (result =? 0) then Ok (result, it, x) else skip_entries index x it.

Definition cat_getentriesattr (m : hfsmount) (x : X) (prevdesc : cat_desc) (index : nat) (list : cat_entrylist)
    : outcome (Z * cat_entrylist * X) :=
  let list := mkEntryList (maxentries list) 0 (ce_entry list) in
  '(result, it, x) ← start_entries m x prevdesc index;
  if negb (result =? 0) then Ok (MacToVFSError result, list, x)
  else
    '(err, _, st, x) ← dt_iterates x kBTreeNextRecord it (keep (catrec_readattr m)) (Ok (mkReadattr list (cd_parentcnid prevdesc) 0));
    st ← st;
    let list := ra_list st in
    let result :=
      if negb (ra_error st =? 0) then ra_error st else if realentries list =? 0 then ENOENT else MacToVFSError err in
    if std_hfs m then Ok (MacToVFSError result, list, x)
    else
      '(entries, x) ← resolve_links (Z.to_nat (realentries list)) m x (ce_entry list);
      Ok (MacToVFSError result, mkEntryList (maxentries list) (realentries list) entries, x).

(** ** Records as the caller wants them *)

(** The attributes and the two forks of a record.  That of a folder is only given an empty
    data fork. *)
Definition cat_convertattr (m : hfsmount) (recp : buffer) : cat_attr * cat_fork * option cat_fork :=
  let attr := if std_hfs m then getbsdattr m (promoteattr m recp junk) else getbsdattr m recp in
  if isadir recp then (attr, no_fork, None)
  else if std_hfs m then (attr, promotefork m recp false, Some (promotefork m recp true))
  else (attr, copyfork recp 88, Some (copyfork recp 168)).

Definition cat_convertkey (m : hfsmount) (key recp : buffer) : outcome cat_desc :=
  cnid ← getcnid recp;
  '(pluskey, encoding) ← (if std_hfs m then promotekey m key else Ok (key, getencoding recp));
  builddesc pluskey cnid 0 encoding (isadir recp).
End directory.

(** [cat_releasedesc]; a descriptor with [CD_HASBUF] has a name. *)
Definition cat_releasedesc (d : cat_desc) : cat_desc :=
  mkDesc (if negb (Z.land (cd_flags d) CD_HASBUF =? 0) then Z.ldiff (cd_flags d) CD_HASBUF else cd_flags d) (cd_encoding d) [] (cd_parentcnid d)
    (cd_hint d) (cd_cnid d).
