(* ===== verification/CatalogDirectoryTheorems.v ===== *)
(** * Reading directories: every entry once

    The catalog is a list of records in the order of their keys; a folder is its thread
    record with its entries behind it.  Reading it from the start gives each entry once;
    the theorems also say what a later call finds. *)
From S2P Require Import Prelude Bits VolumeBitmap VolumeAllocation ExtentMapping UtfConv NameMangling Encodings MacTime.
From S2P Require Import Bytes UnicodeCompare BTreeNode BTreeKeys BTreeBlocks BTreeFile NodeSwap Catalog CatalogKeys CatalogTheorems CatalogLookup CatalogTable.
From S2P Require Import CatalogIterators CatalogIteratorLists CatalogIteratorTheorems CatalogDirectory.

(** ** The records in order *)

Abbreviation record := (buffer * buffer)%type.
Definition before (a b : record) : Prop := lex_cmp (catalog_rank_plus a.1) (catalog_rank_plus b.1) = -1.

(** The records of the catalog by their keys. *)
Record ordered (c : catalog) (L : list record) : Prop := {
  ord_rank r k d : c !! r = Some (k, d) -> catalog_rank_plus k = r;
  ord_elem k d : (k, d) ∈ L <-> c !! catalog_rank_plus k = Some (k, d);
  ord_keys k d : (k, d) ∈ L -> stored_key k /\ get k 6 2 <= 255;
  ord_sorted : StronglySorted before L
}.

Definition parent_of (r : record) : Z := get r.1 2 4.
(** An entry of the folder: a record of the parent, with a name. *)
Definition child_of (dir : Z) (r : record) : Prop := parent_of r = dir /\ get r.1 6 2 <> 0.
#[export] Instance child_of_dec dir r : Decision (child_of dir r).
Proof. unfold child_of. apply _. Defined.

Lemma before_parent a b : before a b -> parent_of a <= parent_of b.
Proof.
  unfold before, parent_of, catalog_rank_plus, get. cbn [lex_cmp]. intros H.
  destruct (Z.eqb_spec (field a.1 2 4) (field b.1 2 4)); [lia|]. destruct (Z.ltb_spec (field a.1 2 4) (field b.1 2 4)); [lia|done].
Qed.

(** The thread of a folder is before its entries. *)
Lemma thread_before_child dir t r : catalog_rank_plus t.1 = thread_at dir -> parent_of r = dir -> before t r <-> get r.1 6 2 <> 0.
Proof.
  intros Ht Hr. unfold before. rewrite Ht. unfold thread_at, catalog_rank_plus, parent_of, get in *. rewrite Hr. cbn [lex_cmp]. rewrite Z.eqb_refl.
  by destruct (Z.eqb_spec (field r.1 6 2) 0).
Qed.

Lemma child_not_before_thread dir t r : catalog_rank_plus t.1 = thread_at dir -> before r t -> ~ child_of dir r.
Proof.
  intros Ht Hb [Hp Hn]. unfold before in Hb. rewrite Ht in Hb. unfold thread_at, catalog_rank_plus, parent_of, get in *.
  rewrite Hp in Hb. cbn [lex_cmp] in Hb. rewrite Z.eqb_refl in Hb. by destruct (Z.eqb_spec (field r.1 6 2) 0).
Qed.

(** The entries of a folder follow its thread. *)
Lemma children_split dir t : catalog_rank_plus t.1 = thread_at dir -> parent_of t = dir -> forall rest, StronglySorted before (t :: rest) ->
  exists post, rest = filter (child_of dir) rest ++ post /\ match post with [] => True | r :: _ => parent_of r <> dir end.
Proof.
  intros Ht Hp. induction rest as [|r rest IH]; intros Hs; [by exists []|].
  apply StronglySorted_inv in Hs as [[Hs Hr]%StronglySorted_inv [Htr Htrest]%Forall_cons].
  destruct (decide (parent_of r = dir)) as [E|E].
  - assert (Hn : child_of dir r) by (split; [done|by apply (thread_before_child dir t)]).
    destruct IH as (post & Hrest & Hpost); [by constructor|]. exists post. rewrite filter_cons_True by done. split; [|done]. simpl. by rewrite <- Hrest.
  - exists (r :: rest). assert (Hf : filter (child_of dir) (r :: rest) = []); [|by rewrite Hf].
    apply filter_none. apply before_parent in Htr. constructor; [by intros [? _]|].
    eapply Forall_impl; [exact Hr|]. intros r' Hr' [Hp' _]. apply before_parent in Hr'. lia.
Qed.

Lemma folder_split L dir t : StronglySorted before L -> t ∈ L -> catalog_rank_plus t.1 = thread_at dir -> parent_of t = dir ->
  exists pre post, L = pre ++ t :: filter (child_of dir) L ++ post /\ match post with [] => True | r :: _ => parent_of r <> dir end.
Proof.
  intros Hs (pre & rest & ->)%list_elem_of_split Ht Hp.
  assert (Forall (fun r => before r t) pre /\ StronglySorted before (t :: rest)) as [Hpre Hrest].
  { clear -Hs. induction pre as [|p pre IH]; [done|]. simpl in Hs. apply StronglySorted_inv in Hs as [Hs Hp]. destruct (IH Hs). split; [|done].
    constructor; [|done]. apply Forall_app in Hp as [_ [? _]%Forall_cons]. done. }
  destruct (children_split dir t Ht Hp rest Hrest) as (post & Hpost & Hnext). exists pre, post. split; [|done]. f_equal. f_equal.
  rewrite filter_app, (filter_none _ pre), filter_cons_False; [exact Hpost| |].
  - intros [_ Hn]. apply Hn. unfold thread_at, catalog_rank_plus, get in *. by destruct (Z.eqb_spec (field t.1 6 2) 0).
  - eapply Forall_impl; [exact Hpre|]. intros r. by apply child_not_before_thread.
Qed.

(** ** What the B-tree manager promises *)

(** The calls of a callback, until it returns zero: whether it did, and its state; and the
    key of the last call. *)
Fixpoint calls {C} (cb : buffer -> buffer -> Z -> C -> Z * C) (l : list record) (st : C) : bool * C :=
  match l with
  | [] => (false, st)
  | (k, d) :: l => let '(more, st) := cb k d (Z.of_nat (length d)) st in if more =? 0 then (true, st) else calls cb l st
  end.
Fixpoint last_key {C} (cb : buffer -> buffer -> Z -> C -> Z * C) (l : list record) (key : buffer) (st : C) : buffer :=
  match l with
  | [] => key
  | (k, d) :: l => let '(more, st) := cb k d (Z.of_nat (length d)) st in if more =? 0 then k else last_key cb l k st
  end.

(** An iterator at a key; and one that has its parent and name, with any length. *)
Definition iterator_ok (it : BTreeIterator) : Prop := length (it_key it) = 522%nat /\ Forall byte (it_key it).
Definition at_key (it : BTreeIterator) (k : buffer) : Prop := iterator_ok it /\ slice (it_key it) 0 (Z.of_nat (length k)) = k.
Definition carries (it : BTreeIterator) (k : buffer) : Prop := iterator_ok it /\ slice (it_key it) 2 (get k 0 2) = slice k 2 (get k 0 2).

(** [BTIterateRecord] moves to the next record; [BTIterateRecords] calls the callback for
    the records that follow, with the key as it lies in the node, and leaves the iterator at
    the last one (see the theorems on both of BTreeFileTheorems.v).  Neither changes the
    records. *)
Class DirectoryTreeLaws (X : Type) `{!DirectoryTree X} (rep : X -> catalog -> Prop) : Prop := {
  law_iterate x c L it n k d : rep x c -> ordered c L -> L !! n = Some (k, d) -> at_key it k ->
    exists err it' x', dt_iterate x kBTreeNextRecord it = Ok (err, it', x') /\ rep x' c /\
      match L !! S n with Some (k', _) => err = 0 /\ at_key it' k' | None => err = btNotFound end;
  law_iterates {C} (cb : buffer -> buffer -> Z -> C -> Z * C) (I : C -> Prop) x c L it n k d st : rep x c -> ordered c L -> L !! n = Some (k, d) -> at_key it k ->
    I st -> (forall k d len st, I st -> I (cb k d len st).2) ->
    (forall k d tail len st, (k, d) ∈ L -> I st -> cb (k ++ tail) d len st = cb k d len st) ->
    exists it' x', dt_iterates x kBTreeNextRecord it cb st =
        Ok (if (calls cb (drop (S n) L) st).1 then 0 else btNotFound, it', (calls cb (drop (S n) L) st).2, x') /\
      rep x' c /\ carries it' (last_key cb (drop (S n) L) k st)
}.

(** ** Names in keys *)

Lemma get_app_l k tail p n : 0 <= p -> 0 <= n -> p + n <= Z.of_nat (length k) -> get (k ++ tail) p n = get k p n.
Proof. intros. unfold get, field. f_equal. unfold slice. rewrite drop_app_le, take_app_le; [done|rewrite ?length_drop; lia..]. Qed.

Lemma ustr_app k tail : stored_key k -> ustr (k ++ tail) = ustr k.
Proof.
  intros [Hk Hl]. pose proof (full_key_range k Hk) as (H0 & _ & H8). destruct Hk as [_ E]. unfold ustr. rewrite get_app_l by lia.
  apply map_ext_in. intros j Hj. rewrite <- list_elem_of_In, elem_of_seqZ in Hj. apply get_app_l; lia.
Qed.

Lemma at_key_get it k p n : at_key it k -> 0 <= p -> 0 <= n -> p + n <= Z.of_nat (length k) -> get (it_key it) p n = get k p n.
Proof. intros [_ Hs] Hp Hn Hl. transitivity (get (slice (it_key it) 0 (Z.of_nat (length k))) p n); [symmetry; apply (get_slice (it_key it) 0); lia|by rewrite Hs]. Qed.

Lemma carries_get it k p n : carries it k -> 2 <= p -> 0 <= n -> p + n <= 2 + get k 0 2 -> get (it_key it) p n = get k p n.
Proof.
  intros [_ Hs] Hp Hn Hl. apply (f_equal (fun s => get s (p - 2) n)) in Hs. rewrite !get_slice in Hs by lia.
  by replace (2 + (p - 2)) with p in Hs by lia.
Qed.

(** Such an iterator can be kept. *)
Lemma carries_fits it k : stored_key k -> get k 6 2 <= 255 -> carries it k ->
  key_fits false (it_key it) /\ get (it_key it) 2 4 = get k 2 4.
Proof.
  intros [Hk Hl] Hn Hh. pose proof (full_key_range k Hk) as (H0 & _ & H8). destruct Hk as [_ E].
  pose proof Hh as [[H522 Hb] _]. pose proof (carries_get it k 6 2 Hh ltac:(lia) ltac:(lia) ltac:(lia)) as E6.
  destruct (name_size_plus (it_key it) Hb) as [_ Es]; [lia..|]. split; [|apply (carries_get it k); [done|lia..]].
  split_and!; [done|lia|lia|rewrite Es; lia].
Qed.

(** ** Reading the entries *)

Section reading.
Context (dirent_fixed : Z) (copyout : uio -> Z -> Z) (m : hfsmount).
Abbreviation catrec_read := (catrec_read dirent_fixed copyout m).
Abbreviation cb := (keep (fun key rec (_ : Z) st => catrec_read key rec st)).

(** What a record is to the reader of a directory. *)
Definition entry_of (r : record) : option dirent :=
  '(type, fileno) ← entry_kind true r.2;
  match entry_name m true r.1 fileno with
  | Ok (name, n) => Some (mkDirent fileno (DIRENTRY_SIZE dirent_fixed n) type n name)
  | _ => None
  end.

(** The private directory and the files of the journal are hidden. *)
Definition shown (st : read_state) (e : dirent) : Prop :=
  cbs_parentID st = kRootDirID ->
  (d_type e = DT_DIR -> d_fileno e <> cbs_hiddenDirID st) /\
  (d_type e = DT_REG -> d_fileno e <> cbs_hiddenJournalID st /\ d_fileno e <> cbs_hiddenInfoBlkID st).

Definition total (es : list dirent) : Z := foldr (fun e n => d_reclen e + n) 0 es.
Definition received (u : uio) (es : list dirent) : uio := mkUio (uio_offset u + total es) (uio_resid u - total es) (uio_out u ++ es).

Lemma total_pos es : Forall (fun e => 0 <= d_reclen e) es -> 0 <= total es.
Proof. induction 1 as [|e es He _ IH]; [done|]. change (total (e :: es)) with (d_reclen e + total es). lia. Qed.

(** A state of the reader of an HFS Plus volume. *)
Definition reader (st : outcome read_state) : Prop := match st with Ok st => cbs_hfsPlus st = true | _ => True end.

Lemma keep_Ok {C} (f : buffer -> buffer -> Z -> C -> outcome (Z * C)) k d len st r st' : f k d len st = Ok (r, st') ->
  keep f k d len (Ok st) = (r, Ok st').
Proof. intros H. unfold keep. cbn [mbind outcome_bind]. by rewrite H. Qed.

Lemma catrec_read_reader k d st r st' : cbs_hfsPlus st = true -> catrec_read k d st = Ok (r, st') -> cbs_hfsPlus st' = true.
Proof.
  intros Hp. unfold CatalogDirectory.catrec_read. rewrite Hp. destruct (negb _); [by intros [= <- <-]|].
  destruct (entry_kind true d) as [[type fileno]|]; [|by intros [= <- <-]].
  destruct (entry_name m true k fileno) as [[name n]| | |]; try done. cbn [mbind outcome_bind].
  destruct ((_ =? _) && _ && _); [by intros [= <- <-]|]. destruct ((_ =? _) && _ && _); [by intros [= <- <-]|].
  destruct (_ <? _); [by intros [= <- <-]|]. destruct (uiomove _ _ _ _) as [err u']. by intros [= <- <-].
Qed.

Lemma cb_reader k d len st : reader st -> reader (cb k d len st).2.
Proof.
  unfold keep. destruct st as [st| | |]; try done. cbn [mbind outcome_bind reader]. intros Hp.
  destruct (catrec_read k d st) as [[r st']| | |] eqn:E; try done. cbn. by eapply catrec_read_reader.
Qed.

Lemma cb_tail k d tail len st : stored_key k -> reader st -> cb (k ++ tail) d len st = cb k d len st.
Proof.
  intros Hk Hst. unfold keep. destruct st as [st| | |]; try done. cbn [mbind outcome_bind reader] in *.
  assert (catrec_read (k ++ tail) d st = catrec_read k d st) as ->; [|done]. pose proof Hk as [Hf Hl]. pose proof (full_key_range k Hf) as (? & ? & ?).
  unfold CatalogDirectory.catrec_read. rewrite get_app_l by lia. rewrite Hst. destruct (negb _); [done|].
  destruct (entry_kind true d) as [[type fileno]|]; [|done]. unfold entry_name. by rewrite ustr_app.
Qed.

Lemma read_one st r e : cbs_hfsPlus st = true -> parent_of r = cbs_parentID st -> entry_of r = Some e -> shown st e ->
  d_reclen e + AVERAGE_HFSDIRENTRY_SIZE <= uio_resid (cbs_uio st) -> copyout (cbs_uio st) (d_reclen e) = 0 ->
  catrec_read r.1 r.2 st = Ok (1, set_read st (uio_offset (cbs_uio st)) (received (cbs_uio st) [e]) 0).
Proof.
  intros Hp Hpar He Hs Hroom Hcopy. unfold CatalogDirectory.catrec_read, entry_of in *. fold (parent_of r). rewrite Hp, Hpar, Z.eqb_refl. cbn [negb].
  destruct (entry_kind true r.2) as [[type fileno]|] eqn:Ek; [|done]. cbn [mbind option_bind] in He. destruct (entry_name m true r.1 fileno) as [[name n]| | |]; try done.
  injection He as <-. cbn [mbind outcome_bind]. cbn [d_reclen d_type d_fileno] in *. unfold shown in Hs. cbn [d_type d_fileno] in Hs.
  assert ((cbs_parentID st =? kRootDirID) && (fileno =? cbs_hiddenDirID st) && (type =? DT_DIR) = false) as ->.
  { destruct (Z.eqb_spec (cbs_parentID st) kRootDirID) as [E|]; [|done]. destruct (Hs E) as [H1 _].
    destruct (Z.eqb_spec type DT_DIR) as [->|]; [|by rewrite andb_false_r]. by rewrite (proj2 (Z.eqb_neq _ _)) by auto. }
  assert ((cbs_parentID st =? kRootDirID) && (type =? DT_REG) && ((fileno =? cbs_hiddenJournalID st) || (fileno =? cbs_hiddenInfoBlkID st)) = false) as ->.
  { destruct (Z.eqb_spec (cbs_parentID st) kRootDirID) as [E|]; [|done]. destruct (Hs E) as [_ H2].
    destruct (Z.eqb_spec type DT_REG) as [->|]; [|done]. destruct (H2 eq_refl) as [? ?]. by rewrite !(proj2 (Z.eqb_neq _ _)) by done. }
  unfold AVERAGE_HFSDIRENTRY_SIZE, HFS_AVERAGE_NAME_SIZE in *.
  rewrite (proj2 (Z.ltb_ge _ _)) by lia. unfold uiomove. rewrite Hcopy. cbn [Z.eqb andb uio_resid].
  rewrite (proj2 (Z.leb_le _ _)) by lia. unfold received. cbn [total foldr]. by rewrite Z.add_0_r.
Qed.

(** All entries of a list, with room for them and one more. *)
Lemma read_children rest : (forall u n, copyout u n = 0) -> forall rs es st key, Forall2 (fun r e => entry_of r = Some e) rs es ->
  cbs_hfsPlus st = true -> cbs_result st = 0 -> Forall (fun r => parent_of r = cbs_parentID st) rs -> Forall (shown st) es ->
  Forall (fun e => 0 <= d_reclen e) es -> total es + AVERAGE_HFSDIRENTRY_SIZE <= uio_resid (cbs_uio st) ->
  exists off key', let st' := set_read st off (received (cbs_uio st) es) 0 in
    calls cb (rs ++ rest) (Ok st) = calls cb rest (Ok st') /\ last_key cb (rs ++ rest) key (Ok st) = last_key cb rest key' (Ok st') /\
    (key' = key /\ rs = [] \/ exists r, r ∈ rs /\ key' = r.1).
Proof.
  intros Hcopy. induction rs as [|[k d] rs IH]; intros es st key Hes Hp Hr Hpar Hs Hpos Hroom.
  { apply Forall2_nil_inv_l in Hes as ->. exists (cbs_lastoffset st), key. cbv zeta. split_and!; [| |by left];
      (do 2 f_equal; unfold set_read, received; destruct st as [? ? ? ? ? [] ? ?]; cbn in *; rewrite Z.add_0_r, Z.sub_0_r, app_nil_r, Hr; done). }
  apply Forall2_cons_inv_l in Hes as (e & es' & He & Hes & ->). apply Forall_cons in Hpar as [Hpar1 Hpar]. apply Forall_cons in Hs as [Hs1 Hs].
  apply Forall_cons in Hpos as [Hpos1 Hpos]. change (total (e :: es')) with (d_reclen e + total es') in Hroom.
  pose proof (total_pos es' Hpos) as Htot.
  pose proof (read_one st (k, d) e Hp Hpar1 He Hs1 ltac:(lia) (Hcopy _ _)) as Hread. cbn [fst snd] in Hread.
  set (st1 := set_read st _ _ 0) in Hread. pose proof (keep_Ok (fun key rec (_ : Z) st => catrec_read key rec st) k d (Z.of_nat (length d)) st 1 st1 Hread) as Hk.
  destruct (IH es' st1 k) as (off & key' & Hc & Hl & Hkey); try done.
  { unfold st1. cbn. lia. }
  exists off, key'. cbv zeta in *. cbn [app calls last_key]. rewrite Hk. cbn [Z.eqb]. rewrite Hc, Hl.
  assert (set_read st1 off (received (cbs_uio st1) es') 0 = set_read st off (received (cbs_uio st) (e :: es')) 0) as ->.
  { unfold st1, set_read, received. cbn. rewrite <- app_assoc, Z.add_0_r. cbn [app]. do 2 f_equal; unfold total; cbn; lia. }
  split_and!; [done|done|]. right. destruct Hkey as [[-> ->]|(r & Hin & ->)]; [by exists (k, d); split; [left|]|by exists r; split; [right|]].
Qed.

(** The end of the folder: a record of another parent, or none. *)
Lemma read_end rest st key : match rest with [] => True | r :: _ => parent_of r <> cbs_parentID st end ->
  exists key' st' b, calls cb rest (Ok st) = (b, Ok st') /\ last_key cb rest key (Ok st) = key' /\ cbs_uio st' = cbs_uio st /\
    (b = false /\ st' = st /\ key' = key \/ b = true /\ cbs_result st' = ENOENT /\ exists r, r ∈ rest /\ key' = r.1).
Proof.
  destruct rest as [|[k d] rest]; intros Hr; [exists key, st, false; split_and!; try done; by left|].
  set (st' := set_read st (uio_offset (cbs_uio st)) (cbs_uio st) ENOENT).
  assert (Hread : catrec_read k d st = Ok (0, st')).
  { unfold CatalogDirectory.catrec_read. fold (parent_of (k, d)). unfold parent_of in *. cbn [fst] in *. by rewrite (proj2 (Z.eqb_neq _ _)) by auto. }
  exists k, st', true. cbn [calls last_key]. rewrite (keep_Ok (fun key rec (_ : Z) st => catrec_read key rec st) k d _ st 0 st' Hread). cbn [Z.eqb].
  split_and!; try done. right. split_and!; [done|done|]. exists (k, d). split; [by left|done].
Qed.
End reading.

(** ** The start of a folder *)

(** An iterator that was recycled for the folder. *)
Record fresh (dir : Z) (c : CatalogIterator) : Prop := {
  fr_name : exists b, folderName c = LocalName b /\ get b 0 2 = 0 /\ Forall byte b /\ 2 <= Z.of_nat (length b);
  fr_type : nameType c = kShortUnicodeName;
  fr_folder : folderID c = dir;
  fr_parent : parentID c = dir;
  fr_hint : btreeNodeHint c = 0;
  fr_current : currentOffset c = 0xFFFFFFFF;
  fr_next : nextOffset c = 0xFFFFFFFF
}.

Lemma recycle_fresh vol dir c : name_ok c -> fresh dir (recycle vol dir kHFSPlusSigWord c).
Proof.
  intros Hn. split; try done. cbn [folderName recycle]. unfold clear_name. eexists. split; [done|]. unfold name_ok in Hn.
  destruct (folderName c) as [b|].
  - destruct Hn as (_ & Hl & Hb). unfold sizeof_UniStr63 in Hl. rewrite get_put_same, put_length by lia. split_and!; [done|by apply put_bytes_all|lia].
  - split_and!; [done|by apply Forall_replicate|done].
Qed.

Lemma fresh_iterator g i c dir : iterators g !! i = Some c -> fresh dir c -> 0 <= dir < 2 ^ 32 ->
  exists it, UpdateBtreeIterator g i new_iterator = Ok it /\ hint_nodeNum (it_hint it) = 0 /\ length (it_key it) = 522%nat /\
    full_key (it_key it) /\ catalog_rank_plus (it_key it) = thread_at dir.
Proof.
  intros Hc Hf Hd. destruct (fr_name _ _ Hf) as (b & Ef & Eb & Hb & Hl). unfold UpdateBtreeIterator. cbn [deref]. rewrite Hc.
  cbn [of_option mbind outcome_bind]. unfold name_bytes. rewrite (fr_type _ _ Hf), Ef. cbn [mbind outcome_bind]. rewrite (fr_hint _ _ Hf), (fr_parent _ _ Hf).
  change (kShortUnicodeName =? kShortPascalName) with false. cbn [negb orb]. change (kShortUnicodeName =? kShortUnicodeName) with true. cbn [orb].
  change (kShortUnicodeName =? kLongUnicodeName) with false. cbn [mbind outcome_bind]. rewrite Eb.
  destruct (build_key_plus dir 0 b (replicate 522 0)) as (Hbytes & Hlen & E0 & E2 & E6); try done; [by apply Forall_replicate|].
  change (if 0 <? 0 then Some b else None) with (@None buffer) in *. eexists. split; [reflexivity|]. cbn [it_hint it_key set_key set_hint hint_nodeNum].
  set (key := BuildCatalogKey dir None true (it_key new_iterator)) in *. change (replicate 522 0) with (it_key new_iterator) in *. fold key in Hbytes, Hlen, E0, E2, E6.
  change (length (it_key new_iterator)) with 522%nat in Hlen.
  assert (E62 : get key 6 2 = 0).
  { transitivity (get (slice key 6 2) 0 2); [symmetry; apply (get_slice key 6); lia|]. change (2 + 2 * 0) with 2 in E6. rewrite E6.
    transitivity (get b 0 2); [apply (get_slice b 0); lia|done]. }
  assert (Hfull : full_key key).
  { split; [|unfold get in *; lia]. split_and!; [done|lia|]. unfold get in E62. lia. }
  split_and!; [done|done|done|]. rewrite no_name_thread by (done || lia). by rewrite E2.
Qed.

Section start.
Context {X : Type} `{!CatalogTree X, !DirectoryTree X} (rep : X -> catalog -> Prop) {fallible : Prop} `{!CatalogTreeLaws X rep fallible, !DirectoryTreeLaws X rep}.
Context (junk : buffer) (Hjunk : length junk = 520%nat) (dirent_fixed : Z) (m : hfsmount).

Lemma start_spec g i c dir cat L t x : iterators g !! i = Some c -> fresh dir c -> 0 <= dir < 2 ^ 32 ->
  rep x cat -> ordered cat L -> t ∈ L -> catalog_rank_plus t.1 = thread_at dir ->
  exists it it' r n x', UpdateBtreeIterator g i new_iterator = Ok it /\ ct_search x it junk true = Ok (0, it', r, n, x') /\ rep x' cat /\ at_key it' t.1.
Proof using Hjunk CatalogTreeLaws0.
  intros Hc Hf Hd Hrep Hord Ht Hrank. destruct (fresh_iterator g i c dir Hc Hf Hd) as (it & Eit & Hhint & Hlen & Hfull & Hr).
  destruct (law_search x cat it junk true Hrep (proj1 Hfull) Hhint Hjunk) as (err & it' & r & n & x' & Hs & Hrep' & _ & Hfound).
  rewrite Hr, <- Hrank in Hfound. destruct t as [tk td]. cbn [fst] in *. pose proof (proj1 (ord_elem _ _ Hord tk td) Ht) as Hlook. rewrite Hlook in Hfound.
  destruct Hfound as (-> & -> & _ & _ & Hkey). destruct (ord_keys _ _ Hord _ _ Ht) as [[Hfk Hlk] _].
  pose proof (thread_rank_name tk dir Hfk Hrank) as Hn0. destruct Hfk as [_ Ek].
  destruct (Hkey eq_refl ltac:(lia)) as (Hl' & Hb' & Hs'). exists it, it', r, (Z.of_nat (length td)), x'. split_and!; [done|done|done|].
  split; [|done]. split; [lia|]. apply Hb', Hfull.
Qed.
End start.

(** ** The whole folder *)

(** No iterator with a long name is busy. *)
Definition longs_free (g : CatalogCacheGlobals) : Prop := forall j c, data g !! j = Some c -> nameType c = kLongUnicodeName -> ci_locked c = false.

Lemma longs_holder g l : longs_free g -> holder_free g l.
Proof.
  intros Hg j c [Hj _]%head_Some_elem_of%list_elem_of_filter Hc. apply (Hg j c Hc). unfold has_long in Hj. rewrite Hc in Hj. by apply Z.eqb_eq in Hj.
Qed.

Lemma longs_insert g g' i c : longs_free g -> data g' = <[i := c]> (data g) -> nameType c <> kLongUnicodeName -> longs_free g'.
Proof.
  intros Hg Hd Hc j d. rewrite Hd. intros [(-> & <- & _)|(_ & Hj)]%list_lookup_insert_Some; [done|]. exact (Hg _ _ Hj).
Qed.

Lemma fresh_links dir a b c : fresh dir (set_links a b c) -> fresh dir c.
Proof. by intros []. Qed.

(** The iterator that a reader of a folder gets, when none stands at the offset. *)
Lemma get_fresh g l vol dir offset i : cache_inv g l -> longs_free g ->
  choice vol kHFSPlusSigWord dir offset (data g) l = Some (i, recycled vol dir kHFSPlusSigWord) ->
  exists g1 l1 c1, GetCatalogIterator g vol kHFSPlusSigWord dir offset = Ok (i, g1) /\ cache_inv g1 l1 /\ longs_free g1 /\
    (i < kCatalogIteratorCount)%nat /\ iterators g1 !! i = Some c1 /\ fresh dir c1.
Proof.
  intros H Hg Hch. destruct (GetCatalogIterator_spec g l _ _ _ _ _ _ H Hch) as (c & g1 & Hc & He & H1 & Hd & _).
  pose proof (data_name_ok _ _ _ _ H Hc) as Hn. pose proof (data_count _ _ _ _ H Hc) as Hi.
  destruct (cache_lookup _ _ _ H1 Hi) as (c1 & Hc1 & _). exists g1, (to_front i l), c1. split_and!; try done.
  - by apply (longs_insert g g1 i (recycled vol dir kHFSPlusSigWord c)).
  - apply (fresh_links _ None None). pose proof (data_lookup _ _ _ Hc1) as Hd1.
    rewrite Hd, list_lookup_insert_eq in Hd1 by (by eapply lookup_lt_Some). apply (inj Some) in Hd1. rewrite <- Hd1. by apply recycle_fresh.
Qed.

(** The end of [cat_getdirentries]: the position is kept. *)
Lemma keep_position g l i c it k cur next : cache_inv g l -> longs_free g -> (i < kCatalogIteratorCount)%nat -> iterators g !! i = Some c ->
  is_pascal c = false -> stored_key k -> get k 6 2 <= 255 -> carries it k ->
  exists g2 g3 g4 l4, modify g (Some i) (set_offsets cur next) = Ok g2 /\ UpdateCatalogIterator g2 it i = Ok g3 /\
    ReleaseCatalogIterator g3 i = Ok g4 /\ cache_inv g4 l4 /\ exists c4, iterators g4 !! i = Some c4 /\ ci_locked c4 = false.
Proof.
  intros H Hg Hi Hc Hp Hk Hn Hcar. destruct (cache_lookup _ _ _ H Hi) as (d & Hd & Hnm). rewrite Hc in Hd. injection Hd as <-.
  set (c2 := set_offsets cur next c). assert (H2 : cache_inv (update g i c2) l) by by apply (cache_update g l i c).
  assert (Hc2 : iterators (update g i c2) !! i = Some c2) by by eapply update_lookup.
  destruct (carries_fits it k Hk Hn Hcar) as [Hfit _].
  destruct (UpdateCatalogIterator_spec (update g i c2) l i c2 it H2 Hi Hc2) as (g3 & l3 & c3 & E3 & H3 & Hc3 & _ & Hn3 & _).
  { change (is_pascal c2) with (is_pascal c). by rewrite Hp. }
  { intros _. apply (holder_update g l i c); try done. by apply longs_holder. }
  exists (update g i c2), g3, (update g3 i (set_locked false c3)), l3. split_and!; [by apply modify_Ok|done|by apply modify_Ok|by apply (cache_update g3 l3 i c3)|].
  exists (set_locked false c3). split; [by eapply update_lookup|done].
Qed.

Section folder.
Context {X : Type} `{!CatalogTree X, !DirectoryTree X} (rep : X -> catalog -> Prop) {fallible : Prop} `{!CatalogTreeLaws X rep fallible, !DirectoryTreeLaws X rep}.
Context (junk : buffer) (Hjunk : length junk = 520%nat) (dirent_fixed DOTS_SIZE : Z) (copyout : uio -> Z -> Z) (m : hfsmount).

(** Positioned at the thread of the folder. *)
Lemma PositionIterator_start fuel g i c dir cat L t x offset : iterators g !! i = Some c -> fresh dir c -> 0 <= dir < 2 ^ 32 ->
  rep x cat -> ordered cat L -> t ∈ L -> catalog_rank_plus t.1 = thread_at dir -> offset <= CAT_START_OFFSET ->
  exists it x', PositionIterator junk dirent_fixed fuel m g x i offset new_iterator = Ok (0, kBTreeNextRecord, it, g, x') /\ rep x' cat /\ at_key it t.1.
Proof using Hjunk CatalogTreeLaws0.
  intros Hc Hf Hd Hrep Hord Ht Hrank Hoff.
  destruct (start_spec rep junk Hjunk g i c dir cat L t x Hc Hf Hd Hrep Hord Ht Hrank) as (it & it' & r & n & x' & E1 & E2 & Hrep' & Hat).
  exists it', x'. split; [|done]. unfold PositionIterator. cbn [deref]. rewrite Hc. cbn [of_option mbind outcome_bind].
  rewrite (fr_folder _ _ Hf), (fr_parent _ _ Hf), Z.eqb_refl. cbn [negb]. rewrite E1. cbn [mbind outcome_bind].
  unfold CAT_START_OFFSET in *. rewrite (fr_current _ _ Hf), (fr_next _ _ Hf), !(proj2 (Z.eqb_neq 0xFFFFFFFF offset)) by lia.
  rewrite E2. cbn [mbind outcome_bind Z.eqb negb]. by rewrite (proj2 (Z.ltb_ge _ _)) by lia.
Qed.

(** The records behind the thread, all of them read. *)
Lemma read_folder x cat L t dir it es st : rep x cat -> ordered cat L -> t ∈ L -> catalog_rank_plus t.1 = thread_at dir -> at_key it t.1 ->
  Forall2 (fun r e => entry_of dirent_fixed m r = Some e) (filter (child_of dir) L) es -> (forall u n, copyout u n = 0) ->
  cbs_hfsPlus st = true -> cbs_result st = 0 -> cbs_parentID st = dir -> Forall (shown st) es -> Forall (fun e => 0 <= d_reclen e) es ->
  total es + AVERAGE_HFSDIRENTRY_SIZE <= uio_resid (cbs_uio st) ->
  exists err it' st' x' r, dt_iterates x kBTreeNextRecord it (keep (fun key rec (_ : Z) st => catrec_read dirent_fixed copyout m key rec st)) (Ok st) =
      Ok (err, it', Ok st', x') /\ rep x' cat /\ r ∈ L /\ carries it' r.1 /\ cbs_uio st' = received (cbs_uio st) es /\
    (if negb (cbs_result st' =? 0) then cbs_result st' else MacToVFSError err) = ENOENT.
Proof using All.
  intros Hrep Hord Ht Hrank Hat Hes Hcopy Hp Hres Hpar Hs Hpos Hroom. destruct t as [tk td]. cbn [fst] in *.
  destruct (ord_keys _ _ Hord _ _ Ht) as [[Hfk _] _].
  assert (Htp : parent_of (tk, td) = dir).
  { unfold parent_of, catalog_rank_plus, thread_at, get in *. cbn [fst]. congruence. }
  destruct (folder_split L dir (tk, td) (ord_sorted _ _ Hord) Ht Hrank Htp) as (pre & post & HL & Hpost).
  pose proof (list_lookup_split pre (tk, td) (filter (child_of dir) L ++ post)) as Hlook. rewrite <- HL in Hlook.
  pose proof (list_drop_split pre (tk, td) (filter (child_of dir) L ++ post)) as Hdrop. rewrite <- HL in Hdrop.
  destruct (law_iterates (keep (fun key rec (_ : Z) st => catrec_read dirent_fixed copyout m key rec st)) reader x cat L it (length pre) tk td (Ok st)
              Hrep Hord Hlook Hat Hp) as (it' & x' & Hrun & Hrep' & Hcar).
  { intros k d len st0. apply cb_reader. }
  { intros k d tail len st0 Hin. apply cb_tail. by apply (ord_keys _ _ Hord _ _ Hin). }
  rewrite Hdrop in Hrun, Hcar.
  destruct (read_children dirent_fixed copyout m post Hcopy (filter (child_of dir) L) es st tk Hes Hp Hres) as (off & key' & Hcalls & Hlast & Hkey); try done.
  { apply Forall_forall. intros r [[? _] _]%list_elem_of_filter. congruence. }
  cbv zeta in Hcalls, Hlast. rewrite Hcalls in Hrun. rewrite Hlast in Hcar. set (st1 := set_read st off _ 0) in *.
  destruct (read_end dirent_fixed copyout m post st1 key') as (key'' & st2 & b & Hcalls2 & Hlast2 & Hu & Hcases).
  { destruct post as [|r post]; [done|]. change (cbs_parentID st1) with (cbs_parentID st). congruence. }
  rewrite Hcalls2 in Hrun. rewrite Hlast2 in Hcar. cbn [fst snd] in Hrun.
  assert (exists r, r ∈ L /\ key'' = r.1) as (r & Hr & ->).
  { assert (exists r, r ∈ L /\ key' = r.1) as Hkey'.
    { destruct Hkey as [[-> _]|(r & Hr & ->)]; [by exists (tk, td)|]. exists r. split; [|done]. by apply list_elem_of_filter in Hr as [_ Hr]. }
    destruct Hcases as [(_ & _ & ->)|(_ & _ & r & Hr & ->)]; [done|]. exists r. split; [|done]. rewrite HL. set_solver. }
  eexists _, it', st2, x', r. split; [exact Hrun|]. split_and!; [done|done|done|by rewrite Hu|].
  destruct Hcases as [(-> & -> & _)|(-> & -> & _)]; vm_compute; reflexivity.
Qed.

End folder.

(** ** Later calls *)

(** The size of the entry of a record, as the offsets count it. *)
Definition entry_size (dirent_fixed : Z) (r : record) : Z :=
  let n := utf8_encodelen (ustr r.1) 0x3A 0 in
  DIRENTRY_SIZE dirent_fixed (if kdirentMaxNameBytes <? n then kdirentMaxNameBytes else n).
Definition sizes (dirent_fixed : Z) (rs : list record) : Z := foldr (fun r n => entry_size dirent_fixed r + n) 0 rs.

Lemma DIRENTRY_SIZE_pos fixed n : 0 <= n -> fixed + 4 <= DIRENTRY_SIZE fixed n.
Proof.
  intros Hn. unfold DIRENTRY_SIZE. change (Z.land (n + 1 + 3) (Z.lnot 3)) with (Z.land (n + 1 + 3) (Z.lnot (Z.ones 2))).
  rewrite <- Z.ldiff_land, Z.ldiff_ones_r, Z.shiftl_mul_pow2, Z.shiftr_div_pow2 by lia. change (2 ^ 2) with 4.
  pose proof (Z.div_mod (n + 1 + 3) 4 ltac:(lia)). pose proof (Z.mod_pos_bound (n + 1 + 3) 4 ltac:(lia)). nia.
Qed.

Lemma utf8_encodelen_pos ucs a f : 0 <= utf8_encodelen ucs a f.
Proof.
  unfold utf8_encodelen. assert (H : forall acc, 0 <= acc ->
    0 <= foldl (fun len c => len + UNICODE_TO_UTF8_LEN (fst (encode_map a (swap_if (has_flag f UTF_REVERSE_ENDIAN) c)))) acc ucs); [|by apply H].
  induction ucs as [|c ucs IH]; intros acc Hacc; cbn [foldl]; [done|]. apply IH. unfold UNICODE_TO_UTF8_LEN. case_ztests.
Qed.

Lemma entry_size_pos fixed r : fixed + 4 <= entry_size fixed r.
Proof.
  unfold entry_size. cbv zeta. apply DIRENTRY_SIZE_pos. pose proof (utf8_encodelen_pos (ustr r.1) 0x3A 0). unfold kdirentMaxNameBytes. by case_ztests.
Qed.

Lemma sizes_app fixed a b : sizes fixed (a ++ b) = sizes fixed a + sizes fixed b.
Proof. induction a as [|r a IH]; [done|]. cbn [app sizes foldr] in *. fold (sizes fixed (a ++ b)) (sizes fixed a). lia. Qed.

Lemma sizes_pos fixed rs : 24 <= fixed -> 28 * Z.of_nat (length rs) <= sizes fixed rs.
Proof.
  intros Hf. induction rs as [|r rs IH]; [done|]. cbn [sizes foldr length] in *. fold (sizes fixed rs). pose proof (entry_size_pos fixed r). lia.
Qed.

(** No end of entries is 24 bytes behind another one. *)
Lemma sizes_apart fixed rs j k : 24 <= fixed -> (j <= length rs)%nat -> (k <= length rs)%nat -> CAT_START_OFFSET + sizes fixed (take j rs) <> sizes fixed (take k rs).
Proof.
  intros Hf Hj Hk. unfold CAT_START_OFFSET. destruct (decide (k <= j)%nat) as [Hkj|Hkj].
  - rewrite <- (take_drop k (take j rs)), take_take, Nat.min_l, sizes_app by lia. pose proof (sizes_pos fixed (drop k (take j rs)) Hf). lia.
  - rewrite <- (take_drop j (take k rs)), take_take, Nat.min_l, sizes_app by lia. pose proof (sizes_pos fixed (drop j (take k rs)) Hf) as Hs.
    rewrite length_drop, length_take in Hs. lia.
Qed.

Lemma at_key_size m fixed it r : hm_sigWord m = kHFSPlusSigWord -> stored_key r.1 -> at_key it r.1 ->
  GetDirEntrySize fixed m (it_key it) = Ok (entry_size fixed r).
Proof.
  intros Hsig Hk [_ Hs]. unfold GetDirEntrySize. rewrite Hsig. change (kHFSPlusSigWord =? kHFSPlusSigWord) with true. cbn iota.
  assert (ustr (it_key it) = ustr r.1) as ->; [|done]. rewrite <- (take_drop (length r.1) (it_key it)).
  unfold slice in Hs. rewrite Nat2Z.id, drop_0 in Hs. rewrite Hs. by apply ustr_app.
Qed.

Section later.
Context {X : Type} `{!CatalogTree X, !DirectoryTree X} (rep : X -> catalog -> Prop) {fallible : Prop} `{!CatalogTreeLaws X rep fallible, !DirectoryTreeLaws X rep}.
Context (junk : buffer) (Hjunk : length junk = 520%nat) (dirent_fixed : Z) (m : hfsmount).
Context (Hsig : hm_sigWord m = kHFSPlusSigWord) (Hfixed : 24 <= dirent_fixed).
(** A folder of a catalog: its thread and its entries. *)
Context (cat : catalog) (L pre post rs : list record) (t : record) (dir : Z).
Context (Hord : ordered cat L) (HL : L = pre ++ t :: rs ++ post) (Hrs : Forall (fun r => parent_of r = dir) rs).
Context (Hsmall : CAT_START_OFFSET + sizes dirent_fixed rs < 2 ^ 32).

Lemma child_lookup j r : rs !! j = Some r -> L !! (length pre + S j)%nat = Some r.
Proof using All. intros Hj. rewrite HL, lookup_app_r by lia. replace (length pre + S j - length pre)%nat with (S j) by lia. simpl. by apply lookup_app_l_Some. Qed.

Lemma child_stored r : r ∈ L -> stored_key r.1.
Proof using All. destruct r as [k d]. intros Hr. apply (ord_keys _ _ Hord k d Hr). Qed.

(** From one entry to the next. *)
Lemma next_child x it j r k d : rep x cat -> rs !! j = Some r -> L !! (length pre + j)%nat = Some (k, d) -> at_key it k ->
  exists it' x', dt_iterate x kBTreeNextRecord it = Ok (0, it', x') /\ rep x' cat /\ at_key it' r.1.
Proof using All.
  intros Hrep Hj Hk Hat. destruct (law_iterate x cat L it (length pre + j) k d Hrep Hord Hk Hat) as (err & it' & x' & He & Hrep' & Hnext).
  apply child_lookup in Hj. replace (S (length pre + j)) with (length pre + S j)%nat in Hnext by lia. rewrite Hj in Hnext. destruct r as [k' d'].
  destruct Hnext as [-> Hat']. by exists it', x'.
Qed.

Lemma sizes_take j : sizes dirent_fixed (take j rs) <= sizes dirent_fixed rs.
Proof using All. rewrite <- (take_drop j rs) at 2. rewrite sizes_app. pose proof (sizes_pos dirent_fixed (drop j rs) Hfixed). lia. Qed.

Lemma sizes_snoc j r : rs !! j = Some r -> sizes dirent_fixed (take (S j) rs) = sizes dirent_fixed (take j rs) + entry_size dirent_fixed r.
Proof using All. intros Hj. rewrite (take_S_r _ _ r) by done. rewrite sizes_app. unfold sizes at 2. cbn. lia. Qed.

(** The search for the end of the first [k] entries does not stop there. *)
Lemma position_loop_misses k : (k <= length rs)%nat -> forall fuel x it j r, rep x cat -> rs !! j = Some r -> at_key it r.1 -> (length rs - j <= fuel)%nat ->
  forall cur, exists it' cur' next' x',
    position_loop dirent_fixed fuel m x it dir cur (CAT_START_OFFSET + sizes dirent_fixed (take (S j) rs)) (sizes dirent_fixed (take k rs)) =
      Ok (0, it', cur', next', x') /\ rep x' cat /\ next' <> sizes dirent_fixed (take k rs).
Proof using All.
  intros Hk. induction fuel as [|fuel IH]; intros x it j r Hrep Hj Hat Hf cur; pose proof (lookup_lt_Some _ _ _ Hj) as Hlt; [lia|].
  cbn [position_loop]. destruct (Z.ltb_spec (CAT_START_OFFSET + sizes dirent_fixed (take (S j) rs)) (sizes dirent_fixed (take k rs))) as [Hless|Hge].
  - assert (Hjk : (S j < k)%nat).
    { destruct (decide (S j < k)%nat) as [|Hn]; [done|]. exfalso. rewrite <- (take_drop k (take (S j) rs)), take_take, Nat.min_l, sizes_app in Hless by lia.
      pose proof (sizes_pos dirent_fixed (drop k (take (S j) rs)) Hfixed). unfold CAT_START_OFFSET in Hless. lia. }
    destruct (lookup_lt_is_Some_2 rs (S j) ltac:(lia)) as [r' Hr'].
    destruct r as [key d]. destruct (next_child x it (S j) r' key d Hrep Hr' (child_lookup _ _ Hj) Hat) as (it' & x' & -> & Hrep' & Hat').
    cbn [mbind outcome_bind Z.eqb negb]. assert (Hin : r' ∈ L) by (eapply list_elem_of_lookup_2, child_lookup, Hr').
    pose proof (child_stored r' Hin) as [Hfk Hlk]. pose proof (full_key_range _ Hfk) as (? & ? & ?).
    rewrite (at_key_get it' r'.1) by (done || lia). fold (parent_of r').
    assert (parent_of r' = dir) as -> by exact (proj1 (Forall_lookup _ _) Hrs _ _ Hr'). rewrite Z.eqb_refl. cbn [negb].
    rewrite (at_key_size m dirent_fixed it' r') by done. cbn [mbind outcome_bind].
    replace (u32 _) with (CAT_START_OFFSET + sizes dirent_fixed (take (S (S j)) rs)).
    + apply (IH x' it' (S j) r'); try done. lia.
    + pose proof (sizes_take (S (S j))). pose proof (sizes_pos dirent_fixed (take (S (S j)) rs) Hfixed). rewrite (sizes_snoc (S j) r' Hr') in *.
      unfold u32, wrap, CAT_START_OFFSET in *. rewrite Z.mod_small; lia.
  - eexists _, _, _, _. split; [done|]. split; [done|]. apply sizes_apart; lia || done.
Qed.

Lemma PositionIterator_misses k fuel g i c x : (0 < k <= length rs)%nat -> (length rs <= fuel)%nat -> iterators g !! i = Some c -> fresh dir c ->
  0 <= dir < 2 ^ 32 -> rep x cat -> catalog_rank_plus t.1 = thread_at dir ->
  exists it x', PositionIterator junk dirent_fixed fuel m g x i (sizes dirent_fixed (take k rs)) new_iterator = Ok (cmNotFound, kBTreeNextRecord, it, g, x') /\ rep x' cat.
Proof using All.
  intros Hk Hf Hc Hfr Hd Hrep Hrank. assert (Ht : t ∈ L) by (rewrite HL; set_solver).
  destruct (start_spec rep junk Hjunk g i c dir cat L t x Hc Hfr Hd Hrep Hord Ht Hrank) as (it & it1 & rec & n & x1 & E1 & E2 & Hrep1 & Hat1).
  destruct (lookup_lt_is_Some_2 rs 0 ltac:(lia)) as [r Hr].
  assert (Ht0 : L !! (length pre + 0)%nat = Some (t.1, t.2)) by (rewrite Nat.add_0_r, HL, <- surjective_pairing; apply list_lookup_split).
  destruct (next_child x1 it1 0 r t.1 t.2 Hrep1 Hr Ht0 Hat1) as (it2 & x2 & E3 & Hrep2 & Hat2).
  assert (Hin : r ∈ L) by (eapply list_elem_of_lookup_2, child_lookup, Hr). pose proof (child_stored r Hin) as [Hfk Hlk].
  pose proof (full_key_range _ Hfk) as (? & ? & ?).
  pose proof (sizes_take k) as Hle. pose proof (sizes_pos dirent_fixed (take k rs) Hfixed) as Hge. rewrite length_take in Hge.
  pose proof (sizes_take 1) as Hle1. rewrite (sizes_snoc 0 r Hr) in Hle1. change (sizes dirent_fixed (take 0 rs)) with 0 in Hle1. rewrite Z.add_0_l in Hle1.
  pose proof (entry_size_pos dirent_fixed r) as Hpos.
  destruct (position_loop_misses k ltac:(lia) fuel x2 it2 0 r Hrep2 Hr Hat2 ltac:(lia) CAT_START_OFFSET) as (it3 & cur & next & x3 & E4 & Hrep3 & Hne).
  rewrite (sizes_snoc 0 r Hr) in E4. change (sizes dirent_fixed (take 0 rs)) with 0 in E4. rewrite Z.add_0_l in E4.
  exists it3, x3. split; [|done]. unfold PositionIterator. cbn [deref]. rewrite Hc. cbn [of_option mbind outcome_bind].
  rewrite (fr_folder _ _ Hfr), (fr_parent _ _ Hfr), Z.eqb_refl. cbn [negb]. rewrite E1. cbn [mbind outcome_bind].
  unfold CAT_START_OFFSET in *. rewrite (fr_current _ _ Hfr), (fr_next _ _ Hfr), !(proj2 (Z.eqb_neq 0xFFFFFFFF _)) by lia.
  rewrite E2. cbn [mbind outcome_bind Z.eqb negb]. rewrite (proj2 (Z.ltb_lt _ _)) by lia. rewrite E3. cbn [mbind outcome_bind Z.eqb negb].
  rewrite (at_key_size m dirent_fixed it2 r) by done. cbn [mbind outcome_bind].
  rewrite (at_key_get it2 r.1) by (done || lia). fold (parent_of r).
  assert (parent_of r = dir) as -> by exact (proj1 (Forall_lookup _ _) Hrs _ _ Hr).
  assert (u32 (24 + entry_size dirent_fixed r) = 24 + entry_size dirent_fixed r) as -> by (unfold u32, wrap; rewrite Z.mod_small; lia).
  rewrite E4. cbn [mbind outcome_bind Z.eqb negb]. by rewrite (proj2 (Z.eqb_neq _ _)) by done.
Qed.
End later.

Section later_calls.
Context {X : Type} `{!CatalogTree X, !DirectoryTree X} (rep : X -> catalog -> Prop) {fallible : Prop} `{!CatalogTreeLaws X rep fallible, !DirectoryTreeLaws X rep}.
Context (junk : buffer) (Hjunk : length junk = 520%nat) (dirent_fixed DOTS_SIZE : Z) (copyout : uio -> Z -> Z) (m : hfsmount).

(** C23: a later call of [cat_getdirentries], at the offset where the entries handed out so
    far end, finds the end of the folder and copies nothing, however many entries are left:
    [PositionIterator] counts from 24 ([.] and [..] as they once were), and
    [cat_getdirentries] from 0, so that the offset is never that of an entry.  An iterator
    that was left by the call before stands at an offset that includes [DOTS_SIZE]; that it
    is not taken by chance is the hypothesis on [choice]. *)
Theorem cat_getdirentries_later fuel vol jnl info g l x cat L t i descp u k :
  let dir := cd_cnid descp in
  let rs := filter (child_of dir) L in
  hm_sigWord m = kHFSPlusSigWord -> 24 <= dirent_fixed -> 0 <= dir < 2 ^ 32 ->
  (0 < k <= length rs)%nat -> uio_offset u = DOTS_SIZE + sizes dirent_fixed (take k rs) ->
  CAT_START_OFFSET + sizes dirent_fixed rs < 2 ^ 32 -> (length rs <= fuel)%nat ->
  cache_inv g l -> longs_free g ->
  choice vol kHFSPlusSigWord dir (sizes dirent_fixed (take k rs)) (data g) l = Some (i, recycled vol dir kHFSPlusSigWord) ->
  rep x cat -> ordered cat L -> t ∈ L -> catalog_rank_plus t.1 = thread_at dir ->
  exists g' l' x', cat_getdirentries junk dirent_fixed DOTS_SIZE copyout fuel m vol jnl info g x descp u = Ok (0, 1, u, g', x') /\
    cache_inv g' l' /\ rep x' cat.
Proof using Hjunk CatalogTreeLaws0 DirectoryTreeLaws0.
  intros dir rs Hsig Hfixed Hdir Hk Hoff Hsmall Hfuel H Hg Hch Hrep Hord Ht Hrank.
  assert (Htp : parent_of t = dir) by (unfold parent_of, catalog_rank_plus, thread_at, get in *; congruence).
  destruct (folder_split L dir t (ord_sorted _ _ Hord) Ht Hrank Htp) as (pre & post & HL & _).
  assert (Hrs : Forall (fun r => parent_of r = dir) rs) by (apply Forall_forall; by intros r [[? _] _]%list_elem_of_filter).
  destruct (get_fresh g l vol dir _ i H Hg Hch) as (g1 & l1 & c1 & Eget & H1 & _ & Hi & Hc1 & Hf).
  destruct (PositionIterator_misses rep junk Hjunk dirent_fixed m Hsig Hfixed cat L pre post rs t dir Hord HL Hrs Hsmall k fuel g1 i c1 x Hk Hfuel Hc1 Hf Hdir Hrep Hrank)
    as (it & x1 & Epos & Hrep1).
  destruct (AgeCatalogIterator_spec g1 l1 i H1 Hi) as (g2 & E2 & H2 & _). destruct (ReleaseCatalogIterator_spec g2 _ i H2 Hi) as (g3 & E3 & H3).
  exists g3, (to_back i l1), x1. split; [|done]. unfold cat_getdirentries. fold dir. rewrite Hoff, Hsig.
  replace (u32 _) with (sizes dirent_fixed (take k rs)); cycle 1.
  { pose proof (sizes_pos dirent_fixed (take k rs) Hfixed) as Hp. rewrite <- (take_drop k rs), sizes_app in Hsmall.
    pose proof (sizes_pos dirent_fixed (drop k rs) Hfixed). unfold u32, wrap, CAT_START_OFFSET in *. rewrite Z.mod_small; lia. }
  rewrite Eget. cbn [mbind outcome_bind]. rewrite Epos. cbn [mbind outcome_bind]. rewrite Z.eqb_refl, E2. cbn [mbind outcome_bind]. by rewrite E3.
Qed.
End later_calls.

(** ** Entries with their attributes *)

Section attributes.
Context {X : Type} `{!CatalogTree X, !DirectoryTree X} (rep : X -> catalog -> Prop) {fallible : Prop} `{!CatalogTreeLaws X rep fallible, !DirectoryTreeLaws X rep}.
Context (junk : buffer) (Hjunk : length junk = 520%nat) (m : hfsmount) (Hstd : std_hfs m = false).
Abbreviation cb := (keep (catrec_readattr junk m)).

(** The entry that a record becomes in a slot of the list: its name, parent, number and kind,
    the attributes of the record, and the sizes of the two forks of a file; a folder leaves
    the sizes that the slot had.  The hint is the size of the record. *)
Definition entry_in (r : record) (old : cat_entry) : cat_entry :=
  let isdir := recordType r.2 =? kHFSPlusFolderRecord in
  let desc := mkDesc (Z.lor (Z.lor CD_DECOMPOSED CD_HASBUF) (if isdir then CD_ISDIR else 0)) (u8 (get r.2 80 4)) (utf8_of 0x3A (node_name r.1))
    (parent_of r) (Z.of_nat (length r.2)) (get r.2 8 4) in
  if isdir then mkEntry desc (getbsdattr m r.2) (ce_datasize old) (ce_rsrcsize old) (ce_datablks old) (ce_rsrcblks old)
  else mkEntry desc (getbsdattr m r.2) (get r.2 88 8) (get r.2 168 8) (get r.2 100 4) (get r.2 180 4).
(** The records go into the slots from the [n]-th on. *)
Fixpoint fill (n : nat) (slots : list cat_entry) (rs : list record) : list cat_entry :=
  match rs with [] => slots | r :: rs => fill (S n) (alter (entry_in r) n slots) rs end.

(** A folder, but the private one of the root, or a file that is not a hard link. *)
Definition listed (dir : Z) (r : record) : Prop :=
  recordType r.2 = kHFSPlusFolderRecord /\ (dir = kRootDirID -> get r.2 8 4 <> hfs_private_metadata_dir m) \/
  recordType r.2 = kHFSPlusFileRecord /\ finder_word r.2 48 <> kHardLinkFileType.
Definition in_folder (dir : Z) (r : record) : Prop := parent_of r = dir /\ 0 <= get r.1 6 2 /\ listed dir r.

Lemma read_entry_spec dir r old : in_folder dir r -> read_entry junk m r.1 r.2 (Z.of_nat (length r.2)) old = Ok (entry_in r old).
Proof using All.
  intros (Hp & Hn & Hr). unfold read_entry. rewrite Hstd.
  assert (getcnid r.2 = Ok (get r.2 8 4)) as -> by (unfold getcnid; by destruct Hr as [[-> _]|[-> _]]).
  cbn [mbind outcome_bind]. rewrite builddesc_name by done. cbn [mbind outcome_bind]. unfold isadir, getencoding, entry_in.
  destruct Hr as [[-> _]|[-> Hl]]; [done|]. by rewrite (proj2 (Z.eqb_neq _ _) Hl).
Qed.

Lemma folder_mode mode : Z.land (if negb (S_ISDIR mode) then Z.lor (Z.ldiff mode S_IFMT) S_IFDIR else mode) S_IFMT = S_IFDIR.
Proof using Type.
  destruct (S_ISDIR mode) eqn:Ed; cbn [negb]; [by apply Z.eqb_eq|]. rewrite Z.land_lor_distr_l, Z.land_ldiff. done.
Qed.

(** Such entries are not resolved. *)
Lemma entry_no_link dir r old : in_folder dir r -> is_link m (ce_attr (entry_in r old)) = false.
Proof using All.
  intros (_ & _ & Hr). unfold is_link, entry_in. destruct Hr as [[Ht _]|[Ht Hl]]; rewrite Ht.
  - rewrite Z.eqb_refl. cbn [ce_attr]. unfold getbsdattr. rewrite Ht, Z.eqb_refl.
    destruct (Z.land (get r.2 42 2) S_IFMT =? 0); cbv beta iota zeta; cbn [ca_mode]; by rewrite folder_mode.
  - change (kHFSPlusFileRecord =? kHFSPlusFolderRecord) with false. cbv iota. cbn [ce_attr].
    assert (finder_word (ca_finderinfo (getbsdattr m r.2)) 0 = finder_word r.2 48) as ->.
    { unfold getbsdattr. rewrite Ht. change (kHFSPlusFileRecord =? kHFSPlusFolderRecord) with false.
      destruct (Z.land (get r.2 42 2) S_IFMT =? 0); cbv beta iota zeta; cbn [ca_finderinfo]; unfold finder_word; by rewrite slice_slice by lia. }
    rewrite (proj2 (Z.eqb_neq _ _) Hl). by rewrite !andb_false_r.
Qed.

Definition reading (max dir : Z) (n : nat) (slots : list cat_entry) : outcome readattr_state :=
  Ok (mkReadattr (mkEntryList max (Z.of_nat n) slots) dir 0).

Lemma readattr_entry max dir n slots r : in_folder dir r -> Z.of_nat n < max -> (n < length slots)%nat ->
  cb r.1 r.2 (Z.of_nat (length r.2)) (reading max dir n slots) =
  (if Z.of_nat (S n) <? max then 1 else 0, reading max dir (S n) (alter (entry_in r) n slots)).
Proof using All.
  intros Hr Hn Hs. apply lookup_lt_is_Some_2 in Hs as [old Hold]. pose proof (read_entry_spec dir r old Hr) as He. destruct Hr as (Hp & _ & Hl).
  unfold reading. erewrite keep_Ok; [reflexivity|]. unfold catrec_readattr. cbn [ra_list ra_dir ra_error maxentries realentries ce_entry].
  rewrite (proj2 (Z.leb_gt _ _)) by lia. unfold parent_of in Hp. rewrite Hp, Z.eqb_refl. cbn [negb].
  assert ((recordType r.2 =? kHFSPlusFolderRecord) || (recordType r.2 =? kHFSPlusFileRecord) || (recordType r.2 =? kHFSFolderRecord) ||
    (recordType r.2 =? kHFSFileRecord) = true) as -> by (by destruct Hl as [[-> _] | [-> _]]). cbn [negb].
  assert ((dir =? kRootDirID) && (recordType r.2 =? kHFSPlusFolderRecord) && (get r.2 8 4 =? hfs_private_metadata_dir m) = false) as ->.
  { destruct (Z.eqb_spec dir kRootDirID) as [E|]; [|done]. destruct Hl as [[-> Hl] | [-> _]]; [|done]. cbn [andb]. rewrite Z.eqb_refl. apply Z.eqb_neq. by apply Hl. }
  unfold array_at. rewrite (proj2 (Z.leb_le 0 _)), Nat2Z.id, Hold by lia. cbn [of_option mbind outcome_bind]. rewrite He. cbn [mbind outcome_bind].
  replace (Z.of_nat n + 1) with (Z.of_nat (S n)) by lia. do 4 f_equal.
  apply list_eq. intros j. destruct (decide (n = j)) as [<-|Hj].
  - rewrite list_lookup_insert_eq, list_lookup_alter_eq, Hold by (by eapply lookup_lt_Some). done.
  - by rewrite list_lookup_insert_ne, list_lookup_alter_ne.
Qed.

Lemma readattr_tail k d tail len st : stored_key k -> cb (k ++ tail) d len st = cb k d len st.
Proof using All.
  intros Hk. unfold keep. destruct st as [st| | |]; try done. cbn [mbind outcome_bind].
  assert (catrec_readattr junk m (k ++ tail) d len st = catrec_readattr junk m k d len st) as ->; [|done].
  pose proof Hk as [Hf Hl]. pose proof (full_key_range k Hf) as (? & ? & ?). unfold catrec_readattr. rewrite get_app_l by lia.
  assert (forall old, read_entry junk m (k ++ tail) d len old = read_entry junk m k d len old) as Hread.
  2: { repeat match goal with |- (if ?b then _ else _) = _ => destruct b; [done|] end. destruct (array_at _ _) as [cep| | |]; try done. cbn [mbind outcome_bind]. by rewrite Hread. }
  intros old. unfold read_entry. rewrite Hstd. unfold builddesc. fold (ustr (k ++ tail)) (ustr k). rewrite !get_app_l by lia. by rewrite ustr_app.
Qed.

(** Entries are listed until there are enough. *)
Lemma readattr_children max dir rest : forall rs n slots, Forall (in_folder dir) rs -> Z.of_nat n < max <= Z.of_nat (length slots) ->
  calls cb (rs ++ rest) (reading max dir n slots) =
  if max <=? Z.of_nat (n + length rs) then (true, reading max dir (Z.to_nat max) (fill n slots (take (Z.to_nat max - n) rs)))
  else calls cb rest (reading max dir (n + length rs) (fill n slots rs)).
Proof using All.
  induction rs as [|r rs IH]; intros n slots Hl Hn.
  { rewrite Nat.add_0_r, (proj2 (Z.leb_gt _ _)) by lia. done. }
  apply Forall_cons in Hl as [Hr Hl]. destruct r as [k d]. cbn [app calls].
  pose proof (readattr_entry max dir n slots (k, d) Hr ltac:(lia) ltac:(lia)) as E. cbn [fst snd] in E. rewrite E. clear E. destruct (Z.ltb_spec (Z.of_nat (S n)) max) as [Hless|Hge]; cbn [Z.eqb].
  - rewrite (IH (S n)) by (done || rewrite length_alter; lia). cbn [length]. replace (n + S (length rs))%nat with (S n + length rs)%nat by lia.
    destruct (max <=? Z.of_nat (S n + length rs)); [|done]. replace (Z.to_nat max - n)%nat with (S (Z.to_nat max - S n)) by lia. done.
  - rewrite (proj2 (Z.leb_le _ _)) by (cbn [length]; lia). assert (max = Z.of_nat (S n)) as -> by lia. rewrite Nat2Z.id.
    replace (S n - n)%nat with 1%nat by lia. done.
Qed.

Lemma readattr_end max dir n slots rest : Z.of_nat n < max -> match rest with [] => True | r :: _ => parent_of r <> dir end ->
  exists st, (calls cb rest (reading max dir n slots)).2 = Ok st /\ ra_list st = mkEntryList max (Z.of_nat n) slots /\
    forall err, err = (if (calls cb rest (reading max dir n slots)).1 then 0 else btNotFound) ->
    (if negb (ra_error st =? 0) then ra_error st else if realentries (ra_list st) =? 0 then ENOENT else MacToVFSError err) = ENOENT.
Proof using All.
  intros Hn Hrest. destruct rest as [|[k d] rest].
  { eexists. split; [done|]. split; [done|]. cbn [calls reading fst snd ra_error ra_list realentries]. intros err ->. cbn [Z.eqb negb].
    destruct (Z.of_nat n =? 0); vm_compute; reflexivity. }
  assert (Hread : catrec_readattr junk m k d (Z.of_nat (length d)) (mkReadattr (mkEntryList max (Z.of_nat n) slots) dir 0) =
    Ok (0, mkReadattr (mkEntryList max (Z.of_nat n) slots) dir ENOENT)).
  { unfold catrec_readattr. cbn [ra_list ra_dir ra_error maxentries realentries ce_entry]. rewrite (proj2 (Z.leb_gt _ _)) by lia.
    destruct (negb _); [done|]. unfold parent_of in Hrest. cbn [fst] in Hrest. by rewrite (proj2 (Z.eqb_neq _ _)) by done. }
  cbn [calls]. unfold reading. rewrite (keep_Ok _ _ _ _ _ _ _ Hread). cbn [Z.eqb fst snd]. eexists. split; [done|]. split; [done|]. by intros err ->.
Qed.

Lemma resolve_none n : forall x l, Forall (fun e => is_link m (ce_attr e) = false) (take n l) -> resolve_links junk n m x l = Ok (l, x).
Proof using All.
  induction n as [|n IH]; intros x [|e l]; cbn [take resolve_links]; try done. intros [He Hl]%Forall_cons. rewrite He. cbn [mbind outcome_bind].
  rewrite (IH x l Hl). done.
Qed.

Lemma start_entries_spec x cat L t prevdesc : rep x cat -> ordered cat L -> t ∈ L -> catalog_rank_plus t.1 = thread_at (cd_parentcnid prevdesc) ->
  0 <= cd_parentcnid prevdesc < 2 ^ 32 -> cd_hint prevdesc = 0 ->
  exists it x', start_entries junk m x prevdesc 0 = Ok (0, it, x') /\ rep x' cat /\ at_key it t.1.
Proof using All.
  intros Hrep Hord Ht Hrank Hdir Hhint. unfold start_entries. cbn [Nat.eqb orb mbind outcome_bind]. rewrite Hstd, Hhint.
  set (it := set_key _ (buildthreadkey _ false _)).
  destruct (buildthreadkey_plus (cd_parentcnid prevdesc) (it_key new_iterator)) as (Hf & Hlen & Hr & _); [by apply Forall_replicate|done|done|].
  change (length (it_key new_iterator)) with 522%nat in Hlen. assert (Hl522 : length (it_key it) = 522%nat) by exact Hlen.
  destruct (law_search x cat it junk true Hrep (proj1 Hf) eq_refl Hjunk) as (err & it' & r & n & x' & -> & Hrep' & _ & Hfound).
  change (catalog_rank_plus (it_key it)) with (catalog_rank_plus (buildthreadkey (cd_parentcnid prevdesc) false (it_key new_iterator))) in Hfound.
  rewrite Hr in Hfound. fold (thread_at (cd_parentcnid prevdesc)) in Hfound. rewrite <- Hrank in Hfound. destruct t as [tk td]. cbn [fst] in *.
  rewrite (proj1 (ord_elem _ _ Hord tk td) Ht) in Hfound. destruct Hfound as (-> & -> & _ & _ & Hkey).
  destruct (ord_keys _ _ Hord _ _ Ht) as [[Hfk Hlk] _]. pose proof (thread_rank_name tk _ Hfk Hrank) as Hn0. destruct Hfk as [_ Ek].
  destruct (Hkey eq_refl ltac:(lia)) as (Hl' & Hb' & Hs'). exists it', x'. split; [done|]. split; [done|]. split; [|done].
  split; [lia|]. apply Hb', Hf.
Qed.

(** The entries that were filled in. *)
Lemma fill_no_link dir rs : forall n slots, Forall (in_folder dir) rs -> Forall (fun e => is_link m (ce_attr e) = false) (take n slots) ->
  Forall (fun e => is_link m (ce_attr e) = false) (take (n + length rs) (fill n slots rs)).
Proof using All.
  induction rs as [|r rs IH]; intros n slots Hrs Hs; [by rewrite Nat.add_0_r|]. apply Forall_cons in Hrs as [Hr Hrs].
  cbn [fill length]. rewrite Nat.add_succ_r. apply (IH (S n)); [done|]. rewrite Forall_lookup in Hs |- *. intros j e He.
  apply lookup_take_Some in He as [He Hj]. destruct (decide (n = j)) as [<-|Hne].
  - rewrite list_lookup_alter_eq in He. destruct (slots !! n) as [old|]; [|done]. injection He as <-. by apply (entry_no_link dir).
  - rewrite list_lookup_alter_ne in He by done. apply (Hs j). apply lookup_take_Some. split; [done|lia].
Qed.

(** C24: [cat_getentriesattr] from the first entry on, on an HFS Plus volume and without a
    hint, lists the entries of a folder that has no hard links and not the private folder of
    the root, in the order of the keys, each in its slot with its name, parent, number, kind,
    attributes and the sizes of its forks, until the list is full or the folder ends, for
    which the result is [ENOENT]; the slots behind them keep what they had, and the catalog
    is not changed. *)
Theorem cat_getentriesattr_correct x cat L t prevdesc list :
  let dir := cd_parentcnid prevdesc in
  let rs := filter (child_of dir) L in
  let n := Nat.min (Z.to_nat (maxentries list)) (length rs) in
  let slots := fill 0 (ce_entry list) (take n rs) in
  rep x cat -> ordered cat L -> t ∈ L -> catalog_rank_plus t.1 = thread_at dir -> 0 <= dir < 2 ^ 32 -> cd_hint prevdesc = 0 ->
  Forall (listed dir) rs -> 0 < maxentries list <= Z.of_nat (length (ce_entry list)) ->
  exists x', cat_getentriesattr junk m x prevdesc 0 list =
      Ok (if Z.of_nat (length rs) <? maxentries list then ENOENT else 0, mkEntryList (maxentries list) (Z.of_nat n) slots, x') /\ rep x' cat.
Proof using All.
  intros dir rs n slots Hrep Hord Ht Hrank Hdir Hhint Hlisted0 Hmax.
  assert (Hlisted : Forall (in_folder dir) rs).
  { rewrite Forall_forall in *. intros r Hr. pose proof (Hlisted0 r Hr) as Hl. apply list_elem_of_filter in Hr as [[Hp _] Hr]. split_and!; [done| |done].
    destruct r as [k d]. destruct (ord_keys _ _ Hord _ _ Hr) as [[Hk _] _]. apply (full_key_range k Hk). }
  assert (Hlinks : Forall (fun e => is_link m (ce_attr e) = false) (take n slots)).
  { pose proof (fill_no_link dir (take n rs) 0 (ce_entry list) ltac:(by apply Forall_take) ltac:(constructor)) as Hl.
    rewrite length_take, Nat.add_0_l, Nat.min_l in Hl by (unfold n; lia). exact Hl. }
  destruct (start_entries_spec x cat L t prevdesc Hrep Hord Ht Hrank Hdir Hhint) as (it & x1 & Estart & Hrep1 & Hat).
  assert (Htp : parent_of t = dir) by (unfold parent_of, catalog_rank_plus, thread_at, get in *; congruence).
  destruct (folder_split L dir t (ord_sorted _ _ Hord) Ht Hrank Htp) as (pre & post & HL & Hpost). fold rs in HL.
  pose proof (list_lookup_split pre t (rs ++ post)) as Hlook. pose proof (list_drop_split pre t (rs ++ post)) as Hdrop. rewrite <- HL in Hlook, Hdrop.
  destruct t as [tk td]. destruct (law_iterates cb (fun _ => True) x1 cat L it (length pre) tk td (reading (maxentries list) dir 0 (ce_entry list))
    Hrep1 Hord Hlook Hat I (fun _ _ _ _ _ => I)) as (it' & x2 & Hrun & Hrep2 & _).
  { intros k d tail len st Hin _. apply readattr_tail. by apply (ord_keys _ _ Hord _ _ Hin). }
  rewrite Hdrop, (readattr_children _ _ post rs 0 (ce_entry list) Hlisted) in Hrun by (cbn; lia). cbn [Nat.add] in Hrun.
  exists x2. split; [|done]. unfold cat_getentriesattr. rewrite Estart. cbn [mbind outcome_bind Z.eqb negb]. fold dir.
  change (Ok (mkReadattr (mkEntryList (maxentries list) 0 (ce_entry list)) dir 0)) with (reading (maxentries list) dir 0 (ce_entry list)). rewrite Hrun.
  cbn [mbind outcome_bind]. rewrite Hstd. rewrite Z.leb_antisym. destruct (Z.ltb_spec (Z.of_nat (length rs)) (maxentries list)) as [Hless|Hge]; cbn [negb].
  - assert (n = length rs) as En by (unfold n; lia). assert (Hfill : fill 0 (ce_entry list) rs = slots) by (unfold slots; by rewrite En, firstn_all).
    rewrite Hfill. destruct (readattr_end (maxentries list) dir (length rs) slots post ltac:(lia)) as (st & Est & Hlist & Hres).
    { by destruct post. }
    rewrite Est. cbn [mbind outcome_bind]. rewrite (Hres _ eq_refl), Hlist. cbn [realentries ce_entry maxentries].
    rewrite Nat2Z.id, <- En, (resolve_none n x2 slots Hlinks). done.
  - assert (n = Z.to_nat (maxentries list)) as En by (unfold n; lia). rewrite Nat.sub_0_r, <- En. fold slots. unfold reading.
    cbn [fst snd mbind outcome_bind ra_error ra_list realentries ce_entry maxentries]. rewrite Nat2Z.id, (resolve_none n x2 slots Hlinks).
    cbn [mbind outcome_bind Z.eqb negb]. rewrite (proj2 (Z.eqb_neq _ _)) by lia. done.
Qed.
End attributes.

(** ** The table *)

Definition not_after (a b : record) : Prop := lex_cmp (catalog_rank_plus a.1) (catalog_rank_plus b.1) <= 0.
#[export] Instance not_after_dec a b : Decision (not_after a b).
Proof. unfold not_after. apply _. Defined.

(** The records in order, and those behind a key. *)
Definition entries (x : catalog) : list record := merge_sort not_after (map_to_list x).*2.
Definition behind (x : catalog) (key : buffer) : list record :=
  filter (fun r => lex_cmp (catalog_rank_plus key) (catalog_rank_plus r.1) = -1) (entries x).

#[export] Instance table_directory : DirectoryTree catalog := {
  dt_iterate x _ it :=
    match behind x (it_key it) with
    | [] => Ok (btNotFound, it, x)
    | (k, _) :: _ => Ok (0, set_key it (splice (it_key it) 0 k), x)
    end;
  dt_iterates C x _ it cb st :=
    let l := behind x (it_key it) in
    Ok (if (calls cb l st).1 then 0 else btNotFound, set_key it (splice (it_key it) 0 (last_key cb l (key_trim (it_key it)) st)), (calls cb l st).2, x)
}.

#[export] Instance not_after_trans : Transitive not_after.
Proof. intros a b c. apply lex_cmp_trans. Qed.
#[export] Instance not_after_total : Total not_after.
Proof.
  intros a b. unfold not_after. rewrite (lex_cmp_sym (catalog_rank_plus a.1) (catalog_rank_plus b.1)).
  destruct (lex_cmp_range (catalog_rank_plus a.1) (catalog_rank_plus b.1)) as [->|[->| ->]]; lia.
Qed.

Lemma before_not_after L : StronglySorted before L -> StronglySorted not_after L.
Proof.
  induction 1 as [|r L Hs IH Hr]; constructor; [done|]. eapply Forall_impl; [exact Hr|]. unfold before, not_after. intros r' ->. lia.
Qed.

Lemma sorted_NoDup L : StronglySorted before L -> NoDup L.
Proof.
  induction 1 as [|r L Hs IH Hr]; constructor; [|done]. intros Hin. rewrite Forall_forall in Hr. specialize (Hr _ Hin). unfold before in Hr.
  by rewrite lex_cmp_refl in Hr.
Qed.

(** The table gives any list of the records in order. *)
Lemma entries_ordered c L : ordered c L -> entries c = L.
Proof.
  intros Hord. unfold entries. apply (StronglySorted_unique_strong not_after).
  - intros [k1 d1] [k2 d2] Hin1 Hin2 H1 H2. rewrite merge_sort_Permutation in Hin1. apply list_elem_of_fmap in Hin1 as ([r [k d]] & [= <- <-] & Hin1).
    apply elem_of_map_to_list in Hin1. pose proof (ord_rank _ _ Hord _ _ _ Hin1) as <-. apply (ord_elem _ _ Hord) in Hin2.
    unfold not_after in *. cbn [fst] in *. rewrite (lex_cmp_sym (catalog_rank_plus k1)) in H2.
    assert (catalog_rank_plus k1 = catalog_rank_plus k2) as E by (apply lex_cmp_eq; lia). rewrite E in Hin1. congruence.
  - apply StronglySorted_merge_sort; apply _.
  - by apply before_not_after, (ord_sorted _ _ Hord).
  - rewrite merge_sort_Permutation. apply NoDup_Permutation; [|by apply sorted_NoDup, (ord_sorted _ _ Hord)|].
    + apply NoDup_fmap_2_strong; [|apply NoDup_map_to_list]. intros [r1 [k1 d1]] [r2 [k2 d2]] H1%elem_of_map_to_list H2%elem_of_map_to_list [= <- <-].
      by rewrite <- (ord_rank _ _ Hord _ _ _ H1), <- (ord_rank _ _ Hord _ _ _ H2).
    + intros [k d]. rewrite (ord_elem _ _ Hord), list_elem_of_fmap. split.
      * intros ([r [k' d']] & [= <- <-] & H1%elem_of_map_to_list). by rewrite (ord_rank _ _ Hord _ _ _ H1).
      * intros H1. exists (catalog_rank_plus k, (k, d)). by rewrite elem_of_map_to_list.
Qed.

Lemma behind_ordered c L key n k d : ordered c L -> L !! n = Some (k, d) -> catalog_rank_plus key = catalog_rank_plus k -> behind c key = drop (S n) L.
Proof.
  intros Hord Hn Hr. unfold behind. rewrite (entries_ordered c L Hord), Hr. pose proof (ord_sorted _ _ Hord) as Hs.
  apply list_elem_of_split_length in Hn as (pre & post & -> & ->). rewrite list_drop_split.
  rewrite filter_app, filter_none, filter_cons_False, filter_all; [done| | |].
  - clear -Hs. induction pre as [|p pre IH]; simpl in Hs; [by apply StronglySorted_inv in Hs as [_ Hs]|]. apply StronglySorted_inv in Hs as [Hs _]. by apply IH.
  - cbn [fst]. by rewrite lex_cmp_refl.
  - apply Forall_forall. intros r Hin. assert (before r (k, d)) as Hb.
    { clear -Hs Hin. induction pre as [|p pre IH]; [by apply not_elem_of_nil in Hin|]. simpl in Hs. apply StronglySorted_inv in Hs as [Hs Hp].
      apply elem_of_cons in Hin as [->|Hin]; [|by apply IH]. apply Forall_app in Hp as [_ [? _]%Forall_cons]. done. }
    unfold before in Hb. cbn [fst] in Hb. rewrite (lex_cmp_sym (catalog_rank_plus r.1)), Hb. done.
Qed.

Lemma at_key_slice it k : stored_key k -> at_key it k -> slice (it_key it) 2 (get k 0 2) = slice k 2 (get k 0 2).
Proof.
  intros [Hk Hl] [_ Hs]. pose proof (full_key_range k Hk) as (H0 & _ & H8). destruct Hk as [_ E].
  transitivity (slice (slice (it_key it) 0 (Z.of_nat (length k))) 2 (get k 0 2)); [symmetry; apply (slice_slice (it_key it) 0); lia|by rewrite Hs].
Qed.

Lemma at_key_rank it k : stored_key k -> at_key it k -> catalog_rank_plus (it_key it) = catalog_rank_plus k /\ key_trim (it_key it) = k.
Proof.
  intros Hk Hat. pose proof (at_key_slice it k Hk Hat) as Hsl. destruct Hk as [Hk Hl]. pose proof (full_key_range k Hk) as (H0 & _ & H8).
  pose proof Hat as [_ Hs]. split.
  - change (it_key it) with (drop (Z.to_nat 0) (it_key it)). by apply rank_slice.
  - unfold key_trim. rewrite (at_key_get it k) by (done || lia). by rewrite <- Hl.
Qed.

Lemma set_at_key it k : iterator_ok it -> stored_key k -> get k 6 2 <= 255 -> at_key (set_key it (splice (it_key it) 0 k)) k.
Proof.
  intros [Hl Hb] [Hk Hkl] Hn. destruct Hk as [(Hkb & _ & _) E]. split; [split|]; cbn [it_key set_key].
  - rewrite splice_length; lia.
  - by apply splice_bytes.
  - apply slice_splice_same; lia.
Qed.

Lemma at_carries it k : stored_key k -> at_key it k -> carries it k.
Proof.
  intros Hk Hat. split; [apply Hat|by apply at_key_slice].
Qed.

Lemma last_key_elem {C} (cb : buffer -> buffer -> Z -> C -> Z * C) l : forall key st, last_key cb l key st = key \/ exists d, (last_key cb l key st, d) ∈ l.
Proof.
  induction l as [|[k d] l IH]; intros key st; cbn [last_key]; [by left|]. destruct (cb k d _ st) as [more st']. right.
  destruct (more =? 0); [exists d; by left|]. destruct (IH k st') as [->|[d' Hd']]; [exists d; by left|exists d'; by right].
Qed.

#[export] Instance table_directory_laws : DirectoryTreeLaws catalog table_rep.
Proof.
  split.
  - intros x c L it n k d [-> Hb] Hord Hn Hat. pose proof (list_elem_of_lookup_2 _ _ _ Hn) as Hin. destruct (ord_keys _ _ Hord _ _ Hin) as [Hk _].
    destruct (at_key_rank it k Hk Hat) as [Hr _]. cbn [dt_iterate table_directory]. rewrite (behind_ordered c L _ n k d Hord Hn Hr).
    destruct (L !! S n) as [[k' d']|] eqn:En.
    + rewrite (drop_S _ _ _ En). eexists _, _, _. split; [done|]. split; [done|]. split; [done|].
      destruct (ord_keys _ _ Hord _ _ (list_elem_of_lookup_2 _ _ _ En)) as [Hk' Hn']. by apply set_at_key; [apply Hat|..].
    + rewrite drop_ge by by apply lookup_ge_None. by eexists _, _, _.
  - intros C cb I x c L it n k d st [-> Hb] Hord Hn Hat HI HIcb Htail. pose proof (list_elem_of_lookup_2 _ _ _ Hn) as Hin.
    destruct (ord_keys _ _ Hord _ _ Hin) as [Hk Hk255]. destruct (at_key_rank it k Hk Hat) as [Hr Htrim]. cbn [dt_iterates table_directory].
    rewrite (behind_ordered c L _ n k d Hord Hn Hr), Htrim. eexists _, _. split; [done|]. split; [done|].
    assert (exists d', (last_key cb (drop (S n) L) k st, d') ∈ L) as [d' Hd'].
    { destruct (last_key_elem cb (drop (S n) L) k st) as [->|[d' Hd']]; [by exists d|]. exists d'.
      assert (Happ : (last_key cb (drop (S n) L) k st, d') ∈ take (S n) L ++ drop (S n) L) by (apply elem_of_app; by right). by rewrite take_drop in Happ. }
    destruct (ord_keys _ _ Hord _ _ Hd') as [Hk' Hn']. apply at_carries; [done|]. by apply set_at_key; [apply Hat|..].
Qed.

(** The records of a catalog are ordered. *)
Lemma entries_inv c : catalog_inv c -> ordered c (entries c).
Proof.
  intros Hinv. assert (Hrank : forall r k d, c !! r = Some (k, d) -> catalog_rank_plus k = r) by (intros r k d H; apply (ci_key _ Hinv _ _ _ H)).
  assert (Helem : forall k d, (k, d) ∈ entries c <-> c !! catalog_rank_plus k = Some (k, d)).
  { intros k d. unfold entries. rewrite merge_sort_Permutation, list_elem_of_fmap. split.
    - intros ([r [k' d']] & [= <- <-] & H%elem_of_map_to_list). by rewrite (Hrank _ _ _ H).
    - intros H. exists (catalog_rank_plus k, (k, d)). by rewrite elem_of_map_to_list. }
  split; [done|done| |].
  - intros k d H%Helem. destruct (ci_key _ Hinv _ _ _ H) as (? & _ & _ & ?). done.
  - assert (Hnd : NoDup (entries c)).
    { unfold entries. rewrite merge_sort_Permutation. apply NoDup_fmap_2_strong; [|apply NoDup_map_to_list].
      intros [r1 [k1 d1]] [r2 [k2 d2]] H1%elem_of_map_to_list H2%elem_of_map_to_list [= <- <-]. by rewrite <- (Hrank _ _ _ H1), <- (Hrank _ _ _ H2). }
    assert (Hs : StronglySorted not_after (entries c)) by (apply StronglySorted_merge_sort; apply _).
    assert (Hsub : forall r, r ∈ entries c -> c !! catalog_rank_plus r.1 = Some r) by (intros [k d]; apply Helem).
    revert Hnd Hs Hsub. generalize (entries c). intros l Hnd. induction l as [|r l IH]; intros Hs Hsub; constructor.
    + apply NoDup_cons in Hnd as [_ Hnd]. apply StronglySorted_inv in Hs as [Hs _]. apply IH; [done|done|]. intros r' Hr'. apply Hsub. by right.
    + apply NoDup_cons in Hnd as [Hr _]. apply StronglySorted_inv in Hs as [_ Hs]. rewrite Forall_forall in Hs |- *. intros r' Hr'.
      specialize (Hs r' Hr'). unfold not_after, before in *. destruct (lex_cmp_range (catalog_rank_plus r.1) (catalog_rank_plus r'.1)) as [E|[E|E]]; [done| |lia].
      apply lex_cmp_eq in E. exfalso. apply Hr. assert (r = r') as ->; [|done].
      assert (Some r = Some r') as [= ->]; [|done]. rewrite <- (Hsub r), <- (Hsub r'), E; [done|by right|by left].
Qed.

(** ** Runs: the folder with the two files *)

Lemma sample3_ok : table_rep sample3.2 sample3.2 /\ catalog_inv sample3.2.
Proof.
  destruct sample_create as (H1 & H2 & H3 & H4 & H5 & H6 & H7). destruct sample2_ok as [Hr Hi].
  eapply (create_state sample2.1 sample2.2 5 file_b (sample_attr 0x81A4)); [exact Hr|exact Hi|exact H1|exact H2|exact H3|exact H4| |exact H5|exact H6|exact H7|].
  - apply sample_attr_ok. lia.
  - vm_compute. reflexivity.
Qed.

Definition folder_d : cat_desc := sample_desc 2 0 16 [100].
Definition children_d : list record := Eval vm_compute in filter (child_of 16) (entries sample3.2).
Definition thread_d : record := Eval vm_compute in default ([], []) (sample3.2 !! thread_at 16).
Definition dirents_d : list dirent := Eval vm_compute in omap (entry_of 24 sample3.1) children_d.
Definition no_error (_ : uio) (_ : Z) : Z := 0.

Lemma children_d_eq : filter (child_of 16) (entries sample3.2) = children_d.
Proof. vm_compute. reflexivity. Qed.

Lemma thread_d_in : thread_d ∈ entries sample3.2 /\ catalog_rank_plus thread_d.1 = thread_at 16.
Proof.
  assert (E : catalog_rank_plus thread_d.1 = thread_at 16) by (vm_compute; reflexivity). split; [|exact E].
  rewrite (surjective_pairing thread_d). apply (ord_elem _ _ (entries_inv _ (proj2 sample3_ok))). rewrite E. vm_compute. reflexivity.
Qed.

Lemma init_longs_free : longs_free InitCatalogCache.
Proof.
  intros j c Hc. pose proof (ci_names _ _ InitCatalogCache_inv) as Hn. unfold data, InitCatalogCache in Hc. cbn [iterators] in Hc.
  rewrite list_lookup_fmap in Hc. apply fmap_Some in Hc as (d & Hd & ->). apply list_elem_of_lookup_2, list_elem_of_fmap in Hd as (n & -> & _). done.
Qed.


(** The call after one that had room for [a] only: [b] is not found. *)
Lemma cat_getdirentries_later_witness : length children_d = 2%nat /\ sizes 24 (take 1 children_d) = 28 /\
  exists g' l' x', cat_getdirentries sample_junk 24 64 no_error 2 sample3.1 1 0 0 InitCatalogCache sample3.2 folder_d (mkUio 92 100 []) =
    Ok (0, 1, mkUio 92 100 [], g', x') /\ cache_inv g' l' /\ table_rep x' sample3.2.
Proof.
  split; [reflexivity|]. split; [vm_compute; reflexivity|]. destruct sample3_ok as [Hrep Hinv]. destruct thread_d_in as [Hin Hrank].
  refine (cat_getdirentries_later table_rep sample_junk (proj2 sample_junk_ok) 24 64 no_error sample3.1 2 1 0 0 InitCatalogCache _ sample3.2 sample3.2 (entries sample3.2)
    thread_d 15 folder_d (mkUio 92 100 []) 1 eq_refl _ _ _ _ _ _ InitCatalogCache_inv init_longs_free _ Hrep (entries_inv _ Hinv) Hin Hrank);
    change (cd_cnid folder_d) with 16; rewrite ?children_d_eq.
  - discriminate.
  - split; [discriminate|reflexivity].
  - cbn. lia.
  - vm_compute. reflexivity.
  - vm_compute. reflexivity.
  - cbn. lia.
  - vm_compute. reflexivity.
Defined.

(** The two files, in a list that has room for them. *)
Definition no_entry : cat_entry := mkEntry (sample_desc 0 0 0 []) (sample_attr 0) 0 0 0 0.
Definition empty_list (max : Z) : cat_entrylist := mkEntryList max 0 (replicate MAXCATENTRIES no_entry).
Definition list_d : list cat_entry := Eval vm_compute in fill sample3.1 0 (replicate MAXCATENTRIES no_entry) (take 2 children_d).

Lemma children_d_listed : Forall (listed sample3.1 16) children_d.
Proof.
  assert (Hone : forall r, r ∈ children_d -> listed sample3.1 16 r); [|by apply Forall_forall].
  intros r [->|[->|[]%not_elem_of_nil]%elem_of_cons]%elem_of_cons; right; (split; [vm_compute; reflexivity|vm_compute; discriminate]).
Qed.

Lemma cat_getentriesattr_correct_witness : map (fun e => cd_cnid (ce_desc e)) (take 2 list_d) = [17; 18] /\ map (fun e => cd_hint (ce_desc e)) (take 2 list_d) = [248; 248] /\
  exists x', cat_getentriesattr sample_junk sample3.1 sample3.2 (sample_desc 16 0 0 []) 0 (empty_list 2) = Ok (0, mkEntryList 2 2 list_d, x') /\
    table_rep x' sample3.2.
Proof.
  split; [reflexivity|]. split; [reflexivity|]. destruct sample3_ok as [Hrep Hinv]. destruct thread_d_in as [Hin Hrank].
  assert (Hfill : fill sample3.1 0 (ce_entry (empty_list 2)) (take 2 children_d) = list_d) by (vm_compute; reflexivity).
  destruct (cat_getentriesattr_correct table_rep sample_junk (proj2 sample_junk_ok) sample3.1 eq_refl sample3.2 sample3.2 (entries sample3.2) thread_d
    (sample_desc 16 0 0 []) (empty_list 2) Hrep (entries_inv _ Hinv) Hin Hrank ltac:(split; [discriminate|reflexivity]) eq_refl) as (x' & He & Hx');
    change (cd_parentcnid (sample_desc 16 0 0 [])) with 16 in *; rewrite ?children_d_eq in *.
  - exact children_d_listed.
  - split; [reflexivity|vm_compute; discriminate].
  - change (Nat.min (Z.to_nat (maxentries (empty_list 2))) (length children_d)) with 2%nat in He. rewrite Hfill in He.
    exists x'. split; [exact He|exact Hx'].
Defined.
